(* ===== verification/_CoqProject ===== *)
-Q . S2P
Prelude.v
AndroidBase.v
RangeSet.v
Asn1.v
Package.v
BlockMap.v
Verifier.v
Keys.v
DevTypes.v
DevMutex.v
DevQueue.v
DevQueueThreads.v
DevSemaphore.v
DevTimer.v
DevMsg.v
DevMsgList.v
DevMsgSpec.v
DevStdlib.v
DevVerified.v
DevArrays.v
DevMemoryPool.v
DevMemoryPoolSize.v
DevMemoryPoolInv.v
DevMemoryPoolTab.v
DevMemoryPoolOps.v
DevMemoryPoolSpec.v
DevMemoryPoolClient.v
DevLibPool.v
DevLibPoolSpec.v
DevLibPoolCases.v
DevPthread.v
DevThreads.v
DevPthreadPool.v
DevPthreadPoolSpec.v
DevPthreadPoolAlone.v
DevDetector.v
DevDetectorSpec.v
WbString.v
WbResult.v
WbCommand.v
WbDevice.v
WbHandler.v
WbHandlerSpec.v
WbSession.v
WbServer.v
WbServerSpec.v
WbUtil.v
WbPaths.v
WbUtilSpec.v
WbLayout.v
WbCodec.v
WbCodecLayout.v
WbCodecText.v
WbCodecFiles.v
WbCodecSpec.v
WbCodecRead.v
WbCodecBlock.v
WbQdsp.v
WbQdspLayout.v
WbDriver.v
WbStartup.v
WbDriverSpec.v
WbQdspSections.v
WbQdspRegs.v
WbQdspBlock.v
WbQdspDevice.v
WbStartupSpec.v
DevSettings.v
DevSettingsSpec.v
CamLinks.v
CamPortPrune.v
CamNodePrune.v
CamPruner.v
CamPrunerSpec.v
CamSchedule.v
CamScheduleInv.v
CamScheduleSteps.v
CamScheduleSpec.v
CamPool.v
CamImage.v
