(* ===== verification/Prelude.v ===== *)
(** * Verification of the Xiaomi vendor services

    The repository under [src/] holds the vendor side of a phone: an over-the-air
    package verifier, camera plug-ins with the device SDK they share, speaker
    calibration tools, display, touch and memory daemons, and many small system
    services.  This library models the parts with logic of their own and proves
    what they are relied upon for.  Four parts are modelled.

    ** 1. The OTA package verifier ([src/miupdate/recovery_otaverifier/])

    - [RangeSet]: [otautil/rangeset.cpp], sets of block ranges and their text form.
      The specification is the list of blocks of a set.
    - [AndroidBase]: the libbase routines the OTA code calls, as a class with laws
      and a concrete instance (libbase is not under [src/]).
    - [Asn1]: [install/asn1_decoder.cpp] and [read_pkcs7] of [install/verifier.cpp];
      the decoder moves a pointer in a buffer, the specification parses lists.
    - [Package]: [install/package.cpp]; [VerifierInterface] is the C++ class of that
      name, [PackageLaws] what a package promises to the verifier, with
      [MemoryPackage] and [FilePackage] as instances.  The kernel's [read]/[lseek]
      and libziparchive are classes.
    - [BlockMap]: [otautil/sysutil.cpp], packages that lie in blocks of a device and are mapped
      into memory; the kernel's mappings are the class [Memory].
    - [Verifier]: [verify_file] of [install/verifier.cpp], in its phases (footer,
      EOCD record, digests, signature, keys), over any [VerifierInterface];
      BoringSSL is the class [Crypto].
    - [Keys]: certificates, the key policy and the key store of [install/verifier.cpp],
      and [verify_otapackage] of [otapackage_verifier.cpp], which calls all of the
      above.

    Main theorems: [verify_file] accepts exactly the packages with the layout of a
    signed package and an attested digest, terminates within its buffers on any
    bytes, accepts every package the signer writes, and ([verify_file_ignores_read_errors])
    accepts one it should not when a read fails while hashing; [read_pkcs7] refines
    the list parser and inverts DER encoding; the key policy; the codes of
    [verify_otapackage]; [RangeSet] operations against the block list; a package mapped through its
    block map has the bytes of its blocks.

    ** 2. The device SDK ([src/mivifwk/odm/plugins/qcom/ldc/device/])

    C modules behind a structure of function pointers; each keeps a table of
    entries addressed by small ids, which the caller holds in a variable of its
    own that the module clears on [Destroy].

    - [DevTypes]: [dev_type.h], the callers' variables, POSIX mutexes, and [MutexLib]
      with its contract [MutexLaws], the part of the mutex module the others use.
    - [DevMutex] ([dev_mutex.cpp]) implements [MutexLib].
    - [DevQueue] ([dev_queue.cpp]): ring buffers of bytes; [DevQueueThreads]: the same
      bodies as sequences of shared-memory accesses of two threads.
    - [DevSemaphore] ([dev_semaphore.cpp]), over POSIX semaphores.
    - [DevTimer] ([dev_timer.cpp]): many timers on one base timer.
    - [DevMsg] ([dev_msg.cpp]): message queues as linked lists in an explicit heap;
      [DevMsgList]: the representation predicate; [DevMsgSpec]: the deque they refine.
    - [DevMemoryPool] ([dev_memoryPool.cpp]): a pool of blocks by size, with marks around
      the caller's bytes, on an explicit heap of blocks; [DevArrays]: its array loops
      and binary searches; [DevMemoryPoolSize]: the sizes of blocks; [DevMemoryPoolInv], [DevMemoryPoolTab]: the invariant of
      lists, nodes and maps; [DevMemoryPoolOps], [DevMemoryPoolSpec]: each step, and
      [Malloc] and [Free], from a state that satisfies it; [DevMemoryPoolClient]: the heap
      they implement.
    - [DevLibPool] ([dev_libPool.cpp]): shared libraries opened by name or by directory and
      counted, over a dynamic linker ([DynLib]); [DevLibPoolSpec]: what clients may rely on;
      [DevLibPoolCases]: where libraries are mixed up, and the file names accepted.
    - [DevPthread] ([dev_pthread.cpp]): a table of threads over the POSIX calls.
    - [DevPthreadPool] ([dev_pthreadPool.cpp]): six workers and a queue of 24 jobs; the
      bodies are programs over shared memory, locks and condition variables, in the
      language of [DevThreads], which also holds the rely-guarantee rule and the test of a
      schedule.  A job is copied field by field, and an unlock of a lock that is not held
      frees it or is undefined, by a parameter.  [DevPthreadPoolSpec]: what holds of every
      interleaving, and interleavings that lose, corrupt or tear jobs ([Cases.pool_tears]);
      [DevPthreadPoolAlone]: the queue that operations which do not overlap refine where
      such an unlock frees the lock, and that each post is undefined where it does not
      ([Post_undefined]).
    - [DevDetector] ([dev_detector.cpp]): measurements of consumption and frame rate with a
      watchdog, over [DevTimer]; [DevDetectorSpec]: a round of the watchdog.
    - [DevStdlib] ([dev_stdlib.cpp]): hexadecimal text and tokens.
    - [DevVerified] ([dev_verified.cpp]): CRC-16 and CRC-32.
    - [DevSettings] ([dev_settings.cpp]): a table of settings overridden by a file;
      [DevSettingsSpec]: what the lines of the file set.

    Main theorems: queues refine bounded FIFOs, alone and between two threads;
    message queues refine bounded deques, without leaks of their own; the memory pool
    refines a heap of separate blocks and detects every changed mark, for the requests it can
    handle ([can_malloc]); libraries a client
    holds stay loaded from the file asked for, as long as no two share a directory or a name;
    what the creation of a mutex does to the table and to the caller's variable; the deadline
    of a timed wait; the handler of the timers serves what is due and a started timer
    fires; the workers of the pool call only what was posted, in every interleaving, and
    the pool is a queue as long as its operations do not overlap; the watchdog reports
    what is overdue, up to one entry behind each reported one; the table-driven CRCs are polynomial division and detect every changed
    byte; text conversions are inverse to each other; the settings are those of the last lines
    with their names, in the file or in what earlier files left behind it.  Several theorems
    pin down wrong behaviour: locks that are never released, writes past the end of
    the ring, a freed node that is used, libraries unloaded under a client, jobs of the
    pool that are run twice or left to sleeping workers, a watchdog that is not armed or
    waits for itself, creations that report success and create nothing.

    ** 3. The WISCE bridge ([src/spkcal/cirrus/tools/wbridge/])

    A server on the phone that lets a tuning tool on the host read and write the
    registers of an audio codec.

    - [WbString] ([StringUtil.cpp]): splitting and searching strings.
    - [WbResult] ([Result.h]): the result codes, and formatted output.
    - [WbCommand] ([Command.cpp], [Command.h]): the parser of the host's commands and
      the accessors of a command.
    - [WbDevice] ([BaseCommunications.h], [BaseCommunications.cpp]): the interface of a codec as the
      class [Device], with [DeviceLaws], and the operations of the base class.
    - [WbHandler] ([CommandHandler.cpp]): the replies to all commands, over any [Device];
      [WbHandlerSpec]: every command is answered, and the text of the register map.
    - [WbSession]: the register file a client sees, and a device in memory for the witnesses.
    - [WbServer] ([Server.cpp]): a connection, cut into commands, over a [Socket];
      [WbServerSpec]: the bytes received and sent on a connection.
    - [WbUtil], [WbPaths] ([WISCEBridgeUtil.cpp]): the layout of a register file with its binary
      search, the parsers of register lines and of paths; [WbUtilSpec]: the search and the order.
    - [WbLayout] ([LinuxDriverCommunication.cpp]): what a line of a register file or of its range
      file adds to a layout; [WbCodecLayout] ([DeviceCommunication.cpp]): the files read line by line.
    - [WbCodec] ([DeviceCommunication.cpp]): registers and blocks of a codec, read and written
      through the files of the kernel, the class [Files]; [WbCodecFiles]: what they promise
      ([CodecFiles]), and a disk; [WbCodecText]: the text of a register file; [WbCodecSpec],
      [WbCodecRead], [WbCodecBlock]: layouts, single registers and blocks.
    - [WbQdsp] ([QDSPIoctl.cpp], [LinuxDriverCommunication.cpp]): the algorithms of the
      speaker-protection driver as registers, over the class [Ioctl]; [WbQdspLayout]: the set-up of
      their sections.  [WbQdspSections]: what the driver promises ([QdspLaws]), and the sections;
      [WbQdspRegs], [WbQdspBlock]: single registers and chunks; [WbQdspDevice]: the
      theorems, and a driver.
    - [WbDriver] ([LinuxDriverCommunication.cpp]): the object behind the handler, an instance of
      [Device]: the choice of a codec and its operations; [WbStartup]: how codecs are found, over
      the class [Host].  [WbDriverSpec] joins it to the handler and the server, from the choice of a
      codec to the replies; [WbStartupSpec], from start-up on.

    Main theorems: which commands are parsed, that a block write is read back with
    its sequence number and its bytes, and the two
    commands on which the parser reads out of range; every parsed command is answered
    with its number, but for the help text and an empty register map, as long as the memory for
    a block is there and [delete] takes what [new[]] gave (class [Heap]); the register map can be read back from its text; a client that
    waits for its replies is served as by a register file, byte for byte, and of
    commands sent together all but the first lose their first byte; both ways of setting up a
    layout agree, and a codec is then a map from registers to values, for single registers
    and for blocks; the whole stack, from start-up to the bytes on
    the socket, serves the register file of the kernel; the registers of the signal
    processor are its memory, for a vector of sections that does not grow too soon.

    ** 4. Camera pipelines ([src/mivifwk/mialgoengine/])

    A photograph is processed by a graph of plug-in nodes.  A request prunes the graph of its
    camera and scene, then runs it.

    - [CamLinks] ([MiaJsonUtils.h], [MiaPipelinePruner.h]): nodes, links and ports, the ordered
      maps they are kept in, and the reading of metadata.
    - [CamPortPrune] and [CamNodePrune] ([pipelinePortPrune], [pipelineNodePrune] of
      [MiaPipelinePruner.cpp]): disabling ports, with what only fed them, and bypassing nodes.
      The specifications are the links that lost their feed ([removed]) and the paths of links
      through bypassed nodes ([paths_of]).
    - [CamPruner] ([MiaPipelinePruner.cpp], [MiaPipelinePrunerInfoMTK.cpp]): the choice of what to
      prune, the copying nodes put between, the cache of results, and the check of the links;
      [CamPrunerSpec]: what a request is given, and the verdict of the check.
    - [CamSchedule] ([postProcTask], [notifyNextNode] and the functions beside it in
      [MiaPipeline.cpp]): the thread of the pipeline and the threads of its nodes as a step
      relation; [CamScheduleInv]: the maps of the links and the invariant;
      [CamScheduleSteps]: every step keeps it; [CamScheduleSpec]: safety, completeness and
      progress of the engine.  The images that nodes exchange and wait for are not modelled: a
      node that was started may stay in its own code.
      [CamScheduleSpec.prune_sinks_typed] joins it to the pruner.
    - [CamPool] ([ThreadPool.cpp]): the threads that run the nodes, [enqueue] and the destructor,
      as a step relation.
    - [CamImage] ([MiaUtil.cpp], [MiaImage.cpp], [MiaBufferManager.cpp]): how images lie in
      memory, copies between them, and half floats.

    Main theorems: pruning ports deletes exactly the links that lost their feed; pruning nodes
    replaces paths by single links; a request is given a pipeline without direct links from
    sources or virtual nodes to sinks, and later ones with its key the same; the check
    ends, with the verdict of the last input; in every interleaving a node runs once, behind its
    predecessors, the engine goes on until its thread ends or a node is in its own code, and
    when a pipeline ends without a failure all nodes its sources feed have run; the thread
    pool keeps to its bound, loses no task and no wake-up, and ends; images lie in the buffers
    allocated for them, and copies stay in them.

    ** Conventions

    A C++ integer is a [Z]; the wrap-around of its width is written where the code
    computes ([u8], [u32], [u64], [s32], [+64], [-64]).  A function that can go wrong
    returns an [outcome] (below): a value, an abort, undefined behaviour (a read
    outside a buffer, a null or freed pointer, a lock protocol violation), a wait that
    never ends, or lack of fuel.  State is passed explicitly; a method returns the
    updated object.  A comment [@src file:lines symbol] in front of a definition
    names what it translates.  Code outside [src/] is a class with, where a proof
    needs it, a second class of documented laws, and an instance for the witnesses;
    the C and C++ standard libraries are modelled where they are used.  In [DevThreads] a
    step is one access to shared memory or one call of a lock or condition variable, a
    wait may wake up for no reason, and whether an unlock of a lock that is not held frees it
    or is undefined is a parameter.

    ** Fuel

    Recursion follows the data wherever the code's loop does.  The loops with fuel
    are: the hash loops of [Verifier] and [Package] (as many rounds as chunks, plus
    one), [asn1_constructed_skip_all] (each round consumes a byte, so the length of
    the context plus one), [Dev_xstoi] (the size of the array plus one, for strings
    of less than 2^16 characters: on longer ones the 16-bit index of the source starts
    over and the loop does not end), the binary searches of [DevMemoryPool] (each round
    narrows the range, so its length plus one), the loops of [DevDetector] over the
    watchdog's list (its length plus one), [shift_jobs] of [DevPthreadPool] (25 rounds for
    a queue of 24 places), [split_exact] (each round consumes a character)
    and the client that calls [Dev_strtok_r] until it returns null; in [WbServer] the loops of
    a connection (a round for each call of [recv]), [send_loop] (every call sends a byte) and
    [cut_commands] (every command has a byte); [search_layout] (the range narrows, so the length
    plus one), [add_range] (the registers of the range plus two), [first_lines] (every line has
    a byte) and [read_loop] (every read but the last delivers a byte); [read_chunks] and
    [write_chunks] (every chunk has a register, so their number plus one) and [read_name] (every
    read but the last delivers a byte); [find_last] of [DevSettings] (every occurrence is
    behind the one before, so the length of the text plus one); [run_queue] of [CamPortPrune] (a
    link is deleted once, so their number plus one), [getRealLinkIndex] (indices only grow, so the
    length of the table) and [checkLinkInformation] (without cycles a path has each node once, so
    the number of links plus one).  For each a theorem
    or lemma shows that the result is not [OutOfFuel].

    ** Not modelled

    The arithmetic of the display (a candidate).  Of the bridge: its command line, the log
    file, and the parts for Windows.  Of the camera engine: the buffers of the system and their pools,
    sessions and their callbacks, flushing, the queues of images between nodes, the readers of
    JSON and the dumps of links; the plug-ins are the actions a running node may take.  Left out for good: wrappers of system
    calls and binder services, vendored drivers and headers, image algorithms in
    closed libraries, logging.  Within the modelled files: log lines, timer callbacks
    that call the timer module again.  The modules of the SDK other than the byte queue and
    the thread pool are modelled one call at a time: what calls that overlap do to state that
    no lock protects is not modelled (an example for the semaphores' counter is in
    [DevSemaphore]). *)
From Stdlib Require Import ZArith Lia.
From stdpp Require Export base tactics numbers list gmap.

(** ** Outcomes of C++ code

    A C++ function may return, abort the process (a failing libbase [CHECK]),
    run into undefined behaviour, or wait for a lock nobody will release.
    [OutOfFuel] is the answer of a fuelled loop whose fuel was too small; the
    theorems show it never happens with the fuel the definitions choose. *)
Inductive outcome (A : Type) : Type :=
  | Ret (a : A)
  | Abort
  | UB
  | Blocked
  | OutOfFuel.
Arguments Ret {_} _.
Arguments Abort {_}.
Arguments UB {_}.
Arguments Blocked {_}.
Arguments OutOfFuel {_}.

#[export] Instance outcome_ret : MRet outcome := λ A a, Ret a.
#[export] Instance outcome_bind : MBind outcome := λ A B f m,
  match m with
  | Ret a => f a
  | Abort => Abort
  | UB => UB
  | Blocked => Blocked
  | OutOfFuel => OutOfFuel
  end.

#[export] Instance outcome_eq_dec `{EqDecision A} : EqDecision (outcome A).
Proof. solve_decision. Defined.

(** A read that is undefined behaviour when it fails. *)
Definition or_ub {A} (o : option A) : outcome A :=
  match o with Some a => Ret a | None => UB end.

Lemma outcome_bind_ret_l {A B} (a : A) (f : A → outcome B) :
  (Ret a ≫= f) = f a.
Proof. reflexivity. Qed.

Lemma option_bind_Some {A B} (a : A) (f : A → option B) : (Some a ≫= f) = f a.
Proof. reflexivity. Qed.

Lemma outcome_bind_ret_r {A} (m : outcome A) : (m ≫= Ret) = m.
Proof. by destruct m. Qed.

Lemma outcome_bind_assoc {A B C} (m : outcome A) (f : A → outcome B) (g : B → outcome C) :
  ((m ≫= f) ≫= g) = (m ≫= (λ x, f x ≫= g)).
Proof. by destruct m. Qed.

Lemma outcome_bind_Ret_inv {A B} (m : outcome A) (f : A → outcome B) b :
  (m ≫= f) = Ret b → ∃ a, m = Ret a ∧ f a = Ret b.
Proof. destruct m; naive_solver. Qed.

Lemma or_ub_Ret {A} (o : option A) a : or_ub o = Ret a ↔ o = Some a.
Proof. destruct o; naive_solver. Qed.

(** ** Machine integers

    A w-bit integer is a [Z]; [u8] .. [u64] reduce to the unsigned range and
    [s32], [s64] to the two's complement range, the conversions of C++. *)
Declare Scope mach_scope.
Delimit Scope mach_scope with mach.
#[global] Open Scope Z_scope.

Definition wrapu (w z : Z) : Z := z mod 2 ^ w.
Definition wraps (w z : Z) : Z := (z + 2 ^ (w - 1)) mod 2 ^ w - 2 ^ (w - 1).

Abbreviation u8 := (wrapu 8).
Abbreviation u16 := (wrapu 16).
Abbreviation u32 := (wrapu 32).
Abbreviation u64 := (wrapu 64).
Abbreviation s32 := (wraps 32).
Abbreviation s64 := (wraps 64).

(** Unsigned 64-bit arithmetic ([size_t], [uint64_t]). *)
Notation "x +64 y" := (wrapu 64 (x + y)) (at level 50, left associativity) : mach_scope.
Notation "x -64 y" := (wrapu 64 (x - y)) (at level 50, left associativity) : mach_scope.
Notation "x *64 y" := (wrapu 64 (x * y)) (at level 40, left associativity) : mach_scope.

Definition SIZE_MAX : Z := 2 ^ 64 - 1.
Definition INT_MAX : Z := 2 ^ 31 - 1.
Definition INT_MIN : Z := - 2 ^ 31.

Definition is_byte (z : Z) : Prop := 0 ≤ z < 256.
Definition is_u64 (z : Z) : Prop := 0 ≤ z < 2 ^ 64.
Definition is_s32 (z : Z) : Prop := INT_MIN ≤ z ≤ INT_MAX.

#[export] Instance is_byte_dec z : Decision (is_byte z).
Proof. unfold is_byte. apply _. Defined.
#[export] Instance is_u64_dec z : Decision (is_u64 z).
Proof. unfold is_u64. apply _. Defined.

Lemma wrapu_small w z : 0 ≤ z < 2 ^ w → wrapu w z = z.
Proof. apply Z.mod_small. Qed.

Lemma wrapu_range w z : 0 ≤ w → 0 ≤ wrapu w z < 2 ^ w.
Proof. intros. apply Z.mod_pos_bound. lia. Qed.

Lemma wrapu_wrapu w z : wrapu w (wrapu w z) = wrapu w z.
Proof. unfold wrapu. apply Zmod_mod. Qed.

Lemma wraps_small w z : 0 < w → - 2 ^ (w - 1) ≤ z < 2 ^ (w - 1) → wraps w z = z.
Proof.
  intros Hw Hz. unfold wraps.
  assert (2 ^ w = 2 * 2 ^ (w - 1)) as E.
  { replace w with (Z.succ (w - 1)) at 1 by lia. rewrite Z.pow_succ_r; lia. }
  rewrite Z.mod_small; lia.
Qed.

Lemma u64_small z : 0 ≤ z < 2 ^ 64 → u64 z = z.
Proof. apply wrapu_small. Qed.

Lemma u64_range z : 0 ≤ u64 z < 2 ^ 64.
Proof. by apply wrapu_range. Qed.

(** One overflow, one underflow. *)
Lemma u64_overflow z : 2 ^ 64 ≤ z < 2 * 2 ^ 64 → u64 z = z - 2 ^ 64.
Proof. intros. symmetry. apply (Z.mod_unique_pos _ _ 1); lia. Qed.

Lemma u64_underflow z : - 2 ^ 64 ≤ z < 0 → u64 z = z + 2 ^ 64.
Proof. intros. symmetry. apply (Z.mod_unique_pos _ _ (-1)); lia. Qed.

Lemma s32_small z : INT_MIN ≤ z ≤ INT_MAX → s32 z = z.
Proof. unfold INT_MIN, INT_MAX. intros. apply wraps_small; lia. Qed.

Lemma s64_small z : - 2 ^ 63 ≤ z < 2 ^ 63 → s64 z = z.
Proof. intros. apply wraps_small; simpl; lia. Qed.

Create HintDb mach.
#[export] Hint Resolve u64_range : mach.
#[export] Hint Unfold is_byte is_u64 is_s32 SIZE_MAX INT_MAX INT_MIN : mach.

(** Remove every wrap-around whose argument [lia] shows in range. *)
Ltac unwrap :=
  repeat match goal with
  | |- context [wrapu 64 ?z] => rewrite (u64_small z) by lia
  | H : context [wrapu 64 ?z] |- _ => rewrite (u64_small z) in H by lia
  | |- context [wraps 32 ?z] =>
      rewrite (s32_small z) by (unfold INT_MIN, INT_MAX in *; lia)
  | H : context [wraps 32 ?z] |- _ =>
      rewrite (s32_small z) in H by (unfold INT_MIN, INT_MAX in *; lia)
  | |- context [wraps 64 ?z] => rewrite (s64_small z) by lia
  | H : context [wraps 64 ?z] |- _ => rewrite (s64_small z) in H by lia
  end.

(** Split on the boolean comparison that drives the goal or a hypothesis. *)
Ltac case_bool :=
  match goal with
  | |- context [if ?b then _ else _] =>
      let E := fresh "E" in destruct b eqn:E
  | H : context [if ?b then _ else _] |- _ =>
      let E := fresh "E" in destruct b eqn:E
  end.

(** Turn boolean comparisons into the propositions they decide. *)
Ltac to_prop :=
  repeat match goal with
  | H : (_ <? _) = true |- _ => apply Z.ltb_lt in H
  | H : (_ <? _) = false |- _ => apply Z.ltb_ge in H
  | H : (_ <=? _) = true |- _ => apply Z.leb_le in H
  | H : (_ <=? _) = false |- _ => apply Z.leb_gt in H
  | H : (_ =? _) = true |- _ => apply Z.eqb_eq in H
  | H : (_ =? _) = false |- _ => apply Z.eqb_neq in H
  | H : _ && _ = true |- _ => apply andb_prop in H as [? ?]
  | H : _ || _ = false |- _ => apply orb_false_elim in H as [? ?]
  | H : negb _ = true |- _ => apply negb_true_iff in H
  | H : negb _ = false |- _ => apply negb_false_iff in H
  end.

(** A boolean fact about bytes, decided on all 256 of them. *)
Lemma byte_forall (P : Z → bool) b :
  forallb P (seqZ 0 256) = true → is_byte b → P b = true.
Proof.
  intros HP Hb. rewrite forallb_forall in HP. apply HP.
  rewrite <-list_elem_of_In. apply elem_of_seqZ. unfold is_byte in Hb. lia.
Qed.

(** ** Consecutive integers *)

Lemma take_seqZ n m k :
  take n (seqZ m k) = seqZ m (Z.min (Z.of_nat n) (Z.max k 0)).
Proof.
  apply list_eq. intros i.
  destruct (decide (i < n)%nat) as [Hi|Hi].
  - rewrite lookup_take_lt by lia.
    destruct (decide (Z.of_nat i < k)) as [Hk|Hk].
    + rewrite !lookup_seqZ_lt by lia. done.
    + rewrite !lookup_seqZ_ge by lia. done.
  - rewrite lookup_take_ge by lia. rewrite lookup_seqZ_ge by lia. done.
Qed.

Lemma drop_seqZ n m k :
  drop n (seqZ m k) = seqZ (m + Z.of_nat n) (k - Z.of_nat n).
Proof.
  apply list_eq. intros i. rewrite lookup_drop.
  destruct (decide (Z.of_nat (n + i) < k)) as [Hk|Hk].
  - rewrite !lookup_seqZ_lt by lia. f_equal. lia.
  - rewrite !lookup_seqZ_ge by lia. done.
Qed.

(** ** Arrays updated in place *)

(** [splice l i new] is the array [l] after [new] was copied over its
    elements [i, i + 1, ...]; its callers check that [new] fits. *)
Definition splice {A} (l : list A) (i : nat) (new : list A) : list A :=
  take i l ++ new ++ drop (i + length new) l.

Lemma length_splice {A} (l : list A) i new :
  (i + length new ≤ length l)%nat → length (splice l i new) = length l.
Proof. intros. unfold splice. rewrite !length_app, length_take, length_drop. lia. Qed.

Lemma lookup_splice_lt {A} (l : list A) i new j :
  (j < i)%nat → (i ≤ length l)%nat → splice l i new !! j = l !! j.
Proof.
  intros. unfold splice. rewrite lookup_app_l by (rewrite length_take; lia).
  by rewrite lookup_take_lt.
Qed.

Lemma lookup_splice_in {A} (l : list A) i new j :
  (i ≤ length l)%nat → (i ≤ j < i + length new)%nat →
  splice l i new !! j = new !! (j - i)%nat.
Proof.
  intros. unfold splice. rewrite lookup_app_r by (rewrite length_take; lia).
  rewrite length_take. replace (i `min` length l)%nat with i by lia.
  rewrite lookup_app_l by lia. done.
Qed.

Lemma lookup_splice_ge {A} (l : list A) i new j :
  (i ≤ length l)%nat → (i + length new ≤ j)%nat → splice l i new !! j = l !! j.
Proof.
  intros. unfold splice. rewrite lookup_app_r by (rewrite length_take; lia).
  rewrite length_take. rewrite lookup_app_r by lia. rewrite lookup_drop. f_equal. lia.
Qed.

(** [slice off n l]: the [n] elements of [l] from offset [off] on. *)
Definition slice {A} (off n : Z) (l : list A) : list A :=
  take (Z.to_nat n) (drop (Z.to_nat off) l).

Lemma length_slice {A} off n (l : list A) : 0 ≤ off → 0 ≤ n →
  off + n ≤ Z.of_nat (length l) → Z.of_nat (length (slice off n l)) = n.
Proof. intros. unfold slice. rewrite length_take, length_drop. lia. Qed.

Lemma slice_0 {A} off (l : list A) : slice off 0 l = [].
Proof. reflexivity. Qed.

Lemma slice_app {A} off n m (l : list A) : 0 ≤ off → 0 ≤ n → 0 ≤ m →
  slice off n l ++ slice (off + n) m l = slice off (n + m) l.
Proof.
  intros. unfold slice. rewrite !Z2Nat.inj_add by lia. rewrite <-drop_drop.
  apply take_take_drop.
Qed.

Lemma slice_slice {A} off n i m (l : list A) : 0 ≤ off → 0 ≤ i → 0 ≤ m → i + m ≤ n →
  slice i m (slice off n l) = slice (off + i) m l.
Proof.
  intros. unfold slice. rewrite skipn_firstn_comm, take_take, drop_drop. f_equal; [lia|].
  f_equal. lia.
Qed.

Lemma lookup_slice {A} off n (l : list A) (i : nat) : (Z.of_nat i < n) → 0 ≤ off →
  slice off n l !! i = l !! (Z.to_nat off + i)%nat.
Proof. intros. unfold slice. rewrite lookup_take_lt by lia. by rewrite lookup_drop. Qed.

Lemma slice_all {A} (l : list A) : slice 0 (Z.of_nat (length l)) l = l.
Proof. unfold slice. rewrite Nat2Z.id, drop_0. apply firstn_all. Qed.

Lemma slice_app_l {A} n (l k : list A) : n = Z.of_nat (length l) → slice 0 n (l ++ k) = l.
Proof. intros ->. unfold slice. by rewrite Nat2Z.id, drop_0, take_app_length. Qed.

Lemma slice_app_r {A} off n (l k : list A) :
  off = Z.of_nat (length l) → n = Z.of_nat (length k) → slice off n (l ++ k) = k.
Proof. intros -> ->. unfold slice. rewrite !Nat2Z.id, drop_app_length. apply firstn_all. Qed.

(** Rounds of a loop that takes steps of [c] up to [d] more units. *)
Lemma chunk_fuel_step d c n k : 0 < c → 0 < d → n = Z.min d c →
  (d + (c - 1)) / c < k + 1 → (d - n + (c - 1)) / c < k.
Proof.
  intros Hc Hd -> Hk. eapply (Z.lt_le_trans _ ((d + (c - 1)) / c)); [|lia].
  apply Z.div_lt_upper_bound; [lia|].
  pose proof (Z.div_mod (d + (c - 1)) c). pose proof (Z.mod_pos_bound (d + (c - 1)) c).
  assert (1 ≤ (d + (c - 1)) / c) by (apply Z.div_le_lower_bound; lia). nia.
Qed.

Lemma chunk_fuel_start d c : 0 < c → 0 ≤ d →
  (d + (c - 1)) / c < Z.of_nat (Z.to_nat (d / c + 2)).
Proof.
  intros Hc Hd. assert (0 ≤ d / c) by (apply Z.div_pos; lia).
  eapply (Z.le_lt_trans _ (d / c + 1)); [|lia].
  replace (d / c + 1) with ((d + 1 * c) / c) by (rewrite Z.div_add; lia).
  apply Z.div_le_mono; lia.
Qed.

Lemma chunk_fuel_pos d c : 0 < c → 0 ≤ d → 0 ≤ (d + (c - 1)) / c.
Proof. intros. apply Z.div_pos; lia. Qed.

(** Above everything in a list. *)
Lemma foldr_max_le l x : x ∈ l → x ≤ foldr Z.max 0 l.
Proof. induction 1; simpl; lia. Qed.

Lemma foldr_max_nonneg l : 0 ≤ foldr Z.max 0 l.
Proof. induction l; simpl; lia. Qed.

(** An invariant of a step relation holds in every reachable state. *)
Lemma rtc_invariant {A} (R : relation A) (I : A → Prop) :
  (∀ x y, I x → R x y → I y) → ∀ x y, rtc R x y → I x → I y.
Proof. intros HR x y Hr. induction Hr as [|x y z Hxy _ IH]; eauto. Qed.
