(* ===== verification/AndroidBase.v ===== *)
(** * The libbase text routines the OTA code calls

    [android::base::Split], [ParseUint] and [StringPrintf] live outside the
    repository (AOSP's libbase).  The models that call them take them as the
    class [AndroidBase]; [AndroidBaseLaws] states the documented behaviour the
    theorems rely on, and [libbase] is a concrete instance that satisfies it. *)
From S2P Require Import Prelude.
From Stdlib Require Import Ascii.
From stdpp Require Import strings pretty.
#[local] Open Scope Z_scope.

Class AndroidBase := {
  (** [Split(s, delimiters)] *)
  ab_Split : string → string → list string;
  (** [ParseUint(s, &out, max)]: the parsed value, or [None] for [false] *)
  ab_ParseUint : string → Z → option Z;
  (** [StringPrintf(",%zu,%zu", begin, end)] *)
  ab_printf_zu_zu : Z → Z → string;
}.

(** [std::to_string] on an unsigned value. *)
Definition to_string (n : Z) : string := pretty (Z.to_N n).

Fixpoint char_in (a : ascii) (s : string) : bool :=
  match s with
  | EmptyString => false
  | String b s' => bool_decide (a = b) || char_in a s'
  end.

(** The pieces joined by a separator character. *)
Fixpoint join_with (sep : ascii) (pieces : list string) : string :=
  match pieces with
  | [] => EmptyString
  | [p] => p
  | p :: ps => String.append p (String sep (join_with sep ps))
  end.

Definition comma : ascii := ","%char.

Class AndroidBaseLaws `{AndroidBase} : Prop := {
  (** Split cuts at every delimiter and nowhere else. *)
  ab_Split_join : ∀ ps, ps ≠ [] → Forall (λ p, char_in comma p = false) ps →
    ab_Split (join_with comma ps) (String comma EmptyString) = ps;
  (** ParseUint reads decimal text and enforces its maximum. *)
  ab_ParseUint_decimal : ∀ n max, 0 ≤ n ≤ max → ab_ParseUint (to_string n) max = Some n;
  ab_ParseUint_bound : ∀ s max n, ab_ParseUint s max = Some n → 0 ≤ n ≤ max;
  (** %zu prints in decimal. *)
  ab_printf_spec : ∀ a b, 0 ≤ a → 0 ≤ b →
    ab_printf_zu_zu a b =
      String comma (String.append (to_string a) (String comma (to_string b)));
}.

(** ** Strings as lists of characters *)

Lemma string_append_cons a s t :
  String.append (String a s) t = String a (String.append s t).
Proof. reflexivity. Qed.

Lemma string_append_nil_r s : String.append s EmptyString = s.
Proof. induction s as [|a s IH]; [done|]. rewrite !string_append_cons. by rewrite IH. Qed.

Lemma string_append_assoc s t u :
  String.append (String.append s t) u = String.append s (String.append t u).
Proof. induction s as [|a s IH]; [done|]. rewrite !string_append_cons. by rewrite IH. Qed.

Lemma char_in_append a s t :
  char_in a (String.append s t) = char_in a s || char_in a t.
Proof.
  induction s as [|b s IH]; simpl; [done|]. rewrite IH. by rewrite orb_assoc.
Qed.

(** ** A concrete instance *)

Fixpoint split_at (delims : string) (acc s : string) : list string :=
  match s with
  | EmptyString => [acc]
  | String c s' =>
      if char_in c delims then acc :: split_at delims EmptyString s'
      else split_at delims (String.append acc (String c EmptyString)) s'
  end.

Definition digit_of (c : ascii) : option N :=
  let n := N_of_ascii c in
  if ((48 <=? n) && (n <=? 57))%N then Some (n - 48)%N else None.

Fixpoint parse_digits (acc : N) (s : string) : option N :=
  match s with
  | EmptyString => Some acc
  | String c s' => d ← digit_of c; parse_digits (acc * 10 + d)%N s'
  end.

Definition parse_uint (s : string) (max : Z) : option Z :=
  match s with
  | EmptyString => None
  | _ => n ← parse_digits 0 s; if Z.of_N n <=? max then Some (Z.of_N n) else None
  end.

#[export] Instance libbase : AndroidBase := {
  ab_Split s delims := split_at delims EmptyString s;
  ab_ParseUint := parse_uint;
  ab_printf_zu_zu a b :=
    String comma (String.append (to_string a) (String comma (to_string b)));
}.

Lemma N_lt_10_cases (P : N → Prop) (d : N) :
  (d < 10)%N → Forall P [0; 1; 2; 3; 4; 5; 6; 7; 8; 9]%N → P d.
Proof.
  intros Hd HP. rewrite Forall_forall in HP. apply HP.
  assert (d = 0 ∨ d = 1 ∨ d = 2 ∨ d = 3 ∨ d = 4 ∨ d = 5 ∨ d = 6 ∨ d = 7 ∨ d = 8
    ∨ d = 9)%N by lia.
  rewrite !elem_of_cons. tauto.
Qed.

Lemma digit_of_pretty d : (d < 10)%N → digit_of (pretty_N_char d) = Some d.
Proof.
  intros Hd. apply (N_lt_10_cases (λ d, digit_of (pretty_N_char d) = Some d)); [done|].
  by repeat constructor.
Qed.

Lemma parse_pretty_go (x : N) (s : string) :
  parse_digits 0 (pretty_N_go x s) = parse_digits x s.
Proof.
  revert s. induction (N.lt_wf_0 x) as [x _ IH]. intros s.
  destruct (decide (x = 0)%N) as [->|Hx]; [by rewrite pretty_N_go_0|].
  rewrite pretty_N_go_step by lia.
  rewrite IH by (apply N.div_lt; lia).
  simpl. rewrite digit_of_pretty by (apply N.mod_lt; lia). simpl.
  f_equal. pose proof (N.div_mod x 10). lia.
Qed.

Lemma char_in_pretty_go c (x : N) s :
  (∀ d, (d < 10)%N → pretty_N_char d ≠ c) →
  char_in c (pretty_N_go x s) = char_in c s.
Proof.
  intros Hc. revert s. induction (N.lt_wf_0 x) as [x _ IH]. intros s.
  destruct (decide (x = 0)%N) as [->|Hx]; [by rewrite pretty_N_go_0|].
  rewrite pretty_N_go_step by lia.
  rewrite IH by (apply N.div_lt; lia). simpl.
  rewrite bool_decide_false; [done|].
  intros ->. eapply Hc; [|done]. apply N.mod_lt. lia.
Qed.

Lemma to_string_no_comma n : char_in comma (to_string n) = false.
Proof.
  unfold to_string, pretty, pretty_N. case_decide; [done|].
  rewrite char_in_pretty_go; [done|].
  intros d Hd. apply (N_lt_10_cases (λ d, pretty_N_char d ≠ comma)); [done|].
  by repeat constructor.
Qed.

Lemma parse_to_string n : 0 ≤ n → parse_digits 0 (to_string n) = Some (Z.to_N n).
Proof.
  intros Hn. unfold to_string, pretty, pretty_N. case_decide as H0.
  - rewrite H0. done.
  - by rewrite parse_pretty_go.
Qed.

Lemma split_at_piece delims acc p s :
  (∀ c, char_in c p = true → char_in c delims = false) →
  split_at delims acc (String.append p s) = split_at delims (String.append acc p) s.
Proof.
  revert acc. induction p as [|c p IH]; intros acc Hp; simpl.
  - by rewrite string_append_nil_r.
  - rewrite Hp by (simpl; rewrite bool_decide_true by done; done).
    rewrite IH, string_append_assoc; [done|].
    intros c' Hc'. apply Hp. simpl. rewrite Hc'. apply orb_true_r.
Qed.

Lemma split_at_join sep ps : ps ≠ [] → Forall (λ p, char_in sep p = false) ps →
  split_at (String sep EmptyString) EmptyString (join_with sep ps) = ps.
Proof.
  assert (∀ p s, char_in sep p = false →
    split_at (String sep EmptyString) EmptyString (String.append p s)
    = split_at (String sep EmptyString) p s) as Hpiece.
  { intros p s Hp. rewrite split_at_piece; [done|].
    intros c Hc. simpl. rewrite bool_decide_false; [done|congruence]. }
  intros Hne Hps. induction Hps as [|p ps Hp Hps IH]; [done|].
  destruct ps as [|q ps].
  - simpl. rewrite <-(string_append_nil_r p) at 1. by rewrite Hpiece.
  - change (join_with sep (p :: q :: ps)) with (String.append p (String sep (join_with sep (q :: ps)))).
    rewrite Hpiece by done. simpl. rewrite bool_decide_true by done. simpl. f_equal.
    by apply IH.
Qed.

Lemma to_string_not_empty n : to_string n ≠ EmptyString.
Proof.
  intros E. destruct (decide (0 ≤ n)) as [Hn|Hn].
  - pose proof (parse_to_string n Hn) as Hp. rewrite E in Hp. simpl in Hp.
    injection Hp as Hp. assert (n = 0) as -> by lia. done.
  - unfold to_string in E. replace (Z.to_N n) with 0%N in E by lia. done.
Qed.

#[export] Instance libbase_laws : AndroidBaseLaws.
Proof.
  split.
  - intros. by apply split_at_join.
  - intros n max [H0 Hm]. simpl. unfold parse_uint.
    destruct (to_string n) as [|c s] eqn:E; [by apply to_string_not_empty in E|].
    rewrite <-E, parse_to_string by done. simpl. rewrite Z2N.id by done.
    destruct (Z.leb_spec n max); [done|lia].
  - intros s max n. simpl. unfold parse_uint. destruct s as [|c s]; [done|].
    destruct (parse_digits 0 (String c s)) as [m|]; [|done]. simpl.
    destruct (Z.leb_spec (Z.of_N m) max); [|done]. intros [= <-]. lia.
  - done.
Qed.
