(* ===== verification/RangeSet.v ===== *)
(** * Block ranges of an OTA package

    Model of [src/miupdate/recovery_otaverifier/otautil/rangeset.cpp]: the
    class [RangeSet], a list of half-open block ranges with a running block
    count, and its subclass [SortedRangeSet].  Every [size_t] is a [Z] reduced
    modulo 2^64 where the code computes on it.  The specification side is
    [blocks_of], the list of block numbers a set of ranges stands for: each
    operation is proved to implement the list operation it means. *)
From S2P Require Import Prelude AndroidBase.
From stdpp Require Import strings sorting.
#[local] Open Scope Z_scope.
#[local] Open Scope mach_scope.

Abbreviation Range := (Z * Z)%type.

(** @src src/miupdate/recovery_otaverifier/otautil/include/otautil/rangeset.h:128-132 RangeSet
    The data members; [blocks_] caches the number of blocks. *)
Record RangeSet := mkRangeSet { ranges_ : list Range; blocks_ : Z }.

#[export] Instance RangeSet_eq_dec : EqDecision RangeSet.
Proof. solve_decision. Defined.

(** @src src/miupdate/recovery_otaverifier/otautil/rangeset.cpp:101-104 RangeSet::Clear *)
Definition Clear (rs : RangeSet) : RangeSet := mkRangeSet [] 0.

(** @src src/miupdate/recovery_otaverifier/otautil/include/otautil/rangeset.h:30-30 RangeSet::RangeSet() *)
Definition RangeSet_empty : RangeSet := mkRangeSet [] 0.

(** @src src/miupdate/recovery_otaverifier/otautil/rangeset.cpp:85-99 RangeSet::PushBack *)
Definition PushBack (rs : RangeSet) (range : Range) : bool * RangeSet :=
  if range.2 <=? range.1 then (false, rs)
  else
    let sz := range.2 -64 range.1 in
    if SIZE_MAX -64 sz <=? blocks_ rs then (false, rs)
    else (true, mkRangeSet (ranges_ rs ++ [range]) (blocks_ rs +64 sz)).

Fixpoint push_pairs (rs : RangeSet) (pairs : list Range) : RangeSet :=
  match pairs with
  | [] => rs
  | range :: pairs' =>
      match PushBack rs range with
      | (true, rs') => push_pairs rs' pairs'
      | (false, rs') => Clear rs'
      end
  end.

(** @src src/miupdate/recovery_otaverifier/otautil/rangeset.cpp:32-45 RangeSet::RangeSet(pairs) *)
Definition RangeSet_of_pairs (pairs : list Range) : RangeSet :=
  match pairs with
  | [] => RangeSet_empty
  | _ => push_pairs RangeSet_empty pairs
  end.

Section Text.
Context `{AndroidBase}.

(** The loop of [Parse] over [pieces[i + 1], pieces[i + 2]]. *)
Fixpoint parse_pairs (pieces : list string) : option (list Range) :=
  match pieces with
  | p1 :: p2 :: pieces' =>
      first ← ab_ParseUint p1 INT_MAX;
      second ← ab_ParseUint p2 INT_MAX;
      pairs ← parse_pairs pieces';
      Some ((first, second) :: pairs)
  | _ => Some []
  end.

(** @src src/miupdate/recovery_otaverifier/otautil/rangeset.cpp:47-83 RangeSet::Parse *)
Definition Parse (range_text : string) : RangeSet :=
  match ab_Split range_text "," with
  | piece0 :: ((_ :: _ :: _) as rest) =>
      match ab_ParseUint piece0 INT_MAX with
      | None => RangeSet_empty
      | Some num =>
          if num =? 0 then RangeSet_empty
          else if negb (num mod 2 =? 0) then RangeSet_empty
          else if negb (num =? Z.of_nat (length rest)) then RangeSet_empty
          else match parse_pairs rest with
               | None => RangeSet_empty
               | Some pairs => RangeSet_of_pairs pairs
               end
      end
  | _ => RangeSet_empty
  end.

(** @src src/miupdate/recovery_otaverifier/otautil/rangeset.cpp:146-156 RangeSet::ToString *)
Definition ToString (rs : RangeSet) : string :=
  match ranges_ rs with
  | [] => ""
  | rgs =>
      foldl (λ result r, String.append result (ab_printf_zu_zu r.1 r.2))
        (to_string (Z.of_nat (length rgs) *64 2)) rgs
  end.
End Text.

(** [std::fill_n(v.begin(), n, x)]. *)
Definition fill_n {A} (n : Z) (x : A) (v : list A) : list A :=
  replicate (Z.to_nat n) x ++ drop (Z.to_nat n) v.

(** The inner [while] loop of [Split]: [its] are the ranges from the iterator
    on ([] is [cend]), [range] the part of the current one still to hand out.
    Advancing the iterator past [cend] is undefined behaviour. *)
Fixpoint split_fill (needed : Z) (range : Range) (its : list Range) (buffer : RangeSet)
    : outcome (RangeSet * Range * list Range) :=
  if needed =? 0 then Ret (buffer, range, its)
  else
    let range_blocks := range.2 -64 range.1 in
    if needed <? range_blocks then
      Ret ((PushBack buffer (range.1, range.1 +64 needed)).2,
           (range.1 +64 needed, range.2), its)
    else
      match its with
      | [] => UB
      | _ :: its' =>
          split_fill (needed -64 range_blocks)
            (match its' with r :: _ => r | [] => range end)
            its' (PushBack buffer range).2
      end.

Fixpoint split_groups (blocks_per_group : list Z) (range : Range) (its : list Range)
    : outcome (list RangeSet) :=
  match blocks_per_group with
  | [] => Ret []
  | blocks :: rest =>
      '(buffer, range', its') ← split_fill blocks range its RangeSet_empty;
      result ← split_groups rest range' its';
      Ret (buffer :: result)
  end.

(** The size of each group of a split. *)
Definition split_sizes (blocks groups : Z) : list Z :=
  let mean := blocks / groups in
  fill_n (blocks mod groups) (mean +64 1) (replicate (Z.to_nat groups) mean).

(** @src src/miupdate/recovery_otaverifier/otautil/rangeset.cpp:106-144 RangeSet::Split *)
Definition Split (rs : RangeSet) (groups : Z) : outcome (list RangeSet) :=
  match ranges_ rs with
  | [] => Ret []
  | range :: _ =>
      if groups =? 0 then Ret []
      else
        let groups := if blocks_ rs <? groups then blocks_ rs else groups in
        split_groups (split_sizes (blocks_ rs) groups) range (ranges_ rs)
  end.

Fixpoint block_number_loop (l : list Range) (idx : Z) : Z :=
  match l with
  | [] => 0
  | (b, e) :: l' =>
      if idx <? e -64 b then b +64 idx
      else block_number_loop l' (idx -64 (e -64 b))
  end.

(** @src src/miupdate/recovery_otaverifier/otautil/rangeset.cpp:159-171 RangeSet::GetBlockNumber *)
Definition GetBlockNumber (rs : RangeSet) (idx : Z) : outcome Z :=
  if idx <? blocks_ rs then Ret (block_number_loop (ranges_ rs) idx) else Abort.

(** @src src/miupdate/recovery_otaverifier/otautil/rangeset.cpp:175-185 RangeSet::Overlaps *)
Definition Overlaps (rs other : RangeSet) : bool :=
  existsb (λ r, existsb (λ o, negb ((r.2 <=? o.1) || (o.2 <=? r.1))) (ranges_ other))
    (ranges_ rs).

Fixpoint sub_ranges_loop (l : list Range) (start_index end_index current_index : Z)
    (result : RangeSet) : outcome (option RangeSet) :=
  match l with
  | [] => Ret None
  | (range_start, range_end) :: l' =>
      if negb (range_start <? range_end) then Abort
      else
        let blocks_in_range := range_end -64 range_start in
        let next := current_index +64 blocks_in_range in
        if next <=? start_index then
          sub_ranges_loop l' start_index end_index next result
        else
          let trimmed_range_start :=
            if current_index <? start_index
            then range_start +64 (start_index -64 current_index) else range_start in
          if end_index <=? next then
            let trimmed_range_end := range_end -64 (next -64 end_index) in
            match PushBack result (trimmed_range_start, trimmed_range_end) with
            | (false, _) => Ret None
            | (true, result') => Ret (Some result')
            end
          else
            match PushBack result (trimmed_range_start, range_end) with
            | (false, _) => Ret None
            | (true, result') => sub_ranges_loop l' start_index end_index next result'
            end
  end.

(** @src src/miupdate/recovery_otaverifier/otautil/rangeset.cpp:187-237 RangeSet::GetSubRanges *)
Definition GetSubRanges (rs : RangeSet) (start_index num_of_blocks : Z)
    : outcome (option RangeSet) :=
  let end_index := start_index +64 num_of_blocks in
  if (end_index <? start_index) || (blocks_ rs <? end_index) then Ret None
  else if num_of_blocks =? 0 then Ret (Some RangeSet_empty)
  else sub_ranges_loop (ranges_ rs) start_index end_index 0 RangeSet_empty.

(** ** SortedRangeSet *)

(** [operator<=] on [std::pair], the order of [std::sort]. *)
Definition range_le (a b : Range) : Prop := a.1 < b.1 ∨ (a.1 = b.1 ∧ a.2 ≤ b.2).

#[export] Instance range_le_dec : RelDecision range_le.
Proof. intros a b. unfold range_le. apply _. Defined.

(** @src src/miupdate/recovery_otaverifier/otautil/include/otautil/rangeset.h:147-147 SortedRangeSet::kBlockSize *)
Definition kBlockSize : Z := 4096.

(** @src src/miupdate/recovery_otaverifier/otautil/rangeset.cpp:240-242 SortedRangeSet::SortedRangeSet *)
Definition SortedRangeSet_of_pairs (pairs : list Range) : RangeSet :=
  let rs := RangeSet_of_pairs pairs in
  mkRangeSet (merge_sort range_le (ranges_ rs)) (blocks_ rs).

(** The trimming loop of [Insert] over [temp]. *)
Fixpoint merge_loop (to_insert : Range) (l : list Range) (acc : RangeSet) : RangeSet :=
  match l with
  | [] => mkRangeSet (ranges_ acc ++ [to_insert])
                     (blocks_ acc +64 (to_insert.2 -64 to_insert.1))
  | it :: l' =>
      if it.1 <=? to_insert.2 then
        merge_loop (to_insert.1, Z.max to_insert.2 it.2) l' acc
      else
        merge_loop it l'
          (mkRangeSet (ranges_ acc ++ [to_insert])
                      (blocks_ acc +64 (to_insert.2 -64 to_insert.1)))
  end.

(** @src src/miupdate/recovery_otaverifier/otautil/rangeset.cpp:250-273 SortedRangeSet::Insert(const SortedRangeSet&) *)
Definition Insert (self rs : RangeSet) : outcome RangeSet :=
  match ranges_ rs with
  | [] => Ret self
  | _ =>
      match merge_sort range_le (ranges_ self ++ ranges_ rs) with
      | [] => UB
      | to_insert :: rest => Ret (merge_loop to_insert rest (Clear self))
      end
  end.

(** @src src/miupdate/recovery_otaverifier/otautil/rangeset.cpp:244-247 SortedRangeSet::Insert(const Range&) *)
Definition Insert_range (self : RangeSet) (to_insert : Range) : outcome RangeSet :=
  Insert self (SortedRangeSet_of_pairs [to_insert]).

(** The blocks a byte extent touches, as computed by the two extent methods. *)
Definition extent_range (start len : Z) : Range :=
  (start / kBlockSize, ((start +64 len) -64 1) / kBlockSize +64 1).

(** @src src/miupdate/recovery_otaverifier/otautil/rangeset.cpp:276-279 SortedRangeSet::Insert(size_t,size_t) *)
Definition Insert_extent (self : RangeSet) (start len : Z) : outcome RangeSet :=
  Insert_range self (extent_range start len).

(** @src src/miupdate/recovery_otaverifier/otautil/rangeset.cpp:281-284 SortedRangeSet::Overlaps(size_t,size_t) *)
Definition Overlaps_extent (self : RangeSet) (start len : Z) : bool :=
  Overlaps self (RangeSet_of_pairs [extent_range start len]).

Fixpoint offset_loop (l : list Range) (old_offset old_block_start new_block_start : Z) : Z :=
  match l with
  | [] => 0
  | (b, e) :: l' =>
      if e <=? old_block_start then
        offset_loop l' old_offset old_block_start (new_block_start +64 (e -64 b))
      else if b <=? old_block_start then
        ((new_block_start +64 (old_block_start -64 b)) *64 kBlockSize)
          +64 old_offset mod kBlockSize
      else 0
  end.

(** @src src/miupdate/recovery_otaverifier/otautil/rangeset.cpp:296-315 SortedRangeSet::GetOffsetInRangeSet *)
Definition GetOffsetInRangeSet (self : RangeSet) (old_offset : Z) : Z :=
  offset_loop (ranges_ self) old_offset (old_offset / kBlockSize) 0.

Example split_14_into_4 :
  (map blocks_ <$> (match Split (RangeSet_of_pairs [(0, 5); (10, 19)]) 4 with
                    | Ret gs => Some gs | _ => None end)) = Some [4; 4; 3; 3].
Proof. vm_compute. reflexivity. Qed.

Example sub_ranges_doc :
  GetSubRanges (RangeSet_of_pairs [(0, 5); (10, 15)]) 1 5
  = Ret (Some (RangeSet_of_pairs [(1, 5); (10, 11)])).
Proof. vm_compute. reflexivity. Qed.

Example offset_doc :
  GetOffsetInRangeSet (SortedRangeSet_of_pairs [(1, 10); (15, 20)]) 4106 = 10.
Proof. vm_compute. reflexivity. Qed.

Example parse_doc : Parse "4,3,5,9,12" = RangeSet_of_pairs [(3, 5); (9, 12)].
Proof. vm_compute. reflexivity. Qed.

(** ** Specification: the blocks of a set *)

Definition valid_range (r : Range) : Prop := 0 ≤ r.1 < r.2 ∧ r.2 < 2 ^ 64.
Definition range_size (r : Range) : Z := r.2 - r.1.
Definition range_blocks (r : Range) : list Z := seqZ r.1 (range_size r).
Definition blocks_of (l : list Range) : list Z := l ≫= range_blocks.
#[global] Arguments blocks_of : simpl never.
#[global] Arguments range_blocks : simpl never.
Definition total (l : list Range) : Z := foldr (λ r acc, range_size r + acc) 0 l.

(** The class invariant: proper ranges, a faithful cached count, no overflow. *)
Record wf (rs : RangeSet) : Prop := {
  wf_ranges : Forall valid_range (ranges_ rs);
  wf_blocks : blocks_ rs = total (ranges_ rs);
  wf_bound : blocks_ rs < SIZE_MAX;
}.

#[export] Instance valid_range_dec r : Decision (valid_range r).
Proof. unfold valid_range. apply _. Defined.

Lemma total_app l k : total (l ++ k) = total l + total k.
Proof. induction l as [|r l IH]; simpl; [lia|]. rewrite IH. lia. Qed.

Lemma total_nonneg l : Forall valid_range l → 0 ≤ total l.
Proof. induction 1 as [|r l [? ?] ? IH]; simpl; unfold range_size in *; lia. Qed.

Lemma blocks_of_cons r l : blocks_of (r :: l) = range_blocks r ++ blocks_of l.
Proof. reflexivity. Qed.

Lemma blocks_of_nil : blocks_of [] = [].
Proof. reflexivity. Qed.

Lemma blocks_of_singleton r : blocks_of [r] = range_blocks r.
Proof. by rewrite blocks_of_cons, blocks_of_nil, (right_id_L [] (++)). Qed.

Lemma blocks_of_app l k : blocks_of (l ++ k) = blocks_of l ++ blocks_of k.
Proof. apply bind_app. Qed.

Lemma blocks_of_snoc l r : blocks_of (l ++ [r]) = blocks_of l ++ range_blocks r.
Proof. by rewrite blocks_of_app, blocks_of_singleton. Qed.

Lemma length_range_blocks r : valid_range r → Z.of_nat (length (range_blocks r)) = range_size r.
Proof. intros [? ?]. unfold range_blocks, range_size in *. rewrite length_seqZ. lia. Qed.

Lemma length_blocks_of l :
  Forall valid_range l → Z.of_nat (length (blocks_of l)) = total l.
Proof.
  induction 1 as [|r l Hr Hl IH]; [done|].
  rewrite blocks_of_cons, length_app, Nat2Z.inj_add, IH, length_range_blocks by done. done.
Qed.

Lemma elem_of_blocks_of x l :
  x ∈ blocks_of l ↔ ∃ r, r ∈ l ∧ r.1 ≤ x < r.2.
Proof.
  unfold blocks_of. rewrite list_elem_of_bind. unfold range_blocks, range_size.
  split; intros (r & H1 & H2); exists r; rewrite elem_of_seqZ in *; split; done || lia.
Qed.

Lemma length_blocks_of_wf rs : wf rs → Z.of_nat (length (blocks_of (ranges_ rs))) = blocks_ rs.
Proof. intros [H1 H2 _]. by rewrite length_blocks_of. Qed.

Lemma wf_nonneg rs : wf rs → 0 ≤ blocks_ rs.
Proof. intros [H1 H2 _]. rewrite H2. by apply total_nonneg. Qed.

Lemma wf_empty : wf RangeSet_empty.
Proof. by split; [constructor| |]. Qed.

Lemma wf_nonempty_pos rs : wf rs → ranges_ rs ≠ [] → 0 < blocks_ rs.
Proof.
  intros [H1 H2 _] Hne. rewrite H2. destruct (ranges_ rs) as [|r l]; [done|].
  inversion H1 as [|? ? [? ?] Hl]; subst. apply total_nonneg in Hl.
  simpl. unfold range_size. lia.
Qed.

(** [PushBack] appends exactly when the range is proper and the count fits. *)
Lemma PushBack_ok rs r : wf rs → valid_range r → blocks_ rs + range_size r < SIZE_MAX →
  PushBack rs r = (true, mkRangeSet (ranges_ rs ++ [r]) (blocks_ rs + range_size r)).
Proof.
  intros Hwf [Hr1 Hr2] Hb. pose proof (wf_nonneg _ Hwf). unfold PushBack, range_size, SIZE_MAX in *.
  destruct (Z.leb_spec r.2 r.1); [lia|]. unwrap.
  destruct (Z.leb_spec (2 ^ 64 - 1 - (r.2 - r.1)) (blocks_ rs)); [lia|].
  by unwrap.
Qed.

Lemma PushBack_wf rs r : wf rs → is_u64 r.1 → is_u64 r.2 → wf (PushBack rs r).2.
Proof.
  intros Hwf H1 H2. pose proof (wf_nonneg _ Hwf). unfold is_u64 in *.
  destruct (decide (r.1 < r.2)) as [Hlt|Hge].
  - destruct (decide (blocks_ rs + range_size r < SIZE_MAX)) as [Hb|Hb].
    + rewrite PushBack_ok by (done || split; lia). simpl.
      destruct Hwf as [Hv Hc Hm]. split; simpl.
      * apply Forall_app; split; [done|]. by repeat constructor; lia.
      * rewrite total_app, Hc. simpl. lia.
      * done.
    + unfold PushBack, range_size, SIZE_MAX in *.
      destruct (Z.leb_spec r.2 r.1); [lia|]. unwrap.
      by destruct (Z.leb_spec (2 ^ 64 - 1 - (r.2 - r.1)) (blocks_ rs)); [|lia].
  - unfold PushBack. by destruct (Z.leb_spec r.2 r.1); [|lia].
Qed.

Lemma PushBack_push rs r : wf rs → valid_range r → blocks_ rs + range_size r < SIZE_MAX →
  ∃ rs', PushBack rs r = (true, rs') ∧ wf rs' ∧ blocks_ rs' = blocks_ rs + range_size r ∧
    ranges_ rs' = ranges_ rs ++ [r] ∧
    blocks_of (ranges_ rs') = blocks_of (ranges_ rs) ++ range_blocks r.
Proof.
  intros Hwf Hr Hb. pose proof (PushBack_wf rs r Hwf) as Hwf'.
  rewrite PushBack_ok in * by done. eexists. split_and!; [done| |done|done|].
  - destruct Hr. apply Hwf'; unfold is_u64; lia.
  - apply blocks_of_snoc.
Qed.

Lemma PushBack_false rs r : wf rs → is_u64 r.1 → is_u64 r.2 →
  ¬ (r.1 < r.2 ∧ blocks_ rs + range_size r < SIZE_MAX) → PushBack rs r = (false, rs).
Proof.
  intros Hwf H1 H2 Hn. pose proof (wf_nonneg _ Hwf).
  unfold is_u64, PushBack, range_size, SIZE_MAX in *.
  destruct (Z.leb_spec r.2 r.1); [done|]. unwrap.
  by destruct (Z.leb_spec (2 ^ 64 - 1 - (r.2 - r.1)) (blocks_ rs)); [|lia].
Qed.

Lemma push_pairs_spec pairs rs : wf rs → Forall (λ r, is_u64 r.1 ∧ is_u64 r.2) pairs →
  push_pairs rs pairs =
    if decide (Forall valid_range pairs ∧ blocks_ rs + total pairs < SIZE_MAX)
    then mkRangeSet (ranges_ rs ++ pairs) (blocks_ rs + total pairs) else RangeSet_empty.
Proof.
  intros Hwf Hp. revert rs Hwf. induction Hp as [|r pairs [Hr1 Hr2] Hp IH]; intros rs Hwf.
  - simpl. destruct Hwf as [Hv Hc Hm]. rewrite decide_True by (split; [constructor|simpl; lia]).
    rewrite (right_id_L [] (++)), Z.add_0_r. by destruct rs.
  - simpl. destruct (decide (r.1 < r.2 ∧ blocks_ rs + range_size r < SIZE_MAX)) as [[Hlt Hb]|Hn].
    + assert (valid_range r) as Hvr by (unfold valid_range, is_u64 in *; lia).
      pose proof (PushBack_wf rs r Hwf Hr1 Hr2) as Hwf'.
      rewrite PushBack_ok in * by done. simpl in Hwf'. rewrite IH by done. simpl.
      rewrite <-(assoc_L (++)). simpl. rewrite Z.add_assoc.
      apply decide_ext. rewrite Forall_cons. tauto.
    + rewrite PushBack_false by done. rewrite decide_False; [done|].
      intros [Hv Ht]. apply Forall_cons in Hv as [[Hv1 Hv2] Hv']. apply total_nonneg in Hv'.
      apply Hn. split; [lia|]. simpl in Ht. lia.
Qed.

(** ** Lookups *)

Lemma block_number_loop_spec l idx : Forall valid_range l → is_u64 idx → idx < total l →
  blocks_of l !! Z.to_nat idx = Some (block_number_loop l idx).
Proof.
  intros Hl. revert idx. induction Hl as [|r l Hr Hl IH]; intros idx Hu Hidx; simpl in *.
  { unfold is_u64 in *. lia. }
  destruct r as [b e]. pose proof (length_range_blocks _ Hr) as Hlen.
  destruct Hr as [Hbe He]. unfold range_size, is_u64 in *; simpl in *.
  rewrite blocks_of_cons. unwrap.
  destruct (Z.ltb_spec idx (e - b)) as [Hlt|Hge].
  - rewrite lookup_app_l by lia. unfold range_blocks, range_size; simpl.
    rewrite lookup_seqZ_lt by lia. unwrap. f_equal. lia.
  - rewrite lookup_app_r by lia. replace (Z.to_nat idx - _)%nat with (Z.to_nat (idx - (e - b))) by lia.
    rewrite IH by lia. by unwrap.
Qed.

(** [GetBlockNumber] is list lookup: it answers the [idx]-th block of the set
    and aborts exactly when there is none. *)
Lemma GetBlockNumber_spec (rs : RangeSet) (idx : Z) : wf rs → is_u64 idx →
  GetBlockNumber rs idx =
    match blocks_of (ranges_ rs) !! Z.to_nat idx with Some b => Ret b | None => Abort end.
Proof.
  intros Hwf Hidx. pose proof (length_blocks_of_wf _ Hwf) as Hlen.
  destruct Hwf as [Hv Hc Hm]. unfold GetBlockNumber, is_u64 in *.
  destruct (Z.ltb_spec idx (blocks_ rs)).
  - by rewrite block_number_loop_spec by (done || lia).
  - by rewrite lookup_ge_None_2 by lia.
Qed.

(** [Overlaps] decides whether the two sets share a block. *)
Lemma Overlaps_spec (rs other : RangeSet) : wf rs → wf other →
  Overlaps rs other = true ↔
  ∃ x, x ∈ blocks_of (ranges_ rs) ∧ x ∈ blocks_of (ranges_ other).
Proof.
  intros [Hv _ _] [Hw _ _]. rewrite Forall_forall in Hv, Hw. unfold Overlaps.
  setoid_rewrite elem_of_blocks_of. rewrite existsb_exists. split.
  - intros (r & Hr%list_elem_of_In & (o & Ho%list_elem_of_In & E)%existsb_exists).
    to_prop. destruct (Hv _ Hr) as [? ?], (Hw _ Ho) as [? ?].
    exists (Z.max r.1 o.1). split; [exists r|exists o]; split; done || lia.
  - intros (x & (r & Hr & ?) & (o & Ho & ?)). exists r. rewrite <-list_elem_of_In.
    split; [done|]. apply existsb_exists. exists o. rewrite <-list_elem_of_In.
    split; [done|]. apply negb_true_iff, orb_false_intro; apply Z.leb_gt; lia.
Qed.

(** ** Sub-ranges *)

Lemma take_range_blocks r n : valid_range r → 0 ≤ n ≤ range_size r →
  take (Z.to_nat n) (range_blocks r) = range_blocks (r.1, r.1 + n).
Proof.
  intros [? ?] ?. unfold range_blocks, range_size in *; simpl. rewrite take_seqZ. f_equal. lia.
Qed.

Lemma drop_range_blocks r n : 0 ≤ n →
  drop (Z.to_nat n) (range_blocks r) = range_blocks (r.1 + n, r.2).
Proof.
  intros ?. unfold range_blocks, range_size in *; simpl. rewrite drop_seqZ. f_equal; lia.
Qed.

(** Past the first block: every range is taken whole until the last one. *)
Lemma sub_ranges_loop_tail l s e cur result :
  Forall valid_range l → wf result → 0 ≤ s ≤ cur → cur < e ≤ cur + total l →
  cur + total l < SIZE_MAX → blocks_ result ≤ cur →
  ∃ sub, sub_ranges_loop l s e cur result = Ret (Some sub) ∧ wf sub ∧
    blocks_of (ranges_ sub) =
      blocks_of (ranges_ result) ++ take (Z.to_nat (e - cur)) (blocks_of l).
Proof.
  intros Hl. revert cur result.
  induction Hl as [|r l Hr Hl IH]; intros cur result Hwf Hs He Hm Hres; [simpl in *; lia|].
  pose proof (total_nonneg _ Hl). pose proof (length_range_blocks _ Hr) as Hlen.
  pose proof (wf_nonneg _ Hwf). pose proof Hr as [Hr1 Hr2].
  destruct r as [b f]. change (total ((b, f) :: l)) with (f - b + total l) in *.
  unfold range_size, SIZE_MAX in *; simpl in Hr1, Hr2, Hlen. simpl.
  destruct (Z.ltb_spec b f); [|lia]. simpl. unwrap.
  destruct (Z.leb_spec (cur + (f - b)) s); [lia|].
  destruct (Z.ltb_spec cur s); [lia|]. rewrite blocks_of_cons.
  destruct (Z.leb_spec e (cur + (f - b))).
  - unwrap. replace (f - (cur + (f - b) - e)) with (b + (e - cur)) by lia.
    destruct (PushBack_push result (b, b + (e - cur))) as (rs' & -> & Hwf' & _ & _ & E);
      [done|unfold valid_range, range_size, SIZE_MAX; simpl; lia..|].
    exists rs'. split_and!; [done..|]. rewrite E, take_app_le by lia. f_equal.
    by rewrite (take_range_blocks (b, f)) by (unfold range_size; simpl; done || lia).
  - destruct (PushBack_push result (b, f)) as (rs' & -> & Hwf' & Hb' & _ & Ers);
      [done|done|unfold range_size, SIZE_MAX; simpl; lia|].
    unfold range_size in Hb'; simpl in Hb'.
    destruct (IH (cur + (f - b)) _ Hwf') as (sub & -> & Hsub & E); [lia..|].
    exists sub. split_and!; [done..|].
    rewrite E, Ers, <-(assoc_L (++)), take_app_ge by lia. do 3 f_equal. lia.
Qed.

(** Up to the range that holds block [s]. *)
Lemma sub_ranges_loop_spec l s e cur :
  Forall valid_range l → 0 ≤ cur ≤ s → s < e ≤ cur + total l → cur + total l < SIZE_MAX →
  ∃ sub, sub_ranges_loop l s e cur RangeSet_empty = Ret (Some sub) ∧ wf sub ∧
    blocks_of (ranges_ sub) =
      take (Z.to_nat (e - s)) (drop (Z.to_nat (s - cur)) (blocks_of l)).
Proof.
  intros Hl. revert cur.
  induction Hl as [|r l Hr Hl IH]; intros cur Hs He Hm; [simpl in *; lia|].
  pose proof (total_nonneg _ Hl). pose proof (length_range_blocks _ Hr) as Hlen.
  pose proof Hr as [Hr1 Hr2]. destruct r as [b f].
  change (total ((b, f) :: l)) with (f - b + total l) in *.
  unfold range_size, SIZE_MAX in *; simpl in Hr1, Hr2, Hlen. simpl.
  destruct (Z.ltb_spec b f); [|lia]. simpl. unwrap. rewrite blocks_of_cons.
  destruct (Z.leb_spec (cur + (f - b)) s) as [Hskip|Htake].
  { destruct (IH (cur + (f - b))) as (sub & -> & Hsub & E); [lia..|].
    exists sub. split_and!; [done..|]. rewrite E, drop_app_ge by lia. do 2 f_equal. lia. }
  unwrap. replace (if cur <? s then b + (s - cur) else b) with (b + (s - cur))
    by (destruct (Z.ltb_spec cur s); lia).
  rewrite drop_app_le, (drop_range_blocks (b, f)) by (simpl; lia). simpl.
  assert (valid_range (b + (s - cur), f)) as Hv by (unfold valid_range; simpl; lia).
  pose proof (length_range_blocks _ Hv) as Hlen'. unfold range_size in Hlen'; simpl in Hlen'.
  destruct (Z.leb_spec e (cur + (f - b))).
  - unwrap. replace (f - (cur + (f - b) - e)) with (b + (s - cur) + (e - s)) by lia.
    destruct (PushBack_push RangeSet_empty (b + (s - cur), b + (s - cur) + (e - s)))
      as (rs' & -> & Hwf' & _ & _ & E);
      [apply wf_empty|unfold valid_range, range_size, SIZE_MAX; simpl; lia..|].
    exists rs'. split_and!; [done..|]. rewrite E, take_app_le by lia. simpl.
    by rewrite (take_range_blocks (b + (s - cur), f)) by (unfold range_size; simpl; done || lia).
  - unwrap. destruct (PushBack_push RangeSet_empty (b + (s - cur), f))
      as (rs' & -> & Hwf' & Hb' & _ & Ers);
      [apply wf_empty|done|unfold range_size, SIZE_MAX; simpl; lia|].
    unfold range_size in Hb'; simpl in Hb'.
    destruct (sub_ranges_loop_tail l s e (cur + (f - b)) _ Hl Hwf') as (sub & -> & Hsub & E);
      [unfold SIZE_MAX; lia..|].
    exists sub. split_and!; [done..|]. rewrite E, Ers, take_app_ge by lia.
    simpl. do 2 f_equal. lia.
Qed.

(** [GetSubRanges] returns the requested window of the block list, and
    [nullopt] exactly when the window does not fit. *)
Theorem GetSubRanges_spec (rs : RangeSet) (start_index num_of_blocks : Z) :
  wf rs → is_u64 start_index → is_u64 num_of_blocks →
  if decide (start_index + num_of_blocks ≤ blocks_ rs) then
    ∃ sub, GetSubRanges rs start_index num_of_blocks = Ret (Some sub) ∧ wf sub ∧
      blocks_of (ranges_ sub) =
        take (Z.to_nat num_of_blocks) (drop (Z.to_nat start_index) (blocks_of (ranges_ rs)))
  else GetSubRanges rs start_index num_of_blocks = Ret None.
Proof.
  intros [Hv Hc Hm] Hs Hn. unfold is_u64, SIZE_MAX, GetSubRanges in *.
  case_decide as Hfit.
  - unwrap.
    destruct (Z.ltb_spec (start_index + num_of_blocks) start_index); [lia|].
    destruct (Z.ltb_spec (blocks_ rs) (start_index + num_of_blocks)); [lia|]. simpl.
    destruct (Z.eqb_spec num_of_blocks 0) as [->|Hn0].
    { exists RangeSet_empty. split_and!; [done|apply wf_empty|done]. }
    destruct (sub_ranges_loop_spec (ranges_ rs) start_index (start_index + num_of_blocks) 0)
      as (sub & -> & Hsub & E); [done|unfold SIZE_MAX; lia..|].
    exists sub. split_and!; [done..|]. rewrite E. do 2 f_equal; lia.
  - destruct (Z.ltb_spec (start_index + num_of_blocks) (2 ^ 64)).
    + unwrap. destruct (Z.ltb_spec (blocks_ rs) (start_index + num_of_blocks)); [|lia].
      by rewrite orb_true_r.
    + rewrite u64_overflow by lia.
      by destruct (Z.ltb_spec (start_index + num_of_blocks - 2 ^ 64) start_index); [|lia].
Qed.

(** ** Splitting *)

(** The blocks the iterator of [Split] still has to hand out. *)
Definition rest_blocks (range : Range) (its : list Range) : list Z :=
  match its with [] => [] | _ :: its' => range_blocks range ++ blocks_of its' end.

Definition cursor_ok (range : Range) (its : list Range) : Prop :=
  match its with [] => True | _ :: its' => valid_range range ∧ Forall valid_range its' end.

Lemma split_fill_spec its needed range buffer :
  cursor_ok range its → wf buffer → blocks_ buffer + needed < SIZE_MAX →
  0 ≤ needed ≤ Z.of_nat (length (rest_blocks range its)) →
  ∃ buffer' range' its',
    split_fill needed range its buffer = Ret (buffer', range', its') ∧ wf buffer' ∧
    cursor_ok range' its' ∧ blocks_ buffer' = blocks_ buffer + needed ∧
    blocks_of (ranges_ buffer') =
      blocks_of (ranges_ buffer) ++ take (Z.to_nat needed) (rest_blocks range its) ∧
    rest_blocks range' its' = drop (Z.to_nat needed) (rest_blocks range its).
Proof.
  revert needed range buffer.
  induction its as [|r0 its IH]; intros needed range buffer Hc Hwf Hb Hn.
  { simpl in *. replace needed with 0 by lia. simpl.
    exists buffer, range, []. rewrite (right_id_L [] (++)). split_and!; done || lia. }
  destruct Hc as [Hr Hl]. simpl rest_blocks in *. rewrite length_app in Hn.
  pose proof (length_range_blocks _ Hr) as Hlen. pose proof Hr as [Hr1 Hr2].
  unfold range_size in Hlen. simpl split_fill. unwrap.
  destruct (Z.eqb_spec needed 0) as [->|Hn0].
  { exists buffer, range, (r0 :: its). simpl. rewrite take_0, (right_id_L [] (++)).
    split_and!; done || lia. }
  pose proof (wf_nonneg _ Hwf) as Hb0.
  destruct (Z.ltb_spec needed (range.2 - range.1)) as [Hlt|Hge].
  - destruct (PushBack_push buffer (range.1, range.1 + needed))
      as (buffer' & E & Hwf' & Hb' & _ & Ebl);
      [done|unfold valid_range; simpl; lia|unfold range_size; simpl; lia|].
    unfold SIZE_MAX, range_size in *; simpl in Hb'. unwrap. rewrite E.
    do 3 eexists. split_and!; [done|done|split; [unfold valid_range; simpl; lia|done]
                              |simpl; lia|..]; simpl.
    + rewrite Ebl, take_app_le by lia. f_equal.
      by rewrite take_range_blocks by (done || unfold range_size; lia).
    + rewrite drop_app_le by lia. by rewrite drop_range_blocks by lia.
  - destruct (PushBack_push buffer range) as (buffer' & E & Hwf' & Hb' & _ & Ebl);
      [done|done|unfold range_size; lia|].
    unfold range_size, SIZE_MAX in *. rewrite E. simpl. unwrap.
    set (range2 := match its with r :: _ => r | [] => range end).
    assert (cursor_ok range2 its ∧ rest_blocks range2 its = blocks_of its) as [Hc2 Er].
    { subst range2. destruct its as [|r its']; [done|]. simpl.
      rewrite blocks_of_cons. by apply Forall_cons in Hl. }
    destruct (IH (needed - (range.2 - range.1)) range2 buffer')
      as (b3 & r3 & i3 & E3 & Hwf3 & Hc3 & Hb3 & Ebl3 & Er3);
      [done|done|unfold SIZE_MAX; lia|rewrite Er; lia|].
    rewrite E3. do 3 eexists. split_and!; [done|done|done|lia|..].
    + rewrite Ebl3, Ebl, Er, <-(assoc_L (++)), take_app_ge by lia. do 3 f_equal. lia.
    + rewrite Er3, Er, drop_app_ge by lia. f_equal. lia.
Qed.

Lemma split_groups_spec sizes range its :
  cursor_ok range its → Forall (λ n, 0 ≤ n) sizes →
  foldr Z.add 0 sizes ≤ Z.of_nat (length (rest_blocks range its)) →
  foldr Z.add 0 sizes < SIZE_MAX →
  ∃ gs, split_groups sizes range its = Ret gs ∧ Forall wf gs ∧ map blocks_ gs = sizes ∧
    (gs ≫= λ g, blocks_of (ranges_ g)) =
      take (Z.to_nat (foldr Z.add 0 sizes)) (rest_blocks range its).
Proof.
  intros Hc Hs. revert range its Hc.
  induction Hs as [|n sizes Hn Hs IH]; intros range its Hc Hsum Hm.
  { simpl. exists []. split_and!; [done|constructor|done|]. by rewrite take_0. }
  assert (0 ≤ foldr Z.add 0 sizes) as Hpos by (clear -Hs; induction Hs; simpl; lia).
  simpl in Hsum, Hm.
  destruct (split_fill_spec its n range RangeSet_empty)
    as (g & r' & its' & E & Hwf & Hc' & Hb & Ebl & Er);
    [done|apply wf_empty|simpl; lia|lia|].
  destruct (IH r' its' Hc') as (gs & Egs & Hgs & Hsz & Ebls);
    [rewrite Er, length_drop; lia|lia|].
  simpl. rewrite E. simpl. rewrite Egs. simpl. exists (g :: gs).
  split_and!; [done|by constructor|simpl; f_equal; [simpl in Hb; lia|done]|].
  rewrite bind_cons, Ebl, Ebls, Er. simpl. rewrite Z2Nat.inj_add by lia.
  apply take_take_drop.
Qed.

Lemma foldr_add_replicate n x : foldr Z.add 0 (replicate n x) = Z.of_nat n * x.
Proof. induction n as [|n IH]; [done|]. cbn [replicate foldr]. rewrite IH. lia. Qed.

Lemma foldr_add_app l k : foldr Z.add 0 (l ++ k) = foldr Z.add 0 l + foldr Z.add 0 k.
Proof. induction l as [|x l IH]; simpl; [lia|]. rewrite IH. lia. Qed.

(** Groups differ by at most one block, the larger ones first. *)
Lemma split_sizes_eq blocks groups : 0 < groups → 0 ≤ blocks < SIZE_MAX →
  split_sizes blocks groups =
    replicate (Z.to_nat (blocks mod groups)) (blocks / groups + 1) ++
    replicate (Z.to_nat (groups - blocks mod groups)) (blocks / groups).
Proof.
  intros Hg Hb. unfold split_sizes, fill_n, SIZE_MAX in *.
  pose proof (Z.mod_pos_bound blocks groups Hg).
  assert (0 ≤ blocks / groups ≤ blocks).
  { split; [apply Z.div_pos; lia|]. apply Z.div_le_upper_bound; nia. }
  unwrap. f_equal. rewrite drop_replicate. f_equal. lia.
Qed.

Lemma split_sizes_sum blocks groups : 0 < groups → 0 ≤ blocks < SIZE_MAX →
  foldr Z.add 0 (split_sizes blocks groups) = blocks.
Proof.
  intros Hg Hb. rewrite split_sizes_eq, foldr_add_app, !foldr_add_replicate by done.
  pose proof (Z.mod_pos_bound blocks groups Hg). pose proof (Z.div_mod blocks groups). nia.
Qed.

(** [Split] partitions the block list, in order, into [min groups blocks]
    groups of almost equal size, and terminates without running the iterator
    off the end. *)
Theorem Split_spec (rs : RangeSet) (groups : Z) :
  wf rs → ranges_ rs ≠ [] → is_u64 groups → groups ≠ 0 →
  let n := Z.min groups (blocks_ rs) in
  ∃ gs, Split rs groups = Ret gs ∧ Forall wf gs ∧
    (gs ≫= λ g, blocks_of (ranges_ g)) = blocks_of (ranges_ rs) ∧
    map blocks_ gs =
      replicate (Z.to_nat (blocks_ rs mod n)) (blocks_ rs / n + 1) ++
      replicate (Z.to_nat (n - blocks_ rs mod n)) (blocks_ rs / n).
Proof.
  intros Hwf Hne Hg Hg0 n. pose proof (wf_nonempty_pos _ Hwf Hne) as Hpos.
  pose proof (length_blocks_of_wf _ Hwf) as Hlen. pose proof Hwf as [Hv Hc Hm].
  unfold is_u64 in Hg. unfold Split. destruct (ranges_ rs) as [|r l] eqn:El; [done|].
  destruct (Z.eqb_spec groups 0); [lia|].
  replace (if blocks_ rs <? groups then blocks_ rs else groups) with n
    by (unfold n; destruct (Z.ltb_spec (blocks_ rs) groups); lia).
  assert (0 < n) by lia.
  destruct (split_groups_spec (split_sizes (blocks_ rs) n) r (r :: l))
    as (gs & -> & Hgs & Hsz & Ebl).
  - by apply Forall_cons in Hv.
  - rewrite split_sizes_eq by lia.
    pose proof (Z.mod_pos_bound (blocks_ rs) n). pose proof (Z.div_pos (blocks_ rs) n).
    apply Forall_app; split; apply Forall_replicate; lia.
  - rewrite split_sizes_sum by lia. simpl. rewrite <-blocks_of_cons. lia.
  - by rewrite split_sizes_sum by lia.
  - exists gs. split_and!; [done|done|..].
    + rewrite Ebl, split_sizes_sum by lia. simpl. rewrite <-blocks_of_cons.
      apply take_ge. lia.
    + by rewrite Hsz, split_sizes_eq by lia.
Qed.

(** ** Sorted sets *)

#[export] Instance range_le_total : Total range_le.
Proof. intros [a b] [c d]. unfold range_le; simpl. lia. Qed.

#[export] Instance range_le_trans : Transitive range_le.
Proof. intros [a b] [c d] [e f]. unfold range_le; simpl. lia. Qed.

(** Sorted, disjoint and not even adjacent. *)
Definition separated (l : list Range) : Prop := StronglySorted (λ a b, a.2 < b.1) l.

(** Away from the end of the address space. *)
Definition bounded (l : list Range) : Prop := Forall (λ r, r.2 < SIZE_MAX) l.

Lemma separated_snoc l r :
  separated (l ++ [r]) ↔ separated l ∧ Forall (λ a, a.2 < r.1) l.
Proof.
  unfold separated. induction l as [|a l IH]; simpl.
  - split; [by repeat constructor|]. repeat constructor.
  - split.
    + intros [H1 H2]%StronglySorted_inv. apply IH in H1 as [? ?].
      apply Forall_app in H2 as [? H2]. rewrite Forall_singleton in H2. split; by constructor.
    + intros [[H1 H2]%StronglySorted_inv H3]. apply Forall_cons in H3 as [H3 H4].
      constructor; [by apply IH|]. apply Forall_app; split; [done|by apply Forall_singleton].
Qed.

Lemma separated_total l lo hi : Forall valid_range l → separated l → lo ≤ hi →
  Forall (λ r, lo ≤ r.1 ∧ r.2 ≤ hi) l → total l ≤ hi - lo.
Proof.
  intros Hv Hs. revert lo. induction Hv as [|r l Hr Hv IH]; intros lo Hlh Hb; simpl; [lia|].
  apply StronglySorted_inv in Hs as [Hs Hlt]. apply Forall_cons in Hb as [[Hb1 Hb2] Hb].
  destruct Hr as [Hr1 Hr2]. specialize (IH Hs r.2 Hb2). unfold range_size.
  assert (total l ≤ hi - r.2); [|lia]. apply IH.
  rewrite Forall_forall in Hlt, Hb |- *. intros x Hx.
  specialize (Hlt _ Hx). specialize (Hb _ Hx). simpl in *. lia.
Qed.

Lemma separated_wf l : Forall valid_range l → separated l → bounded l →
  wf (mkRangeSet l (total l)).
Proof.
  intros Hv Hs Hb. split; simpl; [done|done|].
  enough (total l ≤ SIZE_MAX - 1 - 0) by lia.
  apply separated_total; [done|done|done|].
  unfold bounded in Hb. rewrite Forall_forall in Hv, Hb |- *. intros x Hx.
  specialize (Hb _ Hx). destruct (Hv _ Hx). simpl in *. lia.
Qed.

(** The trimming loop emits a separated list with the same blocks. *)
Lemma merge_loop_spec l to_insert acc :
  Forall valid_range (to_insert :: l) → bounded (to_insert :: l) →
  StronglySorted range_le l → Forall (λ r, to_insert.1 ≤ r.1) l →
  Forall valid_range (ranges_ acc) → bounded (ranges_ acc) →
  separated (ranges_ acc ++ [to_insert]) → blocks_ acc = total (ranges_ acc) →
  let res := merge_loop to_insert l acc in
  Forall valid_range (ranges_ res) ∧ bounded (ranges_ res) ∧ separated (ranges_ res) ∧
  blocks_ res = total (ranges_ res) ∧
  ∀ x, x ∈ blocks_of (ranges_ res) ↔
       x ∈ blocks_of (ranges_ acc) ∨ x ∈ blocks_of (to_insert :: l).
Proof.
  revert to_insert acc. induction l as [|it l IH]; intros to_insert acc Hv Hb Hs Hle Hav Hab Hsep Hc res.
  - subst res. simpl. apply Forall_cons in Hv as [Hv _], Hb as [Hb _].
    assert (Forall valid_range (ranges_ acc ++ [to_insert])) as Hv'
      by (apply Forall_app; split; [done|by apply Forall_singleton]).
    assert (bounded (ranges_ acc ++ [to_insert])) as Hb'
      by (apply Forall_app; split; [done|by apply Forall_singleton]).
    pose proof (separated_wf _ Hv' Hsep Hb') as [_ _ Hm]. simpl in Hm.
    rewrite total_app in Hm. simpl in Hm. unfold range_size, SIZE_MAX in Hm.
    pose proof (total_nonneg _ Hav). destruct Hv as [Hv1 Hv2]. rewrite Hc.
    split_and!; [done..| |].
    + rewrite total_app. simpl. unfold range_size. unwrap. lia.
    + intros x. by rewrite blocks_of_app, elem_of_app.
  - subst res. simpl. apply Forall_cons in Hv as [Hv1 Hv], Hb as [Hb1 Hb].
    apply Forall_cons in Hv as [Hv2 Hv], Hb as [Hb2 Hb], Hle as [Hle1 Hle].
    apply StronglySorted_inv in Hs as [Hs Hit].
    assert (Forall (λ r, it.1 ≤ r.1) l) as Hit1.
    { eapply Forall_impl; [exact Hit|]. intros x. unfold range_le. simpl. lia. }
    pose proof Hv1 as [Hti1 Hti2]. pose proof Hv2 as [Hit2 Hit3].
    apply separated_snoc in Hsep as [Hsep Hlt].
    destruct (Z.leb_spec it.1 to_insert.2) as [Hov|Hgap].
    + destruct (IH (to_insert.1, Z.max to_insert.2 it.2) acc) as (H1 & H2 & H3 & H4 & H5);
        [constructor; [unfold valid_range; simpl; lia|done]
        |constructor; [simpl; lia|done]|done|done|done|done
        |by apply separated_snoc|done|].
      split_and!; [done..|]. intros x. rewrite H5. f_equiv.
      rewrite !blocks_of_cons, !elem_of_app.
      unfold range_blocks, range_size. rewrite !elem_of_seqZ. simpl. intuition lia.
    + assert (Forall valid_range (ranges_ acc ++ [to_insert])) as Hv'
        by (apply Forall_app; split; [done|by apply Forall_singleton]).
      assert (bounded (ranges_ acc ++ [to_insert])) as Hb'
        by (apply Forall_app; split; [done|by apply Forall_singleton]).
      assert (separated (ranges_ acc ++ [to_insert])) as Hsep' by by apply separated_snoc.
      pose proof (separated_wf _ Hv' Hsep' Hb') as [_ _ Hm]. simpl in Hm.
      rewrite total_app in Hm. simpl in Hm. unfold range_size, SIZE_MAX in Hm.
      pose proof (total_nonneg _ Hav).
      destruct (IH it (mkRangeSet (ranges_ acc ++ [to_insert])
        (blocks_ acc +64 (to_insert.2 -64 to_insert.1)))) as (H1 & H2 & H3 & H4 & H5);
        [by constructor|by constructor|done|done|done|done| |..|split_and!; [done..|]].
      * apply separated_snoc. split; [done|]. apply Forall_app; split.
        -- eapply Forall_impl; [exact Hlt|]. intros x. simpl. lia.
        -- by apply Forall_singleton.
      * simpl. rewrite total_app. simpl. unfold range_size. unwrap. lia.
      * intros x. rewrite H5. simpl. rewrite blocks_of_app, elem_of_app, blocks_of_singleton.
        rewrite (blocks_of_cons to_insert), elem_of_app. tauto.
Qed.

Lemma blocks_of_perm l k x : l ≡ₚ k → x ∈ blocks_of l ↔ x ∈ blocks_of k.
Proof. intros Hp. rewrite !elem_of_blocks_of. by setoid_rewrite Hp. Qed.

(** [Insert] computes the union and keeps the set sorted and merged. *)
Lemma Insert_spec (self rs : RangeSet) :
  wf self → wf rs → separated (ranges_ self) →
  bounded (ranges_ self) → bounded (ranges_ rs) →
  ∃ res, Insert self rs = Ret res ∧ wf res ∧ separated (ranges_ res) ∧ bounded (ranges_ res) ∧
    ∀ x, x ∈ blocks_of (ranges_ res) ↔
         x ∈ blocks_of (ranges_ self) ∨ x ∈ blocks_of (ranges_ rs).
Proof.
  intros Hself Hrs Hsep Hb1 Hb2. pose proof (wf_ranges _ Hself) as Hv1.
  pose proof (wf_ranges _ Hrs) as Hv2. unfold Insert.
  destruct (ranges_ rs) as [|r0 l0].
  { exists self. split_and!; [done..|]. intros x. rewrite blocks_of_nil, elem_of_nil. tauto. }
  pose proof (merge_sort_Permutation range_le (ranges_ self ++ r0 :: l0)) as Hp.
  pose proof (StronglySorted_merge_sort range_le (ranges_ self ++ r0 :: l0)) as Hs.
  assert (Forall valid_range (ranges_ self ++ r0 :: l0)) as Hv by by apply Forall_app.
  assert (bounded (ranges_ self ++ r0 :: l0)) as Hb by by apply Forall_app.
  destruct (merge_sort range_le (ranges_ self ++ r0 :: l0)) as [|r l].
  { apply Permutation_nil in Hp. by destruct (ranges_ self). }
  unfold bounded in Hb. rewrite <-Hp in Hv, Hb. apply StronglySorted_inv in Hs as [Hs Hle].
  assert (Forall (λ x, r.1 ≤ x.1) l) as Hle'.
  { eapply Forall_impl; [exact Hle|]. intros x. unfold range_le. simpl. lia. }
  destruct (merge_loop_spec l r (Clear self)) as (H1 & H2 & H3 & H4 & H5);
    [done|done|done|done|constructor|constructor|by repeat constructor|done|].
  eexists. split_and!; [done| |done|done|].
  - destruct (separated_wf _ H1 H3 H2) as [_ _ Hm]. by split; [| |rewrite H4].
  - intros x. rewrite H5, (blocks_of_perm _ _ _ Hp), blocks_of_app, elem_of_app. simpl.
    rewrite blocks_of_nil, elem_of_nil. tauto.
Qed.

(** The block range of a byte extent that does not run past 2^64. *)
Lemma extent_range_spec start len : 0 ≤ start → 0 < len → start + len < 2 ^ 64 →
  valid_range (extent_range start len) ∧ (extent_range start len).2 < SIZE_MAX ∧
  ∀ x, x ∈ range_blocks (extent_range start len) ↔
       ∃ o, start ≤ o < start + len ∧ x = o / kBlockSize.
Proof.
  intros Hs Hl Hm. unfold extent_range, kBlockSize. unwrap.
  assert (0 ≤ (start + len - 1) / 4096 ≤ start + len - 1).
  { split; [apply Z.div_pos; lia|]. apply Z.div_le_upper_bound; lia. }
  assert (start / 4096 ≤ (start + len - 1) / 4096) by (apply Z.div_le_mono; lia).
  assert (0 ≤ start / 4096) by (apply Z.div_pos; lia).
  assert ((start + len - 1) / 4096 < 2 ^ 52) by (apply Z.div_lt_upper_bound; lia).
  unwrap. split_and!.
  - unfold valid_range; simpl. lia.
  - unfold SIZE_MAX; simpl. lia.
  - intros x. unfold range_blocks, range_size; simpl. rewrite elem_of_seqZ. split.
    + intros Hx. exists (Z.max start (x * 4096)). split.
      * split; [lia|]. apply Z.max_lub_lt; [lia|].
        pose proof (Z.mul_div_le (start + len - 1) 4096). lia.
      * destruct (Z.max_spec start (x * 4096)) as [[_ ->]|[Hge ->]].
        -- by rewrite Z.div_mul.
        -- apply Z.le_antisymm; [|lia]. apply Z.div_le_lower_bound; lia.
    + intros (o & Ho & ->). split.
      * apply Z.div_le_mono; lia.
      * assert (o / 4096 ≤ (start + len - 1) / 4096) by (apply Z.div_le_mono; lia). lia.
Qed.

Lemma SortedRangeSet_singleton r : valid_range r → range_size r < SIZE_MAX →
  SortedRangeSet_of_pairs [r] = mkRangeSet [r] (range_size r).
Proof.
  intros Hr Hs. unfold SortedRangeSet_of_pairs, RangeSet_of_pairs. simpl.
  rewrite PushBack_ok by (apply wf_empty || done). simpl. f_equal.
Qed.

(** Inserting a byte extent adds exactly the blocks its bytes live in. *)
Theorem Insert_extent_spec (self : RangeSet) (start len : Z) :
  wf self → separated (ranges_ self) → bounded (ranges_ self) →
  0 ≤ start → 0 < len → start + len < 2 ^ 64 →
  ∃ res, Insert_extent self start len = Ret res ∧ wf res ∧ separated (ranges_ res) ∧
    ∀ x, x ∈ blocks_of (ranges_ res) ↔
         x ∈ blocks_of (ranges_ self) ∨ ∃ o, start ≤ o < start + len ∧ x = o / kBlockSize.
Proof.
  intros Hwf Hsep Hb Hs Hl Hm.
  destruct (extent_range_spec start len) as (Hv & Hlt & Hx); [done..|].
  assert (range_size (extent_range start len) < SIZE_MAX) as Hsz
    by (destruct Hv; unfold range_size; lia).
  unfold Insert_extent, Insert_range. rewrite SortedRangeSet_singleton by done.
  destruct (Insert_spec self (mkRangeSet [extent_range start len]
      (range_size (extent_range start len)))) as (res & E & H1 & H2 & H3 & H4);
    [done| |done|done|by constructor|].
  { split; simpl; [by constructor|lia|done]. }
  exists res. split_and!; [done..|]. intros x. rewrite H4. simpl.
  by rewrite blocks_of_singleton, Hx.
Qed.

(** An empty extent at offset 0 is not a no-op: [start + len - 1] wraps around
    and the set grows by 2^52 blocks. *)
Theorem Insert_extent_empty_wraps :
  Insert_extent RangeSet_empty 0 0 = Ret (mkRangeSet [(0, 2 ^ 52)] (2 ^ 52)).
Proof. vm_compute. reflexivity. Qed.

(** ** Offsets within a sorted set *)

Lemma offset_loop_miss l off ob nb :
  ob ∉ blocks_of l → Forall valid_range l → offset_loop l off ob nb = 0.
Proof.
  intros Hni Hv. revert nb. induction Hv as [|[b e] l [Hr1 Hr2] Hv IH]; intros nb; [done|].
  rewrite blocks_of_cons, elem_of_app in Hni. unfold range_blocks, range_size in Hni.
  rewrite elem_of_seqZ in Hni. simpl in *.
  destruct (Z.leb_spec e ob); [apply IH; tauto|].
  destruct (Z.leb_spec b ob); [|done]. exfalso. apply Hni. left. lia.
Qed.

Lemma offset_loop_hit l off nb i :
  Forall valid_range l → separated l → is_u64 off → 0 ≤ nb →
  Forall (λ r, nb ≤ r.1) l →
  blocks_of l !! i = Some (off / kBlockSize) →
  offset_loop l off (off / kBlockSize) nb =
    (nb + Z.of_nat i) * kBlockSize + off mod kBlockSize.
Proof.
  intros Hv. revert nb i. unfold is_u64, kBlockSize.
  induction Hv as [|[b e] l Hr Hv IH]; intros nb i Hs Hoff Hnb Hge Hi; [done|].
  apply StronglySorted_inv in Hs as [Hs Hlt]. apply Forall_cons in Hge as [Hge1 Hge].
  pose proof (length_range_blocks _ Hr) as Hlen. unfold range_size in Hlen; simpl in Hlen.
  destruct Hr as [Hr1 Hr2]. simpl in *. rewrite blocks_of_cons in Hi.
  pose proof (Z.div_mod off 4096). pose proof (Z.mod_pos_bound off 4096).
  assert (0 ≤ off / 4096 < 2 ^ 52)
    by (split; [apply Z.div_pos|apply Z.div_lt_upper_bound]; lia).
  destruct (decide (i < length (range_blocks (b, e)))%nat) as [Hin|Hout].
  - rewrite lookup_app_l in Hi by done. unfold range_blocks, range_size in Hi; simpl in Hi.
    apply lookup_seqZ in Hi as [Hi ?].
    destruct (Z.leb_spec e (off / 4096)); [lia|]. destruct (Z.leb_spec b (off / 4096)); [|lia].
    unfold kBlockSize. unwrap. lia.
  - rewrite lookup_app_r in Hi by lia.
    assert (off / 4096 ∈ blocks_of l) as Hel by (by eapply list_elem_of_lookup_2).
    apply elem_of_blocks_of in Hel as (r & Hr & ?). rewrite Forall_forall in Hlt.
    pose proof (Hlt _ Hr) as He. simpl in He.
    destruct (Z.leb_spec e (off / 4096)); [|lia]. unwrap.
    erewrite IH; [|done|done|lia| |done].
    + f_equal. f_equal. lia.
    + apply Forall_forall. intros x Hx. specialize (Hlt _ Hx). simpl in Hlt. lia.
Qed.

(** [GetOffsetInRangeSet] maps an offset of the file to the offset of the same
    byte in the concatenation of the set's blocks; an offset outside the set
    answers 0. *)
Theorem GetOffsetInRangeSet_spec (self : RangeSet) (old_offset : Z) :
  wf self → separated (ranges_ self) → is_u64 old_offset →
  (∀ i, blocks_of (ranges_ self) !! i = Some (old_offset / kBlockSize) →
    GetOffsetInRangeSet self old_offset = Z.of_nat i * kBlockSize + old_offset mod kBlockSize) ∧
  (old_offset / kBlockSize ∉ blocks_of (ranges_ self) →
    GetOffsetInRangeSet self old_offset = 0).
Proof.
  intros [Hv _ _] Hs Hoff. unfold GetOffsetInRangeSet. split.
  - intros i Hi. rewrite (offset_loop_hit _ _ 0 i); try done.
    eapply Forall_impl; [exact Hv|]. unfold valid_range. simpl. lia.
  - intros Hni. by apply offset_loop_miss.
Qed.

(** ** Text form *)

Section TextProofs.
Context `{AndroidBaseLaws}.

Definition numbers_of (l : list Range) : list Z := l ≫= λ r, [r.1; r.2].

Lemma join_cons_acc sep p ps :
  ps ≠ [] → join_with sep (p :: ps) = String.append p (String sep (join_with sep ps)).
Proof. by destruct ps. Qed.

Lemma ToString_foldl l acc pieces : Forall valid_range l →
  foldl (λ result r, String.append result (ab_printf_zu_zu r.1 r.2))
    (join_with comma (pieces ++ [acc])) l
  = join_with comma (pieces ++ acc :: (to_string <$> numbers_of l)).
Proof.
  intros Hl. revert pieces acc.
  assert (∀ ps q r1 r2, String.append (join_with comma (ps ++ [q]))
    (String comma (String.append r1 (String comma r2))) = join_with comma (ps ++ [q; r1; r2])) as Hj.
  { induction ps as [|p ps IH]; intros q r1 r2; [done|].
    simpl app. rewrite !join_cons_acc by (by destruct ps).
    rewrite string_append_assoc, string_append_cons. by rewrite IH. }
  induction Hl as [|r l [Hr1 Hr2] Hl IH]; intros pieces acc; [done|].
  simpl. rewrite ab_printf_spec by lia. rewrite Hj.
  specialize (IH (pieces ++ [acc; to_string r.1]) (to_string r.2)).
  rewrite <-!(assoc_L (++)) in IH. simpl in IH. rewrite IH. done.
Qed.

Lemma parse_pairs_numbers l : Forall (λ r, 0 ≤ r.1 ≤ INT_MAX ∧ 0 ≤ r.2 ≤ INT_MAX) l →
  parse_pairs (to_string <$> numbers_of l) = Some l.
Proof.
  induction 1 as [|[b e] l [? ?] Hl IH]; [done|].
  change (to_string <$> numbers_of ((b, e) :: l))
    with (to_string b :: to_string e :: (to_string <$> numbers_of l)).
  simpl in *. rewrite !ab_ParseUint_decimal by done. simpl. by rewrite IH.
Qed.

(** C7. Parsing the text of a set gives the set back. *)
Theorem Parse_ToString (rs : RangeSet) :
  wf rs → ranges_ rs ≠ [] → Forall (λ r, r.2 ≤ INT_MAX) (ranges_ rs) →
  2 * Z.of_nat (length (ranges_ rs)) ≤ INT_MAX →
  Parse (ToString rs) = rs.
Proof.
  intros Hwf Hne Hb Hlen. pose proof Hwf as [Hv Hc Hm]. unfold ToString.
  destruct (ranges_ rs) as [|r l] eqn:El; [done|]. rewrite <-El in *.
  set (n := Z.of_nat (length (ranges_ rs)) *64 2).
  assert (n = 2 * Z.of_nat (length (ranges_ rs))) as Hn
    by (unfold n, INT_MAX in *; unwrap; lia).
  rewrite (ToString_foldl _ (to_string n) []) by done. simpl app. unfold Parse.
  assert (Forall (λ r, 0 ≤ r.1 ≤ INT_MAX ∧ 0 ≤ r.2 ≤ INT_MAX) (ranges_ rs)) as Hb'.
  { rewrite Forall_forall in Hb, Hv |- *. intros x Hx. destruct (Hv _ Hx).
    specialize (Hb _ Hx). simpl in *. lia. }
  assert (length (numbers_of (ranges_ rs)) = 2 * length (ranges_ rs))%nat as Hlen2.
  { clear. induction (ranges_ rs) as [|r l IH]; [done|]. simpl. rewrite IH. lia. }
  rewrite (ab_Split_join (to_string n :: (to_string <$> numbers_of (ranges_ rs)))); [|done|].
  2: { constructor; [apply to_string_no_comma|].
       apply Forall_fmap, Forall_true. intros x. apply to_string_no_comma. }
  pose proof (parse_pairs_numbers _ Hb') as Hpp.
  assert (length (to_string <$> numbers_of (ranges_ rs)) = 2 * length (ranges_ rs))%nat as Hlen3
    by by rewrite length_fmap.
  destruct (to_string <$> numbers_of (ranges_ rs)) as [|p1 [|p2 ps]];
    [rewrite El in Hlen3; simpl in Hlen3; lia..|].
  rewrite ab_ParseUint_decimal by (rewrite El in *; simpl length in *; lia).
  destruct (Z.eqb_spec n 0); [rewrite El in *; simpl length in *; lia|].
  rewrite Hn, Z.mul_comm, Z_mod_mult. simpl negb.
  simpl in Hlen3. rewrite (proj2 (Z.eqb_eq _ _)) by lia. cbn [negb]. rewrite Hpp.
  rewrite El. change (RangeSet_of_pairs (r :: l)) with (push_pairs RangeSet_empty (r :: l)).
  rewrite <-El, push_pairs_spec.
  - rewrite decide_True by (split; [done|simpl; lia]). simpl. destruct rs. simpl in *. by f_equal; lia.
  - apply wf_empty.
  - eapply Forall_impl; [exact Hv|]. unfold valid_range, is_u64. simpl. lia.
Qed.

(** Whatever the text, the result satisfies the class invariant and its
    numbers are below INT_MAX. *)
Theorem Parse_wf (text : string) :
  wf (Parse text) ∧ Forall (λ r, r.2 ≤ INT_MAX) (ranges_ (Parse text)).
Proof.
  assert (∀ pieces pairs, parse_pairs pieces = Some pairs →
    Forall (λ r, 0 ≤ r.1 ≤ INT_MAX ∧ 0 ≤ r.2 ≤ INT_MAX) pairs) as Hpp.
  { fix IH 1. intros [|p1 [|p2 pieces]] pairs; simpl; [by intros [= <-]..|].
    destruct (ab_ParseUint p1 INT_MAX) as [n1|] eqn:E1; [|done]; simpl.
    destruct (ab_ParseUint p2 INT_MAX) as [n2|] eqn:E2; [|done]; simpl.
    destruct (parse_pairs pieces) as [ps|] eqn:E3; [|done]; simpl. intros [= <-].
    apply ab_ParseUint_bound in E1, E2. constructor; [done|]. by apply (IH pieces). }
  assert (wf RangeSet_empty ∧ Forall (λ r, r.2 ≤ INT_MAX) (ranges_ RangeSet_empty)) as He
    by (split; [apply wf_empty|constructor]).
  unfold Parse. destruct (ab_Split text ",") as [|p0 [|p1 [|p2 ps]]]; try done.
  destruct (ab_ParseUint p0 INT_MAX) as [num|]; [|done].
  repeat case_bool; try done.
  destruct (parse_pairs (p1 :: p2 :: ps)) as [pairs|] eqn:Eps; [|done].
  apply Hpp in Eps. destruct pairs as [|r l]; [done|].
  change (RangeSet_of_pairs (r :: l)) with (push_pairs RangeSet_empty (r :: l)).
  rewrite push_pairs_spec.
  - case_decide as Hd; [|done]. destruct Hd as [Hv Ht]. simpl in Ht |- *. split.
    + split; simpl; [done|lia|lia].
    + eapply Forall_impl; [exact Eps|]. simpl. lia.
  - apply wf_empty.
  - eapply Forall_impl; [exact Eps|]. unfold is_u64, INT_MAX. simpl. lia.
Qed.
End TextProofs.

(** ** The theorems at concrete sets *)

(** Two ranges, ten blocks: 0-4 and 10-14. *)
Definition two_ranges : RangeSet := mkRangeSet [(0, 5); (10, 15)] 10.

Lemma wf_two_ranges : wf two_ranges.
Proof. split; [by repeat constructor|done|done]. Qed.

Lemma separated_two_ranges : separated (ranges_ two_ranges).
Proof. by repeat constructor. Qed.

Lemma GetSubRanges_spec_witness :
  ∃ sub, GetSubRanges two_ranges 3 4 = Ret (Some sub) ∧ wf sub ∧
    blocks_of (ranges_ sub) = [3; 4; 10; 11].
Proof. apply (GetSubRanges_spec two_ranges 3 4); [apply wf_two_ranges|done|done]. Defined.

Lemma Split_spec_witness :
  ∃ gs, Split two_ranges 4 = Ret gs ∧ Forall wf gs ∧
    (gs ≫= λ g, blocks_of (ranges_ g)) = [0; 1; 2; 3; 4; 10; 11; 12; 13; 14] ∧
    map blocks_ gs = [3; 3; 2; 2].
Proof. apply (Split_spec two_ranges 4); [apply wf_two_ranges|done|done|done]. Defined.

Lemma Insert_extent_spec_witness :
  ∃ res, Insert_extent two_ranges 20000 100 = Ret res ∧ wf res ∧ separated (ranges_ res) ∧
    ∀ x, x ∈ blocks_of (ranges_ res) ↔
         x ∈ blocks_of (ranges_ two_ranges) ∨ ∃ o, 20000 ≤ o < 20000 + 100 ∧ x = o / kBlockSize.
Proof.
  apply (Insert_extent_spec two_ranges 20000 100);
    [apply wf_two_ranges|apply separated_two_ranges|by repeat constructor|done|done|done].
Defined.

Lemma GetOffsetInRangeSet_spec_witness :
  GetOffsetInRangeSet two_ranges 45000 = 5 * 4096 + 45000 mod 4096.
Proof.
  apply (proj1 (GetOffsetInRangeSet_spec two_ranges 45000 wf_two_ranges
    separated_two_ranges ltac:(done)) 5%nat).
  reflexivity.
Defined.

Lemma Parse_ToString_witness : Parse (ToString two_ranges) = two_ranges.
Proof.
  apply (Parse_ToString (H := libbase) two_ranges);
    [apply wf_two_ranges|done|by repeat constructor|done].
Defined.

Lemma Parse_wf_witness :
  wf (Parse "4,3,5,9,12") ∧ Forall (λ r, r.2 ≤ INT_MAX) (ranges_ (Parse "4,3,5,9,12")).
Proof. apply (Parse_wf (H := libbase) "4,3,5,9,12"). Defined.
