(* ===== verification/Asn1.v ===== *)
(** * The ASN.1 decoder and the PKCS#7 signature extraction

    Model of [src/miupdate/recovery_otaverifier/install/asn1_decoder.cpp] and
    of [read_pkcs7] in [install/verifier.cpp].  A context is a pointer into a
    buffer, a remaining length and the application type; a read outside the
    buffer is [UB].  The specification side parses lists of bytes: every
    operation on a context is proved to compute what the list parser computes
    on the bytes the context denotes, so in particular no input makes the
    decoder leave its buffer. *)
From S2P Require Import Prelude.
#[local] Open Scope Z_scope.
#[local] Open Scope mach_scope.

(** @src src/miupdate/recovery_otaverifier/install/include/private/asn1_decoder.h:36-36 kMaskConstructed *)
Definition kMaskConstructed : Z := 0xE0.
(** @src src/miupdate/recovery_otaverifier/install/include/private/asn1_decoder.h:37-37 kMaskTag *)
Definition kMaskTag : Z := 0x7F.
(** @src src/miupdate/recovery_otaverifier/install/include/private/asn1_decoder.h:38-38 kMaskAppType *)
Definition kMaskAppType : Z := 0x1F.
(** @src src/miupdate/recovery_otaverifier/install/include/private/asn1_decoder.h:40-40 kTagOctetString *)
Definition kTagOctetString : Z := 0x04.
(** @src src/miupdate/recovery_otaverifier/install/include/private/asn1_decoder.h:41-41 kTagOid *)
Definition kTagOid : Z := 0x06.
(** @src src/miupdate/recovery_otaverifier/install/include/private/asn1_decoder.h:42-42 kTagSequence *)
Definition kTagSequence : Z := 0x30.
(** @src src/miupdate/recovery_otaverifier/install/include/private/asn1_decoder.h:43-43 kTagSet *)
Definition kTagSet : Z := 0x31.
(** @src src/miupdate/recovery_otaverifier/install/include/private/asn1_decoder.h:44-44 kTagConstructed *)
Definition kTagConstructed : Z := 0xA0.

(** @src src/miupdate/recovery_otaverifier/install/include/private/asn1_decoder.h:51-53 asn1_context
    [p_] is an index into the buffer the context was made from. *)
Record asn1_context := mk_asn1 { p_ : Z; length_ : Z; app_type_ : Z }.

(** @src src/miupdate/recovery_otaverifier/install/include/private/asn1_decoder.h:25-25 asn1_context::asn1_context *)
Definition new_asn1_context (buffer length : Z) : asn1_context := mk_asn1 buffer length 0.

Section Decoder.
(** The memory object all contexts point into. *)
Context (buf : list Z).

(** [*p] *)
Definition deref (p : Z) : outcome Z :=
  if p <? 0 then UB else or_ub (buf !! Z.to_nat p).

(** @src src/miupdate/recovery_otaverifier/install/asn1_decoder.cpp:19-24 asn1_context::peek_byte *)
Definition peek_byte (c : asn1_context) : outcome Z :=
  if length_ c =? 0 then Ret (-1) else deref (p_ c).

(** @src src/miupdate/recovery_otaverifier/install/asn1_decoder.cpp:26-35 asn1_context::get_byte *)
Definition get_byte (c : asn1_context) : outcome (Z * asn1_context) :=
  if length_ c =? 0 then Ret (-1, c)
  else
    byte ← deref (p_ c);
    Ret (byte, mk_asn1 (p_ c + 1) (length_ c -64 1) (app_type_ c)).

(** @src src/miupdate/recovery_otaverifier/install/asn1_decoder.cpp:37-44 asn1_context::skip_bytes *)
Definition skip_bytes (num_skip : Z) (c : asn1_context) : bool * asn1_context :=
  if length_ c <? num_skip then (false, c)
  else (true, mk_asn1 (p_ c + num_skip) (length_ c -64 num_skip) (app_type_ c)).

(** The loop of [decode_length]. *)
Fixpoint decode_octets (num_octets : nat) (length : Z) (c : asn1_context)
    : outcome (option Z * asn1_context) :=
  match num_octets with
  | O => Ret (Some length, c)
  | S n =>
      '(byte, c) ← get_byte c;
      if byte =? -1 then Ret (None, c)
      else decode_octets n (u64 (Z.shiftl length 8) +64 byte) c
  end.

(** @src src/miupdate/recovery_otaverifier/install/asn1_decoder.cpp:46-70 asn1_context::decode_length
    [None] stands for [false]. *)
Definition decode_length (c : asn1_context) : outcome (option Z * asn1_context) :=
  '(num_octets, c) ← get_byte c;
  if num_octets =? -1 then Ret (None, c)
  else if Z.land num_octets 0x80 =? 0 then Ret (Some num_octets, c)
  else
    let num_octets := Z.land num_octets kMaskTag in
    if 8 <=? u64 num_octets then Ret (None, c)
    else decode_octets (Z.to_nat num_octets) 0 c.

(** @src src/miupdate/recovery_otaverifier/install/asn1_decoder.cpp:75-87 asn1_context::asn1_constructed_get
    [None] stands for [nullptr]; the second component is the updated [this]. *)
Definition asn1_constructed_get (c : asn1_context)
    : outcome (option asn1_context * asn1_context) :=
  '(type, c) ← get_byte c;
  if (type =? -1) || negb (Z.land type kMaskConstructed =? kTagConstructed)
  then Ret (None, c)
  else
    '(r, c) ← decode_length c;
    match r with
    | None => Ret (None, c)
    | Some length =>
        if length_ c <? length then Ret (None, c)
        else Ret (Some (mk_asn1 (p_ c) length (Z.land type kMaskAppType)), c)
    end.

(** The loop of [asn1_constructed_skip_all]. *)
Fixpoint skip_all_loop (fuel : nat) (byte : Z) (c : asn1_context)
    : outcome (bool * asn1_context) :=
  match fuel with
  | O => OutOfFuel
  | S fuel' =>
      if negb (byte =? -1) && (Z.land byte kMaskConstructed =? kTagConstructed) then
        let c := (skip_bytes 1 c).2 in
        '(r, c) ← decode_length c;
        match r with
        | None => Ret (false, c)
        | Some length =>
            match skip_bytes length c with
            | (false, c) => Ret (false, c)
            | (true, c) => byte ← peek_byte c; skip_all_loop fuel' byte c
            end
        end
      else Ret (negb (byte =? -1), c)
  end.

(** @src src/miupdate/recovery_otaverifier/install/asn1_decoder.cpp:89-100 asn1_context::asn1_constructed_skip_all
    Each iteration consumes at least one byte, so [length_] bounds the loop. *)
Definition asn1_constructed_skip_all (c : asn1_context) : outcome (bool * asn1_context) :=
  byte ← peek_byte c;
  skip_all_loop (S (Z.to_nat (length_ c))) byte c.

(** @src src/miupdate/recovery_otaverifier/install/asn1_decoder.cpp:102-104 asn1_context::asn1_constructed_type *)
Definition asn1_constructed_type (c : asn1_context) : Z := app_type_ c.

(** @src src/miupdate/recovery_otaverifier/install/asn1_decoder.cpp:106-115 asn1_context::asn1_sequence_get *)
Definition asn1_sequence_get (c : asn1_context)
    : outcome (option asn1_context * asn1_context) :=
  '(byte, c) ← get_byte c;
  if negb (Z.land byte kMaskTag =? kTagSequence) then Ret (None, c)
  else
    '(r, c) ← decode_length c;
    match r with
    | None => Ret (None, c)
    | Some length =>
        if length_ c <? length then Ret (None, c)
        else Ret (Some (new_asn1_context (p_ c) length), c)
    end.

(** @src src/miupdate/recovery_otaverifier/install/asn1_decoder.cpp:117-126 asn1_context::asn1_set_get *)
Definition asn1_set_get (c : asn1_context)
    : outcome (option asn1_context * asn1_context) :=
  '(byte, c) ← get_byte c;
  if negb (Z.land byte kMaskTag =? kTagSet) then Ret (None, c)
  else
    '(r, c) ← decode_length c;
    match r with
    | None => Ret (None, c)
    | Some length =>
        if length_ c <? length then Ret (None, c)
        else Ret (Some (new_asn1_context (p_ c) length), c)
    end.

(** @src src/miupdate/recovery_otaverifier/install/asn1_decoder.cpp:128-134 asn1_context::asn1_sequence_next *)
Definition asn1_sequence_next (c : asn1_context) : outcome (bool * asn1_context) :=
  '(byte, c) ← get_byte c;
  if byte =? -1 then Ret (false, c)
  else
    '(r, c) ← decode_length c;
    match r with
    | None => Ret (false, c)
    | Some length => Ret (skip_bytes length c)
    end.

(** @src src/miupdate/recovery_otaverifier/install/asn1_decoder.cpp:136-145 asn1_context::asn1_oid_get
    [Some (oid, length)] when the method returns [true]. *)
Definition asn1_oid_get (c : asn1_context) : outcome (option (Z * Z) * asn1_context) :=
  '(byte, c) ← get_byte c;
  if negb (byte =? kTagOid) then Ret (None, c)
  else
    '(r, c) ← decode_length c;
    match r with
    | None => Ret (None, c)
    | Some length =>
        if (length =? 0) || (length_ c <? length) then Ret (None, c)
        else Ret (Some (p_ c, length), c)
    end.

(** @src src/miupdate/recovery_otaverifier/install/asn1_decoder.cpp:147-156 asn1_context::asn1_octet_string_get *)
Definition asn1_octet_string_get (c : asn1_context)
    : outcome (option (Z * Z) * asn1_context) :=
  '(byte, c) ← get_byte c;
  if negb (byte =? kTagOctetString) then Ret (None, c)
  else
    '(r, c) ← decode_length c;
    match r with
    | None => Ret (None, c)
    | Some length =>
        if (length =? 0) || (length_ c <? length) then Ret (None, c)
        else Ret (Some (p_ c, length), c)
    end.

(** [std::copy(p, p + n, dest)]: the bytes copied. *)
Definition copy_bytes (p n : Z) : outcome (list Z) :=
  if (0 <=? p) && (0 <=? n) && (p + n <=? Z.of_nat (length buf))
  then Ret (take (Z.to_nat n) (drop (Z.to_nat p) buf)) else UB.

(** [&&]-chains of calls that return a pointer or a boolean. *)
Definition on_ctx (r : option asn1_context)
    (k : asn1_context → outcome (option (list Z))) : outcome (option (list Z)) :=
  match r with None => Ret None | Some c => k c end.

Definition on_true (b : bool) (k : outcome (option (list Z))) : outcome (option (list Z)) :=
  if b then k else Ret None.

(** @src src/miupdate/recovery_otaverifier/install/verifier.cpp:67-111 read_pkcs7
    [Some sig_der] when it returns [true], [None] when it returns [false]. *)
Definition read_pkcs7 (pkcs7_der pkcs7_der_len : Z) : outcome (option (list Z)) :=
  let ctx := new_asn1_context pkcs7_der pkcs7_der_len in
  '(pkcs7_seq, _) ← asn1_sequence_get ctx; on_ctx pkcs7_seq (λ pkcs7_seq,
  '(b, pkcs7_seq) ← asn1_sequence_next pkcs7_seq; on_true b (
  '(signed_data_app, _) ← asn1_constructed_get pkcs7_seq;
  on_ctx signed_data_app (λ signed_data_app,
  '(signed_data_seq, _) ← asn1_sequence_get signed_data_app;
  on_ctx signed_data_seq (λ signed_data_seq,
  '(b, signed_data_seq) ← asn1_sequence_next signed_data_seq; on_true b (
  '(b, signed_data_seq) ← asn1_sequence_next signed_data_seq; on_true b (
  '(b, signed_data_seq) ← asn1_sequence_next signed_data_seq; on_true b (
  '(b, signed_data_seq) ← asn1_constructed_skip_all signed_data_seq; on_true b (
  '(sig_set, _) ← asn1_set_get signed_data_seq; on_ctx sig_set (λ sig_set,
  '(sig_seq, _) ← asn1_sequence_get sig_set; on_ctx sig_seq (λ sig_seq,
  '(b, sig_seq) ← asn1_sequence_next sig_seq; on_true b (
  '(b, sig_seq) ← asn1_sequence_next sig_seq; on_true b (
  '(b, sig_seq) ← asn1_sequence_next sig_seq; on_true b (
  '(b, sig_seq) ← asn1_sequence_next sig_seq; on_true b (
  '(sig_der, _) ← asn1_octet_string_get sig_seq;
  match sig_der with
  | None => Ret None
  | Some (sig_der_ptr, sig_der_length) =>
      bytes ← copy_bytes sig_der_ptr sig_der_length; Ret (Some bytes)
  end)))))))))))))).
End Decoder.

(** ** Specification: parsers of byte lists *)

Fixpoint parse_octets (n : nat) (acc : Z) (bs : list Z) : option (Z * list Z) :=
  match n, bs with
  | O, _ => Some (acc, bs)
  | S n', b :: bs' => parse_octets n' (acc * 256 + b) bs'
  | S _, [] => None
  end.

(** A DER length of at most seven octets. *)
Definition parse_length (bs : list Z) : option (Z * list Z) :=
  match bs with
  | [] => None
  | b :: bs' =>
      if b <? 128 then Some (b, bs')
      else if 128 + 8 <=? b then None
      else parse_octets (Z.to_nat (b - 128)) 0 bs'
  end.

(** The content of the first element of [bs] if its tag is accepted. *)
Definition content (ok : Z → bool) (bs : list Z) : option (list Z) :=
  match bs with
  | [] => None
  | tag :: bs' =>
      if ok tag then
        '(n, rest) ← parse_length bs';
        if n <=? Z.of_nat (length rest) then Some (take (Z.to_nat n) rest) else None
      else None
  end.

(** What follows the first element of [bs]. *)
Definition skip_element (bs : list Z) : option (list Z) :=
  match bs with
  | [] => None
  | _ :: bs' =>
      '(n, rest) ← parse_length bs';
      if n <=? Z.of_nat (length rest) then Some (drop (Z.to_nat n) rest) else None
  end.

Definition is_sequence (tag : Z) : bool := tag mod 128 =? 0x30.
Definition is_set (tag : Z) : bool := tag mod 128 =? 0x31.
Definition is_constructed (tag : Z) : bool := (0xA0 <=? tag) && (tag <? 0xC0).
Definition is_octet_string (tag : Z) : bool := tag =? 0x04.

Fixpoint skip_constructed (fuel : nat) (bs : list Z) : option (list Z) :=
  match fuel, bs with
  | S fuel', tag :: _ =>
      if is_constructed tag then rest ← skip_element bs; skip_constructed fuel' rest
      else Some bs
  | _, _ => None
  end.

Definition nonempty (bs : list Z) : option (list Z) :=
  match bs with [] => None | _ => Some bs end.

(** The SignatureValue of a PKCS#7 SignedData, found by position. *)
Definition pkcs7_signature (bs : list Z) : option (list Z) :=
  content_info ← content is_sequence bs;
  rest ← skip_element content_info;
  app ← content is_constructed rest;
  signed_data ← content is_sequence app;
  d1 ← skip_element signed_data; d2 ← skip_element d1; d3 ← skip_element d2;
  d4 ← skip_constructed (S (length d3)) d3;
  signer_infos ← content is_set d4;
  signer_info ← content is_sequence signer_infos;
  s1 ← skip_element signer_info; s2 ← skip_element s1;
  s3 ← skip_element s2; s4 ← skip_element s3;
  sig ← content is_octet_string s4;
  nonempty sig.

(** ** Contexts denote byte lists *)

Section Refinement.
Context (buf : list Z).

(** The bytes still to be read from a context. *)
Definition view (c : asn1_context) (bs : list Z) : Prop :=
  0 ≤ p_ c ∧ length_ c = Z.of_nat (length bs) ∧ length_ c < 2 ^ 64 ∧ Forall is_byte bs ∧
  ∃ post, drop (Z.to_nat (p_ c)) buf = bs ++ post.

Definition opt_view (r : option asn1_context) (o : option (list Z)) : Prop :=
  match r, o with
  | Some c, Some bs => view c bs
  | None, None => True
  | _, _ => False
  end.

(** A method that answers a boolean and moves on. *)
Definition bool_view (b : bool) (c : asn1_context) (o : option (list Z)) : Prop :=
  match o with Some bs => b = true ∧ view c bs | None => b = false end.

Lemma view_step c xs bs : view c (xs ++ bs) →
  view (mk_asn1 (p_ c + Z.of_nat (length xs)) (length_ c -64 Z.of_nat (length xs)) (app_type_ c)) bs.
Proof.
  intros (Hp & Hl & Hm & Hb & post & Hd). rewrite length_app in Hl.
  apply Forall_app in Hb as [_ Hb]. unfold view; simpl. unwrap. split_and!; [lia..|done|].
  exists post. rewrite Z2Nat.inj_add, Nat2Z.id by lia.
  by rewrite <-drop_drop, Hd, <-(assoc_L (++)), drop_app_length.
Qed.

Lemma deref_view c b bs : view c (b :: bs) → deref buf (p_ c) = Ret b.
Proof.
  intros (Hp & _ & _ & _ & post & Hd). unfold deref.
  destruct (Z.ltb_spec (p_ c) 0); [lia|].
  replace (Z.to_nat (p_ c)) with (Z.to_nat (p_ c) + 0)%nat by lia.
  by rewrite <-lookup_drop, Hd.
Qed.

Lemma view_length c bs : view c bs → length_ c = Z.of_nat (length bs).
Proof. by intros (_ & ? & _). Qed.

Lemma view_bound c bs : view c bs → length_ c < 2 ^ 64.
Proof. by intros (_ & _ & ? & _). Qed.

Lemma view_byte c b bs : view c (b :: bs) → is_byte b.
Proof. intros (_ & _ & _ & Hb & _). by apply Forall_cons in Hb as [? _]. Qed.

Lemma get_byte_nil c : view c [] → get_byte buf c = Ret (-1, c).
Proof. intros Hv. unfold get_byte. by rewrite (view_length _ _ Hv). Qed.

Lemma get_byte_cons c b bs : view c (b :: bs) →
  ∃ c', get_byte buf c = Ret (b, c') ∧ view c' bs.
Proof.
  intros Hv. unfold get_byte. destruct (Z.eqb_spec (length_ c) 0) as [E|_].
  { by rewrite (view_length _ _ Hv) in E. }
  rewrite (deref_view _ _ _ Hv). simpl. eexists. split; [done|].
  apply (view_step _ [b] bs Hv).
Qed.

Lemma peek_byte_view c bs : view c bs →
  peek_byte buf c = Ret (match bs with [] => -1 | b :: _ => b end).
Proof.
  intros Hv. unfold peek_byte. rewrite (view_length _ _ Hv). destruct bs as [|b bs]; [done|].
  simpl. by rewrite (deref_view _ _ _ Hv).
Qed.

Lemma skip_bytes_view c bs n : view c bs → 0 ≤ n →
  ∃ b c', skip_bytes n c = (b, c') ∧
    bool_view b c' (if n <=? Z.of_nat (length bs) then Some (drop (Z.to_nat n) bs) else None).
Proof.
  intros Hv Hn. unfold skip_bytes. pose proof (view_length _ _ Hv) as Hl.
  destruct (Z.leb_spec n (Z.of_nat (length bs))) as [Hle|Hgt].
  - destruct (Z.ltb_spec (length_ c) n); [lia|]. do 2 eexists. split; [done|].
    split; [done|]. rewrite <-(take_drop (Z.to_nat n) bs) in Hv.
    pose proof (view_step _ _ _ Hv) as Hv'.
    rewrite length_take in Hv'.
    by replace (Z.of_nat (Z.to_nat n `min` length bs)) with n in Hv' by lia.
  - destruct (Z.ltb_spec (length_ c) n); [|lia]. by do 2 eexists.
Qed.

(** A length read off a context. *)
Definition length_view (r : option Z) (c : asn1_context) (o : option (Z * list Z)) : Prop :=
  match o with
  | Some (n, rest) => r = Some n ∧ 0 ≤ n ∧ view c rest
  | None => r = None
  end.

Lemma decode_octets_view n acc c bs : (n ≤ 7)%nat → view c bs →
  0 ≤ acc < 2 ^ (56 - 8 * Z.of_nat n) →
  ∃ r c', decode_octets buf n acc c = Ret (r, c') ∧ length_view r c' (parse_octets n acc bs).
Proof.
  revert acc c bs. induction n as [|n IH]; intros acc c bs Hn Hv Ha.
  { simpl. do 2 eexists. split; [done|]. split_and!; [done|lia|done]. }
  destruct bs as [|b bs].
  { simpl. rewrite (get_byte_nil _ Hv). simpl. by do 2 eexists. }
  destruct (get_byte_cons _ _ _ Hv) as (c' & E & Hv'). simpl. rewrite E. simpl.
  pose proof (view_byte _ _ _ Hv) as Hb. unfold is_byte in Hb.
  destruct (Z.eqb_spec b (-1)); [lia|].
  assert (2 ^ (56 - 8 * Z.of_nat n) = 256 * 2 ^ (56 - 8 * Z.of_nat (S n))) as E2.
  { change 256 with (2 ^ 8). rewrite <-Z.pow_add_r by lia. f_equal. lia. }
  assert (2 ^ (56 - 8 * Z.of_nat n) ≤ 2 ^ 56) by (apply Z.pow_le_mono_r; lia).
  rewrite Z.shiftl_mul_pow2 by lia. change (2 ^ 8) with 256. unwrap.
  apply IH; [lia|done|lia].
Qed.

Lemma byte_mask b : is_byte b →
  (Z.land b 0x80 =? 0) = (b <? 128) ∧ Z.land b kMaskTag = b mod 128 ∧
  (Z.land b kMaskTag =? kTagSequence) = is_sequence b ∧
  (Z.land b kMaskTag =? kTagSet) = is_set b ∧
  (Z.land b kMaskConstructed =? kTagConstructed) = is_constructed b.
Proof.
  intros Hb.
  pose proof (byte_forall (λ b,
    eqb (Z.land b 0x80 =? 0) (b <? 128) && (Z.land b kMaskTag =? b mod 128) &&
    eqb (Z.land b kMaskTag =? kTagSequence) (is_sequence b) &&
    eqb (Z.land b kMaskTag =? kTagSet) (is_set b) &&
    eqb (Z.land b kMaskConstructed =? kTagConstructed) (is_constructed b)) b eq_refl Hb) as H.
  cbn beta in H. to_prop. by split_and!; first [apply eqb_prop|done].
Qed.

Lemma decode_length_view c bs : view c bs →
  ∃ r c', decode_length buf c = Ret (r, c') ∧ length_view r c' (parse_length bs).
Proof.
  intros Hv. unfold decode_length. destruct bs as [|b bs].
  { rewrite (get_byte_nil _ Hv). simpl. by do 2 eexists. }
  destruct (get_byte_cons _ _ _ Hv) as (c' & E & Hv'). rewrite E. simpl.
  pose proof (view_byte _ _ _ Hv) as Hb.
  destruct (byte_mask b Hb) as (-> & -> & _). unfold is_byte in Hb.
  destruct (Z.eqb_spec b (-1)); [lia|].
  destruct (Z.ltb_spec b 128).
  { do 2 eexists. split; [done|]. split_and!; [done|lia|done]. }
  replace (b mod 128) with (b - 128) by (apply (Z.mod_unique_pos _ _ 1); lia). unwrap.
  destruct (Z.leb_spec 8 (b - 128)), (Z.leb_spec (128 + 8) b); try lia.
  { by do 2 eexists. }
  apply decode_octets_view; [lia|done|].
  split; [done|]. apply Z.pow_pos_nonneg; lia.
Qed.

(** The child context of an element whose content fits. *)
Lemma child_view c rest n t : view c rest → 0 ≤ n ≤ Z.of_nat (length rest) →
  view (mk_asn1 (p_ c) n t) (take (Z.to_nat n) rest).
Proof.
  intros (Hp & Hl & Hm & Hb & post & Hd) Hn. unfold view; simpl.
  rewrite length_take. split_and!; [done|lia|lia|by apply Forall_take|].
  exists (drop (Z.to_nat n) rest ++ post). by rewrite (assoc_L (++)), take_drop.
Qed.

(** The three getters share their tail. *)
Lemma get_tail_view c bs t : view c bs →
  ∃ r c',
    ('(r, c) ← decode_length buf c;
     match r with
     | None => Ret (None, c)
     | Some length =>
         if length_ c <? length then Ret (None, c)
         else Ret (Some (mk_asn1 (p_ c) length t), c)
     end) = Ret (r, c') ∧
    opt_view r ('(n, rest) ← parse_length bs;
      if n <=? Z.of_nat (length rest) then Some (take (Z.to_nat n) rest) else None).
Proof.
  intros Hv. destruct (decode_length_view _ _ Hv) as (r & c' & -> & Hr). simpl.
  destruct (parse_length bs) as [[n rest]|]; simpl in *; [|subst r; by do 2 eexists].
  destruct Hr as (-> & Hn & Hv'). rewrite (view_length _ _ Hv').
  destruct (Z.leb_spec n (Z.of_nat (length rest))), (Z.ltb_spec (Z.of_nat (length rest)) n);
    try lia; do 2 eexists; split; try done.
  by apply child_view.
Qed.

Lemma asn1_sequence_get_view c bs : view c bs →
  ∃ r c', asn1_sequence_get buf c = Ret (r, c') ∧ opt_view r (content is_sequence bs).
Proof.
  intros Hv. unfold asn1_sequence_get. destruct bs as [|b bs].
  { rewrite (get_byte_nil _ Hv). simpl. by do 2 eexists. }
  destruct (get_byte_cons _ _ _ Hv) as (c' & -> & Hv'). simpl.
  destruct (byte_mask b (view_byte _ _ _ Hv)) as (_ & _ & -> & _).
  destruct (is_sequence b); simpl; [|by do 2 eexists]. by apply get_tail_view.
Qed.

Lemma asn1_set_get_view c bs : view c bs →
  ∃ r c', asn1_set_get buf c = Ret (r, c') ∧ opt_view r (content is_set bs).
Proof.
  intros Hv. unfold asn1_set_get. destruct bs as [|b bs].
  { rewrite (get_byte_nil _ Hv). simpl. by do 2 eexists. }
  destruct (get_byte_cons _ _ _ Hv) as (c' & -> & Hv'). simpl.
  destruct (byte_mask b (view_byte _ _ _ Hv)) as (_ & _ & _ & -> & _).
  destruct (is_set b); simpl; [|by do 2 eexists]. by apply get_tail_view.
Qed.

Lemma asn1_constructed_get_view c bs : view c bs →
  ∃ r c', asn1_constructed_get buf c = Ret (r, c') ∧ opt_view r (content is_constructed bs).
Proof.
  intros Hv. unfold asn1_constructed_get. destruct bs as [|b bs].
  { rewrite (get_byte_nil _ Hv). simpl. by do 2 eexists. }
  destruct (get_byte_cons _ _ _ Hv) as (c' & -> & Hv'). simpl.
  pose proof (view_byte _ _ _ Hv) as Hb. destruct (byte_mask b Hb) as (_ & _ & _ & _ & ->).
  unfold is_byte in Hb. destruct (Z.eqb_spec b (-1)); [lia|]. simpl.
  destruct (is_constructed b); simpl; [|by do 2 eexists]. by apply get_tail_view.
Qed.

(** Length and content, as [asn1_sequence_next] and the skipping loop read them. *)
Lemma skip_tail_view c bs : view c bs →
  ∃ b c',
    ('(r, c) ← decode_length buf c;
     match r with
     | None => Ret (false, c)
     | Some length => Ret (skip_bytes length c)
     end) = Ret (b, c') ∧
    bool_view b c' ('(n, rest) ← parse_length bs;
      if n <=? Z.of_nat (length rest) then Some (drop (Z.to_nat n) rest) else None).
Proof.
  intros Hv. destruct (decode_length_view _ _ Hv) as (r & c' & -> & Hr). simpl.
  destruct (parse_length bs) as [[n rest]|]; simpl in *; [|subst r; by do 2 eexists].
  destruct Hr as (-> & Hn & Hv').
  destruct (skip_bytes_view _ _ _ Hv' Hn) as (b & c2 & -> & H). by do 2 eexists.
Qed.

Lemma asn1_sequence_next_view c bs : view c bs →
  ∃ b c', asn1_sequence_next buf c = Ret (b, c') ∧ bool_view b c' (skip_element bs).
Proof.
  intros Hv. unfold asn1_sequence_next. destruct bs as [|b bs].
  { rewrite (get_byte_nil _ Hv). simpl. by do 2 eexists. }
  destruct (get_byte_cons _ _ _ Hv) as (c' & -> & Hv'). simpl.
  pose proof (view_byte _ _ _ Hv) as Hb. unfold is_byte in Hb.
  destruct (Z.eqb_spec b (-1)); [lia|]. by apply skip_tail_view.
Qed.

Lemma parse_octets_length n acc bs m rest :
  parse_octets n acc bs = Some (m, rest) → (length rest ≤ length bs)%nat.
Proof.
  revert acc bs. induction n as [|n IH]; intros acc [|b bs]; simpl; [by intros [= _ <-]..|done|].
  intros H%IH. lia.
Qed.

Lemma parse_length_length bs m rest :
  parse_length bs = Some (m, rest) → (length rest < length bs)%nat.
Proof.
  destruct bs as [|b bs]; simpl; [done|]. repeat case_bool; try naive_solver lia.
  intros H%parse_octets_length. lia.
Qed.

Lemma skip_element_length bs rest :
  skip_element bs = Some rest → (length rest < length bs)%nat.
Proof.
  destruct bs as [|b bs]; [done|]. cbn [skip_element].
  destruct (parse_length bs) as [[n r]|] eqn:E; [|done]. simpl.
  apply parse_length_length in E. case_bool; [|done]. intros [= <-].
  rewrite length_drop. lia.
Qed.

Lemma skip_all_loop_view fuel fuel' c bs : view c bs →
  (length bs < fuel)%nat → (length bs < fuel')%nat →
  ∃ b c', skip_all_loop buf fuel (match bs with [] => -1 | b :: _ => b end) c = Ret (b, c') ∧
    bool_view b c' (skip_constructed fuel' bs).
Proof.
  revert fuel' c bs. induction fuel as [|fuel IH]; intros fuel' c bs Hv Hf Hf'; [lia|].
  destruct fuel' as [|fuel']; [lia|]. destruct bs as [|b bs]; [by do 2 eexists|].
  pose proof (view_byte _ _ _ Hv) as Hb. cbn [skip_all_loop skip_constructed].
  destruct (byte_mask b Hb) as (_ & _ & _ & _ & ->).
  unfold is_byte in Hb. destruct (Z.eqb_spec b (-1)) as [|_]; [lia|]. simpl.
  destruct (is_constructed b); [|by do 2 eexists].
  pose proof (view_step _ [b] bs Hv) as Hv1. change (Z.of_nat (length [b])) with 1 in Hv1.
  assert ((skip_bytes 1 c).2 = mk_asn1 (p_ c + 1) (length_ c -64 1) (app_type_ c)) as ->.
  { unfold skip_bytes. rewrite (view_length _ _ Hv). simpl length.
    destruct (Z.ltb_spec (Z.of_nat (S (length bs))) 1); [lia|done]. }
  pose proof (skip_element_length (b :: bs)) as Hlen. simpl skip_element in *.
  destruct (decode_length_view _ _ Hv1) as (r & c1 & -> & Hr). simpl.
  destruct (parse_length bs) as [[n rest]|]; simpl in *; [|subst r; by do 2 eexists].
  destruct Hr as (-> & Hn & Hv2).
  destruct (skip_bytes_view _ _ _ Hv2 Hn) as (b2 & c2 & -> & Hb2).
  destruct (Z.leb_spec n (Z.of_nat (length rest))); simpl in *; [|subst b2; by do 2 eexists].
  destruct Hb2 as [-> Hv3]. rewrite (peek_byte_view _ _ Hv3). simpl.
  specialize (Hlen _ eq_refl). apply IH; [done|lia..].
Qed.

Lemma asn1_constructed_skip_all_view c bs : view c bs →
  ∃ b c', asn1_constructed_skip_all buf c = Ret (b, c') ∧
    bool_view b c' (skip_constructed (S (length bs)) bs).
Proof.
  intros Hv. unfold asn1_constructed_skip_all. rewrite (peek_byte_view _ _ Hv), outcome_bind_ret_l.
  apply skip_all_loop_view; [done| |lia]. rewrite (view_length _ _ Hv). lia.
Qed.

Lemma asn1_octet_string_get_view c bs : view c bs →
  ∃ r c', asn1_octet_string_get buf c = Ret (r, c') ∧
    match content is_octet_string bs ≫= nonempty with
    | Some sig => ∃ ptr len, r = Some (ptr, len) ∧ copy_bytes buf ptr len = Ret sig
    | None => r = None
    end.
Proof.
  intros Hv. unfold asn1_octet_string_get. destruct bs as [|b bs].
  { rewrite (get_byte_nil _ Hv). simpl. by do 2 eexists. }
  destruct (get_byte_cons _ _ _ Hv) as (c' & -> & Hv'). simpl.
  change (b =? kTagOctetString) with (is_octet_string b).
  destruct (is_octet_string b); simpl; [|by do 2 eexists].
  destruct (decode_length_view _ _ Hv') as (r & c1 & -> & Hr). simpl.
  destruct (parse_length bs) as [[n rest]|]; simpl in *; [|subst r; by do 2 eexists].
  destruct Hr as (-> & Hn & Hv1). pose proof (view_length _ _ Hv1) as Hl.
  destruct (Z.leb_spec n (Z.of_nat (length rest))); simpl.
  2: { destruct (Z.ltb_spec (length_ c1) n); [|lia]. rewrite orb_true_r. by do 2 eexists. }
  destruct (Z.ltb_spec (length_ c1) n); [lia|]. rewrite orb_false_r.
  destruct (Z.eqb_spec n 0) as [->|Hn0]; [by do 2 eexists|].
  assert (length (take (Z.to_nat n) rest) = Z.to_nat n) as Hlt by (rewrite length_take; lia).
  destruct (take (Z.to_nat n) rest) as [|x xs] eqn:Et; [simpl in Hlt; lia|]. simpl.
  do 2 eexists. split; [done|]. do 2 eexists. split; [done|]. rewrite <-Et.
  destruct Hv1 as (Hp & _ & _ & _ & post & Hd). unfold copy_bytes.
  assert (length (drop (Z.to_nat (p_ c1)) buf) = length rest + length post)%nat as Hdl
    by by rewrite Hd, length_app.
  rewrite length_drop in Hdl.
  destruct (Z.leb_spec 0 (p_ c1)); [|lia]. destruct (Z.leb_spec 0 n); [|lia].
  destruct (Z.leb_spec (p_ c1 + n) (Z.of_nat (length buf))); [|lia]. simpl.
  by rewrite Hd, take_app_le by lia.
Qed.

(** ** The chain of calls in [read_pkcs7] *)

Lemma get_step (get : asn1_context → outcome (option asn1_context * asn1_context))
    ok c bs k f :
  (∀ c bs, view c bs → ∃ r c', get c = Ret (r, c') ∧ opt_view r (content ok bs)) →
  view c bs → (∀ c bs, view c bs → k c = Ret (f bs)) →
  ('(r, _) ← get c; on_ctx r k) = Ret (content ok bs ≫= f).
Proof.
  intros Hget Hv Hk. destruct (Hget _ _ Hv) as (r & c' & -> & Hr). simpl.
  destruct r, (content ok bs); simpl in *; try done. by apply Hk.
Qed.

Lemma next_step (next : asn1_context → outcome (bool * asn1_context)) o c k f :
  (∃ b c', next c = Ret (b, c') ∧ bool_view b c' o) →
  (∀ c bs, view c bs → k c = Ret (f bs)) →
  ('(b, c) ← next c; on_true b (k c)) = Ret (o ≫= f).
Proof.
  intros (b & c' & -> & Hr) Hk. simpl. destruct o; simpl in *; [|by subst b].
  destruct Hr as [-> Hv]. by apply Hk.
Qed.
End Refinement.

Ltac get_step lem :=
  eapply get_step; [apply lem|eassumption|clear; intros ?c ?bs ?Hv; cbn beta].
Ltac next_step lem :=
  eapply next_step; [apply lem; eassumption|clear; intros ?c ?bs ?Hv; cbn beta].

(** [read_pkcs7] on any bytes: it terminates, never reads outside its buffer,
    and answers what the list specification answers. *)
Lemma read_pkcs7_refines (buf : list Z) (ptr len : Z) :
  0 ≤ ptr → 0 ≤ len → ptr + len ≤ Z.of_nat (length buf) → len < 2 ^ 64 →
  Forall is_byte buf →
  read_pkcs7 buf ptr len =
    Ret (pkcs7_signature (take (Z.to_nat len) (drop (Z.to_nat ptr) buf))).
Proof.
  intros Hp Hl Hfit Hm Hb. set (bs := take _ _).
  assert (view buf (new_asn1_context ptr len) bs) as Hv.
  { unfold view, new_asn1_context; simpl. unfold bs. rewrite length_take, length_drop.
    split_and!; [done|lia|done|by apply Forall_take, Forall_drop|].
    exists (drop (Z.to_nat len) (drop (Z.to_nat ptr) buf)). by rewrite take_drop. }
  unfold read_pkcs7, pkcs7_signature.
  get_step asn1_sequence_get_view.
  next_step asn1_sequence_next_view.
  get_step asn1_constructed_get_view.
  get_step asn1_sequence_get_view.
  next_step asn1_sequence_next_view. next_step asn1_sequence_next_view.
  next_step asn1_sequence_next_view. next_step asn1_constructed_skip_all_view.
  get_step asn1_set_get_view. get_step asn1_sequence_get_view.
  next_step asn1_sequence_next_view. next_step asn1_sequence_next_view.
  next_step asn1_sequence_next_view. next_step asn1_sequence_next_view.
  match goal with Hv : view _ ?c ?bs |- _ =>
    destruct (asn1_octet_string_get_view _ _ _ Hv) as (r & c' & -> & Hr) end.
  simpl. destruct (content _ _ ≫= nonempty) as [sig|].
  - destruct Hr as (p & n & -> & ->). done.
  - by subst r.
Qed.

(** ** DER encoding and the round trip *)

Fixpoint be_octets (k : nat) (n : Z) : list Z :=
  match k with
  | O => []
  | S k' => be_octets k' (n / 256) ++ [n mod 256]
  end.

Definition der_length (n : Z) : list Z :=
  if n <? 128 then [n]
  else
    let k := Z.to_nat (Z.log2 n / 8 + 1) in
    (128 + Z.of_nat k) :: be_octets k n.

Definition tlv (tag : Z) (bs : list Z) : list Z :=
  tag :: der_length (Z.of_nat (length bs)) ++ bs.

Lemma length_be_octets k n : length (be_octets k n) = k.
Proof.
  revert n. induction k as [|k IH]; intros n; [done|]. simpl.
  rewrite length_app, IH. simpl. lia.
Qed.

Lemma parse_octets_app xs acc rest :
  parse_octets (length xs) acc (xs ++ rest) = Some (foldl (λ a b, a * 256 + b) acc xs, rest).
Proof. revert acc. by induction xs as [|x xs IH]; intros acc; simpl. Qed.

Lemma foldl_be_octets k acc n : 0 ≤ n < 256 ^ Z.of_nat k →
  foldl (λ a b, a * 256 + b) acc (be_octets k n) = acc * 256 ^ Z.of_nat k + n.
Proof.
  revert n. induction k as [|k IH]; intros n Hn; [simpl in *; lia|].
  rewrite Nat2Z.inj_succ, Z.pow_succ_r in * by lia. simpl. rewrite foldl_app. simpl.
  pose proof (Z.div_mod n 256). rewrite IH; [lia|].
  split; [apply Z.div_pos; lia|apply Z.div_lt_upper_bound; lia].
Qed.

Lemma parse_der_length n rest : 0 ≤ n < 2 ^ 56 →
  parse_length (der_length n ++ rest) = Some (n, rest).
Proof.
  intros Hn. unfold der_length. destruct (Z.ltb_spec n 128) as [Hs|Hs]; simpl.
  { by destruct (Z.ltb_spec n 128); [|lia]. }
  assert (0 ≤ Z.log2 n < 56).
  { split; [apply Z.log2_nonneg|]. apply Z.log2_lt_pow2; lia. }
  assert (0 ≤ Z.log2 n / 8 < 7) by (split; [apply Z.div_pos|apply Z.div_lt_upper_bound]; lia).
  set (k := Z.to_nat (Z.log2 n / 8 + 1)). assert (Z.of_nat k ≤ 7 ∧ 1 ≤ Z.of_nat k) as [? ?] by lia.
  destruct (Z.ltb_spec (128 + Z.of_nat k) 128); [lia|].
  destruct (Z.leb_spec (128 + 8) (128 + Z.of_nat k)); [lia|].
  replace (Z.to_nat (128 + Z.of_nat k - 128)) with (length (be_octets k n))
    by (rewrite length_be_octets; lia).
  rewrite parse_octets_app, foldl_be_octets; [by rewrite Z.mul_0_l|]. split; [lia|].
  change 256 with (2 ^ 8). rewrite <-Z.pow_mul_r by lia.
  eapply Z.lt_le_trans; [apply Z.log2_spec; lia|]. apply Z.pow_le_mono_r; [lia|].
  pose proof (Z.div_mod (Z.log2 n) 8). pose proof (Z.mod_pos_bound (Z.log2 n) 8). lia.
Qed.

Lemma length_tlv tag bs :
  length (tlv tag bs) = (1 + length (der_length (Z.of_nat (length bs))) + length bs)%nat.
Proof. unfold tlv. simpl. rewrite length_app. lia. Qed.

Lemma content_tlv ok tag bs rest : ok tag = true → Z.of_nat (length bs) < 2 ^ 56 →
  content ok (tlv tag bs ++ rest) = Some bs.
Proof.
  intros Hok Hb. simpl. rewrite Hok, <-(assoc_L (++)), parse_der_length by lia. simpl.
  rewrite length_app. destruct (Z.leb_spec (Z.of_nat (length bs))
    (Z.of_nat (length bs + length rest))); [|lia].
  by rewrite Nat2Z.id, take_app_length.
Qed.

Lemma skip_element_tlv tag bs rest : Z.of_nat (length bs) < 2 ^ 56 →
  skip_element (tlv tag bs ++ rest) = Some rest.
Proof.
  intros Hb. simpl. rewrite <-(assoc_L (++)), parse_der_length by lia. simpl.
  rewrite length_app. destruct (Z.leb_spec (Z.of_nat (length bs))
    (Z.of_nat (length bs + length rest))); [|lia].
  by rewrite Nat2Z.id, drop_app_length.
Qed.

(** A tagged element. *)
Abbreviation element := (Z * list Z)%type.
Definition enc (e : element) : list Z := tlv e.1 e.2.

(** A PKCS#7 SignedData message; [extras] are the optional constructed
    elements (certificates, revocation lists), [attributes] whatever follows
    the signature in the SignerInfo. *)
Record pkcs7 := {
  content_type : element;
  version : element; digest_algorithms : element; encap_content : element;
  extras : list element;
  si_version : element; signer_id : element; digest_algorithm : element;
  signature_algorithm : element;
  signature_value : list Z;
  attributes : list Z;
}.

Definition enc_signer_info (m : pkcs7) : list Z :=
  enc (si_version m) ++ enc (signer_id m) ++ enc (digest_algorithm m) ++
  enc (signature_algorithm m) ++ tlv 0x04 (signature_value m) ++ attributes m.

Definition enc_signed_data (m : pkcs7) : list Z :=
  enc (version m) ++ enc (digest_algorithms m) ++ enc (encap_content m) ++
  concat (enc <$> extras m) ++ tlv 0x31 (tlv 0x30 (enc_signer_info m)).

Definition enc_pkcs7 (m : pkcs7) : list Z :=
  tlv 0x30 (enc (content_type m) ++ tlv 0xA0 (tlv 0x30 (enc_signed_data m))).

Lemma length_concat_enc (es : list element) e :
  e ∈ es → (length e.2 ≤ length (concat (enc <$> es)))%nat.
Proof.
  induction 1 as [e es|e e' es He IH]; rewrite fmap_cons; cbn [concat]; rewrite length_app;
    [unfold enc; rewrite length_tlv|]; lia.
Qed.

Lemma length_concat_enc_count (es : list element) :
  (length es ≤ length (concat (enc <$> es)))%nat.
Proof.
  induction es as [|e es IH]; [done|]. rewrite fmap_cons. cbn [concat length].
  rewrite length_app. unfold enc at 1. rewrite length_tlv. lia.
Qed.

Lemma skip_constructed_extras es rest fuel tag :
  Forall (λ e : element, is_constructed e.1 = true ∧ Z.of_nat (length e.2) < 2 ^ 56) es →
  is_constructed tag = false → (length es < fuel)%nat →
  skip_constructed fuel (concat (enc <$> es) ++ tag :: rest) = Some (tag :: rest).
Proof.
  intros Hes Ht. revert fuel.
  induction Hes as [|e es [He Hl] Hes IH]; intros [|fuel] Hf; simpl in Hf; try lia.
  - simpl. by rewrite Ht.
  - rewrite fmap_cons. cbn [concat]. rewrite <-(assoc_L (++)).
    set (r := concat (enc <$> es) ++ tag :: rest).
    change (enc e ++ r) with (e.1 :: ((der_length (Z.of_nat (length e.2)) ++ e.2) ++ r)).
    cbn [skip_constructed]. rewrite He.
    change (e.1 :: _) with (enc e ++ r). unfold enc at 1. rewrite skip_element_tlv by done.
    simpl. apply IH. lia.
Qed.

Lemma skip_extras_tlv es tag bs fuel :
  Forall (λ e : element, is_constructed e.1 = true ∧ Z.of_nat (length e.2) < 2 ^ 56) es →
  is_constructed tag = false → (length es < fuel)%nat →
  skip_constructed fuel (concat (enc <$> es) ++ tlv tag bs) = Some (tlv tag bs).
Proof. apply skip_constructed_extras. Qed.

Lemma length_enc e :
  length (enc e) = (1 + length (der_length (Z.of_nat (length e.2))) + length e.2)%nat.
Proof. apply length_tlv. Qed.

Lemma content_tlv_nil ok tag bs : ok tag = true → Z.of_nat (length bs) < 2 ^ 56 →
  content ok (tlv tag bs) = Some bs.
Proof. intros. rewrite <-(right_id_L [] (++) (tlv tag bs)). by apply content_tlv. Qed.

Lemma skip_enc e rest : Z.of_nat (length e.2) < 2 ^ 56 →
  skip_element (enc e ++ rest) = Some rest.
Proof. apply skip_element_tlv. Qed.

(** The list specification finds the signature of every DER encoding. *)
Lemma pkcs7_signature_enc (m : pkcs7) :
  Z.of_nat (length (enc_pkcs7 m)) < 2 ^ 56 →
  Forall (λ e : element, is_constructed e.1 = true) (extras m) →
  signature_value m ≠ [] →
  pkcs7_signature (enc_pkcs7 m) = Some (signature_value m).
Proof.
  intros Hlen Hex Hsig. unfold enc_pkcs7, enc_signed_data, enc_signer_info in Hlen.
  assert (Forall (λ e : element, is_constructed e.1 = true ∧ Z.of_nat (length e.2) < 2 ^ 56)
    (extras m)) as Hex'.
  { apply Forall_forall. intros e He. rewrite Forall_forall in Hex.
    pose proof (length_concat_enc _ _ He). split; [by apply Hex|].
    repeat first [rewrite length_enc in Hlen|rewrite length_tlv in Hlen
                 |rewrite length_app in Hlen]. lia. }
  unfold pkcs7_signature, enc_pkcs7.
  repeat first
    [ rewrite option_bind_Some
    | rewrite content_tlv_nil; [|reflexivity|]
    | rewrite skip_enc
    | unfold enc_signed_data at 1 | unfold enc_signer_info at 1 ].
  1: rewrite skip_extras_tlv; [|done|reflexivity|].
  1: repeat first
    [ rewrite option_bind_Some
    | rewrite content_tlv_nil; [|reflexivity|]
    | rewrite content_tlv; [|reflexivity|]
    | rewrite skip_enc ].
  1: by destruct (signature_value m).
  all: pose proof (length_concat_enc_count (extras m)).
  all: repeat first [rewrite length_enc in Hlen|rewrite length_tlv in Hlen
                    |rewrite length_app in Hlen].
  all: repeat first [rewrite length_enc|rewrite length_tlv|rewrite length_app]; cbn [length]; lia.
Qed.

(** [read_pkcs7] extracts the signature of every well-formed message, however
    long its fields and however many optional elements it carries. *)
Theorem read_pkcs7_roundtrip (m : pkcs7) :
  Z.of_nat (length (enc_pkcs7 m)) < 2 ^ 56 →
  Forall is_byte (enc_pkcs7 m) →
  Forall (λ e : element, is_constructed e.1 = true) (extras m) →
  signature_value m ≠ [] →
  read_pkcs7 (enc_pkcs7 m) 0 (Z.of_nat (length (enc_pkcs7 m))) = Ret (Some (signature_value m)).
Proof.
  intros Hlen Hb Hex Hsig. rewrite read_pkcs7_refines by (done || lia).
  rewrite Nat2Z.id, drop_0, firstn_all. by rewrite pkcs7_signature_enc.
Qed.

(** A message with one certificate and a 200-byte signature. *)
Definition sample_pkcs7 : pkcs7 := {|
  content_type := (6, [42; 134; 72; 134; 247; 13; 1; 7; 2]);
  version := (2, [1]); digest_algorithms := (49, [48; 0]); encap_content := (48, [6; 1; 7]);
  extras := [(160, replicate 300 7)];
  si_version := (2, [1]); signer_id := (48, [1; 2; 3]); digest_algorithm := (48, []);
  signature_algorithm := (48, [5; 0]);
  signature_value := replicate 200 170; attributes := [161; 0];
|}.

Lemma read_pkcs7_roundtrip_witness :
  read_pkcs7 (enc_pkcs7 sample_pkcs7) 0 (Z.of_nat (length (enc_pkcs7 sample_pkcs7)))
  = Ret (Some (replicate 200 170)).
Proof.
  apply (read_pkcs7_roundtrip sample_pkcs7).
  - by vm_compute.
  - apply (bool_decide_eq_true_1 _). vm_compute. reflexivity.
  - by repeat constructor.
  - done.
Defined.

(** ** Every input *)

(** C5. No byte string makes [read_pkcs7] loop or leave its buffer: it computes
    the list specification. *)
Theorem read_pkcs7_total_spec (buf : list Z) (ptr len : Z) :
  0 ≤ ptr → 0 ≤ len → ptr + len ≤ Z.of_nat (length buf) → len < 2 ^ 64 →
  Forall is_byte buf →
  read_pkcs7 buf ptr len =
    Ret (pkcs7_signature (take (Z.to_nat len) (drop (Z.to_nat ptr) buf))).
Proof. apply read_pkcs7_refines. Qed.

Lemma read_pkcs7_total_spec_witness :
  read_pkcs7 [48; 131; 255; 255; 255; 1] 0 6 = Ret None.
Proof.
  apply (read_pkcs7_total_spec [48; 131; 255; 255; 255; 1] 0 6);
    [done|done|done|done|by repeat constructor].
Defined.
