(* ===== verification/Package.v ===== *)
(** * OTA packages and the interface the verifier reads them through

    Model of [src/miupdate/recovery_otaverifier/install/package.cpp] and of the
    class [VerifierInterface] of [install/verifier.h].  [VerifierInterface] is
    a Rocq class; [PackageLaws] is the contract the verifier's theorems are
    proved against, and [MemoryPackage] and [FilePackage] are shown to satisfy
    it.  The kernel's file operations and libziparchive are the classes
    [FileSystem] and [ZipArchive]. *)
From S2P Require Import Prelude.
From stdpp Require Import strings.
#[local] Open Scope Z_scope.
#[local] Open Scope mach_scope.

(** @src src/miupdate/recovery_otaverifier/install/include/install/verifier.h:29-29 MiB *)
Definition MiB : Z := 1024 * 1024.

(** @src src/miupdate/recovery_otaverifier/install/include/install/verifier.h:31-31 HasherUpdateCallback
    A callback that feeds bytes to state of type [S] (the bound hash contexts). *)
Definition HasherUpdateCallback (S : Type) : Type := list Z → S → S.

Definition run_hashers {S} (hashers : list (HasherUpdateCallback S)) (bytes : list Z) (s : S) : S :=
  foldl (λ s hasher, hasher bytes s) s hashers.

(** @src src/miupdate/recovery_otaverifier/install/include/install/verifier.h:62-78 VerifierInterface
    [SetProgress] is left out: [verify_file] no longer calls it. *)
Class VerifierInterface (P : Type) := {
  GetPackageSize : P → Z;
  (** [ReadFullyAtOffset(buffer, byte_count, offset)]: the bytes or [false] *)
  ReadFullyAtOffset : Z → Z → P → outcome (option (list Z) * P);
  UpdateHashAtOffset : ∀ {S : Type},
    list (HasherUpdateCallback S) → Z → Z → S → P → outcome (bool * S * P);
}.

(** Feeding bytes in pieces is feeding them at once. *)
Definition streaming {S} (hashers : list (HasherUpdateCallback S)) : Prop :=
  (∀ s, run_hashers hashers [] s = s) ∧
  ∀ a b s, run_hashers hashers (a ++ b) s = run_hashers hashers b (run_hashers hashers a s).

(** What a package promises.  [pkg_reliable] says that its reads cannot fail
    for reasons other than their bounds. *)
Class PackageLaws (P : Type) `{VerifierInterface P} := {
  pkg_ok : P → Prop;
  pkg_content : P → list Z;
  pkg_reliable : P → Prop;
  pkg_same p p' := pkg_ok p' ∧ pkg_content p' = pkg_content p ∧
                   (pkg_reliable p → pkg_reliable p');
  pkg_size p : pkg_ok p →
    GetPackageSize p = Z.of_nat (length (pkg_content p)) ∧ GetPackageSize p < 2 ^ 64;
  pkg_read n off p : pkg_ok p → is_u64 n → is_u64 off →
    ∃ r p', ReadFullyAtOffset n off p = Ret (r, p') ∧ pkg_same p p' ∧
      match r with
      | Some bs => off + n ≤ GetPackageSize p ∧ bs = slice off n (pkg_content p)
      | None => ¬ (pkg_reliable p ∧ off + n ≤ GetPackageSize p)
      end;
  pkg_hash {S} hashers start len (s : S) p : pkg_ok p → is_u64 start → is_u64 len →
    streaming hashers →
    ∃ ok s' p', UpdateHashAtOffset hashers start len s p = Ret (ok, s', p') ∧ pkg_same p p' ∧
      if ok : bool
      then start + len ≤ GetPackageSize p ∧
           s' = run_hashers hashers (slice start len (pkg_content p)) s
      else ¬ (pkg_reliable p ∧ start + len ≤ GetPackageSize p);
}.

(** libziparchive: the error code and the handle written through the out
    parameter (which the library may set on failure too). *)
Class ZipArchive := {
  ZipArchiveHandle : Type;
  OpenArchiveFromMemory : list Z → Z → string → Z * option ZipArchiveHandle;
}.

(** ** Packages in memory *)

Section Memory.
Context `{ZipArchive}.

(** @src src/miupdate/recovery_otaverifier/install/include/install/package.h:99-112 MemoryPackage
    [addr_] is the memory object the package's address points to. *)
Record MemoryPackage := mkMemoryPackage {
  mem_addr_ : list Z;
  mem_package_size_ : Z;
  mem_path_ : string;
  mem_zip_handle_ : option ZipArchiveHandle;
}.

(** @src src/miupdate/recovery_otaverifier/install/package.cpp:114-121 MemoryPackage::MemoryPackage(content) *)
Definition new_MemoryPackage (content : list Z) : outcome MemoryPackage :=
  match content with
  | [] => Abort
  | _ => Ret (mkMemoryPackage content (Z.of_nat (length content)) "" None)
  end.

(** [memcpy(dest, addr + offset, n)] *)
Definition mem_load (mem : list Z) (offset n : Z) : outcome (list Z) :=
  if (0 <=? offset) && (offset + n <=? Z.of_nat (length mem)) then Ret (slice offset n mem)
  else UB.

(** @src src/miupdate/recovery_otaverifier/install/package.cpp:129-137 MemoryPackage::ReadFullyAtOffset *)
Definition MemoryPackage_ReadFullyAtOffset (byte_count offset : Z) (p : MemoryPackage)
    : outcome (option (list Z) * MemoryPackage) :=
  if (mem_package_size_ p <? byte_count) || (mem_package_size_ p -64 byte_count <? offset)
  then Ret (None, p)
  else
    buffer ← mem_load (mem_addr_ p) offset byte_count;
    Ret (Some buffer, p).

(** @src src/miupdate/recovery_otaverifier/install/package.cpp:139-151 MemoryPackage::UpdateHashAtOffset *)
Definition MemoryPackage_UpdateHashAtOffset {S} (hashers : list (HasherUpdateCallback S))
    (start length : Z) (s : S) (p : MemoryPackage) : outcome (bool * S * MemoryPackage) :=
  if (mem_package_size_ p <? length) || (mem_package_size_ p -64 length <? start)
  then Ret (false, s, p)
  else
    bytes ← mem_load (mem_addr_ p) start length;
    Ret (true, run_hashers hashers bytes s, p).

(** @src src/miupdate/recovery_otaverifier/install/package.cpp:153-166 MemoryPackage::GetZipArchiveHandle *)
Definition MemoryPackage_GetZipArchiveHandle (p : MemoryPackage)
    : option ZipArchiveHandle * MemoryPackage :=
  match mem_zip_handle_ p with
  | Some h => (Some h, p)
  | None =>
      let '(err, h) := OpenArchiveFromMemory (mem_addr_ p) (mem_package_size_ p) (mem_path_ p) in
      let p' := mkMemoryPackage (mem_addr_ p) (mem_package_size_ p) (mem_path_ p) h in
      (if err =? 0 then h else None, p')
  end.

#[export] Instance MemoryPackage_interface : VerifierInterface MemoryPackage := {
  GetPackageSize := mem_package_size_;
  ReadFullyAtOffset := MemoryPackage_ReadFullyAtOffset;
  UpdateHashAtOffset S := MemoryPackage_UpdateHashAtOffset;
}.

Definition MemoryPackage_ok (p : MemoryPackage) : Prop :=
  mem_package_size_ p = Z.of_nat (length (mem_addr_ p)) ∧ mem_package_size_ p < 2 ^ 64.

Lemma mem_load_ok mem off n : 0 ≤ off → off + n ≤ Z.of_nat (length mem) →
  mem_load mem off n = Ret (slice off n mem).
Proof.
  intros. unfold mem_load. destruct (Z.leb_spec 0 off); [|lia].
  by destruct (Z.leb_spec (off + n) (Z.of_nat (length mem))); [|lia].
Qed.

(** The bounds test of all four methods, free of wrap-around. *)
Lemma bounds_test size n off : 0 ≤ size < 2 ^ 64 → is_u64 n → is_u64 off →
  (size <? n) || (size -64 n <? off) = negb (off + n <=? size).
Proof.
  unfold is_u64. intros. destruct (Z.ltb_spec size n), (Z.leb_spec (off + n) size); try lia;
    try done; unwrap; destruct (Z.ltb_spec (size - n) off); done || lia.
Qed.

#[export] Program Instance MemoryPackage_laws : PackageLaws MemoryPackage := {
  pkg_ok := MemoryPackage_ok;
  pkg_content := mem_addr_;
  pkg_reliable _ := True;
}.
Next Obligation. by intros p [? ?]. Qed.
Next Obligation.
  intros n off p Hp Hn Ho. pose proof Hp as [Hs Hm]. cbn.
  unfold MemoryPackage_ReadFullyAtOffset. rewrite bounds_test by (done || lia).
  unfold is_u64 in *. destruct (Z.leb_spec (off + n) (mem_package_size_ p)); simpl.
  - rewrite mem_load_ok by lia. by do 2 eexists.
  - do 2 eexists. split_and!; [done..|]. intros [_ ?]. lia.
Qed.
Next Obligation.
  intros S hs start len s p Hp Hn Ho _. pose proof Hp as [Hz Hm]. cbn.
  unfold MemoryPackage_UpdateHashAtOffset. rewrite bounds_test by (done || lia).
  unfold is_u64 in *. destruct (Z.leb_spec (start + len) (mem_package_size_ p)); simpl.
  - rewrite mem_load_ok by lia. by do 3 eexists.
  - do 3 eexists. split_and!; [done..|]. intros [_ ?]. lia.
Qed.
End Memory.

(** ** Packages read through a file descriptor *)

(** [open], [lseek64] and libbase's [ReadFullyAtOffset] on an open file, and
    [OpenArchiveFd].  [fs_pread n off f] reads exactly [n] bytes or fails. *)
Class FileSystem := {
  file : Type;
  fs_open : string → option file;
  fs_seek_end : file → Z * file;
  fs_pread : Z → Z → file → option (list Z) * file;
}.

(** What the code relies on; [fs_reliable] says the device never fails. *)
Class FileSystemLaws `{FileSystem} := {
  fs_content : file → list Z;
  fs_reliable : file → Prop;
  fs_size_bound f : Z.of_nat (length (fs_content f)) < 2 ^ 63;
  fs_seek_end_spec f : let '(size, f') := fs_seek_end f in
    (size = -1 ∨ size = Z.of_nat (length (fs_content f))) ∧
    fs_content f' = fs_content f ∧ (fs_reliable f → fs_reliable f' ∧ size ≠ -1);
  fs_pread_spec n off f : 0 ≤ n → 0 ≤ off → let '(r, f') := fs_pread n off f in
    fs_content f' = fs_content f ∧ (fs_reliable f → fs_reliable f') ∧
    match r with
    | Some bs => off + n ≤ Z.of_nat (length (fs_content f)) ∧ bs = slice off n (fs_content f)
    | None => ¬ (fs_reliable f ∧ off + n ≤ Z.of_nat (length (fs_content f)))
    end;
}.

Section File.
Context `{FileSystem, ZipArchive} (OpenArchiveFd : file → string → Z * option ZipArchiveHandle).

(** @src src/miupdate/recovery_otaverifier/install/package.cpp:66-70 FilePackage *)
Record FilePackage := mkFilePackage {
  fd_ : file;
  package_size_ : Z;
  path_ : string;
  zip_handle_ : option ZipArchiveHandle;
}.

(** @src src/miupdate/recovery_otaverifier/install/package.cpp:84-99 Package::CreateFilePackage *)
Definition CreateFilePackage (path : string) : option FilePackage :=
  match fs_open path with
  | None => None
  | Some fd =>
      let '(file_size, fd) := fs_seek_end fd in
      if file_size =? -1 then None else Some (mkFilePackage fd (u64 file_size) path None)
  end.

(** @src src/miupdate/recovery_otaverifier/install/package.cpp:180-193 FilePackage::ReadFullyAtOffset *)
Definition FilePackage_ReadFullyAtOffset (byte_count offset : Z) (p : FilePackage)
    : outcome (option (list Z) * FilePackage) :=
  if (package_size_ p <? byte_count) || (package_size_ p -64 byte_count <? offset)
  then Ret (None, p)
  else
    let '(r, fd) := fs_pread byte_count offset (fd_ p) in
    Ret (r, mkFilePackage fd (package_size_ p) (path_ p) (zip_handle_ p)).

(** The chunk loop of [UpdateHashAtOffset]. *)
Fixpoint file_hash_loop {S} (fuel : nat) (hashers : list (HasherUpdateCallback S))
    (start length so_far : Z) (s : S) (p : FilePackage) : outcome (bool * S * FilePackage) :=
  match fuel with
  | O => OutOfFuel
  | Datatypes.S fuel' =>
      if so_far <? length then
        let read_size := Z.min (length -64 so_far) (16 *64 MiB) in
        '(r, p) ← FilePackage_ReadFullyAtOffset read_size (start +64 so_far) p;
        match r with
        | None => Ret (false, s, p)
        | Some buffer =>
            file_hash_loop fuel' hashers start length (so_far +64 read_size)
              (run_hashers hashers buffer s) p
        end
      else Ret (true, s, p)
  end.

(** @src src/miupdate/recovery_otaverifier/install/package.cpp:195-218 FilePackage::UpdateHashAtOffset
    The loop takes a 16 MiB step, so [length / 16 MiB + 2] rounds are enough. *)
Definition FilePackage_UpdateHashAtOffset {S} (hashers : list (HasherUpdateCallback S))
    (start length : Z) (s : S) (p : FilePackage) : outcome (bool * S * FilePackage) :=
  if (package_size_ p <? length) || (package_size_ p -64 length <? start)
  then Ret (false, s, p)
  else file_hash_loop (Z.to_nat (length / (16 * MiB) + 2)) hashers start length 0 s p.

(** @src src/miupdate/recovery_otaverifier/install/package.cpp:220-231 FilePackage::GetZipArchiveHandle *)
Definition FilePackage_GetZipArchiveHandle (p : FilePackage)
    : option ZipArchiveHandle * FilePackage :=
  match zip_handle_ p with
  | Some h => (Some h, p)
  | None =>
      let '(err, h) := OpenArchiveFd (fd_ p) (path_ p) in
      let p' := mkFilePackage (fd_ p) (package_size_ p) (path_ p) h in
      (if err =? 0 then h else None, p')
  end.
End File.

#[export] Instance FilePackage_interface `{FileSystem, ZipArchive}
    : VerifierInterface FilePackage := {
  GetPackageSize := package_size_;
  ReadFullyAtOffset := FilePackage_ReadFullyAtOffset;
  UpdateHashAtOffset S := FilePackage_UpdateHashAtOffset;
}.

Section FileProofs.
Context `{FileSystemLaws, ZipArchive}.

Definition FilePackage_ok (p : FilePackage) : Prop :=
  package_size_ p = Z.of_nat (length (fs_content (fd_ p))).

Definition FilePackage_same (p p' : FilePackage) : Prop :=
  FilePackage_ok p' ∧ fs_content (fd_ p') = fs_content (fd_ p) ∧
  (fs_reliable (fd_ p) → fs_reliable (fd_ p')).

Lemma FilePackage_same_trans p q r :
  FilePackage_same p q → FilePackage_same q r → FilePackage_same p r.
Proof. intros (? & Hc & ?) (? & Hd & ?). split_and!; [done|congruence|tauto]. Qed.

Lemma FilePackage_same_size p p' : FilePackage_ok p → FilePackage_same p p' →
  package_size_ p' = package_size_ p.
Proof. intros Hp (Hp' & Hc & _). unfold FilePackage_ok in *. congruence. Qed.

Lemma FilePackage_size_bound p : FilePackage_ok p → 0 ≤ package_size_ p < 2 ^ 63.
Proof. intros ->. pose proof (fs_size_bound (fd_ p)). lia. Qed.

Lemma FilePackage_read_spec n off p : FilePackage_ok p → is_u64 n → is_u64 off →
  ∃ r p', FilePackage_ReadFullyAtOffset n off p = Ret (r, p') ∧ FilePackage_same p p' ∧
    match r with
    | Some bs => off + n ≤ package_size_ p ∧ bs = slice off n (fs_content (fd_ p))
    | None => ¬ (fs_reliable (fd_ p) ∧ off + n ≤ package_size_ p)
    end.
Proof.
  intros Hp Hn Ho. pose proof (FilePackage_size_bound _ Hp).
  unfold FilePackage_ReadFullyAtOffset. rewrite bounds_test by (done || lia).
  unfold is_u64 in *. destruct (Z.leb_spec (off + n) (package_size_ p)); simpl.
  2: { do 2 eexists. split_and!; [done..|]. intros [_ ?]. lia. }
  pose proof (fs_pread_spec n off (fd_ p) ltac:(lia) ltac:(lia)) as Hr.
  destruct (fs_pread n off (fd_ p)) as [r f']. destruct Hr as (Hc & Hrel & Hr).
  do 2 eexists. split; [done|]. split.
  - unfold FilePackage_same, FilePackage_ok in *. simpl. rewrite Hc. done.
  - unfold FilePackage_ok in Hp. destruct r; rewrite Hp; done.
Qed.

(** The chunks the loop hashes add up to the range it was asked for. *)
Lemma file_hash_loop_spec {S} fuel hashers start len so_far (s0 : S) p :
  FilePackage_ok p → 0 ≤ start → 0 ≤ so_far ≤ len → start + len ≤ package_size_ p →
  streaming hashers → (len - so_far + (16 * MiB - 1)) / (16 * MiB) < Z.of_nat fuel →
  ∃ ok s' p',
    file_hash_loop fuel hashers start len so_far
      (run_hashers hashers (slice start so_far (fs_content (fd_ p))) s0) p = Ret (ok, s', p') ∧
    FilePackage_same p p' ∧
    if ok : bool
    then s' = run_hashers hashers (slice start len (fs_content (fd_ p))) s0
    else ¬ fs_reliable (fd_ p).
Proof.
  revert so_far p. induction fuel as [|fuel IH]; intros so_far p Hp Hs Hsf Hfit Hst Hf.
  { pose proof (chunk_fuel_pos (len - so_far) (16 * MiB)). unfold MiB in *. lia. }
  pose proof (FilePackage_size_bound _ Hp). simpl.
  destruct (Z.ltb_spec so_far len) as [Hlt|Hge].
  2: { do 3 eexists. split_and!; [done|done|]. by replace so_far with len by lia. }
  unfold MiB in *. unwrap.
  remember (Z.min (len - so_far) (16 * (1024 * 1024))) as n eqn:Hn.
  destruct (FilePackage_read_spec n (start + so_far) p Hp) as (r & p1 & -> & Hsame & Hr);
    [unfold is_u64; lia..|]. simpl.
  destruct r as [bs|].
  2: { do 3 eexists. split_and!; [done|done|]. intros Hrel. apply Hr. split; [done|lia]. }
  destruct Hr as [_ ->]. pose proof (FilePackage_same_size _ _ Hp Hsame) as Hsz.
  pose proof Hsame as (Hp1 & Hc & Hrel). unwrap.
  rewrite <-(proj2 Hst), slice_app, <-Hc by lia.
  destruct (IH (so_far + n) p1) as (ok & s' & p' & E & Hsame' & Hok); [done|done|lia|lia|done| |].
  { replace (len - (so_far + n)) with (len - so_far - n) by lia.
    apply chunk_fuel_step; [lia|lia|done|lia]. }
  rewrite E. do 3 eexists. split_and!; [done|by eapply FilePackage_same_trans|].
  destruct ok; [done|]. tauto.
Qed.

#[export] Program Instance FilePackage_laws : PackageLaws FilePackage := {
  pkg_ok := FilePackage_ok;
  pkg_content p := fs_content (fd_ p);
  pkg_reliable p := fs_reliable (fd_ p);
}.
Next Obligation. intros p Hp. split; [done|]. pose proof (FilePackage_size_bound _ Hp). simpl. lia. Qed.
Next Obligation. intros. by apply FilePackage_read_spec. Qed.
Next Obligation.
  intros S hs start len s p Hp Hs Hl Hst. pose proof (FilePackage_size_bound _ Hp). cbn.
  unfold FilePackage_UpdateHashAtOffset. rewrite bounds_test by (done || lia).
  unfold is_u64 in *. destruct (Z.leb_spec (start + len) (package_size_ p)); simpl.
  2: { do 3 eexists. split_and!; [done..|]. intros [_ ?]. lia. }
  destruct (file_hash_loop_spec (Z.to_nat (len / (16 * MiB) + 2)) hs start len 0 s p)
    as (ok & s' & p' & E & Hsame & Hok); [done|lia|lia|done|done| |].
  { rewrite Z.sub_0_r. apply chunk_fuel_start; [done|lia]. }
  rewrite slice_0, (proj1 Hst s) in E. rewrite E. do 3 eexists. split; [done|]. split; [exact Hsame|].
  destruct ok; [by split|]. by intros [? _].
Qed.
End FileProofs.

(** Opening a package file gives a package that satisfies the contract. *)
Lemma CreateFilePackage_ok `{FileSystemLaws, ZipArchive} path p :
  CreateFilePackage path = Some p →
  FilePackage_ok p ∧ ∃ f, fs_open path = Some f ∧ fs_content (fd_ p) = fs_content f ∧
    (fs_reliable f → fs_reliable (fd_ p)).
Proof.
  unfold CreateFilePackage. destruct (fs_open path) as [f|]; [|done].
  pose proof (fs_seek_end_spec f) as Hs. destruct (fs_seek_end f) as [size f'].
  destruct Hs as (Hz & Hc & Hr). destruct (Z.eqb_spec size (-1)); [done|]. intros [= <-].
  destruct Hz as [|Hz]; [done|]. unfold FilePackage_ok; simpl.
  split; [|by exists f; split_and!; [|done|apply Hr]].
  pose proof (fs_size_bound f). rewrite Hc. unwrap. done.
Qed.

(** ** A concrete file system

    One file; its state is a countdown to a single failing read ([None]: the
    device never fails). *)
Definition one_file_pread (bytes : list Z) (n off : Z) (f : option nat)
    : option (list Z) * option nat :=
  let r := if (0 <=? off) && (off + n <=? Z.of_nat (length bytes))
           then Some (slice off n bytes) else None in
  match f with
  | Some O => (None, None)
  | Some (S k) => (r, Some k)
  | None => (r, None)
  end.

Definition one_file (bytes : list Z) (fail_at : option nat) : FileSystem := {|
  file := option nat;
  fs_open _ := Some fail_at;
  fs_seek_end f := (Z.of_nat (length bytes), f);
  fs_pread := one_file_pread bytes;
|}.

Definition one_file_laws (bytes : list Z) (fail_at : option nat) :
  Z.of_nat (length bytes) < 2 ^ 63 → @FileSystemLaws (one_file bytes fail_at).
Proof.
  intros Hb. refine {| fs_content (f : @file (one_file bytes fail_at)) := bytes;
    fs_reliable (f : @file (one_file bytes fail_at)) := f = None |}.
  - done.
  - intros f. simpl. split_and!; [by right|done|]. intros ->. split; [done|]. lia.
  - intros n off f Hn Ho. simpl. unfold one_file_pread.
    destruct (Z.leb_spec 0 off); [|lia].
    destruct f as [[|k]|]; simpl.
    + split_and!; [done|done|]. by intros [? _].
    + destruct (Z.leb_spec (off + n) (Z.of_nat (length bytes)));
        (split; [done|split; [done|]]); [by split|]. by intros [? _].
    + destruct (Z.leb_spec (off + n) (Z.of_nat (length bytes)));
        (split; [done|split; [done|]]); [by split|]. intros [_ ?]. lia.
Defined.

(** A ZIP library that opens nothing. *)
Definition no_zip : ZipArchive := {|
  ZipArchiveHandle := unit;
  OpenArchiveFromMemory _ _ _ := (-1, None);
|}.
