(* ===== verification/BlockMap.v ===== *)
(** * Packages stored in blocks of a device

    Model of [src/miupdate/recovery_otaverifier/otautil/sysutil.cpp] and of
    [Package::CreateMemoryPackage] in [install/package.cpp]: a block map, a text file that
    names the blocks of a device in which a package lies, is parsed ([ParseBlockMapFile]) and
    the blocks are mapped one behind the other ([MemMapping]).  The kernel's address space is
    the class [Memory]. *)
From S2P Require Import Prelude AndroidBase RangeSet Package.
From Stdlib Require Import Ascii.
From stdpp Require Import strings pretty.
#[local] Open Scope Z_scope.
#[local] Open Scope mach_scope.

(** ** Numbers in text

    [sscanf] with unsigned conversions: blanks are skipped, a sign is accepted and a negative
    number taken modulo the size of the type; a number that does not fit has no defined value. *)
Definition is_blank (c : ascii) : bool :=
  let n := N_of_ascii c in ((9 <=? n) && (n <=? 13) || (n =? 32))%N.

Fixpoint skip_blanks (s : string) : string :=
  match s with
  | String c s' => if is_blank c then skip_blanks s' else s
  | EmptyString => s
  end.

Fixpoint scan_digits (acc : N) (s : string) : N * string :=
  match s with
  | String c s' => match digit_of c with Some d => scan_digits (acc * 10 + d) s' | None => (acc, s) end
  | EmptyString => (acc, s)
  end.

(** The sign, the digits and the rest, when there is a digit. *)
Definition scan_number (s : string) : option (bool * N * string) :=
  let s := skip_blanks s in
  let '(negative, s) :=
    match s with
    | String c s' => if bool_decide (c = "-"%char) then (true, s')
                     else if bool_decide (c = "+"%char) then (false, s') else (false, s)
    | EmptyString => (false, s)
    end in
  match s with
  | String c _ => match digit_of c with
                  | Some _ => let '(n, rest) := scan_digits 0 s in Some (negative, n, rest)
                  | None => None
                  end
  | EmptyString => None
  end.

(** The value stored in an unsigned variable of [w] bits. *)
Definition stored (w : Z) (negative : bool) (n : N) : outcome Z :=
  if 2 ^ w <=? Z.of_N n then UB
  else Ret (if negative then wrapu w (- Z.of_N n) else Z.of_N n).

(** [sscanf(s, "%zu", &a) == 1] *)
Definition scan_one (w : Z) (s : string) : outcome (option Z) :=
  match scan_number s with
  | None => Ret None
  | Some (neg, n, _) => a ← stored w neg n; Ret (Some a)
  end.

(** [sscanf(s, "%u%u", &a, &b) == 2], for variables of [w] and [w'] bits. *)
Definition scan_two (w w' : Z) (s : string) : outcome (option (Z * Z)) :=
  match scan_number s with
  | None => Ret None
  | Some (neg, n, rest) =>
      a ← stored w neg n;
      match scan_number rest with
      | None => Ret None
      | Some (neg', n', _) => b ← stored w' neg' n'; Ret (Some (a, b))
      end
  end.

(** libbase's [Trim]: without blanks at both ends. *)
Class AndroidBaseTrim := { ab_Trim : string → string }.

(** ** The kernel *)

(** Files, and the address space of the process; [mm_byte] is the byte a load finds. *)
Class Memory (W : Type) := {
  mm_fd : Type;
  mm_read_file : string → W → option string;                 (* ReadFileToString *)
  mm_open : string → W → option mm_fd * W;                   (* open(path, O_RDONLY) *)
  mm_close : mm_fd → W → W;
  mm_fstat : mm_fd → W → option Z;                           (* st_size *)
  mm_mmap_none : Z → W → option Z * W;                       (* mmap(nullptr, len, PROT_NONE, .. MAP_ANON, -1, 0) *)
  mm_mmap : option Z → Z → mm_fd → Z → W → option Z * W;     (* mmap(addr, len, PROT_READ, .. MAP_FIXED, fd, off) *)
  mm_munmap : Z → Z → W → W;
  mm_byte : W → Z → option Z;
}.

Section BlockMap.
Context {W : Type} {mem : Memory W} {ab : AndroidBase} {abt : AndroidBaseTrim}.

(** ** Block maps *)

(** @src src/miupdate/recovery_otaverifier/otautil/include/otautil/sysutil.h:28-74 BlockMapData *)
Record BlockMapData := mkBlockMapData {
  bm_path : string;
  bm_file_size : Z;
  bm_block_size : Z;
  bm_block_ranges : RangeSet;
}.

(** [BlockMapData()], which converts to [false]. *)
Definition no_block_map : BlockMapData := mkBlockMapData "" 0 0 RangeSet_empty.

Definition newline : ascii := ascii_of_N 10.

(** @src src/miupdate/recovery_otaverifier/otautil/sysutil.cpp:79-101 ParseBlockMapFile: ranges *)
Fixpoint parse_ranges (lines : list string) (ranges : RangeSet) (remaining_blocks : Z) :
    outcome (option (RangeSet * Z)) :=
  match lines with
  | [] => Ret (Some (ranges, remaining_blocks))
  | line :: lines =>
      r ← scan_two 64 64 line;
      match r with
      | None => Ret None
      | Some (start, end_) =>
          let range_blocks := end_ -64 start in
          if (end_ <=? start) || (remaining_blocks <? range_blocks) then Ret None
          else parse_ranges lines (PushBack ranges (start, end_)).2 (remaining_blocks -64 range_blocks)
      end
  end.

(** @src src/miupdate/recovery_otaverifier/otautil/sysutil.cpp:38-104 BlockMapData::ParseBlockMapFile *)
Definition ParseBlockMapFile (block_map_path : string) (w : W) : outcome BlockMapData :=
  match mm_read_file block_map_path w with
  | None => Ret no_block_map
  | Some content =>
      match ab_Split (ab_Trim content) (String newline EmptyString) with
      | block_dev :: line1 :: line2 :: ((_ :: _) as range_lines) =>
          sizes ← scan_two 64 32 line1;
          match sizes with
          | None => Ret no_block_map
          | Some (file_size, blksize) =>
              if (file_size =? 0) || (blksize =? 0) then Ret no_block_map
              else
                count ← scan_one 64 line2;
                match count with
                | None => Ret no_block_map
                | Some range_count =>
                    let blocks := (file_size -64 1) / blksize +64 1 in
                    if (2 ^ 32 - 1 <? blocks) || (range_count =? 0) ||
                       negb (3 + Z.of_nat (length range_lines) =? 3 +64 range_count) then Ret no_block_map
                    else
                      r ← parse_ranges range_lines RangeSet_empty blocks;
                      match r with
                      | Some (ranges, 0) => Ret (mkBlockMapData block_dev file_size blksize ranges)
                      | _ => Ret no_block_map
                      end
                end
          end
      | _ => Ret no_block_map
      end
  end.

(** ** Mappings *)

(** @src src/miupdate/recovery_otaverifier/otautil/include/otautil/sysutil.h:79-102 MemMapping *)
Record MemMapping := mkMemMapping {
  mm_addr : Z;
  mm_length : Z;
  mm_ranges : list (Z * Z);    (* addr, length *)
}.

(** @src src/miupdate/recovery_otaverifier/otautil/sysutil.cpp:106-125 MemMapping::MapFD *)
Definition MapFD (fd : mm_fd) (m : MemMapping) (w : W) : bool * MemMapping * W :=
  match mm_fstat fd w with
  | None => (false, m, w)
  | Some st_size =>
      match mm_mmap None st_size fd 0 w with
      | (None, w) => (false, m, w)
      | (Some memPtr, w) => (true, mkMemMapping memPtr st_size [(memPtr, st_size)], w)
      end
  end.

(** @src src/miupdate/recovery_otaverifier/otautil/sysutil.cpp:158-176 MapBlockFile: the ranges

    The ranges mapped, whether one failed, and the size left.  The offset is computed in
    [off_t], a signed type. *)
Fixpoint map_ranges (block_ranges : list Range) (blksize : Z) (fd : mm_fd) (next remaining_size : Z)
    (ranges_ : list (Z * Z)) (w : W) : outcome (bool * Z * list (Z * Z) * W) :=
  match block_ranges with
  | [] => Ret (true, remaining_size, ranges_, w)
  | (start, end_) :: block_ranges =>
      let range_size := (end_ -64 start) *64 blksize in
      let offset := s64 start * blksize in
      if bool_decide (s64 offset = offset) then
        match mm_mmap (Some next) range_size fd offset w with
        | (None, w) => Ret (false, remaining_size, ranges_, w)
        | (Some range_start, w) =>
            map_ranges block_ranges blksize fd (next +64 range_size) (remaining_size -64 range_size)
              (ranges_ ++ [(range_start, range_size)]) w
        end
      else UB
  end.

(** @src src/miupdate/recovery_otaverifier/otautil/sysutil.cpp:127-184 MemMapping::MapBlockFile *)
Definition MapBlockFile (filename : string) (m : MemMapping) (w : W) : outcome (bool * MemMapping * W) :=
  block_map_data ← ParseBlockMapFile filename w;
  if bool_decide (bm_path block_map_data = "") then Ret (false, m, w)
  else if SIZE_MAX <? bm_file_size block_map_data then Ret (false, m, w)
  else
    let blksize := bm_block_size block_map_data in
    let blocks := (bm_file_size block_map_data -64 1) / blksize +64 1 in
    match mm_mmap_none (blocks *64 blksize) w with
    | (None, w) => Ret (false, m, w)
    | (Some reserve, w) =>
        match mm_open (bm_path block_map_data) w with
        | (None, w) => Ret (false, m, mm_munmap reserve (blocks *64 blksize) w)
        | (Some fd, w) =>
            r ← map_ranges (ranges_ (bm_block_ranges block_map_data)) blksize fd reserve (blocks *64 blksize) [] w;
            let '(mapped, remaining_size, ranges_, w) := r in
            if (mapped : bool) && (remaining_size =? 0) then
              Ret (true, mkMemMapping reserve (bm_file_size block_map_data) ranges_, mm_close fd w)
            else
              Ret (false, mkMemMapping (mm_addr m) (mm_length m) ranges_,
                   mm_close fd (mm_munmap reserve (blocks *64 blksize) w))
        end
    end.

(** @src src/miupdate/recovery_otaverifier/otautil/sysutil.cpp:186-212 MemMapping::MapFile *)
Definition MapFile (fn : string) (m : MemMapping) (w : W) : outcome (bool * MemMapping * W) :=
  match fn with
  | EmptyString => Ret (false, m, w)
  | String c rest =>
      if bool_decide (c = "@"%char) then MapBlockFile rest m w
      else
        match mm_open fn w with
        | (None, w) => Ret (false, m, w)
        | (Some fd, w) => let '(ok, m, w) := MapFD fd m w in Ret (ok, m, mm_close fd w)
        end
  end.

(** @src src/miupdate/recovery_otaverifier/otautil/sysutil.cpp:214-221 MemMapping::~MemMapping *)
Definition MemMapping_destroy (m : MemMapping) (w : W) : W :=
  foldl (λ w r, mm_munmap r.1 r.2 w) w (mm_ranges m).

(** @src src/miupdate/recovery_otaverifier/install/package.cpp:72-82 Package::CreateMemoryPackage(path)

    The address and the size of the package are those of the mapping.  [junk] is what the
    members of a new mapping hold. *)
Definition CreateMemoryPackage (junk : Z * Z) (path : string) (w : W) : outcome (option MemMapping * W) :=
  r ← MapFile path (mkMemMapping junk.1 junk.2 []) w;
  let '(ok, m, w) := r in
  Ret (if (ok : bool) then (Some m, w) else (None, MemMapping_destroy m w)).

(** The bytes at an address. *)
Definition load (w : W) (addr length : Z) : option (list Z) := mapM (λ k, mm_byte w (addr + k)) (seqZ 0 length).

(** @src src/miupdate/recovery_otaverifier/install/package.cpp:106-112 MemoryPackage::MemoryPackage(path, map)

    The memory behind [addr_] as in [Package]; [None] when part of it cannot be read. *)
Definition mapped_MemoryPackage `{ZipArchive} (path : string) (map : MemMapping) (w : W) : option MemoryPackage :=
  bytes ← load w (mm_addr map) (mm_length map); Some (mkMemoryPackage bytes (mm_length map) path None).
End BlockMap.

(** ** What the code relies on *)

Class MemoryLaws (W : Type) `{Memory W} := {
  mm_disk : string → list Z;          (* the bytes of a file or a device *)
  mm_path : mm_fd → string;           (* the path a descriptor was opened with *)
  mm_open_spec path w :
    (∀ a, mm_byte (mm_open path w).2 a = mm_byte w a) ∧
    match (mm_open path w).1 with Some fd => mm_path fd = path | None => True end;
  mm_close_spec fd w a : mm_byte (mm_close fd w) a = mm_byte w a;
  (** A file may be shorter than its size reads, not longer than an [off_t]. *)
  mm_fstat_spec fd w n : mm_fstat fd w = Some n → n = Z.of_nat (length (mm_disk (mm_path fd)));
  mm_disk_bound path : Z.of_nat (length (mm_disk path)) < 2 ^ 63;
  (** An area is reserved inside the address space. *)
  mm_mmap_none_spec len w r w' : mm_mmap_none len w = (Some r, w') → 0 < r ∧ r + len < 2 ^ 64;
  (** A mapping is put where it is asked for, shows the file, and leaves what is below alone. *)
  mm_mmap_spec a len fd off w r w' : mm_mmap a len fd off w = (Some r, w') →
    match a with Some a => r = a | None => True end ∧
    (∀ x, x < r → mm_byte w' x = mm_byte w x) ∧
    (∀ k, 0 ≤ k < len → 0 ≤ off → off + k < Z.of_nat (length (mm_disk (mm_path fd))) →
       mm_byte w' (r + k) = mm_disk (mm_path fd) !! Z.to_nat (off + k));
}.

(** The text of a list of lines, split and trimmed. *)
Abbreviation join_lines := (join_with newline).

Definition all_blank (s : string) : Prop := skip_blanks s = EmptyString.
Definition starts_plain (s : string) : Prop := ∃ c s', s = String c s' ∧ is_blank c = false.
Definition ends_plain (s : string) : Prop := ∃ s' c, s = String.append s' (String c EmptyString) ∧ is_blank c = false.

Class MapTextLaws `{AndroidBase, AndroidBaseTrim} : Prop := {
  ab_Split_lines ls : ls ≠ [] → Forall (λ l, char_in newline l = false) ls →
    ab_Split (join_lines ls) (String newline EmptyString) = ls;
  ab_Trim_spec s t : starts_plain s → ends_plain s → all_blank t → ab_Trim (String.append s t) = s;
}.

(** ** The blocks as bytes *)

Definition block_bytes (disk : list Z) (blksize : Z) (blocks : list Z) : list Z :=
  blocks ≫= λ b, slice (b * blksize) blksize disk.

(** The blocks of a map, as the header of the map promises. *)
Record map_ok (d : BlockMapData) : Prop := {
  mk_file : 0 < bm_file_size d < 2 ^ 64;
  mk_block : 0 < bm_block_size d < 2 ^ 32;
  mk_ranges : wf (bm_block_ranges d);
  mk_blocks : blocks_ (bm_block_ranges d) = (bm_file_size d - 1) / bm_block_size d + 1;
  mk_count : blocks_ (bm_block_ranges d) < 2 ^ 32;
}.

Lemma stored_range w neg n a : 0 < w → stored w neg n = Ret a → 0 ≤ a < 2 ^ w.
Proof.
  intros Hw. unfold stored. destruct (Z.leb_spec (2 ^ w) (Z.of_N n)); [done|]. intros [= <-].
  pose proof (Z.pow_pos_nonneg 2 w). destruct neg; [apply Z.mod_pos_bound; lia|lia].
Qed.

Lemma scan_two_range w w' s a b : 0 < w → 0 < w' → scan_two w w' s = Ret (Some (a, b)) →
  0 ≤ a < 2 ^ w ∧ 0 ≤ b < 2 ^ w'.
Proof.
  intros Hw Hw'. unfold scan_two. destruct (scan_number s) as [[[neg n] rest]|]; [|done].
  intros (x & Hx & H)%outcome_bind_Ret_inv. destruct (scan_number rest) as [[[neg' n'] ?]|]; [|done].
  apply outcome_bind_Ret_inv in H as (y & Hy & [= <- <-]). split; by eapply stored_range.
Qed.

(** The count of blocks. *)
Lemma ceil_blocks size blk : 0 < size < 2 ^ 64 → 0 < blk < 2 ^ 32 →
  (size -64 1) / blk +64 1 = (size - 1) / blk + 1 ∧ 0 ≤ (size - 1) / blk < size.
Proof.
  intros Hs Hb. assert (0 ≤ (size - 1) / blk < size) as Hq.
  { split; [apply Z.div_pos; lia|]. apply Z.div_lt_upper_bound; [lia|].
    assert (1 * size ≤ blk * size) by (apply Z.mul_le_mono_nonneg_r; lia). lia. }
  rewrite (u64_small (size - 1)) by lia. split; [apply u64_small; lia|done].
Qed.

Section Parse.
Context {W : Type} {mem : Memory W} {ab : AndroidBase} {abt : AndroidBaseTrim}.

Lemma parse_ranges_ok lines : ∀ rs rem rs' rem',
  wf rs → 0 ≤ rem → blocks_ rs + rem < 2 ^ 32 → parse_ranges lines rs rem = Ret (Some (rs', rem')) →
  wf rs' ∧ 0 ≤ rem' ∧ blocks_ rs' + rem' = blocks_ rs + rem.
Proof.
  induction lines as [|line lines IH]; intros rs rem rs' rem' Hwf Hrem Hb; cbn [parse_ranges]; [by intros [= <- <-]|].
  intros (r & Hr & H)%outcome_bind_Ret_inv. destruct r as [[a e]|]; [|done].
  apply scan_two_range in Hr as [Ha He]; [|lia..].
  destruct (Z.leb_spec e a) as [|Hae]; [done|]. cbn [orb] in H. rewrite u64_small in H by lia.
  destruct (Z.ltb_spec rem (e - a)) as [|Hlt]; [done|]. pose proof (wf_nonneg _ Hwf).
  assert (valid_range (a, e)) as Hv by (unfold valid_range; simpl; lia).
  destruct (PushBack_push rs (a, e) Hwf Hv) as (rs1 & E & Hwf1 & Hb1 & _ & _).
  { unfold range_size, SIZE_MAX. simpl. lia. }
  unfold range_size in Hb1. simpl in Hb1. rewrite E, u64_small in H by lia. cbn [snd] in H.
  apply IH in H as (? & ? & ?); [|done|lia|lia]. split_and!; [done..|lia].
Qed.

(** A block map that is accepted is as its header promises. *)
Lemma ParseBlockMapFile_ok path w d : ParseBlockMapFile path w = Ret d → bm_path d ≠ "" → map_ok d.
Proof.
  unfold ParseBlockMapFile. intros H Hd. destruct (mm_read_file path w) as [content|]; [|by injection H as <-].
  destruct (ab_Split _ _) as [|dev [|line1 [|line2 [|line3 lines]]]]; try by injection H as <-.
  apply outcome_bind_Ret_inv in H as (sizes & Hs & H). destruct sizes as [[size blk]|]; [|by injection H as <-].
  apply scan_two_range in Hs as [Hs Hk]; [|lia..].
  destruct (Z.eqb_spec size 0); [by injection H as <-|]. destruct (Z.eqb_spec blk 0); [by injection H as <-|].
  apply outcome_bind_Ret_inv in H as (count & Hc & H). destruct count as [cnt|]; [|by injection H as <-].
  destruct (ceil_blocks size blk) as [Ec Hceil]; [lia..|]. cbv zeta in H. rewrite Ec in H.
  destruct (Z.ltb_spec (2 ^ 32 - 1) ((size - 1) / blk + 1)); [by injection H as <-|].
  destruct (Z.eqb_spec cnt 0); [by injection H as <-|]. destruct (_ =? _); [|by injection H as <-]. cbn [orb negb] in H.
  apply outcome_bind_Ret_inv in H as (r & Hr & H). destruct r as [[rs rem]|]; [|by injection H as <-].
  destruct rem; [|by injection H as <-..]. injection H as <-.
  apply parse_ranges_ok in Hr as (Hwf & _ & Hb); [|apply wf_empty|lia|simpl; lia].
  simpl in Hb. split; simpl; [lia..|done|lia|lia].
Qed.
End Parse.

(** ** The mapping shows the blocks *)

Lemma block_bytes_app disk blk l k : block_bytes disk blk (l ++ k) = block_bytes disk blk l ++ block_bytes disk blk k.
Proof. apply bind_app. Qed.

Lemma block_bytes_range disk blk r : valid_range r → 0 < blk →
  block_bytes disk blk (range_blocks r) = slice (r.1 * blk) (range_size r * blk) disk.
Proof.
  intros [Hr _] Hb. unfold range_blocks. assert (0 ≤ range_size r) as Hn by (unfold range_size; lia).
  assert (0 ≤ r.1) as Ha by lia. revert Hn Ha. generalize (range_size r) as n, (r.1) as a. clear Hr. intros n a Hn Ha. rewrite <-(Z2Nat.id n) by done. generalize (Z.to_nat n). clear n Hn. intros n.
  revert a Ha. induction n as [|n IH]; intros a Ha; [done|].
  rewrite seqZ_cons by lia. replace (Z.pred (Z.of_nat (S n))) with (Z.of_nat n) by lia.
  change (block_bytes disk blk (a :: ?l)) with (slice (a * blk) blk disk ++ block_bytes disk blk l).
  rewrite IH by lia. replace (Z.succ a * blk) with (a * blk + blk) by lia.
  rewrite slice_app by nia. f_equal. lia.
Qed.

Section Mapped.
Context {W : Type} {mem : Memory W} {laws : MemoryLaws W} {ab : AndroidBase} {abt : AndroidBaseTrim}.

(** The bytes in memory from an address on. *)
Definition shows (w : W) (a : Z) (bytes : list Z) : Prop :=
  ∀ k : nat, (k < length bytes)%nat → mm_byte w (a + Z.of_nat k) = bytes !! k.

Lemma shows_app w a l k : shows w a l → shows w (a + Z.of_nat (length l)) k → shows w a (l ++ k).
Proof.
  intros Hl Hk i Hi. rewrite length_app in Hi. destruct (decide (i < length l)%nat).
  - rewrite lookup_app_l by done. by apply Hl.
  - rewrite lookup_app_r by lia. rewrite <-Hk by lia. f_equal. lia.
Qed.

Lemma shows_below w w' a l : (∀ x, x < a + Z.of_nat (length l) → mm_byte w' x = mm_byte w x) →
  shows w a l → shows w' a l.
Proof. intros Hw Hl k Hk. rewrite Hw by lia. by apply Hl. Qed.

Lemma load_shows w a l n : shows w a l → 0 ≤ n ≤ Z.of_nat (length l) → load w a n = Some (take (Z.to_nat n) l).
Proof.
  intros Hl Hn. unfold load. apply mapM_Some. apply Forall2_same_length_lookup_2.
  { rewrite length_seqZ, length_take. lia. }
  intros i x y Hx Hy. apply lookup_seqZ in Hx as [-> Hi]. rewrite lookup_take_lt in Hy by lia. rewrite <-Hy.
  rewrite Z.add_0_l. apply Hl. by eapply lookup_lt_Some.
Qed.

(** The ranges lie in the file. *)
Definition in_file (disk : list Z) (blk : Z) (l : list Range) : Prop :=
  Forall (λ r, r.2 * blk ≤ Z.of_nat (length disk)) l.

Lemma map_ranges_spec blk fd : 0 < blk < 2 ^ 32 → ∀ l (next rem : Z) (rgs : list (Z * Z)) (w : W),
  Forall valid_range l → in_file (mm_disk (mm_path fd)) blk l →
  0 ≤ next → next + RangeSet.total l * blk < 2 ^ 64 → RangeSet.total l * blk ≤ rem < 2 ^ 64 →
  ∃ ok rem' rgs' w', map_ranges l blk fd next rem rgs w = Ret (ok, rem', rgs', w') ∧
    (ok = true → rem' = rem - RangeSet.total l * blk ∧ (∀ x, x < next → mm_byte w' x = mm_byte w x) ∧
       shows w' next (block_bytes (mm_disk (mm_path fd)) blk (blocks_of l))).
Proof.
  intros Hblk. induction l as [|[a e] l IH]; intros next rem rgs w Hv Hin Hnext Htop Hrem; cbn [map_ranges].
  { eexists _, _, _, _. split; [done|]. intros _. simpl. split_and!; [lia|done|]. intros k Hk. simpl in Hk. lia. }
  apply Forall_cons in Hv as [Hv Hvl]. apply Forall_cons in Hin as [Hae Hinl].
  pose proof (total_nonneg l Hvl) as Ht. pose proof Hv as [[H0 Hlt] _]. cbn [fst snd] in H0, Hlt, Hae.
  pose proof (mm_disk_bound (mm_path fd)) as Hdisk. set (disk := mm_disk (mm_path fd)) in *.
  simpl in Htop, Hrem. unfold range_size in Htop, Hrem. cbn [fst snd] in Htop, Hrem.
  assert (0 ≤ (e - a) * blk) as Hsz by nia. assert (0 ≤ RangeSet.total l * blk) as Htb by nia.
  assert (a * blk < e * blk) as Hab by nia. assert (a ≤ a * blk) as Hab' by nia. assert (e ≤ e * blk) as Heb by nia.
  rewrite (u64_small (e - a)), (u64_small ((e - a) * blk)), (s64_small a), (s64_small (a * blk)) by lia.
  rewrite bool_decide_eq_true_2 by done.
  destruct (mm_mmap _ _ _ _ _) as [[r|] w1] eqn:E; [|by eexists _, _, _, _].
  apply mm_mmap_spec in E as (-> & Hbelow & Hshow).
  rewrite (u64_small (next + _)), (u64_small (rem - _)) by lia.
  destruct (IH (next + (e - a) * blk) (rem - (e - a) * blk) (rgs ++ [(next, (e - a) * blk)]) w1)
    as (ok & rem' & rgs' & w' & E & Hok); [done|done|lia..|].
  exists ok, rem', rgs', w'. split; [exact E|]. intros Et. destruct (Hok Et) as (-> & Hb' & Hs'). split_and!.
  - simpl. unfold range_size. simpl. lia.
  - intros x Hx. rewrite Hb' by lia. by apply Hbelow.
  - rewrite blocks_of_cons, block_bytes_app, block_bytes_range by (done || lia). unfold range_size. cbn [fst snd].
    assert (Z.of_nat (length (slice (a * blk) ((e - a) * blk) disk)) = (e - a) * blk) as Hlen
      by (apply length_slice; lia).
    apply shows_app; rewrite ?Hlen; [|done]. apply (shows_below w1); [intros x Hx; apply Hb'; lia|].
    fold disk in Hshow. intros k Hk. rewrite Hshow by lia. rewrite lookup_slice by lia. f_equal. lia.
Qed.
End Mapped.

(** ** The text of a block map *)

(** The header of [sysutil.h]: the device, the sizes, the number of ranges, the ranges. *)
Definition two_numbers (a b : Z) : string := String.append (to_string a) (String " "%char (to_string b)).

Definition map_lines (d : BlockMapData) : list string :=
  [bm_path d; two_numbers (bm_file_size d) (bm_block_size d);
   to_string (Z.of_nat (length (ranges_ (bm_block_ranges d))))] ++
  ((λ r, two_numbers r.1 r.2) <$> ranges_ (bm_block_ranges d)).

(** A path on a line of its own. *)
Definition plain_path (path : string) : Prop := starts_plain path ∧ char_in newline path = false.

Lemma append_pretty_go (x : N) s t : String.append (pretty_N_go x s) t = pretty_N_go x (String.append s t).
Proof.
  revert s. induction (N.lt_wf_0 x) as [x _ IH]. intros s.
  destruct (decide (x = 0)%N) as [->|Hx]; [by rewrite !pretty_N_go_0|].
  rewrite !(pretty_N_go_step x) by lia. by rewrite IH by (apply N.div_lt; lia).
Qed.

Lemma scan_pretty_go (x : N) s : scan_digits 0 (pretty_N_go x s) = scan_digits x s.
Proof.
  revert s. induction (N.lt_wf_0 x) as [x _ IH]. intros s.
  destruct (decide (x = 0)%N) as [->|Hx]; [by rewrite pretty_N_go_0|].
  rewrite pretty_N_go_step by lia. rewrite IH by (apply N.div_lt; lia).
  simpl. rewrite digit_of_pretty by (apply N.mod_lt; lia). f_equal. pose proof (N.div_mod x 10). lia.
Qed.

Definition no_digit_first (s : string) : Prop :=
  match s with String c _ => digit_of c = None | EmptyString => True end.

Lemma scan_digits_to_string n s : 0 ≤ n → no_digit_first s →
  scan_digits 0 (String.append (to_string n) s) = (Z.to_N n, s).
Proof.
  intros Hn Hs. assert (∀ x, scan_digits x s = (x, s)) as Hstop.
  { intros x. destruct s as [|c s]; [done|]. cbn in *. by rewrite Hs. }
  unfold to_string, pretty, pretty_N. case_decide as H0.
  - rewrite H0. cbn. apply Hstop.
  - rewrite append_pretty_go, scan_pretty_go. apply Hstop.
Qed.

Lemma to_string_digit n : 0 ≤ n → ∃ c s d, to_string n = String c s ∧ digit_of c = Some d.
Proof.
  intros Hn. pose proof (parse_to_string n Hn) as Hp. pose proof (to_string_not_empty n) as He.
  destruct (to_string n) as [|c s]; [done|]. cbn in Hp.
  destruct (digit_of c) as [d|] eqn:Ed; [|done]. by exists c, s, d.
Qed.

Lemma digit_plain c d : digit_of c = Some d → is_blank c = false ∧ c ≠ "-"%char ∧ c ≠ "+"%char ∧ c ≠ newline.
Proof.
  intros H. split_and!; [|by intros ->..]. unfold digit_of, is_blank in *.
  destruct ((48 <=? _) && _)%N eqn:E; [|done]. apply andb_prop in E as [E%N.leb_le E2%N.leb_le].
  apply orb_false_iff. split; [apply andb_false_iff; right; apply N.leb_gt; lia|apply N.eqb_neq; lia].
Qed.

Lemma scan_number_to_string n s : 0 ≤ n → no_digit_first s →
  scan_number (String.append (to_string n) s) = Some (false, Z.to_N n, s).
Proof.
  intros Hn Hs. pose proof (scan_digits_to_string n s Hn Hs) as Hd.
  destruct (to_string_digit n Hn) as (c & s' & d & E & Hc). rewrite E in Hd |- *. rewrite string_append_cons in Hd |- *.
  destruct (digit_plain c d Hc) as (Hb & Hm & Hp & _). unfold scan_number. cbn [skip_blanks]. rewrite Hb.
  rewrite !bool_decide_eq_false_2 by done. rewrite Hc. by rewrite Hd.
Qed.

Lemma scan_number_blank s : scan_number (String " "%char s) = scan_number s.
Proof. done. Qed.

Lemma stored_fits w n : 0 ≤ n < 2 ^ w → stored w false (Z.to_N n) = Ret n.
Proof. intros Hn. unfold stored. rewrite Z2N.id by lia. destruct (Z.leb_spec (2 ^ w) n); [lia|done]. Qed.

Lemma scan_two_numbers w w' a b : 0 ≤ a < 2 ^ w → 0 ≤ b < 2 ^ w' → scan_two w w' (two_numbers a b) = Ret (Some (a, b)).
Proof.
  intros Ha Hb. unfold scan_two, two_numbers. rewrite scan_number_to_string by (done || lia).
  rewrite stored_fits, outcome_bind_ret_l, scan_number_blank by done.
  rewrite <-(string_append_nil_r (to_string b)), scan_number_to_string by (done || lia).
  by rewrite stored_fits, outcome_bind_ret_l.
Qed.

Lemma scan_one_number w a : 0 ≤ a < 2 ^ w → scan_one w (to_string a) = Ret (Some a).
Proof.
  intros Ha. unfold scan_one. rewrite <-(string_append_nil_r (to_string a)), scan_number_to_string by (done || lia).
  by rewrite stored_fits, outcome_bind_ret_l.
Qed.

Lemma to_string_no_newline n : char_in newline (to_string n) = false.
Proof.
  unfold to_string, pretty, pretty_N. case_decide; [done|]. rewrite char_in_pretty_go; [done|].
  intros d Hd. apply (N_lt_10_cases (λ d, pretty_N_char d ≠ newline)); [done|]. by repeat constructor.
Qed.

Lemma two_numbers_no_newline a b : char_in newline (two_numbers a b) = false.
Proof. unfold two_numbers. rewrite char_in_append. cbn. by rewrite !to_string_no_newline. Qed.

(** The whole text starts and ends with characters that are not blank. *)
Lemma join_lines_starts path ls : starts_plain path → starts_plain (join_lines (path :: ls)).
Proof.
  intros (c & s & -> & Hc). destruct ls as [|l ls]; [by exists c, s|].
  exists c, (String.append s (String newline (join_lines (l :: ls)))). by split.
Qed.

Lemma ends_plain_app s t : ends_plain t → ends_plain (String.append s t).
Proof. intros (t' & c & -> & Hc). exists (String.append s t'), c. by rewrite string_append_assoc. Qed.

Lemma ends_plain_cons c s : ends_plain s → ends_plain (String c s).
Proof. intros Hs. by apply (ends_plain_app (String c EmptyString)). Qed.

Lemma join_lines_ends ls l : ends_plain l → ends_plain (join_lines (ls ++ [l])).
Proof.
  intros Hl. induction ls as [|k ls IH]; [done|].
  assert (∃ x y, ls ++ [l] = x :: y) as (x & y & E) by (destruct ls; by eexists _, _).
  rewrite <-app_comm_cons, E. change (join_lines (k :: x :: y)) with (String.append k (String newline (join_lines (x :: y)))).
  rewrite <-E. by apply ends_plain_app, ends_plain_cons.
Qed.

Lemma string_last s : s ≠ EmptyString → ∃ s' c, s = String.append s' (String c EmptyString).
Proof.
  induction s as [|c s IH]; [done|]. intros _. destruct s as [|c' s]; [by exists EmptyString, c|].
  destruct IH as (s' & d & E); [done|]. exists (String c s'), d. by rewrite E.
Qed.

(** All characters of a number are digits. *)
Lemma parse_digits_last s c acc n : parse_digits acc (String.append s (String c EmptyString)) = Some n →
  ∃ d, digit_of c = Some d.
Proof.
  revert acc. induction s as [|b s IH]; intros acc.
  - change (String.append EmptyString ?t) with t. cbn [parse_digits].
    destruct (digit_of c) as [d|]; [intros _; by exists d|by intros [=]].
  - rewrite string_append_cons. cbn [parse_digits]. destruct (digit_of b) as [d|]; [apply IH|by intros [=]].
Qed.

Lemma to_string_ends n : 0 ≤ n → ends_plain (to_string n).
Proof.
  intros Hn. destruct (string_last (to_string n) (to_string_not_empty n)) as (s & c & E).
  pose proof (parse_to_string n Hn) as Hp. rewrite E in Hp. apply parse_digits_last in Hp as (d & Hd).
  exists s, c. split; [done|]. by apply digit_plain in Hd as [? _].
Qed.

Section Text.
Context {W : Type} {mem : Memory W} {ab : AndroidBase} {abt : AndroidBaseTrim} {abl : MapTextLaws}.

Lemma parse_ranges_lines l : ∀ rs,
  wf rs → Forall valid_range l → blocks_ rs + RangeSet.total l < 2 ^ 32 →
  parse_ranges ((λ r, two_numbers r.1 r.2) <$> l) rs (RangeSet.total l) =
    Ret (Some (mkRangeSet (ranges_ rs ++ l) (blocks_ rs + RangeSet.total l), 0)).
Proof.
  induction l as [|[a e] l IH]; intros rs Hwf Hv Hb.
  { simpl. rewrite app_nil_r, Z.add_0_r. by destruct rs. }
  apply Forall_cons in Hv as [Hr Hv]. pose proof (total_nonneg l Hv) as Ht. pose proof (wf_nonneg _ Hwf) as H0.
  simpl in Hb. unfold range_size in Hb. cbn [fst snd] in Hb. pose proof Hr as [[Ha Hae] He]. cbn [fst snd] in *.
  cbn [fmap list_fmap parse_ranges fst snd]. rewrite scan_two_numbers, outcome_bind_ret_l by lia.
  destruct (Z.leb_spec e a); [lia|]. cbn [orb RangeSet.total foldr]. fold (RangeSet.total l). unfold range_size.
  cbn [fst snd]. rewrite (u64_small (e - a)) by lia. destruct (Z.ltb_spec (e - a + RangeSet.total l) (e - a)); [lia|].
  rewrite (u64_small (_ - _)) by lia. replace (e - a + RangeSet.total l - (e - a)) with (RangeSet.total l) by lia.
  rewrite PushBack_ok; [|done|done|unfold range_size, SIZE_MAX; simpl; lia]. unfold range_size. cbn [fst snd].
  pose proof (PushBack_wf rs (a, e) Hwf) as Hwf1. rewrite PushBack_ok in Hwf1; [|done|done|unfold range_size, SIZE_MAX; simpl; lia].
  unfold range_size in Hwf1. cbn [fst snd] in Hwf1. rewrite IH; [|apply Hwf1; unfold is_u64; lia|done|simpl; lia].
  cbn [ranges_ blocks_]. by rewrite <-app_assoc, Z.add_assoc.
Qed.

Lemma length_le_total l : Forall valid_range l → Z.of_nat (length l) ≤ RangeSet.total l.
Proof.
  induction 1 as [|r l [Hr _] Hl IH]; simpl; [lia|]. unfold range_size. lia.
Qed.

Lemma map_ok_ranges d : map_ok d → ranges_ (bm_block_ranges d) ≠ [].
Proof.
  intros [Hf Hk Hw Hb Hc] E. rewrite (wf_blocks _ Hw), E in Hb. simpl in Hb.
  assert (0 ≤ (bm_file_size d - 1) / bm_block_size d) by (apply Z.div_pos; lia). lia.
Qed.

Lemma ParseBlockMapFile_lines fn w d t :
  mm_read_file fn w = Some (String.append (join_lines (map_lines d)) t) → all_blank t →
  map_ok d → plain_path (bm_path d) → ParseBlockMapFile fn w = Ret d.
Proof.
  intros Hfile Ht Hok [Hstart Hnl]. pose proof (map_ok_ranges d Hok) as Hne. pose proof Hok as [Hf Hk Hw Hb Hc].
  pose proof (wf_ranges _ Hw) as Hv. pose proof (length_le_total _ Hv) as Hlen. rewrite <-(wf_blocks _ Hw) in Hlen.
  unfold ParseBlockMapFile. rewrite Hfile, ab_Trim_spec, ab_Split_lines; [| |apply Forall_forall| | |done].
  - destruct d as [dev size blk rs]. unfold map_lines. simpl in *.
    destruct (ranges_ rs) as [|r l] eqn:El; [done|]. cbn [fmap list_fmap app]. rewrite scan_two_numbers, outcome_bind_ret_l by lia.
    destruct (Z.eqb_spec size 0); [lia|]. destruct (Z.eqb_spec blk 0); [lia|]. cbn [orb].
    rewrite scan_one_number, outcome_bind_ret_l by lia.
    destruct (ceil_blocks size blk) as [-> Hceil]; [lia..|].
    destruct (Z.ltb_spec (2 ^ 32 - 1) ((size - 1) / blk + 1)); [lia|]. destruct (Z.eqb_spec (Z.of_nat (length (r :: l))) 0); [done|].
    rewrite u64_small by lia. cbn [length]. rewrite length_fmap, Z.eqb_refl. cbn [orb negb].
    rewrite <-Hb, (wf_blocks _ Hw), El.
    pose proof (parse_ranges_lines (r :: l) RangeSet_empty wf_empty Hv) as Hp. cbn [fmap list_fmap] in Hp. rewrite Hp.
    + rewrite outcome_bind_ret_l. cbn [blocks_ ranges_ RangeSet_empty]. rewrite Z.add_0_l, <-El, <-(wf_blocks _ Hw). by destruct rs.
    + rewrite <-El, <-(wf_blocks _ Hw). cbn. lia.
  - done.
  - intros x. unfold map_lines. cbn [app]. rewrite !elem_of_cons.
    intros [->|[->|[->|(r & -> & _)%list_elem_of_fmap]]]; [done|apply two_numbers_no_newline|apply to_string_no_newline|].
    apply two_numbers_no_newline.
  - by apply join_lines_starts.
  - unfold map_lines. destruct (ranges_ (bm_block_ranges d)) as [|r l _] using rev_ind; [done|].
    rewrite fmap_app, app_assoc. apply join_lines_ends. cbn. apply Forall_app in Hv as [_ [[? _] _]%Forall_cons].
    apply ends_plain_app, ends_plain_cons, to_string_ends. lia.
Qed.
End Text.

(** ** Mapping a package *)

Section Package.
Context {W : Type} {mem : Memory W} {laws : MemoryLaws W} {ab : AndroidBase} {abt : AndroidBaseTrim} {abl : MapTextLaws}.
Context `{ZipArchive}.

(** The file in the blocks of a map. *)
Definition stored_file (d : BlockMapData) : list Z :=
  take (Z.to_nat (bm_file_size d))
    (block_bytes (mm_disk (bm_path d)) (bm_block_size d) (blocks_of (ranges_ (bm_block_ranges d)))).

Lemma length_stored_blocks disk blk l : 0 < blk → Forall valid_range l → in_file disk blk l →
  Z.of_nat (length (block_bytes disk blk (blocks_of l))) = RangeSet.total l * blk.
Proof.
  intros Hb Hv Hin. induction Hv as [|r l Hr Hv IH]; [done|]. apply Forall_cons in Hin as [Hr' Hin].
  rewrite blocks_of_cons, block_bytes_app, length_app, block_bytes_range, Nat2Z.inj_add, IH by done.
  cbn beta in Hr'. pose proof Hr as [[H0 H1] _].
  assert (0 ≤ r.1 * blk) by nia. assert (0 ≤ (r.2 - r.1) * blk) by nia.
  rewrite length_slice; unfold range_size; [simpl; unfold range_size; lia|lia..].
Qed.

Lemma MapBlockFile_run fn w d m0 : ParseBlockMapFile fn w = Ret d → bm_path d ≠ "" →
  in_file (mm_disk (bm_path d)) (bm_block_size d) (ranges_ (bm_block_ranges d)) →
  ∃ ok m w', MapBlockFile fn m0 w = Ret (ok, m, w') ∧
    (ok = true → mm_length m = bm_file_size d ∧
       shows w' (mm_addr m) (block_bytes (mm_disk (bm_path d)) (bm_block_size d) (blocks_of (ranges_ (bm_block_ranges d))))).
Proof.
  intros Hp Hd Hin. pose proof (ParseBlockMapFile_ok _ _ _ Hp Hd) as [Hf Hk Hw Hb Hc].
  unfold MapBlockFile. rewrite Hp, outcome_bind_ret_l, bool_decide_eq_false_2 by done.
  destruct (Z.ltb_spec SIZE_MAX (bm_file_size d)) as [|_]; [unfold SIZE_MAX in *; lia|]. cbv zeta.
  set (blk := bm_block_size d) in *. destruct (ceil_blocks (bm_file_size d) blk Hf Hk) as [-> Hceil]. rewrite <-Hb.
  rewrite (wf_blocks _ Hw) in *. pose proof (total_nonneg _ (wf_ranges _ Hw)) as Ht.
  set (l := ranges_ (bm_block_ranges d)) in *.
  assert (0 ≤ RangeSet.total l * blk < 2 ^ 64) as Hlen.
  { split; [nia|]. eapply Z.lt_le_trans; [apply Z.mul_lt_mono_nonneg; [lia|exact Hc|lia|apply Hk]|]. done. }
  rewrite (u64_small (_ * blk)) by lia.
  destruct (mm_mmap_none _ w) as [[r|] w1] eqn:E1; [|by eexists _, _, _].
  apply mm_mmap_none_spec in E1 as [Hr Hr'].
  pose proof (mm_open_spec (bm_path d) w1) as [_ Ho]. destruct (mm_open _ w1) as [[fd|] w2]; [|by eexists _, _, _].
  cbn [fst] in Ho. subst. rewrite <-Ho in *.
  destruct (map_ranges_spec blk fd Hk l r (RangeSet.total l * blk) [] w2 (wf_ranges _ Hw) Hin)
    as (ok & rem' & rgs' & w3 & E & Hok); [lia..|]. rewrite E, outcome_bind_ret_l.
  destruct ok; [|by eexists _, _, _]. destruct (Hok eq_refl) as (-> & _ & Hs). rewrite Z.sub_diag. cbn [andb Z.eqb].
  eexists _, _, _. split; [done|]. intros _. cbn [mm_length mm_addr]. split; [done|].
  eapply shows_below; [|exact Hs]. intros x _. apply mm_close_spec.
Qed.

(** C8. A package in blocks of a device: when the file behind the @ is the block map of the package
    (the device, the sizes, the ranges of blocks, blanks at the end), the call is defined, and
    a package it returns is a sound package in memory that has the size and the bytes of the
    file: those of the blocks, in the order of the map, cut at the size. *)
Theorem CreateMemoryPackage_block_map junk fn w d t :
  mm_read_file fn w = Some (String.append (join_lines (map_lines d)) t) → all_blank t →
  map_ok d → plain_path (bm_path d) →
  in_file (mm_disk (bm_path d)) (bm_block_size d) (ranges_ (bm_block_ranges d)) →
  let path := String "@"%char fn in
  ∃ r w', CreateMemoryPackage junk path w = Ret (r, w') ∧
    ∀ m, r = Some m →
      ∃ p, mapped_MemoryPackage path m w' = Some p ∧ MemoryPackage_ok p ∧
        mem_addr_ p = stored_file d ∧ mem_package_size_ p = bm_file_size d.
Proof.
  intros Hfile Ht Hok Hpath Hin path. pose proof (ParseBlockMapFile_lines fn w d t Hfile Ht Hok Hpath) as Hp.
  assert (bm_path d ≠ "") as Hne by (by destruct Hpath as [(c & s & -> & _) _]).
  destruct (MapBlockFile_run fn w d (mkMemMapping junk.1 junk.2 []) Hp Hne Hin) as (ok & m & w' & E & Hm).
  unfold CreateMemoryPackage, MapFile, path. rewrite bool_decide_eq_true_2 by done. rewrite E, outcome_bind_ret_l.
  destruct ok; [|by eexists _, _]. destruct (Hm eq_refl) as [Hl Hs]. eexists _, _. split; [done|].
  intros m' [= <-]. destruct Hok as [Hf Hk Hw Hb Hc].
  assert (bm_file_size d ≤ Z.of_nat (length (block_bytes (mm_disk (bm_path d)) (bm_block_size d)
    (blocks_of (ranges_ (bm_block_ranges d)))))) as Hlen.
  { rewrite length_stored_blocks, <-(wf_blocks _ Hw), Hb; [|lia|apply (wf_ranges _ Hw)|done].
    pose proof (Z.div_mod (bm_file_size d - 1) (bm_block_size d)).
    pose proof (Z.mod_pos_bound (bm_file_size d - 1) (bm_block_size d)). nia. }
  unfold mapped_MemoryPackage. rewrite Hl, (load_shows w' _ _ _ Hs) by lia. eexists. split; [done|].
  unfold MemoryPackage_ok. cbn [mem_addr_ mem_package_size_]. split_and!; [|lia|done..].
  rewrite length_take. lia.
Qed.

(** C9. The text of a block map is read back as the map, and a map that is accepted, from
    whatever text, keeps what its header promises: sizes that are not zero, proper ranges and
    exactly the blocks the file needs. *)
Theorem ParseBlockMapFile_text fn w :
  (∀ d t, mm_read_file fn w = Some (String.append (join_lines (map_lines d)) t) → all_blank t →
     map_ok d → plain_path (bm_path d) → ParseBlockMapFile fn w = Ret d) ∧
  (∀ d, ParseBlockMapFile fn w = Ret d → bm_path d ≠ "" → map_ok d).
Proof. split; [apply ParseBlockMapFile_lines|apply ParseBlockMapFile_ok]. Qed.
End Package.

(** ** A small machine

    Pages have four bytes; a device of forty bytes, block maps on it, and an allocator that
    takes the first free area. *)
Fixpoint trim_right (s : string) : string :=
  match s with
  | EmptyString => EmptyString
  | String c s' => match trim_right s' with
                   | EmptyString => if is_blank c then EmptyString else String c EmptyString
                   | t => String c t
                   end
  end.

#[export] Instance libbase_trim : AndroidBaseTrim := { ab_Trim s := trim_right (skip_blanks s) }.

Lemma trim_right_blank t : all_blank t → trim_right t = EmptyString.
Proof.
  unfold all_blank. induction t as [|c t IH]; [done|]. cbn. destruct (is_blank c) eqn:E; [|done].
  intros Ht. by rewrite IH.
Qed.

Lemma trim_right_plain s c t : is_blank c = false → all_blank t →
  trim_right (String.append (String.append s (String c EmptyString)) t) = String.append s (String c EmptyString).
Proof.
  intros Hc Ht. induction s as [|b s IH]; rewrite ?string_append_cons; cbn [trim_right].
  - change (String.append EmptyString ?t) with t. rewrite string_append_cons. cbn [trim_right].
    change (String.append EmptyString ?t) with t. by rewrite trim_right_blank, Hc.
  - rewrite IH. destruct s; done.
Qed.

#[export] Instance libbase_text : MapTextLaws.
Proof.
  split.
  - intros ls Hne Hls. by apply split_at_join.
  - intros s t (c & s' & -> & Hc) (s'' & c' & E & Hc') Ht.
    change (ab_Trim ?u) with (trim_right (skip_blanks u)). rewrite string_append_cons. cbn [skip_blanks].
    rewrite Hc, <-string_append_cons, E. by apply trim_right_plain.
Qed.

(** The bytes of the address space and the areas in use. *)
Record Kernel := { k_byte : Z → option Z; k_areas : list (Z * Z) }.

Definition demo_device : list Z := seqZ 100 40.
Definition demo_disk (path : string) : list Z := if bool_decide (path = "/dev/d"%string) then demo_device else [].

Definition page : Z := 4.
Definition apart (a len : Z) (area : Z * Z) : bool := (a + len <=? area.1) || (area.1 + area.2 <=? a).
(** Among 64 pages from 4096 on. *)
Definition first_free (len : Z) (areas : list (Z * Z)) : option Z :=
  if (0 <? len) && (len <=? 2 ^ 32) then
    snd <$> list_find (λ a, forallb (apart a len) areas = true) ((λ i, 4096 + page * i) <$> seqZ 0 64)
  else None.

Definition fill (a len : Z) (bytes : Z → option Z) (k : Kernel) : Kernel :=
  {| k_byte x := if (a <=? x) && (x <? a + len) then bytes (x - a) else k_byte k x; k_areas := (a, len) :: k_areas k |}.

Definition kernel_mmap (addr : option Z) (len : Z) (path : string) (off : Z) (k : Kernel) : option Z * Kernel :=
  let bytes := λ i, demo_disk path !! Z.to_nat (off + i) in
  if negb (off mod page =? 0) || (len <=? 0) then (None, k)
  else match addr with
       | Some a => if a mod page =? 0 then (Some a, fill a len bytes k) else (None, k)
       | None => match first_free len (k_areas k) with
                 | Some a => (Some a, fill a len bytes k)
                 | None => (None, k)
                 end
       end.

Definition demo_map (blk : Z) (ranges : list Range) : BlockMapData :=
  mkBlockMapData "/dev/d" 14 blk (RangeSet_of_pairs ranges).
Definition demo_files (path : string) : option BlockMapData :=
  if bool_decide (path = "map"%string) then Some (demo_map 4 [(6, 8); (1, 3)])
  else if bool_decide (path = "small"%string) then Some (demo_map 6 [(0, 1); (2, 4)])
  else if bool_decide (path = "far"%string) then Some (demo_map 4 [(2 ^ 62, 2 ^ 62 + 4)])
  else None.

#[export] Instance kernel : Memory Kernel := {
  mm_fd := string;
  mm_read_file path k :=
    (λ d, String.append (join_lines (map_lines d)) (String newline EmptyString)) <$> demo_files path;
  mm_open path k := (if bool_decide (path = "/dev/d"%string) then Some path else None, k);
  mm_close fd k := k;
  mm_fstat fd k := Some (Z.of_nat (length (demo_disk fd)));
  mm_mmap_none len k := match first_free len (k_areas k) with
                        | Some a => (Some a, fill a len (λ _, None) k) | None => (None, k) end;
  mm_mmap := kernel_mmap;
  mm_munmap a len k :=
    {| k_byte x := if (a <=? x) && (x <? a + len) then None else k_byte k x;
       k_areas := filter (λ area, apart a len area = true) (k_areas k) |};
  mm_byte := k_byte;
}.

Lemma first_free_spec len areas a : first_free len areas = Some a → 0 < a ∧ a + len < 2 ^ 64.
Proof.
  unfold first_free. destruct (Z.ltb_spec 0 len), (Z.leb_spec len (2 ^ 32)); try done. cbn [andb].
  intros ([i y] & E & ->)%fmap_Some. apply list_find_Some in E as (E & _). cbn.
  apply list_lookup_fmap_Some in E as (j & -> & [-> Hj]%lookup_seqZ). unfold page. lia.
Qed.

#[export] Instance kernel_laws : MemoryLaws Kernel.
Proof.
  refine {| mm_disk := demo_disk; mm_path := id |}.
  - intros path k. split; [done|]. simpl. by case_bool_decide.
  - done.
  - by intros fd w n [= <-].
  - intros path. unfold demo_disk. by case_bool_decide.
  - intros len w r w'. simpl. destruct (first_free _ _) eqn:E; [|done]. intros [= <- <-]. by eapply first_free_spec.
  - intros a len fd off w r w'. simpl. unfold kernel_mmap. destruct (_ || _) eqn:E; [done|].
    assert (∀ b, b = r → (∀ x, x < r → k_byte (fill b len (λ i, demo_disk fd !! Z.to_nat (off + i)) w) x = k_byte w x) ∧
      (∀ k, 0 ≤ k < len → 0 ≤ off → off + k < Z.of_nat (length (demo_disk (id fd))) →
        k_byte (fill b len (λ i, demo_disk fd !! Z.to_nat (off + i)) w) (r + k) = demo_disk (id fd) !! Z.to_nat (off + k))) as H.
    { intros b ->. split; [intros x Hx|intros k Hk _ _]; cbn.
      - by destruct (Z.leb_spec r x); [lia|].
      - destruct (Z.leb_spec r (r + k)), (Z.ltb_spec (r + k) (r + len)); try lia. cbn. do 2 f_equal. lia. }
    destruct a as [a|]; [destruct (a mod page =? 0); [|done]|destruct (first_free _ _); [|done]]; intros [= <- <-]; split; auto.
Defined.

Definition demo_kernel : Kernel := {| k_byte _ := None; k_areas := [] |}.

Lemma demo_map_ok : map_ok (demo_map 4 [(6, 8); (1, 3)]).
Proof. split; [done..| |done|done]. split; [|done..]. by repeat constructor. Qed.

Lemma demo_path_plain : plain_path "/dev/d".
Proof. split; [by eexists _, _|done]. Qed.

(** Four blocks of the device, of which the last is not full. *)
Lemma CreateMemoryPackage_block_map_witness :
  (∃ r w', CreateMemoryPackage (0, 0) "@map" demo_kernel = Ret (r, w') ∧
     ∀ m, r = Some m → ∃ p, mapped_MemoryPackage (H := no_zip) "@map" m w' = Some p ∧ mem_package_size_ p = 14) ∧
  match CreateMemoryPackage (0, 0) "@map" demo_kernel with
  | Ret (Some m, w') =>
      mapped_MemoryPackage (H := no_zip) "@map" m w' = Some (mkMemoryPackage (H := no_zip) (seqZ 124 8 ++ seqZ 104 6) 14 "@map" None)
  | _ => False
  end.
Proof.
  split; [|by vm_compute].
  destruct (CreateMemoryPackage_block_map (H := no_zip) (0, 0) "map" demo_kernel (demo_map 4 [(6, 8); (1, 3)])
    (String newline EmptyString)) as (r & w' & E & Hr).
  - done.
  - done.
  - exact demo_map_ok.
  - exact demo_path_plain.
  - by repeat constructor.
  - exists r, w'. split; [exact E|]. intros m Hm. destruct (Hr m Hm) as (p & Hp & _ & _ & Hs). by exists p.
Defined.

Lemma ParseBlockMapFile_text_witness :
  ParseBlockMapFile "map" demo_kernel = Ret (demo_map 4 [(6, 8); (1, 3)]) ∧
  (∀ d, ParseBlockMapFile "small" demo_kernel = Ret d → bm_path d ≠ "" → map_ok d) ∧
  ParseBlockMapFile "small" demo_kernel = Ret (demo_map 6 [(0, 1); (2, 4)]).
Proof.
  split; [|split; [apply (ParseBlockMapFile_text "small" demo_kernel)|by vm_compute]].
  destruct (ParseBlockMapFile_text "map" demo_kernel) as [H _]. apply (H _ (String newline EmptyString)); [done|done| |].
  - exact demo_map_ok.
  - exact demo_path_plain.
Defined.

(** ** Two failures

    Blocks that are no multiple of a page: the second range cannot be mapped, the whole area is
    given back, and the range that was mapped stays in the list.  When another thread takes
    the area before the mapping is destroyed, its bytes are unmapped under it. *)
Example unmapped_twice :
  match MapBlockFile "small" (mkMemMapping 0 0 []) demo_kernel with
  | Ret (false, m, w) =>
      match mm_mmap None 8 "/dev/d" 0 w with
      | (Some a, w) => Some (mm_ranges m, mm_byte w a, mm_byte (MemMapping_destroy m w) a)
      | _ => None
      end
  | _ => None
  end = Some ([(4096, 6)], Some 100, None).
Proof. by vm_compute. Qed.

(** A block number from the map file, times the size of a block, may leave [off_t]. *)
Example map_far_overflows : MapBlockFile "far" (mkMemMapping 0 0 []) demo_kernel = UB.
Proof. by vm_compute. Qed.
