(* ===== verification/Verifier.v ===== *)
(** * Whole-file signature verification

    Model of [verify_file] in
    [src/miupdate/recovery_otaverifier/install/verifier.cpp].  The function is
    cut into the phases of its body, each a definition; [verify_file] composes
    them in order.  The package is any instance of [VerifierInterface]; SHA,
    RSA and ECDSA are the class [Crypto].  The specification side is
    [signed_file], the byte layout of a signed package, and [accepts], what a
    key attests; [verify_file] is proved to answer [VERIFY_SUCCESS] exactly on
    the files a key attests.  Logging and the progress fraction have no effect
    on the result and are left out. *)
From S2P Require Import Prelude Asn1 Package.
From stdpp Require Import strings.
#[local] Open Scope Z_scope.
#[local] Open Scope mach_scope.

(** BoringSSL.  The verification functions return an [int], 0 for failure. *)
Class Crypto := {
  SHA_CTX : Type;
  SHA1_Init : SHA_CTX;
  SHA1_Update : list Z → SHA_CTX → SHA_CTX;
  SHA1_Final : SHA_CTX → list Z;
  SHA256_CTX : Type;
  SHA256_Init : SHA256_CTX;
  SHA256_Update : list Z → SHA256_CTX → SHA256_CTX;
  SHA256_Final : SHA256_CTX → list Z;
  RSA : Type;
  EC_KEY : Type;
  NID_sha1 : Z;
  NID_sha256 : Z;
  RSA_verify : Z → list Z → Z → list Z → RSA → Z;
  ECDSA_verify : Z → list Z → Z → list Z → EC_KEY → Z;
}.

(** Hash contexts are streaming. *)
Class CryptoLaws `{Crypto} : Prop := {
  SHA1_Update_nil c : SHA1_Update [] c = c;
  SHA1_Update_app a b c : SHA1_Update (a ++ b) c = SHA1_Update b (SHA1_Update a c);
  SHA256_Update_nil c : SHA256_Update [] c = c;
  SHA256_Update_app a b c : SHA256_Update (a ++ b) c = SHA256_Update b (SHA256_Update a c);
}.

(** The sizes of the two digests. *)
Definition SHA_DIGEST_LENGTH : Z := 20.
Definition SHA256_DIGEST_LENGTH : Z := 32.

(** @src src/miupdate/recovery_otaverifier/install/include/install/verifier.h:100-100 VERIFY_SUCCESS *)
Definition VERIFY_SUCCESS : Z := 0.
(** @src src/miupdate/recovery_otaverifier/install/include/install/verifier.h:101-101 VERIFY_FAILURE *)
Definition VERIFY_FAILURE : Z := 1.
(** @src src/miupdate/recovery_otaverifier/install/verifier.cpp:126-126 FOOTER_SIZE *)
Definition FOOTER_SIZE : Z := 6.
(** @src src/miupdate/recovery_otaverifier/install/verifier.cpp:161-161 EOCD_HEADER_SIZE *)
Definition EOCD_HEADER_SIZE : Z := 22.

(** @src src/miupdate/recovery_otaverifier/install/include/install/verifier.h:46-49 Certificate::KeyType *)
Inductive KeyType := KEY_TYPE_RSA | KEY_TYPE_EC.

(** @src src/miupdate/recovery_otaverifier/install/include/install/verifier.h:45-60 Certificate
    The owning pointers are options. *)
Record Certificate `{Crypto} := mkCertificate {
  hash_len : Z;
  key_type : KeyType;
  rsa : option RSA;
  ec : option EC_KEY;
}.

Section Verify.
Context `{Crypto} `{VerifierInterface P}.

(** @src src/miupdate/recovery_otaverifier/install/verifier.cpp:127-159 verify_file (footer)
    The comment size and the signature start, or [None] for
    [return VERIFY_FAILURE]. *)
Definition read_footer (package : P) : outcome (option (Z * Z) * P) :=
  let length := GetPackageSize package in
  if length <? FOOTER_SIZE then Ret (None, package)
  else
    '(footer, package) ← ReadFullyAtOffset FOOTER_SIZE (length -64 FOOTER_SIZE) package;
    match footer with
    | None => Ret (None, package)
    | Some footer =>
        f2 ← or_ub (footer !! 2%nat); f3 ← or_ub (footer !! 3%nat);
        if negb (f2 =? 0xff) || negb (f3 =? 0xff) then Ret (None, package)
        else
          f4 ← or_ub (footer !! 4%nat); f5 ← or_ub (footer !! 5%nat);
          f0 ← or_ub (footer !! 0%nat); f1 ← or_ub (footer !! 1%nat);
          let comment_size := f4 + Z.shiftl f5 8 in
          let signature_start := f0 + Z.shiftl f1 8 in
          if comment_size <? signature_start then Ret (None, package)
          else if signature_start <=? FOOTER_SIZE then Ret (None, package)
          else Ret (Some (comment_size, signature_start), package)
    end.

(** [$50 $4b $05 $06] at index [i]; the tests are short-circuit. *)
Definition marker_at (eocd : list Z) (i : nat) : outcome bool :=
  b0 ← or_ub (eocd !! i);
  if negb (b0 =? 0x50) then Ret false else
  b1 ← or_ub (eocd !! (i + 1)%nat);
  if negb (b1 =? 0x4b) then Ret false else
  b2 ← or_ub (eocd !! (i + 2)%nat);
  if negb (b2 =? 0x05) then Ret false else
  b3 ← or_ub (eocd !! (i + 3)%nat);
  Ret (b3 =? 0x06).

(** @src src/miupdate/recovery_otaverifier/install/verifier.cpp:188-196 verify_file (marker scan)
    [n] rounds of the [for] loop from index [i] on. *)
Fixpoint later_marker (eocd : list Z) (i n : nat) : outcome bool :=
  match n with
  | O => Ret false
  | S n' =>
      found ← marker_at eocd i;
      if found : bool then Ret true else later_marker eocd (S i) n'
  end.

(** @src src/miupdate/recovery_otaverifier/install/verifier.cpp:163-196 verify_file (EOCD)
    The EOCD record and the number of signed bytes. *)
Definition read_eocd (comment_size : Z) (package : P) : outcome (option (list Z * Z) * P) :=
  let length := GetPackageSize package in
  let eocd_size := comment_size +64 EOCD_HEADER_SIZE in
  if length <? eocd_size then Ret (None, package)
  else
    let signed_len := length -64 eocd_size +64 EOCD_HEADER_SIZE -64 2 in
    '(eocd, package) ← ReadFullyAtOffset eocd_size (length -64 eocd_size) package;
    match eocd with
    | None => Ret (None, package)
    | Some eocd =>
        magic ← marker_at eocd 0;
        if negb magic then Ret (None, package)
        else
          later ← later_marker eocd 4 (Z.to_nat (eocd_size -64 3 - 4));
          if later : bool then Ret (None, package) else Ret (Some (eocd, signed_len), package)
    end.

(** @src src/miupdate/recovery_otaverifier/install/verifier.cpp:198-209 verify_file (needed hashes) *)
Definition needed_hashes (keys : list Certificate) : bool * bool :=
  foldl (λ need key,
    if hash_len key =? SHA_DIGEST_LENGTH then (true, need.2)
    else if hash_len key =? SHA256_DIGEST_LENGTH then (need.1, true) else need)
    (false, false) keys.

(** @src src/miupdate/recovery_otaverifier/install/verifier.cpp:216-224 verify_file (hashers)
    The callbacks bound to the two contexts of the caller. *)
Definition bound_hashers (need : bool * bool) : list (HasherUpdateCallback (SHA_CTX * SHA256_CTX)) :=
  (if need.1 then [λ bytes s, (SHA1_Update bytes s.1, s.2)] else []) ++
  (if need.2 then [λ bytes s, (s.1, SHA256_Update bytes s.2)] else []).

(** @src src/miupdate/recovery_otaverifier/install/verifier.cpp:226-241 verify_file (hash loop)
    The result of [UpdateHashAtOffset] is dropped, as in the source. *)
Fixpoint hash_loop {S} (fuel : nat) (hashers : list (HasherUpdateCallback S))
    (signed_len so_far : Z) (s : S) (package : P) : outcome (S * P) :=
  match fuel with
  | O => OutOfFuel
  | Datatypes.S fuel' =>
      if so_far <? signed_len then
        let read_size := Z.min (signed_len -64 so_far) (16 *64 MiB) in
        '(_, s, package) ← UpdateHashAtOffset hashers so_far read_size s package;
        hash_loop fuel' hashers signed_len (so_far +64 read_size) s package
      else Ret (s, package)
  end.

(** @src src/miupdate/recovery_otaverifier/install/verifier.cpp:198-246 verify_file (digests)
    The two digests.  Each round hashes 16 MiB but the last. *)
Definition hash_package (keys : list Certificate) (signed_len : Z) (package : P)
    : outcome (list Z * list Z * P) :=
  let hashers := bound_hashers (needed_hashes keys) in
  '(s, package) ← hash_loop (Z.to_nat (signed_len / (16 * MiB) + 2)) hashers signed_len 0
                    (SHA1_Init, SHA256_Init) package;
  Ret (SHA1_Final s.1, SHA256_Final s.2, package).

(** @src src/miupdate/recovery_otaverifier/install/verifier.cpp:260-311 verify_file (keys)
    Verifying with a null key is undefined behaviour of the library. *)
Fixpoint check_keys (keys : list Certificate) (sha1 sha256 sig_der : list Z) : outcome Z :=
  match keys with
  | [] => Ret VERIFY_FAILURE
  | key :: keys' =>
      match
        (if hash_len key =? SHA_DIGEST_LENGTH then Some (sha1, NID_sha1)
         else if hash_len key =? SHA256_DIGEST_LENGTH then Some (sha256, NID_sha256)
         else None)
      with
      | None => check_keys keys' sha1 sha256 sig_der
      | Some (hash, hash_nid) =>
          match key_type key with
          | KEY_TYPE_RSA =>
              key_rsa ← or_ub (rsa key);
              if RSA_verify hash_nid hash (hash_len key) sig_der key_rsa =? 0
              then check_keys keys' sha1 sha256 sig_der
              else Ret VERIFY_SUCCESS
          | KEY_TYPE_EC =>
              if hash_len key =? SHA256_DIGEST_LENGTH then
                key_ec ← or_ub (ec key);
                if ECDSA_verify 0 hash (hash_len key) sig_der key_ec =? 0
                then check_keys keys' sha1 sha256 sig_der
                else Ret VERIFY_SUCCESS
              else check_keys keys' sha1 sha256 sig_der
          end
      end
  end.

(** @src src/miupdate/recovery_otaverifier/install/verifier.cpp:248-258 verify_file (signature)
    [signature = eocd + eocd_size - signature_start] within [eocd]. *)
Definition signature_der (eocd : list Z) (eocd_size signature_start : Z)
    : outcome (option (list Z)) :=
  read_pkcs7 eocd (eocd_size - signature_start) (signature_start -64 FOOTER_SIZE).

(** @src src/miupdate/recovery_otaverifier/install/verifier.cpp:113-312 verify_file *)
Definition verify_file (package : P) (keys : list Certificate) : outcome (Z * P) :=
  '(footer, package) ← read_footer package;
  match footer with
  | None => Ret (VERIFY_FAILURE, package)
  | Some (comment_size, signature_start) =>
      '(eocd, package) ← read_eocd comment_size package;
      match eocd with
      | None => Ret (VERIFY_FAILURE, package)
      | Some (eocd, signed_len) =>
          '(sha1, sha256, package) ← hash_package keys signed_len package;
          sig_der ← signature_der eocd (comment_size +64 EOCD_HEADER_SIZE) signature_start;
          match sig_der with
          | None => Ret (VERIFY_FAILURE, package)
          | Some sig_der =>
              result ← check_keys keys sha1 sha256 sig_der;
              Ret (result, package)
          end
      end
  end.
End Verify.

(** ** Specification: the layout of a signed package *)

Definition eocd_magic : list Z := [0x50; 0x4b; 0x05; 0x06].

(** The last six bytes and the two sizes they carry. *)
Definition footer_of (file : list Z) (comment_size signature_start : Z) : Prop :=
  ∃ pre s0 s1 c0 c1, file = pre ++ [s0; s1; 0xff; 0xff; c0; c1] ∧
    comment_size = c0 + 256 * c1 ∧ signature_start = s0 + 256 * s1 ∧
    6 < signature_start ≤ comment_size.

(** The EOCD record with its comment, after [pre]. *)
Definition eocd_of (file : list Z) (comment_size : Z) (eocd : list Z) (signed_len : Z) : Prop :=
  ∃ pre, file = pre ++ eocd ∧ Z.of_nat (length eocd) = comment_size + 22 ∧
    signed_len = Z.of_nat (length pre) + 20 ∧ take 4 eocd = eocd_magic ∧
    ∀ i, (4 ≤ i)%nat → take 4 (drop i eocd) ≠ eocd_magic.

(** A file in which [signed] are the signed bytes and [sig] the signature block:
    everything up to and including the EOCD record but its comment length, that
    length, unsigned comment bytes, the block and the footer. *)
Inductive signed_file (file signed sig : list Z) : Prop :=
  | SignedFile body eocd z0 z1 gap s0 s1 c0 c1 :
      signed = body ++ eocd → length eocd = 20%nat → take 4 eocd = eocd_magic →
      let comment := gap ++ sig ++ [s0; s1; 0xff; 0xff; c0; c1] in
      file = signed ++ [z0; z1] ++ comment →
      Z.of_nat (length comment) = c0 + 256 * c1 →
      Z.of_nat (length sig) + 6 = s0 + 256 * s1 → sig ≠ [] →
      (∀ i, (4 ≤ i)%nat → take 4 (drop i (eocd ++ [z0; z1] ++ comment)) ≠ eocd_magic) →
      signed_file file signed sig.

(** ** Specification: what a key attests *)

Section Accepts.
Context `{Crypto}.

Definition sha1_of (bytes : list Z) : list Z := SHA1_Final (SHA1_Update bytes SHA1_Init).
Definition sha256_of (bytes : list Z) : list Z := SHA256_Final (SHA256_Update bytes SHA256_Init).

(** The pointer the key type selects is there. *)
Definition key_ok (key : Certificate) : Prop :=
  match key_type key with
  | KEY_TYPE_RSA => is_Some (rsa key)
  | KEY_TYPE_EC => is_Some (ec key)
  end.

(** [key] accepts the signature for the given digests: RSA keys with either
    hash, EC keys with SHA-256 only. *)
Definition accepts_digests (sha1 sha256 sig_der : list Z) (key : Certificate) : bool :=
  match key_type key, rsa key, ec key with
  | KEY_TYPE_RSA, Some k, _ =>
      if hash_len key =? 20 then negb (RSA_verify NID_sha1 sha1 20 sig_der k =? 0)
      else if hash_len key =? 32 then negb (RSA_verify NID_sha256 sha256 32 sig_der k =? 0)
      else false
  | KEY_TYPE_EC, _, Some k =>
      (hash_len key =? 32) && negb (ECDSA_verify 0 sha256 32 sig_der k =? 0)
  | _, _, _ => false
  end.

Definition accepts (key : Certificate) (signed sig_der : list Z) : bool :=
  accepts_digests (sha1_of signed) (sha256_of signed) sig_der key.

(** Some key of the list attests the signed part of the file. *)
Definition authentic (file : list Z) (keys : list Certificate) : Prop :=
  ∃ signed sig sig_der key, signed_file file signed sig ∧
    pkcs7_signature sig = Some sig_der ∧ key ∈ keys ∧ accepts key signed sig_der = true.
End Accepts.

(** ** Reading the layout *)

Section VerifyProofs.
Context `{Crypto, !CryptoLaws} `{PackageLaws P}.

Lemma pkg_same_refl p : pkg_ok p → pkg_same p p.
Proof. intros. by split. Qed.

Lemma pkg_same_trans p q r : pkg_same p q → pkg_same q r → pkg_same p r.
Proof. intros (? & E1 & ?) (? & E2 & ?). split; [done|]. split; [congruence|tauto]. Qed.

Lemma read_footer_spec p : pkg_ok p → Forall is_byte (pkg_content p) →
  ∃ r p', read_footer p = Ret (r, p') ∧ pkg_same p p' ∧
    match r with
    | Some (cs, ss) => footer_of (pkg_content p) cs ss
    | None => pkg_reliable p → ∀ cs ss, ¬ footer_of (pkg_content p) cs ss
    end.
Proof.
  intros Hp Hb. destruct (pkg_size p Hp) as [Hsz Hlt]. unfold read_footer, FOOTER_SIZE.
  destruct (Z.ltb_spec (GetPackageSize p) 6) as [Hs|Hs].
  { do 2 eexists. split; [done|]. split; [by apply pkg_same_refl|].
    intros _ cs ss (pre & s0 & s1 & c0 & c1 & E & _). rewrite E, length_app in Hsz.
    simpl in Hsz. lia. }
  unwrap.
  destruct (pkg_read 6 (GetPackageSize p - 6) p Hp) as (r & p' & -> & Hsame & Hr);
    [unfold is_u64; lia..|]. rewrite outcome_bind_ret_l.
  destruct r as [bs|].
  2: { do 2 eexists. split; [done|]. split; [done|]. intros Hrel. exfalso. apply Hr.
       split; [done|lia]. }
  destruct Hr as [_ Ebs].
  assert (∃ pre, pkg_content p = pre ++ bs) as [pre Epre].
  { exists (take (Z.to_nat (GetPackageSize p - 6)) (pkg_content p)). rewrite Ebs. unfold slice.
    rewrite <-(take_drop (Z.to_nat (GetPackageSize p - 6)) (pkg_content p)) at 1. f_equal.
    symmetry. apply take_ge. rewrite length_drop. lia. }
  assert (length bs = 6%nat) as Hlen.
  { pose proof (length_slice (GetPackageSize p - 6) 6 (pkg_content p)). rewrite Ebs. lia. }
  assert (Forall is_byte bs) as Hbs by (rewrite Epre in Hb; by apply Forall_app in Hb as [_ ?]).
  destruct bs as [|s0 [|s1 [|f2 [|f3 [|c0 [|c1 [|]]]]]]]; try done. clear Hlen Ebs.
  rewrite !Forall_cons in Hbs. destruct Hbs as (B0 & B1 & _ & _ & B4 & B5 & _).
  unfold is_byte in *. cbn [or_ub lookup list_lookup mbind outcome_bind].
  assert (∀ cs ss, footer_of (pkg_content p) cs ss →
    f2 = 255 ∧ f3 = 255 ∧ cs = c0 + 256 * c1 ∧ ss = s0 + 256 * s1 ∧ 6 < ss ≤ cs) as Hinv.
  { intros cs ss (pre' & t0 & t1 & d0 & d1 & E & -> & -> & Hle). rewrite Epre in E.
    apply app_inj_2 in E as [_ [= -> -> -> -> -> ->]]; [done|done]. }
  assert (c0 + Z.shiftl c1 8 = c0 + 256 * c1) as Ec by (rewrite Z.shiftl_mul_pow2 by lia; lia).
  assert (s0 + Z.shiftl s1 8 = s0 + 256 * s1) as Es by (rewrite Z.shiftl_mul_pow2 by lia; lia).
  rewrite Ec, Es.
  destruct (negb (f2 =? 255) || negb (f3 =? 255)) eqn:Eff.
  { do 2 eexists. split; [done|]. split; [done|]. intros _ cs ss (-> & -> & _)%Hinv. done. }
  to_prop. subst f2 f3.
  repeat case_bool; to_prop; do 2 eexists; (split; [done|]); (split; [done|]).
  - intros _ cs ss Hf%Hinv. lia.
  - intros _ cs ss Hf%Hinv. lia.
  - exists pre, s0, s1, c0, c1. split; [done|]. lia.
Qed.

Lemma marker_at_spec eocd i : (i + 3 < length eocd)%nat →
  marker_at eocd i = Ret (bool_decide (take 4 (drop i eocd) = eocd_magic)).
Proof.
  intros Hi.
  assert (∀ k, eocd !! (i + k)%nat = drop i eocd !! k) as Hk by (intros; by rewrite lookup_drop).
  unfold marker_at. rewrite <-(Nat.add_0_r i) at 1. rewrite !Hk.
  assert (4 ≤ length (drop i eocd))%nat as Hl by (rewrite length_drop; lia).
  destruct (drop i eocd) as [|b0 [|b1 [|b2 [|b3 l]]]]; simpl in Hl; try lia. clear Hk Hl.
  cbn [or_ub lookup list_lookup mbind outcome_bind take].
  unfold eocd_magic.
  destruct (Z.eqb_spec b0 80) as [->|]; simpl; [|by rewrite bool_decide_false by congruence].
  destruct (Z.eqb_spec b1 75) as [->|]; simpl; [|by rewrite bool_decide_false by congruence].
  destruct (Z.eqb_spec b2 5) as [->|]; simpl; [|by rewrite bool_decide_false by congruence].
  f_equal. destruct (Z.eqb_spec b3 6) as [->|]; symmetry;
    [by apply bool_decide_eq_true|apply bool_decide_eq_false; congruence].
Qed.

Lemma later_marker_spec eocd i n : (i + n + 3 = length eocd)%nat →
  ∃ b, later_marker eocd i n = Ret b ∧
    (b = false ↔ ∀ j, (i ≤ j)%nat → take 4 (drop j eocd) ≠ eocd_magic).
Proof.
  revert i. induction n as [|n IH]; intros i Hl; cbn [later_marker].
  { exists false. split; [done|]. split; [|done]. intros _ j Hj E.
    apply (f_equal length) in E. rewrite length_take, length_drop in E.
    change (length eocd_magic) with 4%nat in E. lia. }
  rewrite marker_at_spec by lia. rewrite outcome_bind_ret_l.
  case_bool_decide as Em.
  { exists true. split; [done|]. split; [done|]. intros Hj. exfalso. by apply (Hj i). }
  destruct (IH (S i)) as (b & -> & Hb); [lia|]. exists b. split; [done|]. rewrite Hb.
  split; intros Hj j ?; [|apply Hj; lia]. destruct (decide (i = j)) as [<-|]; [done|].
  apply Hj. lia.
Qed.

Lemma read_eocd_spec p cs : pkg_ok p → 0 ≤ cs < 2 ^ 32 → 6 < cs →
  ∃ r p', read_eocd cs p = Ret (r, p') ∧ pkg_same p p' ∧
    match r with
    | Some (eocd, signed_len) => eocd_of (pkg_content p) cs eocd signed_len
    | None => pkg_reliable p → ∀ eocd signed_len, ¬ eocd_of (pkg_content p) cs eocd signed_len
    end.
Proof.
  intros Hp Hcs Hcs6. destruct (pkg_size p Hp) as [Hsz Hlt].
  unfold read_eocd, EOCD_HEADER_SIZE. unwrap.
  destruct (Z.ltb_spec (GetPackageSize p) (cs + 22)) as [Hs|Hs].
  { do 2 eexists. split; [done|]. split; [by apply pkg_same_refl|].
    intros _ eocd sl (pre & E & Hl & _). rewrite E, length_app in Hsz. lia. }
  unwrap.
  destruct (pkg_read (cs + 22) (GetPackageSize p - (cs + 22)) p Hp) as (r & p' & -> & Hsame & Hr);
    [unfold is_u64; lia..|]. rewrite outcome_bind_ret_l.
  destruct r as [bs|].
  2: { do 2 eexists. split; [done|]. split; [done|]. intros Hrel. exfalso. apply Hr.
       split; [done|lia]. }
  destruct Hr as [_ Ebs].
  set (pre := take (Z.to_nat (GetPackageSize p - (cs + 22))) (pkg_content p)).
  assert (pkg_content p = pre ++ bs) as Epre.
  { rewrite Ebs. unfold slice, pre.
    rewrite <-(take_drop (Z.to_nat (GetPackageSize p - (cs + 22))) (pkg_content p)) at 1. f_equal.
    symmetry. apply take_ge. rewrite length_drop. lia. }
  assert (Z.of_nat (length bs) = cs + 22) as Hlen by (rewrite Ebs; apply length_slice; lia).
  assert (Z.of_nat (length pre) = GetPackageSize p - (cs + 22)) as Hpl
    by (rewrite Hsz, Epre, length_app; lia).
  clearbody pre. clear Ebs.
  assert (∀ eocd sl, eocd_of (pkg_content p) cs eocd sl → eocd = bs ∧ take 4 bs = eocd_magic ∧
    ∀ i, (4 ≤ i)%nat → take 4 (drop i bs) ≠ eocd_magic) as Hinv.
  { intros eocd sl (pre' & E & Hl & _ & Hm & Hn). rewrite Epre in E.
    apply app_inj_2 in E as [_ <-]; [done|lia]. }
  rewrite marker_at_spec by lia. rewrite outcome_bind_ret_l, drop_0.
  case_bool_decide as Em; simpl negb.
  2: { do 2 eexists. split; [done|]. split; [done|]. intros _ eocd sl (_ & ? & _)%Hinv. done. }
  destruct (later_marker_spec bs 4 (Z.to_nat (cs + 22 - 3 - 4))) as (b & -> & Hb); [lia|].
  rewrite outcome_bind_ret_l. destruct b.
  - do 2 eexists. split; [done|]. split; [done|]. intros _ eocd sl (_ & _ & Hn)%Hinv.
    by apply Hb in Hn.
  - do 2 eexists. split; [done|]. split; [done|]. exists pre.
    split_and!; [done|done|lia|done|]. by apply Hb.
Qed.

(** The two phases together recognise exactly the signed files. *)
Lemma signed_file_inv file cs ss eocd signed_len :
  footer_of file cs ss → eocd_of file cs eocd signed_len →
  signed_file file (slice 0 signed_len file) (slice (cs + 22 - ss) (ss - 6) eocd).
Proof.
  intros (fpre & s0 & s1 & c0 & c1 & Ef & Ecs & Ess & Hss) (pre & Ee & Hel & Esl & Hm & Hn).
  set (footer := [s0; s1; 255; 255; c0; c1]).
  set (head := take 20 eocd). set (zs := slice 20 2 eocd).
  set (gap := slice 22 (cs - ss) eocd). set (sig := slice (cs + 22 - ss) (ss - 6) eocd).
  assert (eocd = head ++ zs ++ gap ++ sig ++ footer) as Esplit.
  { assert (slice (cs + 16) 6 eocd = footer) as <-.
    { rewrite Ee, <-(take_drop (Z.to_nat (cs + 16)) eocd), (assoc_L (++)) in Ef.
      apply app_inj_2 in Ef as [_ Ef]; [|rewrite length_drop; simpl; lia].
      unfold slice, footer. rewrite <-Ef. apply take_ge. rewrite length_drop. lia. }
    change head with (slice 0 20 eocd). subst zs gap sig.
    replace (cs + 22 - ss) with (22 + (cs - ss)) by lia.
    replace (cs + 16) with (22 + (cs - ss) + (ss - 6)) by lia.
    change 22 with (20 + 2). change 20 with (0 + 20) at 2 3 4 5.
    rewrite !slice_app by lia. rewrite <-(slice_all eocd) at 1. f_equal. lia. }
  assert (length head = 20%nat) as Hhl by (unfold head; rewrite length_take; lia).
  assert (Z.of_nat (length zs) = 2) as Hzl by (apply length_slice; lia).
  assert (Z.of_nat (length sig) = ss - 6) as Hsigl by (apply length_slice; lia).
  assert (Z.of_nat (length gap) = cs - ss) as Hgl by (apply length_slice; lia).
  clearbody head zs gap sig.
  destruct zs as [|z0 [|z1 [|]]]; simpl in Hzl; try lia. clear Hzl.
  assert (slice 0 signed_len file = pre ++ head) as ->.
  { rewrite Ee, Esplit, (assoc_L (++)). apply slice_app_l. rewrite length_app. lia. }
  apply (SignedFile _ _ _ pre head z0 z1 gap s0 s1 c0 c1).
  - done.
  - done.
  - rewrite Esplit, take_app_le in Hm by lia. done.
  - by rewrite Ee, Esplit, <-(assoc_L (++) pre).
  - rewrite !length_app. simpl. lia.
  - lia.
  - intros ->. simpl in Hsigl. lia.
  - change (∀ i, (4 ≤ i)%nat → take 4 (drop i (head ++ [z0; z1] ++ gap ++ sig ++ footer)) ≠ eocd_magic).
    by rewrite <-Esplit.
Qed.

Lemma signed_file_phases file signed sig : signed_file file signed sig →
  ∃ cs ss eocd signed_len, footer_of file cs ss ∧ eocd_of file cs eocd signed_len ∧
    slice 0 signed_len file = signed ∧ slice (cs + 22 - ss) (ss - 6) eocd = sig.
Proof.
  intros [body eocd z0 z1 gap s0 s1 c0 c1 -> Hel Hm comment Ef Hcl Hsl Hne Hn].
  exists (c0 + 256 * c1), (s0 + 256 * s1), (eocd ++ [z0; z1] ++ comment),
    (Z.of_nat (length body) + 20).
  assert (0 < Z.of_nat (length sig)) by (destruct sig; simpl; [done|lia]).
  subst comment. rewrite !length_app in Hcl. simpl in Hcl. split_and!.
  - exists (body ++ eocd ++ [z0; z1] ++ gap ++ sig), s0, s1, c0, c1.
    split_and!; [|done|done|lia|lia]. rewrite Ef. by rewrite <-!(assoc_L (++)).
  - exists body. split_and!; [by rewrite Ef, <-!(assoc_L (++))| |done| |done].
    + rewrite !length_app. simpl. lia.
    + rewrite take_app_le by lia. done.
  - rewrite Ef. apply slice_app_l. rewrite length_app. lia.
  - rewrite <-Hcl, <-Hsl.
    replace (eocd ++ [z0; z1] ++ gap ++ sig ++ [s0; s1; 255; 255; c0; c1])
      with ((eocd ++ [z0; z1] ++ gap) ++ (sig ++ [s0; s1; 255; 255; c0; c1]))
      by (by rewrite <-!(assoc_L (++))).
    unfold slice. rewrite drop_app_length' by (rewrite !length_app; simpl; lia).
    apply take_app_length'. lia.
Qed.

(** ** Hashing *)

Lemma bound_hashers_streaming need : streaming (bound_hashers need).
Proof.
  split; intros; destruct need as [[] []]; unfold run_hashers, bound_hashers; simpl;
    rewrite ?SHA1_Update_nil, ?SHA256_Update_nil, ?SHA1_Update_app, ?SHA256_Update_app;
    by destruct s.
Qed.

Lemma run_bound_hashers need bytes s :
  run_hashers (bound_hashers need) bytes s =
    (if need.1 then SHA1_Update bytes s.1 else s.1,
     if need.2 then SHA256_Update bytes s.2 else s.2).
Proof. by destruct need as [[] []], s. Qed.

Lemma needed_hashes_spec keys key : key ∈ keys →
  (hash_len key = SHA_DIGEST_LENGTH → (needed_hashes keys).1 = true) ∧
  (hash_len key = SHA256_DIGEST_LENGTH → (needed_hashes keys).2 = true).
Proof.
  unfold needed_hashes. generalize (false, false). set (f := λ _ _, _).
  assert (∀ keys need, (need.1 = true → (foldl f need keys).1 = true) ∧
    (need.2 = true → (foldl f need keys).2 = true)) as Hmono.
  { clear. induction keys as [|k keys IH]; intros need; [done|]. simpl.
    destruct (IH (f need k)) as [H1 H2]. split; intros Hn; [apply H1|apply H2];
      unfold f; by repeat case_bool. }
  intros need Hin. revert need. induction Hin as [key keys|key k keys Hin IH]; intros need.
  - simpl. split; intros Hl; apply Hmono; unfold f; rewrite Hl; done.
  - simpl. apply IH.
Qed.

Lemma hash_loop_spec {S} (R : Prop) fuel hashers signed_len so_far (s0 s : S) p :
  pkg_ok p → 0 ≤ so_far ≤ signed_len → signed_len ≤ GetPackageSize p → streaming hashers →
  (signed_len - so_far + (16 * MiB - 1)) / (16 * MiB) < Z.of_nat fuel →
  (R → pkg_reliable p) →
  (R → s = run_hashers hashers (slice 0 so_far (pkg_content p)) s0) →
  ∃ s' p', hash_loop fuel hashers signed_len so_far s p = Ret (s', p') ∧ pkg_same p p' ∧
    (R → s' = run_hashers hashers (slice 0 signed_len (pkg_content p)) s0).
Proof.
  revert so_far s p. induction fuel as [|fuel IH]; intros so_far s p Hp Hsf Hfit Hst Hf HR Hs.
  { pose proof (chunk_fuel_pos (signed_len - so_far) (16 * MiB)). unfold MiB in *. lia. }
  destruct (pkg_size p Hp) as [Hsz Hlt]. simpl.
  destruct (Z.ltb_spec so_far signed_len) as [Hl|Hge].
  2: { do 2 eexists. split; [done|]. split; [by apply pkg_same_refl|].
       by replace signed_len with so_far by lia. }
  unfold MiB in *. unwrap. remember (Z.min (signed_len - so_far) (16 * (1024 * 1024))) as n eqn:Hn.
  destruct (pkg_hash hashers so_far n s p Hp) as (ok & s1 & p1 & -> & Hsame & Hok);
    [unfold is_u64; lia..|done|]. simpl. unwrap.
  pose proof Hsame as (Hp1 & Hc & Hrel). destruct (pkg_size p1 Hp1) as [Hsz1 _].
  destruct (IH (so_far + n) s1 p1) as (s' & p' & E & Hsame' & Hs');
    [done|lia|rewrite Hsz1, Hc; lia|done| |tauto| |].
  - replace (signed_len - (so_far + n)) with (signed_len - so_far - n) by lia.
    apply chunk_fuel_step; [lia|lia|done|lia].
  - intros r. specialize (HR r). specialize (Hs r). destruct ok.
    + rewrite Hc, <-slice_app, (proj2 Hst), <-Hs by lia. by destruct Hok as [_ ->].
    + exfalso. apply Hok. split; [done|lia].
  - rewrite E. do 2 eexists. split; [done|]. split; [by eapply pkg_same_trans|].
    by rewrite <-Hc.
Qed.

(** With a package that does not fail, every key sees the digest of exactly
    the signed bytes. *)
Lemma hash_package_spec keys signed_len p :
  pkg_ok p → 0 ≤ signed_len ≤ GetPackageSize p →
  ∃ h1 h256 p', hash_package keys signed_len p = Ret (h1, h256, p') ∧ pkg_same p p' ∧
    (pkg_reliable p → ∀ key sig_der, key ∈ keys →
      accepts_digests h1 h256 sig_der key =
      accepts key (slice 0 signed_len (pkg_content p)) sig_der).
Proof.
  intros Hp Hl. unfold hash_package.
  destruct (hash_loop_spec (pkg_reliable p) (Z.to_nat (signed_len / (16 * MiB) + 2))
    (bound_hashers (needed_hashes keys)) signed_len 0 (SHA1_Init, SHA256_Init)
    (SHA1_Init, SHA256_Init) p) as (s' & p' & -> & Hsame & Hs);
    [done|lia|lia|apply bound_hashers_streaming| |done| |].
  - rewrite Z.sub_0_r. apply chunk_fuel_start; [done|lia].
  - intros _. by rewrite slice_0, (proj1 (bound_hashers_streaming _)).
  - simpl. do 3 eexists. split; [done|]. split; [done|]. intros Hr key sig_der Hin.
    rewrite (Hs Hr), run_bound_hashers. destruct (needed_hashes_spec _ _ Hin) as [H1' H2'].
    unfold accepts, accepts_digests, SHA_DIGEST_LENGTH, SHA256_DIGEST_LENGTH in *.
    destruct (key_type key), (rsa key), (ec key); try done;
      destruct (Z.eqb_spec (hash_len key) 20) as [E|E]; rewrite ?H1' by done; try done;
      destruct (Z.eqb_spec (hash_len key) 32) as [E'|E']; rewrite ?H2' by done; try done.
Qed.

(** ** The key loop *)

Lemma check_keys_spec keys h1 h256 sig_der : Forall key_ok keys →
  check_keys keys h1 h256 sig_der =
    Ret (if existsb (accepts_digests h1 h256 sig_der) keys
         then VERIFY_SUCCESS else VERIFY_FAILURE).
Proof.
  induction 1 as [|key keys Hk Hks IH]; [done|]. simpl. rewrite IH.
  unfold key_ok, accepts_digests in *. unfold SHA_DIGEST_LENGTH, SHA256_DIGEST_LENGTH.
  destruct (key_type key), Hk as [k ->]; simpl;
    destruct (Z.eqb_spec (hash_len key) 20) as [E|_]; try rewrite E;
    try (destruct (Z.eqb_spec (hash_len key) 32) as [E'|_]; try rewrite E'); simpl; try done.
  all: try (by case_bool).
Qed.

(** ** The whole function *)

Lemma footer_of_bounds file cs ss : Forall is_byte file → footer_of file cs ss →
  0 ≤ cs < 2 ^ 32 ∧ 6 < ss ≤ cs.
Proof.
  intros Hb (pre & s0 & s1 & c0 & c1 & -> & -> & -> & Hss).
  apply Forall_app in Hb as [_ Hb]. rewrite !Forall_cons in Hb. unfold is_byte in Hb. lia.
Qed.

Lemma footer_of_inj file cs ss cs' ss' :
  footer_of file cs ss → footer_of file cs' ss' → cs = cs' ∧ ss = ss'.
Proof.
  intros (pre & s0 & s1 & c0 & c1 & E & -> & -> & _)
    (pre' & t0 & t1 & d0 & d1 & E' & -> & -> & _).
  rewrite E in E'. apply app_inj_2 in E' as [_ [= -> -> -> ->]]; done.
Qed.

Lemma eocd_of_inj file cs eocd eocd' sl sl' :
  eocd_of file cs eocd sl → eocd_of file cs eocd' sl' → eocd = eocd' ∧ sl = sl'.
Proof.
  intros (pre & E & Hl & -> & _) (pre' & E' & Hl' & -> & _).
  rewrite E in E'. apply app_inj_2 in E' as [-> ->]; [done|lia].
Qed.

(** The signed part and the signature block are determined by the file. *)
Lemma authentic_phases file keys cs ss eocd signed_len :
  footer_of file cs ss → eocd_of file cs eocd signed_len →
  authentic file keys ↔
  ∃ sig_der key, pkcs7_signature (slice (cs + 22 - ss) (ss - 6) eocd) = Some sig_der ∧
    key ∈ keys ∧ accepts key (slice 0 signed_len file) sig_der = true.
Proof.
  intros Hf He. split.
  - intros (signed & sig & sig_der & key & Hsf & Hsig & Hin & Hacc).
    destruct (signed_file_phases _ _ _ Hsf) as (cs' & ss' & eocd' & sl' & Hf' & He' & <- & <-).
    destruct (footer_of_inj _ _ _ _ _ Hf Hf') as [-> ->].
    destruct (eocd_of_inj _ _ _ _ _ _ He He') as [-> ->]. by exists sig_der, key.
  - intros (sig_der & key & Hsig & Hin & Hacc). unfold authentic.
    do 2 eexists. exists sig_der, key. split; [by apply (signed_file_inv _ _ _ _ _ Hf He)|done].
Qed.

Lemma verify_file_spec p keys :
  pkg_ok p → Forall is_byte (pkg_content p) → Forall key_ok keys →
  ∃ r p', verify_file p keys = Ret (r, p') ∧ pkg_same p p' ∧
    (r = VERIFY_SUCCESS ∨ r = VERIFY_FAILURE) ∧
    (pkg_reliable p → r = VERIFY_SUCCESS ↔ authentic (pkg_content p) keys).
Proof.
  intros Hp Hb Hk. unfold verify_file.
  destruct (read_footer_spec p Hp Hb) as (r & p1 & -> & Hs1 & Hr). rewrite outcome_bind_ret_l.
  destruct r as [[cs ss]|].
  2: { do 2 eexists. split; [done|]. split; [done|]. split; [by right|]. intros Hrel.
       split; [done|]. intros (signed & sig & _ & _ & Hsf & _).
       apply signed_file_phases in Hsf as (cs & ss & _ & _ & Hf & _).
       by destruct (Hr Hrel cs ss). }
  destruct (footer_of_bounds _ _ _ Hb Hr) as [Hcs Hss]. pose proof Hs1 as (Hp1 & Hc1 & Hrel1).
  destruct (read_eocd_spec p1 cs) as (r & p2 & -> & Hs2 & Hr2); [done|lia|lia|].
  rewrite outcome_bind_ret_l. rewrite Hc1 in Hr2.
  destruct r as [[eocd signed_len]|].
  2: { do 2 eexists. split; [done|]. split; [by eapply pkg_same_trans|]. split; [by right|].
       intros Hrel. split; [done|]. intros (signed & sig & _ & _ & Hsf & _).
       apply signed_file_phases in Hsf as (cs' & ss' & eocd & sl & Hf & He & _).
       destruct (footer_of_inj _ _ _ _ _ Hr Hf) as [-> _].
       by destruct (Hr2 (Hrel1 Hrel) eocd sl). }
  rename Hr2 into He. pose proof (authentic_phases _ keys _ _ _ _ Hr He) as Hauth.
  pose proof He as (pre & Epre & Hel & Esl & _).
  pose proof Hs2 as (Hp2 & Hc2 & Hrel2). destruct (pkg_size p2 Hp2) as [Hsz2 _].
  destruct (hash_package_spec keys signed_len p2) as (h1 & h256 & p3 & -> & Hs3 & Hh);
    [done|rewrite Hsz2, Hc2, Hc1, Epre, length_app; lia|].
  rewrite outcome_bind_ret_l. unfold signature_der, FOOTER_SIZE, EOCD_HEADER_SIZE. unwrap.
  assert (pkg_same p p3) as Hs by (by do 2 (eapply pkg_same_trans; [done|])).
  rewrite read_pkcs7_refines; [|lia|lia|lia|lia|by rewrite Epre in Hb; apply Forall_app in Hb as [_ ?]].
  rewrite outcome_bind_ret_l.
  change (take _ (drop _ eocd)) with (slice (cs + 22 - ss) (ss - 6) eocd).
  destruct (pkcs7_signature _) as [sig_der|] eqn:Esig.
  2: { do 2 eexists. split; [done|]. split; [done|]. split; [by right|]. intros _.
       split; [done|]. rewrite Hauth. by intros (? & ? & ? & _). }
  rewrite check_keys_spec by done. rewrite outcome_bind_ret_l.
  do 2 eexists. split; [done|]. split; [done|]. split; [case_bool; [by left|by right]|].
  intros Hrel. rewrite Hauth. specialize (Hh (Hrel2 (Hrel1 Hrel))). rewrite Hc2, Hc1 in Hh.
  split.
  - destruct (existsb _ keys) eqn:E; [|done]. intros _.
    apply existsb_exists in E as (key & Hin%list_elem_of_In & Hacc). exists sig_der, key.
    split; [done|]. split; [done|]. by rewrite <-Hh.
  - intros (sig_der' & key & [= <-] & Hin & Hacc).
    rewrite (proj2 (existsb_exists _ _)); [done|]. exists key.
    split; [by apply list_elem_of_In|]. by rewrite Hh.
Qed.

(** C1. On a package whose reads do not fail, [verify_file] answers success exactly
    when the file is laid out as a signed package and one of the keys attests
    the digest of everything before the comment length.  In particular it
    returns, and it has no undefined behaviour. *)
Theorem verify_file_correct p keys :
  pkg_ok p → pkg_reliable p → Forall is_byte (pkg_content p) → Forall key_ok keys →
  ∃ r p', verify_file p keys = Ret (r, p') ∧
    (r = VERIFY_SUCCESS ∨ r = VERIFY_FAILURE) ∧
    (r = VERIFY_SUCCESS ↔ authentic (pkg_content p) keys).
Proof.
  intros Hp Hrel Hb Hk. destruct (verify_file_spec p keys) as (r & p' & E & _ & Hr & Hauth);
    [done..|]. exists r, p'. split_and!; [done|done|]. by apply Hauth.
Qed.

(** C3. Whatever the file and however its reads fail, [verify_file] returns one of
    its two codes, without undefined behaviour, and leaves the package usable. *)
Theorem verify_file_safe p keys :
  pkg_ok p → Forall is_byte (pkg_content p) → Forall key_ok keys →
  ∃ r p', verify_file p keys = Ret (r, p') ∧ (r = VERIFY_SUCCESS ∨ r = VERIFY_FAILURE) ∧
    pkg_ok p' ∧ pkg_content p' = pkg_content p.
Proof.
  intros Hp Hb Hk. destruct (verify_file_spec p keys) as (r & p' & E & (? & ? & _) & Hr & _);
    [done..|]. by exists r, p'.
Qed.
End VerifyProofs.

(** ** Packages as the signing tool writes them *)

(** [signed] with a comment that holds the PKCS#7 block and the footer. *)
Definition sign_package (signed : list Z) (m : pkcs7) : list Z :=
  let n := Z.of_nat (length (enc_pkcs7 m)) + 6 in
  let lo := n mod 256 in let hi := n / 256 in
  signed ++ [lo; hi] ++ enc_pkcs7 m ++ [lo; hi; 0xff; 0xff; lo; hi].

Definition no_later_magic (tail : list Z) : bool :=
  forallb (λ i, negb (bool_decide (take 4 (drop i tail) = eocd_magic))) (seq 4 (length tail)).

Lemma no_later_magic_spec tail : no_later_magic tail = true →
  ∀ i, (4 ≤ i)%nat → take 4 (drop i tail) ≠ eocd_magic.
Proof.
  unfold no_later_magic. rewrite forallb_forall. intros Hall i Hi.
  destruct (decide (i < length tail)%nat) as [Hl|Hl].
  - specialize (Hall i). rewrite <-list_elem_of_In, elem_of_seq in Hall.
    specialize (Hall ltac:(lia)). apply negb_true_iff, bool_decide_eq_false in Hall. done.
  - by rewrite drop_ge by lia.
Qed.

Lemma sign_package_layout body eocd m :
  length eocd = 20%nat → take 4 eocd = eocd_magic →
  no_later_magic (drop (length body) (sign_package (body ++ eocd) m)) = true →
  signed_file (sign_package (body ++ eocd) m) (body ++ eocd) (enc_pkcs7 m).
Proof.
  intros Hl Hm Hn. unfold sign_package in *.
  set (n := Z.of_nat (length (enc_pkcs7 m)) + 6) in *.
  pose proof (Z.div_mod n 256).
  assert (n = Z.of_nat (length (enc_pkcs7 m)) + 6) as En by done.
  eapply (SignedFile _ _ _ body eocd _ _ [] _ _ _ _); [done|done|done|reflexivity| | | |].
  - rewrite !length_app. cbn [length]. lia.
  - lia.
  - unfold enc_pkcs7, tlv. done.
  - apply no_later_magic_spec. rewrite <-(assoc_L (++)), drop_app_length in Hn. done.
Qed.

(** C4. Every package that the signing tool can write, signed with a key that is in the list,
    verifies: an EOCD record without a comment of its own gets one that holds the PKCS#7
    block and the footer, the magic of the record does not occur in what follows it, the
    fields of the block in front of the signature that are skipped are constructed, the
    signature is not empty, and the package can be read. *)
Theorem verify_file_signed `{Crypto, !CryptoLaws} `{PackageLaws P} p keys body eocd m key :
  pkg_ok p → pkg_reliable p → Forall key_ok keys → Forall is_byte (pkg_content p) →
  pkg_content p = sign_package (body ++ eocd) m →
  length eocd = 20%nat → take 4 eocd = eocd_magic →
  no_later_magic (drop (length body) (pkg_content p)) = true →
  Forall (λ e : element, is_constructed e.1 = true) (extras m) → signature_value m ≠ [] →
  key ∈ keys → accepts key (body ++ eocd) (signature_value m) = true →
  ∃ p', verify_file p keys = Ret (VERIFY_SUCCESS, p').
Proof.
  intros Hp Hrel Hk Hb Hc Hl Hm Hn Hex Hsig Hin Hacc.
  destruct (verify_file_spec p keys) as (r & p' & E & _ & _ & Hauth); [done..|].
  exists p'. rewrite E. do 2 f_equal. apply (Hauth Hrel).
  rewrite Hc in *. exists (body ++ eocd), (enc_pkcs7 m), (signature_value m), key.
  pose proof (sign_package_layout body eocd m Hl Hm Hn) as Hsf.
  split; [done|]. split; [|done]. apply pkcs7_signature_enc; [|done|done].
  destruct (pkg_size p Hp) as [Hsz Hlt]. rewrite Hc in Hsz.
  destruct (signed_file_phases _ _ _ Hsf) as (cs & ss & eo & sl & Hf & He & _ & <-).
  pose proof (footer_of_bounds _ _ _ Hb Hf). destruct He as (pre & _ & Hel & _).
  rewrite length_slice by lia. lia.
Qed.

(** ** A concrete package *)

(** A toy cryptosystem: the digest is the sum of the bytes modulo 256, a
    signature is the byte 1 followed by the digest. *)
Definition toy_digest (bytes : list Z) : list Z := [foldr Z.add 0 bytes mod 256].

Definition toy_crypto : Crypto := {|
  SHA_CTX := list Z; SHA1_Init := []; SHA1_Update bytes c := c ++ bytes; SHA1_Final := toy_digest;
  SHA256_CTX := list Z; SHA256_Init := []; SHA256_Update bytes c := c ++ bytes;
  SHA256_Final := toy_digest;
  RSA := unit; EC_KEY := unit; NID_sha1 := 64; NID_sha256 := 672;
  RSA_verify _ hash _ sig _ := if bool_decide (sig = 1 :: hash) then 1 else 0;
  ECDSA_verify _ hash _ sig _ := if bool_decide (sig = 1 :: hash) then 1 else 0;
|}.

Lemma toy_crypto_laws : @CryptoLaws toy_crypto.
Proof. by split; intros; simpl; rewrite ?(right_id_L [] (++)), ?(assoc_L (++)). Qed.

Definition toy_keys : list (@Certificate toy_crypto) :=
  [@mkCertificate toy_crypto 20 KEY_TYPE_EC None (Some ());
   @mkCertificate toy_crypto 32 KEY_TYPE_RSA (Some ()) None].

Definition toy_body : list Z := [10; 20; 30].
Definition toy_eocd : list Z := eocd_magic ++ replicate 16 0.

Definition toy_pkcs7 (signature : list Z) : pkcs7 := {|
  content_type := (6, [42]); version := (2, [1]); digest_algorithms := (49, []);
  encap_content := (48, [6; 1; 7]); extras := [];
  si_version := (2, [1]); signer_id := (48, [9]); digest_algorithm := (48, []);
  signature_algorithm := (48, []);
  signature_value := signature; attributes := [];
|}.

Definition toy_package : @MemoryPackage no_zip :=
  let file := sign_package (toy_body ++ toy_eocd) (toy_pkcs7 (1 :: toy_digest (toy_body ++ toy_eocd))) in
  @mkMemoryPackage no_zip file (Z.of_nat (length file)) "" None.

Lemma toy_keys_ok : Forall (@key_ok toy_crypto) toy_keys.
Proof. repeat constructor; by eexists. Qed.

Lemma toy_package_bytes : Forall is_byte (mem_addr_ toy_package).
Proof. apply (bool_decide_eq_true_1 _). vm_compute. reflexivity. Qed.

Lemma verify_file_signed_witness :
  ∃ p', verify_file toy_package toy_keys = Ret (VERIFY_SUCCESS, p').
Proof.
  apply (@verify_file_signed toy_crypto toy_crypto_laws _ _ MemoryPackage_laws toy_package toy_keys
    toy_body toy_eocd (toy_pkcs7 (1 :: toy_digest (toy_body ++ toy_eocd)))
    (@mkCertificate toy_crypto 32 KEY_TYPE_RSA (Some ()) None)).
  - split; [reflexivity|done].
  - exact I.
  - apply toy_keys_ok.
  - apply toy_package_bytes.
  - reflexivity.
  - reflexivity.
  - reflexivity.
  - vm_compute. reflexivity.
  - constructor.
  - done.
  - right. left.
  - vm_compute. reflexivity.
Defined.

Lemma verify_file_correct_witness :
  ∃ r p', verify_file toy_package toy_keys = Ret (r, p') ∧
    (r = VERIFY_SUCCESS ∨ r = VERIFY_FAILURE) ∧
    (r = VERIFY_SUCCESS ↔ authentic (mem_addr_ toy_package) toy_keys).
Proof.
  apply (@verify_file_correct toy_crypto toy_crypto_laws _ _ MemoryPackage_laws toy_package toy_keys);
    [by split|done|apply toy_package_bytes|apply toy_keys_ok].
Defined.

Lemma verify_file_safe_witness :
  ∃ r p', verify_file toy_package toy_keys = Ret (r, p') ∧
    (r = VERIFY_SUCCESS ∨ r = VERIFY_FAILURE) ∧ MemoryPackage_ok p' ∧
    mem_addr_ p' = mem_addr_ toy_package.
Proof.
  apply (@verify_file_safe toy_crypto toy_crypto_laws _ _ MemoryPackage_laws toy_package toy_keys);
    [by split|apply toy_package_bytes|apply toy_keys_ok].
Defined.

(** ** A failed read is not noticed

    A package whose signature covers the empty message only. *)
Definition unsigned_file : list Z :=
  sign_package ([66; 66; 66] ++ toy_eocd) (toy_pkcs7 (1 :: toy_digest [])).

Definition file_package (fail_at : option nat) : @FilePackage (one_file unsigned_file fail_at) no_zip :=
  @mkFilePackage (one_file unsigned_file fail_at) no_zip fail_at
    (Z.of_nat (length unsigned_file)) "" None.

Definition verify_result (fail_at : option nat) : option Z :=
  match @verify_file toy_crypto _ (@FilePackage_interface (one_file unsigned_file fail_at) no_zip)
          (file_package fail_at) toy_keys with
  | Ret (r, _) => Some r
  | _ => None
  end.

(** [verify_file] drops the result of [UpdateHashAtOffset]: when the read of
    the hashing phase fails, the digest covers fewer bytes than the signed
    part, and a file the keys do not attest is reported as verified. *)
Theorem verify_file_ignores_read_errors :
  verify_result None = Some VERIFY_FAILURE ∧ verify_result (Some 2%nat) = Some VERIFY_SUCCESS.
Proof. split; vm_compute; reflexivity. Qed.
