(* ===== verification/Keys.v ===== *)
(** * Certificates, the key store and the entry point

    Model of the key-loading functions of
    [src/miupdate/recovery_otaverifier/install/verifier.cpp]
    ([CheckRSAKey], [CheckECKey], [LoadCertificateFromBuffer],
    [LoadKeysFromZipfile]) and of [verify_otapackage] in
    [otapackage_verifier.cpp].  BoringSSL's X.509 parsing and libziparchive's
    iteration are classes; the iteration of an archive is the list of entries
    that successive calls of [Next] return and the status that ends it. *)
From S2P Require Import Prelude Asn1 Package Verifier.
From stdpp Require Import strings.
#[local] Open Scope Z_scope.
#[local] Open Scope mach_scope.

(** The accessors of BoringSSL the code calls, and its numeric identifiers. *)
Class X509Lib `{Crypto} := {
  X509 : Type;
  EVP_PKEY : Type;
  EC_GROUP : Type;
  PEM_read_bio_X509 : list Z → option X509;
  X509_get_signature_nid : X509 → Z;
  X509_get_pubkey : X509 → option EVP_PKEY;
  EVP_PKEY_id : EVP_PKEY → Z;
  EVP_PKEY_get1_RSA : EVP_PKEY → option RSA;
  EVP_PKEY_get1_EC_KEY : EVP_PKEY → option EC_KEY;
  (** [BN_num_bits] of the modulus and [BN_get_word] of the exponent *)
  RSA_modulus_bits : RSA → Z;
  RSA_exponent_word : RSA → Z;
  EC_KEY_get0_group : EC_KEY → option EC_GROUP;
  EC_GROUP_get_degree : EC_GROUP → Z;
  NID_md5WithRSA : Z;
  NID_md5WithRSAEncryption : Z;
  NID_sha1WithRSA : Z;
  NID_sha1WithRSAEncryption : Z;
  NID_sha256WithRSAEncryption : Z;
  NID_ecdsa_with_SHA256 : Z;
  EVP_PKEY_RSA : Z;
  EVP_PKEY_EC : Z;
}.

(** libziparchive, for the certificate archive. *)
Class ZipReader := {
  zip_handle : Type;
  zip_entry : Type;
  OpenArchive : string → Z * zip_handle;
  StartIteration : zip_handle → string → string → Z;
  (** what the calls of [Next] return: the entries, then a non-zero status *)
  NextEntries : zip_handle → list zip_entry * Z;
  uncompressed_length : zip_entry → Z;
  ExtractToMemory : zip_handle → zip_entry → Z → Z * list Z;
}.

Section Keys.
Context `{X509Lib}.

(** @src src/miupdate/recovery_otaverifier/install/verifier.cpp:366-387 CheckRSAKey *)
Definition CheckRSAKey (key : option RSA) : bool :=
  match key with
  | None => false
  | Some key =>
      let modulus_bits := RSA_modulus_bits key in
      if negb (modulus_bits =? 2048) && negb (modulus_bits =? 4096) then false
      else
        let exponent := RSA_exponent_word key in
        if negb (exponent =? 3) && negb (exponent =? 65537) then false else true
  end.

(** @src src/miupdate/recovery_otaverifier/install/verifier.cpp:389-406 CheckECKey *)
Definition CheckECKey (ec_key : option EC_KEY) : bool :=
  match ec_key with
  | None => false
  | Some ec_key =>
      match EC_KEY_get0_group ec_key with
      | None => false
      | Some ec_group => if negb (EC_GROUP_get_degree ec_group =? 256) then false else true
      end
  end.

(** @src src/miupdate/recovery_otaverifier/install/verifier.cpp:419-436 LoadCertificateFromBuffer (hash)
    The digest size the certificate's signature algorithm selects. *)
Definition hash_len_of_nid (nid : Z) : option Z :=
  if (nid =? NID_md5WithRSA) || (nid =? NID_md5WithRSAEncryption) ||
     (nid =? NID_sha1WithRSA) || (nid =? NID_sha1WithRSAEncryption)
  then Some SHA_DIGEST_LENGTH
  else if (nid =? NID_sha256WithRSAEncryption) || (nid =? NID_ecdsa_with_SHA256)
  then Some SHA256_DIGEST_LENGTH
  else None.

(** @src src/miupdate/recovery_otaverifier/install/verifier.cpp:408-468 LoadCertificateFromBuffer
    The result and the updated [*cert], which is written before the key is
    validated. *)
Definition LoadCertificateFromBuffer (pem_content : list Z) (cert : Certificate)
    : bool * Certificate :=
  match PEM_read_bio_X509 pem_content with
  | None => (false, cert)
  | Some x509 =>
      match hash_len_of_nid (X509_get_signature_nid x509) with
      | None => (false, cert)
      | Some len =>
          let cert := mkCertificate _ len (key_type cert) (rsa cert) (ec cert) in
          match X509_get_pubkey x509 with
          | None => (false, cert)
          | Some public_key =>
              let key_type := EVP_PKEY_id public_key in
              if key_type =? EVP_PKEY_RSA then
                let cert := mkCertificate _ len KEY_TYPE_RSA (EVP_PKEY_get1_RSA public_key) None in
                (CheckRSAKey (rsa cert), cert)
              else if key_type =? EVP_PKEY_EC then
                let cert := mkCertificate _ len KEY_TYPE_EC None (EVP_PKEY_get1_EC_KEY public_key) in
                (CheckECKey (ec cert), cert)
              else (false, cert)
          end
      end
  end.

Context `{ZipReader}.

(** The loop over [Next]; [None] stands for [return {}]. *)
Fixpoint load_entries (handle : zip_handle) (entries : list zip_entry)
    (result : list Certificate) : option (list Certificate) :=
  match entries with
  | [] => Some result
  | entry :: entries' =>
      let '(extract_status, pem_content) := ExtractToMemory handle entry (uncompressed_length entry) in
      if negb (extract_status =? 0) then None
      else
        match LoadCertificateFromBuffer pem_content (mkCertificate _ 0 KEY_TYPE_RSA None None) with
        | (false, _) => None
        | (true, cert) => load_entries handle entries' (result ++ [cert])
        end
  end.

(** @src src/miupdate/recovery_otaverifier/install/verifier.cpp:314-352 IterateZipEntriesAndSearchForKeys *)
Definition IterateZipEntriesAndSearchForKeys (handle : zip_handle) : list Certificate :=
  if negb (StartIteration handle "" "x509.pem" =? 0) then []
  else
    let '(entries, iter_status) := NextEntries handle in
    match load_entries handle entries [] with
    | None => []
    | Some result => if negb (iter_status =? -1) then [] else result
    end.

(** @src src/miupdate/recovery_otaverifier/install/verifier.cpp:354-364 LoadKeysFromZipfile *)
Definition LoadKeysFromZipfile (zip_name : string) : list Certificate :=
  let '(open_status, handle) := OpenArchive zip_name in
  if negb (open_status =? 0) then [] else IterateZipEntriesAndSearchForKeys handle.

(** @src src/miupdate/recovery_otaverifier/otapackage_verifier.cpp:25-25 CERTIFICATE_ZIP_FILE *)
Definition CERTIFICATE_ZIP_FILE : string := "/system/etc/security/otacerts.zip".

Context `{FileSystem, ZipArchive}.

(** @src src/miupdate/recovery_otaverifier/otapackage_verifier.cpp:20-45 verify_otapackage *)
Definition verify_otapackage (otaPackagePath : string) : outcome Z :=
  let file_package := CreateFilePackage otaPackagePath in
  let loaded_keys := LoadKeysFromZipfile CERTIFICATE_ZIP_FILE in
  match loaded_keys with
  | [] => Ret (-2)
  | _ =>
      match file_package with
      | None => Ret (-3)
      | Some package =>
          '(err, _) ← verify_file package loaded_keys;
          if negb (err =? VERIFY_SUCCESS) then Ret (-1) else Ret 0
      end
  end.
End Keys.

(** ** What a loaded key is *)

Section KeyProofs.
Context `{X509Lib}.

(** A key the policy allows: a supported digest, and an RSA key of 2048 or
    4096 bits with exponent 3 or 65537, or an EC key over a 256-bit field. *)
Definition strong_key (cert : Certificate) : Prop :=
  (hash_len cert = 20 ∨ hash_len cert = 32) ∧
  match key_type cert with
  | KEY_TYPE_RSA => ∃ k, rsa cert = Some k ∧ ec cert = None ∧
      (RSA_modulus_bits k = 2048 ∨ RSA_modulus_bits k = 4096) ∧
      (RSA_exponent_word k = 3 ∨ RSA_exponent_word k = 65537)
  | KEY_TYPE_EC => ∃ k g, ec cert = Some k ∧ rsa cert = None ∧
      EC_KEY_get0_group k = Some g ∧ EC_GROUP_get_degree g = 256
  end.

Lemma strong_key_ok cert : strong_key cert → key_ok cert.
Proof.
  intros [_ Hk]. unfold key_ok. destruct (key_type cert).
  - destruct Hk as (k & -> & _). by eexists.
  - destruct Hk as (k & g & -> & _). by eexists.
Qed.

Lemma CheckRSAKey_spec key : CheckRSAKey key = true ↔
  ∃ k, key = Some k ∧ (RSA_modulus_bits k = 2048 ∨ RSA_modulus_bits k = 4096) ∧
    (RSA_exponent_word k = 3 ∨ RSA_exponent_word k = 65537).
Proof.
  unfold CheckRSAKey. destruct key as [k|]; [|split; [done|by intros (? & [=] & _)]].
  destruct (Z.eqb_spec (RSA_modulus_bits k) 2048), (Z.eqb_spec (RSA_modulus_bits k) 4096),
    (Z.eqb_spec (RSA_exponent_word k) 3), (Z.eqb_spec (RSA_exponent_word k) 65537); simpl;
    (split; [intros Ht; first [done|exists k; tauto]|intros (? & [= <-] & ? & ?); first [done|tauto]]).
Qed.

Lemma CheckECKey_spec key : CheckECKey key = true ↔
  ∃ k g, key = Some k ∧ EC_KEY_get0_group k = Some g ∧ EC_GROUP_get_degree g = 256.
Proof.
  unfold CheckECKey. destruct key as [k|]; [|split; [done|by intros (? & ? & [=] & _)]].
  destruct (EC_KEY_get0_group k) as [g|] eqn:E.
  - destruct (Z.eqb_spec (EC_GROUP_get_degree g) 256); simpl.
    + split; [|done]. intros _. by exists k, g.
    + split; [done|]. intros (? & g' & [= <-] & E' & ?). rewrite E in E'. naive_solver.
  - split; [done|]. intros (? & ? & [= <-] & ? & _). congruence.
Qed.

Lemma hash_len_of_nid_spec nid len : hash_len_of_nid nid = Some len → len = 20 ∨ len = 32.
Proof.
  unfold hash_len_of_nid, SHA_DIGEST_LENGTH, SHA256_DIGEST_LENGTH. repeat case_bool; intros [= <-];
    [by left|by right].
Qed.

Lemma LoadCertificateFromBuffer_strong pem cert0 cert :
  LoadCertificateFromBuffer pem cert0 = (true, cert) → strong_key cert.
Proof.
  unfold LoadCertificateFromBuffer. destruct (PEM_read_bio_X509 pem) as [x|]; [|done].
  destruct (hash_len_of_nid _) as [len|] eqn:El; [|done]. apply hash_len_of_nid_spec in El.
  destruct (X509_get_pubkey x) as [k|]; [|done].
  case_bool; [|case_bool; [|done]]; cbn [rsa ec]; intros [= Hc <-].
  - apply CheckRSAKey_spec in Hc as (r & -> & ? & ?). split; [done|]. simpl.
    by exists r.
  - apply CheckECKey_spec in Hc as (r & g & -> & ? & ?). split; [done|]. simpl. by exists r, g.
Qed.

Context `{ZipReader}.

Lemma load_entries_strong handle entries acc result :
  Forall strong_key acc → load_entries handle entries acc = Some result →
  Forall strong_key result ∧ length result = (length acc + length entries)%nat.
Proof.
  revert acc. induction entries as [|e entries IH]; intros acc Hacc; simpl.
  { intros [= <-]. split; [done|lia]. }
  destruct (ExtractToMemory _ _ _) as [st pem]. case_bool; [done|].
  destruct (LoadCertificateFromBuffer _ _) as [[] cert] eqn:Ecert; [|done].
  intros Hr. apply IH in Hr as [Hr Hl].
  - rewrite length_app in Hl. simpl in Hl. split; [done|lia].
  - apply Forall_app. split; [done|]. apply Forall_singleton.
    by apply LoadCertificateFromBuffer_strong in Ecert.
Qed.

Lemma LoadKeys_strong zip_name : Forall strong_key (LoadKeysFromZipfile zip_name).
Proof.
  unfold LoadKeysFromZipfile, IterateZipEntriesAndSearchForKeys.
  destruct (OpenArchive zip_name) as [st h]. case_bool; [constructor|]. case_bool; [constructor|].
  destruct (NextEntries h) as [entries it].
  destruct (load_entries h entries []) as [result|] eqn:El; [|constructor].
  case_bool; [constructor|]. by apply load_entries_strong in El as [? _].
Qed.

(** C6. Only keys within the policy are ever loaded, and one entry that cannot be
    read or is outside it empties the whole store. *)
Theorem LoadKeysFromZipfile_policy zip_name :
  Forall strong_key (LoadKeysFromZipfile zip_name) ∧
  (LoadKeysFromZipfile zip_name ≠ [] →
    ∃ handle, OpenArchive zip_name = (0, handle) ∧ (NextEntries handle).2 = -1 ∧
      length (LoadKeysFromZipfile zip_name) = length (NextEntries handle).1).
Proof.
  split; [apply LoadKeys_strong|].
  unfold LoadKeysFromZipfile, IterateZipEntriesAndSearchForKeys.
  destruct (OpenArchive zip_name) as [st h]. case_bool; [done|]. case_bool; [done|].
  destruct (NextEntries h) as [entries it] eqn:En.
  destruct (load_entries h entries []) as [result|] eqn:El; [|done].
  case_bool; [done|]. to_prop. subst. intros _. exists h. rewrite En. split; [done|].
  split; [done|]. by apply load_entries_strong in El as [_ ?].
Qed.
End KeyProofs.

(** ** The entry point *)

Section EntryPoint.
Context `{X509Lib, !CryptoLaws, ZipReader, FileSystemLaws, ZipArchive}.

(** C2. [verify_otapackage] returns one of its four documented codes, for the
    documented reason: -2 without keys, -3 without a package, and otherwise 0
    exactly when a key of the store attests the file (provided the device does
    not fail), -1 when none does.  No certificate archive and no package make
    it run into undefined behaviour. *)
Theorem verify_otapackage_codes (path : string) :
  (∀ f, fs_open path = Some f → Forall is_byte (fs_content f)) →
  ∃ code, verify_otapackage path = Ret code ∧
    let keys := LoadKeysFromZipfile CERTIFICATE_ZIP_FILE in
    (code = -2 ↔ keys = []) ∧
    (code = -3 ↔ keys ≠ [] ∧ CreateFilePackage path = None) ∧
    (code = -2 ∨ code = -3 ∨ code = 0 ∨ code = -1) ∧
    ∀ f, fs_open path = Some f → fs_reliable f → keys ≠ [] →
      (code = 0 ↔ authentic (fs_content f) keys).
Proof.
  intros Hb. unfold verify_otapackage.
  pose proof (LoadKeys_strong CERTIFICATE_ZIP_FILE) as Hk.
  assert (Forall key_ok (LoadKeysFromZipfile CERTIFICATE_ZIP_FILE)) as Hok
    by (eapply Forall_impl; [exact Hk|apply strong_key_ok]).
  destruct (LoadKeysFromZipfile CERTIFICATE_ZIP_FILE) as [|k keys] eqn:Ek.
  { exists (-2). split; [done|]. simpl. split_and!; try done; try tauto; naive_solver. }
  destruct (CreateFilePackage path) as [p|] eqn:Ep.
  2: { exists (-3). split; [done|]. simpl. split_and!; try done; try naive_solver.
       intros f Hf Hrel _. exfalso. unfold CreateFilePackage in Ep. rewrite Hf in Ep.
       pose proof (fs_seek_end_spec f) as Hs. destruct (fs_seek_end f) as [size f'].
       destruct Hs as (_ & _ & Hs). destruct (Hs Hrel) as [_ Hne].
       by destruct (Z.eqb_spec size (-1)). }
  destruct (CreateFilePackage_ok _ _ Ep) as (Hp & f & Hf & Hc & Hrel).
  destruct (verify_file_spec p (k :: keys)) as (r & p' & -> & _ & Hr & Hauth);
    [done|simpl; rewrite Hc; by apply Hb|done|].
  rewrite outcome_bind_ret_l. unfold VERIFY_SUCCESS, VERIFY_FAILURE in *.
  assert (∀ g, fs_open path = Some g → g = f) as Hfun by congruence.
  destruct Hr as [-> | ->]; simpl; eexists; (split; [done|]); (split; [done|]);
    (split; [naive_solver|]); (split; [tauto|]); intros g Hg Hgrel _;
    rewrite (Hfun _ Hg) in *; simpl in Hauth; rewrite Hc in Hauth;
    specialize (Hauth (Hrel Hgrel)); rewrite <-Hauth; done.
Qed.
End EntryPoint.

(** ** A device with two certificates *)

Definition toy_x509 : @X509Lib toy_crypto := {|
  X509 := Z; EVP_PKEY := Z; EC_GROUP := unit;
  PEM_read_bio_X509 pem := head pem;
  X509_get_signature_nid x := if x =? 0 then 668 else 794;
  X509_get_pubkey x := Some x;
  EVP_PKEY_id x := if x =? 0 then 6 else 408;
  EVP_PKEY_get1_RSA _ := Some () : option (@RSA toy_crypto);
  EVP_PKEY_get1_EC_KEY _ := Some () : option (@EC_KEY toy_crypto);
  RSA_modulus_bits (_ : @RSA toy_crypto) := 2048; RSA_exponent_word (_ : @RSA toy_crypto) := 65537;
  EC_KEY_get0_group (_ : @EC_KEY toy_crypto) := Some (); EC_GROUP_get_degree _ := 256;
  NID_md5WithRSA := 104; NID_md5WithRSAEncryption := 8; NID_sha1WithRSA := 115;
  NID_sha1WithRSAEncryption := 65; NID_sha256WithRSAEncryption := 668;
  NID_ecdsa_with_SHA256 := 794; EVP_PKEY_RSA := 6; EVP_PKEY_EC := 408;
|}.

Definition toy_certs : ZipReader := {|
  zip_handle := unit; zip_entry := Z;
  OpenArchive _ := (0, ()); StartIteration _ _ _ := 0;
  NextEntries _ := ([0; 1], -1);
  uncompressed_length _ := 1; ExtractToMemory _ e _ := (0, [e]);
|}.

Definition toy_disk : FileSystem := one_file (mem_addr_ toy_package) None.

Lemma verify_otapackage_codes_witness :
  ∃ code, @verify_otapackage _ toy_x509 toy_certs toy_disk no_zip "/data/ota.zip" = Ret code ∧
    (code = 0 ↔ @authentic toy_crypto (mem_addr_ toy_package)
                  (@LoadKeysFromZipfile _ toy_x509 toy_certs CERTIFICATE_ZIP_FILE)).
Proof.
  destruct (@verify_otapackage_codes _ toy_x509 toy_crypto_laws toy_certs toy_disk
    (one_file_laws (mem_addr_ toy_package) None ltac:(reflexivity)) no_zip "/data/ota.zip")
    as (code & E & _ & _ & _ & H).
  - intros f _. apply toy_package_bytes.
  - exists code. split; [exact E|]. by apply (H None).
Defined.

Example verify_otapackage_toy :
  @verify_otapackage _ toy_x509 toy_certs toy_disk no_zip "/data/ota.zip" = Ret 0.
Proof. vm_compute. reflexivity. Qed.
