(* ===== verification/DevTypes.v ===== *)
(** * Types shared by the device SDK

    Model of [src/mivifwk/odm/plugins/qcom/ldc/device/dev_type.h] (the SDK is
    copied, in a few variants, into many camera plugins; the model maps the copy
    of the Qualcomm [ldc] plugin), of the C memory the SDK's modules share with their
    callers, and of the POSIX mutex.  [MutexLib] is the part of [Device->mutex]
    the other modules use, with its contract [MutexLaws]. *)
From S2P Require Import Prelude.
From Stdlib Require Import Ascii.
From stdpp Require Import strings.
#[local] Open Scope Z_scope.
#[local] Open Scope mach_scope.

Definition FALSE : Z := 0.
Definition TRUE : Z := 1.
Definition NULL : Z := 0.

(** @src src/mivifwk/odm/plugins/qcom/ldc/device/dev_type.h:92-92 FILE_NAME_LEN_MAX *)
Definition FILE_NAME_LEN_MAX : Z := 256.

(** The results the modelled modules return ([DevTypeErr]). *)
Definition RET_OK : Z := 0.
Definition RET_ERR : Z := -1.
Definition RET_ERR_ARG : Z := -2.
Definition RET_CONTINUE : Z := -5.

(** The arguments that [MARK(tag)] passes for [MARK_TAG]. *)
Record mark := mkMark { mk_fileName : string; mk_fileLine : Z; mk_tagName : string }.

(** ** The callers' variables

    The SDK identifies an object by the [S64] variable its id was stored in:
    [cells] maps the addresses of those variables to their values. *)
Abbreviation cells := (gmap Z Z).

(** [*p] and [*p = v]; a dangling or null pointer is undefined behaviour. *)
Definition load (c : cells) (p : Z) : outcome Z := or_ub (c !! p).
Definition store (c : cells) (p v : Z) : outcome cells :=
  match c !! p with Some _ => Ret (<[p := v]> c) | None => UB end.

Lemma load_Some c p v : c !! p = Some v → load c p = Ret v.
Proof. unfold load. by intros ->. Qed.

Lemma store_Some c p v w : c !! p = Some w → store c p v = Ret (<[p := v]> c).
Proof. unfold store. by intros ->. Qed.

(** ** File names *)

Fixpoint last_component (acc s : string) : string :=
  match s with
  | EmptyString => acc
  | String c s' =>
      if Ascii.eqb c "/"%char then last_component s' s' else last_component acc s'
  end.

(** [strrchr(path, '/') + 1], or the whole path without a slash. *)
Definition no_dir_file_name (pFilePath : string) : string := last_component pFilePath pFilePath.

(** [snprintf(buf, n, "%s", s)] keeps [n - 1] characters. *)
Definition snprintf_s (n : Z) (s : string) : string := String.substring 0 (Z.to_nat (n - 1)) s.

(** [sprintf(buf, "%s", s)] into a buffer of [n] characters. *)
Definition sprintf_s (n : Z) (s : string) : outcome string :=
  if Z.of_nat (String.length s) <? n then Ret s else UB.

Example no_dir_file_name_path :
  no_dir_file_name "vendor/device/dev_queue.cpp" = "dev_queue.cpp"%string.
Proof. reflexivity. Qed.

(** ** POSIX mutexes

    A default (non-recursive) mutex.  [Blocked] is the answer to a thread that
    waits for the current holder. *)
Inductive pmutex := PM_uninit | PM_unlocked | PM_locked.

#[export] Instance pmutex_eq_dec : EqDecision pmutex.
Proof. solve_decision. Defined.

Definition pthread_mutex_lock (m : pmutex) : outcome pmutex :=
  match m with PM_unlocked => Ret PM_locked | PM_locked => Blocked | PM_uninit => UB end.
Definition pthread_mutex_unlock (m : pmutex) : outcome pmutex :=
  match m with PM_locked => Ret PM_unlocked | _ => UB end.
Definition pthread_mutex_destroy (m : pmutex) : outcome pmutex :=
  match m with PM_unlocked => Ret PM_uninit | _ => UB end.
(** [EBUSY] is 16 on the platforms of the SDK. *)
Definition EBUSY : Z := 16.
Definition pthread_mutex_trylock (m : pmutex) : outcome (Z * pmutex) :=
  match m with
  | PM_unlocked => Ret (0, PM_locked) | PM_locked => Ret (EBUSY, PM_locked) | PM_uninit => UB
  end.

(** ** [Device->mutex] as its clients see it *)

Class MutexLib (M : Type) := {
  mx_Create : Z → mark → M * cells → outcome (Z * (M * cells));
  mx_Destroy : Z → M * cells → outcome (Z * (M * cells));
  mx_Lock : Z → M → outcome (Z * M);
  mx_Unlock : Z → M → outcome (Z * M);
}.

(** A lock is free or held; locking a held lock waits; the other locks are not
    touched. *)
Class MutexLaws (M : Type) `{MutexLib M} := {
  mx_free : M → Z → Prop;
  mx_held : M → Z → Prop;
  mx_lock_free m id : mx_free m id → ∃ m', mx_Lock id m = Ret (RET_OK, m') ∧ mx_held m' id ∧
    ∀ id', id' ≠ id → (mx_free m id' → mx_free m' id') ∧ (mx_held m id' → mx_held m' id');
  mx_lock_held m id : mx_held m id → mx_Lock id m = Blocked;
  mx_unlock_held m id : mx_held m id → ∃ m', mx_Unlock id m = Ret (RET_OK, m') ∧ mx_free m' id ∧
    ∀ id', id' ≠ id → (mx_free m id' → mx_free m' id') ∧ (mx_held m id' → mx_held m' id');
}.

(** ** Little-endian machine words in byte arrays *)

Fixpoint le_bytes (k : nat) (v : Z) : list Z :=
  match k with
  | O => []
  | S k' => v mod 256 :: le_bytes k' (v / 256)
  end.

Fixpoint le_value (bs : list Z) : Z :=
  match bs with
  | [] => 0
  | b :: bs' => b + 256 * le_value bs'
  end.

Lemma length_le_bytes k v : length (le_bytes k v) = k.
Proof. revert v. induction k as [|k IH]; intros v; simpl; [done|]. by rewrite IH. Qed.

Lemma le_value_bytes k v : 0 ≤ v < 256 ^ Z.of_nat k → le_value (le_bytes k v) = v.
Proof.
  revert v. induction k as [|k IH]; intros v Hv; [simpl in *; lia|].
  rewrite Nat2Z.inj_succ, Z.pow_succ_r in Hv by lia. simpl.
  rewrite IH; [pose proof (Z.div_mod v 256); lia|].
  split; [apply Z.div_pos; lia|apply Z.div_lt_upper_bound; lia].
Qed.

Lemma le_bytes_bytes k v : Forall is_byte (le_bytes k v).
Proof.
  revert v. induction k as [|k IH]; intros v; simpl; constructor; [|done].
  unfold is_byte. apply Z.mod_pos_bound. lia.
Qed.
