(* ===== verification/DevMutex.v ===== *)
(** * The SDK's mutex table

    Model of [src/mivifwk/odm/plugins/qcom/ldc/device/dev_mutex.cpp]: a table
    of 256 POSIX mutexes under a module mutex, addressed by small ids that the
    callers keep in variables of their own.  [mutex_state] holds the module's
    static variables; every entry point is a definition; the last section shows
    that the table keeps the contract [MutexLaws] the other modules rely on. *)
From S2P Require Import Prelude DevTypes.
From stdpp Require Import strings.
#[local] Open Scope Z_scope.
#[local] Open Scope mach_scope.

(** @src src/mivifwk/odm/plugins/qcom/ldc/device/dev_mutex.cpp:25-25 DEV_MUTEX_NUM_MAX *)
Definition DEV_MUTEX_NUM_MAX : Z := 256.

(** @src src/mivifwk/odm/plugins/qcom/ldc/device/dev_mutex.cpp:28-36 Device_Mutex_node *)
Record Device_Mutex_node := mkMutexNode {
  en : Z;
  pId : Z;
  fileName : string;
  tagName : string;
  fileLine : Z;
  locked : Z;
  mutex : pmutex;
}.

(** The node after [memset(..., 0, ...)]. *)
Definition zero_node : Device_Mutex_node := mkMutexNode 0 0 "" "" 0 0 PM_uninit.

(** @src src/mivifwk/odm/plugins/qcom/ldc/device/dev_mutex.cpp:22-38 m_mutex, init_f, m_mutex_list
    The static variables. *)
Record mutex_state := mkMutexState {
  m_mutex : pmutex;
  init_f : Z;
  m_mutex_list : list Device_Mutex_node;
}.

(** @src src/mivifwk/odm/plugins/qcom/ldc/device/dev_mutex.cpp:40-51 DevMutex_NoDirFileName *)
Definition DevMutex_NoDirFileName (pFilePath : string) : string := no_dir_file_name pFilePath.

(** The ids [1 .. DEV_MUTEX_NUM_MAX - 1], in the order of the [for] loops. *)
Definition mutex_ids : list Z := seqZ 1 (DEV_MUTEX_NUM_MAX - 1).

Definition node_at (s : mutex_state) (id : Z) : outcome Device_Mutex_node :=
  if id <? 0 then UB else or_ub (m_mutex_list s !! Z.to_nat id).

Definition set_node (s : mutex_state) (id : Z) (n : Device_Mutex_node) : mutex_state :=
  mkMutexState (m_mutex s) (init_f s) (<[Z.to_nat id := n]> (m_mutex_list s)).

Definition set_module_mutex (s : mutex_state) (m : pmutex) : mutex_state :=
  mkMutexState m (init_f s) (m_mutex_list s).

(** The first id whose node satisfies [p]. *)
Definition find_id (p : Device_Mutex_node → bool) (s : mutex_state) : option Z :=
  find (λ id, match m_mutex_list s !! Z.to_nat id with Some n => p n | None => false end) mutex_ids.

Section Mutex.
(** [Settings->SDK_PTHREAD_SUPPORT] and the result of [pthread_mutex_init]. *)
Context (SDK_PTHREAD_SUPPORT : bool) (pthread_mutex_init : Z → Z).

Abbreviation st := (mutex_state * cells)%type.

(** @src src/mivifwk/odm/plugins/qcom/ldc/device/dev_mutex.cpp:53-91 DevMutex_Create
    When every node is in use the second loop ends without an allocation and
    the function still returns [RET_OK]. *)
Definition DevMutex_Create (p : Z) (mk : mark) (w : st) : outcome (Z * st) :=
  let '(s, c) := w in
  if negb SDK_PTHREAD_SUPPORT then Ret (RET_OK, w)
  else
    m ← pthread_mutex_lock (m_mutex s);
    let s := set_module_mutex s m in
    let exit (ret : Z) (s : mutex_state) (c : cells) :=
      m ← pthread_mutex_unlock (m_mutex s); Ret (ret, (set_module_mutex s m, c)) in
    if negb (init_f s =? TRUE) then exit RET_ERR s c
    else
      match find_id (λ n, negb (pId n =? NULL) && (pId n =? p) && (en n =? TRUE)) s with
      | Some _ => exit RET_ERR s c
      | None =>
          match find_id (λ n, en n =? FALSE) s with
          | None => exit RET_OK s c
          | Some id =>
              let ret := pthread_mutex_init id in
              if negb (ret =? RET_OK) then exit ret s c
              else
                n ← node_at s id;
                c ← store c p id;
                fname ← sprintf_s FILE_NAME_LEN_MAX (DevMutex_NoDirFileName (mk_fileName mk));
                tag ← sprintf_s FILE_NAME_LEN_MAX (mk_tagName mk);
                exit RET_OK
                  (set_node s id (mkMutexNode TRUE p fname tag (mk_fileLine mk) (locked n) PM_unlocked))
                  c
          end
      end.

(** @src src/mivifwk/odm/plugins/qcom/ldc/device/dev_mutex.cpp:93-114 DevMutex_Destroy *)
Definition DevMutex_Destroy (p : Z) (w : st) : outcome (Z * st) :=
  let '(s, c) := w in
  if negb SDK_PTHREAD_SUPPORT then Ret (RET_OK, w)
  else
    m ← pthread_mutex_lock (m_mutex s);
    let s := set_module_mutex s m in
    let exit (s : mutex_state) (c : cells) :=
      m ← pthread_mutex_unlock (m_mutex s); Ret (RET_OK, (set_module_mutex s m, c)) in
    if negb (init_f s =? TRUE) then exit s c
    else if p =? NULL then exit s c
    else
      id ← load c p;
      if (DEV_MUTEX_NUM_MAX <=? id) || (id <=? 0) then exit s c
      else
        n ← node_at s id;
        if pId n =? NULL then exit s c
        else
          m_id ← load c (pId n);
          if (DEV_MUTEX_NUM_MAX <=? m_id) || (m_id <=? 0) then exit s c
          else
            n' ← node_at s m_id;
            _ ← pthread_mutex_destroy (mutex n');
            c ← store c p 0;
            exit (set_node s m_id zero_node) c.

(** The checks that [Lock], [Unlock], [Trylock] and [Geter] share; [None] when
    one fails. *)
Definition usable (s : mutex_state) (id : Z) : outcome (option Device_Mutex_node) :=
  if negb (init_f s =? TRUE) then Ret None
  else if (DEV_MUTEX_NUM_MAX <=? id) || (id <=? 0) then Ret None
  else
    n ← node_at s id;
    if negb (en n =? TRUE) then Ret None else Ret (Some n).

Definition with_mutex (n : Device_Mutex_node) (lck : Z) (m : pmutex) : Device_Mutex_node :=
  mkMutexNode (en n) (pId n) (fileName n) (tagName n) (fileLine n) lck m.

(** @src src/mivifwk/odm/plugins/qcom/ldc/device/dev_mutex.cpp:116-127 DevMutex_Lock *)
Definition DevMutex_Lock (id : Z) (s : mutex_state) : outcome (Z * mutex_state) :=
  if negb SDK_PTHREAD_SUPPORT then Ret (RET_OK, s)
  else
    n ← usable s id;
    match n with
    | None => Ret (RET_ERR, s)
    | Some n =>
        m ← pthread_mutex_lock (mutex n);
        Ret (0, set_node s id (with_mutex n TRUE m))
    end.

(** @src src/mivifwk/odm/plugins/qcom/ldc/device/dev_mutex.cpp:129-140 DevMutex_Unlock *)
Definition DevMutex_Unlock (id : Z) (s : mutex_state) : outcome (Z * mutex_state) :=
  if negb SDK_PTHREAD_SUPPORT then Ret (RET_OK, s)
  else
    n ← usable s id;
    match n with
    | None => Ret (RET_ERR, s)
    | Some n =>
        m ← pthread_mutex_unlock (mutex n);
        Ret (0, set_node s id (with_mutex n FALSE m))
    end.

(** @src src/mivifwk/odm/plugins/qcom/ldc/device/dev_mutex.cpp:142-155 DevMutex_Trylock *)
Definition DevMutex_Trylock (id : Z) (s : mutex_state) : outcome (Z * mutex_state) :=
  if negb SDK_PTHREAD_SUPPORT then Ret (RET_OK, s)
  else
    n ← usable s id;
    match n with
    | None => Ret (RET_ERR, s)
    | Some n =>
        '(ret, m) ← pthread_mutex_trylock (mutex n);
        Ret (ret, set_node s id (with_mutex n (if ret =? RET_OK then TRUE else locked n) m))
    end.

(** @src src/mivifwk/odm/plugins/qcom/ldc/device/dev_mutex.cpp:157-162 DevMutex_Geter
    The id of the mutex handed out, [None] for [NULL]. *)
Definition DevMutex_Geter (id : Z) (s : mutex_state) : outcome (option Z) :=
  n ← usable s id; Ret (match n with Some _ => Some id | None => None end).

(** @src src/mivifwk/odm/plugins/qcom/ldc/device/dev_mutex.cpp:164-184 DevMutex_Report
    The log lines are left out: what remains is the module mutex. *)
Definition DevMutex_Report (s : mutex_state) : outcome (Z * mutex_state) :=
  if negb (init_f s =? TRUE) then Ret (RET_ERR, s)
  else
    m ← pthread_mutex_lock (m_mutex s);
    m ← pthread_mutex_unlock m;
    Ret (RET_OK, set_module_mutex s m).

(** @src src/mivifwk/odm/plugins/qcom/ldc/device/dev_mutex.cpp:186-198 DevMutex_Init
    [0] also stands for the failure of the module mutex, as in the source. *)
Definition DevMutex_Init (module_init_ret : Z) (s : mutex_state) : outcome (Z * mutex_state) :=
  if negb SDK_PTHREAD_SUPPORT then Ret (RET_OK, s)
  else if init_f s =? TRUE then Ret (RET_OK, s)
  else if negb (module_init_ret =? RET_OK) then Ret (0, s)
  else Ret (RET_OK, mkMutexState PM_unlocked TRUE (replicate (Z.to_nat DEV_MUTEX_NUM_MAX) zero_node)).

(** The loop of [Deinit]; [idp] is the address of its local variable. *)
Fixpoint destroy_all (idp : Z) (ids : list Z) (w : st) : outcome st :=
  match ids with
  | [] => Ret w
  | id :: ids' =>
      c ← store w.2 idp id;
      '(_, w) ← DevMutex_Destroy idp (w.1, c);
      destroy_all idp ids' w
  end.

(** @src src/mivifwk/odm/plugins/qcom/ldc/device/dev_mutex.cpp:200-226 DevMutex_Deinit *)
Definition DevMutex_Deinit (idp : Z) (w : st) : outcome (Z * st) :=
  let '(s, c) := w in
  if negb SDK_PTHREAD_SUPPORT then Ret (RET_OK, w)
  else if negb (init_f s =? TRUE) then Ret (RET_OK, w)
  else
    let report := existsb (λ n, negb (pId n =? NULL) && (en n =? TRUE)) (m_mutex_list s) in
    s ← (if report then r ← DevMutex_Report s; Ret r.2 else Ret s);
    '(s, c) ← destroy_all idp mutex_ids (s, c);
    m ← pthread_mutex_destroy (m_mutex s);
    Ret (RET_OK,
         (mkMutexState m FALSE (replicate (Z.to_nat DEV_MUTEX_NUM_MAX) zero_node), c)).
End Mutex.

(** ** The table's invariant *)

(** The module mutex is free outside the module's functions, and an enabled
    node has an owner variable and a mutex whose state [locked] mirrors. *)
Record mutex_wf (s : mutex_state) : Prop := {
  wf_module : m_mutex s = PM_unlocked;
  wf_init : init_f s = TRUE;
  wf_length : length (m_mutex_list s) = 256%nat;
  wf_nodes : Forall (λ n, en n = FALSE ∨
    (en n = TRUE ∧ pId n ≠ NULL ∧
     (mutex n = PM_unlocked ∨ mutex n = PM_locked ∧ locked n = TRUE))) (m_mutex_list s);
}.

(** An allocated lock nobody holds, and one somebody holds. *)
Definition lock_state (m : pmutex) (s : mutex_state) (id : Z) : Prop :=
  init_f s = TRUE ∧ 0 < id < DEV_MUTEX_NUM_MAX ∧
  ∃ n, m_mutex_list s !! Z.to_nat id = Some n ∧ en n = TRUE ∧ mutex n = m.

Lemma node_at_lookup s id n : 0 < id → m_mutex_list s !! Z.to_nat id = Some n →
  node_at s id = Ret n.
Proof. intros Hid Hn. unfold node_at. destruct (Z.ltb_spec id 0); [lia|]. by rewrite Hn. Qed.

Lemma usable_lock_state m s id : lock_state m s id →
  ∃ n, usable s id = Ret (Some n) ∧ m_mutex_list s !! Z.to_nat id = Some n ∧ mutex n = m ∧
    en n = TRUE.
Proof.
  intros (Hi & Hid & n & Hn & He & Hm). exists n. unfold usable. rewrite Hi. simpl.
  destruct (Z.leb_spec DEV_MUTEX_NUM_MAX id), (Z.leb_spec id 0); try lia. simpl.
  rewrite (node_at_lookup _ _ _ (proj1 Hid) Hn). simpl. by rewrite He.
Qed.

Lemma set_node_lookup s id n n0 : m_mutex_list s !! Z.to_nat id = Some n0 →
  m_mutex_list (set_node s id n) !! Z.to_nat id = Some n.
Proof. intros Hn. simpl. apply list_lookup_insert_eq. by eapply lookup_lt_Some. Qed.

Lemma set_node_lock_state s id n m n0 : lock_state m s id →
  m_mutex_list s !! Z.to_nat id = Some n0 → en n = TRUE →
  lock_state (mutex n) (set_node s id n) id.
Proof.
  intros (Hi & Hid & _) Hn0 He. split; [done|]. split; [done|].
  exists n. split; [by eapply set_node_lookup|done].
Qed.

Lemma set_node_other s id n m id' : 0 < id → id' ≠ id → lock_state m s id' →
  lock_state m (set_node s id n) id'.
Proof.
  intros Hpos Hne (Hi & Hid & n' & Hn' & ?). split; [done|]. split; [done|]. exists n'.
  split; [|done]. simpl. rewrite list_lookup_insert_ne by lia. done.
Qed.

Section Laws.
Context (pm_init : Z → Z).

#[export] Instance DevMutex_lib : MutexLib mutex_state := {
  mx_Create := DevMutex_Create true pm_init;
  mx_Destroy := DevMutex_Destroy true;
  mx_Lock := DevMutex_Lock true;
  mx_Unlock := DevMutex_Unlock true;
}.

Lemma DevMutex_Lock_free s id : lock_state PM_unlocked s id →
  ∃ s', DevMutex_Lock true id s = Ret (RET_OK, s') ∧ lock_state PM_locked s' id ∧
    ∀ id' m, id' ≠ id → lock_state m s id' → lock_state m s' id'.
Proof.
  intros Hs. destruct (usable_lock_state _ _ _ Hs) as (n & E & Hn & Hm & He).
  unfold DevMutex_Lock. simpl. rewrite E. simpl. rewrite Hm. simpl. eexists. split; [done|].
  split.
  - by apply (set_node_lock_state s id (with_mutex n TRUE PM_locked) _ n Hs Hn).
  - intros id' m Hne. apply set_node_other; [|done]. by destruct Hs as (_ & [? _] & _).
Qed.

Lemma DevMutex_Lock_held s id : lock_state PM_locked s id → DevMutex_Lock true id s = Blocked.
Proof.
  intros Hs. destruct (usable_lock_state _ _ _ Hs) as (n & E & Hn & Hm & He).
  unfold DevMutex_Lock. simpl. rewrite E. simpl. by rewrite Hm.
Qed.

Lemma DevMutex_Unlock_held s id : lock_state PM_locked s id →
  ∃ s', DevMutex_Unlock true id s = Ret (RET_OK, s') ∧ lock_state PM_unlocked s' id ∧
    ∀ id' m, id' ≠ id → lock_state m s id' → lock_state m s' id'.
Proof.
  intros Hs. destruct (usable_lock_state _ _ _ Hs) as (n & E & Hn & Hm & He).
  unfold DevMutex_Unlock. simpl. rewrite E. simpl. rewrite Hm. simpl. eexists. split; [done|].
  split.
  - by apply (set_node_lock_state s id (with_mutex n FALSE PM_unlocked) _ n Hs Hn).
  - intros id' m Hne. apply set_node_other; [|done]. by destruct Hs as (_ & [? _] & _).
Qed.

#[export] Program Instance DevMutex_laws : MutexLaws mutex_state := {
  mx_free := lock_state PM_unlocked;
  mx_held := lock_state PM_locked;
}.
Next Obligation.
  intros s id Hs. destruct (DevMutex_Lock_free s id Hs) as (s' & E & Hs' & Ho).
  exists s'. split; [done|]. split; [done|]. intros id' Hne. split; apply Ho; done.
Qed.
Next Obligation. intros s id Hs. by apply DevMutex_Lock_held. Qed.
Next Obligation.
  intros s id Hs. destruct (DevMutex_Unlock_held s id Hs) as (s' & E & Hs' & Ho).
  exists s'. split; [done|]. split; [done|]. intros id' Hne. split; apply Ho; done.
Qed.
End Laws.

(** ** Creation *)

Lemma find_id_Some (p : Device_Mutex_node → bool) s id : find_id p s = Some id →
  0 < id < DEV_MUTEX_NUM_MAX ∧ ∃ n, m_mutex_list s !! Z.to_nat id = Some n ∧ p n = true.
Proof.
  unfold find_id, mutex_ids, DEV_MUTEX_NUM_MAX. intros H.
  apply find_some in H as [Hin Hp]. apply list_elem_of_In, elem_of_seqZ in Hin.
  split; [lia|]. destruct (m_mutex_list s !! Z.to_nat id) as [n|]; [|done]. by exists n.
Qed.

Lemma find_id_None (p : Device_Mutex_node → bool) s : find_id p s = None →
  ∀ id n, 0 < id < DEV_MUTEX_NUM_MAX → m_mutex_list s !! Z.to_nat id = Some n → p n = false.
Proof.
  unfold find_id, mutex_ids, DEV_MUTEX_NUM_MAX. intros H id n Hid Hn.
  assert (In id (seqZ 1 (256 - 1))) as Hin by (apply list_elem_of_In, elem_of_seqZ; lia).
  pose proof (find_none _ _ H _ Hin) as Hp. cbv beta in Hp. by rewrite Hn in Hp.
Qed.

Lemma find_id_module p s m : find_id p (set_module_mutex s m) = find_id p s.
Proof. reflexivity. Qed.

#[local] Opaque find_id.

(** The id [DevMutex_Create] hands out: of a disabled node. *)
Definition create_slot (s : mutex_state) : option Z := find_id (λ n, en n =? FALSE) s.

Definition owned (p : Z) (s : mutex_state) : Prop :=
  ∃ id n, 0 < id < DEV_MUTEX_NUM_MAX ∧ m_mutex_list s !! Z.to_nat id = Some n ∧
    pId n = p ∧ en n = TRUE.

(** C12. [Create] with thread support on, for a variable that owns no mutex yet, when
    [pthread_mutex_init] succeeds and the names of the caller's file and tag fit their
    fields: with a free node the variable receives the id of a new, free mutex, the other
    nodes keep their state and the table's invariant is kept; with none left the call
    reports success all the same, allocates nothing and leaves the variable as it was. *)
Theorem DevMutex_Create_spec (pm_init : Z → Z) (s : mutex_state) (c : cells) (p v : Z) (mk : mark) :
  mutex_wf s → (∀ id, pm_init id = RET_OK) → p ≠ NULL → c !! p = Some v → ¬ owned p s →
  Z.of_nat (String.length (DevMutex_NoDirFileName (mk_fileName mk))) < FILE_NAME_LEN_MAX →
  Z.of_nat (String.length (mk_tagName mk)) < FILE_NAME_LEN_MAX →
  match create_slot s with
  | Some id => ∃ s', DevMutex_Create true pm_init p mk (s, c) = Ret (RET_OK, (s', <[p := id]> c)) ∧
      mutex_wf s' ∧ lock_state PM_unlocked s' id ∧
      ∀ id', id' ≠ id → 0 < id' → m_mutex_list s' !! Z.to_nat id' = m_mutex_list s !! Z.to_nat id'
  | None => DevMutex_Create true pm_init p mk (s, c) = Ret (RET_OK, (s, c))
  end.
Proof.
  intros [Hm Hi Hl Hn] Hok Hp Hc Hown Hf Ht. unfold create_slot, DevMutex_Create. simpl.
  rewrite Hm. simpl. rewrite Hi. simpl.
  assert (set_module_mutex (set_module_mutex s PM_locked) PM_unlocked = s) as Eback
    by (destruct s; simpl in *; by subst).
  rewrite !find_id_module.
  match goal with |- context [match find_id ?f s with Some _ => Ret (RET_ERR, _) | _ => _ end] =>
    destruct (find_id f s) as [d|] eqn:Ed end.
  { exfalso. apply Hown. apply find_id_Some in Ed as (Hd & n & Hlk & Hb). to_prop.
    exists d, n. split; [done|]. by split_and!. }
  destruct (find_id (λ n, en n =? FALSE) s) as [id|] eqn:Es; [|by rewrite Eback].
  apply find_id_Some in Es as (Hid & n & Hlk & Hen). rewrite Hok. simpl.
  rewrite (node_at_lookup (set_module_mutex s PM_locked) id n (proj1 Hid) Hlk). simpl. rewrite (store_Some _ _ _ _ Hc). simpl.
  unfold sprintf_s. destruct (Z.ltb_spec (Z.of_nat (String.length (DevMutex_NoDirFileName (mk_fileName mk))))
    FILE_NAME_LEN_MAX); [|lia].
  destruct (Z.ltb_spec (Z.of_nat (String.length (mk_tagName mk))) FILE_NAME_LEN_MAX); [|lia]. simpl.
  assert (Z.to_nat id < length (m_mutex_list s))%nat as Hlt by by eapply lookup_lt_Some.
  eexists. split; [done|]. split; [|split].
  - split; simpl; [done|done|by rewrite length_insert|].
    apply Forall_insert; [done|]. right. split_and!; [done|done|by left].
  - split; [done|]. split; [done|]. eexists. split; [simpl; by apply list_lookup_insert_eq|done].
  - intros id' Hne Hpos. simpl. rewrite list_lookup_insert_ne by lia. done.
Qed.

(** ** A table with room, and a full one *)

Definition fresh_table : mutex_state :=
  mkMutexState PM_unlocked TRUE (replicate 256 zero_node).

Lemma fresh_table_wf : mutex_wf fresh_table.
Proof. split; [done|done|done|]. apply Forall_replicate. by left. Qed.

Definition some_mark : mark := mkMark "device/dev_queue.cpp" 609 "m_mutex_Id".

Lemma DevMutex_Create_spec_witness :
  ∃ s', DevMutex_Create true (λ _, 0) 4096 some_mark (fresh_table, {[4096 := 77]})
      = Ret (RET_OK, (s', <[4096 := 1]> {[4096 := 77]})) ∧
    mutex_wf s' ∧ lock_state PM_unlocked s' 1 ∧
    ∀ id', id' ≠ 1 → 0 < id' → m_mutex_list s' !! Z.to_nat id' = m_mutex_list fresh_table !! Z.to_nat id'.
Proof.
  apply (DevMutex_Create_spec (λ _, 0) fresh_table {[4096 := 77]} 4096 77 some_mark).
  - apply fresh_table_wf.
  - done.
  - done.
  - by vm_compute.
  - intros (id & n & Hid & Hn & Hp & He). cbn [fresh_table m_mutex_list] in Hn.
    apply lookup_replicate in Hn as [-> _]. done.
  - by vm_compute.
  - by vm_compute.
Defined.

Definition one_lock_table : mutex_state :=
  mkMutexState PM_unlocked TRUE
    (<[1%nat := mkMutexNode TRUE 4096 "dev_queue.cpp" "m_mutex_Id" 609 FALSE PM_unlocked]>
       (replicate 256 zero_node)).

Lemma one_lock_free : lock_state PM_unlocked one_lock_table 1.
Proof. split; [done|]. split; [done|]. by eexists. Qed.
