(* ===== verification/DevQueue.v ===== *)
(** * The SDK's byte queues

    Model of [src/mivifwk/odm/plugins/qcom/ldc/device/dev_queue.cpp]: a table
    of ring buffers.  [Queue_node] is the source's structure; the functions on a
    node ([node_*]) are the bodies of the entry points after their checks, and
    the entry points run them on the world: the mutex module (any [MutexLib]),
    the callers' variables and the table.  [malloc], the size of a node and the
    clock are parameters.  The 64-bit sums on indices and sizes are written
    without wrap-around: they stay below [2 * size]; the unread counter is the
    source's 32-bit atomic and wraps. *)
From S2P Require Import Prelude DevTypes DevMutex.
From stdpp Require Import strings.
#[local] Open Scope Z_scope.
#[local] Open Scope mach_scope.

(** @src src/mivifwk/odm/plugins/qcom/ldc/device/dev_queue.cpp:19-19 MSG_QUEUE_MAX_NUM *)
Definition MSG_QUEUE_MAX_NUM : Z := 256.

(** @src src/mivifwk/odm/plugins/qcom/ldc/device/dev_queue.cpp:27-40 Queue_node
    [data] is [None] for a null pointer. *)
Record Queue_node := mkQueue {
  pId : Z;
  fileName : string;
  tagName : string;
  fileLine : Z;
  createTimestamp : Z;
  data : option (list Z);
  size : Z;
  atomic_unreadSize : Z;
  writeIndex : Z;
  activeWriteSize : Z;
  readIndex : Z;
  activeReadSize : Z;
}.

(** An entry of the table: null, a node, or the address of a freed node. *)
Inductive slot := Null | Node (n : Queue_node) | Dangling.

#[export] Instance Queue_node_eq_dec : EqDecision Queue_node.
Proof. solve_decision. Defined.
#[export] Instance slot_eq_dec : EqDecision slot.
Proof. solve_decision. Defined.

(** @src src/mivifwk/odm/plugins/qcom/ldc/device/dev_queue.cpp:59-70 DevQueue_NoDirFileName *)
Definition DevQueue_NoDirFileName (pFilePath : string) : string := no_dir_file_name pFilePath.

(** ** Bodies on a node *)

Definition set_write (n : Queue_node) (d : option (list Z)) (unread wi aw : Z) : Queue_node :=
  mkQueue (pId n) (fileName n) (tagName n) (fileLine n) (createTimestamp n) d (size n)
    unread wi aw (readIndex n) (activeReadSize n).

Definition set_read (n : Queue_node) (unread ri ar : Z) : Queue_node :=
  mkQueue (pId n) (fileName n) (tagName n) (fileLine n) (createTimestamp n) (data n) (size n)
    unread (writeIndex n) (activeWriteSize n) ri ar.

(** [unread.fetch_add(k)] and [fetch_sub]: the argument is converted to [int]. *)
Definition fetch_add (unread k : Z) : Z := s32 (unread + s32 k).
Definition fetch_sub (unread k : Z) : Z := s32 (unread - s32 k).

(** Writing [bs] at [&data[off]] and reading [k] bytes there. *)
Definition data_write (d : option (list Z)) (off : Z) (bs : list Z) : outcome (option (list Z)) :=
  match d with
  | None => UB
  | Some l =>
      if (0 <=? off) && (off + Z.of_nat (length bs) <=? Z.of_nat (length l))
      then Ret (Some (splice l (Z.to_nat off) bs)) else UB
  end.

Definition data_read (d : option (list Z)) (off k : Z) : outcome (list Z) :=
  match d with
  | None => UB
  | Some l =>
      if (0 <=? off) && (0 <=? k) && (off + k <=? Z.of_nat (length l))
      then Ret (slice off k l) else UB
  end.

(** An index moved forward, back to 0 at exactly [size]. *)
Definition advance (n : Queue_node) (index k : Z) : Z :=
  if index + k =? size n then 0 else index + k.

(** @src src/mivifwk/odm/plugins/qcom/ldc/device/dev_queue.cpp:269-280 DevQueue_PushNBit
    [bs] are the bytes of the pushed word in memory order. *)
Definition node_PushNBit (bs : list Z) (n : Queue_node) : outcome (Z * Queue_node) :=
  let k := Z.of_nat (length bs) in
  if size n - atomic_unreadSize n <? k then Ret (RET_ERR, n)
  else
    d ← data_write (data n) (writeIndex n) bs;
    Ret (RET_OK, set_write n d (fetch_add (atomic_unreadSize n) k)
                   (advance n (writeIndex n) k) (activeWriteSize n)).

(** @src src/mivifwk/odm/plugins/qcom/ldc/device/dev_queue.cpp:282-293 DevQueue_PopNBit *)
Definition node_PopNBit (k : Z) (n : Queue_node) : outcome (Z * list Z * Queue_node) :=
  if atomic_unreadSize n <? k then Ret (RET_ERR, [], n)
  else
    bs ← data_read (data n) (readIndex n) k;
    Ret (RET_OK, bs, set_read n (fetch_sub (atomic_unreadSize n) k)
                       (advance n (readIndex n) k) (activeReadSize n)).

(** @src src/mivifwk/odm/plugins/qcom/ldc/device/dev_queue.cpp:345-352 DevQueue_Write (body)
    The test looks at the free bytes only, not at the bytes left before the
    end of the buffer. *)
Definition node_Write (src : list Z) (sz : Z) (n : Queue_node) : outcome (Z * Queue_node) :=
  if size n - atomic_unreadSize n <? sz then Ret (0, n)
  else if (sz <? 0) || (Z.of_nat (length src) <? sz) then UB
  else
    d ← data_write (data n) (writeIndex n) (take (Z.to_nat sz) src);
    Ret (sz, set_write n d (fetch_add (atomic_unreadSize n) sz)
               (advance n (writeIndex n) sz) (activeWriteSize n)).

(** @src src/mivifwk/odm/plugins/qcom/ldc/device/dev_queue.cpp:409-421 DevQueue_Read (body) *)
Definition node_Read (sz : Z) (n : Queue_node) : outcome (Z * list Z * Queue_node) :=
  if atomic_unreadSize n =? 0 then Ret (0, [], n)
  else
    let readSize := if atomic_unreadSize n <? sz then atomic_unreadSize n else sz in
    bs ← data_read (data n) (readIndex n) readSize;
    Ret (readSize, bs, set_read n (fetch_sub (atomic_unreadSize n) readSize)
                         (advance n (readIndex n) readSize) (activeReadSize n)).

(** @src src/mivifwk/odm/plugins/qcom/ldc/device/dev_queue.cpp:186-207 DevQueue_GetWritePtr (body)
    The result and [*ptr], an offset into [data] ([None]: null or untouched). *)
Definition node_GetWritePtr (sz : Z) (n : Queue_node) : Z * option Z * Queue_node :=
  if negb (activeWriteSize n =? 0) then (0, None, n)
  else
    let returnedArea := Z.min (size n - atomic_unreadSize n) sz in
    let returnedArea := Z.min (size n - writeIndex n) returnedArea in
    match data n with
    | None => (0, None, n)
    | Some _ =>
        if returnedArea =? 0 then (0, None, n)
        else (returnedArea, Some (writeIndex n),
              set_write n (data n) (atomic_unreadSize n) (writeIndex n) returnedArea)
    end.

(** @src src/mivifwk/odm/plugins/qcom/ldc/device/dev_queue.cpp:214-223 DevQueue_MarkWriteDone (body) *)
Definition node_MarkWriteDone (n : Queue_node) : Z * Queue_node :=
  if activeWriteSize n =? 0 then (RET_CONTINUE, n)
  else
    (RET_OK, set_write n (data n) (fetch_add (atomic_unreadSize n) (activeWriteSize n))
               (advance n (writeIndex n) (activeWriteSize n)) 0).

(** @src src/mivifwk/odm/plugins/qcom/ldc/device/dev_queue.cpp:230-250 DevQueue_GetReadPtr (body) *)
Definition node_GetReadPtr (sz : Z) (n : Queue_node) : Z * option Z * Queue_node :=
  if negb (activeReadSize n =? 0) then (0, None, n)
  else
    let returnedArea := Z.min (atomic_unreadSize n) sz in
    let returnedArea := Z.min (size n - readIndex n) returnedArea in
    match data n with
    | None => (0, None, n)
    | Some _ =>
        if returnedArea =? 0 then (0, None, n)
        else (returnedArea, Some (readIndex n),
              set_read n (atomic_unreadSize n) (readIndex n) returnedArea)
    end.

(** @src src/mivifwk/odm/plugins/qcom/ldc/device/dev_queue.cpp:257-266 DevQueue_MarkReadDone (body) *)
Definition node_MarkReadDone (n : Queue_node) : Z * Queue_node :=
  if activeReadSize n =? 0 then (RET_CONTINUE, n)
  else
    (RET_OK, set_read n (fetch_sub (atomic_unreadSize n) (activeReadSize n))
               (advance n (readIndex n) (activeReadSize n)) 0).

(** @src src/mivifwk/odm/plugins/qcom/ldc/device/dev_queue.cpp:457-461 DevQueue_Available (body) *)
Definition node_Available (n : Queue_node) : Z :=
  if 0 <? size n - atomic_unreadSize n then size n - atomic_unreadSize n else 0.

(** @src src/mivifwk/odm/plugins/qcom/ldc/device/dev_queue.cpp:479-485 DevQueue_ContigAvailable (body) *)
Definition node_ContigAvailable (n : Queue_node) : Z :=
  if readIndex n <? writeIndex n then Z.max (size n - writeIndex n) (readIndex n)
  else if writeIndex n <? readIndex n then readIndex n - writeIndex n
  else size n - atomic_unreadSize n.

(** @src src/mivifwk/odm/plugins/qcom/ldc/device/dev_queue.cpp:503-508 DevQueue_Clean (body) *)
Definition node_Clean (n : Queue_node) : outcome Queue_node :=
  match data n with
  | None => UB
  | Some l =>
      if (0 <=? size n) && (size n <=? Z.of_nat (length l)) then
        Ret (mkQueue (pId n) (fileName n) (tagName n) (fileLine n) (createTimestamp n)
               (Some (splice l 0 (replicate (Z.to_nat (size n)) 0))) (size n) 0 0 0 0 0)
      else UB
  end.

(** ** The module *)

(** The statics [m_queue_p_list] and [init_f], with the rest of the memory the
    module touches; the static [m_mutex_Id] is a variable in [vars]. *)
Record world (M : Type) := mkWorld {
  mutexes : M;
  vars : cells;
  init_f : Z;
  m_queue_p_list : list slot;
}.
Arguments mkWorld {_} _ _ _ _.
Arguments mutexes {_} _.
Arguments vars {_} _.
Arguments init_f {_} _.
Arguments m_queue_p_list {_} _.

Definition queue_ids : list Z := seqZ 1 (MSG_QUEUE_MAX_NUM - 1).

Section Module.
Context `{MutexLib M}.
Context (malloc : Z → option (list Z)) (sizeof_Queue_node : Z) (GetTimestampMs : Z).
(** The address of the static variable [m_mutex_Id]. *)
Context (m_mutex_Id : Z).

Abbreviation world := (world M).

Definition set_slot (w : world) (id : Z) (x : slot) : world :=
  mkWorld (mutexes w) (vars w) (init_f w) (<[Z.to_nat id := x]> (m_queue_p_list w)).

Definition set_vars (w : world) (c : cells) : world :=
  mkWorld (mutexes w) c (init_f w) (m_queue_p_list w).

Definition set_mutexes (w : world) (m : M) : world :=
  mkWorld m (vars w) (init_f w) (m_queue_p_list w).

(** [Device->mutex->Lock(m_mutex_Id)], whose result the callers drop. *)
Definition lock (w : world) : outcome world :=
  id ← load (vars w) m_mutex_Id; '(_, m) ← mx_Lock id (mutexes w); Ret (set_mutexes w m).
Definition unlock (w : world) : outcome world :=
  id ← load (vars w) m_mutex_Id; '(_, m) ← mx_Unlock id (mutexes w); Ret (set_mutexes w m).

(** [m_queue_p_list[id]], dereferenced when it is not null. *)
Definition slot_at (w : world) (id : Z) : outcome slot :=
  if id <? 0 then UB else or_ub (m_queue_p_list w !! Z.to_nat id).

Definition queue_at (w : world) (id : Z) : outcome (option Queue_node) :=
  s ← slot_at w id;
  match s with Null => Ret None | Node n => Ret (Some n) | Dangling => UB end.

(** The prologue of the entry points on an id: [err] when the module is not
    initialised or the id has no queue. *)
Definition on_queue {A} (id : Z) (err : A) (w : world)
    (k : Queue_node → outcome (A * Queue_node)) : outcome (A * world) :=
  if negb (init_f w =? TRUE) then Ret (err, w)
  else
    q ← queue_at w id;
    match q with
    | None => Ret (err, w)
    | Some n => '(r, n) ← k n; Ret (r, set_slot w id (Node n))
    end.

(** @src src/mivifwk/odm/plugins/qcom/ldc/device/dev_queue.cpp:151-159 DevQueue_Empty *)
Definition DevQueue_Empty (id : Z) (w : world) : outcome (Z * world) :=
  on_queue id TRUE w (λ n, Ret (if atomic_unreadSize n =? 0 then TRUE else FALSE, n)).

(** @src src/mivifwk/odm/plugins/qcom/ldc/device/dev_queue.cpp:172-180 DevQueue_Full *)
Definition DevQueue_Full (id : Z) (w : world) : outcome (Z * world) :=
  on_queue id TRUE w (λ n, Ret (if atomic_unreadSize n =? size n then TRUE else FALSE, n)).

(** @src src/mivifwk/odm/plugins/qcom/ldc/device/dev_queue.cpp:182-208 DevQueue_GetWritePtr
    [ptr] tells whether the out parameter is non-null. *)
Definition DevQueue_GetWritePtr (id : Z) (ptr : bool) (sz : Z) (w : world)
    : outcome (Z * option Z * world) :=
  on_queue id (0, None) w (λ n,
    if negb ptr then Ret (0, None, n) else Ret (node_GetWritePtr sz n)).

(** @src src/mivifwk/odm/plugins/qcom/ldc/device/dev_queue.cpp:210-224 DevQueue_MarkWriteDone *)
Definition DevQueue_MarkWriteDone (id : Z) (w : world) : outcome (Z * world) :=
  on_queue id RET_ERR w (λ n, Ret (node_MarkWriteDone n)).

(** @src src/mivifwk/odm/plugins/qcom/ldc/device/dev_queue.cpp:226-251 DevQueue_GetReadPtr *)
Definition DevQueue_GetReadPtr (id : Z) (ptr : bool) (sz : Z) (w : world)
    : outcome (Z * option Z * world) :=
  on_queue id (0, None) w (λ n,
    if negb ptr then Ret (0, None, n) else Ret (node_GetReadPtr sz n)).

(** @src src/mivifwk/odm/plugins/qcom/ldc/device/dev_queue.cpp:253-267 DevQueue_MarkReadDone *)
Definition DevQueue_MarkReadDone (id : Z) (w : world) : outcome (Z * world) :=
  on_queue id RET_ERR w (λ n, Ret (node_MarkReadDone n)).

(** @src src/mivifwk/odm/plugins/qcom/ldc/device/dev_queue.cpp:307-313 DevQueue_Write8Bit *)
Definition DevQueue_Write8Bit (id v : Z) (w : world) : outcome (Z * world) :=
  on_queue id RET_ERR w (node_PushNBit (le_bytes 1 v)).

(** @src src/mivifwk/odm/plugins/qcom/ldc/device/dev_queue.cpp:315-321 DevQueue_Write16Bit *)
Definition DevQueue_Write16Bit (id v : Z) (w : world) : outcome (Z * world) :=
  on_queue id RET_ERR w (node_PushNBit (le_bytes 2 v)).

(** @src src/mivifwk/odm/plugins/qcom/ldc/device/dev_queue.cpp:323-329 DevQueue_Write32Bit *)
Definition DevQueue_Write32Bit (id v : Z) (w : world) : outcome (Z * world) :=
  on_queue id RET_ERR w (node_PushNBit (le_bytes 4 v)).

(** @src src/mivifwk/odm/plugins/qcom/ldc/device/dev_queue.cpp:331-337 DevQueue_Write64Bit *)
Definition DevQueue_Write64Bit (id v : Z) (w : world) : outcome (Z * world) :=
  on_queue id RET_ERR w (node_PushNBit (le_bytes 8 v)).

(** @src src/mivifwk/odm/plugins/qcom/ldc/device/dev_queue.cpp:339-353 DevQueue_Write
    [src] is the object behind the pointer, [None] for null. *)
Definition DevQueue_Write (id : Z) (src : option (list Z)) (sz : Z) (w : world)
    : outcome (Z * world) :=
  if negb (init_f w =? TRUE) then Ret (0, w)
  else
    match src with
    | None => Ret (RET_ERR_ARG, w)
    | Some src => on_queue id 0 w (λ n,
        match data n with None => Ret (0, n) | Some _ => node_Write src sz n end)
    end.

(** The value behind the out parameter of a [Read<N>Bit], when it succeeds. *)
Definition pop_value (k : Z) (n : Queue_node) : outcome (Z * option Z * Queue_node) :=
  '(r, bs, n) ← node_PopNBit k n;
  Ret (r, if r =? RET_OK then Some (le_value bs) else None, n).

Definition read_word (id : Z) (dst : bool) (k : Z) (w : world) : outcome (Z * option Z * world) :=
  if negb (init_f w =? TRUE) then Ret (RET_ERR, None, w)
  else if negb dst then Ret (RET_ERR_ARG, None, w)
  else on_queue id (RET_ERR, None) w (pop_value k).

(** @src src/mivifwk/odm/plugins/qcom/ldc/device/dev_queue.cpp:367-374 DevQueue_Read8Bit *)
Definition DevQueue_Read8Bit (id : Z) (dst : bool) := read_word id dst 1.

(** @src src/mivifwk/odm/plugins/qcom/ldc/device/dev_queue.cpp:376-383 DevQueue_Read16Bit *)
Definition DevQueue_Read16Bit (id : Z) (dst : bool) := read_word id dst 2.

(** @src src/mivifwk/odm/plugins/qcom/ldc/device/dev_queue.cpp:385-392 DevQueue_Read32Bit *)
Definition DevQueue_Read32Bit (id : Z) (dst : bool) := read_word id dst 4.

(** @src src/mivifwk/odm/plugins/qcom/ldc/device/dev_queue.cpp:394-401 DevQueue_Read64Bit *)
Definition DevQueue_Read64Bit (id : Z) (dst : bool) := read_word id dst 8.

(** @src src/mivifwk/odm/plugins/qcom/ldc/device/dev_queue.cpp:403-422 DevQueue_Read
    The result and the bytes copied to the caller's buffer. *)
Definition DevQueue_Read (id : Z) (dst : bool) (sz : Z) (w : world)
    : outcome (Z * list Z * world) :=
  if negb (init_f w =? TRUE) then Ret (0, [], w)
  else if negb dst then Ret (0, [], w)
  else on_queue id (0, []) w (λ n,
         match data n with None => Ret (0, [], n) | Some _ => node_Read sz n end).

(** @src src/mivifwk/odm/plugins/qcom/ldc/device/dev_queue.cpp:435-440 DevQueue_Count *)
Definition DevQueue_Count (id : Z) (w : world) : outcome (Z * world) :=
  on_queue id 0 w (λ n, Ret (atomic_unreadSize n, n)).

(** @src src/mivifwk/odm/plugins/qcom/ldc/device/dev_queue.cpp:453-462 DevQueue_Available *)
Definition DevQueue_Available (id : Z) (w : world) : outcome (Z * world) :=
  on_queue id 0 w (λ n, Ret (node_Available n, n)).

(** @src src/mivifwk/odm/plugins/qcom/ldc/device/dev_queue.cpp:475-486 DevQueue_ContigAvailable *)
Definition DevQueue_ContigAvailable (id : Z) (w : world) : outcome (Z * world) :=
  on_queue id 0 w (λ n, Ret (node_ContigAvailable n, n)).

(** @src src/mivifwk/odm/plugins/qcom/ldc/device/dev_queue.cpp:499-510 DevQueue_Clean *)
Definition DevQueue_Clean (id : Z) (w : world) : outcome (Z * world) :=
  on_queue id RET_ERR w (λ n, n ← node_Clean n; Ret (RET_OK, n)).

(** A queue of the table that belongs to the variable [p] and has its buffer;
    looking at a freed node is undefined behaviour. *)
Fixpoint find_owner (p : Z) (ids : list Z) (w : world) : outcome (option Z) :=
  match ids with
  | [] => Ret None
  | id :: ids' =>
      q ← queue_at w id;
      match q with
      | Some n =>
          if negb (pId n =? NULL) && (pId n =? p) && bool_decide (is_Some (data n))
          then Ret (Some id) else find_owner p ids' w
      | None => find_owner p ids' w
      end
  end.

(** The first null entry. *)
Definition find_null (w : world) : option Z :=
  find (λ id, match m_queue_p_list w !! Z.to_nat id with Some Null => true | _ => false end)
    queue_ids.

(** @src src/mivifwk/odm/plugins/qcom/ldc/device/dev_queue.cpp:82-138 DevQueue_Create *)
Definition DevQueue_Create (p sz : Z) (mk : mark) (w : world) : outcome (Z * world) :=
  if negb (init_f w =? TRUE) then Ret (0, w)
  else
    w ← lock w;
    let fail (w : world) := w ← unlock w; Ret (RET_ERR, w) in
    owner ← find_owner p queue_ids w;
    match owner with
    | Some _ => fail w
    | None =>
        match find_null w with
        | None => fail w
        | Some id =>
            match malloc sizeof_Queue_node with
            | None => fail w
            | Some _ =>
                match malloc sz with
                | None => fail w
                | Some block =>
                    c ← store (vars w) p id;
                    let n := mkQueue p
                      (snprintf_s FILE_NAME_LEN_MAX (DevQueue_NoDirFileName (mk_fileName mk)))
                      (snprintf_s FILE_NAME_LEN_MAX (mk_tagName mk)) (mk_fileLine mk)
                      GetTimestampMs (Some block) sz 0 0 0 0 0 in
                    w ← unlock (set_slot (set_vars w c) id (Node n));
                    Ret (RET_OK, w)
                end
            end
        end
    end.

(** @src src/mivifwk/odm/plugins/qcom/ldc/device/dev_queue.cpp:546-546 DevQueue_Destroy (size)
    [p_Queue->size = 0]. *)
Definition zero_size (id : Z) (w : world) : outcome world :=
  q ← queue_at w id;
  match q with
  | None => UB
  | Some n =>
      Ret (set_slot w id (Node (mkQueue (pId n) (fileName n) (tagName n) (fileLine n) (createTimestamp n) (data n) 0
        (atomic_unreadSize n) (writeIndex n) (activeWriteSize n) (readIndex n) (activeReadSize n))))
  end.

(** @src src/mivifwk/odm/plugins/qcom/ldc/device/dev_queue.cpp:524-563 DevQueue_Destroy
    The early return on a bad [m_id] leaves the module mutex locked, and the queue in the
    table with size 0. *)
Definition DevQueue_Destroy (p : Z) (w : world) : outcome (Z * world) :=
  if negb (init_f w =? TRUE) then Ret (RET_OK, w)
  else if p =? NULL then Ret (RET_ERR, w)
  else
    id ← load (vars w) p;
    if (id <=? 0) || (MSG_QUEUE_MAX_NUM <=? id) then Ret (RET_ERR, w)
    else
      w ← lock w;
      q ← queue_at w id;
      match q with
      | None => c ← store (vars w) p 0; w ← unlock (set_vars w c); Ret (RET_ERR, w)
      | Some n =>
          if pId n =? NULL then
            c ← store (vars w) p 0; w ← unlock (set_vars w c); Ret (RET_ERR, w)
          else
            '(_, w) ← DevQueue_Clean id w;
            w ← zero_size id w;
            m_id ← load (vars w) (pId n);
            if (m_id <=? 0) || (MSG_QUEUE_MAX_NUM <=? m_id) then Ret (RET_ERR, w)
            else
              let w := set_slot (set_slot w id Dangling) m_id Null in
              c ← store (vars w) p 0;
              w ← unlock (set_vars w c);
              Ret (RET_OK, w)
      end.

(** The report reads every node; its log lines are left out. *)
Fixpoint visit (ids : list Z) (w : world) : outcome bool :=
  match ids with
  | [] => Ret false
  | id :: ids' =>
      q ← queue_at w id;
      rest ← visit ids' w;
      match q with
      | Some n => Ret ((negb (pId n =? NULL) && bool_decide (is_Some (data n))) || rest)
      | None => Ret rest
      end
  end.

(** @src src/mivifwk/odm/plugins/qcom/ldc/device/dev_queue.cpp:565-591 DevQueue_Report *)
Definition DevQueue_Report (w : world) : outcome (Z * world) :=
  if negb (init_f w =? TRUE) then Ret (RET_ERR, w)
  else
    w ← lock w;
    _ ← visit (0 :: queue_ids) w;
    w ← unlock w;
    Ret (RET_OK, w).

(** @src src/mivifwk/odm/plugins/qcom/ldc/device/dev_queue.cpp:605-614 DevQueue_Init *)
Definition DevQueue_Init (mk : mark) (w : world) : outcome (Z * world) :=
  if init_f w =? TRUE then Ret (RET_OK, w)
  else
    '(ret, (m, c)) ← mx_Create m_mutex_Id mk (mutexes w, vars w);
    if negb (s32 ret =? RET_OK) then Ret (0, mkWorld m c (init_f w) (m_queue_p_list w))
    else Ret (RET_OK, mkWorld m c TRUE (replicate (Z.to_nat MSG_QUEUE_MAX_NUM) Null)).

(** The loop of [Deinit] over a local variable at [idp]. *)
Fixpoint destroy_all (idp : Z) (ids : list Z) (w : world) : outcome world :=
  match ids with
  | [] => Ret w
  | id :: ids' =>
      c ← store (vars w) idp id;
      '(_, w) ← DevQueue_Destroy idp (set_vars w c);
      destroy_all idp ids' w
  end.

(** @src src/mivifwk/odm/plugins/qcom/ldc/device/dev_queue.cpp:628-652 DevQueue_Deinit *)
Definition DevQueue_Deinit (idp : Z) (w : world) : outcome (Z * world) :=
  if negb (init_f w =? TRUE) then Ret (RET_OK, w)
  else
    report ← visit (0 :: queue_ids) w;
    w ← (if report : bool then r ← DevQueue_Report w; Ret r.2 else Ret w);
    w ← destroy_all idp queue_ids w;
    '(_, (m, c)) ← mx_Destroy m_mutex_Id (mutexes w, vars w);
    Ret (RET_OK, mkWorld m c FALSE (replicate (Z.to_nat MSG_QUEUE_MAX_NUM) Null)).
End Module.

(** ** Specification: the bytes in a ring *)

(** [wrap N i]: the index [i < 2 * N] taken around the ring of [N] cells. *)
Definition wrap (N i : nat) : nat := if (i <? N)%nat then i else (i - N)%nat.

(** The [u] bytes from index [ri] on, around the end. *)
Definition ring (l : list Z) (ri u : nat) : list Z := take u (drop ri l ++ take ri l).

Lemma lookup_ring l ri u j : (ri < length l)%nat → (u ≤ length l)%nat →
  ring l ri u !! j = if decide (j < u)%nat then l !! wrap (length l) (ri + j) else None.
Proof.
  intros Hri Hu. unfold ring. case_decide as Hj.
  - rewrite lookup_take_lt by done. unfold wrap. destruct (Nat.ltb_spec (ri + j) (length l)).
    + rewrite lookup_app_l by (rewrite length_drop; lia). by rewrite lookup_drop.
    + rewrite lookup_app_r by (rewrite length_drop; lia). rewrite length_drop.
      rewrite lookup_take_lt by lia. f_equal. lia.
  - apply lookup_take_ge. lia.
Qed.

Lemma length_ring l ri u : (ri < length l)%nat → (u ≤ length l)%nat → length (ring l ri u) = u.
Proof. intros. unfold ring. rewrite length_take, length_app, length_drop, length_take. lia. Qed.

(** Writing where the unread bytes end appends to them. *)
Lemma ring_write l ri u bs : (ri < length l)%nat → (u + length bs ≤ length l)%nat →
  (wrap (length l) (ri + u) + length bs ≤ length l)%nat → bs ≠ [] →
  ring (splice l (wrap (length l) (ri + u)) bs) ri (u + length bs) = ring l ri u ++ bs.
Proof.
  intros Hri Hu Hfit Hne. assert (0 < length bs)%nat by (destruct bs; simpl; [done|lia]).
  apply list_eq. intros j.
  rewrite lookup_ring by (rewrite length_splice; lia). rewrite length_splice by lia.
  destruct (decide (j < u)%nat) as [Hj|Hj].
  - rewrite lookup_app_l by (rewrite length_ring; lia). rewrite lookup_ring by lia.
    rewrite decide_True by lia. rewrite decide_True by done.
    unfold wrap in *. destruct (Nat.ltb_spec (ri + u) (length l)), (Nat.ltb_spec (ri + j) (length l));
      first [rewrite lookup_splice_lt by lia; done|rewrite lookup_splice_ge by lia; done|lia].
  - rewrite lookup_app_r by (rewrite length_ring; lia). rewrite length_ring by lia.
    case_decide as Hk.
    + unfold wrap in *. destruct (Nat.ltb_spec (ri + u) (length l)), (Nat.ltb_spec (ri + j) (length l));
        try lia; (rewrite lookup_splice_in by lia; f_equal; lia).
    + by rewrite lookup_ge_None_2 by lia.
Qed.

(** Reading from where the unread bytes start takes them from the front. *)
Lemma ring_read l ri u k : (ri < length l)%nat → (k ≤ u)%nat → (u ≤ length l)%nat →
  (ri + k ≤ length l)%nat → (0 < length l)%nat →
  take k (drop ri l) = take k (ring l ri u) ∧
  ring l (wrap (length l) (ri + k)) (u - k) = drop k (ring l ri u).
Proof.
  intros Hri Hk Hu Hfit Hpos. split.
  - unfold ring. rewrite take_take. rewrite Nat.min_l by lia.
    by rewrite take_app_le by (rewrite length_drop; lia).
  - apply list_eq. intros j. rewrite lookup_drop.
    assert (wrap (length l) (ri + k) < length l)%nat as Hw
      by (unfold wrap; destruct (Nat.ltb_spec (ri + k) (length l)); lia).
    rewrite !lookup_ring by lia.
    destruct (decide (j < u - k)%nat).
    + rewrite decide_True by lia. f_equal. unfold wrap in *.
      destruct (Nat.ltb_spec (ri + k) (length l)), (Nat.ltb_spec (ri + (k + j)) (length l));
        repeat match goal with |- context [(?a <? ?b)%nat] => destruct (Nat.ltb_spec a b) end; lia.
    + by rewrite decide_False by lia.
Qed.

(** ** A queue is a bounded FIFO of bytes *)

Definition buf (n : Queue_node) : list Z := default [] (data n).

(** The unread bytes, oldest first. *)
Definition contents (n : Queue_node) : list Z :=
  ring (buf n) (Z.to_nat (readIndex n)) (Z.to_nat (atomic_unreadSize n)).

(** The invariant of a queue whose capacity fits the 32-bit counter. *)
Record queue_wf (n : Queue_node) : Prop := {
  qwf_data : data n = Some (buf n);
  qwf_len : Z.of_nat (length (buf n)) = size n;
  qwf_size : 0 < size n ≤ INT_MAX;
  qwf_unread : 0 ≤ atomic_unreadSize n ≤ size n;
  qwf_read : 0 ≤ readIndex n < size n;
  qwf_write : writeIndex n =
    if readIndex n + atomic_unreadSize n <? size n
    then readIndex n + atomic_unreadSize n
    else readIndex n + atomic_unreadSize n - size n;
}.

Lemma qwf_write_range n : queue_wf n → 0 ≤ writeIndex n < size n.
Proof. intros [? ? ? ? ? ->]. destruct (Z.ltb_spec (readIndex n + atomic_unreadSize n) (size n)); lia. Qed.

Lemma qwf_write_wrap n : queue_wf n →
  wrap (length (buf n)) (Z.to_nat (readIndex n) + Z.to_nat (atomic_unreadSize n))
  = Z.to_nat (writeIndex n).
Proof.
  intros [? ? ? ? ? ->]. unfold wrap.
  destruct (Z.ltb_spec (readIndex n + atomic_unreadSize n) (size n)),
    (Nat.ltb_spec (Z.to_nat (readIndex n) + Z.to_nat (atomic_unreadSize n)) (length (buf n))); lia.
Qed.

Lemma length_contents n : queue_wf n → Z.of_nat (length (contents n)) = atomic_unreadSize n.
Proof. intros [? ? ? ? ? _]. unfold contents. rewrite length_ring by lia. lia. Qed.

Lemma fetch_add_small u k : 0 ≤ u → 0 ≤ k → u + k ≤ INT_MAX → fetch_add u k = u + k.
Proof. intros. unfold fetch_add. unwrap. done. Qed.

Lemma fetch_sub_small u k : 0 ≤ k ≤ u → u ≤ INT_MAX → fetch_sub u k = u - k.
Proof. intros. unfold fetch_sub. unwrap. done. Qed.

(** Bytes that fit before the end of the buffer, stored and counted. *)
Lemma commit_write n bs aw : queue_wf n → bs ≠ [] →
  atomic_unreadSize n + Z.of_nat (length bs) ≤ size n →
  writeIndex n + Z.of_nat (length bs) ≤ size n →
  data_write (data n) (writeIndex n) bs =
    Ret (Some (splice (buf n) (Z.to_nat (writeIndex n)) bs)) ∧
  let n' := set_write n (Some (splice (buf n) (Z.to_nat (writeIndex n)) bs))
              (fetch_add (atomic_unreadSize n) (Z.of_nat (length bs)))
              (advance n (writeIndex n) (Z.of_nat (length bs))) aw in
  queue_wf n' ∧ contents n' = contents n ++ bs.
Proof.
  intros Hwf Hne Hu Hw. pose proof Hwf as [Hd Hl Hs Hur Hr Hwi].
  pose proof (qwf_write_range n Hwf) as Hwr. unfold data_write, is_s32, INT_MAX in *.
  assert (0 < Z.of_nat (length bs)) by (destruct bs; simpl; [done|lia]).
  rewrite Hd. split.
  { destruct (Z.leb_spec 0 (writeIndex n)); [|lia].
    by destruct (Z.leb_spec (writeIndex n + Z.of_nat (length bs)) (Z.of_nat (length (buf n)))); [|lia]. }
  rewrite fetch_add_small by (unfold INT_MAX; lia). split.
  - split; simpl; [done| | |lia|done|].
    + unfold buf at 1; simpl. rewrite length_splice by lia. done.
    + done.
    + unfold advance. rewrite Hwi in *.
      destruct (Z.ltb_spec (readIndex n + atomic_unreadSize n) (size n)),
        (Z.ltb_spec (readIndex n + (atomic_unreadSize n + Z.of_nat (length bs))) (size n));
        match goal with |- context [?a =? ?b] => destruct (Z.eqb_spec a b) end; lia.
  - unfold contents, buf at 1. simpl. rewrite Z2Nat.inj_add, Nat2Z.id by lia.
    rewrite <-(qwf_write_wrap n Hwf). apply ring_write; [lia|lia| |done].
    rewrite (qwf_write_wrap n Hwf). lia.
Qed.

(** Bytes taken before the end of the buffer, and uncounted. *)
Lemma commit_read n k ar : queue_wf n → 0 < k ≤ atomic_unreadSize n →
  readIndex n + k ≤ size n →
  data_read (data n) (readIndex n) k = Ret (take (Z.to_nat k) (contents n)) ∧
  let n' := set_read n (fetch_sub (atomic_unreadSize n) k) (advance n (readIndex n) k) ar in
  queue_wf n' ∧ contents n' = drop (Z.to_nat k) (contents n).
Proof.
  intros Hwf Hk Hr'. pose proof Hwf as [Hd Hl Hs Hur Hr Hwi]. unfold data_read, INT_MAX in *.
  destruct (ring_read (buf n) (Z.to_nat (readIndex n)) (Z.to_nat (atomic_unreadSize n)) (Z.to_nat k))
    as [E1 E2]; [lia..|].
  rewrite Hd. split.
  { destruct (Z.leb_spec 0 (readIndex n)); [|lia]. destruct (Z.leb_spec 0 k); [|lia].
    destruct (Z.leb_spec (readIndex n + k) (Z.of_nat (length (buf n)))); [|lia].
    simpl. unfold slice, contents. by rewrite E1. }
  rewrite fetch_sub_small by (unfold INT_MAX; lia). split.
  - split; simpl; [done|done|done|lia| |].
    + unfold advance. destruct (Z.eqb_spec (readIndex n + k) (size n)); lia.
    + rewrite Hwi. unfold advance.
      destruct (Z.eqb_spec (readIndex n + k) (size n)),
        (Z.ltb_spec (readIndex n + atomic_unreadSize n) (size n));
        repeat match goal with |- context [?a <? ?b] => destruct (Z.ltb_spec a b) end; lia.
  - unfold contents in *. simpl. change (buf (set_read _ _ _ _)) with (buf n). rewrite <-E2.
    f_equal; [|lia]. unfold advance, wrap.
    destruct (Z.eqb_spec (readIndex n + k) (size n)),
      (Nat.ltb_spec (Z.to_nat (readIndex n) + Z.to_nat k) (length (buf n))); lia.
Qed.

(** ** Clients of one queue

    The operations a client performs, the block transfers through the pointer
    calls: reserve, copy, mark done.  Byte operations and block transfers are
    the uses for which the module keeps within its buffer. *)
Inductive queue_op :=
  | OpWrite8 (v : Z)
  | OpRead8
  | OpPut (bs : list Z)
  | OpGet (sz : Z)
  | OpCount
  | OpClean.

(** A queue no transfer is in progress on. *)
Definition idle (n : Queue_node) : Prop :=
  queue_wf n ∧ activeWriteSize n = 0 ∧ activeReadSize n = 0.

Section Client.
Context `{MutexLib M}.

(** The client's copy to or from the pointer it was given. *)
Definition client_fill (id off : Z) (bs : list Z) (w : world M) : outcome (Z * world M) :=
  on_queue id 0 w (λ n,
    d ← data_write (data n) off bs;
    Ret (0, set_write n d (atomic_unreadSize n) (writeIndex n) (activeWriteSize n))).

Definition client_load (id off k : Z) (w : world M) : outcome (list Z * world M) :=
  on_queue id [] w (λ n, bs ← data_read (data n) off k; Ret (bs, n)).

Definition run_op (id : Z) (op : queue_op) (w : world M) : outcome (Z * list Z * world M) :=
  match op with
  | OpWrite8 v => '(r, w) ← DevQueue_Write8Bit id v w; Ret (r, [], w)
  | OpRead8 =>
      '(r, v, w) ← DevQueue_Read8Bit id true w;
      Ret (r, match v with Some b => [b] | None => [] end, w)
  | OpPut bs =>
      '(k, ptr, w) ← DevQueue_GetWritePtr id true (Z.of_nat (length bs)) w;
      match ptr with
      | None => Ret (0, [], w)
      | Some off =>
          '(_, w) ← client_fill id off (take (Z.to_nat k) bs) w;
          '(_, w) ← DevQueue_MarkWriteDone id w;
          Ret (k, [], w)
      end
  | OpGet sz =>
      '(k, ptr, w) ← DevQueue_GetReadPtr id true sz w;
      match ptr with
      | None => Ret (0, [], w)
      | Some off =>
          '(bs, w) ← client_load id off k w;
          '(_, w) ← DevQueue_MarkReadDone id w;
          Ret (k, bs, w)
      end
  | OpCount => '(r, w) ← DevQueue_Count id w; Ret (r, [], w)
  | OpClean => '(r, w) ← DevQueue_Clean id w; Ret (r, [], w)
  end.

Fixpoint run_ops (id : Z) (ops : list queue_op) (w : world M)
    : outcome (list (Z * list Z) * world M) :=
  match ops with
  | [] => Ret ([], w)
  | op :: ops' =>
      '(r, bs, w) ← run_op id op w;
      '(results, w) ← run_ops id ops' w;
      Ret ((r, bs) :: results, w)
  end.
End Client.

(** The same operations on an abstract FIFO of capacity [N].  A block transfer
    may move less than asked (as much as is contiguous), but makes progress
    when it can. *)
Inductive fifo_step (N : Z) : queue_op → list Z → Z * list Z → list Z → Prop :=
  | fifo_write8 v l : Z.of_nat (length l) < N →
      fifo_step N (OpWrite8 v) l (RET_OK, []) (l ++ [v mod 256])
  | fifo_write8_full v l : Z.of_nat (length l) = N →
      fifo_step N (OpWrite8 v) l (RET_ERR, []) l
  | fifo_read8 b l : fifo_step N OpRead8 (b :: l) (RET_OK, [b]) l
  | fifo_read8_empty : fifo_step N OpRead8 [] (RET_ERR, []) []
  | fifo_put bs l k : 0 ≤ k ≤ Z.of_nat (length bs) → k ≤ N - Z.of_nat (length l) →
      (bs ≠ [] → Z.of_nat (length l) < N → 0 < k) →
      fifo_step N (OpPut bs) l (k, []) (l ++ take (Z.to_nat k) bs)
  | fifo_get sz l k : 0 ≤ k ≤ sz → k ≤ Z.of_nat (length l) → (0 < sz → l ≠ [] → 0 < k) →
      fifo_step N (OpGet sz) l (k, take (Z.to_nat k) l) (drop (Z.to_nat k) l)
  | fifo_count l : fifo_step N OpCount l (Z.of_nat (length l), []) l
  | fifo_clean l : fifo_step N OpClean l (RET_OK, []) [].

Inductive fifo_trace (N : Z) : list queue_op → list Z → list (Z * list Z) → list Z → Prop :=
  | fifo_nil l : fifo_trace N [] l [] l
  | fifo_cons op ops l r l' rs l'' :
      fifo_step N op l r l' → fifo_trace N ops l' rs l'' →
      fifo_trace N (op :: ops) l (r :: rs) l''.

Definition op_ok (op : queue_op) : Prop :=
  match op with OpGet sz => 0 ≤ sz | _ => True end.

Section Fifo.
Context `{MutexLib M}.

(** Entry [id] of an initialised table holds the node [n]. *)
Definition queue_in (w : world M) (id : Z) (n : Queue_node) : Prop :=
  init_f w = TRUE ∧ 0 ≤ id ∧ m_queue_p_list w !! Z.to_nat id = Some (Node n).

(** [w'] is [w] with another node in entry [id]. *)
Definition updates (id : Z) (w w' : world M) : Prop :=
  ∃ n', w' = set_slot w id (Node n').

Lemma queue_in_set w id n n' : queue_in w id n → queue_in (set_slot w id (Node n')) id n'.
Proof.
  intros (Hi & Hid & Hn). split; [done|]. split; [done|]. simpl.
  apply list_lookup_insert_eq. by eapply lookup_lt_Some.
Qed.

Lemma set_slot_twice (w : world M) id x y : set_slot (set_slot w id x) id y = set_slot w id y.
Proof. unfold set_slot; simpl. by rewrite list_insert_insert_eq. Qed.

Lemma on_queue_in {A} (w : world M) id n (err : A) k : queue_in w id n →
  on_queue id err w k = ('(r, n) ← k n; Ret (r, set_slot w id (Node n))).
Proof.
  intros (Hi & Hid & Hn). unfold on_queue, queue_at, slot_at. rewrite Hi. simpl.
  destruct (Z.ltb_spec id 0); [lia|]. rewrite Hn. done.
Qed.

Lemma byte_le_bytes v : le_bytes 1 v = [v mod 256].
Proof. reflexivity. Qed.

Definition step_ok (id : Z) (op : queue_op) (w : world M) (n : Queue_node) : Prop :=
  ∃ r bs n', run_op id op w = Ret (r, bs, set_slot w id (Node n')) ∧ idle n' ∧
    size n' = size n ∧ fifo_step (size n) op (contents n) (r, bs) (contents n').

Lemma Write8_ok id v w n : queue_in w id n → idle n → step_ok id (OpWrite8 v) w n.
Proof.
  intros Hq (Hwf & Haw & Har). pose proof (length_contents n Hwf) as Hlc.
  pose proof (qwf_write_range n Hwf) as Hwr. pose proof Hwf as [Hd Hl Hs Hu Hr Hwi].
  unfold step_ok. cbn [run_op]. unfold DevQueue_Write8Bit. rewrite (on_queue_in _ _ _ _ _ Hq).
  unfold node_PushNBit. rewrite byte_le_bytes. cbn [length]. change (Z.of_nat 1) with 1.
  destruct (Z.ltb_spec (size n - atomic_unreadSize n) 1) as [Hfull|Hroom].
  - cbn [mbind outcome_bind]. do 3 eexists. split; [done|]. split; [done|]. split; [done|].
    apply fifo_write8_full. lia.
  - destruct (commit_write n [v mod 256] (activeWriteSize n)) as (-> & Hwf' & Ec);
      [done|done|simpl; lia|simpl; lia|].
    cbn [mbind outcome_bind]. do 3 eexists. split; [done|]. split; [done|]. split; [done|].
    cbn [length] in Ec. change (Z.of_nat 1) with 1 in Ec. rewrite Ec. apply fifo_write8. lia.
Qed.

Lemma Read8_ok id w n : queue_in w id n → idle n → step_ok id OpRead8 w n.
Proof.
  intros Hq (Hwf & Haw & Har). pose proof (length_contents n Hwf) as Hlc.
  pose proof Hwf as [Hd Hl Hs Hu Hr Hwi].
  unfold step_ok. cbn [run_op]. unfold DevQueue_Read8Bit, read_word.
  pose proof Hq as (Hi & _). rewrite Hi. cbn [negb Z.eqb TRUE].
  change (negb (1 =? 1)) with false. cbv iota. rewrite (on_queue_in _ _ _ _ _ Hq).
  unfold pop_value, node_PopNBit.
  destruct (Z.ltb_spec (atomic_unreadSize n) 1) as [He|Hne].
  - cbn [mbind outcome_bind]. do 3 eexists. split; [done|]. split; [done|]. split; [done|].
    destruct (contents n); [|simpl in Hlc; lia]. apply fifo_read8_empty.
  - destruct (commit_read n 1 (activeReadSize n)) as (-> & Hwf' & Ec); [done|lia|lia|].
    destruct (contents n) as [|b l] eqn:Ec0; [simpl in Hlc; lia|].
    cbn [mbind outcome_bind]. do 3 eexists. split; [done|]. split; [done|]. split; [done|].
    rewrite Ec. simpl. rewrite Z.add_0_r. apply fifo_read8.
Qed.

Lemma Put_ok id bs w n : queue_in w id n → idle n → step_ok id (OpPut bs) w n.
Proof.
  intros Hq (Hwf & Haw & Har). pose proof (length_contents n Hwf) as Hlc.
  pose proof (qwf_write_range n Hwf) as Hwr. pose proof Hwf as [Hd Hl Hs Hu Hr Hwi].
  unfold step_ok. cbn [run_op]. unfold DevQueue_GetWritePtr. rewrite (on_queue_in _ _ _ _ _ Hq).
  cbn [negb]. unfold node_GetWritePtr. rewrite Haw, Hd. cbn [negb Z.eqb].
  set (k := Z.min (size n - writeIndex n)
    (Z.min (size n - atomic_unreadSize n) (Z.of_nat (length bs)))).
  assert (k ≤ size n - writeIndex n ∧ k ≤ size n - atomic_unreadSize n ∧
    0 ≤ k ≤ Z.of_nat (length bs)) as (Hk1 & Hk2 & Hk3) by lia.
  assert (bs ≠ [] → atomic_unreadSize n < size n → 0 < k) as Hprog.
  { intros Hne ?. assert (0 < Z.of_nat (length bs)) by (destruct bs; simpl; [done|lia]). lia. }
  clearbody k. destruct (Z.eqb_spec k 0) as [->|Hk0].
  - cbn [mbind outcome_bind]. do 3 eexists. split; [done|]. split; [done|]. split; [done|].
    pose proof (fifo_put (size n) bs (contents n) 0) as Hp. change (Z.to_nat 0) with 0%nat in Hp.
    rewrite take_0, (right_id_L [] (++)) in Hp. apply Hp; [lia|lia|]. by rewrite Hlc.
  - cbn [mbind outcome_bind].
    assert (Z.of_nat (length (take (Z.to_nat k) bs)) = k) as Hlt by (rewrite length_take; lia).
    destruct (commit_write n (take (Z.to_nat k) bs) 0) as (Ew & Hwf' & Ec);
      [done|intros E; rewrite E in Hlt; simpl in Hlt; lia|lia|lia|].
    rewrite Hlt in Hwf', Ec. rewrite Hd in Ew.
    unfold client_fill. erewrite on_queue_in by (eapply queue_in_set, Hq). cbn [data set_write].
    rewrite Ew. cbn [mbind outcome_bind]. rewrite set_slot_twice.
    unfold DevQueue_MarkWriteDone. erewrite on_queue_in by (eapply queue_in_set, Hq).
    unfold node_MarkWriteDone. cbn [activeWriteSize set_write].
    destruct (Z.eqb_spec k 0) as [|_]; [done|]. cbn [mbind outcome_bind]. rewrite set_slot_twice.
    do 3 eexists. split; [done|]. split; [split; [exact Hwf'|done]|]. split; [done|].
    cbv zeta in Ec. change (contents _) with
      (contents (set_write n (Some (splice (buf n) (Z.to_nat (writeIndex n)) (take (Z.to_nat k) bs)))
        (fetch_add (atomic_unreadSize n) k) (advance n (writeIndex n) k) 0)) at 2.
    rewrite Ec. apply fifo_put; [lia|lia|]. by rewrite Hlc.
Qed.

Lemma Get_ok id sz w n : queue_in w id n → idle n → 0 ≤ sz → step_ok id (OpGet sz) w n.
Proof.
  intros Hq (Hwf & Haw & Har) Hsz. pose proof (length_contents n Hwf) as Hlc.
  pose proof Hwf as [Hd Hl Hs Hu Hr Hwi].
  unfold step_ok. cbn [run_op]. unfold DevQueue_GetReadPtr. rewrite (on_queue_in _ _ _ _ _ Hq).
  cbn [negb]. unfold node_GetReadPtr. rewrite Har, Hd. cbn [negb Z.eqb].
  set (k := Z.min (size n - readIndex n) (Z.min (atomic_unreadSize n) sz)).
  assert (k ≤ size n - readIndex n ∧ k ≤ atomic_unreadSize n ∧ 0 ≤ k ≤ sz) as (Hk1 & Hk2 & Hk3) by lia.
  assert (0 < sz → contents n ≠ [] → 0 < k) as Hprog.
  { intros ? Hne. assert (0 < Z.of_nat (length (contents n)))
      by (destruct (contents n); simpl; [done|lia]). lia. }
  clearbody k. destruct (Z.eqb_spec k 0) as [->|Hk0].
  - cbn [mbind outcome_bind]. do 3 eexists. split; [done|]. split; [done|]. split; [done|].
    pose proof (fifo_get (size n) sz (contents n) 0) as Hp. change (Z.to_nat 0) with 0%nat in Hp.
    apply Hp; [lia|lia|done].
  - cbn [mbind outcome_bind].
    destruct (commit_read n k 0) as (Er & Hwf' & Ec); [done|lia|lia|].
    rewrite Hd in Er. unfold client_load. erewrite on_queue_in by (eapply queue_in_set, Hq).
    cbn [data set_read]. rewrite Hd, Er. cbn [mbind outcome_bind]. rewrite set_slot_twice.
    unfold DevQueue_MarkReadDone. erewrite on_queue_in by (eapply queue_in_set, Hq).
    unfold node_MarkReadDone. cbn [activeReadSize set_read].
    destruct (Z.eqb_spec k 0) as [|_]; [done|]. cbn [mbind outcome_bind]. rewrite set_slot_twice.
    do 3 eexists. split; [done|]. split; [split; [exact Hwf'|done]|]. split; [done|].
    change (contents _) with (contents (set_read n (fetch_sub (atomic_unreadSize n) k)
        (advance n (readIndex n) k) 0)) at 3.
    rewrite Ec. apply fifo_get; [lia|lia|done].
Qed.

Lemma Clean_wf n : queue_wf n → ∃ n', node_Clean n = Ret n' ∧ idle n' ∧ size n' = size n ∧
  contents n' = [].
Proof.
  intros [Hd Hl Hs Hu Hr Hwi]. unfold node_Clean. rewrite Hd.
  destruct (Z.leb_spec 0 (size n)); [|lia].
  destruct (Z.leb_spec (size n) (Z.of_nat (length (buf n)))); [|lia]. simpl.
  eexists. split; [done|]. split; [|split; [done|]].
  - split; [|done]. split; simpl; [done| |done|lia|lia|].
    + unfold buf at 1; simpl. rewrite length_splice by (rewrite length_replicate; lia). done.
    + destruct (Z.ltb_spec (0 + 0) (size n)); lia.
  - unfold contents; simpl. reflexivity.
Qed.

Lemma op_step_ok id op w n : queue_in w id n → idle n → op_ok op → step_ok id op w n.
Proof.
  intros Hq Hidle Hop. pose proof Hidle as [Hwf _].
  destruct op as [v| |bs|sz| |]; [by apply Write8_ok|by apply Read8_ok|by apply Put_ok
    |by apply Get_ok| |]; unfold step_ok; cbn [run_op].
  - unfold DevQueue_Count. rewrite (on_queue_in _ _ _ _ _ Hq). cbn [mbind outcome_bind].
    do 3 eexists. split; [done|]. split; [done|]. split; [done|].
    rewrite <-(length_contents n Hwf). apply fifo_count.
  - unfold DevQueue_Clean. rewrite (on_queue_in _ _ _ _ _ Hq).
    destruct (Clean_wf n Hwf) as (n' & -> & Hi' & Hsz & Ec). cbn [mbind outcome_bind].
    do 3 eexists. split; [done|]. split; [done|]. split; [done|]. rewrite Ec. apply fifo_clean.
Qed.

(** C10. A queue used through the byte calls and the pointer calls is a bounded
    FIFO: every sequence of operations succeeds without leaving the buffer, its
    results are those of the abstract FIFO that holds the unread bytes, and it
    touches no other entry of the table and no lock. *)
Theorem DevQueue_refines_fifo (id : Z) (ops : list queue_op) (w : world M) (n : Queue_node) :
  queue_in w id n → idle n → Forall op_ok ops →
  ∃ results n', run_ops id ops w = Ret (results, set_slot w id (Node n')) ∧ idle n' ∧
    fifo_trace (size n) ops (contents n) results (contents n').
Proof.
  intros Hq Hidle Hops. revert w n Hq Hidle.
  induction Hops as [|op ops Hop Hops IH]; intros w n Hq Hidle; cbn [run_ops].
  { exists [], n. split; [|split; [done|constructor]].
    do 2 f_equal. destruct Hq as (_ & _ & Hn). unfold set_slot.
    rewrite list_insert_id by done. by destruct w. }
  destruct (op_step_ok id op w n Hq Hidle Hop) as (r & bs & n1 & -> & Hidle1 & Hsz & Hstep).
  cbn [mbind outcome_bind].
  destruct (IH (set_slot w id (Node n1)) n1) as (rs & n2 & -> & Hidle2 & Htr);
    [by eapply queue_in_set|done|].
  cbn [mbind outcome_bind]. rewrite set_slot_twice. do 2 eexists. split; [done|].
  split; [done|]. econstructor; [done|]. by rewrite <-Hsz.
Qed.
End Fifo.

(** ** Words of one width *)

(** A queue only [k]-byte words went through, of a size that is a multiple of
    [k]. *)
Definition aligned (k : Z) (n : Queue_node) : Prop :=
  queue_wf n ∧ (k | size n) ∧ (k | readIndex n) ∧ (k | atomic_unreadSize n).

Lemma divide_le k a b : 0 < k → (k | a) → (k | b) → a < b → a + k ≤ b.
Proof.
  intros Hk [x ->] [y ->] Hlt. assert (x < y) by nia.
  replace (x * k + k) with ((x + 1) * k) by lia. apply Z.mul_le_mono_nonneg_r; lia.
Qed.

Lemma aligned_write k n : 0 < k → aligned k n →
  (k | writeIndex n) ∧ writeIndex n + k ≤ size n.
Proof.
  intros Hk (Hwf & Hs & Hr & Hu). pose proof (qwf_write_range n Hwf) as Hwr.
  assert (k | writeIndex n) as Hd.
  { rewrite (qwf_write n Hwf). case_bool; [by apply Z.divide_add_r|].
    apply Z.divide_sub_r; [by apply Z.divide_add_r|done]. }
  split; [done|]. apply divide_le; [done|done|done|lia].
Qed.

Lemma advance_divide k n i : (k | size n) → (k | i) → (k | advance n i k).
Proof.
  intros Hs Hi. unfold advance. case_bool; [apply Z.divide_0_r|].
  apply Z.divide_add_r; [done|apply Z.divide_refl].
Qed.

(** Words of one width, in a queue whose size is a multiple of it, go in and
    out in order and whole: the push is refused exactly when the queue is full,
    the pop exactly when it is empty, and no access leaves the buffer. *)
Theorem DevQueue_words_fifo (k : nat) (v : Z) (n : Queue_node) :
  (0 < k)%nat → aligned (Z.of_nat k) n → 0 ≤ v < 256 ^ Z.of_nat k →
  (if decide (atomic_unreadSize n = size n)
   then node_PushNBit (le_bytes k v) n = Ret (RET_ERR, n)
   else ∃ n', node_PushNBit (le_bytes k v) n = Ret (RET_OK, n') ∧ aligned (Z.of_nat k) n' ∧
     size n' = size n ∧ contents n' = contents n ++ le_bytes k v) ∧
  (if decide (atomic_unreadSize n = 0)
   then pop_value (Z.of_nat k) n = Ret (RET_ERR, None, n)
   else ∃ n', pop_value (Z.of_nat k) n
       = Ret (RET_OK, Some (le_value (take k (contents n))), n') ∧ aligned (Z.of_nat k) n' ∧
     size n' = size n ∧ contents n' = drop k (contents n)) ∧
  le_value (le_bytes k v) = v.
Proof.
  intros Hk0 Hal Hv. assert (0 < Z.of_nat k) as Hk by lia.
  destruct (aligned_write _ _ Hk Hal) as [Hwd Hwfit].
  destruct Hal as (Hwf & Hs & Hr & Hu). pose proof Hwf as [Hd Hl Hsz Hur Hrr Hwi].
  split; [|split; [|by apply le_value_bytes]].
  - unfold node_PushNBit. rewrite length_le_bytes. case_decide as Hfull.
    { by destruct (Z.ltb_spec (size n - atomic_unreadSize n) (Z.of_nat k)); [|lia]. }
    pose proof (divide_le (Z.of_nat k) (atomic_unreadSize n) (size n) Hk Hu Hs ltac:(lia)) as Hfit.
    destruct (Z.ltb_spec (size n - atomic_unreadSize n) (Z.of_nat k)); [lia|].
    destruct (commit_write n (le_bytes k v) (activeWriteSize n)) as (-> & Hwf' & Ec);
      [done|by destruct k|rewrite length_le_bytes; lia..|].
    rewrite length_le_bytes in *. cbn [mbind outcome_bind]. eexists. split; [done|].
    split; [|by split]. split; [done|]. split; [done|]. split; [done|].
    cbn [atomic_unreadSize set_write]. rewrite fetch_add_small by lia.
    apply Z.divide_add_r; [done|apply Z.divide_refl].
  - unfold pop_value, node_PopNBit. case_decide as Hempty.
    { rewrite Hempty. by destruct (Z.ltb_spec 0 (Z.of_nat k)); [|lia]. }
    pose proof (divide_le (Z.of_nat k) 0 (atomic_unreadSize n) Hk (Z.divide_0_r _) Hu ltac:(lia)).
    pose proof (divide_le (Z.of_nat k) (readIndex n) (size n) Hk Hr Hs ltac:(lia)) as Hfit.
    destruct (Z.ltb_spec (atomic_unreadSize n) (Z.of_nat k)); [lia|].
    destruct (commit_read n (Z.of_nat k) (activeReadSize n)) as (-> & Hwf' & Ec); [done|lia|lia|].
    rewrite Nat2Z.id in *. cbn [mbind outcome_bind]. eexists. split; [done|].
    split; [|by split]. split; [done|]. split; [done|]. split; [by apply advance_divide|].
    cbn [atomic_unreadSize set_read]. rewrite fetch_sub_small by lia.
    apply Z.divide_sub_r; [done|apply Z.divide_refl].
Qed.

(** ** Block writes and reads past the end

    [DevQueue_Write] tests the free bytes only and copies in one piece. *)
Lemma node_Write_split n src sz : queue_wf n → 0 < sz ≤ Z.of_nat (length src) →
  sz ≤ size n - atomic_unreadSize n →
  if decide (writeIndex n + sz ≤ size n)
  then ∃ n', node_Write src sz n = Ret (sz, n') ∧ queue_wf n' ∧
         contents n' = contents n ++ take (Z.to_nat sz) src
  else node_Write src sz n = UB.
Proof.
  intros Hwf Hsz Hfree. pose proof Hwf as [Hd Hl Hs Hu Hr Hwi]. unfold node_Write.
  destruct (Z.ltb_spec (size n - atomic_unreadSize n) sz); [lia|].
  destruct (Z.ltb_spec sz 0); [lia|]. destruct (Z.ltb_spec (Z.of_nat (length src)) sz); [lia|].
  assert (Z.of_nat (length (take (Z.to_nat sz) src)) = sz) as Hlt by (rewrite length_take; lia).
  simpl orb. cbv iota. case_decide as Hfit.
  - destruct (commit_write n (take (Z.to_nat sz) src) (activeWriteSize n)) as (-> & Hwf' & Ec);
      [done|intros E; rewrite E in Hlt; simpl in Hlt; lia|lia|lia|].
    rewrite Hlt in *. cbn [mbind outcome_bind]. by eexists.
  - unfold data_write. rewrite Hd, Hlt, Hl.
    destruct (Z.leb_spec (writeIndex n + sz) (size n)); [lia|]. by rewrite andb_false_r.
Qed.

(** When the block fits the free bytes, [DevQueue_Write] appends it if it also
    fits before the end of the buffer, and otherwise writes past the end: the
    capacity test it makes is not enough. *)
Theorem DevQueue_Write_block {M} (id sz : Z) (src : list Z) (w : world M) (n : Queue_node) :
  queue_in w id n → queue_wf n → 0 < sz ≤ Z.of_nat (length src) →
  sz ≤ size n - atomic_unreadSize n →
  if decide (writeIndex n + sz ≤ size n)
  then ∃ n', DevQueue_Write id (Some src) sz w = Ret (sz, set_slot w id (Node n')) ∧ queue_wf n' ∧
         contents n' = contents n ++ take (Z.to_nat sz) src
  else DevQueue_Write id (Some src) sz w = UB.
Proof.
  intros Hq Hwf Hsz Hfree. pose proof (node_Write_split n src sz Hwf Hsz Hfree) as Hsp.
  unfold DevQueue_Write. pose proof Hq as (Hi & _). rewrite Hi. change (negb (TRUE =? TRUE)) with false.
  cbv iota. rewrite (on_queue_in _ _ _ _ _ Hq), (qwf_data n Hwf). case_decide.
  - destruct Hsp as (n' & -> & ?). by exists n'.
  - by rewrite Hsp.
Qed.

(** A queue of four bytes that has one unread byte at index 2. *)
Definition small_queue : Queue_node :=
  mkQueue 4096 "a.cpp" "q" 1 0 (Some [1; 2; 3; 4]) 4 1 3 0 2 0.

Lemma small_queue_wf : queue_wf small_queue.
Proof. split; try done. Qed.

Lemma small_queue_in {M} (m : M) :
  queue_in (mkWorld m ∅ TRUE (<[1%nat := Node small_queue]> (replicate 256 Null))) 1 small_queue.
Proof. split; [done|]. split; done. Qed.

(** A mutex module for the examples: one lock that is never contended. *)
Definition free_mutexes : MutexLib unit := {|
  mx_Create p _ w := c ← store w.2 p 1; Ret (RET_OK, (tt, c));
  mx_Destroy p w := c ← store w.2 p 0; Ret (RET_OK, (tt, c));
  mx_Lock _ m := Ret (RET_OK, m);
  mx_Unlock _ m := Ret (RET_OK, m);
|}.

Definition small_world : world unit :=
  mkWorld tt ∅ TRUE (<[1%nat := Node small_queue]> (replicate 256 Null)).

Lemma DevQueue_Write_block_witness :
  @DevQueue_Write unit 1 (Some [7; 8]) 2 small_world = UB.
Proof.
  pose proof (@DevQueue_Write_block unit 1 2 [7; 8] small_world small_queue
    (@small_queue_in unit tt) small_queue_wf) as Hb.
  apply Hb; [simpl; lia|simpl; lia].
Defined.

Lemma DevQueue_refines_fifo_witness :
  ∃ results n', run_ops 1 [OpPut [7; 8]; OpGet 9; OpRead8] small_world
      = Ret (results, set_slot small_world 1 (Node n')) ∧ idle n' ∧
    fifo_trace 4 [OpPut [7; 8]; OpGet 9; OpRead8] [3] results (contents n').
Proof.
  apply (@DevQueue_refines_fifo unit 1 [OpPut [7; 8]; OpGet 9; OpRead8] small_world
    small_queue (@small_queue_in unit tt)).
  - split; [apply small_queue_wf|done].
  - by repeat constructor.
Defined.

Lemma DevQueue_words_fifo_witness :
  ∃ n', node_PushNBit (le_bytes 2 513) (mkQueue 4096 "a.cpp" "q" 1 0 (Some [1; 2; 3; 4]) 4 2 0 0 2 0)
      = Ret (RET_OK, n') ∧ aligned 2 n' ∧ size n' = 4 ∧ contents n' = [3; 4; 1; 2].
Proof.
  apply (DevQueue_words_fifo 2 513 (mkQueue 4096 "a.cpp" "q" 1 0 (Some [1; 2; 3; 4]) 4 2 0 0 2 0)).
  - lia.
  - split; [split; try done|]. split; [by exists 2|]. split; by exists 1.
  - lia.
Defined.

(** ** Creating and destroying *)

Section Lifecycle.
Context `{MutexLaws M}.
Context (malloc : Z → option (list Z)) (sizeof_Queue_node GetTimestampMs m_mutex_Id : Z).

Abbreviation DevQueue_Create := (DevQueue_Create malloc sizeof_Queue_node GetTimestampMs m_mutex_Id).
Abbreviation DevQueue_Destroy := (DevQueue_Destroy m_mutex_Id).

(** An initialised module between two calls: its lock [mid] is free and no
    entry of the table is a freed node. *)
Record module_ok (mid : Z) (w : world M) : Prop := {
  mod_init : init_f w = TRUE;
  mod_lock : vars w !! m_mutex_Id = Some mid;
  mod_free : mx_free (mutexes w) mid;
  mod_length : length (m_queue_p_list w) = 256%nat;
  mod_slots : Dangling ∉ m_queue_p_list w;
}.

(** The variable at [p] owns no queue. *)
Definition unowned (p : Z) (w : world M) : Prop :=
  ∀ n, Node n ∈ m_queue_p_list w → pId n ≠ p.

Lemma lock_ok mid (w : world M) : vars w !! m_mutex_Id = Some mid → mx_free (mutexes w) mid →
  ∃ m, lock m_mutex_Id w = Ret (set_mutexes w m) ∧ mx_held m mid.
Proof.
  intros Hv Hf. unfold lock. rewrite (load_Some _ _ _ Hv). cbn [mbind outcome_bind].
  destruct (mx_lock_free _ _ Hf) as (m & -> & Hh & _). by exists m.
Qed.

Lemma lock_held mid (w : world M) : vars w !! m_mutex_Id = Some mid → mx_held (mutexes w) mid →
  lock m_mutex_Id w = Blocked.
Proof.
  intros Hv Hh. unfold lock. rewrite (load_Some _ _ _ Hv). cbn [mbind outcome_bind].
  by rewrite (mx_lock_held _ _ Hh).
Qed.

Lemma unlock_ok mid (w : world M) : vars w !! m_mutex_Id = Some mid → mx_held (mutexes w) mid →
  ∃ m, unlock m_mutex_Id w = Ret (set_mutexes w m) ∧ mx_free m mid.
Proof.
  intros Hv Hh. unfold unlock. rewrite (load_Some _ _ _ Hv). cbn [mbind outcome_bind].
  destruct (mx_unlock_held _ _ Hh) as (m & -> & Hf & _). by exists m.
Qed.

Lemma find_owner_unowned p ids (w : world M) : Forall (λ id, 0 ≤ id < 256) ids →
  length (m_queue_p_list w) = 256%nat → Dangling ∉ m_queue_p_list w → unowned p w →
  find_owner p ids w = Ret None.
Proof.
  intros Hids Hl Hd Hu. induction Hids as [|id ids Hid Hids IH]; [done|].
  cbn [find_owner]. unfold queue_at, slot_at. destruct (Z.ltb_spec id 0); [lia|].
  destruct (lookup_lt_is_Some_2 (m_queue_p_list w) (Z.to_nat id)) as [x Hx]; [lia|].
  rewrite Hx. cbn [or_ub mbind outcome_bind].
  destruct x as [|n|]; cbn [mbind outcome_bind]; [done| |].
  - assert (pId n ≠ p) as Hne by (eapply Hu, list_elem_of_lookup_2, Hx).
    destruct (Z.eqb_spec (pId n) p); [done|]. by rewrite andb_false_r.
  - exfalso. eapply Hd, list_elem_of_lookup_2, Hx.
Qed.

Lemma queue_ids_range : Forall (λ id, 0 ≤ id < 256) queue_ids.
Proof.
  apply Forall_forall. intros id Hid. unfold queue_ids in Hid. apply elem_of_seqZ in Hid.
  unfold MSG_QUEUE_MAX_NUM in *. lia.
Qed.

Lemma find_null_Some (w : world M) id : find_null w = Some id →
  0 < id < 256 ∧ m_queue_p_list w !! Z.to_nat id = Some Null.
Proof.
  unfold find_null. intros Hf. apply find_some in Hf as [Hin Hp].
  apply list_elem_of_In, elem_of_seqZ in Hin. unfold MSG_QUEUE_MAX_NUM in Hin.
  split; [lia|]. by destruct (m_queue_p_list w !! Z.to_nat id) as [[]|].
Qed.

(** [size = 0] on a queue that was stored before. *)
Lemma zero_size_set id n (w : world M) : 0 ≤ id < 256 → length (m_queue_p_list w) = 256%nat →
  ∃ n', zero_size id (set_slot w id (Node n)) = Ret (set_slot w id (Node n')).
Proof.
  intros Hid Hl. unfold zero_size, queue_at, slot_at. cbn [m_queue_p_list set_slot].
  destruct (Z.ltb_spec id 0); [lia|]. rewrite list_lookup_insert_eq by lia. cbn [or_ub mbind outcome_bind].
  rewrite set_slot_twice. by eexists.
Qed.

Lemma Destroy_frees mid p id n (w : world M) : module_ok mid w → p ≠ NULL → p ≠ m_mutex_Id →
  vars w !! p = Some id → 0 < id < 256 → queue_in w id n → queue_wf n → pId n = p →
  ∃ m, DevQueue_Destroy p w
    = Ret (RET_OK, mkWorld m (<[p := 0]> (vars w)) TRUE (<[Z.to_nat id := Null]> (m_queue_p_list w))) ∧
    mx_free m mid.
Proof.
  intros [Hi Hv Hf Hl Hd] Hp Hpm Hvp Hid Hq Hwf Hown. unfold DevQueue.DevQueue_Destroy.
  rewrite Hi. change (negb (TRUE =? TRUE)) with false. cbv iota.
  destruct (Z.eqb_spec p NULL); [done|]. rewrite (load_Some _ _ _ Hvp). cbn [mbind outcome_bind].
  unfold MSG_QUEUE_MAX_NUM.
  destruct (Z.leb_spec id 0), (Z.leb_spec 256 id); try lia. cbn [orb].
  destruct (lock_ok mid w Hv Hf) as (m1 & -> & Hh). cbn [mbind outcome_bind].
  destruct Hq as (_ & _ & Hn). unfold queue_at, slot_at at 1. cbn [m_queue_p_list set_mutexes].
  destruct (Z.ltb_spec id 0); [lia|]. rewrite Hn. cbn [or_ub mbind outcome_bind].
  destruct (Z.eqb_spec (pId n) NULL); [congruence|].
  unfold DevQueue_Clean. erewrite (on_queue_in _ id n) by (split; [done|split; [lia|done]]).
  destruct (Clean_wf n Hwf) as (n' & -> & _). cbn [mbind outcome_bind].
  destruct (zero_size_set id n' (set_mutexes w m1)) as (n2 & ->); [lia|done|]. cbn [mbind outcome_bind].
  cbn [vars set_slot set_mutexes]. rewrite Hown, (load_Some _ _ _ Hvp). cbn [mbind outcome_bind].
  destruct (Z.leb_spec id 0), (Z.leb_spec 256 id); try lia. cbn [orb].
  rewrite !set_slot_twice. cbn [vars set_slot set_mutexes].
  rewrite (store_Some _ _ _ _ Hvp). cbn [mbind outcome_bind].
  match goal with |- context [unlock _ ?w'] => destruct (unlock_ok mid w') as (m2 & -> & Hf') end.
  - cbn [vars set_vars]. by rewrite lookup_insert_ne by congruence.
  - done.
  - cbn [mbind outcome_bind]. exists m2. split; [|done]. do 2 f_equal.
    unfold set_mutexes, set_vars, set_slot; simpl. by rewrite Hi.
Qed.

(** [Create] with a free entry and enough memory gives the caller's variable
    the id of an empty queue of the size asked for and releases the module's
    lock; [Destroy] through that variable takes the queue out again: the table
    is as before, the variable 0 and the lock free. *)
Theorem DevQueue_Create_Destroy (mid p v id sz : Z) (block : list Z) (mk : mark) (w : world M) :
  module_ok mid w → p ≠ NULL → p ≠ m_mutex_Id → vars w !! p = Some v → unowned p w →
  find_null w = Some id → malloc sizeof_Queue_node ≠ None → malloc sz = Some block →
  Z.of_nat (length block) = sz → 0 < sz ≤ INT_MAX →
  ∃ w1 n, DevQueue_Create p sz mk w = Ret (RET_OK, w1) ∧ module_ok mid w1 ∧
    vars w1 !! p = Some id ∧ queue_in w1 id n ∧ idle n ∧ contents n = [] ∧ size n = sz ∧
    ∃ w2, DevQueue_Destroy p w1 = Ret (RET_OK, w2) ∧ module_ok mid w2 ∧
      m_queue_p_list w2 = m_queue_p_list w ∧ vars w2 = <[p := 0]> (vars w).
Proof.
  intros Hok Hp Hpm Hvp Hun Hnull Hm1 Hm2 Hbl Hsz. pose proof Hok as [Hi Hv Hf Hl Hd].
  destruct (find_null_Some w id Hnull) as [Hid Hslot].
  unfold DevQueue.DevQueue_Create. rewrite Hi. change (negb (TRUE =? TRUE)) with false. cbv iota.
  destruct (lock_ok mid w Hv Hf) as (m1 & -> & Hh). cbn [mbind outcome_bind].
  rewrite find_owner_unowned by (done || apply queue_ids_range). cbn [mbind outcome_bind].
  change (find_null (set_mutexes w m1)) with (find_null w). rewrite Hnull.
  destruct (malloc sizeof_Queue_node) as [?|]; [|done]. rewrite Hm2.
  cbn [vars set_mutexes]. rewrite (store_Some _ _ _ _ Hvp). cbn [mbind outcome_bind].
  set (n := mkQueue p _ _ _ _ _ _ _ _ _ _ _).
  match goal with |- context [unlock _ ?w'] => destruct (unlock_ok mid w') as (m2 & -> & Hf') end.
  { cbn [vars set_slot set_vars]. by rewrite lookup_insert_ne by congruence. }
  { done. }
  cbn [mbind outcome_bind].
  set (w1 := set_mutexes (set_slot (set_vars (set_mutexes w m1) (<[p := id]> (vars w))) id (Node n)) m2).
  assert (idle n) as Hidle.
  { split; [|done]. split; simpl; [done|done|done|lia|lia|].
    destruct (Z.ltb_spec (0 + 0) sz); lia. }
  assert (queue_in w1 id n) as Hq.
  { split; [done|]. split; [lia|]. simpl. apply list_lookup_insert_eq. lia. }
  assert (module_ok mid w1) as Hok1.
  { split; simpl; [done|by rewrite lookup_insert_ne by congruence|done|by rewrite length_insert|].
    intros Hel. apply list_elem_of_lookup in Hel as [i Hel].
    destruct (decide (i = Z.to_nat id)) as [->|Hne].
    - rewrite list_lookup_insert_eq in Hel by lia. done.
    - rewrite list_lookup_insert_ne in Hel by done. eapply Hd, list_elem_of_lookup_2, Hel. }
  assert (vars w1 !! p = Some id) as Hvp1 by (simpl; by rewrite lookup_insert_eq).
  exists w1, n. split; [done|]. split; [done|]. split; [done|]. split; [done|]. split; [done|].
  split; [done|]. split; [done|].
  destruct (Destroy_frees mid p id n w1 Hok1 Hp Hpm Hvp1 Hid Hq (proj1 Hidle) eq_refl)
    as (m3 & -> & Hf3).
  eexists. split; [done|]. cbn [m_queue_p_list vars]. simpl.
  rewrite list_insert_insert_eq, insert_insert_eq, (list_insert_id _ _ _ Hslot).
  split; [|by split]. split; simpl; [done|by rewrite lookup_insert_ne by congruence|done|done|done].
Qed.

(** When the variable a queue was created through no longer holds a valid id,
    [Destroy] through another copy of the id returns with the module's lock
    held: the next [Create] never gets it. *)
Theorem DevQueue_Destroy_leaks_lock (mid p id v : Z) (n : Queue_node) (w : world M) :
  module_ok mid w → p ≠ NULL → vars w !! p = Some id → 0 < id < 256 →
  queue_in w id n → queue_wf n → pId n ≠ NULL → vars w !! pId n = Some v → ¬ 0 < v < 256 →
  ∃ w', DevQueue_Destroy p w = Ret (RET_ERR, w') ∧
    ∀ q sz mk, DevQueue_Create q sz mk w' = Blocked.
Proof.
  intros [Hi Hv Hf Hl Hd] Hp Hvp Hid Hq Hwf Hown Hbad Hrange. unfold DevQueue.DevQueue_Destroy.
  rewrite Hi. change (negb (TRUE =? TRUE)) with false. cbv iota.
  destruct (Z.eqb_spec p NULL); [done|]. rewrite (load_Some _ _ _ Hvp). cbn [mbind outcome_bind].
  unfold MSG_QUEUE_MAX_NUM.
  destruct (Z.leb_spec id 0), (Z.leb_spec 256 id); try lia. cbn [orb].
  destruct (lock_ok mid w Hv Hf) as (m1 & -> & Hh). cbn [mbind outcome_bind].
  destruct Hq as (_ & _ & Hn). unfold queue_at, slot_at at 1. cbn [m_queue_p_list set_mutexes].
  destruct (Z.ltb_spec id 0); [lia|]. rewrite Hn. cbn [or_ub mbind outcome_bind].
  destruct (Z.eqb_spec (pId n) NULL); [congruence|].
  unfold DevQueue_Clean. erewrite (on_queue_in _ id n) by (split; [done|split; [lia|done]]).
  destruct (Clean_wf n Hwf) as (n' & -> & _). cbn [mbind outcome_bind].
  destruct (zero_size_set id n' (set_mutexes w m1)) as (n2 & ->); [lia|done|]. cbn [mbind outcome_bind].
  cbn [vars set_slot set_mutexes]. rewrite (load_Some _ _ _ Hbad). cbn [mbind outcome_bind].
  assert ((v <=? 0) || (256 <=? v) = true) as ->
    by (destruct (Z.leb_spec v 0), (Z.leb_spec 256 v); try done; lia).
  eexists. split; [done|]. intros q sz mk. unfold DevQueue.DevQueue_Create.
  cbn [init_f set_slot set_mutexes]. rewrite Hi.
  change (negb (TRUE =? TRUE)) with false. cbv iota.
  by rewrite (lock_held mid) by done.
Qed.
End Lifecycle.

(** ** The lifecycle on the SDK's own mutex table *)

Definition zero_malloc (n : Z) : option (list Z) := Some (replicate (Z.to_nat n) 0).

(** The module's lock is lock 1 of the table; 8192 is a caller's variable. *)
Definition empty_module : world mutex_state :=
  mkWorld one_lock_table (<[4096 := 1]> {[8192 := 77]}) TRUE (replicate 256 Null).

Lemma not_in_replicate {A} (x y : A) n : x ≠ y → x ∉ replicate n y.
Proof. intros Hne [Hx _]%elem_of_replicate. done. Qed.

Lemma empty_module_ok : @module_ok _ _ (DevMutex_laws (λ _, 0)) 4096 1 empty_module.
Proof.
  split; [done|by vm_compute|apply one_lock_free|done|]. by apply not_in_replicate.
Qed.

Lemma DevQueue_Create_Destroy_witness :
  ∃ w1 w2, @DevQueue_Create _ (DevMutex_lib (λ _, 0)) zero_malloc 640 0 4096 8192 16 some_mark empty_module
      = Ret (RET_OK, w1) ∧ vars w1 !! 8192 = Some 1 ∧
    @DevQueue_Destroy _ (DevMutex_lib (λ _, 0)) 4096 8192 w1 = Ret (RET_OK, w2) ∧
    m_queue_p_list w2 = m_queue_p_list empty_module.
Proof.
  destruct (@DevQueue_Create_Destroy _ _ (DevMutex_laws (λ _, 0)) zero_malloc 640 0 4096 1 8192 77 1 16
    (replicate 16 0) some_mark empty_module) as (w1 & n & E1 & _ & Hv & _ & _ & _ & _ & w2 & E2 & _ & Hl & _).
  - apply empty_module_ok.
  - done.
  - done.
  - by vm_compute.
  - intros n Hn. exfalso. by apply (not_in_replicate (Node n) Null 256 ltac:(done)).
  - by vm_compute.
  - done.
  - done.
  - done.
  - done.
  - by exists w1, w2.
Defined.

(** A queue whose variable (12288) was cleared; 8192 holds a copy of its id. *)
Definition cleared_owner : world mutex_state :=
  mkWorld one_lock_table (<[4096 := 1]> (<[8192 := 1]> {[12288 := 0]})) TRUE
    (<[1%nat := Node (mkQueue 12288 "a.cpp" "q" 1 0 (Some [1; 2; 3; 4]) 4 1 3 0 2 0)]>
       (replicate 256 Null)).

Lemma DevQueue_Destroy_leaks_lock_witness :
  ∃ w', @DevQueue_Destroy _ (DevMutex_lib (λ _, 0)) 4096 8192 cleared_owner = Ret (RET_ERR, w') ∧
    ∀ q sz mk, @DevQueue_Create _ (DevMutex_lib (λ _, 0)) zero_malloc 640 0 4096 q sz mk w' = Blocked.
Proof.
  eapply (@DevQueue_Destroy_leaks_lock _ _ (DevMutex_laws (λ _, 0)) zero_malloc 640 0 4096 1 8192 1 0
    (mkQueue 12288 "a.cpp" "q" 1 0 (Some [1; 2; 3; 4]) 4 1 3 0 2 0)).
  - split; [done|by vm_compute|apply one_lock_free|done|].
    apply (bool_decide_unpack _). by vm_compute.
  - done.
  - by vm_compute.
  - done.
  - split; [done|]. by split.
  - by split.
  - done.
  - by vm_compute.
  - lia.
Defined.
