(* ===== verification/DevQueueThreads.v ===== *)
(** * A byte queue between two threads

    The functions of [dev_queue.cpp] that move bytes take no lock: one producer
    thread and one consumer thread share a queue, synchronised by the atomic
    unread counter alone.  Here the bodies of [DevQueue_Write8Bit] and
    [DevQueue_Read8Bit] (the macros [DevQueue_PushNBit] and
    [DevQueue_PopNBit]) are cut at their accesses to shared memory and
    interleaved in every possible way. *)
From S2P Require Import Prelude DevTypes DevMutex DevQueue.
#[local] Open Scope Z_scope.

(** Where the producer is within a call: before the test, before the store of
    its byte, before the [fetch_add], before the update of its index. *)
Inductive producer := P_idle | P_store (b : Z) | P_count (b : Z) | P_index.

Inductive consumer := C_idle | C_load | C_count (b : Z) | C_index (b : Z).

(** The producer's next access; it returns [RET_ERR] by staying idle. *)
(** @src src/mivifwk/odm/plugins/qcom/ldc/device/dev_queue.cpp:269-280 DevQueue_PushNBit (accesses) *)
Inductive prod_step : Queue_node * producer → Queue_node * producer → Prop :=
  | prod_full n : size n - atomic_unreadSize n < 1 → prod_step (n, P_idle) (n, P_idle)
  | prod_room n b : 1 ≤ size n - atomic_unreadSize n → prod_step (n, P_idle) (n, P_store b)
  | prod_store n b d : data_write (data n) (writeIndex n) [b] = Ret d →
      prod_step (n, P_store b)
        (set_write n d (atomic_unreadSize n) (writeIndex n) (activeWriteSize n), P_count b)
  | prod_count n b :
      prod_step (n, P_count b)
        (set_write n (data n) (fetch_add (atomic_unreadSize n) 1) (writeIndex n) (activeWriteSize n),
         P_index)
  | prod_index n :
      prod_step (n, P_index)
        (set_write n (data n) (atomic_unreadSize n) (advance n (writeIndex n) 1) (activeWriteSize n),
         P_idle).

(** @src src/mivifwk/odm/plugins/qcom/ldc/device/dev_queue.cpp:282-293 DevQueue_PopNBit (accesses) *)
Inductive cons_step : Queue_node * consumer → Queue_node * consumer → Prop :=
  | cons_empty n : atomic_unreadSize n < 1 → cons_step (n, C_idle) (n, C_idle)
  | cons_some n : 1 ≤ atomic_unreadSize n → cons_step (n, C_idle) (n, C_load)
  | cons_load n b : data_read (data n) (readIndex n) 1 = Ret [b] →
      cons_step (n, C_load) (n, C_count b)
  | cons_count n b :
      cons_step (n, C_count b)
        (set_read n (fetch_sub (atomic_unreadSize n) 1) (readIndex n) (activeReadSize n), C_index b)
  | cons_index n b :
      cons_step (n, C_index b)
        (set_read n (atomic_unreadSize n) (advance n (readIndex n) 1) (activeReadSize n), C_idle).

(** Both threads; [sent] are the bytes whose call got past the [fetch_add],
    [got] those the consumer's calls have returned. *)
Record threads := mkThreads {
  queue : Queue_node;
  prod : producer;
  cons_ : consumer;
  sent : list Z;
  got : list Z;
}.

Inductive thread_step : threads → threads → Prop :=
  | step_prod n n' pr pr' c s g : prod_step (n, pr) (n', pr') →
      thread_step (mkThreads n pr c s g)
        (mkThreads n' pr' c (match pr with P_count b => s ++ [b] | _ => s end) g)
  | step_cons n n' pr c c' s g : cons_step (n, c) (n', c') →
      thread_step (mkThreads n pr c s g)
        (mkThreads n' pr c' s (match c with C_index b => g ++ [b] | _ => g end)).

(** ** Alone, the accesses are the call *)

Lemma prod_run_alone n b n' : node_PushNBit [b] n = Ret (RET_OK, n') →
  rtc prod_step (n, P_idle) (n', P_idle).
Proof.
  unfold node_PushNBit. cbn [length]. change (Z.of_nat 1) with 1. case_bool; [done|]. to_prop.
  destruct (data_write _ _ _) as [d| | | |] eqn:Ed; try done. intros [= <-].
  eapply rtc_l; [by apply prod_room|]. eapply rtc_l; [by apply prod_store|].
  eapply rtc_l; [apply prod_count|]. eapply rtc_l; [apply prod_index|]. apply rtc_refl.
Qed.

Lemma cons_run_alone n b n' : node_PopNBit 1 n = Ret (RET_OK, [b], n') →
  rtc cons_step (n, C_idle) (n', C_idle).
Proof.
  unfold node_PopNBit. case_bool; [done|]. to_prop.
  destruct (data_read _ _ _) as [bs| | | |] eqn:Ed; try done. intros [= -> <-].
  eapply rtc_l; [by apply cons_some|]. eapply rtc_l; [by apply cons_load|].
  eapply rtc_l; [apply cons_count|]. eapply rtc_l; [apply cons_index|]. apply rtc_refl.
Qed.

(** ** The invariant *)

(** The node with the indices of half-finished calls moved on. *)
Definition settled (t : threads) : Queue_node :=
  let n := queue t in
  let n := match prod t with
           | P_index => set_write n (data n) (atomic_unreadSize n) (advance n (writeIndex n) 1)
                          (activeWriteSize n)
           | _ => n
           end in
  match cons_ t with
  | C_index _ => set_read n (atomic_unreadSize n) (advance n (readIndex n) 1) (activeReadSize n)
  | _ => n
  end.

Definition in_hand (c : consumer) : list Z := match c with C_index b => [b] | _ => [] end.

Record threads_inv (t : threads) : Prop := {
  ti_wf : queue_wf (settled t);
  ti_store : match prod t with
             | P_store _ => atomic_unreadSize (queue t) < size (queue t)
             | P_count b => atomic_unreadSize (queue t) < size (queue t) ∧
                 buf (queue t) !! Z.to_nat (writeIndex (queue t)) = Some b
             | _ => True
             end;
  ti_load : match cons_ t with
            | C_load => 1 ≤ atomic_unreadSize (queue t)
            | C_count b => 1 ≤ atomic_unreadSize (queue t) ∧
                buf (queue t) !! Z.to_nat (readIndex (queue t)) = Some b
            | _ => True
            end;
  ti_fifo : sent t = got t ++ in_hand (cons_ t) ++ contents (settled t);
}.

Lemma splice_same {A} (l : list A) i b : l !! i = Some b → splice l i [b] = l.
Proof.
  intros Hi. unfold splice. cbn [length]. rewrite Nat.add_1_r. by apply take_drop_middle.
Qed.

(** A store at the write index of a queue with room leaves the unread bytes. *)
Lemma store_outside n b : queue_wf n → atomic_unreadSize n < size n →
  data_write (data n) (writeIndex n) [b] = Ret (Some (splice (buf n) (Z.to_nat (writeIndex n)) [b])) ∧
  let n' := set_write n (Some (splice (buf n) (Z.to_nat (writeIndex n)) [b]))
              (atomic_unreadSize n) (writeIndex n) (activeWriteSize n) in
  queue_wf n' ∧ contents n' = contents n ∧
  buf n' !! Z.to_nat (writeIndex n) = Some b ∧
  (1 ≤ atomic_unreadSize n → readIndex n ≠ writeIndex n ∧
    buf n' !! Z.to_nat (readIndex n) = buf n !! Z.to_nat (readIndex n)).
Proof.
  intros Hwf Hroom. pose proof (qwf_write_range n Hwf) as Hwr.
  pose proof (qwf_write_wrap n Hwf) as Hwrap. pose proof Hwf as [Hd Hl Hs Hu Hr Hwi].
  assert (Z.to_nat (writeIndex n) + length [b] ≤ length (buf n))%nat as Hfit by (simpl; lia).
  assert (1 ≤ atomic_unreadSize n → readIndex n ≠ writeIndex n) as Hdiff.
  { rewrite Hwi. case_bool; to_prop; lia. }
  unfold data_write. rewrite Hd. split.
  { cbn [length]. destruct (Z.leb_spec 0 (writeIndex n)); [|lia].
    by destruct (Z.leb_spec (writeIndex n + Z.of_nat 1) (Z.of_nat (length (buf n)))); [|lia]. }
  cbv zeta. unfold buf at 2 3. cbn [data set_write default].
  split; [|split; [|split]].
  - split; simpl; [done| |done|done|done|done]. unfold buf at 1; simpl.
    rewrite length_splice by done. done.
  - unfold contents, buf at 1. cbn [data set_write default from_option id readIndex atomic_unreadSize].
    change (default [] (data n)) with (buf n). apply list_eq. intros j.
    rewrite !lookup_ring by (rewrite ?length_splice by done; lia). rewrite length_splice by done.
    case_decide as Hj; [|done].
    assert (wrap (length (buf n)) (Z.to_nat (readIndex n) + j) ≠ Z.to_nat (writeIndex n)) as Hne.
    { rewrite <-Hwrap. clear Hwrap Hwi Hwr Hfit Hdiff. unfold wrap.
      destruct (Nat.ltb_spec (Z.to_nat (readIndex n) + j) (length (buf n))),
        (Nat.ltb_spec (Z.to_nat (readIndex n) + Z.to_nat (atomic_unreadSize n)) (length (buf n))); lia. }
    assert (wrap (length (buf n)) (Z.to_nat (readIndex n) + j) < length (buf n))%nat as Hlt.
    { unfold wrap. destruct (Nat.ltb_spec (Z.to_nat (readIndex n) + j) (length (buf n))); lia. }
    destruct (decide (wrap (length (buf n)) (Z.to_nat (readIndex n) + j) < Z.to_nat (writeIndex n))%nat).
    + by rewrite lookup_splice_lt by lia.
    + by rewrite lookup_splice_ge by (simpl; lia).
  - change (splice (buf n) (Z.to_nat (writeIndex n)) [b] !! Z.to_nat (writeIndex n) = Some b).
    rewrite lookup_splice_in by (simpl; lia). by rewrite Nat.sub_diag.
  - intros Hone. specialize (Hdiff Hone). split; [done|].
    change (splice (buf n) (Z.to_nat (writeIndex n)) [b] !! Z.to_nat (readIndex n)
            = buf n !! Z.to_nat (readIndex n)).
    destruct (decide (Z.to_nat (readIndex n) < Z.to_nat (writeIndex n))%nat).
    + by rewrite lookup_splice_lt by lia.
    + by rewrite lookup_splice_ge by (simpl; lia).
Qed.

(** Counting the byte a producer has stored. *)
Lemma count_in n b : queue_wf n → atomic_unreadSize n < size n →
  buf n !! Z.to_nat (writeIndex n) = Some b →
  let n' := set_write n (data n) (fetch_add (atomic_unreadSize n) 1)
              (advance n (writeIndex n) 1) (activeWriteSize n) in
  queue_wf n' ∧ contents n' = contents n ++ [b].
Proof.
  intros Hwf Hroom Hb. pose proof (qwf_write_range n Hwf).
  destruct (commit_write n [b] (activeWriteSize n) Hwf ltac:(done)) as [_ Hc]; [simpl; lia..|].
  by rewrite (splice_same _ _ _ Hb), <-(qwf_data n Hwf) in Hc.
Qed.

(** Uncounting the byte a consumer has loaded. *)
Lemma count_out n b : queue_wf n → 1 ≤ atomic_unreadSize n →
  buf n !! Z.to_nat (readIndex n) = Some b →
  let n' := set_read n (fetch_sub (atomic_unreadSize n) 1)
              (advance n (readIndex n) 1) (activeReadSize n) in
  queue_wf n' ∧ contents n = b :: contents n'.
Proof.
  intros Hwf Hone Hb. pose proof Hwf as [_ Hl _ Hu Hr _].
  destruct (commit_read n 1 (activeReadSize n) Hwf) as [_ [Hwf' Hc]]; [lia..|].
  cbv zeta. split; [done|]. rewrite Hc. unfold contents.
  assert (ring (buf n) (Z.to_nat (readIndex n)) (Z.to_nat (atomic_unreadSize n)) !! 0%nat = Some b) as H0.
  { rewrite lookup_ring by lia. rewrite decide_True by lia. unfold wrap. rewrite Nat.add_0_r.
    destruct (Nat.ltb_spec (Z.to_nat (readIndex n)) (length (buf n))); [done|lia]. }
  change (Z.to_nat 1) with 1%nat. by destruct (ring _ _ _); simplify_eq/=.
Qed.

(** The consumer's load takes the byte at the read index. *)
Lemma data_read_one n k b : data n = Some (buf n) → data_read (data n) k 1 = Ret [b] →
  buf n !! Z.to_nat k = Some b.
Proof.
  intros Hd. unfold data_read. rewrite Hd. case_bool; [|done]. to_prop. intros [= Hs].
  unfold slice in Hs. change (Z.to_nat 1) with 1%nat in Hs.
  destruct (drop (Z.to_nat k) (buf n)) as [|x l] eqn:E; simplify_eq/=.
  by rewrite <-(Nat.add_0_r (Z.to_nat k)), <-lookup_drop, E.
Qed.

(** ** Every interleaving keeps it *)

Lemma prod_step_inv n n' pr pr' c s g : prod_step (n, pr) (n', pr') →
  threads_inv (mkThreads n pr c s g) →
  threads_inv (mkThreads n' pr' c (match pr with P_count b => s ++ [b] | _ => s end) g).
Proof.
  intros Hst [Hwf Hs Hl Hf]. cbn [queue prod cons_ sent got] in *.
  inversion Hst as [m Hfull|m b Hroom|m b d Hd|m b|m]; subst.
  - done.
  - split; [done| |done|done]. cbn [queue prod]. lia.
  - assert (∃ q, settled (mkThreads n (P_store b) c s g) = q ∧ writeIndex q = writeIndex n ∧
      data q = data n ∧ atomic_unreadSize q = atomic_unreadSize n ∧ size q = size n)
      as (q & Hq & Ew & Ed & Eu & Es) by (eexists; split; [done|]; by destruct c).
    rewrite Hq in Hwf, Hf. destruct (store_outside q b Hwf) as (Hdw & Hwf' & Hc & Hb & Hrd); [lia|].
    rewrite Ew, Ed, Hd in Hdw. injection Hdw as ->. cbn [settled queue prod cons_] in Hq.
    split; cbn [queue prod cons_ sent got settled].
    + destruct c; by subst q.
    + split; [done|]. destruct c; by subst q.
    + destruct c as [| |x|x]; [done|done| |done]. subst q. destruct Hl as [H1 Hx].
      split; [done|]. destruct (Hrd H1) as [_ Hsame]. exact (eq_trans Hsame Hx).
    + rewrite Hf, <-Hc. destruct c; by subst q.
  - destruct Hs as [Hroom Hb].
    assert (∃ q, settled (mkThreads n (P_count b) c s g) = q ∧ writeIndex q = writeIndex n ∧
      buf q = buf n ∧ atomic_unreadSize q = atomic_unreadSize n ∧ size q = size n)
      as (q & Hq & Ew & Ed & Eu & Es) by (eexists; split; [done|]; by destruct c).
    rewrite Hq in Hwf, Hf. pose proof Hwf as [_ _ Hsz Hu _ _].
    destruct (count_in q b Hwf) as (Hwf' & Hc); [lia|by rewrite Ed, Ew|].
    assert (atomic_unreadSize n ≤ fetch_add (atomic_unreadSize n) 1) as Hmono
      by (rewrite fetch_add_small; lia).
    cbn [settled queue prod cons_] in Hq.
    split; cbn [queue prod cons_ sent got settled].
    + destruct c; by subst q.
    + done.
    + destruct c as [| |x|x]; [done| | |done]; cbn [set_write atomic_unreadSize]; [lia|].
      destruct Hl as [? ?]. split; [lia|done].
    + rewrite Hf, <-!app_assoc, <-Hc. destruct c; by subst q.
  - by split.
Qed.

Lemma cons_step_inv n n' pr c c' s g : cons_step (n, c) (n', c') →
  threads_inv (mkThreads n pr c s g) →
  threads_inv (mkThreads n' pr c' s (match c with C_index b => g ++ [b] | _ => g end)).
Proof.
  intros Hst [Hwf Hs Hl Hf]. cbn [queue prod cons_ sent got] in *.
  inversion Hst as [m Hempty|m Hsome|m b Hd|m b|m b]; subst.
  - done.
  - by split.
  - split; [done|done| |done]. split; [done|].
    apply data_read_one; [|done]. pose proof (qwf_data _ Hwf) as Hq. by destruct pr.
  - destruct Hl as [Hone Hb].
    assert (∃ q, settled (mkThreads n pr (C_count b) s g) = q ∧ readIndex q = readIndex n ∧
      buf q = buf n ∧ atomic_unreadSize q = atomic_unreadSize n)
      as (q & Hq & Er & Ed & Eu) by (eexists; split; [done|]; by destruct pr).
    rewrite Hq in Hwf, Hf. pose proof Hwf as [_ _ Hsz Hu _ _].
    destruct (count_out q b Hwf) as (Hwf' & Hc); [lia|by rewrite Ed, Er|].
    assert (fetch_sub (atomic_unreadSize n) 1 ≤ atomic_unreadSize n) as Hmono
      by (rewrite fetch_sub_small; lia).
    cbn [settled queue prod cons_] in Hq.
    split; cbn [queue prod cons_ sent got settled].
    + destruct pr; by subst q.
    + destruct pr as [|x|x|]; [done| | |done]; cbn [set_read atomic_unreadSize size]; [lia|].
      destruct Hs as [? ?]. split; [lia|done].
    + done.
    + rewrite Hf, Hc. destruct pr; by subst q.
  - split; cbn [cons_ prod sent got in_hand] in *; [by destruct pr|by destruct pr|done|].
    rewrite Hf, <-!app_assoc. by destruct pr.
Qed.

Lemma threads_step_inv t t' : thread_step t t' → threads_inv t → threads_inv t'.
Proof. intros [] Hinv; [by eapply prod_step_inv|by eapply cons_step_inv]. Qed.

(** Both threads between calls on the queue [n]. *)
Definition start (n : Queue_node) : threads := mkThreads n P_idle C_idle (contents n) [].

Lemma start_inv n : queue_wf n → threads_inv (start n).
Proof. by split. Qed.

Lemma load_inside n : queue_wf n → 1 ≤ atomic_unreadSize n →
  ∃ b, data_read (data n) (readIndex n) 1 = Ret [b].
Proof.
  intros Hwf Hone. pose proof Hwf as [_ _ _ Hu Hr _].
  destruct (commit_read n 1 0 Hwf) as [-> _]; [lia..|]. pose proof (length_contents n Hwf) as Hl.
  destruct (contents n) as [|b l]; [simpl in Hl; lia|]. by exists b.
Qed.

(** Neither thread is ever stuck: its next access is inside the buffer. *)
Lemma prod_progress t : threads_inv t → ∃ n' pr', prod_step (queue t, prod t) (n', pr').
Proof.
  intros [Hw Hs _ _]. destruct t as [q pr c s g]. cbn [queue prod] in *. destruct pr as [|b|b|].
  - destruct (decide (1 ≤ size q - atomic_unreadSize q)); do 2 eexists.
    + by apply (prod_room q 0).
    + apply prod_full. lia.
  - destruct (store_outside _ b Hw) as [Hd _]; [by destruct c|].
    do 2 eexists. eapply prod_store. destruct c; exact Hd.
  - do 2 eexists. apply prod_count.
  - do 2 eexists. apply prod_index.
Qed.

Lemma cons_progress t : threads_inv t → ∃ n' c', cons_step (queue t, cons_ t) (n', c').
Proof.
  intros [Hw _ Hl _]. destruct t as [q pr c s g]. cbn [queue cons_] in *. destruct c as [| |b|b].
  - destruct (decide (1 ≤ atomic_unreadSize q)); do 2 eexists.
    + by apply cons_some.
    + apply cons_empty. lia.
  - assert (∃ b, data_read (data q) (readIndex q) 1 = Ret [b]) as [b Hb].
    { destruct pr; [by apply (load_inside q)..|]. apply (load_inside _ Hw). simpl. done. }
    do 2 eexists. by eapply cons_load.
  - do 2 eexists. apply cons_count.
  - do 2 eexists. apply cons_index.
Qed.

(** C11. However the accesses of one producer and one consumer interleave: the bytes
    taken so far are, in order, the first of the bytes put in; neither thread's
    next access is outside the buffer; a store and a load that are both next
    are to different bytes; and between calls the bytes not yet taken are those
    the queue holds. *)
Theorem queue_spsc (n : Queue_node) (t : threads) :
  queue_wf n → rtc thread_step (start n) t →
  got t `prefix_of` sent t ∧
  (∃ n' pr', prod_step (queue t, prod t) (n', pr')) ∧
  (∃ n' c', cons_step (queue t, cons_ t) (n', c')) ∧
  (∀ b, prod t = P_store b → cons_ t = C_load → writeIndex (queue t) ≠ readIndex (queue t)) ∧
  (prod t = P_idle → cons_ t = C_idle → sent t = got t ++ contents (queue t) ∧ queue_wf (queue t)).
Proof.
  intros Hwf Hrtc. assert (threads_inv t) as Hinv.
  { eapply (rtc_invariant thread_step threads_inv); [|done|by apply start_inv].
    intros ????. by eapply threads_step_inv. }
  split; [by eexists; apply ti_fifo|]. split; [by apply prod_progress|].
  split; [by apply cons_progress|]. destruct Hinv as [Hw Hs Hl Hf].
  destruct t as [q pr c s g]. cbn [queue prod cons_ sent got] in *. split.
  - intros b -> ->. destruct (store_outside _ b Hw) as (_ & _ & _ & _ & Hne); [done|].
    intros E. by apply Hne.
  - intros -> ->. done.
Qed.

(** The consumer's load overtakes the producer's store. *)
Lemma queue_spsc_witness :
  ∃ t, rtc thread_step (start small_queue) t ∧ sent t = [3; 9] ∧ got t = [3] ∧
    got t `prefix_of` sent t.
Proof.
  assert (∃ t, rtc thread_step (start small_queue) t ∧ sent t = [3; 9] ∧ got t = [3])
    as (t & Ht & Es & Eg).
  { eexists. split; [|split].
    - eapply rtc_l; [apply step_prod, (prod_room _ 9); done|].
      eapply rtc_l; [apply step_cons, cons_some; done|].
      eapply rtc_l; [apply step_prod; eapply prod_store; vm_compute; reflexivity|].
      eapply rtc_l; [apply step_cons; eapply cons_load; vm_compute; reflexivity|].
      eapply rtc_l; [apply step_prod, prod_count|].
      eapply rtc_l; [apply step_cons, cons_count|].
      eapply rtc_l; [apply step_cons, cons_index|].
      apply rtc_refl.
    - by vm_compute.
    - by vm_compute. }
  exists t. split; [done|]. split; [done|]. split; [done|].
  apply (queue_spsc small_queue t small_queue_wf Ht).
Defined.
