(* ===== verification/DevSemaphore.v ===== *)
(** * The SDK's semaphore table

    Model of [src/mivifwk/odm/plugins/qcom/ldc/device/dev_semaphore.cpp]: a table
    of 128 POSIX semaphores under a module mutex, with the same discipline of
    ids and owner variables as the mutex table. *)
From S2P Require Import Prelude DevTypes.
From stdpp Require Import strings.
#[local] Open Scope Z_scope.
#[local] Open Scope mach_scope.

(** ** POSIX semaphores

    [sem_wait] on a semaphore of value 0 waits; [sem_timedwait] gives up when
    the value is still 0 at the deadline. *)
Inductive psem := SEM_uninit | SEM (value : Z).

#[export] Instance psem_eq_dec : EqDecision psem.
Proof. solve_decision. Defined.

Definition SEM_VALUE_MAX : Z := INT_MAX.

Definition sem_wait (s : psem) : outcome (Z * psem) :=
  match s with
  | SEM_uninit => UB
  | SEM v => if v =? 0 then Blocked else Ret (0, SEM (v - 1))
  end.
Definition sem_timedwait (abstime : Z * Z) (s : psem) : outcome (Z * psem) :=
  match s with
  | SEM_uninit => UB
  | SEM v => if v =? 0 then Ret (-1, s) else Ret (0, SEM (v - 1))
  end.
Definition sem_post (s : psem) : outcome (Z * psem) :=
  match s with
  | SEM_uninit => UB
  | SEM v => if v =? SEM_VALUE_MAX then Ret (-1, s) else Ret (0, SEM (v + 1))
  end.
Definition sem_destroy (s : psem) : outcome psem :=
  match s with SEM_uninit => UB | SEM _ => Ret SEM_uninit end.

(** @src src/mivifwk/odm/plugins/qcom/ldc/device/dev_semaphore.cpp:25-25 DEV_SEMAPHORE_NUM_MAX *)
Definition DEV_SEMAPHORE_NUM_MAX : Z := 128.

(** @src src/mivifwk/odm/plugins/qcom/ldc/device/dev_semaphore.cpp:28-36 Device_Semaphore_node *)
Record Device_Semaphore_node := mkSemNode {
  en : Z;
  pId : Z;
  fileName : string;
  tagName : string;
  fileLine : Z;
  semaphore : psem;
  post : Z;
}.

(** The node after [memset(..., 0, ...)]. *)
Definition zero_node : Device_Semaphore_node := mkSemNode 0 0 "" "" 0 SEM_uninit 0.

(** @src src/mivifwk/odm/plugins/qcom/ldc/device/dev_semaphore.cpp:23-38 m_mutex, init_f, m_semaphore_list
    The static variables. *)
Record sem_state := mkSemState {
  m_mutex : pmutex;
  init_f : Z;
  m_semaphore_list : list Device_Semaphore_node;
}.

(** @src src/mivifwk/odm/plugins/qcom/ldc/device/dev_semaphore.cpp:40-51 DevSemaphore_NoDirFileName *)
Definition DevSemaphore_NoDirFileName (pFilePath : string) : string := no_dir_file_name pFilePath.

Definition sem_ids : list Z := seqZ 1 (DEV_SEMAPHORE_NUM_MAX - 1).

Definition node_at (s : sem_state) (id : Z) : outcome Device_Semaphore_node :=
  if id <? 0 then UB else or_ub (m_semaphore_list s !! Z.to_nat id).

Definition set_node (s : sem_state) (id : Z) (n : Device_Semaphore_node) : sem_state :=
  mkSemState (m_mutex s) (init_f s) (<[Z.to_nat id := n]> (m_semaphore_list s)).

Definition set_module_mutex (s : sem_state) (m : pmutex) : sem_state :=
  mkSemState m (init_f s) (m_semaphore_list s).

(** The first id whose node satisfies [p]. *)
Definition find_id (p : Device_Semaphore_node → bool) (s : sem_state) : option Z :=
  find (λ id, match m_semaphore_list s !! Z.to_nat id with Some n => p n | None => false end) sem_ids.

Definition bad_id (id : Z) : bool := (DEV_SEMAPHORE_NUM_MAX <=? id) || (id <=? 0).

Section Semaphore.
(** The result of [sem_init]. *)
Context (sem_init : Z → Z).

Abbreviation st := (sem_state * cells)%type.

Definition bracketed (s : string) : string := "[" +:+ s +:+ "]".

(** @src src/mivifwk/odm/plugins/qcom/ldc/device/dev_semaphore.cpp:52-86 DevSemaphore_Create *)
Definition DevSemaphore_Create (p : Z) (mk : mark) (w : st) : outcome (Z * st) :=
  let '(s, c) := w in
  m ← pthread_mutex_lock (m_mutex s);
  let s := set_module_mutex s m in
  let exit (ret m_id : Z) (s : sem_state) (c : cells) :=
    m ← pthread_mutex_unlock (m_mutex s);
    Ret (if m_id =? 0 then RET_ERR else ret, (set_module_mutex s m, c)) in
  if negb (init_f s =? TRUE) then exit RET_ERR 0 s c
  else
    match find_id (λ n, negb (pId n =? NULL) && (pId n =? p) && (en n =? TRUE)) s with
    | Some id => exit RET_ERR id s c
    | None =>
        match find_id (λ n, en n =? FALSE) s with
        | None => exit RET_OK 0 s c
        | Some id =>
            let ret := sem_init id in
            if negb (ret =? RET_OK) then exit ret 0 s c
            else
              n ← node_at s id;
              c ← store c p id;
              fname ← sprintf_s FILE_NAME_LEN_MAX (bracketed (DevSemaphore_NoDirFileName (mk_fileName mk)));
              tag ← sprintf_s FILE_NAME_LEN_MAX (bracketed (mk_tagName mk));
              exit RET_OK id
                (set_node s id (mkSemNode TRUE p fname tag (mk_fileLine mk) (SEM 0) (post n))) c
        end
    end.

(** @src src/mivifwk/odm/plugins/qcom/ldc/device/dev_semaphore.cpp:88-116 DevSemaphore_Destroy
    The semaphore destroyed is that of the caller's id, the node cleared that of
    the owner's. *)
Definition DevSemaphore_Destroy (p : Z) (w : st) : outcome (Z * st) :=
  let '(s, c) := w in
  m ← pthread_mutex_lock (m_mutex s);
  let s := set_module_mutex s m in
  let exit (ret : Z) (s : sem_state) (c : cells) :=
    m ← pthread_mutex_unlock (m_mutex s); Ret (ret, (set_module_mutex s m, c)) in
  if negb (init_f s =? TRUE) then exit RET_ERR s c
  else if p =? NULL then exit RET_OK s c
  else
    id ← load c p;
    if bad_id id then exit RET_OK s c
    else
      n ← node_at s id;
      if negb (en n =? TRUE) then c ← store c p 0; exit RET_ERR s c
      else if pId n =? NULL then c ← store c p 0; exit RET_ERR s c
      else
        m_id ← load c (pId n);
        if bad_id m_id then exit RET_OK s c
        else
          sem ← sem_destroy (semaphore n);
          let s := set_node s id (mkSemNode (en n) (pId n) (fileName n) (tagName n) (fileLine n) sem (post n)) in
          c ← store c p 0;
          exit RET_OK (set_node s m_id zero_node) c.

(** The checks of [Wait], [TimedWait] and [Post]. *)
Definition usable (s : sem_state) (id : Z) : outcome (option Device_Semaphore_node) :=
  if negb (init_f s =? TRUE) then Ret None
  else if bad_id id then Ret None
  else n ← node_at s id; if negb (en n =? TRUE) then Ret None else Ret (Some n).

Definition with_sem (n : Device_Semaphore_node) (sem : psem) (p : Z) : Device_Semaphore_node :=
  mkSemNode (en n) (pId n) (fileName n) (tagName n) (fileLine n) sem p.

(** The operation on the semaphore of an entry that is enabled. *)
Definition call_sem (id : Z) (op : psem → outcome (Z * psem)) (s : sem_state) : outcome (Z * sem_state) :=
  n ← node_at s id;
  '(ret, sem) ← op (semaphore n);
  Ret (ret, set_node s id (with_sem n sem (post n))).
(** [post++] and [post--] are a load and a store, and no lock is held. *)
Definition load_post (id : Z) (s : sem_state) : outcome Z := n ← node_at s id; Ret (post n).
Definition store_post (id p : Z) (s : sem_state) : outcome sem_state :=
  n ← node_at s id; Ret (set_node s id (with_sem n (semaphore n) p)).

(** A call that no other call interrupts: the checks, the operation, and then the counter. *)
Definition on_sem (id d : Z) (op : psem → outcome (Z * psem)) (s : sem_state) : outcome (Z * sem_state) :=
  n ← usable s id;
  match n with
  | None => Ret (RET_ERR, s)
  | Some _ =>
      '(ret, s) ← call_sem id op s;
      p ← load_post id s;
      s ← store_post id (s32 (p + d)) s;
      Ret (ret, s)
  end.

(** @src src/mivifwk/odm/plugins/qcom/ldc/device/dev_semaphore.cpp:118-126 DevSemaphore_Wait *)
Definition DevSemaphore_Wait (id : Z) (s : sem_state) : outcome (Z * sem_state) := on_sem id (-1) sem_wait s.

(** @src src/mivifwk/odm/plugins/qcom/ldc/device/dev_semaphore.cpp:133-142 DevSemaphore_TimedWait (deadline)
    From the time of day [(tv_sec, tv_nsec)] and the timeout in milliseconds;
    the intermediate variables are 32 bits wide. *)
Definition deadline (tv_sec tv_nsec ms : Z) : Z * Z :=
  let timeoutSeconds := u32 (ms / 1000) in
  let timeoutNanoseconds := u32 (u64 (ms mod 1000 * 1000000)) in
  let total := u32 (u32 tv_nsec + timeoutNanoseconds) in
  let timeoutSeconds := u32 (timeoutSeconds + total / 1000000000) in
  (s64 (tv_sec + s32 timeoutSeconds), s32 (total mod 1000000000)).

(** @src src/mivifwk/odm/plugins/qcom/ldc/device/dev_semaphore.cpp:128-145 DevSemaphore_TimedWait
    [now] is the time of day; [post] moves also when the wait times out. *)
Definition DevSemaphore_TimedWait (now : Z * Z) (id ms : Z) (s : sem_state) : outcome (Z * sem_state) :=
  on_sem id (-1) (sem_timedwait (deadline now.1 now.2 ms)) s.

(** @src src/mivifwk/odm/plugins/qcom/ldc/device/dev_semaphore.cpp:147-155 DevSemaphore_Post *)
Definition DevSemaphore_Post (id : Z) (s : sem_state) : outcome (Z * sem_state) := on_sem id 1 sem_post s.

(** @src src/mivifwk/odm/plugins/qcom/ldc/device/dev_semaphore.cpp:157-177 DevSemaphore_Report
    The log lines are left out. *)
Definition DevSemaphore_Report (s : sem_state) : outcome (Z * sem_state) :=
  if negb (init_f s =? TRUE) then Ret (RET_ERR, s)
  else
    m ← pthread_mutex_lock (m_mutex s);
    m ← pthread_mutex_unlock m;
    Ret (RET_OK, set_module_mutex s m).

(** @src src/mivifwk/odm/plugins/qcom/ldc/device/dev_semaphore.cpp:179-188 DevSemaphore_Init *)
Definition DevSemaphore_Init (module_init_ret : Z) (s : sem_state) : outcome (Z * sem_state) :=
  if init_f s =? TRUE then Ret (RET_OK, s)
  else if negb (module_init_ret =? RET_OK) then Ret (0, s)
  else Ret (RET_OK, mkSemState PM_unlocked TRUE (replicate (Z.to_nat DEV_SEMAPHORE_NUM_MAX) zero_node)).

(** The loop of [Deinit]; [idp] is the address of its local variable. *)
Fixpoint destroy_all (idp : Z) (ids : list Z) (w : st) : outcome st :=
  match ids with
  | [] => Ret w
  | id :: ids' =>
      c ← store w.2 idp id;
      '(_, w) ← DevSemaphore_Destroy idp (w.1, c);
      destroy_all idp ids' w
  end.

(** @src src/mivifwk/odm/plugins/qcom/ldc/device/dev_semaphore.cpp:190-213 DevSemaphore_Deinit *)
Definition DevSemaphore_Deinit (idp : Z) (w : st) : outcome (Z * st) :=
  let '(s, c) := w in
  if negb (init_f s =? TRUE) then Ret (RET_OK, w)
  else
    let report := existsb (λ n, negb (pId n =? NULL) && (en n =? TRUE)) (m_semaphore_list s) in
    s ← (if report then r ← DevSemaphore_Report s; Ret r.2 else Ret s);
    '(s, c) ← destroy_all idp sem_ids (s, c);
    m ← pthread_mutex_destroy (m_mutex s);
    Ret (RET_OK, (mkSemState m FALSE (replicate (Z.to_nat DEV_SEMAPHORE_NUM_MAX) zero_node), c)).
End Semaphore.

(** ** The deadline *)

(** C29. For times of day up to 2^62 seconds and timeouts below 2^31 - 1 seconds, the 32-bit
    arithmetic of [TimedWait] does not overflow: the deadline is the time of day plus
    the timeout, exactly, with less than 10^9 nanoseconds as [sem_timedwait] requires. *)
Theorem TimedWait_deadline (tv_sec tv_nsec ms : Z) :
  0 ≤ tv_sec < 2 ^ 62 → 0 ≤ tv_nsec < 1000000000 → 0 ≤ ms < 1000 * (2 ^ 31 - 1) →
  let '(sec, nsec) := deadline tv_sec tv_nsec ms in
  sec * 1000000000 + nsec = tv_sec * 1000000000 + tv_nsec + ms * 1000000 ∧ 0 ≤ nsec < 1000000000.
Proof.
  intros Hs Hn Hms. unfold deadline.
  pose proof (Z.div_mod ms 1000 ltac:(lia)) as Em. pose proof (Z.mod_pos_bound ms 1000 ltac:(lia)) as Hm.
  assert (0 ≤ ms / 1000 < 2 ^ 31 - 1) as Hd by (split; [apply Z.div_pos; lia|apply Z.div_lt_upper_bound; lia]).
  assert (0 ≤ ms mod 1000 * 1000000 < 1000000000) as Hp by lia.
  rewrite (u64_small (ms mod 1000 * 1000000)) by lia.
  rewrite (wrapu_small 32 (ms mod 1000 * 1000000)), (wrapu_small 32 (ms / 1000)), (wrapu_small 32 tv_nsec) by lia.
  rewrite (wrapu_small 32 (tv_nsec + _)) by lia.
  set (t := tv_nsec + ms mod 1000 * 1000000).
  pose proof (Z.div_mod t 1000000000 ltac:(lia)) as Et.
  pose proof (Z.mod_pos_bound t 1000000000 ltac:(lia)) as Ht.
  assert (0 ≤ t / 1000000000 < 2) as Hq by (unfold t; split; [apply Z.div_pos; lia|apply Z.div_lt_upper_bound; lia]).
  rewrite (wrapu_small 32 (ms / 1000 + _)) by lia.
  rewrite !s32_small, s64_small by (unfold INT_MIN, INT_MAX; lia).
  split; [|done]. unfold t in *. lia.
Qed.

Lemma TimedWait_deadline_witness :
  deadline 1600000000 999000000 1500 = (1600000002, 499000000) ∧
  1600000002 * 1000000000 + 499000000 = 1600000000 * 1000000000 + 999000000 + 1500 * 1000000.
Proof.
  split; [by vm_compute|].
  apply (TimedWait_deadline 1600000000 999000000 1500); lia.
Defined.

(** ** The counter

    A table whose semaphore 1 has value 0. *)
Definition one_sem_table : sem_state :=
  mkSemState PM_unlocked TRUE
    (<[1%nat := mkSemNode TRUE 4096 "[a.cpp]" "[s]" 1 (SEM 0) 0]> (replicate 128 zero_node)).

(** One after the other, two posts give the value 2 and the counter 2. *)
Example two_posts :
  ('(_, s) ← DevSemaphore_Post 1 one_sem_table; '(_, s) ← DevSemaphore_Post 1 s; n ← node_at s 1; Ret (semaphore n, post n))
  = Ret (SEM 2, 2).
Proof. by vm_compute. Qed.

(** When both load the counter before either stores it, the semaphore has the value 2 and
    the counter is 1. *)
Example lost_update :
  ('(_, s) ← call_sem 1 sem_post one_sem_table; '(_, s) ← call_sem 1 sem_post s;
   p ← load_post 1 s; p' ← load_post 1 s; s ← store_post 1 (s32 (p + 1)) s; s ← store_post 1 (s32 (p' + 1)) s;
   n ← node_at s 1; Ret (semaphore n, post n)) = Ret (SEM 2, 1).
Proof. by vm_compute. Qed.

(** A wait that times out lowers the counter, too. *)
Example timeout_counts :
  ('(r, s) ← DevSemaphore_TimedWait (0, 0) 1 5 one_sem_table; n ← node_at s 1; Ret (r, semaphore n, post n)) = Ret (-1, SEM 0, -1).
Proof. by vm_compute. Qed.
