(* ===== verification/DevTimer.v ===== *)
(** * The SDK's timers

    Model of [src/mivifwk/odm/plugins/qcom/ldc/device/dev_timer.cpp]: a table of
    128 timers multiplexed on one POSIX timer, which is armed for the earliest
    deadline.  A client's callback is an address; calling it appends the timer's
    id and argument to [fired] (callbacks that call the module again are not
    modelled).  The clock is read once per call: [now], in milliseconds; deadlines
    wrap around at 64 bits. *)
From S2P Require Import Prelude DevTypes DevMutex.
From stdpp Require Import strings.
#[local] Open Scope Z_scope.

(** @src src/mivifwk/odm/plugins/qcom/ldc/device/dev_timer.cpp:22-22 DEV_TIMER_NUM_MAX *)
Definition DEV_TIMER_NUM_MAX : Z := 128.
(** @src src/mivifwk/odm/plugins/qcom/ldc/device/dev_timer.cpp:23-23 SYSTEM_POLLING_TIMER *)
Definition SYSTEM_POLLING_TIMER : Z := 1.

(** @src src/mivifwk/odm/plugins/qcom/ldc/device/dev_timer.cpp:31-44 Timer_node *)
Record Timer_node := mkTimer {
  en : Z;
  pId : Z;
  fileName : string;
  tagName : string;
  fileLine : Z;
  start : Z;
  param : Z;
  callback : Z;
  setTime : Z;
  overflowTimestamp : Z;
  repeat : Z;
  trigger : Z;
}.

(** The node after [memset(..., 0, ...)]. *)
Definition zero_node : Timer_node := mkTimer 0 0 "" "" 0 0 0 0 0 0 0 0.

(** @src src/mivifwk/odm/plugins/qcom/ldc/device/dev_timer.cpp:25-46 the static variables
    [base] is the POSIX timer: absent, disarmed or armed for a period given as
    seconds and nanoseconds. *)
Inductive base_timer := B_none | B_disarmed | B_armed (sec nsec : Z).

Record world (M : Type) := mkWorld {
  mutexes : M;
  vars : cells;
  init_f : Z;
  timer_Start_All_f : Z;
  base : base_timer;
  m_timer_list : list Timer_node;
  fired : list (Z * Z);
}.
Arguments mkWorld {_} _ _ _ _ _ _ _.
Arguments mutexes {_} _.
Arguments vars {_} _.
Arguments init_f {_} _.
Arguments timer_Start_All_f {_} _.
Arguments base {_} _.
Arguments m_timer_list {_} _.
Arguments fired {_} _.

(** @src src/mivifwk/odm/plugins/qcom/ldc/device/dev_timer.cpp:50-61 Dev_Timer_NoDirFileName *)
Definition Dev_Timer_NoDirFileName (pFilePath : string) : string := no_dir_file_name pFilePath.

Definition timer_ids : list Z := seqZ 1 (DEV_TIMER_NUM_MAX - 1).

Definition set_run (n : Timer_node) (st tr over : Z) : Timer_node :=
  mkTimer (en n) (pId n) (fileName n) (tagName n) (fileLine n) st (param n) (callback n)
    (setTime n) over (repeat n) tr.

Definition started (n : Timer_node) : bool := start n =? TRUE.

(** The loops run over the entries from 1 on. *)
Definition entries (l : list Timer_node) : list Timer_node := drop 1 l.

(** One entry in the search for the earliest deadline: the number of started
    timers and the least remaining time so far.  [now] is the clock as an [S64];
    sums and differences of deadlines wrap around at 64 bits. *)
Definition min_step (now : Z) (acc : Z * Z) (n : Timer_node) : Z * Z :=
  let '(checking, m) := acc in
  if started n then
    (checking + 1,
     if s64 (overflowTimestamp n - now) <=? m then
       if now <? overflowTimestamp n then s64 (overflowTimestamp n - now) else 0
     else m)
  else acc.

Section Timer.
Context `{MutexLib M}.
(** The results of [timer_create] and [timer_settime]. *)
Context (timer_create_ret timer_settime_ret : Z).
(** The addresses of the statics [m_mutex_Id] and [m_mutex_callback_Id]. *)
Context (m_mutex_Id m_mutex_callback_Id : Z).

Abbreviation world := (world M).

Definition set_mutexes (w : world) (m : M) : world :=
  mkWorld m (vars w) (init_f w) (timer_Start_All_f w) (base w) (m_timer_list w) (fired w).
Definition set_vars (w : world) (c : cells) : world :=
  mkWorld (mutexes w) c (init_f w) (timer_Start_All_f w) (base w) (m_timer_list w) (fired w).
Definition set_base (w : world) (b : base_timer) : world :=
  mkWorld (mutexes w) (vars w) (init_f w) (timer_Start_All_f w) b (m_timer_list w) (fired w).
Definition set_all (w : world) (f : Z) : world :=
  mkWorld (mutexes w) (vars w) (init_f w) f (base w) (m_timer_list w) (fired w).
Definition set_timers (w : world) (l : list Timer_node) : world :=
  mkWorld (mutexes w) (vars w) (init_f w) (timer_Start_All_f w) (base w) l (fired w).
Definition fire (w : world) (id arg : Z) : world :=
  mkWorld (mutexes w) (vars w) (init_f w) (timer_Start_All_f w) (base w) (m_timer_list w)
    (fired w ++ [(id, arg)]).

(** [Device->mutex->Lock] and [Unlock] on the id in the variable at [p]. *)
Definition lock (p : Z) (w : world) : outcome world :=
  id ← load (vars w) p; '(_, m) ← mx_Lock id (mutexes w); Ret (set_mutexes w m).
Definition unlock (p : Z) (w : world) : outcome world :=
  id ← load (vars w) p; '(_, m) ← mx_Unlock id (mutexes w); Ret (set_mutexes w m).

Definition timer_at (w : world) (id : Z) : outcome Timer_node :=
  if id <? 0 then UB else or_ub (m_timer_list w !! Z.to_nat id).
Definition set_timer (w : world) (id : Z) (n : Timer_node) : world :=
  set_timers w (<[Z.to_nat id := n]> (m_timer_list w)).

(** @src src/mivifwk/odm/plugins/qcom/ldc/device/dev_timer.cpp:63-74 DevTimer_CreateBase *)
Definition DevTimer_CreateBase (w : world) : Z * world :=
  if negb (s32 timer_create_ret =? RET_OK) then (RET_ERR, w)
  else (s32 timer_create_ret, set_base w B_disarmed).

(** @src src/mivifwk/odm/plugins/qcom/ldc/device/dev_timer.cpp:76-80 DevTimer_DestroyBase *)
Definition DevTimer_DestroyBase (w : world) : Z * world := (RET_OK, set_base w B_none).

(** @src src/mivifwk/odm/plugins/qcom/ldc/device/dev_timer.cpp:82-94 DevTimer_StartBase *)
Definition DevTimer_StartBase (ms : Z) (w : world) : Z * world :=
  if ms <=? 0 then (RET_ERR, w)
  else if negb (timer_settime_ret =? RET_OK) then (RET_ERR, w)
  else (RET_OK, set_base w (B_armed (ms / 1000) (1000000 * (ms mod 1000)))).

(** @src src/mivifwk/odm/plugins/qcom/ldc/device/dev_timer.cpp:96-107 DevTimer_StopBase *)
Definition DevTimer_StopBase (w : world) : Z * world :=
  if negb (timer_settime_ret =? RET_OK) then (RET_ERR, w) else (RET_OK, set_base w B_disarmed).

(** @src src/mivifwk/odm/plugins/qcom/ldc/device/dev_timer.cpp:109-132 DevTimer_GetMinOverflowTime *)
Definition DevTimer_GetMinOverflowTime (now : Z) (w : world) : Z :=
  if negb (init_f w =? TRUE) then -1
  else
    let '(checking, m) := foldl (min_step now) (0, 0x7FFFFFFFFFFFFFFF) (entries (m_timer_list w)) in
    let m := if m <=? 0 then 1 else m in
    if checking =? 0 then -1 else m.

(** One entry of [SetMinOverflowTime]. *)
Definition tick (now : Z) (n : Timer_node) : Timer_node :=
  if started n && (s64 (overflowTimestamp n - now) <=? 0)
  then set_run n (start n) TRUE (if repeat n =? TRUE then s64 (now + setTime n) else overflowTimestamp n)
  else n.

(** @src src/mivifwk/odm/plugins/qcom/ldc/device/dev_timer.cpp:134-147 DevTimer_SetMinOverflowTime *)
Definition DevTimer_SetMinOverflowTime (now : Z) (w : world) : Z * world :=
  if negb (init_f w =? TRUE) then (-1, w)
  else (RET_OK, set_timers w (take 1 (m_timer_list w) ++ (tick now <$> entries (m_timer_list w)))).

(** The loop of [SetAction] over the ids that are left. *)
Fixpoint set_action (ids : list Z) (w : world) : outcome world :=
  match ids with
  | [] => Ret w
  | id :: ids' =>
      n ← timer_at w id;
      if started n && (trigger n =? TRUE) then
        let n := set_run n (if negb (repeat n =? TRUE) then FALSE else start n) FALSE (overflowTimestamp n) in
        w ← lock m_mutex_callback_Id (set_timer w id n);
        let w := if negb (callback n =? NULL) then fire w id (param n) else w in
        w ← unlock m_mutex_callback_Id w;
        set_action ids' w
      else set_action ids' w
  end.

(** @src src/mivifwk/odm/plugins/qcom/ldc/device/dev_timer.cpp:149-196 DevTimer_SetAction *)
Definition DevTimer_SetAction (w : world) : outcome (Z * world) :=
  if negb (init_f w =? TRUE) then Ret (-1, w)
  else w ← set_action timer_ids w; Ret (RET_OK, w).

(** @src src/mivifwk/odm/plugins/qcom/ldc/device/dev_timer.cpp:198-209 Dev_Timer_handler *)
Definition Dev_Timer_handler (now : Z) (w : world) : outcome world :=
  let '(_, w) := DevTimer_SetMinOverflowTime now w in
  '(_, w) ← DevTimer_SetAction w;
  let '(_, w) := DevTimer_StopBase w in
  let ret := DevTimer_GetMinOverflowTime now w in
  Ret (if (timer_Start_All_f w =? TRUE) && (0 <? ret) then (DevTimer_StartBase ret w).2 else w).

(** @src src/mivifwk/odm/plugins/qcom/ldc/device/dev_timer.cpp:211-221 DevTimer_Start_All *)
Definition DevTimer_Start_All (now : Z) (w : world) : outcome (Z * world) :=
  if negb (init_f w =? TRUE) then Ret (RET_ERR, w)
  else if negb (timer_Start_All_f w =? TRUE) then
    let '(ret, w) := DevTimer_StartBase SYSTEM_POLLING_TIMER w in
    if negb (ret =? RET_OK) then Ret (RET_ERR, w)
    else w ← Dev_Timer_handler now (set_all w TRUE); Ret (RET_OK, w)
  else Ret (RET_OK, w).

(** @src src/mivifwk/odm/plugins/qcom/ldc/device/dev_timer.cpp:223-232 DevTimer_Stop_All *)
Definition DevTimer_Stop_All (w : world) : Z * world :=
  if negb (init_f w =? TRUE) then (RET_ERR, w)
  else if negb (timer_Start_All_f w =? FALSE) then
    let '(ret, w) := DevTimer_StopBase w in
    if negb (ret =? RET_OK) then (RET_ERR, w) else (RET_OK, set_all w FALSE)
  else (RET_OK, w).

(** The first id whose node satisfies [p]. *)
Definition find_id (p : Timer_node → bool) (w : world) : option Z :=
  find (λ id, match m_timer_list w !! Z.to_nat id with Some n => p n | None => false end) timer_ids.

(** @src src/mivifwk/odm/plugins/qcom/ldc/device/dev_timer.cpp:234-275 DevTimer_Create *)
Definition DevTimer_Create (p callBack arg : Z) (mk : mark) (w : world) : outcome (Z * world) :=
  w ← lock m_mutex_Id w;
  let exit (ret m_id : Z) (w : world) :=
    w ← unlock m_mutex_Id w;
    Ret (if (m_id =? 0) || (DEV_TIMER_NUM_MAX <=? m_id) then RET_ERR else ret, w) in
  if negb (init_f w =? TRUE) then exit RET_ERR 0 w
  else if callBack =? NULL then exit RET_ERR 0 w
  else
    match find_id (λ n, negb (pId n =? NULL) && (pId n =? p) && (en n =? TRUE)) w with
    | Some id => exit RET_ERR id w
    | None =>
        match find_id (λ n, negb (en n =? TRUE)) w with
        | None => exit RET_ERR 0 w
        | Some id =>
            n ← timer_at w id;
            c ← store (vars w) p id;
            exit RET_OK id
              (set_timer (set_vars w c) id
                 (mkTimer TRUE p
                    (snprintf_s FILE_NAME_LEN_MAX (Dev_Timer_NoDirFileName (mk_fileName mk)))
                    (snprintf_s FILE_NAME_LEN_MAX (mk_tagName mk)) (mk_fileLine mk)
                    (start n) arg callBack (setTime n) (overflowTimestamp n) (repeat n) FALSE))
        end
    end.

Definition bad_id (id : Z) : bool := (DEV_TIMER_NUM_MAX <=? id) || (id <=? 0).

(** @src src/mivifwk/odm/plugins/qcom/ldc/device/dev_timer.cpp:277-285 DevTimer_Stop *)
Definition DevTimer_Stop (now id : Z) (w : world) : outcome (Z * world) :=
  if negb (init_f w =? TRUE) then Ret (RET_ERR, w)
  else if bad_id id then Ret (RET_ERR, w)
  else
    n ← timer_at w id;
    if negb (en n =? TRUE) then Ret (RET_ERR, w)
    else
      w ← Dev_Timer_handler now (set_timer w id (set_run n FALSE FALSE (overflowTimestamp n)));
      Ret (RET_OK, w).

(** @src src/mivifwk/odm/plugins/qcom/ldc/device/dev_timer.cpp:287-317 DevTimer_Destroy
    [Stop] runs the handler while the callback mutex is held. *)
Definition DevTimer_Destroy (now p : Z) (w : world) : outcome (Z * world) :=
  w ← lock m_mutex_Id w;
  let exit (ret : Z) (w : world) := w ← unlock m_mutex_Id w; Ret (ret, w) in
  if negb (init_f w =? TRUE) then exit RET_OK w
  else if p =? NULL then exit RET_OK w
  else
    id ← load (vars w) p;
    if bad_id id then exit RET_OK w
    else
      n ← timer_at w id;
      if negb (en n =? TRUE) then c ← store (vars w) p 0; exit RET_ERR (set_vars w c)
      else if pId n =? NULL then c ← store (vars w) p 0; exit RET_ERR (set_vars w c)
      else
        m_id ← load (vars w) (pId n);
        if bad_id m_id then exit RET_OK w
        else
          w ← lock m_mutex_callback_Id w;
          '(_, w) ← DevTimer_Stop now m_id w;
          w ← unlock m_mutex_callback_Id (set_timer w m_id zero_node);
          c ← store (vars w) p 0;
          exit RET_OK (set_vars w c).

(** @src src/mivifwk/odm/plugins/qcom/ldc/device/dev_timer.cpp:319-346 DevTimer_Start *)
Definition DevTimer_Start (now id ms Repeat : Z) (w : world) : outcome (Z * world) :=
  if negb (init_f w =? TRUE) then Ret (RET_ERR, w)
  else if bad_id id then Ret (RET_ERR, w)
  else
    n ← timer_at w id;
    if negb (en n =? TRUE) then Ret (RET_ERR, w)
    else if callback n =? NULL then Ret (RET_ERR, w)
    else
      let n := mkTimer (en n) (pId n) (fileName n) (tagName n) (fileLine n) TRUE (param n) (callback n)
                 ms (s64 (now + ms)) Repeat FALSE in
      w ← Dev_Timer_handler now (set_timer w id n);
      Ret (RET_OK, w).

(** @src src/mivifwk/odm/plugins/qcom/ldc/device/dev_timer.cpp:348-372 DevTimer_Report
    The log lines are left out. *)
Definition DevTimer_Report (w : world) : outcome (Z * world) :=
  if negb (init_f w =? TRUE) then Ret (RET_ERR, w)
  else w ← lock m_mutex_Id w; w ← unlock m_mutex_Id w; Ret (RET_OK, w).

(** @src src/mivifwk/odm/plugins/qcom/ldc/device/dev_timer.cpp:374-388 DevTimer_Init
    The result of the first [Create] is overwritten; [Start_All] does nothing,
    since its flag is set from the start. *)
Definition DevTimer_Init (now : Z) (mk1 mk2 : mark) (w : world) : outcome (Z * world) :=
  if init_f w =? TRUE then Ret (RET_OK, w)
  else
    '(_, (m, c)) ← mx_Create m_mutex_Id mk1 (mutexes w, vars w);
    '(ret, (m, c)) ← mx_Create m_mutex_callback_Id mk2 (m, c);
    let w := set_vars (set_mutexes w m) c in
    if negb (ret =? RET_OK) then Ret (0, w)
    else
      let w := set_timers w (replicate (Z.to_nat DEV_TIMER_NUM_MAX) zero_node) in
      let '(ret, w) := DevTimer_CreateBase w in
      if negb (ret =? RET_OK) then Ret (RET_ERR, w)
      else
        '(_, w) ← DevTimer_Start_All now
          (mkWorld (mutexes w) (vars w) TRUE (timer_Start_All_f w) (base w) (m_timer_list w) (fired w));
        Ret (RET_OK, w).

(** The loop of [Deinit] over a local variable at [idp]. *)
Fixpoint destroy_all (now idp : Z) (ids : list Z) (w : world) : outcome world :=
  match ids with
  | [] => Ret w
  | id :: ids' =>
      c ← store (vars w) idp id;
      '(_, w) ← DevTimer_Destroy now idp (set_vars w c);
      destroy_all now idp ids' w
  end.

(** @src src/mivifwk/odm/plugins/qcom/ldc/device/dev_timer.cpp:389-412 DevTimer_Deinit *)
Definition DevTimer_Deinit (now idp : Z) (w : world) : outcome (Z * world) :=
  if negb (init_f w =? TRUE) then Ret (RET_OK, w)
  else
    let report := existsb (λ n, (en n =? TRUE) && negb (pId n =? NULL)) (m_timer_list w) in
    w ← (if report then r ← DevTimer_Report w; Ret r.2 else Ret w);
    w ← destroy_all now idp timer_ids w;
    let w := (DevTimer_DestroyBase w).2 in
    '(_, (m, c)) ← mx_Destroy m_mutex_Id (mutexes w, vars w);
    '(_, (m, c)) ← mx_Destroy m_mutex_callback_Id (m, c);
    Ret (RET_OK, mkWorld m c FALSE (timer_Start_All_f w) (base w)
                   (replicate (Z.to_nat DEV_TIMER_NUM_MAX) zero_node) (fired w)).
End Timer.

(** ** Specification: one round of the handler *)

(** The timers a round at [now] fires. *)
Definition due (now : Z) (n : Timer_node) : bool :=
  started n && ((trigger n =? TRUE) || (overflowTimestamp n <=? now)).

(** A timer after the round: a one-shot timer that fired has stopped, a
    repeating one whose time has come starts over from [now]. *)
Definition after (now : Z) (n : Timer_node) : Timer_node :=
  if due now n then
    set_run n (if repeat n =? TRUE then start n else FALSE) FALSE
      (if (overflowTimestamp n <=? now) && (repeat n =? TRUE) then now + setTime n else overflowTimestamp n)
  else n.

(** The callbacks called, in the order of the table; [i] is the first id. *)
Fixpoint events (p : Timer_node → bool) (i : Z) (l : list Timer_node) : list (Z * Z) :=
  match l with
  | [] => []
  | n :: l' => (if p n && negb (callback n =? NULL) then [(i, param n)] else []) ++ events p (i + 1) l'
  end.

(** The time to the earliest deadline, at least a millisecond. *)
Definition next_wait (now : Z) (l : list Timer_node) : Z :=
  Z.max 1 (foldr Z.min 0x7FFFFFFFFFFFFFFF
             ((λ n, Z.max 0 (overflowTimestamp n - now)) <$> filter (λ n, started n = true) l)).

Definition armed (now all : Z) (l : list Timer_node) : base_timer :=
  if (all =? TRUE) && existsb started l
  then B_armed (next_wait now l / 1000) (1000000 * (next_wait now l mod 1000)) else B_disarmed.

(** The action of [SetAction] on one entry. *)
Definition act (n : Timer_node) : Timer_node :=
  if started n && (trigger n =? TRUE)
  then set_run n (if negb (repeat n =? TRUE) then FALSE else start n) FALSE (overflowTimestamp n) else n.

Definition triggered (n : Timer_node) : bool := started n && (trigger n =? TRUE).

(** Times a clock can reach in a hundred million years. *)
Definition clock_ok (now : Z) : Prop := 0 ≤ now < 2 ^ 62.

(** The deadline and the period of a timer are such times. *)
Definition timer_range (n : Timer_node) : Prop := 0 ≤ overflowTimestamp n < 2 ^ 63 ∧ 0 ≤ setTime n < 2 ^ 62.

#[export] Instance timer_range_dec n : Decision (timer_range n).
Proof. unfold timer_range. apply _. Defined.

Lemma left_small now n : clock_ok now → timer_range n →
  s64 (overflowTimestamp n - now) = overflowTimestamp n - now ∧ s64 (now + setTime n) = now + setTime n.
Proof. unfold clock_ok, timer_range. intros Hc [Ho Hs]. split; apply s64_small; lia. Qed.

Lemma triggered_tick now n : clock_ok now → timer_range n → triggered (tick now n) = due now n.
Proof.
  intros Hc Hr. destruct (left_small now n Hc Hr) as [E _]. unfold triggered, tick, due. rewrite E. destruct (started n) eqn:Es; [|cbn [andb]; by rewrite Es].
  cbn [andb]. replace (overflowTimestamp n <=? now) with (overflowTimestamp n - now <=? 0)
    by (destruct (Z.leb_spec (overflowTimestamp n - now) 0), (Z.leb_spec (overflowTimestamp n) now); lia).
  destruct (overflowTimestamp n - now <=? 0); cbn [trigger set_run].
  - unfold started in *. cbn [start set_run]. rewrite Es. by rewrite orb_true_r.
  - by rewrite Es, orb_false_r.
Qed.

Lemma act_tick now n : clock_ok now → timer_range n → act (tick now n) = after now n.
Proof.
  intros Hc Hr. destruct (left_small now n Hc Hr) as [E1 E2].
  unfold act. fold (triggered (tick now n)). rewrite triggered_tick by done. unfold after.
  destruct (due now n) eqn:Ed.
  - unfold tick. rewrite E1, E2. destruct (started n) eqn:Es; [|by unfold due in Ed; rewrite Es in Ed]. cbn [andb].
    replace (overflowTimestamp n <=? now) with (overflowTimestamp n - now <=? 0)
      by (destruct (Z.leb_spec (overflowTimestamp n - now) 0), (Z.leb_spec (overflowTimestamp n) now); lia).
    destruct (overflowTimestamp n - now <=? 0); cbn [repeat start overflowTimestamp set_run andb];
      by destruct (repeat n =? TRUE).
  - unfold tick. rewrite E1. destruct (started n) eqn:Es; [|done]. unfold due in Ed. rewrite Es in Ed. cbn [andb] in *.
    apply orb_false_iff in Ed as [_ Ed]. to_prop.
    by destruct (Z.leb_spec (overflowTimestamp n - now) 0); [lia|].
Qed.

Lemma after_range now n : clock_ok now → timer_range n → timer_range (after now n).
Proof.
  unfold clock_ok, timer_range, after. intros Hck [Ho Hs]. destruct (due now n); [|done].
  cbn [overflowTimestamp setTime set_run]. case_bool; lia.
Qed.

Lemma tick_range now n : clock_ok now → timer_range n → timer_range (tick now n).
Proof.
  intros Hck Hr. pose proof (proj2 (left_small now n Hck Hr)) as E. unfold tick. case_bool; [|done].
  rewrite E. unfold clock_ok, timer_range in *. cbn [overflowTimestamp setTime set_run]. case_bool; lia.
Qed.

Lemma events_map (f : Timer_node → Timer_node) p q i l :
  Forall (λ n, p (f n) = q n) l → (∀ n, callback (f n) = callback n) → (∀ n, param (f n) = param n) →
  events p i (f <$> l) = events q i l.
Proof.
  intros Hp Hc Hm. revert i. induction Hp as [|n l Hp _ IH]; intros i; [done|].
  cbn [fmap list_fmap events]. by rewrite Hp, Hc, Hm, IH.
Qed.

(** ** The earliest deadline *)

Lemma min_fold now l c m : clock_ok now → Forall timer_range l → 0 ≤ m → foldl (min_step now) (c, m) l =
  (c + Z.of_nat (length (filter (λ n, started n = true) l)),
   foldr Z.min m ((λ n, Z.max 0 (overflowTimestamp n - now)) <$> filter (λ n, started n = true) l)).
Proof.
  intros Hck Hr. revert c m. induction Hr as [|n l Hn _ IH]; intros c m Hm; [simpl; f_equal; lia|].
  cbn [foldl min_step]. rewrite filter_cons. destruct (started n) eqn:Es.
  - rewrite decide_True by done. cbn [length fmap list_fmap foldr].
    rewrite (proj1 (left_small now n Hck Hn)).
    assert ((if overflowTimestamp n - now <=? m
             then if now <? overflowTimestamp n then overflowTimestamp n - now else 0 else m)
      = Z.min (Z.max 0 (overflowTimestamp n - now)) m) as ->.
    { destruct (Z.leb_spec (overflowTimestamp n - now) m), (Z.ltb_spec now (overflowTimestamp n)); lia. }
    rewrite IH by lia. f_equal; [lia|].
    generalize ((λ n, Z.max 0 (overflowTimestamp n - now)) <$> filter (λ n, started n = true) l).
    intros ds. induction ds as [|d ds IHd]; simpl; lia.
  - rewrite decide_False by done. by apply IH.
Qed.

Lemma filter_started l : existsb started l = negb (Z.of_nat (length (filter (λ n, started n = true) l)) =? 0).
Proof.
  induction l as [|n l IH]; [done|]. rewrite filter_cons. cbn [existsb].
  destruct (started n) eqn:Es; [by rewrite decide_True|by rewrite decide_False].
Qed.

Section Round.
Context `{MutexLaws M}.
Context (timer_create_ret m_mutex_Id m_mutex_callback_Id : Z).

Abbreviation handler := (Dev_Timer_handler RET_OK m_mutex_callback_Id).

(** The module between two calls: its callback mutex, [mid], is free. *)
Record timer_ok (mid : Z) (w : world M) : Prop := {
  tm_init : init_f w = TRUE;
  tm_length : length (m_timer_list w) = 128%nat;
  tm_mutex : vars w !! m_mutex_callback_Id = Some mid;
  tm_free : mx_free (mutexes w) mid;
  tm_range : Forall timer_range (entries (m_timer_list w));
}.

Lemma GetMin_spec now (w : world M) : init_f w = TRUE → clock_ok now →
  Forall timer_range (entries (m_timer_list w)) →
  DevTimer_GetMinOverflowTime now w =
    if existsb started (entries (m_timer_list w)) then next_wait now (entries (m_timer_list w)) else -1.
Proof.
  intros Hi Hck Hr. unfold DevTimer_GetMinOverflowTime, next_wait. rewrite Hi.
  change (negb (TRUE =? TRUE)) with false. cbv iota. rewrite min_fold by done. rewrite filter_started.
  set (m := foldr _ _ _). rewrite Z.add_0_l.
  destruct (Z.eqb_spec (Z.of_nat (length (filter (λ n, started n = true) (entries (m_timer_list w))))) 0); [done|].
  cbn [negb]. destruct (Z.leb_spec m 0); lia.
Qed.

Lemma set_action_spec mid pre rest (w : world M) : m_timer_list w = pre ++ rest →
  vars w !! m_mutex_callback_Id = Some mid → mx_free (mutexes w) mid →
  ∃ m, set_action m_mutex_callback_Id (seqZ (Z.of_nat (length pre)) (Z.of_nat (length rest))) w
    = Ret (mkWorld m (vars w) (init_f w) (timer_Start_All_f w) (base w) (pre ++ (act <$> rest))
             (fired w ++ events triggered (Z.of_nat (length pre)) rest)) ∧ mx_free m mid.
Proof.
  revert pre w. induction rest as [|n rest IH]; intros pre w Hl Hv Hf.
  { exists (mutexes w). rewrite !app_nil_r in *. cbn. rewrite <-Hl. split; [by destruct w|done]. }
  cbn [length]. rewrite Nat2Z.inj_succ, seqZ_cons by lia. rewrite Z.pred_succ. cbn [set_action].
  unfold timer_at. destruct (Z.ltb_spec (Z.of_nat (length pre)) 0); [lia|].
  rewrite Nat2Z.id, Hl, list_lookup_middle by done. cbn [or_ub mbind outcome_bind].
  assert (Z.succ (Z.of_nat (length pre)) = Z.of_nat (length (pre ++ [act n]))) as Elen
    by (rewrite length_app; simpl; lia).
  cbn [fmap list_fmap events]. rewrite (cons_middle (act n)), !app_assoc.
  assert (Z.of_nat (length pre) + 1 = Z.of_nat (length (pre ++ [act n]))) as -> by lia.
  fold (triggered n). destruct (triggered n) eqn:Et.
  - cbn [andb]. unfold lock, unlock. cbn [vars set_timer set_timers]. rewrite (load_Some _ _ _ Hv).
    cbn [mbind outcome_bind mutexes set_timer set_timers].
    destruct (mx_lock_free _ _ Hf) as (m1 & -> & Hh & _). cbn [mbind outcome_bind].
    destruct (mx_unlock_held _ _ Hh) as (m2 & Hu & Hf2 & _). cbn [callback set_run param].
    assert (act n = set_run n (if negb (repeat n =? TRUE) then FALSE else start n) FALSE (overflowTimestamp n)) as Ea
      by (unfold act; fold (triggered n); by rewrite Et).
    rewrite <-Ea.
    set (w1 := set_mutexes _ m1).
    set (w2 := if negb (callback n =? NULL) then fire w1 (Z.of_nat (length pre)) (param n) else w1).
    assert (w2 = mkWorld m1 (vars w) (init_f w) (timer_Start_All_f w) (base w) ((pre ++ [act n]) ++ rest)
      (fired w ++ (if negb (callback n =? NULL) then [(Z.of_nat (length pre), param n)] else []))) as ->.
    { unfold w2, w1, fire, set_mutexes, set_timer, set_timers. simpl.
      rewrite Nat2Z.id, Hl, insert_app_r_alt, Nat.sub_diag by done. cbn. rewrite <-app_assoc.
      destruct (negb (callback n =? NULL)); by rewrite ?app_nil_r. }
    cbn [vars mutexes]. rewrite (load_Some _ _ _ Hv). cbn [mbind outcome_bind]. rewrite Hu.
    cbn [mbind outcome_bind]. rewrite Elen.
    destruct (IH (pre ++ [act n]) (set_mutexes (mkWorld m1 (vars w) (init_f w) (timer_Start_All_f w) (base w)
      ((pre ++ [act n]) ++ rest)
      (fired w ++ (if negb (callback n =? NULL) then [(Z.of_nat (length pre), param n)] else []))) m2))
      as (m & -> & Hm); [done|done|done|]. exists m. cbn [set_mutexes vars init_f timer_Start_All_f base fired]. by rewrite <-!app_assoc.
  - rewrite Elen. assert (act n = n) as Ea by (unfold act; fold (triggered n); by rewrite Et). rewrite Ea in *.
    destruct (IH (pre ++ [n]) w) as (m & -> & Hm); [by rewrite Hl, <-app_assoc|done|done|].
    exists m. cbn [andb app]. by rewrite app_nil_r.
Qed.

Lemma set_action_all mid (w : world M) : timer_ok mid w →
  ∃ m, DevTimer_SetAction m_mutex_callback_Id w
    = Ret (RET_OK, mkWorld m (vars w) TRUE (timer_Start_All_f w) (base w)
             (take 1 (m_timer_list w) ++ (act <$> entries (m_timer_list w)))
             (fired w ++ events triggered 1 (entries (m_timer_list w)))) ∧ mx_free m mid.
Proof.
  intros [Hi Hl Hv Hf _]. unfold DevTimer_SetAction, entries. rewrite Hi.
  change (negb (TRUE =? TRUE)) with false. cbv iota.
  destruct (m_timer_list w) as [|n0 l] eqn:E; [done|]. simpl in Hl. injection Hl as Hl.
  destruct (set_action_spec mid [n0] l w E Hv Hf) as (m & Hs & Hm).
  cbn [length] in Hs. rewrite Hl in Hs. change timer_ids with (seqZ (Z.of_nat 1) (Z.of_nat 127)).
  rewrite Hs, Hi. cbn [mbind outcome_bind take drop app]. by exists m.
Qed.

(** The state after a round. *)
Definition round (now : Z) (w : world M) (m : M) : world M :=
  let l := after now <$> entries (m_timer_list w) in
  mkWorld m (vars w) TRUE (timer_Start_All_f w) (armed now (timer_Start_All_f w) l)
    (take 1 (m_timer_list w) ++ l) (fired w ++ events (due now) 1 (entries (m_timer_list w))).

Lemma entries_split now w mid : timer_ok mid w →
  entries (take 1 (m_timer_list w) ++ (now <$> entries (m_timer_list w))) = now <$> entries (m_timer_list w).
Proof. intros [_ Hl _ _ _]. unfold entries. by destruct (m_timer_list w). Qed.

Lemma round_ok now mid w m : clock_ok now → timer_ok mid w → mx_free m mid → timer_ok mid (round now w m).
Proof.
  intros Hck Hok Hm. pose proof Hok as [Hi Hl Hv Hf Hr]. split; [done| |done|done|].
  - cbn [m_timer_list round]. unfold entries. rewrite length_app, length_fmap, length_take, length_drop. lia.
  - cbn [m_timer_list round]. rewrite (entries_split _ _ _ Hok). apply Forall_fmap.
    eapply Forall_impl; [exact Hr|]. intros n Hn. by apply after_range.
Qed.

Lemma handler_round mid now w : clock_ok now → timer_ok mid w → ∃ m, handler now w = Ret (round now w m) ∧ mx_free m mid.
Proof.
  intros Hck Hok. pose proof Hok as [Hi Hl Hv Hf Hr]. unfold Dev_Timer_handler, DevTimer_SetMinOverflowTime.
  rewrite Hi. change (negb (TRUE =? TRUE)) with false. cbv iota.
  set (w1 := set_timers w _).
  assert (timer_ok mid w1) as Hok1.
  { split; [done| |done|done|]; unfold w1; cbn [m_timer_list set_timers].
    - unfold entries. rewrite length_app, length_fmap, length_take, length_drop. lia.
    - rewrite (entries_split _ _ _ Hok). apply Forall_fmap. eapply Forall_impl; [exact Hr|].
      intros n Hn. by apply tick_range. }
  destruct (set_action_all mid w1 Hok1) as (m & -> & Hm). cbn [mbind outcome_bind].
  unfold DevTimer_StopBase. change (negb (RET_OK =? RET_OK)) with false. cbv iota.
  unfold w1. cbn [set_timers m_timer_list vars timer_Start_All_f base fired].
  rewrite (entries_split _ _ _ Hok), (events_map (tick now) triggered (due now)), <-list_fmap_compose;
    [|by (eapply Forall_impl; [exact Hr|]; intros n Hn; apply triggered_tick)
     |by intros n; unfold tick; destruct (_ && _)|by intros n; unfold tick; destruct (_ && _)].
  rewrite (list_fmap_ext (act ∘ tick now) (after now))
    by (intros i n Hn; apply act_tick; [done|by eapply Forall_lookup_1]).
  assert (take 1 (take 1 (m_timer_list w) ++ (tick now <$> entries (m_timer_list w))) = take 1 (m_timer_list w)) as ->
    by (by destruct (m_timer_list w)).
  rewrite GetMin_spec; [|done|done|].
  2: { cbn [set_base m_timer_list]. rewrite (entries_split _ _ _ Hok). apply Forall_fmap.
       eapply Forall_impl; [exact Hr|]. intros n Hn. by apply after_range. }
  cbn [set_base m_timer_list timer_Start_All_f].
  rewrite (entries_split _ _ _ Hok). set (l := after now <$> entries (m_timer_list w)).
  exists m. split; [|done]. f_equal. unfold round. fold l. unfold armed.
  destruct (timer_Start_All_f w =? TRUE), (existsb started l); cbn [andb]; try done.
  assert (0 < next_wait now l) as Hpos by (unfold next_wait; lia).
  destruct (Z.ltb_spec 0 (next_wait now l)); [|lia]. unfold DevTimer_StartBase.
  destruct (Z.leb_spec (next_wait now l) 0); [lia|]. done.
Qed.

(** A round at [now] calls exactly the callbacks of the started timers that are
    due, once each and in the order of the table; one-shot timers that fired
    are stopped and repeating ones whose time has come start over; the base
    timer is armed for the earliest deadline that is left (at least a
    millisecond) when some timer runs and the module is not stopped, and
    disarmed otherwise. *)
Theorem Dev_Timer_handler_spec (mid now : Z) (w : world M) : clock_ok now → timer_ok mid w →
  ∃ w', handler now w = Ret w' ∧ timer_ok mid w' ∧
    fired w' = fired w ++ events (due now) 1 (entries (m_timer_list w)) ∧
    entries (m_timer_list w') = after now <$> entries (m_timer_list w) ∧
    base w' = armed now (timer_Start_All_f w) (entries (m_timer_list w')) ∧
    vars w' = vars w ∧ timer_Start_All_f w' = timer_Start_All_f w.
Proof.
  intros Hck Hok. destruct (handler_round mid now w Hck Hok) as (m & -> & Hm).
  exists (round now w m). split; [done|]. split; [by apply round_ok|]. split; [done|].
  cbn [m_timer_list round base]. rewrite (entries_split _ _ _ Hok). done.
Qed.

(** ** One timer *)

(** The calls of the callback of timer [id]. *)
Definition fired_of (id : Z) (fs : list (Z * Z)) : list (Z * Z) := filter (λ e, e.1 = id) fs.

Lemma fired_of_app id l k : fired_of id (l ++ k) = fired_of id l ++ fired_of id k.
Proof. apply filter_app. Qed.

Lemma events_of p id i l : fired_of id (events p i l) =
  match l !! Z.to_nat (id - i) with
  | Some n => if (i <=? id) && p n && negb (callback n =? NULL) then [(id, param n)] else []
  | None => []
  end.
Proof.
  revert i. induction l as [|n l IH]; intros i; [by rewrite lookup_nil|].
  cbn [events]. unfold fired_of in *. rewrite filter_app, IH.
  destruct (Z.leb_spec i id) as [Hle|Hgt].
  - destruct (decide (i = id)) as [->|Hne].
    + rewrite Z.sub_diag. change (Z.to_nat 0) with 0%nat. cbn [lookup list_lookup andb].
      assert (match l !! Z.to_nat (id - (id + 1)) with
              | Some n0 => if (id + 1 <=? id) && p n0 && negb (callback n0 =? NULL) then [(id, param n0)] else []
              | None => [] end = []) as ->.
      { destruct (l !! _); [|done]. by destruct (Z.leb_spec (id + 1) id); [lia|]. }
      rewrite app_nil_r. destruct (p n && negb (callback n =? NULL)); [|done].
      rewrite filter_cons_True by done. done.
    + replace (Z.to_nat (id - i)) with (S (Z.to_nat (id - (i + 1)))) by lia. cbn [lookup list_lookup].
      replace (i + 1 <=? id) with true by (symmetry; apply Z.leb_le; lia).
      destruct (p n && negb (callback n =? NULL)); [|done]. by rewrite filter_cons_False by (simpl; lia).
  - replace (Z.to_nat (id - i)) with 0%nat by lia. cbn [lookup list_lookup andb].
    assert (match l !! Z.to_nat (id - (i + 1)) with
            | Some n0 => if (i + 1 <=? id) && p n0 && negb (callback n0 =? NULL) then [(id, param n0)] else []
            | None => [] end = []) as ->.
    { destruct (l !! _); [|done]. by destruct (Z.leb_spec (i + 1) id); [lia|]. }
    rewrite app_nil_r. destruct (p n && negb (callback n =? NULL)); [|done]. by rewrite filter_cons_False by (simpl; lia).
Qed.

Lemma round_fired id now w m n mid : timer_ok mid w → 0 < id →
  m_timer_list w !! Z.to_nat id = Some n →
  fired_of id (fired (round now w m)) =
    fired_of id (fired w) ++ (if due now n && negb (callback n =? NULL) then [(id, param n)] else []).
Proof.
  intros Hok Hid Hn. cbn [fired round]. rewrite fired_of_app. f_equal.
  rewrite events_of. unfold entries. rewrite lookup_drop.
  replace (1 + Z.to_nat (id - 1))%nat with (Z.to_nat id) by lia. rewrite Hn.
  by destruct (Z.leb_spec 1 id); [|lia].
Qed.

(** A timer started for [ms] milliseconds does not fire in [Start], does not
    fire in a round before its deadline, and fires in the first round at or
    after it. *)
Theorem DevTimer_Start_fires (mid now id ms Repeat : Z) (w : world M) (n : Timer_node) :
  timer_ok mid w → 0 < id < DEV_TIMER_NUM_MAX → m_timer_list w !! Z.to_nat id = Some n →
  en n = TRUE → callback n ≠ NULL → clock_ok now → 0 < ms < 2 ^ 62 →
  ∃ w1, DevTimer_Start RET_OK m_mutex_callback_Id now id ms Repeat w = Ret (RET_OK, w1) ∧
    timer_ok mid w1 ∧ fired_of id (fired w1) = fired_of id (fired w) ∧
    ∀ t, clock_ok t → ∃ w2, handler t w1 = Ret w2 ∧ timer_ok mid w2 ∧
      fired_of id (fired w2) = fired_of id (fired w) ++ (if t <? now + ms then [] else [(id, param n)]).
Proof.
  intros Hok Hid Hn He Hc Hck Hms. pose proof Hok as [Hi Hl Hv Hf Hr].
  unfold DevTimer_Start, bad_id, timer_at.
  unfold DEV_TIMER_NUM_MAX in *. rewrite Hi. change (negb (TRUE =? TRUE)) with false. cbv iota.
  destruct (Z.leb_spec 128 id), (Z.leb_spec id 0), (Z.ltb_spec id 0); try lia. cbn [orb].
  rewrite Hn. cbn [or_ub mbind outcome_bind]. rewrite He. change (negb (TRUE =? TRUE)) with false. cbv iota.
  destruct (Z.eqb_spec (callback n) NULL); [done|].
  rewrite s64_small by (unfold clock_ok in Hck; lia). set (n1 := mkTimer _ _ _ _ _ _ _ _ _ _ _ _).
  set (w0 := set_timer w id n1).
  assert (timer_ok mid w0) as Hok0.
  { split; [done|simpl; by rewrite length_insert|done|done|]. unfold w0, entries. cbn [m_timer_list set_timer set_timers].
    rewrite drop_insert_ge by lia. apply Forall_insert; [done|]. unfold timer_range, clock_ok in *. simpl. lia. }
  assert (m_timer_list w0 !! Z.to_nat id = Some n1) as Hn1
    by (apply list_lookup_insert_eq; by eapply lookup_lt_Some).
  assert (∀ t, due t n1 = negb (t <? now + ms)) as Hdue.
  { intros t. unfold due, started, n1. cbn [start trigger overflowTimestamp].
    change (TRUE =? TRUE) with true. change (FALSE =? TRUE) with false. cbn [andb orb].
    destruct (Z.leb_spec (now + ms) t), (Z.ltb_spec t (now + ms)); lia || done. }
  assert (due now n1 = false) as Hnow by (rewrite Hdue; destruct (Z.ltb_spec now (now + ms)); [done|lia]).
  destruct (handler_round mid now w0 Hck Hok0) as (m & -> & Hm). cbn [mbind outcome_bind].
  pose proof (round_ok now mid w0 m Hck Hok0 Hm) as Hok1.
  assert (fired_of id (fired (round now w0 m)) = fired_of id (fired w)) as Hf1.
  { rewrite (round_fired id now w0 m n1 mid Hok0) by (done || lia). rewrite Hnow. apply app_nil_r. }
  eexists. split; [done|]. split; [done|]. split; [done|]. intros t Ht.
  destruct (handler_round mid t _ Ht Hok1) as (m2 & -> & Hm2). eexists. split; [done|].
  split; [by apply round_ok|].
  rewrite (round_fired id t _ m2 n1 mid Hok1), Hf1, Hdue; [|lia|].
  - destruct (Z.eqb_spec (callback n1) NULL); [done|]. by destruct (t <? now + ms).
  - cbn [m_timer_list round]. unfold entries.
    rewrite lookup_app_r by (rewrite length_take; lia). rewrite length_take, (tm_length _ _ Hok0).
    rewrite list_lookup_fmap, lookup_drop.
    replace (1 + (Z.to_nat id - 1 `min` 128))%nat with (Z.to_nat id) by lia. rewrite Hn1. cbn.
    unfold after. by rewrite Hnow.
Qed.

(** ** Destroying a timer while another one is due *)

(** The ids before the first timer that is triggered are passed over. *)
Lemma set_action_blocked mid pre n rest (w : world M) : m_timer_list w = pre ++ n :: rest →
  vars w !! m_mutex_callback_Id = Some mid → mx_held (mutexes w) mid →
  Exists (λ n, triggered n = true) (n :: rest) →
  set_action m_mutex_callback_Id (seqZ (Z.of_nat (length pre)) (Z.of_nat (length (n :: rest)))) w = Blocked.
Proof.
  revert pre n. induction rest as [|n' rest IH]; intros pre n Hl Hv Hh Hex;
    cbn [length]; rewrite Nat2Z.inj_succ, seqZ_cons by lia; rewrite Z.pred_succ; cbn [set_action];
    unfold timer_at; (destruct (Z.ltb_spec (Z.of_nat (length pre)) 0); [lia|]);
    rewrite Nat2Z.id, Hl, list_lookup_middle by done; cbn [or_ub mbind outcome_bind];
    fold (triggered n); destruct (triggered n) eqn:Et.
  1, 3: (unfold lock; cbn [vars set_timer set_timers]; rewrite (load_Some _ _ _ Hv);
         cbn [mbind outcome_bind mutexes set_timer set_timers]; by rewrite (mx_lock_held _ _ Hh)).
  - apply Exists_cons in Hex as [?|Hex]; [congruence|]. by apply Exists_nil in Hex.
  - apply Exists_cons in Hex as [?|Hex]; [congruence|].
    replace (Z.succ (Z.of_nat (length pre))) with (Z.of_nat (length (pre ++ [n]))) by (rewrite length_app; simpl; lia).
    change (Z.succ (Z.of_nat (length rest))) with (Z.succ (Z.of_nat (length rest))).
    replace (Z.of_nat (S (length rest))) with (Z.of_nat (length (n' :: rest))) by done.
    apply IH; [by rewrite <-app_assoc|done|done|done].
Qed.

Lemma handler_blocked mid now (w : world M) j n : init_f w = TRUE →
  length (m_timer_list w) = 128%nat → vars w !! m_mutex_callback_Id = Some mid →
  mx_held (mutexes w) mid → 0 < j → m_timer_list w !! Z.to_nat j = Some n → due now n = true →
  clock_ok now → timer_range n → handler now w = Blocked.
Proof.
  intros Hi Hl Hv Hh Hj Hn Hdue Hck Hr. unfold Dev_Timer_handler, DevTimer_SetMinOverflowTime, DevTimer_SetAction.
  rewrite Hi. change (negb (TRUE =? TRUE)) with false. cbv iota. cbn [init_f set_timers]. rewrite Hi.
  change (negb (TRUE =? TRUE)) with false. cbv iota. unfold entries.
  destruct (m_timer_list w) as [|n0 [|n1 l]] eqn:E; [done|done|]. cbn [take drop fmap list_fmap app].
  injection Hl as Hl.
  pose proof (set_action_blocked mid [n0] (tick now n1) (tick now <$> l)
    (set_timers w (n0 :: tick now n1 :: (tick now <$> l)))) as Hb.
  cbn [length] in Hb. rewrite length_fmap, Hl in Hb.
  change (seqZ (Z.of_nat 1) (Z.of_nat 127)) with timer_ids in Hb. rewrite Hb; [done|done|done|done|].
  rewrite <-fmap_cons. apply Exists_exists. exists (tick now n). rewrite triggered_tick by done. split; [|done].
  apply list_elem_of_fmap. exists n. split; [done|].
  replace (Z.to_nat j) with (S (Z.to_nat (j - 1))) in Hn by lia. cbn in Hn. by eapply list_elem_of_lookup_2.
Qed.

(** [Destroy] runs the handler while it holds the callback mutex: when another
    timer is due at that moment the thread waits for itself for ever. *)
Theorem DevTimer_Destroy_deadlock (mid1 mid2 now p id j : Z) (n nj : Timer_node) (w : world M) :
  init_f w = TRUE → length (m_timer_list w) = 128%nat →
  vars w !! m_mutex_Id = Some mid1 → vars w !! m_mutex_callback_Id = Some mid2 → mid2 ≠ mid1 →
  mx_free (mutexes w) mid1 → mx_free (mutexes w) mid2 →
  p ≠ NULL → vars w !! p = Some id → 0 < id < DEV_TIMER_NUM_MAX →
  m_timer_list w !! Z.to_nat id = Some n → en n = TRUE → pId n = p →
  0 < j → j ≠ id → m_timer_list w !! Z.to_nat j = Some nj → due now nj = true →
  clock_ok now → timer_range nj →
  DevTimer_Destroy RET_OK m_mutex_Id m_mutex_callback_Id now p w = Blocked.
Proof.
  intros Hi Hl Hv1 Hv2 Hne Hf1 Hf2 Hp Hvp Hid Hn He Ho Hj Hji Hnj Hdue Hck Hr. unfold DEV_TIMER_NUM_MAX in *.
  unfold DevTimer_Destroy, lock. rewrite (load_Some _ _ _ Hv1). cbn [mbind outcome_bind].
  destruct (mx_lock_free _ _ Hf1) as (m1 & -> & Hh1 & Hoth). cbn [mbind outcome_bind init_f set_mutexes].
  rewrite Hi. change (negb (TRUE =? TRUE)) with false. cbv iota.
  destruct (Z.eqb_spec p NULL); [done|]. cbn [vars set_mutexes]. rewrite (load_Some _ _ _ Hvp).
  cbn [mbind outcome_bind]. unfold bad_id, DEV_TIMER_NUM_MAX, timer_at.
  destruct (Z.leb_spec 128 id), (Z.leb_spec id 0), (Z.ltb_spec id 0); try lia. cbn [orb m_timer_list set_mutexes].
  rewrite Hn. cbn [or_ub mbind outcome_bind]. rewrite He, Ho. change (negb (TRUE =? TRUE)) with false. cbv iota.
  destruct (Z.eqb_spec p NULL); [done|]. cbn [vars set_mutexes]. rewrite (load_Some _ _ _ Hvp). cbn [mbind outcome_bind].
  destruct (Z.leb_spec 128 id), (Z.leb_spec id 0); try lia. cbn [orb vars set_mutexes].
  rewrite (load_Some _ _ _ Hv2). cbn [mbind outcome_bind mutexes set_mutexes].
  destruct (mx_lock_free m1 mid2) as (m2 & -> & Hh2 & _); [by apply Hoth|]. cbn [mbind outcome_bind].
  unfold DevTimer_Stop, bad_id, DEV_TIMER_NUM_MAX, timer_at. cbn [init_f set_mutexes].
  rewrite Hi. change (negb (TRUE =? TRUE)) with false. cbv iota.
  destruct (Z.leb_spec 128 id), (Z.leb_spec id 0), (Z.ltb_spec id 0); try lia. cbn [orb m_timer_list set_mutexes].
  rewrite Hn. cbn [or_ub mbind outcome_bind]. rewrite He. change (negb (TRUE =? TRUE)) with false. cbv iota.
  rewrite (handler_blocked mid2 now _ j nj); try done.
  - simpl. by rewrite length_insert.
  - simpl. by rewrite list_lookup_insert_ne by lia.
Qed.
End Round.

(** ** Concrete timers *)

(** The SDK's own mutex table with two free locks. *)
Definition two_lock_table : mutex_state :=
  mkMutexState PM_unlocked TRUE
    (<[2%nat := mkMutexNode TRUE 4104 "a.cpp" "b" 1 FALSE PM_unlocked]>
      (<[1%nat := mkMutexNode TRUE 4096 "a.cpp" "m" 1 FALSE PM_unlocked]> (replicate 256 DevMutex.zero_node))).

(** Timer 1 is enabled and idle; timer 2 runs, one-shot, and is due at 1000. *)
Definition two_timers : world mutex_state :=
  mkWorld two_lock_table (<[4096 := 1]> (<[4104 := 2]> {[8192 := 1]})) TRUE TRUE B_disarmed
    (<[2%nat := mkTimer TRUE 8200 "a.cpp" "u" 2 TRUE 7 65536 100 1000 FALSE FALSE]>
      (<[1%nat := mkTimer TRUE 8192 "a.cpp" "t" 1 FALSE 5 65536 0 0 FALSE FALSE]> (replicate 128 zero_node))) [].

Lemma two_timers_ok : @timer_ok _ _ (DevMutex_laws (λ _, 0)) 4104 2 two_timers.
Proof.
  split; [done|by vm_compute|by vm_compute| |by apply (bool_decide_unpack _); vm_compute].
  split; [done|]. split; [done|]. by eexists.
Qed.

Lemma Dev_Timer_handler_spec_witness :
  ∃ w', @Dev_Timer_handler _ (DevMutex_lib (λ _, 0)) RET_OK 4104 1000 two_timers = Ret w' ∧
    fired w' = [(2, 7)] ∧ base w' = B_disarmed.
Proof.
  destruct (@Dev_Timer_handler_spec _ _ (DevMutex_laws (λ _, 0)) 4104 2 1000 two_timers ltac:(done) two_timers_ok)
    as (w' & E & _ & Hf & He & Hb & _).
  exists w'. split; [exact E|]. rewrite Hf, Hb, He. split; by vm_compute.
Defined.

Lemma DevTimer_Start_fires_witness :
  ∃ w1, @DevTimer_Start _ (DevMutex_lib (λ _, 0)) RET_OK 4104 0 1 50 FALSE two_timers = Ret (RET_OK, w1) ∧
    ∀ t, clock_ok t → ∃ w2, @Dev_Timer_handler _ (DevMutex_lib (λ _, 0)) RET_OK 4104 t w1 = Ret w2 ∧
      fired_of 1 (fired w2) = if t <? 50 then [] else [(1, 5)].
Proof.
  destruct (@DevTimer_Start_fires _ _ (DevMutex_laws (λ _, 0)) 4104 2 0 1 50 FALSE two_timers
    (mkTimer TRUE 8192 "a.cpp" "t" 1 FALSE 5 65536 0 0 FALSE FALSE)) as (w1 & E & _ & _ & Ht);
    [apply two_timers_ok|done|by vm_compute|done|done|done|done|].
  exists w1. split; [exact E|]. intros t Hck. destruct (Ht t Hck) as (w2 & E2 & _ & Hf). exists w2. split; [exact E2|].
  exact Hf.
Defined.

Lemma DevTimer_Destroy_deadlock_witness :
  @DevTimer_Destroy _ (DevMutex_lib (λ _, 0)) RET_OK 4096 4104 1000 8192 two_timers = Blocked.
Proof.
  apply (@DevTimer_Destroy_deadlock _ _ (DevMutex_laws (λ _, 0)) 4096 4104 1 2 1000 8192 1 2
    (mkTimer TRUE 8192 "a.cpp" "t" 1 FALSE 5 65536 0 0 FALSE FALSE)
    (mkTimer TRUE 8200 "a.cpp" "u" 2 TRUE 7 65536 100 1000 FALSE FALSE)); try done; try (by vm_compute).
  - split; [done|]. split; [done|]. by eexists.
  - split; [done|]. split; [done|]. by eexists.
Defined.

(** A period that takes the deadline past 63 bits: the deadline is negative, and the
    base timer is armed for a millisecond again and again. *)
Example endless_timer_polls : ∃ w1,
  @DevTimer_Start _ (DevMutex_lib (λ _, 0)) RET_OK 4104 100 1 (2 ^ 63 - 1) FALSE two_timers = Ret (RET_OK, w1) ∧
  overflowTimestamp <$> m_timer_list w1 !! 1%nat = Some (- 2 ^ 63 + 99) ∧ base w1 = B_armed 0 1000000.
Proof. eexists. by vm_compute. Qed.
