(* ===== verification/DevMsg.v ===== *)
(** * The SDK's message queues

    Model of [src/mivifwk/odm/plugins/qcom/ldc/device/dev_msg.cpp]: a table of
    queues of messages, each queue a linked list of nodes in the heap, behind a
    mutex of its own.  The heap is explicit ([memory]: the list nodes and the
    copied payloads, by address), so that a use after free is undefined
    behaviour and a leak is a node nobody points to.  The functions on a queue
    ([msg_*]) are the bodies between [Lock] and [Unlock]; the entry points run
    them on the world.  [malloc], the clock, the sizes of the structures and the
    contents of uninitialised memory are parameters. *)
From S2P Require Import Prelude DevTypes DevMutex.
From stdpp Require Import strings.
#[local] Open Scope Z_scope.

(** @src src/mivifwk/odm/plugins/qcom/ldc/device/dev_msg.cpp:18-18 MSG_LIST_MAX_NUM *)
Definition MSG_LIST_MAX_NUM : Z := 256.
(** @src src/mivifwk/odm/plugins/qcom/ldc/device/dev_msg.cpp:19-19 MSG_DATA_MAX_NUM *)
Definition MSG_DATA_MAX_NUM : Z := 256.

(** @src src/mivifwk/odm/plugins/qcom/ldc/device/dev_msg.h:17-24 MSG_TYPE_INDEX *)
Definition MSG_TYPE_INDEX : Z := Z.shiftl 1 0.
Definition MSG_TYPE_STACK : Z := Z.shiftl 1 1.
Definition MSG_TYPE_ABANDON_LAST : Z := Z.shiftl 0 2.
Definition MSG_TYPE_ABANDON_FIRST : Z := Z.shiftl 1 2.

(** [(type & flag) == flag]; true of every type for a flag that is 0. *)
Definition has (type flag : Z) : bool := Z.land type flag =? flag.

(** @src src/mivifwk/odm/plugins/qcom/ldc/device/dev_msg.cpp:30-36 Message_Node *)
Record Message_Node := mkNode {
  nd_size : Z;
  nd_data : Z;
  writeTimestamp : Z;
  next : Z;
  previous : Z;
}.

(** @src src/mivifwk/odm/plugins/qcom/ldc/device/dev_msg.cpp:44-55 Message
    [self] is the address of the structure. *)
Record Message := mkMessage {
  self : Z;
  pId : Z;
  fileName : string;
  tagName : string;
  fileLine : Z;
  type : Z;
  limit_max : Z;
  message_count : Z;
  first_messages : Z;
  last_message : Z;
}.

(** An entry of the table: null, a queue, or the address of a freed one. *)
Inductive slot := Null | Msg (m : Message) | Dangling.

(** The heap of the module: list nodes and copied payloads, by address. *)
Record memory := mkMemory { nodes : gmap Z Message_Node; blocks : gmap Z (list Z) }.

(** @src src/mivifwk/odm/plugins/qcom/ldc/device/dev_msg.cpp:61-72 DevMsg_NoDirFileName *)
Definition DevMsg_NoDirFileName (pFilePath : string) : string := no_dir_file_name pFilePath.

(** ** Access to the heap *)

(** [&node->field]: the address of a live node. *)
Definition node (mem : memory) (a : Z) : outcome Message_Node := or_ub (nodes mem !! a).

Definition set_node (mem : memory) (a : Z) (nd : Message_Node) : memory :=
  mkMemory (<[a := nd]> (nodes mem)) (blocks mem).

(** [free(node)]. *)
Definition free_node (mem : memory) (a : Z) : outcome memory :=
  _ ← node mem a; Ret (mkMemory (delete a (nodes mem)) (blocks mem)).

(** [free(data)]; freeing a null pointer does nothing. *)
Definition free_block (mem : memory) (a : Z) : outcome memory :=
  if a =? NULL then Ret mem
  else _ ← or_ub (blocks mem !! a); Ret (mkMemory (nodes mem) (delete a (blocks mem))).

Definition set_next (mem : memory) (a v : Z) : outcome memory :=
  nd ← node mem a;
  Ret (set_node mem a (mkNode (nd_size nd) (nd_data nd) (writeTimestamp nd) v (previous nd))).

Definition set_previous (mem : memory) (a v : Z) : outcome memory :=
  nd ← node mem a;
  Ret (set_node mem a (mkNode (nd_size nd) (nd_data nd) (writeTimestamp nd) (next nd) v)).

(** The list fields of a queue. *)
Definition set_list (n : Message) (count first last : Z) : Message :=
  mkMessage (self n) (pId n) (fileName n) (tagName n) (fileLine n) (type n) (limit_max n)
    count first last.

(** The message of a caller: the address of its bytes and the bytes found there. *)
Record payload := mkPayload { pl_addr : Z; pl_bytes : list Z }.

(** The object behind the out parameter of [Read], by its size; [None] for null. *)
Abbreviation out_buffer := (option Z).

(** What [Read] copies to the caller: an address or bytes. *)
Inductive received := R_none | R_index (a : Z) | R_data (bs : list Z).

#[export] Instance Message_Node_eq_dec : EqDecision Message_Node.
Proof. solve_decision. Defined.
#[export] Instance Message_eq_dec : EqDecision Message.
Proof. solve_decision. Defined.
#[export] Instance slot_eq_dec : EqDecision slot.
Proof. solve_decision. Defined.
#[export] Instance memory_eq_dec : EqDecision memory.
Proof. solve_decision. Defined.
#[export] Instance received_eq_dec : EqDecision received.
Proof. solve_decision. Defined.

(** ** Bodies on a queue *)

Section Bodies.
(** [malloc used n]: a block of [n] bytes away from the addresses in use. *)
Context (malloc : gset Z → Z → option Z) (sizeof_Message_Node GetTimestampMs : Z).

Definition used (mem : memory) : gset Z := dom (nodes mem) ∪ dom (blocks mem).

(** The loop of [Try] over [k] nodes: how many overlap [addr, addr + size). *)
Fixpoint count_used (k : nat) (a addr size : Z) (mem : memory) : outcome Z :=
  match k with
  | O => Ret 0
  | S k' =>
      nd ← node mem a;
      r ← count_used k' (next nd) addr size mem;
      Ret (if (addr + size <=? nd_data nd) || (nd_data nd + nd_size nd <? addr) then r else r + 1)
  end.

(** @src src/mivifwk/odm/plugins/qcom/ldc/device/dev_msg.cpp:183-203 DevMsg_Try (body) *)
Definition msg_Try (addr size : Z) (n : Message) (mem : memory) : outcome (Z * Message * memory) :=
  if size <=? 0 then Ret (RET_ERR, n, mem)
  else if limit_max n <=? message_count n then Ret (RET_ERR, n, mem)
  else if has (type n) MSG_TYPE_INDEX then
    ret_ok ← count_used (Z.to_nat (message_count n)) (first_messages n) addr size mem;
    Ret (if negb (ret_ok =? 0) then RET_ERR else RET_OK, n, mem)
  else Ret (RET_OK, n, mem).

(** @src src/mivifwk/odm/plugins/qcom/ldc/device/dev_msg.cpp:240-252 DevMsg_Write (the message's data)
    The stored address; [None] when there is no memory for a copy. *)
Definition store_data (pl : payload) (size : Z) (n : Message) (mem : memory)
    : outcome (option Z * memory) :=
  if has (type n) MSG_TYPE_INDEX then Ret (Some (pl_addr pl), mem)
  else
    match malloc (used mem) size with
    | None => Ret (None, mem)
    | Some d =>
        if Z.of_nat (length (pl_bytes pl)) <? size then UB
        else Ret (Some d, mkMemory (nodes mem) (<[d := take (Z.to_nat size) (pl_bytes pl)]> (blocks mem)))
    end.

(** @src src/mivifwk/odm/plugins/qcom/ldc/device/dev_msg.cpp:255-268 DevMsg_Write (linking)
    The node at [a], whose links are still uninitialised, becomes the last. *)
Definition link_last (a : Z) (n : Message) (mem : memory) : outcome (Message * memory) :=
  if first_messages n =? NULL then
    mem ← set_next mem a a;
    mem ← set_previous mem a a;
    Ret (set_list n (message_count n + 1) a a, mem)
  else
    mem ← set_previous mem a (last_message n);
    mem ← set_next mem a (first_messages n);
    mem ← set_next mem (last_message n) a;
    Ret (set_list n (message_count n + 1) (first_messages n) a, mem).

(** @src src/mivifwk/odm/plugins/qcom/ldc/device/dev_msg.cpp:269-285 DevMsg_Write (overrun)
    Drop the oldest message; [None] when there is nothing to drop. *)
Definition abandon_first (n : Message) (mem : memory) : outcome (option (Message * memory)) :=
  if (limit_max n <? message_count n) && has (type n) MSG_TYPE_ABANDON_FIRST then
    nd ← node mem (first_messages n);
    mem ← set_previous mem (next nd) (previous nd);
    mem ← (if has (type n) MSG_TYPE_INDEX then Ret mem else free_block mem (nd_data nd));
    mem ← free_node mem (first_messages n);
    Ret (Some (set_list n (message_count n - 1) (next nd) (last_message n), mem))
  else Ret None.

(** @src src/mivifwk/odm/plugins/qcom/ldc/device/dev_msg.cpp:231-287 DevMsg_Write (body) *)
Definition msg_Write (pl : payload) (size : Z) (n : Message) (mem : memory)
    : outcome (Z * Message * memory) :=
  if size <=? 0 then Ret (0, n, mem)
  else if (limit_max n <? message_count n) && has (type n) MSG_TYPE_ABANDON_LAST then Ret (0, n, mem)
  else
    match malloc (used mem) sizeof_Message_Node with
    | None => Ret (0, n, mem)
    | Some a =>
        (* the links of a fresh node are not read before they are set *)
        let fresh d := mkNode size d GetTimestampMs NULL NULL in
        '(d, mem) ← store_data pl size n (set_node mem a (fresh NULL));
        match d with
        | None => mem ← free_node mem a; Ret (0, n, mem)
        | Some d =>
            '(n, mem) ← link_last a n (set_node mem a (fresh d));
            dropped ← abandon_first n mem;
            match dropped with
            | Some (n, mem) => Ret (0, n, mem)
            | None => Ret (size, n, mem)
            end
        end
    end.

(** @src src/mivifwk/odm/plugins/qcom/ldc/device/dev_msg.cpp:319-338 DevMsg_Read (unlinking)
    The node taken out, [None] when the message in turn has no size. *)
Definition unlink (n : Message) (mem : memory) : outcome (option (Z * Message)) :=
  let stack := has (type n) MSG_TYPE_STACK in
  let a := if stack then last_message n else first_messages n in
  nd ← node mem a;
  if nd_size nd =? 0 then Ret None
  else
    Ret (Some (a,
      if message_count n =? 1 then set_list n (message_count n) NULL NULL
      else if stack then set_list n (message_count n) (first_messages n) (previous nd)
      else set_list n (message_count n) (next nd) (last_message n))).

(** @src src/mivifwk/odm/plugins/qcom/ldc/device/dev_msg.cpp:315-352 DevMsg_Read (body)
    The copy is [messageNode->size] bytes long whatever [size] is. *)
Definition msg_Read (data : out_buffer) (size : Z) (n : Message) (mem : memory)
    : outcome (Z * received * Message * memory) :=
  if first_messages n =? NULL then Ret (0, R_none, n, mem)
  else if message_count n =? 0 then Ret (0, R_none, n, mem)
  else
    taken ← unlink n mem;
    match taken with
    | None => Ret (0, R_none, n, mem)
    | Some (a, n) =>
        nd ← node mem a;
        let n' := set_list n (message_count n - 1) (first_messages n) (last_message n) in
        if has (type n) MSG_TYPE_INDEX then
          match data with
          | None => UB
          | Some room =>
              if room <? 8 then UB
              else mem ← free_node mem a; Ret (nd_size nd, R_index (nd_data nd), n', mem)
          end
        else
          match data with
          | None => Ret (0, R_none, n, mem)
          | Some room =>
              bs ← or_ub (blocks mem !! nd_data nd);
              if (room <? nd_size nd) || (Z.of_nat (length bs) <? nd_size nd) then UB
              else
                mem ← free_block mem (nd_data nd);
                mem ← free_node mem a;
                Ret (nd_size nd, R_data (take (Z.to_nat (nd_size nd)) bs), n', mem)
          end
    end.

(** @src src/mivifwk/odm/plugins/qcom/ldc/device/dev_msg.cpp:379-393 DevMsg_Size (body) *)
Definition msg_Size (n : Message) (mem : memory) : outcome (Z * Message * memory) :=
  if first_messages n =? NULL then Ret (0, n, mem)
  else if message_count n =? 0 then Ret (0, n, mem)
  else
    nd ← node mem (if has (type n) MSG_TYPE_STACK then last_message n else first_messages n);
    Ret (nd_size nd, n, mem).

(** The loop of [Clean]: the payloads are freed, the nodes only emptied. *)
Fixpoint empty_nodes (k : nat) (a ty : Z) (mem : memory) : outcome memory :=
  match k with
  | O => Ret mem
  | S k' =>
      nd ← node mem a;
      mem ← (if has ty MSG_TYPE_INDEX then Ret mem else free_block mem (nd_data nd));
      empty_nodes k' (next nd) ty
        (set_node mem a (mkNode 0 NULL (writeTimestamp nd) (next nd) (previous nd)))
  end.

(** @src src/mivifwk/odm/plugins/qcom/ldc/device/dev_msg.cpp:496-510 DevMsg_Clean (body) *)
Definition msg_Clean (n : Message) (mem : memory) : outcome (Z * Message * memory) :=
  mem ← (if negb (first_messages n =? NULL)
         then empty_nodes (Z.to_nat (message_count n)) (first_messages n) (type n) mem
         else Ret mem);
  Ret (RET_OK, set_list n 0 NULL NULL, mem).
End Bodies.

(** ** The module *)

(** The statics, with the memory the module touches; the static [m_mutex_Id] and
    the [mutex_Id] of each queue are variables in [vars]. *)
Record world (M : Type) := mkWorld {
  mutexes : M;
  vars : cells;
  heap : memory;
  init_f : Z;
  m_message_p_list : list slot;
}.
Arguments mkWorld {_} _ _ _ _ _.
Arguments mutexes {_} _.
Arguments vars {_} _.
Arguments heap {_} _.
Arguments init_f {_} _.
Arguments m_message_p_list {_} _.

Definition msg_ids : list Z := seqZ 1 (MSG_LIST_MAX_NUM - 1).

Section Module.
Context `{MutexLib M}.
Context (malloc : gset Z → Z → option Z) (sizeof_Message_Node sizeof_Message GetTimestampMs : Z).
(** The address of the static [m_mutex_Id], the offset of [mutex_Id] in
    [Message], and what a fresh block holds there. *)
Context (m_mutex_Id offsetof_mutex_Id garbage : Z).

Abbreviation world := (world M).

Definition set_slot (w : world) (id : Z) (x : slot) : world :=
  mkWorld (mutexes w) (vars w) (heap w) (init_f w) (<[Z.to_nat id := x]> (m_message_p_list w)).
Definition set_vars (w : world) (c : cells) : world :=
  mkWorld (mutexes w) c (heap w) (init_f w) (m_message_p_list w).
Definition set_mutexes (w : world) (m : M) : world :=
  mkWorld m (vars w) (heap w) (init_f w) (m_message_p_list w).
Definition set_heap (w : world) (h : memory) : world :=
  mkWorld (mutexes w) (vars w) h (init_f w) (m_message_p_list w).

(** [Device->mutex->Lock] and [Unlock] on the id in the variable at [p]. *)
Definition lock (p : Z) (w : world) : outcome (Z * world) :=
  id ← load (vars w) p; '(r, m) ← mx_Lock id (mutexes w); Ret (r, set_mutexes w m).
Definition unlock (p : Z) (w : world) : outcome world :=
  id ← load (vars w) p; '(_, m) ← mx_Unlock id (mutexes w); Ret (set_mutexes w m).

(** [&message->mutex_Id]. *)
Definition mutex_of (n : Message) : Z := self n + offsetof_mutex_Id.

(** [m_message_p_list[id]], dereferenced when it is not null. *)
Definition message_at (w : world) (id : Z) : outcome (option Message) :=
  s ← (if id <? 0 then UB else or_ub (m_message_p_list w !! Z.to_nat id));
  match s with Null => Ret None | Msg n => Ret (Some n) | Dangling => UB end.

Definition bad_id (id : Z) : bool := (id <=? 0) || (MSG_LIST_MAX_NUM <=? id).

(** The prologue of the entry points on an id. *)
Definition on_message {A} (id : Z) (err : A) (w : world)
    (k : Message → outcome (A * world)) : outcome (A * world) :=
  if negb (init_f w =? TRUE) then Ret (err, w)
  else if bad_id id then Ret (err, w)
  else
    q ← message_at w id;
    match q with None => Ret (err, w) | Some n => k n end.

(** The body of an operation between [Lock] and [Unlock]; [err r] when [Lock]
    fails with [r]. *)
Definition locked {A} (id : Z) (err : Z → A)
    (body : Message → memory → outcome (A * Message * memory)) (w : world) (n : Message)
    : outcome (A * world) :=
  '(r, w) ← lock (mutex_of n) w;
  if negb (r =? RET_OK) then w ← unlock (mutex_of n) w; Ret (err r, w)
  else
    '(a, n', h) ← body n (heap w);
    w ← unlock (mutex_of n) (set_slot (set_heap w h) id (Msg n'));
    Ret (a, w).

(** @src src/mivifwk/odm/plugins/qcom/ldc/device/dev_msg.cpp:171-208 DevMsg_Try *)
Definition DevMsg_Try (id addr size : Z) (w : world) : outcome (Z * world) :=
  on_message id RET_ERR w (locked id (λ _, RET_ERR) (msg_Try addr size) w).

(** @src src/mivifwk/odm/plugins/qcom/ldc/device/dev_msg.cpp:222-291 DevMsg_Write *)
Definition DevMsg_Write (id : Z) (pl : payload) (size : Z) (w : world) : outcome (Z * world) :=
  on_message id 0 w
    (locked id (λ _, 0) (msg_Write malloc sizeof_Message_Node GetTimestampMs pl size) w).

(** @src src/mivifwk/odm/plugins/qcom/ldc/device/dev_msg.cpp:305-356 DevMsg_Read *)
Definition DevMsg_Read (id : Z) (data : out_buffer) (size : Z) (w : world)
    : outcome (Z * received * world) :=
  on_message id (0, R_none) w (locked id (λ _, (0, R_none)) (msg_Read data size) w).

(** @src src/mivifwk/odm/plugins/qcom/ldc/device/dev_msg.cpp:370-397 DevMsg_Size *)
Definition DevMsg_Size (id : Z) (w : world) : outcome (Z * world) :=
  on_message id 0 w (locked id (λ _, 0) msg_Size w).

(** @src src/mivifwk/odm/plugins/qcom/ldc/device/dev_msg.cpp:410-416 DevMsg_Empty *)
Definition DevMsg_Empty (id : Z) (w : world) : outcome (Z * world) :=
  on_message id TRUE w (λ n, Ret (if message_count n =? 0 then TRUE else FALSE, w)).

(** @src src/mivifwk/odm/plugins/qcom/ldc/device/dev_msg.cpp:429-435 DevMsg_Full *)
Definition DevMsg_Full (id : Z) (w : world) : outcome (Z * world) :=
  on_message id TRUE w (λ n, Ret (if limit_max n <=? message_count n then TRUE else FALSE, w)).

(** @src src/mivifwk/odm/plugins/qcom/ldc/device/dev_msg.cpp:448-454 DevMsg_Count *)
Definition DevMsg_Count (id : Z) (w : world) : outcome (Z * world) :=
  on_message id 0 w (λ n, Ret (message_count n, w)).

(** @src src/mivifwk/odm/plugins/qcom/ldc/device/dev_msg.cpp:467-473 DevMsg_Available *)
Definition DevMsg_Available (id : Z) (w : world) : outcome (Z * world) :=
  on_message id 0 w (λ n, Ret (limit_max n - message_count n, w)).

(** @src src/mivifwk/odm/plugins/qcom/ldc/device/dev_msg.cpp:486-514 DevMsg_Clean
    The queue is dereferenced before it is compared with null. *)
Definition DevMsg_Clean (id : Z) (w : world) : outcome (Z * world) :=
  if negb (init_f w =? TRUE) then Ret (RET_ERR, w)
  else if bad_id id then Ret (RET_ERR, w)
  else
    q ← message_at w id;
    match q with None => UB | Some n => locked id (λ r, r) msg_Clean w n end.

(** A queue of the table that belongs to the variable [p]. *)
Fixpoint find_owner (p : Z) (ids : list Z) (w : world) : outcome (option Z) :=
  match ids with
  | [] => Ret None
  | id :: ids' =>
      q ← message_at w id;
      match q with
      | Some n =>
          if negb (pId n =? NULL) && (pId n =? p) then Ret (Some id) else find_owner p ids' w
      | None => find_owner p ids' w
      end
  end.

(** The first null entry. *)
Definition find_null (w : world) : option Z :=
  find (λ id, match m_message_p_list w !! Z.to_nat id with Some Null => true | _ => false end)
    msg_ids.

(** The addresses [malloc] must keep away from. *)
Definition in_use (w : world) : gset Z := used (heap w) ∪ dom (vars w).

(** @src src/mivifwk/odm/plugins/qcom/ldc/device/dev_msg.cpp:107-157 DevMsg_Create
    [ret] is [RET_OK] from the [Lock] on, on the failing paths too. *)
Definition DevMsg_Create (p ty msg_num_max : Z) (mk : mark) (w : world) : outcome (Z * world) :=
  if negb (init_f w =? TRUE) then Ret (RET_ERR, w)
  else
    '(ret, w) ← lock m_mutex_Id w;
    if negb (ret =? RET_OK) then Ret (RET_ERR, w)
    else
      let exit (w : world) := w ← unlock m_mutex_Id w; Ret (ret, w) in
      owner ← find_owner p msg_ids w;
      match owner with
      | Some _ => exit w
      | None =>
          match find_null w with
          | None => exit w
          | Some id =>
              match malloc (in_use w) sizeof_Message with
              | None => exit w
              | Some a =>
                  let limit := if msg_num_max =? 0 then MSG_DATA_MAX_NUM else msg_num_max in
                  let tag := snprintf_s (FILE_NAME_LEN_MAX + 32) ("msgCreate_" +:+ mk_tagName mk) in
                  let c := <[a + offsetof_mutex_Id := garbage]> (vars w) in
                  '(_, (m, c)) ← mx_Create (a + offsetof_mutex_Id)
                    (mkMark (mk_fileName mk) (mk_fileLine mk) tag) (mutexes w, c);
                  c ← store c p id;
                  let n := mkMessage a p
                    (snprintf_s FILE_NAME_LEN_MAX (DevMsg_NoDirFileName (mk_fileName mk)))
                    (snprintf_s FILE_NAME_LEN_MAX (mk_tagName mk)) (mk_fileLine mk)
                    ty limit 0 NULL NULL in
                  exit (set_slot (set_vars (set_mutexes w m) c) id (Msg n))
              end
          end
      end.

(** @src src/mivifwk/odm/plugins/qcom/ldc/device/dev_msg.cpp:528-562 DevMsg_Destroy
    The early return on a bad [m_id] leaves the module mutex locked. *)
Definition DevMsg_Destroy (p : Z) (w : world) : outcome (Z * world) :=
  if negb (init_f w =? TRUE) then Ret (RET_OK, w)
  else if p =? NULL then Ret (RET_ERR, w)
  else
    id ← load (vars w) p;
    if bad_id id then Ret (RET_ERR, w)
    else
      '(ret, w) ← lock m_mutex_Id w;
      if negb (ret =? RET_OK) then Ret (RET_ERR, w)
      else
        q ← message_at w id;
        match q with
        | None => c ← store (vars w) p 0; w ← unlock m_mutex_Id (set_vars w c); Ret (RET_OK, w)
        | Some n =>
            if pId n =? NULL then
              c ← store (vars w) p 0; w ← unlock m_mutex_Id (set_vars w c); Ret (RET_ERR, w)
            else
              '(_, w) ← DevMsg_Clean id w;
              '(_, (m, c)) ← mx_Destroy (mutex_of n) (mutexes w, vars w);
              let w := set_vars (set_mutexes w m) c in
              m_id ← load (vars w) (pId n);
              if bad_id m_id then Ret (RET_ERR, w)
              else
                let w := set_vars w (delete (mutex_of n) (vars w)) in
                let w := set_slot (set_slot w id Dangling) m_id Null in
                c ← store (vars w) p 0;
                w ← unlock m_mutex_Id (set_vars w c);
                Ret (ret, w)
        end.

(** The walk of [Report] over one queue; [false] when it meets a null link. *)
Fixpoint visit_nodes (k : nat) (stack : bool) (a : Z) (mem : memory) : outcome bool :=
  match k with
  | O => Ret true
  | S k' =>
      if a =? NULL then Ret false
      else nd ← node mem a; visit_nodes k' stack (if stack then previous nd else next nd) mem
  end.

Fixpoint visit (ids : list Z) (w : world) : outcome bool :=
  match ids with
  | [] => Ret true
  | id :: ids' =>
      q ← message_at w id;
      match q with
      | Some n =>
          if pId n =? NULL then visit ids' w
          else
            let stack := has (type n) MSG_TYPE_STACK in
            ok ← visit_nodes (Z.to_nat (message_count n)) stack
                   (if stack then last_message n else first_messages n) (heap w);
            if ok : bool then visit ids' w else Ret false
      | None => visit ids' w
      end
  end.

(** @src src/mivifwk/odm/plugins/qcom/ldc/device/dev_msg.cpp:564-624 DevMsg_Report
    The log lines are left out; the early return keeps the lock. *)
Definition DevMsg_Report (w : world) : outcome (Z * world) :=
  if negb (init_f w =? TRUE) then Ret (RET_ERR, w)
  else
    '(_, w) ← lock m_mutex_Id w;
    ok ← visit (0 :: msg_ids) w;
    if ok : bool then w ← unlock m_mutex_Id w; Ret (RET_OK, w) else Ret (RET_ERR, w).

(** @src src/mivifwk/odm/plugins/qcom/ldc/device/dev_msg.cpp:86-95 DevMsg_Init *)
Definition DevMsg_Init (mk : mark) (w : world) : outcome (Z * world) :=
  if init_f w =? TRUE then Ret (RET_OK, w)
  else
    let l := replicate (Z.to_nat MSG_LIST_MAX_NUM) Null in
    '(ret, (m, c)) ← mx_Create m_mutex_Id mk (mutexes w, vars w);
    if negb (s32 ret =? RET_OK) then Ret (0, mkWorld m c (heap w) (init_f w) l)
    else Ret (RET_OK, mkWorld m c (heap w) TRUE l).

(** The loop of [Deinit] over a local variable at [idp]. *)
Fixpoint destroy_all (idp : Z) (ids : list Z) (w : world) : outcome world :=
  match ids with
  | [] => Ret w
  | id :: ids' =>
      c ← store (vars w) idp id;
      '(_, w) ← DevMsg_Destroy idp (set_vars w c);
      destroy_all idp ids' w
  end.

(** @src src/mivifwk/odm/plugins/qcom/ldc/device/dev_msg.cpp:638-660 DevMsg_Deinit *)
Definition DevMsg_Deinit (idp : Z) (w : world) : outcome (Z * world) :=
  if negb (init_f w =? TRUE) then Ret (RET_OK, w)
  else
    let report := existsb (λ s, negb (bool_decide (s = Null))) (m_message_p_list w) in
    w ← (if report then r ← DevMsg_Report w; Ret r.2 else Ret w);
    w ← destroy_all idp msg_ids w;
    '(_, (m, c)) ← mx_Destroy m_mutex_Id (mutexes w, vars w);
    Ret (RET_OK, mkWorld m c (heap w) FALSE (replicate (Z.to_nat MSG_LIST_MAX_NUM) Null)).
End Module.
