(* ===== verification/DevMsgList.v ===== *)
(** * The heap of a message queue

    The representation predicate behind [DevMsg]: a queue owns a chain of list
    nodes and the payloads of its messages, and nothing else of the heap.  The
    [next] of the last node and the [previous] of the first are not
    constrained: the code leaves them pointing at freed nodes. *)
From S2P Require Import Prelude DevTypes DevMutex DevMsg.
#[local] Open Scope Z_scope.

(** A message as its sender and its receiver see it. *)
Inductive msg := M_index (a size : Z) | M_data (bs : list Z).

Definition msg_size (m : msg) : Z :=
  match m with M_index _ size => size | M_data bs => Z.of_nat (length bs) end.

Definition msg_received (m : msg) : received :=
  match m with M_index a _ => R_index a | M_data bs => R_data bs end.

Definition is_index (m : msg) : bool := match m with M_index _ _ => true | M_data _ => false end.

(** An element of the list: its node, its message and where a copy of it lives. *)
Record ent := mkEnt { e_node : Z; e_blk : Z; e_msg : msg }.

Definition e_data (e : ent) : Z :=
  match e_msg e with M_index a _ => a | M_data _ => e_blk e end.

Definition owned (e : ent) : option Z :=
  match e_msg e with M_index _ _ => None | M_data _ => Some (e_blk e) end.

(** The node of the [i]-th element. *)
Record node_ok (es : list ent) (i : nat) (e : ent) (nd : Message_Node) : Prop := {
  nok_size : nd_size nd = msg_size (e_msg e);
  nok_data : nd_data nd = e_data e;
  nok_next : ∀ e', es !! S i = Some e' → next nd = e_node e';
  nok_prev : ∀ j e', i = S j → es !! j = Some e' → previous nd = e_node e';
}.

(** The chain [es] in the nodes [nm]; the other nodes are those of [F]. *)
Record chain (F nm : gmap Z Message_Node) (es : list ent) : Prop := {
  ch_nodup : NoDup (e_node <$> es);
  ch_null : NULL ∉ e_node <$> es;
  ch_node : ∀ i e, es !! i = Some e → ∃ nd, nm !! e_node e = Some nd ∧ node_ok es i e nd;
  ch_frame : ∀ a, a ∉ e_node <$> es → nm !! a = F !! a;
  ch_own : ∀ a, a ∈ e_node <$> es → F !! a = None;
}.

(** The payloads of [es] in the blocks [bm]; the other blocks are those of [F]. *)
Record payloads (F bm : gmap Z (list Z)) (es : list ent) : Prop := {
  pl_nodup : NoDup (omap owned es);
  pl_null : NULL ∉ omap owned es;
  pl_block : ∀ e bs, e ∈ es → e_msg e = M_data bs → bm !! e_blk e = Some bs;
  pl_frame : ∀ a, a ∉ omap owned es → bm !! a = F !! a;
  pl_own : ∀ a, a ∈ omap owned es → F !! a = None;
}.

Section Chain.
Context (F : gmap Z Message_Node).
Implicit Types (nm : gmap Z Message_Node) (es : list ent).

Lemma chain_nil : chain F F [].
Proof. split; [apply NoDup_nil_2|apply not_elem_of_nil|done|done|]. by intros a ?%elem_of_nil. Qed.

Lemma chain_nil_inv nm : chain F nm [] → nm = F.
Proof. intros [_ _ _ Hf _]. apply map_eq. intros a. apply Hf. set_solver. Qed.

Lemma chain_inj nm es i j e e' : chain F nm es → es !! i = Some e → es !! j = Some e' →
  e_node e = e_node e' → i = j.
Proof.
  intros [Hnd _ _ _ _] Hi Hj E. apply (NoDup_lookup _ _ _ (e_node e) Hnd).
  - by rewrite list_lookup_fmap, Hi.
  - by rewrite list_lookup_fmap, Hj, E.
Qed.

Lemma elem_of_nodes es i e : es !! i = Some e → e_node e ∈ e_node <$> es.
Proof. intros Hi. apply list_elem_of_fmap. exists e. split; [done|]. by eapply list_elem_of_lookup_2. Qed.

Lemma chain_neq_null nm es i e : chain F nm es → es !! i = Some e → e_node e ≠ NULL.
Proof. intros [_ Hn _ _ _] Hi E. apply Hn. rewrite <-E. by eapply elem_of_nodes. Qed.

Lemma chain_dom nm es i e : chain F nm es → es !! i = Some e → e_node e ∈ dom nm.
Proof.
  intros [_ _ Hn _ _] Hi. destruct (Hn i e Hi) as (nd & Hnd & _). by apply elem_of_dom_2 in Hnd.
Qed.

(** Overwriting a node with a correct one. *)
Lemma chain_set nm es i e nd : chain F nm es → es !! i = Some e → node_ok es i e nd →
  chain F (<[e_node e := nd]> nm) es.
Proof.
  intros Hc Hi Hok. pose proof Hc as [Hnd Hn Hns Hf Ho]. split; [done|done| | |done].
  - intros j e' Hj. destruct (decide (j = i)) as [->|Hne].
    + simplify_eq. exists nd. by rewrite lookup_insert_eq.
    + destruct (Hns j e' Hj) as (nd' & Hnd' & Hok'). exists nd'. split; [|done].
      rewrite lookup_insert_ne; [done|]. intros E. by apply Hne, (chain_inj nm es _ _ e' e).
  - intros a Ha. rewrite lookup_insert_ne; [by apply Hf|]. intros <-. by apply Ha, (elem_of_nodes es i).
Qed.

(** The element at the front leaves; its node is freed. *)
Lemma chain_pop_front nm e es : chain F nm (e :: es) → chain F (delete (e_node e) nm) es.
Proof.
  intros [Hnd Hn Hns Hf Ho]. rewrite fmap_cons in *. apply NoDup_cons in Hnd as [He Hnd].
  split; [done|set_solver| | |].
  - intros i e' Hi. destruct (Hns (S i) e' Hi) as (nd & Hl & [H1 H2 H3 H4]). exists nd. split.
    + rewrite lookup_delete_ne; [done|]. intros E. apply He. rewrite E. by eapply elem_of_nodes.
    + split; [done|done|done|]. intros j e2 -> Hj. by apply (H4 (S j)).
  - intros a Ha. destruct (decide (a = e_node e)) as [->|Hne].
    + rewrite lookup_delete_eq. symmetry. apply Ho. set_solver.
    + rewrite lookup_delete_ne by done. apply Hf. set_solver.
  - intros a Ha. apply Ho. set_solver.
Qed.

(** The element at the back leaves. *)
Lemma chain_pop_back nm e es : chain F nm (es ++ [e]) → chain F (delete (e_node e) nm) es.
Proof.
  intros [Hnd Hn Hns Hf Ho]. rewrite fmap_app in *. apply NoDup_app in Hnd as (Hnd & He & _).
  split; [done|set_solver| | |].
  - intros i e' Hi. pose proof (lookup_app_l_Some es [e] i e' Hi) as Hi'.
    destruct (Hns i e' Hi') as (nd & Hl & [H1 H2 H3 H4]). exists nd. split.
    + rewrite lookup_delete_ne; [done|]. intros E. apply (He (e_node e')); [by eapply elem_of_nodes|].
      rewrite <-E. by apply list_elem_of_singleton.
    + split; [done|done| |].
      * intros e2 H2'. apply H3. by apply lookup_app_l_Some.
      * intros j e2 -> Hj. apply (H4 j); [done|]. by apply lookup_app_l_Some.
  - intros a Ha. destruct (decide (a = e_node e)) as [->|Hne].
    + rewrite lookup_delete_eq. symmetry. apply Ho. set_solver.
    + rewrite lookup_delete_ne by done. apply Hf. set_solver.
  - intros a Ha. apply Ho. set_solver.
Qed.

(** A fresh node at the back, before the old last node points to it. *)
Lemma chain_push nm es e nd : chain F nm es → e_node e ∉ dom nm → e_node e ≠ NULL →
  nd_size nd = msg_size (e_msg e) → nd_data nd = e_data e →
  (∀ l, last es = Some l → previous nd = e_node l) →
  ∀ nm', (∀ a, a ≠ e_node e → Some a ≠ e_node <$> last es → nm' !! a = nm !! a) →
  nm' !! e_node e = Some nd →
  (∀ l ndl, last es = Some l → nm !! e_node l = Some ndl → nm' !! e_node l =
     Some (mkNode (nd_size ndl) (nd_data ndl) (writeTimestamp ndl) (e_node e) (previous ndl))) →
  chain F nm' (es ++ [e]).
Proof.
  intros Hc Hfresh Hnull Hs Hd Hp nm' Hrest Hnew Hlast. pose proof Hc as [Hnd Hn Hns Hf Ho].
  assert (e_node e ∉ e_node <$> es) as Hne.
  { intros (e' & E & He')%list_elem_of_fmap. apply list_elem_of_lookup in He' as [i Hi].
    apply Hfresh. rewrite E. by eapply chain_dom. }
  assert (∀ i e', es !! i = Some e' → e_node e' ≠ e_node e) as Hne'.
  { intros i e' Hi E. apply Hne. rewrite <-E. by eapply elem_of_nodes. }
  split.
  - rewrite fmap_app. apply NoDup_app. split; [done|]. split; [|apply NoDup_singleton].
    intros x Hx ->%list_elem_of_singleton. done.
  - rewrite fmap_app. set_solver.
  - intros i e' Hi. apply lookup_app_Some in Hi as [Hi|[Hge Hi]].
    + destruct (Hns i e' Hi) as (nd' & Hl & [H1 H2 H3 H4]).
      assert (∀ j e2, i = S j → (es ++ [e]) !! j = Some e2 → previous nd' = e_node e2) as Hprev.
      { intros j e2 -> Hj. apply (H4 j); [done|]. apply lookup_lt_Some in Hi.
        rewrite lookup_app_l in Hj by lia. done. }
      destruct (decide (S i = length es)) as [Hi'|Hi'].
      * assert (last es = Some e') as Hla by (by rewrite last_lookup, <-Hi').
        rewrite (Hlast _ _ Hla Hl). eexists. split; [done|]. split; simpl; [done|done| |done].
        intros e2 He2. rewrite lookup_app_r in He2 by lia. rewrite Hi', Nat.sub_diag in He2. by simplify_eq/=.
      * exists nd'. split.
        -- rewrite Hrest; [done|by eapply Hne'|]. destruct (last es) as [l|] eqn:Hla; [|done].
           simpl. intros [= E]. rewrite last_lookup in Hla.
           pose proof (chain_inj _ _ _ _ _ _ Hc Hi Hla E). apply lookup_lt_Some in Hi. lia.
        -- split; [done|done| |done]. intros e2 He2. apply H3. apply lookup_lt_Some in Hi.
           rewrite lookup_app_l in He2 by lia. done.
    + assert (i = length es) as -> by (apply lookup_lt_Some in Hi; simpl in Hi; lia).
      rewrite Nat.sub_diag in Hi. simplify_eq/=. exists nd. split; [done|]. split; [done|done| |].
      * intros e2 He2. apply lookup_lt_Some in He2. rewrite length_app in He2. simpl in He2. lia.
      * intros j e2 Hj Hl. apply Hp. rewrite last_lookup, Hj. simpl.
        rewrite lookup_app_l in Hl by lia. done.
  - intros a Ha. rewrite fmap_app in Ha. rewrite <-Hf by set_solver. apply Hrest; [set_solver|].
    destruct (last es) as [l|] eqn:Hla; [|done]. simpl. intros [= ->]. rewrite last_lookup in Hla.
    apply Ha, elem_of_app. left. by eapply elem_of_nodes.
  - intros a Ha. rewrite fmap_app in Ha. apply elem_of_app in Ha as [Ha|Ha]; [by apply Ho|].
    apply list_elem_of_singleton in Ha as ->. rewrite <-Hf by done. by apply not_elem_of_dom.
Qed.
End Chain.

Section Payloads.
Context (F : gmap Z (list Z)).
Implicit Types (bm : gmap Z (list Z)) (es : list ent).

Lemma payloads_nil : payloads F F [].
Proof.
  split; [apply NoDup_nil_2|apply not_elem_of_nil|by intros ?? ?%elem_of_nil|done|].
  by intros a ?%elem_of_nil.
Qed.

Lemma payloads_nil_inv bm : payloads F bm [] → bm = F.
Proof. intros [_ _ _ Hf _]. apply map_eq. intros a. apply Hf, not_elem_of_nil. Qed.

Lemma elem_of_owned es e d : e ∈ es → owned e = Some d → d ∈ omap owned es.
Proof. intros He Ho. apply list_elem_of_omap. by exists e. Qed.

Lemma owned_data e bs : e_msg e = M_data bs → owned e = Some (e_blk e).
Proof. unfold owned. by intros ->. Qed.

Lemma owned_in bm es d : payloads F bm es → d ∈ omap owned es → d ∈ dom bm.
Proof.
  intros Hp (e & He & Ho)%list_elem_of_omap. unfold owned in Ho.
  destruct (e_msg e) as [|bs] eqn:Em; [done|]. injection Ho as <-.
  eapply elem_of_dom_2, pl_block; eauto.
Qed.

Lemma payloads_push_index bm es e : payloads F bm es → owned e = None → payloads F bm (es ++ [e]).
Proof.
  intros [Hn Hz Hb Hf Ho] He.
  assert (omap owned (es ++ [e]) = omap owned es) as E.
  { rewrite omap_app. simpl. rewrite He. apply app_nil_r. }
  split; rewrite ?E; try done. intros e' bs [Hin|Hin]%elem_of_app Hm; [by eapply Hb|].
  apply list_elem_of_singleton in Hin as ->. by rewrite (owned_data _ _ Hm) in He.
Qed.

Lemma payloads_push_data bm es e bs : payloads F bm es → e_msg e = M_data bs →
  e_blk e ∉ dom bm → e_blk e ≠ NULL → payloads F (<[e_blk e := bs]> bm) (es ++ [e]).
Proof.
  intros Hp Hm Hfresh Hnull. pose proof Hp as [Hn Hz Hb Hf Ho].
  assert (omap owned (es ++ [e]) = omap owned es ++ [e_blk e]) as E.
  { rewrite omap_app. simpl. by rewrite (owned_data _ _ Hm). }
  assert (e_blk e ∉ omap owned es) as Hni by (intros Hi; by apply Hfresh, (owned_in bm es)).
  split; rewrite ?E.
  - apply NoDup_app. split; [done|]. split; [|apply NoDup_singleton].
    intros x Hx ->%list_elem_of_singleton. done.
  - intros [?|?%list_elem_of_singleton]%elem_of_app; congruence.
  - intros e' bs' Hin Hm'. apply elem_of_app in Hin as [Hin|Hin].
    + rewrite lookup_insert_ne; [by apply Hb|]. intros E'. apply Hni. rewrite E'.
      by eapply elem_of_owned, owned_data.
    + apply list_elem_of_singleton in Hin as ->. rewrite lookup_insert_eq. congruence.
  - intros a Ha. apply not_elem_of_app in Ha as [Ha Ha']. rewrite lookup_insert_ne; [by apply Hf|].
    intros <-. by apply Ha', list_elem_of_singleton.
  - intros a [Ha|Ha]%elem_of_app; [by apply Ho|]. apply list_elem_of_singleton in Ha as ->.
    rewrite <-Hf by done. by apply not_elem_of_dom.
Qed.

(** Freeing the payload of an element that leaves. *)
Definition drop_payload (e : ent) bm : gmap Z (list Z) :=
  match owned e with Some d => delete d bm | None => bm end.

Lemma payloads_remove bm es1 e es2 : payloads F bm (es1 ++ e :: es2) →
  payloads F (drop_payload e bm) (es1 ++ es2).
Proof.
  intros [Hn Hz Hb Hf Ho]. unfold drop_payload.
  assert (omap owned (es1 ++ e :: es2) ≡ₚ omap owned (e :: es1 ++ es2)) as E
    by (by rewrite <-Permutation_middle).
  assert (∀ x, x ∈ es1 ++ es2 → x ∈ es1 ++ e :: es2) as Hsub by (intros x; rewrite !elem_of_app, elem_of_cons; tauto).
  rewrite E in Hn, Hz. setoid_rewrite E in Hf. setoid_rewrite E in Ho. cbn [omap list_omap] in *.
  destruct (owned e) as [d|] eqn:Eo; [|by split; eauto].
  apply NoDup_cons in Hn as [Hd Hn]. split; [done|set_solver| | |].
  - intros e' bs He Hm. rewrite lookup_delete_ne; [by apply Hb; [apply Hsub|]|].
    intros ->. apply Hd. by eapply elem_of_owned, owned_data.
  - intros a Ha. destruct (decide (a = d)) as [->|Hne].
    + rewrite lookup_delete_eq. symmetry. apply Ho, elem_of_cons. by left.
    + rewrite lookup_delete_ne by done. apply Hf. intros [?|?]%elem_of_cons; [done|by apply Ha].
  - intros a Ha. apply Ho, elem_of_cons. by right.
Qed.
End Payloads.
