(* ===== verification/DevMsgSpec.v ===== *)
(** * The message queues are bounded deques

    The bodies of [DevMsg] on the heap of [DevMsgList], the operations of the
    module on the world, and their abstract counterpart: a list of messages.
    [F] is the part of the heap that belongs to others. *)
From S2P Require Import Prelude DevTypes DevMutex DevMsg DevMsgList.
From stdpp Require Import strings.
#[local] Open Scope Z_scope.

Record rep (F mem : memory) (n : Message) (es : list ent) : Prop := {
  rep_count : message_count n = Z.of_nat (length es);
  rep_first : first_messages n = from_option e_node NULL (head es);
  rep_last : last_message n = from_option e_node NULL (last es);
  rep_chain : chain (nodes F) (nodes mem) es;
  rep_payloads : payloads (blocks F) (blocks mem) es;
  rep_msgs : Forall (λ e, 0 < msg_size (e_msg e) ∧
                          is_index (e_msg e) = has (type n) MSG_TYPE_INDEX) es;
}.

(** [n'] is the queue [n] after list operations. *)
Definition relinked (n n' : Message) : Prop := ∃ c f l, n' = set_list n c f l.

Lemma relinked_refl n : relinked n n.
Proof. exists (message_count n), (first_messages n), (last_message n). by destruct n. Qed.

Lemma node_Some mem a nd : nodes mem !! a = Some nd → node mem a = Ret nd.
Proof. unfold node. by intros ->. Qed.

Lemma set_next_Some mem a nd v : nodes mem !! a = Some nd → set_next mem a v =
  Ret (set_node mem a (mkNode (nd_size nd) (nd_data nd) (writeTimestamp nd) v (previous nd))).
Proof. intros H. unfold set_next. by rewrite (node_Some _ _ _ H). Qed.

Lemma set_previous_Some mem a nd v : nodes mem !! a = Some nd → set_previous mem a v =
  Ret (set_node mem a (mkNode (nd_size nd) (nd_data nd) (writeTimestamp nd) (next nd) v)).
Proof. intros H. unfold set_previous. by rewrite (node_Some _ _ _ H). Qed.

Lemma free_node_Some mem a nd : nodes mem !! a = Some nd →
  free_node mem a = Ret (mkMemory (delete a (nodes mem)) (blocks mem)).
Proof. intros H. unfold free_node. by rewrite (node_Some _ _ _ H). Qed.

(** Freeing the payload of an element of the queue. *)
Lemma free_payload F mem es e bs : payloads F (blocks mem) es → e ∈ es → e_msg e = M_data bs →
  free_block mem (e_blk e) = Ret (mkMemory (nodes mem) (drop_payload e (blocks mem))).
Proof.
  intros [_ Hz Hb _ _] He Hm. unfold free_block, drop_payload. rewrite (owned_data _ _ Hm).
  destruct (Z.eqb_spec (e_blk e) NULL) as [E|_].
  - exfalso. apply Hz. rewrite <-E. by eapply elem_of_owned, owned_data.
  - by rewrite (Hb _ _ He Hm).
Qed.

(** What happens to the payload of an element that is dropped. *)
Lemma drop_index e mem ty : is_index (e_msg e) = true → has ty MSG_TYPE_INDEX = true →
  (if has ty MSG_TYPE_INDEX then Ret mem else free_block mem (e_data e))
  = Ret (mkMemory (nodes mem) (drop_payload e (blocks mem))).
Proof.
  intros Hi ->. unfold drop_payload, owned. destruct (e_msg e); [|done]. by destruct mem.
Qed.

Lemma drop_element F mem es e ty : payloads F (blocks mem) es → e ∈ es →
  is_index (e_msg e) = has ty MSG_TYPE_INDEX →
  (if has ty MSG_TYPE_INDEX then Ret mem else free_block mem (e_data e))
  = Ret (mkMemory (nodes mem) (drop_payload e (blocks mem))).
Proof.
  intros Hp He Hi. destruct (e_msg e) as [a sz|bs] eqn:Em; simpl in Hi; rewrite <-Hi.
  - unfold drop_payload, owned. rewrite Em. by destruct mem.
  - unfold e_data. rewrite Em. by eapply free_payload.
Qed.

Lemma first_null F mem n es : rep F mem n es → (first_messages n =? NULL) = bool_decide (es = []).
Proof.
  intros [_ Hf _ Hc _ _]. rewrite Hf. destruct es as [|e es]; [done|].
  simpl. apply Z.eqb_neq. by apply (chain_neq_null _ _ _ 0 e Hc).
Qed.

(** ** Linking a fresh node *)

Lemma head_snoc {A} (l : list A) x y : head ((l ++ [x]) ++ [y]) = head (l ++ [x]).
Proof. by destruct l. Qed.

Lemma link_last_spec F mem nm n es e nd :
  message_count n = Z.of_nat (length es) → first_messages n = from_option e_node NULL (head es) →
  last_message n = from_option e_node NULL (last es) → chain F nm es →
  nodes mem = <[e_node e := nd]> nm → e_node e ∉ dom nm → e_node e ≠ NULL →
  nd_size nd = msg_size (e_msg e) → nd_data nd = e_data e →
  ∃ mem', link_last (e_node e) n mem = Ret (set_list n (Z.of_nat (length (es ++ [e])))
             (from_option e_node NULL (head (es ++ [e]))) (e_node e), mem') ∧
    blocks mem' = blocks mem ∧ chain F (nodes mem') (es ++ [e]).
Proof.
  intros Hcnt Hf Hl Hc Hm Hfresh Hnull Hs Hd. unfold link_last. rewrite Hf, Hl.
  assert (nodes mem !! e_node e = Some nd) as Hnew by (by rewrite Hm, lookup_insert_eq).
  assert (message_count n + 1 = Z.of_nat (length (es ++ [e]))) as Hlen
    by (rewrite length_app; simpl; lia).
  rewrite Hlen. destruct es as [|l es _] using rev_ind.
  - cbn [head from_option app]. change (NULL =? NULL) with true. cbv iota.
    rewrite (set_next_Some _ _ _ _ Hnew). cbn [mbind outcome_bind].
    erewrite set_previous_Some by (cbn [nodes set_node]; apply lookup_insert_eq). cbn [mbind outcome_bind].
    eexists. split; [done|]. split; [done|]. cbn [nodes set_node].
    change [e] with ([] ++ [e]). eapply (chain_push F nm [] e _ Hc Hfresh Hnull).
    5: apply lookup_insert_eq.
    all: try done.
    intros a Ha _. by rewrite !lookup_insert_ne, Hm, lookup_insert_ne by done.
  - assert (last (es ++ [l]) = Some l) as Hla by apply last_snoc.
    assert ((es ++ [l]) !! length es = Some l) as Hil by (by apply list_lookup_middle).
    assert (e_node l ≠ e_node e) as Hne
      by (intros E; apply Hfresh; rewrite <-E; by apply (chain_dom _ _ _ _ _ Hc Hil)).
    destruct (ch_node _ _ _ Hc _ _ Hil) as (ndl & Hndl & _).
    rewrite head_snoc, Hla. cbn [from_option].
    destruct (Z.eqb_spec (from_option e_node NULL (head (es ++ [l]))) NULL) as [E|_].
    { exfalso. destruct es as [|e0 es].
      - by apply (chain_neq_null _ _ _ 0 l Hc).
      - by apply (chain_neq_null _ _ _ 0 e0 Hc). }
    rewrite (set_previous_Some _ _ _ _ Hnew). cbn [mbind outcome_bind].
    erewrite set_next_Some by (cbn [nodes set_node]; apply lookup_insert_eq). cbn [mbind outcome_bind].
    erewrite (set_next_Some _ (e_node l))
      by (cbn [nodes set_node]; rewrite !lookup_insert_ne, Hm, lookup_insert_ne by done; exact Hndl).
    cbn [mbind outcome_bind]. eexists. split; [done|]. split; [done|]. cbn [nodes set_node].
    eapply (chain_push F nm _ e _ Hc Hfresh Hnull).
    5: (rewrite lookup_insert_ne by done; apply lookup_insert_eq).
    all: try done; rewrite Hla.
    + intros l' [= <-]. done.
    + intros a Ha Hla'. simpl in Hla'. rewrite lookup_insert_ne by congruence.
      by rewrite !lookup_insert_ne, Hm, lookup_insert_ne by done.
    + intros l' ndl' [= <-] Hn'. simplify_eq. by rewrite lookup_insert_eq.
Qed.

(** ** Dropping the oldest message *)

Lemma node_ok_tail e es i e' nd : node_ok (e :: es) (S i) e' nd → node_ok es i e' nd.
Proof.
  intros [H1 H2 H3 H4]. split; [done|done|exact H3|]. intros j e2 -> Hj. by apply (H4 (S j)).
Qed.

Lemma abandon_first_spec F mem n e1 e2 es : rep F mem n (e1 :: e2 :: es) →
  limit_max n < message_count n → has (type n) MSG_TYPE_ABANDON_FIRST = true →
  ∃ n' mem', abandon_first n mem = Ret (Some (n', mem')) ∧ rep F mem' n' (e2 :: es) ∧ relinked n n'.
Proof.
  intros [Hcnt Hf Hl Hc Hp Hm] Hlim Haf. unfold abandon_first. rewrite Haf.
  destruct (Z.ltb_spec (limit_max n) (message_count n)); [|lia]. cbn [andb].
  destruct (ch_node _ _ _ Hc 0 e1 eq_refl) as (nd1 & Hn1 & Hok1).
  destruct (ch_node _ _ _ Hc 1 e2 eq_refl) as (nd2 & Hn2 & Hok2).
  assert (e_node e1 ≠ e_node e2) as Hne
    by (intros E; by pose proof (chain_inj _ _ _ 0 1 e1 e2 Hc eq_refl eq_refl E)).
  rewrite Hf. cbn [head from_option]. rewrite (node_Some _ _ _ Hn1). cbn [mbind outcome_bind].
  rewrite (nok_next _ _ _ _ Hok1 e2 eq_refl), (set_previous_Some _ _ _ _ Hn2). cbn [mbind outcome_bind].
  rewrite (nok_data _ _ _ _ Hok1).
  erewrite (drop_element (blocks F)); [|exact Hp|by left|by apply Forall_cons in Hm as [[_ ?] _]].
  cbn [mbind outcome_bind].
  erewrite free_node_Some by (cbn [nodes set_node]; rewrite lookup_insert_ne by done; exact Hn1).
  cbn [mbind outcome_bind]. do 2 eexists. split; [done|]. split; [|by do 3 eexists].
  split; cbn [message_count first_messages last_message set_list nodes blocks set_node type].
  - rewrite Hcnt. simpl. lia.
  - done.
  - rewrite Hl. by destruct es.
  - rewrite delete_insert_ne by congruence. apply (chain_set _ _ _ 0 e2); [by apply chain_pop_front|done|].
    destruct (node_ok_tail _ _ _ _ _ Hok2) as [H1 H2 H3 H4]. split; [done|done|done|by intros].
  - exact (payloads_remove _ _ [] e1 (e2 :: es) Hp).
  - by apply Forall_cons in Hm as [_ Hm].
Qed.

(** ** Writing *)

(** The message that [Write(id, pl, size)] sends to a queue of type [ty]. *)
Definition msg_of (ty : Z) (pl : payload) (size : Z) : msg :=
  if has ty MSG_TYPE_INDEX then M_index (pl_addr pl) size
  else M_data (take (Z.to_nat size) (pl_bytes pl)).

(** The caller's object is as long as it says. *)
Definition payload_ok (pl : payload) (size : Z) : Prop := size ≤ Z.of_nat (length (pl_bytes pl)).

(** A queue that abandons its last message holds one message more than its
    limit: the test on entry is [>], not [>=]. *)
Definition capacity (ty limit : Z) : Z :=
  if has ty MSG_TYPE_ABANDON_FIRST then limit else limit + 1.

(** [Write] on a list of messages: its result and the list after it. *)
Inductive deque_write (oom : Prop) (ty limit : Z) (m : msg) (l : list msg) : Z → list msg → Prop :=
  | write_no_memory : oom → deque_write oom ty limit m l 0 l
  | write_stored : Z.of_nat (length l) < capacity ty limit →
      deque_write oom ty limit m l (msg_size m) (l ++ [m])
  | write_refused : has ty MSG_TYPE_ABANDON_FIRST = false → Z.of_nat (length l) = limit + 1 →
      deque_write oom ty limit m l 0 l
  | write_overrun : has ty MSG_TYPE_ABANDON_FIRST = true → Z.of_nat (length l) = limit →
      deque_write oom ty limit m l 0 (tail (l ++ [m])).

Lemma has_abandon_last ty : has ty MSG_TYPE_ABANDON_LAST = true.
Proof. unfold has, MSG_TYPE_ABANDON_LAST. rewrite Z.shiftl_0_l. by rewrite Z.land_0_r. Qed.

Lemma msg_of_size ty pl size : 0 < size → payload_ok pl size → msg_size (msg_of ty pl size) = size.
Proof.
  unfold payload_ok, msg_of. intros Hs Hp. destruct (has ty MSG_TYPE_INDEX); simpl; [done|].
  rewrite length_take. lia.
Qed.

Section Write.
Context (malloc : gset Z → Z → option Z) (sizeof_Message_Node GetTimestampMs : Z).
(** [malloc] returns a block that is not in use. *)
Context (malloc_fresh : ∀ used k a, malloc used k = Some a → (a ∉ used) ∧ a ≠ NULL).

Definition oom : Prop := ∃ used k, malloc used k = None.

Abbreviation msg_Write := (msg_Write malloc sizeof_Message_Node GetTimestampMs).
Abbreviation store_data := (store_data malloc).

(** The copy of the data, for the node that was allocated at [a]. *)
Lemma store_data_spec F mem n es a pl size : rep F mem n es → 0 < size → payload_ok pl size →
  nodes mem !! a = None → ∀ nd,
  (∃ d mem', store_data pl size n (set_node mem a nd) = Ret (Some d, mem') ∧
     nodes mem' = <[a := nd]> (nodes mem) ∧
     let e := mkEnt a d (msg_of (type n) pl size) in
     e_data e = d ∧ payloads (blocks F) (blocks mem') (es ++ [e])) ∨
  (oom ∧ store_data pl size n (set_node mem a nd) = Ret (None, set_node mem a nd)).
Proof.
  intros [_ _ _ _ Hp _] Hs Hok Ha nd. unfold DevMsg.store_data, msg_of.
  destruct (has (type n) MSG_TYPE_INDEX).
  - left. do 2 eexists. split; [done|]. split; [done|]. split; [done|]. by apply payloads_push_index.
  - destruct (malloc _ size) as [d|] eqn:Em; [|right; split; [by do 2 eexists|done]].
    destruct (malloc_fresh _ _ _ Em) as [Hd Hnull]. unfold payload_ok in Hok.
    destruct (Z.ltb_spec (Z.of_nat (length (pl_bytes pl))) size); [lia|].
    left. do 2 eexists. split; [done|]. split; [done|]. split; [done|].
    apply (payloads_push_data _ _ _ (mkEnt a d (M_data (take (Z.to_nat size) (pl_bytes pl)))));
      [done|done| |done]. simpl. intros Hin. apply Hd. unfold used. set_solver.
Qed.

(** After the node is linked: the oldest message goes when the queue holds more
    than its limit and is of that type. *)
Lemma settle_spec F mem2 n2 es e pl size : rep F mem2 n2 (es ++ [e]) → e_msg e = msg_of (type n2) pl size →
  1 ≤ limit_max n2 → Z.of_nat (length es) ≤ limit_max n2 →
  Z.of_nat (length es) ≤ capacity (type n2) (limit_max n2) → 0 < size → payload_ok pl size →
  ∃ r n' mem' es',
    (dropped ← abandon_first n2 mem2;
     match dropped with Some (n, mem) => Ret (0, n, mem) | None => Ret (size, n2, mem2) end) = Ret (r, n', mem') ∧
    rep F mem' n' es' ∧ relinked n2 n' ∧ Z.of_nat (length es') ≤ capacity (type n2) (limit_max n2) ∧
    deque_write oom (type n2) (limit_max n2) (msg_of (type n2) pl size) (e_msg <$> es) r (e_msg <$> es').
Proof.
  intros Hrep2 He Hlim Hroom Hcap Hs Hok. rewrite <-He.
  assert (message_count n2 = Z.of_nat (length es) + 1) as Hcnt2
    by (rewrite (rep_count _ _ _ _ Hrep2), length_app; simpl; lia).
  destruct (decide (limit_max n2 = Z.of_nat (length es) ∧ has (type n2) MSG_TYPE_ABANDON_FIRST = true))
    as [[Hlen Haf]|Hno].
  - destruct (es ++ [e]) as [|x [|y l]] eqn:Ees;
      [by destruct es|by apply (f_equal length) in Ees; rewrite length_app in Ees; simpl in Ees; lia|].
    destruct (abandon_first_spec _ _ _ _ _ _ Hrep2) as (n3 & mem3 & -> & Hrep3 & Hre); [lia|done|].
    cbn [mbind outcome_bind].
    do 4 eexists. split; [done|]. split; [exact Hrep3|]. split; [exact Hre|].
    pose proof (f_equal length Ees) as Elen. rewrite length_app in Elen. simpl in Elen.
    split; [unfold capacity; rewrite Haf; simpl; lia|].
    replace (e_msg <$> y :: l) with (tail ((e_msg <$> es) ++ [e_msg e]))
      by (change [e_msg e] with (e_msg <$> [e]); by rewrite <-fmap_app, Ees).
    apply write_overrun; [done|]. rewrite length_fmap. lia.
  - assert (abandon_first n2 mem2 = Ret None) as ->.
    { unfold abandon_first. destruct (Z.ltb_spec (limit_max n2) (message_count n2)) as [Hlt|]; [|done].
      destruct (has (type n2) MSG_TYPE_ABANDON_FIRST) eqn:Haf; [|done].
      exfalso. apply Hno. split; [lia|done]. }
    cbn [mbind outcome_bind]. exists size, n2, mem2, (es ++ [e]). split; [done|]. split; [done|].
    split; [apply relinked_refl|].
    assert (Z.of_nat (length es) < capacity (type n2) (limit_max n2)) as Hlt.
    { unfold capacity in *. destruct (has (type n2) MSG_TYPE_ABANDON_FIRST) eqn:Haf; [|lia].
      destruct (decide (limit_max n2 = Z.of_nat (length es))); [|lia]. exfalso. by apply Hno. }
    split; [rewrite length_app; simpl; lia|]. rewrite fmap_app.
    rewrite <-(msg_of_size (type n2) pl size Hs Hok), <-He at 1. apply write_stored. by rewrite length_fmap.
Qed.

Lemma msg_Write_spec F mem n es pl size : rep F mem n es → 1 ≤ limit_max n →
  Z.of_nat (length es) ≤ capacity (type n) (limit_max n) → 0 < size → payload_ok pl size →
  ∃ r n' mem' es', msg_Write pl size n mem = Ret (r, n', mem') ∧ rep F mem' n' es' ∧ relinked n n' ∧
    Z.of_nat (length es') ≤ capacity (type n) (limit_max n) ∧
    deque_write oom (type n) (limit_max n) (msg_of (type n) pl size) (e_msg <$> es) r (e_msg <$> es').
Proof.
  intros Hrep Hlim Hcap Hs Hok. pose proof Hrep as [Hcnt Hf Hl Hc Hp Hm].
  unfold DevMsg.msg_Write. destruct (Z.leb_spec size 0); [lia|]. rewrite has_abandon_last, andb_true_r.
  destruct (Z.ltb_spec (limit_max n) (message_count n)) as [Hfull|Hroom].
  { exists 0, n, mem, es. split; [done|]. split; [done|]. split; [apply relinked_refl|]. split; [done|].
    unfold capacity in Hcap. destruct (has (type n) MSG_TYPE_ABANDON_FIRST) eqn:Haf; [lia|].
    apply write_refused; [done|]. rewrite length_fmap. lia. }
  destruct (malloc (used mem) sizeof_Message_Node) as [a|] eqn:Ea.
  2: { exists 0, n, mem, es. split; [done|]. split; [done|]. split; [apply relinked_refl|]. split; [done|].
       apply write_no_memory. by do 2 eexists. }
  destruct (malloc_fresh _ _ _ Ea) as [Hfresh Hnull]. apply not_elem_of_union in Hfresh as [Hfresh _].
  pose proof (proj1 (not_elem_of_dom _ _) Hfresh) as Hnone.
  destruct (store_data_spec _ _ _ _ a pl size Hrep Hs Hok Hnone
    (mkNode size NULL GetTimestampMs NULL NULL)) as [(d & mem1 & -> & Hnm & Hd & Hp1)|[Hoom ->]];
    cbn [mbind outcome_bind].
  2: { erewrite free_node_Some by (cbn [nodes set_node]; apply lookup_insert_eq). cbn [mbind outcome_bind].
       exists 0, n, mem, es. cbn [nodes blocks set_node]. rewrite delete_insert_id by done.
       split; [by destruct mem|]. split; [done|]. split; [apply relinked_refl|]. split; [done|].
       by apply write_no_memory. }
  set (e := mkEnt a d (msg_of (type n) pl size)) in *.
  destruct (link_last_spec (nodes F) (set_node mem1 a (mkNode size d GetTimestampMs NULL NULL)) (nodes mem)
    n es e (mkNode size d GetTimestampMs NULL NULL)) as (mem2 & Hlink & Hb2 & Hc2); try done.
  { cbn [nodes set_node]. by rewrite Hnm, insert_insert_eq. }
  { symmetry. by apply msg_of_size. }
  change (e_node e) with a in Hlink. rewrite Hlink. cbn [mbind outcome_bind].
  set (n2 := set_list _ _ _ _) in *.
  assert (rep F mem2 n2 (es ++ [e])) as Hrep2.
  { split; [done|done|by rewrite last_snoc|done|by rewrite Hb2|].
    apply Forall_app. split; [done|]. apply Forall_singleton.
    split; [by unfold e; cbn [e_msg]; rewrite msg_of_size|]. unfold e. cbn [e_msg]. change (type n2) with (type n). unfold msg_of. by destruct (has (type n) MSG_TYPE_INDEX). }
  destruct (settle_spec F mem2 n2 es e pl size Hrep2) as (r & n' & mem' & es' & Hset & Hrep' & Hre & Hl' & Hdw);
    [done|done|rewrite Hcnt in Hroom; done|done|done|done|].
  rewrite Hset. do 4 eexists. split; [done|]. split; [exact Hrep'|]. split; [|by split].
  destruct Hre as (c & f & l & ->). by do 3 eexists.
Qed.
End Write.

(** ** Reading *)

(** The message whose turn it is, and those that stay. *)
Definition turn {A} (ty : Z) (l : list A) : option (A * list A) :=
  if has ty MSG_TYPE_STACK then
    match last l with Some x => Some (x, take (pred (length l)) l) | None => None end
  else match l with x :: l' => Some (x, l') | [] => None end.

Lemma turn_split {A} ty (l l' : list A) x : turn ty l = Some (x, l') →
  (has ty MSG_TYPE_STACK = true ∧ l = l' ++ [x]) ∨ (has ty MSG_TYPE_STACK = false ∧ l = x :: l').
Proof.
  unfold turn. destruct (has ty MSG_TYPE_STACK).
  - destruct (last l) as [y|] eqn:Hl; [|done]. intros [= -> <-]. left. split; [done|].
    apply last_Some in Hl as [l0 ->]. rewrite length_app, Nat.add_1_r. simpl. by rewrite take_app_length.
  - destruct l as [|y l0]; [done|]. intros [= -> ->]. by right.
Qed.

Lemma turn_snoc {A} ty (l : list A) x : has ty MSG_TYPE_STACK = true → turn ty (l ++ [x]) = Some (x, l).
Proof.
  intros Hs. unfold turn. rewrite Hs, last_snoc, length_app, Nat.add_1_r. simpl. by rewrite take_app_length.
Qed.

Lemma turn_fmap {A B} (f : A → B) ty l : 
  turn ty (fmap (M:=list) f l) =
    match turn ty l with Some (x, l') => Some (f x, fmap (M:=list) f l') | None => None end.
Proof.
  unfold turn. destruct (has ty MSG_TYPE_STACK); [|by destruct l].
  rewrite fmap_last, length_fmap, <-fmap_take. by destruct (last l).
Qed.

Lemma turn_None {A} ty (l : list A) : turn ty l = None ↔ l = [].
Proof.
  unfold turn. destruct (has ty MSG_TYPE_STACK); [|by destruct l].
  destruct (last l) eqn:Hl; [|by apply last_None in Hl]. split; [done|]. by intros ->.
Qed.

(** The out parameter has room for a message. *)
Definition room_for (m : msg) (room : Z) : Prop :=
  match m with M_index _ _ => 8 ≤ room | M_data bs => Z.of_nat (length bs) ≤ room end.

Lemma unlink_spec F mem n es e es' : rep F mem n es → turn (type n) es = Some (e, es') →
  ∃ nd, nodes mem !! e_node e = Some nd ∧ nd_size nd = msg_size (e_msg e) ∧ nd_data nd = e_data e ∧
    unlink n mem = Ret (Some (e_node e, set_list n (message_count n)
      (from_option e_node NULL (head es')) (from_option e_node NULL (last es')))) ∧
    chain (nodes F) (delete (e_node e) (nodes mem)) es' ∧
    payloads (blocks F) (drop_payload e (blocks mem)) es' ∧ e ∈ es.
Proof.
  intros [Hcnt Hf Hl Hc Hp Hm] Ht. unfold unlink, set_list.
  destruct (turn_split _ _ _ _ Ht) as [[-> ->]|[-> ->]].
  - assert ((es' ++ [e]) !! length es' = Some e) as Hi by (by apply list_lookup_middle).
    destruct (ch_node _ _ _ Hc _ _ Hi) as (nd & Hnd & [H1 H2 H3 H4]). exists nd.
    rewrite last_snoc in Hl. cbn [from_option] in Hl. rewrite Hl, (node_Some _ _ _ Hnd). cbn [mbind outcome_bind].
    assert (0 < msg_size (e_msg e)) as Hpos by (apply Forall_app in Hm as [_ Hm]; by apply Forall_singleton in Hm as [? _]).
    destruct (Z.eqb_spec (nd_size nd) 0); [lia|]. split; [done|]. split; [done|]. split; [done|].
    split; [|split; [by apply chain_pop_back|split; [|set_solver]]].
    + rewrite Hcnt, length_app. simpl. do 3 f_equal. destruct es' as [|l es' _] using rev_ind.
      { by cbn. }
      rewrite length_app in *. simpl in *. destruct (Z.eqb_spec (Z.of_nat (length es' + 1 + 1)) 1); [lia|].
      rewrite Hf, head_snoc, last_snoc. simpl.
      erewrite (H4 (length es') l); [done|lia|]. rewrite <-app_assoc. by apply list_lookup_middle.
    + pose proof (payloads_remove _ _ es' e [] Hp) as Hr. by rewrite app_nil_r in Hr.
  - destruct (ch_node _ _ _ Hc 0%nat e eq_refl) as (nd & Hnd & [H1 H2 H3 H4]). exists nd.
    cbn [head from_option] in Hf. rewrite Hf, (node_Some _ _ _ Hnd). cbn [mbind outcome_bind].
    assert (0 < msg_size (e_msg e)) as Hpos by (by apply Forall_cons in Hm as [[? _] _]).
    destruct (Z.eqb_spec (nd_size nd) 0); [lia|]. split; [done|]. split; [done|]. split; [done|].
    split; [|split; [by apply chain_pop_front|split; [by apply (payloads_remove _ _ [] e es')|by left]]].
    rewrite Hcnt. do 3 f_equal. destruct es' as [|e2 es']; [done|].
    destruct (Z.eqb_spec (Z.of_nat (length (e :: e2 :: es'))) 1); [simpl in *; lia|].
    rewrite (H3 e2 eq_refl), Hl. by destruct es'.
Qed.

Lemma msg_Read_spec F mem n es room size : rep F mem n es →
  (∀ m l, turn (type n) (e_msg <$> es) = Some (m, l) → room_for m room) →
  match turn (type n) (e_msg <$> es) with
  | None => msg_Read (Some room) size n mem = Ret (0, R_none, n, mem)
  | Some (m, l) => ∃ n' mem' es', msg_Read (Some room) size n mem = Ret (msg_size m, msg_received m, n', mem') ∧
      rep F mem' n' es' ∧ relinked n n' ∧ e_msg <$> es' = l
  end.
Proof.
  intros Hrep Hroom. rewrite turn_fmap in *. unfold msg_Read. rewrite (first_null _ _ _ _ Hrep).
  destruct (turn (type n) es) as [[e es']|] eqn:Ht.
  2: { apply turn_None in Ht as ->. done. }
  destruct (unlink_spec _ _ _ _ _ _ Hrep Ht) as (nd & Hnd & Hs & Hd & Hu & Hc' & Hp' & Hin).
  pose proof Hrep as [Hcnt Hf Hl Hc Hp Hm].
  rewrite bool_decide_eq_false_2 by (by intros ->; apply elem_of_nil in Hin).
  assert (length es = S (length es')) as Hlen.
  { destruct (turn_split _ _ _ _ Ht) as [[_ ->]|[_ ->]]; [rewrite length_app; simpl; lia|done]. }
  destruct (Z.eqb_spec (message_count n) 0); [lia|].
  rewrite Hu. cbn [mbind outcome_bind]. rewrite (node_Some _ _ _ Hnd). cbn [mbind outcome_bind].
  cbn [type set_list message_count first_messages last_message self].
  pose proof (proj1 (Forall_forall _ _) Hm e Hin) as [Hpos Hi].
  specialize (Hroom _ _ eq_refl).
  assert (∀ n' mem', n' = set_list n (message_count n - 1) (from_option e_node NULL (head es'))
             (from_option e_node NULL (last es')) → nodes mem' = delete (e_node e) (nodes mem) →
             blocks mem' = drop_payload e (blocks mem) → rep F mem' n' es') as Hdone.
  { intros n' mem' -> En Eb. split; rewrite ?En, ?Eb; [|done|done|done|done|].
    - cbn [message_count set_list]. lia.
    - cbn [type set_list]. destruct (turn_split _ _ _ _ Ht) as [[_ ->]|[_ ->]].
      + by apply Forall_app in Hm as [Hm _].
      + by apply Forall_cons in Hm as [_ Hm]. }
  destruct (e_msg e) as [a sz|bs] eqn:Em; simpl in Hi; rewrite <-Hi.
  - simpl in Hroom. destruct (Z.ltb_spec room 8); [lia|]. rewrite (free_node_Some _ _ _ Hnd). cbn [mbind outcome_bind].
    unfold e_data in Hd. rewrite Em in Hd. rewrite Hs, Hd.
    do 3 eexists. split; [done|]. split; [|split; [by do 3 eexists|done]].
    apply Hdone; [done|done|]. unfold drop_payload, owned. by rewrite Em.
  - simpl in Hroom, Hs. unfold e_data in Hd. rewrite Em in Hd. rewrite Hd, Hs.
    rewrite (pl_block _ _ _ Hp e bs Hin Em). cbn [or_ub mbind outcome_bind].
    destruct (Z.ltb_spec room (Z.of_nat (length bs))), (Z.ltb_spec (Z.of_nat (length bs)) (Z.of_nat (length bs)));
      try lia. cbn [orb].
    rewrite (free_payload _ _ _ _ _ Hp Hin Em). cbn [mbind outcome_bind].
    erewrite free_node_Some by exact Hnd. cbn [mbind outcome_bind nodes blocks].
    rewrite Nat2Z.id, firstn_all. do 3 eexists. split; [done|]. split; [|split; [by do 3 eexists|done]].
    by apply Hdone.
Qed.

Lemma msg_Size_spec F mem n es : rep F mem n es → msg_Size n mem =
  Ret (match turn (type n) (e_msg <$> es) with Some (m, _) => msg_size m | None => 0 end, n, mem).
Proof.
  intros Hrep. rewrite turn_fmap. unfold msg_Size. rewrite (first_null _ _ _ _ Hrep).
  pose proof Hrep as [Hcnt Hf Hl Hc Hp Hm].
  destruct (turn (type n) es) as [[e es']|] eqn:Ht.
  2: { apply turn_None in Ht as ->. done. }
  destruct (unlink_spec _ _ _ _ _ _ Hrep Ht) as (nd & Hnd & Hs & _ & _ & _ & _ & Hin).
  rewrite bool_decide_eq_false_2 by (by intros ->; apply elem_of_nil in Hin).
  assert (length es = S (length es')) as Hlen.
  { destruct (turn_split _ _ _ _ Ht) as [[_ ->]|[_ ->]]; [rewrite length_app; simpl; lia|done]. }
  destruct (Z.eqb_spec (message_count n) 0); [lia|]. rewrite Hf, Hl.
  destruct (turn_split _ _ _ _ Ht) as [[-> E]|[-> E]]; rewrite E; rewrite ?last_snoc;
    cbn [head from_option]; by rewrite (node_Some _ _ _ Hnd), <-Hs.
Qed.

(** ** Cleaning *)

(** A node that is not in the chain may change hands. *)
Lemma chain_leak F nm es a nd : chain F nm es → a ∉ e_node <$> es →
  chain (<[a := nd]> F) (<[a := nd]> nm) es.
Proof.
  intros [Hnd Hn Hns Hf Ho] Ha. split; [done|done| | |].
  - intros i e Hi. destruct (Hns i e Hi) as (nd' & Hl & Hok). exists nd'. split; [|done].
    rewrite lookup_insert_ne; [done|]. intros ->. by eapply Ha, elem_of_nodes.
  - intros b Hb. destruct (decide (a = b)) as [->|]; [by rewrite !lookup_insert_eq|].
    rewrite !lookup_insert_ne by done. by apply Hf.
  - intros b Hb. rewrite lookup_insert_ne by congruence. by apply Ho.
Qed.

Lemma empty_nodes_spec Fb ty es : ∀ F mem a,
  chain F (nodes mem) es → payloads Fb (blocks mem) es →
  Forall (λ e, is_index (e_msg e) = has ty MSG_TYPE_INDEX) es →
  (∀ e, head es = Some e → a = e_node e) →
  ∃ mem', empty_nodes (length es) a ty mem = Ret mem' ∧
    dom (nodes mem') = dom (nodes mem) ∧ blocks mem' = Fb.
Proof.
  induction es as [|e es IH]; intros F mem a Hc Hp Hm Ha.
  { exists mem. split; [done|]. split; [done|]. by apply payloads_nil_inv. }
  rewrite (Ha e eq_refl). destruct (ch_node _ _ _ Hc 0 e eq_refl) as (nd & Hnd & Hok).
  apply Forall_cons in Hm as [Hi Hm].
  cbn [length empty_nodes]. rewrite (node_Some _ _ _ Hnd). cbn [mbind outcome_bind].
  rewrite (nok_data _ _ _ _ Hok). erewrite drop_element by (done || by left || exact Hp || exact Hi).
  cbn [mbind outcome_bind].
  destruct (IH (<[e_node e := mkNode 0 NULL (writeTimestamp nd) (next nd) (previous nd)]> F)
    (set_node (mkMemory (nodes mem) (drop_payload e (blocks mem))) (e_node e)
      (mkNode 0 NULL (writeTimestamp nd) (next nd) (previous nd))) (next nd)) as (mem' & -> & Hdom & Hb).
  - cbn [nodes set_node]. rewrite <-(insert_delete_eq (nodes mem)). apply chain_leak; [by apply chain_pop_front|].
    pose proof (ch_nodup _ _ _ Hc) as Hnodup. rewrite fmap_cons in Hnodup. by apply NoDup_cons in Hnodup as [? _].
  - exact (payloads_remove _ _ [] e es Hp).
  - done.
  - intros e' He'. apply (nok_next _ _ _ _ Hok). by destruct es.
  - exists mem'. split; [done|]. split; [|done]. rewrite Hdom. cbn [nodes set_node].
    rewrite dom_insert_L. apply elem_of_dom_2 in Hnd. set_solver.
Qed.

(** [Clean] frees the payloads and empties the queue, but frees no node. *)
Lemma msg_Clean_spec F mem n es : rep F mem n es →
  ∃ n' mem', msg_Clean n mem = Ret (RET_OK, n', mem') ∧ relinked n n' ∧
    rep (mkMemory (nodes mem') (blocks F)) mem' n' [] ∧ dom (nodes mem') = dom (nodes mem).
Proof.
  intros Hrep. unfold msg_Clean. rewrite (first_null _ _ _ _ Hrep).
  pose proof Hrep as [Hcnt Hf Hl Hc Hp Hm].
  assert (∃ mem', (if negb (bool_decide (es = [])) then
      empty_nodes (Z.to_nat (message_count n)) (first_messages n) (type n) mem else Ret mem) = Ret mem' ∧
    dom (nodes mem') = dom (nodes mem) ∧ blocks mem' = blocks F) as (mem' & -> & Hd & Hb).
  { destruct (decide (es = [])) as [->|Hne].
    - exists mem. split; [done|]. split; [done|]. by apply payloads_nil_inv.
    - rewrite bool_decide_eq_false_2 by done. cbn [negb]. rewrite Hcnt, Nat2Z.id.
      eapply empty_nodes_spec; [exact Hc|exact Hp| |].
      + eapply Forall_impl; [exact Hm|]. by intros e [_ ?].
      + intros e He. by rewrite Hf, He. }
  cbn [mbind outcome_bind]. do 2 eexists. split; [done|]. split; [by do 3 eexists|]. split; [|done].
  split; [done|done|done| | |by constructor]; cbn [nodes blocks].
  - apply chain_nil.
  - rewrite Hb. apply payloads_nil.
Qed.

(** ** The module behaves as a deque *)

Inductive msg_op :=
  | MWrite (pl : payload) (size : Z)
  | MRead (room size : Z)
  | MSize
  | MCount
  | MEmpty
  | MFull
  | MAvailable
  | MClean.

(** The operations on a list of messages; [Write] of nothing is refused. *)
Inductive deque_step (oom : Prop) (ty limit : Z) :
    msg_op → list msg → Z * received → list msg → Prop :=
  | deque_do_write pl size l r l' : 0 < size →
      deque_write oom ty limit (msg_of ty pl size) l r l' →
      deque_step oom ty limit (MWrite pl size) l (r, R_none) l'
  | deque_write_nothing pl size l : size ≤ 0 →
      deque_step oom ty limit (MWrite pl size) l (0, R_none) l
  | deque_read room size l m l' : turn ty l = Some (m, l') →
      deque_step oom ty limit (MRead room size) l (msg_size m, msg_received m) l'
  | deque_read_none room size :
      deque_step oom ty limit (MRead room size) [] (0, R_none) []
  | deque_size l : deque_step oom ty limit MSize l
      (match turn ty l with Some (m, _) => msg_size m | None => 0 end, R_none) l
  | deque_count l : deque_step oom ty limit MCount l (Z.of_nat (length l), R_none) l
  | deque_empty l :
      deque_step oom ty limit MEmpty l (if bool_decide (l = []) then TRUE else FALSE, R_none) l
  | deque_full l :
      deque_step oom ty limit MFull l (if limit <=? Z.of_nat (length l) then TRUE else FALSE, R_none) l
  | deque_available l :
      deque_step oom ty limit MAvailable l (limit - Z.of_nat (length l), R_none) l
  | deque_clean l : deque_step oom ty limit MClean l (RET_OK, R_none) [].

Inductive deque_trace (oom : Prop) (ty limit : Z) :
    list msg_op → list msg → list (Z * received) → list msg → Prop :=
  | deque_nil l : deque_trace oom ty limit [] l [] l
  | deque_cons op ops l r l' rs l'' : deque_step oom ty limit op l r l' →
      deque_trace oom ty limit ops l' rs l'' → deque_trace oom ty limit (op :: ops) l (r :: rs) l''.

(** The client keeps to messages of at most [B] bytes and reads into buffers of
    at least that size (and of a pointer's, for queues of addresses). *)
Definition client_ok (B : Z) (op : msg_op) : Prop :=
  match op with
  | MWrite pl size => payload_ok pl size ∧ size ≤ B
  | MRead room _ => 8 ≤ room ∧ B ≤ room
  | _ => True
  end.

#[export] Instance client_ok_dec B op : Decision (client_ok B op).
Proof. unfold client_ok, payload_ok. destruct op; apply _. Defined.

Section Refine.
Context `{MutexLaws M}.
Context (malloc : gset Z → Z → option Z) (sizeof_Message_Node GetTimestampMs offsetof_mutex_Id : Z).
Context (malloc_fresh : ∀ used k a, malloc used k = Some a → (a ∉ used) ∧ a ≠ NULL).

Abbreviation DevMsg_Write := (DevMsg_Write malloc sizeof_Message_Node GetTimestampMs offsetof_mutex_Id).
Abbreviation on := (λ f : Z → world M → outcome (Z * world M), λ id w,
  '(r, w) ← f id w; Ret (r, R_none, w)).

Definition run_op (id : Z) (op : msg_op) (w : world M) : outcome (Z * received * world M) :=
  match op with
  | MWrite pl size => on (λ id, DevMsg_Write id pl size) id w
  | MRead room size => DevMsg_Read offsetof_mutex_Id id (Some room) size w
  | MSize => on (DevMsg_Size offsetof_mutex_Id) id w
  | MCount => on DevMsg_Count id w
  | MEmpty => on DevMsg_Empty id w
  | MFull => on DevMsg_Full id w
  | MAvailable => on DevMsg_Available id w
  | MClean => on (DevMsg_Clean offsetof_mutex_Id) id w
  end.

Fixpoint run_ops (id : Z) (ops : list msg_op) (w : world M)
    : outcome (list (Z * received) * world M) :=
  match ops with
  | [] => Ret ([], w)
  | op :: ops' =>
      '(r, w) ← run_op id op w;
      '(rs, w) ← run_ops id ops' w;
      Ret (r :: rs, w)
  end.

(** Entry [id] holds the queue [n], whose mutex is free, and whose messages are
    [es]; [F] is the rest of the heap. *)
Record holds (id : Z) (n : Message) (F : memory) (w : world M) (es : list ent) : Prop := {
  h_init : init_f w = TRUE;
  h_id : 0 < id < 256;
  h_slot : m_message_p_list w !! Z.to_nat id = Some (Msg n);
  h_mutex : ∃ mid, vars w !! mutex_of offsetof_mutex_Id n = Some mid ∧ mx_free (mutexes w) mid;
  h_rep : rep F (heap w) n es;
  h_limit : 1 ≤ limit_max n;
  h_capacity : Z.of_nat (length es) ≤ capacity (type n) (limit_max n);
}.

Lemma on_message_in {A} id n F w es (err : A) k : holds id n F w es → on_message id err w k = k n.
Proof.
  intros [Hi Hid Hs _ _ _ _]. unfold on_message, bad_id, MSG_LIST_MAX_NUM, message_at. rewrite Hi.
  change (negb (TRUE =? TRUE)) with false. cbv iota.
  destruct (Z.leb_spec id 0), (Z.leb_spec 256 id), (Z.ltb_spec id 0); try lia. by rewrite Hs.
Qed.

(** Between [Lock] and [Unlock] the body runs alone on the queue. *)
Lemma locked_in {A} id n F w es (err : Z → A) body : holds id n F w es →
  ∃ m mid, vars w !! mutex_of offsetof_mutex_Id n = Some mid ∧ mx_free m mid ∧
  locked offsetof_mutex_Id id err body w n =
    ('(a, n', h) ← body n (heap w);
     Ret (a, mkWorld m (vars w) h (init_f w) (<[Z.to_nat id := Msg n']> (m_message_p_list w)))).
Proof.
  intros [_ _ _ (mid & Hv & Hf) _ _ _]. destruct (mx_lock_free _ _ Hf) as (m1 & Hlock & Hh & _).
  destruct (mx_unlock_held _ _ Hh) as (m2 & Hunlock & Hf2 & _). exists m2, mid.
  split; [done|]. split; [done|]. unfold locked, lock, unlock.
  rewrite (load_Some _ _ _ Hv). cbn [mbind outcome_bind]. rewrite Hlock. cbn [mbind outcome_bind].
  change (negb (RET_OK =? RET_OK)) with false. cbv iota. cbn [heap set_mutexes].
  destruct (body n (heap w)) as [[[a n'] h]| | | |]; cbn [mbind outcome_bind]; try done.
  cbn [vars set_slot set_heap set_mutexes]. rewrite (load_Some _ _ _ Hv).
  cbn [mbind outcome_bind mutexes set_slot set_heap set_mutexes]. by rewrite Hunlock.
Qed.

Lemma holds_after id n n' F F' w m mid h es es' : holds id n F w es → relinked n n' →
  vars w !! mutex_of offsetof_mutex_Id n = Some mid → mx_free m mid → rep F' h n' es' →
  Z.of_nat (length es') ≤ capacity (type n) (limit_max n) →
  holds id n' F' (mkWorld m (vars w) h (init_f w) (<[Z.to_nat id := Msg n']> (m_message_p_list w))) es'.
Proof.
  intros [Hi Hid Hs _ _ Hl _] (c & f & l & ->) Hv Hf Hrep Hcap. split; try done.
  - simpl. apply list_lookup_insert_eq. by eapply lookup_lt_Some.
  - by exists mid.
Qed.

Lemma turn_in {A} ty (l l' : list A) x : turn ty l = Some (x, l') →
  x ∈ l ∧ (∀ y, y ∈ l' → y ∈ l) ∧ length l = S (length l').
Proof.
  intros Ht. destruct (turn_split _ _ _ _ Ht) as [[_ ->]|[_ ->]].
  - split; [set_solver|]. split; [set_solver|]. rewrite length_app. simpl. lia.
  - split; [set_solver|]. split; [set_solver|]. done.
Qed.

Lemma deque_step_bound oo ty limit B op l r l' : deque_step oo ty limit op l r l' → client_ok B op →
  Forall (λ m, msg_size m ≤ B) l → Forall (λ m, msg_size m ≤ B) l'.
Proof.
  intros Hst Hok Hb. destruct Hst as [pl size l r l' Hs Hw| | room size l m l' Ht| | | | | | |]; try done.
  - destruct Hok as [Hpl HB].
    assert (msg_size (msg_of ty pl size) ≤ B) as Hm by (by rewrite msg_of_size).
    destruct Hw as [| | |]; [done| |done|].
    + apply Forall_app. split; [done|by apply Forall_singleton].
    + apply Forall_tail, Forall_app. split; [done|by apply Forall_singleton].
  - eapply Forall_forall. intros x Hx. destruct (turn_in _ _ _ _ Ht) as (_ & Hsub & _).
    by apply (proj1 (Forall_forall _ _) Hb), Hsub.
Qed.

(** [Write] and [Clean] on the queue a client holds. *)
Lemma run_write_spec id pl size B n F w es : holds id n F w es → client_ok B (MWrite pl size) →
  ∃ r w' n' es', run_op id (MWrite pl size) w = Ret (r, w') ∧ holds id n' F w' es' ∧ relinked n n' ∧
    deque_step (oom malloc) (type n) (limit_max n) (MWrite pl size) (e_msg <$> es) r (e_msg <$> es').
Proof.
  intros Hh Hok. pose proof (h_rep _ _ _ _ _ Hh) as Hrep. cbn [run_op].
  unfold DevMsg.DevMsg_Write. rewrite (on_message_in _ _ _ _ _ _ _ Hh).
  destruct (locked_in _ _ _ _ _ (λ _, 0)
    (msg_Write malloc sizeof_Message_Node GetTimestampMs pl size) Hh) as (m & mid & Hv & Hf & ->).
  destruct (Z_le_gt_dec size 0) as [Hle|Hgt].
  - unfold msg_Write at 1. destruct (Z.leb_spec size 0); [|lia]. cbn [mbind outcome_bind].
    exists (0, R_none). do 3 eexists. split; [done|].
    split; [eapply holds_after; try done; [apply relinked_refl|apply Hh]|].
    split; [apply relinked_refl|]. by apply deque_write_nothing.
  - destruct Hok as [Hpl HB].
    destruct (msg_Write_spec malloc sizeof_Message_Node GetTimestampMs malloc_fresh _ _ _ _ pl size
      Hrep (h_limit _ _ _ _ _ Hh) (h_capacity _ _ _ _ _ Hh)) as (r & n' & mem' & es' & -> & Hrep' & Hre & Hcap & Hdw);
      [lia|done|]. cbn [mbind outcome_bind].
    exists (r, R_none). do 3 eexists. split; [done|]. split; [by eapply holds_after|].
    split; [done|]. apply deque_do_write; [lia|done].
Qed.

Lemma run_clean_spec id n F w es : holds id n F w es →
  ∃ r w' n' F' es', run_op id MClean w = Ret (r, w') ∧ holds id n' F' w' es' ∧ relinked n n' ∧
    deque_step (oom malloc) (type n) (limit_max n) MClean (e_msg <$> es) r (e_msg <$> es').
Proof.
  intros Hh. pose proof (h_rep _ _ _ _ _ Hh) as Hrep. cbn [run_op].
  unfold DevMsg_Clean. pose proof Hh as [Hi Hid Hs _ _ _ _]. rewrite Hi.
  change (negb (TRUE =? TRUE)) with false. cbv iota. unfold bad_id, MSG_LIST_MAX_NUM, message_at.
  destruct (Z.leb_spec id 0), (Z.leb_spec 256 id), (Z.ltb_spec id 0); try lia. rewrite Hs.
  cbn [orb or_ub mbind outcome_bind].
  destruct (locked_in _ _ _ _ _ (λ r, r) msg_Clean Hh) as (m & mid & Hv & Hf & ->).
  destruct (msg_Clean_spec _ _ _ _ Hrep) as (n' & mem' & -> & Hre & Hrep' & _). cbn [mbind outcome_bind].
  do 5 eexists. split; [done|].
  split; [eapply holds_after; try done; simpl; pose proof (h_limit _ _ _ _ _ Hh); unfold capacity; case_match; lia|].
  split; [done|]. apply deque_clean.
Qed.

Lemma run_op_spec id op B n F w es : holds id n F w es → client_ok B op →
  Forall (λ m, msg_size m ≤ B) (e_msg <$> es) →
  ∃ r w' n' F' es', run_op id op w = Ret (r, w') ∧ holds id n' F' w' es' ∧ relinked n n' ∧
    (op ≠ MClean → F' = F) ∧
    deque_step (oom malloc) (type n) (limit_max n) op (e_msg <$> es) r (e_msg <$> es').
Proof.
  intros Hh Hok Hb. pose proof (h_rep _ _ _ _ _ Hh) as Hrep. pose proof Hrep as [Hcnt _ _ _ _ _].
  assert (Z.of_nat (length es) = Z.of_nat (length (e_msg <$> es))) as Hlen by (by rewrite length_fmap).
  destruct op as [pl size|room size| | | | | |]; cbn [run_op].
  - destruct (run_write_spec id pl size B n F w es Hh Hok) as (r & w' & n' & es' & Hr & ? & ? & ?).
    cbn [run_op] in Hr. rewrite Hr. by do 5 eexists.
  - unfold DevMsg_Read. rewrite (on_message_in _ _ _ _ _ _ _ Hh).
    destruct (locked_in _ _ _ _ _ (λ _, (0, R_none)) (msg_Read (Some room) size) Hh) as (m & mid & Hv & Hf & ->).
    pose proof (msg_Read_spec _ _ _ _ room size Hrep) as Hr.
    destruct (turn (type n) (e_msg <$> es)) as [[x l]|] eqn:Ht.
    + destruct (turn_in _ _ _ _ Ht) as (Hin & _ & Hl).
      destruct Hr as (n' & mem' & es' & -> & Hrep' & Hre & <-).
      { intros ?? [= <- <-]. pose proof (proj1 (Forall_forall _ _) Hb x Hin).
        destruct x; simpl in *; lia. }
      cbn [mbind outcome_bind]. do 5 eexists. split; [done|].
      split; [eapply holds_after; try done|split; [done|split; [done|by apply deque_read]]].
      rewrite length_fmap in Hl. pose proof (h_capacity _ _ _ _ _ Hh). rewrite length_fmap in *. lia.
    + rewrite Hr by done. cbn [mbind outcome_bind]. do 5 eexists. split; [done|].
      split; [eapply holds_after; try done; [apply relinked_refl|apply Hh]|].
      split; [apply relinked_refl|]. split; [done|]. apply turn_None in Ht as ->. apply deque_read_none.
  - unfold DevMsg_Size. rewrite (on_message_in _ _ _ _ _ _ _ Hh).
    destruct (locked_in _ _ _ _ _ (λ _, 0) msg_Size Hh) as (m & mid & Hv & Hf & ->).
    rewrite (msg_Size_spec _ _ _ _ Hrep). cbn [mbind outcome_bind].
    do 5 eexists. split; [done|]. split; [eapply holds_after; try done; [apply relinked_refl|apply Hh]|].
    split; [apply relinked_refl|]. split; [done|]. apply deque_size.
  - unfold DevMsg_Count. rewrite (on_message_in _ _ _ _ _ _ _ Hh). cbn [mbind outcome_bind].
    rewrite Hcnt, Hlen. do 5 eexists. split; [done|]. split; [done|].
    split; [apply relinked_refl|]. split; [done|]. apply deque_count.
  - unfold DevMsg_Empty. rewrite (on_message_in _ _ _ _ _ _ _ Hh). cbn [mbind outcome_bind].
    assert ((message_count n =? 0) = bool_decide (e_msg <$> es = [])) as -> by (rewrite Hcnt; by destruct es).
    do 5 eexists. split; [done|]. split; [done|].
    split; [apply relinked_refl|]. split; [done|]. apply deque_empty.
  - unfold DevMsg_Full. rewrite (on_message_in _ _ _ _ _ _ _ Hh). cbn [mbind outcome_bind].
    rewrite Hcnt, Hlen. do 5 eexists. split; [done|]. split; [done|].
    split; [apply relinked_refl|]. split; [done|]. apply deque_full.
  - unfold DevMsg_Available. rewrite (on_message_in _ _ _ _ _ _ _ Hh). cbn [mbind outcome_bind].
    rewrite Hcnt, Hlen. do 5 eexists. split; [done|]. split; [done|].
    split; [apply relinked_refl|]. split; [done|]. apply deque_available.
  - destruct (run_clean_spec id n F w es Hh) as (r & w' & n' & F' & es' & Hr & ? & ? & ?).
    cbn [run_op] in Hr. rewrite Hr. by do 5 eexists.
Qed.

(** C13. A client of one queue that keeps to its buffers sees a bounded deque of
    messages, first-in-first-out or last-in-first-out as the type says: every
    sequence of calls returns and gives the results of the abstract deque, and
    without [Clean] nothing but the queue's own nodes and payloads is allocated
    or freed. *)
Theorem DevMsg_refines_deque (id B : Z) (ops : list msg_op) (n : Message) (F : memory)
    (w : world M) (es : list ent) :
  holds id n F w es → Forall (client_ok B) ops → Forall (λ m, msg_size m ≤ B) (e_msg <$> es) →
  ∃ rs w' n' F' es', run_ops id ops w = Ret (rs, w') ∧ holds id n' F' w' es' ∧
    (MClean ∉ ops → F' = F) ∧
    deque_trace (oom malloc) (type n) (limit_max n) ops (e_msg <$> es) rs (e_msg <$> es').
Proof.
  intros Hh Hok. revert n F w es Hh. induction Hok as [|op ops Hop Hok IH]; intros n F w es Hh Hb.
  - exists [], w, n, F, es. split; [done|]. split; [done|]. split; [done|]. apply deque_nil.
  - destruct (run_op_spec _ _ _ _ _ _ _ Hh Hop Hb) as (r & w1 & n1 & F1 & es1 & E1 & Hh1 & Hre & HF1 & Hst).
    destruct (IH n1 F1 w1 es1 Hh1) as (rs & w2 & n2 & F2 & es2 & E2 & Hh2 & HF2 & Htr).
    { by eapply deque_step_bound. }
    exists (r :: rs), w2, n2, F2, es2. cbn [run_ops]. rewrite E1. cbn [mbind outcome_bind]. rewrite E2.
    split; [done|]. split; [done|]. split.
    + rewrite not_elem_of_cons. intros [? ?]. rewrite HF2 by done. apply HF1. congruence.
    + destruct Hre as (c & f & l & ->). by eapply deque_cons.
Qed.

(** When all the entries of the table are taken, [Create] returns [RET_OK] all
    the same, and changes neither the caller's variable nor the table. *)
Theorem DevMsg_Create_full (sizeof_Message m_mutex_Id garbage mid p ty num : Z) (mk : mark) (w : world M) :
  init_f w = TRUE → vars w !! m_mutex_Id = Some mid → mx_free (mutexes w) mid →
  find_owner p msg_ids w = Ret None → find_null w = None →
  ∃ w', DevMsg_Create malloc sizeof_Message m_mutex_Id offsetof_mutex_Id garbage p ty num mk w
      = Ret (RET_OK, w') ∧
    vars w' = vars w ∧ heap w' = heap w ∧ m_message_p_list w' = m_message_p_list w.
Proof.
  intros Hi Hv Hf Ho Hn. destruct (mx_lock_free _ _ Hf) as (m1 & Hlock & Hh & _).
  destruct (mx_unlock_held _ _ Hh) as (m2 & Hunlock & _). unfold DevMsg_Create, lock, unlock.
  rewrite Hi. change (negb (TRUE =? TRUE)) with false. cbv iota.
  rewrite (load_Some _ _ _ Hv). cbn [mbind outcome_bind]. rewrite Hlock. cbn [mbind outcome_bind].
  change (negb (RET_OK =? RET_OK)) with false. cbv iota.
  assert (∀ ids, find_owner p ids (set_mutexes w m1) = find_owner p ids w) as ->.
  { induction ids as [|i ids IH]; [done|]. cbn [find_owner]. change (message_at (set_mutexes w m1) i)
      with (message_at w i). by rewrite IH. }
  rewrite Ho. cbn [mbind outcome_bind]. change (find_null (set_mutexes w m1)) with (find_null w).
  rewrite Hn. cbn [vars set_mutexes]. rewrite (load_Some _ _ _ Hv). cbn [mbind outcome_bind mutexes set_mutexes].
  rewrite Hunlock. cbn [mbind outcome_bind]. by eexists.
Qed.
End Refine.

(** ** A null out parameter *)

Section NullRead.
Context (n : Message) (rsize : Z) (Hty : has (type n) MSG_TYPE_INDEX = false).

(** The null read of the only message empties the list and keeps the count. *)
Lemma msg_Read_null_single F mem e : rep F mem n [e] →
  msg_Read None rsize n mem = Ret (0, R_none, set_list n 1 NULL NULL, mem).
Proof using Hty.
  intros Hrep.
  destruct (unlink_spec F mem n [e] e [] Hrep) as (nd & Hnd & Hsz & _ & Hu & _);
    [by unfold turn; destruct (has (type n) MSG_TYPE_STACK)|].
  pose proof (rep_count _ _ _ _ Hrep) as Hcnt. simpl in Hcnt.
  assert (0 < msg_size (e_msg e)) by (by apply rep_msgs, Forall_singleton in Hrep as [? _]).
  unfold msg_Read. rewrite (first_null _ _ _ _ Hrep), Hcnt. change (bool_decide ([e] = [])) with false.
  cbn [Z.eqb Pos.eqb]. rewrite Hu. cbn [mbind outcome_bind]. rewrite (node_Some _ _ _ Hnd).
  cbn [mbind outcome_bind type set_list head last from_option]. rewrite Hty. by rewrite Hcnt.
Qed.

Context (a d size : Z) (bs : list Z) (Ha : a ≠ NULL) (Hd : d ≠ NULL)
  (Hs : 0 < size) (Hbs : Z.of_nat (length bs) = size).

(** The next write links its node as the only one and counts two. *)
Lemma msg_Write_unlinked (malloc : gset Z → Z → option Z) snode now pl mem : 2 ≤ limit_max n →
  malloc (used mem) snode = Some a → (∀ nd, malloc (used (set_node mem a nd)) size = Some d) →
  payload_ok pl size → take (Z.to_nat size) (pl_bytes pl) = bs →
  msg_Write malloc snode now pl size (set_list n 1 NULL NULL) mem
  = Ret (size, set_list n 2 a a,
      mkMemory (<[a := mkNode size d now a a]> (nodes mem)) (<[d := bs]> (blocks mem))).
Proof using Hty Hs.
  intros Hlim Hma Hmd Hpl Ht. unfold msg_Write. rewrite has_abandon_last, andb_true_r.
  cbn [message_count limit_max set_list].
  destruct (Z.leb_spec size 0), (Z.ltb_spec (limit_max n) 1); try lia. rewrite Hma.
  unfold store_data. cbn [type set_list]. rewrite Hty, Hmd. unfold payload_ok in Hpl.
  destruct (Z.ltb_spec (Z.of_nat (length (pl_bytes pl))) size); [lia|]. cbn [mbind outcome_bind].
  unfold link_last. cbn [first_messages set_list message_count nodes blocks set_node].
  change (NULL =? NULL) with true. cbv iota.
  erewrite set_next_Some by (cbn [nodes set_node]; apply lookup_insert_eq). cbn [mbind outcome_bind].
  erewrite set_previous_Some by (cbn [nodes set_node]; apply lookup_insert_eq). cbn [mbind outcome_bind].
  unfold abandon_first. cbn [limit_max message_count set_list].
  destruct (Z.ltb_spec (limit_max n) (1 + 1)); [lia|]. cbn [andb mbind outcome_bind].
  do 2 f_equal. unfold set_node. cbn [nodes blocks]. by rewrite !insert_insert_eq, Ht.
Qed.

(** A read of that node frees it and leaves the queue pointing at it. *)
Lemma msg_Read_counted mem room nd : nodes mem !! a = Some nd → nd_size nd = size → nd_data nd = d →
  previous nd = a → next nd = a → blocks mem !! d = Some bs → size ≤ room →
  msg_Read (Some room) rsize (set_list n 2 a a) mem
  = Ret (size, R_data bs, set_list n 1 a a, mkMemory (delete a (nodes mem)) (delete d (blocks mem))).
Proof using Hty Ha Hd Hs Hbs.
  intros Hnd Hsz Hdt Hp Hn Hb Hroom.
  assert (unlink (set_list n 2 a a) mem = Ret (Some (a, set_list n 2 a a))) as Hu.
  { unfold unlink. cbn [type set_list first_messages last_message message_count].
    assert ((if has (type n) MSG_TYPE_STACK then a else a) = a) as -> by (by destruct (has (type n) MSG_TYPE_STACK)).
    rewrite (node_Some _ _ _ Hnd). cbn [mbind outcome_bind]. rewrite Hsz, Hp, Hn.
    destruct (Z.eqb_spec size 0); [lia|]. by destruct (has (type n) MSG_TYPE_STACK). }
  unfold msg_Read. rewrite Hu. cbn [first_messages message_count set_list]. destruct (Z.eqb_spec a NULL); [done|].
  cbn [Z.eqb Pos.eqb mbind outcome_bind]. rewrite (node_Some _ _ _ Hnd).
  cbn [mbind outcome_bind type set_list]. rewrite Hty, Hsz, Hdt, Hb. cbn [or_ub mbind outcome_bind].
  destruct (Z.ltb_spec room size), (Z.ltb_spec (Z.of_nat (length bs)) size); try lia. cbn [orb].
  unfold free_block. destruct (Z.eqb_spec d NULL); [done|]. rewrite Hb. cbn [or_ub mbind outcome_bind].
  erewrite free_node_Some by exact Hnd. cbn [mbind outcome_bind nodes blocks].
  by rewrite take_ge by lia.
Qed.

(** A read while the queue points at a node that was freed. *)
Lemma msg_Read_freed mem out : nodes mem !! a = None → msg_Read out rsize (set_list n 1 a a) mem = UB.
Proof using Ha.
  intros Hn. unfold msg_Read. cbn [first_messages message_count set_list].
  destruct (Z.eqb_spec a NULL); [done|]. cbn [Z.eqb Pos.eqb]. unfold unlink.
  cbn [type set_list first_messages last_message].
  assert ((if has (type n) MSG_TYPE_STACK then a else a) = a) as -> by (by destruct (has (type n) MSG_TYPE_STACK)).
  unfold node. by rewrite Hn.
Qed.

End NullRead.

(** [Read] into a null pointer forgets the list of a queue of one message but
    still counts it: after the next [Write] and [Read] the queue points at a
    node that was freed. *)
Theorem msg_Read_null_use_after_free (malloc : gset Z → Z → option Z) (snode now a d size rsize room : Z)
    (F mem : memory) (n : Message) (e : ent) (pl : payload) :
  rep F mem n [e] → has (type n) MSG_TYPE_INDEX = false → 2 ≤ limit_max n →
  malloc (used mem) snode = Some a → a ∉ dom (nodes mem) → a ≠ NULL →
  (∀ nd, malloc (used (set_node mem a nd)) size = Some d) → d ≠ NULL →
  0 < size → payload_ok pl size → size ≤ room →
  ('(_, _, n1, mem1) ← msg_Read None rsize n mem;
   '(_, n2, mem2) ← msg_Write malloc snode now pl size n1 mem1;
   '(_, _, n3, mem3) ← msg_Read (Some room) rsize n2 mem2;
   msg_Read (Some room) rsize n3 mem3) = UB.
Proof.
  intros Hrep Hty Hlim Ha Hfresh Hanull Hd Hdnull Hs Hpl Hroom.
  rewrite (msg_Read_null_single n rsize Hty F mem e) by done. cbn [mbind outcome_bind].
  rewrite (msg_Write_unlinked n Hty a d size (take (Z.to_nat size) (pl_bytes pl)) Hs) by done.
  cbn [mbind outcome_bind].
  assert (Z.of_nat (length (take (Z.to_nat size) (pl_bytes pl))) = size) as Hlen
    by (unfold payload_ok in Hpl; rewrite length_take; lia).
  rewrite (msg_Read_counted n rsize Hty a d size _ Hanull Hdnull Hs Hlen _ room (mkNode size d now a a));
    try done; try apply lookup_insert_eq. cbn [mbind outcome_bind].
  apply msg_Read_freed; [done|]. cbn [nodes]. apply lookup_delete_eq.
Qed.

(** ** Concrete queues *)

(** An allocator that always finds room above everything in use. *)
Definition malloc_top (used : gset Z) (k : Z) : option Z :=
  Some (1 + foldr Z.max 0 (elements used)).

Lemma malloc_top_fresh used k a : malloc_top used k = Some a → (a ∉ used) ∧ a ≠ NULL.
Proof.
  intros [= <-]. split.
  - intros Hin%elem_of_elements%foldr_max_le. lia.
  - pose proof (foldr_max_nonneg (elements used)). unfold NULL. lia.
Qed.

(** A queue of at most two messages that drops its oldest; its mutex is lock 1. *)
Definition small_queue : Message :=
  mkMessage 8192 4096 "a.cpp" "q" 1 MSG_TYPE_ABANDON_FIRST 2 0 NULL NULL.

Definition small_world : world mutex_state :=
  mkWorld one_lock_table {[8716 := 1]} (mkMemory ∅ ∅) TRUE
    (<[1%nat := Msg small_queue]> (replicate 256 Null)).

Lemma small_rep : rep (mkMemory ∅ ∅) (mkMemory ∅ ∅) small_queue [].
Proof. split; [done|done|done|apply chain_nil|apply payloads_nil|constructor]. Qed.

Lemma small_holds : @holds _ _ (DevMutex_laws (λ _, 0)) 524 1 small_queue (mkMemory ∅ ∅) small_world [].
Proof.
  split; [done|lia|done| |apply small_rep|done|done].
  exists 1. split; [by vm_compute|]. apply one_lock_free.
Qed.

Lemma DevMsg_refines_deque_witness :
  ∃ rs w' n' F' es', @run_ops _ (DevMutex_lib (λ _, 0)) malloc_top 40 0 524 1
      [MWrite (mkPayload 0 [1; 2]) 2; MWrite (mkPayload 0 [3]) 1; MWrite (mkPayload 0 [4]) 1; MRead 8 8]
      small_world = Ret (rs, w') ∧
    rs = [(2, R_none); (1, R_none); (0, R_none); (1, R_data [3])] ∧
    @holds _ _ (DevMutex_laws (λ _, 0)) 524 1 n' F' w' es' ∧ F' = mkMemory ∅ ∅.
Proof.
  destruct (@DevMsg_refines_deque _ _ (DevMutex_laws (λ _, 0)) malloc_top 40 0 524 malloc_top_fresh 1 8
    [MWrite (mkPayload 0 [1; 2]) 2; MWrite (mkPayload 0 [3]) 1; MWrite (mkPayload 0 [4]) 1; MRead 8 8]
    small_queue (mkMemory ∅ ∅) small_world [] small_holds) as (rs & w' & n' & F' & es' & E & Hh & HF & _).
  - apply (bool_decide_unpack _). by vm_compute.
  - constructor.
  - exists rs, w', n', F', es'. split; [done|]. split.
    + assert ((λ o, match o with Ret x => fst x | _ => [] end) (@run_ops _ (DevMutex_lib (λ _, 0)) malloc_top 40 0 524 1
        [MWrite (mkPayload 0 [1; 2]) 2; MWrite (mkPayload 0 [3]) 1; MWrite (mkPayload 0 [4]) 1; MRead 8 8]
        small_world) = [(2, R_none); (1, R_none); (0, R_none); (1, R_data [3])]) as Er by (by vm_compute).
      by rewrite E in Er.
    + split; [exact Hh|]. apply HF. clear.
      intros Hin. repeat (apply elem_of_cons in Hin as [?|Hin]; [done|]). by apply elem_of_nil in Hin.
Defined.

(** A table whose 255 entries are taken. *)
Definition full_world : world mutex_state :=
  mkWorld one_lock_table (<[4096 := 1]> {[8192 := 77]}) (mkMemory ∅ ∅) TRUE
    (replicate 256 (Msg small_queue)).

Lemma DevMsg_Create_full_witness :
  ∃ w', @DevMsg_Create _ (DevMutex_lib (λ _, 0)) malloc_top 588 4096 524 0 8192 4 2 some_mark full_world
      = Ret (RET_OK, w') ∧ vars w' !! 8192 = Some 77.
Proof.
  destruct (@DevMsg_Create_full _ _ (DevMutex_laws (λ _, 0)) malloc_top 524 588 4096 0 1 8192 4 2 some_mark
    full_world) as (w' & E & Hv & _).
  - done.
  - by vm_compute.
  - apply one_lock_free.
  - by vm_compute.
  - by vm_compute.
  - exists w'. split; [done|]. rewrite Hv. by vm_compute.
Defined.

(** A queue that holds the two bytes [1; 2]. *)
Definition loaded_memory : memory :=
  mkMemory {[64 := mkNode 2 128 0 64 64]} {[128 := [1; 2]]}.
Definition loaded_queue : Message :=
  mkMessage 8192 4096 "a.cpp" "q" 1 MSG_TYPE_ABANDON_FIRST 2 1 64 64.

Lemma loaded_rep : rep (mkMemory ∅ ∅) loaded_memory loaded_queue [mkEnt 64 128 (M_data [1; 2])].
Proof.
  split; [done|done|done| | |by constructor].
  - split; [apply NoDup_singleton|by apply (bool_decide_unpack _); vm_compute| | |].
    + intros [|i] e Hi; [|by destruct i]. injection Hi as <-.
      exists (mkNode 2 128 0 64 64). split; [by vm_compute|]. split; [done|done| |done]. by intros.
    + intros a Ha. cbn in Ha. apply not_elem_of_cons in Ha as [Ha _].
      cbn [nodes loaded_memory]. by rewrite lookup_singleton_ne by congruence.
    + done.
  - split; [apply NoDup_singleton|by apply (bool_decide_unpack _); vm_compute| | |].
    + intros e bs ->%list_elem_of_singleton [= <-]. by vm_compute.
    + intros a Ha. cbn in Ha. apply not_elem_of_cons in Ha as [Ha _].
      cbn [blocks loaded_memory]. by rewrite lookup_singleton_ne by congruence.
    + done.
Qed.

Lemma msg_Read_null_use_after_free_witness :
  ('(_, _, n1, mem1) ← msg_Read None 2 loaded_queue loaded_memory;
   '(_, n2, mem2) ← msg_Write (λ _ k, Some (if k =? 40 then 256 else 512)) 40 7 (mkPayload 0 [9]) 1 n1 mem1;
   '(_, _, n3, mem3) ← msg_Read (Some 8) 2 n2 mem2;
   msg_Read (Some 8) 2 n3 mem3) = UB.
Proof.
  eapply (msg_Read_null_use_after_free _ 40 7 256 512 1 2 8 (mkMemory ∅ ∅) loaded_memory loaded_queue
    (mkEnt 64 128 (M_data [1; 2]))); [apply loaded_rep|done|done|done| |done|done|done|done|done|done].
  apply (bool_decide_unpack _). by vm_compute.
Defined.
