(* ===== verification/DevStdlib.v ===== *)
(** * Text helpers

    Model of [src/mivifwk/odm/plugins/qcom/ldc/device/dev_stdlib.cpp].  A [char]
    or [U8] array is the list of its bytes; a C string is an array with a zero in
    it, and looking for the zero past the end of the array is undefined
    behaviour.  A pointer into an array is an index. *)
From S2P Require Import Prelude DevTypes.
#[local] Open Scope Z_scope.

(** [toupper] in the "C" locale, on a lower-case letter. *)
Definition toupper (c : Z) : Z := c - 32.

(** @src src/mivifwk/odm/plugins/qcom/ldc/device/dev_stdlib.cpp:24-35 __StrToUpper *)
Fixpoint StrToUpper (str : list Z) : outcome (list Z) :=
  match str with
  | [] => UB
  | c :: str' =>
      if c =? 0 then Ret str
      else
        str' ← StrToUpper str';
        Ret ((if (97 <=? c) && (c <=? 122) then toupper c else c) :: str')
  end.

(** @src src/mivifwk/odm/plugins/qcom/ldc/device/dev_stdlib.cpp:17-22 _IS_NUMBER *)
Definition IS_NUMBER (alpha_char : Z) : bool := (48 <=? alpha_char) && (alpha_char <=? 57).

(** The value of an upper-case hexadecimal digit. *)
Definition digit (c : Z) : option Z :=
  if IS_NUMBER c then Some (c - 48)
  else if (65 <=? c) && (c <=? 70) then Some ((c - 65) + 10)
  else None.

(** @src src/mivifwk/odm/plugins/qcom/ldc/device/dev_stdlib.cpp:44-53 Dev_xstoi (loop)
    [None]: a character that is not a digit.  The index is 16 bits wide: past
    65535 it starts over. *)
Fixpoint xstoi_loop (fuel : nat) (str : list Z) (i temp : Z) : outcome (option Z) :=
  match fuel with
  | O => OutOfFuel
  | S fuel' =>
      c ← or_ub (str !! Z.to_nat i);
      if c =? 0 then Ret (Some temp)
      else
        match digit c with
        | Some d => xstoi_loop fuel' str (u16 (i + 1)) (u8 (Z.shiftl temp 4 + d))
        | None => Ret None
        end
  end.

(** @src src/mivifwk/odm/plugins/qcom/ldc/device/dev_stdlib.cpp:37-56 Dev_xstoi
    The result, the array after the call and the value stored through [val]. *)
Definition Dev_xstoi (str : option (list Z)) (val : bool) : outcome (Z * list Z * option Z) :=
  match str with
  | Some str =>
      if val then
        str ← StrToUpper str;
        r ← xstoi_loop (S (length str)) str 0 0;
        match r with
        | Some temp => Ret (TRUE, str, Some temp)
        | None => Ret (FALSE, str, None)
        end
      else Ret (FALSE, str, None)
  | None => Ret (FALSE, [], None)
  end.

(** [strlen]. *)
Fixpoint strlen (s : list Z) : outcome nat :=
  match s with
  | [] => UB
  | c :: s' => if c =? 0 then Ret O else n ← strlen s'; Ret (S n)
  end.

(** [hex[i] = v]. *)
Definition store_byte (hex : list Z) (i : nat) (v : Z) : outcome (list Z) :=
  match hex !! i with Some _ => Ret (<[i := v]> hex) | None => UB end.

(** @src src/mivifwk/odm/plugins/qcom/ldc/device/dev_stdlib.cpp:65-72 Dev_atox (loop)
    [k] rounds; the result of [Dev_xstoi] is dropped. *)
Fixpoint atox_loop (k : nat) (i : nat) (s : list Z) (iLeft : Z) (hex : list Z) : outcome (list Z) :=
  match k with
  | O => Ret hex
  | S k' =>
      let m := if iLeft <? 2 then iLeft else 2 in
      if m <? 0 then UB
      else
        let szTmp := take (Z.to_nat m) s ++ replicate (3 - Z.to_nat m) 0 in
        '(_, _, v) ← Dev_xstoi (Some szTmp) true;
        hex ← (match v with Some v => store_byte hex i v | None => Ret hex end);
        atox_loop k' (S i) (drop 2 s) (iLeft - 2) hex
  end.

(** @src src/mivifwk/odm/plugins/qcom/ldc/device/dev_stdlib.cpp:58-74 Dev_atox
    The bytes at [hex] and the number stored through [len]. *)
Definition Dev_atox (s : list Z) (hex : option (list Z)) : outcome (option (list Z) * option Z) :=
  n ← strlen s;
  let n := Z.of_nat n in
  let iCount := s32 (n / 2) + (if 0 <? n mod 2 then 1 else 0) in
  match hex with
  | None => Ret (None, None)
  | Some hex => hex ← atox_loop (Z.to_nat iCount) 0 s (s32 n) hex; Ret (Some hex, Some (u32 iCount))
  end.

(** @src src/mivifwk/odm/plugins/qcom/ldc/device/dev_stdlib.cpp:77-77 ascTable *)
Definition ascTable : list Z := [48; 49; 50; 51; 52; 53; 54; 55; 56; 57; 65; 66; 67; 68; 69; 70; 0].

(** The loop of [Dev_xtoa] over [k] bytes. *)
Fixpoint xtoa_loop (k : nat) (inp out : list Z) (pos : nat) : outcome (list Z * nat) :=
  match k with
  | O => Ret (out, pos)
  | S k' =>
      match inp with
      | [] => UB
      | b :: inp' =>
          hi ← or_ub (ascTable !! Z.to_nat (Z.shiftr b 4));
          out ← store_byte out pos hi;
          lo ← or_ub (ascTable !! Z.to_nat (Z.land b 0x0F));
          out ← store_byte out (S pos) lo;
          xtoa_loop k' inp' out (S (S pos))
      end
  end.

(** @src src/mivifwk/odm/plugins/qcom/ldc/device/dev_stdlib.cpp:76-87 Dev_xtoa *)
Definition Dev_xtoa (inp out : list Z) (len : Z) : outcome (Z * list Z) :=
  '(out, pos) ← xtoa_loop (Z.to_nat len) inp out 0;
  out ← store_byte out pos 0;
  Ret (Z.of_nat pos, out).

(** [strspn(s, delim)] and [strpbrk(s, delim) - s]. *)
Fixpoint strspn (s delim : list Z) : outcome nat :=
  match s with
  | [] => UB
  | c :: s' =>
      if c =? 0 then Ret O
      else if bool_decide (c ∈ delim) then n ← strspn s' delim; Ret (S n) else Ret O
  end.

Fixpoint strpbrk (s delim : list Z) : outcome (option nat) :=
  match s with
  | [] => UB
  | c :: s' =>
      if c =? 0 then Ret None
      else if bool_decide (c ∈ delim) then Ret (Some O)
      else r ← strpbrk s' delim; Ret (option_map S r)
  end.

(** @src src/mivifwk/odm/plugins/qcom/ldc/device/dev_stdlib.cpp:99-119 Dev_strtok_r
    In the array [buf]: [s] is an index or null, [save] is [*save_ptr].  The
    token, the array and [*save_ptr] after the call. *)
Definition Dev_strtok_r (buf : list Z) (s : option nat) (delim : list Z) (save : nat)
    : outcome (option nat * list Z * nat) :=
  let s := default save s in
  n ← strspn (drop s buf) delim;
  let s := (s + n)%nat in
  c ← or_ub (buf !! s);
  if c =? 0 then Ret (None, buf, save)
  else
    let token := s in
    e ← strpbrk (drop token buf) delim;
    match e with
    | None => n ← strlen (drop token buf); Ret (Some token, buf, (token + n)%nat)
    | Some k => buf ← store_byte buf (token + k) 0; Ret (Some token, buf, (token + k + 1)%nat)
    end.

Example strtok_comment :
  (* "-abc-=-def" as in the comment of the source *)
  Dev_strtok_r [45; 97; 98; 99; 45; 61; 45; 100; 101; 102; 0] (Some 0%nat) [45] 0
  = Ret (Some 1%nat, [45; 97; 98; 99; 0; 61; 45; 100; 101; 102; 0], 5%nat).
Proof. reflexivity. Qed.

(** ** Strings in arrays *)

Definition no_nul (s : list Z) : Prop := 0 ∉ s.

Lemma no_nul_cons c s : no_nul (c :: s) ↔ c ≠ 0 ∧ no_nul s.
Proof. unfold no_nul. rewrite not_elem_of_cons. naive_solver. Qed.

Lemma no_nul_app s t : no_nul (s ++ t) ↔ no_nul s ∧ no_nul t.
Proof. unfold no_nul. rewrite not_elem_of_app. done. Qed.

Definition upper (c : Z) : Z := if (97 <=? c) && (c <=? 122) then toupper c else c.

Lemma StrToUpper_spec s rest : no_nul s → StrToUpper (s ++ 0 :: rest) = Ret ((upper <$> s) ++ 0 :: rest).
Proof.
  induction s as [|c s IH]; intros Hs; [done|]. apply no_nul_cons in Hs as [Hc Hs].
  cbn [app StrToUpper fmap list_fmap]. destruct (Z.eqb_spec c 0); [done|]. by rewrite IH.
Qed.

Lemma strlen_spec s rest : no_nul s → strlen (s ++ 0 :: rest) = Ret (length s).
Proof.
  induction s as [|c s IH]; intros Hs; [done|]. apply no_nul_cons in Hs as [Hc Hs].
  cbn [app strlen length]. destruct (Z.eqb_spec c 0); [done|]. by rewrite IH.
Qed.

Lemma upper_nonzero c : c ≠ 0 → upper c ≠ 0.
Proof. unfold upper, toupper. case_bool; to_prop; lia. Qed.

(** ** Hexadecimal numbers *)

(** The value of a string of digits of either case. *)
Fixpoint hex_value (acc : Z) (s : list Z) : option Z :=
  match s with
  | [] => Some acc
  | c :: s' => match digit (upper c) with Some d => hex_value (16 * acc + d) s' | None => None end
  end.

Lemma u8_step acc d : u8 (Z.shiftl (u8 acc) 4 + d) = u8 (16 * acc + d).
Proof.
  unfold wrapu. rewrite Z.shiftl_mul_pow2 by lia. change (2 ^ 8) with 256. change (2 ^ 4) with 16.
  replace (16 * acc + d) with (acc mod 256 * 16 + d + (16 * (acc / 256)) * 256)
    by (pose proof (Z.div_mod acc 256); lia).
  by rewrite Z_mod_plus_full.
Qed.

Lemma xstoi_loop_spec pre s rest acc fuel : no_nul s → Z.of_nat (length pre + length s) < 2 ^ 16 →
  (length s < fuel)%nat →
  xstoi_loop fuel (pre ++ (upper <$> s) ++ 0 :: rest) (Z.of_nat (length pre)) (u8 acc)
  = Ret (u8 <$> hex_value acc s).
Proof.
  revert pre acc fuel. induction s as [|c s IH]; intros pre acc [|fuel] Hs Hlen Hf; [simpl in *; lia| |simpl in *; lia|];
    cbn [xstoi_loop fmap list_fmap app]; rewrite Nat2Z.id.
  - by rewrite list_lookup_middle by done.
  - apply no_nul_cons in Hs as [Hc Hs]. rewrite list_lookup_middle by done. cbn [or_ub mbind outcome_bind].
    destruct (Z.eqb_spec (upper c) 0) as [E|_]; [by apply upper_nonzero in E|]. cbn [hex_value].
    destruct (digit (upper c)) as [d|]; [|done]. rewrite u8_step.
    assert (u16 (Z.of_nat (length pre) + 1) = Z.of_nat (length (pre ++ [upper c]))) as ->.
    { rewrite length_app. simpl in *. unfold wrapu. rewrite Z.mod_small by lia. lia. }
    rewrite (cons_middle (upper c)), app_assoc. apply IH; [done| |simpl in *; lia].
    rewrite length_app. simpl in *. lia.
Qed.

Lemma Dev_xstoi_value s rest : no_nul s → Z.of_nat (length s) < 2 ^ 16 →
  Dev_xstoi (Some (s ++ 0 :: rest)) true =
    Ret (match hex_value 0 s with
         | Some v => (TRUE, (upper <$> s) ++ 0 :: rest, Some (v mod 256))
         | None => (FALSE, (upper <$> s) ++ 0 :: rest, None)
         end).
Proof.
  intros Hs Hl. unfold Dev_xstoi. rewrite StrToUpper_spec by done. cbn [mbind outcome_bind].
  pose proof (xstoi_loop_spec [] s rest 0 (S (length ((upper <$> s) ++ 0 :: rest))) Hs) as E.
  cbn [app length] in E. change (Z.of_nat 0) with 0 in E. change (u8 0) with 0 in E. rewrite E.
  - by destruct (hex_value 0 s).
  - simpl. lia.
  - rewrite length_app, length_fmap. lia.
Qed.

(** [Dev_xstoi] on a string of fewer than 65536 characters: the string is put
    in upper case in place; when it consists of hexadecimal digits (of either
    case) the value stored is theirs modulo 256 and the result [TRUE], and
    otherwise nothing is stored and the result is [FALSE]. *)
Theorem Dev_xstoi_spec (s rest : list Z) : no_nul s → Z.of_nat (length s) < 2 ^ 16 →
  Dev_xstoi (Some (s ++ 0 :: rest)) true =
    Ret (match hex_value 0 s with
         | Some v => (TRUE, (upper <$> s) ++ 0 :: rest, Some (v mod 256))
         | None => (FALSE, (upper <$> s) ++ 0 :: rest, None)
         end).
Proof. apply Dev_xstoi_value. Qed.

Lemma Dev_xstoi_spec_witness :
  Dev_xstoi (Some ([49; 97; 70] ++ 0 :: [7])) true = Ret (TRUE, [49; 65; 70; 0; 7], Some 175) ∧
  Dev_xstoi (Some ([49; 103] ++ 0 :: [])) true = Ret (FALSE, [49; 71; 0], None).
Proof.
  split.
  - rewrite (Dev_xstoi_spec [49; 97; 70] [7]); [done|by apply (bool_decide_unpack _); vm_compute|simpl; lia].
  - rewrite (Dev_xstoi_spec [49; 103] []); [done|by apply (bool_decide_unpack _); vm_compute|simpl; lia].
Defined.

(** ** Bytes to text and back *)

Definition hex_digit (v : Z) : Z := if v <? 10 then 48 + v else 55 + v.
Definition hex_of (b : Z) : list Z := [hex_digit (b / 16); hex_digit (b mod 16)].
Definition hex_text (bs : list Z) : list Z := concat (hex_of <$> bs).

Lemma length_hex_text bs : length (hex_text bs) = (2 * length bs)%nat.
Proof. unfold hex_text. induction bs as [|b bs IH]; [done|]. cbn [fmap list_fmap concat]. rewrite length_app, IH. simpl. lia. Qed.

Lemma nibbles b : is_byte b → 0 ≤ b / 16 < 16 ∧ 0 ≤ b mod 16 < 16.
Proof.
  unfold is_byte. intros Hb. split; [|by apply Z.mod_pos_bound].
  split; [apply Z.div_pos; lia|apply Z.div_lt_upper_bound; lia].
Qed.

Lemma ascTable_digit v : 0 ≤ v < 16 → ascTable !! Z.to_nat v = Some (hex_digit v).
Proof.
  intros Hv. assert (∃ k, v = Z.of_nat k ∧ (k < 16)%nat) as (k & -> & Hk) by (exists (Z.to_nat v); lia).
  rewrite Nat2Z.id. by do 16 (destruct k as [|k]; [done|]); lia.
Qed.

Lemma digit_hex v : 0 ≤ v < 16 → digit (upper (hex_digit v)) = Some v ∧ hex_digit v ≠ 0.
Proof.
  intros Hv. assert (∃ k, v = Z.of_nat k ∧ (k < 16)%nat) as (k & -> & Hk) by (exists (Z.to_nat v); lia).
  by do 16 (destruct k as [|k]; [done|]); lia.
Qed.

Lemma store_byte_middle pre x rest v : store_byte (pre ++ x :: rest) (length pre) v = Ret (pre ++ v :: rest).
Proof.
  unfold store_byte. rewrite list_lookup_middle by done. by rewrite insert_app_r_alt, Nat.sub_diag.
Qed.

Lemma xtoa_loop_spec bs pre out : Forall is_byte bs → (2 * length bs ≤ length out)%nat →
  xtoa_loop (length bs) bs (pre ++ out) (length pre)
  = Ret (pre ++ hex_text bs ++ drop (2 * length bs) out, (length pre + 2 * length bs)%nat).
Proof.
  intros Hb. revert pre out. induction Hb as [|b bs Hb _ IH]; intros pre out Hlen.
  { simpl. by rewrite drop_0, Nat.add_0_r. }
  destruct out as [|o1 [|o2 out]]; [simpl in Hlen; lia..|].
  cbn [length xtoa_loop]. destruct (nibbles b Hb) as [H1 H2].
  rewrite Z.shiftr_div_pow2 by lia. change (2 ^ 4) with 16. change 0x0F with (Z.ones 4).
  rewrite Z.land_ones by lia. change (2 ^ 4) with 16.
  rewrite (ascTable_digit _ H1). cbn [or_ub mbind outcome_bind]. rewrite store_byte_middle. cbn [mbind outcome_bind].
  rewrite (ascTable_digit _ H2). cbn [or_ub mbind outcome_bind].
  rewrite (cons_middle (hex_digit (b / 16))), app_assoc.
  replace (S (length pre)) with (length (pre ++ [hex_digit (b / 16)])) by (rewrite length_app; simpl; lia).
  rewrite store_byte_middle. cbn [mbind outcome_bind]. rewrite (cons_middle (hex_digit (b mod 16))), app_assoc.
  replace (S (length (pre ++ [hex_digit (b / 16)])))
    with (length ((pre ++ [hex_digit (b / 16)]) ++ [hex_digit (b mod 16)])) by (rewrite !length_app; simpl; lia).
  rewrite IH by (simpl in Hlen; lia). rewrite !length_app, <-!app_assoc. unfold hex_text.
  cbn [fmap list_fmap concat hex_of app length]. do 2 f_equal; [|lia].
  replace (2 * S (length bs))%nat with (S (S (2 * length bs))) by lia. done.
Qed.

Lemma hex_of_no_nul b : is_byte b → no_nul (hex_of b).
Proof.
  intros Hb. destruct (nibbles b Hb) as [H1 H2]. unfold hex_of.
  apply no_nul_cons. split; [by apply digit_hex|]. apply no_nul_cons. split; [by apply digit_hex|].
  apply not_elem_of_nil.
Qed.

Lemma hex_text_no_nul bs : Forall is_byte bs → no_nul (hex_text bs).
Proof.
  induction 1 as [|b bs Hb _ IH]; [apply not_elem_of_nil|].
  change (hex_text (b :: bs)) with (hex_of b ++ hex_text bs). apply no_nul_app. split; [by apply hex_of_no_nul|done].
Qed.

Lemma xstoi_hex_of b : is_byte b → ∃ str, Dev_xstoi (Some (hex_of b ++ [0])) true = Ret (TRUE, str, Some b).
Proof.
  intros Hb. destruct (nibbles b Hb) as [H1 H2].
  rewrite Dev_xstoi_value by (done || by apply hex_of_no_nul).
  unfold hex_of. cbn [hex_value]. rewrite (proj1 (digit_hex _ H1)), (proj1 (digit_hex _ H2)).
  cbn [hex_value]. eexists. do 3 f_equal. rewrite Z.mul_0_r, Z.add_0_l.
  replace (16 * (b / 16) + b mod 16) with b by (pose proof (Z.div_mod b 16); lia). by apply Z.mod_small.
Qed.

Lemma atox_loop_spec bs pre hex tail : Forall is_byte bs → (length bs ≤ length hex)%nat →
  atox_loop (length bs) (length pre) (hex_text bs ++ tail) (Z.of_nat (length (hex_text bs))) (pre ++ hex)
  = Ret (pre ++ bs ++ drop (length bs) hex).
Proof.
  intros Hb. revert pre hex. induction Hb as [|b bs Hb _ IH]; intros pre hex Hlen.
  { simpl. by rewrite drop_0. }
  destruct hex as [|h hex]; [simpl in Hlen; lia|]. rewrite length_hex_text.
  cbn [length atox_loop]. destruct (Z.ltb_spec (Z.of_nat (2 * S (length bs))) 2); [lia|].
  change (2 <? 0) with false. cbv iota. change (Z.to_nat 2) with 2%nat.
  change (hex_text (b :: bs)) with (hex_of b ++ hex_text bs).
  destruct (xstoi_hex_of b Hb) as [str E].
  change (take 2 ((hex_of b ++ hex_text bs) ++ tail)) with (hex_of b).
  change (replicate (3 - 2) 0) with [0]. rewrite E. cbn [mbind outcome_bind].
  rewrite store_byte_middle. cbn [mbind outcome_bind].
  change (drop 2 ((hex_of b ++ hex_text bs) ++ tail)) with (hex_text bs ++ tail).
  replace (Z.of_nat (2 * S (length bs)) - 2) with (Z.of_nat (length (hex_text bs)))
    by (rewrite length_hex_text; lia).
  rewrite (cons_middle b), app_assoc.
  replace (S (length pre)) with (length (pre ++ [b])) by (rewrite length_app; simpl; lia).
  rewrite IH by (simpl in Hlen; lia). by rewrite <-app_assoc.
Qed.

(** Bytes printed by [Dev_xtoa] and read back by [Dev_atox]: with enough room
    in both arrays [Dev_xtoa] writes the upper-case digits and a terminator,
    and [Dev_atox] restores the bytes and their number; both leave the rest of
    the arrays alone. *)
Theorem Dev_hex_roundtrip (bs out hex : list Z) : Forall is_byte bs →
  (2 * length bs < length out)%nat → (length bs ≤ length hex)%nat → Z.of_nat (length bs) < 2 ^ 30 →
  ∃ text, Dev_xtoa bs out (Z.of_nat (length bs)) = Ret (2 * Z.of_nat (length bs), text) ∧
    text = hex_text bs ++ 0 :: drop (S (2 * length bs)) out ∧
    Dev_atox text (Some hex)
      = Ret (Some (bs ++ drop (length bs) hex), Some (Z.of_nat (length bs))).
Proof.
  intros Hb Hout Hhex Hlen. eexists. split; [|split; [reflexivity|]].
  - unfold Dev_xtoa. rewrite Nat2Z.id.
    pose proof (xtoa_loop_spec bs [] out Hb ltac:(lia)) as E. cbn [app length] in E. rewrite E. clear E.
    cbn [mbind outcome_bind].
    destruct (drop (2 * length bs) out) as [|o rest] eqn:E.
    { apply (f_equal length) in E. rewrite length_drop in E. simpl in E. lia. }
    replace (0 + 2 * length bs)%nat with (length (hex_text bs)) by (rewrite length_hex_text; lia).
    rewrite store_byte_middle. cbn [mbind outcome_bind]. rewrite length_hex_text.
    do 2 f_equal; [lia|]. do 2 f_equal.
    replace (S (2 * length bs)) with (2 * length bs + 1)%nat by lia. by rewrite <-drop_drop, E.
  - unfold Dev_atox. rewrite strlen_spec by (by apply hex_text_no_nul). cbn [mbind outcome_bind].
    assert (Z.of_nat (length (hex_text bs)) = Z.of_nat (length bs) * 2) as El by (rewrite length_hex_text; lia).
    replace (Z.of_nat (length (hex_text bs)) / 2) with (Z.of_nat (length bs)) by (by rewrite El, Z.div_mul).
    replace (Z.of_nat (length (hex_text bs)) mod 2) with 0 by (by rewrite El, Z.mod_mul).
    change (0 <? 0) with false. cbv iota. rewrite Z.add_0_r. rewrite !s32_small by (unfold INT_MIN, INT_MAX; lia).
    rewrite Nat2Z.id. pose proof (atox_loop_spec bs [] hex (0 :: drop (S (2 * length bs)) out) Hb Hhex) as E.
    cbn [app length] in E. rewrite E. cbn [mbind outcome_bind].
    do 3 f_equal. apply wrapu_small. lia.
Qed.

Lemma Dev_hex_roundtrip_witness :
  ∃ text, Dev_xtoa [171; 7] [1; 1; 1; 1; 1; 9] 2 = Ret (4, text) ∧ text = [65; 66; 48; 55; 0; 9] ∧
    Dev_atox text (Some [0; 0; 3]) = Ret (Some [171; 7; 3], Some 2).
Proof.
  apply (Dev_hex_roundtrip [171; 7] [1; 1; 1; 1; 1; 9] [0; 0; 3]); [|simpl; lia..].
  apply (bool_decide_unpack _). by vm_compute.
Defined.

(** ** Splitting a string into tokens *)

(** All the tokens, the way a caller collects them: the string first, then a
    null pointer, until the result is null. *)
Fixpoint tokens (fuel : nat) (buf : list Z) (s : option nat) (delim : list Z) (save : nat)
    : outcome (list (list Z)) :=
  match fuel with
  | O => OutOfFuel
  | S fuel' =>
      '(t, buf, save) ← Dev_strtok_r buf s delim save;
      match t with
      | None => Ret []
      | Some i =>
          n ← strlen (drop i buf);
          ts ← tokens fuel' buf None delim save;
          Ret (take n (drop i buf) :: ts)
      end
  end.

(** The maximal runs of characters that are not delimiters. *)
Fixpoint fields (delim cur l : list Z) : list (list Z) :=
  let flush := match cur with [] => [] | _ => [cur] end in
  match l with
  | [] => flush
  | c :: l' => if bool_decide (c ∈ delim) then flush ++ fields delim [] l' else fields delim (cur ++ [c]) l'
  end.

Lemma span_exists (P : Z → Prop) `{∀ c, Decision (P c)} l :
  ∃ a b, l = a ++ b ∧ Forall P a ∧ (b = [] ∨ ∃ c b', b = c :: b' ∧ ¬ P c).
Proof.
  induction l as [|c l (a & b & -> & Ha & Hb)].
  - exists [], []. split; [done|]. split; [constructor|by left].
  - destruct (decide (P c)).
    + exists (c :: a), b. split; [done|]. split; [by constructor|done].
    + exists [], (c :: a ++ b). split; [done|]. split; [constructor|]. right. by exists c, (a ++ b).
Qed.

Section Tokens.
Context (delim : list Z).

Lemma fields_delims ds l : Forall (.∈ delim) ds → fields delim [] (ds ++ l) = fields delim [] l.
Proof.
  induction 1 as [|d ds Hd _ IH]; [done|]. cbn [app fields]. by rewrite bool_decide_eq_true_2.
Qed.

Lemma fields_run cur tok l : Forall (.∉ delim) tok → fields delim cur (tok ++ l) = fields delim (cur ++ tok) l.
Proof.
  intros Ht. revert cur. induction Ht as [|c tok Hc _ IH]; intros cur; [by rewrite app_nil_r|].
  cbn [app fields]. rewrite bool_decide_eq_false_2 by done. by rewrite IH, <-app_assoc.
Qed.

Lemma fields_end tok : tok ≠ [] → fields delim tok [] = [tok].
Proof. by destruct tok. Qed.

Lemma fields_stop tok d l : tok ≠ [] → d ∈ delim → fields delim tok (d :: l) = tok :: fields delim [] l.
Proof. intros Ht Hd. cbn [fields]. rewrite bool_decide_eq_true_2 by done. by destruct tok. Qed.

Lemma strspn_spec ds l rest : no_nul ds → Forall (.∈ delim) ds →
  (l = [] ∨ ∃ c l', l = c :: l' ∧ c ∉ delim) → strspn (ds ++ l ++ 0 :: rest) delim = Ret (length ds).
Proof.
  intros Hn Hds Hl. induction Hds as [|d ds Hd _ IH].
  - destruct Hl as [->|(c & l' & -> & Hc)]; [done|]. cbn [app strspn].
    rewrite bool_decide_eq_false_2 by done. by destruct (c =? 0).
  - apply no_nul_cons in Hn as [Hd0 Hn]. cbn [app strspn length]. destruct (Z.eqb_spec d 0); [done|].
    rewrite bool_decide_eq_true_2 by done. by rewrite IH.
Qed.

Lemma strpbrk_end tok rest : no_nul tok → Forall (.∉ delim) tok →
  strpbrk (tok ++ 0 :: rest) delim = Ret None.
Proof.
  intros Hn Ht. induction Ht as [|c tok Hc _ IH]; [done|].
  apply no_nul_cons in Hn as [Hc0 Hn]. cbn [app strpbrk]. destruct (Z.eqb_spec c 0); [done|].
  rewrite bool_decide_eq_false_2 by done. by rewrite IH.
Qed.

Lemma strpbrk_hit tok d l : no_nul tok → Forall (.∉ delim) tok → d ≠ 0 → d ∈ delim →
  strpbrk (tok ++ d :: l) delim = Ret (Some (length tok)).
Proof.
  intros Hn Ht Hd0 Hd. induction Ht as [|c tok Hc _ IH].
  - cbn [app strpbrk]. destruct (Z.eqb_spec d 0); [done|]. by rewrite bool_decide_eq_true_2.
  - apply no_nul_cons in Hn as [Hc0 Hn]. cbn [app strpbrk length]. destruct (Z.eqb_spec c 0); [done|].
    rewrite bool_decide_eq_false_2 by done. by rewrite IH.
Qed.

(** One call from a position of the array. *)
Lemma strtok_step pre l rest s save : no_nul l → default save s = length pre →
  (fields delim [] l = [] ∧ Dev_strtok_r (pre ++ l ++ 0 :: rest) s delim save = Ret (None, pre ++ l ++ 0 :: rest, save)) ∨
  (∃ tok l' pre' rest' i, fields delim [] l = tok :: fields delim [] l' ∧ no_nul l' ∧
    (length l' < length l)%nat ∧
    Dev_strtok_r (pre ++ l ++ 0 :: rest) s delim save
      = Ret (Some i, pre' ++ l' ++ 0 :: rest', length pre') ∧
    strlen (drop i (pre' ++ l' ++ 0 :: rest')) = Ret (length tok) ∧
    take (length tok) (drop i (pre' ++ l' ++ 0 :: rest')) = tok ∧
    (i + length tok ≤ length pre')%nat ∧ (length pre ≤ length pre')%nat).
Proof.
  intros Hn Hs. unfold Dev_strtok_r. rewrite Hs.
  destruct (span_exists (.∈ delim) l) as (ds & l1 & -> & Hds & Hl1).
  apply no_nul_app in Hn as [Hn1 Hn2]. rewrite <-(app_assoc ds), drop_app_length.
  rewrite (strspn_spec ds l1 rest Hn1 Hds Hl1). cbn [mbind outcome_bind]. rewrite fields_delims by done.
  assert ((length pre + length ds)%nat = length (pre ++ ds)) as -> by (by rewrite length_app).
  rewrite (app_assoc pre).
  destruct Hl1 as [->|(c & l2 & -> & Hc)].
  { left. split; [done|]. cbn [app]. by rewrite list_lookup_middle. }
  right. destruct (span_exists (.∉ delim) (c :: l2)) as (tok & l3 & E & Htok & Hl3).
  assert (tok ≠ []) as Htne.
  { intros ->. cbn [app] in E. destruct Hl3 as [->|(x & l' & -> & Hx)]; [done|].
    injection E as -> ->. by apply Hx. }
  rewrite E in *. apply no_nul_app in Hn2 as [Hn3 Hn4].
  assert ((pre ++ ds) ++ (tok ++ l3) ++ 0 :: rest = (pre ++ ds) ++ tok ++ l3 ++ 0 :: rest) as -> by (by rewrite <-!app_assoc).
  assert (∃ c', c' ≠ 0 ∧ ((pre ++ ds) ++ tok ++ l3 ++ 0 :: rest) !! length (pre ++ ds) = Some c')
    as (c' & Hc0 & ->).
  { destruct tok as [|c' tok']; [done|]. apply no_nul_cons in Hn3 as [Hc0 _].
    exists c'. split; [done|]. cbn [app]. by rewrite list_lookup_middle. }
  cbn [or_ub mbind outcome_bind]. destruct (Z.eqb_spec c' 0); [done|].
  rewrite drop_app_length, fields_run by done. change ([] ++ tok) with tok.
  assert (0 < length tok)%nat as Hpos by (destruct tok; simpl; [done|lia]).
  destruct Hl3 as [->|(d & l' & -> & Hd)]; cbn [app].
  - rewrite (strpbrk_end tok rest Hn3 Htok). cbn [mbind outcome_bind].
    rewrite strlen_spec by done. cbn [mbind outcome_bind].
    exists tok, [], ((pre ++ ds) ++ tok), rest, (length (pre ++ ds)).
    cbn [app]. rewrite <-(app_assoc (pre ++ ds)), drop_app_length, take_app_length, strlen_spec by done.
    split; [by apply fields_end|]. split; [apply not_elem_of_nil|]. split; [rewrite !length_app; simpl; lia|].
    rewrite <-length_app. split_and!; [done..| |]; rewrite ?length_app; lia.
  - assert (d ∈ delim) as Hd' by (destruct (decide (d ∈ delim)); [done|]; by exfalso; apply Hd).
    apply no_nul_cons in Hn4 as [Hd0 Hn4].
    rewrite (strpbrk_hit tok d _ Hn3 Htok Hd0 Hd'). cbn [mbind outcome_bind].
    rewrite <-length_app, (app_assoc (pre ++ ds)), store_byte_middle. cbn [mbind outcome_bind].
    exists tok, l', (((pre ++ ds) ++ tok) ++ [0]), rest, (length (pre ++ ds)).
    rewrite <-!(app_assoc ((pre ++ ds) ++ tok)). cbn [app].
    rewrite <-(app_assoc (pre ++ ds)), drop_app_length, take_app_length, strlen_spec by done.
    split; [by apply fields_stop|]. split; [done|].
    split; [rewrite !length_app; simpl; lia|]. split; [do 2 f_equal; rewrite !length_app; simpl; lia|].
    split_and!; [done..| |]; rewrite !length_app; simpl; lia.
Qed.

Lemma tokens_spec k : ∀ l pre rest s save fuel, (length l ≤ k)%nat → (k < fuel)%nat → no_nul l →
  default save s = length pre → tokens fuel (pre ++ l ++ 0 :: rest) s delim save = Ret (fields delim [] l).
Proof.
  induction k as [|k IH]; intros l pre rest s save [|fuel] Hk Hf Hn Hs; try lia;
    destruct (strtok_step pre l rest s save Hn Hs) as
      [[-> E]|(tok & l' & pre' & rest' & i & -> & Hn' & Hl' & E & Hlen & Htok & _)];
    cbn [tokens]; rewrite E; cbn [mbind outcome_bind]; try done; [lia|].
  rewrite Hlen. cbn [mbind outcome_bind]. rewrite (IH l' pre' rest' None (length pre')) by (done || lia).
  cbn [mbind outcome_bind]. by rewrite Htok.
Qed.
End Tokens.

(** Calling [Dev_strtok_r] until it returns null yields the maximal runs of
    characters that are not delimiters, in order; it terminates and stays
    within the array. *)
Theorem Dev_strtok_r_fields (delim l rest : list Z) (save : nat) : no_nul l →
  tokens (S (length l)) (l ++ 0 :: rest) (Some 0%nat) delim save = Ret (fields delim [] l).
Proof. intros Hl. apply (tokens_spec delim (length l) l []); (done || lia). Qed.

Lemma Dev_strtok_r_fields_witness :
  tokens 12 [45; 97; 98; 99; 45; 61; 45; 100; 101; 102; 0] (Some 0%nat) [45; 61] 0
  = Ret [[97; 98; 99]; [100; 101; 102]].
Proof.
  pose proof (Dev_strtok_r_fields [45; 61] [45; 97; 98; 99; 45; 61; 45; 100; 101; 102] [] 0%nat) as E.
  apply E. apply (bool_decide_unpack _). by vm_compute.
Defined.
