(* ===== verification/DevVerified.v ===== *)
(** * Checksums

    Model of [src/mivifwk/odm/plugins/qcom/ldc/device/dev_verified.cpp]: the
    table-driven CRC-16 (polynomial 0x1021, most significant bit first) and
    CRC-32 (polynomial 0x04C11DB7 reflected), against the bit-by-bit division
    they implement.  A buffer is the list of bytes at the pointer; reading past
    its end is undefined behaviour. *)
From S2P Require Import Prelude DevTypes.
#[local] Open Scope Z_scope.

(** @src src/mivifwk/odm/plugins/qcom/ldc/device/dev_verified.cpp:17-50 crc16tab *)
Definition crc16tab : list Z := [
  0x0000; 0x1021; 0x2042; 0x3063; 0x4084; 0x50a5; 0x60c6; 0x70e7;
  0x8108; 0x9129; 0xa14a; 0xb16b; 0xc18c; 0xd1ad; 0xe1ce; 0xf1ef;
  0x1231; 0x0210; 0x3273; 0x2252; 0x52b5; 0x4294; 0x72f7; 0x62d6;
  0x9339; 0x8318; 0xb37b; 0xa35a; 0xd3bd; 0xc39c; 0xf3ff; 0xe3de;
  0x2462; 0x3443; 0x0420; 0x1401; 0x64e6; 0x74c7; 0x44a4; 0x5485;
  0xa56a; 0xb54b; 0x8528; 0x9509; 0xe5ee; 0xf5cf; 0xc5ac; 0xd58d;
  0x3653; 0x2672; 0x1611; 0x0630; 0x76d7; 0x66f6; 0x5695; 0x46b4;
  0xb75b; 0xa77a; 0x9719; 0x8738; 0xf7df; 0xe7fe; 0xd79d; 0xc7bc;
  0x48c4; 0x58e5; 0x6886; 0x78a7; 0x0840; 0x1861; 0x2802; 0x3823;
  0xc9cc; 0xd9ed; 0xe98e; 0xf9af; 0x8948; 0x9969; 0xa90a; 0xb92b;
  0x5af5; 0x4ad4; 0x7ab7; 0x6a96; 0x1a71; 0x0a50; 0x3a33; 0x2a12;
  0xdbfd; 0xcbdc; 0xfbbf; 0xeb9e; 0x9b79; 0x8b58; 0xbb3b; 0xab1a;
  0x6ca6; 0x7c87; 0x4ce4; 0x5cc5; 0x2c22; 0x3c03; 0x0c60; 0x1c41;
  0xedae; 0xfd8f; 0xcdec; 0xddcd; 0xad2a; 0xbd0b; 0x8d68; 0x9d49;
  0x7e97; 0x6eb6; 0x5ed5; 0x4ef4; 0x3e13; 0x2e32; 0x1e51; 0x0e70;
  0xff9f; 0xefbe; 0xdfdd; 0xcffc; 0xbf1b; 0xaf3a; 0x9f59; 0x8f78;
  0x9188; 0x81a9; 0xb1ca; 0xa1eb; 0xd10c; 0xc12d; 0xf14e; 0xe16f;
  0x1080; 0x00a1; 0x30c2; 0x20e3; 0x5004; 0x4025; 0x7046; 0x6067;
  0x83b9; 0x9398; 0xa3fb; 0xb3da; 0xc33d; 0xd31c; 0xe37f; 0xf35e;
  0x02b1; 0x1290; 0x22f3; 0x32d2; 0x4235; 0x5214; 0x6277; 0x7256;
  0xb5ea; 0xa5cb; 0x95a8; 0x8589; 0xf56e; 0xe54f; 0xd52c; 0xc50d;
  0x34e2; 0x24c3; 0x14a0; 0x0481; 0x7466; 0x6447; 0x5424; 0x4405;
  0xa7db; 0xb7fa; 0x8799; 0x97b8; 0xe75f; 0xf77e; 0xc71d; 0xd73c;
  0x26d3; 0x36f2; 0x0691; 0x16b0; 0x6657; 0x7676; 0x4615; 0x5634;
  0xd94c; 0xc96d; 0xf90e; 0xe92f; 0x99c8; 0x89e9; 0xb98a; 0xa9ab;
  0x5844; 0x4865; 0x7806; 0x6827; 0x18c0; 0x08e1; 0x3882; 0x28a3;
  0xcb7d; 0xdb5c; 0xeb3f; 0xfb1e; 0x8bf9; 0x9bd8; 0xabbb; 0xbb9a;
  0x4a75; 0x5a54; 0x6a37; 0x7a16; 0x0af1; 0x1ad0; 0x2ab3; 0x3a92;
  0xfd2e; 0xed0f; 0xdd6c; 0xcd4d; 0xbdaa; 0xad8b; 0x9de8; 0x8dc9;
  0x7c26; 0x6c07; 0x5c64; 0x4c45; 0x3ca2; 0x2c83; 0x1ce0; 0x0cc1;
  0xef1f; 0xff3e; 0xcf5d; 0xdf7c; 0xaf9b; 0xbfba; 0x8fd9; 0x9ff8;
  0x6e17; 0x7e36; 0x4e55; 0x5e74; 0x2e93; 0x3eb2; 0x0ed1; 0x1ef0].

(** @src src/mivifwk/odm/plugins/qcom/ldc/device/dev_verified.cpp:52-96 crc32tab *)
Definition crc32tab : list Z := [
  0x00000000; 0x77073096; 0xee0e612c; 0x990951ba; 0x076dc419; 0x706af48f;
  0xe963a535; 0x9e6495a3; 0x0edb8832; 0x79dcb8a4; 0xe0d5e91e; 0x97d2d988;
  0x09b64c2b; 0x7eb17cbd; 0xe7b82d07; 0x90bf1d91; 0x1db71064; 0x6ab020f2;
  0xf3b97148; 0x84be41de; 0x1adad47d; 0x6ddde4eb; 0xf4d4b551; 0x83d385c7;
  0x136c9856; 0x646ba8c0; 0xfd62f97a; 0x8a65c9ec; 0x14015c4f; 0x63066cd9;
  0xfa0f3d63; 0x8d080df5; 0x3b6e20c8; 0x4c69105e; 0xd56041e4; 0xa2677172;
  0x3c03e4d1; 0x4b04d447; 0xd20d85fd; 0xa50ab56b; 0x35b5a8fa; 0x42b2986c;
  0xdbbbc9d6; 0xacbcf940; 0x32d86ce3; 0x45df5c75; 0xdcd60dcf; 0xabd13d59;
  0x26d930ac; 0x51de003a; 0xc8d75180; 0xbfd06116; 0x21b4f4b5; 0x56b3c423;
  0xcfba9599; 0xb8bda50f; 0x2802b89e; 0x5f058808; 0xc60cd9b2; 0xb10be924;
  0x2f6f7c87; 0x58684c11; 0xc1611dab; 0xb6662d3d; 0x76dc4190; 0x01db7106;
  0x98d220bc; 0xefd5102a; 0x71b18589; 0x06b6b51f; 0x9fbfe4a5; 0xe8b8d433;
  0x7807c9a2; 0x0f00f934; 0x9609a88e; 0xe10e9818; 0x7f6a0dbb; 0x086d3d2d;
  0x91646c97; 0xe6635c01; 0x6b6b51f4; 0x1c6c6162; 0x856530d8; 0xf262004e;
  0x6c0695ed; 0x1b01a57b; 0x8208f4c1; 0xf50fc457; 0x65b0d9c6; 0x12b7e950;
  0x8bbeb8ea; 0xfcb9887c; 0x62dd1ddf; 0x15da2d49; 0x8cd37cf3; 0xfbd44c65;
  0x4db26158; 0x3ab551ce; 0xa3bc0074; 0xd4bb30e2; 0x4adfa541; 0x3dd895d7;
  0xa4d1c46d; 0xd3d6f4fb; 0x4369e96a; 0x346ed9fc; 0xad678846; 0xda60b8d0;
  0x44042d73; 0x33031de5; 0xaa0a4c5f; 0xdd0d7cc9; 0x5005713c; 0x270241aa;
  0xbe0b1010; 0xc90c2086; 0x5768b525; 0x206f85b3; 0xb966d409; 0xce61e49f;
  0x5edef90e; 0x29d9c998; 0xb0d09822; 0xc7d7a8b4; 0x59b33d17; 0x2eb40d81;
  0xb7bd5c3b; 0xc0ba6cad; 0xedb88320; 0x9abfb3b6; 0x03b6e20c; 0x74b1d29a;
  0xead54739; 0x9dd277af; 0x04db2615; 0x73dc1683; 0xe3630b12; 0x94643b84;
  0x0d6d6a3e; 0x7a6a5aa8; 0xe40ecf0b; 0x9309ff9d; 0x0a00ae27; 0x7d079eb1;
  0xf00f9344; 0x8708a3d2; 0x1e01f268; 0x6906c2fe; 0xf762575d; 0x806567cb;
  0x196c3671; 0x6e6b06e7; 0xfed41b76; 0x89d32be0; 0x10da7a5a; 0x67dd4acc;
  0xf9b9df6f; 0x8ebeeff9; 0x17b7be43; 0x60b08ed5; 0xd6d6a3e8; 0xa1d1937e;
  0x38d8c2c4; 0x4fdff252; 0xd1bb67f1; 0xa6bc5767; 0x3fb506dd; 0x48b2364b;
  0xd80d2bda; 0xaf0a1b4c; 0x36034af6; 0x41047a60; 0xdf60efc3; 0xa867df55;
  0x316e8eef; 0x4669be79; 0xcb61b38c; 0xbc66831a; 0x256fd2a0; 0x5268e236;
  0xcc0c7795; 0xbb0b4703; 0x220216b9; 0x5505262f; 0xc5ba3bbe; 0xb2bd0b28;
  0x2bb45a92; 0x5cb36a04; 0xc2d7ffa7; 0xb5d0cf31; 0x2cd99e8b; 0x5bdeae1d;
  0x9b64c2b0; 0xec63f226; 0x756aa39c; 0x026d930a; 0x9c0906a9; 0xeb0e363f;
  0x72076785; 0x05005713; 0x95bf4a82; 0xe2b87a14; 0x7bb12bae; 0x0cb61b38;
  0x92d28e9b; 0xe5d5be0d; 0x7cdcefb7; 0x0bdbdf21; 0x86d3d2d4; 0xf1d4e242;
  0x68ddb3f8; 0x1fda836e; 0x81be16cd; 0xf6b9265b; 0x6fb077e1; 0x18b74777;
  0x88085ae6; 0xff0f6a70; 0x66063bca; 0x11010b5c; 0x8f659eff; 0xf862ae69;
  0x616bffd3; 0x166ccf45; 0xa00ae278; 0xd70dd2ee; 0x4e048354; 0x3903b3c2;
  0xa7672661; 0xd06016f7; 0x4969474d; 0x3e6e77db; 0xaed16a4a; 0xd9d65adc;
  0x40df0b66; 0x37d83bf0; 0xa9bcae53; 0xdebb9ec5; 0x47b2cf7f; 0x30b5ffe9;
  0xbdbdf21c; 0xcabac28a; 0x53b39330; 0x24b4a3a6; 0xbad03605; 0xcdd70693;
  0x54de5729; 0x23d967bf; 0xb3667a2e; 0xc4614ab8; 0x5d681b02; 0x2a6f2b94;
  0xb40bbe37; 0xc30c8ea1; 0x5a05df1b; 0x2d02ef8d].

(** @src src/mivifwk/odm/plugins/qcom/ldc/device/dev_verified.cpp:102-102 DevVerified_Crc16 (one byte) *)
Definition crc16_step (crc b : Z) : outcome Z :=
  t ← or_ub (crc16tab !! Z.to_nat (Z.land (Z.lxor (Z.shiftr crc 8) b) 0x00FF));
  Ret (u16 (Z.lxor (Z.shiftl crc 8) t)).

(** @src src/mivifwk/odm/plugins/qcom/ldc/device/dev_verified.cpp:112-112 DevVerified_Crc32 (one byte) *)
Definition crc32_step (crc b : Z) : outcome Z :=
  t ← or_ub (crc32tab !! Z.to_nat (Z.land (Z.lxor crc b) 0xFF));
  Ret (Z.lxor t (Z.shiftr crc 8)).

(** [k] bytes from the pointer on. *)
Fixpoint crc_loop (step : Z → Z → outcome Z) (k : nat) (buf : list Z) (crc : Z) : outcome Z :=
  match k, buf with
  | O, _ => Ret crc
  | S _, [] => UB
  | S k', b :: buf' => crc ← step crc b; crc_loop step k' buf' crc
  end.

(** @src src/mivifwk/odm/plugins/qcom/ldc/device/dev_verified.cpp:98-104 DevVerified_Crc16 *)
Definition DevVerified_Crc16 (buf : list Z) (size p_crc : Z) : outcome Z :=
  crc_loop crc16_step (Z.to_nat size) buf p_crc.

(** @src src/mivifwk/odm/plugins/qcom/ldc/device/dev_verified.cpp:106-115 DevVerified_Crc32 *)
Definition DevVerified_Crc32 (buf : list Z) (size p_crc : Z) : outcome Z :=
  crc ← crc_loop crc32_step (Z.to_nat size) buf (Z.lxor p_crc 0xFFFFFFFF);
  Ret (Z.lxor crc 0xFFFFFFFF).

(** ** The reference: division bit by bit *)

Definition crc16_bit (x : Z) : Z :=
  Z.lxor ((2 * x) mod 2 ^ 16) (if Z.testbit x 15 then 0x1021 else 0).

Definition crc32_bit (x : Z) : Z :=
  Z.lxor (x / 2) (if Z.odd x then 0xEDB88320 else 0).

(** A byte enters at the top of the CRC-16 register, at the bottom of the
    reflected CRC-32 register. *)
Definition crc16_byte (crc b : Z) : Z := Nat.iter 8 crc16_bit (Z.lxor crc (Z.shiftl b 8)).
Definition crc32_byte (crc b : Z) : Z := Nat.iter 8 crc32_bit (Z.lxor crc b).

Definition crc16 (init : Z) (msg : list Z) : Z := foldl crc16_byte init msg.
Definition crc32 (init : Z) (msg : list Z) : Z :=
  Z.lxor (foldl crc32_byte (Z.lxor init 0xFFFFFFFF) msg) 0xFFFFFFFF.

(** ** Linear maps on words *)

Lemma lxor_range w x y : 0 ≤ w → 0 ≤ x < 2 ^ w → 0 ≤ y < 2 ^ w → 0 ≤ Z.lxor x y < 2 ^ w.
Proof.
  intros Hw Hx Hy. assert (0 ≤ Z.lxor x y) as Hn by (apply Z.lxor_nonneg; lia). split; [done|].
  destruct (decide (Z.lxor x y = 0)) as [->|]; [by apply Z.pow_pos_nonneg|].
  apply Z.log2_lt_pow2; [lia|].
  destruct (decide (w = 0)) as [->|]; [simpl in *; assert (x = 0 ∧ y = 0) as [-> ->] by lia; done|].
  eapply Z.le_lt_trans; [apply Z.log2_lxor; lia|]. apply Z.max_lub_lt.
  - destruct (decide (x = 0)) as [->|]; [simpl; lia|apply Z.log2_lt_pow2; lia].
  - destruct (decide (y = 0)) as [->|]; [simpl; lia|apply Z.log2_lt_pow2; lia].
Qed.

Lemma lxor_cancel_r x y z : Z.lxor x z = Z.lxor y z → x = y.
Proof.
  intros E. rewrite <-(Z.lxor_0_r x), <-(Z.lxor_0_r y), <-(Z.lxor_nilpotent z), <-!Z.lxor_assoc.
  by rewrite E.
Qed.

Lemma lxor_if (b c : bool) p :
  Z.lxor (if b then p else 0) (if c then p else 0) = if xorb b c then p else 0.
Proof. destruct b, c; rewrite ?Z.lxor_nilpotent, ?Z.lxor_0_r, ?Z.lxor_0_l; done. Qed.

Lemma lxor_shuffle a b c d :
  Z.lxor (Z.lxor a b) (Z.lxor c d) = Z.lxor (Z.lxor a c) (Z.lxor b d).
Proof. apply Z.bits_inj'. intros n _. rewrite !Z.lxor_spec. by destruct (Z.testbit a n), (Z.testbit b n), (Z.testbit c n), (Z.testbit d n). Qed.

Lemma crc16_bit_linear x y : crc16_bit (Z.lxor x y) = Z.lxor (crc16_bit x) (crc16_bit y).
Proof.
  unfold crc16_bit. rewrite lxor_shuffle, lxor_if, Z.lxor_spec. f_equal.
  assert (∀ z, (2 * z) mod 2 ^ 16 = Z.land (Z.shiftl z 1) (Z.ones 16)) as E
    by (intros z; rewrite Z.land_ones, Z.shiftl_mul_pow2 by lia; f_equal; lia).
  rewrite !E, Z.shiftl_lxor. apply Z.bits_inj'. intros n _.
  rewrite !Z.land_spec, !Z.lxor_spec, !Z.land_spec.
  by repeat match goal with |- context [Z.testbit ?a n] => destruct (Z.testbit a n) end.
Qed.

Lemma crc32_bit_linear x y : crc32_bit (Z.lxor x y) = Z.lxor (crc32_bit x) (crc32_bit y).
Proof.
  unfold crc32_bit. rewrite lxor_shuffle, lxor_if, <-!Z.bit0_odd, Z.lxor_spec. f_equal.
  rewrite <-!Z.div2_div, !Z.div2_spec. apply Z.shiftr_lxor.
Qed.

Lemma iter_linear f k : (∀ x y, f (Z.lxor x y) = Z.lxor (f x) (f y)) →
  ∀ x y, Nat.iter k f (Z.lxor x y) = Z.lxor (Nat.iter k f x) (Nat.iter k f y).
Proof. intros Hf x y. induction k as [|k IH]; simpl; [done|]. by rewrite IH, Hf. Qed.

(** ** The tables *)

Lemma byte_decide (P : Z → Prop) `{∀ z, Decision (P z)} b :
  forallb (λ z, bool_decide (P z)) (seqZ 0 256) = true → is_byte b → P b.
Proof. intros Hall Hb. pose proof (byte_forall _ b Hall Hb) as Hp. by apply bool_decide_eq_true in Hp. Qed.

Lemma crc16tab_spec i : is_byte i →
  crc16tab !! Z.to_nat i = Some (Nat.iter 8 crc16_bit (Z.shiftl i 8)).
Proof. revert i. refine (λ i, byte_decide (λ i, _ = _) i _). by vm_compute. Qed.

Lemma crc32tab_spec i : is_byte i → crc32tab !! Z.to_nat i = Some (Nat.iter 8 crc32_bit i).
Proof. revert i. refine (λ i, byte_decide (λ i, _ = _) i _). by vm_compute. Qed.

(** A byte at the bottom of the CRC-16 register moves up unchanged; the upper
    bytes of the CRC-32 register move down. *)
Lemma crc16_low i : is_byte i → Nat.iter 8 crc16_bit i = Z.shiftl i 8.
Proof. revert i. refine (λ i, byte_decide (λ i, _ = _) i _). by vm_compute. Qed.

Lemma crc32_bit_even x : crc32_bit (2 * x) = x.
Proof.
  unfold crc32_bit. rewrite Z.odd_mul. simpl. rewrite Z.lxor_0_r, Z.mul_comm. by apply Z.div_mul.
Qed.

Lemma crc32_high x : Nat.iter 8 crc32_bit (Z.shiftl x 8) = x.
Proof.
  rewrite Z.shiftl_mul_pow2 by lia.
  replace (x * 2 ^ 8) with (2 * (2 * (2 * (2 * (2 * (2 * (2 * (2 * x)))))))) by lia.
  cbn [Nat.iter nat_rect]. by rewrite !crc32_bit_even.
Qed.

(** ** One byte *)

Lemma land_255_byte x : is_byte (Z.land x 0xFF).
Proof. change 0xFF with (Z.ones 8). rewrite Z.land_ones by lia. apply (Z.mod_pos_bound x 256). lia. Qed.

Lemma byte_land x : is_byte x → Z.land x 0xFF = x.
Proof. intros Hx. change 0xFF with (Z.ones 8). rewrite Z.land_ones by lia. by apply Z.mod_small. Qed.

(** The low and the high part of a word. *)
Lemma split_word x : x = Z.lxor (Z.shiftl (Z.shiftr x 8) 8) (Z.land x 0xFF).
Proof.
  change 0xFF with (Z.ones 8). apply Z.bits_inj'. intros n Hn.
  rewrite Z.lxor_spec, Z.land_spec, Z.shiftl_spec by lia.
  destruct (Z_lt_ge_dec n 8).
  - rewrite (Z.testbit_neg_r _ (n - 8)), Z.ones_spec_low by lia. by rewrite andb_true_r.
  - rewrite Z.shiftr_spec, Z.ones_spec_high by lia. rewrite andb_false_r, xorb_false_r. f_equal. lia.
Qed.

Lemma crc16_byte_step crc b : 0 ≤ crc < 2 ^ 16 → is_byte b → crc16_step crc b = Ret (crc16_byte crc b).
Proof.
  intros Hc Hb. unfold crc16_step, crc16_byte.
  set (i := Z.lxor (Z.shiftr crc 8) b).
  assert (is_byte i) as Hi.
  { apply (lxor_range 8); [lia| |exact Hb]. rewrite Z.shiftr_div_pow2 by lia. split.
    - apply Z.div_pos; lia.
    - apply Z.div_lt_upper_bound; lia. }
  change 0x00FF with 0xFF. rewrite (byte_land i Hi), (crc16tab_spec i Hi). cbn [or_ub mbind outcome_bind].
  f_equal. replace (Z.lxor crc (Z.shiftl b 8)) with (Z.lxor (Z.shiftl i 8) (Z.land crc 0xFF)).
  2: { rewrite (split_word crc) at 2. unfold i. rewrite Z.shiftl_lxor, !Z.lxor_assoc. f_equal. apply Z.lxor_comm. }
  rewrite (iter_linear _ 8 crc16_bit_linear), (crc16_low _ (land_255_byte crc)), (Z.lxor_comm (Nat.iter _ _ _)).
  assert (0 ≤ Nat.iter 8 crc16_bit (Z.shiftl i 8) < 2 ^ 16) as Hr.
  { revert Hi. apply (byte_decide (λ i, 0 ≤ Nat.iter 8 crc16_bit (Z.shiftl i 8) < 2 ^ 16)). by vm_compute. }
  revert Hr. generalize (Nat.iter 8 crc16_bit (Z.shiftl i 8)) as t. intros t Ht.
  unfold wrapu. rewrite <-Z.land_ones by lia. apply Z.bits_inj'. intros n Hn.
  rewrite Z.land_spec, !Z.lxor_spec, !Z.shiftl_spec, Z.land_spec by lia. change 0xFF with (Z.ones 8).
  destruct (Z_lt_ge_dec n 16).
  - rewrite (Z.ones_spec_low 16), andb_true_r by lia. f_equal. destruct (Z_lt_ge_dec n 8).
    + by rewrite !Z.testbit_neg_r by lia.
    + by rewrite Z.ones_spec_low, andb_true_r by lia.
  - rewrite (Z.ones_spec_high 16), (Z.ones_spec_high 8), !andb_false_r by lia.
    rewrite (Z.bits_above_log2 t); [done|lia|].
    destruct (decide (t = 0)) as [->|]; [simpl; lia|]. eapply Z.lt_le_trans; [apply (proj1 (Z.log2_lt_pow2 t 16 ltac:(lia))); lia|lia].
Qed.

Lemma crc32_byte_step crc b : 0 ≤ crc → is_byte b → crc32_step crc b = Ret (crc32_byte crc b).
Proof.
  intros Hc Hb. unfold crc32_step, crc32_byte.
  pose proof (land_255_byte (Z.lxor crc b)) as Hi.
  rewrite (crc32tab_spec _ Hi). cbn [or_ub mbind outcome_bind]. f_equal.
  rewrite (split_word (Z.lxor crc b)) at 2. rewrite (iter_linear _ 8 crc32_bit_linear), crc32_high.
  rewrite Z.lxor_comm. f_equal. rewrite Z.shiftr_lxor.
  assert (Z.shiftr b 8 = 0) as ->; [|by rewrite Z.lxor_0_r].
  rewrite Z.shiftr_div_pow2 by lia. apply Z.div_small. exact Hb.
Qed.

(** ** Ranges and injectivity *)

Lemma crc16_bit_range x : 0 ≤ crc16_bit x < 2 ^ 16.
Proof.
  unfold crc16_bit. apply lxor_range; [lia|by apply Z.mod_pos_bound|]. destruct (Z.testbit x 15); lia.
Qed.

Lemma crc32_bit_range x : 0 ≤ x < 2 ^ 32 → 0 ≤ crc32_bit x < 2 ^ 32.
Proof.
  intros Hx. unfold crc32_bit. apply lxor_range; [lia| |destruct (Z.odd x); lia].
  split; [apply Z.div_pos; lia|apply Z.div_lt_upper_bound; lia].
Qed.

Lemma iter_range f k (R : Z → Prop) x : (∀ y, R y → R (f y)) → R x → R (Nat.iter k f x).
Proof. intros Hf Hx. induction k as [|k IH]; simpl; auto. Qed.

Lemma crc16_byte_range crc b : 0 ≤ crc16_byte crc b < 2 ^ 16.
Proof. apply crc16_bit_range. Qed.

Lemma crc32_byte_range crc b : 0 ≤ crc < 2 ^ 32 → is_byte b → 0 ≤ crc32_byte crc b < 2 ^ 32.
Proof.
  intros Hc Hb. apply (iter_range crc32_bit 8 (λ y, 0 ≤ y < 2 ^ 32)); [apply crc32_bit_range|].
  apply lxor_range; [lia|done|]. unfold is_byte in Hb. lia.
Qed.

(** One bit of division loses nothing: the bit that leaves decides the parity
    (the sign) of the result. *)
Lemma crc16_bit_inj x y : 0 ≤ x < 2 ^ 16 → 0 ≤ y < 2 ^ 16 → crc16_bit x = crc16_bit y → x = y.
Proof.
  intros Hx Hy E.
  assert (∀ z, 0 ≤ z < 2 ^ 16 → Z.testbit z 15 = (2 ^ 15 <=? z)) as Ht.
  { intros z Hz. rewrite Z.testbit_odd, Z.shiftr_div_pow2 by lia. destruct (Z.leb_spec (2 ^ 15) z).
    - replace (z / 2 ^ 15) with 1; [done|]. apply (Z.div_unique z (2 ^ 15) 1 (z - 2 ^ 15)); lia.
    - by rewrite Z.div_small by lia. }
  assert (∀ z, 0 ≤ z < 2 ^ 16 → Z.odd (crc16_bit z) = Z.testbit z 15) as Hodd.
  { intros z Hz. unfold crc16_bit. rewrite <-Z.bit0_odd, Z.lxor_spec, Z.mod_pow2_bits_low by lia.
    rewrite (Z.testbit_even_0 z). by destruct (Z.testbit z 15). }
  pose proof (Hodd x Hx) as Ox. pose proof (Hodd y Hy) as Oy. rewrite E, Oy in Ox.
  unfold crc16_bit in E. rewrite Ox in E. apply lxor_cancel_r in E. rewrite !Ht in Ox by done.
  destruct (Z.leb_spec (2 ^ 15) x), (Z.leb_spec (2 ^ 15) y); try done.
  - rewrite <-(Z.mod_unique (2 * x) (2 ^ 16) 1 (2 * x - 2 ^ 16)),
      <-(Z.mod_unique (2 * y) (2 ^ 16) 1 (2 * y - 2 ^ 16)) in E by lia. lia.
  - rewrite !Z.mod_small in E by lia. lia.
Qed.

Lemma crc32_bit_inj x y : 0 ≤ x < 2 ^ 32 → 0 ≤ y < 2 ^ 32 → crc32_bit x = crc32_bit y → x = y.
Proof.
  intros Hx Hy E.
  assert (∀ z, 0 ≤ z < 2 ^ 32 → Z.testbit (crc32_bit z) 31 = Z.odd z) as Ht.
  { intros z Hz. unfold crc32_bit. rewrite Z.lxor_spec.
    assert (Z.testbit (z / 2) 31 = false) as ->; [|by destruct (Z.odd z)].
    rewrite Z.testbit_odd, Z.shiftr_div_pow2 by lia. rewrite Z.div_small; [done|].
    split; [apply Z.div_pos; lia|apply Z.div_lt_upper_bound; lia]. }
  pose proof (Ht x Hx) as Ox. pose proof (Ht y Hy) as Oy. rewrite E, Oy in Ox.
  unfold crc32_bit in E. rewrite Ox in E. apply lxor_cancel_r in E.
  rewrite (Z.div_mod x 2), (Z.div_mod y 2), E, !Zmod_odd, Ox by lia. done.
Qed.

Lemma iter_inj f k (R : Z → Prop) : (∀ y, R y → R (f y)) →
  (∀ x y, R x → R y → f x = f y → x = y) →
  ∀ x y, R x → R y → Nat.iter k f x = Nat.iter k f y → x = y.
Proof.
  intros Hr Hf x y Hx Hy. induction k as [|k IH]; simpl; [done|]. intros E.
  apply IH, Hf; [by apply iter_range|by apply iter_range|done].
Qed.

Lemma crc16_byte_inj s s' b b' : 0 ≤ s < 2 ^ 16 → 0 ≤ s' < 2 ^ 16 → is_byte b → is_byte b' →
  crc16_byte s b = crc16_byte s' b' → Z.lxor s (Z.shiftl b 8) = Z.lxor s' (Z.shiftl b' 8).
Proof.
  intros Hs Hs' Hb Hb'. unfold is_byte in *.
  apply (iter_inj crc16_bit 8 (λ y, 0 ≤ y < 2 ^ 16)); [intros; apply crc16_bit_range|apply crc16_bit_inj| |];
    (apply lxor_range; [lia|done|]; rewrite Z.shiftl_mul_pow2 by lia; lia).
Qed.

Lemma crc32_byte_inj s s' b b' : 0 ≤ s < 2 ^ 32 → 0 ≤ s' < 2 ^ 32 → is_byte b → is_byte b' →
  crc32_byte s b = crc32_byte s' b' → Z.lxor s b = Z.lxor s' b'.
Proof.
  intros Hs Hs' Hb Hb'. unfold is_byte in *.
  apply (iter_inj crc32_bit 8 (λ y, 0 ≤ y < 2 ^ 32)); [apply crc32_bit_range|apply crc32_bit_inj| |];
    (apply lxor_range; [lia|done|]; lia).
Qed.

(** ** The functions *)

Section Fold.
Context (step : Z → Z → outcome Z) (byte : Z → Z → Z) (R : Z → Prop).
Context (Hstep : ∀ s b, R s → is_byte b → step s b = Ret (byte s b) ∧ R (byte s b)).

Lemma foldl_range buf s : R s → Forall is_byte buf → R (foldl byte s buf).
Proof. intros Hs Hb. revert s Hs. induction Hb as [|b buf Hb _ IH]; intros s Hs; [done|]. by apply IH, Hstep. Qed.

Lemma crc_loop_fold k buf s : R s → Forall is_byte buf →
  crc_loop step k buf s = if decide (k ≤ length buf)%nat then Ret (foldl byte s (take k buf)) else UB.
Proof.
  intros Hs Hb. revert k s Hs. induction Hb as [|b buf Hb _ IH]; intros [|k] s Hs; cbn [crc_loop length take foldl].
  - done.
  - by rewrite decide_False by lia.
  - by rewrite decide_True by lia.
  - destruct (Hstep s b Hs Hb) as [-> Hs']. cbn [mbind outcome_bind]. rewrite IH by done.
    destruct (decide (k ≤ length buf)%nat), (decide (S k ≤ S (length buf))%nat); try done; lia.
Qed.

(** Two messages that part in one byte never meet again. *)
Lemma foldl_inj buf s s' : (∀ s s' b, R s → R s' → is_byte b → byte s b = byte s' b → s = s') →
  R s → R s' → Forall is_byte buf → foldl byte s buf = foldl byte s' buf → s = s'.
Proof.
  intros Hinj Hs Hs' Hb. revert s s' Hs Hs'. induction Hb as [|b buf Hb _ IH]; intros s s' Hs Hs' E; [done|].
  apply (Hinj s s' b Hs Hs' Hb), IH; [by apply Hstep|by apply Hstep|done].
Qed.
End Fold.

Lemma crc16_ok s b : 0 ≤ s < 2 ^ 16 → is_byte b →
  crc16_step s b = Ret (crc16_byte s b) ∧ 0 ≤ crc16_byte s b < 2 ^ 16.
Proof. intros Hs Hb. split; [by apply crc16_byte_step|apply crc16_byte_range]. Qed.

Lemma crc32_ok s b : 0 ≤ s < 2 ^ 32 → is_byte b →
  crc32_step s b = Ret (crc32_byte s b) ∧ 0 ≤ crc32_byte s b < 2 ^ 32.
Proof. intros Hs Hb. split; [by apply crc32_byte_step; [lia|]|by apply crc32_byte_range]. Qed.

(** On every buffer the table-driven CRC-16 is the remainder that bit-by-bit
    division computes; a [size] beyond the buffer is an overrun. *)
Theorem DevVerified_Crc16_reference (buf : list Z) (size p_crc : Z) :
  Forall is_byte buf → 0 ≤ size → 0 ≤ p_crc < 2 ^ 16 →
  DevVerified_Crc16 buf size p_crc =
    if decide (size ≤ Z.of_nat (length buf)) then Ret (crc16 p_crc (take (Z.to_nat size) buf)) else UB.
Proof.
  intros Hb Hs Hp. unfold DevVerified_Crc16, crc16.
  rewrite (crc_loop_fold crc16_step crc16_byte (λ s, 0 ≤ s < 2 ^ 16) crc16_ok) by done.
  destruct (decide (Z.to_nat size ≤ length buf)%nat), (decide (size ≤ Z.of_nat (length buf))); done || lia.
Qed.

Lemma mask_range p : 0 ≤ p < 2 ^ 32 → 0 ≤ Z.lxor p 0xFFFFFFFF < 2 ^ 32.
Proof. intros Hp. apply lxor_range; lia. Qed.

(** C30. On every buffer the table-driven CRC-32 is the inverted remainder of reflected bit-by-bit
    division by 0xEDB88320; a size beyond the buffer is an overrun. *)
Theorem DevVerified_Crc32_reference (buf : list Z) (size p_crc : Z) :
  Forall is_byte buf → 0 ≤ size → 0 ≤ p_crc < 2 ^ 32 →
  DevVerified_Crc32 buf size p_crc =
    if decide (size ≤ Z.of_nat (length buf)) then Ret (crc32 p_crc (take (Z.to_nat size) buf)) else UB.
Proof.
  intros Hb Hs Hp. unfold DevVerified_Crc32, crc32.
  rewrite (crc_loop_fold crc32_step crc32_byte (λ s, 0 ≤ s < 2 ^ 32) crc32_ok) by (done || by apply mask_range).
  destruct (decide (Z.to_nat size ≤ length buf)%nat), (decide (size ≤ Z.of_nat (length buf))); done || lia.
Qed.

(** Both checksums detect every change that is confined to one byte. *)
Theorem DevVerified_detects_byte (pre post : list Z) (x y p : Z) :
  Forall is_byte pre → Forall is_byte post → is_byte x → is_byte y → x ≠ y → 0 ≤ p < 2 ^ 16 →
  let n := Z.of_nat (length pre + S (length post)) in
  (∃ c c', DevVerified_Crc16 (pre ++ x :: post) n p = Ret c ∧
    DevVerified_Crc16 (pre ++ y :: post) n p = Ret c' ∧ c ≠ c') ∧
  (∃ c c', DevVerified_Crc32 (pre ++ x :: post) n p = Ret c ∧
    DevVerified_Crc32 (pre ++ y :: post) n p = Ret c' ∧ c ≠ c').
Proof.
  intros Hpre Hpost Hx Hy Hne Hp n.
  assert (∀ z, n = Z.of_nat (length (pre ++ z :: post))) as Hn by (intros z; by rewrite length_app).
  assert (∀ z, take (Z.to_nat n) (pre ++ z :: post) = pre ++ z :: post) as Htk
    by (intros z; rewrite (Hn z), Nat2Z.id; apply firstn_all).
  assert (∀ z, is_byte z → Forall is_byte (pre ++ z :: post)) as Hall
    by (intros z Hz; by apply Forall_app; split; [|constructor]).
  split; do 2 eexists.
  - rewrite !DevVerified_Crc16_reference by (auto || lia || apply Hall; done).
    rewrite !decide_True by (rewrite <-Hn; lia). rewrite !Htk. split; [done|]. split; [done|].
    unfold crc16. rewrite !foldl_app. cbn [foldl]. intros E. apply Hne.
    set (s := foldl crc16_byte p pre) in *.
    assert (0 ≤ s < 2 ^ 16) as Hs by exact (foldl_range _ _ _ crc16_ok pre p Hp Hpre).
    apply (foldl_inj crc16_step crc16_byte _ crc16_ok) in E; [|intros s1 s2 b H1 H2 Hb E'|apply crc16_byte_range|apply crc16_byte_range|done].
    + apply crc16_byte_inj in E; [|done..]. rewrite !(Z.lxor_comm s) in E. apply lxor_cancel_r in E.
      rewrite !Z.shiftl_mul_pow2 in E by lia. lia.
    + apply crc16_byte_inj in E'; [|done..]. by apply lxor_cancel_r in E'.
  - rewrite !DevVerified_Crc32_reference by (auto || lia || apply Hall; done).
    rewrite !decide_True by (rewrite <-Hn; lia). rewrite !Htk. split; [done|]. split; [done|].
    unfold crc32. rewrite !foldl_app. cbn [foldl]. intros E%lxor_cancel_r. apply Hne.
    set (s := foldl crc32_byte (Z.lxor p 0xFFFFFFFF) pre) in *.
    assert (0 ≤ s < 2 ^ 32) as Hs by (apply (foldl_range _ _ _ crc32_ok); [apply mask_range; lia|done]).
    apply (foldl_inj crc32_step crc32_byte _ crc32_ok) in E;
      [|intros s1 s2 b H1 H2 Hb E'|by apply crc32_byte_range|by apply crc32_byte_range|done].
    + apply crc32_byte_inj in E; [|done..]. rewrite !(Z.lxor_comm s) in E. by apply lxor_cancel_r in E.
    + apply crc32_byte_inj in E'; [|done..]. by apply lxor_cancel_r in E'.
Qed.

(** The digits "123456789", the usual check message. *)
Definition check_message : list Z := [49; 50; 51; 52; 53; 54; 55; 56; 57].

Lemma check_message_bytes : Forall is_byte check_message.
Proof. apply (bool_decide_unpack _). by vm_compute. Qed.

Lemma DevVerified_Crc16_reference_witness :
  DevVerified_Crc16 check_message 9 0 = Ret 0x31C3 ∧ DevVerified_Crc16 check_message 10 0 = UB.
Proof.
  rewrite !DevVerified_Crc16_reference by (apply check_message_bytes || lia). split; by vm_compute.
Defined.

Lemma DevVerified_Crc32_reference_witness : DevVerified_Crc32 check_message 9 0 = Ret 0xCBF43926.
Proof.
  rewrite (DevVerified_Crc32_reference check_message 9 0) by (apply check_message_bytes || lia).
  by vm_compute.
Defined.

Lemma DevVerified_detects_byte_witness :
  ∃ c c', DevVerified_Crc32 ([49; 50] ++ 51 :: [52]) 4 0 = Ret c ∧
    DevVerified_Crc32 ([49; 50] ++ 115 :: [52]) 4 0 = Ret c' ∧ c ≠ c'.
Proof.
  apply (DevVerified_detects_byte [49; 50] [52] 51 115 0); (lia || unfold is_byte; lia || idtac).
  all: apply (bool_decide_unpack _); by vm_compute.
Defined.
