(* ===== verification/DevArrays.v ===== *)
(** * Arrays that are shifted and searched

    The loops with which the modules of the device SDK insert into, remove from and
    search the first entries of a fixed array, and what they compute.  An array is
    the list of its length, and an index outside is undefined behaviour. *)
From S2P Require Import Prelude.
From stdpp Require Import sorting.
#[local] Open Scope Z_scope.

(** ** Arrays *)

Definition arr_get {A} (a : list A) (i : Z) : outcome A := if i <? 0 then UB else or_ub (a !! Z.to_nat i).
Definition arr_set {A} (a : list A) (i : Z) (x : A) : outcome (list A) :=
  if (0 <=? i) && (i <? Z.of_nat (length a)) then Ret (<[Z.to_nat i := x]> a) else UB.

(** [for (j = from; ...; j--) a[j + 1] = a[j]], [k] rounds. *)
Fixpoint shift_up {A} (k : nat) (j : Z) (a : list A) : outcome (list A) :=
  match k with
  | O => Ret a
  | S k' => x ← arr_get a j; a ← arr_set a (j + 1) x; shift_up k' (j - 1) a
  end.

(** [for (j = from; ...; j++) a[j] = a[j + 1]], [k] rounds. *)
Fixpoint shift_down {A} (k : nat) (j : Z) (a : list A) : outcome (list A) :=
  match k with
  | O => Ret a
  | S k' => x ← arr_get a (j + 1); a ← arr_set a j x; shift_down k' (j + 1) a
  end.

(** The insertion of [x] at [front] into the first [n] entries, and the removal of
    the entry at [mid]. *)
Definition insert_entry {A} (a : list A) (n front : Z) (x : A) : outcome (list A) :=
  a ← shift_up (Z.to_nat (n - front)) (n - 1) a; arr_set a front x.
Definition remove_entry {A} (a : list A) (n mid : Z) : outcome (list A) :=
  shift_down (Z.to_nat (n - 1 - mid)) mid a.

(** ** Binary search

    The loops of the module come in two shapes.  [go_right mid] is the test of
    one that looks for a bound; [None] stops it.  [cmp mid] compares the key
    with the entry at [mid] in one that stops when it finds the key. *)
Fixpoint bound_search (fuel : nat) (go_right : Z → outcome (option bool)) (front rear : Z)
    : outcome (bool * Z * Z) :=
  match fuel with
  | O => OutOfFuel
  | S fuel' =>
      if front <=? rear then
        let mid := (front + rear) / 2 in
        r ← go_right mid;
        match r with
        | None => Ret (false, front, rear)
        | Some true => bound_search fuel' go_right (mid + 1) rear
        | Some false => bound_search fuel' go_right front (mid - 1)
        end
      else Ret (true, front, rear)
  end.

(** Where the search ended and the left end of its last range. *)
Inductive probe := Hit (front mid : Z) | Miss (front : Z) | Broken (front : Z).

Fixpoint exact_search (fuel : nat) (cmp : Z → outcome (option comparison)) (front rear : Z) : outcome probe :=
  match fuel with
  | O => OutOfFuel
  | S fuel' =>
      if front <=? rear then
        let mid := (front + rear) / 2 in
        r ← cmp mid;
        match r with
        | None => Ret (Broken front)
        | Some Lt => exact_search fuel' cmp front (mid - 1)
        | Some Gt => exact_search fuel' cmp (mid + 1) rear
        | Some Eq => Ret (Hit front mid)
        end
      else Ret (Miss front)
  end.

(** Enough rounds for [n] entries. *)
Definition rounds (n : Z) : nat := S (Z.to_nat n).

(** ** What they compute *)

Lemma arr_get_Some {A} (a : list A) i x : 0 ≤ i → a !! Z.to_nat i = Some x → arr_get a i = Ret x.
Proof. intros Hi Hx. unfold arr_get. destruct (Z.ltb_spec i 0); [lia|]. by rewrite Hx. Qed.

Lemma arr_get_inside {A} (a : list A) i : 0 ≤ i < Z.of_nat (length a) → ∃ x, arr_get a i = Ret x ∧ a !! Z.to_nat i = Some x.
Proof.
  intros Hi. destruct (lookup_lt_is_Some_2 a (Z.to_nat i)) as [x Hx]; [lia|]. exists x.
  split; [by apply arr_get_Some; [lia|]|done].
Qed.

Lemma arr_set_inside {A} (a : list A) i x : 0 ≤ i < Z.of_nat (length a) → arr_set a i x = Ret (<[Z.to_nat i := x]> a).
Proof.
  intros Hi. unfold arr_set. destruct (Z.leb_spec 0 i), (Z.ltb_spec i (Z.of_nat (length a))); (lia || done).
Qed.

Lemma shift_up_spec {A} (pre mid : list A) y rest :
  shift_up (length mid) (Z.of_nat (length pre + length mid) - 1) (pre ++ mid ++ y :: rest)
  = Ret (pre ++ match mid with [] => [y] | x :: _ => x :: mid end ++ rest).
Proof.
  revert y rest. induction mid as [|x mid IH] using rev_ind; intros y rest; [done|].
  rewrite length_app. cbn [length]. rewrite Nat.add_1_r. cbn [shift_up].
  rewrite (arr_get_Some _ _ x); [|lia|].
  2: { rewrite <-app_assoc, app_assoc. apply list_lookup_middle. rewrite length_app. lia. }
  cbn [mbind outcome_bind]. rewrite arr_set_inside by (rewrite !length_app; simpl; lia). cbn [mbind outcome_bind].
  assert (<[Z.to_nat (Z.of_nat (length pre + S (length mid)) - 1 + 1) := x]> (pre ++ (mid ++ [x]) ++ y :: rest)
    = pre ++ mid ++ x :: (x :: rest)) as ->.
  { rewrite app_assoc.
    replace (Z.to_nat _) with (length (pre ++ mid ++ [x]) + 0)%nat by (rewrite !length_app; simpl; lia).
    rewrite insert_app_r. cbn [insert list_insert]. by rewrite <-!app_assoc. }
  replace (Z.of_nat (length pre + S (length mid)) - 1 - 1) with (Z.of_nat (length pre + length mid) - 1) by lia.
  rewrite IH. destruct mid as [|z mid]; [done|]. cbn [app]. by rewrite <-app_assoc.
Qed.

(** Inserting keeps the length and puts the entry at its place among the first [n]. *)
Lemma insert_entry_spec {A} (a : list A) n front x : 0 ≤ front ≤ n → n < Z.of_nat (length a) →
  ∃ a', insert_entry a n front x = Ret a' ∧ length a' = length a ∧
    take (Z.to_nat (n + 1)) a' = take (Z.to_nat front) a ++ x :: drop (Z.to_nat front) (take (Z.to_nat n) a).
Proof.
  intros Hf Hn. set (mid := drop (Z.to_nat front) (take (Z.to_nat n) a)).
  destruct (drop (Z.to_nat n) a) as [|y rest] eqn:Ed;
    [apply (f_equal length) in Ed; rewrite length_drop in Ed; simpl in Ed; lia|].
  assert (a = take (Z.to_nat front) a ++ mid ++ y :: rest) as Ea.
  { rewrite <-Ed. unfold mid. rewrite app_assoc.
    replace (take (Z.to_nat front) a) with (take (Z.to_nat front) (take (Z.to_nat n) a)) by (rewrite take_take; f_equal; lia).
    by rewrite !take_drop. }
  assert (length mid = Z.to_nat (n - front)) as Hm by (unfold mid; rewrite length_drop, length_take; lia).
  assert (length (take (Z.to_nat front) a) = Z.to_nat front) as Hp by (rewrite length_take; lia).
  set (pre := take (Z.to_nat front) a) in *.
  assert (insert_entry a n front x = Ret (pre ++ x :: mid ++ rest)) as Hi.
  { unfold insert_entry. rewrite Ea at 1. rewrite <-Hm.
    replace (n - 1) with (Z.of_nat (length pre + length mid) - 1) by lia. rewrite shift_up_spec.
    cbn [mbind outcome_bind]. rewrite arr_set_inside by (rewrite !length_app; destruct mid; simpl; lia).
    do 2 f_equal. replace (Z.to_nat front) with (length pre + 0)%nat by lia. rewrite insert_app_r.
    f_equal. by destruct mid. }
  exists (pre ++ x :: mid ++ rest). split; [done|].
  split; [apply (f_equal length) in Ea; rewrite !length_app in *; cbn [length] in *; rewrite !length_app; lia|].
  change (pre ++ x :: mid ++ rest) with (pre ++ (x :: mid) ++ rest). rewrite app_assoc.
  apply take_app_length'. rewrite !length_app. simpl. lia.
Qed.

Lemma shift_down_spec {A} (pre mid : list A) x rest :
  shift_down (length mid) (Z.of_nat (length pre)) (pre ++ x :: mid ++ rest)
  = Ret (pre ++ mid ++ match last mid with None => x | Some y => y end :: rest).
Proof.
  revert pre x. induction mid as [|y mid IH]; intros pre x; [done|]. cbn [length shift_down].
  rewrite (arr_get_Some _ _ y); [|lia|].
  2: { rewrite (cons_middle x), app_assoc. apply list_lookup_middle. rewrite length_app. simpl. lia. }
  cbn [mbind outcome_bind]. rewrite arr_set_inside by (rewrite !length_app; simpl; lia). cbn [mbind outcome_bind].
  rewrite Nat2Z.id. replace (length pre) with (length pre + 0)%nat at 2 by lia. rewrite insert_app_r. cbn [insert list_insert app].
  rewrite (cons_middle y pre), app_assoc.
  replace (Z.of_nat (length pre) + 1) with (Z.of_nat (length (pre ++ [y]))) by (rewrite length_app; simpl; lia).
  rewrite IH, <-app_assoc. cbn [app]. do 3 f_equal. rewrite last_cons. by destruct (last mid).
Qed.

(** Removing keeps the length and takes the entry out of the first [n]. *)
Lemma remove_entry_spec {A} (a : list A) n mid : 0 ≤ mid < n → n ≤ Z.of_nat (length a) →
  ∃ a', remove_entry a n mid = Ret a' ∧ length a' = length a ∧
    take (Z.to_nat (n - 1)) a' = take (Z.to_nat mid) a ++ drop (S (Z.to_nat mid)) (take (Z.to_nat n) a).
Proof.
  intros Hf Hn. set (m := drop (S (Z.to_nat mid)) (take (Z.to_nat n) a)).
  destruct (lookup_lt_is_Some_2 a (Z.to_nat mid)) as [x Hx]; [lia|].
  assert (a = take (Z.to_nat mid) a ++ x :: m ++ drop (Z.to_nat n) a) as Ea.
  { rewrite <-(take_drop (Z.to_nat n) a) at 1. rewrite app_comm_cons, app_assoc. f_equal.
    unfold m. rewrite <-(take_drop_middle (take (Z.to_nat n) a) (Z.to_nat mid) x) at 1.
    - f_equal. rewrite take_take. f_equal. lia.
    - rewrite lookup_take_lt by lia. done. }
  assert (length m = Z.to_nat (n - 1 - mid)) as Hm by (unfold m; rewrite length_drop, length_take; lia).
  assert (length (take (Z.to_nat mid) a) = Z.to_nat mid) as Hp by (rewrite length_take; lia).
  set (pre := take (Z.to_nat mid) a) in *. set (rest := drop (Z.to_nat n) a) in *.
  eexists. split; [|split].
  - unfold remove_entry. rewrite Ea, <-Hm. replace mid with (Z.of_nat (length pre)) by lia. apply shift_down_spec.
  - apply (f_equal length) in Ea. rewrite !length_app in *. cbn [length] in *. rewrite !length_app in *. lia.
  - rewrite app_assoc. apply take_app_length'. rewrite length_app. lia.
Qed.


Lemma mid_between f r : f ≤ r → f ≤ (f + r) / 2 ≤ r.
Proof. intros H. split; [apply Z.div_le_lower_bound; lia|apply Z.div_le_upper_bound; lia]. Qed.

(** Whatever the test says, as long as it can be evaluated between the ends, the
    search ends within them. *)
Lemma bound_search_ends go fuel f r : (∀ i, f ≤ i ≤ r → ∃ b, go i = Ret b) →
  f ≤ r + 1 → (Z.to_nat (r - f + 1) < fuel)%nat →
  ∃ ok f' r', bound_search fuel go f r = Ret (ok, f', r') ∧ f ≤ f' ≤ r + 1.
Proof.
  revert f r. induction fuel as [|fuel IH]; intros f r Hgo Hfr Hfuel; [lia|]. cbn [bound_search].
  destruct (Z.leb_spec f r) as [Hle|Hgt]; [|exists true, f, r; split; [done|lia]].
  pose proof (mid_between f r Hle) as Hm. set (mid := (f + r) / 2) in *.
  destruct (Hgo mid Hm) as [[[]|] ->]; cbn [mbind outcome_bind].
  - destruct (IH (mid + 1) r) as (ok & f' & r' & -> & ?); [intros i ?; apply Hgo; lia|lia|lia|].
    exists ok, f', r'. split; [done|lia].
  - destruct (IH f (mid - 1)) as (ok & f' & r' & -> & ?); [intros i ?; apply Hgo; lia|lia|lia|].
    exists ok, f', r'. split; [done|lia].
  - exists false, f, r. split; [done|lia].
Qed.

(** On a test that goes from true to false the search finds where. *)
Lemma bound_search_spec p go fuel f r : (∀ i, f ≤ i ≤ r → go i = Ret (Some (p i))) →
  (∀ i j, f ≤ i ≤ j → j ≤ r → p j = true → p i = true) →
  f ≤ r + 1 → (Z.to_nat (r - f + 1) < fuel)%nat →
  ∃ f', bound_search fuel go f r = Ret (true, f', f' - 1) ∧ f ≤ f' ≤ r + 1 ∧
    (∀ i, f ≤ i < f' → p i = true) ∧ (∀ i, f' ≤ i ≤ r → p i = false).
Proof.
  revert f r. induction fuel as [|fuel IH]; intros f r Hgo Hp Hfr Hfuel; [lia|]. cbn [bound_search].
  destruct (Z.leb_spec f r) as [Hle|Hgt].
  - pose proof (mid_between f r Hle) as Hm. set (mid := (f + r) / 2) in *.
    rewrite (Hgo mid Hm). cbn [mbind outcome_bind]. destruct (p mid) eqn:Hpm.
    + destruct (IH (mid + 1) r) as (f' & -> & Hf' & Ht & Hf); [intros i ?; apply Hgo; lia| |lia|lia|].
      { intros i j ???. apply (Hp i j); (lia || done). }
      exists f'. split; [done|]. split; [lia|]. split; [|intros i ?; apply Hf; lia].
      intros i Hi. destruct (Z.le_gt_cases i mid); [|apply Ht; lia]. apply (Hp i mid); (lia || done).
    + destruct (IH f (mid - 1)) as (f' & -> & Hf' & Ht & Hf); [intros i ?; apply Hgo; lia| |lia|lia|].
      { intros i j ???. apply (Hp i j); (lia || done). }
      exists f'. split; [done|]. split; [lia|]. split; [done|].
      intros i Hi. destruct (Z.le_gt_cases mid i); [|apply Hf; lia].
      destruct (p i) eqn:Hpi; [|done]. rewrite (Hp mid i) in Hpm by (lia || done). done.
  - exists f. split; [do 2 f_equal; lia|]. split; [lia|]. split; intros; lia.
Qed.

(** What a search for equality reports is what the comparison says. *)
Lemma exact_search_ends cmp fuel f r : (∀ i, f ≤ i ≤ r → ∃ b, cmp i = Ret b) →
  f ≤ r + 1 → (Z.to_nat (r - f + 1) < fuel)%nat →
  ∃ o, exact_search fuel cmp f r = Ret o ∧
    match o with
    | Hit f' mid => f ≤ f' ≤ mid ∧ mid ≤ r ∧ cmp mid = Ret (Some Eq)
    | Miss f' | Broken f' => f ≤ f' ≤ r + 1
    end.
Proof.
  revert f r. induction fuel as [|fuel IH]; intros f r Hgo Hfr Hfuel; [lia|]. cbn [exact_search].
  destruct (Z.leb_spec f r) as [Hle|Hgt]; [|exists (Miss f); split; [done|lia]].
  pose proof (mid_between f r Hle) as Hm. set (mid := (f + r) / 2) in *.
  destruct (Hgo mid Hm) as [[[]|] Ec]; rewrite Ec; cbn [mbind outcome_bind].
  - exists (Hit f mid). split; [done|]. split; [lia|]. split; [lia|done].
  - destruct (IH f (mid - 1)) as (o & -> & Ho); [intros i ?; apply Hgo; lia|lia|lia|].
    exists o. split; [done|]. destruct o; repeat split; (lia || apply Ho).
  - destruct (IH (mid + 1) r) as (o & -> & Ho); [intros i ?; apply Hgo; lia|lia|lia|].
    exists o. split; [done|]. destruct o; repeat split; (lia || apply Ho).
  - exists (Broken f). split; [done|lia].
Qed.

(** On increasing keys the key is found when it is there. *)
Lemma exact_search_spec k K cmp fuel f r : (∀ i, f ≤ i ≤ r → cmp i = Ret (Some (k ?= K i))) →
  (∀ i j, f ≤ i < j → j ≤ r → K i < K j) → f ≤ r + 1 → (Z.to_nat (r - f + 1) < fuel)%nat →
  (∃ f' mid, exact_search fuel cmp f r = Ret (Hit f' mid) ∧ f ≤ mid ≤ r ∧ K mid = k) ∨
  (∃ f', exact_search fuel cmp f r = Ret (Miss f') ∧ ∀ i, f ≤ i ≤ r → K i ≠ k).
Proof.
  revert f r. induction fuel as [|fuel IH]; intros f r Hgo HK Hfr Hfuel; [lia|]. cbn [exact_search].
  destruct (Z.leb_spec f r) as [Hle|Hgt]; [|right; exists f; split; [done|lia]].
  pose proof (mid_between f r Hle) as Hm. set (mid := (f + r) / 2) in *.
  rewrite (Hgo mid Hm). cbn [mbind outcome_bind]. destruct (Z.compare_spec k (K mid)) as [Hc|Hc|Hc].
  - left. exists f, mid. split; [done|]. split; [lia|done].
  - destruct (IH f (mid - 1)) as [(f' & m & -> & ? & ?)|(f' & -> & Hno)];
      [intros i ?; apply Hgo; lia|intros i j ??; apply HK; lia|lia|lia| |].
    + left. exists f', m. split; [done|]. split; [lia|done].
    + right. exists f'. split; [done|]. intros i Hi. destruct (Z.lt_ge_cases i mid); [apply Hno; lia|].
      destruct (decide (i = mid)) as [->|]; [lia|]. pose proof (HK mid i). lia.
  - destruct (IH (mid + 1) r) as [(f' & m & -> & ? & ?)|(f' & -> & Hno)];
      [intros i ?; apply Hgo; lia|intros i j ??; apply HK; lia|lia|lia| |].
    + left. exists f', m. split; [done|]. split; [lia|done].
    + right. exists f'. split; [done|]. intros i Hi. destruct (Z.lt_ge_cases mid i); [apply Hno; lia|].
      destruct (decide (i = mid)) as [->|]; [lia|]. pose proof (HK i mid). lia.
Qed.

(** Removing puts nothing new into the array. *)
Lemma arr_get_elem {A} (a : list A) i x : arr_get a i = Ret x → x ∈ a.
Proof.
  unfold arr_get. destruct (i <? 0); [done|]. intros Hx%or_ub_Ret. by eapply list_elem_of_lookup_2.
Qed.

Lemma shift_down_elem {A} k (j : Z) (a a' : list A) x : shift_down k j a = Ret a' → x ∈ a' → x ∈ a.
Proof.
  revert j a. induction k as [|k IH]; intros j a E Hx; [by injection E as <-|]. cbn [shift_down] in E.
  apply outcome_bind_Ret_inv in E as (y & Ey & E). apply outcome_bind_Ret_inv in E as (b & Eb & E).
  specialize (IH _ _ E Hx). unfold arr_set in Eb. destruct ((0 <=? j) && _); [|done]. injection Eb as <-.
  apply list_elem_of_lookup in IH as [n Hn]. apply list_lookup_insert_Some in Hn as [(_ & <- & _)|(_ & Hn)];
    [by eapply arr_get_elem|by eapply list_elem_of_lookup_2].
Qed.

Lemma remove_entry_elem {A} (a a' : list A) n mid x : remove_entry a n mid = Ret a' → x ∈ a' → x ∈ a.
Proof. apply shift_down_elem. Qed.

(** ** Sorted lists *)

Lemma StronglySorted_index {A} (R : relation A) (l : list A) (i j : nat) x y :
  StronglySorted R l → l !! i = Some x → l !! j = Some y → (i < j)%nat → R x y.
Proof.
  intros Hs. revert i j. induction Hs as [|z l Hs IH Hz]; intros i j Hi Hj Hij; [done|].
  destruct j as [|j]; [lia|]. destruct i as [|i]; cbn in Hi, Hj.
  - injection Hi as ->. rewrite Forall_lookup in Hz. by apply (Hz j).
  - apply (IH i j); (done || lia).
Qed.
