(* ===== verification/DevMemoryPool.v ===== *)
(** * The SDK's memory pool

    Model of [src/mivifwk/odm/plugins/qcom/ldc/device/dev_memoryPool.cpp]: blocks
    are kept in lists by size, reused, and guarded by a mark before and a mark
    after the caller's bytes; two sorted maps find a block by its address and by
    its size.  The heap is explicit ([blocks], the contents of the allocated
    blocks by address); the lists and nodes, which the module never shares, are
    entries of the table.  A pointer to a list or to a node is its index.  The
    arrays are lists of their length, and an index outside is undefined
    behaviour; the report's log lines are left out. *)
From S2P Require Import Prelude DevTypes DevArrays.
From stdpp Require Import strings pretty.
#[local] Open Scope Z_scope.

(** @src src/mivifwk/odm/plugins/qcom/ldc/device/dev_memoryPool.cpp:38-50 the constants *)
Definition DEV_MEMORY_POOL_LIST_MAX : Z := 128.
Definition DEV_MEMORY_POOL_NODE_MAX : Z := 512.
Definition DEV_MEMORY_ALLOC_INFO_MAX_LEN : Z := 128.
Definition DEV_MEMORY_MARK_OFFSET : Z := 8.
Definition KB : Z := 1024.
Definition MB : Z := KB * 1024.
Definition MS : Z := 1000.
Definition S_ : Z := 1000 * MS.

(** @src src/mivifwk/odm/plugins/qcom/ldc/device/dev_memoryPool.cpp:53-53 ALIGNSIZE *)
Definition ALIGNSIZE (n align : Z) : Z := Z.land (u64 (n + (align - 1))) (u64 (Z.lnot (align - 1))).

(** @src src/mivifwk/odm/plugins/qcom/ldc/device/dev_memoryPool.cpp:55-56 DEV_MEMORY_FRONT_MARK, DEV_MEMORY_REAR_MARK *)
Definition DEV_MEMORY_FRONT_MARK : Z := 0xFA4FFFA5084CB5CF.
Definition DEV_MEMORY_REAR_MARK : Z := 0xFB453A5FC78D3FDF.

(** @src src/mivifwk/odm/plugins/qcom/ldc/device/dev_memoryPool.cpp:58-68 Dev_MemoryPool_node *)
Record Dev_MemoryPool_node := mkNode {
  addr : Z;
  userSzie : Z;
  used : Z;
  allocTimestamp : Z;
  unusedTimestamp : Z;
  waitTime : Z;
  allocTime : Z;
  fileInfo : string;
  tagName : string;
}.

(** @src src/mivifwk/odm/plugins/qcom/ldc/device/dev_memoryPool.cpp:70-77 Dev_MemoryPool_list *)
Record Dev_MemoryPool_list := mkList {
  allNum : Z;
  usedNum : Z;
  realSize : Z;
  unallocdNodeIndex : list Z;
  AllocdButUnusedNodeIndex : list Z;
  p_node : list (option Dev_MemoryPool_node);
}.

(** @src src/mivifwk/odm/plugins/qcom/ldc/device/dev_memoryPool.cpp:79-84 Dev_MemoryPool_list_head *)
Record Dev_MemoryPool_list_head := mkHead {
  usedLists : Z;
  AllocdAndusedListIndex : list Z;
  AllocdButUnusedListIndex : list Z;
  p_list : list (option Dev_MemoryPool_list);
}.

(** @src src/mivifwk/odm/plugins/qcom/ldc/device/dev_memoryPool.cpp:86-94 Dev_MemoryPool_map_node, Dev_MemoryPool_map *)
Record Dev_MemoryPool_map_node := mkMapNode { nodeIndex : Z; listIndex : Z }.
Record Dev_MemoryPool_map := mkMap { usedEntries : Z; node : list Dev_MemoryPool_map_node }.

#[export] Instance node_eq_dec : EqDecision Dev_MemoryPool_node.
Proof. solve_decision. Defined.
#[export] Instance list_eq_dec : EqDecision Dev_MemoryPool_list.
Proof. solve_decision. Defined.
#[export] Instance map_node_eq_dec : EqDecision Dev_MemoryPool_map_node.
Proof. solve_decision. Defined.

(** @src src/mivifwk/odm/plugins/qcom/ldc/device/dev_memoryPool.cpp:111-116 m_free_threshold
    Size, number of unused blocks, time (which nothing reads). *)
Definition m_free_threshold : list (Z * Z * Z) :=
  [(1 * KB, 128, 60 * S_); (128 * KB, 64, 40 * S_); (256 * KB, 32, 30 * S_); (384 * 16, 20, 20 * S_);
   (512 * KB, 10, 10 * S_); (640 * KB, 9, 5 * S_); (768 * KB, 8, 1 * S_); (896 * KB, 7, 640 * MS);
   (1 * MB, 6, 320 * MS); (10 * MB, 5, 160 * MS); (20 * MB, 4, 120 * MS); (30 * MB, 3, 80 * MS);
   (40 * MB, 2, 40 * MS); (50 * MB, 1, 20 * MS); (60 * MB, 0, 20 * MS); (0xFFFFFFFFFFFFFFFF, 0, 0 * MS)].

(** @src src/mivifwk/odm/plugins/qcom/ldc/device/dev_memoryPool.cpp:118-123 m_size_align *)
Definition m_size_align : list (Z * Z) :=
  [(512, 512); (1 * KB, 1 * KB); (4 * KB, 4 * KB); (8 * KB, 8 * KB); (32 * KB, 32 * KB); (128 * KB, 64 * KB);
   (512 * KB, 128 * KB); (1 * MB, 1 * MB); (8 * MB, 2 * MB); (16 * MB, 4 * MB); (32 * MB, 8 * MB);
   (40 * MB, 8 * MB)].

(** @src src/mivifwk/odm/plugins/qcom/ldc/device/dev_memoryPool.cpp:125-136 DevMemoryPool_NoDirFileName *)
Definition DevMemoryPool_NoDirFileName (pFilePath : string) : string := no_dir_file_name pFilePath.

(** @src src/mivifwk/odm/plugins/qcom/ldc/device/dev_memoryPool.cpp:223-247 DevMemoryPool_GetRealSize *)
Definition DevMemoryPool_GetRealSize (userSzie : Z) : outcome Z :=
  let array_max := Z.of_nat (length m_size_align) in
  '(_, front, _) ← bound_search (rounds array_max)
     (λ mid, e ← arr_get m_size_align mid; Ret (Some (e.1 <? userSzie))) 0 (array_max - 1);
  let front := if array_max <=? front then array_max - 1 else front in
  e ← arr_get m_size_align front;
  let realSize := ALIGNSIZE userSzie e.2 in
  Ret (u32 (if realSize =? userSzie then u64 (realSize + DEV_MEMORY_MARK_OFFSET * 2) else realSize)).

Example GetRealSize_examples :
  DevMemoryPool_GetRealSize 100 = Ret 512 ∧ DevMemoryPool_GetRealSize 512 = Ret 528 ∧
  DevMemoryPool_GetRealSize 510 = Ret 512 ∧ DevMemoryPool_GetRealSize 0xFFFFFFFF = Ret 0.
Proof. by vm_compute. Qed.

(** ** The module's state *)

(** The static variables, the allocated blocks and the callers' variables. *)
Record world (M : Type) := mkWorld {
  mutexes : M;
  vars : cells;
  init_f : Z;
  m_list : Dev_MemoryPool_list_head;
  m_addr_map : Dev_MemoryPool_map;
  m_realSize_map : Dev_MemoryPool_map;
  blocks : gmap Z (list Z);
}.
Arguments mkWorld {_} _ _ _ _ _ _ _.
Arguments mutexes {_} _.
Arguments vars {_} _.
Arguments init_f {_} _.
Arguments m_list {_} _.
Arguments m_addr_map {_} _.
Arguments m_realSize_map {_} _.
Arguments blocks {_} _.

Definition set_vars {M} (w : world M) (c : cells) : world M :=
  mkWorld (mutexes w) c (init_f w) (m_list w) (m_addr_map w) (m_realSize_map w) (blocks w).
Definition set_mutexes {M} (w : world M) (m : M) : world M :=
  mkWorld m (vars w) (init_f w) (m_list w) (m_addr_map w) (m_realSize_map w) (blocks w).
Definition set_head {M} (w : world M) (h : Dev_MemoryPool_list_head) : world M :=
  mkWorld (mutexes w) (vars w) (init_f w) h (m_addr_map w) (m_realSize_map w) (blocks w).
Definition set_addr_map {M} (w : world M) (m : Dev_MemoryPool_map) : world M :=
  mkWorld (mutexes w) (vars w) (init_f w) (m_list w) m (m_realSize_map w) (blocks w).
Definition set_realSize_map {M} (w : world M) (m : Dev_MemoryPool_map) : world M :=
  mkWorld (mutexes w) (vars w) (init_f w) (m_list w) (m_addr_map w) m (blocks w).
Definition set_blocks {M} (w : world M) (b : gmap Z (list Z)) : world M :=
  mkWorld (mutexes w) (vars w) (init_f w) (m_list w) (m_addr_map w) (m_realSize_map w) b.

(** [m_list.p_list[i]] and its assignment. *)
Definition list_at {M} (w : world M) (i : Z) : outcome (option Dev_MemoryPool_list) :=
  arr_get (p_list (m_list w)) i.
Definition set_list {M} (w : world M) (i : Z) (l : option Dev_MemoryPool_list) : world M :=
  let h := m_list w in
  set_head w (mkHead (usedLists h) (AllocdAndusedListIndex h) (AllocdButUnusedListIndex h)
                (<[Z.to_nat i := l]> (p_list h))).

Definition with_nums (l : Dev_MemoryPool_list) (all usedn : Z) : Dev_MemoryPool_list :=
  mkList all usedn (realSize l) (unallocdNodeIndex l) (AllocdButUnusedNodeIndex l) (p_node l).
Definition with_node (l : Dev_MemoryPool_list) (j : Z) (n : option Dev_MemoryPool_node) : Dev_MemoryPool_list :=
  mkList (allNum l) (usedNum l) (realSize l) (unallocdNodeIndex l) (AllocdButUnusedNodeIndex l)
    (<[Z.to_nat j := n]> (p_node l)).

(** The list and the node an entry of a map names; [None] for a null pointer. *)
Definition list_of {M} (w : world M) (e : Dev_MemoryPool_map_node) : outcome (option Dev_MemoryPool_list) :=
  list_at w (listIndex e).
Definition node_of {M} (w : world M) (e : Dev_MemoryPool_map_node)
    : outcome (option (Dev_MemoryPool_list * Dev_MemoryPool_node)) :=
  l ← list_of w e;
  match l with
  | None => Ret None
  | Some l => n ← arr_get (p_node l) (nodeIndex e); Ret (option_map (pair l) n)
  end.

(** Eight bytes of a block as a [U64]. *)
Definition read_u64 (b : gmap Z (list Z)) (a off : Z) : outcome Z :=
  bs ← or_ub (b !! a);
  if (0 <=? off) && (off + 8 <=? Z.of_nat (length bs)) then Ret (le_value (slice off 8 bs)) else UB.
Definition write_u64 (b : gmap Z (list Z)) (a off v : Z) : outcome (gmap Z (list Z)) :=
  bs ← or_ub (b !! a);
  if (0 <=? off) && (off + 8 <=? Z.of_nat (length bs))
  then Ret (<[a := splice bs (Z.to_nat off) (le_bytes 8 v)]> b) else UB.

(** [free(a)]. *)
Definition free_block (b : gmap Z (list Z)) (a : Z) : outcome (gmap Z (list Z)) :=
  _ ← or_ub (b !! a); Ret (delete a b).

(** ** The operations *)

Section Pool.
Context `{MutexLib M}.
(** The C library's [malloc]: the address and the content of a block; whether the
    heap has room for the structure of a list or a node. *)
Context (malloc : gmap Z (list Z) → Z → option (Z * list Z)).
Context (list_room node_room : gmap Z (list Z) → bool).
(** The readings of [GetTimestampMs] during a call, in order. *)
Context (clock : nat → Z).
(** The address of the static variable [m_mutex_Id]. *)
Context (m_mutex_Id : Z).

Abbreviation world := (world M).

Definition lock (w : world) : outcome (Z * world) :=
  id ← load (vars w) m_mutex_Id; '(r, m) ← mx_Lock id (mutexes w); Ret (r, set_mutexes w m).
Definition unlock (w : world) : outcome (Z * world) :=
  id ← load (vars w) m_mutex_Id; '(r, m) ← mx_Unlock id (mutexes w); Ret (r, set_mutexes w m).

(** Every entry of a map, in order, names a list and a node. *)
Fixpoint report_loop (w : world) (a : list Dev_MemoryPool_map_node) (ids : list Z) : outcome Z :=
  match ids with
  | [] => Ret RET_OK
  | i :: ids' =>
      e ← arr_get a i;
      n ← node_of w e;
      match n with None => Ret RET_ERR | Some _ => report_loop w a ids' end
  end.

(** @src src/mivifwk/odm/plugins/qcom/ldc/device/dev_memoryPool.cpp:138-151 __DevMemoryPool_Report
    The checks between the log lines. *)
Definition __DevMemoryPool_Report (w : world) : outcome Z :=
  if negb (init_f w =? TRUE) then Ret RET_ERR
  else
    r ← report_loop w (node (m_addr_map w)) (seqZ 0 (usedEntries (m_addr_map w)));
    if negb (r =? RET_OK) then Ret r
    else report_loop w (node (m_realSize_map w)) (reverse (seqZ 0 (usedEntries (m_realSize_map w)))).

(** @src src/mivifwk/odm/plugins/qcom/ldc/device/dev_memoryPool.cpp:214-221 DevMemoryPool_Report *)
Definition DevMemoryPool_Report (w : world) : outcome (Z * world) :=
  '(ret, w) ← lock w;
  if negb (ret =? RET_OK) then Ret (RET_ERR, w)
  else _ ← __DevMemoryPool_Report w; unlock w.

(** [realSize] against the list whose index is at [mid] of the index of lists. *)
Definition compare_list (w : world) (realSz mid : Z) : outcome (option comparison) :=
  i ← arr_get (AllocdAndusedListIndex (m_list w)) mid;
  l ← list_at w i;
  Ret (option_map (λ l, realSz ?= realSize l) l).

(** @src src/mivifwk/odm/plugins/qcom/ldc/device/dev_memoryPool.cpp:253-279 DevMemoryPool_GetList (search) *)
Definition find_list (w : world) (realSz : Z) : outcome probe :=
  let usedNum := usedLists (m_list w) in
  if 0 <? usedNum then exact_search (rounds usedNum) (compare_list w realSz) 0 (usedNum - 1) else Ret (Miss 0).

(** A list with no blocks. *)
Definition new_list (realSz : Z) : Dev_MemoryPool_list :=
  mkList 0 0 realSz (seqZ 0 DEV_MEMORY_POOL_NODE_MAX) (replicate (Z.to_nat DEV_MEMORY_POOL_NODE_MAX) 0)
    (replicate (Z.to_nat DEV_MEMORY_POOL_NODE_MAX) None).

(** @src src/mivifwk/odm/plugins/qcom/ldc/device/dev_memoryPool.cpp:280-321 DevMemoryPool_GetList (new list) *)
Definition add_list (w : world) (realSz : Z) : outcome (Z * option Z * world) :=
  let h := m_list w in
  let unusedListNum := u32 (DEV_MEMORY_POOL_LIST_MAX - usedLists h) in
  if unusedListNum <=? 0 then Ret (RET_ERR, None, w)
  else
    i ← arr_get (AllocdButUnusedListIndex h) (unusedListNum - 1);
    l ← list_at w i;
    match l with
    | Some _ => Ret (RET_ERR, None, w)
    | None =>
        if negb (list_room (blocks w)) then Ret (RET_ERR, None, w)
        else
          let w := set_list w i (Some (new_list realSz)) in
          '(_, front, _) ← bound_search (rounds (usedLists h))
             (λ mid, r ← compare_list w realSz mid; Ret (option_map (λ c, bool_decide (c = Gt)) r))
             0 (usedLists h - 1);
          index ← insert_entry (AllocdAndusedListIndex h) (usedLists h) front i;
          Ret (RET_OK, Some i,
            set_head w (mkHead (usedLists h + 1) index (AllocdButUnusedListIndex h) (p_list (m_list w))))
    end.

(** @src src/mivifwk/odm/plugins/qcom/ldc/device/dev_memoryPool.cpp:249-325 DevMemoryPool_GetList
    The result and the index of the list, [None] when the out parameter stays
    null; the out parameters are the caller's local variables. *)
Definition DevMemoryPool_GetList (realSz : Z) (w : world) : outcome (Z * option Z * world) :=
  if negb (init_f w =? TRUE) then Ret (RET_ERR, None, w)
  else
    found ← find_list w realSz;
    match found with
    | Hit _ mid => i ← arr_get (AllocdAndusedListIndex (m_list w)) mid; Ret (RET_OK, Some i, w)
    | _ => add_list w realSz
    end.

(** @src src/mivifwk/odm/plugins/qcom/ldc/device/dev_memoryPool.cpp:327-369 DevMemoryPool_RemoveList
    Of the list [l] at index [i].  The entry taken out of the index is the one
    at the left end of the last range searched, not the one found. *)
Definition DevMemoryPool_RemoveList (i : Z) (l : Dev_MemoryPool_list) (w : world) : outcome (Z * world) :=
  if negb (init_f w =? TRUE) then Ret (RET_ERR, w)
  else if (allNum l =? 0) && (usedNum l =? 0) then
    let h := m_list w in
    found ← find_list w (realSize l);
    let front := match found with Hit front _ | Miss front | Broken front => front end in
    index ← remove_entry (AllocdAndusedListIndex h) (usedLists h) front;
    unused ← arr_set (AllocdButUnusedListIndex h) (u32 (DEV_MEMORY_POOL_LIST_MAX - usedLists h)) i;
    let w := set_list w i None in
    let n := usedLists h - 1 in
    Ret (RET_OK, set_head w (mkHead (if n <? 0 then 0 else n) index unused (p_list (m_list w))))
  else Ret (RET_OK, w).

(** @src src/mivifwk/odm/plugins/qcom/ldc/device/dev_memoryPool.cpp:371-409 DevMemoryPool_Check
    The report it prints on an error changes nothing. *)
Definition DevMemoryPool_Check (n : Dev_MemoryPool_node) (w : world) : outcome Z :=
  if negb (init_f w =? TRUE) then Ret RET_ERR
  else if addr n =? NULL then Ret RET_OK
  else
    front ← read_u64 (blocks w) (addr n) 0;
    rear ← read_u64 (blocks w) (addr n) (u32 (userSzie n + DEV_MEMORY_MARK_OFFSET));
    let ret := Z.lor (if negb (front =? DEV_MEMORY_FRONT_MARK) then RET_ERR else RET_OK)
                     (if negb (rear =? DEV_MEMORY_REAR_MARK) then RET_ERR else RET_OK) in
    if negb (ret =? RET_OK) then _ ← __DevMemoryPool_Report w; Ret ret else Ret ret.

(** @src src/mivifwk/odm/plugins/qcom/ldc/device/dev_memoryPool.cpp:411-422 DevMemoryPool_Mark *)
Definition DevMemoryPool_Mark (n : Dev_MemoryPool_node) (w : world) : outcome (Z * world) :=
  if negb (init_f w =? TRUE) then Ret (RET_ERR, w)
  else if addr n =? NULL then Ret (RET_OK, w)
  else
    b ← write_u64 (blocks w) (addr n) 0 DEV_MEMORY_FRONT_MARK;
    b ← write_u64 b (addr n) (u32 (userSzie n + DEV_MEMORY_MARK_OFFSET)) DEV_MEMORY_REAR_MARK;
    Ret (RET_OK, set_blocks w b).

(** A test on the size of the list, or on the address of the block, of the entry of
    a map at [mid]. *)
Definition test_size (w : world) (m : Dev_MemoryPool_map) (p : Z → bool) (mid : Z) : outcome (option bool) :=
  e ← arr_get (node m) mid; l ← list_of w e; Ret (option_map (λ l, p (realSize l)) l).
Definition test_addr (w : world) (m : Dev_MemoryPool_map) (p : Z → bool) (mid : Z) : outcome (option bool) :=
  e ← arr_get (node m) mid; n ← node_of w e; Ret (option_map (λ n, p (addr n.2)) n).
Definition compare_addr (w : world) (m : Dev_MemoryPool_map) (a mid : Z) : outcome (option comparison) :=
  e ← arr_get (node m) mid; n ← node_of w e; Ret (option_map (λ n, a ?= addr n.2) n).

Definition MAP_MAX : Z := DEV_MEMORY_POOL_LIST_MAX * DEV_MEMORY_POOL_LIST_MAX.

(** @src src/mivifwk/odm/plugins/qcom/ldc/device/dev_memoryPool.cpp:431-456 DevMemoryPool_AddRealSizeMap (range of a size)
    The first entry of the size and the last; [None] for an entry without a list. *)
Definition size_range (w : world) (realSz : Z) : outcome (option (Z * Z)) :=
  let m := m_realSize_map w in
  let n := usedEntries m in
  '(ok, front, _) ← bound_search (rounds n) (test_size w m (λ s, s <? realSz)) 0 (n - 1);
  if negb ok then Ret None
  else
    '(ok, _, rear) ← bound_search (rounds n) (test_size w m (λ s, negb (realSz <? s))) front (n - 1);
    Ret (if negb ok then None else Some (front, rear)).

(** @src src/mivifwk/odm/plugins/qcom/ldc/device/dev_memoryPool.cpp:424-476 DevMemoryPool_AddRealSizeMap *)
Definition DevMemoryPool_AddRealSizeMap (a realSz listIdx nodeIdx : Z) (w : world) : outcome (Z * world) :=
  let m := m_realSize_map w in
  let n := usedEntries m in
  if negb (init_f w =? TRUE) then Ret (RET_ERR, w)
  else if a =? NULL then Ret (RET_ERR, w)
  else if MAP_MAX <=? n then Ret (RET_ERR, w)
  else
    range ← size_range w realSz;
    match range with
    | None => Ret (RET_ERR, w)
    | Some (front, rear) =>
        '(ok, front, _) ← bound_search (rounds n) (test_addr w m (λ b, b <? a)) front rear;
        if negb ok then Ret (RET_ERR, w)
        else
          es ← insert_entry (node m) n front (mkMapNode nodeIdx listIdx);
          Ret (RET_OK, set_realSize_map w (mkMap (n + 1) es))
    end.

(** @src src/mivifwk/odm/plugins/qcom/ldc/device/dev_memoryPool.cpp:478-537 DevMemoryPool_RemoveRealSizeMap *)
Definition DevMemoryPool_RemoveRealSizeMap (a realSz : Z) (w : world) : outcome (Z * world) :=
  let m := m_realSize_map w in
  let n := usedEntries m in
  if negb (init_f w =? TRUE) then Ret (RET_ERR, w)
  else if a =? NULL then Ret (RET_ERR, w)
  else
    range ← size_range w realSz;
    match range with
    | None => Ret (RET_ERR, w)
    | Some (front, rear) =>
        found ← exact_search (rounds n) (compare_addr w m a) front rear;
        match found with
        | Hit _ mid =>
            es ← remove_entry (node m) n mid;
            Ret (RET_OK, set_realSize_map w (mkMap (if n - 1 <? 0 then 0 else n - 1) es))
        | _ => Ret (RET_ERR, w)
        end
    end.

(** @src src/mivifwk/odm/plugins/qcom/ldc/device/dev_memoryPool.cpp:539-566 DevMemoryPool_AddAddrMap *)
Definition DevMemoryPool_AddAddrMap (a listIdx nodeIdx : Z) (w : world) : outcome (Z * world) :=
  let m := m_addr_map w in
  let n := usedEntries m in
  if negb (init_f w =? TRUE) then Ret (RET_ERR, w)
  else if a =? NULL then Ret (RET_ERR, w)
  else if MAP_MAX <=? n then Ret (RET_ERR, w)
  else
    '(ok, front, _) ← bound_search (rounds n) (test_addr w m (λ b, b <? a)) 0 (n - 1);
    if negb ok then Ret (RET_ERR, w)
    else
      es ← insert_entry (node m) n front (mkMapNode nodeIdx listIdx);
      Ret (RET_OK, set_addr_map w (mkMap (n + 1) es)).

(** @src src/mivifwk/odm/plugins/qcom/ldc/device/dev_memoryPool.cpp:568-607 DevMemoryPool_RemoveAddrMap
    The result and the entry removed. *)
Definition DevMemoryPool_RemoveAddrMap (a : Z) (w : world) : outcome (option Dev_MemoryPool_map_node * world) :=
  let m := m_addr_map w in
  let n := usedEntries m in
  if negb (init_f w =? TRUE) then Ret (None, w)
  else if a =? NULL then Ret (None, w)
  else if MAP_MAX <=? n then Ret (None, w)
  else
    found ← exact_search (rounds n) (compare_addr w m a) 0 (n - 1);
    match found with
    | Hit _ mid =>
        e ← arr_get (node m) mid;
        es ← remove_entry (node m) n mid;
        Ret (Some e, set_addr_map w (mkMap (if n - 1 <? 0 then 0 else n - 1) es))
    | _ => Ret (None, w)
    end.

(** The loop of [Clean] over the nodes of a list. *)
Fixpoint clean_nodes (ns : list (option Dev_MemoryPool_node)) (all usedn : Z) (b : gmap Z (list Z))
    : outcome (Z * Z * gmap Z (list Z)) :=
  match ns with
  | [] => Ret (all, usedn, b)
  | None :: ns' => clean_nodes ns' all usedn b
  | Some n :: ns' =>
      b ← (if addr n =? NULL then Ret b else free_block b (addr n));
      clean_nodes ns' (if all - 1 <=? 0 then 0 else all - 1) (if usedn - 1 <=? 0 then 0 else usedn - 1) b
  end.

Fixpoint clean_lists (ls : list (option Dev_MemoryPool_list)) (b : gmap Z (list Z))
    : outcome (list (option Dev_MemoryPool_list) * gmap Z (list Z)) :=
  match ls with
  | [] => Ret ([], b)
  | None :: ls' => '(ls', b) ← clean_lists ls' b; Ret (None :: ls', b)
  | Some l :: ls' =>
      '(all, usedn, b) ← clean_nodes (p_node l) (allNum l) (usedNum l) b;
      '(ls', b) ← clean_lists ls' b;
      Ret ((if (all =? 0) && (usedn =? 0) then None
            else Some (mkList all usedn (realSize l) (unallocdNodeIndex l) (AllocdButUnusedNodeIndex l)
                         ((λ _, None) <$> p_node l))) :: ls', b)
  end.

(** @src src/mivifwk/odm/plugins/qcom/ldc/device/dev_memoryPool.cpp:609-641 DevMemoryPool_Clean *)
Definition DevMemoryPool_Clean (w : world) : outcome (Z * world) :=
  let h := m_list w in
  '(ls, b) ← clean_lists (p_list h) (blocks w);
  Ret (RET_OK, set_blocks (set_head w (mkHead (usedLists h) (AllocdAndusedListIndex h)
                                         (AllocdButUnusedListIndex h) ls)) b).

(** A node from the stack of unused ones. *)
Definition pop_unused (l : Dev_MemoryPool_list) : outcome (option (Z * Dev_MemoryPool_node)) :=
  let unusedAllocdNum := allNum l - usedNum l in
  if 0 <? unusedAllocdNum then
    j ← arr_get (AllocdButUnusedNodeIndex l) (unusedAllocdNum - 1);
    n ← arr_get (p_node l) j;
    n ← or_ub n;
    Ret (if negb (used n =? TRUE) then Some (j, n) else None)
  else Ret None.

(** A block of the size of a list, or null. *)
Definition alloc_block (b : gmap Z (list Z)) (size : Z) : Z * gmap Z (list Z) :=
  match malloc b size with Some (a, bs) => (a, <[a := bs]> b) | None => (NULL, b) end.

(** @src src/mivifwk/odm/plugins/qcom/ldc/device/dev_memoryPool.cpp:659-676 DevMemoryPool_GetNode (new node) *)
Definition add_node (i : Z) (l : Dev_MemoryPool_list) (w : world) : outcome (Z * option Z * world) :=
  let unusedNum := DEV_MEMORY_POOL_NODE_MAX - allNum l in
  j ← arr_get (unallocdNodeIndex l) (unusedNum - 1);
  n ← arr_get (p_node l) j;
  match n with
  | Some _ => Ret (RET_ERR, None, w)
  | None =>
      if negb (node_room (blocks w)) then Ret (RET_ERR, None, w)
      else
        let '(a, b) := alloc_block (blocks w) (realSize l) in
        let l := with_node (with_nums l (allNum l + 1) (usedNum l + 1)) j
                   (Some (mkNode a 0 0 0 0 0 0 "" "")) in
        Ret (RET_OK, Some j, set_blocks (set_list w i (Some l)) b)
  end.

(** @src src/mivifwk/odm/plugins/qcom/ldc/device/dev_memoryPool.cpp:643-680 DevMemoryPool_GetNode
    The result and the index of the node in list [i], which is set also when the
    check of a reused node fails. *)
Definition DevMemoryPool_GetNode (i : Z) (w : world) : outcome (Z * option Z * world) :=
  if negb (init_f w =? TRUE) then Ret (RET_ERR, None, w)
  else
    l ← list_at w i;
    match l with
    | None => Ret (RET_ERR, None, w)
    | Some l =>
        reused ← pop_unused l;
        match reused with
        | Some (j, n) =>
            let w := set_list w i (Some (with_nums l (allNum l) (usedNum l + 1))) in
            ret ← DevMemoryPool_Check n w;
            Ret (if negb (ret =? RET_OK) then RET_ERR else RET_OK, Some j, w)
        | None => add_node i l w
        end
    end.

(** @src src/mivifwk/odm/plugins/qcom/ldc/device/dev_memoryPool.cpp:682-697 DevMemoryPool_GetRealFree *)
Definition DevMemoryPool_GetRealFree (l : Dev_MemoryPool_list) (w : world) : Z :=
  if negb (init_f w =? TRUE) then RET_ERR
  else
    match find (λ t : Z * Z * Z, realSize l <=? t.1.1) m_free_threshold with
    | Some t => if t.1.2 <=? allNum l - usedNum l then RET_OK else RET_ERR
    | None => RET_ERR
    end.

(** @src src/mivifwk/odm/plugins/qcom/ldc/device/dev_memoryPool.cpp:699-728 DevMemoryPool_RemoveNode
    Of the node [n] at index [j] of the list [l] at index [i]. *)
Definition DevMemoryPool_RemoveNode (i : Z) (l : Dev_MemoryPool_list) (j : Z) (n : Dev_MemoryPool_node)
    (w : world) : outcome (Z * world) :=
  let unusedAllocdNum := allNum l - usedNum l in
  let unusedNum := DEV_MEMORY_POOL_NODE_MAX - allNum l in
  let usedn := if usedNum l - 1 <=? 0 then 0 else usedNum l - 1 in
  if negb (init_f w =? TRUE) then Ret (RET_ERR, w)
  else if unusedNum =? DEV_MEMORY_POOL_NODE_MAX then Ret (RET_ERR, w)
  else if DevMemoryPool_GetRealFree l w =? RET_OK then
    b ← (if addr n =? NULL then Ret (blocks w) else free_block (blocks w) (addr n));
    unallocd ← arr_set (unallocdNodeIndex l) unusedNum j;
    let all := if allNum l - 1 <=? 0 then 0 else allNum l - 1 in
    Ret (RET_OK, set_blocks (set_list w i (Some
      (mkList all usedn (realSize l) unallocd (AllocdButUnusedNodeIndex l)
         (<[Z.to_nat j := None]> (p_node l))))) b)
  else
    unused ← arr_set (AllocdButUnusedNodeIndex l) unusedAllocdNum j;
    let n := mkNode (addr n) (userSzie n) (used n) (allocTimestamp n) (s64 (clock 0)) (waitTime n) (allocTime n)
               (fileInfo n) (tagName n) in
    Ret (RET_OK, set_list w i (Some
      (mkList (allNum l) usedn (realSize l) (unallocdNodeIndex l) unused
         (<[Z.to_nat j := Some n]> (p_node l))))).

(** [p_node->field = ...] on node [j] of list [i]. *)
Definition update_node (w : world) (i j : Z) (f : Dev_MemoryPool_node → Dev_MemoryPool_node)
    : outcome (Dev_MemoryPool_node * world) :=
  l ← list_at w i; l ← or_ub l;
  n ← arr_get (p_node l) j; n ← or_ub n;
  Ret (f n, set_list w i (Some (with_node l j (Some (f n))))).

Definition set_used (v : Z) (n : Dev_MemoryPool_node) : Dev_MemoryPool_node :=
  mkNode (addr n) (userSzie n) v (allocTimestamp n) (unusedTimestamp n) (waitTime n) (allocTime n)
    (fileInfo n) (tagName n).

Definition set_realSize (w : world) (i realSz : Z) : outcome world :=
  l ← list_at w i; l ← or_ub l;
  Ret (set_list w i (Some (mkList (allNum l) (usedNum l) realSz (unallocdNodeIndex l)
                             (AllocdButUnusedNodeIndex l) (p_node l)))).

(** The node of a new block. *)
Definition describe (size : Z) (fi tn : string) (n : Dev_MemoryPool_node) : Dev_MemoryPool_node :=
  mkNode (addr n) size (used n) (s64 (clock 0)) (unusedTimestamp n) (s64 (u64 (clock 1 - clock 0)))
    (s64 (u64 (clock 3 - clock 2))) fi tn.

(** @src src/mivifwk/odm/plugins/qcom/ldc/device/dev_memoryPool.cpp:736-766 DevMemoryPool_Malloc (locked)
    Up to the label [exit]: the address handed out, or null. *)
Definition malloc_locked (size : Z) (mk : mark) (w : world) : outcome (Z * world) :=
  let noDirFileName := DevMemoryPool_NoDirFileName (mk_fileName mk) in
  realSz ← DevMemoryPool_GetRealSize size;
  '(_, i, w) ← DevMemoryPool_GetList realSz w;
  match i with
  | None => Ret (NULL, w)
  | Some i =>
      '(_, j, w) ← DevMemoryPool_GetNode i w;
      match j with
      | None => Ret (NULL, w)
      | Some j =>
          fi ← sprintf_s DEV_MEMORY_ALLOC_INFO_MAX_LEN
                 ("[" +:+ noDirFileName +:+ "]:[" +:+ pretty (s32 (mk_fileLine mk)) +:+ "]")%string;
          tn ← sprintf_s DEV_MEMORY_ALLOC_INFO_MAX_LEN ("[" +:+ mk_tagName mk +:+ "]")%string;
          '(n, w) ← update_node w i j (describe size fi tn);
          if addr n =? NULL then Ret (NULL, w)
          else
            '(ret, w) ← DevMemoryPool_Mark n w;
            if negb (ret =? RET_OK) then Ret (NULL, w)
            else
              '(ret, w) ← DevMemoryPool_AddAddrMap (addr n) i j w;
              if negb (ret =? RET_OK) then Ret (NULL, w)
              else
                '(ret, w) ← DevMemoryPool_AddRealSizeMap (addr n) realSz i j w;
                if negb (ret =? RET_OK) then Ret (NULL, w)
                else
                  '(n, w) ← update_node w i j (set_used TRUE);
                  w ← set_realSize w i realSz;
                  Ret (addr n + DEV_MEMORY_MARK_OFFSET, w)
      end
  end.

(** @src src/mivifwk/odm/plugins/qcom/ldc/device/dev_memoryPool.cpp:730-767 DevMemoryPool_Malloc *)
Definition DevMemoryPool_Malloc (size : Z) (mk : mark) (w : world) : outcome (Z * world) :=
  if negb (init_f w =? TRUE) then Ret (NULL, w)
  else
    '(ret, w) ← lock w;
    if negb (ret =? RET_OK) then Ret (NULL, w)
    else
      '(a, w) ← malloc_locked size mk w;
      '(_, w) ← unlock w;
      Ret (a, w).

(** What [Free] does at its label [exit]. *)
Definition free_exit (ret : Z) (w : world) : outcome (Z * world) :=
  '(r, w) ← unlock w; Ret (Z.lor ret r, w).

(** @src src/mivifwk/odm/plugins/qcom/ldc/device/dev_memoryPool.cpp:783-797 DevMemoryPool_Free (the entry found)
    The returns on a null pointer keep the lock. *)
Definition free_entry (realAddr : Z) (e : Dev_MemoryPool_map_node) (w : world) : outcome (Z * world) :=
  let i := listIndex e in let j := nodeIndex e in
  l ← list_at w i;
  match l with
  | None => Ret (RET_ERR, w)
  | Some l =>
      n ← arr_get (p_node l) j;
      match n with
      | None => Ret (RET_ERR, w)
      | Some n =>
          '(ret, w) ← DevMemoryPool_RemoveRealSizeMap realAddr (realSize l) w;
          if negb (ret =? RET_OK) then free_exit ret w
          else
            ret ← DevMemoryPool_Check n w;
            if negb (ret =? RET_OK) then free_exit ret w
            else
              '(n, w) ← update_node w i j (set_used FALSE);
              l ← list_at w i; l ← or_ub l;
              '(ret, w) ← DevMemoryPool_RemoveNode i l j n w;
              if negb (ret =? RET_OK) then free_exit ret w
              else
                l ← list_at w i; l ← or_ub l;
                '(ret, w) ← DevMemoryPool_RemoveList i l w;
                free_exit ret w
      end
  end.

(** @src src/mivifwk/odm/plugins/qcom/ldc/device/dev_memoryPool.cpp:769-799 DevMemoryPool_Free *)
Definition DevMemoryPool_Free (a : Z) (w : world) : outcome (Z * world) :=
  if negb (init_f w =? TRUE) then Ret (RET_ERR, w)
  else if a =? NULL then Ret (RET_OK, w)
  else
    '(ret, w) ← lock w;
    if negb (ret =? RET_OK) then Ret (ret, w)
    else
      let realAddr := a - DEV_MEMORY_MARK_OFFSET in
      '(e, w) ← DevMemoryPool_RemoveAddrMap realAddr w;
      match e with
      | None => free_exit RET_ERR w
      | Some e => free_entry realAddr e w
      end.

(** The tables after [memset(..., 0, ...)]. *)
Definition zero_head : Dev_MemoryPool_list_head :=
  mkHead 0 (replicate (Z.to_nat DEV_MEMORY_POOL_LIST_MAX) 0) (replicate (Z.to_nat DEV_MEMORY_POOL_LIST_MAX) 0)
    (replicate (Z.to_nat DEV_MEMORY_POOL_LIST_MAX) None).
Definition zero_map : Dev_MemoryPool_map := mkMap 0 (replicate (Z.to_nat MAP_MAX) (mkMapNode 0 0)).

(** @src src/mivifwk/odm/plugins/qcom/ldc/device/dev_memoryPool.cpp:801-816 DevMemoryPool_Init *)
Definition DevMemoryPool_Init (mk : mark) (w : world) : outcome (Z * world) :=
  if init_f w =? TRUE then Ret (RET_OK, w)
  else
    '(ret, (m, c)) ← mx_Create m_mutex_Id mk (mutexes w, vars w);
    let w := set_vars (set_mutexes w m) c in
    if negb (Z.lor RET_OK ret =? RET_OK) then Ret (RET_ERR, w)
    else
      let h := mkHead 0 (AllocdAndusedListIndex zero_head) (seqZ 0 DEV_MEMORY_POOL_LIST_MAX) (p_list zero_head) in
      Ret (RET_OK, mkWorld (mutexes w) (vars w) TRUE h zero_map zero_map (blocks w)).

(** @src src/mivifwk/odm/plugins/qcom/ldc/device/dev_memoryPool.cpp:818-834 DevMemoryPool_Deinit *)
Definition DevMemoryPool_Deinit (w : world) : outcome (Z * world) :=
  if negb (init_f w =? TRUE) then Ret (RET_OK, w)
  else
    '(ret, w) ← (if 0 <? usedEntries (m_realSize_map w) then DevMemoryPool_Report w else Ret (RET_OK, w));
    '(r, w) ← DevMemoryPool_Clean w;
    let ret := Z.lor ret r in
    '(r, (m, c)) ← mx_Destroy m_mutex_Id (mutexes w, vars w);
    let ret := Z.lor ret r in
    Ret (if negb (ret =? RET_OK) then RET_ERR else ret,
         mkWorld m c FALSE zero_head zero_map zero_map (blocks w)).
End Pool.
