(* ===== verification/DevMemoryPoolSize.v ===== *)
(** * The sizes of the memory pool's blocks

    [GetRealSize] in closed form, and when both marks fit the block it asks for. *)
From S2P Require Import Prelude DevTypes DevArrays DevMemoryPool.
#[local] Open Scope Z_scope.

(** ** The size of a block *)

(** The granularity of a size: a power of two. *)
Definition align_of (size : Z) : Z :=
  match find (λ e : Z * Z, size <=? e.1) m_size_align with Some e => e.2 | None => 8 * MB end.

Lemma ALIGNSIZE_up n k : 0 ≤ k < 32 → 0 ≤ n < 2 ^ 32 → ALIGNSIZE n (2 ^ k) = 2 ^ k * ((n + (2 ^ k - 1)) / 2 ^ k).
Proof.
  intros Hk Hn. unfold ALIGNSIZE. assert (0 < 2 ^ k ≤ 2 ^ 31) as Hp.
  { split; [apply Z.pow_pos_nonneg; lia|apply Z.pow_le_mono_r; lia]. }
  set (m := n + (2 ^ k - 1)). rewrite (u64_small m) by (unfold m; lia).
  replace (2 ^ k - 1) with (Z.ones k) by (rewrite Z.ones_equiv; lia).
  unfold wrapu. rewrite <-Z.land_ones, Z.land_assoc by lia. fold (Z.ldiff m (Z.ones k)).
  rewrite <-Z.ldiff_land, Z.ldiff_ones_r by lia. rewrite Z.land_ones by lia.
  rewrite Z.shiftl_mul_pow2, Z.shiftr_div_pow2 by lia.
  pose proof (Z.mul_div_le m (2 ^ k)). assert (0 ≤ m / 2 ^ k) by (apply Z.div_pos; unfold m; lia).
  rewrite Z.mod_small by (unfold m in *; nia). lia.
Qed.

Lemma align_of_pow size : ∃ k, 9 ≤ k ≤ 23 ∧ align_of size = 2 ^ k.
Proof.
  unfold align_of. destruct (find _ m_size_align) as [e|] eqn:He; [|by exists 23].
  apply find_some in He as [He _]. cbn in He.
  repeat (destruct He as [<-|He]; [first [by exists 9|by exists 10|by exists 12|by exists 13|by exists 15
    |by exists 16|by exists 17|by exists 20|by exists 21|by exists 22|by exists 23]|]). done.
Qed.

Lemma m_size_align_sorted i j e e' : (i ≤ j)%nat →
  m_size_align !! i = Some e → m_size_align !! j = Some e' → e.1 ≤ e'.1.
Proof.
  intros Hij Hi Hj. pose proof (lookup_lt_Some _ _ _ Hi) as Hi'. pose proof (lookup_lt_Some _ _ _ Hj) as Hj'.
  assert (H : forallb (λ i, forallb (λ j, (j <? i)%nat ||
    match m_size_align !! i, m_size_align !! j with Some e, Some e' => e.1 <=? e'.1 | _, _ => true end) (seq 0 12)) (seq 0 12) = true)
    by by vm_compute.
  rewrite forallb_forall in H. specialize (H i ltac:(apply in_seq; change (length m_size_align) with 12%nat in *; lia)).
  rewrite forallb_forall in H. specialize (H j ltac:(apply in_seq; change (length m_size_align) with 12%nat in *; lia)).
  rewrite Hi, Hj in H. apply orb_prop in H as [H|H]; [apply Nat.ltb_lt in H; lia|by apply Z.leb_le].
Qed.

Lemma m_size_align_entry size f : 0 ≤ f ≤ 12 →
  (∀ i e, 0 ≤ i < f → m_size_align !! Z.to_nat i = Some e → e.1 < size) →
  (∀ i e, f ≤ i → m_size_align !! Z.to_nat i = Some e → size ≤ e.1) →
  ∃ e, arr_get m_size_align (if 12 <=? f then 11 else f) = Ret e ∧ e.2 = align_of size.
Proof.
  intros Hf Hlt Hge. unfold align_of.
  assert (∃ n, f = Z.of_nat n ∧ (n < 13)%nat) as (n & -> & Hn) by (exists (Z.to_nat f); lia).
  assert (∀ i e, (i < n)%nat → m_size_align !! i = Some e → e.1 < size) as Hlt'.
  { intros i e Hi He. apply (Hlt (Z.of_nat i) e); [lia|by rewrite Nat2Z.id]. }
  assert (∀ i e, (n ≤ i)%nat → m_size_align !! i = Some e → size ≤ e.1) as Hge'.
  { intros i e Hi He. apply (Hge (Z.of_nat i) e); [lia|by rewrite Nat2Z.id]. }
  clear Hlt Hge Hf.
  assert (find (λ e : Z * Z, size <=? e.1) m_size_align = m_size_align !! n) as ->.
  { revert Hlt' Hge'. clear Hn. generalize m_size_align. intros l. revert n.
    induction l as [|e l IH]; intros n Hlt Hge; [done|]. cbn [find]. destruct n as [|n].
    - destruct (Z.leb_spec size e.1); [done|]. specialize (Hge 0%nat e ltac:(lia) eq_refl). lia.
    - pose proof (Hlt 0%nat e ltac:(lia) eq_refl). destruct (Z.leb_spec size e.1); [lia|].
      apply IH; intros i x Hi Hx; [apply (Hlt (S i) x)|apply (Hge (S i) x)]; (lia || done). }
  do 13 (destruct n as [|n]; [eexists; split; [by vm_compute|done]|]). lia.
Qed.

Lemma GetRealSize_aligned size : 0 ≤ size < 2 ^ 32 →
  DevMemoryPool_GetRealSize size
  = Ret (u32 (if ALIGNSIZE size (align_of size) =? size then size + 16 else ALIGNSIZE size (align_of size))).
Proof.
  intros Hs. unfold DevMemoryPool_GetRealSize. change (Z.of_nat (length m_size_align)) with 12.
  set (p := λ i, match m_size_align !! Z.to_nat i with Some e => e.1 <? size | None => false end).
  assert (∀ i, 0 ≤ i ≤ 11 → ∃ e, m_size_align !! Z.to_nat i = Some e) as Hin.
  { intros i Hi. apply lookup_lt_is_Some_2. change (length m_size_align) with 12%nat. lia. }
  destruct (bound_search_spec p (λ mid, e ← arr_get m_size_align mid; Ret (Some (e.1 <? size))) (rounds 12) 0 (12 - 1))
    as (f & -> & Hf & Ht & Hfl).
  - intros i Hi. destruct (Hin i ltac:(lia)) as [e He]. rewrite (arr_get_Some _ _ e) by (done || lia).
    unfold p. by rewrite He.
  - intros i j Hij Hj. unfold p. destruct (Hin i ltac:(lia)) as [e He], (Hin j ltac:(lia)) as [e' He'].
    rewrite He, He'. intros ?. to_prop. apply Z.ltb_lt.
    pose proof (m_size_align_sorted (Z.to_nat i) (Z.to_nat j) e e' ltac:(lia) He He'). lia.
  - lia.
  - unfold rounds. lia.
  - cbn [mbind outcome_bind]. destruct (m_size_align_entry size f) as (e & He & Ha); [lia| | |].
    + intros i e Hi He. specialize (Ht i Hi). unfold p in Ht. rewrite He in Ht. to_prop. done.
    + intros i e Hi He. destruct (Z.le_gt_cases i 11).
      * specialize (Hfl i ltac:(lia)). unfold p in Hfl. rewrite He in Hfl. to_prop. done.
      * apply lookup_lt_Some in He. change (length m_size_align) with 12%nat in He. lia.
    + cbv zeta. change (12 - 1) with 11. rewrite He. cbn [mbind outcome_bind]. rewrite Ha. destruct (Z.eqb_spec (ALIGNSIZE size (align_of size)) size) as [E|]; [|done].
        rewrite E. unfold DEV_MEMORY_MARK_OFFSET. rewrite u64_small by lia. done.
Qed.

(** The size of a block in closed form. *)
Definition block_size (size : Z) : Z :=
  let a := align_of size in
  if size mod a =? 0 then size + 16 else a * (size / a + 1).

Lemma GetRealSize_closed size : 0 ≤ size ≤ 2 ^ 32 - 2 ^ 23 →
  DevMemoryPool_GetRealSize size = Ret (block_size size) ∧ size ≤ block_size size < 2 ^ 32.
Proof.
  intros Hs. rewrite GetRealSize_aligned by lia. unfold block_size.
  destruct (align_of_pow size) as (k & Hk & ->). rewrite ALIGNSIZE_up by lia.
  assert (2 ^ 9 ≤ 2 ^ k ≤ 2 ^ 23) as Hp by (split; apply Z.pow_le_mono_r; lia). set (a := 2 ^ k) in *. clearbody a.
  pose proof (Z.div_mod size a ltac:(lia)) as Hdm. pose proof (Z.mod_pos_bound size a ltac:(lia)) as Hmod.
  destruct (Z.eqb_spec (size mod a) 0) as [E|E].
  - replace ((size + (a - 1)) / a) with (size / a)
      by (apply (Z.div_unique _ _ _ (a - 1)); lia).
    destruct (Z.eqb_spec (a * (size / a)) size); [|lia]. split; [|lia]. f_equal. apply wrapu_small. lia.
  - replace ((size + (a - 1)) / a) with (size / a + 1)
      by (apply (Z.div_unique _ _ _ (size mod a - 1)); lia).
    destruct (Z.eqb_spec (a * (size / a + 1)) size); [lia|].
    split; [|lia]. f_equal. apply wrapu_small. lia.
Qed.

(** A request gets a block no smaller than itself; the two marks fit too exactly
    when the size leaves 16 bytes up to the next multiple of its granularity, or
    is a multiple. *)
Theorem GetRealSize_fits (size : Z) : 0 ≤ size ≤ 2 ^ 32 - 2 ^ 23 →
  ∃ r, DevMemoryPool_GetRealSize size = Ret r ∧ size ≤ r < 2 ^ 32 ∧
    (size + 2 * DEV_MEMORY_MARK_OFFSET ≤ r ↔
     size mod align_of size = 0 ∨ size mod align_of size ≤ align_of size - 16).
Proof.
  intros Hs. destruct (GetRealSize_closed size Hs) as [E Hb]. exists (block_size size).
  split; [done|]. split; [done|]. unfold block_size, DEV_MEMORY_MARK_OFFSET.
  destruct (align_of_pow size) as (k & Hk & ->).
  assert (2 ^ 9 ≤ 2 ^ k) as Hp by (apply Z.pow_le_mono_r; lia).
  pose proof (Z.div_mod size (2 ^ k) ltac:(lia)). pose proof (Z.mod_pos_bound size (2 ^ k) ltac:(lia)).
  destruct (Z.eqb_spec (size mod 2 ^ k) 0); lia.
Qed.

Lemma GetRealSize_fits_witness : ∃ r, DevMemoryPool_GetRealSize 510 = Ret r ∧ ¬ 510 + 2 * DEV_MEMORY_MARK_OFFSET ≤ r.
Proof.
  destruct (GetRealSize_fits 510) as (r & E & _ & Hr); [lia|]. exists r. split; [done|]. rewrite Hr.
  change (510 mod align_of 510) with 510. change (align_of 510) with 512. lia.
Defined.
