(* ===== verification/DevMemoryPoolInv.v ===== *)
(** * The invariant of the memory pool

    What holds between two calls: the stacks of free lists and nodes hold what
    they should, every node owns a block of its list's size that no other node
    owns, and the two maps hold the blocks in use, in order.  The tables see the
    lists only through [nview], the size and the node an entry names. *)
From S2P Require Import Prelude DevTypes DevArrays DevMemoryPool DevMemoryPoolSize.
From stdpp Require Import sorting.
#[local] Open Scope Z_scope.

(** ** Views *)

(** What index [k] of a list shows. *)
Definition oview (x : option Dev_MemoryPool_list) (k : Z) : option (Z * Dev_MemoryPool_node) :=
  match x with
  | Some l =>
      if 0 <=? k then match p_node l !! Z.to_nat k with Some (Some n) => Some (realSize l, n) | _ => None end else None
  | None => None
  end.

Definition nview (ls : list (option Dev_MemoryPool_list)) (e : Dev_MemoryPool_map_node)
    : option (Z * Dev_MemoryPool_node) :=
  if 0 <=? listIndex e then
    match ls !! Z.to_nat (listIndex e) with Some x => oview x (nodeIndex e) | None => None end
  else None.

(** The entries of a map. *)
Definition entries (m : Dev_MemoryPool_map) : list Dev_MemoryPool_map_node :=
  take (Z.to_nat (usedEntries m)) (node m).

Abbreviation view := (Dev_MemoryPool_map_node → option (Z * Dev_MemoryPool_node)).

Definition addr_of (V : view) (e : Dev_MemoryPool_map_node) : Z :=
  match V e with Some (_, n) => addr n | None => 0 end.
Definition size_of (V : view) (e : Dev_MemoryPool_map_node) : Z :=
  match V e with Some (s, _) => s | None => 0 end.

(** The orders of the two maps. *)
Definition by_addr (V : view) (e e' : Dev_MemoryPool_map_node) : Prop := addr_of V e < addr_of V e'.
Definition by_size (V : view) (e e' : Dev_MemoryPool_map_node) : Prop :=
  size_of V e < size_of V e' ∨ (size_of V e = size_of V e' ∧ addr_of V e < addr_of V e').

Lemma nview_Some ls e s n : nview ls e = Some (s, n) →
  ∃ l, 0 ≤ listIndex e ∧ 0 ≤ nodeIndex e ∧ ls !! Z.to_nat (listIndex e) = Some (Some l) ∧
    p_node l !! Z.to_nat (nodeIndex e) = Some (Some n) ∧ realSize l = s.
Proof.
  unfold nview, oview. intros H. destruct (Z.leb_spec 0 (listIndex e)); [|done].
  destruct (ls !! _) as [[l|]|]; [|done..]. destruct (Z.leb_spec 0 (nodeIndex e)); [|done].
  destruct (p_node l !! _) as [[m|]|] eqn:E; [|done..]. injection H as <- <-. exists l. done.
Qed.

Lemma nview_at ls i j l n : 0 ≤ i → 0 ≤ j → ls !! Z.to_nat i = Some (Some l) → p_node l !! Z.to_nat j = Some (Some n) →
  nview ls (mkMapNode j i) = Some (realSize l, n).
Proof.
  intros Hi Hj El En. unfold nview, oview. cbn [listIndex nodeIndex]. rewrite El, En.
  destruct (Z.leb_spec 0 i), (Z.leb_spec 0 j); (lia || done).
Qed.

Lemma nview_set ls i x y e : 0 ≤ i → ls !! Z.to_nat i = Some x →
  nview (<[Z.to_nat i := y]> ls) e = if listIndex e =? i then oview y (nodeIndex e) else nview ls e.
Proof.
  intros Hi Hx. unfold nview. destruct (Z.eqb_spec (listIndex e) i) as [->|Hne].
  - rewrite list_lookup_insert_eq by (by eapply lookup_lt_Some). destruct (Z.leb_spec 0 i); [done|lia].
  - destruct (Z.leb_spec 0 (listIndex e)); [|done]. rewrite list_lookup_insert_ne by lia. done.
Qed.

(** A list replaced by one that shows the same. *)
Lemma nview_same ls i x y e : 0 ≤ i → ls !! Z.to_nat i = Some x → (∀ k, oview y k = oview x k) →
  nview (<[Z.to_nat i := y]> ls) e = nview ls e.
Proof.
  intros Hi Hx Ho. rewrite (nview_set _ _ x) by done. destruct (Z.eqb_spec (listIndex e) i) as [Ei|]; [|done].
  rewrite Ho. unfold nview. rewrite Ei, Hx. destruct (Z.leb_spec 0 i); [done|lia].
Qed.

(** One node replaced. *)
Lemma nview_node ls i j l l' x : 0 ≤ i → 0 ≤ j → ls !! Z.to_nat i = Some (Some l) →
  is_Some (p_node l !! Z.to_nat j) → p_node l' = <[Z.to_nat j := x]> (p_node l) → realSize l' = realSize l →
  nview (<[Z.to_nat i := Some l']> ls) (mkMapNode j i) = option_map (pair (realSize l)) x ∧
  ∀ e, e ≠ mkMapNode j i → nview (<[Z.to_nat i := Some l']> ls) e = nview ls e.
Proof.
  intros Hi Hj El [y Ey] Ep Es. split.
  - rewrite (nview_set _ _ (Some l)) by done. cbn [listIndex nodeIndex]. rewrite Z.eqb_refl. unfold oview.
    rewrite Ep, Es, list_lookup_insert_eq by (by eapply lookup_lt_Some).
    destruct (Z.leb_spec 0 j); [|lia]. by destruct x.
  - intros [k i'] Hne. rewrite (nview_set _ _ (Some l)) by done. cbn [listIndex nodeIndex].
    destruct (Z.eqb_spec i' i) as [->|]; [|done]. unfold nview, oview. cbn [listIndex nodeIndex]. rewrite El, Ep, Es.
    destruct (Z.leb_spec 0 i); [|lia]. destruct (Z.leb_spec 0 k); [|done].
    rewrite list_lookup_insert_ne; [done|]. intros ?. apply Hne. f_equal. lia.
Qed.

(** ** Stacks of indices *)

(** The first [k] entries are different indices that satisfy [P]. *)
Definition stack_of (k : Z) (a : list Z) (P : Z → Prop) : Prop :=
  NoDup (take (Z.to_nat k) a) ∧ Forall (λ j, 0 ≤ j ∧ P j) (take (Z.to_nat k) a).

Lemma stack_of_pop k a P x : 0 < k → a !! Z.to_nat (k - 1) = Some x → stack_of k a P →
  (0 ≤ x ∧ P x) ∧ stack_of (k - 1) a P ∧ x ∉ take (Z.to_nat (k - 1)) a.
Proof.
  intros Hk Hx [Hn Hf]. replace (Z.to_nat k) with (S (Z.to_nat (k - 1))) in * by lia.
  rewrite (take_S_r _ _ _ Hx) in *. apply NoDup_app in Hn as (Hn & Hd & _). apply Forall_app in Hf as [Hf Hfx].
  rewrite Forall_singleton in Hfx. split; [exact Hfx|]. split; [by split|]. intros Hin. destruct (Hd x Hin). by apply list_elem_of_singleton.
Qed.

Lemma stack_of_push k a (P : Z → Prop) x : 0 ≤ k < Z.of_nat (length a) → stack_of k a P → 0 ≤ x → P x →
  x ∉ take (Z.to_nat k) a → stack_of (k + 1) (<[Z.to_nat k := x]> a) P.
Proof.
  intros Hk [Hn Hf] Hx HP Hin. unfold stack_of. replace (Z.to_nat (k + 1)) with (S (Z.to_nat k)) by lia.
  rewrite (take_S_r _ _ x) by (apply list_lookup_insert_eq; lia). rewrite take_insert_ge by lia. split.
  - apply NoDup_app. split; [done|]. split; [|apply NoDup_singleton]. by intros y Hy ->%list_elem_of_singleton.
  - apply Forall_app. split; [done|]. by apply Forall_singleton.
Qed.

Lemma stack_of_impl k a (P Q : Z → Prop) : (∀ j, j ∈ take (Z.to_nat k) a → P j → Q j) → stack_of k a P → stack_of k a Q.
Proof.
  intros HPQ [Hn Hf]. split; [done|]. rewrite Forall_forall in *. intros j Hj. destruct (Hf j Hj). by eauto.
Qed.

(** Different indices below [n] are at most [n]. *)
Lemma nodup_bound (l : list Z) n : 0 ≤ n → NoDup l → Forall (λ x, 0 ≤ x < n) l → Z.of_nat (length l) ≤ n.
Proof.
  intros Hn Hd Hf. assert (l ⊆+ seqZ 0 n) as Hs.
  { apply NoDup_submseteq; [done|]. intros x Hx. rewrite Forall_forall in Hf. apply elem_of_seqZ.
    specialize (Hf x Hx). lia. }
  apply submseteq_length in Hs. rewrite length_seqZ in Hs. lia.
Qed.

(** ** Lists *)

(** A node that can be handed out again. *)
Definition idle (size : Z) (n : Dev_MemoryPool_node) : Prop :=
  used n ≠ TRUE ∧ addr n ≠ NULL ∧ 0 ≤ userSzie n ∧ userSzie n + 16 ≤ size.

Record list_ok (l : Dev_MemoryPool_list) : Prop := {
  lo_len1 : length (unallocdNodeIndex l) = 512%nat;
  lo_len2 : length (AllocdButUnusedNodeIndex l) = 512%nat;
  lo_len3 : length (p_node l) = 512%nat;
  lo_nums : 0 ≤ usedNum l ≤ allNum l ∧ allNum l ≤ 512;
  lo_size : 0 ≤ realSize l < 2 ^ 32;
  lo_free : stack_of (512 - allNum l) (unallocdNodeIndex l) (λ j, p_node l !! Z.to_nat j = Some None);
  lo_idle : stack_of (allNum l - usedNum l) (AllocdButUnusedNodeIndex l)
    (λ j, ∃ n, p_node l !! Z.to_nat j = Some (Some n) ∧ idle (realSize l) n);
}.

(** Node [j] is neither free nor idle. *)
Definition in_hand (l : Dev_MemoryPool_list) (j : Z) : Prop :=
  j ∉ take (Z.to_nat (allNum l - usedNum l)) (AllocdButUnusedNodeIndex l).

(** Counting: a node in hand is one that [usedNum] counts. *)
Lemma in_hand_counted l j n : list_ok l → 0 ≤ j → p_node l !! Z.to_nat j = Some (Some n) → in_hand l j →
  1 ≤ usedNum l.
Proof.
  intros [H1 H2 H3 Hn _ [Hfd Hff] [Hid Hif]] Hj Hjn Hh.
  set (fr := take _ (unallocdNodeIndex l)) in *. set (idl := take _ (AllocdButUnusedNodeIndex l)) in *.
  assert (length fr = Z.to_nat (512 - allNum l)) by (unfold fr; rewrite length_take; lia).
  assert (length idl = Z.to_nat (allNum l - usedNum l)) by (unfold idl; rewrite length_take; lia).
  assert (∀ k x, 0 ≤ k → p_node l !! Z.to_nat k = Some x → k < 512) as Hin.
  { intros k x Hk Hx. apply lookup_lt_Some in Hx. lia. }
  rewrite Forall_forall in Hff, Hif.
  pose proof (nodup_bound (fr ++ idl ++ [j]) 512 ltac:(lia)) as Hb. rewrite !length_app in Hb. simpl in Hb.
  enough (Z.of_nat (length fr + (length idl + 1)) ≤ 512) by lia. apply Hb.
  - apply NoDup_app. split; [done|]. split.
    + intros k Hk Hk'. destruct (Hff k Hk) as [_ E]. apply elem_of_app in Hk' as [Hk'|Hk'].
      * destruct (Hif k Hk') as (_ & m & E' & _). congruence.
      * apply list_elem_of_singleton in Hk' as ->. congruence.
    + apply NoDup_app. split; [done|]. split; [|apply NoDup_singleton].
      by intros k Hk ->%list_elem_of_singleton.
  - rewrite !Forall_app. split_and!.
    + apply Forall_forall. intros k Hk. destruct (Hff k Hk). split; [done|by eapply Hin].
    + apply Forall_forall. intros k Hk. destruct (Hif k Hk) as (? & m & E & _). split; [done|by eapply Hin].
    + apply Forall_singleton. split; [done|by eapply Hin].
Qed.

(** The free stack and the nodes: an index on it has no node. *)
Lemma not_free l j n : list_ok l → p_node l !! Z.to_nat j = Some (Some n) →
  j ∉ take (Z.to_nat (512 - allNum l)) (unallocdNodeIndex l).
Proof.
  intros Hl Hj Hin. destruct (lo_free l Hl) as [_ Hf]. rewrite Forall_forall in Hf.
  destruct (Hf j Hin) as [_ E]. congruence.
Qed.

Lemma list_ok_new r : 0 ≤ r < 2 ^ 32 → list_ok (new_list r).
Proof.
  intros Hr. split; try done; cbn [allNum usedNum realSize unallocdNodeIndex AllocdButUnusedNodeIndex p_node new_list].
  - unfold stack_of. change (take (Z.to_nat (512 - 0)) (seqZ 0 DEV_MEMORY_POOL_NODE_MAX)) with (seqZ 0 512).
    split; [apply NoDup_seqZ|]. apply Forall_forall.
    intros j Hj%elem_of_seqZ. split; [lia|]. apply lookup_replicate_2. unfold DEV_MEMORY_POOL_NODE_MAX. lia.
  - split; [apply NoDup_nil_2|apply Forall_nil_2].
Qed.

(** Taking an idle node in hand. *)
Lemma list_ok_pop l j n : list_ok l → 0 < allNum l - usedNum l →
  AllocdButUnusedNodeIndex l !! Z.to_nat (allNum l - usedNum l - 1) = Some j →
  p_node l !! Z.to_nat j = Some (Some n) →
  let l' := with_nums l (allNum l) (usedNum l + 1) in
  list_ok l' ∧ in_hand l' j ∧ 0 ≤ j ∧ idle (realSize l) n.
Proof.
  intros [H1 H2 H3 Hn Hs Hf Hi] Hpos Hj Hjn l'.
  destruct (stack_of_pop _ _ _ _ Hpos Hj Hi) as ((Hj0 & m & Em & Him) & Hst & Hnin).
  assert (m = n) as -> by congruence.
  assert (allNum l' - usedNum l' = allNum l - usedNum l - 1) as El by (cbn; lia).
  split; [|split; [|done]].
  - split; cbn [with_nums l' allNum usedNum realSize unallocdNodeIndex AllocdButUnusedNodeIndex p_node]; try done.
    + lia.
    + by replace (allNum l - (usedNum l + 1)) with (allNum l - usedNum l - 1) by lia.
  - unfold in_hand. rewrite El. done.
Qed.

(** A node in hand: the stacks do not depend on it. *)
Lemma stack_free_update l j (x : option Dev_MemoryPool_node) k a : 0 ≤ j →
  j ∉ take (Z.to_nat k) a →
  stack_of k a (λ i, p_node l !! Z.to_nat i = Some None) →
  stack_of k a (λ i, <[Z.to_nat j := x]> (p_node l) !! Z.to_nat i = Some None).
Proof.
  intros Hj Hin [Hn Hf]. split; [done|]. rewrite Forall_forall in *. intros i Hi. destruct (Hf i Hi) as [Hi0 E].
  split; [done|]. rewrite list_lookup_insert_ne; [done|]. intros Eij. assert (i = j) as -> by lia. done.
Qed.

Lemma stack_idle_update l j (x : option Dev_MemoryPool_node) r k a : 0 ≤ j →
  j ∉ take (Z.to_nat k) a →
  stack_of k a (λ i, ∃ n, p_node l !! Z.to_nat i = Some (Some n) ∧ idle r n) →
  stack_of k a (λ i, ∃ n, <[Z.to_nat j := x]> (p_node l) !! Z.to_nat i = Some (Some n) ∧ idle r n).
Proof.
  intros Hj Hin [Hn Hf]. split; [done|]. rewrite Forall_forall in *. intros i Hi.
  destruct (Hf i Hi) as (Hi0 & m & E & Hm). split; [done|]. exists m. split; [|done].
  rewrite list_lookup_insert_ne; [done|]. intros Eij. assert (i = j) as -> by lia. done.
Qed.

(** A new node in hand. *)
Lemma list_ok_add l j n : list_ok l → allNum l < 512 →
  unallocdNodeIndex l !! Z.to_nat (512 - allNum l - 1) = Some j →
  let l' := with_node (with_nums l (allNum l + 1) (usedNum l + 1)) j (Some n) in
  p_node l !! Z.to_nat j = Some None ∧ list_ok l' ∧ in_hand l' j ∧ 0 ≤ j.
Proof.
  intros [H1 H2 H3 Hn Hs Hf Hi] Hlt Hj l'.
  destruct (stack_of_pop (512 - allNum l) _ _ j ltac:(lia) Hj Hf) as ((Hj0 & Ej) & Hst & Hnin).
  assert (j ∉ take (Z.to_nat (allNum l - usedNum l)) (AllocdButUnusedNodeIndex l)) as Hni.
  { intros Hin. destruct Hi as [_ Hi]. rewrite Forall_forall in Hi. destruct (Hi j Hin) as (_ & m & E & _). congruence. }
  split; [done|]. split; [|split; [|done]].
  - split; cbn [with_node with_nums l' allNum usedNum realSize unallocdNodeIndex AllocdButUnusedNodeIndex p_node]; try done.
    + by rewrite length_insert.
    + lia.
    + replace (512 - (allNum l + 1)) with (512 - allNum l - 1) by lia. by apply stack_free_update.
    + replace (allNum l + 1 - (usedNum l + 1)) with (allNum l - usedNum l) by lia. by apply stack_idle_update.
  - unfold in_hand. cbn [with_node with_nums l' allNum usedNum AllocdButUnusedNodeIndex].
    by replace (allNum l + 1 - (usedNum l + 1)) with (allNum l - usedNum l) by lia.
Qed.

Lemma list_ok_update l j n n' : list_ok l → 0 ≤ j → p_node l !! Z.to_nat j = Some (Some n) → in_hand l j →
  list_ok (with_node l j (Some n')) ∧ in_hand (with_node l j (Some n')) j.
Proof.
  intros Hl Hj Hjn Hh. pose proof (not_free l j n Hl Hjn) as Hnf. destruct Hl as [H1 H2 H3 Hn Hs Hf Hi].
  split; [|exact Hh]. split; cbn [with_node allNum usedNum realSize unallocdNodeIndex AllocdButUnusedNodeIndex p_node]; try done.
  - by rewrite length_insert.
  - by apply stack_free_update.
  - by apply stack_idle_update.
Qed.

(** Giving up the block of a node in hand. *)
Lemma list_ok_drop l j n : list_ok l → 0 ≤ j → p_node l !! Z.to_nat j = Some (Some n) → in_hand l j →
  list_ok (mkList (allNum l - 1) (usedNum l - 1) (realSize l)
             (<[Z.to_nat (512 - allNum l) := j]> (unallocdNodeIndex l)) (AllocdButUnusedNodeIndex l)
             (<[Z.to_nat j := None]> (p_node l))).
Proof.
  intros Hl Hj Hjn Hh. pose proof (in_hand_counted l j n Hl Hj Hjn Hh) as Hc.
  pose proof (not_free l j n Hl Hjn) as Hnf. destruct Hl as [H1 H2 H3 Hn Hs Hf Hi].
  split; cbn [allNum usedNum realSize unallocdNodeIndex AllocdButUnusedNodeIndex p_node]; try done.
  - by rewrite length_insert.
  - by rewrite length_insert.
  - lia.
  - replace (512 - (allNum l - 1)) with (512 - allNum l + 1) by lia.
    apply stack_of_push; [lia| |done| |done]; [by apply stack_free_update|].
    apply list_lookup_insert_eq. by apply lookup_lt_Some in Hjn.
  - replace (allNum l - 1 - (usedNum l - 1)) with (allNum l - usedNum l) by lia. by apply stack_idle_update.
Qed.

(** Keeping it for later. *)
Lemma list_ok_park l j n n' : list_ok l → 0 ≤ j → p_node l !! Z.to_nat j = Some (Some n) → in_hand l j →
  idle (realSize l) n' →
  list_ok (mkList (allNum l) (usedNum l - 1) (realSize l) (unallocdNodeIndex l)
             (<[Z.to_nat (allNum l - usedNum l) := j]> (AllocdButUnusedNodeIndex l))
             (<[Z.to_nat j := Some n']> (p_node l))).
Proof.
  intros Hl Hj Hjn Hh Hid. pose proof (in_hand_counted l j n Hl Hj Hjn Hh) as Hc.
  pose proof (not_free l j n Hl Hjn) as Hnf. destruct Hl as [H1 H2 H3 Hn Hs Hf Hi].
  split; cbn [allNum usedNum realSize unallocdNodeIndex AllocdButUnusedNodeIndex p_node]; try done.
  - by rewrite length_insert.
  - by rewrite length_insert.
  - lia.
  - by apply stack_free_update.
  - replace (allNum l - (usedNum l - 1)) with (allNum l - usedNum l + 1) by lia.
    apply stack_of_push; [lia| |done| |done]; [by apply stack_idle_update|].
    exists n'. split; [|done]. apply list_lookup_insert_eq. by apply lookup_lt_Some in Hjn.
Qed.

(** A list with no nodes allocated has none. *)
Lemma list_ok_empty l k x : list_ok l → allNum l = 0 → p_node l !! k = Some x → x = None.
Proof.
  intros [H1 H2 H3 Hn Hs [Hnd Hf] _] E Hk. rewrite E in *. change (Z.to_nat (512 - 0)) with 512%nat in *.
  rewrite firstn_all2 in Hnd, Hf by lia. destruct x as [n|]; [exfalso|done].
  pose proof (lookup_lt_Some _ _ _ Hk) as Hlt. rewrite Forall_forall in Hf.
  assert (∀ i, i ∈ unallocdNodeIndex l → 0 ≤ i < 512) as Hr.
  { intros i Hi. destruct (Hf i Hi) as [Hi0 Ei]. apply lookup_lt_Some in Ei. lia. }
  pose proof (nodup_bound (unallocdNodeIndex l ++ [Z.of_nat k]) 512 ltac:(lia)) as Hb.
  rewrite length_app in Hb. simpl in Hb. enough (Z.of_nat (length (unallocdNodeIndex l) + 1) ≤ 512) by lia. apply Hb.
  - apply NoDup_app. split; [done|]. split; [|apply NoDup_singleton].
    intros i Hi ->%list_elem_of_singleton. destruct (Hf _ Hi) as [_ Ei]. rewrite Nat2Z.id in Ei. congruence.
  - apply Forall_app. split; [by apply Forall_forall|]. apply Forall_singleton. lia.
Qed.
