(* ===== verification/DevMemoryPoolTab.v ===== *)
(** * The maps of the memory pool

    What the insertions and removals of the two maps do to their entries, and the
    part of the invariant about blocks and maps, with the changes that keep it. *)
From S2P Require Import Prelude DevTypes DevArrays DevMemoryPool DevMemoryPoolSize DevMemoryPoolInv.
From stdpp Require Import sorting.
#[local] Open Scope Z_scope.

Abbreviation map_entry := Dev_MemoryPool_map_node.

(** A map within its array. *)
Record map_ok (m : Dev_MemoryPool_map) : Prop := {
  mo_len : length (node m) = Z.to_nat MAP_MAX;
  mo_used : 0 ≤ usedEntries m ≤ MAP_MAX;
}.

Lemma length_entries m : map_ok m → length (entries m) = Z.to_nat (usedEntries m).
Proof. intros [Hl Hu]. unfold entries. rewrite length_take, Hl. unfold MAP_MAX in *. lia. Qed.

Lemma entries_lookup m k : map_ok m → 0 ≤ k < usedEntries m →
  ∃ e, entries m !! Z.to_nat k = Some e ∧ arr_get (node m) k = Ret e.
Proof.
  intros Hm Hk. destruct (arr_get_inside (node m) k) as (e & Eg & El).
  { destruct Hm as [-> Hu]. unfold MAP_MAX in *. lia. }
  exists e. split; [|done]. unfold entries. by rewrite lookup_take_lt by lia.
Qed.

(** An entry that names a node, as the searches of the module see it. *)
Lemma node_of_view {M} (w : world M) e s n : nview (p_list (m_list w)) e = Some (s, n) →
  ∃ l, node_of w e = Ret (Some (l, n)) ∧ list_of w e = Ret (Some l) ∧ realSize l = s.
Proof.
  intros (l & Hi & Hj & El & En & Es)%nview_Some. exists l. unfold node_of, list_of, list_at.
  rewrite (arr_get_Some _ _ (Some l)) by done. cbn [mbind outcome_bind].
  rewrite (arr_get_Some _ _ (Some n)) by done. done.
Qed.

(** ** Searches in a map *)

Section Search.
Context {M : Type} (w : world M) (m : Dev_MemoryPool_map).
Context (Hm : map_ok m).
Abbreviation V := (nview (p_list (m_list w))).
Context (Hseen : Forall (λ e, is_Some (V e)) (entries m)).

(** The address and the size of the block of entry [k]. *)
Definition entry_addr (k : Z) : Z :=
  match entries m !! Z.to_nat k with Some e => addr_of V e | None => 0 end.
Definition entry_size (k : Z) : Z :=
  match entries m !! Z.to_nat k with Some e => size_of V e | None => 0 end.

Lemma entry_seen k : 0 ≤ k < usedEntries m →
  ∃ e l n, arr_get (node m) k = Ret e ∧ node_of w e = Ret (Some (l, n)) ∧ list_of w e = Ret (Some l) ∧
    addr n = entry_addr k ∧ realSize l = entry_size k.
Proof.
  intros Hk. destruct (entries_lookup m k Hm Hk) as (e & El & Eg). rewrite Forall_forall in Hseen.
  destruct (Hseen e) as [[s n] Ev]; [by eapply list_elem_of_lookup_2|].
  destruct (node_of_view w e s n Ev) as (l & En & Elist & Es).
  exists e, l, n. unfold entry_addr, entry_size, addr_of, size_of. rewrite El, Ev. done.
Qed.

Lemma test_addr_at p k : 0 ≤ k < usedEntries m → test_addr w m p k = Ret (Some (p (entry_addr k))).
Proof.
  intros Hk. destruct (entry_seen k Hk) as (e & l & n & Eg & En & _ & Ea & _). unfold test_addr.
  rewrite Eg. cbn [mbind outcome_bind]. rewrite En. cbn [mbind outcome_bind option_map snd]. by rewrite Ea.
Qed.

Lemma test_size_at p k : 0 ≤ k < usedEntries m → test_size w m p k = Ret (Some (p (entry_size k))).
Proof.
  intros Hk. destruct (entry_seen k Hk) as (e & l & n & Eg & _ & El & _ & Es). unfold test_size.
  rewrite Eg. cbn [mbind outcome_bind]. rewrite El. cbn [mbind outcome_bind option_map]. by rewrite Es.
Qed.

Lemma compare_addr_at a k : 0 ≤ k < usedEntries m → compare_addr w m a k = Ret (Some (a ?= entry_addr k)).
Proof.
  intros Hk. destruct (entry_seen k Hk) as (e & l & n & Eg & En & _ & Ea & _). unfold compare_addr.
  rewrite Eg. cbn [mbind outcome_bind]. rewrite En. cbn [mbind outcome_bind option_map snd]. by rewrite Ea.
Qed.
End Search.

(** ** Changes of a map *)

Lemma map_insert m f x : map_ok m → usedEntries m < MAP_MAX → 0 ≤ f ≤ usedEntries m →
  ∃ es, insert_entry (node m) (usedEntries m) f x = Ret es ∧ map_ok (mkMap (usedEntries m + 1) es) ∧
    entries (mkMap (usedEntries m + 1) es) = take (Z.to_nat f) (entries m) ++ x :: drop (Z.to_nat f) (entries m).
Proof.
  intros [Hl Hu] Hlt Hf. destruct (insert_entry_spec (node m) (usedEntries m) f x) as (es & E & Hes & Ht);
    [lia|rewrite Hl; unfold MAP_MAX in *; lia|].
  exists es. split; [done|]. split; [split; cbn; [congruence|lia]|].
  unfold entries. cbn [usedEntries node]. rewrite Ht, take_take. do 2 f_equal. lia.
Qed.

Lemma map_remove m k : map_ok m → 0 ≤ k < usedEntries m →
  let n := if usedEntries m - 1 <? 0 then 0 else usedEntries m - 1 in
  ∃ es, remove_entry (node m) (usedEntries m) k = Ret es ∧ map_ok (mkMap n es) ∧ n = usedEntries m - 1 ∧
    entries (mkMap n es) = take (Z.to_nat k) (entries m) ++ drop (S (Z.to_nat k)) (entries m).
Proof.
  intros [Hl Hu] Hk n. assert (n = usedEntries m - 1) as En by (unfold n; destruct (Z.ltb_spec (usedEntries m - 1) 0); lia).
  destruct (remove_entry_spec (node m) (usedEntries m) k) as (es & E & Hes & Ht);
    [lia|rewrite Hl; unfold MAP_MAX in *; lia|].
  exists es. split; [done|]. split; [split; cbn; [congruence|lia]|]. split; [done|].
  unfold entries. cbn [usedEntries node]. rewrite En, Ht, take_take. do 2 f_equal. lia.
Qed.

(** Facts about indices, as facts about the two parts of the entries. *)
Lemma Forall_take_index {A} (P : A → Prop) (l : list A) f :
  (∀ k x, 0 ≤ k < f → l !! Z.to_nat k = Some x → P x) → Forall P (take (Z.to_nat f) l).
Proof.
  intros H. apply Forall_lookup. intros k x [Hx Hk]%lookup_take_Some.
  apply (H (Z.of_nat k)); [lia|by rewrite Nat2Z.id].
Qed.

Lemma Forall_drop_index {A} (P : A → Prop) (l : list A) f : 0 ≤ f →
  (∀ k x, f ≤ k → l !! Z.to_nat k = Some x → P x) → Forall P (drop (Z.to_nat f) l).
Proof.
  intros Hf H. apply Forall_lookup. intros k x. rewrite lookup_drop. intros Hx.
  apply (H (f + Z.of_nat k)); [lia|]. by replace (Z.to_nat (f + Z.of_nat k)) with (Z.to_nat f + k)%nat by lia.
Qed.

(** ** The operations on the maps *)

Section Maps.
Context {M : Type} (w : world M) (Hinit : init_f w = TRUE).
Abbreviation V := (nview (p_list (m_list w))).
Abbreviation seen m := (Forall (λ e, is_Some (V e)) (entries m)).

Lemma entry_addr_lookup m k e : entries m !! Z.to_nat k = Some e → entry_addr w m k = addr_of V e.
Proof. unfold entry_addr. by intros ->. Qed.
Lemma entry_size_lookup m k e : entries m !! Z.to_nat k = Some e → entry_size w m k = size_of V e.
Proof. unfold entry_size. by intros ->. Qed.

Lemma entry_addr_lt m i j : map_ok m → StronglySorted (by_addr V) (entries m) → 0 ≤ i < j → j < usedEntries m →
  entry_addr w m i < entry_addr w m j.
Proof.
  intros Hm Hs Hij Hj. destruct (entries_lookup m i Hm) as (x & Ex & _); [lia|].
  destruct (entries_lookup m j Hm) as (y & Ey & _); [lia|].
  rewrite (entry_addr_lookup _ _ x), (entry_addr_lookup _ _ y) by done.
  apply (StronglySorted_index _ _ _ _ _ _ Hs Ex Ey). lia.
Qed.

Lemma entry_size_le m i j : map_ok m → StronglySorted (by_size V) (entries m) → 0 ≤ i < j → j < usedEntries m →
  entry_size w m i < entry_size w m j ∨
  (entry_size w m i = entry_size w m j ∧ entry_addr w m i < entry_addr w m j).
Proof.
  intros Hm Hs Hij Hj. destruct (entries_lookup m i Hm) as (x & Ex & _); [lia|].
  destruct (entries_lookup m j Hm) as (y & Ey & _); [lia|].
  rewrite (entry_addr_lookup _ _ x), (entry_addr_lookup _ _ y), (entry_size_lookup _ _ x),
    (entry_size_lookup _ _ y) by done.
  apply (StronglySorted_index _ _ _ _ _ _ Hs Ex Ey). lia.
Qed.

(** An address is entered at its place in the map of addresses. *)
Lemma AddAddrMap_spec a i j : let m := m_addr_map w in
  map_ok m → usedEntries m < MAP_MAX → seen m → StronglySorted (by_addr V) (entries m) → a ≠ NULL →
  ∃ m' f, DevMemoryPool_AddAddrMap a i j w = Ret (RET_OK, set_addr_map w m') ∧ map_ok m' ∧
    entries m' = take f (entries m) ++ mkMapNode j i :: drop f (entries m) ∧
    Forall (λ e, addr_of V e < a) (take f (entries m)) ∧ Forall (λ e, a ≤ addr_of V e) (drop f (entries m)).
Proof.
  intros m Hm Hlt Hseen Hs Ha. pose proof (mo_used m Hm) as Hu.
  destruct (bound_search_spec (λ k, entry_addr w m k <? a) (test_addr w m (λ b, b <? a)) (rounds (usedEntries m))
    0 (usedEntries m - 1)) as (f & Ef & Hf & Hbelow & Habove).
  { intros k Hk. apply (test_addr_at w m Hm Hseen (λ b, b <? a)). lia. }
  { intros k k' Hk Hk' Hp. to_prop. apply Z.ltb_lt. destruct (decide (k = k')) as [->|]; [done|].
    pose proof (entry_addr_lt m k k' Hm Hs). lia. }
  { lia. }
  { unfold rounds. lia. }
  destruct (map_insert m f (mkMapNode j i) Hm Hlt) as (es & Ees & Hm' & Een); [lia|].
  exists (mkMap (usedEntries m + 1) es), (Z.to_nat f). split_and!; [|done|done| |].
  - unfold DevMemoryPool_AddAddrMap. fold m. rewrite Hinit, (proj2 (Z.eqb_neq a NULL) Ha).
    destruct (Z.leb_spec MAP_MAX (usedEntries m)); [lia|]. cbn [negb Z.eqb].
    rewrite Ef. cbn [mbind outcome_bind negb]. by rewrite Ees.
  - apply Forall_take_index. intros k e Hk He. specialize (Hbelow k ltac:(lia)). to_prop.
    by rewrite (entry_addr_lookup m k e He) in Hbelow.
  - apply Forall_drop_index; [lia|]. intros k e Hk He.
    assert (k < usedEntries m) by (apply lookup_lt_Some in He; rewrite length_entries in He by done; lia).
    specialize (Habove k ltac:(lia)). to_prop. by rewrite (entry_addr_lookup m k e He) in Habove.
Qed.

(** The blocks of one size are a range of the map of sizes. *)
Lemma size_range_spec r : let m := m_realSize_map w in
  map_ok m → seen m → StronglySorted (by_size V) (entries m) →
  ∃ f f', size_range w r = Ret (Some (f, f' - 1)) ∧ 0 ≤ f ≤ f' ∧ f' ≤ usedEntries m ∧
    (∀ k, 0 ≤ k < f → entry_size w m k < r) ∧ (∀ k, f ≤ k < f' → entry_size w m k = r) ∧
    (∀ k, f' ≤ k < usedEntries m → r < entry_size w m k).
Proof.
  intros m Hm Hseen Hs. pose proof (mo_used m Hm) as Hu.
  assert (∀ k k', 0 ≤ k ≤ k' → k' < usedEntries m → entry_size w m k ≤ entry_size w m k') as Hle.
  { intros k k' Hk Hk'. destruct (decide (k = k')) as [->|]; [lia|]. pose proof (entry_size_le m k k' Hm Hs). lia. }
  destruct (bound_search_spec (λ k, entry_size w m k <? r) (test_size w m (λ s, s <? r)) (rounds (usedEntries m))
    0 (usedEntries m - 1)) as (f & Ef & Hf & Hbelow & Habove).
  { intros k Hk. apply (test_size_at w m Hm Hseen (λ s, s <? r)). lia. }
  { intros k k' Hk Hk' Hp. to_prop. apply Z.ltb_lt. specialize (Hle k k'). lia. }
  { lia. }
  { unfold rounds. lia. }
  destruct (bound_search_spec (λ k, negb (r <? entry_size w m k)) (test_size w m (λ s, negb (r <? s)))
    (rounds (usedEntries m)) f (usedEntries m - 1)) as (f' & Ef' & Hf' & Hin & Hout).
  { intros k Hk. apply (test_size_at w m Hm Hseen (λ s, negb (r <? s))). lia. }
  { intros k k' Hk Hk' Hp. to_prop. apply negb_true_iff, Z.ltb_ge. specialize (Hle k k'). lia. }
  { lia. }
  { unfold rounds. lia. }
  exists f, f'. split_and!; try lia.
  - unfold size_range. fold m. rewrite Ef. cbn [mbind outcome_bind negb]. rewrite Ef'. done.
  - intros k Hk. specialize (Hbelow k Hk). to_prop. done.
  - intros k Hk. specialize (Hin k Hk). specialize (Habove k ltac:(lia)). to_prop. lia.
  - intros k Hk. specialize (Hout k ltac:(lia)). to_prop. done.
Qed.

Lemma AddRealSizeMap_spec a r i j : let m := m_realSize_map w in
  map_ok m → usedEntries m < MAP_MAX → seen m → StronglySorted (by_size V) (entries m) → a ≠ NULL →
  ∃ m' f, DevMemoryPool_AddRealSizeMap a r i j w = Ret (RET_OK, set_realSize_map w m') ∧ map_ok m' ∧
    entries m' = take f (entries m) ++ mkMapNode j i :: drop f (entries m) ∧
    Forall (λ e, size_of V e < r ∨ (size_of V e = r ∧ addr_of V e < a)) (take f (entries m)) ∧
    Forall (λ e, r < size_of V e ∨ (size_of V e = r ∧ a ≤ addr_of V e)) (drop f (entries m)).
Proof.
  intros m Hm Hlt Hseen Hs Ha. pose proof (mo_used m Hm) as Hu.
  destruct (size_range_spec r Hm Hseen Hs) as (f & f' & Er & Hf & Hf' & Hb & Hin & Hab). fold m in Hf', Hb, Hin, Hab.
  destruct (bound_search_spec (λ k, entry_addr w m k <? a) (test_addr w m (λ b, b <? a)) (rounds (usedEntries m))
    f (f' - 1)) as (g & Eg & Hg & Hbelow & Habove).
  { intros k Hk. apply (test_addr_at w m Hm Hseen (λ b, b <? a)). lia. }
  { intros k k' Hk Hk' Hp. to_prop. apply Z.ltb_lt. destruct (decide (k = k')) as [->|]; [done|].
    pose proof (entry_size_le m k k' Hm Hs). rewrite !Hin in H by lia. lia. }
  { lia. }
  { unfold rounds. lia. }
  destruct (map_insert m g (mkMapNode j i) Hm Hlt) as (es & Ees & Hm' & Een); [lia|].
  exists (mkMap (usedEntries m + 1) es), (Z.to_nat g). split_and!; [|done|done| |].
  - unfold DevMemoryPool_AddRealSizeMap. fold m. rewrite Hinit, (proj2 (Z.eqb_neq a NULL) Ha).
    destruct (Z.leb_spec MAP_MAX (usedEntries m)); [lia|]. cbn [negb Z.eqb].
    rewrite Er. cbn [mbind outcome_bind]. rewrite Eg. cbn [mbind outcome_bind negb]. by rewrite Ees.
  - apply Forall_take_index. intros k e Hk He. rewrite <-(entry_addr_lookup m k e He), <-(entry_size_lookup m k e He).
    destruct (Z.lt_ge_cases k f); [left; by apply Hb; lia|]. right. split; [apply Hin; lia|].
    specialize (Hbelow k ltac:(lia)). by to_prop.
  - apply Forall_drop_index; [lia|]. intros k e Hk He.
    assert (k < usedEntries m) by (apply lookup_lt_Some in He; rewrite length_entries in He by done; lia).
    rewrite <-(entry_addr_lookup m k e He), <-(entry_size_lookup m k e He).
    destruct (Z.lt_ge_cases k f'); [|left; apply Hab; lia]. right. split; [apply Hin; lia|].
    specialize (Habove k ltac:(lia)). by to_prop.
Qed.

Lemma remove_at m k : map_ok m → 0 ≤ k < usedEntries m →
  ∃ es e xs ys, arr_get (node m) k = Ret e ∧ entries m !! Z.to_nat k = Some e ∧
    remove_entry (node m) (usedEntries m) k = Ret es ∧ entries m = xs ++ e :: ys ∧
    map_ok (mkMap (if usedEntries m - 1 <? 0 then 0 else usedEntries m - 1) es) ∧
    entries (mkMap (if usedEntries m - 1 <? 0 then 0 else usedEntries m - 1) es) = xs ++ ys.
Proof.
  intros Hm Hk. destruct (entries_lookup m k Hm Hk) as (e & El & Eg).
  destruct (map_remove m k Hm Hk) as (es & Er & Hm' & _ & Ee).
  exists es, e, (take (Z.to_nat k) (entries m)), (drop (S (Z.to_nat k)) (entries m)).
  by rewrite take_drop_middle.
Qed.

(** The entry of an address is found and removed; an address without one is refused. *)
Lemma RemoveAddrMap_spec a : let m := m_addr_map w in
  map_ok m → usedEntries m < MAP_MAX → seen m → StronglySorted (by_addr V) (entries m) → a ≠ NULL →
  (∃ e m' xs ys, DevMemoryPool_RemoveAddrMap a w = Ret (Some e, set_addr_map w m') ∧ map_ok m' ∧
     entries m = xs ++ e :: ys ∧ entries m' = xs ++ ys ∧ addr_of V e = a) ∨
  (DevMemoryPool_RemoveAddrMap a w = Ret (None, w) ∧ Forall (λ e, addr_of V e ≠ a) (entries m)).
Proof.
  intros m Hm Hlt Hseen Hs Ha. pose proof (mo_used m Hm) as Hu.
  assert (DevMemoryPool_RemoveAddrMap a w =
    (found ← exact_search (rounds (usedEntries m)) (compare_addr w m a) 0 (usedEntries m - 1);
     match found with
     | Hit _ mid =>
         e ← arr_get (node m) mid; es ← remove_entry (node m) (usedEntries m) mid;
         Ret (Some e, set_addr_map w (mkMap (if usedEntries m - 1 <? 0 then 0 else usedEntries m - 1) es))
     | _ => Ret (None, w)
     end)) as ->.
  { unfold DevMemoryPool_RemoveAddrMap. fold m. rewrite Hinit, (proj2 (Z.eqb_neq a NULL) Ha).
    destruct (Z.leb_spec MAP_MAX (usedEntries m)); [lia|done]. }
  destruct (exact_search_spec a (entry_addr w m) (compare_addr w m a) (rounds (usedEntries m)) 0 (usedEntries m - 1))
    as [(f & k & -> & Hk & Ek)|(f & -> & Hno)].
  { intros k Hk. apply (compare_addr_at w m Hm Hseen). lia. }
  { intros i j Hi Hj. apply entry_addr_lt; (done || lia). }
  { lia. }
  { unfold rounds. lia. }
  - left. destruct (remove_at m k Hm ltac:(lia)) as (es & e & xs & ys & Eg & El & Er & Exs & Hm' & Ee).
    exists e, (mkMap (if usedEntries m - 1 <? 0 then 0 else usedEntries m - 1) es), xs, ys.
    cbn [mbind outcome_bind]. rewrite Eg. cbn [mbind outcome_bind]. rewrite Er.
    split_and!; try done. by rewrite <-(entry_addr_lookup m k e El).
  - right. split; [done|]. apply Forall_lookup. intros k e He.
    assert (Z.of_nat k < usedEntries m) by (apply lookup_lt_Some in He; rewrite length_entries in He by done; lia).
    rewrite <-(entry_addr_lookup m (Z.of_nat k) e) by (by rewrite Nat2Z.id). apply Hno. lia.
Qed.

(** A block in the map of sizes is found by its size and address, and removed. *)
Lemma RemoveRealSizeMap_spec a r e0 : let m := m_realSize_map w in
  map_ok m → seen m → StronglySorted (by_size V) (entries m) → a ≠ NULL →
  e0 ∈ entries m → size_of V e0 = r → addr_of V e0 = a →
  ∃ e m' xs ys, DevMemoryPool_RemoveRealSizeMap a r w = Ret (RET_OK, set_realSize_map w m') ∧ map_ok m' ∧
    entries m = xs ++ e :: ys ∧ entries m' = xs ++ ys ∧ addr_of V e = a.
Proof.
  intros m Hm Hseen Hs Ha [k0 Hk0]%list_elem_of_lookup Er0 Ea0. pose proof (mo_used m Hm) as Hu.
  destruct (size_range_spec r Hm Hseen Hs) as (f & f' & Er & Hf & Hf' & Hb & Hin & Hab). fold m in Hf', Hb, Hin, Hab.
  assert (Z.of_nat k0 < usedEntries m) as Hk0'
    by (pose proof Hk0 as Hk; apply lookup_lt_Some in Hk; rewrite length_entries in Hk by done; lia).
  assert (entries m !! Z.to_nat (Z.of_nat k0) = Some e0) as He0 by (by rewrite Nat2Z.id).
  pose proof (entry_addr_lookup m _ _ He0) as Ea. pose proof (entry_size_lookup m _ _ He0) as Es.
  rewrite Ea0 in Ea. rewrite Er0 in Es.
  destruct (exact_search_spec a (entry_addr w m) (compare_addr w m a) (rounds (usedEntries m)) f (f' - 1))
    as [(g & k & Ek & Hk & Eka)|(g & _ & Hno)].
  { intros k Hk. apply (compare_addr_at w m Hm Hseen). lia. }
  { intros i j Hi Hj. pose proof (entry_size_le m i j Hm Hs). rewrite !Hin in H by lia. lia. }
  { lia. }
  { unfold rounds. lia. }
  - destruct (remove_at m k Hm ltac:(lia)) as (es & e & xs & ys & Eg & El & Erm & Exs & Hm' & Ee).
    exists e, (mkMap (if usedEntries m - 1 <? 0 then 0 else usedEntries m - 1) es), xs, ys.
    split_and!; try done; [|by rewrite <-(entry_addr_lookup m k e El)].
    unfold DevMemoryPool_RemoveRealSizeMap. fold m. rewrite Hinit, (proj2 (Z.eqb_neq a NULL) Ha).
    cbn [negb Z.eqb]. rewrite Er. cbn [mbind outcome_bind]. rewrite Ek. cbn [mbind outcome_bind]. by rewrite Erm.
  - exfalso. apply (Hno (Z.of_nat k0)); [|done].
    destruct (Z.lt_ge_cases (Z.of_nat k0) f) as [H|H]; [specialize (Hb (Z.of_nat k0) ltac:(lia)); lia|].
    destruct (Z.lt_ge_cases (Z.of_nat k0) f') as [H'|H']; [lia|]. specialize (Hab (Z.of_nat k0)). lia.
Qed.
End Maps.

(** ** Blocks and maps *)

(** An entry of a map names a node in use, with a block that its marks fit in. *)
Definition in_use (V : view) (e : map_entry) : Prop :=
  ∃ s n, V e = Some (s, n) ∧ used n = TRUE ∧ addr n ≠ NULL ∧ 0 ≤ userSzie n ∧ userSzie n + 16 ≤ s.

(** Every node owns its block. *)
Record blocks_ok (V : view) (b : gmap Z (list Z)) : Prop := {
  bo_block e s n : V e = Some (s, n) → addr n ≠ NULL →
    0 < addr n ∧ ∃ bs, b !! addr n = Some bs ∧ Z.of_nat (length bs) = s;
  bo_own e e' s s' n n' : V e = Some (s, n) → V e' = Some (s', n') → addr n ≠ NULL → addr n = addr n' → e = e';
}.

Record maps_ok (V : view) (am rm : Dev_MemoryPool_map) : Prop := {
  ma_addr : map_ok am;
  ma_size : map_ok rm;
  ma_in_use : Forall (in_use V) (entries am);
  ma_same : entries rm ≡ₚ entries am;
  ma_by_addr : StronglySorted (by_addr V) (entries am);
  ma_by_size : StronglySorted (by_size V) (entries rm);
}.

Lemma StronglySorted_mono {A} (R R' : relation A) (l : list A) :
  (∀ x y, x ∈ l → y ∈ l → R x y → R' x y) → StronglySorted R l → StronglySorted R' l.
Proof.
  intros HR Hs. induction Hs as [|x l Hs IH Hx]; constructor.
  - apply IH. intros y z Hy Hz. apply HR; by right.
  - rewrite Forall_forall in *. intros y Hy. apply HR; [by left|by right|by apply Hx].
Qed.

(** Taking an element out of a sorted list, or putting one in. *)
Lemma StronglySorted_delete {A} (R : relation A) (xs ys : list A) e :
  StronglySorted R (xs ++ e :: ys) → StronglySorted R (xs ++ ys).
Proof.
  rewrite !StronglySorted_app, StronglySorted_cons. intros (Hxy & Hx & _ & Hy). split_and!; [|done..].
  intros x y Hxin Hyin. apply Hxy; [done|by right].
Qed.

Lemma StronglySorted_middle {A} (R : relation A) (xs ys : list A) e :
  StronglySorted R (xs ++ ys) → Forall (λ x, R x e) xs → Forall (R e) ys → StronglySorted R (xs ++ e :: ys).
Proof.
  rewrite !StronglySorted_app, StronglySorted_cons, !Forall_forall. intros (Hxy & Hx & Hy) Hxe Hey.
  split_and!; try done. intros x y Hxin [->|Hyin]%elem_of_cons; [by apply Hxe|by apply Hxy].
Qed.

Lemma maps_ok_ext V V' am rm : (∀ e, e ∈ entries am → V' e = V e) → maps_ok V am rm → maps_ok V' am rm.
Proof.
  intros HV [Ha Hr Hu Hp Hsa Hsr].
  assert (∀ e, e ∈ entries rm → V' e = V e) as HV' by (intros e; rewrite Hp; apply HV).
  split; try done.
  - rewrite Forall_forall in *. intros e He. unfold in_use. rewrite HV by done. by apply Hu.
  - eapply StronglySorted_mono; [|exact Hsa]. intros x y Hx Hy. unfold by_addr, addr_of. by rewrite !HV.
  - eapply StronglySorted_mono; [|exact Hsr]. intros x y Hx Hy. unfold by_size, addr_of, size_of. by rewrite !HV'.
Qed.

Lemma maps_ok_seen V am rm : maps_ok V am rm → Forall (λ e, is_Some (V e)) (entries am) ∧ Forall (λ e, is_Some (V e)) (entries rm).
Proof.
  intros H. pose proof (ma_in_use V am rm H) as Hu. rewrite (ma_same V am rm H).
  split; (eapply Forall_impl; [exact Hu|]); intros e (s & n & E & _); by exists (s, n).
Qed.

Lemma maps_ok_length V am rm : maps_ok V am rm → usedEntries rm = usedEntries am.
Proof.
  intros [Ha Hr _ Hp _ _]. apply Permutation_length in Hp. rewrite !length_entries in Hp by done.
  pose proof (mo_used _ Ha). pose proof (mo_used _ Hr). lia.
Qed.

Lemma subseteq_part {A} (x : A) n l : x ∈ take n l ∨ x ∈ drop n l → x ∈ l.
Proof. intros H. by rewrite <-(take_drop n l), elem_of_app. Qed.

(** A block handed out goes into both maps. *)
Lemma maps_ok_publish V V' b am rm am' rm' e s n n' f g : blocks_ok V b → maps_ok V am rm → e ∉ entries am →
  V e = Some (s, n) → V' e = Some (s, n') → addr n' = addr n → in_use V' e → (∀ e', e' ≠ e → V' e' = V e') →
  map_ok am' → entries am' = take f (entries am) ++ e :: drop f (entries am) →
  Forall (λ e, addr_of V e < addr n) (take f (entries am)) → Forall (λ e, addr n ≤ addr_of V e) (drop f (entries am)) →
  map_ok rm' → entries rm' = take g (entries rm) ++ e :: drop g (entries rm) →
  Forall (λ e, size_of V e < s ∨ (size_of V e = s ∧ addr_of V e < addr n)) (take g (entries rm)) →
  Forall (λ e, s < size_of V e ∨ (size_of V e = s ∧ addr n ≤ addr_of V e)) (drop g (entries rm)) →
  maps_ok V' am' rm'.
Proof.
  intros Hb Hok Hnin HV HV' Ea Hu Hne Hma Eam Hl1 Hg1 Hmr Erm Hl2 Hg2.
  assert (maps_ok V' am rm) as [_ _ Hu' Hp Hsa Hsr].
  { apply (maps_ok_ext V); [|done]. intros e' He'. apply Hne. by intros ->. }
  assert (addr n ≠ NULL) as Hnn by (destruct Hu as (? & ? & E & _ & ? & _); congruence).
  assert (∀ e', e' ∈ entries am → addr_of V e' ≠ addr n ∧ addr_of V' e' = addr_of V e' ∧ size_of V' e' = size_of V e') as Hd.
  { intros e' He'. assert (e' ≠ e) as Hee by (by intros ->). split; [|unfold addr_of, size_of; by rewrite Hne].
    intros Eaddr. apply Hee. unfold addr_of in Eaddr. destruct (V e') as [[s' m]|] eqn:E; [|unfold NULL in *; lia].
    apply (bo_own V b Hb e' e s' s m n); (done || congruence). }
  assert (∀ e', e' ∈ entries rm → e' ∈ entries am) as Hra by (intros e'; by rewrite Hp).
  assert (addr_of V' e = addr n ∧ size_of V' e = s) as [Ea' Es'] by (unfold addr_of, size_of; by rewrite HV').
  rewrite Forall_forall in Hl1, Hg1, Hl2, Hg2.
  split; try done.
  - rewrite Eam. apply Forall_app. rewrite <-(take_drop f (entries am)) in Hu'. apply Forall_app in Hu' as [??].
    split; [done|by constructor].
  - rewrite Eam, Erm, <-!Permutation_middle, !take_drop. by rewrite Hp.
  - rewrite Eam. apply StronglySorted_middle; [by rewrite take_drop|..]; apply Forall_forall; intros e' He'; unfold by_addr;
      (destruct (Hd e') as (? & -> & _); [apply (subseteq_part e' f); auto|]); rewrite Ea'.
    + by apply Hl1.
    + specialize (Hg1 e' He'). simpl in Hg1. lia.
  - rewrite Erm. apply StronglySorted_middle; [by rewrite take_drop|..]; apply Forall_forall; intros e' He'; unfold by_size;
      (destruct (Hd e') as (? & -> & ->); [apply Hra, (subseteq_part e' g); auto|]); rewrite Ea', Es'.
    + by apply Hl2.
    + specialize (Hg2 e' He'). simpl in Hg2. lia.
Qed.

(** An address that leaves the map of addresses leaves the map of sizes as well. *)
Lemma maps_ok_unpublish V b am rm am' rm' e e' xs ys xs' ys' : blocks_ok V b → maps_ok V am rm →
  map_ok am' → entries am = xs ++ e :: ys → entries am' = xs ++ ys →
  map_ok rm' → entries rm = xs' ++ e' :: ys' → entries rm' = xs' ++ ys' → addr_of V e' = addr_of V e →
  maps_ok V am' rm' ∧ (e ∉ entries am') ∧ e' = e.
Proof.
  intros Hb [Ha Hr Hu Hp Hsa Hsr] Hma Eam Eam' Hmr Erm Erm' Eaddr.
  assert (e' = e) as ->.
  { rewrite Forall_forall in Hu. destruct (Hu e) as (s & n & E & _ & Hn & _); [rewrite Eam; set_solver|].
    destruct (Hu e') as (s' & n' & E' & _ & Hn' & _); [rewrite <-Hp, Erm; set_solver|].
    unfold addr_of in Eaddr. rewrite E, E' in Eaddr. by eapply (bo_own V b Hb e' e). }
  split_and!; try done.
  - split; try done.
    + rewrite Eam'. rewrite Eam in Hu. apply Forall_app in Hu as [? [_ ?]%Forall_cons]. by apply Forall_app.
    + rewrite Eam', Erm'. rewrite Eam, Erm, <-!Permutation_middle in Hp. by apply Permutation_cons_inv in Hp.
    + rewrite Eam'. rewrite Eam in Hsa. by eapply StronglySorted_delete.
    + rewrite Erm'. rewrite Erm in Hsr. by eapply StronglySorted_delete.
  - rewrite Eam in Hsa. rewrite Eam'. apply StronglySorted_app in Hsa as (Hxy & _ & Hey%StronglySorted_cons).
    destruct Hey as [Hey _]. rewrite Forall_forall in Hey. intros [Hin|Hin]%elem_of_app.
    + specialize (Hxy e e Hin ltac:(by left)). unfold by_addr in Hxy. lia.
    + specialize (Hey e Hin). unfold by_addr in Hey. lia.
Qed.

(** A change at one entry, which has no block of another, and of bytes in blocks. *)
Lemma blocks_ok_update V V' b b' e0 : blocks_ok V b → (∀ e, e ≠ e0 → V' e = V e) →
  (∀ s n, V' e0 = Some (s, n) → addr n ≠ NULL →
     (0 < addr n ∧ ∃ bs, b' !! addr n = Some bs ∧ Z.of_nat (length bs) = s) ∧
     ∀ e s' n', e ≠ e0 → V e = Some (s', n') → addr n' ≠ addr n) →
  (∀ e s n bs, e ≠ e0 → V e = Some (s, n) → addr n ≠ NULL → b !! addr n = Some bs →
     ∃ bs', b' !! addr n = Some bs' ∧ length bs' = length bs) →
  blocks_ok V' b'.
Proof.
  intros [Hb Ho] HV H0 Hk. split.
  - intros e s n He Hn. destruct (decide (e = e0)) as [->|Hne]; [by apply (H0 s n)|].
    rewrite HV in He by done. destruct (Hb e s n He Hn) as (Hpos & bs & E & El).
    destruct (Hk e s n bs Hne He Hn E) as (bs' & E' & El'). split; [done|]. exists bs'. split; [done|congruence].
  - intros e e' s s' n n' He He' Hn Ea. destruct (decide (e = e0)) as [->|Hne], (decide (e' = e0)) as [->|Hne']; [done| | |].
    + rewrite HV in He' by done. destruct (H0 s n He Hn) as [_ H]. by destruct (H e' s' n' Hne' He').
    + rewrite HV in He by done. destruct (H0 s' n' He') as [_ H]; [congruence|]. by destruct (H e s n Hne He).
    + rewrite HV in He, He' by done. by eapply Ho.
Qed.

Lemma blocks_ok_ext V V' b : (∀ e, V' e = V e) → blocks_ok V b → blocks_ok V' b.
Proof.
  intros HV [Hb Ho]. split.
  - intros e s n He. rewrite HV in He. by apply (Hb e).
  - intros e e' s s' n n' He He'. rewrite HV in He, He'. by apply (Ho e e' s s').
Qed.

(** ** The invariant *)

(** The lists and the stack of their free indices; the sorted index of lists is
    only within bounds, as [RemoveList] does not keep it right. *)
Record head_ok (h : Dev_MemoryPool_list_head) : Prop := {
  ho_len1 : length (AllocdAndusedListIndex h) = 128%nat;
  ho_len2 : length (AllocdButUnusedListIndex h) = 128%nat;
  ho_len3 : length (p_list h) = 128%nat;
  ho_used : 0 ≤ usedLists h ≤ 128;
  ho_index : Forall (λ i, 0 ≤ i < 128) (take (Z.to_nat (usedLists h)) (AllocdAndusedListIndex h));
  ho_free : stack_of (128 - usedLists h) (AllocdButUnusedListIndex h) (λ i, p_list h !! Z.to_nat i = Some None);
  ho_lists : ∀ i l, p_list h !! i = Some (Some l) → list_ok l;
}.

(** What holds when no call is running. *)
Record pool_ok {M} (w : world M) : Prop := {
  po_init : init_f w = TRUE;
  po_head : head_ok (m_list w);
  po_blocks : blocks_ok (nview (p_list (m_list w))) (blocks w);
  po_maps : maps_ok (nview (p_list (m_list w))) (m_addr_map w) (m_realSize_map w);
}.

(** A list in place of another. *)
Lemma head_ok_set h i l l' : head_ok h → 0 ≤ i → p_list h !! Z.to_nat i = Some (Some l) → list_ok l' →
  head_ok (mkHead (usedLists h) (AllocdAndusedListIndex h) (AllocdButUnusedListIndex h)
             (<[Z.to_nat i := Some l']> (p_list h))).
Proof.
  intros [H1 H2 H3 Hu Hix [Hnd Hf] Hl] Hi El Hl'.
  split; cbn [usedLists AllocdAndusedListIndex AllocdButUnusedListIndex p_list]; try done.
  - by rewrite length_insert.
  - split; [done|]. rewrite Forall_forall in *. intros k Hk. destruct (Hf k Hk) as [Hk0 Ek]. split; [done|].
    rewrite list_lookup_insert_ne; [done|]. intros E. assert (i = k) as -> by lia. congruence.
  - intros k x. rewrite list_lookup_insert. case_decide as Hd; [by intros [= <-]|apply Hl].
Qed.

Lemma head_ok_list h i l : head_ok h → p_list h !! Z.to_nat i = Some (Some l) → list_ok l.
Proof. intros H. apply (ho_lists h H). Qed.

(** Counting: a list takes one of the 128 places. *)
Lemma head_ok_used h i l : head_ok h → 0 ≤ i → p_list h !! Z.to_nat i = Some (Some l) → 1 ≤ usedLists h.
Proof.
  intros [H1 H2 H3 Hu Hix [Hnd Hf] Hl] Hi El.
  set (fr := take _ (AllocdButUnusedListIndex h)) in *. rewrite Forall_forall in Hf.
  assert (length fr = Z.to_nat (128 - usedLists h)) by (unfold fr; rewrite length_take; lia).
  pose proof (nodup_bound (fr ++ [i]) 128 ltac:(lia)) as Hb. rewrite length_app in Hb. simpl in Hb.
  enough (Z.of_nat (length fr + 1) ≤ 128) by lia. apply Hb.
  - apply NoDup_app. split; [done|]. split; [|apply NoDup_singleton].
    intros k Hk ->%list_elem_of_singleton. destruct (Hf i Hk) as [_ E]. congruence.
  - apply Forall_app. split.
    + apply Forall_forall. intros k Hk. destruct (Hf k Hk) as [? E]. apply lookup_lt_Some in E. lia.
    + apply Forall_singleton. apply lookup_lt_Some in El. lia.
Qed.
