(* ===== verification/DevMemoryPoolOps.v ===== *)
(** * The steps of the memory pool

    Each step of [Malloc] and [Free] from a state that satisfies the invariant: it
    returns, keeps the invariant, and does to the blocks in use what it should. *)
From S2P Require Import Prelude DevTypes DevArrays DevMemoryPool DevMemoryPoolSize DevMemoryPoolInv DevMemoryPoolTab.
From stdpp Require Import strings pretty.
#[local] Open Scope Z_scope.

(** ** Marks *)

(** Both marks of a block of [sz] bytes for the caller are as [Mark] left them. *)
Definition intact (sz : Z) (blk : list Z) : bool :=
  (le_value (slice 0 8 blk) =? DEV_MEMORY_FRONT_MARK) && (le_value (slice (sz + 8) 8 blk) =? DEV_MEMORY_REAR_MARK).

Lemma read_u64_inside b a off bs : b !! a = Some bs → 0 ≤ off → off + 8 ≤ Z.of_nat (length bs) →
  read_u64 b a off = Ret (le_value (slice off 8 bs)).
Proof.
  intros E H0 H1. unfold read_u64. rewrite E. cbn [or_ub mbind outcome_bind].
  destruct (Z.leb_spec 0 off), (Z.leb_spec (off + 8) (Z.of_nat (length bs))); (lia || done).
Qed.

Lemma write_u64_inside b a off v bs : b !! a = Some bs → 0 ≤ off → off + 8 ≤ Z.of_nat (length bs) →
  write_u64 b a off v = Ret (<[a := splice bs (Z.to_nat off) (le_bytes 8 v)]> b).
Proof.
  intros E H0 H1. unfold write_u64. rewrite E. cbn [or_ub mbind outcome_bind].
  destruct (Z.leb_spec 0 off), (Z.leb_spec (off + 8) (Z.of_nat (length bs))); (lia || done).
Qed.

(** Reading where a word was written, and elsewhere. *)
Lemma slice_splice_in bs off v : 0 ≤ off → off + 8 ≤ Z.of_nat (length bs) →
  slice off 8 (splice bs (Z.to_nat off) (le_bytes 8 v)) = le_bytes 8 v.
Proof.
  intros H0 H1. apply list_eq. intros k. destruct (decide (k < 8)%nat) as [Hk|Hk].
  - rewrite lookup_slice by lia. rewrite lookup_splice_in; [|lia|rewrite length_le_bytes; lia]. f_equal. lia.
  - rewrite !lookup_ge_None_2; [done|rewrite length_le_bytes; lia|]. unfold slice. rewrite length_take. lia.
Qed.

Lemma slice_splice_out {A} (bs new : list A) i off n : (i + length new ≤ length bs)%nat → 0 ≤ off → 0 ≤ n →
  off + n ≤ Z.of_nat i ∨ Z.of_nat (i + length new) ≤ off → slice off n (splice bs i new) = slice off n bs.
Proof.
  intros Hin H0 H1 Hout. apply list_eq. intros k. destruct (decide (Z.of_nat k < n)) as [Hk|Hk].
  - rewrite !lookup_slice by lia. destruct Hout; [apply lookup_splice_lt|apply lookup_splice_ge]; lia.
  - rewrite !lookup_ge_None_2; [done|unfold slice; rewrite length_take; lia..].
Qed.

(** ** What a client sees *)

Section Worlds.
Context {M : Type}.
Implicit Types w : world M.

Abbreviation V w := (nview (p_list (m_list w))).

(** Block [a], of which the caller asked for [sz] bytes, is in use. *)
Definition owns w (a sz : Z) (blk : list Z) : Prop :=
  ∃ e s n, e ∈ entries (m_addr_map w) ∧ V w e = Some (s, n) ∧ addr n = a ∧ userSzie n = sz ∧
    blocks w !! a = Some blk.

(** A step of the module that a client does not see. *)
Record quiet w w' : Prop := {
  q_ok : pool_ok w';
  q_mutexes : mutexes w' = mutexes w;
  q_vars : vars w' = vars w;
  q_addr_map : m_addr_map w' = m_addr_map w;
  q_size_map : m_realSize_map w' = m_realSize_map w;
  q_owns : ∀ a sz blk, owns w' a sz blk ↔ owns w a sz blk;
}.

Lemma quiet_refl w : pool_ok w → quiet w w.
Proof. by intros. Qed.

Lemma quiet_trans w1 w2 w3 : quiet w1 w2 → quiet w2 w3 → quiet w1 w3.
Proof.
  intros [_ H1 H2 H3 H4 H5] [Hok H1' H2' H3' H4' H5']. split; try congruence.
  intros a sz blk. by rewrite H5', H5.
Qed.

(** A change at an entry that is not in use. *)
Lemma quiet_update w h b e0 : pool_ok w → head_ok h → e0 ∉ entries (m_addr_map w) →
  (∀ e, e ≠ e0 → nview (p_list h) e = V w e) →
  (∀ s n, nview (p_list h) e0 = Some (s, n) → addr n ≠ NULL →
     (0 < addr n ∧ ∃ bs, b !! addr n = Some bs ∧ Z.of_nat (length bs) = s) ∧
     ∀ e s' n', e ≠ e0 → V w e = Some (s', n') → addr n' ≠ addr n) →
  (∀ e s n, e ≠ e0 → V w e = Some (s, n) → addr n ≠ NULL → b !! addr n = blocks w !! addr n) →
  quiet w (set_blocks (set_head w h) b).
Proof.
  intros [Hi Hh Hb Hm] Hh' Hnin HV H0 Hk.
  assert (∀ e, e ∈ entries (m_addr_map w) → e ≠ e0) as Hne by (intros e He ->; done).
  split; try done.
  - split; try done.
    + apply (blocks_ok_update (V w) _ (blocks w) _ e0); try done.
      intros e s n bs Hne' He Hn E. exists bs. split; [|done]. cbn [blocks set_blocks]. by rewrite (Hk e s n).
    + apply (maps_ok_ext (V w)); [|done]. intros e He. by apply HV, Hne.
  - intros a sz blk. unfold owns. cbn [blocks set_blocks set_head m_addr_map m_list].
    assert (∀ e s n, e ∈ entries (m_addr_map w) → V w e = Some (s, n) → b !! addr n = blocks w !! addr n) as Hkeep.
    { intros e s n He E. apply (Hk e s n); [by apply Hne|done|]. pose proof (ma_in_use _ _ _ Hm) as Hu.
      rewrite Forall_forall in Hu. destruct (Hu e He) as (? & ? & ? & _ & ? & _). congruence. }
    split; intros (e & s & n & He & E & Ea & Es & Eb); exists e, s, n.
    + rewrite HV in E by by apply Hne. split_and!; try done. by rewrite <-Ea, <-(Hkeep e s n), Ea.
    + rewrite HV by by apply Hne. split_and!; try done. by rewrite <-Ea, (Hkeep e s n), Ea.
Qed.

(** A change that shows nowhere. *)
Lemma quiet_same w h : pool_ok w → head_ok h → (∀ e, nview (p_list h) e = V w e) → quiet w (set_head w h).
Proof.
  intros [Hi Hh Hb Hm] Hh' HV. split; try done.
  - split; try done; cbn [m_list set_head blocks m_addr_map m_realSize_map].
    + by apply (blocks_ok_ext (V w)).
    + by apply (maps_ok_ext (V w)).
  - intros a sz blk. unfold owns. cbn [blocks set_head m_addr_map m_list]. by setoid_rewrite HV.
Qed.

(** Node [n], which is number [j] of the list [l] at [i], has been taken off the
    stacks and is in no map. *)
Record holding w (i j : Z) (l : Dev_MemoryPool_list) (n : Dev_MemoryPool_node) : Prop := {
  hd_i : 0 ≤ i;
  hd_j : 0 ≤ j;
  hd_list : p_list (m_list w) !! Z.to_nat i = Some (Some l);
  hd_node : p_node l !! Z.to_nat j = Some (Some n);
  hd_hand : in_hand l j;
  hd_out : mkMapNode j i ∉ entries (m_addr_map w);
}.

Lemma holding_view w i j l n : holding w i j l n → V w (mkMapNode j i) = Some (realSize l, n).
Proof. intros [Hi Hj El En _ _]. by apply nview_at. Qed.

Lemma list_at_Some w i l : 0 ≤ i → p_list (m_list w) !! Z.to_nat i = Some (Some l) → list_at w i = Ret (Some l).
Proof. intros. by apply arr_get_Some. Qed.
End Worlds.

(** ** The steps *)

Section Ops.
Context `{MutexLib M}.
Context (malloc : gmap Z (list Z) → Z → option (Z * list Z)).
Context (list_room node_room : gmap Z (list Z) → bool).
Context (clock : nat → Z) (m_mutex_Id : Z).
(** A block of the C library is fresh and has the size asked for. *)
Context (malloc_fresh : ∀ b k a bs, malloc b k = Some (a, bs) → b !! a = None ∧ 0 < a ∧ Z.of_nat (length bs) = k).
Implicit Types w : world M.
Abbreviation V w := (nview (p_list (m_list w))).

Lemma report_loop_ok w (m : Dev_MemoryPool_map) ids : map_ok m → Forall (λ e, is_Some (V w e)) (entries m) →
  Forall (λ k, 0 ≤ k < usedEntries m) ids → report_loop w (node m) ids = Ret RET_OK.
Proof.
  intros Hm Hs Hids. induction Hids as [|k ids Hk _ IH]; [done|]. cbn [report_loop].
  destruct (entry_seen w m Hm Hs k Hk) as (e & l & n & Eg & En & _). rewrite Eg. cbn [mbind outcome_bind].
  rewrite En. done.
Qed.

Lemma report_ok w : init_f w = TRUE → map_ok (m_addr_map w) → map_ok (m_realSize_map w) →
  Forall (λ e, is_Some (V w e)) (entries (m_addr_map w)) → Forall (λ e, is_Some (V w e)) (entries (m_realSize_map w)) →
  __DevMemoryPool_Report w = Ret RET_OK.
Proof.
  intros Hi Ha Hr Hsa Hsr. unfold __DevMemoryPool_Report. rewrite Hi. cbn [negb Z.eqb TRUE].
  rewrite (report_loop_ok w (m_addr_map w)); [|done|done|apply Forall_forall; intros k Hk%elem_of_seqZ; lia].
  cbn [mbind outcome_bind negb Z.eqb RET_OK].
  rewrite report_loop_ok; [done..|]. apply Forall_forall. intros k Hk.
  apply elem_of_reverse, elem_of_seqZ in Hk. lia.
Qed.

(** [Check] tells whether both marks are there. *)
Lemma Check_spec w n bs : pool_ok w → blocks w !! addr n = Some bs → addr n ≠ NULL → 0 ≤ userSzie n →
  userSzie n + 16 ≤ Z.of_nat (length bs) < 2 ^ 32 →
  DevMemoryPool_Check n w = Ret (if intact (userSzie n) bs then RET_OK else RET_ERR).
Proof.
  intros Hok Hb Ha Hu Hl. unfold DevMemoryPool_Check. rewrite (po_init w Hok), (proj2 (Z.eqb_neq _ NULL) Ha).
  cbn [negb Z.eqb TRUE]. rewrite (read_u64_inside _ _ 0 bs) by (done || lia). cbn [mbind outcome_bind].
  unfold DEV_MEMORY_MARK_OFFSET. rewrite wrapu_small by lia.
  rewrite (read_u64_inside _ _ _ bs) by (done || lia). cbn [mbind outcome_bind].
  pose proof (po_maps w Hok) as Hm. destruct (maps_ok_seen _ _ _ Hm) as [Hsa Hsr].
  assert (__DevMemoryPool_Report w = Ret RET_OK) as Er.
  { apply report_ok; [apply (po_init w Hok)|apply (ma_addr _ _ _ Hm)|apply (ma_size _ _ _ Hm)|done|done]. }
  unfold intact. destruct (Z.eqb (le_value (slice 0 8 bs)) _), (Z.eqb (le_value (slice (userSzie n + 8) 8 bs)) _);
    cbn [negb andb]; cbv [Z.lor Z.eqb RET_OK RET_ERR Pos.lor Pos.eqb negb]; rewrite ?Er; done.
Qed.

(** *** Lists *)

(** The index of lists stays within the table of lists. *)
Definition index_ok (h : Dev_MemoryPool_list_head) : Prop :=
  length (AllocdAndusedListIndex h) = 128%nat ∧ length (p_list h) = 128%nat ∧ 0 ≤ usedLists h ≤ 128 ∧
  Forall (λ i, 0 ≤ i < 128) (take (Z.to_nat (usedLists h)) (AllocdAndusedListIndex h)).

Lemma head_index_ok h : head_ok h → index_ok h.
Proof. by intros []. Qed.

Lemma compare_list_total w r k : index_ok (m_list w) → 0 ≤ k < usedLists (m_list w) →
  ∃ i x, arr_get (AllocdAndusedListIndex (m_list w)) k = Ret i ∧ 0 ≤ i < 128 ∧
    p_list (m_list w) !! Z.to_nat i = Some x ∧
    compare_list w r k = Ret (option_map (λ l, r ?= realSize l) x).
Proof.
  intros (Hl1 & Hl2 & Hu & Hix) Hk. destruct (arr_get_inside (AllocdAndusedListIndex (m_list w)) k) as (i & Eg & El); [lia|].
  rewrite Forall_lookup in Hix.
  specialize (Hix (Z.to_nat k) i). rewrite lookup_take_lt in Hix by lia. specialize (Hix El).
  destruct (lookup_lt_is_Some_2 (p_list (m_list w)) (Z.to_nat i)) as [x Ex]; [lia|].
  exists i, x. split_and!; try done; try lia. unfold compare_list, list_at. rewrite Eg. cbn [mbind outcome_bind].
  by rewrite (arr_get_Some _ _ x) by (done || lia).
Qed.

Lemma find_list_spec w r : head_ok (m_list w) →
  ∃ o, find_list w r = Ret o ∧
    match o with
    | Hit f k => 0 ≤ f < usedLists (m_list w) ∧ ∃ i l, arr_get (AllocdAndusedListIndex (m_list w)) k = Ret i ∧
        0 ≤ i ∧ p_list (m_list w) !! Z.to_nat i = Some (Some l) ∧ realSize l = r
    | Miss f | Broken f => 0 ≤ f ≤ usedLists (m_list w)
    end.
Proof.
  intros Hh. unfold find_list. destruct (Z.ltb_spec 0 (usedLists (m_list w))) as [Hu|Hu];
    [|exists (Miss 0); split; [done|pose proof (ho_used _ Hh); lia]].
  destruct (exact_search_ends (compare_list w r) (rounds (usedLists (m_list w))) 0 (usedLists (m_list w) - 1))
    as (o & Eo & Ho).
  { intros k Hk. destruct (compare_list_total w r k (head_index_ok _ Hh)) as (i & x & _ & _ & _ & E); [lia|]. by eexists. }
  { lia. }
  { unfold rounds. lia. }
  exists o. split; [done|]. destruct o as [f k|f|f]; [|lia|lia]. destruct Ho as (Hf & Hk & E).
  split; [lia|]. destruct (compare_list_total w r k (head_index_ok _ Hh)) as (i & x & Eg & Hi & Ex & E'); [lia|].
  rewrite E in E'. destruct x as [l|]; [|done]. exists i, l. split_and!; try done; try lia.
  injection E' as E'. symmetry in E'. by apply Z.compare_eq in E'.
Qed.

Lemma nview_no_nodes (x : option Dev_MemoryPool_list) k : (∀ l j y, x = Some l → p_node l !! j = Some y → y = None) → oview x k = None.
Proof.
  intros Hx. destruct x as [l|]; [|done]. unfold oview. destruct (0 <=? k); [|done].
  destruct (p_node l !! Z.to_nat k) as [y|] eqn:E; [|done]. by rewrite (Hx l (Z.to_nat k) y eq_refl E).
Qed.

Lemma new_list_no_nodes r j y : p_node (new_list r) !! j = Some y → y = None.
Proof. unfold new_list. cbn [p_node]. by intros [-> _]%lookup_replicate. Qed.

(** A new list for blocks of [r] bytes. *)
Lemma add_list_spec w r : pool_ok w → 0 ≤ r < 2 ^ 32 →
  (∃ ret, add_list list_room w r = Ret (ret, None, w)) ∨
  (∃ i h, add_list list_room w r = Ret (RET_OK, Some i, set_head w h) ∧ quiet w (set_head w h) ∧ 0 ≤ i ∧
     p_list h !! Z.to_nat i = Some (Some (new_list r))).
Proof.
  intros Hok Hr. pose proof (po_head w Hok) as Hh. pose proof (ho_used _ Hh) as Hu. unfold add_list.
  rewrite wrapu_small by (unfold DEV_MEMORY_POOL_LIST_MAX; lia).
  change DEV_MEMORY_POOL_LIST_MAX with 128. set (u := usedLists (m_list w)) in *.
  destruct (Z.leb_spec (128 - u) 0) as [Hfull|Hroom]; [left; by eexists|].
  destruct (arr_get_inside (AllocdButUnusedListIndex (m_list w)) (128 - u - 1)) as (i & Eg & Ei);
    [rewrite (ho_len2 _ Hh); lia|].
  destruct (stack_of_pop (128 - u) _ _ i ltac:(lia) Ei (ho_free _ Hh)) as ((Hi & Enone) & Hst & Hnin).
  rewrite Eg. cbn [mbind outcome_bind]. unfold list_at. rewrite (arr_get_Some _ _ None) by done.
  cbn [mbind outcome_bind]. destruct (list_room (blocks w)); [|left; by eexists]. right. cbn [negb].
  pose proof (lookup_lt_Some _ _ _ Enone) as Hlt. rewrite (ho_len3 _ Hh) in Hlt.
  set (w1 := set_list w i (Some (new_list r))).
  assert (index_ok (m_list w1)) as Hx1.
  { unfold index_ok. cbn. rewrite length_insert. by apply head_index_ok. }
  destruct (bound_search_ends (λ mid, r0 ← compare_list w1 r mid; Ret (option_map (λ c, bool_decide (c = Gt)) r0))
    (rounds u) 0 (u - 1)) as (ok & f & f' & -> & Hf).
  { intros k Hk. destruct (compare_list_total w1 r k Hx1) as (i' & x & _ & _ & _ & ->); [cbn; fold u; lia|]. by eexists. }
  { lia. }
  { unfold rounds. lia. }
  cbn [mbind outcome_bind].
  destruct (insert_entry_spec (AllocdAndusedListIndex (m_list w)) u f i) as (ix & -> & Hlix & Eix);
    [lia|rewrite (ho_len1 _ Hh); lia|]. cbn [mbind outcome_bind].
  exists i, (mkHead (u + 1) ix (AllocdButUnusedListIndex (m_list w)) (p_list (m_list w1))).
  split; [done|]. split; [|split; [done|apply list_lookup_insert_eq; rewrite (ho_len3 _ Hh); lia]].
  apply quiet_same; [done| |].
  - destruct Hh as [H1 H2 H3 _ Hix [Hnd Hf0] Hl].
    split; cbn [w1 set_list set_head m_list usedLists AllocdAndusedListIndex AllocdButUnusedListIndex p_list]; try done.
    + congruence.
    + by rewrite length_insert.
    + lia.
    + rewrite Eix. fold u in Hix. rewrite <-(take_drop (Z.to_nat f)) in Hix. apply Forall_app in Hix as [Hix1 Hix2].
      apply Forall_app. split; [|constructor; [lia|done]].
      rewrite take_take in Hix1. by replace (Z.to_nat f `min` Z.to_nat u)%nat with (Z.to_nat f) in Hix1 by lia.
    + replace (128 - (u + 1)) with (128 - u - 1) by lia. eapply stack_of_impl; [|exact Hst].
      intros k Hk Ek. cbn. rewrite list_lookup_insert_ne; [done|]. intros E.
      destruct Hst as [_ Hst]. rewrite Forall_forall in Hst. destruct (Hst k Hk) as [Hk0 _].
      assert (k = i) as -> by lia. done.
    + intros k x. rewrite list_lookup_insert. case_decide; [intros [= <-]; by apply list_ok_new|apply Hl].
  - intros e. apply (nview_same _ _ None); [done|done|]. intros k. rewrite (nview_no_nodes None k) by done.
    apply nview_no_nodes. intros l j y [= <-]. apply new_list_no_nodes.
Qed.

(** The list for blocks of [r] bytes. *)
Lemma GetList_spec w r : pool_ok w → 0 ≤ r < 2 ^ 32 →
  ∃ ret oi w', DevMemoryPool_GetList list_room r w = Ret (ret, oi, w') ∧ quiet w w' ∧ blocks w' = blocks w ∧
    match oi with
    | Some i => 0 ≤ i ∧ ∃ l, p_list (m_list w') !! Z.to_nat i = Some (Some l) ∧ realSize l = r ∧
        (l = new_list r ∨ p_list (m_list w) !! Z.to_nat i = Some (Some l))
    | None => True
    end.
Proof.
  intros Hok Hr. unfold DevMemoryPool_GetList. rewrite (po_init w Hok). cbn [negb Z.eqb TRUE].
  assert (∃ ret oi w', add_list list_room w r = Ret (ret, oi, w') ∧ quiet w w' ∧ blocks w' = blocks w ∧
    match oi with
    | Some i => 0 ≤ i ∧ ∃ l, p_list (m_list w') !! Z.to_nat i = Some (Some l) ∧ realSize l = r ∧
        (l = new_list r ∨ p_list (m_list w) !! Z.to_nat i = Some (Some l))
    | None => True
    end) as Hadd.
  { destruct (add_list_spec w r Hok Hr) as [[ret E]|(i & h & E & Hq & Hi & Ei)].
    - exists ret, None, w. split_and!; try done.
    - exists RET_OK, (Some i), (set_head w h). split_and!; try done. exists (new_list r). split_and!; auto. }
  destruct (find_list_spec w r (po_head w Hok)) as (o & -> & Ho). cbn [mbind outcome_bind].
  destruct o as [f k|f|f]; [|exact Hadd|exact Hadd].
  destruct Ho as (_ & i & l & Eg & Hi & El & Es). rewrite Eg. cbn [mbind outcome_bind].
  exists RET_OK, (Some i), w. split_and!; try done. exists l. auto.
Qed.

(** *** Nodes *)

(** A change of a node in hand and of its block. *)
Lemma hold_change w i j l n l' x b : pool_ok w → holding w i j l n → list_ok l' →
  p_node l' = <[Z.to_nat j := x]> (p_node l) → realSize l' = realSize l →
  (∀ a, a ≠ addr n → b !! a = blocks w !! a) →
  (∀ n', x = Some n' → addr n' = addr n ∧ ∀ blk, blocks w !! addr n = Some blk →
     ∃ blk', b !! addr n = Some blk' ∧ length blk' = length blk) →
  quiet w (set_blocks (set_list w i (Some l')) b).
Proof.
  intros Hok Hh Hl' Ep Es Hb Hx. pose proof (holding_view _ _ _ _ _ Hh) as Hv. destruct Hh as [Hi Hj El En Hhand Hout].
  destruct (nview_node _ i j l l' x Hi Hj El ltac:(by eexists) Ep Es) as [Hat Helse].
  pose proof (po_blocks w Hok) as [Hblk Hown].
  assert (∀ e s' n', e ≠ mkMapNode j i → V w e = Some (s', n') → addr n' ≠ NULL → addr n' ≠ addr n) as Hother.
  { intros e s' n' Hne He Hn Ea. apply Hne. by apply (Hown _ _ _ _ _ _ He Hv). }
  apply (quiet_update w _ b (mkMapNode j i)); try done.
  - apply (head_ok_set _ i l); [by apply po_head|done..].
  - cbn [p_list]. rewrite Hat. intros s n' Hsome Hn'. destruct x as [m|]; [|done]. cbn in Hsome. injection Hsome as <- <-.
    destruct (Hx m eq_refl) as [Ea Hlen]. rewrite Ea in *.
    destruct (Hblk _ _ _ Hv Hn') as (Hpos & blk & Eb & Elen). destruct (Hlen blk Eb) as (blk' & Eb' & Elen').
    split; [split; [done|]; exists blk'; split; [done|congruence]|].
    intros e s' m' Hne He Eam. apply (Hother e s' m'); (done || congruence).
  - intros e s' n' Hne He Hn. by apply Hb, (Hother e s').
Qed.

Lemma update_node_eq w i j l n f : 0 ≤ i → 0 ≤ j → p_list (m_list w) !! Z.to_nat i = Some (Some l) →
  p_node l !! Z.to_nat j = Some (Some n) →
  update_node w i j f = Ret (f n, set_list w i (Some (with_node l j (Some (f n))))).
Proof.
  intros Hi Hj El En. unfold update_node. rewrite (list_at_Some w i l) by done. cbn [mbind outcome_bind or_ub].
  by rewrite (arr_get_Some _ _ (Some n)) by done.
Qed.

Lemma set_list_at w i l x : p_list (m_list w) !! Z.to_nat i = Some x →
  p_list (m_list (set_list w i (Some l))) !! Z.to_nat i = Some (Some l).
Proof. intros Hx. cbn. apply list_lookup_insert_eq. by apply lookup_lt_Some in Hx. Qed.

Lemma update_node_spec w i j l n f : pool_ok w → holding w i j l n → addr (f n) = addr n →
  let l' := with_node l j (Some (f n)) in
  let w' := set_list w i (Some l') in
  update_node w i j f = Ret (f n, w') ∧ quiet w w' ∧ holding w' i j l' (f n) ∧ realSize l' = realSize l.
Proof.
  intros Hok Hh Ea l' w'. pose proof Hh as [Hi Hj El En Hhand Hout].
  pose proof (head_ok_list _ _ _ (po_head w Hok) El) as Hl.
  destruct (list_ok_update l j n (f n) Hl Hj En Hhand) as [Hl' Hhand'].
  split_and!; [by apply update_node_eq| | |done].
  - apply (hold_change w i j l n l' (Some (f n)) (blocks w)); try done.
    intros n' [= <-]. split; [done|]. intros blk Eb. by exists blk.
  - split; try done; [by eapply set_list_at|].
    cbn. apply list_lookup_insert_eq. by apply lookup_lt_Some in En.
Qed.

Lemma not_used_out w e s n : pool_ok w → V w e = Some (s, n) → used n ≠ TRUE → e ∉ entries (m_addr_map w).
Proof.
  intros Hok Hv Hn Hin. pose proof (ma_in_use _ _ _ (po_maps w Hok)) as Hu. rewrite Forall_forall in Hu.
  destruct (Hu e Hin) as (s' & m & E & Hused & _). congruence.
Qed.

(** An idle node. *)
Lemma pop_unused_spec w i l : pool_ok w → 0 ≤ i → p_list (m_list w) !! Z.to_nat i = Some (Some l) →
  0 < allNum l - usedNum l →
  let l' := with_nums l (allNum l) (usedNum l + 1) in
  let w' := set_list w i (Some l') in
  ∃ ret j n, pop_unused l = Ret (Some (j, n)) ∧ DevMemoryPool_Check n w' = Ret ret ∧ quiet w w' ∧
    holding w' i j l' n ∧ used n ≠ TRUE.
Proof.
  intros Hok Hi El Hpos l' w'. pose proof (head_ok_list _ _ _ (po_head w Hok) El) as Hl. pose proof (lo_nums l Hl) as Hn.
  destruct (arr_get_inside (AllocdButUnusedNodeIndex l) (allNum l - usedNum l - 1)) as (j & Eg & Ej);
    [rewrite (lo_len2 l Hl); lia|].
  destruct (stack_of_pop _ _ _ j Hpos Ej (lo_idle l Hl)) as ((Hj & n & En & _) & _ & _).
  destruct (list_ok_pop l j n Hl Hpos Ej En) as (Hl' & Hhand & _ & Hnu & Hna & Hsz & Hfit).
  pose proof (nview_at _ _ _ _ _ Hi Hj El En) as Hv.
  assert (quiet w w') as Hq.
  { apply quiet_same; [done| |intros e; by apply (nview_same _ _ (Some l))].
    apply (head_ok_set _ i l); [by apply po_head|done..]. }
  destruct (bo_block _ _ (po_blocks w Hok) _ _ _ Hv Hna) as (_ & bs & Eb & Elen).
  eexists _, j, n. split_and!; [| |done| |done].
  - unfold pop_unused. destruct (Z.ltb_spec 0 (allNum l - usedNum l)); [|lia].
    rewrite Eg. cbn [mbind outcome_bind]. rewrite (arr_get_Some _ _ (Some n)) by done. cbn [mbind outcome_bind or_ub].
    by rewrite (proj2 (Z.eqb_neq _ _) Hnu).
  - apply (Check_spec w' n bs); [by apply (q_ok _ _ Hq)|done..|pose proof (lo_size l Hl); lia].
  - split; try done; [|by apply (not_used_out w _ (realSize l) n)].
    by eapply set_list_at.
Qed.

Lemma alloc_block_spec b k a b' : alloc_block malloc b k = (a, b') →
  (a = NULL ∧ b' = b) ∨ (0 < a ∧ b !! a = None ∧ ∃ bs, b' = <[a := bs]> b ∧ Z.of_nat (length bs) = k).
Proof.
  unfold alloc_block. destruct (malloc b k) as [[a1 bs]|] eqn:Em; intros [= <- <-]; [right|by left].
  destruct (malloc_fresh _ _ _ _ Em) as (? & ? & ?). eauto.
Qed.

(** A new node. *)
Lemma add_node_spec w i l : pool_ok w → 0 ≤ i → p_list (m_list w) !! Z.to_nat i = Some (Some l) → allNum l < 512 →
  ∃ ret oj w', add_node malloc node_room i l w = Ret (ret, oj, w') ∧ quiet w w' ∧
    match oj with
    | Some j => ∃ l' n, realSize l' = realSize l ∧ holding w' i j l' n ∧ used n ≠ TRUE
    | None => True
    end.
Proof.
  intros Hok Hi El Hroom. pose proof (head_ok_list _ _ _ (po_head w Hok) El) as Hl. pose proof (lo_nums l Hl) as Hn.
  unfold add_node. change DEV_MEMORY_POOL_NODE_MAX with 512.
  destruct (arr_get_inside (unallocdNodeIndex l) (512 - allNum l - 1)) as (j & Eg & Ej);
    [rewrite (lo_len1 l Hl); lia|].
  rewrite Eg. cbn [mbind outcome_bind].
  destruct (alloc_block malloc (blocks w) (realSize l)) as [a b] eqn:Eab. apply alloc_block_spec in Eab.
  set (n := mkNode a 0 0 0 0 0 0 "" ""). destruct (list_ok_add l j n Hl Hroom Ej) as (En & Hl' & Hhand & Hj).
  set (l' := with_node _ j (Some n)) in *.
  rewrite (arr_get_Some _ _ None) by done. cbn [mbind outcome_bind].
  destruct (node_room (blocks w)); cbn [negb]; [|exists RET_ERR, None, w; split_and!; done].
  destruct (nview_node _ i j l l' (Some n) Hi Hj El ltac:(by eexists) eq_refl eq_refl) as [Hat Helse].
  assert (mkMapNode j i ∉ entries (m_addr_map w)) as Hout.
  { intros Hin. destruct (maps_ok_seen _ _ _ (po_maps w Hok)) as [Hs _]. rewrite Forall_forall in Hs.
    destruct (Hs _ Hin) as [[s m] E]. apply nview_Some in E as (l1 & _ & _ & El1 & En1 & _). cbn in *. congruence. }
  assert (∀ e s m, V w e = Some (s, m) → addr m ≠ NULL → is_Some (blocks w !! addr m)) as Hblk.
  { intros e s m He Hm. destruct (bo_block _ _ (po_blocks w Hok) _ _ _ He Hm) as (_ & bs & E & _). by exists bs. }
  exists RET_OK, (Some j), (set_blocks (set_list w i (Some l')) b). split; [done|]. split.
  - apply (quiet_update w _ b (mkMapNode j i)); try done.
    + apply (head_ok_set _ i l); [by apply po_head|done..].
    + cbn [p_list]. rewrite Hat. intros s m [= <- <-] Hna. cbn [addr n] in *.
      destruct Eab as [[-> _]|(Hpos & Ef & bs & -> & Elen)]; [done|].
      split; [split; [done|]; exists bs; by rewrite lookup_insert_eq|].
      intros e s' m' _ He Ea. destruct (Hblk e s' m' He) as [bs' E]; [congruence|]. congruence.
    + intros e s m _ He Hm. destruct Eab as [[_ ->]|(Hpos & Ef & bs & -> & Elen)]; [done|].
      apply lookup_insert_ne. destruct (Hblk e s m He Hm) as [bs' E]. congruence.
  - exists l', n. split_and!; try done. split; try done.
    + cbn. apply list_lookup_insert_eq. by apply lookup_lt_Some in El.
    + cbn. apply list_lookup_insert_eq. by apply lookup_lt_Some in En.
Qed.

(** A node for a block. *)
Lemma GetNode_spec w i l : pool_ok w → 0 ≤ i → p_list (m_list w) !! Z.to_nat i = Some (Some l) → usedNum l < 512 →
  ∃ ret oj w', DevMemoryPool_GetNode malloc node_room i w = Ret (ret, oj, w') ∧ quiet w w' ∧
    match oj with
    | Some j => ∃ l' n, realSize l' = realSize l ∧ holding w' i j l' n ∧ used n ≠ TRUE
    | None => True
    end.
Proof.
  intros Hok Hi El Hroom. pose proof (head_ok_list _ _ _ (po_head w Hok) El) as Hl.
  unfold DevMemoryPool_GetNode. rewrite (po_init w Hok). cbn [negb Z.eqb TRUE].
  rewrite (list_at_Some w i l) by done. cbn [mbind outcome_bind].
  pose proof (lo_nums l Hl) as Hn. destruct (Z.ltb_spec 0 (allNum l - usedNum l)) as [Hpos|Hz].
  - destruct (pop_unused_spec w i l Hok Hi El Hpos) as (ret & j & n & -> & Ec & Hq & Hh & Hnu).
    cbn [mbind outcome_bind]. rewrite Ec. cbn [mbind outcome_bind].
    eexists _, (Some j), _. split; [done|]. split; [done|]. eexists _, n. split; [|done]. done.
  - unfold pop_unused. destruct (Z.ltb_spec 0 (allNum l - usedNum l)); [lia|]. cbn [mbind outcome_bind].
    apply add_node_spec; (done || lia).
Qed.
(** [Mark] writes both marks into the block of a node in hand. *)
Lemma set_list_id w i x : p_list (m_list w) !! Z.to_nat i = Some x → set_list w i x = w.
Proof. intros Hx. unfold set_list, set_head. rewrite list_insert_id by done. by destruct w as [? ? ? [] ? ? ?]. Qed.

Lemma Mark_spec w i j l n : pool_ok w → holding w i j l n → addr n ≠ NULL → 0 ≤ userSzie n →
  userSzie n + 16 ≤ realSize l →
  ∃ b blk, DevMemoryPool_Mark n w = Ret (RET_OK, set_blocks w b) ∧ quiet w (set_blocks w b) ∧
    b !! addr n = Some blk ∧ intact (userSzie n) blk = true ∧ Z.of_nat (length blk) = realSize l.
Proof.
  intros Hok Hh Ha Hu Hfit. pose proof (holding_view _ _ _ _ _ Hh) as Hv. pose proof Hh as [Hi Hj El En Hhand Hout].
  pose proof (head_ok_list _ _ _ (po_head w Hok) El) as Hl. pose proof (lo_size l Hl) as Hs.
  destruct (bo_block _ _ (po_blocks w Hok) _ _ _ Hv Ha) as (_ & bs & Eb & Elen).
  set (bs1 := splice bs (Z.to_nat 0) (le_bytes 8 DEV_MEMORY_FRONT_MARK)).
  set (bs2 := splice bs1 (Z.to_nat (userSzie n + 8)) (le_bytes 8 DEV_MEMORY_REAR_MARK)).
  assert (length bs1 = length bs) as L1 by (apply length_splice; rewrite length_le_bytes; lia).
  assert (length bs2 = length bs) as L2 by (unfold bs2; rewrite length_splice, L1; [done|rewrite length_le_bytes; lia]).
  exists (<[addr n := bs2]> (blocks w)), bs2. split_and!.
  - unfold DevMemoryPool_Mark. rewrite (po_init w Hok), (proj2 (Z.eqb_neq _ NULL) Ha). cbn [negb Z.eqb TRUE].
    rewrite (write_u64_inside _ _ 0 _ bs) by (done || lia). cbn [mbind outcome_bind]. fold bs1.
    unfold DEV_MEMORY_MARK_OFFSET. rewrite wrapu_small by lia.
    rewrite (write_u64_inside _ _ _ _ bs1) by (by rewrite lookup_insert_eq || lia). cbn [mbind outcome_bind].
    by rewrite insert_insert_eq.
  - pose proof (set_list_id w i (Some l) El) as Eid. apply (f_equal (λ x, set_blocks x (<[addr n := bs2]> (blocks w)))) in Eid.
    rewrite <-Eid. apply (hold_change w i j l n l (Some n)); try done.
    + by rewrite list_insert_id.
    + intros a Hne. by apply lookup_insert_ne.
    + intros n' [= <-]. split; [done|]. intros blk Eblk. exists bs2. rewrite lookup_insert_eq. split; [done|congruence].
  - apply lookup_insert_eq.
  - unfold intact, bs2. rewrite slice_splice_in, slice_splice_out by (rewrite ?length_le_bytes; lia).
    unfold bs1. rewrite slice_splice_in by lia. by vm_compute.
  - by rewrite L2.
Qed.
(** A node given back: its block is freed, or it becomes idle. *)
Lemma RemoveNode_spec w i j l n : pool_ok w → holding w i j l n → idle (realSize l) n →
  ∃ w' l', DevMemoryPool_RemoveNode clock i l j n w = Ret (RET_OK, w') ∧ quiet w w' ∧
    p_list (m_list w') !! Z.to_nat i = Some (Some l').
Proof.
  intros Hok Hh Hid. pose proof (holding_view _ _ _ _ _ Hh) as Hv. pose proof Hh as [Hi Hj El En Hhand Hout].
  pose proof (head_ok_list _ _ _ (po_head w Hok) El) as Hl. pose proof (lo_nums l Hl) as Hn.
  pose proof (in_hand_counted l j n Hl Hj En Hhand) as Hc. pose proof Hid as (Hnu & Hna & _).
  destruct (bo_block _ _ (po_blocks w Hok) _ _ _ Hv Hna) as (_ & bs & Eb & Elen).
  unfold DevMemoryPool_RemoveNode. rewrite (po_init w Hok). change DEV_MEMORY_POOL_NODE_MAX with 512.
  destruct (Z.eqb_spec (512 - allNum l) 512); [lia|]. cbn [negb Z.eqb TRUE].
  assert ((if usedNum l - 1 <=? 0 then 0 else usedNum l - 1) = usedNum l - 1) as ->
    by (destruct (Z.leb_spec (usedNum l - 1) 0); lia).
  destruct (DevMemoryPool_GetRealFree l w =? RET_OK).
  - rewrite (proj2 (Z.eqb_neq _ NULL) Hna). unfold free_block. rewrite Eb. cbn [mbind outcome_bind or_ub].
    rewrite arr_set_inside by (rewrite (lo_len1 l Hl); lia). cbn [mbind outcome_bind].
    assert ((if allNum l - 1 <=? 0 then 0 else allNum l - 1) = allNum l - 1) as ->
      by (destruct (Z.leb_spec (allNum l - 1) 0); lia).
    eexists _, _. split; [reflexivity|]. split; [|by eapply set_list_at].
    apply (hold_change w i j l n _ None); try done; [by apply (list_ok_drop l j n)|].
    intros a Hne. by apply lookup_delete_ne.
  - rewrite arr_set_inside by (rewrite (lo_len2 l Hl); lia). cbn [mbind outcome_bind].
    eexists _, _. split; [reflexivity|]. split; [|by eapply set_list_at].
    set (n' := mkNode _ _ _ _ _ _ _ _ _). apply (hold_change w i j l n _ (Some n') (blocks w)); try done.
    + by apply (list_ok_park l j n n').
    + intros m [= <-]. split; [done|]. intros blk Eblk. by exists blk.
Qed.

(** Taking any entry out of the index of lists, or none, leaves entries of it. *)
Lemma remove_entry_any {A} (P : A → Prop) (a : list A) n front : 0 ≤ front ≤ n → 1 ≤ n ≤ Z.of_nat (length a) →
  Forall P (take (Z.to_nat n) a) →
  ∃ a', remove_entry a n front = Ret a' ∧ length a' = length a ∧ Forall P (take (Z.to_nat (n - 1)) a').
Proof.
  intros Hf Hn HP. destruct (decide (front = n)) as [->|Hne].
  - exists a. unfold remove_entry. replace (Z.to_nat (n - 1 - n)) with 0%nat by lia. split_and!; try done.
    replace (take (Z.to_nat (n - 1)) a) with (take (Z.to_nat (n - 1)) (take (Z.to_nat n) a))
      by (rewrite take_take; f_equal; lia).
    by apply Forall_take.
  - destruct (remove_entry_spec a n front) as (a' & -> & Hlen & E); [lia|lia|]. exists a'. split_and!; try done.
    rewrite E. apply Forall_app. split; [|by apply Forall_drop].
    replace (take (Z.to_nat front) a) with (take (Z.to_nat front) (take (Z.to_nat n) a))
      by (rewrite take_take; f_equal; lia).
    by apply Forall_take.
Qed.

(** A list without nodes is given up, whichever entry leaves the index of lists. *)
Lemma RemoveList_spec w i l : pool_ok w → 0 ≤ i → p_list (m_list w) !! Z.to_nat i = Some (Some l) →
  ∃ w', DevMemoryPool_RemoveList i l w = Ret (RET_OK, w') ∧ quiet w w'.
Proof.
  intros Hok Hi El. pose proof (po_head w Hok) as Hh. pose proof (head_ok_list _ _ _ Hh El) as Hl.
  unfold DevMemoryPool_RemoveList. rewrite (po_init w Hok). cbn [negb Z.eqb TRUE].
  destruct (Z.eqb_spec (allNum l) 0) as [Hz|]; [|by exists w]. destruct (usedNum l =? 0); [|by exists w]. cbn [andb].
  pose proof (ho_used _ Hh) as Hu. pose proof (head_ok_used _ i l Hh Hi El) as Hu1.
  destruct (find_list_spec w (realSize l) Hh) as (o & -> & Ho). cbn [mbind outcome_bind].
  set (front := match o with Hit front _ | Miss front | Broken front => front end).
  assert (0 ≤ front ≤ usedLists (m_list w)) as Hf by (destruct o; [destruct Ho|..]; unfold front; lia).
  destruct (remove_entry_any _ _ (usedLists (m_list w)) front Hf ltac:(rewrite (ho_len1 _ Hh); lia) (ho_index _ Hh))
    as (ix & -> & Hlix & Hix).
  cbn [mbind outcome_bind]. rewrite wrapu_small by (unfold DEV_MEMORY_POOL_LIST_MAX; lia).
  change DEV_MEMORY_POOL_LIST_MAX with 128.
  rewrite arr_set_inside by (rewrite (ho_len2 _ Hh); lia). cbn [mbind outcome_bind].
  destruct (Z.ltb_spec (usedLists (m_list w) - 1) 0); [lia|].
  eexists. split; [reflexivity|].
  match goal with |- quiet _ (set_head _ ?h) => apply (quiet_same w h); [done| |] end.
  - destruct Hh as [H1 H2 H3 _ _ [Hnd Hfr] Hls].
    split; cbn [usedLists AllocdAndusedListIndex AllocdButUnusedListIndex p_list set_list set_head m_list]; try done.
    + congruence.
    + by rewrite length_insert.
    + by rewrite length_insert.
    + lia.
    + replace (128 - (usedLists (m_list w) - 1)) with (128 - usedLists (m_list w) + 1) by lia.
      apply stack_of_push; [lia| |done| |].
      * split; [done|]. rewrite Forall_forall in *. intros k Hk. destruct (Hfr k Hk) as [Hk0 E]. split; [done|].
        rewrite list_lookup_insert_ne; [done|]. intros Ek. assert (i = k) as -> by lia. congruence.
      * apply list_lookup_insert_eq. by apply lookup_lt_Some in El.
      * intros Hin. rewrite Forall_forall in Hfr. destruct (Hfr i Hin) as [_ E]. congruence.
    + intros k x. rewrite list_lookup_insert. case_decide; [done|apply Hls].
  - intros e. apply (nview_same _ _ (Some l)); [done|done|]. intros k. symmetry. apply nview_no_nodes.
    intros l' k' y [= <-] Ey. by apply (list_ok_empty l k' y).
Qed.
End Ops.
