(* ===== verification/DevMemoryPoolSpec.v ===== *)
(** * What the memory pool promises

    [Malloc] and [Free] against a heap of separate blocks; detection of overruns;
    what [RemoveList] does to the index of lists. *)
From S2P Require Import Prelude DevTypes DevArrays DevMemoryPool DevMemoryPoolSize DevMemoryPoolInv DevMemoryPoolTab DevMemoryPoolOps.
From stdpp Require Import strings pretty.
#[local] Open Scope Z_scope.

(** ** Handing out and taking back *)

Section Calls.
Context `{MutexLib M}.
Context (malloc : gmap Z (list Z) → Z → option (Z * list Z)).
Context (list_room node_room : gmap Z (list Z) → bool).
Context (clock : nat → Z) (m_mutex_Id : Z).
Context (malloc_fresh : ∀ b k a bs, malloc b k = Some (a, bs) → b !! a = None ∧ 0 < a ∧ Z.of_nat (length bs) = k).
Implicit Types w : world M.
Abbreviation V w := (nview (p_list (m_list w))).

Lemma usedEntries_length m : map_ok m → usedEntries m = Z.of_nat (length (entries m)).
Proof. intros Hm. rewrite length_entries by done. pose proof (mo_used m Hm). lia. Qed.

Lemma set_realSize_id w i l : 0 ≤ i → p_list (m_list w) !! Z.to_nat i = Some (Some l) → set_realSize w i (realSize l) = Ret w.
Proof.
  intros Hi El. unfold set_realSize. rewrite (list_at_Some w i l) by done. cbn [mbind outcome_bind or_ub].
  f_equal. destruct l. by apply set_list_id.
Qed.

(** A block enters both maps and is marked as used. *)
Lemma publish_spec w i j l n blk : pool_ok w → holding w i j l n → addr n ≠ NULL → 0 ≤ userSzie n →
  userSzie n + 16 ≤ realSize l → blocks w !! addr n = Some blk → usedEntries (m_addr_map w) < MAP_MAX →
  ∃ w1 w2 w3, DevMemoryPool_AddAddrMap (addr n) i j w = Ret (RET_OK, w1) ∧
    DevMemoryPool_AddRealSizeMap (addr n) (realSize l) i j w1 = Ret (RET_OK, w2) ∧
    update_node w2 i j (set_used TRUE) = Ret (set_used TRUE n, w3) ∧ set_realSize w3 i (realSize l) = Ret w3 ∧
    pool_ok w3 ∧ mutexes w3 = mutexes w ∧ vars w3 = vars w ∧
    usedEntries (m_addr_map w3) = usedEntries (m_addr_map w) + 1 ∧
    ∀ a sz b, owns w3 a sz b ↔ owns w a sz b ∨ (a = addr n ∧ sz = userSzie n ∧ b = blk).
Proof.
  intros Hok Hh Ha Hu Hfit Eblk Hlt. pose proof (holding_view _ _ _ _ _ Hh) as Hv. pose proof Hh as [Hi Hj El En Hhand Hout].
  pose proof Hok as [Hinit Hhead Hb Hm]. destruct (maps_ok_seen _ _ _ Hm) as [Hsa Hsr].
  pose proof (maps_ok_length _ _ _ Hm) as Hlen.
  destruct (AddAddrMap_spec w Hinit (addr n) i j (ma_addr _ _ _ Hm) Hlt Hsa (ma_by_addr _ _ _ Hm) Ha)
    as (m1 & f & E1 & Hm1 & Een1 & Hlo1 & Hhi1).
  set (w1 := set_addr_map w m1) in *.
  destruct (AddRealSizeMap_spec w1 Hinit (addr n) (realSize l) i j (ma_size _ _ _ Hm) ltac:(cbn; lia) Hsr (ma_by_size _ _ _ Hm) Ha)
    as (m2 & g & E2 & Hm2 & Een2 & Hlo2 & Hhi2).
  set (w2 := set_realSize_map w1 m2) in *. set (n' := set_used TRUE n). set (l' := with_node l j (Some n')).
  destruct (nview_node _ i j l l' (Some n') Hi Hj El ltac:(by eexists) eq_refl eq_refl) as [Hat Helse].
  destruct (list_ok_update l j n n' (head_ok_list _ _ _ Hhead El) Hj En Hhand) as [Hl' _].
  exists w1, w2, (set_list w2 i (Some l')). split_and!; try done.
  - by apply update_node_eq.
  - apply (set_realSize_id _ i l'); [done|]. by eapply (set_list_at w2).
  - split; try done; cbn [m_list set_list set_head w2 w1 set_realSize_map set_addr_map p_list blocks m_addr_map m_realSize_map].
    + by apply (head_ok_set _ i l).
    + apply (blocks_ok_update (V w) _ (blocks w) _ (mkMapNode j i)); try done.
      * rewrite Hat. intros s m [= <- <-] Hna. split; [by apply (bo_block _ _ Hb _ _ _ Hv)|].
        intros e s' m' Hne He Ea. by apply Hne, (bo_own _ _ Hb _ _ _ _ _ _ He Hv); rewrite Ea.
      * intros e s m bs _ _ _ Ebs. by exists bs.
    + eapply (maps_ok_publish (V w) _ (blocks w) (m_addr_map w) (m_realSize_map w) m1 m2 (mkMapNode j i) (realSize l) n n');
        try done.
      exists (realSize l), n'. done.
  - cbn. rewrite !usedEntries_length, Een1 by (done || apply (ma_addr _ _ _ Hm)).
    rewrite <-Permutation_middle. cbn [length]. rewrite take_drop. lia.
  - intros a sz b. unfold owns. cbn [m_addr_map m_list set_list set_head w2 w1 set_realSize_map set_addr_map p_list blocks].
    assert (∀ e, e ∈ entries m1 ↔ e ∈ entries (m_addr_map w) ∨ e = mkMapNode j i) as Hin.
    { intros e. rewrite Een1, <-Permutation_middle, take_drop, elem_of_cons. tauto. }
    split.
    + intros (e & s & m & [He| ->]%Hin & E & Ea & Es & Eb).
      * rewrite Helse in E by (by intros ->). left. by exists e, s, m.
      * rewrite Hat in E. injection E as <- <-. right. cbn in *. split_and!; congruence.
    + intros [(e & s & m & He & E & Ea & Es & Eb)|(-> & -> & ->)].
      * exists e, s, m. rewrite Hin, Helse by (by intros ->). auto.
      * exists (mkMapNode j i), (realSize l), n'. rewrite Hin, Hat. auto.
Qed.
(** *** Malloc *)

(** What [Malloc] prints into a node fits its 128 characters. *)
Definition names_fit (mk : mark) : Prop :=
  Z.of_nat (String.length ("[" +:+ DevMemoryPool_NoDirFileName (mk_fileName mk) +:+ "]:[" +:+
                             pretty (s32 (mk_fileLine mk)) +:+ "]")%string) < 128 ∧
  Z.of_nat (String.length ("[" +:+ mk_tagName mk +:+ "]")%string) < 128.

(** The list for blocks of the size of a request has not used its 512 nodes. *)
Definition has_room w (size : Z) : Prop :=
  ∀ i l, p_list (m_list w) !! i = Some (Some l) → realSize l = block_size size → usedNum l < 512.

Definition can_malloc w (size : Z) (mk : mark) : Prop :=
  0 ≤ size ≤ 2 ^ 32 - 2 ^ 23 ∧ size + 16 ≤ block_size size ∧ names_fit mk ∧ has_room w size.

(** Block [a], of [size] bytes for the caller and with its marks, is in use in [w']
    and was not in [w]; nothing else differs. *)
Definition handed w w' (a size : Z) : Prop :=
  ∃ blk, 0 < a ∧ intact size blk = true ∧ Z.of_nat (length blk) = block_size size ∧
    usedEntries (m_addr_map w') = usedEntries (m_addr_map w) + 1 ∧
    (∀ sz b, ¬ owns w a sz b) ∧
    ∀ a' sz b, owns w' a' sz b ↔ owns w a' sz b ∨ (a' = a ∧ sz = size ∧ b = blk).

(** Null, and nothing happened to the blocks in use, or a new one. *)
Definition malloc_result w (size : Z) (r : outcome (Z * world M)) : Prop :=
  ∃ a w', r = Ret (a, w') ∧ pool_ok w' ∧ mutexes w' = mutexes w ∧ vars w' = vars w ∧
    ((a = NULL ∧ quiet w w') ∨ handed w w' (a - DEV_MEMORY_MARK_OFFSET) size).

Lemma malloc_null w w' size : quiet w w' → malloc_result w size (Ret (NULL, w')).
Proof. intros Hq. pose proof Hq as []. exists NULL, w'. auto 10. Qed.

Lemma malloc_after w w' size r : quiet w w' → malloc_result w' size r → malloc_result w size r.
Proof.
  intros Hq (a & w2 & -> & Hok & Hmx & Hvr & Hres). exists a, w2.
  split_and!; [done|done|by rewrite Hmx, (q_mutexes _ _ Hq)|by rewrite Hvr, (q_vars _ _ Hq)|].
  destruct Hres as [[-> Hq2]|(blk & Hpos & Hint & Hlen & Hcount & Hfresh & Howns)].
  - left. split; [done|by eapply quiet_trans].
  - right. exists blk. split_and!; try done.
    + by rewrite Hcount, (q_addr_map _ _ Hq).
    + intros sz b. by rewrite <-(q_owns _ _ Hq).
    + intros a' sz b. by rewrite Howns, (q_owns _ _ Hq).
Qed.

Lemma holding_not_owned w i j l n sz b : pool_ok w → holding w i j l n → addr n ≠ NULL → ¬ owns w (addr n) sz b.
Proof.
  intros Hok Hh Ha (e & s & m & He & E & Ea & _). pose proof (holding_view _ _ _ _ _ Hh) as Hv.
  apply (hd_out _ _ _ _ _ Hh). pose proof (bo_own _ _ (po_blocks w Hok) _ _ _ _ _ _ Hv E Ha ltac:(done)) as ->. done.
Qed.

Lemma sprintf_fits n str : Z.of_nat (String.length str) < n → sprintf_s n str = Ret str.
Proof. intros Hs. unfold sprintf_s. by rewrite (proj2 (Z.ltb_lt _ _) Hs). Qed.

(** The part of [Malloc] after a node has been found. *)
Definition finish_malloc (size realSz i j : Z) (fi tn : string) w : outcome (Z * world M) :=
  '(n, w) ← update_node w i j (describe clock size fi tn);
  if addr n =? NULL then Ret (NULL, w)
  else
    '(ret, w) ← DevMemoryPool_Mark n w;
    if negb (ret =? RET_OK) then Ret (NULL, w)
    else
      '(ret, w) ← DevMemoryPool_AddAddrMap (addr n) i j w;
      if negb (ret =? RET_OK) then Ret (NULL, w)
      else
        '(ret, w) ← DevMemoryPool_AddRealSizeMap (addr n) realSz i j w;
        if negb (ret =? RET_OK) then Ret (NULL, w)
        else
          '(n, w) ← update_node w i j (set_used TRUE);
          w ← set_realSize w i realSz;
          Ret (addr n + DEV_MEMORY_MARK_OFFSET, w).

Lemma finish_malloc_spec w i j l n size fi tn : pool_ok w → holding w i j l n →
  realSize l = block_size size → 0 ≤ size → size + 16 ≤ block_size size →
  malloc_result w size (finish_malloc size (block_size size) i j fi tn w).
Proof.
  intros Hok Hh Er Hs Hfit. unfold finish_malloc.
  destruct (update_node_spec w i j l n (describe clock size fi tn) Hok Hh eq_refl) as (-> & Hq & Hh1 & Er1).
  set (n1 := describe clock size fi tn n) in *. set (l1 := with_node l j (Some n1)) in *. set (w1 := set_list w i (Some l1)) in *.
  apply (malloc_after w w1); [done|]. pose proof (q_ok _ _ Hq) as Hok1. clear Hq.
  cbn [mbind outcome_bind]. destruct (Z.eqb_spec (addr n1) NULL) as [Ha|Ha]; [by apply malloc_null, quiet_refl|].
  destruct (Mark_spec w1 i j l1 n1 Hok1 Hh1 Ha) as (b & blk & -> & Hq2 & Eblk & Hint & Hlen);
    [done|cbn [userSzie n1 describe]; lia|]. cbn [mbind outcome_bind negb Z.eqb RET_OK].
  set (w2 := set_blocks w1 b) in *. assert (holding w2 i j l1 n1) as Hh2 by (by destruct Hh1).
  apply (malloc_after w1 w2); [done|]. pose proof (q_ok _ _ Hq2) as Hok2. clear Hq2.
  destruct (Z.le_gt_cases MAP_MAX (usedEntries (m_addr_map w2))) as [Hfull|Hlt].
  { assert (DevMemoryPool_AddAddrMap (addr n1) i j w2 = Ret (RET_ERR, w2)) as ->; [|by apply malloc_null, quiet_refl].
    unfold DevMemoryPool_AddAddrMap. rewrite (po_init w2 Hok2), (proj2 (Z.eqb_neq _ NULL) Ha).
    destruct (Z.leb_spec MAP_MAX (usedEntries (m_addr_map w2))); [done|lia]. }
  destruct (publish_spec w2 i j l1 n1 blk Hok2 Hh2 Ha) as (w3 & w4 & w5 & E1 & E2 & E3 & E4 & Hok5 & Hmx & Hvr & Hcount & Howns);
    [done|cbn [userSzie n1 describe]; lia|done|done|]. rewrite Er1, Er in *.
  rewrite E1. cbn [mbind outcome_bind negb Z.eqb RET_OK]. rewrite E2. cbn [mbind outcome_bind negb Z.eqb RET_OK].
  rewrite E3. cbn [mbind outcome_bind]. rewrite E4. cbn [mbind outcome_bind].
  eexists _, w5. split_and!; [reflexivity|done..|]. right. exists blk.
  replace (addr (set_used TRUE n1) + DEV_MEMORY_MARK_OFFSET - DEV_MEMORY_MARK_OFFSET) with (addr n1) by (cbn; lia).
  split_and!; try done.
  - by apply (bo_block _ _ (po_blocks w2 Hok2) _ _ _ (holding_view _ _ _ _ _ Hh2)).
  - intros sz b'. by apply (holding_not_owned w2 i j l1).
Qed.

Lemma malloc_locked_spec w size mk : pool_ok w → can_malloc w size mk →
  malloc_result w size (malloc_locked malloc list_room node_room clock size mk w).
Proof.
  intros Hok (Hs & Hfit & [Hfi Htn] & Hroom). unfold malloc_locked. destruct (GetRealSize_closed size Hs) as [-> Hbs].
  cbn [mbind outcome_bind].
  destruct (GetList_spec list_room w (block_size size) Hok ltac:(lia)) as (ret & oi & w1 & -> & Hq & _ & Hoi).
  cbn [mbind outcome_bind]. destruct oi as [i|]; [|by apply malloc_null].
  destruct Hoi as (Hi & l & El & Er & Horig).
  assert (usedNum l < 512) as Hlt by (destruct Horig as [->|E]; [done|by apply (Hroom _ _ E)]).
  apply (malloc_after w w1); [done|].
  destruct (GetNode_spec malloc node_room malloc_fresh w1 i l (q_ok _ _ Hq) Hi El Hlt) as (ret' & oj & w2 & -> & Hq2 & Hoj).
  cbn [mbind outcome_bind]. destruct oj as [j|]; [|by apply malloc_null].
  destruct Hoj as (l' & n & Er' & Hh & _). apply (malloc_after w1 w2); [done|].
  change DEV_MEMORY_ALLOC_INFO_MAX_LEN with 128. rewrite !sprintf_fits by done. cbn [mbind outcome_bind].
  apply (finish_malloc_spec w2 i j l' n); [apply (q_ok _ _ Hq2)|done|congruence|lia|done].
Qed.
(** *** Free *)

Lemma elem_of_middle {A} (x e : A) xs ys : x ∈ xs ++ e :: ys ↔ x = e ∨ x ∈ xs ++ ys.
Proof. rewrite !elem_of_app, elem_of_cons. tauto. Qed.

(** The two removals from the maps. *)
Lemma unpublish_spec w a sz blk : pool_ok w → usedEntries (m_addr_map w) < MAP_MAX → owns w a sz blk →
  ∃ i j l n w1 w2, DevMemoryPool_RemoveAddrMap a w = Ret (Some (mkMapNode j i), w1) ∧
    list_at w1 i = Ret (Some l) ∧ arr_get (p_node l) j = Ret (Some n) ∧
    DevMemoryPool_RemoveRealSizeMap a (realSize l) w1 = Ret (RET_OK, w2) ∧
    holding w2 i j l n ∧ pool_ok w2 ∧ blocks w2 = blocks w ∧ mutexes w2 = mutexes w ∧ vars w2 = vars w ∧
    addr n = a ∧ a ≠ NULL ∧ userSzie n = sz ∧ 0 ≤ sz ∧ sz + 16 ≤ realSize l ∧
    usedEntries (m_addr_map w2) = usedEntries (m_addr_map w) - 1 ∧
    ∀ a' sz' b, owns w2 a' sz' b ↔ owns w a' sz' b ∧ a' ≠ a.
Proof.
  intros Hok Hlt (e & s & n & He & Hv & Ea & Es & Eblk). pose proof Hok as [Hinit Hhead Hb Hm].
  destruct (maps_ok_seen _ _ _ Hm) as [Hsa Hsr]. pose proof (ma_in_use _ _ _ Hm) as Huse. rewrite Forall_forall in Huse.
  destruct (Huse e He) as (s' & n' & Hv' & Hused & Hna & Hsz & Hfit). rewrite Hv in Hv'. injection Hv' as <- <-.
  assert (addr_of (V w) e = a) as Eaddr by (unfold addr_of; by rewrite Hv).
  pose proof Hv as (l & Hi & Hj & El & En & Esl)%nview_Some.
  destruct (RemoveAddrMap_spec w Hinit a (ma_addr _ _ _ Hm) Hlt Hsa (ma_by_addr _ _ _ Hm) ltac:(congruence))
    as [(e1 & m1 & xs & ys & E1 & Hm1 & Een & Een1 & Ea1)|[_ Hno]].
  2: { rewrite Forall_forall in Hno. by destruct (Hno e He). }
  set (w1 := set_addr_map w m1) in *.
  destruct (RemoveRealSizeMap_spec w1 Hinit a s e (ma_size _ _ _ Hm) Hsr (ma_by_size _ _ _ Hm) ltac:(congruence))
    as (e2 & m2 & xs' & ys' & E2 & Hm2 & Een' & Een2 & Ea2).
  { cbn. by rewrite (ma_same _ _ _ Hm). }
  { cbn. unfold size_of. by rewrite Hv. }
  { done. }
  set (w2 := set_realSize_map w1 m2) in *.
  destruct (maps_ok_unpublish (V w) (blocks w) _ _ m1 m2 e1 e2 xs ys xs' ys' Hb Hm Hm1 Een Een1 Hm2 Een' Een2)
    as (Hm' & Hout & _); [by rewrite Ea1|].
  assert (e1 ∈ entries (m_addr_map w)) as He1 by (rewrite Een; apply elem_of_middle; by left).
  assert (e1 = e) as ->.
  { destruct (Huse e1 He1) as (s1 & n1 & Hv1 & _ & Hn1 & _). unfold addr_of in Ea1. rewrite Hv1 in Ea1.
    apply (bo_own _ _ Hb _ _ _ _ _ _ Hv1 Hv); [done|congruence]. }
  destruct e as [j i]. cbn [listIndex nodeIndex] in *. exists i, j, l, n, w1, w2. subst a s sz.
  split_and!; try done.
  - by apply (list_at_Some w1).
  - by apply arr_get_Some.
  - split; try done. pose proof (lo_idle _ (head_ok_list _ _ _ Hhead El)) as [_ Hidle]. rewrite Forall_forall in Hidle.
    intros Hin. destruct (Hidle j Hin) as (_ & m & Em & Hnu & _). congruence.
  - cbn. rewrite !usedEntries_length, Een, Een1 by (done || apply (ma_addr _ _ _ Hm)).
    rewrite <-Permutation_middle. cbn [length]. lia.
  - intros a' sz' b. unfold owns. cbn [m_addr_map m_list w2 w1 set_realSize_map set_addr_map blocks]. split.
    + intros (e & s & m & He' & E & Ea & Es & Eb). split.
      { exists e, s, m. split_and!; try done. rewrite Een. apply elem_of_middle. right. by rewrite <-Een1. }
      intros ->. apply Hout. by rewrite (bo_own _ _ Hb _ _ _ _ _ _ Hv E).
    + intros [(e & s & m & He' & E & Ea & Es & Eb) Hne]. exists e, s, m. split_and!; try done.
      rewrite Een in He'. rewrite Een1. apply elem_of_middle in He' as [->|]; [|done]. rewrite Hv in E. injection E as <- <-. congruence.
Qed.
(** A block in use is taken back; the result tells whether its marks are intact. *)
Lemma free_entry_spec w a sz blk : pool_ok w → usedEntries (m_addr_map w) < MAP_MAX → owns w a sz blk →
  ∃ e w1 w', DevMemoryPool_RemoveAddrMap a w = Ret (Some e, w1) ∧
    free_entry clock m_mutex_Id a e w1 = free_exit m_mutex_Id (if intact sz blk then RET_OK else RET_ERR) w' ∧
    pool_ok w' ∧ mutexes w' = mutexes w ∧ vars w' = vars w ∧
    usedEntries (m_addr_map w') = usedEntries (m_addr_map w) - 1 ∧
    ∀ a' sz' b, owns w' a' sz' b ↔ owns w a' sz' b ∧ a' ≠ a.
Proof.
  intros Hok Hlt Hown. pose proof Hown as (_ & _ & _ & _ & _ & _ & _ & Eblk).
  destruct (unpublish_spec w a sz blk Hok Hlt Hown) as (i & j & l & n & w1 & w2 & E1 & El1 & En1 & E2 & Hh & Hok2 & Eb2
    & Hmx & Hvr & Ea & Hna & Es & Hsz & Hfit & Hcount & Howns).
  pose proof Hh as [Hi Hj El En Hhand Hout]. pose proof (head_ok_list _ _ _ (po_head w2 Hok2) El) as Hl.
  destruct (bo_block _ _ (po_blocks w2 Hok2) _ _ _ (holding_view _ _ _ _ _ Hh)) as (_ & bs & Ebs & Elen); [congruence|].
  rewrite Eb2, Ea, Eblk in Ebs. injection Ebs as <-.
  exists (mkMapNode j i), w1.
  assert (DevMemoryPool_Check n w2 = Ret (if intact sz blk then RET_OK else RET_ERR)) as Ec.
  { rewrite <-Es. apply Check_spec; [done|by rewrite Eb2, Ea|congruence|lia|pose proof (lo_size l Hl); lia]. }
  unfold free_entry. cbn [listIndex nodeIndex]. rewrite El1. cbn [mbind outcome_bind]. rewrite En1. cbn [mbind outcome_bind].
  rewrite E2. cbn [mbind outcome_bind negb Z.eqb RET_OK]. rewrite Ec. cbn [mbind outcome_bind].
  destruct (intact sz blk); cbn [negb Z.eqb RET_OK RET_ERR]; [|by exists w2].
  destruct (update_node_spec w2 i j l n (set_used FALSE) Hok2 Hh eq_refl) as (-> & Hq3 & Hh3 & Er3).
  set (n' := set_used FALSE n) in *. set (l' := with_node l j (Some n')) in *. cbn [mbind outcome_bind].
  rewrite (list_at_Some _ i l') by (done || apply (hd_list _ _ _ _ _ Hh3)). cbn [mbind outcome_bind or_ub].
  destruct (RemoveNode_spec clock _ i j l' n' (q_ok _ _ Hq3) Hh3) as (w4 & l4 & -> & Hq4 & El4).
  { rewrite Er3. split_and!; [done|cbn; congruence|cbn; lia|cbn; lia]. }
  cbn [mbind outcome_bind negb Z.eqb RET_OK]. rewrite (list_at_Some _ i l4) by done. cbn [mbind outcome_bind or_ub].
  destruct (RemoveList_spec w4 i l4 (q_ok _ _ Hq4) Hi El4) as (w5 & -> & Hq5). cbn [mbind outcome_bind].
  pose proof (quiet_trans _ _ _ Hq3 (quiet_trans _ _ _ Hq4 Hq5)) as [Hok5 Hmx5 Hvr5 Ham5 _ Ho5].
  exists w5. split_and!; try done; try congruence. intros a' sz' b. by rewrite Ho5.
Qed.
End Calls.

(** ** The locked calls *)

Section Locked.
Context `{MutexLaws M}.
Context (malloc : gmap Z (list Z) → Z → option (Z * list Z)).
Context (list_room node_room : gmap Z (list Z) → bool).
Context (clock : nat → Z) (m_mutex_Id : Z).
Context (malloc_fresh : ∀ b k a bs, malloc b k = Some (a, bs) → b !! a = None ∧ 0 < a ∧ Z.of_nat (length bs) = k).
Implicit Types w : world M.

(** The pool's mutex exists and nobody holds it. *)
Definition unlocked w : Prop := ∃ id, vars w !! m_mutex_Id = Some id ∧ mx_free (mutexes w) id.

(** Between two calls. *)
Definition ready w : Prop := pool_ok w ∧ unlocked w.

Lemma pool_ok_mutexes w m : pool_ok w → pool_ok (set_mutexes w m).
Proof. by intros []. Qed.

(** Around the body of a call. *)
Lemma lock_spec w : unlocked w → ∃ m, lock m_mutex_Id w = Ret (RET_OK, set_mutexes w m) ∧
  ∃ id, vars w !! m_mutex_Id = Some id ∧ mx_held m id.
Proof.
  intros (id & Eid & Hfree). destruct (mx_lock_free _ _ Hfree) as (m & E & Hheld & _). exists m.
  unfold lock. rewrite (load_Some _ _ id) by done. cbn [mbind outcome_bind]. rewrite E. eauto.
Qed.

Lemma unlock_spec w id : vars w !! m_mutex_Id = Some id → mx_held (mutexes w) id →
  ∃ m, unlock m_mutex_Id w = Ret (RET_OK, set_mutexes w m) ∧ unlocked (set_mutexes w m).
Proof.
  intros Eid Hheld. destruct (mx_unlock_held _ _ Hheld) as (m & E & Hfree & _). exists m.
  unfold unlock. rewrite (load_Some _ _ id) by done. cbn [mbind outcome_bind]. rewrite E. split; [done|]. by exists id.
Qed.

Lemma free_exit_spec w id ret : vars w !! m_mutex_Id = Some id → mx_held (mutexes w) id →
  ∃ m, free_exit m_mutex_Id ret w = Ret (ret, set_mutexes w m) ∧ unlocked (set_mutexes w m).
Proof.
  intros Eid Hheld. destruct (unlock_spec w id Eid Hheld) as (m & E & Hu). exists m. split; [|done].
  unfold free_exit. rewrite E. cbn [mbind outcome_bind]. unfold RET_OK. by rewrite Z.lor_0_r.
Qed.

Abbreviation Malloc := (DevMemoryPool_Malloc malloc list_room node_room clock m_mutex_Id).
Abbreviation Free := (DevMemoryPool_Free clock m_mutex_Id).

Lemma Malloc_spec w size mk : ready w → can_malloc w size mk →
  ∃ a w', Malloc size mk w = Ret (a, w') ∧ ready w' ∧
    ((a = NULL ∧ m_addr_map w' = m_addr_map w ∧ ∀ a' sz b, owns w' a' sz b ↔ owns w a' sz b) ∨
     handed w w' (a - DEV_MEMORY_MARK_OFFSET) size).
Proof.
  intros [Hok Hu] Hcan. unfold DevMemoryPool_Malloc. rewrite (po_init w Hok). cbn [negb Z.eqb TRUE].
  destruct (lock_spec w Hu) as (m & -> & id & Eid & Hheld). cbn [mbind outcome_bind negb Z.eqb RET_OK].
  destruct (malloc_locked_spec malloc list_room node_room clock malloc_fresh (set_mutexes w m) size mk)
    as (a & w' & -> & Hok' & Hmx & Hvr & Hres); [by apply pool_ok_mutexes|done|]. cbn [mbind outcome_bind].
  destruct (unlock_spec w' id) as (m' & -> & Hu'); [by rewrite Hvr|by rewrite Hmx|]. cbn [mbind outcome_bind].
  exists a, (set_mutexes w' m'). split; [done|]. split; [split; [by apply pool_ok_mutexes|done]|].
  destruct Hres as [[-> Hq]|Hh]; [left|by right].
  split; [done|]. split; [by apply (q_addr_map _ _ Hq)|by apply (q_owns _ _ Hq)].
Qed.

(** [Free] of a block in use takes it back and tells whether its marks are intact. *)
Lemma Free_spec w a sz blk : ready w → usedEntries (m_addr_map w) < MAP_MAX → owns w (a - DEV_MEMORY_MARK_OFFSET) sz blk →
  ∃ w', Free a w = Ret (if intact sz blk then RET_OK else RET_ERR, w') ∧ ready w' ∧
    usedEntries (m_addr_map w') = usedEntries (m_addr_map w) - 1 ∧
    ∀ a' sz' b, owns w' a' sz' b ↔ owns w a' sz' b ∧ a' ≠ a - DEV_MEMORY_MARK_OFFSET.
Proof.
  intros [Hok Hu] Hlt Hown. unfold DevMemoryPool_Free. rewrite (po_init w Hok). cbn [negb Z.eqb TRUE].
  assert (a ≠ NULL) as Ha.
  { destruct Hown as (e & s & n & He & E & Ea & _). pose proof (ma_in_use _ _ _ (po_maps w Hok)) as Huse.
    rewrite Forall_forall in Huse. destruct (Huse e He) as (s' & n' & E' & _ & Hna & _). rewrite E in E'. injection E' as <- <-.
    destruct (bo_block _ _ (po_blocks w Hok) _ _ _ E Hna) as [Hpos _]. unfold NULL, DEV_MEMORY_MARK_OFFSET in *. lia. }
  rewrite (proj2 (Z.eqb_neq _ _) Ha). destruct (lock_spec w Hu) as (m & -> & id & Eid & Hheld).
  cbn [mbind outcome_bind negb Z.eqb RET_OK].
  destruct (free_entry_spec clock m_mutex_Id (set_mutexes w m) (a - DEV_MEMORY_MARK_OFFSET) sz blk)
    as (e & w1 & w' & -> & E & Hok' & Hmx & Hvr & Hcount & Howns); [by apply pool_ok_mutexes|done|done|].
  cbn [mbind outcome_bind]. rewrite E.
  destruct (free_exit_spec w' id (if intact sz blk then RET_OK else RET_ERR)) as (m' & -> & Hu'); [by rewrite Hvr|by rewrite Hmx|].
  exists (set_mutexes w' m'). split; [done|]. split; [split; [by apply pool_ok_mutexes|done]|]. done.
Qed.

(** An address that is not in use is refused; so is every address when the maps are full. *)
Lemma Free_refused w a : ready w → a ≠ NULL →
  (∀ sz blk, ¬ owns w (a - DEV_MEMORY_MARK_OFFSET) sz blk) ∨ MAP_MAX ≤ usedEntries (m_addr_map w) →
  ∃ m, Free a w = Ret (RET_ERR, set_mutexes w m) ∧ ready (set_mutexes w m).
Proof.
  intros [Hok Hu] Ha Hno. unfold DevMemoryPool_Free. rewrite (po_init w Hok). cbn [negb Z.eqb TRUE].
  rewrite (proj2 (Z.eqb_neq _ _) Ha). destruct (lock_spec w Hu) as (m & -> & id & Eid & Hheld).
  cbn [mbind outcome_bind negb Z.eqb RET_OK]. set (w1 := set_mutexes w m).
  assert (pool_ok w1) as Hok1 by by apply pool_ok_mutexes.
  assert (DevMemoryPool_RemoveAddrMap (a - DEV_MEMORY_MARK_OFFSET) w1 = Ret (None, w1)) as ->.
  { destruct (Z.eqb_spec (a - DEV_MEMORY_MARK_OFFSET) NULL) as [E|Hne];
      [unfold DevMemoryPool_RemoveAddrMap; by rewrite (po_init w1 Hok1), E|].
    destruct (Z.le_gt_cases MAP_MAX (usedEntries (m_addr_map w1))) as [Hfull|Hlt].
    { unfold DevMemoryPool_RemoveAddrMap. rewrite (po_init w1 Hok1), (proj2 (Z.eqb_neq _ NULL) Hne).
      destruct (Z.leb_spec MAP_MAX (usedEntries (m_addr_map w1))); [done|lia]. }
    pose proof (po_maps w1 Hok1) as Hm. destruct (maps_ok_seen _ _ _ Hm) as [Hsa _].
    destruct (RemoveAddrMap_spec w1 (po_init w1 Hok1) (a - DEV_MEMORY_MARK_OFFSET) (ma_addr _ _ _ Hm) Hlt Hsa (ma_by_addr _ _ _ Hm) Hne)
      as [(e & m1 & xs & ys & _ & _ & Een & _ & Ea)|[E _]]; [exfalso|done].
    destruct Hno as [Hno|]; [|cbn in *; lia]. pose proof (ma_in_use _ _ _ Hm) as Huse. rewrite Forall_forall in Huse.
    assert (e ∈ entries (m_addr_map w1)) as He by (rewrite Een; apply elem_of_middle; by left).
    destruct (Huse e He) as (s & n & Ev & _ & Hna & _). unfold addr_of in Ea. rewrite Ev in Ea.
    destruct (bo_block _ _ (po_blocks w1 Hok1) _ _ _ Ev Hna) as (_ & blk & Eb & _).
    apply (Hno (userSzie n) blk). exists e, s, n. rewrite <-Ea. done. }
  cbn [mbind outcome_bind]. destruct (free_exit_spec w1 id RET_ERR) as (m' & -> & Hu'); [done|done|].
  exists m'. split; [done|]. split; [by apply (pool_ok_mutexes w1)|done].
Qed.
End Locked.
