(* ===== verification/DevMemoryPoolClient.v ===== *)
(** * The memory pool as a heap

    A client of the pool - any order of [Malloc], [Free], and reads and writes
    inside blocks it holds - sees a heap of separate blocks ([heap_step]). *)
From S2P Require Import Prelude DevTypes DevMutex DevArrays DevMemoryPool DevMemoryPoolSize DevMemoryPoolInv DevMemoryPoolTab.
From S2P Require Import DevMemoryPoolOps DevMemoryPoolSpec.
From stdpp Require Import strings.
#[local] Open Scope Z_scope.

(** ** Requests *)

Inductive request :=
  | ReqMalloc (size : Z) (mk : mark)
  | ReqFree (a : Z)
  | ReqRead (a off n : Z)
  | ReqWrite (a off : Z) (data : list Z).

Inductive answer := AnsAddr (a : Z) | AnsRet (r : Z) | AnsBytes (bs : list Z) | AnsDone.

(** [off, off + n) is inside an array of [len] elements. *)
Definition inside (off n len : Z) : bool := (0 <=? off) && (0 <=? n) && (off + n <=? len).

Lemma inside_spec off n len : inside off n len = true ↔ 0 ≤ off ∧ 0 ≤ n ∧ off + n ≤ len.
Proof. unfold inside. rewrite !andb_true_iff, !Z.leb_le. tauto. Qed.

(** What a heap does: a block handed out is new and of the size asked for, one that
    is given back is gone, a read returns what was written. *)
Inductive heap_step : request → gmap Z (list Z) → answer → gmap Z (list Z) → Prop :=
  | hs_malloc_null size mk h : heap_step (ReqMalloc size mk) h (AnsAddr NULL) h
  | hs_malloc size mk h a bs : h !! a = None → 0 < a → Z.of_nat (length bs) = size →
      heap_step (ReqMalloc size mk) h (AnsAddr a) (<[a := bs]> h)
  | hs_free_null h : heap_step (ReqFree NULL) h (AnsRet RET_OK) h
  | hs_free a h bs : h !! a = Some bs → Z.of_nat (size h) < MAP_MAX →
      heap_step (ReqFree a) h (AnsRet RET_OK) (delete a h)
  | hs_free_refused a h : a ≠ NULL → h !! a = None ∨ MAP_MAX ≤ Z.of_nat (size h) →
      heap_step (ReqFree a) h (AnsRet RET_ERR) h
  | hs_read a off n h bs : h !! a = Some bs → inside off n (Z.of_nat (length bs)) = true →
      heap_step (ReqRead a off n) h (AnsBytes (slice off n bs)) h
  | hs_write a off data h bs : h !! a = Some bs →
      inside off (Z.of_nat (length data)) (Z.of_nat (length bs)) = true →
      heap_step (ReqWrite a off data) h AnsDone (<[a := splice bs (Z.to_nat off) data]> h).

Inductive heap_run : list request → gmap Z (list Z) → list answer → gmap Z (list Z) → Prop :=
  | hr_nil h : heap_run [] h [] h
  | hr_cons r rs h h1 h2 ans anss : heap_step r h ans h1 → heap_run rs h1 anss h2 →
      heap_run (r :: rs) h (ans :: anss) h2.

Section Client.
Context `{MutexLaws M}.
Context (malloc : gmap Z (list Z) → Z → option (Z * list Z)).
Context (list_room node_room : gmap Z (list Z) → bool).
Context (clock : nat → Z) (m_mutex_Id : Z).
Context (malloc_fresh : ∀ b k a bs, malloc b k = Some (a, bs) → b !! a = None ∧ 0 < a ∧ Z.of_nat (length bs) = k).
Implicit Types w : world M.

(** The bytes at an address the pool handed out, which is 8 after the start of its block. *)
Definition client_read w (a off n : Z) : outcome (list Z) :=
  blk ← or_ub (blocks w !! (a - DEV_MEMORY_MARK_OFFSET));
  let o := DEV_MEMORY_MARK_OFFSET + off in
  if inside o n (Z.of_nat (length blk)) then Ret (slice o n blk) else UB.
Definition client_write w (a off : Z) (data : list Z) : outcome (world M) :=
  blk ← or_ub (blocks w !! (a - DEV_MEMORY_MARK_OFFSET));
  let o := DEV_MEMORY_MARK_OFFSET + off in
  if inside o (Z.of_nat (length data)) (Z.of_nat (length blk))
  then Ret (set_blocks w (<[a - DEV_MEMORY_MARK_OFFSET := splice blk (Z.to_nat o) data]> (blocks w))) else UB.

(** A request against the module and the memory. *)
Definition serve (r : request) w : outcome (answer * world M) :=
  match r with
  | ReqMalloc size mk =>
      '(a, w) ← DevMemoryPool_Malloc malloc list_room node_room clock m_mutex_Id size mk w; Ret (AnsAddr a, w)
  | ReqFree a => '(ret, w) ← DevMemoryPool_Free clock m_mutex_Id a w; Ret (AnsRet ret, w)
  | ReqRead a off n => bs ← client_read w a off n; Ret (AnsBytes bs, w)
  | ReqWrite a off data => w ← client_write w a off data; Ret (AnsDone, w)
  end.

(** Sizes and names the module can handle; accesses inside a block the client holds. *)
Definition allowed w (h : gmap Z (list Z)) (r : request) : Prop :=
  match r with
  | ReqMalloc size mk => can_malloc w size mk
  | ReqFree _ => True
  | ReqRead a off n => ∃ bs, h !! a = Some bs ∧ inside off n (Z.of_nat (length bs)) = true
  | ReqWrite a off data =>
      ∃ bs, h !! a = Some bs ∧ inside off (Z.of_nat (length data)) (Z.of_nat (length bs)) = true
  end.

(** The heap [h] that a client sees in a state of the module. *)
Record represents w (h : gmap Z (list Z)) : Prop := {
  rp_ready : ready m_mutex_Id w;
  rp_size : Z.of_nat (size h) = usedEntries (m_addr_map w);
  rp_user a bs : h !! a = Some bs ↔ ∃ sz blk, owns w (a - DEV_MEMORY_MARK_OFFSET) sz blk ∧ bs = slice 8 sz blk;
  rp_marks a sz blk : owns w a sz blk → intact sz blk = true;
}.

Lemma owns_inj w a sz sz' blk blk' : pool_ok w → owns w a sz blk → owns w a sz' blk' → sz' = sz ∧ blk' = blk.
Proof.
  intros Hok (e & s & n & He & E & Ea & Es & Eb) (e' & s' & n' & He' & E' & Ea' & Es' & Eb').
  pose proof (ma_in_use _ _ _ (po_maps w Hok)) as Huse. rewrite Forall_forall in Huse.
  destruct (Huse e He) as (s1 & n1 & E1 & _ & Hn1 & _). rewrite E in E1. injection E1 as <- <-.
  assert (e = e') as <- by (apply (bo_own _ _ (po_blocks w Hok) _ _ _ _ _ _ E E' Hn1); congruence).
  rewrite E in E'. injection E' as <- <-. split; congruence.
Qed.

Lemma owns_fits w a sz blk : pool_ok w → owns w a sz blk → 0 ≤ sz ∧ sz + 16 ≤ Z.of_nat (length blk) ∧ 0 < a.
Proof.
  intros Hok (e & s & n & He & E & Ea & Es & Eb).
  pose proof (ma_in_use _ _ _ (po_maps w Hok)) as Huse. rewrite Forall_forall in Huse.
  destruct (Huse e He) as (s1 & n1 & E1 & _ & Hn1 & Hsz & Hfit). rewrite E in E1. injection E1 as <- <-.
  destruct (bo_block _ _ (po_blocks w Hok) _ _ _ E Hn1) as (Hpos & blk' & Eb' & Elen).
  rewrite Ea, Eb in Eb'. injection Eb' as <-. lia.
Qed.

Lemma represents_None w h a sz blk : represents w h → h !! a = None → ¬ owns w (a - DEV_MEMORY_MARK_OFFSET) sz blk.
Proof. intros Hr Hn Ho. assert (h !! a = Some (slice 8 sz blk)) by (apply (rp_user _ _ Hr); eauto). congruence. Qed.

(** *** The requests, one by one *)

Lemma serve_malloc w h sz mk : represents w h → can_malloc w sz mk →
  ∃ ans w' h', serve (ReqMalloc sz mk) w = Ret (ans, w') ∧ heap_step (ReqMalloc sz mk) h ans h' ∧ represents w' h'.
Proof.
  intros [Hready Hsize Huser Hmarks] Hcan. unfold serve.
  destruct (Malloc_spec malloc list_room node_room clock m_mutex_Id malloc_fresh w sz mk Hready Hcan)
    as (a & w' & -> & Hready' & Hres). cbn [mbind outcome_bind]. exists (AnsAddr a), w'.
  destruct Hres as [(-> & Emap & Ho)|(blk & Hpos & Hint & Hlen & Hcount & Hfresh & Ho)].
  - exists h. split_and!; [done|constructor|]. split; [done|by rewrite Emap| |].
    + intros a bs. rewrite Huser. by setoid_rewrite Ho.
    + intros a sz' blk. rewrite Ho. apply Hmarks.
  - assert (h !! a = None) as Hnone.
    { destruct (h !! a) as [bs|] eqn:E; [|done]. apply Huser in E as (sz' & b & Hown & _). by apply Hfresh in Hown. }
    unfold can_malloc in Hcan. unfold DEV_MEMORY_MARK_OFFSET in *.
    exists (<[a := slice 8 sz blk]> h). split_and!; [done|constructor; [done|lia|apply length_slice; lia]|].
    split; [done|rewrite map_size_insert_None by done; lia| |].
    + intros a' bs. rewrite lookup_insert. setoid_rewrite Ho. unfold DEV_MEMORY_MARK_OFFSET. case_decide as Ha.
      * subst a'. split; [intros [= <-]; exists sz, blk; auto|].
        intros (sz' & b & [Hown|(_ & -> & ->)] & ->); [by apply Hfresh in Hown|done].
      * rewrite Huser. unfold DEV_MEMORY_MARK_OFFSET. split; intros (sz' & b & Hown & ->); exists sz', b; [by auto|].
        destruct Hown as [|(? & _)]; [done|lia].
    + intros a' sz' b. rewrite Ho. intros [Hown|(_ & -> & ->)]; [by eapply Hmarks|done].
Qed.

Lemma serve_free w h a : represents w h →
  ∃ ans w' h', serve (ReqFree a) w = Ret (ans, w') ∧ heap_step (ReqFree a) h ans h' ∧ represents w' h'.
Proof.
  intros Hr. pose proof Hr as [Hready Hsize Huser Hmarks]. unfold serve.
  destruct (decide (a = NULL)) as [->|Ha].
  { exists (AnsRet RET_OK), w, h. split_and!; [|constructor|done]. unfold DevMemoryPool_Free.
    by rewrite (po_init w (proj1 Hready)). }
  destruct (h !! a) as [bs|] eqn:E; [destruct (Z.le_gt_cases MAP_MAX (usedEntries (m_addr_map w))) as [Hfull|Hlt]|].
  - destruct (Free_refused clock m_mutex_Id w a Hready Ha (or_intror Hfull)) as (m & -> & Hready').
    exists (AnsRet RET_ERR), (set_mutexes w m), h. split_and!; [done|constructor; [done|right; lia]|by split].
  - apply Huser in E as Hb. destruct Hb as (sz & blk & Hown & ->).
    destruct (Free_spec clock m_mutex_Id w a sz blk Hready Hlt Hown) as (w' & -> & Hready' & Hcount & Ho).
    rewrite (Hmarks _ _ _ Hown). exists (AnsRet RET_OK), w', (delete a h).
    split_and!; [done|econstructor; [done|lia]|].
    assert (0 < size h)%nat by (destruct (size h) eqn:E0; [apply map_size_empty_inv in E0; by subst|lia]).
    split; [done|rewrite map_size_delete, E; lia| |].
    + intros a' bs'. rewrite lookup_delete_Some, Huser. setoid_rewrite Ho. split.
      * intros [Hne (sz' & b & Hown' & ->)]. exists sz', b. split; [|done]. split; [done|lia].
      * intros (sz' & b & [Hown' Hne] & ->). split; [lia|]. by exists sz', b.
    + intros a' sz' b. rewrite Ho. intros [Hown' _]. by eapply Hmarks.
  - destruct (Free_refused clock m_mutex_Id w a Hready Ha) as (m & -> & Hready').
    { left. intros sz blk. by apply (represents_None w h). }
    exists (AnsRet RET_ERR), (set_mutexes w m), h. split_and!; [done|constructor; auto|by split].
Qed.
(** Other bytes in a block. *)
Lemma pool_ok_write w a blk blk' : pool_ok w → blocks w !! a = Some blk → length blk' = length blk →
  pool_ok (set_blocks w (<[a := blk']> (blocks w))).
Proof.
  intros [Hi Hh [Hb Ho] Hm] E El. split; try done. split; [|exact Ho]. intros e s n He Hn.
  destruct (Hb e s n He Hn) as (Hpos & bs & Ebs & Elen). split; [done|]. cbn [blocks set_blocks].
  rewrite lookup_insert. case_decide as Ha; [|by exists bs]. exists blk'. split; [done|].
  rewrite Ha, Ebs in E. injection E as <-. congruence.
Qed.

Lemma owns_write w a blk blk' a' sz b : blocks w !! a = Some blk →
  owns (set_blocks w (<[a := blk']> (blocks w))) a' sz b ↔
  (a' ≠ a ∧ owns w a' sz b) ∨ (a' = a ∧ b = blk' ∧ owns w a sz blk).
Proof.
  intros E. unfold owns. cbn [m_addr_map m_list set_blocks blocks]. destruct (decide (a' = a)) as [->|Hne].
  - rewrite lookup_insert_eq. split.
    + intros (e & s & n & He & Ev & Ea & Es & [= <-]). right. split_and!; [done|done|]. by exists e, s, n.
    + intros [[? _]|(_ & -> & e & s & n & He & Ev & Ea & Es & _)]; [done|]. by exists e, s, n.
  - rewrite lookup_insert_ne by done. split; [intros Hx; left; done|]. by intros [[_ Hx]|[? _]].
Qed.

(** Writing between the marks leaves them, and is writing into the bytes of the client. *)
Lemma splice_user sz blk off data : 0 ≤ sz → sz + 16 ≤ Z.of_nat (length blk) → 0 ≤ off →
  off + Z.of_nat (length data) ≤ sz →
  intact sz (splice blk (Z.to_nat (8 + off)) data) = intact sz blk ∧
  slice 8 sz (splice blk (Z.to_nat (8 + off)) data) = splice (slice 8 sz blk) (Z.to_nat off) data.
Proof.
  intros Hsz Hfit Hoff Hin. split.
  - unfold intact. rewrite !slice_splice_out by lia. done.
  - apply list_eq. intros k. pose proof (length_slice 8 sz blk ltac:(lia) Hsz ltac:(lia)) as Hl.
    destruct (decide (Z.of_nat k < sz)) as [Hk|Hk].
    + rewrite lookup_slice by lia. destruct (decide (k < Z.to_nat off)%nat) as [H1|H1].
      { rewrite !lookup_splice_lt by lia. by rewrite lookup_slice by lia. }
      destruct (decide (k < Z.to_nat off + length data)%nat) as [H2|H2].
      { rewrite !lookup_splice_in by lia. f_equal. lia. }
      rewrite !lookup_splice_ge by lia. by rewrite lookup_slice by lia.
    + rewrite !lookup_ge_None_2; [done| |].
      * rewrite length_splice by lia. lia.
      * unfold slice. rewrite length_take. lia.
Qed.

Lemma serve_read w h a off n : represents w h → allowed w h (ReqRead a off n) →
  ∃ ans w' h', serve (ReqRead a off n) w = Ret (ans, w') ∧ heap_step (ReqRead a off n) h ans h' ∧ represents w' h'.
Proof.
  intros Hr (bs & E & Hin). exists (AnsBytes (slice off n bs)), w, h. split_and!; [|by econstructor|done].
  apply (rp_user _ _ Hr) in E as (sz & blk & Hown & ->). pose proof Hown as (_ & _ & _ & _ & _ & _ & _ & Eb).
  destruct (owns_fits _ _ _ _ (proj1 (rp_ready _ _ Hr)) Hown) as (Hsz & Hfit & _).
  apply inside_spec in Hin as (Ho & Hn & Hle). rewrite length_slice in Hle by lia.
  unfold serve, client_read. rewrite Eb. cbn [or_ub mbind outcome_bind]. unfold DEV_MEMORY_MARK_OFFSET.
  rewrite (proj2 (inside_spec (8 + off) n (Z.of_nat (length blk)))) by lia. cbn [mbind outcome_bind].
  by rewrite slice_slice by lia.
Qed.

Lemma write_represents w h a off data sz blk : represents w h → h !! a = Some (slice 8 sz blk) →
  owns w (a - DEV_MEMORY_MARK_OFFSET) sz blk → 0 ≤ off → off + Z.of_nat (length data) ≤ sz →
  represents (set_blocks w (<[a - DEV_MEMORY_MARK_OFFSET := splice blk (Z.to_nat (8 + off)) data]> (blocks w)))
    (<[a := splice (slice 8 sz blk) (Z.to_nat off) data]> h).
Proof.
  intros [Hready Hsize Huser Hmarks] E Hown Ho Hle. pose proof Hown as (_ & _ & _ & _ & _ & _ & _ & Eb).
  pose proof Hready as [Hok Hu]. destruct (owns_fits _ _ _ _ Hok Hown) as (Hsz & Hfit & _).
  destruct (splice_user sz blk off data Hsz Hfit Ho Hle) as [Hint Huse].
  set (blk' := splice blk _ data) in *. assert (length blk' = length blk) as Hl by (apply length_splice; lia).
  split.
  - split; [by apply (pool_ok_write w _ blk)|done].
  - cbn [m_addr_map set_blocks]. rewrite map_size_insert_Some; [done|by eexists].
  - intros a' bs'. setoid_rewrite (λ a' sz b, owns_write w _ blk blk' a' sz b Eb). rewrite lookup_insert. case_decide as Ha.
    + subst a'. split.
      { intros [= <-]. exists sz, blk'. split; [by right|done]. }
      intros (sz' & b & [[? _]|(_ & -> & Hown')] & ->); [done|].
      destruct (owns_inj _ _ _ _ _ _ Hok Hown Hown') as [-> _]. by rewrite Huse.
    + rewrite Huser. split; intros (sz' & b & Hown' & ->); exists sz', b; (split; [|done]).
      { left. split; [lia|done]. }
      destruct Hown' as [[_ ?]|(? & _)]; [done|lia].
  - intros a' sz' b. rewrite (owns_write w _ blk) by done. intros [[_ Hown']|(_ & -> & Hown')]; [by eapply Hmarks|].
    destruct (owns_inj _ _ _ _ _ _ Hok Hown Hown') as [-> _]. rewrite Hint. by eapply Hmarks.
Qed.

Lemma serve_write w h a off data : represents w h → allowed w h (ReqWrite a off data) →
  ∃ ans w' h', serve (ReqWrite a off data) w = Ret (ans, w') ∧ heap_step (ReqWrite a off data) h ans h' ∧
    represents w' h'.
Proof.
  intros Hr (bs & E & Hin). pose proof E as (sz & blk & Hown & ->)%(rp_user _ _ Hr).
  pose proof Hown as (_ & _ & _ & _ & _ & _ & _ & Eb).
  destruct (owns_fits _ _ _ _ (proj1 (rp_ready _ _ Hr)) Hown) as (Hsz & Hfit & _).
  pose proof Hin as (Ho & Hn & Hle)%inside_spec. rewrite length_slice in Hle by lia.
  eexists AnsDone, _, _. split_and!; [|by econstructor|by apply write_represents].
  unfold serve, client_write. rewrite Eb. cbn [or_ub mbind outcome_bind]. unfold DEV_MEMORY_MARK_OFFSET at 1 3.
  by rewrite (proj2 (inside_spec (8 + off) (Z.of_nat (length data)) (Z.of_nat (length blk)))) by lia.
Qed.

(** One request. *)
Lemma serve_spec w h r : represents w h → allowed w h r →
  ∃ ans w' h', serve r w = Ret (ans, w') ∧ heap_step r h ans h' ∧ represents w' h'.
Proof.
  intros Hr Ha. destruct r as [sz mk|a|a off n|a off data].
  - by apply serve_malloc.
  - by apply serve_free.
  - by apply serve_read.
  - by apply serve_write.
Qed.

(** *** Runs *)

Fixpoint serve_all (rs : list request) w : outcome (list answer * world M) :=
  match rs with
  | [] => Ret ([], w)
  | r :: rs' => '(ans, w) ← serve r w; '(anss, w) ← serve_all rs' w; Ret (ans :: anss, w)
  end.

(** Each request is allowed when it is made. *)
Fixpoint allowed_all (rs : list request) w (h : gmap Z (list Z)) : Prop :=
  match rs with
  | [] => True
  | r :: rs' => allowed w h r ∧
      ∀ ans w' h', serve r w = Ret (ans, w') → heap_step r h ans h' → represents w' h' → allowed_all rs' w' h'
  end.

(** C14. Runs of [Malloc], [Free] and of reads and writes inside the blocks a client holds, in
    which every [Malloc] is one that the module can handle ([can_malloc]: the size is at
    most 2^32 - 2^23, it and the 16 bytes of the marks fit the block size that [GetRealSize]
    gives, the caller's names fit their fields, and the lists of that block size have fewer
    than 512 blocks in use; otherwise bytes are written past the block, or an array is read
    at -1).  Every such run returns, and answers as a heap of separate blocks would: [Malloc]
    returns null or a new block of the size asked for, which keeps what was written into it
    until it is given back; an address that is not held, a second [Free] included, is
    refused, and while the map of 16384 addresses is full, so is every address. *)
Theorem pool_refines_heap w h rs : represents w h → allowed_all rs w h →
  ∃ anss w' h', serve_all rs w = Ret (anss, w') ∧ heap_run rs h anss h' ∧ represents w' h'.
Proof.
  revert w h. induction rs as [|r rs IH]; intros w h Hr Ha; [exists [], w, h; split_and!; [done|constructor|done]|].
  destruct Ha as [Ha Hrest]. destruct (serve_spec w h r Hr Ha) as (ans & w1 & h1 & E & Hstep & Hr1).
  destruct (IH w1 h1 Hr1 (Hrest _ _ _ E Hstep Hr1)) as (anss & w2 & h2 & E2 & Hrun & Hr2).
  exists (ans :: anss), w2, h2. split_and!; [|by econstructor|done].
  cbn [serve_all]. rewrite E. cbn [mbind outcome_bind]. by rewrite E2.
Qed.

(** *** Overruns *)

Lemma le_value_insert bs k x y : bs !! k = Some y → le_value (<[k := x]> bs) = le_value bs + 256 ^ Z.of_nat k * (x - y).
Proof.
  revert k. induction bs as [|b bs IH]; intros k Hk; [done|]. destruct k as [|k]; cbn in Hk.
  - injection Hk as ->. cbn [insert list_insert le_value]. rewrite Z.pow_0_r. lia.
  - change (b + 256 * le_value (<[k := x]> bs) = b + 256 * le_value bs + 256 ^ Z.of_nat (S k) * (x - y)).
    rewrite (IH k Hk), Nat2Z.inj_succ, Z.pow_succ_r by lia. lia.
Qed.

Lemma slice_splice_one {A} (bs : list A) o x off n : 0 ≤ off ≤ o → o < off + n → off + n ≤ Z.of_nat (length bs) →
  slice off n (splice bs (Z.to_nat o) [x]) = <[Z.to_nat (o - off) := x]> (slice off n bs).
Proof.
  intros Ho Hn Hl. apply list_eq. intros k. assert (Z.of_nat (length (slice off n bs)) = n) as Hlen by (apply length_slice; lia).
  destruct (decide (Z.of_nat k < n)) as [Hk|Hk].
  - rewrite lookup_slice by lia. destruct (decide (k = Z.to_nat (o - off))) as [->|Hne].
    + rewrite lookup_splice_in by (cbn [length]; lia). rewrite list_lookup_insert_eq by lia.
      by replace (Z.to_nat off + Z.to_nat (o - off) - Z.to_nat o)%nat with 0%nat by lia.
    + rewrite list_lookup_insert_ne by lia. rewrite lookup_slice by lia.
      destruct (decide (Z.to_nat off + k < Z.to_nat o)%nat); [apply lookup_splice_lt|apply lookup_splice_ge]; cbn [length]; lia.
  - rewrite !lookup_ge_None_2; [done|rewrite length_insert; lia|unfold slice; rewrite length_take; lia].
Qed.

(** One byte of a mark changed. *)
Lemma intact_changed sz blk off x y : 0 ≤ sz → sz + 16 ≤ Z.of_nat (length blk) → intact sz blk = true →
  - 8 ≤ off < 0 ∨ sz ≤ off < sz + 8 → blk !! Z.to_nat (8 + off) = Some y → x ≠ y →
  intact sz (splice blk (Z.to_nat (8 + off)) [x]) = false.
Proof.
  intros Hsz Hfit [Hf Hr]%andb_prop Hoff Hy Hne. to_prop. unfold intact. apply andb_false_iff.
  assert (∀ o, 0 ≤ o → o + 8 ≤ Z.of_nat (length blk) → o ≤ 8 + off < o + 8 →
    le_value (slice o 8 (splice blk (Z.to_nat (8 + off)) [x])) ≠ le_value (slice o 8 blk)) as Hchange.
  { intros o Ho Hol Hoo. rewrite slice_splice_one by lia.
    rewrite (le_value_insert _ _ x y); [|rewrite lookup_slice by lia; rewrite <-Hy; f_equal; lia].
    assert (0 < 256 ^ Z.of_nat (Z.to_nat (8 + off - o))) by (apply Z.pow_pos_nonneg; lia). nia. }
  destruct Hoff as [Hoff|Hoff].
  - left. apply Z.eqb_neq. rewrite <-Hf. apply Hchange; lia.
  - right. apply Z.eqb_neq. rewrite <-Hr. apply Hchange; lia.
Qed.

(** A client that changes one byte of the 8 before or the 8 after its block gets
    an error from [Free] of that block; no other block in use is affected. *)
Theorem Free_reports_overrun w a sz blk off x y : ready m_mutex_Id w → usedEntries (m_addr_map w) < MAP_MAX →
  owns w (a - DEV_MEMORY_MARK_OFFSET) sz blk → intact sz blk = true →
  - 8 ≤ off < 0 ∨ sz ≤ off < sz + 8 → blk !! Z.to_nat (8 + off) = Some y → x ≠ y →
  ∃ w1 w2, client_write w a off [x] = Ret w1 ∧ DevMemoryPool_Free clock m_mutex_Id a w1 = Ret (RET_ERR, w2) ∧
    ready m_mutex_Id w2 ∧
    ∀ a' sz' b, owns w2 a' sz' b ↔ owns w a' sz' b ∧ a' ≠ a - DEV_MEMORY_MARK_OFFSET.
Proof.
  intros [Hok Hu] Hlt Hown Hint Hoff Hy Hne. pose proof Hown as (_ & _ & _ & _ & _ & _ & _ & Eb).
  destruct (owns_fits _ _ _ _ Hok Hown) as (Hsz & Hfit & _).
  pose proof (intact_changed sz blk off x y Hsz Hfit Hint Hoff Hy Hne) as Hbad.
  set (blk' := splice blk (Z.to_nat (8 + off)) [x]) in *.
  assert (length blk' = length blk) as Hl by (apply length_splice; cbn [length]; lia).
  set (w1 := set_blocks w (<[a - DEV_MEMORY_MARK_OFFSET := blk']> (blocks w))).
  pose proof (λ a' sz' b, owns_write w _ blk blk' a' sz' b Eb) as Ho1. fold w1 in Ho1.
  destruct (Free_spec clock m_mutex_Id w1 a sz blk') as (w2 & E & Hready & _ & Ho2).
  { split; [by apply (pool_ok_write w _ blk)|done]. }
  { done. }
  { apply Ho1. right. done. }
  exists w1, w2. rewrite Hbad in E. split_and!; try done.
  - unfold client_write. rewrite Eb. cbn [or_ub mbind outcome_bind]. unfold DEV_MEMORY_MARK_OFFSET at 1 3.
    by rewrite (proj2 (inside_spec (8 + off) (Z.of_nat (length [x])) (Z.of_nat (length blk)))) by (cbn [length]; lia).
  - intros a' sz' b. rewrite Ho2, Ho1. tauto.
Qed.
(** *** Initialisation *)

Definition init_head : Dev_MemoryPool_list_head :=
  mkHead 0 (AllocdAndusedListIndex zero_head) (seqZ 0 DEV_MEMORY_POOL_LIST_MAX) (p_list zero_head).

Lemma nview_empty n e : nview (replicate n None) e = None.
Proof.
  unfold nview. destruct (0 <=? listIndex e); [|done].
  destruct (replicate n None !! Z.to_nat (listIndex e)) as [x|] eqn:E; [|done].
  apply lookup_replicate in E as [-> _]. done.
Qed.

Lemma zero_map_ok : map_ok zero_map.
Proof. split; [apply length_replicate|unfold MAP_MAX, DEV_MEMORY_POOL_LIST_MAX; cbn [usedEntries zero_map]; lia]. Qed.

Lemma zero_map_entries : entries zero_map = [].
Proof. unfold entries. apply take_0. Qed.

Lemma init_head_ok : head_ok init_head.
Proof.
  split; cbn [init_head usedLists AllocdAndusedListIndex AllocdButUnusedListIndex p_list zero_head]; try done; try lia.
  - unfold stack_of. change (take (Z.to_nat (128 - 0)) (seqZ 0 DEV_MEMORY_POOL_LIST_MAX)) with (seqZ 0 128).
    split; [apply NoDup_seqZ|]. apply Forall_forall. intros i Hi%elem_of_seqZ. split; [lia|].
    apply lookup_replicate_2. unfold DEV_MEMORY_POOL_LIST_MAX. lia.
  - intros i l [? _]%lookup_replicate. done.
Qed.

Lemma init_represents m c b id : c !! m_mutex_Id = Some id → mx_free m id →
  represents (mkWorld m c TRUE init_head zero_map zero_map b) ∅.
Proof.
  intros Hc Hfree. set (w := mkWorld m c TRUE init_head zero_map zero_map b).
  assert (∀ a sz blk, ¬ owns w a sz blk) as Hno.
  { intros a sz blk (e & s & n & _ & E & _). cbn [m_list w p_list init_head zero_head] in E. by rewrite nview_empty in E. }
  split.
  - split; [|by exists id]. split; [done|apply init_head_ok| |].
    + split; intros e; intros; cbn [m_list w p_list init_head zero_head] in *; by rewrite nview_empty in *.
    + split; [apply zero_map_ok|apply zero_map_ok|..]; cbn [w m_addr_map m_realSize_map]; rewrite ?zero_map_entries;
        [apply Forall_nil_2|done|constructor|constructor].
  - rewrite map_size_empty. done.
  - intros a bs. split; [done|]. by intros (sz & blk & []%Hno & _).
  - by intros a sz blk []%Hno.
Qed.

(** After [Init] the heap is empty. *)
Lemma Init_represents w mk m c id : init_f w ≠ TRUE →
  mx_Create m_mutex_Id mk (mutexes w, vars w) = Ret (RET_OK, (m, c)) → c !! m_mutex_Id = Some id → mx_free m id →
  ∃ w', DevMemoryPool_Init m_mutex_Id mk w = Ret (RET_OK, w') ∧ represents w' ∅.
Proof.
  intros Hi Hc Hid Hfree. unfold DevMemoryPool_Init. rewrite (proj2 (Z.eqb_neq _ _) Hi), Hc.
  cbn [mbind outcome_bind]. eexists. split; [reflexivity|]. by apply (init_represents m c _ id).
Qed.
End Client.

(** ** The index of lists *)

(** With three lists in use, giving up the empty middle one takes the first one,
    of smaller blocks, out of the index instead, so that it is found no more, and
    leaves the list given up in the index: [RemoveList] removes at the left end of its last
    search range and not where it found the list. *)
Theorem RemoveList_drops_another {M} (w : world M) i0 i1 i2 rest l0 l1 :
  init_f w = TRUE → usedLists (m_list w) = 3 → AllocdAndusedListIndex (m_list w) = i0 :: i1 :: i2 :: rest →
  length (AllocdButUnusedListIndex (m_list w)) = 128%nat →
  0 ≤ i0 → 0 ≤ i1 → i0 ≠ i1 → p_list (m_list w) !! Z.to_nat i0 = Some (Some l0) →
  p_list (m_list w) !! Z.to_nat i1 = Some (Some l1) →
  allNum l1 = 0 → usedNum l1 = 0 →
  ∃ w', DevMemoryPool_RemoveList i1 l1 w = Ret (RET_OK, w') ∧
    take (Z.to_nat (usedLists (m_list w'))) (AllocdAndusedListIndex (m_list w')) = [i1; i2] ∧
    p_list (m_list w') !! Z.to_nat i0 = Some (Some l0) ∧ p_list (m_list w') !! Z.to_nat i1 = Some None.
Proof.
  intros Hi Hu Hix Hlen H0 H1 Hne E0 E1 Ha Hused. unfold DevMemoryPool_RemoveList. rewrite Hi, Ha, Hused.
  cbn [negb Z.eqb TRUE andb].
  assert (compare_list w (realSize l1) 1 = Ret (Some Eq)) as Ecmp.
  { unfold compare_list, list_at. rewrite Hix, (arr_get_Some _ 1 i1) by done. cbn [mbind outcome_bind].
    rewrite (arr_get_Some _ _ (Some l1)) by done. cbn [mbind outcome_bind option_map]. by rewrite Z.compare_refl. }
  assert (find_list w (realSize l1) = Ret (Hit 0 1)) as ->.
  { unfold find_list. rewrite Hu. change (0 <? 3) with true. cbv iota. unfold rounds. cbn [exact_search].
    change (0 <=? 3 - 1) with true. change ((0 + (3 - 1)) / 2) with 1. cbv iota zeta. by rewrite Ecmp. }
  cbn [mbind outcome_bind]. rewrite Hu, Hix. 
  destruct (remove_entry_spec (i0 :: i1 :: i2 :: rest) 3 0) as (ix & -> & _ & Eix); [lia|cbn [length]; lia|].
  cbn [mbind outcome_bind].
  rewrite arr_set_inside by (rewrite Hlen; done). cbn [mbind outcome_bind].
  eexists. split; [reflexivity|]. cbn [m_list set_head set_list usedLists AllocdAndusedListIndex p_list].
  split; [done|]. split; [rewrite list_lookup_insert_ne by lia; done|].
  apply list_lookup_insert_eq. by eapply lookup_lt_Some.
Qed.

(** ** Concrete pools *)

(** A C library whose heap always has room above the blocks in use. *)
Definition malloc_heap (b : gmap Z (list Z)) (k : Z) : option (Z * list Z) :=
  if k <? 0 then None else Some (1 + foldr Z.max 0 (elements (dom b)), replicate (Z.to_nat k) 0).

Lemma malloc_heap_fresh b k a bs : malloc_heap b k = Some (a, bs) → b !! a = None ∧ 0 < a ∧ Z.of_nat (length bs) = k.
Proof.
  unfold malloc_heap. destruct (Z.ltb_spec k 0) as [|Hk]; [done|]. intros [= <- <-].
  pose proof (foldr_max_nonneg (elements (dom b))). split_and!; [|lia|rewrite length_replicate; lia].
  apply not_elem_of_dom. intros Hin%elem_of_elements%foldr_max_le. lia.
Qed.

Definition pool_mark : mark := mkMark "core/node.cpp" 42 "frame".

(** The pool after [Init]; its mutex is lock 1. *)
Definition pool_world : world mutex_state :=
  mkWorld one_lock_table {[77 := 1]} TRUE init_head zero_map zero_map ∅.

Lemma pool_world_represents : @represents _ _ (DevMutex_laws (λ _, 0)) 77 pool_world ∅.
Proof.
  unshelve eapply (@init_represents _ _ (DevMutex_laws (λ _, 0)) 77 one_lock_table {[77 := 1]} ∅ 1).
  - by vm_compute.
  - apply one_lock_free.
Qed.

Lemma pool_world_can_malloc : can_malloc pool_world 100 pool_mark.
Proof.
  split; [lia|]. split; [by apply (bool_decide_unpack _); vm_compute|].
  split; [split; by apply (bool_decide_unpack _); vm_compute|].
  intros i l [? _]%lookup_replicate. done.
Qed.

Abbreviation pool_serve_all :=
  (@serve_all _ (DevMutex_lib (λ _, 0)) malloc_heap (λ _, true) (λ _, true) (λ _, 0) 77).

Lemma pool_refines_heap_witness :
  ∃ anss w' h', pool_serve_all [ReqMalloc 100 pool_mark; ReqFree 9; ReqFree 9] pool_world = Ret (anss, w') ∧
    heap_run [ReqMalloc 100 pool_mark; ReqFree 9; ReqFree 9] ∅ anss h' ∧
    anss = [AnsAddr 9; AnsRet RET_OK; AnsRet RET_ERR].
Proof.
  destruct (@pool_refines_heap _ _ (DevMutex_laws (λ _, 0)) malloc_heap (λ _, true) (λ _, true) (λ _, 0) 77
    malloc_heap_fresh pool_world ∅ [ReqMalloc 100 pool_mark; ReqFree 9; ReqFree 9] pool_world_represents)
    as (anss & w' & h' & E & Hrun & _).
  - split; [apply pool_world_can_malloc|]. intros. split; [done|]. intros. by split.
  - exists anss, w', h'. split; [done|]. split; [done|].
    assert ((λ o, match o with Ret x => fst x | _ => [] end)
      (pool_serve_all [ReqMalloc 100 pool_mark; ReqFree 9; ReqFree 9] pool_world)
      = [AnsAddr 9; AnsRet RET_OK; AnsRet RET_ERR]) as Er by (by vm_compute).
    by rewrite E in Er.
Defined.

(** A client that writes just past its 100 bytes. *)
Lemma Free_reports_overrun_witness :
  ∃ a w x w1 w2,
    @DevMemoryPool_Malloc _ (DevMutex_lib (λ _, 0)) malloc_heap (λ _, true) (λ _, true) (λ _, 0) 77 100 pool_mark
      pool_world = Ret (a, w) ∧
    client_write w a 100 [x] = Ret w1 ∧
    @DevMemoryPool_Free _ (DevMutex_lib (λ _, 0)) (λ _, 0) 77 a w1 = Ret (RET_ERR, w2).
Proof.
  destruct (@Malloc_spec _ _ (DevMutex_laws (λ _, 0)) malloc_heap (λ _, true) (λ _, true) (λ _, 0) 77 malloc_heap_fresh
    pool_world 100 pool_mark (rp_ready _ _ _ pool_world_represents) pool_world_can_malloc)
    as (a & w & E & Hready & [[-> _]|(blk & _ & Hint & Hlen & Hcount & _ & Ho)]).
  { assert ((λ o, match o with Ret x => fst x | _ => NULL end)
      (@DevMemoryPool_Malloc _ (DevMutex_lib (λ _, 0)) malloc_heap (λ _, true) (λ _, true) (λ _, 0) 77 100 pool_mark
      pool_world) = 9) as Er by (by vm_compute). by rewrite E in Er. }
  change (block_size 100) with 512 in Hlen.
  destruct (lookup_lt_is_Some_2 blk (Z.to_nat (8 + 100))) as [y Hy]; [lia|].
  destruct (@Free_reports_overrun _ _ (DevMutex_laws (λ _, 0)) (λ _, 0) 77 w a 100 blk 100 (y + 1) y)
    as (w1 & w2 & E1 & E2 & _); try done.
  - rewrite Hcount. by vm_compute.
  - apply Ho. by right.
  - right. lia.
  - lia.
  - by exists a, w, (y + 1), w1, w2.
Defined.

(** Three lists in use, the middle one without blocks. *)
Definition three_lists : world unit :=
  mkWorld () ∅ TRUE
    (mkHead 3 ([0; 1; 2] ++ replicate 125 0) (seqZ 0 128)
       (Some (new_list 512) :: Some (new_list (60 * MB)) :: Some (new_list (70 * MB)) :: replicate 125 None))
    zero_map zero_map ∅.

Lemma RemoveList_drops_another_witness :
  ∃ w', DevMemoryPool_RemoveList 1 (new_list (60 * MB)) three_lists = Ret (RET_OK, w') ∧
    take (Z.to_nat (usedLists (m_list w'))) (AllocdAndusedListIndex (m_list w')) = [1; 2] ∧
    find_list w' 512 = Ret (Broken 0).
Proof.
  destruct (RemoveList_drops_another three_lists 0 1 2 (replicate 125 0) (new_list 512) (new_list (60 * MB)))
    as (w' & E & Ht & _); try done.
  exists w'. split; [done|]. split; [done|].
  assert ((λ o, match o with Ret x => find_list (snd x) 512 | _ => UB end)
    (DevMemoryPool_RemoveList 1 (new_list (60 * MB)) three_lists) = Ret (Broken 0)) as Er by (by vm_compute).
  by rewrite E in Er.
Defined.
