(* ===== verification/DevLibPool.v ===== *)
(** * The SDK's library pool

    Model of [src/mivifwk/odm/plugins/qcom/ldc/device/dev_libPool.cpp]: shared
    libraries are opened one by one or by directory, and counted, so that one handle
    serves several callers.  The dynamic linker and the directory are parameters; a
    C string is the list of its characters before the zero. *)
From S2P Require Import Prelude DevTypes DevArrays DevStdlib.
#[local] Open Scope Z_scope.

(** The characters of a C string. *)
Abbreviation text := (list Z).

(** @src src/mivifwk/odm/plugins/qcom/ldc/device/dev_libPool.cpp:23-26 the constants *)
Definition DEV_LIBPOOL_DIR_OPEN_MAX : Z := 64.
Definition LIB_EXTENSION_NAME : text := [115; 111].
Definition LIB_ENTRY_INTERFACE : text := [69; 110; 116; 114; 121].

(** @src src/mivifwk/odm/plugins/qcom/ldc/device/dev_libPool.h:17-17 DEV_LIBPOOL_LIB_OPEN_MAX *)
Definition DEV_LIBPOOL_LIB_OPEN_MAX : Z := 64.

(** @src src/mivifwk/odm/plugins/qcom/ldc/device/dev_libPool.h:21-25 DEV_LIBPOOL_LIST *)
Record DEV_LIBPOOL_LIST := mkLibList { num : Z; lib_name : list text; lib_entry : list Z }.

(** @src src/mivifwk/odm/plugins/qcom/ldc/device/dev_libPool.cpp:28-35 DEV_LIBPOOL_DIR_LIST
    The lines used by the report only ([__fileName], [__fileLine]) are left out. *)
Record DEV_LIBPOOL_DIR_LIST := mkDirList { d_usedNum : Z; d_dir : text; d_fd : list Z; d_list : DEV_LIBPOOL_LIST }.

(** @src src/mivifwk/odm/plugins/qcom/ldc/device/dev_libPool.cpp:40-48 DEV_LIBPOOL_OPEN_LIST *)
Record DEV_LIBPOOL_OPEN_LIST := mkOpenList { o_usedNum : Z; o_dir : text; o_name : text; o_fd : Z; o_entry : Z }.

#[export] Instance lib_list_eq_dec : EqDecision DEV_LIBPOOL_LIST.
Proof. solve_decision. Defined.
#[export] Instance dir_list_eq_dec : EqDecision DEV_LIBPOOL_DIR_LIST.
Proof. solve_decision. Defined.
#[export] Instance open_list_eq_dec : EqDecision DEV_LIBPOOL_OPEN_LIST.
Proof. solve_decision. Defined.

(** The arrays after [memset(..., 0, ...)]. *)
Definition zero_lib_list : DEV_LIBPOOL_LIST := mkLibList 0 (replicate 64 []) (replicate 64 0).
Definition zero_dir : DEV_LIBPOOL_DIR_LIST := mkDirList 0 [] (replicate 64 0) zero_lib_list.
Definition zero_open : DEV_LIBPOOL_OPEN_LIST := mkOpenList 0 [] [] 0 0.

(** [strncmp(a, b, FILE_NAME_LEN_MAX) == 0], and what [snprintf] leaves of a text in
    an array of [FILE_NAME_LEN_MAX] characters. *)
Definition same_text (a b : text) : bool :=
  bool_decide (take (Z.to_nat FILE_NAME_LEN_MAX) a = take (Z.to_nat FILE_NAME_LEN_MAX) b).
Definition file_text (a : text) : text := take (Z.to_nat (FILE_NAME_LEN_MAX - 1)) a.

(** [strrchr(path, '/') + 1], or the whole path. *)
Fixpoint after_slash (acc l : text) : text :=
  match l with [] => acc | c :: l' => if c =? 47 then after_slash l' l' else after_slash acc l' end.
(** @src src/mivifwk/odm/plugins/qcom/ldc/device/dev_libPool.cpp:62-73 __DevLibPool_NoDirFileName *)
Definition __DevLibPool_NoDirFileName (pFilePath : text) : text := after_slash pFilePath pFilePath.

(** ** The dynamic linker

    A handle is an address; [0] is null.  [D] is the linker's state. *)
Class DynLib (D : Type) := {
  dlopen : text → D → Z * D;
  dlsym : Z → text → D → Z;
  dlclose : Z → D → Z * D;
}.

(** ** File names *)

(** The C string at [p] of an array. *)
Definition c_text (buf : list Z) (p : nat) : outcome text :=
  n ← strlen (drop p buf); Ret (take n (drop p buf)).

Definition maxFileNameToken : nat := 5.

(** The loop over the tokens of a name, [k] places of [pTokens] left: the tokens stored,
    the last result of [Dev_strtok_r] and the array. *)
Fixpoint token_loop (k : nat) (pToken : option nat) (buf : list Z) (save : nat) (pTokens : list nat)
    : outcome (list nat * option nat * list Z) :=
  match pToken, k with
  | Some t, S k' =>
      '(next, buf, save) ← Dev_strtok_r buf None [46] save;
      token_loop k' next buf save (pTokens ++ [t])
  | _, _ => Ret (pTokens, pToken, buf)
  end.

(** One round of the loop over the five places of a name: the pattern and the index of
    the token compared with it; [None]: the round is skipped. *)
Definition name_pattern (tokenCount : nat) (pVendorName pModuleName pTargetName pExtension : text) (i : nat)
    : option (text * nat) :=
  match i with
  | 0%nat => Some ([99; 111; 109], i)
  | 1%nat => Some (pVendorName, i)
  | 2%nat => Some (pModuleName, i)
  | 3%nat =>
      if (maxFileNameToken =? tokenCount + 1)%nat && bool_decide (pTargetName = [42]) then None
      else Some (pTargetName, i)
  | _ => if (maxFileNameToken =? tokenCount + 1)%nat then Some (pExtension, (i - 1)%nat) else Some (pExtension, i)
  end.

Fixpoint match_loop (buf : list Z) (pTokens : list nat) (pattern : nat → option (text * nat)) (places : list nat)
    : outcome bool :=
  match places with
  | [] => Ret true
  | i :: places' =>
      match pattern i with
      | None => match_loop buf pTokens pattern places'
      | Some (pToken, index) =>
          if bool_decide (pToken = [42]) then match_loop buf pTokens pattern places'
          else
            p ← or_ub (pTokens !! index);
            t ← c_text buf p;
            if bool_decide (pToken = t) then match_loop buf pTokens pattern places' else Ret false
      end
  end.

(** @src src/mivifwk/odm/plugins/qcom/ldc/device/dev_libPool.cpp:93-148 DevLibPool_GetFilesFromPath (one name)
    [strncpy] fills the first 256 characters of [fileName]; [junk] is the last one. *)
Definition valid_name (junk : Z) (d_name pVendorName pModuleName pTargetName pExtension : text) : outcome bool :=
  let fileName := take 256 (d_name ++ replicate 256 0) ++ [junk] in
  '(pToken, buf, save) ← Dev_strtok_r fileName (Some 0%nat) [46] 0;
  '(pTokens, pToken, buf) ← token_loop maxFileNameToken pToken buf save [];
  let tokenCount := length pTokens in
  match pToken with
  | Some _ => Ret false
  | None =>
      if (maxFileNameToken - 1 <=? tokenCount)%nat then
        match_loop buf pTokens (name_pattern tokenCount pVendorName pModuleName pTargetName pExtension) (seq 0 5)
      else Ret false
  end.

(** The names that match, written one after the other into an array of [room] names. *)
Fixpoint read_dir (junk : Z) (room : Z) (pFileSearchPath pVendorName pModuleName pTargetName pExtension : text)
    (names : list text) (fileCount : Z) (out : list text) : outcome (Z * list text) :=
  match names with
  | [] => Ret (fileCount, out)
  | d_name :: names' =>
      ok ← valid_name junk d_name pVendorName pModuleName pTargetName pExtension;
      if ok : bool then
        if fileCount <? room then
          read_dir junk room pFileSearchPath pVendorName pModuleName pTargetName pExtension names'
            (u16 (fileCount + 1)) (out ++ [file_text (pFileSearchPath ++ [47] ++ d_name)])
        else UB
      else read_dir junk room pFileSearchPath pVendorName pModuleName pTargetName pExtension names' fileCount out
  end.

(** ** The module's state *)

Record world (M D : Type) := mkWorld {
  mutexes : M;
  vars : cells;
  init_f : Z;
  m_libPoolList : list DEV_LIBPOOL_DIR_LIST;
  m_libPoolListDir_num : Z;
  m_libPoolOpenList : list DEV_LIBPOOL_OPEN_LIST;
  m_libPoolListOpen_num : Z;
  linker : D;
}.
Arguments mkWorld {_ _} _ _ _ _ _ _ _ _.
Arguments mutexes {_ _} _.
Arguments vars {_ _} _.
Arguments init_f {_ _} _.
Arguments m_libPoolList {_ _} _.
Arguments m_libPoolListDir_num {_ _} _.
Arguments m_libPoolOpenList {_ _} _.
Arguments m_libPoolListOpen_num {_ _} _.
Arguments linker {_ _} _.

Definition set_mutexes {M D} (w : world M D) (m : M) : world M D :=
  mkWorld m (vars w) (init_f w) (m_libPoolList w) (m_libPoolListDir_num w) (m_libPoolOpenList w)
    (m_libPoolListOpen_num w) (linker w).
Definition set_linker {M D} (w : world M D) (d : D) : world M D :=
  mkWorld (mutexes w) (vars w) (init_f w) (m_libPoolList w) (m_libPoolListDir_num w) (m_libPoolOpenList w)
    (m_libPoolListOpen_num w) d.
Definition set_dirs {M D} (w : world M D) (l : list DEV_LIBPOOL_DIR_LIST) (n : Z) : world M D :=
  mkWorld (mutexes w) (vars w) (init_f w) l n (m_libPoolOpenList w) (m_libPoolListOpen_num w) (linker w).
Definition set_opens {M D} (w : world M D) (l : list DEV_LIBPOOL_OPEN_LIST) (n : Z) : world M D :=
  mkWorld (mutexes w) (vars w) (init_f w) (m_libPoolList w) (m_libPoolListDir_num w) l n (linker w).

(** The first of the entries [0 .. n - 1] that satisfies [p]. *)
Definition find_entry {A} (p : A → bool) (n : Z) (l : list A) : option (nat * A) :=
  list_find (λ x, p x = true) (take (Z.to_nat n) l).

(** The number of entries after one was taken out. *)
Definition one_less (n : Z) : Z := if n - 1 <=? 0 then 0 else n - 1.

(** ** The operations *)

Section LibPool.
Context `{MutexLib M} `{DynLib D}.
(** [opendir] and [readdir]: the names in a directory; what is on the stack. *)
Context (list_dir : text → option (list text)) (junk : Z).
(** The addresses of the static variables [m_mutex_Id] and [m_mutex_OpneId]. *)
Context (m_mutex_Id m_mutex_OpneId : Z).

Abbreviation world := (world M D).

(** The module does not look at the results of [Lock] and [Unlock]. *)
Definition lock (p : Z) (w : world) : outcome world :=
  id ← load (vars w) p; '(_, m) ← mx_Lock id (mutexes w); Ret (set_mutexes w m).
Definition unlock (p : Z) (w : world) : outcome world :=
  id ← load (vars w) p; '(_, m) ← mx_Unlock id (mutexes w); Ret (set_mutexes w m).

(** @src src/mivifwk/odm/plugins/qcom/ldc/device/dev_libPool.cpp:75-160 DevLibPool_GetFilesFromPath
    The result and the names written to [pFileNames], which has [room] places. *)
Definition DevLibPool_GetFilesFromPath (room : Z)
    (pFileSearchPath pVendorName pModuleName pTargetName pExtension : text) (w : world) : outcome (Z * list text) :=
  if negb (init_f w =? TRUE) then Ret (RET_ERR, [])
  else
    match list_dir pFileSearchPath with
    | Some names => read_dir junk room pFileSearchPath pVendorName pModuleName pTargetName pExtension names 0 []
    | None => Ret (0, [])
    end.

(** The loop of [DirLoad]. *)
Fixpoint load_libs (files : list text) (ret : Z) (pFd : list Z) (l : DEV_LIBPOOL_LIST) (d : D)
    : outcome (Z * list Z * DEV_LIBPOOL_LIST * D) :=
  match files with
  | [] => Ret (ret, pFd, l, d)
  | f :: files' =>
      let '(fd, d) := dlopen f d in
      if fd =? NULL then load_libs files' ret pFd l d
      else
        let entry := dlsym fd LIB_ENTRY_INTERFACE d in
        if entry =? NULL then load_libs files' ret pFd l (dlclose fd d).2
        else
          entries ← arr_set (lib_entry l) (num l) entry;
          names ← arr_set (lib_name l) (num l) (file_text (__DevLibPool_NoDirFileName f));
          pFd ← arr_set pFd (num l) fd;
          load_libs files' RET_OK pFd (mkLibList (num l + 1) names entries) d
  end.

(** @src src/mivifwk/odm/plugins/qcom/ldc/device/dev_libPool.cpp:162-192 DevLibPool_DirLoad
    The result, the handles and the list. *)
Definition DevLibPool_DirLoad (dir : text) (pFd : list Z) (l : DEV_LIBPOOL_LIST) (w : world)
    : outcome (Z * list Z * DEV_LIBPOOL_LIST * world) :=
  if negb (init_f w =? TRUE) then Ret (RET_ERR, pFd, l, w)
  else
    '(n, names) ← DevLibPool_GetFilesFromPath DEV_LIBPOOL_LIB_OPEN_MAX dir [42] [42] [42] LIB_EXTENSION_NAME w;
    '(ret, pFd, l, d) ← load_libs (take (Z.to_nat n) names) RET_ERR pFd l (linker w);
    Ret (ret, pFd, l, set_linker w d).

(** The loop of [DirRevert] over the first handles. *)
Fixpoint close_libs (fds : list Z) (ret : Z) (d : D) : Z * D :=
  match fds with
  | [] => (ret, d)
  | fd :: fds' =>
      if fd =? NULL then close_libs fds' ret d
      else let '(r, d) := dlclose fd d in close_libs fds' (if negb (r =? RET_OK) then RET_ERR else ret) d
  end.

(** @src src/mivifwk/odm/plugins/qcom/ldc/device/dev_libPool.cpp:194-209 DevLibPool_DirRevert *)
Definition DevLibPool_DirRevert (e : DEV_LIBPOOL_DIR_LIST) (w : world) : outcome (Z * world) :=
  if negb (init_f w =? TRUE) then Ret (RET_ERR, w)
  else if Z.of_nat (length (d_fd e)) <? num (d_list e) then UB
  else
    let '(ret, d) := close_libs (take (Z.to_nat (num (d_list e))) (d_fd e)) RET_OK (linker w) in
    Ret (ret, set_linker w d).

(** @src src/mivifwk/odm/plugins/qcom/ldc/device/dev_libPool.cpp:211-238 DevLibPool_OpenDir
    The result and the list copied to the caller; the arguments are not null. *)
Definition DevLibPool_OpenDir (dir : text) (w : world) : outcome (Z * option DEV_LIBPOOL_LIST * world) :=
  if negb (init_f w =? TRUE) then Ret (RET_ERR, None, w)
  else
    w ← lock m_mutex_Id w;
    let n := m_libPoolListDir_num w in
    match find_entry (λ e, same_text dir (d_dir e)) n (m_libPoolList w) with
    | Some (i, e) =>
        let w := set_dirs w (<[i := mkDirList (d_usedNum e + 1) (d_dir e) (d_fd e) (d_list e)]> (m_libPoolList w)) n in
        w ← unlock m_mutex_Id w;
        Ret (RET_OK, Some (d_list e), w)
    | None =>
        e ← arr_get (m_libPoolList w) n;
        '(ret, fd, l, w) ← DevLibPool_DirLoad dir (d_fd e) (d_list e) w;
        if ret =? RET_OK then
          ls ← arr_set (m_libPoolList w) n (mkDirList (d_usedNum e + 1) (file_text dir) fd l);
          w ← unlock m_mutex_Id (set_dirs w ls (n + 1));
          Ret (RET_OK, Some l, w)
        else
          ls ← arr_set (m_libPoolList w) n (mkDirList (d_usedNum e) (d_dir e) fd l);
          w ← unlock m_mutex_Id (set_dirs w ls n);
          Ret (RET_ERR, None, w)
    end.

(** @src src/mivifwk/odm/plugins/qcom/ldc/device/dev_libPool.cpp:240-264 DevLibPool_CloseDir *)
Definition DevLibPool_CloseDir (dir : text) (w : world) : outcome (Z * world) :=
  if negb (init_f w =? TRUE) then Ret (RET_ERR, w)
  else
    w ← lock m_mutex_Id w;
    let n := m_libPoolListDir_num w in
    '(ret, w) ←
      match find_entry (λ e, same_text dir (d_dir e)) n (m_libPoolList w) with
      | None => Ret (RET_OK, w)
      | Some (i, e) =>
          let e := mkDirList (d_usedNum e - 1) (d_dir e) (d_fd e) (d_list e) in
          let ls := <[i := e]> (m_libPoolList w) in
          if d_usedNum e <=? 0 then
            '(ret, w) ← DevLibPool_DirRevert e (set_dirs w ls n);
            ls ← remove_entry ls n (Z.of_nat i);
            Ret (Z.lor RET_OK ret, set_dirs w ls (one_less n))
          else Ret (RET_OK, set_dirs w ls n)
      end;
    w ← unlock m_mutex_Id w;
    Ret (if negb (ret =? RET_OK) then RET_ERR else ret, w).

(** @src src/mivifwk/odm/plugins/qcom/ldc/device/dev_libPool.cpp:266-290 DevLibPool_LibLoad
    The result and, when it is [RET_OK], the handle and the entry stored. *)
Definition DevLibPool_LibLoad (dir name : text) (w : world) : outcome (Z * option (Z * Z) * world) :=
  if negb (init_f w =? TRUE) then Ret (RET_ERR, None, w)
  else
    let '(fd, d) := dlopen (file_text (dir ++ [47] ++ name)) (linker w) in
    if fd =? NULL then Ret (RET_ERR, None, set_linker w d)
    else
      let entry := dlsym fd LIB_ENTRY_INTERFACE d in
      if entry =? NULL then Ret (RET_ERR, None, set_linker w (dlclose fd d).2)
      else Ret (RET_OK, Some (fd, entry), set_linker w d).

(** @src src/mivifwk/odm/plugins/qcom/ldc/device/dev_libPool.cpp:292-323 DevLibPool_Open
    The result and the entry stored for the caller; the arguments are not null. *)
Definition DevLibPool_Open (dir name : text) (w : world) : outcome (Z * option Z * world) :=
  if negb (init_f w =? TRUE) then Ret (RET_ERR, None, w)
  else
    w ← lock m_mutex_OpneId w;
    let n := m_libPoolListOpen_num w in
    match find_entry (λ e, same_text dir (o_dir e) || same_text name (o_name e)) n (m_libPoolOpenList w) with
    | Some (i, e) =>
        let e := mkOpenList (o_usedNum e + 1) (o_dir e) (o_name e) (o_fd e) (o_entry e) in
        w ← unlock m_mutex_OpneId (set_opens w (<[i := e]> (m_libPoolOpenList w)) n);
        Ret (RET_OK, Some (o_entry e), w)
    | None =>
        e ← arr_get (m_libPoolOpenList w) n;
        '(ret, loaded, w) ← DevLibPool_LibLoad dir name w;
        match loaded with
        | Some (fd, entry) =>
            ls ← arr_set (m_libPoolOpenList w) n
                   (mkOpenList (o_usedNum e + 1) (file_text dir) (file_text name) fd entry);
            w ← unlock m_mutex_OpneId (set_opens w ls (n + 1));
            Ret (ret, Some entry, w)
        | None => w ← unlock m_mutex_OpneId w; Ret (RET_ERR, None, w)
        end
    end.

(** @src src/mivifwk/odm/plugins/qcom/ldc/device/dev_libPool.cpp:325-356 DevLibPool_Close
    The library is found by its directory alone. *)
Definition DevLibPool_Close (dir name : text) (w : world) : outcome (Z * world) :=
  if negb (init_f w =? TRUE) then Ret (RET_ERR, w)
  else
    w ← lock m_mutex_OpneId w;
    let n := m_libPoolListOpen_num w in
    '(ret, w) ←
      match find_entry (λ e, same_text dir (o_dir e)) n (m_libPoolOpenList w) with
      | None => Ret (RET_OK, w)
      | Some (i, e) =>
          let e := mkOpenList (o_usedNum e - 1) (o_dir e) (o_name e) (o_fd e) (o_entry e) in
          let ls := <[i := e]> (m_libPoolOpenList w) in
          if o_usedNum e <=? 0 then
            let '(ret, d) := if o_fd e =? NULL then (RET_OK, linker w)
                             else let '(r, d) := dlclose (o_fd e) (linker w) in
                                  (if negb (r =? RET_OK) then RET_ERR else RET_OK, d) in
            ls ← remove_entry ls n (Z.of_nat i);
            Ret (ret, set_linker (set_opens w ls (one_less n)) d)
          else Ret (RET_OK, set_opens w ls n)
      end;
    w ← unlock m_mutex_OpneId w;
    Ret (if negb (ret =? RET_OK) then RET_ERR else ret, w).

(** @src src/mivifwk/odm/plugins/qcom/ldc/device/dev_libPool.cpp:358-382 DevLibPool_Report
    Without its log lines. *)
Definition DevLibPool_Report (w : world) : Z := if negb (init_f w =? TRUE) then RET_ERR else RET_OK.

(** @src src/mivifwk/odm/plugins/qcom/ldc/device/dev_libPool.cpp:384-398 DevLibPool_Init *)
Definition DevLibPool_Init (mk1 mk2 : mark) (w : world) : outcome (Z * world) :=
  if init_f w =? TRUE then Ret (RET_OK, w)
  else
    '(r1, mc) ← mx_Create m_mutex_Id mk1 (mutexes w, vars w);
    '(r2, (m, c)) ← mx_Create m_mutex_OpneId mk2 mc;
    let ret := Z.lor (Z.lor RET_OK r1) r2 in
    let reset f := mkWorld m c f (replicate 64 zero_dir) 0 (replicate 64 zero_open) 0 (linker w) in
    if negb (ret =? RET_OK) then Ret (RET_ERR, reset (init_f w)) else Ret (ret, reset TRUE).

(** @src src/mivifwk/odm/plugins/qcom/ldc/device/dev_libPool.cpp:400-414 DevLibPool_Deinit
    The libraries that are open stay open. *)
Definition DevLibPool_Deinit (w : world) : outcome (Z * world) :=
  if negb (init_f w =? TRUE) then Ret (RET_OK, w)
  else
    '(r1, mc) ← mx_Destroy m_mutex_Id (mutexes w, vars w);
    '(r2, (m, c)) ← mx_Destroy m_mutex_OpneId mc;
    let ret := Z.lor (Z.lor RET_OK r1) r2 in
    Ret (if negb (ret =? RET_OK) then RET_ERR else ret,
         mkWorld m c FALSE (m_libPoolList w) (m_libPoolListDir_num w) (m_libPoolOpenList w) (m_libPoolListOpen_num w)
           (linker w)).
End LibPool.
