(* ===== verification/DevLibPoolSpec.v ===== *)
(** * What the library pool promises

    Libraries whose directories and names all differ stay loaded while a client
    holds them; what happens when they do not differ; what [OpenDir] finds in a
    place that was used before; which file names [GetFilesFromPath] accepts. *)
From stdpp Require Import functions.
From S2P Require Import Prelude DevTypes DevMutex DevArrays DevStdlib DevLibPool.
#[local] Open Scope Z_scope.

(** The linker counts the references to a handle; closing one that is open works.  A
    handle stands for the file it was opened for ([opened]), and as long as it has
    references neither that nor its symbols change. *)
Class DynLaws (D : Type) `{DynLib D} := {
  refs : D → Z → Z;
  opened : D → Z → text → Prop;
  refs_nonneg d h : 0 ≤ refs d h;
  dlopen_refs f d fd d' : dlopen f d = (fd, d') →
    ∀ h, refs d' h = refs d h + (if (h =? fd) && negb (fd =? NULL) then 1 else 0);
  dlclose_refs h d r d' : dlclose h d = (r, d') → 0 < refs d h →
    r = RET_OK ∧ ∀ h', refs d' h' = refs d h' - (if h' =? h then 1 else 0);
  dlopen_opened f d fd d' : dlopen f d = (fd, d') → fd ≠ NULL → opened d' fd f;
  dlopen_keeps f d fd d' h : dlopen f d = (fd, d') → 0 < refs d h →
    (∀ g, opened d h g → opened d' h g) ∧ ∀ x, dlsym h x d' = dlsym h x d;
  dlclose_keeps h0 d r d' h : dlclose h0 d = (r, d') → 0 < refs d' h →
    (∀ g, opened d h g → opened d' h g) ∧ ∀ x, dlsym h x d' = dlsym h x d;
}.

(** Handle [h] is the same for [d] and [d']. *)
Definition same_handle `{DynLaws D} (d d' : D) (h : Z) : Prop :=
  (∀ g, opened d h g → opened d' h g) ∧ ∀ x, dlsym h x d' = dlsym h x d.

(** ** Texts *)

Definition short (t : text) : Prop := (length t < 256)%nat.

Lemma same_text_short a b : short a → short b → same_text a b = true ↔ a = b.
Proof.
  unfold short. intros Ha Hb. unfold same_text. rewrite bool_decide_eq_true.
  change (Z.to_nat FILE_NAME_LEN_MAX) with 256%nat. by rewrite !firstn_all2 by lia.
Qed.

Lemma file_text_short a : short a → file_text a = a.
Proof. unfold short. intros Ha. apply firstn_all2. change (Z.to_nat (FILE_NAME_LEN_MAX - 1)) with 255%nat. lia. Qed.

(** ** The table of entries *)

Lemma find_entry_Some {A} (p : A → bool) n l i x : find_entry p n l = Some (i, x) →
  Z.of_nat i < n ∧ l !! i = Some x ∧ p x = true.
Proof.
  unfold find_entry. intros (Hi & Hp & _)%list_find_Some. apply lookup_take_Some in Hi as [Hi Hlt].
  split; [lia|done].
Qed.

Lemma find_entry_None {A} (p : A → bool) n l : find_entry p n l = None →
  ∀ i x, Z.of_nat i < n → l !! i = Some x → p x = false.
Proof.
  unfold find_entry. rewrite list_find_None, Forall_forall. intros Hf i x Hi Hx.
  apply not_true_is_false, Hf. apply list_elem_of_lookup. exists i. rewrite lookup_take_lt by lia. done.
Qed.

(** ** Libraries opened one by one *)

Section Open.
Context `{MutexLaws M} `{DynLaws D}.
Context (m_mutex_Id m_mutex_OpneId : Z).
Implicit Types w : world M D.
Implicit Types H : text * text → Z.

Abbreviation Open := (DevLibPool_Open m_mutex_OpneId).
Abbreviation Close := (DevLibPool_Close m_mutex_OpneId).

Definition key (e : DEV_LIBPOOL_OPEN_LIST) : text * text := (o_dir e, o_name e).
(** The file of a library, and what an entry holds of it: a handle of this file and the
    interface that the linker finds in it. *)
Definition path (p : text * text) : text := p.1 ++ [47] ++ p.2.
Definition backed (d : D) (e : DEV_LIBPOOL_OPEN_LIST) : Prop :=
  opened d (o_fd e) (path (key e)) ∧ o_entry e = dlsym (o_fd e) LIB_ENTRY_INTERFACE d ∧ o_entry e ≠ NULL.
(** The entries in use. *)
Definition opens w : list DEV_LIBPOOL_OPEN_LIST := take (Z.to_nat (m_libPoolListOpen_num w)) (m_libPoolOpenList w).
(** How many of them have handle [h]. *)
Definition handles (h : Z) (es : list DEV_LIBPOOL_OPEN_LIST) : Z := Z.of_nat (length (filter (.= h) (o_fd <$> es))).

Definition unlocked w : Prop := ∃ id, vars w !! m_mutex_OpneId = Some id ∧ mx_free (mutexes w) id.

(** The libraries that clients may ask for: their paths are not cut, and different ones
    differ in both directory and name. *)
Context (U : list (text * text)).
Context (U_path : ∀ p, p ∈ U → short (path p)).
Context (U_dir : ∀ p q, p ∈ U → q ∈ U → p.1 = q.1 → p = q).
Context (U_name : ∀ p q, p ∈ U → q ∈ U → p.2 = q.2 → p = q).

Lemma U_short p : p ∈ U → short p.1 ∧ short p.2.
Proof. intros Hp%U_path. unfold short, path in *. rewrite !length_app in Hp. lia. Qed.

(** Clients hold [C p] references to library [p]. *)
Record held w C : Prop := {
  h_init : init_f w = TRUE;
  h_len : length (m_libPoolOpenList w) = 64%nat;
  h_num : 0 ≤ m_libPoolListOpen_num w ≤ 64;
  h_lock : unlocked w;
  h_used : Forall (λ e, 0 ≤ o_usedNum e) (m_libPoolOpenList w);
  h_entry : Forall (λ e, key e ∈ U ∧ 1 ≤ o_usedNum e ∧ o_fd e ≠ NULL ∧ C (key e) ≤ o_usedNum e) (opens w);
  h_once : NoDup (key <$> opens w);
  h_held p : 0 ≤ C p ∧ (0 < C p → p ∈ key <$> opens w);
  h_refs h : h ≠ NULL → handles h (opens w) ≤ refs (linker w) h;
  h_file : Forall (backed (linker w)) (opens w);
}.

(** Around the body of a call. *)
Lemma libs_lock w : unlocked w → ∃ m, lock m_mutex_OpneId w = Ret (set_mutexes w m) ∧
  ∃ id, vars w !! m_mutex_OpneId = Some id ∧ mx_held m id.
Proof.
  intros (id & Eid & Hfree). destruct (mx_lock_free _ _ Hfree) as (m & E & Hheld & _). exists m.
  unfold lock. rewrite (load_Some _ _ id) by done. cbn [mbind outcome_bind]. rewrite E. eauto.
Qed.

Lemma libs_unlock w id : vars w !! m_mutex_OpneId = Some id → mx_held (mutexes w) id →
  ∃ m, unlock m_mutex_OpneId w = Ret (set_mutexes w m) ∧ unlocked (set_mutexes w m).
Proof.
  intros Eid Hheld. destruct (mx_unlock_held _ _ Hheld) as (m & E & Hfree & _). exists m.
  unfold unlock. rewrite (load_Some _ _ id) by done. cbn [mbind outcome_bind]. rewrite E. split; [done|]. by exists id.
Qed.

Lemma length_opens w C : held w C → length (opens w) = Z.to_nat (m_libPoolListOpen_num w).
Proof. intros Hh. unfold opens. rewrite length_take, (h_len _ _ Hh). pose proof (h_num _ _ Hh). lia. Qed.

Lemma opens_lookup w i e : Z.of_nat i < m_libPoolListOpen_num w → m_libPoolOpenList w !! i = Some e → opens w !! i = Some e.
Proof. intros Hi He. unfold opens. by rewrite lookup_take_lt by lia. Qed.

(** The entry of a library, by its directory, its name or both. *)
Lemma same_key w C e p : held w C → e ∈ opens w → p ∈ U →
  (same_text p.1 (o_dir e) = true ∨ same_text p.2 (o_name e) = true ↔ key e = p).
Proof.
  intros Hh He Hp. pose proof (h_entry _ _ Hh) as Hent. rewrite Forall_forall in Hent. destruct (Hent e He) as (Hk & _).
  destruct (U_short p Hp), (U_short (key e) Hk). rewrite !same_text_short by done. split.
  - intros [E|E]; symmetry; [by apply U_dir|by apply U_name].
  - intros <-. by left.
Qed.

(** *** Changes of the table *)

Lemma handles_same h (es : list DEV_LIBPOOL_OPEN_LIST) (i : nat) e e' : es !! i = Some e → o_fd e' = o_fd e → handles h (<[i := e']> es) = handles h es.
Proof.
  intros Hi Ef. unfold handles. rewrite list_fmap_insert, Ef, list_insert_id; [done|]. by rewrite list_lookup_fmap, Hi.
Qed.

Lemma keys_same (es : list DEV_LIBPOOL_OPEN_LIST) (i : nat) e e' : es !! i = Some e → key e' = key e → key <$> <[i := e']> es = key <$> es.
Proof. intros Hi Ek. rewrite list_fmap_insert, Ek, list_insert_id; [done|]. by rewrite list_lookup_fmap, Hi. Qed.

Lemma nodup_key_lookup (es : list DEV_LIBPOOL_OPEN_LIST) (i j : nat) e e' : NoDup (key <$> es) → es !! i = Some e → es !! j = Some e' → key e = key e' → i = j.
Proof.
  intros Hn Hi Hj E. apply (NoDup_lookup _ _ _ (key e) Hn); rewrite list_lookup_fmap; [by rewrite Hi|by rewrite Hj, E].
Qed.

Lemma handles_app h es es' : handles h (es ++ es') = handles h es + handles h es'.
Proof. unfold handles. rewrite fmap_app, filter_app, length_app. lia. Qed.

Lemma handles_one h e : handles h [e] = if o_fd e =? h then 1 else 0.
Proof.
  unfold handles. cbn [fmap list_fmap]. destruct (Z.eqb_spec (o_fd e) h) as [E|E].
  - by rewrite filter_cons_True.
  - by rewrite filter_cons_False.
Qed.

Lemma handles_elem e es : e ∈ es → 0 < handles (o_fd e) es.
Proof.
  intros [k Hk]%list_elem_of_lookup. rewrite <-(take_drop_middle _ _ _ Hk), handles_app.
  change (e :: drop (S k) es) with ([e] ++ drop (S k) es). rewrite handles_app, handles_one, Z.eqb_refl. unfold handles. lia.
Qed.

(** The handle of an entry is referenced. *)
Lemma held_handle w C e : held w C → e ∈ opens w → o_fd e ≠ NULL ∧ 0 < refs (linker w) (o_fd e).
Proof.
  intros Hh He. pose proof (h_entry _ _ Hh) as Hent. rewrite Forall_forall in Hent. destruct (Hent e He) as (_ & _ & Hfd & _).
  split; [done|]. pose proof (h_refs _ _ Hh (o_fd e) Hfd) as Hr. pose proof (handles_elem e _ He). lia.
Qed.

Lemma backed_same d d' e : same_handle d d' (o_fd e) → backed d e → backed d' e.
Proof. intros [Ho Hs] (? & ? & ?). split_and!; [by apply Ho|by rewrite Hs|done]. Qed.

Lemma held_backed w C d es : held w C → es ⊆ opens w → (∀ e, e ∈ es → same_handle (linker w) d (o_fd e)) → Forall (backed d) es.
Proof.
  intros Hh Hes Hs. apply Forall_forall. intros e He. pose proof (h_file _ _ Hh) as Hf. rewrite Forall_forall in Hf.
  eapply backed_same; [by apply Hs|]. by apply Hf, Hes.
Qed.

(** Another count of uses for the entry of [p]. *)
Lemma held_recount w C i e p u m : held w C → Z.of_nat i < m_libPoolListOpen_num w →
  m_libPoolOpenList w !! i = Some e → key e = p → 1 ≤ u → 0 ≤ C p + (u - o_usedNum e) →
  let e' := mkOpenList u (o_dir e) (o_name e) (o_fd e) (o_entry e) in
  let w' := set_mutexes (set_opens w (<[i := e']> (m_libPoolOpenList w)) (m_libPoolListOpen_num w)) m in
  unlocked w' → held w' (<[p := C p + (u - o_usedNum e)]> C).
Proof.
  intros Hh Hi He Hk Hu Hpos e' w' Hlock. pose proof (opens_lookup _ _ _ Hi He) as Hoi.
  assert (opens w' = <[i := e']> (opens w)) as Eo by (unfold opens; cbn; by rewrite take_insert_lt by lia).
  pose proof Hh as [Hinit Hlen Hnum _ Hused Hent Honce Hheld Hrefs Hfile]. split; try done.
  - cbn. by rewrite length_insert.
  - cbn. apply Forall_insert; [done|cbn; lia].
  - rewrite Eo. apply Forall_lookup. intros j e0 Hj. rewrite Forall_lookup in Hent.
    apply list_lookup_insert_Some in Hj as [(<- & <- & _)|(Hne & Hj)].
    + destruct (Hent _ _ Hoi) as (? & ? & ? & ?). split_and!; try done. cbn [o_usedNum e'].
      change (key e') with (key e). rewrite Hk, fn_lookup_insert. rewrite Hk in *. lia.
    + destruct (Hent _ _ Hj) as (? & ? & ? & ?). split_and!; try done.
      rewrite fn_lookup_insert_ne; [done|]. intros E. apply Hne. apply (nodup_key_lookup _ _ _ _ _ Honce Hoi Hj). congruence.
  - rewrite Eo, (keys_same _ _ e) by done. done.
  - intros q. rewrite Eo, (keys_same _ _ e) by done. destruct (decide (q = p)) as [->|Hne].
    + rewrite fn_lookup_insert. split; [done|]. intros _. rewrite <-Hk. apply list_elem_of_fmap. exists e.
      split; [done|by eapply list_elem_of_lookup_2].
    + rewrite fn_lookup_insert_ne by done. apply Hheld.
  - intros h Hhn. rewrite Eo, (handles_same _ _ _ e) by done. by apply Hrefs.
  - rewrite Eo. apply Forall_insert; [done|]. change (backed (linker w) e'). rewrite Forall_lookup in Hfile. exact (Hfile _ _ Hoi).
Qed.

(** Another state of the linker, with no fewer references. *)
Lemma held_linker w C d m : held w C → (∀ h, h ≠ NULL → refs (linker w) h ≤ refs d h) →
  (∀ h, 0 < refs (linker w) h → same_handle (linker w) d h) →
  unlocked (set_mutexes (set_linker w d) m) → held (set_mutexes (set_linker w d) m) C.
Proof.
  intros Hh Hd Hs Hu. pose proof Hh as [? ? ? _ ? ? ? ? Hr _]. split; try done.
  - intros h Hhn. change (handles h (opens w) ≤ refs d h). specialize (Hr h Hhn). specialize (Hd h Hhn). lia.
  - apply (held_backed w C d (opens w) Hh); [done|]. intros e He. by apply Hs, (held_handle w C e Hh).
Qed.

(** A library loaded into the first unused place. *)
Lemma held_new w C e p ls d m : held w C → p ∈ U → p ∉ key <$> opens w → m_libPoolListOpen_num w < 64 →
  key e = p → 1 ≤ o_usedNum e → o_fd e ≠ NULL →
  (∀ h, refs d h = refs (linker w) h + (if (h =? o_fd e) && negb (o_fd e =? NULL) then 1 else 0)) →
  (∀ h, 0 < refs (linker w) h → same_handle (linker w) d h) → backed d e →
  ls = <[Z.to_nat (m_libPoolListOpen_num w) := e]> (m_libPoolOpenList w) →
  let w' := set_mutexes (set_opens (set_linker w d) ls (m_libPoolListOpen_num w + 1)) m in
  unlocked w' → held w' (<[p := C p + 1]> C) ∧ opens w' = opens w ++ [e].
Proof.
  intros Hh Hp Hnew Hroom Hk Hu Hfd Hd Hsame Hb -> w' Hlock. pose proof Hh as [Hinit Hlen Hnum _ Hused Hent Honce Hheld Hrefs Hfile].
  assert (C p = 0) as Hz by (destruct (Hheld p) as [? Hin]; destruct (decide (0 < C p)); [by destruct Hnew; apply Hin|lia]).
  assert (opens w' = opens w ++ [e]) as Eo.
  { unfold opens, w'. cbn. replace (Z.to_nat (m_libPoolListOpen_num w + 1)) with (S (Z.to_nat (m_libPoolListOpen_num w))) by lia.
    rewrite (take_S_r _ _ e) by (apply list_lookup_insert_eq; lia). by rewrite take_insert_ge by lia. }
  split; [|done]. split; try done; rewrite ?Eo.
  - cbn. by rewrite length_insert.
  - cbn. lia.
  - cbn. apply Forall_insert; [done|lia].
  - apply Forall_app. split.
    + rewrite Forall_forall in *. intros e0 He0. destruct (Hent e0 He0) as (? & ? & ? & ?). split_and!; try done.
      rewrite fn_lookup_insert_ne; [done|]. intros ->. apply Hnew. by apply list_elem_of_fmap_2.
    + apply Forall_singleton. rewrite Hk, fn_lookup_insert. split_and!; (done || lia).
  - rewrite fmap_app. apply NoDup_app. split; [done|]. split; [|apply NoDup_singleton].
    cbn. rewrite Hk. by intros q Hq ->%list_elem_of_singleton.
  - intros q. rewrite fmap_app, elem_of_app. cbn [fmap list_fmap]. rewrite Hk, list_elem_of_singleton.
    destruct (decide (q = p)) as [->|Hne]; [rewrite fn_lookup_insert; split; [lia|by right]|].
    rewrite fn_lookup_insert_ne by done. split; [apply Hheld|]. intros ?. left. by apply Hheld.
  - intros h Hhn. rewrite handles_app, handles_one. cbn. rewrite Hd. specialize (Hrefs h Hhn).
    destruct (Z.eqb_spec (o_fd e) h), (Z.eqb_spec h (o_fd e)), (Z.eqb_spec (o_fd e) NULL); cbn; (done || lia).
  - apply Forall_app. split; [|by apply Forall_singleton]. apply (held_backed w C d (opens w) Hh); [done|].
    intros e0 He0. by apply Hsame, (held_handle w C e0 Hh).
Qed.

(** A load opens the file of that directory and name, and its interface is what is stored;
    other handles stay as they are. *)
Lemma LibLoad_spec dir name w : init_f w = TRUE → short (path (dir, name)) →
  ∃ ret o d, DevLibPool_LibLoad dir name w = Ret (ret, o, set_linker w d) ∧
    (∀ h, 0 < refs (linker w) h → same_handle (linker w) d h) ∧
    match o with
    | None => ret = RET_ERR ∧ ∀ h, refs d h = refs (linker w) h
    | Some (fd, entry) => ret = RET_OK ∧ fd ≠ NULL ∧
        (∀ h, refs d h = refs (linker w) h + (if (h =? fd) && negb (fd =? NULL) then 1 else 0)) ∧
        opened d fd (path (dir, name)) ∧ entry = dlsym fd LIB_ENTRY_INTERFACE d ∧ entry ≠ NULL
    end.
Proof.
  intros Hi Hpath. unfold DevLibPool_LibLoad. rewrite Hi. cbn [negb Z.eqb TRUE].
  change (dir ++ [47] ++ name) with (path (dir, name)). rewrite file_text_short by done.
  destruct (dlopen _ (linker w)) as [fd d] eqn:Ed. pose proof (dlopen_refs _ _ _ _ Ed) as Hd.
  assert (∀ h, 0 < refs (linker w) h → same_handle (linker w) d h) as Hsame by (intros h; by apply (dlopen_keeps _ _ _ _ h Ed)).
  destruct (Z.eqb_spec fd NULL) as [->|Hfd].
  { exists RET_ERR, None, d. split_and!; try done. intros h. rewrite Hd. destruct (h =? NULL); cbn; lia. }
  destruct (Z.eqb_spec (dlsym fd LIB_ENTRY_INTERFACE d) NULL) as [Hsym|Hsym].
  - destruct (dlclose fd d) as [r d'] eqn:Ec.
    assert (∀ h, refs d' h = refs (linker w) h) as Hback.
    { pose proof (refs_nonneg (linker w) fd) as Hpos.
      pose proof (Hd fd) as Hdf. rewrite Z.eqb_refl in Hdf. cbn [andb negb] in Hdf.
      destruct (dlclose_refs _ _ _ _ Ec) as [_ Hd']; [lia|]. intros h. rewrite Hd', Hd.
      destruct (h =? fd); cbn; lia. }
    exists RET_ERR, None, d'. split; [done|]. split; [|done]. intros h Hh. destruct (Hsame h Hh) as [Ho Hs].
    destruct (dlclose_keeps _ _ _ _ h Ec) as [Ho' Hs']; [by rewrite Hback|].
    split; [intros g Hg; by apply Ho', Ho|intros x; by rewrite Hs', Hs].
  - eexists _, (Some (fd, _)), d. split; [reflexivity|]. split; [done|]. split; [done|]. split; [done|].
    split; [|split_and!; [by apply (dlopen_opened _ _ _ _ Ed)|done|done]]. intros h. rewrite Hd.
    by rewrite (proj2 (Z.eqb_neq _ _) Hfd).
Qed.

Lemma find_library w C p : held w C → p ∈ U →
  match find_entry (λ e, same_text p.1 (o_dir e) || same_text p.2 (o_name e)) (m_libPoolListOpen_num w) (m_libPoolOpenList w) with
  | Some (i, e) => Z.of_nat i < m_libPoolListOpen_num w ∧ m_libPoolOpenList w !! i = Some e ∧ key e = p
  | None => p ∉ key <$> opens w
  end.
Proof.
  intros Hh Hp. destruct (find_entry _ _ _) as [[i e]|] eqn:Ef.
  - apply find_entry_Some in Ef as (Hi & He & Hs%orb_prop). split_and!; [done..|].
    by apply (same_key w C e p Hh (list_elem_of_lookup_2 _ _ _ (opens_lookup _ _ _ Hi He)) Hp).
  - intros (e & Ek & He)%list_elem_of_fmap. pose proof He as [i Hi]%list_elem_of_lookup.
    unfold opens in Hi. apply lookup_take_Some in Hi as [Hi Hlt].
    pose proof (find_entry_None _ _ _ Ef i e ltac:(lia) Hi) as Hf. apply orb_false_elim in Hf as [Hf1 Hf2].
    symmetry in Ek. apply (same_key w C e p Hh He Hp) in Ek. destruct Ek; congruence.
Qed.

(** [Open] returns, and what it returns is the entry of the library asked for. *)
Lemma Open_held w C p : held w C → p ∈ U → p ∈ key <$> opens w ∨ m_libPoolListOpen_num w < 64 →
  ∃ ret oe w', Open p.1 p.2 w = Ret (ret, oe, w') ∧
    ((ret = RET_ERR ∧ oe = None ∧ held w' C) ∨
     (ret = RET_OK ∧ held w' (<[p := C p + 1]> C) ∧ ∃ e, e ∈ opens w' ∧ key e = p ∧ oe = Some (o_entry e))).
Proof.
  intros Hh Hp Hroom. unfold DevLibPool_Open. rewrite (h_init _ _ Hh). cbn [negb Z.eqb TRUE].
  destruct (libs_lock w (h_lock _ _ Hh)) as (m & -> & id & Eid & Hm). cbn [mbind outcome_bind].
  pose proof (h_num _ _ Hh) as Hnum. pose proof (find_library w C p Hh Hp) as Hfind.
  set (w1 := set_mutexes w m). change (m_libPoolListOpen_num w1) with (m_libPoolListOpen_num w).
  change (m_libPoolOpenList w1) with (m_libPoolOpenList w).
  destruct (find_entry _ _ _) as [[i e]|].
  - destruct Hfind as (Hi & He & Ek). set (e' := mkOpenList (o_usedNum e + 1) (o_dir e) (o_name e) (o_fd e) (o_entry e)).
    destruct (libs_unlock (set_opens w1 (<[i := e']> (m_libPoolOpenList w)) (m_libPoolListOpen_num w)) id)
      as (m' & -> & Hu'); [done|done|]. cbn [mbind outcome_bind].
    eexists _, _, _. split; [reflexivity|]. right. split; [done|].
    pose proof (h_entry _ _ Hh) as Hent. rewrite Forall_lookup in Hent.
    destruct (Hent _ _ (opens_lookup _ _ _ Hi He)) as (_ & ? & _ & ?). split.
    + replace (C p + 1) with (C p + (o_usedNum e + 1 - o_usedNum e)) by lia.
      apply (held_recount w C i e p (o_usedNum e + 1) m'); try done; [lia|]. pose proof (h_held _ _ Hh p). lia.
    + exists e'. split; [|done]. apply list_elem_of_lookup. exists i. unfold opens. cbn.
      rewrite lookup_take_lt by lia. apply list_lookup_insert_eq. by eapply lookup_lt_Some.
  - assert (m_libPoolListOpen_num w < 64) as Hlt by (by destruct Hroom).
    destruct (arr_get_inside (m_libPoolOpenList w) (m_libPoolListOpen_num w)) as (e & -> & He);
      [rewrite (h_len _ _ Hh); lia|]. cbn [mbind outcome_bind].
    destruct (LibLoad_spec p.1 p.2 w1) as (ret & o & d & -> & Hsame & Ho);
      [apply (h_init _ _ Hh)|by destruct p; apply U_path|]. cbn [mbind outcome_bind].
    destruct o as [[fd entry]|].
    + destruct Ho as (-> & Hfd & Hd & Hfile). change (m_libPoolOpenList (set_linker w1 d)) with (m_libPoolOpenList w).
      rewrite arr_set_inside by (rewrite (h_len _ _ Hh); lia). cbn [mbind outcome_bind].
      destruct (U_short p Hp) as [Hs1 Hs2]. rewrite !file_text_short by done.
      set (e' := mkOpenList (o_usedNum e + 1) p.1 p.2 fd entry).
      set (ls := <[Z.to_nat (m_libPoolListOpen_num w) := e']> (m_libPoolOpenList w)).
      destruct (libs_unlock (set_opens (set_linker w1 d) ls (m_libPoolListOpen_num w + 1)) id) as (m' & -> & Hu'); [done|done|].
      cbn [mbind outcome_bind]. eexists _, _, _. split; [reflexivity|]. right. split; [done|].
      pose proof (h_used _ _ Hh) as Hused. rewrite Forall_lookup in Hused. specialize (Hused _ _ He).
      destruct (held_new w C e' p ls d m' Hh Hp Hfind Hlt) as [Hh' Eo]; try done; [by destruct p|cbn; lia|].
      split; [exact Hh'|]. exists e'. split; [|by destruct p].
      change (e' ∈ opens (set_mutexes (set_opens (set_linker w d) ls (m_libPoolListOpen_num w + 1)) m')).
      rewrite Eo. apply elem_of_app. right. by apply list_elem_of_singleton.
    + destruct Ho as [-> Hd]. destruct (libs_unlock (set_linker w1 d) id) as (m' & -> & Hu'); [done|done|].
      cbn [mbind outcome_bind]. eexists _, _, _. split; [reflexivity|]. left. split_and!; try done.
      apply (held_linker w C d m'); [done| |done|done]. intros h _. rewrite Hd. cbn. lia.
Qed.

Lemma find_directory w C p : held w C → p ∈ U → p ∈ key <$> opens w →
  ∃ i e, find_entry (λ e, same_text p.1 (o_dir e)) (m_libPoolListOpen_num w) (m_libPoolOpenList w) = Some (i, e) ∧
    Z.of_nat i < m_libPoolListOpen_num w ∧ m_libPoolOpenList w !! i = Some e ∧ key e = p.
Proof.
  intros Hh Hp (e0 & Ek & He0)%list_elem_of_fmap. destruct (find_entry _ _ _) as [[i e]|] eqn:Ef.
  - exists i, e. split; [done|]. apply find_entry_Some in Ef as (Hi & He & Hs). split_and!; [done..|].
    apply (same_key w C e p Hh (list_elem_of_lookup_2 _ _ _ (opens_lookup _ _ _ Hi He)) Hp). by left.
  - exfalso. pose proof He0 as [i Hi]%list_elem_of_lookup. unfold opens in Hi. apply lookup_take_Some in Hi as [Hi Hlt].
    pose proof (find_entry_None _ _ _ Ef i e0 ltac:(lia) Hi) as Hf. cbn beta in Hf.
    assert (o_dir e0 = p.1) as Eo by (by rewrite Ek). rewrite Eo in Hf. unfold same_text in Hf.
    by rewrite bool_decide_eq_true_2 in Hf.
Qed.

(** The entry of the last reference to a library taken out. *)
Lemma held_removed w C i e p ls d m : held w C → Z.of_nat i < m_libPoolListOpen_num w → m_libPoolOpenList w !! i = Some e →
  key e = p → C p = 1 → Forall (λ e, 0 ≤ o_usedNum e) ls → length ls = 64%nat →
  take (Z.to_nat (m_libPoolListOpen_num w - 1)) ls = take i (opens w) ++ drop (S i) (opens w) →
  (∀ h, refs d h = refs (linker w) h - (if h =? o_fd e then 1 else 0)) →
  (∀ h, 0 < refs d h → same_handle (linker w) d h) →
  let w' := set_mutexes (set_linker (set_opens w ls (m_libPoolListOpen_num w - 1)) d) m in
  unlocked w' → held w' (<[p := 0]> C).
Proof.
  intros Hh Hi He Hk Hc Hused' Hlen' Els Hd Hsame w' Hlock. pose proof (opens_lookup _ _ _ Hi He) as Hoi.
  pose proof Hh as [Hinit Hlen Hnum _ Hused Hent Honce Hheld Hrefs Hfile].
  assert (opens w' = take i (opens w) ++ drop (S i) (opens w)) as Eo by done.
  assert (opens w = take i (opens w) ++ e :: drop (S i) (opens w)) as Eow by (by rewrite take_drop_middle).
  rewrite Eow, fmap_app, fmap_cons, Hk in Honce. apply NoDup_app in Honce as (Hn1 & Hd12 & [Hpn Hn2]%NoDup_cons).
  assert (p ∉ key <$> take i (opens w)) as Hpn1 by (intros Hin; by destruct (Hd12 p Hin); left).
  rewrite Eow in Hent. apply Forall_app in Hent as [Hent1 [_ Hent2]%Forall_cons].
  split; try done; rewrite ?Eo.
  - cbn. lia.
  - apply Forall_app. split; rewrite Forall_forall in *; intros e0 He0.
    + destruct (Hent1 e0 He0) as (? & ? & ? & ?). split_and!; try done. rewrite fn_lookup_insert_ne; [done|].
      intros ->. apply Hpn1. by apply list_elem_of_fmap_2.
    + destruct (Hent2 e0 He0) as (? & ? & ? & ?). split_and!; try done. rewrite fn_lookup_insert_ne; [done|].
      intros ->. apply Hpn. by apply list_elem_of_fmap_2.
  - rewrite fmap_app. apply NoDup_app. split_and!; [done| |done].
    intros q Hq Hq'. by destruct (Hd12 q Hq); right.
  - intros q. destruct (decide (q = p)) as [->|Hne]; [rewrite fn_lookup_insert; lia|].
    rewrite fn_lookup_insert_ne by done. destruct (Hheld q) as [? Hin]. split; [done|]. intros Hq. specialize (Hin Hq).
    rewrite Eow, fmap_app, fmap_cons, Hk, elem_of_app, elem_of_cons in Hin. rewrite fmap_app, elem_of_app.
    destruct Hin as [?|[?|?]]; [by left|done|by right].
  - intros h Hhn. specialize (Hrefs h Hhn). rewrite Eow, (handles_app h (take i (opens w))) in Hrefs.
    change (e :: drop (S i) (opens w)) with ([e] ++ drop (S i) (opens w)) in Hrefs.
    rewrite handles_app, handles_one in Hrefs. rewrite handles_app. change (linker w') with d. rewrite Hd.
    destruct (Z.eqb_spec (o_fd e) h), (Z.eqb_spec h (o_fd e)); (congruence || lia).
  - apply (held_backed w C d _ Hh); [rewrite Eow at 3; set_solver|]. intros e0 He0. apply Hsame.
    assert (o_fd e0 ≠ NULL) as Hn by (apply (held_handle w C e0 Hh); rewrite Eow; set_solver).
    specialize (Hrefs _ Hn). rewrite Eow, (handles_app _ (take i (opens w))) in Hrefs.
    change (e :: drop (S i) (opens w)) with ([e] ++ drop (S i) (opens w)) in Hrefs.
    rewrite handles_app, handles_one in Hrefs. pose proof (handles_elem _ _ He0) as Hpos. rewrite handles_app in Hpos.
    rewrite Hd. destruct (Z.eqb_spec (o_fd e) (o_fd e0)), (Z.eqb_spec (o_fd e0) (o_fd e)); (congruence || lia).
Qed.

(** [Close] of a library that is held returns [RET_OK]. *)
Lemma Close_held w C p : held w C → p ∈ U → 0 < C p →
  ∃ w', Close p.1 p.2 w = Ret (RET_OK, w') ∧ held w' (<[p := C p - 1]> C).
Proof.
  intros Hh Hp Hc. unfold DevLibPool_Close. rewrite (h_init _ _ Hh). cbn [negb Z.eqb TRUE].
  destruct (libs_lock w (h_lock _ _ Hh)) as (m & -> & id & Eid & Hm). cbn [mbind outcome_bind].
  pose proof (h_num _ _ Hh) as Hnum.
  destruct (find_directory w C p Hh Hp (proj2 (h_held _ _ Hh p) Hc)) as (i & e & Ef & Hi & He & Ek).
  set (w1 := set_mutexes w m). change (m_libPoolListOpen_num w1) with (m_libPoolListOpen_num w).
  change (m_libPoolOpenList w1) with (m_libPoolOpenList w). rewrite Ef. cbn [o_usedNum o_fd].
  pose proof (opens_lookup _ _ _ Hi He) as Hoi. pose proof (h_entry _ _ Hh) as Hent. rewrite Forall_lookup in Hent.
  destruct (Hent _ _ Hoi) as (_ & Hu1 & Hfd & Hcu). rewrite Ek in Hcu.
  set (e' := mkOpenList (o_usedNum e - 1) (o_dir e) (o_name e) (o_fd e) (o_entry e)).
  destruct (Z.leb_spec (o_usedNum e - 1) 0) as [Hlast|Hmore].
  - rewrite (proj2 (Z.eqb_neq _ _) Hfd). destruct (dlclose (o_fd e) (linker w1)) as [r d] eqn:Ed.
    destruct (held_handle w C e Hh (list_elem_of_lookup_2 _ _ _ Hoi)) as [_ Hpos].
    destruct (dlclose_refs _ _ _ _ Ed Hpos) as [-> Hd]. cbn [negb Z.eqb RET_OK].
    set (ls := <[i := e']> (m_libPoolOpenList w)).
    destruct (remove_entry_spec ls (m_libPoolListOpen_num w) (Z.of_nat i)) as (ls' & Erm & Hlen & Els);
      [lia|unfold ls; rewrite length_insert, (h_len _ _ Hh); lia|]. rewrite Erm. cbn [mbind outcome_bind].
    assert (one_less (m_libPoolListOpen_num w) = m_libPoolListOpen_num w - 1) as ->
      by (unfold one_less; destruct (Z.leb_spec (m_libPoolListOpen_num w - 1) 0); lia).
    destruct (libs_unlock (set_linker (set_opens w1 ls' (m_libPoolListOpen_num w - 1)) d) id) as (m' & -> & Hu'); [done|done|].
    cbn [mbind outcome_bind]. eexists. split; [reflexivity|]. replace (C p - 1) with 0 by lia.
    apply (held_removed w C i e p ls' d m'); try done; [lia| | | |].
    + apply Forall_forall. intros x Hx. apply (remove_entry_elem _ _ _ _ _ Erm) in Hx.
      pose proof (h_used _ _ Hh) as Hused. apply list_elem_of_lookup in Hx as [k Hk].
      apply list_lookup_insert_Some in Hk as [(_ & <- & _)|(_ & Hk)]; [cbn; lia|]. by rewrite Forall_lookup in Hused; apply (Hused k).
    + rewrite Hlen. unfold ls. by rewrite length_insert, (h_len _ _ Hh).
    + rewrite Els. unfold ls, opens. rewrite Nat2Z.id, take_insert_ge, take_insert_lt by lia.
      rewrite drop_insert_lt by lia. rewrite take_take. do 2 f_equal. lia.
    + intros h. by apply (dlclose_keeps _ _ _ _ h Ed).
  - destruct (libs_unlock (set_opens w1 (<[i := e']> (m_libPoolOpenList w)) (m_libPoolListOpen_num w)) id)
      as (m' & E & Hu'); [done|done|]. cbn [mbind outcome_bind]. rewrite E. cbn [mbind outcome_bind].
    eexists. split; [reflexivity|]. replace (C p - 1) with (C p + (o_usedNum e - 1 - o_usedNum e)) by lia.
    apply (held_recount w C i e p (o_usedNum e - 1) m'); (done || lia).
Qed.

(** A library that is not loaded does not fit a full table. *)
Lemma Open_full w C p : held w C → p ∈ U → p ∉ key <$> opens w → 64 ≤ m_libPoolListOpen_num w → Open p.1 p.2 w = UB.
Proof.
  intros Hh Hp Hnew Hfull. unfold DevLibPool_Open. rewrite (h_init _ _ Hh). cbn [negb Z.eqb TRUE].
  destruct (libs_lock w (h_lock _ _ Hh)) as (m & -> & id & Eid & Hm). cbn [mbind outcome_bind].
  pose proof (find_library w C p Hh Hp) as Hfind.
  change (m_libPoolListOpen_num (set_mutexes w m)) with (m_libPoolListOpen_num w).
  change (m_libPoolOpenList (set_mutexes w m)) with (m_libPoolOpenList w).
  destruct (find_entry _ _ _) as [[i e]|].
  - destruct Hfind as (Hi & He & Ek). destruct Hnew. apply list_elem_of_fmap. exists e.
    split; [done|]. eapply list_elem_of_lookup_2, opens_lookup; done.
  - unfold arr_get. destruct (Z.ltb_spec (m_libPoolListOpen_num w) 0); [lia|].
    rewrite lookup_ge_None_2; [done|]. rewrite (h_len _ _ Hh). lia.
Qed.

(** *** Clients *)

(** Clients ask for libraries of [U] and give back what they hold. *)
Inductive lib_step : world M D * (text * text → Z) → world M D * (text * text → Z) → Prop :=
  | step_open w C p e w' : p ∈ U → Open p.1 p.2 w = Ret (RET_OK, Some e, w') → lib_step (w, C) (w', <[p := C p + 1]> C)
  | step_refused w C p w' : p ∈ U → Open p.1 p.2 w = Ret (RET_ERR, None, w') → lib_step (w, C) (w', C)
  | step_close w C p r w' : p ∈ U → 0 < C p → Close p.1 p.2 w = Ret (r, w') → lib_step (w, C) (w', <[p := C p - 1]> C).

Lemma step_held s s' : held s.1 s.2 → lib_step s s' → held s'.1 s'.2.
Proof.
  intros Hh Hstep. destruct Hstep as [w C p e w' Hp E|w C p w' Hp E|w C p r w' Hp Hc E]; cbn [fst snd] in *.
  3: { destruct (Close_held w C p Hh Hp Hc) as (w2 & E2 & Hh2). rewrite E in E2. injection E2 as -> ->. done. }
  all: destruct (decide (p ∈ key <$> opens w ∨ m_libPoolListOpen_num w < 64)) as [Hroom|Hfull].
  2,4: rewrite (Open_full w C p Hh Hp) in E; [done|by intros ?; apply Hfull; left|].
  2,3: destruct (Z.lt_ge_cases (m_libPoolListOpen_num w) 64); [by destruct Hfull; right|lia].
  all: destruct (Open_held w C p Hh Hp Hroom) as (ret & oe & w2 & E2 & Hres); rewrite E in E2; injection E2 as <- <- <-;
    destruct Hres as [(? & ? & ?)|(? & ? & _)]; done.
Qed.


(** After [Init] nobody holds anything. *)
Lemma init_held w : init_f w = TRUE → m_libPoolOpenList w = replicate 64 zero_open → m_libPoolListOpen_num w = 0 →
  unlocked w → held w (λ _, 0).
Proof.
  intros Hi Hl Hn Hu. assert (opens w = []) as Eo by (unfold opens; by rewrite Hn).
  split; rewrite ?Eo, ?Hl, ?Hn; try done.
  - apply Forall_replicate. done.
  - apply NoDup_nil_2.
  - intros h _. unfold handles. cbn. apply refs_nonneg.
Qed.
End Open.

(** ** A linker that counts, for the concrete cases

    The handle of a file is the length of its name, its entry is at the handle plus
    100; the state is the handles that are open, with repetition. *)
Fixpoint drop_handle (h : Z) (d : list Z) : Z * list Z :=
  match d with
  | [] => (RET_ERR, [])
  | h' :: d' => if h' =? h then (RET_OK, d') else let '(r, d') := drop_handle h d' in (r, h' :: d')
  end.
#[export] Instance counting_linker : DynLib (list Z) := {
  dlopen f d := (Z.of_nat (length f), if Z.of_nat (length f) =? NULL then d else Z.of_nat (length f) :: d);
  dlsym h _ _ := h + 100;
  dlclose := drop_handle;
}.
Fixpoint times (d : list Z) (h : Z) : Z :=
  match d with [] => 0 | h' :: d' => (if h' =? h then 1 else 0) + times d' h end.

Lemma times_nonneg d h : 0 ≤ times d h.
Proof. induction d as [|h' d IH]; cbn; [lia|]. destruct (h' =? h); lia. Qed.

Lemma drop_handle_spec h d r d' : drop_handle h d = (r, d') → 0 < times d h →
  r = RET_OK ∧ ∀ h', times d' h' = times d h' - (if h' =? h then 1 else 0).
Proof.
  revert r d'. induction d as [|h0 d IH]; cbn [drop_handle times]; intros r d' E Hpos; [lia|].
  destruct (Z.eqb_spec h0 h) as [->|Hne].
  - injection E as <- <-. split; [done|]. intros h'. rewrite (Z.eqb_sym h h'). destruct (h' =? h); lia.
  - destruct (drop_handle h d) as [r1 d1]. injection E as <- <-. destruct (IH _ _ eq_refl) as [-> Hd]; [lia|].
    split; [done|]. intros h'. cbn [times]. rewrite Hd. lia.
Qed.

#[export] Instance counting_laws : DynLaws (list Z).
Proof.
  refine {| refs := times; opened d h f := h = Z.of_nat (length f) |}.
  - apply times_nonneg.
  - intros f d fd d' E h. injection E as <- <-. destruct (Z.eqb_spec (Z.of_nat (length f)) NULL) as [->|Hne]; cbn [negb times].
    + rewrite andb_false_r. lia.
    + rewrite andb_true_r, (Z.eqb_sym h). lia.
  - apply drop_handle_spec.
  - by intros f d fd d' [= <- <-] _.
  - by intros.
  - by intros.
Defined.

(** The module after [Init], and the library ["a/b"]. *)
Definition pool0 : world mutex_state (list Z) :=
  mkWorld one_lock_table {[77 := 1]} TRUE (replicate 64 zero_dir) 0 (replicate 64 zero_open) 0 [].
Definition lib_ab : text * text := ([97], [98]).

#[local] Instance libpool_locks : MutexLib mutex_state := DevMutex_lib (λ _, 0).
#[local] Instance libpool_lock_laws : MutexLaws mutex_state := DevMutex_laws (λ _, 0).

Lemma pool0_held : held 77 [lib_ab] pool0 (λ _, 0).
Proof. apply init_held; [done..|]. exists 1. split; [by vm_compute|]. apply one_lock_free. Qed.

Lemma lib_ab_short p : p ∈ [lib_ab] → short (path p).
Proof. intros ->%list_elem_of_singleton. unfold short. cbn. lia. Qed.

