(* ===== verification/DevLibPoolCases.v ===== *)
(** * Where the library pool mixes libraries up

    [Open] takes an entry that has the directory or the name asked for, [Close] looks
    at the directory alone, and [OpenDir] fills a place of the table without emptying
    it first. *)
From S2P Require Import Prelude DevTypes DevMutex DevArrays DevStdlib DevLibPool DevLibPoolSpec.
#[local] Open Scope Z_scope.

Section Cases.
Context `{MutexLaws M} `{DynLaws D}.
Context (list_dir : text → option (list text)) (junk m_mutex_Id m_mutex_OpneId : Z).
Implicit Types w : world M D.

(** ** Two clients, two libraries *)

Lemma find_entry_first {A} (p : A → bool) n x l : 0 < n → p x = true → find_entry p n (x :: l) = Some (0%nat, x).
Proof.
  intros Hn Hp. unfold find_entry. replace (Z.to_nat n) with (S (Z.to_nat (n - 1))) by lia.
  cbn [take list_find]. by rewrite decide_True.
Qed.

Lemma find_entry_second {A} (p : A → bool) n x y l : 1 < n → p x = false → p y = true →
  find_entry p n (x :: y :: l) = Some (1%nat, y).
Proof.
  intros Hn Hx Hy. unfold find_entry. replace (Z.to_nat n) with (S (S (Z.to_nat (n - 2)))) by lia.
  cbn [take list_find]. rewrite decide_False by (by rewrite Hx). by rewrite decide_True.
Qed.

Lemma remove_last_entry {A} (l : list A) n mid : n - 1 = mid → remove_entry l n mid = Ret l.
Proof. intros <-. unfold remove_entry. by rewrite Z.sub_diag. Qed.

Lemma same_text_refl a : same_text a a = true.
Proof. unfold same_text. by apply bool_decide_eq_true. Qed.

Lemma same_text_ne a b : short a → short b → a ≠ b → same_text a b = false.
Proof. intros Ha Hb Hne. apply not_true_is_false. by rewrite (same_text_short a b Ha Hb). Qed.

(** One client holds library [x] of directory [A], another [y] of directory [B].
    A third opens [x] of directory [B]: it is given the entry of the library of
    directory [A].  When it closes what it opened, the library of the second client is
    unloaded under it, and the count of the first is left too high. *)
Theorem Close_unloads_another w A x B y e1 fd1 e2 fd2 rest :
  init_f w = TRUE → unlocked m_mutex_OpneId w →
  m_libPoolOpenList w = mkOpenList 1 A x fd1 e1 :: mkOpenList 1 B y fd2 e2 :: rest → m_libPoolListOpen_num w = 2 →
  short A → short x → short B → short y → A ≠ B → x ≠ y →
  fd2 ≠ NULL → 0 < refs (linker w) fd2 →
  ∃ w1 w2, DevLibPool_Open m_mutex_OpneId B x w = Ret (RET_OK, Some e1, w1) ∧
    DevLibPool_Close m_mutex_OpneId B x w1 = Ret (RET_OK, w2) ∧
    opens w2 = [mkOpenList 2 A x fd1 e1] ∧
    (∀ h, refs (linker w2) h = refs (linker w) h - (if h =? fd2 then 1 else 0)).
Proof.
  intros Hinit Hlock Hl Hn HA Hx HB Hy HAB Hxy Hfd Hrefs. unfold DevLibPool_Open. rewrite Hinit. cbn [negb Z.eqb TRUE].
  destruct (libs_lock m_mutex_OpneId w Hlock) as (m & -> & id & Eid & Hm). cbn [mbind outcome_bind].
  change (m_libPoolListOpen_num (set_mutexes w m)) with (m_libPoolListOpen_num w).
  change (m_libPoolOpenList (set_mutexes w m)) with (m_libPoolOpenList w). rewrite Hl, Hn.
  rewrite find_entry_first by (try lia; cbn [o_dir o_name]; by rewrite same_text_refl, orb_true_r).
  cbn [o_usedNum o_dir o_name o_fd o_entry].
  set (w1 := set_opens (set_mutexes w m) _ 2).
  destruct (libs_unlock m_mutex_OpneId w1 id) as (m1 & -> & Hu1); [done|done|]. cbn [mbind outcome_bind].
  set (ls := m_libPoolOpenList (set_mutexes w1 m1)).
  assert (ls = mkOpenList 2 A x fd1 e1 :: mkOpenList 1 B y fd2 e2 :: rest) as Els by done.
  destruct (libs_lock m_mutex_OpneId (set_mutexes w1 m1) Hu1) as (m2 & E2 & id2 & Eid2 & Hm2).
  set (w2 := set_linker (set_opens (set_mutexes (set_mutexes w1 m1) m2)
         (mkOpenList 2 A x fd1 e1 :: mkOpenList 0 B y fd2 e2 :: rest) 1) (dlclose fd2 (linker w)).2).
  destruct (libs_unlock m_mutex_OpneId w2 id2) as (m3 & E3 & _); [done|done|].
  exists (set_mutexes w1 m1), (set_mutexes w2 m3). split; [done|].
  destruct (dlclose fd2 (linker w)) as [r d] eqn:Ed. destruct (dlclose_refs _ _ _ _ Ed Hrefs) as [-> Hd].
  split; [|split; [done|exact Hd]].
  unfold DevLibPool_Close. change (init_f (set_mutexes w1 m1)) with (init_f w). rewrite Hinit.
  rewrite E2. cbn [mbind outcome_bind].
  change (m_libPoolListOpen_num (set_mutexes (set_mutexes w1 m1) m2)) with 2.
  change (m_libPoolOpenList (set_mutexes (set_mutexes w1 m1) m2)) with ls. rewrite Els.
  rewrite find_entry_second; [|lia|cbn [o_dir]; by apply same_text_ne|cbn [o_dir]; apply same_text_refl].
  cbn [o_usedNum o_dir o_name o_fd o_entry]. rewrite (proj2 (Z.eqb_neq _ _) Hfd).
  change (linker (set_mutexes (set_mutexes w1 m1) m2)) with (linker w). rewrite Ed.
  change (negb (TRUE =? TRUE)) with false. change (1 - 1) with 0. change (0 <=? 0) with true. cbn match.
  rewrite remove_last_entry by done. cbn [mbind outcome_bind]. unfold w2 in E3. cbn [snd] in E3.
  change (one_less 2) with 1. change (<[1%nat := ?e]> (?a :: ?b :: rest)) with (a :: e :: rest).
  cbn [mbind outcome_bind]. rewrite E3. done.
Qed.

(** ** A place used twice *)

Lemma close_libs_spec fds ret d : (∀ h, h ≠ NULL → times fds h ≤ refs d h) →
  ∃ d', close_libs fds ret d = (ret, d') ∧ ∀ h, h ≠ NULL → refs d' h = refs d h - times fds h.
Proof.
  revert d. induction fds as [|fd fds IH]; intros d Hd; cbn [close_libs times] in *.
  { exists d. split; [done|]. intros h _. lia. }
  destruct (Z.eqb_spec fd NULL) as [->|Hfd].
  { destruct (IH d) as (d' & -> & Hd').
    - intros h Hh. specialize (Hd h Hh). destruct (Z.eqb_spec NULL h); [congruence|lia].
    - exists d'. split; [done|]. intros h Hh. rewrite Hd' by done. destruct (Z.eqb_spec NULL h); [congruence|lia]. }
  destruct (dlclose fd d) as [r d1] eqn:E.
  pose proof (Hd fd Hfd) as Hf. rewrite Z.eqb_refl in Hf. pose proof (times_nonneg fds fd).
  destruct (dlclose_refs _ _ _ _ E) as [-> Hd1]; [lia|]. cbn [negb Z.eqb RET_OK].
  destruct (IH d1) as (d' & -> & Hd').
  - intros h Hh. rewrite Hd1. specialize (Hd h Hh). rewrite (Z.eqb_sym h). destruct (fd =? h); lia.
  - exists d'. split; [done|]. intros h Hh. rewrite Hd', Hd1, (Z.eqb_sym h) by done. destruct (fd =? h); lia.
Qed.

Lemma arr_set_prefix {A} (a a' : list A) i x k : arr_set a i x = Ret a' → k ≤ i → take (Z.to_nat k) a' = take (Z.to_nat k) a.
Proof.
  unfold arr_set. destruct ((0 <=? i) && _); [|done]. intros [= <-] Hk. apply take_insert_ge. lia.
Qed.

(** [DirLoad] writes behind what the list holds. *)
Lemma load_libs_prefix files ret fds l d ret' fds' l' d' k :
  load_libs files ret fds l d = Ret (ret', fds', l', d') → k ≤ num l →
  num l ≤ num l' ∧ take (Z.to_nat k) (lib_entry l') = take (Z.to_nat k) (lib_entry l) ∧
  take (Z.to_nat k) (lib_name l') = take (Z.to_nat k) (lib_name l) ∧
  (ret' = RET_OK → ret = RET_OK ∨ num l < num l').
Proof.
  revert ret fds l d. induction files as [|f files IH]; intros ret fds l d E Hk; cbn [load_libs] in E.
  { injection E as <- _ <- _. split_and!; (done || lia || by left). }
  destruct (dlopen f d) as [fd d1]. destruct (fd =? NULL); [by apply IH in E|].
  destruct (dlsym _ _ _ =? NULL); [by apply IH in E|].
  destruct (arr_set (lib_entry l) _ _) as [entries| | | |] eqn:Ee; try done. cbn [mbind outcome_bind] in E.
  destruct (arr_set (lib_name l) _ _) as [names| | | |] eqn:En; try done. cbn [mbind outcome_bind] in E.
  destruct (arr_set fds _ _) as [fds1| | | |]; try done. cbn [mbind outcome_bind] in E.
  apply IH in E as (Hle & He & Hn & _); [|cbn [num]; lia]. cbn [num lib_entry lib_name] in *.
  rewrite He, Hn, (arr_set_prefix _ _ _ _ _ Ee), (arr_set_prefix _ _ _ _ _ En) by done.
  split_and!; [lia|done..|]. intros _. right. lia.
Qed.

(** [OpenDir] of a directory that is not in the table fills the first unused place. *)
Lemma OpenDir_new w e B l w2 : init_f w = TRUE → unlocked m_mutex_Id w →
  find_entry (λ e, same_text B (d_dir e)) (m_libPoolListDir_num w) (m_libPoolList w) = None →
  arr_get (m_libPoolList w) (m_libPoolListDir_num w) = Ret e →
  DevLibPool_OpenDir list_dir junk m_mutex_Id B w = Ret (RET_OK, Some l, w2) →
  ∃ files fds' d', load_libs files RET_ERR (d_fd e) (d_list e) (linker w) = Ret (RET_OK, fds', l, d').
Proof.
  intros Hinit Hlock Ef Ea. unfold DevLibPool_OpenDir. rewrite Hinit. change (negb (TRUE =? TRUE)) with false.
  destruct (libs_lock m_mutex_Id w Hlock) as (m & -> & _). cbn [mbind outcome_bind].
  change (m_libPoolListDir_num (set_mutexes w m)) with (m_libPoolListDir_num w).
  change (m_libPoolList (set_mutexes w m)) with (m_libPoolList w). rewrite Ef, Ea. cbn [mbind outcome_bind].
  unfold DevLibPool_DirLoad. change (init_f (set_mutexes w m)) with (init_f w). rewrite Hinit.
  change (negb (TRUE =? TRUE)) with false. change (linker (set_mutexes w m)) with (linker w). cbn match.
  destruct (DevLibPool_GetFilesFromPath _ _ _ _ _ _ _ _ _) as [[n names]| | | |]; try done. cbn [mbind outcome_bind].
  destruct (load_libs _ _ _ _ _) as [[[[r fds'] l'] d]| | | |] eqn:El; try done. cbn [mbind outcome_bind].
  intros E. exists (take (Z.to_nat n) names), fds', d. rewrite El.
  destruct (Z.eqb_spec r RET_OK) as [->|_]; destruct (arr_set _ _ _) as [ls| | | |]; try done; cbn [mbind outcome_bind] in E;
    destruct (unlock _ _); try done; cbn [mbind outcome_bind] in E; congruence.
Qed.

(** A client opens directory [A] and closes it, which unloads its libraries; the next
    directory that is opened takes the same place of the table, and the list its client
    receives starts with the names and the entries of the libraries that were
    unloaded. *)
Theorem OpenDir_lists_unloaded w A fds l0 rest :
  init_f w = TRUE → unlocked m_mutex_Id w →
  m_libPoolList w = mkDirList 1 A fds l0 :: rest → m_libPoolListDir_num w = 1 →
  0 < num l0 ≤ Z.of_nat (length fds) →
  (∀ h, h ≠ NULL → times (take (Z.to_nat (num l0)) fds) h ≤ refs (linker w) h) →
  ∃ w1, DevLibPool_CloseDir m_mutex_Id A w = Ret (RET_OK, w1) ∧
    (∀ h, h ≠ NULL → refs (linker w1) h = refs (linker w) h - times (take (Z.to_nat (num l0)) fds) h) ∧
    ∀ B l w2, DevLibPool_OpenDir list_dir junk m_mutex_Id B w1 = Ret (RET_OK, Some l, w2) →
      num l0 < num l ∧ take (Z.to_nat (num l0)) (lib_name l) = take (Z.to_nat (num l0)) (lib_name l0) ∧
      take (Z.to_nat (num l0)) (lib_entry l) = take (Z.to_nat (num l0)) (lib_entry l0).
Proof.
  intros Hinit Hlock Hl Hn Hnum Hrefs.
  destruct (libs_lock m_mutex_Id w Hlock) as (m & E & id & Eid & Hm).
  destruct (close_libs_spec (take (Z.to_nat (num l0)) fds) RET_OK (linker w) Hrefs) as (d & Ed & Hd).
  set (w1 := set_dirs (set_linker (set_mutexes w m) d) (mkDirList 0 A fds l0 :: rest) 0).
  destruct (libs_unlock m_mutex_Id w1 id) as (m1 & E1 & Hu1); [done|done|].
  exists (set_mutexes w1 m1). split; [|split; [exact Hd|]].
  - unfold DevLibPool_CloseDir. rewrite Hinit, E. cbn [mbind outcome_bind].
    change (m_libPoolListDir_num (set_mutexes w m)) with (m_libPoolListDir_num w).
    change (m_libPoolList (set_mutexes w m)) with (m_libPoolList w). rewrite Hl, Hn.
    rewrite find_entry_first by (try lia; apply same_text_refl). cbn [d_usedNum d_dir d_fd d_list].
    change (negb (TRUE =? TRUE)) with false. change (1 - 1 <=? 0) with true. cbn match.
    unfold DevLibPool_DirRevert. change (init_f _) with (init_f w). rewrite Hinit. cbn [d_list d_fd].
    rewrite (proj2 (Z.ltb_ge _ _)) by lia. change (linker _) with (linker w). rewrite Ed.
    change (negb (TRUE =? TRUE)) with false. cbn [mbind outcome_bind].
    rewrite remove_last_entry by done. cbn [mbind outcome_bind]. change (one_less 1) with 0.
    change (1 - 1) with 0. change (<[0%nat := ?x]> (?a :: rest)) with (x :: rest).
    change (Z.lor RET_OK RET_OK) with RET_OK. unfold w1 in E1.
    unfold set_dirs, set_linker in *. cbn [mutexes vars init_f m_libPoolOpenList m_libPoolListOpen_num linker] in *.
    rewrite E1. done.
  - intros B l w2 E2.
    apply (OpenDir_new _ (mkDirList 0 A fds l0)) in E2 as (files & fds' & d' & El); [|done..].
    apply (load_libs_prefix _ _ _ _ _ _ _ _ _ (num l0)) in El as (_ & He & Hn' & Hlt); [|done].
    split_and!; [|done..]. by destruct Hlt.
Qed.
End Cases.

(** ** Concrete cases *)

(** ["A/x"] and ["B/y"] are open. *)
Definition two_open : world mutex_state (list Z) :=
  mkWorld one_lock_table {[77 := 1]} TRUE (replicate 64 zero_dir) 0
    (mkOpenList 1 [65] [120] 7 107 :: mkOpenList 1 [66] [121] 8 108 :: replicate 62 zero_open) 2 [8; 7].

#[local] Instance cases_locks : MutexLib mutex_state := DevMutex_lib (λ _, 0).
#[local] Instance cases_lock_laws : MutexLaws mutex_state := DevMutex_laws (λ _, 0).

Lemma lock77_free (w : world mutex_state (list Z)) : mutexes w = one_lock_table → vars w = {[77 := 1]} → unlocked 77 w.
Proof. intros Em Ev. exists 1. rewrite Em, Ev. split; [by vm_compute|]. apply one_lock_free. Qed.

Lemma Close_unloads_another_witness : ∃ w1 w2,
  DevLibPool_Open 77 [66] [120] two_open = Ret (RET_OK, Some 107, w1) ∧
  DevLibPool_Close 77 [66] [120] w1 = Ret (RET_OK, w2) ∧ refs (linker w2) 8 = 0.
Proof.
  destruct (Close_unloads_another 77 two_open [65] [120] [66] [121] 107 7 108 8 (replicate 62 zero_open))
    as (w1 & w2 & Eo & Ec & _ & Hr); try done; try (unfold short; cbn; lia).
  - by apply lock77_free.
  - exists w1, w2. split; [done|]. split; [done|]. by rewrite Hr.
Defined.

(** Directory ["A"] is open and holds one library; directory ["B"] holds ["com.q.n.so"]. *)
Definition name_so : text := [99; 111; 109; 46; 113; 46; 110; 46; 115; 111].
Definition one_dir : world mutex_state (list Z) :=
  mkWorld one_lock_table {[77 := 1]} TRUE
    (mkDirList 1 [65] (7 :: replicate 63 0) (mkLibList 1 ([65] :: replicate 63 []) (107 :: replicate 63 0)) :: replicate 63 zero_dir) 1
    (replicate 64 zero_open) 0 [7].
Definition only_B (dir : text) : option (list text) := if bool_decide (dir = [66]) then Some [name_so] else None.

Lemma OpenDir_lists_unloaded_witness : ∃ w1 w2 l,
  DevLibPool_CloseDir 77 [65] one_dir = Ret (RET_OK, w1) ∧ refs (linker w1) 7 = 0 ∧
  DevLibPool_OpenDir only_B 0 77 [66] w1 = Ret (RET_OK, Some l, w2) ∧
  num l = 2 ∧ take 1 (lib_entry l) = [107].
Proof.
  destruct (OpenDir_lists_unloaded only_B 0 77 one_dir [65] (7 :: replicate 63 0)
    (mkLibList 1 ([65] :: replicate 63 []) (107 :: replicate 63 0)) (replicate 63 zero_dir)) as (w1 & Ec & Hr & Hl); try done.
  - by apply lock77_free.
  - exists w1. destruct (DevLibPool_OpenDir only_B 0 77 [66] w1) as [[[r [l|]] w2]| | | |] eqn:Eo.
    2-6: vm_compute in Ec; injection Ec as <-; vm_compute in Eo; congruence.
    assert (r = RET_OK ∧ num l = 2) as [-> Hn].
    { vm_compute in Ec. injection Ec as <-. vm_compute in Eo. injection Eo as <- <- _. done. }
    destruct (Hl _ _ _ Eo) as (_ & _ & He). exists w2, l. split_and!; try done. rewrite Hr by done. done.
Defined.

(** ** Which file names the library pool accepts

    [DevLibPool_GetFilesFromPath] cuts a file name at its dots with [Dev_strtok_r] and
    compares the pieces one by one; the pieces are read after the array was cut, so
    they must survive the later cuts. *)
Module Names.

(** [*] accepts everything. *)
Definition accepts (pattern t : text) : bool := bool_decide (pattern = [42]) || bool_decide (pattern = t).

(** The pieces of a name: [com.<vendor>.<module>.<target>.<extension>], or without the
    target; in the second form a target other than [*] is compared with the extension. *)
Definition name_accepted (pVendorName pModuleName pTargetName pExtension : text) (pieces : list text) : bool :=
  match pieces with
  | [c; v; m; t; e] =>
      bool_decide ([99; 111; 109] = c) && accepts pVendorName v && accepts pModuleName m && accepts pTargetName t
      && accepts pExtension e
  | [c; v; m; e] =>
      bool_decide ([99; 111; 109] = c) && accepts pVendorName v && accepts pModuleName m && accepts pTargetName e
      && accepts pExtension e
  | _ => false
  end.

(** ** Pieces survive later cuts *)

Lemma strlen_insert s n k : strlen s = Ret n → (n ≤ k)%nat → strlen (<[k:=0]> s) = Ret n.
Proof.
  revert n k. induction s as [|c s IH]; intros n k E Hk; [done|]. cbn [strlen] in E. destruct (Z.eqb_spec c 0) as [->|Hc].
  - injection E as <-. by destruct k.
  - destruct (strlen s) as [n'| | | |] eqn:Es; try done. injection E as <-. destruct k as [|k]; [lia|].
    change (<[S k:=0]> (c :: s)) with (c :: <[k:=0]> s). cbn [strlen].
    rewrite (proj2 (Z.eqb_neq c 0) Hc). by rewrite (IH n' k eq_refl) by lia.
Qed.

Lemma c_text_insert buf p t k : c_text buf p = Ret t → (p + length t ≤ k)%nat → c_text (<[k:=0]> buf) p = Ret t.
Proof.
  unfold c_text. destruct (strlen (drop p buf)) as [n| | | |] eqn:En; try done. cbn [mbind outcome_bind].
  intros [= <-] Hk. rewrite drop_insert_ge by lia.
  assert (∀ s n', strlen s = Ret n' → (n' ≤ length s)%nat) as Hlen.
  { induction s as [|c s IH]; intros n' E; [done|]. cbn [strlen] in E. destruct (c =? 0); [injection E as <-; lia|].
    destruct (strlen s) as [n0| | | |]; try done. injection E as <-. specialize (IH n0 eq_refl). cbn. lia. }
  specialize (Hlen _ _ En). rewrite length_take in Hk.
  rewrite (strlen_insert _ n) by (done || lia). cbn [mbind outcome_bind]. by rewrite take_insert_ge by lia.
Qed.

Lemma strtok_writes delim buf s save t buf' save' : Dev_strtok_r buf s delim save = Ret (t, buf', save') →
  buf' = buf ∨ ∃ k, (default save s ≤ k)%nat ∧ buf' = <[k:=0]> buf.
Proof.
  unfold Dev_strtok_r. intros E.
  destruct (strspn _ _) as [n| | | |]; try done. cbn [mbind outcome_bind] in E.
  destruct (buf !! _) as [c|]; [|done]. cbn [or_ub mbind outcome_bind] in E.
  destruct (c =? 0); [left; congruence|]. destruct (strpbrk _ _) as [[k|]| | | |]; try done; cbn [mbind outcome_bind] in E.
  - unfold store_byte in E. destruct (buf !! (_ + k)%nat); [|done]. cbn [mbind outcome_bind] in E.
    injection E as _ <- _. right. eexists. split; [|done]. lia.
  - destruct (strlen _) as [m| | | |]; [|done..]. cbn [mbind outcome_bind] in E. left. congruence.
Qed.

(** ** The tokens of a name *)

Abbreviation dots := (fields [46] []).

(** The state of the loop: the tokens [ps] stored so far hold the pieces [ts], and the
    pieces [R] are left, the first of them being the last result of [Dev_strtok_r]. *)
Definition at_token (pToken : option nat) (buf : list Z) (save : nat) (ps : list nat) (ts R : list text) : Prop :=
  match pToken with
  | None => R = [] ∧ Forall2 (λ p t, c_text buf p = Ret t) ps ts
  | Some p => ∃ pre l rest t, no_nul l ∧ buf = pre ++ l ++ 0 :: rest ∧ save = length pre ∧ R = t :: dots l ∧
      Forall2 (λ p t, c_text buf p = Ret t ∧ (p + length t ≤ length pre)%nat) (ps ++ [p]) (ts ++ [t])
  end.

Lemma strtok_next pre l rest s save ps ts : no_nul l → default save s = length pre →
  Forall2 (λ p t, c_text (pre ++ l ++ 0 :: rest) p = Ret t ∧ (p + length t ≤ length pre)%nat) ps ts →
  ∃ pToken buf' save', Dev_strtok_r (pre ++ l ++ 0 :: rest) s [46] save = Ret (pToken, buf', save') ∧
    at_token pToken buf' save' ps ts (dots l).
Proof.
  intros Hn Hs Hst. destruct (strtok_step [46] pre l rest s save Hn Hs) as
    [[-> E]|(tok & l' & pre' & rest' & i & -> & Hn' & Hl' & E & Hlen & Htok & Hi & Hpre)].
  - exists None, (pre ++ l ++ 0 :: rest), save. split; [done|]. split; [done|].
    eapply Forall2_impl; [exact Hst|]. by intros p t [? _].
  - eexists (Some i), _, _. split; [exact E|]. exists pre', l', rest', tok. split_and!; [done..|].
    apply Forall2_app.
    + eapply Forall2_impl; [exact Hst|]. cbn beta. intros p t [Hp Hle]. split; [|lia].
      destruct (strtok_writes _ _ _ _ _ _ _ E) as [->|(k & Hk & ->)]; [done|]. apply c_text_insert; [done|lia].
    + repeat constructor; [|done]. unfold c_text. rewrite Hlen. cbn [mbind outcome_bind]. by rewrite Htok.
Qed.

Lemma token_loop_spec k pToken buf save ps ts R : at_token pToken buf save ps ts R →
  ∃ ps' o buf', token_loop k pToken buf save ps = Ret (ps', o, buf') ∧
    Forall2 (λ p t, c_text buf' p = Ret t) ps' (ts ++ take k R) ∧ (o = None ↔ (length R ≤ k)%nat).
Proof.
  revert pToken buf save ps ts R. induction k as [|k IH]; intros [p|] buf save ps ts R Hat; cbn [token_loop].
  1: destruct Hat as (pre & l & rest & t & _ & _ & _ & -> & Hst).
  3: destruct Hat as (pre & l & rest & t & Hn & -> & -> & -> & Hst).
  2,4: destruct Hat as [-> Hst]; exists ps, None, buf; rewrite take_nil, app_nil_r; split_and!; [done..|]; (split; [cbn; lia|done]).
  - exists ps, (Some p), buf. rewrite take_0, app_nil_r. split_and!; [done| |cbn; split; [done|lia]].
    assert (length ps = length ts) as Hl by (apply Forall2_length in Hst; rewrite !length_app in Hst; apply (Nat.add_cancel_r _ _ 1), Hst).
    apply Forall2_app_inv in Hst as [Hst _]; [|done].
    eapply Forall2_impl; [exact Hst|]. by intros q t' [? _].
  - destruct (strtok_next pre l rest None (length pre) (ps ++ [p]) (ts ++ [t]) Hn eq_refl Hst)
      as (pToken & buf' & save' & -> & Hat'). cbn [mbind outcome_bind].
    destruct (IH _ _ _ _ _ _ Hat') as (ps' & o & buf2 & -> & Hps & Ho). exists ps', o, buf2. split; [done|].
    rewrite <-app_assoc in Hps. split; [exact Hps|]. rewrite Ho. cbn. lia.
Qed.

(** ** The comparison *)

Lemma match_one buf ps pattern i places pat index p t : pattern i = Some (pat, index) → ps !! index = Some p →
  c_text buf p = Ret t →
  match_loop buf ps pattern (i :: places)
  = if accepts pat t then match_loop buf ps pattern places else Ret false.
Proof.
  intros Ei Ep Et. cbn [match_loop]. rewrite Ei. unfold accepts. destruct (bool_decide (pat = [42])); [done|].
  rewrite Ep. cbn [or_ub mbind outcome_bind]. rewrite Et. cbn [mbind outcome_bind orb]. done.
Qed.

Lemma match_skip buf ps pattern i places : pattern i = None →
  match_loop buf ps pattern (i :: places) = match_loop buf ps pattern places.
Proof. intros Ei. cbn [match_loop]. by rewrite Ei. Qed.

Lemma accepts_com t : accepts [99; 111; 109] t = bool_decide ([99; 111; 109] = t).
Proof. unfold accepts. by rewrite bool_decide_eq_false_2. Qed.

Lemma match_loop_spec buf ps ts v m t e : Forall2 (λ p t, c_text buf p = Ret t) ps ts → (4 ≤ length ts ≤ 5)%nat →
  match_loop buf ps (name_pattern (length ps) v m t e) (seq 0 5) = Ret (name_accepted v m t e ts).
Proof.
  intros Hps Hlen. pose proof (Forall2_length _ _ _ Hps) as El.
  destruct Hps as [|p0 t0 ? ? E0 [|p1 t1 ? ? E1 [|p2 t2 ? ? E2 [|p3 t3 ? ? E3 [|p4 t4 ps ts E4 Hps]]]]];
    cbn [length] in *; try lia.
  - cbn [seq name_accepted].
    rewrite (match_one _ _ _ 0 _ [99; 111; 109] 0 p0 t0), (match_one _ _ _ 1 _ v 1 p1 t1),
      (match_one _ _ _ 2 _ m 2 p2 t2), accepts_com by done.
    assert (match_loop buf [p0; p1; p2; p3] (name_pattern 4 v m t e) [3; 4]%nat
            = if accepts t t3 then match_loop buf [p0; p1; p2; p3] (name_pattern 4 v m t e) [4%nat] else Ret false) as ->.
    { destruct (decide (t = [42])) as [->|Ht].
      - rewrite match_skip by done. done.
      - apply (match_one _ _ _ 3 _ t 3 p3); [|done..]. cbn. by rewrite bool_decide_eq_false_2. }
    rewrite (match_one _ _ _ 4 _ e 3 p3 t3) by done.
    repeat (case_match; cbn [andb match_loop]; try done).
  - destruct Hps; [|cbn [length] in *; lia]. cbn [seq name_accepted].
    rewrite (match_one _ _ _ 0 _ [99; 111; 109] 0 p0 t0), (match_one _ _ _ 1 _ v 1 p1 t1),
      (match_one _ _ _ 2 _ m 2 p2 t2), (match_one _ _ _ 3 _ t 3 p3 t3), (match_one _ _ _ 4 _ e 4 p4 t4), accepts_com by done.
    repeat (case_match; cbn [andb match_loop]; try done).
Qed.

(** A name of a directory entry is accepted exactly when, cut at its dots, it is
    [com.<vendor>.<module>.<target>.<extension>] or the same without a target, each
    piece equal to the pattern asked for or the pattern being [*]; in particular a
    name of any other number of pieces is refused, and no pointer is followed outside
    the array of the name. *)
Theorem valid_name_spec (junk : Z) (d_name pVendorName pModuleName pTargetName pExtension : text) :
  no_nul d_name → (length d_name < 256)%nat →
  valid_name junk d_name pVendorName pModuleName pTargetName pExtension
  = Ret (name_accepted pVendorName pModuleName pTargetName pExtension (dots d_name)).
Proof.
  intros Hn Hlen. unfold valid_name.
  assert (take 256 (d_name ++ replicate 256 0) ++ [junk] = [] ++ d_name ++ 0 :: (replicate (255 - length d_name) 0 ++ [junk])) as ->.
  { rewrite take_app_ge by lia. rewrite take_replicate. replace (256 - length d_name)%nat with (S (255 - length d_name)) by lia.
    rewrite Nat.min_l by lia. cbn [replicate app]. by rewrite <-app_assoc. }
  destruct (strtok_next [] d_name (replicate (255 - length d_name) 0 ++ [junk]) (Some 0%nat) 0 [] [] Hn eq_refl)
    as (pToken & buf & save & -> & Hat); [constructor|]. cbn [mbind outcome_bind].
  destruct (token_loop_spec maxFileNameToken _ _ _ _ _ _ Hat) as (ps & o & buf' & -> & Hps & Ho). cbn [mbind outcome_bind].
  pose proof (Forall2_length _ _ _ Hps) as El. rewrite app_nil_l, length_take in El. unfold maxFileNameToken in *.
  destruct o as [p|].
  - assert (¬ (length (dots d_name) ≤ 5)%nat) as Hmany by (by rewrite <-Ho).
    destruct (dots d_name) as [|? [|? [|? [|? [|? [|? ?]]]]]]; cbn [length] in Hmany; (done || lia).
  - assert (length (dots d_name) ≤ 5)%nat as Hfew by (by apply Ho). rewrite app_nil_l, firstn_all2 in Hps by done.
    rewrite Nat.min_r in El by done. rewrite El. destruct (Nat.leb_spec (5 - 1) (length (dots d_name))).
    + rewrite <-El. apply match_loop_spec; [done|lia].
    + destruct (dots d_name) as [|? [|? [|? [|? ?]]]]; cbn [length] in *; (done || lia).
Qed.

(** [com.qti.node.ldc.so] and [com.qti.node.so] for [GetFilesFromPath(dir, "*", "*", "*", "so")]. *)
Lemma valid_name_spec_witness :
  valid_name 7 [99;111;109; 46; 113;116;105; 46; 110;111;100;101; 46; 108;100;99; 46; 115;111] [42] [42] [42] LIB_EXTENSION_NAME = Ret true ∧
  valid_name 7 [99;111;109; 46; 113;116;105; 46; 110;111;100;101; 46; 115;111] [42] [42] [42] LIB_EXTENSION_NAME = Ret true ∧
  valid_name 7 [108;105;98; 46; 115;111] [42] [42] [42] LIB_EXTENSION_NAME = Ret false.
Proof.
  rewrite !valid_name_spec by (cbn [length]; try lia; apply (bool_decide_unpack _); by vm_compute).
  done.
Defined.

End Names.
