(* ===== verification/DevPthread.v ===== *)
(** * The SDK's threads

    Model of [src/mivifwk/odm/plugins/qcom/ldc/device/dev_pthread.cpp]: a table of 128
    threads addressed by small ids.  The threads of the system are the class
    [Kernel]. *)
From S2P Require Import Prelude DevTypes DevMutex.
From stdpp Require Import strings.
#[local] Open Scope Z_scope.

(** @src src/mivifwk/odm/plugins/qcom/ldc/device/dev_pthread.cpp:20-20 DEV_PTHREAD_NUM_MAX *)
Definition DEV_PTHREAD_NUM_MAX : Z := 128.

(** @src src/mivifwk/odm/plugins/qcom/ldc/device/dev_pthread.cpp:22-30 DEV_PTHREAD_NODE
    [attr]: whether the attributes are initialised. *)
Record DEV_PTHREAD_NODE := mkNode {
  en : Z;
  pId : Z;
  fileName : string;
  tagName : string;
  fileLine : Z;
  pthread : Z;
  attr : bool;
}.
Definition zero_node : DEV_PTHREAD_NODE := mkNode 0 0 "" "" 0 0 false.

(** Threads of the system: a [pthread_t] is a number.  [pthread_create] gives the
    result and the [pthread_t] it stored. *)
Class Kernel (K : Type) := {
  pthread_attr_init : K → Z * K;
  pthread_create : Z → Z → K → Z * Z * K;
  pthread_join : Z → K → outcome (Z * K);
  pthread_detach : Z → K → Z * K;
  pthread_equal : Z → Z → Z;
  pthread_self : K → Z;
}.

(** @src src/mivifwk/odm/plugins/qcom/ldc/device/dev_pthread.cpp:32-34 the static variables *)
Record world (M K : Type) := mkWorld {
  mutexes : M;
  vars : cells;
  init_f : Z;
  m_pthread_list : list DEV_PTHREAD_NODE;
  kernel : K;
}.
Arguments mkWorld {_ _} _ _ _ _ _.
Arguments mutexes {_ _} _.
Arguments vars {_ _} _.
Arguments init_f {_ _} _.
Arguments m_pthread_list {_ _} _.
Arguments kernel {_ _} _.

(** @src src/mivifwk/odm/plugins/qcom/ldc/device/dev_pthread.cpp:36-47 DevPthread_NoDirFileName *)
Definition DevPthread_NoDirFileName (pFilePath : string) : string := no_dir_file_name pFilePath.

Definition pthread_ids : list Z := seqZ 1 (DEV_PTHREAD_NUM_MAX - 1).
Definition bad_id (id : Z) : bool := (DEV_PTHREAD_NUM_MAX <=? id) || (id <=? 0).

Definition set_mutexes {M K} (w : world M K) (m : M) : world M K :=
  mkWorld m (vars w) (init_f w) (m_pthread_list w) (kernel w).
Definition set_vars {M K} (w : world M K) (c : cells) : world M K :=
  mkWorld (mutexes w) c (init_f w) (m_pthread_list w) (kernel w).
Definition set_kernel {M K} (w : world M K) (k : K) : world M K :=
  mkWorld (mutexes w) (vars w) (init_f w) (m_pthread_list w) k.
Definition set_node {M K} (w : world M K) (id : Z) (n : DEV_PTHREAD_NODE) : world M K :=
  mkWorld (mutexes w) (vars w) (init_f w) (<[Z.to_nat id := n]> (m_pthread_list w)) (kernel w).
Definition node_at {M K} (w : world M K) (id : Z) : outcome DEV_PTHREAD_NODE :=
  if id <? 0 then UB else or_ub (m_pthread_list w !! Z.to_nat id).
(** The first id whose node satisfies [p]. *)
Definition find_id {M K} (p : DEV_PTHREAD_NODE → bool) (w : world M K) : option Z :=
  find (λ id, match m_pthread_list w !! Z.to_nat id with Some n => p n | None => false end) pthread_ids.

Section Pthread.
Context `{MutexLib M} `{Kernel K}.
(** The address of the static variable [m_mutex_Id]. *)
Context (m_mutex_Id : Z).
Abbreviation world := (world M K).

Definition lock (w : world) : outcome world :=
  id ← load (vars w) m_mutex_Id; '(_, m) ← mx_Lock id (mutexes w); Ret (set_mutexes w m).
Definition unlock (w : world) : outcome world :=
  id ← load (vars w) m_mutex_Id; '(_, m) ← mx_Unlock id (mutexes w); Ret (set_mutexes w m).

(** @src src/mivifwk/odm/plugins/qcom/ldc/device/dev_pthread.cpp:49-91 DevPthread_Create
    The returns after a failed [pthread_create] leave the lock locked. *)
Definition DevPthread_Create (p function arg : Z) (mk : mark) (w : world) : outcome (Z * world) :=
  if negb (init_f w =? TRUE) then Ret (RET_ERR, w)
  else
    w ← lock w;
    let exit (ret : Z) (w : world) := w ← unlock w; Ret (ret, w) in
    match find_id (λ n, negb (pId n =? NULL) && (pId n =? p) && (en n =? TRUE)) w with
    | Some id => exit RET_ERR w
    | None =>
        match find_id (λ n, en n =? FALSE) w with
        | None => exit RET_OK w
        | Some id =>
            n ← node_at w id;
            let '(_, k) := pthread_attr_init (kernel w) in
            let '(ret, pthread, k) := pthread_create function arg k in
            let w := set_node (set_kernel w k) id
                       (mkNode (en n) (pId n) (fileName n) (tagName n) (fileLine n) pthread true) in
            if negb (ret =? RET_OK) then Ret (RET_ERR, w)
            else if pthread =? 0 then Ret (RET_ERR, w)
            else
              c ← store (vars w) p id;
              fileName ← sprintf_s FILE_NAME_LEN_MAX (DevPthread_NoDirFileName (mk_fileName mk));
              tagName ← sprintf_s FILE_NAME_LEN_MAX (mk_tagName mk);
              exit RET_OK (set_node (set_vars w c) id (mkNode TRUE p fileName tagName (mk_fileLine mk) pthread true))
        end
    end.

(** @src src/mivifwk/odm/plugins/qcom/ldc/device/dev_pthread.cpp:93-111 DevPthread_Destroy *)
Definition DevPthread_Destroy (p : Z) (w : world) : outcome (Z * world) :=
  if negb (init_f w =? TRUE) then Ret (RET_ERR, w)
  else
    w ← lock w;
    let exit (w : world) := w ← unlock w; Ret (RET_OK, w) in
    if p =? NULL then exit w
    else
      id ← load (vars w) p;
      if bad_id id then exit w
      else
        n ← node_at w id;
        if pId n =? NULL then exit w
        else
          m_id ← load (vars w) (pId n);
          if bad_id m_id then exit w
          else
            c ← store (vars w) p 0;
            exit (set_vars (set_node w m_id zero_node) c).

(** @src src/mivifwk/odm/plugins/qcom/ldc/device/dev_pthread.cpp:113-117 DevPthread_Exit
    With the module initialised the calling thread ends. *)
Definition DevPthread_Exit (w : world) : option Z := if negb (init_f w =? TRUE) then Some RET_ERR else None.

(** The node of an id that names a thread. *)
Definition enabled (id : Z) (w : world) : outcome (option DEV_PTHREAD_NODE) :=
  if bad_id id then Ret None
  else n ← node_at w id; Ret (if negb (en n =? TRUE) then None else Some n).

(** @src src/mivifwk/odm/plugins/qcom/ldc/device/dev_pthread.cpp:119-126 DevPthread_Join *)
Definition DevPthread_Join (id : Z) (w : world) : outcome (Z * world) :=
  if negb (init_f w =? TRUE) then Ret (RET_ERR, w)
  else
    n ← enabled id w;
    match n with
    | None => Ret (RET_ERR, w)
    | Some n =>
        '(ret, k) ← pthread_join (pthread n) (kernel w);
        Ret (if negb (ret =? RET_OK) then RET_ERR else ret, set_kernel w k)
    end.

(** @src src/mivifwk/odm/plugins/qcom/ldc/device/dev_pthread.cpp:128-133 DevPthread_Detach *)
Definition DevPthread_Detach (id : Z) (w : world) : outcome (Z * world) :=
  if negb (init_f w =? TRUE) then Ret (RET_ERR, w)
  else
    n ← enabled id w;
    match n with
    | None => Ret (RET_ERR, w)
    | Some n => let '(ret, k) := pthread_detach (pthread n) (kernel w) in Ret (ret, set_kernel w k)
    end.

(** @src src/mivifwk/odm/plugins/qcom/ldc/device/dev_pthread.cpp:135-142 DevPthread_Equal *)
Definition DevPthread_Equal (id1 id2 : Z) (w : world) : outcome Z :=
  if negb (init_f w =? TRUE) then Ret RET_ERR
  else
    n1 ← enabled id1 w;
    match n1 with
    | None => Ret RET_ERR
    | Some n1 =>
        n2 ← enabled id2 w;
        Ret (match n2 with None => RET_ERR | Some n2 => pthread_equal (pthread n1) (pthread n2) end)
    end.

(** @src src/mivifwk/odm/plugins/qcom/ldc/device/dev_pthread.cpp:144-156 DevPthread_Self
    The last entry of the calling thread. *)
Definition DevPthread_Self (w : world) : Z :=
  if negb (init_f w =? TRUE) then RET_ERR
  else
    foldl (λ m_id id,
      match m_pthread_list w !! Z.to_nat id with
      | Some n => if negb (pId n =? NULL) && (en n =? TRUE) && (pthread n =? pthread_self (kernel w)) then id else m_id
      | None => m_id
      end) 0 (seqZ 0 DEV_PTHREAD_NUM_MAX).

(** @src src/mivifwk/odm/plugins/qcom/ldc/device/dev_pthread.cpp:158-171 DevPthread_Event_Create
    [Event_Create], [Event_Send] and [Event_Wait] are not implemented. *)
Definition DevPthread_Event : Z := RET_ERR.

(** @src src/mivifwk/odm/plugins/qcom/ldc/device/dev_pthread.cpp:173-193 DevPthread_Report
    Without its log lines. *)
Definition DevPthread_Report (w : world) : outcome (Z * world) :=
  if negb (init_f w =? TRUE) then Ret (RET_ERR, w)
  else w ← lock w; w ← unlock w; Ret (RET_OK, w).

(** @src src/mivifwk/odm/plugins/qcom/ldc/device/dev_pthread.cpp:195-203 DevPthread_Init
    The result of [Create] is not looked at. *)
Definition DevPthread_Init (mk : mark) (w : world) : outcome (Z * world) :=
  if init_f w =? TRUE then Ret (RET_OK, w)
  else
    '(_, (m, c)) ← mx_Create m_mutex_Id mk (mutexes w, vars w);
    Ret (RET_OK, mkWorld m c TRUE (replicate (Z.to_nat DEV_PTHREAD_NUM_MAX) zero_node) (kernel w)).

(** The loop of [Deinit] over a local variable at [idp]. *)
Fixpoint destroy_all (idp : Z) (ids : list Z) (w : world) : outcome world :=
  match ids with
  | [] => Ret w
  | id :: ids' =>
      c ← store (vars w) idp id;
      '(_, w) ← DevPthread_Destroy idp (set_vars w c);
      destroy_all idp ids' w
  end.

(** @src src/mivifwk/odm/plugins/qcom/ldc/device/dev_pthread.cpp:205-226 DevPthread_Deinit *)
Definition DevPthread_Deinit (idp : Z) (w : world) : outcome (Z * world) :=
  if negb (init_f w =? TRUE) then Ret (RET_OK, w)
  else
    let report := existsb (λ n, negb (pId n =? NULL) && (en n =? TRUE)) (m_pthread_list w) in
    w ← (if report then r ← DevPthread_Report w; Ret r.2 else Ret w);
    w ← destroy_all idp pthread_ids w;
    '(_, (m, c)) ← mx_Destroy m_mutex_Id (mutexes w, vars w);
    Ret (RET_OK, mkWorld m c FALSE (replicate (Z.to_nat DEV_PTHREAD_NUM_MAX) zero_node) (kernel w)).
End Pthread.

(** ** A thread the system refuses *)

Section Refused.
Context `{MutexLaws M} `{Kernel K}.
Context (m_mutex_Id : Z).
Implicit Types w : world M K.

Definition module_free w : Prop :=
  init_f w = TRUE ∧ ∃ id, vars w !! m_mutex_Id = Some id ∧ mx_free (mutexes w) id.
Definition module_stuck w : Prop :=
  init_f w = TRUE ∧ ∃ id, vars w !! m_mutex_Id = Some id ∧ mx_held (mutexes w) id.

Lemma pthread_lock w : module_free w → ∃ m, lock m_mutex_Id w = Ret (set_mutexes w m) ∧ module_stuck (set_mutexes w m).
Proof.
  intros (Hi & id & Eid & Hfree). destruct (mx_lock_free _ _ Hfree) as (m & E & Hheld & _). exists m.
  unfold lock. rewrite (load_Some _ _ id) by done. cbn [mbind outcome_bind]. rewrite E. split; [done|]. split; [done|]. by exists id.
Qed.

Lemma pthread_lock_stuck w : module_stuck w → lock m_mutex_Id w = Blocked.
Proof.
  intros (_ & id & Eid & Hheld). unfold lock. rewrite (load_Some _ _ id) by done. cbn [mbind outcome_bind].
  by rewrite (mx_lock_held _ _ Hheld).
Qed.

(** When the system refuses a thread, [Create] returns [RET_ERR] and keeps the lock of
    the module: from then on [Create], [Destroy] and [Report] wait for ever. *)
Theorem DevPthread_Create_refused w p function arg mk id k r pt k' :
  module_free w → find_id (λ n, negb (pId n =? NULL) && (pId n =? p) && (en n =? TRUE)) w = None →
  find_id (λ n, en n =? FALSE) w = Some id →
  (pthread_attr_init (kernel w)).2 = k → pthread_create function arg k = (r, pt, k') → r ≠ RET_OK →
  ∃ w', DevPthread_Create m_mutex_Id p function arg mk w = Ret (RET_ERR, w') ∧
    (∀ q f a mk', DevPthread_Create m_mutex_Id q f a mk' w' = Blocked) ∧
    (∀ q, DevPthread_Destroy m_mutex_Id q w' = Blocked) ∧ DevPthread_Report m_mutex_Id w' = Blocked.
Proof.
  intros Hfree Enone Eid Ek Ec Hr. pose proof Hfree as [Hi _].
  destruct (pthread_lock w Hfree) as (m & El & Hstuck).
  assert (∃ n, m_pthread_list w !! Z.to_nat id = Some n ∧ 0 < id) as (n & Hn & Hpos).
  { apply find_some in Eid as [Hin Hp]. apply list_elem_of_In, elem_of_seqZ in Hin.
    destruct (m_pthread_list w !! Z.to_nat id) as [n|]; [|done]. exists n. split; [done|lia]. }
  unfold DevPthread_Create at 1. rewrite Hi, El. change (negb (TRUE =? TRUE)) with false. cbn [mbind outcome_bind].
  change (find_id ?p (set_mutexes w m)) with (find_id p w). rewrite Enone, Eid.
  unfold node_at. change (m_pthread_list (set_mutexes w m)) with (m_pthread_list w).
  rewrite (proj2 (Z.ltb_ge _ _)), Hn by lia. cbn [or_ub mbind outcome_bind].
  change (kernel (set_mutexes w m)) with (kernel w). destruct (pthread_attr_init (kernel w)) as [? k0].
  cbn [snd] in Ek. subst k0. rewrite Ec, (proj2 (Z.eqb_neq _ _) Hr). cbn [negb].
  match goal with |- context [Ret (RET_ERR, ?w1)] => set (w' := w1) end.
  assert (module_stuck w') as Hs by exact Hstuck. exists w'. split; [done|].
  split_and!; intros; unfold DevPthread_Create, DevPthread_Destroy, DevPthread_Report;
    change (init_f w') with (init_f w); rewrite Hi; change (negb (TRUE =? TRUE)) with false; cbn match;
    by rewrite (pthread_lock_stuck w' Hs).
Qed.
End Refused.
