(* ===== verification/DevThreads.v ===== *)
(** * Threads over shared memory

    What the multi-threaded modules of the SDK need: the body of a thread as a tree
    of accesses to shared memory, lock operations, waits and calls of client
    functions; the interleavings of any number of such threads; and a rely-guarantee
    theorem: what every single access of every body keeps, given what the other threads
    may do in between, holds in every interleaving.

    To unlock a lock that the thread does not hold is undefined for POSIX.  The parameter
    [lenient] says that the platform's normal mutexes are then freed, whoever holds them, as
    those of a C library that stores the state of the lock without a look at its owner.  A
    condition variable has a set of waiting threads; waits may also end without a signal. *)
From S2P Require Import Prelude DevTypes.
#[local] Open Scope Z_scope.

(** The set of the locks that are held. *)
Definition acquire (m : Z) (locks : gset Z) : outcome (gset Z) :=
  if bool_decide (m ∈ locks) then Blocked else Ret ({[m]} ∪ locks).
Definition release (lenient : bool) (m : Z) (locks : gset Z) : outcome (gset Z) :=
  if bool_decide (m ∈ locks) || lenient then Ret (locks ∖ {[m]}) else UB.

Lemma acquire_free m : acquire m ∅ = Ret {[m]}.
Proof. unfold acquire. rewrite bool_decide_eq_false_2 by set_solver. by rewrite (right_id_L ∅ (∪)). Qed.
Lemma release_held lenient m : release lenient m {[m]} = Ret ∅.
Proof. unfold release. rewrite bool_decide_eq_true_2 by set_solver. cbn. f_equal. set_solver. Qed.
Lemma release_free m : release true m ∅ = Ret ∅.
Proof. unfold release. rewrite orb_true_r. f_equal. set_solver. Qed.
Lemma release_free_undefined m : release false m ∅ = UB.
Proof. unfold release. by rewrite bool_decide_eq_false_2 by set_solver. Qed.

Section Threads.
(** Shared memory, condition variables, what clients can observe, and the points at
    which the body of a thread starts over. *)
Context {S C E T : Type} `{EqDecision C}.
(** What the platform does when a lock is released that the thread does not hold. *)
Context (lenient : bool).

(** [Read]: one look at the memory; [Write]: one change of it; [Fault]: an access
    outside an array, or a lock released that is not held. *)
Inductive prog : Type :=
  | Done (t : T)
  | Fault
  | Read (k : S → prog)
  | Write (f : S → S) (k : prog)
  | Lock (m : Z) (k : Z → prog)
  | Unlock (m : Z) (k : Z → prog)
  | Wait (c : C) (m : Z) (k : Z → prog)
  | Signal (c : C) (k : Z → prog)
  | Call (e : E) (k : prog).

(** A thread runs, waits for a condition, was woken and waits for the lock, or ended. *)
Inductive thread : Type :=
  | Running (p : prog)
  | Waiting (c : C) (m : Z) (k : Z → prog)
  | Woken (m : Z) (k : Z → prog)
  | Ended.

Record config := mkConfig { shared : S; owner : gmap Z nat; threads : list thread; trace : list (nat * E) }.

(** Where a thread goes on after [Done]. *)
Context (code : T → option prog).

Definition set_thread (c : config) (i : nat) (t : thread) : config :=
  mkConfig (shared c) (owner c) (<[i := t]> (threads c)) (trace c).
Definition set_owner (c : config) (o : gmap Z nat) : config := mkConfig (shared c) o (threads c) (trace c).
Definition set_shared (c : config) (s : S) : config := mkConfig s (owner c) (threads c) (trace c).
Definition log (c : config) (i : nat) (e : E) : config :=
  mkConfig (shared c) (owner c) (threads c) (trace c ++ [(i, e)]).

Definition waits_for (c : C) (t : thread) : bool :=
  match t with Waiting c' _ _ => bool_decide (c = c') | _ => false end.

(** Whether thread [i] may release lock [m]. *)
Definition may_release (i : nat) (m : Z) (c : config) : bool := bool_decide (owner c !! m = Some i) || lenient.

(** One step of thread [i]; [None]: it cannot go on now.  A signal that somebody waits
    for is the step [wake] below. *)
Definition run1 (i : nat) (c : config) : option config :=
  t ← threads c !! i;
  match t with
  | Running (Done t) => Some (set_thread c i (match code t with Some p => Running p | None => Ended end))
  | Running Fault => None
  | Running (Read k) => Some (set_thread c i (Running (k (shared c))))
  | Running (Write f k) => Some (set_thread (set_shared c (f (shared c))) i (Running k))
  | Running (Lock m k) =>
      match owner c !! m with
      | None => Some (set_thread (set_owner c (<[m := i]> (owner c))) i (Running (k RET_OK)))
      | Some _ => None
      end
  | Running (Unlock m k) =>
      Some (if may_release i m c then set_thread (set_owner c (delete m (owner c))) i (Running (k RET_OK))
            else set_thread c i (Running Fault))
  | Running (Wait cv m k) =>
      Some (if may_release i m c then set_thread (set_owner c (delete m (owner c))) i (Waiting cv m k)
            else set_thread c i (Running Fault))
  | Running (Signal cv k) =>
      if existsb (waits_for cv) (threads c) then None else Some (set_thread c i (Running (k RET_OK)))
  | Running (Call e k) => Some (set_thread (log c i e) i (Running k))
  | Woken m k =>
      match owner c !! m with
      | None => Some (set_thread (set_owner c (<[m := i]> (owner c))) i (Running (k RET_OK)))
      | Some _ => None
      end
  | Waiting _ _ _ | Ended => None
  end.

(** The signal of thread [i] wakes thread [j]. *)
Definition wake (i j : nat) (c : config) : option config :=
  match threads c !! i, threads c !! j with
  | Some (Running (Signal cv k)), Some (Waiting cv' m k') =>
      if bool_decide (cv = cv') then Some (set_thread (set_thread c j (Woken m k')) i (Running (k RET_OK))) else None
  | _, _ => None
  end.

(** The wait of thread [j] ends by itself. *)
Definition spurious (j : nat) (c : config) : option config :=
  match threads c !! j with
  | Some (Waiting _ m k) => Some (set_thread c j (Woken m k))
  | _ => None
  end.

Inductive move := Run (i : nat) | Wake (i j : nat) | Spurious (j : nat).
Definition make (mv : move) (c : config) : option config :=
  match mv with Run i => run1 i c | Wake i j => wake i j c | Spurious j => spurious j c end.
Definition schedule (ms : list move) (c : config) : option config :=
  foldl (λ oc mv, oc ≫= make mv) (Some c) ms.

Definition step (c c' : config) : Prop := ∃ mv, make mv c = Some c'.

(** Thread [i] has done what is undefined. *)
Definition faulty (c : config) : Prop := ∃ i : nat, threads c !! i = Some (Running Fault).

Lemma schedule_app ms ms' c : schedule (ms ++ ms') c = schedule ms c ≫= schedule ms'.
Proof.
  unfold schedule. rewrite foldl_app. destruct (foldl _ (Some c) ms) as [c'|]; [done|].
  cbn [mbind option_bind]. by induction ms'.
Qed.

Lemma schedule_reaches ms c c' : schedule ms c = Some c' → rtc step c c'.
Proof.
  revert c. induction ms as [|mv ms IH]; intros c E'; [injection E' as ->; apply rtc_refl|].
  unfold schedule in E'. cbn [foldl mbind option_bind] in E'. destruct (make mv c) as [c1|] eqn:E1.
  - apply rtc_l with c1; [by exists mv|]. by apply IH.
  - exfalso. clear -E'. by induction ms.
Qed.

(** ** Rely and guarantee

    Thread [i] relies on the changes the other threads make being in [rely i]; each of
    its writes keeps [I] and is in what all the others rely on; each of its calls
    satisfies [G]; it starts over only at entries that [A i] allows.  [safe i p s]: so
    it is for [p], the memory having been [s]. *)
Section Rely.
Context (rely : nat → S → S → Prop) (I : S → Prop) (G : E → Prop) (A : nat → T → Prop).
Context `{Hrely : ∀ i, PreOrder (rely i)}.

Fixpoint safe (i : nat) (p : prog) (s : S) : Prop :=
  match p with
  | Done t => A i t
  | Fault => True
  | Read k => ∀ s', rely i s s' → I s' → safe i (k s') s'
  | Write f k => ∀ s', rely i s s' → I s' → I (f s') ∧ (∀ j, j ≠ i → rely j s' (f s')) ∧ safe i k (f s')
  | Lock _ k | Unlock _ k | Wait _ _ k | Signal _ k => ∀ r, safe i (k r) s
  | Call e k => G e ∧ safe i k s
  end.

Definition safe_thread (i : nat) (t : thread) (s : S) : Prop :=
  match t with
  | Running p => safe i p s
  | Waiting _ _ k | Woken _ k => ∀ r, safe i (k r) s
  | Ended => True
  end.

Lemma safe_rely i p s s' : rely i s s' → safe i p s → safe i p s'.
Proof.
  revert s s'. induction p as [t| |k IH|f k IH|m k IH|m k IH|c m k IH|c k IH|e k IH]; intros s s' Hr; cbn [safe]; try done.
  - intros Hp s2 Hr2. apply Hp. by transitivity s'.
  - intros Hp s2 Hr2. apply Hp. by transitivity s'.
  - intros Hp r. by apply (IH r s).
  - intros Hp r. by apply (IH r s).
  - intros Hp r. by apply (IH r s).
  - intros Hp r. by apply (IH r s).
  - intros [? Hp]. split; [done|]. by apply (IH s).
Qed.

Lemma safe_thread_rely i t s s' : rely i s s' → safe_thread i t s → safe_thread i t s'.
Proof. intros Hr. destruct t; cbn; try done; intros Ht; try (intros r; specialize (Ht r)); by eapply safe_rely. Qed.

(** Every entry that is allowed starts a body that is safe. *)
Context (code_safe : ∀ i t p s, A i t → code t = Some p → I s → safe i p s).

Definition config_ok (c : config) : Prop :=
  I (shared c) ∧ (∀ i t, threads c !! i = Some t → safe_thread i t (shared c)) ∧ Forall (λ x, G x.2) (trace c).

Lemma set_thread_ok c i t : config_ok c → safe_thread i t (shared c) → config_ok (set_thread c i t).
Proof.
  intros (? & Hts & ?) Ht. split_and!; [done| |done]. intros j t' Hj. cbn in Hj |- *.
  apply list_lookup_insert_Some in Hj as [(<- & <- & _)|(_ & Hj)]; [done|by apply Hts].
Qed.

(** A write of thread [i]. *)
Lemma write_ok c i f k : config_ok c → threads c !! i = Some (Running (Write f k)) →
  config_ok (set_thread (set_shared c (f (shared c))) i (Running k)).
Proof.
  intros (HI & Hts & HG) Hi. pose proof (Hts _ _ Hi) as Hw. cbn [safe_thread safe] in Hw.
  destruct (Hw (shared c) ltac:(reflexivity) HI) as (HI' & Hguar & Hk). split_and!; [done| |done].
  intros j t Hj. cbn in Hj |- *. apply list_lookup_insert_Some in Hj as [(<- & <- & _)|(Hne & Hj)]; [done|].
  eapply safe_thread_rely; [|by apply Hts]. by apply Hguar.
Qed.

Lemma run1_ok i c c' : config_ok c → run1 i c = Some c' → config_ok c'.
Proof.
  unfold run1. intros Hc. destruct (threads c !! i) as [t|] eqn:Et; [|done]. cbn [mbind option_bind].
  pose proof Hc as (HI & Hts & HG). pose proof (Hts _ _ Et) as Ht.
  destruct t as [[t| |k|f k|m k|m k|cv m k|cv k|e k]|cv m k|m k|]; cbn [safe_thread safe] in Ht; try done.
  - intros [= <-]. apply set_thread_ok; [done|]. destruct (code t) as [p|] eqn:Ep; [|done]. by apply (code_safe i t).
  - intros [= <-]. apply set_thread_ok; [done|]. by apply Ht.
  - intros [= <-]. by apply write_ok.
  - destruct (owner c !! m); [done|]. intros [= <-]. apply set_thread_ok; [done|apply Ht].
  - intros [= <-]. destruct (may_release _ _ _); (apply set_thread_ok; [done|]); [apply Ht|done].
  - intros [= <-]. destruct (may_release _ _ _); (apply set_thread_ok; [done|]); [exact Ht|done].
  - destruct (existsb _ _); [done|]. intros [= <-]. apply set_thread_ok; [done|apply Ht].
  - intros [= <-]. apply set_thread_ok; [|apply Ht]. split_and!; [done..|]. apply Forall_app. split; [done|].
    by apply Forall_singleton, Ht.
  - destruct (owner c !! m); [done|]. intros [= <-]. apply set_thread_ok; [done|apply Ht].
Qed.

Lemma step_ok c c' : config_ok c → step c c' → config_ok c'.
Proof.
  intros Hc [[i|i j|j] E']; cbn [make] in E'; [by eapply run1_ok| |]; pose proof Hc as (_ & Hts & _).
  - unfold wake in E'. destruct (threads c !! i) as [[p| | |]|] eqn:Ei; try done. destruct p as [| | | | | | |cv k|]; try done.
    destruct (threads c !! j) as [[|cv' m k'| |]|] eqn:Ej; try done. destruct (bool_decide (cv = cv')); [|done].
    injection E' as <-. apply set_thread_ok; [apply set_thread_ok; [done|exact (Hts _ _ Ej)]|exact (Hts _ _ Ei RET_OK)].
  - unfold spurious in E'. destruct (threads c !! j) as [[|cv' m k'| |]|] eqn:Ej; try done. injection E' as <-.
    apply set_thread_ok; [done|exact (Hts _ _ Ej)].
Qed.

(** What holds at the start holds in every interleaving. *)
Lemma reachable_ok c c' : config_ok c → rtc step c c' → config_ok c'.
Proof. intros Hc Hr. by apply (rtc_invariant step config_ok step_ok _ _ Hr). Qed.
End Rely.

(** ** One thread at a time

    The effect of a body that no other thread interrupts, with the locks that are held:
    the memory, the locks, what was called, and where it goes on, or [None] when it
    waits for a condition. *)
Fixpoint alone (p : prog) (s : S) (locks : gset Z) (calls : list E) : outcome (S * gset Z * list E * option T) :=
  match p with
  | Done t => Ret (s, locks, calls, Some t)
  | Fault => UB
  | Read k => alone (k s) s locks calls
  | Write f k => alone k (f s) locks calls
  | Lock m k => locks ← acquire m locks; alone (k RET_OK) s locks calls
  | Unlock m k => locks ← release lenient m locks; alone (k RET_OK) s locks calls
  | Signal _ k => alone (k RET_OK) s locks calls
  | Wait _ m _ => locks ← release lenient m locks; Ret (s, locks, calls, None)
  | Call e k => alone k s locks (calls ++ [e])
  end.

(** The end of a schedule, by a test that is computed. *)
Lemma schedule_test ms c (P : config → bool) :
  match schedule ms c with Some c' => P c' | None => false end = true → ∃ c', rtc step c c' ∧ P c' = true.
Proof. destruct (schedule ms c) as [c'|] eqn:E1; [|done]. intros HP. exists c'. split; [by eapply schedule_reaches|done]. Qed.

(** A configuration in which only a wait that ends by itself can happen. *)
Definition at_rest (c : config) : bool :=
  forallb (λ t, match t with Waiting _ _ _ | Ended => true | _ => false end) (threads c).

Lemma at_rest_moves c mv c' : at_rest c = true → make mv c = Some c' → ∃ j, mv = Spurious j.
Proof.
  unfold at_rest. intros Hr Hm.
  assert (∀ i t, threads c !! i = Some t → match t with Waiting _ _ _ | Ended => True | _ => False end) as Hts.
  { intros i t Hi. rewrite forallb_forall in Hr. specialize (Hr t). destruct t; try done;
      by discriminate Hr; apply list_elem_of_In; eapply list_elem_of_lookup_2. }
  destruct mv as [i|i j|j]; [| |by exists j]; exfalso; cbn [make] in Hm.
  - unfold run1 in Hm. destruct (threads c !! i) as [t|] eqn:Ei; [|done]. specialize (Hts i t Ei). by destruct t.
  - unfold wake in Hm. destruct (threads c !! i) as [t|] eqn:Ei; [|done]. specialize (Hts i t Ei). by destruct t.
Qed.
End Threads.
Arguments prog : clear implicits.
Arguments thread : clear implicits.
Arguments config : clear implicits.
