(* ===== verification/DevPthreadPool.v ===== *)
(** * The SDK's thread pool

    Model of [src/mivifwk/odm/plugins/qcom/ldc/device/dev_pthreadPool.cpp]: six worker
    threads take jobs from a queue of 24.  The bodies of the threads are trees of
    accesses to the shared variables ([DevThreads]), one access per node, so that
    whatever can happen in between happens in the model: the module reads and
    writes the same variables with and without their locks.  A job is copied and cleared
    field by field, in the order of its fields, as no lock makes a copy of the
    struct one access.

    The ids of the locks are the values their variables hold between [Init] and
    [Deinit], when [Lock], [Unlock] and [Geter] succeed.  The fields used by the report
    only (names, lines, time stamps) are left out. *)
From S2P Require Import Prelude DevTypes DevMutex DevPthread DevThreads.
#[local] Open Scope Z_scope.

(** @src src/mivifwk/odm/plugins/qcom/ldc/device/dev_pthreadPool.h:17-17 PTHREAD_POOL_MAX_WOKER *)
Definition PTHREAD_POOL_MAX_WOKER : nat := 6.
(** @src src/mivifwk/odm/plugins/qcom/ldc/device/dev_pthreadPool.cpp:21-21 PTHREAD_POOL_MAX_TODO *)
Definition PTHREAD_POOL_MAX_TODO : Z := Z.of_nat PTHREAD_POOL_MAX_WOKER * 4.

(** @src src/mivifwk/odm/plugins/qcom/ldc/device/dev_pthreadPool.cpp:28-30 Enum_WORKER_STATE *)
Inductive Enum_WORKER_STATE :=
  WORKER_STATE_IDLE | WORKER_STATE_READY | WORKER_STATE_RUN | WORKER_STATE_END | WORKER_STATE_FLUSH.
#[export] Instance worker_state_eq_dec : EqDecision Enum_WORKER_STATE.
Proof. solve_decision. Defined.

(** @src src/mivifwk/odm/plugins/qcom/ldc/device/dev_pthreadPool.cpp:32-43 DEV_PTHREADPOOL_NODE *)
Record DEV_PTHREADPOOL_NODE := mkJob { function : Z; arg1 : Z; arg2 : Z; flight : Z; flush : Z }.
#[export] Instance job_eq_dec : EqDecision DEV_PTHREADPOOL_NODE.
Proof. solve_decision. Defined.
Definition zero_job : DEV_PTHREADPOOL_NODE := mkJob NULL 0 0 0 0.

(** The assignments of single fields that make up [to = from], for structs. *)
Definition copiers : list (DEV_PTHREADPOOL_NODE → DEV_PTHREADPOOL_NODE → DEV_PTHREADPOOL_NODE) :=
  [λ from to, mkJob (function from) (arg1 to) (arg2 to) (flight to) (flush to);
   λ from to, mkJob (function to) (arg1 from) (arg2 to) (flight to) (flush to);
   λ from to, mkJob (function to) (arg1 to) (arg2 from) (flight to) (flush to);
   λ from to, mkJob (function to) (arg1 to) (arg2 to) (flight from) (flush to);
   λ from to, mkJob (function to) (arg1 to) (arg2 to) (flight to) (flush from)].

(** @src src/mivifwk/odm/plugins/qcom/ldc/device/dev_pthreadPool.cpp:48-55 DEV_PTHREADPOOL_WORKER
    The variables [mutex_Id] and [m_pthread_Id] are cells of the callers' variables. *)
Record DEV_PTHREADPOOL_WORKER := mkWorker { state : Enum_WORKER_STATE; pthreadPool_node : DEV_PTHREADPOOL_NODE }.
Definition zero_worker : DEV_PTHREADPOOL_WORKER := mkWorker WORKER_STATE_IDLE zero_job.
#[export] Instance worker_eq_dec : EqDecision DEV_PTHREADPOOL_WORKER.
Proof. solve_decision. Defined.

(** @src src/mivifwk/odm/plugins/qcom/ldc/device/dev_pthreadPool.cpp:45-57 the static variables *)
Record pool := mkPool {
  init_f : Z;
  m_pthreadPool_list : list DEV_PTHREADPOOL_NODE;
  m_pthreadPool_counter : Z;
  m_pthreadPool_workerList : list DEV_PTHREADPOOL_WORKER;
}.
#[export] Instance pool_eq_dec : EqDecision pool.
Proof. solve_decision. Defined.

Definition set_list (l : list DEV_PTHREADPOOL_NODE) (s : pool) : pool :=
  mkPool (init_f s) l (m_pthreadPool_counter s) (m_pthreadPool_workerList s).
Definition set_counter (n : Z) (s : pool) : pool :=
  mkPool (init_f s) (m_pthreadPool_list s) n (m_pthreadPool_workerList s).
Definition set_workers (l : list DEV_PTHREADPOOL_WORKER) (s : pool) : pool :=
  mkPool (init_f s) (m_pthreadPool_list s) (m_pthreadPool_counter s) l.
Definition set_worker (i : nat) (w : DEV_PTHREADPOOL_WORKER) (s : pool) : pool :=
  set_workers (<[i := w]> (m_pthreadPool_workerList s)) s.
Definition on_worker (i : nat) (f : DEV_PTHREADPOOL_WORKER → DEV_PTHREADPOOL_WORKER) (s : pool) : pool :=
  set_workers (alter f i (m_pthreadPool_workerList s)) s.

Definition with_state (x : Enum_WORKER_STATE) (w : DEV_PTHREADPOOL_WORKER) : DEV_PTHREADPOOL_WORKER :=
  mkWorker x (pthreadPool_node w).
Definition with_job (j : DEV_PTHREADPOOL_NODE) (w : DEV_PTHREADPOOL_WORKER) : DEV_PTHREADPOOL_WORKER :=
  mkWorker (state w) j.
Definition with_flight (x : Z) (w : DEV_PTHREADPOOL_WORKER) : DEV_PTHREADPOOL_WORKER :=
  let j := pthreadPool_node w in with_job (mkJob (function j) (arg1 j) (arg2 j) x (flush j)) w.
(** A change of the job of worker [i], and of the [i]-th place of the queue. *)
Definition on_own (i : nat) (f : DEV_PTHREADPOOL_NODE → DEV_PTHREADPOOL_NODE) : pool → pool :=
  on_worker i (λ w, with_job (f (pthreadPool_node w)) w).
Definition on_job (i : nat) (f : DEV_PTHREADPOOL_NODE → DEV_PTHREADPOOL_NODE) (s : pool) : pool :=
  set_list (alter f i (m_pthreadPool_list s)) s.
Definition with_flush (x : Z) (w : DEV_PTHREADPOOL_WORKER) : DEV_PTHREADPOOL_WORKER :=
  let j := pthreadPool_node w in with_job (mkJob (function j) (arg1 j) (arg2 j) (flight j) x) w.

(** The condition variables. *)
Inductive cond := mCondNotFull | mCondNotEmpty (i : nat).
#[export] Instance cond_eq_dec : EqDecision cond.
Proof. solve_decision. Defined.

(** What can be observed: a client's function runs; a call of a client returns. *)
Inductive event := Ran (f a1 a2 : Z) | Returned (ret : Z).
#[export] Instance event_eq_dec : EqDecision event.
Proof. solve_decision. Defined.

Inductive request := RPost (f a1 a2 : Z) | RFlush | RReport.

(** Where the body of a thread starts over: a worker at the top of its loop, or at the
    test of the inner loop with its lock held; a client with the calls it has left. *)
Inductive entry := Loop (i : nat) | Recheck (i : nat) | Client (rs : list request) | Stop.

Abbreviation prog := (DevThreads.prog pool cond event entry).

(** ** Accesses *)

Definition read_worker (i : nat) (k : DEV_PTHREADPOOL_WORKER → prog) : prog :=
  Read (λ s, match m_pthreadPool_workerList s !! i with Some w => k w | None => Fault end).
Definition write_worker (i : nat) (f : DEV_PTHREADPOOL_WORKER → DEV_PTHREADPOOL_WORKER) (k : prog) : prog :=
  Write (on_worker i f) k.
(** [m_pthreadPool_list[i]]: a look at one of its fields. *)
Definition read_field (i : nat) (k : DEV_PTHREADPOOL_NODE → prog) : prog :=
  Read (λ s, match m_pthreadPool_list s !! i with Some j => k j | None => Fault end).
(** @src src/mivifwk/odm/plugins/qcom/ldc/device/dev_pthreadPool.cpp:110-110 DevPthreadPool_Worker (the copy to a local variable) *)
Definition read_job (i : Z) (k : DEV_PTHREADPOOL_NODE → prog) : prog :=
  if i <? 0 then Fault
  else
    let n := Z.to_nat i in
    read_field n (λ j1, read_field n (λ j2, read_field n (λ j3, read_field n (λ j4, read_field n (λ j5,
    k (mkJob (function j1) (arg1 j2) (arg2 j3) (flight j4) (flush j5))))))).
(** A job stored field by field in a place given by [put]. *)
Definition write_fields (put : (DEV_PTHREADPOOL_NODE → DEV_PTHREADPOOL_NODE) → pool → pool)
    (j : DEV_PTHREADPOOL_NODE) (k : prog) : prog :=
  foldr (λ c k, Write (put (c j)) k) k copiers.
Definition in_queue (i : Z) : bool := (0 <=? i) && (i <? PTHREAD_POOL_MAX_TODO).
(** @src src/mivifwk/odm/plugins/qcom/ldc/device/dev_pthreadPool.cpp:206-206 DevPthreadPool_Post (the copy into the queue) *)
Definition write_job (i : Z) (j : DEV_PTHREADPOOL_NODE) (k : prog) : prog :=
  if in_queue i then write_fields (on_job (Z.to_nat i)) j k else Fault.
(** @src src/mivifwk/odm/plugins/qcom/ldc/device/dev_pthreadPool.cpp:120-120 DevPthreadPool_Worker (one place moved down) *)
Definition copy_job (i : Z) (k : prog) : prog :=
  if in_queue i
  then foldr (λ c k, read_field (Z.to_nat (i + 1)) (λ j, Write (on_job (Z.to_nat i) (c j)) k)) k copiers
  else Fault.
Definition read_counter (k : Z → prog) : prog := Read (λ s, k (m_pthreadPool_counter s)).
(** [m_pthreadPool_counter--], and the test for negative values that follows it. *)
Definition decrement (k : prog) : prog :=
  read_counter (λ n, Write (set_counter (n - 1))
    (read_counter (λ n, if n <=? 0 then Write (set_counter 0) k else k))).

Section Programs.
(** The ids of the locks. *)
Context (m_mutex_Id : Z) (mutex_Id : nat → Z).

(** ** The worker *)

(** @src src/mivifwk/odm/plugins/qcom/ldc/device/dev_pthreadPool.cpp:174-181 DevPthreadPool_Worker (exit) *)
Definition worker_exit (i : nat) : prog := Unlock m_mutex_Id (λ _, Unlock (mutex_Id i) (λ _, Done Stop)).

(** @src src/mivifwk/odm/plugins/qcom/ldc/device/dev_pthreadPool.cpp:119-121 DevPthreadPool_Worker (shift)
    The places of the queue moved down by one. *)
Fixpoint shift_jobs (fuel : nat) (i : Z) (k : prog) : prog :=
  match fuel with
  | O => Fault
  | Datatypes.S fuel' =>
      read_counter (λ n,
        if i <? n - 1 then copy_job i (shift_jobs fuel' (i + 1) k) else k)
  end.

(** @src src/mivifwk/odm/plugins/qcom/ldc/device/dev_pthreadPool.cpp:152-173 DevPthreadPool_Worker (end of a round) *)
Definition worker_done (i : nat) (ret : Z) : prog :=
  Lock (mutex_Id i) (λ r, let ret := Z.lor ret r in
  write_worker i (with_flight 0) (write_worker i (with_state WORKER_STATE_END) (
  Unlock (mutex_Id i) (λ r, let ret := Z.lor ret r in
  Signal mCondNotFull (λ r, let ret := Z.lor ret r in
  if negb (ret =? RET_OK) then worker_exit i else Done (Loop i)))))).

(** @src src/mivifwk/odm/plugins/qcom/ldc/device/dev_pthreadPool.cpp:127-151 DevPthreadPool_Worker (the call)
    The job is read from the worker's entry again and again, without its lock. *)
Definition worker_call (i : nat) (ret : Z) : prog :=
  Lock (mutex_Id i) (λ r, write_worker i (with_flight 1) (
  Unlock (mutex_Id i) (λ ret,
  if negb (ret =? RET_OK) then Done Stop
  else
    read_worker i (λ w,
      if negb (function (pthreadPool_node w) =? NULL) then
        read_worker i (λ w,
          if bool_decide (state w = WORKER_STATE_FLUSH) then worker_done i ret
          else
            read_worker i (λ w1, read_worker i (λ w2, read_worker i (λ w3,
            Call (Ran (function (pthreadPool_node w1)) (arg1 (pthreadPool_node w2)) (arg2 (pthreadPool_node w3)))
              (worker_done i ret)))))
      else worker_done i ret)))).

(** @src src/mivifwk/odm/plugins/qcom/ldc/device/dev_pthreadPool.cpp:118-126 DevPthreadPool_Worker (removal) *)
Definition worker_remove (i : nat) (ret : Z) : prog :=
  Lock m_mutex_Id (λ r, let ret := Z.lor ret r in
  shift_jobs 25 0 (decrement (
  Unlock m_mutex_Id (λ r, worker_call i (Z.lor ret r))))).

(** @src src/mivifwk/odm/plugins/qcom/ldc/device/dev_pthreadPool.cpp:100-116 DevPthreadPool_Worker (the copy) *)
Definition worker_take (i : nat) (ret : Z) : prog :=
  let copy :=
    Unlock (mutex_Id i) (λ r, let ret := Z.lor ret r in
    Lock m_mutex_Id (λ r, let ret := Z.lor ret r in
    read_counter (λ n,
      let rest :=
        read_job 0 (λ j,
        Unlock m_mutex_Id (λ _,
        Lock (mutex_Id i) (λ ret,
        write_fields (on_own i) zero_job (write_fields (on_own i) j (
        Unlock (mutex_Id i) (λ r, worker_remove i (Z.lor ret r))))))) in
      if n =? 0 then write_worker i (with_state WORKER_STATE_FLUSH) rest else rest))) in
  read_worker i (λ w,
    if bool_decide (state w = WORKER_STATE_FLUSH) then copy
    else write_worker i (with_state WORKER_STATE_RUN) copy).

(** @src src/mivifwk/odm/plugins/qcom/ldc/device/dev_pthreadPool.cpp:90-99 DevPthreadPool_Worker (the wait) *)
Definition worker_while (i : nat) (ret : Z) : prog :=
  read_counter (λ n,
    if n =? 0 then
      write_worker i (with_state WORKER_STATE_IDLE) (
      Wait (mCondNotEmpty i) (mutex_Id i) (λ ret,
      if negb (ret =? RET_OK) then worker_exit i
      else Read (λ s, if negb (init_f s =? TRUE) then worker_exit i else Done (Recheck i))))
    else worker_take i ret).

(** @src src/mivifwk/odm/plugins/qcom/ldc/device/dev_pthreadPool.cpp:79-89 DevPthreadPool_Worker (top) *)
Definition worker_top (i : nat) : prog :=
  Read (λ s,
    if negb (init_f s =? TRUE) then Done Stop
    else Lock (mutex_Id i) (λ ret, if negb (ret =? RET_OK) then worker_exit i else worker_while i ret)).

(** ** The clients *)

(** @src src/mivifwk/odm/plugins/qcom/ldc/device/dev_pthreadPool.cpp:221-222 DevPthreadPool_Post (exit) *)
Definition post_exit (ret : Z) (k : Z → prog) : prog := Unlock m_mutex_Id (λ r, k (Z.lor ret r)).

(** @src src/mivifwk/odm/plugins/qcom/ldc/device/dev_pthreadPool.cpp:210-220 DevPthreadPool_Post (the wake-up)
    The loop over the workers that are left. *)
Fixpoint post_wake (ids : list nat) (ret : Z) (k : Z → prog) : prog :=
  match ids with
  | [] => post_exit ret k
  | i :: ids' =>
      read_worker i (λ w,
        if bool_decide (state w = WORKER_STATE_IDLE) then
          Lock (mutex_Id i) (λ ret,
          if negb (ret =? RET_OK) then k RET_ERR
          else
            write_worker i (with_state WORKER_STATE_READY) (
            Unlock (mutex_Id i) (λ ret,
            if negb (ret =? RET_OK) then k RET_ERR
            else Signal (mCondNotEmpty i) (λ ret, post_exit ret k))))
        else post_wake ids' ret k)
  end.

(** @src src/mivifwk/odm/plugins/qcom/ldc/device/dev_pthreadPool.cpp:206-208 DevPthreadPool_Post (the queue) *)
Definition post_store (j : DEV_PTHREADPOOL_NODE) (ret : Z) (k : Z → prog) : prog :=
  read_counter (λ n, write_job n j (
  read_counter (λ n, Write (set_counter (n + 1)) (
  Unlock m_mutex_Id (λ _, post_wake (seq 0 PTHREAD_POOL_MAX_WOKER) ret k))))).

(** @src src/mivifwk/odm/plugins/qcom/ldc/device/dev_pthreadPool.cpp:184-223 DevPthreadPool_Post
    [k] goes on with the result.  The successful path unlocks [m_mutex_Id] twice. *)
Definition DevPthreadPool_Post (f a1 a2 : Z) (k : Z → prog) : prog :=
  Read (λ s,
    if negb (init_f s =? TRUE) then k RET_ERR
    else if f =? NULL then k RET_ERR
    else
      Lock m_mutex_Id (λ ret,
      if negb (ret =? RET_OK) then k ret
      else
        let j := mkJob f a1 a2 0 0 in
        read_counter (λ n,
          if PTHREAD_POOL_MAX_TODO <=? n then
            Wait mCondNotFull m_mutex_Id (λ ret,
            if negb (ret =? RET_OK) then post_exit ret k
            else read_counter (λ n,
                   if PTHREAD_POOL_MAX_TODO <=? n then post_exit ret k else post_store j ret k))
          else post_store j ret k))).

(** The two loops of [Report] over the workers, without their log lines. *)
Fixpoint visit_workers (ids : list nat) (k : prog) : prog :=
  match ids with
  | [] => k
  | i :: ids' => Lock (mutex_Id i) (λ _, read_worker i (λ _, Unlock (mutex_Id i) (λ _, visit_workers ids' k)))
  end.

(** @src src/mivifwk/odm/plugins/qcom/ldc/device/dev_pthreadPool.cpp:225-283 DevPthreadPool_Report *)
Definition DevPthreadPool_Report (k : Z → prog) : prog :=
  Read (λ s,
    if negb (init_f s =? TRUE) then k RET_ERR
    else
      Lock m_mutex_Id (λ _, Unlock m_mutex_Id (λ _,
      visit_workers (seq 0 PTHREAD_POOL_MAX_WOKER) (visit_workers (seq 0 PTHREAD_POOL_MAX_WOKER) (k RET_OK))))).

(** @src src/mivifwk/odm/plugins/qcom/ldc/device/dev_pthreadPool.cpp:292-312 DevPthreadPool_Flush (the queue)
    The jobs [n - 1 .. 0] cleared. *)
Fixpoint flush_jobs (n : nat) (k : prog) : prog :=
  match n with
  | O => k
  | Datatypes.S n' => write_job (Z.of_nat n') zero_job (decrement (flush_jobs n' k))
  end.

(** @src src/mivifwk/odm/plugins/qcom/ldc/device/dev_pthreadPool.cpp:316-339 DevPthreadPool_Flush (the workers) *)
Fixpoint flush_workers (ids : list nat) (ret : Z) (k : Z → prog) : prog :=
  match ids with
  | [] => k ret
  | i :: ids' =>
      Lock (mutex_Id i) (λ _,
      read_worker i (λ w,
        if negb (bool_decide (state w = WORKER_STATE_IDLE)) && negb (bool_decide (state w = WORKER_STATE_FLUSH)) then
          write_worker i (with_flush 1) (write_worker i (with_state WORKER_STATE_FLUSH) (
          Signal (mCondNotEmpty i) (λ ret, Unlock (mutex_Id i) (λ _, flush_workers ids' ret k))))
        else Unlock (mutex_Id i) (λ _, flush_workers ids' ret k)))
  end.

(** @src src/mivifwk/odm/plugins/qcom/ldc/device/dev_pthreadPool.cpp:285-344 DevPthreadPool_Flush *)
Definition DevPthreadPool_Flush (k : Z → prog) : prog :=
  Read (λ s,
    if negb (init_f s =? TRUE) then k RET_ERR
    else
      Lock m_mutex_Id (λ _,
      read_counter (λ flushCounter,
      flush_jobs (Z.to_nat flushCounter) (
      Unlock m_mutex_Id (λ _, flush_workers (seq 0 PTHREAD_POOL_MAX_WOKER) RET_OK k))))).

Definition serve (r : request) (k : Z → prog) : prog :=
  match r with
  | RPost f a1 a2 => DevPthreadPool_Post f a1 a2 k
  | RFlush => DevPthreadPool_Flush k
  | RReport => DevPthreadPool_Report k
  end.

Definition code (e : entry) : option prog :=
  match e with
  | Loop i => Some (worker_top i)
  | Recheck i => Some (worker_while i RET_OK)
  | Client [] => None
  | Client (r :: rs) => Some (serve r (λ ret, Call (Returned ret) (Done (Client rs))))
  | Stop => None
  end.
End Programs.

(** ** Init and Deinit

    The locks and threads are made with the modules [DevMutex] and [DevPthread]; a
    condition variable is known by the results of the calls on it. *)

Record world (M K : Type) := mkWorld { sys : DevPthread.world M K; variables : pool }.
Arguments mkWorld {_ _} _ _.
Arguments sys {_ _} _.
Arguments variables {_ _} _.

Section Lifecycle.
Context `{MutexLib M} `{Kernel K}.
(** The address of the lock variable of [DevPthread]; of this module's variables
    [m_mutex_Id], [mutex_Id] and [m_pthread_Id] of each worker, and [index]; the worker's body. *)
Context (p_pthread p_mutex : Z) (p_worker_mutex p_worker_pthread p_worker_index : nat → Z) (DevPthreadPool_Worker : Z).
Context (pthread_cond_init pthread_cond_broadcast pthread_cond_destroy : cond → Z).
Context (mk : mark).

Abbreviation world := (world M K).

Definition set_sys (w : world) (y : DevPthread.world M K) : world := mkWorld y (variables w).
Definition set_pool (w : world) (s : pool) : world := mkWorld (sys w) s.
Definition set_cells (w : world) (c : cells) : world := set_sys w (DevPthread.set_vars (sys w) c).

Definition mutex_Create (p : Z) (w : world) : outcome (Z * world) :=
  '(ret, (m, c)) ← mx_Create p mk (DevPthread.mutexes (sys w), DevPthread.vars (sys w));
  Ret (ret, set_sys w (DevPthread.set_vars (DevPthread.set_mutexes (sys w) m) c)).
Definition mutex_Destroy (p : Z) (w : world) : outcome (Z * world) :=
  '(ret, (m, c)) ← mx_Destroy p (DevPthread.mutexes (sys w), DevPthread.vars (sys w));
  Ret (ret, set_sys w (DevPthread.set_vars (DevPthread.set_mutexes (sys w) m) c)).
(** [Lock] and [Unlock] of the lock in the variable at [p]. *)
Definition pass_mutex (p : Z) (w : world) : outcome world :=
  id ← load (DevPthread.vars (sys w)) p;
  '(_, m) ← mx_Lock id (DevPthread.mutexes (sys w));
  '(_, m) ← mx_Unlock id m;
  Ret (set_sys w (DevPthread.set_mutexes (sys w) m)).

(** [memset] of the workers' entries. *)
Fixpoint clear_workers (ids : list nat) (c : cells) : outcome cells :=
  match ids with
  | [] => Ret c
  | i :: ids' =>
      c ← store c (p_worker_mutex i) 0; c ← store c (p_worker_pthread i) 0; clear_workers ids' c
  end.

(** @src src/mivifwk/odm/plugins/qcom/ldc/device/dev_pthreadPool.cpp:353-358 DevPthreadPool_Init (locks)
    The loop stops at the first failure. *)
Fixpoint init_workers (ids : list nat) (ret : Z) (w : world) : outcome (Z * world) :=
  match ids with
  | [] => Ret (ret, w)
  | i :: ids' =>
      let ret := Z.lor ret (pthread_cond_init (mCondNotEmpty i)) in
      '(r, w) ← mutex_Create (p_worker_mutex i) w;
      let ret := Z.lor ret r in
      if negb (ret =? RET_OK) then Ret (ret, w) else init_workers ids' ret w
  end.

(** @src src/mivifwk/odm/plugins/qcom/ldc/device/dev_pthreadPool.cpp:364-367 DevPthreadPool_Init (threads) *)
Fixpoint start_workers (ids : list nat) (ret : Z) (w : world) : outcome (Z * world) :=
  match ids with
  | [] => Ret (ret, w)
  | i :: ids' =>
      '(r, y) ← DevPthread_Create p_pthread (p_worker_pthread i) DevPthreadPool_Worker (p_worker_index i) mk (sys w);
      start_workers ids' (Z.lor ret r) (set_sys w y)
  end.

(** @src src/mivifwk/odm/plugins/qcom/ldc/device/dev_pthreadPool.cpp:346-374 DevPthreadPool_Init *)
Definition DevPthreadPool_Init (w : world) : outcome (Z * world) :=
  if init_f (variables w) =? TRUE then Ret (RET_OK, w)
  else
    c ← clear_workers (seq 0 PTHREAD_POOL_MAX_WOKER) (DevPthread.vars (sys w));
    let w := set_pool (set_cells w c) (set_workers (replicate PTHREAD_POOL_MAX_WOKER zero_worker) (variables w)) in
    '(ret, w) ← mutex_Create p_mutex w;
    if negb (ret =? RET_OK) then Ret (RET_ERR, w)
    else
      '(ret, w) ← init_workers (seq 0 PTHREAD_POOL_MAX_WOKER) ret w;
      if negb (ret =? RET_OK) then Ret (RET_ERR, w)
      else
        let ret := Z.lor ret (pthread_cond_init mCondNotFull) in
        if negb (ret =? RET_OK) then Ret (RET_ERR, w)
        else
          let s f := mkPool f (replicate (Z.to_nat PTHREAD_POOL_MAX_TODO) zero_job) 0 (m_pthreadPool_workerList (variables w)) in
          '(ret, w) ← start_workers (seq 0 PTHREAD_POOL_MAX_WOKER) ret (set_pool w (s TRUE));
          if negb (ret =? RET_OK) then Ret (RET_ERR, set_pool w (s FALSE)) else Ret (ret, w).

(** @src src/mivifwk/odm/plugins/qcom/ldc/device/dev_pthreadPool.cpp:395-398 DevPthreadPool_Deinit (threads) *)
Fixpoint join_workers (ids : list nat) (ret : Z) (w : world) : outcome (Z * world) :=
  match ids with
  | [] => Ret (ret, w)
  | i :: ids' =>
      id ← load (DevPthread.vars (sys w)) (p_worker_pthread i);
      '(r1, y) ← DevPthread_Join id (sys w);
      '(r2, y) ← DevPthread_Destroy p_pthread (p_worker_pthread i) y;
      join_workers ids' (Z.lor (Z.lor ret r1) r2) (set_sys w y)
  end.

(** @src src/mivifwk/odm/plugins/qcom/ldc/device/dev_pthreadPool.cpp:399-402 DevPthreadPool_Deinit (locks) *)
Fixpoint destroy_workers (ids : list nat) (ret : Z) (w : world) : outcome (Z * world) :=
  match ids with
  | [] => Ret (ret, w)
  | i :: ids' =>
      '(r, w) ← mutex_Destroy (p_worker_mutex i) w;
      destroy_workers ids' (Z.lor (Z.lor ret (pthread_cond_destroy (mCondNotEmpty i))) r) w
  end.

(** The locks [Report] passes. *)
Fixpoint pass_all (ps : list Z) (w : world) : outcome world :=
  match ps with [] => Ret w | p :: ps' => w ← pass_mutex p w; pass_all ps' w end.

(** @src src/mivifwk/odm/plugins/qcom/ldc/device/dev_pthreadPool.cpp:376-408 DevPthreadPool_Deinit *)
Definition DevPthreadPool_Deinit (w : world) : outcome (Z * world) :=
  if negb (init_f (variables w) =? TRUE) then Ret (RET_OK, w)
  else
    let busy := existsb (λ x, negb (bool_decide (state x = WORKER_STATE_IDLE))) (m_pthreadPool_workerList (variables w)) in
    let ids := seq 0 PTHREAD_POOL_MAX_WOKER in
    w ← (if (0 <? m_pthreadPool_counter (variables w)) || busy
         then pass_all (p_mutex :: (p_worker_mutex <$> ids) ++ (p_worker_mutex <$> ids)) w else Ret w);
    let s := variables w in
    let w := set_pool w (mkPool FALSE (m_pthreadPool_list s) (m_pthreadPool_counter s) (m_pthreadPool_workerList s)) in
    let ret := foldl (λ ret i, Z.lor ret (pthread_cond_broadcast (mCondNotEmpty i))) RET_OK ids in
    let ret := Z.lor ret (pthread_cond_broadcast mCondNotFull) in
    '(ret, w) ← join_workers ids ret w;
    '(ret, w) ← destroy_workers ids ret w;
    let ret := Z.lor ret (pthread_cond_destroy mCondNotFull) in
    '(r, w) ← mutex_Destroy p_mutex w;
    let ret := Z.lor ret r in
    let w := set_pool w (set_list (replicate (Z.to_nat PTHREAD_POOL_MAX_TODO) zero_job) (variables w)) in
    Ret (if negb (ret =? RET_OK) then RET_ERR else ret, w).
End Lifecycle.
