(* ===== verification/DevPthreadPoolSpec.v ===== *)
(** * What the thread pool promises

    In every interleaving the function a worker calls was posted, and so was each of the
    arguments, but not always in the same call of [Post]: the jobs are copied field by
    field, and the locks do not keep a copy in one piece.  Schedules for that and for the
    other ways the pool fails are at the end. *)
From S2P Require Import Prelude DevTypes DevThreads DevPthreadPool.
#[local] Open Scope Z_scope.

Definition job : Type := Z * Z * Z.
Definition job_of (j : DEV_PTHREADPOOL_NODE) : job := (function j, arg1 j, arg2 j).

(** ** Every interleaving *)

Section Posted.
Context (m_mutex_Id : Z) (mutex_Id : nat → Z).
(** The jobs that clients post. *)
Context (J : list job).

(** Each field is that of some posted job, or cleared. *)
Definition posted (j : DEV_PTHREADPOOL_NODE) : Prop :=
  (function j = NULL ∨ ∃ a1 a2, (function j, a1, a2) ∈ J) ∧
  (arg1 j = 0 ∨ ∃ f a2, (f, arg1 j, a2) ∈ J) ∧ (arg2 j = 0 ∨ ∃ f a1, (f, a1, arg2 j) ∈ J).
Definition pool_ok (s : pool) : Prop :=
  Forall posted (m_pthreadPool_list s) ∧ Forall (λ w, posted (pthreadPool_node w)) (m_pthreadPool_workerList s).
(** Worker [i] relies on its own job: only the worker itself replaces it. *)
Definition own_job (i : nat) (s : pool) : option job := (λ w, job_of (pthreadPool_node w)) <$> m_pthreadPool_workerList s !! i.
Definition pool_rely (i : nat) (s s' : pool) : Prop := own_job i s = own_job i s'.
Definition event_ok (e : event) : Prop :=
  match e with Ran f a1 a2 => f ≠ NULL ∧ posted (mkJob f a1 a2 0 0) | Returned _ => True end.
Definition request_ok (r : request) : Prop := match r with RPost f a1 a2 => (f, a1, a2) ∈ J | _ => True end.
Definition entry_ok (i : nat) (t : entry) : Prop :=
  match t with Loop k | Recheck k => k = i | Client rs => Forall request_ok rs | Stop => True end.

#[export] Instance pool_rely_preorder i : PreOrder (pool_rely i).
Proof. split; [by intros s|]. unfold pool_rely. intros s1 s2 s3. congruence. Qed.

Abbreviation safe := (DevThreads.safe pool_rely pool_ok event_ok entry_ok).
(** Safe whatever the memory. *)
Definition always (i : nat) (p : prog) : Prop := ∀ s, safe i p s.

(** *** Single accesses *)

Lemma read_worker_safe i k kk s : (∀ w s', pool_rely i s s' → m_pthreadPool_workerList s' !! k = Some w → posted (pthreadPool_node w) → safe i (kk w) s') →
  safe i (read_worker k kk) s.
Proof.
  intros Hk s' Hr [_ Hw]. destruct (m_pthreadPool_workerList s' !! k) as [w|] eqn:E; [|done].
  rewrite Forall_lookup in Hw. by apply Hk; [| |by apply (Hw k)].
Qed.

Lemma on_worker_lookup k f s j : m_pthreadPool_workerList (on_worker k f s) !! j
  = if decide (j = k) then f <$> m_pthreadPool_workerList s !! j else m_pthreadPool_workerList s !! j.
Proof. cbn. destruct (decide (j = k)) as [->|Hne]; [apply list_lookup_alter_eq|by apply list_lookup_alter_ne]. Qed.

(** A write to worker [k], which thread [i] may make when it keeps the job or is that worker. *)
Lemma write_worker_safe i k f p : (∀ w, posted (pthreadPool_node w) → posted (pthreadPool_node (f w))) →
  (i = k ∨ ∀ w, job_of (pthreadPool_node (f w)) = job_of (pthreadPool_node w)) → always i p → always i (write_worker k f p).
Proof.
  intros Hf Hown Hp s s' _ [Hl Hw]. split; [|split; [|apply Hp]].
  - split; [done|]. apply Forall_lookup. intros j w Hj. rewrite on_worker_lookup in Hj. rewrite Forall_lookup in Hw.
    destruct (decide (j = k)) as [->|]; [|by apply (Hw j)].
    apply fmap_Some in Hj as (w0 & Hj & ->). by apply Hf, (Hw k).
  - intros j Hne. unfold pool_rely, own_job. rewrite on_worker_lookup. destruct (decide (j = k)) as [->|]; [|done].
    destruct Hown as [->|Hown]; [done|]. destruct (_ !! k) as [w|]; cbn; [by rewrite Hown|done].
Qed.

Lemma same_job_safe i k f p : (∀ w, job_of (pthreadPool_node (f w)) = job_of (pthreadPool_node w)) → always i p →
  always i (write_worker k f p).
Proof.
  intros Hf. apply write_worker_safe; [|by right]. intros w. unfold posted. specialize (Hf w).
  unfold job_of in Hf. by injection Hf as -> -> ->.
Qed.

Lemma zero_posted : posted zero_job.
Proof. split_and!; by left. Qed.

Lemma job_posted f a1 a2 : (f, a1, a2) ∈ J → posted (mkJob f a1 a2 0 0).
Proof. intros Hj. split_and!; right; cbn; eauto. Qed.

Lemma fault_safe i : always i Fault.
Proof. by intros s. Qed.

Lemma copiers_posted : Forall (λ c, ∀ j w, posted j → posted w → posted (c j w)) copiers.
Proof. repeat apply Forall_cons_2; [..|apply Forall_nil_2]; intros j w (? & ? & ?) (? & ? & ?); split_and!; assumption. Qed.

(** Every field that is copied keeps the place one of posted fields. *)
Lemma write_fields_safe i put j p : posted j →
  (∀ f, (∀ w, posted w → posted (f w)) → ∀ p, always i p → always i (Write (put f) p)) →
  always i p → always i (write_fields put j p).
Proof.
  intros Hj Hput Hp. unfold write_fields. induction copiers_posted as [|c cs Hc _ IH]; cbn [foldr]; [done|].
  apply Hput; [|done]. intros w Hw. by apply Hc.
Qed.

Lemma on_job_safe i n f p : (∀ j, posted j → posted (f j)) → always i p → always i (Write (on_job n f) p).
Proof.
  intros Hf Hp s s' _ [Hl Hw]. split; [|split; [|apply Hp]].
  - split; [|done]. cbn. apply Forall_alter; [done|]. intros j _. apply Hf.
  - by intros.
Qed.

Lemma on_own_safe i f p : (∀ j, posted j → posted (f j)) → always i p → always i (Write (on_own i f) p).
Proof. intros Hf Hp. apply (write_worker_safe i i); [intros w; apply Hf|by left|done]. Qed.

Lemma write_job_safe i n j p : posted j → always i p → always i (write_job n j p).
Proof.
  intros Hj Hp. unfold write_job. destruct (in_queue n); [|apply fault_safe]. apply write_fields_safe; [done| |done].
  intros. by apply on_job_safe.
Qed.

Lemma write_own_safe i j p : posted j → always i p → always i (write_fields (on_own i) j p).
Proof. intros Hj Hp. apply write_fields_safe; [done| |done]. intros. by apply on_own_safe. Qed.

Lemma read_field_safe i n k : (∀ j, posted j → always i (k j)) → always i (read_field n k).
Proof.
  intros Hk s s' _ [Hl _]. rewrite Forall_lookup in Hl.
  destruct (m_pthreadPool_list s' !! n) as [j|] eqn:E; [|done]. apply Hk. by eapply Hl.
Qed.

Lemma read_job_safe i n k : (∀ j, posted j → always i (k j)) → always i (read_job n k).
Proof.
  intros Hk. unfold read_job. destruct (n <? 0); [apply fault_safe|]. cbv zeta. do 5 (apply read_field_safe; intros ? (? & ? & ?)).
  apply Hk. split_and!; assumption.
Qed.

Lemma copy_job_safe i n p : always i p → always i (copy_job n p).
Proof.
  intros Hp. unfold copy_job. destruct (in_queue n); [|apply fault_safe].
  induction copiers_posted as [|c cs Hc _ IH]; cbn [foldr]; [done|]. apply read_field_safe. intros j Hj.
  apply on_job_safe; [|done]. intros w. by apply Hc.
Qed.

Lemma read_counter_safe i k : (∀ n, always i (k n)) → always i (read_counter k).
Proof. intros Hk s s' _ _. apply Hk. Qed.

Lemma set_counter_safe i n p : always i p → always i (Write (set_counter n) p).
Proof. intros Hp s s' _ Hs. split; [done|]. split; [by intros|apply Hp]. Qed.

Lemma decrement_safe i p : always i p → always i (decrement p).
Proof.
  intros Hp. apply read_counter_safe. intros n. apply set_counter_safe, read_counter_safe. intros n'.
  destruct (n' <=? 0); [by apply set_counter_safe|done].
Qed.

Lemma lock_safe i m k : (∀ r, always i (k r)) → always i (Lock m k).
Proof. intros Hk s r. apply Hk. Qed.
Lemma unlock_safe i m k : (∀ r, always i (k r)) → always i (Unlock m k).
Proof. intros Hk s r. apply Hk. Qed.
Lemma wait_safe i c m k : (∀ r, always i (k r)) → always i (Wait c m k).
Proof. intros Hk s r. apply Hk. Qed.
Lemma signal_safe i c k : (∀ r, always i (k r)) → always i (Signal c k).
Proof. intros Hk s r. apply Hk. Qed.
Lemma read_safe i k : (∀ s, always i (k s)) → always i (Read k).
Proof. intros Hk s s' _ _. apply Hk. Qed.
Lemma read_worker_always i k kk : (∀ w, always i (kk w)) → always i (read_worker k kk).
Proof. intros Hk s. apply read_worker_safe. intros w s' _ _ _. apply Hk. Qed.
Lemma if_safe i (b : bool) p q : always i p → always i q → always i (if b then p else q).
Proof. by destruct b. Qed.

(** By the first node of the tree. *)
Ltac safe_steps :=
  cbv zeta; try done;
  lazymatch goal with
  | |- always _ (Lock _ _) => apply lock_safe; intros ?; safe_steps
  | |- always _ (Unlock _ _) => apply unlock_safe; intros ?; safe_steps
  | |- always _ (Wait _ _ _) => apply wait_safe; intros ?; safe_steps
  | |- always _ (Signal _ _) => apply signal_safe; intros ?; safe_steps
  | |- always _ (Read _) => apply read_safe; intros ?; safe_steps
  | |- always _ (Write (set_counter _) _) => apply set_counter_safe; safe_steps
  | |- always _ (decrement _) => apply decrement_safe; safe_steps
  | |- always _ (read_counter _) => apply read_counter_safe; intros ?; safe_steps
  | |- always _ (read_worker _ _) => apply read_worker_always; intros ?; safe_steps
  | |- always _ (write_worker _ _ _) => apply same_job_safe; [by intros []|safe_steps]
  | |- always _ (if _ then _ else _) => apply if_safe; safe_steps
  | |- _ => auto
  end.

(** *** The bodies *)

Lemma worker_exit_safe i : always i (worker_exit m_mutex_Id mutex_Id i).
Proof. unfold worker_exit. safe_steps. Qed.
#[local] Hint Resolve worker_exit_safe : core.
Lemma worker_done_safe i ret : always i (worker_done m_mutex_Id mutex_Id i ret).
Proof. unfold worker_done. safe_steps. Qed.
#[local] Hint Resolve worker_done_safe : core.
Lemma own_job_same i s s' w w' : pool_rely i s s' → m_pthreadPool_workerList s !! i = Some w →
  m_pthreadPool_workerList s' !! i = Some w' → job_of (pthreadPool_node w) = job_of (pthreadPool_node w').
Proof. unfold pool_rely, own_job. intros Hr E E'. rewrite E, E' in Hr. cbn in Hr. congruence. Qed.

(** The five looks at the job see the same one, since nobody else replaces it. *)
Lemma worker_call_safe i ret : always i (worker_call m_mutex_Id mutex_Id i ret).
Proof.
  unfold worker_call. apply lock_safe. intros r. apply same_job_safe; [by intros []|]. apply unlock_safe. intros ret'.
  apply if_safe; [done|]. intros s0. apply read_worker_safe. intros w1 s1 _ E1 _.
  destruct (Z.eqb_spec (function (pthreadPool_node w1)) NULL) as [|Hf]; [apply worker_done_safe|].
  apply read_worker_safe. intros w2 s2 H12 E2 _. case_bool_decide; [apply worker_done_safe|].
  apply read_worker_safe. intros w3 s3 H23 E3 P3. apply read_worker_safe. intros w4 s4 H34 E4 P4.
  apply read_worker_safe. intros w5 s5 H45 E5 P5. split; [|apply worker_done_safe].
  pose proof (own_job_same _ _ _ _ _ H12 E1 E2) as J1. pose proof (own_job_same _ _ _ _ _ H23 E2 E3) as J2.
  split; [unfold job_of in *; congruence|]. split; [apply P3|]. split; [apply P4|apply P5].
Qed.
#[local] Hint Resolve worker_call_safe : core.
Lemma shift_jobs_safe i fuel j p : always i p → always i (shift_jobs fuel j p).
Proof.
  intros Hp. revert j. induction fuel as [|fuel IH]; intros j; cbn [shift_jobs]; [by intros s|].
  safe_steps. by apply copy_job_safe.
Qed.

Lemma worker_remove_safe i ret : always i (worker_remove m_mutex_Id mutex_Id i ret).
Proof. unfold worker_remove. safe_steps. apply shift_jobs_safe. safe_steps. Qed.
#[local] Hint Resolve worker_remove_safe : core.
Lemma worker_take_safe i ret : always i (worker_take m_mutex_Id mutex_Id i ret).
Proof.
  unfold worker_take. safe_steps.
  all: apply read_job_safe; intros j Hj; safe_steps; (apply write_own_safe; [apply zero_posted|]);
    (apply write_own_safe; [done|]); safe_steps.
Qed.
#[local] Hint Resolve worker_take_safe : core.
Lemma worker_while_safe i ret : always i (worker_while m_mutex_Id mutex_Id i ret).
Proof. unfold worker_while. safe_steps. Qed.
#[local] Hint Resolve worker_while_safe : core.
Lemma worker_top_safe i : always i (worker_top m_mutex_Id mutex_Id i).
Proof. unfold worker_top. safe_steps. Qed.

Lemma post_wake_safe i ids ret k : (∀ r, always i (k r)) → always i (post_wake m_mutex_Id mutex_Id ids ret k).
Proof. intros Hk. revert ret. induction ids as [|x ids IH]; intros ret; cbn [post_wake]; unfold post_exit; safe_steps. Qed.

Lemma post_safe i f a1 a2 k : (f, a1, a2) ∈ J → (∀ r, always i (k r)) → always i (DevPthreadPool_Post m_mutex_Id mutex_Id f a1 a2 k).
Proof.
  intros Hj Hk. assert (∀ ret, always i (post_store m_mutex_Id mutex_Id (mkJob f a1 a2 0 0) ret k)) as Hs.
  { intros ret. unfold post_store. safe_steps. apply write_job_safe; [by apply job_posted|]. safe_steps. by apply post_wake_safe. }
  unfold DevPthreadPool_Post, post_exit. safe_steps.
Qed.

Lemma visit_workers_safe i ids p : always i p → always i (visit_workers mutex_Id ids p).
Proof. intros Hp. induction ids as [|x ids IH]; cbn [visit_workers]; safe_steps. Qed.

Lemma flush_safe i k : (∀ r, always i (k r)) → always i (DevPthreadPool_Flush m_mutex_Id mutex_Id k).
Proof.
  intros Hk. assert (∀ ids ret, always i (flush_workers mutex_Id ids ret k)) as Hw.
  { induction ids as [|x ids IH]; intros ret; cbn [flush_workers]; safe_steps. }
  assert (∀ n p, always i p → always i (flush_jobs n p)) as Hj.
  { intros n p Hp. induction n as [|n IH]; cbn [flush_jobs]; [done|]. apply write_job_safe; [apply zero_posted|]. by apply decrement_safe. }
  unfold DevPthreadPool_Flush. safe_steps. apply Hj. safe_steps.
Qed.

Lemma report_safe i k : (∀ r, always i (k r)) → always i (DevPthreadPool_Report m_mutex_Id mutex_Id k).
Proof. intros Hk. unfold DevPthreadPool_Report. safe_steps. by do 2 apply visit_workers_safe. Qed.

Lemma code_safe i t p s : entry_ok i t → code m_mutex_Id mutex_Id t = Some p → pool_ok s → safe i p s.
Proof.
  destruct t as [j|j|[|r rs]|]; intros Ht [= <-] _.
  - rewrite Ht. apply worker_top_safe.
  - rewrite Ht. apply worker_while_safe.
  - apply Forall_cons in Ht as [Hr Hrs]. destruct r as [f a1 a2| |]; cbn [serve].
    + apply post_safe; [done|]. intros ret s'. done.
    + apply flush_safe. intros ret s'. done.
    + apply report_safe. intros ret s'. done.
Qed.
End Posted.

(** *** The threads *)

(** The pool after [Init]. *)
Definition fresh_pool : pool :=
  mkPool TRUE (replicate 24 zero_job) 0 (replicate PTHREAD_POOL_MAX_WOKER zero_worker).

Abbreviation config := (DevThreads.config pool cond event entry).

(** The six workers and any number of clients, each with the calls it is going to make. *)
Definition started (m_mutex_Id : Z) (mutex_Id : nat → Z) (clients : list (list request)) : config :=
  mkConfig fresh_pool ∅
    (((λ i, Running (worker_top m_mutex_Id mutex_Id i)) <$> seq 0 PTHREAD_POOL_MAX_WOKER) ++
     ((λ rs, Running (Done (Client rs))) <$> clients)) [].

Abbreviation pool_step lenient m_mutex_Id mutex_Id := (DevThreads.step lenient (code m_mutex_Id mutex_Id)).

Definition posts (rs : list request) : list job :=
  omap (λ r, match r with RPost f a1 a2 => Some (f, a1, a2) | _ => None end) rs.


(** ** Interleavings in which the thread pool fails

    Each is a schedule from the state after [Init]; [Run i] is one access of thread
    [i], the workers are threads 0 to 5, the clients come after them.  The platform is
    one whose mutexes are freed by any [unlock]: without that the second [Unlock] of a
    [Post] already is the failure ([Post_undefined] in [DevPthreadPoolAlone]). *)
Module Cases.

(** The ids [Init] obtains from an empty table of locks. *)
Definition pool_lock : Z := 1.
Definition worker_lock (i : nat) : Z := 2 + Z.of_nat i.
Abbreviation start := (started pool_lock worker_lock).
Abbreviation step := (DevThreads.step true (code pool_lock worker_lock)).
Abbreviation make := (DevThreads.make true (code pool_lock worker_lock)).

Definition runs (n i : nat) : list move := replicate n (Run i).
(** Every worker goes to sleep. *)
Definition all_sleep : list move := flat_map (runs 5) (seq 0 6).
(** Client 6 posts its first [n] jobs (at most six) to sleeping workers. *)
Definition posts_to (n : nat) : list move :=
  flat_map (λ k, runs (17 + k) 6 ++ [Wake 6 k] ++ runs 2 6) (seq 0 n).

(** What the test of a schedule says. *)
Definition ends_with (tr : list (nat * event)) (counter : Z) (c : config) : bool :=
  bool_decide (trace c = tr) && bool_decide (m_pthreadPool_counter (shared c) = counter) && at_rest c.

Lemma ends_with_rest tr n c : ends_with tr n c = true →
  trace c = tr ∧ m_pthreadPool_counter (shared c) = n ∧ ∀ mv c', make mv c = Some c' → ∃ j, mv = Spurious j.
Proof.
  unfold ends_with. intros [[Ht%bool_decide_eq_true Hn%bool_decide_eq_true]%andb_prop Hr]%andb_prop.
  split_and!; [done..|]. intros mv c' Hm. by apply (at_rest_moves true (code pool_lock worker_lock) c mv c').
Qed.

(** ** The same job twice *)

(** Workers 0 and 1 copy the first job before either removes it; each then removes one. *)
Definition both_copy : list move :=
  all_sleep ++ posts_to 2 ++ [Run 6%nat] ++ runs 15 0 ++ runs 15 1 ++ runs 29 0 ++ runs 39 1 ++ runs 20 0.

(** A worker copies the first job in one critical section and removes it in another:
    a client posts two jobs, both calls succeed, the first job is run by two workers,
    the second is never run, and the pool is at rest with an empty queue. *)
Theorem pool_runs_twice :
  ∃ c, rtc step (start [[RPost 5 1 2; RPost 6 3 4]]) c ∧
    trace c = [(6%nat, Returned RET_OK); (6%nat, Returned RET_OK); (1%nat, Ran 5 1 2); (0%nat, Ran 5 1 2)] ∧
    m_pthreadPool_counter (shared c) = 0 ∧ ∀ mv c', make mv c = Some c' → ∃ j, mv = Spurious j.
Proof.
  destruct (schedule_test true (code pool_lock worker_lock) both_copy (start [[RPost 5 1 2; RPost 6 3 4]])
    (ends_with [(6%nat, Returned RET_OK); (6%nat, Returned RET_OK); (1%nat, Ran 5 1 2); (0%nat, Ran 5 1 2)] 0))
    as (c & Hr & Hc); [by vm_compute|]. exists c. split; [done|]. by apply ends_with_rest.
Qed.

(** ** A wake-up that nobody sees *)

(** Six jobs are run one after the other, each worker finds the queue empty, a seventh
    job is posted while all the states still are [END], and the workers go to sleep. *)
Definition last_unseen : list move :=
  all_sleep ++ posts_to 6 ++
  flat_map (λ i, runs (102 - 11 * i + (if (i =? 5)%nat then 1 else 0)) i) (seq 0 6) ++
  flat_map (runs 4) (seq 0 6) ++ runs 22 6 ++ flat_map (runs 2) (seq 0 6).

Definition seven_posts : list request := (λ f, RPost f 0 0) <$> seqZ 11 7.

(** The queue is tested under the lock of the worker and filled under the lock of the
    pool: a job can be posted, successfully, without waking anybody, and then the pool
    is at rest, all workers asleep and the job in the queue. *)
Theorem pool_sleeps_on_job :
  ∃ c, rtc step (start [seven_posts]) c ∧
    trace c = replicate 6 (6%nat, Returned RET_OK) ++ ((λ i, (i, Ran (11 + Z.of_nat i) 0 0)) <$> seq 0 6) ++ [(6%nat, Returned RET_OK)] ∧
    m_pthreadPool_counter (shared c) = 1 ∧ ∀ mv c', make mv c = Some c' → ∃ j, mv = Spurious j.
Proof.
  destruct (schedule_test true (code pool_lock worker_lock) last_unseen (start [seven_posts])
    (ends_with (replicate 6 (6%nat, Returned RET_OK) ++ ((λ i, (i, Ran (11 + Z.of_nat i) 0 0)) <$> seq 0 6) ++ [(6%nat, Returned RET_OK)]) 1))
    as (c & Hr & Hc); [by vm_compute|]. exists c. split; [done|]. by apply ends_with_rest.
Qed.

(** ** A lock that is released for somebody else *)

(** Client 6 posts 23 jobs and has yet to unlock a second time; client 7 locks and finds
    room; client 6 unlocks; client 8 locks and finds room; client 7 fills the last place. *)
Definition past_the_end : list move :=
  flat_map (λ k, runs (if (k <? 6)%nat then 20 + k else 21) 6) (seq 0 22) ++ runs 19 6 ++
  runs 5 7 ++ runs 1 6 ++ runs 4 8 ++ runs 7 7 ++ runs 1 8.

Definition is_faulty (i : nat) (c : config) : bool :=
  match threads c !! i with Some (Running Fault) => true | _ => false end.

(** A successful [Post] unlocks [m_mutex_Id] twice; the second time it may release the
    lock of another caller, and with three clients a job is stored behind the end of the
    queue. *)
Theorem pool_overruns :
  ∃ c, rtc step (start [(λ f, RPost f 0 0) <$> seqZ 11 23; [RPost 50 0 0]; [RPost 60 0 0]]) c ∧ faulty c.
Proof.
  destruct (schedule_test true (code pool_lock worker_lock) past_the_end
    (start [(λ f, RPost f 0 0) <$> seqZ 11 23; [RPost 50 0 0]; [RPost 60 0 0]]) (is_faulty 8)) as (c & Hr & Hc); [by vm_compute|].
  exists c. split; [done|]. exists 8%nat. unfold is_faulty in Hc.
  destruct (threads c !! 8%nat) as [[p| | |]|]; try done. by destruct p.
Qed.

(** ** Half a job *)

(** Client 7 has stored the function of its job when the second unlock of client 6 releases
    its lock; client 8 stores a whole job in the same place; client 7 goes on with its
    arguments.  Worker 0 runs the job of client 6, worker 1 the one in pieces. *)
Definition torn : list move :=
  runs 18 6 ++ runs 6 7 ++ runs 1 6 ++ runs 13 8 ++ runs 7 7 ++ runs 63 0 ++ runs 52 1.

(** Since [Post] unlocks twice, two clients can store their jobs in the same place at the
    same time, and a worker calls the function of one client with the arguments of
    another. *)
Theorem pool_tears :
  ∃ c, rtc step (start [[RPost 5 1 2]; [RPost 6 3 4]; [RPost 7 5 6]]) c ∧
    Ran 7 3 4 ∈ (trace c).*2 ∧ (7, 3, 4) ∉ posts (concat [[RPost 5 1 2]; [RPost 6 3 4]; [RPost 7 5 6]]).
Proof.
  destruct (schedule_test true (code pool_lock worker_lock) torn (start [[RPost 5 1 2]; [RPost 6 3 4]; [RPost 7 5 6]])
    (λ c, bool_decide (Ran 7 3 4 ∈ (trace c).*2))) as (c & Hr & Hc%bool_decide_eq_true); [by vm_compute|].
  exists c. split; [done|]. split; [done|]. by apply (bool_decide_unpack _).
Qed.

(** ** A run as it should be *)


End Cases.
