(* ===== verification/DevPthreadPoolAlone.v ===== *)
(** * The thread pool, one operation at a time

    When no two operations overlap (a call of a client, or a worker's round from the top
    of its loop to the next or to its wait), the pool is a queue of at most 24 jobs, with
    one flaw that needs no interleaving: [Flush] marks workers that have nothing to
    do, and a marked worker drops the next job it takes.

    Every successful [Post] unlocks its lock twice, so that all this is said of platforms
    whose mutexes are freed by any [unlock]; for POSIX the first [Post] that stores a job is
    undefined. *)
From S2P Require Import Prelude DevTypes DevArrays DevThreads DevPthreadPool DevPthreadPoolSpec.
#[local] Open Scope Z_scope.

(** ** The specification *)

Record queue := mkQueue { jobs : list job; states : list Enum_WORKER_STATE }.
Inductive op := OPost (f a1 a2 : Z) | OFlush | OWork (i : nat).

(** The first idle worker is made ready. *)
Fixpoint wake_first (sts : list Enum_WORKER_STATE) : list Enum_WORKER_STATE :=
  match sts with
  | [] => []
  | WORKER_STATE_IDLE :: sts' => WORKER_STATE_READY :: sts'
  | x :: sts' => x :: wake_first sts'
  end.
(** Whoever is not idle is marked. *)
Definition mark (x : Enum_WORKER_STATE) : Enum_WORKER_STATE :=
  match x with WORKER_STATE_IDLE => WORKER_STATE_IDLE | _ => WORKER_STATE_FLUSH end.

(** The queue afterwards, what is observed, and whether the operation returns or waits. *)
Definition queue_op (o : op) (q : queue) : queue * list event * bool :=
  match o with
  | OPost f a1 a2 =>
      if f =? NULL then (q, [Returned RET_ERR], true)
      else if 24 <=? Z.of_nat (length (jobs q)) then (q, [], false)
      else (mkQueue (jobs q ++ [(f, a1, a2)]) (wake_first (states q)), [Returned RET_OK], true)
  | OFlush => (mkQueue [] (mark <$> states q), [Returned RET_OK], true)
  | OWork i =>
      match jobs q with
      | [] => (mkQueue [] (<[i := WORKER_STATE_IDLE]> (states q)), [], false)
      | (f, a1, a2) :: js =>
          (mkQueue js (<[i := WORKER_STATE_END]> (states q)),
           if bool_decide (states q !! i = Some WORKER_STATE_FLUSH) then [] else [Ran f a1 a2], true)
      end
  end.

Fixpoint queue_run (ops : list op) (q : queue) : queue * list (list event * bool) :=
  match ops with
  | [] => (q, [])
  | o :: ops' => let '(q, tr, b) := queue_op o q in let '(q, trs) := queue_run ops' q in (q, (tr, b) :: trs)
  end.

(** ** The pool *)

Section Alone.
Context (lenient : bool) (m_mutex_Id : Z) (mutex_Id : nat → Z).
Abbreviation alone := (@DevThreads.alone pool cond event entry lenient).

Definition op_prog (o : op) : prog :=
  match o with
  | OPost f a1 a2 => DevPthreadPool_Post m_mutex_Id mutex_Id f a1 a2 (λ r, Call (Returned r) (Done Stop))
  | OFlush => DevPthreadPool_Flush m_mutex_Id mutex_Id (λ r, Call (Returned r) (Done Stop))
  | OWork i => worker_top m_mutex_Id mutex_Id i
  end.

(** Operations one after the other, from a state in which no lock is held; every one
    must leave the locks free. *)
Fixpoint pool_run (ops : list op) (s : pool) : outcome (pool * list (list event * bool)) :=
  match ops with
  | [] => Ret (s, [])
  | o :: ops' =>
      '(s, locks, tr, t) ← alone (op_prog o) s ∅ [];
      if bool_decide (locks = ∅) then '(s, trs) ← pool_run ops' s; Ret (s, (tr, bool_decide (is_Some t)) :: trs) else UB
  end.

(** The pool holds the queue. *)
Record holds (s : pool) (q : queue) : Prop := {
  holds_init : init_f s = TRUE;
  holds_length : length (m_pthreadPool_list s) = 24%nat;
  holds_counter : m_pthreadPool_counter s = Z.of_nat (length (jobs q));
  holds_jobs : job_of <$> take (length (jobs q)) (m_pthreadPool_list s) = jobs q;
  holds_some : Forall (λ x, x.1.1 ≠ NULL) (jobs q);
  holds_states : states q = state <$> m_pthreadPool_workerList s;
  holds_workers : length (states q) = PTHREAD_POOL_MAX_WOKER;
}.

(** *** Single accesses *)

Lemma alone_lock m k s tr : alone (Lock m k) s ∅ tr = alone (k RET_OK) s {[m]} tr.
Proof. cbn [DevThreads.alone]. by rewrite acquire_free. Qed.
Lemma alone_unlock m k s tr : alone (Unlock m k) s {[m]} tr = alone (k RET_OK) s ∅ tr.
Proof. cbn [DevThreads.alone]. by rewrite release_held. Qed.
Lemma alone_counter k s l tr : alone (read_counter k) s l tr = alone (k (m_pthreadPool_counter s)) s l tr.
Proof. done. Qed.
Lemma alone_read_worker i k s l tr w : m_pthreadPool_workerList s !! i = Some w →
  alone (read_worker i k) s l tr = alone (k w) s l tr.
Proof. intros Hw. cbn. by rewrite Hw. Qed.
Lemma alone_write_worker i f p s l tr : alone (write_worker i f p) s l tr = alone p (on_worker i f s) l tr.
Proof. done. Qed.
Lemma alone_read_field n k s l tr j : m_pthreadPool_list s !! n = Some j → alone (read_field n k) s l tr = alone (k j) s l tr.
Proof. intros Hj. cbn. by rewrite Hj. Qed.
Lemma alone_read_job n k s l tr j : 0 ≤ n → m_pthreadPool_list s !! Z.to_nat n = Some j →
  alone (read_job n k) s l tr = alone (k j) s l tr.
Proof.
  intros Hn Hj. unfold read_job. rewrite (proj2 (Z.ltb_ge _ _)) by lia. cbv zeta.
  do 5 rewrite (alone_read_field _ _ _ _ _ j) by done. by destruct j.
Qed.
Lemma in_queue_spec n : 0 ≤ n < 24 → in_queue n = true.
Proof.
  intros [? ?]. unfold in_queue. change PTHREAD_POOL_MAX_TODO with 24. apply andb_true_intro. split; [by apply Z.leb_le|by apply Z.ltb_lt].
Qed.
Lemma on_job_on_job n f g s : on_job n f (on_job n g s) = on_job n (f ∘ g) s.
Proof. unfold on_job, set_list. cbn. by rewrite list_alter_alter_eq. Qed.
Lemma on_job_const n f j s : (∀ w, f w = j) → on_job n f s = set_list (<[n := j]> (m_pthreadPool_list s)) s.
Proof. intros Hf. unfold on_job. f_equal. rewrite list_insert_alter. apply list_alter_ext; [|done]. intros w _. apply Hf. Qed.
Lemma alone_write_job n j p s l tr : 0 ≤ n < 24 →
  alone (write_job n j p) s l tr = alone p (set_list (<[Z.to_nat n := j]> (m_pthreadPool_list s)) s) l tr.
Proof.
  intros Hn. unfold write_job. rewrite in_queue_spec by done. unfold write_fields, copiers. cbn [foldr DevThreads.alone].
  rewrite !on_job_on_job. f_equal. apply on_job_const. intros w. by destruct j.
Qed.
Lemma read_other n m f s : n ≠ m → m_pthreadPool_list (on_job m f s) !! n = m_pthreadPool_list s !! n.
Proof. intros Hne. by apply list_lookup_alter_ne. Qed.
Lemma alone_copy_job n p s l tr j : 0 ≤ n < 24 → m_pthreadPool_list s !! Z.to_nat (n + 1) = Some j →
  alone (copy_job n p) s l tr = alone p (set_list (<[Z.to_nat n := j]> (m_pthreadPool_list s)) s) l tr.
Proof.
  intros Hn Hj. unfold copy_job. rewrite in_queue_spec by done. unfold copiers. cbn [foldr].
  assert (Z.to_nat (n + 1) ≠ Z.to_nat n) as Hne by lia.
  do 5 (rewrite (alone_read_field _ _ _ _ _ j) by (by rewrite ?read_other); cbn [DevThreads.alone]).
  rewrite !on_job_on_job. f_equal. apply on_job_const. intros w. by destruct j.
Qed.
Lemma alone_write_own i j p s l tr :
  alone (write_fields (on_own i) j p) s l tr = alone (write_worker i (with_job j) p) s l tr.
Proof.
  unfold write_fields, copiers. cbn [foldr DevThreads.alone]. rewrite alone_write_worker. f_equal.
  unfold on_own, on_worker, set_workers. cbn. f_equal. rewrite !list_alter_alter_eq. apply list_alter_ext; [|done].
  intros [st w] _. by destruct j.
Qed.

Lemma alone_decrement p s l tr : 0 < m_pthreadPool_counter s →
  alone (decrement p) s l tr = alone p (set_counter (m_pthreadPool_counter s - 1) s) l tr.
Proof.
  intros Hn. unfold decrement. rewrite alone_counter. cbn [DevThreads.alone]. rewrite alone_counter. cbn [m_pthreadPool_counter set_counter].
  destruct (Z.leb_spec (m_pthreadPool_counter s - 1) 0); [|done].
  by replace (m_pthreadPool_counter s) with 1 by lia.
Qed.

(** *** Loops *)

Lemma alter_middle {A} (f : A → A) pre x rest : alter f (length pre) (pre ++ x :: rest) = pre ++ f x :: rest.
Proof. rewrite <-(Nat.add_0_r (length pre)) at 1. by rewrite alter_app_r. Qed.

Lemma alone_shift fuel i p s l tr : length (m_pthreadPool_list s) = 24%nat → 0 ≤ i → m_pthreadPool_counter s ≤ 24 →
  (Z.to_nat (m_pthreadPool_counter s - 1 - i) < fuel)%nat →
  alone (shift_jobs fuel i p) s l tr
  = (a ← shift_down (Z.to_nat (m_pthreadPool_counter s - 1 - i)) i (m_pthreadPool_list s); alone p (set_list a s) l tr).
Proof.
  revert i s. induction fuel as [|fuel IH]; intros i s Hlen Hi Hn Hf; [lia|]. cbn [shift_jobs]. rewrite alone_counter.
  destruct (Z.ltb_spec i (m_pthreadPool_counter s - 1)) as [Hlt|Hge].
  - replace (Z.to_nat (m_pthreadPool_counter s - 1 - i)) with (Datatypes.S (Z.to_nat (m_pthreadPool_counter s - 1 - (i + 1)))) by lia.
    cbn [shift_down]. destruct (arr_get_inside (m_pthreadPool_list s) (i + 1)) as (x & Ex & Hx); [lia|].
    rewrite Ex, (alone_copy_job _ _ _ _ _ x) by (done || lia). cbn [mbind outcome_bind].
    rewrite arr_set_inside by lia. cbn [mbind outcome_bind].
    set (s' := set_list _ s). change (m_pthreadPool_counter s) with (m_pthreadPool_counter s').
    rewrite (IH (i + 1) s'); [done|cbn; by rewrite length_insert|lia|done|change (m_pthreadPool_counter s') with (m_pthreadPool_counter s); lia].
  - replace (Z.to_nat (m_pthreadPool_counter s - 1 - i)) with 0%nat by lia. cbn. by destruct s.
Qed.

Lemma alone_flush_jobs n p s l tr : (n ≤ 24)%nat → m_pthreadPool_counter s = Z.of_nat n → length (m_pthreadPool_list s) = 24%nat →
  ∃ ls, length ls = 24%nat ∧ alone (flush_jobs n p) s l tr = alone p (set_counter 0 (set_list ls s)) l tr.
Proof.
  revert s. induction n as [|n IH]; intros s Hn Hc Hl; cbn [flush_jobs].
  - exists (m_pthreadPool_list s). split; [done|]. destruct s. cbn in *. by rewrite Hc.
  - rewrite alone_write_job by lia. set (s1 := set_list _ s). rewrite alone_decrement by (cbn; lia).
    destruct (IH (set_counter (m_pthreadPool_counter s1 - 1) s1)) as (ls & Hls & E); [lia|cbn; lia|cbn; by rewrite length_insert|].
    exists ls. split; [done|]. by rewrite E.
Qed.

(** The workers from [length pre] on; [pre] were not idle.  What is left is the second
    unlock. *)
Lemma alone_wake pre ws ret k s tr : m_pthreadPool_workerList s = pre ++ ws → ret = RET_OK →
  ∃ ws', alone (post_wake m_mutex_Id mutex_Id (seq (length pre) (length ws)) ret k) s ∅ tr
         = alone (Unlock m_mutex_Id (λ r, k (Z.lor RET_OK r))) (set_workers (pre ++ ws') s) ∅ tr ∧
         state <$> ws' = wake_first (state <$> ws).
Proof.
  revert pre. induction ws as [|w ws IH]; intros pre Hw ->; cbn [seq post_wake length].
  - exists []. split; [|done]. unfold post_exit. destruct s. cbn in *. by rewrite Hw.
  - rewrite (alone_read_worker _ _ _ _ _ w) by (rewrite Hw; by apply list_lookup_middle).
    destruct (bool_decide (state w = WORKER_STATE_IDLE)) eqn:Eb; [apply bool_decide_eq_true in Eb|apply bool_decide_eq_false in Eb].
    + exists (with_state WORKER_STATE_READY w :: ws). cbn [fmap list_fmap wake_first]. rewrite Eb. split; [|done].
      rewrite alone_lock. cbn [negb Z.eqb RET_OK]. rewrite alone_write_worker, alone_unlock. cbn [negb Z.eqb RET_OK].
      change (alone (Signal ?c ?k) ?s ?l ?t) with (alone (k RET_OK) s l t). unfold post_exit.
      unfold on_worker. by rewrite Hw, alter_middle.
    + destruct (IH (pre ++ [w])) as (ws' & E & Hs); [by rewrite <-app_assoc|done|].
      exists (w :: ws'). rewrite length_app, Nat.add_1_r in E. rewrite E, <-app_assoc. split; [done|].
      cbn [fmap list_fmap]. rewrite Hs. by destruct (state w).
Qed.

Lemma alone_flush_workers pre ws ret k s tr : m_pthreadPool_workerList s = pre ++ ws → ret = RET_OK →
  ∃ ws', alone (flush_workers mutex_Id (seq (length pre) (length ws)) ret k) s ∅ tr
         = alone (k RET_OK) (set_workers (pre ++ ws') s) ∅ tr ∧ state <$> ws' = mark <$> (state <$> ws).
Proof.
  revert pre s. induction ws as [|w ws IH]; intros pre s Hw ->; cbn [seq flush_workers length].
  - exists []. split; [|done]. destruct s. cbn in *. by rewrite Hw.
  - rewrite alone_lock, (alone_read_worker _ _ _ _ _ w) by (rewrite Hw; by apply list_lookup_middle).
    set (w' := if negb (bool_decide (state w = WORKER_STATE_IDLE)) && negb (bool_decide (state w = WORKER_STATE_FLUSH))
               then with_state WORKER_STATE_FLUSH (with_flush 1 w) else w).
    assert (state w' = mark (state w)) as Hm by (unfold w'; clear; by destruct w as [[] ?]).
    destruct (IH (pre ++ [w']) (set_workers (pre ++ w' :: ws) s)) as (ws' & E & Hs); [by rewrite <-app_assoc|done|].
    exists (w' :: ws'). split; [|cbn [fmap list_fmap]; by rewrite Hs, Hm].
    rewrite length_app, Nat.add_1_r, <-app_assoc in E. change (([w'] ++ ws')) with (w' :: ws') in E. unfold w' in E |- *.
    destruct (_ && _) eqn:Eb.
    + rewrite !alone_write_worker. change (alone (Signal ?c ?k) ?s ?l ?t) with (alone (k RET_OK) s l t). cbv beta.
      rewrite alone_unlock. unfold on_worker. cbn [m_pthreadPool_workerList set_workers].
      rewrite Hw, !alter_middle. exact E.
    + rewrite alone_unlock. rewrite <-Hw in E at 1. by destruct s.
Qed.

(** *** Operations *)

Lemma length_wake_first sts : length (wake_first sts) = length sts.
Proof. induction sts as [|[] sts IH]; cbn [wake_first length]; congruence. Qed.

(** A post for which there is room, up to its second unlock. *)
Lemma post_stores f a1 a2 s q : holds s q → f ≠ NULL → (length (jobs q) < 24)%nat → ∃ s',
  alone (op_prog (OPost f a1 a2)) s ∅ [] = alone (Unlock m_mutex_Id (λ r, Call (Returned (Z.lor RET_OK r)) (Done Stop))) s' ∅ [] ∧
  holds s' (mkQueue (jobs q ++ [(f, a1, a2)]) (wake_first (states q))).
Proof.
  intros Hq Hfn Hlt. pose proof Hq as [Hi Hl Hc Hj Hf Hs Hw]. cbn [op_prog]. unfold DevPthreadPool_Post.
  change (alone (Read ?k) s ?l ?tr) with (alone (k s) s l tr). cbv beta. rewrite Hi. change (negb (TRUE =? TRUE)) with false. cbv iota.
  rewrite (proj2 (Z.eqb_neq _ _) Hfn), alone_lock. change (negb (RET_OK =? RET_OK)) with false. cbv iota zeta.
  rewrite alone_counter, Hc. change PTHREAD_POOL_MAX_TODO with 24. rewrite (proj2 (Z.leb_gt _ _)) by lia.
  unfold post_store. rewrite alone_counter, alone_write_job by lia. rewrite alone_counter.
  change (alone (Write ?g ?k) ?s ?l ?tr) with (alone k (g s) l tr). cbv beta. rewrite alone_unlock.
  set (s1 := set_counter _ _).
  destruct (alone_wake [] (m_pthreadPool_workerList s) RET_OK (λ r, Call (Returned r) (Done Stop)) s1 []) as (ws' & E & Hst); [done|done|].
  assert (length (m_pthreadPool_workerList s) = PTHREAD_POOL_MAX_WOKER) as Hwl by (rewrite Hs, length_fmap in Hw; done).
  rewrite Hwl in E. cbn [length] in E. rewrite E. eexists. split; [reflexivity|].
  split; unfold s1; cbn [init_f m_pthreadPool_list m_pthreadPool_counter m_pthreadPool_workerList set_list set_counter set_workers jobs states fst snd app].
  - done.
  - by rewrite length_insert.
  - rewrite length_app, Hc. cbn [length]. lia.
  - rewrite Hc, Nat2Z.id, length_app, Nat.add_1_r, (take_S_r _ _ (mkJob f a1 a2 0 0)) by (apply list_lookup_insert_eq; lia).
    rewrite take_insert_ge, fmap_app, Hj by lia. done.
  - apply Forall_app. split; [done|]. by apply Forall_singleton.
  - by rewrite Hst, Hs.
  - by rewrite length_wake_first.
Qed.

Lemma post_holds f a1 a2 s q : lenient = true → holds s q → ∃ s' t, alone (op_prog (OPost f a1 a2)) s ∅ [] = Ret (s', ∅, (queue_op (OPost f a1 a2) q).1.2, t) ∧
  bool_decide (is_Some t) = (queue_op (OPost f a1 a2) q).2 ∧ holds s' (queue_op (OPost f a1 a2) q).1.1.
Proof.
  intros Hlen Hq. cbn [queue_op]. destruct (Z.eqb_spec f NULL) as [->|Hfn].
  { eexists _, _. split; [|split; [|exact Hq]]; [cbn [op_prog]; unfold DevPthreadPool_Post; cbn; by rewrite (holds_init _ _ Hq)|done]. }
  destruct (Z.leb_spec 24 (Z.of_nat (length (jobs q)))) as [Hfull|Hroom].
  - eexists s, None. split; [|done]. cbn [op_prog]. unfold DevPthreadPool_Post.
    change (alone (Read ?k) s ?l ?tr) with (alone (k s) s l tr). cbv beta. rewrite (holds_init _ _ Hq). change (negb (TRUE =? TRUE)) with false.
    cbv iota. rewrite (proj2 (Z.eqb_neq _ _) Hfn), alone_lock. change (negb (RET_OK =? RET_OK)) with false. cbv iota zeta.
    rewrite alone_counter, (holds_counter _ _ Hq). change PTHREAD_POOL_MAX_TODO with 24. rewrite (proj2 (Z.leb_le _ _)) by done.
    cbn [DevThreads.alone]. by rewrite release_held.
  - destruct (post_stores f a1 a2 s q) as (s' & -> & Hs'); [done..|lia|]. exists s', (Some Stop).
    split; [|done]. cbn [DevThreads.alone]. by rewrite Hlen, release_free.
Qed.

Lemma flush_holds s q : holds s q → ∃ s' t, alone (op_prog OFlush) s ∅ [] = Ret (s', ∅, [Returned RET_OK], t) ∧
  is_Some t ∧ holds s' (mkQueue [] (mark <$> states q)).
Proof.
  intros Hq. pose proof Hq as [Hi Hl Hc Hj Hf Hs Hw]. cbn [op_prog]. unfold DevPthreadPool_Flush.
  change (alone (Read ?k) s ?l ?tr) with (alone (k s) s l tr). cbv beta. rewrite Hi. change (negb (TRUE =? TRUE)) with false. cbv iota.
  rewrite alone_lock, alone_counter, Hc, Nat2Z.id.
  assert (length (jobs q) ≤ 24)%nat as Hle by (rewrite <-Hj, length_fmap, length_take; lia).
  destruct (alone_flush_jobs (length (jobs q)) (Unlock m_mutex_Id (λ _, flush_workers mutex_Id (seq 0 PTHREAD_POOL_MAX_WOKER) RET_OK
    (λ r, Call (Returned r) (Done Stop)))) s {[m_mutex_Id]} []) as (ls & Hls & ->); [done..|]. rewrite alone_unlock.
  set (s1 := set_counter _ _).
  destruct (alone_flush_workers [] (m_pthreadPool_workerList s) RET_OK (λ r, Call (Returned r) (Done Stop)) s1 []) as (ws' & E & Hst); [done|done|].
  assert (length (m_pthreadPool_workerList s) = PTHREAD_POOL_MAX_WOKER) as Hwl by (rewrite Hs, length_fmap in Hw; done).
  rewrite Hwl in E. cbn [length] in E. rewrite E. eexists _, _. split; [reflexivity|]. split; [by eexists|].
  split; cbn; try done. { by rewrite Hst, Hs. } by rewrite length_fmap.
Qed.

(** *** A worker's round: everything happens to its own entry *)

Section Round.
Context (i : nat).

Lemma on_worker_set f x s : (i < length (m_pthreadPool_workerList s))%nat → on_worker i f (set_worker i x s) = set_worker i (f x) s.
Proof.
  intros Hi. unfold on_worker, set_worker, set_workers. cbn. f_equal.
  by rewrite !list_insert_alter, list_alter_alter_eq.
Qed.

Lemma write_own f x s p l tr : (i < length (m_pthreadPool_workerList s))%nat →
  alone (write_worker i f p) (set_worker i x s) l tr = alone p (set_worker i (f x) s) l tr.
Proof. intros Hi. rewrite alone_write_worker. by rewrite on_worker_set. Qed.

Lemma read_own x s k l tr : (i < length (m_pthreadPool_workerList s))%nat →
  alone (read_worker i k) (set_worker i x s) l tr = alone (k x) (set_worker i x s) l tr.
Proof. intros Hi. apply alone_read_worker. cbn. by apply list_lookup_insert_eq. Qed.

Lemma done_alone x s tr : (i < length (m_pthreadPool_workerList s))%nat →
  ∃ x', state x' = WORKER_STATE_END ∧
    alone (worker_done m_mutex_Id mutex_Id i RET_OK) (set_worker i x s) ∅ tr = Ret (set_worker i x' s, ∅, tr, Some (Loop i)).
Proof.
  intros Hi. eexists. split; [|unfold worker_done; rewrite alone_lock; cbv zeta; rewrite !write_own, alone_unlock by done; reflexivity].
  done.
Qed.

Lemma call_alone x s tr ret : (i < length (m_pthreadPool_workerList s))%nat → function (pthreadPool_node x) ≠ NULL →
  ∃ x', state x' = WORKER_STATE_END ∧
    alone (worker_call m_mutex_Id mutex_Id i ret) (set_worker i x s) ∅ tr
    = Ret (set_worker i x' s, ∅,
           tr ++ (if bool_decide (state x = WORKER_STATE_FLUSH) then []
                  else [Ran (function (pthreadPool_node x)) (arg1 (pthreadPool_node x)) (arg2 (pthreadPool_node x))]), Some (Loop i)).
Proof.
  intros Hi Hf. unfold worker_call. rewrite alone_lock, write_own, alone_unlock by done.
  change (negb (RET_OK =? RET_OK)) with false. cbv iota. rewrite read_own by done.
  change (function (pthreadPool_node (with_flight 1 x))) with (function (pthreadPool_node x)).
  rewrite (proj2 (Z.eqb_neq _ _) Hf). cbn [negb]. rewrite read_own by done. change (state (with_flight 1 x)) with (state x).
  destruct (bool_decide (state x = WORKER_STATE_FLUSH)).
  - rewrite app_nil_r. by apply done_alone.
  - rewrite !read_own by done.
    change (alone (Call ?e ?k) ?s ?l ?t) with (alone k s l (t ++ [e])). by apply done_alone.
Qed.

Lemma take_alone w j s tr : m_pthreadPool_workerList s !! i = Some w → m_pthreadPool_list s !! 0%nat = Some j →
  length (m_pthreadPool_list s) = 24%nat → 0 < m_pthreadPool_counter s ≤ 24 → function j ≠ NULL →
  ∃ ls x, remove_entry (m_pthreadPool_list s) (m_pthreadPool_counter s) 0 = Ret ls ∧ state x = WORKER_STATE_END ∧
    alone (worker_take m_mutex_Id mutex_Id i RET_OK) s {[mutex_Id i]} tr
    = Ret (set_worker i x (set_counter (m_pthreadPool_counter s - 1) (set_list ls s)), ∅,
           tr ++ (if bool_decide (state w = WORKER_STATE_FLUSH) then [] else [Ran (function j) (arg1 j) (arg2 j)]), Some (Loop i)).
Proof.
  intros Hw Hj Hl Hn Hf. pose proof (lookup_lt_Some _ _ _ Hw) as Hi.
  destruct (remove_entry_spec (m_pthreadPool_list s) (m_pthreadPool_counter s) 0) as (ls & Els & Hls & _); [lia|lia|].
  set (y := if bool_decide (state w = WORKER_STATE_FLUSH) then w else with_state WORKER_STATE_RUN w).
  assert (bool_decide (state y = WORKER_STATE_FLUSH) = bool_decide (state w = WORKER_STATE_FLUSH)) as Ey
    by (unfold y; clear; by destruct w as [[] ?]).
  set (s2 := set_counter (m_pthreadPool_counter s - 1) (set_list ls s)).
  destruct (call_alone (with_job j y) s2 tr RET_OK) as (x & Hx & Ec); [done|done|].
  exists ls, x. split; [done|]. split; [done|]. change (state (with_job j y)) with (state y) in Ec. rewrite Ey in Ec.
  etransitivity; [|exact Ec]. clear Ec Hx x. assert (s = set_worker i w s) as Es.
  { destruct s. unfold set_worker, set_workers. cbn in *. by rewrite list_insert_id. }
  unfold worker_take. cbv zeta. rewrite (alone_read_worker _ _ _ _ _ w) by done.
  match goal with |- alone (if _ then ?p else _) _ _ _ = _ =>
    assert (alone (if bool_decide (state w = WORKER_STATE_FLUSH) then p else write_worker i (with_state WORKER_STATE_RUN) p) s {[mutex_Id i]} tr
            = alone p (set_worker i y s) {[mutex_Id i]} tr) as -> end.
  { unfold y. destruct (bool_decide _); [by rewrite <-Es|]. rewrite Es at 1. by rewrite write_own. }
  rewrite alone_unlock, alone_lock, alone_counter. change (m_pthreadPool_counter (set_worker i y s)) with (m_pthreadPool_counter s).
  rewrite (proj2 (Z.eqb_neq _ _)) by lia. rewrite (alone_read_job _ _ _ _ _ j) by done. rewrite alone_unlock, alone_lock, !alone_write_own, write_own, alone_write_own, write_own, alone_unlock by done.
  unfold worker_remove. rewrite alone_lock. cbv zeta.
  rewrite alone_shift; [|done|lia|cbn; lia|cbn; lia]. unfold remove_entry in Els.
  change (m_pthreadPool_counter (set_worker ?i ?x s)) with (m_pthreadPool_counter s).
  change (m_pthreadPool_list (set_worker ?i ?x s)) with (m_pthreadPool_list s). rewrite Els. cbn [mbind outcome_bind].
  rewrite alone_decrement by (cbn; lia). rewrite alone_unlock. done.
Qed.
End Round.

Lemma one_fewer n : Z.to_nat (Z.of_nat (Datatypes.S n) - 1) = n.
Proof. lia. Qed.

Lemma work_holds i s q : holds s q → (i < PTHREAD_POOL_MAX_WOKER)%nat →
  ∃ s' t, alone (op_prog (OWork i)) s ∅ [] = Ret (s', ∅, (queue_op (OWork i) q).1.2, t) ∧
    bool_decide (is_Some t) = (queue_op (OWork i) q).2 ∧ holds s' (queue_op (OWork i) q).1.1.
Proof.
  intros Hq Hi6. pose proof Hq as [Hi Hl Hc Hj Hf Hs Hw]. cbn [op_prog queue_op]. unfold worker_top.
  change (alone (Read ?k) s ?l ?tr) with (alone (k s) s l tr). cbv beta. rewrite Hi. change (negb (TRUE =? TRUE)) with false. cbv iota.
  rewrite alone_lock. change (negb (RET_OK =? RET_OK)) with false. cbv iota. unfold worker_while. rewrite alone_counter, Hc.
  destruct (lookup_lt_is_Some_2 (m_pthreadPool_workerList s) i) as [w Ew]; [by rewrite Hs, length_fmap in Hw; rewrite Hw|].
  destruct (jobs q) as [|[[f a1] a2] js] eqn:Ejs.
  - change (Z.of_nat (length (@nil job)) =? 0) with true. cbv iota. rewrite alone_write_worker. eexists _, None.
    split; [cbn [DevThreads.alone]; rewrite release_held; reflexivity|]. split; [done|].
    split; cbn; try done; [|by rewrite length_insert].
    rewrite Hs. apply list_eq. intros k. rewrite list_lookup_fmap. destruct (decide (k = i)) as [->|Hne].
    + rewrite list_lookup_insert_eq, list_lookup_alter_eq, Ew by (by eapply lookup_lt_Some; rewrite list_lookup_fmap, Ew). done.
    + rewrite list_lookup_insert_ne, list_lookup_alter_ne by done. by rewrite list_lookup_fmap.
  - rewrite (proj2 (Z.eqb_neq _ 0)) by (cbn [length]; lia).
    destruct (m_pthreadPool_list s) as [|j l] eqn:El; [done|]. cbn [length take fmap list_fmap] in Hj. injection Hj as Ef E1 E2 Hj.
    apply Forall_cons in Hf as [Hfn Hf]. cbn in Hfn.
    assert (length (take (length js) l) = length js) as Hlj by (by rewrite <-Hj at 2; rewrite length_fmap).
    rewrite length_take in Hlj. cbn [length] in Hl.
    destruct (take_alone i w j s [] Ew) as (ls & x & Els & Hx & E); [by rewrite El|by rewrite El|cbn [length] in Hc; lia|by rewrite Ef|].
    rewrite El in Els. destruct (remove_entry_spec (j :: l) (m_pthreadPool_counter s) 0) as (ls' & Els' & Hll & Htk);
      [cbn [length] in *; lia..|]. rewrite Els in Els'. injection Els' as <-.
    assert (bool_decide (states q !! i = Some WORKER_STATE_FLUSH) = bool_decide (state w = WORKER_STATE_FLUSH)) as ->.
    { apply bool_decide_ext. rewrite Hs, list_lookup_fmap, Ew. cbn. split; congruence. }
    eexists _, _. split; [rewrite E, Ef, E1, E2; reflexivity|]. split; [done|].
    split; cbn; try done.
    + rewrite Hll. done.
    + rewrite Hc. cbn [length]. lia.
    + rewrite Hc in Htk. cbn [length] in Htk. rewrite one_fewer, Nat2Z.id in Htk. by rewrite Htk.
    + rewrite Hs, list_fmap_insert, Hx. done.
    + by rewrite length_insert.
Qed.

End Alone.

(** C16. On a platform whose mutexes are freed by any unlock, as long as no two operations
    overlap: every sequence of posts, flushes and rounds of the workers returns what the
    queue returns and calls what it calls.  Jobs are run once each, in the order they were
    posted, unless the worker that takes the job was marked by a flush; a post waits
    exactly when 24 jobs are queued.  (Every successful post unlocks the lock of the pool
    twice, which is undefined for POSIX: [Post_undefined].) *)
Theorem pool_refines_queue (m_mutex_Id : Z) (mutex_Id : nat → Z) (ops : list op) (s : pool) (q : queue) :
  holds s q → Forall (λ o, match o with OWork i => (i < PTHREAD_POOL_MAX_WOKER)%nat | _ => True end) ops →
  ∃ s', pool_run true m_mutex_Id mutex_Id ops s = Ret (s', (queue_run ops q).2) ∧ holds s' (queue_run ops q).1.
Proof.
  intros Hq Hops. revert s q Hq. induction Hops as [|o ops Ho _ IH]; intros s q Hq; cbn [pool_run queue_run]; [by exists s|].
  assert (∃ s' t, DevThreads.alone true (op_prog m_mutex_Id mutex_Id o) s ∅ [] = Ret (s', ∅, (queue_op o q).1.2, t) ∧
    bool_decide (is_Some t) = (queue_op o q).2 ∧ holds s' (queue_op o q).1.1) as (s1 & t & -> & Eb & Hq1).
  { destruct o as [f a1 a2| |i]; [by apply post_holds| |by apply work_holds].
    destruct (flush_holds true m_mutex_Id mutex_Id s q Hq) as (s' & t & E & Ht & Hq'). exists s', t.
    split; [done|]. split; [by apply bool_decide_eq_true|done]. }
  cbn [mbind outcome_bind]. rewrite bool_decide_eq_true_2 by done.
  destruct (IH s1 (queue_op o q).1.1 Hq1) as (s2 & -> & Hq2). exists s2.
  destruct (queue_op o q) as [[q1 tr] b]. cbn [fst snd] in *. rewrite Eb. destruct (queue_run ops q1) as [q2 trs]. done.
Qed.

(** With mutexes as POSIX has them, every call of [Post] that stores a job, alone in the
    pool, ends in undefined behaviour: the lock of the pool is released before the search
    for a sleeping worker and released again at the end. *)
Theorem Post_undefined (m_mutex_Id : Z) (mutex_Id : nat → Z) (f a1 a2 : Z) (s : pool) (q : queue) :
  holds s q → f ≠ NULL → (length (jobs q) < 24)%nat →
  DevThreads.alone false (op_prog m_mutex_Id mutex_Id (OPost f a1 a2)) s ∅ [] = UB.
Proof.
  intros Hq Hf Hroom. destruct (post_stores false m_mutex_Id mutex_Id f a1 a2 s q Hq Hf Hroom) as (s' & -> & _).
  cbn [DevThreads.alone]. by rewrite release_free_undefined.
Qed.

(** ** Concrete runs *)

Lemma fresh_pool_holds : holds fresh_pool (mkQueue [] (replicate 6 WORKER_STATE_IDLE)).
Proof. split; try done. Qed.

(** Worker 0 runs a job; [Flush] returns and marks it; the job posted after that is
    dropped; the next one is run. *)
Lemma pool_refines_queue_witness : ∃ s,
  pool_run true 1 (λ i, 2 + Z.of_nat i) [OPost 5 1 2; OWork 0; OFlush; OPost 6 3 4; OWork 0; OPost 7 5 6; OWork 0] fresh_pool
  = Ret (s, [([Returned RET_OK], true); ([Ran 5 1 2], true); ([Returned RET_OK], true); ([Returned RET_OK], true);
             ([], true); ([Returned RET_OK], true); ([Ran 7 5 6], true)]).
Proof.
  destruct (pool_refines_queue 1 (λ i, 2 + Z.of_nat i) [OPost 5 1 2; OWork 0; OFlush; OPost 6 3 4; OWork 0; OPost 7 5 6; OWork 0]
    fresh_pool (mkQueue [] (replicate 6 WORKER_STATE_IDLE)) fresh_pool_holds) as (s & E & _).
  - repeat constructor.
  - exists s. exact E.
Defined.

Lemma Post_undefined_witness : DevThreads.alone false (op_prog 1 (λ i, 2 + Z.of_nat i) (OPost 5 1 2)) fresh_pool ∅ [] = UB.
Proof. apply (Post_undefined 1 _ 5 1 2 fresh_pool _ fresh_pool_holds); [done|cbn; lia]. Defined.
