(* ===== verification/DevDetector.v ===== *)
(** * The SDK's detectors

    Model of [src/mivifwk/odm/plugins/qcom/ldc/device/dev_detector.cpp]: measurements of
    run times and frame rates, with a watchdog that reports measurements that take
    too long: the running ones are kept in a list by deadline, and one timer of
    [DevTimer] is armed for the first.  The clock is read once per call: [now], in
    milliseconds.  What is only printed (names, lines, process ids) is left out. *)
From S2P Require Import Prelude DevTypes DevMutex DevTimer DevArrays.
From stdpp Require Import strings.
#[local] Open Scope Z_scope.

(** @src src/mivifwk/odm/plugins/qcom/ldc/device/dev_detector.cpp:22-23 the constants *)
Definition DETECTOR_NUM_MAX : Z := 64.
Definition DETECTOR_NAME_LEN_MAX : Z := 128.

(** @src src/mivifwk/odm/plugins/qcom/ldc/device/dev_detector.cpp:26-55 Detector_node *)
Record Detector_node := mkDetector {
  pId : Z;
  fpsStr : string;
  fps_start_time : Z;
  fps_add : Z;
  fps_run_flag : Z;
  consumeStr : string;
  run : Z;
  run_begin_time : Z;
  run_end_time : Z;
  run_all_time : Z;
  run_max_time : Z;
  run_min_time : Z;
  run_timeoutMsTimestamp : Z;
  run_timeout : Z;
  run_add : Z;
  en : Z;
}.
Definition zero_detector : Detector_node := mkDetector 0 "" 0 0 0 "" 0 0 0 0 0 0 0 0 0 0.

(** @src src/mivifwk/odm/plugins/qcom/ldc/device/dev_detector.cpp:57-63 the static variables
    [sys]: the timers, with the locks and the callers' variables; [reports]: the ids
    of the measurements reported as too long, in order. *)
Record world (M : Type) := mkWorld {
  sys : DevTimer.world M;
  init_f : Z;
  m_detector_list : list Detector_node;
  m_detector_id_timeout_num : Z;
  m_detector_id_timeout_list : list Z;
  reports : list Z;
}.
Arguments mkWorld {_} _ _ _ _ _ _.
Arguments sys {_} _.
Arguments init_f {_} _.
Arguments m_detector_list {_} _.
Arguments m_detector_id_timeout_num {_} _.
Arguments m_detector_id_timeout_list {_} _.
Arguments reports {_} _.

(** The part of the state that the watchdog works on. *)
Record watch := mkWatch { nodes : list Detector_node; num : Z; ids : list Z; told : list Z }.

Definition watch_of {M} (w : world M) : watch :=
  mkWatch (m_detector_list w) (m_detector_id_timeout_num w) (m_detector_id_timeout_list w) (reports w).
Definition set_watch {M} (w : world M) (x : watch) : world M :=
  mkWorld (sys w) (init_f w) (nodes x) (num x) (ids x) (told x).
Definition set_sys {M} (w : world M) (y : DevTimer.world M) : world M :=
  mkWorld y (init_f w) (m_detector_list w) (m_detector_id_timeout_num w) (m_detector_id_timeout_list w) (reports w).
Definition set_detectors {M} (w : world M) (l : list Detector_node) : world M :=
  mkWorld (sys w) (init_f w) l (m_detector_id_timeout_num w) (m_detector_id_timeout_list w) (reports w).
Definition set_detector {M} (w : world M) (id : Z) (n : Detector_node) : world M :=
  set_detectors w (<[Z.to_nat id := n]> (m_detector_list w)).
Definition detector_at {M} (w : world M) (id : Z) : outcome Detector_node := arr_get (m_detector_list w) id.

Definition detector_ids : list Z := seqZ 1 (DETECTOR_NUM_MAX - 1).
Definition bad_id (id : Z) : bool := (DETECTOR_NUM_MAX <=? id) || (id <=? 0).
Definition find_id (p : Detector_node → bool) (l : list Detector_node) : option Z :=
  find (λ id, match l !! Z.to_nat id with Some n => p n | None => false end) detector_ids.

Definition with_timeout (n : Detector_node) (ts timeout : Z) : Detector_node :=
  mkDetector (pId n) (fpsStr n) (fps_start_time n) (fps_add n) (fps_run_flag n) (consumeStr n) (run n) (run_begin_time n)
    (run_end_time n) (run_all_time n) (run_max_time n) (run_min_time n) ts timeout (run_add n) (en n).
Definition with_fps (n : Detector_node) (str : string) (start add flag : Z) : Detector_node :=
  mkDetector (pId n) str start add flag (consumeStr n) (run n) (run_begin_time n)
    (run_end_time n) (run_all_time n) (run_max_time n) (run_min_time n) (run_timeoutMsTimestamp n) (run_timeout n) (run_add n) (en n).

(** [(double)x] for a 64-bit [x]: rounding to 53 significant bits, to even. *)
Definition double_of (x : Z) : Z :=
  if x <? 2 ^ 53 then x
  else
    let e := 2 ^ (Z.log2 x - 52) in
    let q := x / e in let r := x mod e in
    (if (e <? 2 * r) || ((e =? 2 * r) && Z.odd q) then q + 1 else q) * e.
(** Converting a double that does not fit is undefined. *)
Definition to_u64 (d : Z) : outcome Z := if d <? 2 ^ 64 then Ret d else UB.
Definition to_s64 (d : Z) : outcome Z := if d <? 2 ^ 63 then Ret d else UB.

(** ** The watchdog's list *)

(** The deadline of the measurement at place [i] of the list. *)
Definition deadline_at (x : watch) (i : Z) : outcome Z :=
  id ← arr_get (ids x) i; n ← arr_get (nodes x) id; Ret (run_timeoutMsTimestamp n).

(** @src src/mivifwk/odm/plugins/qcom/ldc/device/dev_detector.cpp:192-217 DevDetector_StartCountdown (insertion) *)
Definition insert_timeout (id : Z) (x : watch) : outcome watch :=
  n ← arr_get (nodes x) id;
  '(_, front, _) ← bound_search (rounds (num x))
     (λ mid, d ← deadline_at x mid; Ret (Some (d <? run_timeoutMsTimestamp n))) 0 (num x - 1);
  l ← shift_up (Z.to_nat (num x - front)) (num x - 1) (ids x);
  let front := if DETECTOR_NUM_MAX <=? front then DETECTOR_NUM_MAX - 1 else front in
  l ← arr_set l front id;
  let num := num x + 1 in
  Ret (mkWatch (nodes x) (if DETECTOR_NUM_MAX <=? num then DETECTOR_NUM_MAX - 1 else num) l (told x)).

(** The entry at place [i] taken out of the list. *)
Definition drop_timeout (i : Z) (x : watch) : outcome watch :=
  l ← remove_entry (ids x) (num x) i;
  l ← arr_set l (num x) 0;
  let num := num x - 1 in
  Ret (mkWatch (nodes x) (if num <? 0 then 0 else num) l (told x)).

(** @src src/mivifwk/odm/plugins/qcom/ldc/device/dev_detector.cpp:342-355 DevDetector_End (removal)
    The place that moves up is not looked at. *)
Fixpoint drop_loop (fuel : nat) (id i : Z) (x : watch) : outcome watch :=
  match fuel with
  | O => OutOfFuel
  | S fuel' =>
      if i <? num x then
        d ← arr_get (ids x) i;
        if d =? id then x ← drop_timeout i x; drop_loop fuel' id (i + 1) x else drop_loop fuel' id (i + 1) x
      else Ret x
  end.

Definition NO_TIMEOUT : Z := 0x0FFFFFFFFFFFFFFF.

(** @src src/mivifwk/odm/plugins/qcom/ldc/device/dev_detector.cpp:240-278 DevDetector_TimerHandle (the list)
    [minTimeOut] so far; the place that moves up after a removal is not looked at. *)
Fixpoint handle_loop (fuel : nat) (now i minTimeOut : Z) (x : watch) : outcome (Z * watch) :=
  match fuel with
  | O => OutOfFuel
  | S fuel' =>
      if i <? num x then
        detectorId ← arr_get (ids x) i;
        if (detectorId <? 0) || (DETECTOR_NUM_MAX <=? detectorId) then handle_loop fuel' now (i + 1) minTimeOut x
        else
          n ← arr_get (nodes x) detectorId;
          if (run_timeoutMsTimestamp n =? 0) || (run_timeout n =? 0) then handle_loop fuel' now (i + 1) minTimeOut x
          else if run_timeoutMsTimestamp n <=? run_begin_time n then handle_loop fuel' now (i + 1) minTimeOut x
          else if run_timeoutMsTimestamp n <=? now then
            x ← drop_timeout i x;
            l ← arr_set (nodes x) detectorId (with_timeout n 0 0);
            handle_loop fuel' now (i + 1) minTimeOut (mkWatch l (num x) (ids x) (told x ++ [detectorId]))
          else
            let timeOut := s64 (run_timeoutMsTimestamp n - now) in
            handle_loop fuel' now (i + 1) (if timeOut <? minTimeOut then timeOut else minTimeOut) x
      else Ret (minTimeOut, x)
  end.

(** ** The operations *)

Section Detector.
Context `{MutexLib M}.
(** Of the timers: the result of [timer_settime] and of [timer_create], and the addresses of
    the lock variables. *)
Context (timer_settime_ret timer_create_ret p_timer_mutex p_timer_callback : Z).
(** The addresses of [m_mutex_Id], [m_mutexTimeout_Id], [m_timer_Id] and of the handler. *)
Context (m_mutex_Id m_mutexTimeout_Id m_timer_Id TimerHandle : Z).

Abbreviation world := (world M).

Definition lock (p : Z) (w : world) : outcome world := y ← DevTimer.lock p (sys w); Ret (set_sys w y).
Definition unlock (p : Z) (w : world) : outcome world := y ← DevTimer.unlock p (sys w); Ret (set_sys w y).

(** [Device->timer->Stop(m_timer_Id)], [Start(m_timer_Id, ms, 0)]; the results are not looked at. *)
Definition timer_Stop (now : Z) (w : world) : outcome world :=
  id ← load (DevTimer.vars (sys w)) m_timer_Id;
  '(_, y) ← DevTimer_Stop timer_settime_ret p_timer_callback now id (sys w);
  Ret (set_sys w y).
Definition timer_Start (now ms : Z) (w : world) : outcome world :=
  id ← load (DevTimer.vars (sys w)) m_timer_Id;
  '(_, y) ← DevTimer_Start timer_settime_ret p_timer_callback now id ms 0 (sys w);
  Ret (set_sys w y).

(** @src src/mivifwk/odm/plugins/qcom/ldc/device/dev_detector.cpp:78-123 DevDetector_Create *)
Definition DevDetector_Create (now p : Z) (w : world) : outcome (Z * world) :=
  w ← lock m_mutex_Id w;
  let exit (m_id : Z) (w : world) := w ← unlock m_mutex_Id w; Ret (if m_id =? 0 then RET_ERR else RET_OK, w) in
  if negb (init_f w =? TRUE) then exit 0 w
  else
    match find_id (λ n, negb (pId n =? NULL) && (pId n =? p) && (en n =? TRUE)) (m_detector_list w) with
    | Some id => exit id w
    | None =>
        match find_id (λ n, en n =? FALSE) (m_detector_list w) with
        | None => exit 0 w
        | Some id =>
            n ← detector_at w id;
            c ← store (DevTimer.vars (sys w)) p id;
            exit id (set_detector (set_sys w (DevTimer.set_vars (sys w) c)) id
              (mkDetector p (fpsStr n) now 0 0 (consumeStr n) (run n) now now 0 0 0xffffffffffffffff 0 0 0 TRUE))
        end
    end.

(** @src src/mivifwk/odm/plugins/qcom/ldc/device/dev_detector.cpp:125-144 DevDetector_Destroy
    The watchdog's list keeps the id. *)
Definition DevDetector_Destroy (p : Z) (w : world) : outcome (Z * world) :=
  w ← lock m_mutex_Id w;
  let exit (w : world) := w ← unlock m_mutex_Id w; Ret (RET_OK, w) in
  if negb (init_f w =? TRUE) then exit w
  else if p =? NULL then exit w
  else
    id ← load (DevTimer.vars (sys w)) p;
    if bad_id id then exit w
    else
      n ← detector_at w id;
      if pId n =? NULL then exit w
      else
        m_id ← load (DevTimer.vars (sys w)) (pId n);
        if bad_id m_id then exit w
        else
          c ← store (DevTimer.vars (sys w)) p 0;
          exit (set_detector (set_sys w (DevTimer.set_vars (sys w) c)) m_id zero_detector).

(** A name copied into an array of 128 characters: one of 128 characters is let through. *)
Definition copy_name (str old : string) : outcome string :=
  let n := Z.of_nat (String.length str) in
  if (n <=? DETECTOR_NAME_LEN_MAX) && (0 <? n) then sprintf_s DETECTOR_NAME_LEN_MAX str else Ret old.

(** @src src/mivifwk/odm/plugins/qcom/ldc/device/dev_detector.cpp:146-164 DevDetector_Fps
    Without its log line. *)
Definition DevDetector_Fps (now id : Z) (str : option string) (w : world) : outcome (Z * world) :=
  if negb (init_f w =? TRUE) then Ret (RET_ERR, w)
  else if bad_id id then Ret (RET_ERR, w)
  else
    n ← detector_at w id;
    if negb (en n =? TRUE) then Ret (RET_ERR, w)
    else
      match str with
      | None => Ret (0, w)
      | Some str =>
          let start := if fps_add n =? 0 then now else fps_start_time n in
          let add := u32 (fps_add n + 1) in
          s ← copy_name str (fpsStr n);
          Ret (RET_OK, set_detector w id (with_fps n s start (if add =? 60 then 0 else add) (fps_run_flag n)))
      end.

(** @src src/mivifwk/odm/plugins/qcom/ldc/device/dev_detector.cpp:166-173 __DevDetector_Fps *)
Definition __DevDetector_Fps (now id : Z) (str : option string) (w : world) : outcome (Z * world) :=
  if negb (init_f w =? TRUE) then Ret (RET_ERR, w)
  else if bad_id id then Ret (RET_ERR, w)
  else
    n ← detector_at w id;
    if negb (en n =? TRUE) then Ret (RET_ERR, w)
    else
      match str with
      | None => Ret (0, w)
      | Some _ => DevDetector_Fps now id str (set_detector w id (with_fps n (fpsStr n) (fps_start_time n) (fps_add n) 1))
      end.

(** @src src/mivifwk/odm/plugins/qcom/ldc/device/dev_detector.cpp:175-187 DevDetector_Reset *)
Definition DevDetector_Reset (now id : Z) (w : world) : outcome (Z * world) :=
  if negb (init_f w =? TRUE) then Ret (RET_ERR, w)
  else if bad_id id then Ret (RET_ERR, w)
  else
    n ← detector_at w id;
    if negb (en n =? TRUE) then Ret (RET_ERR, w)
    else
      Ret (RET_OK, set_detector w id
        (mkDetector (pId n) (fpsStr n) now 0 (fps_run_flag n) (consumeStr n) (run n) (run_begin_time n) (run_end_time n)
           0 (run_max_time n) (run_min_time n) 0 0 0 (en n))).

(** @src src/mivifwk/odm/plugins/qcom/ldc/device/dev_detector.cpp:189-236 DevDetector_StartCountdown *)
Definition DevDetector_StartCountdown (now id : Z) (w : world) : outcome (Z * world) :=
  if (id <? 0) || (DETECTOR_NUM_MAX <=? id) then Ret (RET_ERR, w)
  else
    w ← lock m_mutexTimeout_Id w;
    x ← insert_timeout id (watch_of w);
    w ← unlock m_mutexTimeout_Id (set_watch w x);
    first ← arr_get (m_detector_id_timeout_list w) 0;
    if (0 <? first) && (first <? DETECTOR_NUM_MAX) then
      n ← detector_at w first;
      if negb (run_timeoutMsTimestamp n =? 0) then
        let timeOut := if now <? run_timeoutMsTimestamp n then s64 (run_timeoutMsTimestamp n - now) else 0 in
        w ← timer_Stop now w;
        w ← timer_Start now (if 0 <? timeOut then timeOut else 1) w;
        Ret (RET_OK, w)
      else Ret (RET_OK, w)
    else Ret (RET_OK, w).

(** @src src/mivifwk/odm/plugins/qcom/ldc/device/dev_detector.cpp:238-286 DevDetector_TimerHandle *)
Definition DevDetector_TimerHandle (now : Z) (w : world) : outcome world :=
  w ← lock m_mutexTimeout_Id w;
  '(minTimeOut, x) ← handle_loop (rounds (m_detector_id_timeout_num w)) now 0 NO_TIMEOUT (watch_of w);
  w ← unlock m_mutexTimeout_Id (set_watch w x);
  w ← timer_Stop now w;
  if (0 <? minTimeOut) && (minTimeOut <? NO_TIMEOUT) then timer_Start now minTimeOut w else Ret w.

(** @src src/mivifwk/odm/plugins/qcom/ldc/device/dev_detector.cpp:288-315 DevDetector_Begin *)
Definition DevDetector_Begin (now id : Z) (outStr : option string) (timeoutMs : Z) (w : world) : outcome (Z * world) :=
  if negb (init_f w =? TRUE) then Ret (RET_ERR, w)
  else if bad_id id then Ret (RET_ERR, w)
  else
    n ← detector_at w id;
    if negb (en n =? TRUE) then Ret (RET_ERR, w)
    else
      match outStr with
      | None => Ret (0, w)
      | Some outStr =>
          s ← copy_name outStr (consumeStr n);
          let n := mkDetector (pId n) (fpsStr n) (fps_start_time n) (fps_add n) (fps_run_flag n) s TRUE now
                     (run_end_time n) (run_all_time n) (run_max_time n) (run_min_time n)
                     (if 0 <? timeoutMs then u64 (now + timeoutMs) else 0) timeoutMs (run_add n) (en n) in
          '(_, w) ← DevDetector_StartCountdown now id (set_detector w id n);
          Ret (RET_OK, w)
      end.

(** @src src/mivifwk/odm/plugins/qcom/ldc/device/dev_detector.cpp:321-331 DevDetector_End (statistics)
    The node and the measured time, as a double. *)
Definition end_statistics (now : Z) (n : Detector_node) : outcome (Detector_node * Z) :=
  let currentTime := double_of (u64 (now - run_begin_time n)) in
  t ← to_u64 currentTime;
  Ret (mkDetector (pId n) (fpsStr n) (fps_start_time n) (fps_add n) (fps_run_flag n) (consumeStr n) (run n) (run_begin_time n)
         now (u64 (run_all_time n + u64 (now - run_begin_time n)))
         (if run_max_time n <? t then t else run_max_time n) (if t <? run_min_time n then t else run_min_time n)
         (run_timeoutMsTimestamp n) (run_timeout n) (u32 (run_add n + 1)) (en n), currentTime).

(** @src src/mivifwk/odm/plugins/qcom/ldc/device/dev_detector.cpp:317-365 DevDetector_End *)
Definition DevDetector_End (now id : Z) (w : world) : outcome (Z * world) :=
  if negb (init_f w =? TRUE) then Ret (0, w)
  else if bad_id id then Ret (0, w)
  else
    n ← detector_at w id;
    if negb (en n =? TRUE) then Ret (0, w)
    else
      '(n, currentTime) ← end_statistics now n;
      let w := set_detector w id n in
      w ← (if 0xffffffffff000000 <=? run_all_time n then '(_, w) ← DevDetector_Reset now id w; Ret w else Ret w);
      w ← lock m_mutexTimeout_Id w;
      x ← drop_loop (rounds (m_detector_id_timeout_num w)) id 0 (watch_of w);
      w ← unlock m_mutexTimeout_Id (set_watch w x);
      n ← detector_at w id;
      let n := with_timeout n 0 0 in
      let n := mkDetector (pId n) (fpsStr n) (fps_start_time n) (fps_add n) (fps_run_flag n) (consumeStr n) FALSE
                 (run_begin_time n) (run_end_time n) (run_all_time n) (run_max_time n) (run_min_time n)
                 (run_timeoutMsTimestamp n) (run_timeout n) (run_add n) (en n) in
      let w := set_detector w id n in
      w ← (if fps_run_flag n =? 0 then '(_, w) ← DevDetector_Fps now id (Some (consumeStr n)) w; Ret w else Ret w);
      ret ← to_s64 currentTime;
      Ret (ret, w).

(** @src src/mivifwk/odm/plugins/qcom/ldc/device/dev_detector.cpp:367-392 DevDetector_Report
    Without its log lines. *)
Definition DevDetector_Report (w : world) : outcome (Z * world) :=
  if negb (init_f w =? TRUE) then Ret (RET_ERR, w)
  else w ← lock m_mutex_Id w; w ← unlock m_mutex_Id w; Ret (RET_OK, w).

Definition no_detectors : list Detector_node := replicate (Z.to_nat DETECTOR_NUM_MAX) zero_detector.
Definition no_timeouts : list Z := replicate (Z.to_nat DETECTOR_NUM_MAX) 0.

(** A lock made, or given back, through the mutex module. *)
Definition mutex_op (f : M * cells → outcome (Z * (M * cells))) (w : world) : outcome (Z * world) :=
  '(ret, (m, c)) ← f (DevTimer.mutexes (sys w), DevTimer.vars (sys w));
  Ret (ret, set_sys w (DevTimer.set_vars (DevTimer.set_mutexes (sys w) m) c)).

(** @src src/mivifwk/odm/plugins/qcom/ldc/device/dev_detector.cpp:394-407 DevDetector_Init
    A failure is answered with 0, which is [RET_OK]. *)
Definition DevDetector_Init (mk : mark) (w : world) : outcome (Z * world) :=
  if init_f w =? TRUE then Ret (RET_OK, w)
  else
    '(r1, w) ← mutex_op (mx_Create m_mutex_Id mk) w;
    '(r2, w) ← mutex_op (mx_Create m_mutexTimeout_Id mk) w;
    '(r3, y) ← DevTimer_Create p_timer_mutex m_timer_Id TimerHandle NULL mk (sys w);
    let w := set_sys w y in
    let ret := s32 (Z.lor (s32 (Z.lor (s32 r1) r2)) r3) in
    if negb (ret =? RET_OK) then Ret (0, w)
    else Ret (RET_OK, mkWorld (sys w) TRUE no_detectors 0 no_timeouts (reports w)).

(** The loop of [Deinit] over a local variable at [idp]. *)
Fixpoint destroy_all (idp : Z) (l : list Z) (w : world) : outcome world :=
  match l with
  | [] => Ret w
  | id :: l' =>
      c ← store (DevTimer.vars (sys w)) idp id;
      '(_, w) ← DevDetector_Destroy idp (set_sys w (DevTimer.set_vars (sys w) c));
      destroy_all idp l' w
  end.

(** @src src/mivifwk/odm/plugins/qcom/ldc/device/dev_detector.cpp:409-434 DevDetector_Deinit *)
Definition DevDetector_Deinit (now idp : Z) (w : world) : outcome (Z * world) :=
  if negb (init_f w =? TRUE) then Ret (RET_OK, w)
  else
    let report := existsb (λ n, negb (pId n =? NULL) && (en n =? TRUE)) (m_detector_list w) in
    w ← (if report then r ← DevDetector_Report w; Ret r.2 else Ret w);
    w ← destroy_all idp detector_ids w;
    let w := mkWorld (sys w) FALSE no_detectors 0 no_timeouts (reports w) in
    '(_, y) ← DevTimer_Destroy timer_settime_ret p_timer_mutex p_timer_callback now m_timer_Id (sys w);
    let w := set_sys w y in
    '(_, w) ← mutex_op (mx_Destroy m_mutexTimeout_Id) w;
    '(_, w) ← mutex_op (mx_Destroy m_mutex_Id) w;
    Ret (RET_OK, w).
End Detector.
