(* ===== verification/DevDetectorSpec.v ===== *)
(** * What the detectors do with measurements that take too long

    The watchdog's list stays in the order of the deadlines; which entries a round of
    the watchdog reports; three ways in which a measurement goes unreported. *)
From S2P Require Import Prelude DevTypes DevMutex DevTimer DevArrays DevDetector.
From stdpp Require Import sorting strings.
#[local] Open Scope Z_scope.

(** ** The list *)

(** The ids in the list. *)
Definition entries (x : watch) : list Z := take (Z.to_nat (num x)) (ids x).
Definition node_of (ns : list Detector_node) (id : Z) : Detector_node := default zero_detector (ns !! Z.to_nat id).
Definition deadline (ns : list Detector_node) (id : Z) : Z := run_timeoutMsTimestamp (node_of ns id).

Record watch_ok (x : watch) : Prop := {
  ok_nodes : length (nodes x) = 64%nat;
  ok_ids : length (ids x) = 64%nat;
  ok_num : 0 ≤ num x ≤ 63;
  ok_entries : Forall (λ id, 0 ≤ id < 64) (entries x);
}.
Definition by_deadline (ns : list Detector_node) (a b : Z) : Prop := deadline ns a ≤ deadline ns b.

Lemma length_timeouts x : watch_ok x → length (entries x) = Z.to_nat (num x).
Proof. intros [? Hi Hn _]. unfold entries. rewrite length_take. lia. Qed.

Lemma node_at (ns : list Detector_node) id : length ns = 64%nat → 0 ≤ id < 64 → arr_get ns id = Ret (node_of ns id).
Proof.
  intros Hl Hid. destruct (arr_get_inside ns id) as (n & -> & Hn); [lia|]. unfold node_of. by rewrite Hn.
Qed.

Lemma entry_at x i : watch_ok x → 0 ≤ i < num x → ∃ id, entries x !! Z.to_nat i = Some id ∧ arr_get (ids x) i = Ret id ∧ 0 ≤ id < 64.
Proof.
  intros Hx Hi. destruct (lookup_lt_is_Some_2 (entries x) (Z.to_nat i)) as [id Hid]; [rewrite length_timeouts by done; lia|].
  exists id. split; [done|]. pose proof (ok_entries _ Hx) as Hr. rewrite Forall_lookup in Hr. split; [|by eapply Hr].
  apply arr_get_Some; [lia|]. unfold entries in Hid. by apply lookup_take_Some in Hid as [? _].
Qed.

Lemma deadline_entry x i id : watch_ok x → 0 ≤ i < num x → entries x !! Z.to_nat i = Some id →
  deadline_at x i = Ret (deadline (nodes x) id).
Proof.
  intros Hx Hi Hid. destruct (entry_at x i Hx Hi) as (id' & Hid' & E & Hr). rewrite Hid in Hid'. injection Hid' as <-.
  unfold deadline_at. rewrite E. cbn [mbind outcome_bind]. by rewrite (node_at _ _ (ok_nodes _ Hx) Hr).
Qed.

(** Inserting a measurement keeps the list in order; a list of 63 loses its last entry. *)
Lemma insert_timeout_sorted id x : watch_ok x → 0 ≤ id < 64 → num x < 63 →
  StronglySorted (by_deadline (nodes x)) (entries x) →
  ∃ x' l1 l2, insert_timeout id x = Ret x' ∧ watch_ok x' ∧ nodes x' = nodes x ∧ told x' = told x ∧
    entries x = l1 ++ l2 ∧ entries x' = l1 ++ id :: l2 ∧ StronglySorted (by_deadline (nodes x)) (entries x') ∧
    Forall (λ e, deadline (nodes x) e < deadline (nodes x) id) l1 ∧ Forall (by_deadline (nodes x) id) l2.
Proof.
  intros Hx Hid Hroom Hs. pose proof Hx as [Hnl Hil Hn Hr]. unfold insert_timeout. rewrite node_at by done. cbn [mbind outcome_bind].
  set (D i := deadline (nodes x) (default 0 (entries x !! Z.to_nat i))).
  destruct (bound_search_spec (λ i, D i <? deadline (nodes x) id)
    (λ mid, d ← deadline_at x mid; Ret (Some (d <? run_timeoutMsTimestamp (node_of (nodes x) id)))) (rounds (num x)) 0 (num x - 1))
    as (f & -> & Hf & Hlt & Hge).
  - intros i Hi. destruct (entry_at x i Hx) as (e & He & _); [lia|]. rewrite (deadline_entry x i e) by (done || lia).
    unfold D. by rewrite He.
  - intros i j Hi Hj. unfold D. destruct (entry_at x i Hx) as (a & Ha & _); [lia|]. destruct (entry_at x j Hx) as (b & Hb & _); [lia|].
    rewrite Ha, Hb. cbn. rewrite !Z.ltb_lt. destruct (decide (i = j)) as [->|Hne]; [rewrite Ha in Hb; by injection Hb as ->|].
    pose proof (StronglySorted_index _ _ _ _ _ _ Hs Ha Hb ltac:(lia)) as Hab. unfold by_deadline in Hab. lia.
  - lia.
  - unfold rounds. lia.
  - cbn [mbind outcome_bind]. destruct (insert_entry_spec (ids x) (num x) f id) as (l & El & Hll & Htk); [lia|lia|].
    unfold insert_entry in El. destruct (shift_up _ _ _) as [l0| | | |]; try done. cbn [mbind outcome_bind] in El |- *.
    rewrite (proj2 (Z.leb_gt _ f)) by (unfold DETECTOR_NUM_MAX; lia). rewrite El. cbn [mbind outcome_bind].
    rewrite (proj2 (Z.leb_gt _ (num x + 1))) by (unfold DETECTOR_NUM_MAX; lia).
    assert (entries x = take (Z.to_nat f) (ids x) ++ drop (Z.to_nat f) (entries x)) as Esplit.
    { unfold entries. rewrite <-(take_drop (Z.to_nat f) (take (Z.to_nat (num x)) (ids x))) at 1. f_equal. rewrite take_take. f_equal. lia. }
    assert (Forall (λ e, deadline (nodes x) e < deadline (nodes x) id) (take (Z.to_nat f) (ids x))) as H1.
    { apply Forall_lookup. intros i e Hi. pose proof (lookup_lt_Some _ _ _ Hi) as Hl. rewrite length_take in Hl.
      specialize (Hlt (Z.of_nat i) ltac:(lia)). apply Z.ltb_lt in Hlt. unfold D in Hlt.
      rewrite Esplit, Nat2Z.id, lookup_app_l, Hi in Hlt by (rewrite length_take; lia). done. }
    assert (Forall (by_deadline (nodes x) id) (drop (Z.to_nat f) (entries x))) as H2.
    { apply Forall_lookup. intros i e Hi. pose proof (lookup_lt_Some _ _ _ Hi) as Hl. rewrite length_drop, length_timeouts in Hl by done.
      specialize (Hge (f + Z.of_nat i) ltac:(lia)). apply Z.ltb_ge in Hge. unfold D in Hge. rewrite lookup_drop in Hi.
      replace (Z.to_nat (f + Z.of_nat i)) with (Z.to_nat f + i)%nat in Hge by lia. rewrite Hi in Hge. exact Hge. }
    rewrite Esplit in Hs, Hr. apply StronglySorted_app in Hs as (H12 & Hs1 & Hs2). apply Forall_app in Hr as [Hr1 Hr2].
    set (x' := mkWatch (nodes x) (num x + 1) l (told x)).
    assert (entries x' = take (Z.to_nat f) (ids x) ++ id :: drop (Z.to_nat f) (entries x)) as Ex' by (unfold entries at 1; exact Htk).
    exists x', (take (Z.to_nat f) (ids x)), (drop (Z.to_nat f) (entries x)). rewrite Ex'.
    split; [done|]. split; [|split; [done|split; [done|split; [exact Esplit|split; [done|split; [|done]]]]]].
    + split; [done|cbn; lia|cbn; lia|]. rewrite Ex'. apply Forall_app. split; [done|]. by constructor.
    + apply StronglySorted_app. split; [|split; [done|by apply StronglySorted_cons]].
      intros a b Ha [->|Hb]%elem_of_cons; [|by apply H12]. rewrite Forall_forall in H1. unfold by_deadline. specialize (H1 a Ha). lia.
Qed.

(** Taking out the entry behind [pre]. *)
Lemma drop_timeout_spec x pre e l : watch_ok x → entries x = pre ++ e :: l →
  ∃ x', drop_timeout (Z.of_nat (length pre)) x = Ret x' ∧ watch_ok x' ∧ entries x' = pre ++ l ∧ nodes x' = nodes x ∧ told x' = told x.
Proof.
  intros Hx He. pose proof Hx as [Hnl Hil Hn Hr]. pose proof (length_timeouts x Hx) as Hl.
  rewrite He, length_app in Hl. cbn [length] in Hl. unfold drop_timeout.
  destruct (remove_entry_spec (ids x) (num x) (Z.of_nat (length pre))) as (a & -> & Hla & Htk); [lia|lia|].
  cbn [mbind outcome_bind]. rewrite arr_set_inside by lia. cbn [mbind outcome_bind].
  rewrite (proj2 (Z.ltb_ge (num x - 1) 0)) by lia.
  set (x' := mkWatch (nodes x) (num x - 1) (<[Z.to_nat (num x):=0]> a) (told x)).
  assert (entries x' = pre ++ l) as Ex'.
  { unfold entries. cbn [num ids x']. rewrite take_insert_ge by lia. rewrite Htk. fold (entries x). rewrite He, Nat2Z.id.
    f_equal.
    - assert (take (length pre) (entries x) = pre) as Ep by (rewrite He; by apply take_app_length).
      unfold entries in Ep. rewrite take_take in Ep. rewrite <-Ep at 2. f_equal. lia.
    - rewrite drop_app_ge by lia. by replace (S (length pre) - length pre)%nat with 1%nat by lia. }
  exists x'. split; [done|]. split; [|done]. split; [done|cbn; rewrite length_insert; lia|cbn; lia|].
  rewrite Ex'. rewrite He in Hr. apply Forall_app in Hr as [? [? ?]%Forall_cons]. by apply Forall_app.
Qed.

(** ** A round of the watchdog *)

(** A measurement with a deadline, and one that is past it. *)
Definition timed (n : Detector_node) : bool :=
  negb (run_timeoutMsTimestamp n =? 0) && negb (run_timeout n =? 0) && (run_begin_time n <? run_timeoutMsTimestamp n).
Definition expired (now : Z) (n : Detector_node) : bool := timed n && (run_timeoutMsTimestamp n <=? now).

(** What a round does to a list: the entries reported, the entries kept, and the least
    time left.  The entry behind one that is reported is kept without a look. *)
Fixpoint pass (now : Z) (ns : list Detector_node) (l : list Z) (m : Z) : list Z * list Z * Z :=
  match l with
  | [] => ([], [], m)
  | e :: l1 =>
      if expired now (node_of ns e) then
        match l1 with
        | [] => ([e], [], m)
        | e2 :: l2 => let '(r, k, m) := pass now ns l2 m in (e :: r, e2 :: k, m)
        end
      else
        let '(r, k, m) := pass now ns l1 (if timed (node_of ns e) then Z.min (deadline ns e - now) m else m) in
        (r, e :: k, m)
  end.

Lemma pass_ext now ns ns' l m : Forall (λ e, node_of ns' e = node_of ns e) l → pass now ns' l m = pass now ns l m.
Proof.
  revert l m. assert (∀ k l m, (length l ≤ k)%nat → Forall (λ e, node_of ns' e = node_of ns e) l → pass now ns' l m = pass now ns l m) as H.
  { induction k as [|k IH]; intros [|e l] m Hk Hl; [done|cbn in Hk; lia|done|]. apply Forall_cons in Hl as [He Hl].
    cbn [pass]. unfold deadline. rewrite He. destruct (expired now (node_of ns e)); cbn in Hk.
    - destruct l as [|e2 l2]; [done|]. apply Forall_cons in Hl as [_ Hl]. cbn in Hk. by rewrite (IH l2) by (done || lia).
    - by rewrite IH by (done || lia). }
  intros l m. by apply (H (length l)).
Qed.

(** The nodes after the measurements [r] were reported. *)
Definition reported (ns ns' : list Detector_node) (r : list Z) : Prop :=
  ∀ id, 0 ≤ id < 64 → node_of ns' id = if decide (id ∈ r) then with_timeout (node_of ns id) 0 0 else node_of ns id.

Definition clock_64 (now : Z) : Prop := 0 ≤ now < 2 ^ 63.
Definition deadlines_ok (ns : list Detector_node) (l : list Z) : Prop := Forall (λ e, 0 ≤ deadline ns e < 2 ^ 63) l.

(** One place of the list. *)
Lemma handle_visit now i m x e fuel : clock_64 now → watch_ok x → 0 ≤ i < num x → entries x !! Z.to_nat i = Some e →
  0 ≤ deadline (nodes x) e < 2 ^ 63 →
  handle_loop (S fuel) now i m x
  = if expired now (node_of (nodes x) e) then
      x1 ← drop_timeout i x;
      l ← arr_set (nodes x1) e (with_timeout (node_of (nodes x) e) 0 0);
      handle_loop fuel now (i + 1) m (mkWatch l (num x1) (ids x1) (told x1 ++ [e]))
    else handle_loop fuel now (i + 1) (if timed (node_of (nodes x) e) then Z.min (deadline (nodes x) e - now) m else m) x.
Proof.
  intros Hnow Hx Hi He Hde. destruct (entry_at x i Hx Hi) as (e' & He' & Ea & Her). rewrite He in He'. injection He' as <-.
  cbn [handle_loop]. rewrite (proj2 (Z.ltb_lt i (num x))), Ea by lia. cbn [mbind outcome_bind].
  rewrite (proj2 (Z.ltb_ge e 0)), (proj2 (Z.leb_gt _ e)) by (unfold DETECTOR_NUM_MAX; lia). cbn [orb].
  rewrite (node_at _ _ (ok_nodes _ Hx) Her). cbn [mbind outcome_bind]. unfold expired, timed, deadline in *.
  set (n := node_of (nodes x) e) in *. unfold clock_64 in Hnow.
  destruct (Z.eqb_spec (run_timeoutMsTimestamp n) 0); [done|].
  destruct (Z.eqb_spec (run_timeout n) 0); [done|]. cbn [orb negb andb].
  destruct (Z.leb_spec (run_timeoutMsTimestamp n) (run_begin_time n)), (Z.ltb_spec (run_begin_time n) (run_timeoutMsTimestamp n)); try lia; [done|].
  cbn [andb]. destruct (Z.leb_spec (run_timeoutMsTimestamp n) now); [done|].
  rewrite s64_small by lia.
  by replace (if run_timeoutMsTimestamp n - now <? m then run_timeoutMsTimestamp n - now else m)
    with (Z.min (run_timeoutMsTimestamp n - now) m) by (destruct (Z.ltb_spec (run_timeoutMsTimestamp n - now) m); lia).
Qed.

Lemma handle_end now i m x fuel : num x ≤ i → handle_loop (S fuel) now i m x = Ret (m, x).
Proof. intros Hi. cbn [handle_loop]. by rewrite (proj2 (Z.ltb_ge _ _)). Qed.

Lemma reported_nil ns : reported ns ns [].
Proof. intros id _. by rewrite decide_False by apply not_elem_of_nil. Qed.

(** The state after the report of the entry behind [pre]. *)
Lemma report_one x pre e l : watch_ok x → entries x = pre ++ e :: l →
  ∃ x1 ns, drop_timeout (Z.of_nat (length pre)) x = Ret x1 ∧
    arr_set (nodes x1) e (with_timeout (node_of (nodes x) e) 0 0) = Ret ns ∧
    let x2 := mkWatch ns (num x1) (ids x1) (told x1 ++ [e]) in
    watch_ok x2 ∧ entries x2 = pre ++ l ∧ told x2 = told x ++ [e] ∧ reported (nodes x) ns [e].
Proof.
  intros Hx He. destruct (drop_timeout_spec x pre e l Hx He) as (x1 & E & Hx1 & He1 & Hn1 & Ht1).
  pose proof (ok_entries _ Hx) as Hr. rewrite He in Hr. apply Forall_app in Hr as [_ [Her _]%Forall_cons].
  pose proof Hx1 as [Hnl1 Hil1 Hnum1 Hr1].
  exists x1, (<[Z.to_nat e := with_timeout (node_of (nodes x) e) 0 0]> (nodes x1)). split; [done|].
  split; [apply arr_set_inside; lia|]. split; [|split; [exact He1|split; [by rewrite <-Ht1|]]].
  - split; cbn; [by rewrite length_insert|done|done|exact Hr1].
  - intros id Hid. unfold node_of. rewrite Hn1. destruct (decide (id = e)) as [->|Hne].
    + rewrite list_lookup_insert_eq by (rewrite <-Hn1; lia). by rewrite decide_True by by apply list_elem_of_singleton.
    + rewrite list_lookup_insert_ne by lia. rewrite decide_False; [done|]. by intros ->%list_elem_of_singleton.
Qed.

Lemma reported_cons ns ns1 ns2 e r : e ∉ r → reported ns ns1 [e] → reported ns1 ns2 r → reported ns ns2 (e :: r).
Proof.
  intros Her H1 H2 id Hid. rewrite (H2 id Hid), (H1 id Hid).
  destruct (decide (id ∈ r)) as [Hr|Hr].
  - rewrite (decide_False (P := id ∈ [e])), (decide_True (P := id ∈ e :: r)); [done|by right|].
    intros ->%list_elem_of_singleton. done.
  - destruct (decide (id ∈ [e])) as [->%list_elem_of_singleton|Hne].
    + by rewrite decide_True by by left.
    + rewrite decide_False; [done|]. intros [->|?]%elem_of_cons; [|done]. by apply Hne, list_elem_of_singleton.
Qed.

(** Those that are not reported keep their deadlines. *)
Lemma reported_same ns ns' r l : reported ns ns' r → Forall (λ e, 0 ≤ e < 64) l → (∀ e, e ∈ l → e ∉ r) →
  Forall (λ e, node_of ns' e = node_of ns e) l.
Proof.
  intros Hr Hl Hd. rewrite Forall_forall in *. intros e He. rewrite (Hr e (Hl e He)). by rewrite decide_False by by apply Hd.
Qed.

Lemma handle_loop_pass now : clock_64 now → ∀ k l pre x m fuel, (length l ≤ k)%nat → (length l < fuel)%nat →
  watch_ok x → entries x = pre ++ l → NoDup l → deadlines_ok (nodes x) l →
  let '(r, kept, m') := pass now (nodes x) l m in
  ∃ x', handle_loop fuel now (Z.of_nat (length pre)) m x = Ret (m', x') ∧ watch_ok x' ∧ entries x' = pre ++ kept ∧
    told x' = told x ++ r ∧ (∀ e, e ∈ r → e ∈ l) ∧ reported (nodes x) (nodes x') r.
Proof.
  intros Hnow. induction k as [|k IH]; intros [|e l] pre x m [|fuel] Hk Hf Hx He Hd Hdl; cbn [length] in *; try lia;
    pose proof (length_timeouts x Hx) as Hl; rewrite He, length_app in Hl; cbn [length] in Hl; pose proof (ok_num _ Hx) as Hn.
  1,2: cbn [pass]; rewrite handle_end by lia; exists x; rewrite !app_nil_r; rewrite app_nil_r in He;
    split_and!; try done; apply reported_nil.
  apply NoDup_cons in Hd as [Hel Hd]. apply Forall_cons in Hdl as [Hde Hdl].
  rewrite (handle_visit now _ m x e) by (rewrite ?Nat2Z.id, ?He; try done; try lia; by apply list_lookup_middle). cbn [pass].
  assert (Z.of_nat (length pre) + 1 = Z.of_nat (length pre + 1)) as -> by lia.
  destruct (expired now (node_of (nodes x) e)).
  - destruct (report_one x pre e l Hx He) as (x1 & ns & -> & E2 & Hx2 & He2 & Ht2 & Hrep). cbn [mbind outcome_bind]. rewrite E2. cbn [mbind outcome_bind].
    set (x2 := mkWatch ns _ _ _) in *. pose proof (length_timeouts x2 Hx2) as Hl2. rewrite He2, length_app in Hl2. pose proof (ok_num _ Hx2).
    destruct l as [|e2 l2].
    { destruct fuel as [|fuel]; [cbn in Hf; lia|]. rewrite handle_end by (cbn [length] in Hl2; lia). exists x2. split_and!; try done. }
    apply NoDup_cons in Hd as [He2l Hd]. apply Forall_cons in Hdl as [_ Hdl].
    pose proof (ok_entries _ Hx) as Hr. rewrite He in Hr. apply Forall_app in Hr as [_ [_ [_ Hr]%Forall_cons]%Forall_cons].
    assert (Forall (λ e, node_of ns e = node_of (nodes x) e) l2) as Hsame.
    { apply (reported_same _ _ [e]); [done|done|]. intros a Ha ->%list_elem_of_singleton. apply Hel. by right. }
    pose proof (IH l2 (pre ++ [e2]) x2 m fuel ltac:(cbn in Hk; lia) ltac:(cbn in Hf; lia) Hx2) as IH'. change (nodes x2) with ns in IH'.
    rewrite (pass_ext now (nodes x) ns) in IH' by done. destruct (pass now (nodes x) l2 m) as [[r kept] m'].
    destruct IH' as (x' & E & Hx' & Hk' & Ht' & Hrl & Hrep').
    { rewrite He2, <-app_assoc. done. } { done. }
    { unfold deadlines_ok, deadline in *. rewrite Forall_forall in *. intros a Ha. rewrite (Hsame a Ha). by apply Hdl. }
    rewrite length_app in E. exists x'. split; [exact E|]. split; [done|].
    split; [by rewrite Hk', <-app_assoc|]. split; [rewrite Ht', Ht2, <-app_assoc; done|]. split.
    + intros a [->|Ha]%elem_of_cons; [by left|]. right; right. by apply Hrl.
    + apply (reported_cons _ ns); [|done|done]. intros Ha. apply Hel. right. by apply Hrl.
  - set (m1 := if timed _ then _ else _).
    pose proof (IH l (pre ++ [e]) x m1 fuel ltac:(lia) ltac:(lia) Hx) as IH'. destruct (pass now (nodes x) l m1) as [[r kept] m'].
    destruct IH' as (x' & E & Hx' & Hk' & Ht' & Hrl & Hrep'); [by rewrite He, <-app_assoc|done|done|].
    rewrite length_app in E. exists x'. split; [exact E|]. split; [done|]. split; [by rewrite Hk', <-app_assoc|].
    split; [done|]. split; [|done]. intros a Ha. right. by apply Hrl.
Qed.

(** ** The operations *)

Section Operations.
Context `{MutexLaws M}.
Context (timer_settime_ret p_timer_callback m_mutexTimeout_Id m_timer_Id : Z).
Implicit Types w : world M.

Abbreviation Handle := (DevDetector_TimerHandle timer_settime_ret p_timer_callback m_mutexTimeout_Id m_timer_Id).
Abbreviation Begin := (DevDetector_Begin timer_settime_ret p_timer_callback m_mutexTimeout_Id m_timer_Id).
Abbreviation Stop := (timer_Stop timer_settime_ret p_timer_callback m_timer_Id).
Abbreviation Start := (timer_Start timer_settime_ret p_timer_callback m_timer_Id).

(** The lock of the list is lock [mid], and free. *)
Definition list_free (mid : Z) w : Prop :=
  DevTimer.vars (sys w) !! m_mutexTimeout_Id = Some mid ∧ mx_free (DevTimer.mutexes (sys w)) mid.

Definition with_mutexes w (m : M) : world M := set_sys w (DevTimer.set_mutexes (sys w) m).

Lemma detector_lock mid w : list_free mid w → ∃ m, lock m_mutexTimeout_Id w = Ret (with_mutexes w m) ∧ mx_held m mid ∧
  ∀ id, id ≠ mid → mx_held (DevTimer.mutexes (sys w)) id → mx_held m id.
Proof.
  intros [Ev Hfree]. destruct (mx_lock_free _ _ Hfree) as (m & E & Hh & Ho). exists m. unfold lock, DevTimer.lock.
  rewrite (load_Some _ _ mid) by done. cbn [mbind outcome_bind]. rewrite E. split; [done|]. split; [done|]. intros id Hid. by apply Ho.
Qed.

Lemma detector_unlock mid w : DevTimer.vars (sys w) !! m_mutexTimeout_Id = Some mid → mx_held (DevTimer.mutexes (sys w)) mid →
  ∃ m, unlock m_mutexTimeout_Id w = Ret (with_mutexes w m) ∧ mx_free m mid ∧
    ∀ id, id ≠ mid → mx_held (DevTimer.mutexes (sys w)) id → mx_held m id.
Proof.
  intros Ev Hheld. destruct (mx_unlock_held _ _ Hheld) as (m & E & Hf & Ho). exists m. unfold unlock, DevTimer.unlock.
  rewrite (load_Some _ _ mid) by done. cbn [mbind outcome_bind]. rewrite E. split; [done|]. split; [done|]. intros id Hid. by apply Ho.
Qed.

(** The handler up to its calls of the timer module. *)
Lemma Handle_list settime mid now w : list_free mid w → clock_64 now →
  watch_ok (watch_of w) → NoDup (entries (watch_of w)) → deadlines_ok (m_detector_list w) (entries (watch_of w)) →
  let '(r, kept, m) := pass now (m_detector_list w) (entries (watch_of w)) NO_TIMEOUT in
  ∃ x mx, entries x = kept ∧ told x = reports w ++ r ∧ reported (m_detector_list w) (nodes x) r ∧
    (∀ id, id ≠ mid → mx_held (DevTimer.mutexes (sys w)) id → mx_held mx id) ∧
    DevDetector_TimerHandle settime p_timer_callback m_mutexTimeout_Id m_timer_Id now w
    = (w2 ← timer_Stop settime p_timer_callback m_timer_Id now (with_mutexes (set_watch w x) mx);
       if (0 <? m) && (m <? NO_TIMEOUT) then timer_Start settime p_timer_callback m_timer_Id now m w2 else Ret w2).
Proof.
  intros Hfree Hnow Hx Hd Hdl. unfold DevDetector_TimerHandle.
  destruct (detector_lock mid w Hfree) as (m1 & -> & Hh & Ho). cbn [mbind outcome_bind].
  pose proof (handle_loop_pass now Hnow (length (entries (watch_of w))) (entries (watch_of w)) [] (watch_of w) NO_TIMEOUT
    (rounds (m_detector_id_timeout_num w))) as Hp. change (nodes (watch_of w)) with (m_detector_list w) in Hp.
  destruct (pass now (m_detector_list w) (entries (watch_of w)) NO_TIMEOUT) as [[r kept] m].
  destruct Hp as (x & E & Hx' & Hk & Ht & _ & Hr); try done.
  { rewrite (length_timeouts _ Hx). cbn [num watch_of]. unfold rounds. lia. }
  change (watch_of (with_mutexes w m1)) with (watch_of w). change (m_detector_id_timeout_num (with_mutexes w m1)) with (m_detector_id_timeout_num w).
  cbn [length] in E. change (Z.of_nat 0) with 0 in E. rewrite E. cbn [mbind outcome_bind].
  destruct (detector_unlock mid (set_watch (with_mutexes w m1) x)) as (m2 & -> & _ & Ho2); [apply Hfree|done|]. cbn [mbind outcome_bind].
  exists x, m2. split_and!; try done. intros id Hid Hheld. apply Ho2; [done|]. cbn. by apply Ho.
Qed.

(** A round of the watchdog: of the entries of the list it reports those that are past
    their deadline, except the one behind an entry it reports, which is kept without a
    look; it stops the timer and starts it for the least time left of the entries it
    looked at, or leaves it stopped when there is none. *)
Theorem TimerHandle_pass (mid now : Z) w : list_free mid w → clock_64 now →
  watch_ok (watch_of w) → NoDup (entries (watch_of w)) → deadlines_ok (m_detector_list w) (entries (watch_of w)) →
  let '(r, kept, m) := pass now (m_detector_list w) (entries (watch_of w)) NO_TIMEOUT in
  ∃ w1, entries (watch_of w1) = kept ∧ reports w1 = reports w ++ r ∧ reported (m_detector_list w) (m_detector_list w1) r ∧
    DevTimer.m_timer_list (sys w1) = DevTimer.m_timer_list (sys w) ∧
    Handle now w = (w2 ← Stop now w1; if (0 <? m) && (m <? NO_TIMEOUT) then Start now m w2 else Ret w2).
Proof.
  intros Hfree Hnow Hx Hd Hdl. pose proof (Handle_list timer_settime_ret mid now w Hfree Hnow Hx Hd Hdl) as Hp.
  destruct (pass now _ _ _) as [[r kept] m]. destruct Hp as (x & mx & Hk & Ht & Hr & _ & E).
  exists (with_mutexes (set_watch w x) mx). split; [by destruct x|]. by split_and!.
Qed.

(** The countdown of a measurement that is not in the list, behind one with deadline 0. *)
Lemma Countdown_behind mid now id a w rest : list_free mid w → watch_ok (watch_of w) → m_detector_id_timeout_num w < 63 →
  entries (watch_of w) = a :: rest → 0 < a → deadline (m_detector_list w) a = 0 →
  StronglySorted (by_deadline (m_detector_list w)) (entries (watch_of w)) → 0 < id < 64 → 0 < deadline (m_detector_list w) id →
  ∃ w', DevDetector_StartCountdown timer_settime_ret p_timer_callback m_mutexTimeout_Id m_timer_Id now id w = Ret (RET_OK, w') ∧
    id ∈ entries (watch_of w') ∧ m_detector_list w' = m_detector_list w ∧
    DevTimer.m_timer_list (sys w') = DevTimer.m_timer_list (sys w) ∧ DevTimer.base (sys w') = DevTimer.base (sys w).
Proof.
  intros Hfree Hx Hroom He Ha Hda Hs Hid Hdid. unfold DevDetector_StartCountdown.
  rewrite (proj2 (Z.ltb_ge id 0)), (proj2 (Z.leb_gt _ id)) by (unfold DETECTOR_NUM_MAX; lia). cbn [orb].
  destruct (detector_lock mid w Hfree) as (m1 & -> & Hh & _). cbn [mbind outcome_bind].
  change (watch_of (with_mutexes w m1)) with (watch_of w).
  destruct (insert_timeout_sorted id (watch_of w)) as (x & l1 & l2 & -> & Hx' & Hns & Ht & Esplit & Ex' & _ & _ & H2); try done; [lia|].
  cbn [mbind outcome_bind].
  destruct (detector_unlock mid (set_watch (with_mutexes w m1) x)) as (m2 & -> & _); [apply Hfree|done|]. cbn [mbind outcome_bind].
  set (w2 := with_mutexes (set_watch (with_mutexes w m1) x) m2).
  assert (∃ l, entries x = a :: l) as [l El].
  { rewrite He in Esplit. destruct l1 as [|b l1]; cbn in Esplit.
    - subst l2. apply Forall_cons in H2 as [Hle _]. unfold by_deadline in Hle. cbn [nodes watch_of] in Hle. lia.
    - injection Esplit as <- _. eexists. exact Ex'. }
  assert (0 < num x) as Hpos by (pose proof (length_timeouts x Hx') as Hl; rewrite El in Hl; cbn in Hl; lia).
  destruct (entry_at x 0 Hx') as (a' & Ea & Eg & Har); [lia|]. rewrite El in Ea. injection Ea as <-.
  change (m_detector_id_timeout_list w2) with (ids x). rewrite Eg. cbn [mbind outcome_bind].
  rewrite (proj2 (Z.ltb_lt 0 a)), (proj2 (Z.ltb_lt a DETECTOR_NUM_MAX)) by (unfold DETECTOR_NUM_MAX; lia). cbn [andb].
  unfold detector_at. change (m_detector_list w2) with (nodes x). rewrite (node_at _ _ (ok_nodes _ Hx')) by lia. cbn [mbind outcome_bind].
  rewrite Hns. unfold deadline in Hda. cbn [nodes watch_of]. rewrite Hda. cbn [negb Z.eqb].
  exists w2. split; [done|]. split; [|by split].
  assert (watch_of w2 = x) as -> by (by destruct x). rewrite Ex'. apply elem_of_app. right. by left.
Qed.

Lemma node_of_insert (ns : list Detector_node) id n e : (Z.to_nat id < length ns)%nat → 0 ≤ id → 0 ≤ e →
  node_of (<[Z.to_nat id := n]> ns) e = if decide (e = id) then n else node_of ns e.
Proof.
  intros Hl Hid He. unfold node_of. destruct (decide (e = id)) as [->|Hne].
  - by rewrite list_lookup_insert_eq.
  - by rewrite list_lookup_insert_ne by lia.
Qed.

(** A measurement without a timeout is at the head of the list with deadline 0, and then
    [Begin] of another measurement with a timeout puts it behind and arms no timer: it
    is not watched. *)
Theorem Begin_behind_untimed (mid now id a ms : Z) (str : String.string) w rest :
  list_free mid w → init_f w = TRUE → watch_ok (watch_of w) → m_detector_id_timeout_num w < 63 →
  entries (watch_of w) = a :: rest → 0 < a → deadline (m_detector_list w) a = 0 →
  StronglySorted (by_deadline (m_detector_list w)) (entries (watch_of w)) →
  0 < id < 64 → id ∉ entries (watch_of w) → en (node_of (m_detector_list w) id) = TRUE →
  0 < Z.of_nat (String.length str) < 128 → 0 ≤ now → 0 < ms → now + ms < 2 ^ 64 →
  ∃ w', Begin now id (Some str) ms w = Ret (RET_OK, w') ∧ id ∈ entries (watch_of w') ∧
    deadline (m_detector_list w') id = now + ms ∧
    DevTimer.m_timer_list (sys w') = DevTimer.m_timer_list (sys w) ∧ DevTimer.base (sys w') = DevTimer.base (sys w).
Proof.
  intros Hfree Hi Hx Hroom He Ha Hda Hs Hid Hin Hen Hstr Hnow Hms Hsum. unfold DevDetector_Begin. rewrite Hi.
  change (negb (TRUE =? TRUE)) with false. unfold bad_id, detector_at.
  rewrite (proj2 (Z.leb_gt _ id)), (proj2 (Z.leb_gt id 0)) by (unfold DETECTOR_NUM_MAX; lia). cbn [orb].
  rewrite (node_at _ _ (ok_nodes _ Hx)) by lia. cbn [mbind outcome_bind]. change (nodes (watch_of w)) with (m_detector_list w).
  rewrite Hen. change (negb (TRUE =? TRUE)) with false. cbv iota.
  unfold copy_name, sprintf_s, DETECTOR_NAME_LEN_MAX. rewrite (proj2 (Z.leb_le _ 128)), (proj2 (Z.ltb_lt 0 (Z.of_nat (String.length str)))), (proj2 (Z.ltb_lt (Z.of_nat (String.length str)) 128)) by lia.
  cbn [andb mbind outcome_bind]. rewrite (proj2 (Z.ltb_lt 0 ms)), u64_small by lia.
  set (n := mkDetector _ _ _ _ _ _ _ _ _ _ _ _ _ _ _ _). set (w1 := set_detector w id n).
  assert (length (m_detector_list w) = 64%nat) as Hnl by exact (ok_nodes _ Hx).
  assert (∀ e, e ∈ entries (watch_of w) → node_of (m_detector_list w1) e = node_of (m_detector_list w) e) as Hsame.
  { intros e Hel. pose proof (ok_entries _ Hx) as Hr. rewrite Forall_forall in Hr. specialize (Hr e Hel).
    cbn. rewrite node_of_insert by lia. rewrite decide_False; [done|]. by intros ->. }
  destruct (Countdown_behind mid now id a w1 rest) as (w' & -> & Hel & Hns & Htl & Hb); try done.
  - destruct Hx as [_ Hil Hn Hr]. split; [cbn; by rewrite length_insert|done|done|exact Hr].
  - unfold deadline. rewrite Hsame; [done|]. rewrite He. by left.
  - change (entries (watch_of w1)) with (entries (watch_of w)). clear -Hs Hsame.
    induction (entries (watch_of w)) as [|e l IH]; [constructor|]. apply StronglySorted_cons in Hs as [Hf Hs].
    apply StronglySorted_cons. split; [|apply IH; [done|intros; apply Hsame; by right]].
    rewrite Forall_forall in *. intros b Hb. unfold by_deadline, deadline. rewrite !Hsame by (by left || by right). by apply Hf.
  - unfold deadline. cbn [m_detector_list w1 set_detector set_detectors].
    rewrite node_of_insert by lia. rewrite decide_True by done. cbn. lia.
  - cbn [mbind outcome_bind]. exists w'. split; [done|]. split; [done|]. split; [|done].
    rewrite Hns. unfold deadline. cbn [m_detector_list w1 set_detector set_detectors].
    rewrite node_of_insert by lia. by rewrite decide_True.
Qed.

(** The handler of the watchdog is called by the handler of the timers, which holds its
    callback lock, and stops a timer, which runs the handler of the timers again: when
    another timer is due at that moment the thread waits for itself for ever. *)
Theorem TimerHandle_deadlock (mid cid tid now j : Z) (n nj : Timer_node) w : list_free mid w → cid ≠ mid → clock_ok now →
  watch_ok (watch_of w) → NoDup (entries (watch_of w)) → deadlines_ok (m_detector_list w) (entries (watch_of w)) →
  DevTimer.init_f (sys w) = TRUE → length (DevTimer.m_timer_list (sys w)) = 128%nat →
  DevTimer.vars (sys w) !! p_timer_callback = Some cid → mx_held (DevTimer.mutexes (sys w)) cid →
  DevTimer.vars (sys w) !! m_timer_Id = Some tid → 0 < tid < DEV_TIMER_NUM_MAX →
  DevTimer.m_timer_list (sys w) !! Z.to_nat tid = Some n → DevTimer.en n = TRUE →
  0 < j → j ≠ tid → DevTimer.m_timer_list (sys w) !! Z.to_nat j = Some nj → due now nj = true → timer_range nj →
  DevDetector_TimerHandle RET_OK p_timer_callback m_mutexTimeout_Id m_timer_Id now w = Blocked.
Proof.
  intros Hfree Hne Hck Hx Hd Hdl Hti Htl Hc Hheld Ht Htid Hn Hen Hj Hjt Hnj Hdue Hr.
  pose proof (Handle_list RET_OK mid now w Hfree ltac:(unfold clock_64, clock_ok in *; lia) Hx Hd Hdl) as Hp.
  destruct (pass now _ _ _) as [[r kept] m]. destruct Hp as (x & mx & _ & _ & _ & Ho & ->).
  set (w2 := with_mutexes (set_watch w x) mx). unfold timer_Stop.
  change (DevTimer.vars (sys w2)) with (DevTimer.vars (sys w)). rewrite (load_Some _ _ tid) by done. cbn [mbind outcome_bind].
  unfold DevTimer_Stop. change (DevTimer.init_f (sys w2)) with (DevTimer.init_f (sys w)). rewrite Hti. change (negb (TRUE =? TRUE)) with false. cbv iota.
  unfold DevTimer.bad_id, timer_at. unfold DEV_TIMER_NUM_MAX in *. destruct (Z.leb_spec 128 tid), (Z.leb_spec tid 0), (Z.ltb_spec tid 0); try lia. cbn [orb].
  change (DevTimer.m_timer_list (sys w2)) with (DevTimer.m_timer_list (sys w)). rewrite Hn. cbn [or_ub mbind outcome_bind].
  rewrite Hen. change (negb (TRUE =? TRUE)) with false. cbv iota.
  rewrite (handler_blocked p_timer_callback cid now _ j nj); try done.
  - cbn. by rewrite length_insert.
  - cbn. by apply Ho.
  - cbn. by rewrite list_lookup_insert_ne by lia.
Qed.
End Operations.

(** ** Concrete cases *)

(** Locks 1 to 3; the callback lock, 2, is free or held. *)
Definition three_locks (callback : pmutex) : mutex_state :=
  mkMutexState PM_unlocked TRUE
    (<[3%nat := mkMutexNode TRUE 4112 "a.cpp" "t" 1 FALSE PM_unlocked]>
      (<[2%nat := mkMutexNode TRUE 4104 "a.cpp" "c" 1 (if decide (callback = PM_locked) then TRUE else FALSE) callback]>
        (<[1%nat := mkMutexNode TRUE 4096 "a.cpp" "m" 1 FALSE PM_unlocked]> (replicate 256 DevMutex.zero_node)))).

(** Timer 1 belongs to the detectors; timer 2 is due at 1000. *)
Definition detector_timers (callback : pmutex) : DevTimer.world mutex_state :=
  DevTimer.mkWorld (three_locks callback) (<[4096 := 1]> (<[4104 := 2]> (<[4112 := 3]> {[8192 := 1]}))) TRUE TRUE B_disarmed
    (<[2%nat := mkTimer TRUE 8200 "a.cpp" "u" 2 TRUE 7 65536 100 1000 FALSE FALSE]>
      (<[1%nat := mkTimer TRUE 8192 "a.cpp" "t" 1 FALSE 5 65536 0 0 FALSE FALSE]> (replicate 128 DevTimer.zero_node))) [].

(** A detector that runs from 10 with the deadline [ts]. *)
Definition running (ts : Z) : Detector_node := mkDetector 1 "" 0 0 0 "m" TRUE 10 0 0 0 0 ts ts 0 TRUE.

(** Measurements 1 and 2 with the given deadlines, the first [n] of the list; 3 is enabled. *)
Definition watched (callback : pmutex) (ts1 ts2 n : Z) : world mutex_state :=
  mkWorld (detector_timers callback) TRUE
    (<[3%nat := running 0]> (<[2%nat := running ts2]> (<[1%nat := running ts1]> no_detectors))) n (1 :: 2 :: replicate 62 0) [].

#[local] Instance detector_locks : MutexLib mutex_state := DevMutex_lib (λ _, 0).
#[local] Instance detector_lock_laws : MutexLaws mutex_state := DevMutex_laws (λ _, 0).

Lemma watched_free callback ts1 ts2 n : list_free 4112 3 (watched callback ts1 ts2 n).
Proof. split; [done|]. split; [done|]. split; [done|]. by eexists. Qed.

Lemma watched_ok callback ts1 ts2 n : 0 ≤ n ≤ 2 → watch_ok (watch_of (watched callback ts1 ts2 n)).
Proof.
  intros Hn. split; [done|done|cbn; lia|]. unfold entries. cbn [num ids watch_of m_detector_id_timeout_num m_detector_id_timeout_list watched].
  apply Forall_take. by repeat (constructor; [lia|]).
Qed.

(** Both are past their deadlines; the second is not reported and the timer is stopped. *)
Lemma TimerHandle_pass_witness : ∃ w1,
  entries (watch_of w1) = [2] ∧ reports w1 = [1] ∧
  DevDetector_TimerHandle RET_OK 4104 4112 8192 200 (watched PM_unlocked 100 150 2) = timer_Stop RET_OK 4104 8192 200 w1.
Proof.
  pose proof (TimerHandle_pass RET_OK 4104 4112 8192 3 200 (watched PM_unlocked 100 150 2)) as Hp.
  change (entries (watch_of (watched PM_unlocked 100 150 2))) with [1; 2] in Hp.
  change (pass 200 _ [1; 2] NO_TIMEOUT) with ([1], [2], NO_TIMEOUT) in Hp.
  destruct Hp as (w1 & He & Hr & _ & _ & E).
  - apply watched_free.
  - unfold clock_64. lia.
  - by apply watched_ok.
  - apply (bool_decide_unpack _). by vm_compute.
  - by repeat (constructor; [unfold deadline; vm_compute; by split|]).
  - exists w1. split; [done|]. split; [done|]. rewrite E. cbn [andb Z.ltb]. change ((0 <? NO_TIMEOUT) && (NO_TIMEOUT <? NO_TIMEOUT)) with false.
    by destruct (timer_Stop _ _ _ _ _).
Defined.

Lemma Begin_behind_untimed_witness : ∃ w',
  DevDetector_Begin RET_OK 4104 4112 8192 500 3 (Some "frame"%string) 50 (watched PM_unlocked 0 0 1) = Ret (RET_OK, w') ∧
  3 ∈ entries (watch_of w') ∧ DevTimer.base (sys w') = B_disarmed.
Proof.
  destruct (Begin_behind_untimed RET_OK 4104 4112 8192 3 500 3 1 50 "frame"%string (watched PM_unlocked 0 0 1) []) as (w' & E & Hin & _ & _ & Hb); try done.
  - apply watched_free.
  - by apply watched_ok.
  - change (entries _) with [1]. repeat constructor.
  - change (entries _) with [1]. apply (bool_decide_unpack _). by vm_compute.
  - by exists w'.
Defined.

Lemma TimerHandle_deadlock_witness :
  DevDetector_TimerHandle RET_OK 4104 4112 8192 1000 (watched PM_locked 100 2000 2) = Blocked.
Proof.
  apply (TimerHandle_deadlock 4104 4112 8192 3 2 1 1000 2 (mkTimer TRUE 8192 "a.cpp" "t" 1 FALSE 5 65536 0 0 FALSE FALSE)
    (mkTimer TRUE 8200 "a.cpp" "u" 2 TRUE 7 65536 100 1000 FALSE FALSE)); try done.
  - apply watched_free.
  - by apply watched_ok.
  - change (entries _) with [1; 2]. apply (bool_decide_unpack _). by vm_compute.
  - change (entries _) with [1; 2]. by repeat (constructor; [unfold deadline; vm_compute; by split|]).
  - split; [done|]. split; [done|]. by eexists.
Defined.
