(* ===== verification/WbString.v ===== *)
(** * String utilities of the WISCE bridge

    Model of [src/spkcal/cirrus/tools/wbridge/StringUtil.cpp].  A [std::string] is
    the list of its bytes; a position is a number, [None] for [npos]; [c_str]
    is what C functions see of a string.  [strtok] and [strtoul] follow the C
    standard. *)
From S2P Require Import Prelude DevStdlib.
From Stdlib Require Import Ascii.
From stdpp Require Import strings.
#[local] Open Scope Z_scope.

(** The bytes of a literal. *)
Fixpoint str (s : string) : list Z :=
  match s with
  | EmptyString => []
  | String a s' => Z.of_N (N_of_ascii a) :: str s'
  end.

(** [s.c_str()] up to the first zero byte. *)
Fixpoint c_str (s : list Z) : list Z :=
  match s with
  | [] => []
  | c :: s' => if c =? 0 then [] else c :: c_str s'
  end.

Abbreviation position := (option nat).

(** Is [p] a prefix of [s]? *)
Fixpoint starts_with (p s : list Z) : bool :=
  match p, s with
  | [], _ => true
  | _ :: _, [] => false
  | a :: p', b :: s' => (a =? b) && starts_with p' s'
  end.

(** [s.find(p, pos)]. *)
Fixpoint find_from (p s : list Z) (i : nat) : position :=
  if starts_with p s then Some i
  else match s with [] => None | _ :: s' => find_from p s' (S i) end.

Definition find (p s : list Z) (pos : nat) : position :=
  if (pos <=? length s)%nat then find_from p (drop pos s) pos else None.

(** [s.substr(pos, n)] throws past the end; the callers stay within. *)
Definition substr (s : list Z) (pos n : nat) : list Z := take n (drop pos s).

(** @src src/spkcal/cirrus/tools/wbridge/StringUtil.cpp:106-126 SplitString (exact)
    The loop over the occurrences of the delimiter, [fuel] rounds. *)
Fixpoint split_exact (fuel : nat) (s delim : list Z) (startPos : nat) : outcome (list (list Z)) :=
  match fuel with
  | O => OutOfFuel
  | S fuel' =>
      if (startPos <? length s)%nat then
        match find delim s startPos with
        | None => Ret [drop startPos s]
        | Some endPos =>
            let substring := substr s startPos (endPos - startPos) in
            rest ← split_exact fuel' s delim (endPos + length delim);
            Ret (match substring with [] => rest | _ => substring :: rest end)
        end
      else Ret []
  end.

(** @src src/spkcal/cirrus/tools/wbridge/StringUtil.cpp:65-131 SplitString
    [matchAny]: [strtok] on a copy of the C string yields the maximal runs
    without a delimiter. *)
Definition SplitString (s delimiterStr : list Z) (matchAny : bool) : outcome (list (list Z)) :=
  match delimiterStr with
  | [] => Ret [s]
  | _ =>
      if matchAny then Ret (fields delimiterStr [] (c_str s))
      else split_exact (S (length s)) s delimiterStr 0
  end.

(** @src src/spkcal/cirrus/tools/wbridge/StringUtil.cpp:145-172 StripString *)
Definition StripString (s delimiterStr : list Z) : list Z := concat (fields delimiterStr [] (c_str s)).

(** [strchr(set, c)] finds the terminator too. *)
Definition in_set (set : list Z) (c : Z) : bool := (c =? 0) || bool_decide (c ∈ set).

(** The first position from [pos] on whose byte is not in the set. *)
Fixpoint first_not_in (set s : list Z) (pos : nat) : position :=
  match s with
  | [] => None
  | c :: s' => if in_set set c then first_not_in set s' (S pos) else Some pos
  end.

(** @src src/spkcal/cirrus/tools/wbridge/StringUtil.cpp:195-225 FindFirstNotOf *)
Definition FindFirstNotOf (s charStr : list Z) (startPos : position) : position :=
  match startPos with
  | None => None
  | Some startPos =>
      if (length s <=? startPos)%nat then None
      else match charStr with
           | [] => Some startPos
           | _ => first_not_in charStr (drop startPos s) startPos
           end
  end.

(** @src src/spkcal/cirrus/tools/wbridge/StringUtil.cpp:238-246 IsDigit *)
Definition IsDigit (c : Z) : bool := (48 <=? c) && (c <=? 57).

(** @src src/spkcal/cirrus/tools/wbridge/StringUtil.cpp:261-274 IsHexDigit *)
Definition IsHexDigit (c : Z) : bool :=
  ((48 <=? c) && (c <=? 57)) || ((97 <=? c) && (c <=? 102)) || ((65 <=? c) && (c <=? 70)).

(** @src src/spkcal/cirrus/tools/wbridge/StringUtil.cpp:289-302 IsAlphanumeric *)
Definition IsAlphanumeric (c : Z) : bool :=
  ((48 <=? c) && (c <=? 57)) || ((97 <=? c) && (c <=? 122)) || ((65 <=? c) && (c <=? 90)).

(** ** [strtoul(s, NULL, 16)] *)

Definition isspace (c : Z) : bool := (c =? 32) || ((9 <=? c) && (c <=? 13)).

Fixpoint skip_space (s : list Z) : list Z :=
  match s with c :: s' => if isspace c then skip_space s' else s | [] => [] end.

Definition ULONG_MAX : Z := 2 ^ 64 - 1.

(** The digits at the front of [s], on top of [acc]; past [ULONG_MAX] the value
    is out of range. *)
Fixpoint hex_digits (acc : Z) (s : list Z) : Z :=
  match s with
  | c :: s' => match digit (upper c) with Some d => hex_digits (16 * acc + d) s' | None => acc end
  | [] => acc
  end.

(** An optional "0x" before a digit. *)
Definition skip_0x (s : list Z) : list Z :=
  match s with
  | z :: x :: d :: s' =>
      if (z =? 48) && ((x =? 120) || (x =? 88)) && IsHexDigit d then d :: s' else s
  | _ => s
  end.

Definition strtoul16 (s : list Z) : Z :=
  let s := skip_space s in
  let '(neg, s) := match s with
                   | c :: s' => if c =? 45 then (true, s') else if c =? 43 then (false, s') else (false, s)
                   | [] => (false, [])
                   end in
  let v := hex_digits 0 (skip_0x s) in
  if ULONG_MAX <? v then ULONG_MAX else if neg : bool then u64 (- v) else v.

Example strtoul16_examples :
  strtoul16 (str "0x1F]") = 31 ∧ strtoul16 (str " 7fg") = 127 ∧ strtoul16 (str "0xg") = 0.
Proof. done. Qed.

(** ** Splitting at a character *)

(** The non-empty pieces between the occurrences of the character [d]. *)
Lemma starts_with_one d c s : starts_with [d] (c :: s) = (d =? c).
Proof. simpl. by rewrite andb_true_r. Qed.

Lemma find_from_run d run s i : d ∉ run →
  find_from [d] (run ++ s) i = find_from [d] s (i + length run).
Proof.
  revert i. induction run as [|c run IH]; intros i Hd; [by rewrite Nat.add_0_r|].
  apply not_elem_of_cons in Hd as [Hdc Hd]. cbn [app find_from length]. rewrite starts_with_one.
  destruct (Z.eqb_spec d c); [done|]. rewrite IH by done. f_equal. lia.
Qed.

Lemma fields_run_stop d cur run s : d ∉ run →
  fields [d] cur (run ++ d :: s) = (match cur ++ run with [] => [] | _ => [cur ++ run] end) ++ fields [d] [] s.
Proof.
  intros Hd. rewrite fields_run.
  - cbn [fields]. rewrite bool_decide_eq_true_2 by by apply list_elem_of_singleton. by destruct (cur ++ run).
  - apply Forall_forall. intros x Hx ->%list_elem_of_singleton. done.
Qed.

(** A string up to the first [d]. *)
Lemma first_occurrence (d : Z) s : d ∉ s ∨ ∃ run s', s = run ++ d :: s' ∧ d ∉ run.
Proof.
  destruct (decide (d ∈ s)) as [Hin|]; [right|by left].
  apply list_elem_of_split_l in Hin as (run & s' & -> & Hd). by exists run, s'.
Qed.

Lemma split_exact_spec d k : ∀ pre s fuel, (length s ≤ k)%nat → (k < fuel)%nat →
  split_exact fuel (pre ++ s) [d] (length pre) = Ret (fields [d] [] s).
Proof.
  induction k as [|k IH]; intros pre s [|fuel] Hk Hf; try lia; cbn [split_exact];
    destruct (Nat.ltb_spec (length pre) (length (pre ++ s))) as [Hlt|Hge]; rewrite length_app in *; try lia;
    try (by destruct s; [|simpl in *; lia]).
  unfold find. rewrite length_app. destruct (Nat.leb_spec (length pre) (length pre + length s)); [|lia].
  rewrite drop_app_length. destruct (first_occurrence d s) as [Hd|(run & s' & -> & Hd)].
  - rewrite <-(app_nil_r s) at 1. rewrite find_from_run by done. cbn [find_from starts_with].
    rewrite <-(app_nil_r s) at 2. rewrite fields_run by (apply Forall_forall; intros x Hx ->%list_elem_of_singleton; done).
    cbn [app fields]. destruct s; [simpl in *; lia|done].
  - rewrite find_from_run by done. cbn [find_from]. rewrite starts_with_one, Z.eqb_refl.
    unfold substr. rewrite drop_app_length.
    replace (length pre + length run - length pre)%nat with (length run) by lia. rewrite take_app_length.
    replace (length pre + length run + length [d])%nat with (length (pre ++ run ++ [d]))
      by (rewrite !length_app; simpl; lia).
    replace (pre ++ run ++ d :: s') with ((pre ++ run ++ [d]) ++ s') by (by rewrite <-!app_assoc).
    rewrite IH; [|rewrite length_app in Hk; simpl in Hk; lia|lia]. cbn [mbind outcome_bind].
    rewrite fields_run_stop by done. cbn [app]. by destruct run.
Qed.

(** Splitting at a one-character delimiter, whether the character is matched
    exactly or as a set: the non-empty pieces between its occurrences. *)
Lemma SplitString_exact_char d s : SplitString s [d] false = Ret (fields [d] [] s).
Proof. unfold SplitString. apply (split_exact_spec d (length s) []); lia. Qed.


(** ** Hexadecimal numbers *)

Lemma IsHexDigit_digit c : IsHexDigit c = true ↔ is_Some (digit (upper c)).
Proof.
  unfold IsHexDigit, digit, IS_NUMBER, upper, toupper.
  repeat case_match; to_prop; split; (by eauto) || (intros [? ?]; done) || lia || idtac.
Qed.

Lemma digit_range c d : digit c = Some d → 0 ≤ d < 16.
Proof. unfold digit, IS_NUMBER. repeat case_match; to_prop; intros [= <-]; lia. Qed.

(** A digit is neither a blank, nor a sign, nor the "x" of a prefix. *)
Lemma IsHexDigit_plain c : IsHexDigit c = true →
  isspace c = false ∧ c ≠ 45 ∧ c ≠ 43 ∧ c ≠ 120 ∧ c ≠ 88 ∧ c ≠ 0.
Proof.
  unfold IsHexDigit, isspace. intros [[[? ?]%andb_prop|[? ?]%andb_prop]%orb_prop|[? ?]%andb_prop]%orb_prop; to_prop;
    (split; [apply orb_false_intro; [lia|apply andb_false_iff; rewrite !Z.leb_gt; lia]|lia]).
Qed.

Lemma hex_value_digits acc h v : hex_value acc h = Some v → Forall (λ c, IsHexDigit c = true) h.
Proof.
  revert acc. induction h as [|c h IH]; intros acc Hv; [constructor|]. cbn [hex_value] in Hv.
  destruct (digit (upper c)) eqn:Hd; [|done]. constructor; [by apply IsHexDigit_digit; rewrite Hd|by eapply IH].
Qed.

Lemma hex_value_bound acc h v : 0 ≤ acc → hex_value acc h = Some v →
  0 ≤ v < (acc + 1) * 16 ^ Z.of_nat (length h).
Proof.
  revert acc. induction h as [|c h IH]; intros acc Ha Hv; cbn [hex_value length] in *.
  - injection Hv as <-. lia.
  - destruct (digit (upper c)) as [d|] eqn:Hd; [|done]. apply digit_range in Hd.
    apply IH in Hv; [|lia]. rewrite Nat2Z.inj_succ, Z.pow_succ_r by lia. nia.
Qed.

(** What follows the number does not continue it. *)
Definition number_ends (rest : list Z) : Prop :=
  match rest with [] => True | c :: _ => IsHexDigit c = false ∧ c ≠ 120 ∧ c ≠ 88 end.

Lemma hex_digits_spec acc h v rest : hex_value acc h = Some v → number_ends rest → hex_digits acc (h ++ rest) = v.
Proof.
  intros Hv Hr. revert acc Hv. induction h as [|c h IH]; intros acc Hv; cbn [app hex_value hex_digits] in *.
  - injection Hv as <-. destruct rest as [|c rest]; [done|]. destruct Hr as [Hr _]. cbn [hex_digits].
    destruct (digit (upper c)) eqn:Hd; [|done].
    assert (IsHexDigit c = true) by (apply IsHexDigit_digit; by rewrite Hd). congruence.
  - destruct (digit (upper c)); [|done]. by apply IH.
Qed.

Lemma skip_0x_digits h rest : Forall (λ c, IsHexDigit c = true) h → number_ends rest → h ≠ [] →
  skip_0x (h ++ rest) = h ++ rest.
Proof.
  intros Hh Hr Hn. destruct Hh as [|z h Hz Hh]; [done|]. cbn [app]. unfold skip_0x.
  destruct Hh as [|x h Hx Hh]; cbn [app].
  - destruct rest as [|x [|d rest]]; [done..|]. destruct Hr as (_ & H1 & H2).
    destruct (Z.eqb_spec x 120), (Z.eqb_spec x 88); try done. by rewrite andb_false_r.
  - destruct (IsHexDigit_plain x Hx) as (_ & _ & _ & H1 & H2 & _).
    destruct (h ++ rest); [done|]. destruct (Z.eqb_spec x 120), (Z.eqb_spec x 88); try done. by rewrite andb_false_r.
Qed.

Lemma skip_space_digit c s : IsHexDigit c = true → skip_space (c :: s) = c :: s.
Proof. intros Hc. simpl. by rewrite (proj1 (IsHexDigit_plain c Hc)). Qed.

(** The number of a non-empty string of digits that fits in 64 bits. *)
Lemma strtoul16_digits h v rest : h ≠ [] → hex_value 0 h = Some v → v ≤ ULONG_MAX → number_ends rest →
  strtoul16 (h ++ rest) = v.
Proof.
  intros Hn Hv Hmax Hr. pose proof (hex_value_digits _ _ _ Hv) as Hd. unfold strtoul16.
  destruct h as [|c h]; [done|]. apply Forall_cons_1 in Hd as Hc. destruct Hc as [Hc _].
  cbn [app]. rewrite skip_space_digit by done. destruct (IsHexDigit_plain c Hc) as (_ & H1 & H2 & _).
  destruct (Z.eqb_spec c 45); [done|]. destruct (Z.eqb_spec c 43); [done|].
  change (c :: h ++ rest) with ((c :: h) ++ rest). rewrite skip_0x_digits, (hex_digits_spec _ _ v) by done.
  by destruct (Z.ltb_spec ULONG_MAX v); [lia|].
Qed.

(** The same after the prefix "0x". *)
Lemma strtoul16_prefixed h v rest : h ≠ [] → hex_value 0 h = Some v → v ≤ ULONG_MAX → number_ends rest →
  strtoul16 (str "0x" ++ h ++ rest) = v.
Proof.
  intros Hn Hv Hmax Hr. pose proof (hex_value_digits _ _ _ Hv) as Hd. unfold strtoul16.
  destruct h as [|c h]; [done|]. apply Forall_cons_1 in Hd as Hc. destruct Hc as [Hc _].
  change (str "0x" ++ (c :: h) ++ rest) with (48 :: 120 :: c :: (h ++ rest)).
  cbn [skip_space isspace Z.eqb Z.leb Z.compare orb andb Pos.eqb Pos.compare Pos.compare_cont skip_0x]. rewrite Hc.
  change (c :: h ++ rest) with ((c :: h) ++ rest). rewrite (hex_digits_spec _ _ v) by done.
  by destruct (Z.ltb_spec ULONG_MAX v); [lia|].
Qed.

(** ** Searching for the first character outside a set *)

Lemma first_not_in_spec set s pos :
  (Forall (λ c, in_set set c = true) s ∧ first_not_in set s pos = None) ∨
  ∃ run c s', s = run ++ c :: s' ∧ Forall (λ c, in_set set c = true) run ∧ in_set set c = false ∧
    first_not_in set s pos = Some (pos + length run)%nat.
Proof.
  revert pos. induction s as [|c s IH]; intros pos; [by left|]. cbn [first_not_in].
  destruct (in_set set c) eqn:Hc.
  - destruct (IH (S pos)) as [[Hs ->]|(run & d & s' & -> & Hr & Hd & ->)].
    + left. split; [by constructor|done].
    + right. exists (c :: run), d, s'. split; [done|]. split; [by constructor|]. split; [done|]. f_equal. simpl. lia.
  - right. exists [], c, s. split; [done|]. split; [constructor|]. split; [done|]. f_equal. simpl. lia.
Qed.

Lemma FindFirstNotOf_spec pre s set : set ≠ [] →
  (Forall (λ c, in_set set c = true) s ∧ FindFirstNotOf (pre ++ s) set (Some (length pre)) = None) ∨
  ∃ run c s', s = run ++ c :: s' ∧ Forall (λ c, in_set set c = true) run ∧ in_set set c = false ∧
    FindFirstNotOf (pre ++ s) set (Some (length pre)) = Some (length pre + length run)%nat.
Proof.
  intros Hset. cbn [FindFirstNotOf]. rewrite length_app, drop_app_length.
  destruct (Nat.leb_spec (length pre + length s) (length pre)).
  - left. destruct s; [done|simpl in *; lia].
  - destruct set; [done|]. apply first_not_in_spec.
Qed.

Lemma FindFirstNotOf_run pre run c s set : set ≠ [] → Forall (λ c, in_set set c = true) run → in_set set c = false →
  FindFirstNotOf (pre ++ run ++ c :: s) set (Some (length pre)) = Some (length pre + length run)%nat.
Proof.
  intros Hset Hr Hc. cbn [FindFirstNotOf]. rewrite !length_app, drop_app_length.
  destruct (Nat.leb_spec (length pre + (length run + length (c :: s))) (length pre)); [simpl in *; lia|].
  destruct set as [|x set]; [done|]. clear Hset. revert Hr Hc. generalize (x :: set). intros t Hr Hc.
  generalize (length pre). induction Hr as [|d run Hd _ IH]; intros k; cbn [app first_not_in length].
  - rewrite Hc. f_equal. lia.
  - rewrite Hd, IH. f_equal. lia. simpl in *; lia.
Qed.

(** A found position is not before the start. *)
Lemma find_from_ge d s i k : find_from [d] s i = Some k → (i ≤ k)%nat.
Proof.
  revert i. induction s as [|c s IH]; intros i; cbn [find_from]; [done|]. rewrite starts_with_one.
  destruct (d =? c); [by intros [= ->]|]. intros Hk%IH. lia.
Qed.

Lemma c_str_app s t : no_nul s → c_str (s ++ t) = s ++ c_str t.
Proof.
  induction s as [|c s IH]; [done|]. intros [Hc Hs]%no_nul_cons. cbn [app c_str].
  destruct (Z.eqb_spec c 0); [done|]. by rewrite IH.
Qed.

Lemma c_str_id s : no_nul s → c_str s = s.
Proof. intros Hs. rewrite <-(app_nil_r s) at 1. rewrite c_str_app by done. simpl. apply app_nil_r. Qed.

(** Fields appear one by one. *)
Lemma fields_cons delim tok d l : tok ≠ [] → Forall (.∉ delim) tok → d ∈ delim →
  fields delim [] (tok ++ d :: l) = tok :: fields delim [] l.
Proof. intros Hn Ht Hd. rewrite fields_run by done. by apply fields_stop. Qed.

Lemma fields_last delim tok : tok ≠ [] → Forall (.∉ delim) tok → fields delim [] tok = [tok].
Proof. intros Hn Ht. rewrite <-(app_nil_r tok) at 1. rewrite fields_run by done. by apply fields_end. Qed.

(** There is no field exactly when every character is a delimiter. *)
Lemma fields_nil_iff delim l : fields delim [] l = [] ↔ Forall (.∈ delim) l.
Proof.
  assert (Hne : ∀ l cur, cur ≠ [] → fields delim cur l ≠ []).
  { clear l. induction l as [|c l IH]; intros cur Hc; cbn [fields]; [by destruct cur|].
    destruct (bool_decide _); [by destruct cur|]. apply IH. by destruct cur. }
  induction l as [|c l IH]; [done|]. cbn [fields app]. case_bool_decide as Hc.
  - rewrite IH. rewrite Forall_cons. tauto.
  - rewrite Forall_cons. split; [|tauto]. intros Hf. by apply Hne in Hf.
Qed.

Lemma FindFirstNotOf_here pre c s set : set ≠ [] → in_set set c = false →
  FindFirstNotOf (pre ++ c :: s) set (Some (length pre)) = Some (length pre).
Proof. intros Hs Hc. rewrite (FindFirstNotOf_run pre [] c s) by done. by rewrite Nat.add_0_r. Qed.

Lemma FindFirstNotOf_front run c s set : set ≠ [] → Forall (λ c, in_set set c = true) run → in_set set c = false →
  FindFirstNotOf (run ++ c :: s) set (Some 0%nat) = Some (length run).
Proof. apply (FindFirstNotOf_run []). Qed.
