(* ===== verification/WbResult.v ===== *)
(** * Result codes of the WISCE bridge

    Model of [src/spkcal/cirrus/tools/wbridge/Result.h], and of the formatted output
    and the C strings its modules share. *)
From S2P Require Import Prelude DevStdlib WbString.
From stdpp Require Import strings.
#[local] Open Scope Z_scope.

(** @src src/spkcal/cirrus/tools/wbridge/Result.h:39-69 RESULT
    One constructor for every value; the other names of a value are abbreviations. *)
Inductive RESULT :=
  | WMT_SUCCESS | WMT_STRING_ERR | WMT_WINSOCK_ERR | WMT_CLOSE_SOCKET | WMT_INVALID_COMMAND
  | WMT_INVALID_PARAMETER | WMT_WRITE_FAILED | WMT_READ_FAILED | WMT_END_OF_FILE | WMT_NO_DATA
  | WMT_RESOURCE_FAIL | WMT_UNSUPPORTED | WMT_OUT_OF_RANGE | WMT_NO_DEVICE | WMT_REG_NOT_PRESENT
  | WMT_INVALID_HANDLE | WMT_DUPLICATED | WMT_EXCLUDED | WMT_TRUNCATED.
Abbreviation WMT_SOCKET_CLOSED := WMT_SUCCESS (only parsing).
Abbreviation WMT_SOCKET_ERR := WMT_STRING_ERR (only parsing).
Abbreviation WMT_COMMS_ERR := WMT_STRING_ERR (only parsing).

#[export] Instance RESULT_eq_dec : EqDecision RESULT.
Proof. solve_decision. Defined.

(** The value of an enumerator. *)
Definition code (r : RESULT) : Z :=
  match r with
  | WMT_SUCCESS => 0 | WMT_STRING_ERR => -1 | WMT_WINSOCK_ERR => -2 | WMT_CLOSE_SOCKET => -3
  | WMT_INVALID_COMMAND => -30 | WMT_INVALID_PARAMETER => -35 | WMT_WRITE_FAILED => -39
  | WMT_READ_FAILED => -40 | WMT_END_OF_FILE => -41 | WMT_NO_DATA => -42 | WMT_RESOURCE_FAIL => -50
  | WMT_UNSUPPORTED => -51 | WMT_OUT_OF_RANGE => -53 | WMT_NO_DEVICE => -54 | WMT_REG_NOT_PRESENT => -55
  | WMT_INVALID_HANDLE => -60 | WMT_DUPLICATED => -63 | WMT_EXCLUDED => -67 | WMT_TRUNCATED => -70
  end.

Lemma code_inj a b : code a = code b → a = b.
Proof. by destruct a, b. Qed.

(** ** Formatted output *)

Definition PATH_MAX : nat := 4096.

(** [snprintf(buffer, size, ...)] of a text without zero bytes: its length, and what the
    buffer then holds as a string. *)
Definition snprintf (size : nat) (text : list Z) : Z * list Z :=
  (Z.of_nat (length text), take (size - 1) text).

Definition hex_digit_lower (v : Z) : Z := if v <? 10 then 48 + v else 87 + v.

(** The number in lower-case ([%x]) and in upper-case ([%X]) hexadecimal; eight digits are
    enough for 32 bits. *)
Fixpoint hex_lower (fuel : nat) (v : Z) : list Z :=
  match fuel with
  | O => []
  | S fuel' => if v <? 16 then [hex_digit_lower v] else hex_lower fuel' (v / 16) ++ [hex_digit_lower (v mod 16)]
  end.
Definition print_x (v : Z) : list Z := hex_lower 8 v.

Lemma length_hex_lower fuel v : (length (hex_lower fuel v) ≤ fuel)%nat.
Proof.
  revert v. induction fuel as [|fuel IH]; intros v; cbn [hex_lower]; [done|]. case_match; [cbn; lia|].
  rewrite length_app. specialize (IH (v / 16)). cbn. lia.
Qed.
