(* ===== verification/WbCommand.v ===== *)
(** * Commands of the WISCE bridge

    Model of [src/spkcal/cirrus/tools/wbridge/Command.cpp]: the parser of the
    text commands a host sends to the bridge, "[device:sequence] command
    parameters", and the accessors of the parsed command.  A method returns its
    [RESULT] and the value stored through the out parameter, [None] when
    nothing is stored; [out] tells whether the out parameter is non-null. *)
From S2P Require Import Prelude DevStdlib WbString WbResult.
From stdpp Require Import strings.
#[local] Open Scope Z_scope.

(** @src src/spkcal/cirrus/tools/wbridge/Command.h:43-57 CommandType *)
Inductive CommandType :=
  | InfoCommand | WriteCommand | ReadCommand | UnknownCommand | ShutdownCommand | HelpCommand
  | DetectCommand | DeviceCommand | RegisterMapCommand | ProtocolVersionCommand
  | BlockWriteCommand | BlockReadCommand.

#[export] Instance CommandType_eq_dec : EqDecision CommandType.
Proof. solve_decision. Defined.

(** @src src/spkcal/cirrus/tools/wbridge/Command.cpp:54-56 MAX_REGISTER_LENGTH, HEX_IDENTIFIER_LENGTH *)
Definition MAX_REGISTER_LENGTH : Z := 9.
Definition HEX_IDENTIFIER_LENGTH : Z := 2.
Definition MAX_DEVICE_ID_LENGTH : nat := 32.

(** @src src/spkcal/cirrus/tools/wbridge/Command.cpp:62-64 COMMAND_PARAMETER, FIRST_PARAMETER, SECOND_PARAMETER *)
Definition COMMAND_PARAMETER : nat := 0.
Definition FIRST_PARAMETER : nat := 1.
Definition SECOND_PARAMETER : nat := 2.

(** @src src/spkcal/cirrus/tools/wbridge/Command.h:101-108 CCommand *)
Record CCommand := mkCommand {
  m_commandType : CommandType;
  m_sequenceNumber : Z;
  m_hasSequenceNumber : bool;
  m_sequenceNumberString : list Z;
  m_hasDeviceID : bool;
  m_deviceIDString : list Z;
  m_parameters : list (list Z);
  m_commandString : list Z;
}.

(** @src src/spkcal/cirrus/tools/wbridge/Command.cpp:82-86 CCommand (default constructor)
    The fields it does not set keep what the memory held. *)
Definition CCommand_default (memory : CCommand) : CCommand :=
  mkCommand UnknownCommand (m_sequenceNumber memory) (m_hasSequenceNumber memory) (m_sequenceNumberString memory)
    (m_hasDeviceID memory) (m_deviceIDString memory) [] [].

(** @src src/spkcal/cirrus/tools/wbridge/Command.cpp:223-245 GetParameter *)
Definition GetParameter (params : list (list Z)) (index : nat) (out : bool) : RESULT * option (list Z) :=
  if negb out then (WMT_INVALID_PARAMETER, None)
  else match params !! index with
       | Some p => (WMT_SUCCESS, Some p)
       | None => (WMT_OUT_OF_RANGE, None)
       end.

(** [strcasecmp(a, b) == 0], in the "C" locale. *)
Definition same_case (a b : list Z) : bool := bool_decide (upper <$> a = upper <$> b).

(** @src src/spkcal/cirrus/tools/wbridge/Command.cpp:258-317 ParseCommandType *)
Definition ParseCommandType (command : list Z) : CommandType :=
  let named (s : list Z) := same_case s (c_str command) in
  if named (str "read") || named (str "r") then ReadCommand
  else if named (str "write") || named (str "w") then WriteCommand
  else if named (str "blockwrite") || named (str "bw") then BlockWriteCommand
  else if named (str "blockread") || named (str "br") then BlockReadCommand
  else if named (str "info") then InfoCommand
  else if named (str "detect") then DetectCommand
  else if named (str "shutdown") then ShutdownCommand
  else if named (str "help") then HelpCommand
  else if named (str "getregmap") then RegisterMapCommand
  else if named (str "device") then DeviceCommand
  else if named (str "protocolversion") then ProtocolVersionCommand
  else UnknownCommand.

Definition blanks : list Z := [32; 9].
Definition id_chars : list Z :=
  str "0123456789abcdefghijklmnopqrstuvwxyzABCDEFGHIJKLMNOPQRSTUVWXYZ_-#.".
Definition hex_chars : list Z := str "0123456789abcdefABCDEF".
Definition LBRACKET : Z := 91.
Definition RBRACKET : Z := 93.
Definition COLON : Z := 58.

(** [s[pos]]: the terminator at the end, undefined behaviour past it. *)
Definition char_at (s : list Z) (pos : position) : outcome Z :=
  match pos with
  | None => UB
  | Some i => if (i <? length s)%nat then or_ub (s !! i)
              else if (i =? length s)%nat then Ret 0 else UB
  end.

Definition advance (pos : position) (k : nat) : position := (λ i, (i + k)%nat) <$> pos.

(** The number printed in upper-case hexadecimal. *)
Fixpoint print_hex (fuel : nat) (v : Z) : list Z :=
  match fuel with
  | O => []
  | S fuel' => if v <? 16 then [hex_digit v] else print_hex fuel' (v / 16) ++ [hex_digit (v mod 16)]
  end.

Definition sequence_string (n : Z) : list Z := LBRACKET :: print_hex 8 n ++ [RBRACKET; 32].

(** @src src/spkcal/cirrus/tools/wbridge/Command.cpp:127-147 CCommand (device id)
    The device id, when there is one, and where the sequence number starts.  The
    length given to [substr] counts from the start of the command. *)
Definition parse_device (s : list Z) (seqNoStart : position) : outcome (option (list Z) * position) :=
  match find_from [RBRACKET] (c_str s) 0, find_from [COLON] (c_str s) 0 with
  | Some pSeqNoEnd, Some pDeviceIDEnd =>
      if (pDeviceIDEnd <? pSeqNoEnd)%nat then
        c ← char_at s seqNoStart;
        if negb (c =? COLON) then
          let deviceIDEnd := FindFirstNotOf s id_chars seqNoStart in
          let deviceID := match seqNoStart, deviceIDEnd with
                          | Some st, Some e => substr s st (e - 1)
                          | _, _ => []
                          end in
          let deviceIDEnd := FindFirstNotOf s blanks deviceIDEnd in
          match deviceIDEnd with
          | Some e =>
              c ← char_at s deviceIDEnd;
              if c =? COLON
              then Ret (Some (take (MAX_DEVICE_ID_LENGTH - 1) (c_str deviceID)), Some (S e))
              else Ret (None, seqNoStart)
          | None => Ret (None, seqNoStart)
          end
        else Ret (None, seqNoStart)
      else Ret (None, seqNoStart)
  | _, _ => Ret (None, seqNoStart)
  end.

(** @src src/spkcal/cirrus/tools/wbridge/Command.cpp:164-185 CCommand (sequence number)
    The sequence number at a position and the text after its bracket. *)
Definition parse_number (s : list Z) (seqNoStart : position) : outcome (option (Z * list Z)) :=
  match seqNoStart with
  | None => Ret None
  | Some st =>
      c ← char_at s seqNoStart;
      if IsHexDigit c then
        let numberString := drop st s in
        let sequenceNumber := u32 (strtoul16 (c_str numberString)) in
        let seqNoEnd := FindFirstNotOf numberString hex_chars (Some 0%nat) in
        let seqNoEnd := FindFirstNotOf numberString blanks seqNoEnd in
        match seqNoEnd with
        | Some e =>
            c ← char_at numberString seqNoEnd;
            if c =? RBRACKET then Ret (Some (sequenceNumber, drop (S e) numberString)) else Ret None
        | None => Ret None
        end
      else Ret None
  end.

(** @src src/spkcal/cirrus/tools/wbridge/Command.cpp:162-185 CCommand (0x prefix and sequence number) *)
Definition parse_sequence (s : list Z) (seqNoStart : position) : outcome (option (Z * list Z)) :=
  c0 ← char_at s seqNoStart;
  c1 ← (if c0 =? 48 then char_at s (advance seqNoStart 1) else Ret 0);
  parse_number s (if (c0 =? 48) && (c1 =? 120) then advance seqNoStart 2 else seqNoStart).

(** @src src/spkcal/cirrus/tools/wbridge/Command.cpp:176-195 CCommand (parameters and type)
    The command from the device id and the sequence number that were found. *)
Definition finish_command (commandString : list Z) (invalidDeviceID : bool) (device : option (list Z))
    (seq : option (Z * list Z)) : outcome CCommand :=
  let cmd := match seq with Some (_, rest) => rest | None => commandString end in
  params ← SplitString cmd (blanks ++ [10]) true;
  let ty := match GetParameter params COMMAND_PARAMETER true with
            | (WMT_SUCCESS, Some command) =>
                if invalidDeviceID then UnknownCommand else ParseCommandType command
            | _ => UnknownCommand
            end in
  Ret (mkCommand ty
         (match seq with Some (n, _) => n | None => 0 end)
         (match seq with Some _ => true | None => false end)
         (match seq with Some (n, _) => sequence_string n | None => [] end)
         (match device with Some _ => true | None => false end)
         (match device with Some d => d | None => [] end)
         params cmd).

(** @src src/spkcal/cirrus/tools/wbridge/Command.cpp:104-196 CCommand (constructor) *)
Definition CCommand_of (commandString : list Z) : outcome CCommand :=
  let seqNoStart := FindFirstNotOf commandString blanks (Some 0%nat) in
  match seqNoStart with
  | None => finish_command commandString false None None
  | Some _ =>
      c ← char_at commandString seqNoStart;
      if c =? LBRACKET then
        let seqNoStart := FindFirstNotOf commandString blanks (advance seqNoStart 1) in
        '(device, seqNoStart) ← parse_device commandString seqNoStart;
        invalid ← (match device with
                   | Some _ => Ret false
                   | None => c ← char_at commandString seqNoStart; Ret (c =? COLON)
                   end);
        let seqNoStart := if invalid : bool then advance seqNoStart 1 else seqNoStart in
        seq ← parse_sequence commandString seqNoStart;
        finish_command commandString invalid device seq
      else finish_command commandString false None None
  end.

(** @src src/spkcal/cirrus/tools/wbridge/Command.cpp:574-590 CheckHexValueLength *)
Definition CheckHexValueLength (value : list Z) (max : Z) : bool :=
  let length := Z.of_nat (length value) in
  if max + HEX_IDENTIFIER_LENGTH <=? length then false
  else if max <=? length then starts_with (str "0x") value
  else true.

(** A parameter that has to be there. *)
Definition required (r : RESULT) : RESULT :=
  match r with WMT_OUT_OF_RANGE => WMT_INVALID_COMMAND | r => r end.

(** @src src/spkcal/cirrus/tools/wbridge/Command.cpp:332-401 GetAddress
    A block command without parameters leaves with [WMT_OUT_OF_RANGE]. *)
Definition GetAddress (c : CCommand) (out : bool) : outcome (RESULT * option Z) :=
  if negb out then Ret (WMT_INVALID_PARAMETER, None)
  else
    let finish (r : RESULT) (parameter : list Z) :=
      match r with
      | WMT_SUCCESS =>
          if CheckHexValueLength (c_str parameter) MAX_REGISTER_LENGTH
          then (WMT_SUCCESS, Some (u32 (strtoul16 (c_str parameter))))
          else (WMT_INVALID_COMMAND, None)
      | WMT_OUT_OF_RANGE => (WMT_INVALID_COMMAND, None)
      | r => (r, Some 0)
      end in
    let '(r, p) := GetParameter (m_parameters c) FIRST_PARAMETER true in
    match m_commandType c with
    | ReadCommand | WriteCommand => Ret (finish r (default [] p))
    | BlockReadCommand | BlockWriteCommand =>
        match p with
        | None => Ret (r, None)
        | Some parameter =>
            parts ← SplitString parameter [COLON] false;
            Ret (finish WMT_SUCCESS
                   (if (1 <? length parts)%nat then default [] (last parts) else parameter))
        end
    | _ => Ret (finish WMT_INVALID_COMMAND [])
    end.

(** @src src/spkcal/cirrus/tools/wbridge/Command.cpp:416-459 GetValue *)
Definition GetValue (c : CCommand) (out : bool) : RESULT * option Z :=
  if negb out then (WMT_INVALID_PARAMETER, None)
  else
    match m_commandType c with
    | WriteCommand =>
        match GetParameter (m_parameters c) SECOND_PARAMETER true with
        | (WMT_SUCCESS, Some parameter) =>
            if CheckHexValueLength (c_str parameter) MAX_REGISTER_LENGTH
            then (WMT_SUCCESS, Some (u32 (strtoul16 (c_str parameter))))
            else (WMT_INVALID_COMMAND, None)
        | (r, _) => (required r, None)
        end
    | _ => (WMT_INVALID_COMMAND, Some 0)
    end.

(** A hexadecimal parameter of a command of type [ty], without a length check. *)
Definition hex_parameter (ty : CommandType) (index : nat) (c : CCommand) (out : bool) : RESULT * option Z :=
  if negb out then (WMT_INVALID_PARAMETER, None)
  else if bool_decide (m_commandType c = ty) then
    match GetParameter (m_parameters c) index true with
    | (WMT_SUCCESS, Some parameter) => (WMT_SUCCESS, Some (u32 (strtoul16 (c_str parameter))))
    | (r, _) => (required r, None)
    end
  else (WMT_INVALID_COMMAND, Some 0).

(** @src src/spkcal/cirrus/tools/wbridge/Command.cpp:474-511 GetProtocolVersion *)
Definition GetProtocolVersion : CCommand → bool → RESULT * option Z :=
  hex_parameter ProtocolVersionCommand FIRST_PARAMETER.

(** @src src/spkcal/cirrus/tools/wbridge/Command.cpp:754-791 GetLength *)
Definition GetLength : CCommand → bool → RESULT * option Z :=
  hex_parameter BlockReadCommand SECOND_PARAMETER.

(** @src src/spkcal/cirrus/tools/wbridge/Command.cpp:526-559 GetDevice *)
Definition GetDevice (c : CCommand) (out : bool) : RESULT * option (list Z) :=
  if negb out then (WMT_INVALID_PARAMETER, None)
  else
    match m_commandType c with
    | DeviceCommand =>
        match GetParameter (m_parameters c) FIRST_PARAMETER true with
        | (WMT_SUCCESS, Some d) => (WMT_SUCCESS, Some d)
        | (r, _) => (required r, None)
        end
    | _ => (WMT_INVALID_COMMAND, Some [])
    end.

(** The delimiters of "target\region:address". *)
Definition target_delims : list Z := [58; 92].

(** @src src/spkcal/cirrus/tools/wbridge/Command.cpp:605-663 GetTarget
    [parts[0]] is read also when there are no parts. *)
Definition GetTarget (c : CCommand) (out : bool) : outcome (RESULT * option (list Z)) :=
  if negb out then Ret (WMT_INVALID_PARAMETER, None)
  else
    match m_commandType c with
    | BlockReadCommand | BlockWriteCommand =>
        match GetParameter (m_parameters c) FIRST_PARAMETER true with
        | (WMT_SUCCESS, Some parameter) =>
            parts ← SplitString parameter target_delims true;
            if (length parts =? 1)%nat then Ret (WMT_INVALID_COMMAND, None)
            else target ← or_ub (parts !! 0%nat); Ret (WMT_SUCCESS, Some target)
        | (r, _) => Ret (required r, None)
        end
    | _ => Ret (WMT_INVALID_COMMAND, Some [])
    end.

(** @src src/spkcal/cirrus/tools/wbridge/Command.cpp:678-739 GetRegion *)
Definition GetRegion (c : CCommand) (out : bool) : outcome (RESULT * option (list Z)) :=
  if negb out then Ret (WMT_INVALID_PARAMETER, None)
  else
    match m_commandType c with
    | BlockReadCommand | BlockWriteCommand =>
        match GetParameter (m_parameters c) FIRST_PARAMETER true with
        | (WMT_SUCCESS, Some parameter) =>
            parts ← SplitString parameter target_delims true;
            Ret (match parts with
                 | [_; region; _] => (WMT_SUCCESS, Some region)
                 | _ => (WMT_INVALID_COMMAND, None)
                 end)
        | (r, _) => Ret (r, None)
        end
    | _ => Ret (WMT_INVALID_COMMAND, Some [])
    end.

(** The loop of [GetData], two characters at a time. *)
Fixpoint data_bytes (s : list Z) : list Z :=
  match s with
  | a :: b :: s' => Z.land (strtoul16 (c_str [a; b])) 0xFF :: data_bytes s'
  | _ => []
  end.

(** @src src/spkcal/cirrus/tools/wbridge/Command.cpp:809-865 GetData *)
Definition GetData (c : CCommand) (out : bool) : RESULT * option (list Z) :=
  if negb out then (WMT_INVALID_PARAMETER, None)
  else
    match m_commandType c with
    | BlockWriteCommand =>
        match GetParameter (m_parameters c) SECOND_PARAMETER true with
        | (WMT_SUCCESS, Some parameter) =>
            if Nat.odd (length parameter) then (WMT_INVALID_COMMAND, None)
            else (WMT_SUCCESS, Some (data_bytes parameter))
        | (r, _) => (required r, None)
        end
    | _ => (WMT_INVALID_COMMAND, None)
    end.

Example read_command : ∃ c, CCommand_of (str "[dev:1F] r 0x12") = Ret c ∧
  m_commandType c = ReadCommand ∧ m_deviceIDString c = str "dev" ∧ m_sequenceNumber c = 31 ∧
  m_sequenceNumberString c = str "[1F] " ∧ GetAddress c true = Ret (WMT_SUCCESS, Some 18).
Proof. eexists. split; [by vm_compute|]. by vm_compute. Qed.

(** ** The device id and the sequence number *)

#[local] Abbreviation blank c := (in_set blanks c = true).

Lemma char_at_middle pre c s : char_at (pre ++ c :: s) (Some (length pre)) = Ret c.
Proof.
  unfold char_at. rewrite length_app. destruct (Nat.ltb_spec (length pre) (length pre + length (c :: s))); [|simpl in *; lia].
  by rewrite list_lookup_middle.
Qed.

Lemma char_at_inside s i : (i ≤ length s)%nat → ∃ c, char_at s (Some i) = Ret c ∧ (c ≠ 0 → (i < length s)%nat).
Proof.
  intros Hi. unfold char_at. destruct (Nat.ltb_spec i (length s)) as [Hl|Hl].
  - apply lookup_lt_is_Some_2 in Hl as Hc. destruct Hc as [c ->]. by exists c.
  - destruct (Nat.eqb_spec i (length s)); [|lia]. by exists 0.
Qed.

Lemma FindFirstNotOf_lt s set i k : FindFirstNotOf s set (Some i) = Some k → (i ≤ k < length s)%nat.
Proof.
  cbn [FindFirstNotOf]. destruct (Nat.leb_spec (length s) i) as [|Hi]; [done|].
  destruct set as [|x set]; [intros [= <-]; lia|].
  destruct (first_not_in_spec (x :: set) (drop i s) i) as [[_ ->]|(run & c & s' & Hs & _ & _ & ->)]; [done|].
  intros [= <-]. apply (f_equal length) in Hs. rewrite length_drop, length_app in Hs. simpl in Hs. lia.
Qed.

(** Looking for a device id does not read outside the string from a position
    inside it, and leaves a position inside it. *)
Lemma parse_device_inside s i : (i < length s)%nat →
  ∃ device j, parse_device s (Some i) = Ret (device, Some j) ∧ (j ≤ length s)%nat.
Proof.
  intros Hi. unfold parse_device. assert (Hdone : ∃ (device : option (list Z)) j,
    Ret (None, Some i) = Ret (device, Some j) ∧ (j ≤ length s)%nat) by (exists None, i; split; [done|lia]).
  destruct (find_from [RBRACKET] (c_str s) 0) as [e|]; [|done].
  destruct (find_from [COLON] (c_str s) 0) as [d|]; [|done]. destruct (d <? e)%nat; [|done].
  destruct (char_at_inside s i ltac:(lia)) as (c & -> & _). cbn [mbind outcome_bind].
  destruct (negb (c =? COLON)); [|done].
  destruct (FindFirstNotOf s blanks (FindFirstNotOf s id_chars (Some i))) as [k|] eqn:Hk; [|done].
  destruct (FindFirstNotOf s id_chars (Some i)) as [k0|]; [|done]. apply FindFirstNotOf_lt in Hk.
  destruct (char_at_inside s k ltac:(lia)) as (c' & -> & _). cbn [mbind outcome_bind].
  destruct (c' =? COLON); [|done]. eexists _, (S k). split; [done|lia].
Qed.

(** Without a position nothing is found, or the string is read out of range. *)
Lemma parse_device_npos s : parse_device s None = UB ∨ parse_device s None = Ret (None, None).
Proof.
  unfold parse_device. destruct (find_from _ _ _); [|by right]. destruct (find_from _ _ _); [|by right].
  destruct (_ <? _)%nat; [by left|by right].
Qed.

Lemma parse_number_inside s i : (i ≤ length s)%nat → ∃ r, parse_number s (Some i) = Ret r.
Proof.
  intros Hi. unfold parse_number. destruct (char_at_inside s i Hi) as (c & -> & _). cbn [mbind outcome_bind].
  destruct (IsHexDigit c); [|by eexists].
  destruct (FindFirstNotOf (drop i s) blanks (FindFirstNotOf (drop i s) hex_chars (Some 0%nat))) as [e|] eqn:He;
    [|by eexists].
  destruct (FindFirstNotOf (drop i s) hex_chars (Some 0%nat)) as [e0|]; [|done]. apply FindFirstNotOf_lt in He.
  destruct (char_at_inside (drop i s) e ltac:(lia)) as (c' & -> & _). cbn [mbind outcome_bind].
  destruct (c' =? RBRACKET); by eexists.
Qed.

Lemma parse_sequence_inside s i : (i ≤ length s)%nat → ∃ r, parse_sequence s (Some i) = Ret r.
Proof.
  intros Hi. unfold parse_sequence. destruct (char_at_inside s i Hi) as (c0 & -> & Hc0). cbn [mbind outcome_bind].
  destruct (Z.eqb_spec c0 48) as [->|]; cbn [andb]; [|by apply parse_number_inside].
  assert (Hi1 : (i + 1 ≤ length s)%nat) by (specialize (Hc0 ltac:(done)); lia). cbn [advance fmap option_fmap option_map].
  destruct (char_at_inside s (i + 1) Hi1) as (c1 & -> & Hc1). cbn [mbind outcome_bind].
  destruct (Z.eqb_spec c1 120) as [->|]; [|by apply parse_number_inside].
  specialize (Hc1 ltac:(done)). apply parse_number_inside. lia.
Qed.

Lemma finish_command_total s invalid device seq : ∃ c, finish_command s invalid device seq = Ret c.
Proof. unfold finish_command, SplitString. by eexists. Qed.

(** With a position inside the string the rest of the constructor returns. *)
Lemma numbered_inside s i : (i < length s)%nat → ∃ c,
  ('(device, seqNoStart) ← parse_device s (Some i);
   invalid ← (match device with
              | Some _ => Ret false
              | None => c ← char_at s seqNoStart; Ret (c =? COLON)
              end);
   let seqNoStart := if invalid : bool then advance seqNoStart 1 else seqNoStart in
   seq ← parse_sequence s seqNoStart;
   finish_command s invalid device seq) = Ret c.
Proof.
  intros Hi. destruct (parse_device_inside s i Hi) as (device & j & -> & Hj). cbn [mbind outcome_bind].
  assert (Hgo : ∀ (invalid : bool) k, (k ≤ length s)%nat → ∃ c,
    (seq ← parse_sequence s (Some k); finish_command s invalid device seq) = Ret c).
  { intros invalid k Hk. destruct (parse_sequence_inside s k Hk) as [r ->]. cbn [mbind outcome_bind].
    apply finish_command_total. }
  destruct device as [d|]; cbn [mbind outcome_bind]; [by apply (Hgo false)|].
  destruct (char_at_inside s j Hj) as (c & -> & Hc). cbn [mbind outcome_bind].
  destruct (Z.eqb_spec c COLON) as [->|]; [|by apply (Hgo false)]. specialize (Hc ltac:(done)).
  apply (Hgo true). lia.
Qed.

(** The command is an opening bracket with nothing but blanks around it. *)
Definition only_bracket (s : list Z) : Prop :=
  ∃ b1 b2, s = b1 ++ LBRACKET :: b2 ∧ Forall (λ c, blank c) b1 ∧ Forall (λ c, blank c) b2.

(** A string is cut at its first non-blank in one way only. *)
Lemma first_cut (b b' s s' : list Z) c c' : b ++ c :: s = b' ++ c' :: s' →
  Forall (λ c, blank c) b → Forall (λ c, blank c) b' → in_set blanks c = false → in_set blanks c' = false →
  b = b' ∧ c = c' ∧ s = s'.
Proof.
  revert b'. induction b as [|x b IH]; intros [|x' b'] Heq Hb Hb' Hc Hc'; simplify_eq/=; [done| | |].
  - apply Forall_cons_1 in Hb' as [? _]. congruence.
  - apply Forall_cons_1 in Hb as [? _]. congruence.
  - apply Forall_cons_1 in Hb as [_ Hb]. apply Forall_cons_1 in Hb' as [_ Hb'].
    by destruct (IH b') as (-> & -> & ->).
Qed.

(** The constructor parses every string, except an opening bracket with
    nothing but blanks around it: there it reads the string at [npos]. *)
Theorem CCommand_total (s : list Z) :
  (only_bracket s → CCommand_of s = UB) ∧ (¬ only_bracket s → ∃ c, CCommand_of s = Ret c).
Proof.
  unfold CCommand_of. destruct (FindFirstNotOf_spec [] s blanks ltac:(done)) as [[Hs Hf]|(b1 & c & s' & -> & Hb1 & Hc & Hf)];
    cbn [app length Nat.add] in Hf; rewrite Hf.
  - split; [|intros _; apply finish_command_total]. intros (b1 & b2 & -> & _). apply Forall_app in Hs as [_ Hs].
    by apply Forall_cons_1 in Hs as [? _].
  - rewrite char_at_middle. cbn [mbind outcome_bind]. destruct (Z.eqb_spec c LBRACKET) as [->|Hcb].
    + replace (b1 ++ LBRACKET :: s') with ((b1 ++ [LBRACKET]) ++ s') by by rewrite <-app_assoc.
      cbn [advance fmap option_fmap option_map].
      replace (length b1 + 1)%nat with (length (b1 ++ [LBRACKET])) by (rewrite length_app; simpl; lia).
      destruct (FindFirstNotOf_spec (b1 ++ [LBRACKET]) s' blanks ltac:(done)) as [[Hs' ->]|(b2 & d & s2 & -> & Hb2 & Hd & ->)].
      * split; [intros _|]; [by destruct (parse_device_npos ((b1 ++ [LBRACKET]) ++ s')) as [->| ->]|].
        intros Hn. destruct Hn. exists b1, s'. by rewrite <-app_assoc.
      * split; [|intros _; apply numbered_inside; rewrite !length_app; simpl; lia].
        intros (b1' & b2' & Heq & Hb1' & Hb2'). rewrite <-app_assoc in Heq. apply first_cut in Heq as (-> & _ & <-); try done.
        apply Forall_app in Hb2' as [_ [Hb2' _]%Forall_cons_1]. congruence.
    + split; [|intros _; apply finish_command_total]. intros (b1' & b2' & Heq & Hb1' & Hb2').
      apply first_cut in Heq as (_ & -> & _); done.
Qed.

Lemma CCommand_total_witness :
  only_bracket (str " [ ") ∧ CCommand_of (str " [ ") = UB ∧
  ¬ only_bracket (str "[1") ∧ ∃ c, CCommand_of (str "[1") = Ret c.
Proof.
  assert (H : only_bracket (str " [ ")) by (exists [32], [32]; by repeat constructor).
  assert (Hn : ¬ only_bracket (str "[1")).
  { intros (b1 & b2 & Heq & Hb1 & Hb2). apply (first_cut []) in Heq as (<- & _ & <-); try done.
    by apply Forall_cons_1 in Hb2 as [? _]. }
  split; [done|]. split; [by apply CCommand_total|]. split; [done|]. by apply CCommand_total.
Defined.

(** ** Sequence numbers are echoed *)

Lemma hex_value_app acc a b v : hex_value acc a = Some v → hex_value acc (a ++ b) = hex_value v b.
Proof.
  revert acc. induction a as [|c a IH]; intros acc; cbn [app hex_value]; [by intros [= ->]|].
  destruct (digit (upper c)); [apply IH|done].
Qed.

Lemma print_hex_value fuel n : 0 ≤ n < 16 ^ Z.of_nat fuel → (0 < fuel)%nat →
  hex_value 0 (print_hex fuel n) = Some n ∧ print_hex fuel n ≠ [].
Proof.
  revert n. induction fuel as [|fuel IH]; intros n Hn Hf; [lia|]. cbn [print_hex].
  destruct (Z.ltb_spec n 16) as [Hs|Hs].
  - split; [|done]. cbn [hex_value]. rewrite (proj1 (digit_hex n ltac:(lia))). cbn [hex_value]. by rewrite Z.mul_0_r.
  - rewrite Nat2Z.inj_succ, Z.pow_succ_r in Hn by lia. destruct fuel as [|fuel]; [simpl in Hn; lia|].
    destruct (IH (n / 16)) as [IHv _]; [|lia|].
    { split; [apply Z.div_pos; lia|apply Z.div_lt_upper_bound; lia]. }
    split; [|by destruct (print_hex (S fuel) (n / 16))].
    rewrite (hex_value_app _ _ _ (n / 16)) by done. cbn [hex_value].
    rewrite (proj1 (digit_hex (n mod 16) (Z.mod_pos_bound n 16 ltac:(lia)))). cbn [hex_value]. f_equal.
    pose proof (Z.div_mod n 16). lia.
Qed.

Lemma hex_chars_spec c : IsHexDigit c = true → in_set hex_chars c = true ∧ in_set blanks c = false ∧
  in_set id_chars c = true ∧ c ≠ RBRACKET ∧ c ≠ COLON.
Proof.
  intros Hc. assert (Hb : is_byte c).
  { unfold IsHexDigit in Hc. unfold is_byte.
    apply orb_prop in Hc as [[[? ?]%andb_prop|[? ?]%andb_prop]%orb_prop|[? ?]%andb_prop]; to_prop; lia. }
  pose proof (byte_forall (λ c, implb (IsHexDigit c) (in_set hex_chars c && negb (in_set blanks c) &&
    in_set id_chars c && negb (c =? RBRACKET) && negb (c =? COLON))) c ltac:(by vm_compute) Hb) as H.
  cbn beta in H. rewrite Hc in H. cbn [implb] in H. to_prop. repeat (apply andb_prop in H as [H ?]). to_prop. done.
Qed.

Section Numbered.
Context (h : list Z) (n : Z) (Hv : hex_value 0 h = Some n) (Hne : h ≠ []) (Hn : 0 ≤ n < 2 ^ 32).

Lemma digits_not (d : Z) : (∀ c, IsHexDigit c = true → c ≠ d) → d ∉ h.
Proof.
  intros Hd Hin. pose proof (hex_value_digits _ _ _ Hv) as Hf. rewrite Forall_forall in Hf.
  by apply (Hd d); [apply Hf|].
Qed.

Lemma digits_no_nul : no_nul h.
Proof. apply digits_not. intros c Hc. by destruct (IsHexDigit_plain c Hc) as (_ & _ & _ & _ & _ & ?). Qed.

Lemma parse_device_none rest pos :
  parse_device (LBRACKET :: h ++ RBRACKET :: rest) pos = Ret (None, pos).
Proof.
  unfold parse_device. change (LBRACKET :: h ++ RBRACKET :: rest) with ((LBRACKET :: h) ++ RBRACKET :: rest).
  rewrite c_str_app by (apply no_nul_cons; split; [done|apply digits_no_nul]). cbn [c_str].
  change (RBRACKET =? 0) with false. cbv iota. rewrite !find_from_run.
  - cbn [find_from]. rewrite !starts_with_one. change (RBRACKET =? RBRACKET) with true.
    change (COLON =? RBRACKET) with false. cbv iota.
    destruct (find_from [COLON] (c_str rest) (S (0 + length (LBRACKET :: h)))) as [k|] eqn:Hk; [|done].
    apply find_from_ge in Hk. destruct (Nat.ltb_spec k (0 + length (LBRACKET :: h))); [lia|done].
  - apply not_elem_of_cons. split; [done|]. apply digits_not. intros c Hc. by apply hex_chars_spec.
  - apply not_elem_of_cons. split; [done|]. apply digits_not. intros c Hc. by apply hex_chars_spec.
Qed.

Lemma parse_number_bracket pre rest :
  parse_number (pre ++ h ++ RBRACKET :: rest) (Some (length pre)) = Ret (Some (n, rest)).
Proof.
  pose proof (hex_value_digits _ _ _ Hv) as Hd. unfold parse_number. rewrite drop_app_length.
  assert (Hc : ∃ c, char_at (pre ++ h ++ RBRACKET :: rest) (Some (length pre)) = Ret c ∧ IsHexDigit c = true).
  { destruct Hd as [|c t Hc Hd]; [done|]. exists c. split; [apply char_at_middle|done]. }
  destruct Hc as (c & -> & Hc). cbn [mbind outcome_bind]. rewrite Hc.
  rewrite FindFirstNotOf_front; [|done| |done].
  2: { eapply Forall_impl; [exact Hd|]. intros x Hx. by apply hex_chars_spec. }
  rewrite FindFirstNotOf_here, char_at_middle by done. cbn [mbind outcome_bind].
  change (RBRACKET =? RBRACKET) with true. cbv iota.
  rewrite c_str_app by apply digits_no_nul. rewrite (strtoul16_digits h n); try done.
  - do 3 f_equal; [|by rewrite (cons_middle RBRACKET), app_assoc, drop_app_length' by (rewrite length_app; simpl; lia)].
    f_equal. by apply wrapu_small.
  - unfold ULONG_MAX. lia.
Qed.

Lemma digits_head : ∃ c t, h = c :: t ∧ IsHexDigit c = true ∧ Forall (λ c, IsHexDigit c = true) t.
Proof.
  pose proof (hex_value_digits _ _ _ Hv) as Hd. revert Hne.
  destruct Hd as [|c t Hc Ht]; [done|]. intros _. by exists c, t.
Qed.

Lemma parse_sequence_bracket pre rest :
  parse_sequence (pre ++ h ++ RBRACKET :: rest) (Some (length pre)) = Ret (Some (n, rest)).
Proof.
  destruct digits_head as (c & t & Hh & Hc & Ht). unfold parse_sequence.
  assert (Hc0 : char_at (pre ++ h ++ RBRACKET :: rest) (Some (length pre)) = Ret c) by (rewrite Hh; apply char_at_middle).
  rewrite Hc0. cbn [mbind outcome_bind].
  assert (Hx : ∃ c1, (if c =? 48 then char_at (pre ++ h ++ RBRACKET :: rest) (advance (Some (length pre)) 1) else Ret 0)
    = Ret c1 ∧ c1 ≠ 120).
  { destruct (c =? 48); [|by exists 0]. cbn [advance fmap option_fmap option_map]. rewrite Hh. cbn [app].
    replace (length pre + 1)%nat with (length (pre ++ [c])) by (rewrite length_app; simpl; lia).
    replace (pre ++ c :: t ++ RBRACKET :: rest) with ((pre ++ [c]) ++ t ++ RBRACKET :: rest) by by rewrite <-app_assoc.
    destruct Ht as [|d t Hd _]; [exists RBRACKET|exists d]; (split; [apply char_at_middle|]); [done|].
    by destruct (IsHexDigit_plain d Hd) as (_ & _ & _ & ? & _). }
  destruct Hx as (c1 & -> & Hx). cbn [mbind outcome_bind]. destruct (Z.eqb_spec c1 120); [done|].
  rewrite andb_false_r. apply parse_number_bracket.
Qed.

(** "[n]" in front of a text. *)
Lemma CCommand_of_numbered rest :
  CCommand_of (LBRACKET :: h ++ RBRACKET :: rest)
  = finish_command (LBRACKET :: h ++ RBRACKET :: rest) false None (Some (n, rest)).
Proof.
  destruct digits_head as (c & t & Hh & Hc & Ht). unfold CCommand_of.
  change (FindFirstNotOf (LBRACKET :: h ++ RBRACKET :: rest) blanks (Some 0%nat)) with (Some 0%nat).
  change (char_at (LBRACKET :: h ++ RBRACKET :: rest) (Some 0%nat)) with (Ret LBRACKET). cbn [mbind outcome_bind].
  change (LBRACKET =? LBRACKET) with true. cbv iota. cbn [advance fmap option_fmap option_map].
  assert (Hf : FindFirstNotOf (LBRACKET :: h ++ RBRACKET :: rest) blanks (Some (0 + 1)%nat) = Some 1%nat).
  { rewrite Hh. apply (FindFirstNotOf_here [LBRACKET] c); [done|by apply hex_chars_spec]. }
  rewrite Hf, parse_device_none. cbn [mbind outcome_bind].
  assert (Hcc : char_at (LBRACKET :: h ++ RBRACKET :: rest) (Some 1%nat) = Ret c).
  { rewrite Hh. apply (char_at_middle [LBRACKET]). }
  rewrite Hcc. cbn [mbind outcome_bind]. destruct (Z.eqb_spec c COLON) as [->|]; [done|].
  pose proof (parse_sequence_bracket [LBRACKET] rest) as Hp. cbn [app length] in Hp. cbv zeta iota. by rewrite Hp.
Qed.

End Numbered.

(** ** Data and addresses *)

Lemma data_bytes_hex bs : Forall is_byte bs → data_bytes (hex_text bs) = bs.
Proof.
  induction 1 as [|b bs Hb _ IH]; [done|]. destruct (nibbles b Hb) as [H1 H2].
  change (hex_text (b :: bs)) with (hex_digit (b / 16) :: hex_digit (b mod 16) :: hex_text bs). cbn [data_bytes].
  rewrite IH, c_str_id by (by apply hex_of_no_nul). f_equal.
  assert (Hv : hex_value 0 (hex_of b) = Some b).
  { unfold hex_of. cbn [hex_value]. rewrite (proj1 (digit_hex _ H1)), (proj1 (digit_hex _ H2)). cbn [hex_value].
    f_equal. pose proof (Z.div_mod b 16). lia. }
  change [hex_digit (b / 16); hex_digit (b mod 16)] with (hex_of b). rewrite <-(app_nil_r (hex_of b)).
  unfold is_byte in Hb. rewrite (strtoul16_digits _ b) by (done || (unfold ULONG_MAX; lia)).
  change 0xFF with (Z.ones 8). rewrite Z.land_ones by lia. by apply Z.mod_small.
Qed.

Lemma hex_text_chars bs : Forall is_byte bs → Forall (λ c, IsHexDigit c = true) (hex_text bs).
Proof.
  induction 1 as [|b bs Hb _ IH]; [constructor|]. destruct (nibbles b Hb) as [H1 H2].
  change (hex_text (b :: bs)) with (hex_digit (b / 16) :: hex_digit (b mod 16) :: hex_text bs).
  destruct (digit_hex _ H1) as [D1 _]. destruct (digit_hex _ H2) as [D2 _].
  by constructor; [|constructor]; [apply IsHexDigit_digit; rewrite D1|apply IsHexDigit_digit; rewrite D2|].
Qed.

Definition separators : list Z := blanks ++ [10].

Lemma digits_separate s : Forall (λ c, IsHexDigit c = true) s → Forall (.∉ separators) s.
Proof.
  intros Hs. eapply Forall_impl; [exact Hs|]. intros c Hc Hin. unfold separators, blanks in Hin.
  cbn [app] in Hin. set_unfold in Hin. revert Hc. by destruct Hin as [->|[->|[->|[]]]].
Qed.

(** A block write the host sends with a sequence number, a target and the bytes
    in hexadecimal is read back: its type, the number, the text echoed in the
    reply, and the bytes. *)
Theorem CCommand_block_write (n : Z) (target bs : list Z) :
  0 ≤ n < 2 ^ 32 → target ≠ [] → no_nul target → Forall (.∉ separators) target →
  bs ≠ [] → Forall is_byte bs →
  ∃ c, CCommand_of (sequence_string n ++ str "bw " ++ target ++ str " " ++ hex_text bs) = Ret c ∧
    m_commandType c = BlockWriteCommand ∧ m_sequenceNumber c = n ∧ m_hasSequenceNumber c = true ∧
    m_sequenceNumberString c = sequence_string n ∧ m_hasDeviceID c = false ∧
    m_parameters c = [str "bw"; target; hex_text bs] ∧ GetData c true = (WMT_SUCCESS, Some bs).
Proof.
  intros Hn Ht Hnul Hsep Hbs Hb. destruct (print_hex_value 8 n Hn ltac:(lia)) as [Hv Hne].
  unfold sequence_string. set (body := str " bw " ++ target ++ str " " ++ hex_text bs).
  assert (Hne' : hex_text bs ≠ []) by (by destruct Hb).
  replace ((LBRACKET :: print_hex 8 n ++ [RBRACKET; 32]) ++ str "bw " ++ target ++ str " " ++ hex_text bs)
    with (LBRACKET :: print_hex 8 n ++ RBRACKET :: body) by (cbn [app]; by rewrite <-app_assoc).
  rewrite (CCommand_of_numbered _ n Hv Hne Hn). unfold finish_command, SplitString. cbn [blanks app mbind outcome_bind].
  assert (Hf : fields [32; 9; 10] [] (c_str body) = [str "bw"; target; hex_text bs]).
  { rewrite c_str_id.
    - unfold body. change (str " bw " ++ target ++ str " " ++ hex_text bs)
        with ([32] ++ str "bw" ++ 32 :: (target ++ 32 :: hex_text bs)).
      rewrite fields_delims by (by apply (bool_decide_unpack _); vm_compute).
      rewrite fields_cons; [|done|by apply (bool_decide_unpack _); vm_compute|by apply (bool_decide_unpack _); vm_compute].
      rewrite fields_cons; [|done|done|by apply (bool_decide_unpack _); vm_compute].
      rewrite fields_last; [done|done|]. by apply digits_separate, hex_text_chars.
    - unfold body. rewrite !no_nul_app. unfold no_nul at 1 3.
      split_and!; [by apply (bool_decide_unpack _); vm_compute|done|by apply (bool_decide_unpack _); vm_compute|].
      by apply hex_text_no_nul. }
  rewrite Hf. eexists. split; [done|]. do 5 (split; [done|]). split; [done|]. unfold GetData.
  cbn [negb m_commandType m_parameters GetParameter lookup list_lookup].
  change (ParseCommandType (str "bw")) with BlockWriteCommand. cbn [GetParameter negb SECOND_PARAMETER lookup list_lookup].
  rewrite length_hex_text, Nat.odd_mul. cbn [Nat.odd Nat.even negb andb]. by rewrite data_bytes_hex.
Qed.

Lemma CCommand_block_write_witness : ∃ c,
  CCommand_of (sequence_string 26 ++ str "bw " ++ str "dsp\X:1F" ++ str " " ++ hex_text [1; 171]) = Ret c ∧
    m_commandType c = BlockWriteCommand ∧ m_sequenceNumber c = 26 ∧ m_hasSequenceNumber c = true ∧
    m_sequenceNumberString c = sequence_string 26 ∧ m_hasDeviceID c = false ∧
    m_parameters c = [str "bw"; str "dsp\X:1F"; hex_text [1; 171]] ∧ GetData c true = (WMT_SUCCESS, Some [1; 171]).
Proof.
  apply (CCommand_block_write 26 (str "dsp\X:1F") [1; 171]); try done.
  - unfold no_nul. by apply (bool_decide_unpack _); vm_compute.
  - by apply (bool_decide_unpack _); vm_compute.
  - repeat constructor; done.
Defined.


(** The parameter [p] is where a read or a write has its address: after the
    target of a block command, when it names one. *)
Definition address_parameter (c : CCommand) (p : list Z) : Prop :=
  match m_commandType c with
  | ReadCommand | WriteCommand => m_parameters c !! FIRST_PARAMETER = Some p
  | BlockReadCommand | BlockWriteCommand =>
      m_parameters c !! FIRST_PARAMETER = Some p ∨
      (∃ target, target ≠ [] ∧ (COLON ∉ target) ∧ m_parameters c !! FIRST_PARAMETER = Some (target ++ (COLON :: p)))
  | _ => False
  end.

(** [GetAddress] on an address parameter without a colon. *)
Lemma GetAddress_parameter c p : address_parameter c p → COLON ∉ p → p ≠ [] →
  GetAddress c true = Ret (if CheckHexValueLength (c_str p) MAX_REGISTER_LENGTH
                           then (WMT_SUCCESS, Some (u32 (strtoul16 (c_str p)))) else (WMT_INVALID_COMMAND, None)).
Proof.
  intros Ha Hp Hne.
  assert (Hone : ∀ t, COLON ∉ t → Forall (.∉ [COLON]) t).
  { intros t Ht. apply Forall_forall. by intros x Hx ->%list_elem_of_singleton. }
  unfold address_parameter in Ha. unfold GetAddress, GetParameter. cbn [negb].
  destruct (m_commandType c) eqn:Hty; try done; [by rewrite Ha..| |];
    (destruct Ha as [->|(t & Ht & Htc & ->)]; cbv zeta iota; rewrite SplitString_exact_char; cbn [mbind outcome_bind];
     [|rewrite fields_cons by (auto || by apply list_elem_of_singleton)]; by rewrite fields_last by auto).
Qed.

Lemma hex_length_check (prefixed : bool) h : Forall (λ c, IsHexDigit c = true) h → h ≠ [] →
  CheckHexValueLength ((if prefixed then str "0x" else []) ++ h) MAX_REGISTER_LENGTH = (length h <=? 8)%nat.
Proof.
  intros Hh Hne. unfold CheckHexValueLength, MAX_REGISTER_LENGTH, HEX_IDENTIFIER_LENGTH.
  assert (Hs : starts_with (str "0x") ((if prefixed then str "0x" else []) ++ h) = prefixed).
  { destruct prefixed; [done|]. cbn [app]. destruct Hh as [|z h Hz Hh]; [done|]. destruct Hh as [|x h Hx Hh];
      cbn [str starts_with]; [by destruct (_ =? _)|].
    destruct (IsHexDigit_plain x Hx) as (_ & _ & _ & Hx' & _).
    apply andb_false_iff. right. apply andb_false_iff. left. apply Z.eqb_neq. intros E. apply Hx'. by rewrite <-E. }
  cbv zeta. rewrite Hs, length_app.
  destruct (Nat.leb_spec (length h) 8); destruct prefixed; cbn [length str Nat.add];
    repeat (case_bool; to_prop); try done; lia.
Qed.

(** An address in hexadecimal, with or without "0x", alone or after a target, is
    taken exactly when it has at most eight digits, and then it is the number
    written: no address is cut to 32 bits. *)
Theorem GetAddress_exact (c : CCommand) (prefixed : bool) (h : list Z) (v : Z) :
  h ≠ [] → hex_value 0 h = Some v → address_parameter c ((if prefixed then str "0x" else []) ++ h) →
  GetAddress c true
  = Ret (if (length h <=? 8)%nat then (WMT_SUCCESS, Some v) else (WMT_INVALID_COMMAND, None)).
Proof.
  intros Hne Hv Ha. pose proof (hex_value_digits _ _ _ Hv) as Hd.
  assert (Hnot : ∀ d, IsHexDigit d = false → d ≠ 48 → d ≠ 120 → d ∉ (if prefixed then str "0x" else []) ++ h).
  { intros d Hdd H48 H120 Hin. apply elem_of_app in Hin as [Hin|Hin].
    - destruct prefixed; [|by apply not_elem_of_nil in Hin]. cbn in Hin. set_unfold in Hin. by destruct Hin as [->|[->|[]]].
    - rewrite Forall_forall in Hd. apply Hd in Hin. congruence. }
  rewrite (GetAddress_parameter c ((if prefixed then str "0x" else []) ++ h)); [|done|by apply Hnot|].
  2: { intros He. by apply app_nil in He as [_ He]. }
  rewrite c_str_id by by apply Hnot. rewrite hex_length_check by done.
  destruct (Nat.leb_spec (length h) 8) as [Hl|]; [|done].
  pose proof (hex_value_bound 0 _ _ (Z.le_refl 0) Hv) as Hb.
  assert (Hb' : 0 ≤ v < 2 ^ 32).
  { change (2 ^ 32) with (16 ^ 8). assert (16 ^ Z.of_nat (length h) ≤ 16 ^ 8) by (apply Z.pow_le_mono_r; lia). lia. }
  assert (Hu : strtoul16 ((if prefixed then str "0x" else []) ++ h) = v).
  { rewrite <-(app_nil_r h). destruct prefixed; [apply strtoul16_prefixed|apply (strtoul16_digits h v [])]; try done;
      unfold ULONG_MAX; lia. }
  rewrite Hu. do 3 f_equal. by apply wrapu_small.
Qed.

Lemma GetAddress_exact_witness : ∃ c,
  CCommand_of (str "br dsp\\XM:0x2000ffff 10") = Ret c ∧
  address_parameter c (str "0x" ++ str "2000ffff") ∧ GetAddress c true = Ret (WMT_SUCCESS, Some 0x2000ffff) ∧
  ∃ c', CCommand_of (str "r 123456789") = Ret c' ∧ GetAddress c' true = Ret (WMT_INVALID_COMMAND, None).
Proof.
  eexists. split; [by vm_compute|].
  assert (Ha : ∀ ty a b d e f g, ty = BlockReadCommand → address_parameter (mkCommand ty a b d e f
    [str "br"; str "dsp\\XM:0x2000ffff"; str "10"] g) (str "0x" ++ str "2000ffff")).
  { intros ty a b d e f g ->. right. exists (str "dsp\\XM"). split; [done|]. split; [|done].
    by apply (bool_decide_unpack _); vm_compute. }
  split; [by apply Ha|]. split; [by apply (GetAddress_exact _ true (str "2000ffff") 0x2000ffff); [..|by apply Ha]|].
  eexists. split; [by vm_compute|]. by apply (GetAddress_exact _ false (str "123456789") 0x123456789).
Defined.

(** [GetTarget] of a block command returns unless its parameter has nothing but
    delimiters: then it reads the first element of an empty vector.  Otherwise
    the target is the first of at least two pieces, and a single piece is the
    address of a command without a target. *)
Theorem GetTarget_pieces (c : CCommand) (p : list Z) :
  m_commandType c = BlockReadCommand ∨ m_commandType c = BlockWriteCommand →
  m_parameters c !! FIRST_PARAMETER = Some p →
  (GetTarget c true = UB ↔ Forall (.∈ target_delims) (c_str p)) ∧
  (∀ target, GetTarget c true = Ret (WMT_SUCCESS, Some target) ↔
     ∃ piece pieces, fields target_delims [] (c_str p) = target :: piece :: pieces) ∧
  (GetTarget c true = Ret (WMT_INVALID_COMMAND, None) ↔ ∃ a, fields target_delims [] (c_str p) = [a]).
Proof.
  intros Hty Hp. rewrite <-fields_nil_iff. unfold GetTarget, GetParameter. cbn [negb]. rewrite Hp.
  assert (Hd : ∀ k, SplitString p target_delims true ≫= k
    = (k (fields target_delims [] (c_str p)) : outcome (RESULT * option (list Z)))) by done.
  destruct Hty as [-> | ->]; cbv iota; rewrite Hd; clear Hd;
    (destruct (fields target_delims [] (c_str p)) as [|a [|b l]]; cbn; naive_solver).
Qed.

Lemma GetTarget_pieces_witness : ∃ c,
  CCommand_of (str "br : 4") = Ret c ∧ GetAddress c true = Ret (WMT_SUCCESS, Some 0) ∧ GetTarget c true = UB.
Proof.
  eexists. split; [by vm_compute|]. split; [by vm_compute|].
  eapply GetTarget_pieces; [by left|done|]. by apply (bool_decide_unpack _); vm_compute.
Defined.

(** The length of the device id counts the blanks before the bracket. *)
Example device_id_after_blanks :
  (m_deviceIDString <$> match CCommand_of (str "[dev:1] r 1") with Ret c => Some c | _ => None end) = Some (str "dev") ∧
  (m_deviceIDString <$> match CCommand_of (str "  [dev:1] r 1") with Ret c => Some c | _ => None end) = Some (str "dev:1").
Proof. by vm_compute. Qed.
