(* ===== verification/WbDevice.v ===== *)
(** * What the WISCE bridge asks of a device

    [Device] is the class [CBaseCommunications] of
    [src/spkcal/cirrus/tools/wbridge/BaseCommunications.h]: what the command handler may
    call.  The definitions are the operations the base class implements itself, in
    terms of the others, from [BaseCommunications.cpp]. *)
From S2P Require Import Prelude DevStdlib DevArrays WbString WbResult.
From stdpp Require Import strings.
#[local] Open Scope Z_scope.

(** @src src/spkcal/cirrus/tools/wbridge/WISCEBridgeUtil.h:114-119 CRegValuePair
    Two arrays of nine characters. *)
Record CRegValuePair := mkPair { reg : list Z; value : list Z }.

(** @src src/spkcal/cirrus/tools/wbridge/BaseCommunications.h:53-122 CBaseCommunications
    Every operation returns its [RESULT], what it stores through its out parameters and
    the object.  An integer that is not stored is [None]; a buffer is the list of its
    bytes, those not yet written being [None]. *)
Class Device (D : Type) := {
  GetDeviceName : D → option (list Z);
  SetDevice : list Z → D → outcome (RESULT * D);
  GetOSInfo : nat → D → RESULT * list Z;
  EnumerateDevices : nat → D → outcome (RESULT * list Z);
  ReadRegister : Z → D → outcome (RESULT * option Z * D);
  WriteRegister : Z → Z → D → outcome (RESULT * D);
  GetRegisterMap : D → outcome (RESULT * list CRegValuePair * D);
  BlockRead : Z → list (option Z) → D → outcome (RESULT * list (option Z) * D);
  BlockRead_target : list Z → Z → list (option Z) → D → outcome (RESULT * list (option Z) * D);
  BlockRead_region : list Z → list Z → Z → list (option Z) → D → outcome (RESULT * list (option Z) * D);
  BlockWrite : Z → list Z → D → outcome (RESULT * D);
  BlockWrite_target : list Z → Z → list Z → D → outcome (RESULT * D);
  BlockWrite_region : list Z → list Z → Z → list Z → D → outcome (RESULT * D);
}.

(** ** The operations of the base class *)

Section Base.
Context {D : Type}.

(** @src src/spkcal/cirrus/tools/wbridge/BaseCommunications.h:95-107 CBaseCommunications::BlockRead (with a target) *)
Definition base_BlockRead_target (data : list (option Z)) (d : D) : outcome (RESULT * list (option Z) * D) :=
  Ret (WMT_INVALID_COMMAND, data, d).

(** @src src/spkcal/cirrus/tools/wbridge/BaseCommunications.h:109-121 CBaseCommunications::BlockWrite (with a target) *)
Definition base_BlockWrite_target (d : D) : outcome (RESULT * D) := Ret (WMT_INVALID_COMMAND, d).

Context (ReadRegister : Z → D → outcome (RESULT * option Z * D)).
Context (WriteRegister : Z → Z → D → outcome (RESULT * D)).

(** @src src/spkcal/cirrus/tools/wbridge/BaseCommunications.cpp:206-219 CBaseCommunications::BlockRead (the loop)
    [n] registers are left, from address [i] on. *)
Fixpoint base_read_loop (n : nat) (i dataIndex : Z) (data : list (option Z)) (d : D)
    : outcome (RESULT * list (option Z) * D) :=
  match n with
  | O => Ret (WMT_SUCCESS, data, d)
  | S n' =>
      '(result, v, d) ← ReadRegister i d;
      let regval := default 0 v in
      if bool_decide (result = WMT_REG_NOT_PRESENT) || bool_decide (result = WMT_SUCCESS) then
        data ← arr_set data dataIndex (Some (Z.shiftr (Z.land regval 0xFF00) 8));
        data ← arr_set data (dataIndex + 1) (Some (Z.land regval 0xFF));
        base_read_loop n' (i + 1) (dataIndex + 2) data d
      else Ret (result, data, d)
  end.

(** @src src/spkcal/cirrus/tools/wbridge/BaseCommunications.cpp:198-223 CBaseCommunications::BlockRead
    The end of the range is computed with 32 bits. *)
Definition base_BlockRead (addr : Z) (data : list (option Z)) (d : D) : outcome (RESULT * list (option Z) * D) :=
  let length := Z.of_nat (length data) in
  base_read_loop (Z.to_nat (u32 (addr + length / 2) - addr)) addr 0 data d.

(** @src src/spkcal/cirrus/tools/wbridge/BaseCommunications.cpp:247-260 CBaseCommunications::BlockWrite (the loop) *)
Fixpoint base_write_loop (n : nat) (i dataIndex : Z) (data : list Z) (d : D) : outcome (RESULT * D) :=
  match n with
  | O => Ret (WMT_SUCCESS, d)
  | S n' =>
      b1 ← arr_get data dataIndex;
      b2 ← arr_get data (dataIndex + 1);
      '(result, d) ← WriteRegister i (Z.shiftl b1 8 + b2) d;
      if bool_decide (result = WMT_REG_NOT_PRESENT) || bool_decide (result = WMT_SUCCESS)
      then base_write_loop n' (i + 1) (dataIndex + 2) data d
      else Ret (result, d)
  end.

(** @src src/spkcal/cirrus/tools/wbridge/BaseCommunications.cpp:239-264 CBaseCommunications::BlockWrite *)
Definition base_BlockWrite (addr : Z) (data : list Z) (d : D) : outcome (RESULT * D) :=
  let length := Z.of_nat (length data) in
  base_write_loop (Z.to_nat (u32 (addr + length / 2) - addr)) addr 0 data d.
End Base.

Definition MAX_OS_STRING : nat := 100.
Definition quoted (s : list Z) : list Z := 34 :: s ++ [34].

(** @src src/spkcal/cirrus/tools/wbridge/BaseCommunications.cpp:108-181 CBaseCommunications::GetOSInfo
    [uname] is the kernel's answer, the name and the release of the system. *)
Definition base_GetOSInfo (uname : option (list Z * list Z)) (bufferLength : nat) : RESULT * list Z :=
  match uname with
  | None => (WMT_STRING_ERR, [])
  | Some (sysname, release) =>
      let '(status, osName) := snprintf MAX_OS_STRING (c_str sysname) in
      if status =? code WMT_STRING_ERR then (WMT_STRING_ERR, [])
      else
        let '(status, osVersion) := snprintf MAX_OS_STRING (c_str release) in
        if status =? code WMT_STRING_ERR then (WMT_STRING_ERR, [])
        else
          let '(status, buffer) := snprintf bufferLength (str "os=" ++ quoted osName ++ str " osversion=" ++ quoted osVersion) in
          if status =? code WMT_STRING_ERR then (WMT_STRING_ERR, []) else (WMT_SUCCESS, buffer)
  end.

(** The text fits the buffer. *)
Lemma base_GetOSInfo_length uname n : (0 < n)%nat → (length (base_GetOSInfo uname n).2 < n)%nat.
Proof.
  intros Hn. unfold base_GetOSInfo, snprintf. destruct uname as [[a b]|]; [|done]. cbv beta iota zeta.
  repeat (destruct (_ =? code WMT_STRING_ERR); [done|]). cbn [snd]. rewrite length_take. lia.
Qed.

(** ** The contract of a device

    What a handler may rely on, in the states [device_ok] of a device: every operation
    returns, a successful read stores its value, and a successful block read fills the
    buffer. *)
Class DeviceLaws (D : Type) `{Device D} := {
  device_ok : D → Prop;
  name_ok d : device_ok d → is_Some (GetDeviceName d);
  set_ok name d : device_ok d → ∃ r d', SetDevice name d = Ret (r, d') ∧ device_ok d';
  info_ok n d : (0 < n)%nat → (length (GetOSInfo n d).2 < n)%nat;
  enumerate_ok n d : device_ok d → ∃ r s, EnumerateDevices n d = Ret (r, s);
  read_ok a d : device_ok d → ∃ r v d', ReadRegister a d = Ret (r, v, d') ∧ device_ok d' ∧ (r = WMT_SUCCESS → is_Some v);
  write_ok a v d : device_ok d → ∃ r d', WriteRegister a v d = Ret (r, d') ∧ device_ok d';
  map_ok d : device_ok d → ∃ r m d', GetRegisterMap d = Ret (r, m, d') ∧ device_ok d';
  block_read_ok a data d : device_ok d → ∃ r data' d', BlockRead a data d = Ret (r, data', d') ∧ device_ok d' ∧
    (r = WMT_SUCCESS → Forall is_Some data');
  block_read_target_ok t a data d : device_ok d → ∃ r data' d', BlockRead_target t a data d = Ret (r, data', d') ∧
    device_ok d' ∧ (r = WMT_SUCCESS → Forall is_Some data');
  block_read_region_ok t g a data d : device_ok d → ∃ r data' d', BlockRead_region t g a data d = Ret (r, data', d') ∧
    device_ok d' ∧ (r = WMT_SUCCESS → Forall is_Some data');
  block_write_ok a data d : device_ok d → ∃ r d', BlockWrite a data d = Ret (r, d') ∧ device_ok d';
  block_write_target_ok t a data d : device_ok d → ∃ r d', BlockWrite_target t a data d = Ret (r, d') ∧ device_ok d';
  block_write_region_ok t g a data d : device_ok d → ∃ r d', BlockWrite_region t g a data d = Ret (r, d') ∧ device_ok d';
}.
