(* ===== verification/WbHandler.v ===== *)
(** * The command handler of the WISCE bridge

    Model of [src/spkcal/cirrus/tools/wbridge/CommandHandler.cpp], over any [Device]:
    each handler is given the parsed command and the text that the reply starts with,
    and returns its [RESULT] as a number (the length of the reply, or a code), the reply
    and the handler. *)
From S2P Require Import Prelude DevStdlib DevArrays WbString WbResult WbCommand WbDevice.
From stdpp Require Import strings.
#[local] Open Scope Z_scope.

(** @src src/spkcal/cirrus/tools/wbridge/CommandHandler.cpp:58-85 the constants
    [PROTOCOL_VERSION], [DEFAULT_VERSION] and the unknown device ids, with
    [MAKE_16BIT_VERSION] of [WMVersionUtil.h]. *)
Definition MAKE_16BIT_VERSION (major minor : Z) : Z := Z.land (Z.lor (Z.shiftl major 8) minor) 0xFFFF.
Definition PROTOCOL_VERSION : Z := MAKE_16BIT_VERSION 1 3.
Definition DEFAULT_VERSION : Z := MAKE_16BIT_VERSION 0 9.
Definition MAX_COMMAND_LENGTH : nat := 256.
Definition MAX_INFO_PART_LENGTH : nat := 64.
Definition CHIP_ANY : Z := 0xFFFF.
Definition CHIP_ANY_32BIT : Z := 0xFFFFFFFF.
Definition CHIP_MIN_ID : Z := 0x1000.

Definition APPNAME : list Z := str "WISCEBridge".
Definition VERSION_STRA : list Z := str "3.10.0.7".

(** A line of a text. *)
Definition line (s : string) : list Z := str s ++ [10].
(** The text up to the first [c]. *)
Fixpoint cut (c : Z) (s : list Z) : list Z :=
  match s with x :: s' => if x =? c then [] else x :: cut c s' | [] => [] end.

(** @src src/spkcal/cirrus/tools/wbridge/CommandHandler.h:54-80 CCommandHandler *)
Record CCommandHandler (D : Type) := mkHandler { m_device : D; m_wisceVersion : Z }.
Arguments mkHandler {_} _ _.
Arguments m_device {_} _.
Arguments m_wisceVersion {_} _.

(** [(RESULT) buffer->length()]. *)
Definition reply_length (buffer : list Z) : Z := s32 (Z.of_nat (length buffer)).

(** @src src/spkcal/cirrus/tools/wbridge/CommandHandler.cpp:1113-1124 GetErrorString *)
Definition GetErrorString (buffer : list Z) (error : RESULT) : RESULT * list Z :=
  let '(n, string) := snprintf PATH_MAX (str "Error " ++ print_x (u32 (code error * -1)) ++ [10]) in
  if n =? code WMT_STRING_ERR then (WMT_STRING_ERR, buffer) else (WMT_SUCCESS, buffer ++ string).

(** The memory of the process.  [operator_new n]: [n] bytes can be had; when they cannot,
    [new] throws, and nothing catches that.  [delete_takes_arrays]: to give memory of
    [new[]] to [delete] is undefined; it does no harm where both are [malloc] and [free]. *)
Class Heap := { operator_new : Z → bool; delete_takes_arrays : bool }.

Section Handler.
Context {D : Type} {device : Device D} {heap : Heap}.
Abbreviation handler := (CCommandHandler D).

Definition with_device (h : handler) (d : D) : handler := mkHandler d (m_wisceVersion h).

(** The label [error] of the handlers. *)
Definition error_reply (buffer : list Z) (result : RESULT) (h : handler) : outcome (Z * list Z * handler) :=
  let '(r, buffer) := GetErrorString buffer result in
  Ret (if bool_decide (r = WMT_STRING_ERR) then code WMT_STRING_ERR else reply_length buffer, buffer, h).

(** The label [strerror]. *)
Definition string_error (buffer : list Z) (h : handler) : outcome (Z * list Z * handler) :=
  Ret (code WMT_STRING_ERR, buffer, h).

(** Return the length of the buffer. *)
Definition reply (buffer : list Z) (h : handler) : outcome (Z * list Z * handler) :=
  Ret (reply_length buffer, buffer, h).

(** [snprintf] into a buffer of [size] characters, with the test of its result. *)
Definition printed (size : nat) (text : list Z) (buffer : list Z) (h : handler)
    (k : list Z → outcome (Z * list Z * handler)) : outcome (Z * list Z * handler) :=
  let '(n, part) := snprintf size text in
  if n =? code WMT_STRING_ERR then string_error buffer h else k part.

(** [assert( type == pCommand->GetType() )]. *)
Definition asserted (type : CommandType) (c : CCommand) {A} (k : outcome A) : outcome A :=
  if bool_decide (m_commandType c = type) then k else Abort.

(** [std::string s = m_device.GetDeviceName()]: a null pointer is undefined behaviour. *)
Definition device_name (h : handler) : outcome (list Z) := or_ub (GetDeviceName (m_device h)).

(** @src src/spkcal/cirrus/tools/wbridge/CommandHandler.cpp:231-272 HandleRead
    The value is read also when the device did not store one. *)
Definition HandleRead (c : CCommand) (buffer : list Z) (h : handler) : outcome (Z * list Z * handler) :=
  asserted ReadCommand c (
    '(result, addr) ← GetAddress c true;
    if bool_decide (result ≠ WMT_SUCCESS) then error_reply buffer result h
    else
      addr ← or_ub addr;
      '(result, val, d) ← ReadRegister addr (m_device h);
      let h := with_device h d in
      if bool_decide (result ≠ WMT_SUCCESS) then error_reply buffer result h
      else
        val ← or_ub val;
        printed PATH_MAX (print_x (u32 val) ++ [10]) buffer h (λ readBuffer, reply (buffer ++ readBuffer) h)).

(** @src src/spkcal/cirrus/tools/wbridge/CommandHandler.cpp:289-329 HandleWrite *)
Definition HandleWrite (c : CCommand) (buffer : list Z) (h : handler) : outcome (Z * list Z * handler) :=
  asserted WriteCommand c (
    '(result, addr) ← GetAddress c true;
    if bool_decide (result ≠ WMT_SUCCESS) then error_reply buffer result h
    else
      addr ← or_ub addr;
      let '(result, val) := GetValue c true in
      if bool_decide (result ≠ WMT_SUCCESS) then error_reply buffer result h
      else
        val ← or_ub val;
        '(result, d) ← WriteRegister addr val (m_device h);
        let h := with_device h d in
        if bool_decide (result ≠ WMT_SUCCESS) then error_reply buffer result h
        else reply (buffer ++ line "Ok") h).

(** @src src/spkcal/cirrus/tools/wbridge/CommandHandler.cpp:1042-1059 GetDeviceID (the loop)
    The result of the last read, its value and whether it looks like an id. *)
Fixpoint find_device_id (idRegisters : list Z) (result : RESULT) (value : Z) (d : D) : outcome (RESULT * Z * bool * D) :=
  match idRegisters with
  | [] => Ret (result, value, false, d)
  | r :: idRegisters' =>
      '(result, v, d) ← ReadRegister r d;
      let value := default value v in
      if bool_decide (result = WMT_SUCCESS) && negb (value =? 0) && negb (value =? CHIP_ANY) &&
         negb (value =? CHIP_ANY_32BIT) && (CHIP_MIN_ID <? value)
      then Ret (result, value, true, d)
      else find_device_id idRegisters' result value d
  end.

(** [%4X]: at least four characters, upper case. *)
Definition print_4X (v : Z) : list Z :=
  let digits := print_hex 8 v in replicate (4 - length digits) 32 ++ digits.

(** @src src/spkcal/cirrus/tools/wbridge/CommandHandler.cpp:1034-1096 GetDeviceID *)
Definition GetDeviceID (buffer : list Z) (h : handler) : outcome (RESULT * list Z * handler) :=
  '(result, value, found, d) ← find_device_id [0x0; 0xF; 0x4000; 0xF000] WMT_SUCCESS 0 (m_device h);
  let h := with_device h d in
  let finish (buffer : list Z) :=
    let bufferStr := take (PATH_MAX - 1) (c_str buffer) in
    Ret (result, cut 13 (cut 10 bufferStr), h) in
  if bool_decide (result = WMT_SUCCESS) && found then
    let '(n, id) := snprintf PATH_MAX (str "WM" ++ print_4X (u32 value)) in
    if (n =? code WMT_STRING_ERR) && bool_decide (GetDeviceName d = None)
    then Ret (WMT_STRING_ERR, buffer, h)
    else finish (buffer ++ id)
  else finish (buffer ++ str "unknown").

(** @src src/spkcal/cirrus/tools/wbridge/CommandHandler.cpp:346-399 HandleInfo *)
Definition HandleInfo (c : CCommand) (buffer : list Z) (h : handler) : outcome (Z * list Z * handler) :=
  asserted InfoCommand c (
    '(result, device, h) ← GetDeviceID [] h;
    if bool_decide (result ≠ WMT_SUCCESS) then error_reply buffer result h
    else
      let '(result, osInfo) := GetOSInfo MAX_INFO_PART_LENGTH (m_device h) in
      if bool_decide (result ≠ WMT_SUCCESS) then error_reply buffer result h
      else
        printed PATH_MAX (str "device=" ++ quoted (c_str device) ++ str " app=" ++ quoted APPNAME ++
                          str " version=" ++ quoted VERSION_STRA ++ str " protocolversion=" ++ quoted (print_x PROTOCOL_VERSION) ++
                          [32] ++ c_str osInfo ++ [10]) buffer h
          (λ fullInfo, reply (buffer ++ fullInfo) h)).

(** @src src/spkcal/cirrus/tools/wbridge/CommandHandler.cpp:441-460 HandleDetect (the loop)
    The devices whose names are left. *)
Fixpoint detect_devices (names : list (list Z)) (buffer : list Z) (h : handler) : outcome (list Z * handler) :=
  match names with
  | [] => Ret (buffer, h)
  | name :: names' =>
      '(localResult, d) ← SetDevice (c_str name) (m_device h);
      let h := with_device h d in
      if bool_decide (localResult = WMT_NO_DEVICE) then detect_devices names' buffer h
      else
        '(localResult, id, h) ← GetDeviceID [] h;
        detect_devices names'
          (buffer ++ [32] ++ name ++ [61] ++ quoted (if bool_decide (localResult = WMT_SUCCESS) then id else str "unknown")) h
  end.

(** @src src/spkcal/cirrus/tools/wbridge/CommandHandler.cpp:416-477 HandleDetect *)
Definition HandleDetect (c : CCommand) (buffer : list Z) (h : handler) : outcome (Z * list Z * handler) :=
  asserted DetectCommand c (
    '(result, enumeratedDevices) ← EnumerateDevices MAX_COMMAND_LENGTH (m_device h);
    if bool_decide (result = WMT_NO_DEVICE) then error_reply buffer result h
    else
      currentDevice ← device_name h;
      names ← SplitString (c_str enumeratedDevices) [32] false;
      '(buffer, h) ← detect_devices names (buffer ++ str "Detect") h;
      '(_, d) ← SetDevice (c_str currentDevice) (m_device h);
      reply (buffer ++ [10]) (with_device h d)).

(** @src src/spkcal/cirrus/tools/wbridge/CommandHandler.cpp:506-521 HandleHelp (the text) *)
Definition help_text : list Z :=
  line "WISCEBridge Command List" ++ line "=========================" ++
  str "info" ++ [9; 9; 9; 9] ++ line "Show information about the target system." ++
  str "detect" ++ [9; 9; 9; 9] ++ line "Show all the detected Cirrus devices." ++
  str "shutdown" ++ [9; 9; 9] ++ line "Terminate the connection to WISCEBridge." ++
  str "help" ++ [9; 9; 9; 9] ++ line "Display this help." ++
  str "read <reg>" ++ [9; 9; 9] ++ line "Read the value of a register on the selected device (index in hex)." ++
  str "write <reg> <value>" ++ [9; 9] ++
    line "Update the value to the given register on the selected device (index and value in hex)." ++
  str "device <device name>" ++ [9; 9] ++ line "Select the device to operate on." ++
  str "getregmap" ++ [9; 9; 9] ++ line "Return the entire register map in ASCII." ++ line "END" ++
  str "protocolversion <version>" ++ [9] ++
    line "Query for the version of the protocol in use. Pass in the version supported by the client." ++
  [10] ++ line "For the following commands the address takes the form [target[/region]:]<reg>" ++ [10] ++
  str "blockread <address> <length>" ++ [9] ++ line "Read length bytes from the address" ++
  str "blockwrite <address> <data>" ++ [9] ++ line "Write data bytes to the address".

(** @src src/spkcal/cirrus/tools/wbridge/CommandHandler.cpp:493-535 HandleHelp *)
Definition HandleHelp (c : CCommand) (h : handler) : outcome (Z * list Z * handler) :=
  asserted HelpCommand c (
    let buffer := help_text in
    if (length buffer =? 0)%nat then string_error buffer h else reply buffer h).

(** @src src/spkcal/cirrus/tools/wbridge/CommandHandler.cpp:552-587 HandleDevice *)
Definition HandleDevice (c : CCommand) (buffer : list Z) (h : handler) : outcome (Z * list Z * handler) :=
  asserted DeviceCommand c (
    let '(result, device) := GetDevice c true in
    if bool_decide (result ≠ WMT_SUCCESS) then error_reply buffer result h
    else
      device ← or_ub device;
      '(result, d) ← SetDevice (c_str device) (m_device h);
      let h := with_device h d in
      if bool_decide (result = WMT_NO_DEVICE) then error_reply buffer result h
      else reply (buffer ++ line "Ok") h).

(** @src src/spkcal/cirrus/tools/wbridge/CommandHandler.cpp:638-683 HandleRegisterMap (the loop)
    [prev] is the address of the register before, [None] in front of the first: the value
    of a register that follows the one before goes on the same line. *)
Fixpoint register_lines (regvals : list CRegValuePair) (prev : option Z) (seqStr buffer : list Z) (h : handler)
    (k : list Z → outcome (Z * list Z * handler)) : outcome (Z * list Z * handler) :=
  match regvals with
  | [] => k buffer
  | it :: regvals' =>
      let reg := c_str (reg it) in
      let value := c_str (value it) in
      let curr_reg := strtoul16 reg in
      let text := match prev with
                  | None => reg ++ str ": " ++ value
                  | Some prev_reg =>
                      if negb (u64 (prev_reg + 1) =? curr_reg)
                      then [10] ++ seqStr ++ reg ++ str ": " ++ value
                      else [32] ++ value
                  end in
      printed PATH_MAX text buffer h (λ part,
        register_lines regvals' (Some curr_reg) seqStr (buffer ++ part) h k)
  end.

(** @src src/spkcal/cirrus/tools/wbridge/CommandHandler.cpp:605-705 HandleRegisterMap *)
Definition HandleRegisterMap (c : CCommand) (buffer : list Z) (h : handler) : outcome (Z * list Z * handler) :=
  let seqStr := m_sequenceNumberString c in
  asserted RegisterMapCommand c (
    '(result, regvals, d) ← GetRegisterMap (m_device h);
    let h := with_device h d in
    if bool_decide (result ≠ WMT_SUCCESS) then error_reply buffer result h
    else if (length regvals =? 0)%nat then string_error buffer h
    else
      register_lines regvals None seqStr buffer h (λ buffer,
        let buffer := buffer ++ [10] in
        reply (if negb (m_wisceVersion h =? DEFAULT_VERSION) then buffer ++ seqStr ++ line "END" else buffer) h)).

(** @src src/spkcal/cirrus/tools/wbridge/CommandHandler.cpp:722-768 HandleProtocolVersion *)
Definition HandleProtocolVersion (c : CCommand) (buffer : list Z) (h : handler) : outcome (Z * list Z * handler) :=
  asserted ProtocolVersionCommand c (
    let '(result, version) := GetProtocolVersion c true in
    if bool_decide (result ≠ WMT_SUCCESS) then error_reply buffer result h
    else
      version ← or_ub version;
      let h := mkHandler (m_device h) version in
      let '(n, versionString) := snprintf PATH_MAX (str "ProtocolVersion " ++ print_x PROTOCOL_VERSION ++ [10]) in
      if n =? code WMT_STRING_ERR then error_reply buffer WMT_STRING_ERR h
      else reply (buffer ++ versionString) h).

(** A byte in two characters, the way [HandleBlockRead] prints it. *)
Definition print_byte (b : Z) : list Z :=
  if b =? 0 then str "00" else if b <? 0x10 then str "0" ++ print_x b else print_x b.

(** @src src/spkcal/cirrus/tools/wbridge/CommandHandler.cpp:846-892 HandleBlockRead (the text)
    A byte that was never written is read. *)
Fixpoint print_bytes (data : list (option Z)) (buffer : list Z) : outcome (list Z) :=
  match data with
  | [] => Ret buffer
  | b :: data' => b ← or_ub b; print_bytes data' (buffer ++ print_byte b)
  end.

(** @src src/spkcal/cirrus/tools/wbridge/CommandHandler.cpp:810-819 HandleBlockRead (target and region)
    The same lines as in [HandleBlockWrite]. *)
Definition block_target (c : CCommand) : outcome (option (list Z) * option (list Z)) :=
  '(result, target) ← GetTarget c true;
  if bool_decide (result = WMT_SUCCESS) then
    '(result, region) ← GetRegion c true;
    Ret (target, if bool_decide (result = WMT_SUCCESS) then region else None)
  else Ret (None, None).

(** @src src/spkcal/cirrus/tools/wbridge/CommandHandler.cpp:785-919 HandleBlockRead
    The buffer that receives the data is not initialised.  The error path gives it back by
    [delete[]], the other one by [delete]. *)
Definition HandleBlockRead (c : CCommand) (buffer : list Z) (h : handler) : outcome (Z * list Z * handler) :=
  asserted BlockReadCommand c (
    '(result, addr) ← GetAddress c true;
    if bool_decide (result ≠ WMT_SUCCESS) then error_reply buffer result h
    else
      addr ← or_ub addr;
      '(target, region) ← block_target c;
      let '(result, length) := GetLength c true in
      if bool_decide (result ≠ WMT_SUCCESS) then error_reply buffer result h
      else
        length ← or_ub length;
        if negb (length mod 2 =? 0) then error_reply buffer WMT_INVALID_COMMAND h
        else if negb (operator_new length) then Abort
        else
          let data := replicate (Z.to_nat length) None in
          '(result, data, d) ←
            (match target, region with
             | Some target, Some region => BlockRead_region target region addr data (m_device h)
             | Some target, None => BlockRead_target target addr data (m_device h)
             | None, _ => BlockRead addr data (m_device h)
             end);
          let h := with_device h d in
          if bool_decide (result ≠ WMT_SUCCESS) then error_reply buffer result h
          else
            buffer ← print_bytes data buffer;
            if delete_takes_arrays then reply (buffer ++ [10]) h else UB).

(** @src src/spkcal/cirrus/tools/wbridge/CommandHandler.cpp:936-1018 HandleBlockWrite *)
Definition HandleBlockWrite (c : CCommand) (buffer : list Z) (h : handler) : outcome (Z * list Z * handler) :=
  asserted BlockWriteCommand c (
    '(result, addr) ← GetAddress c true;
    if bool_decide (result ≠ WMT_SUCCESS) then error_reply buffer result h
    else
      addr ← or_ub addr;
      '(target, region) ← block_target c;
      let '(result, data) := GetData c true in
      if bool_decide (result ≠ WMT_SUCCESS) then error_reply buffer result h
      else
        data ← or_ub data;
        if Nat.odd (length data) then error_reply buffer WMT_INVALID_COMMAND h
        else
          '(result, d) ←
            (match target, region with
             | Some target, Some region => BlockWrite_region target region addr data (m_device h)
             | Some target, None => BlockWrite_target target addr data (m_device h)
             | None, _ => BlockWrite addr data (m_device h)
             end);
          let h := with_device h d in
          if bool_decide (result ≠ WMT_SUCCESS) then error_reply buffer result h
          else reply (buffer ++ line "Ok") h).

(** @src src/spkcal/cirrus/tools/wbridge/CommandHandler.cpp:170-210 HandleCommandString (the switch) *)
Definition dispatch (c : CCommand) (buffer : list Z) (h : handler) : outcome (Z * list Z * handler) :=
  match m_commandType c with
  | ReadCommand => HandleRead c buffer h
  | InfoCommand => HandleInfo c buffer h
  | WriteCommand => HandleWrite c buffer h
  | ShutdownCommand => Ret (code WMT_CLOSE_SOCKET, buffer, h)
  | HelpCommand => HandleHelp c h
  | DetectCommand => HandleDetect c buffer h
  | DeviceCommand => HandleDevice c buffer h
  | RegisterMapCommand => HandleRegisterMap c buffer h
  | ProtocolVersionCommand => HandleProtocolVersion c buffer h
  | BlockReadCommand => HandleBlockRead c buffer h
  | BlockWriteCommand => HandleBlockWrite c buffer h
  | UnknownCommand => error_reply buffer WMT_INVALID_COMMAND h
  end.

(** @src src/spkcal/cirrus/tools/wbridge/CommandHandler.cpp:143-214 HandleCommandString *)
Definition HandleCommandString (command : list Z) (h : handler) : outcome (Z * list Z * handler) :=
  c ← CCommand_of command;
  let buffer := m_sequenceNumberString c in
  if m_hasDeviceID c then
    name ← device_name h;
    if bool_decide (m_deviceIDString c ≠ c_str name) then
      '(result, d) ← SetDevice (m_deviceIDString c) (m_device h);
      let h := with_device h d in
      if bool_decide (result = WMT_NO_DEVICE) then error_reply buffer WMT_NO_DEVICE h
      else dispatch c buffer h
    else dispatch c buffer h
  else dispatch c buffer h.
End Handler.
