(* ===== verification/WbHandlerSpec.v ===== *)
(** * What the command handler answers

    Every command is answered in one text that starts with the sequence number of the
    command and ends with a newline; the register map can be read back from its text;
    reads and writes of registers are those of a register file. *)
From S2P Require Import Prelude DevStdlib DevArrays WbString WbResult WbCommand WbDevice WbHandler.
From stdpp Require Import strings.
#[local] Open Scope Z_scope.

(** ** The shape of a reply *)

Section Replies.
Context {D : Type} {device : Device D} {laws : DeviceLaws D} {heap : Heap}.
Abbreviation handler := (CCommandHandler D).

(** A text that starts with [seq] and ends with a newline, with its length. *)
Definition framed (seq : list Z) (n : Z) (buf : list Z) : Prop :=
  n = reply_length buf ∧ ∃ body, buf = seq ++ body ++ [10].
Definition answers (seq : list Z) (o : outcome (Z * list Z * handler)) : Prop :=
  ∃ n buf h', o = Ret (n, buf, h') ∧ device_ok (m_device h') ∧ framed seq n buf.

Lemma snprintf_length size text : (fst (snprintf size text) =? code WMT_STRING_ERR) = false.
Proof. apply Z.eqb_neq. cbn. lia. Qed.

Lemma printed_eq size text buffer (h : handler) k : printed size text buffer h k = k (take (size - 1) text).
Proof. unfold printed. pose proof (snprintf_length size text) as E. cbn in *. by rewrite E. Qed.

Lemma GetErrorString_eq buffer r :
  GetErrorString buffer r = (WMT_SUCCESS, buffer ++ str "Error " ++ print_x (u32 (code r * -1)) ++ [10]).
Proof. destruct r; reflexivity. Qed.

Lemma reply_answers seq body (h : handler) : device_ok (m_device h) → answers seq (reply (seq ++ body ++ [10]) h).
Proof. intros Hd. do 3 eexists. split; [done|]. split; [done|]. by split; [|eexists]. Qed.

Lemma reply_framed seq buf (h : handler) : device_ok (m_device h) → (∃ body, buf = seq ++ body ++ [10]) →
  answers seq (reply buf h).
Proof. intros Hd [body ->]. by apply reply_answers. Qed.

Lemma error_answers seq r (h : handler) : device_ok (m_device h) → answers seq (error_reply seq r h).
Proof.
  intros Hd. unfold error_reply. rewrite GetErrorString_eq. cbn [bool_decide decide]. 
  rewrite bool_decide_eq_false_2 by done. rewrite (app_assoc (str "Error ")). by apply reply_answers.
Qed.

(** ** The handlers *)

Lemma ready {A B} (m : outcome A) (f : A → outcome B) a : m = Ret a → (m ≫= f) = f a.
Proof. by intros ->. Qed.

(** An out parameter is stored when the result is success. *)
Definition stored {A} (x : RESULT * option A) : Prop := fst x = WMT_SUCCESS → is_Some (snd x).

Ltac accessor c :=
  unfold GetParameter; cbn [negb];
  destruct (m_parameters c !! _); destruct (m_commandType c);
  rewrite ?SplitString_exact_char; cbn [mbind outcome_bind]; repeat case_match; eexists; (split; [done|]); cbn; intros [=]; by eexists.

Ltac accessor' c :=
  unfold GetParameter; cbn [negb];
  destruct (m_parameters c !! _); destruct (m_commandType c);
  repeat case_match; simplify_eq; intros [=]; by eexists.

Lemma GetAddress_stored c : ∃ x, GetAddress c true = Ret x ∧ stored x.
Proof. unfold GetAddress. accessor c. Qed.
Lemma GetValue_stored c : stored (GetValue c true).
Proof. unfold GetValue, required. accessor' c. Qed.
Lemma hex_parameter_stored ty i c : stored (hex_parameter ty i c true).
Proof. unfold hex_parameter, required. accessor' c. Qed.
Lemma GetDevice_stored c : stored (GetDevice c true).
Proof. unfold GetDevice, required. accessor' c. Qed.
Lemma GetData_stored c : stored (GetData c true).
Proof. unfold GetData, required. accessor' c. Qed.
Lemma GetRegion_stored c : ∃ x, GetRegion c true = Ret x ∧ stored x.
Proof.
  unfold GetRegion, GetParameter. cbn [negb]. destruct (m_commandType c); try (by eexists).
  all: destruct (m_parameters c !! _); [|by eexists]; unfold SplitString; cbn [target_delims mbind outcome_bind].
  all: eexists; split; [done|]; repeat case_match; intros [=]; by eexists.
Qed.

(** Take the next result of the device or of an accessor, with what is known of it. *)
Ltac failed := rewrite bool_decide_eq_true_2 by done; by apply error_answers.
Ltac succeeded := rewrite bool_decide_eq_false_2 by (by intros []).

Lemma asserted_eq ty c {A} (k : outcome A) : m_commandType c = ty → asserted ty c k = k.
Proof. intros E. unfold asserted. by rewrite bool_decide_eq_true_2. Qed.

Lemma HandleRead_answers c seq (h : handler) : m_commandType c = ReadCommand → device_ok (m_device h) →
  answers seq (HandleRead c seq h).
Proof.
  intros Hc Hd. unfold HandleRead. rewrite asserted_eq by done.
  destruct (GetAddress_stored c) as ([r a] & -> & Ha). cbn [mbind outcome_bind].
  destruct (decide (r = WMT_SUCCESS)) as [->|]; [|failed]. succeeded.
  destruct (Ha eq_refl) as [x E]. cbn [snd] in E. subst a. cbn [or_ub mbind outcome_bind].
  destruct (read_ok x (m_device h) Hd) as (r & v & d' & -> & Hd' & Hv). cbn [mbind outcome_bind].
  destruct (decide (r = WMT_SUCCESS)) as [->|]; [|failed]. succeeded.
  destruct (Hv eq_refl) as [y ->]. cbn [or_ub mbind outcome_bind]. rewrite printed_eq.
  rewrite firstn_all2; [by apply reply_answers|].
  rewrite length_app. unfold print_x. cbn [length]. pose proof (length_hex_lower 8 (u32 y)). unfold PATH_MAX. lia.
Qed.

Lemma HandleWrite_answers c seq (h : handler) : m_commandType c = WriteCommand → device_ok (m_device h) →
  answers seq (HandleWrite c seq h).
Proof.
  intros Hc Hd. unfold HandleWrite. rewrite asserted_eq by done.
  destruct (GetAddress_stored c) as ([r a] & -> & Ha). cbn [mbind outcome_bind].
  destruct (decide (r = WMT_SUCCESS)) as [->|]; [|failed]. succeeded.
  destruct (Ha eq_refl) as [x E]. cbn [snd] in E. subst a. cbn [or_ub mbind outcome_bind].
  pose proof (GetValue_stored c) as Hv. destruct (GetValue c true) as [r v].
  destruct (decide (r = WMT_SUCCESS)) as [->|]; [|failed]. succeeded.
  destruct (Hv eq_refl) as [y E]. cbn [snd] in E. subst v. cbn [or_ub mbind outcome_bind].
  destruct (write_ok x y (m_device h) Hd) as (r & d' & -> & Hd'). cbn [mbind outcome_bind].
  destruct (decide (r = WMT_SUCCESS)) as [->|]; [|failed]. succeeded. by apply (reply_answers seq (str "Ok")).
Qed.

Lemma find_device_id_returns rs r v d : device_ok d →
  ∃ r' v' f d', find_device_id rs r v d = Ret (r', v', f, d') ∧ device_ok d'.
Proof.
  revert r v d. induction rs as [|x rs IH]; intros r v d Hd; cbn [find_device_id]; [by do 4 eexists|].
  destruct (read_ok x d Hd) as (r' & v' & d' & -> & Hd' & _). cbn [mbind outcome_bind].
  case_match; [by do 4 eexists|]. by apply IH.
Qed.

Lemma length_cut c s : (length (cut c s) ≤ length s)%nat.
Proof. induction s as [|x s IH]; cbn [cut length]; [done|]. case_match; cbn [length]; lia. Qed.
Lemma length_c_str s : (length (c_str s) ≤ length s)%nat.
Proof. induction s as [|x s IH]; cbn [c_str length]; [done|]. case_match; cbn [length]; lia. Qed.
Lemma length_print_hex fuel v : (length (print_hex fuel v) ≤ fuel)%nat.
Proof.
  revert v. induction fuel as [|fuel IH]; intros v; cbn [print_hex]; [done|]. case_match; [cbn; lia|].
  rewrite length_app. specialize (IH (v / 16)). cbn. lia.
Qed.

(** The id of the device is a short text. *)
Lemma GetDeviceID_returns (h : handler) : device_ok (m_device h) →
  ∃ r id h', GetDeviceID [] h = Ret (r, id, h') ∧ device_ok (m_device h') ∧ (length id ≤ 14)%nat.
Proof.
  intros Hd. unfold GetDeviceID. destruct (find_device_id_returns [0x0; 0xF; 0x4000; 0xF000] WMT_SUCCESS 0 (m_device h) Hd)
    as (r & v & f & d & -> & Hd'). cbn [mbind outcome_bind].
  assert (Hshort : ∀ s, (length s ≤ 14)%nat → (length (cut 13 (cut 10 (take (PATH_MAX - 1) (c_str s)))) ≤ 14)%nat).
  { intros s Hs. etrans; [apply length_cut|]. etrans; [apply length_cut|]. rewrite length_take. pose proof (length_c_str s). lia. }
  case_match; [|by do 3 eexists; split; [done|]; split; [|apply Hshort; vm_compute; lia]].
  remember (str "WM" ++ print_4X (u32 v)) as t eqn:Et. destruct (snprintf PATH_MAX t) as [n id] eqn:E.
  apply (f_equal fst) in E as En. apply (f_equal snd) in E as Eid. cbn [fst snd snprintf] in En, Eid. subst n id.
  destruct (Z.eqb_spec (Z.of_nat (length t)) (code WMT_STRING_ERR)); [cbn in *; lia|]. cbn [andb].
  do 3 eexists. split; [done|]. split; [done|]. apply Hshort. rewrite app_nil_l.
  etrans; [rewrite length_take; apply Nat.le_min_r|]. subst t. rewrite length_app. unfold print_4X. rewrite length_app, length_replicate.
  pose proof (length_print_hex 8 (u32 v)). cbn [str length]. lia.
Qed.

Lemma HandleInfo_answers c seq (h : handler) : m_commandType c = InfoCommand → device_ok (m_device h) →
  answers seq (HandleInfo c seq h).
Proof.
  intros Hc Hd. unfold HandleInfo. rewrite asserted_eq by done.
  destruct (GetDeviceID_returns h Hd) as (r & id & h' & -> & Hd' & Hid). cbn [mbind outcome_bind].
  destruct (decide (r = WMT_SUCCESS)) as [->|]; [|failed]. succeeded.
  pose proof (info_ok MAX_INFO_PART_LENGTH (m_device h') ltac:(unfold MAX_INFO_PART_LENGTH; lia)) as Hi.
  destruct (GetOSInfo MAX_INFO_PART_LENGTH (m_device h')) as [r info]. cbn [snd] in Hi.
  destruct (decide (r = WMT_SUCCESS)) as [->|]; [|failed]. succeeded.
  rewrite printed_eq, firstn_all2.
  - apply reply_framed; [done|]. eexists. f_equal. rewrite !app_assoc. reflexivity.
  - pose proof (length_c_str id). pose proof (length_c_str info). unfold quoted, MAX_INFO_PART_LENGTH in *.
    repeat (rewrite length_app || cbn [length]). vm_compute (length (str _)). vm_compute (length (print_x _)).
    unfold APPNAME, VERSION_STRA. vm_compute (length (str _)). unfold PATH_MAX. lia.
Qed.

Lemma detect_devices_returns names buf (h : handler) : device_ok (m_device h) →
  ∃ more h', detect_devices names buf h = Ret (buf ++ more, h') ∧ device_ok (m_device h').
Proof.
  revert buf h. induction names as [|name names IH]; intros buf h Hd; cbn [detect_devices].
  { exists [], h. by rewrite app_nil_r. }
  destruct (set_ok (c_str name) (m_device h) Hd) as (r & d & -> & Hd'). cbn [mbind outcome_bind].
  case_match; [by apply IH|].
  destruct (GetDeviceID_returns (with_device h d) Hd') as (r' & id & h' & -> & Hd'' & _). cbn [mbind outcome_bind].
  destruct (IH (buf ++ [32] ++ name ++ [61] ++ quoted (if bool_decide (r' = WMT_SUCCESS) then id else str "unknown")) h' Hd'')
    as (more & h2 & -> & Hd2).
  eexists _, h2. split; [|done]. by rewrite <-app_assoc.
Qed.

Lemma HandleDetect_answers c seq (h : handler) : m_commandType c = DetectCommand → device_ok (m_device h) →
  answers seq (HandleDetect c seq h).
Proof.
  intros Hc Hd. unfold HandleDetect. rewrite asserted_eq by done.
  destruct (enumerate_ok MAX_COMMAND_LENGTH (m_device h) Hd) as (r & s & ->). cbn [mbind outcome_bind].
  case_match; [by apply error_answers|]. unfold device_name.
  destruct (name_ok (m_device h) Hd) as [name ->]. cbn [or_ub mbind outcome_bind].
  rewrite SplitString_exact_char. cbn [mbind outcome_bind].
  destruct (detect_devices_returns (fields [32] [] (c_str s)) (seq ++ str "Detect") h Hd) as (more & h' & -> & Hd').
  cbn [mbind outcome_bind]. destruct (set_ok (c_str name) (m_device h') Hd') as (r' & d & -> & Hd2). cbn [mbind outcome_bind].
  apply reply_framed; [done|]. exists (str "Detect" ++ more). by rewrite <-!app_assoc.
Qed.

Lemma HandleHelp_answers c (h : handler) : m_commandType c = HelpCommand → device_ok (m_device h) →
  answers [] (HandleHelp c h).
Proof.
  intros Hc Hd. unfold HandleHelp. rewrite asserted_eq by done.
  replace (length help_text =? 0)%nat with false by by vm_compute.
  apply reply_framed; [done|]. exists (removelast help_text). by vm_compute.
Qed.

Lemma HandleDevice_answers c seq (h : handler) : m_commandType c = DeviceCommand → device_ok (m_device h) →
  answers seq (HandleDevice c seq h).
Proof.
  intros Hc Hd. unfold HandleDevice. rewrite asserted_eq by done.
  pose proof (GetDevice_stored c) as Hv. destruct (GetDevice c true) as [r v].
  destruct (decide (r = WMT_SUCCESS)) as [->|]; [|failed]. succeeded.
  destruct (Hv eq_refl) as [y E]. cbn [snd] in E. subst v. cbn [or_ub mbind outcome_bind].
  destruct (set_ok (c_str y) (m_device h) Hd) as (r & d & -> & Hd'). cbn [mbind outcome_bind].
  case_match; [by apply error_answers|]. by apply (reply_answers seq (str "Ok")).
Qed.

(** The text of the registers goes behind what is there. *)
Lemma register_lines_eq regvals prev seqStr buf (h : handler) k :
  ∃ more, register_lines regvals prev seqStr buf h k = k (buf ++ more).
Proof.
  revert prev buf. induction regvals as [|it regvals IH]; intros prev buf; cbn [register_lines].
  { exists []. by rewrite app_nil_r. }
  rewrite printed_eq. edestruct IH as [more ->]. eexists. by rewrite <-app_assoc.
Qed.

Lemma HandleRegisterMap_answers c seq (h : handler) : m_commandType c = RegisterMapCommand → device_ok (m_device h) →
  answers seq (HandleRegisterMap c seq h) ∨
  ∃ buf h', HandleRegisterMap c seq h = Ret (code WMT_STRING_ERR, buf, h') ∧ device_ok (m_device h').
Proof.
  intros Hc Hd. unfold HandleRegisterMap. rewrite asserted_eq by done.
  destruct (map_ok (m_device h) Hd) as (r & m & d & -> & Hd'). cbn [mbind outcome_bind].
  destruct (decide (r = WMT_SUCCESS)) as [->|]; [|left; failed]. succeeded.
  case_match; [right; by do 2 eexists|]. left.
  edestruct register_lines_eq as [more ->]. apply reply_framed; [done|].
  case_match; [exists (more ++ [10] ++ m_sequenceNumberString c ++ str "END")|exists more]; unfold line; by rewrite <-!app_assoc.
Qed.

Lemma HandleProtocolVersion_answers c seq (h : handler) : m_commandType c = ProtocolVersionCommand → device_ok (m_device h) →
  answers seq (HandleProtocolVersion c seq h).
Proof.
  intros Hc Hd. unfold HandleProtocolVersion. rewrite asserted_eq by done.
  pose proof (hex_parameter_stored ProtocolVersionCommand FIRST_PARAMETER c) as Hv. unfold GetProtocolVersion.
  destruct (hex_parameter _ _ c true) as [r v].
  destruct (decide (r = WMT_SUCCESS)) as [->|]; [|failed]. succeeded.
  destruct (Hv eq_refl) as [y E]. cbn [snd] in E. subst v. cbn [or_ub mbind outcome_bind].
  by apply (reply_answers seq (str "ProtocolVersion " ++ print_x PROTOCOL_VERSION)).
Qed.

Lemma block_target_returns c x : GetTarget c true = Ret x → ∃ t g, block_target c = Ret (t, g).
Proof.
  intros E. unfold block_target. rewrite E. destruct x as [r t]. cbn [mbind outcome_bind].
  case_match; [|by do 2 eexists]. destruct (GetRegion_stored c) as ([r' g] & -> & _). by do 2 eexists.
Qed.

Lemma print_bytes_eq data buf : Forall is_Some data →
  print_bytes data buf = Ret (buf ++ concat (print_byte <$> omap id data)).
Proof.
  intros Hd. revert buf. induction Hd as [|x data [b ->] _ IH]; intros buf; cbn [print_bytes].
  { cbn. by rewrite app_nil_r. }
  cbn [or_ub mbind outcome_bind]. rewrite IH. cbn. by rewrite <-app_assoc.
Qed.

(** For a block read: the memory for the bytes can be had, and [delete] takes it back. *)
Definition block_memory (c : CCommand) : Prop :=
  m_commandType c = BlockReadCommand →
  delete_takes_arrays = true ∧ ∀ n, GetLength c true = (WMT_SUCCESS, Some n) → operator_new n = true.

Lemma HandleBlockRead_answers c seq x (h : handler) : m_commandType c = BlockReadCommand → device_ok (m_device h) →
  GetTarget c true = Ret x → block_memory c → answers seq (HandleBlockRead c seq h).
Proof.
  intros Hc Hd Ht Hm. destruct (Hm Hc) as [Hdel Hnew]. unfold HandleBlockRead. rewrite asserted_eq by done.
  destruct (GetAddress_stored c) as ([r a] & -> & Ha). cbn [mbind outcome_bind].
  destruct (decide (r = WMT_SUCCESS)) as [->|]; [|failed]. succeeded.
  destruct (Ha eq_refl) as [y E]. cbn [snd] in E. subst a. cbn [or_ub mbind outcome_bind].
  destruct (block_target_returns c x Ht) as (t & g & ->). cbn [mbind outcome_bind].
  pose proof (hex_parameter_stored BlockReadCommand SECOND_PARAMETER c) as Hv. unfold GetLength in *.
  destruct (hex_parameter _ _ c true) as [r v].
  destruct (decide (r = WMT_SUCCESS)) as [->|]; [|failed]. succeeded.
  destruct (Hv eq_refl) as [z E]. cbn [snd] in E. subst v. cbn [or_ub mbind outcome_bind].
  case_match; [by apply error_answers|]. rewrite (Hnew z eq_refl). cbn [negb]. set (data := replicate (Z.to_nat z) None).
  match goal with |- context [?m ≫= _] => assert (∃ r data' d', m = Ret (r, data', d') ∧ device_ok d' ∧
      (r = WMT_SUCCESS → Forall is_Some data')) as (r & data' & d' & -> & Hd' & Hf) end.
  { destruct t as [t|]; [destruct g as [g|]; [by apply block_read_region_ok|by apply block_read_target_ok]|by apply block_read_ok]. }
  cbn [mbind outcome_bind]. destruct (decide (r = WMT_SUCCESS)) as [->|]; [|failed]. succeeded.
  rewrite print_bytes_eq by by apply Hf. cbn [mbind outcome_bind].
  rewrite Hdel. apply reply_framed; [done|]. eexists. by rewrite <-app_assoc.
Qed.

Lemma HandleBlockWrite_answers c seq x (h : handler) : m_commandType c = BlockWriteCommand → device_ok (m_device h) →
  GetTarget c true = Ret x → answers seq (HandleBlockWrite c seq h).
Proof.
  intros Hc Hd Ht. unfold HandleBlockWrite. rewrite asserted_eq by done.
  destruct (GetAddress_stored c) as ([r a] & -> & Ha). cbn [mbind outcome_bind].
  destruct (decide (r = WMT_SUCCESS)) as [->|]; [|failed]. succeeded.
  destruct (Ha eq_refl) as [y E]. cbn [snd] in E. subst a. cbn [or_ub mbind outcome_bind].
  destruct (block_target_returns c x Ht) as (t & g & ->). cbn [mbind outcome_bind].
  pose proof (GetData_stored c) as Hv. destruct (GetData c true) as [r v].
  destruct (decide (r = WMT_SUCCESS)) as [->|]; [|failed]. succeeded.
  destruct (Hv eq_refl) as [z E]. cbn [snd] in E. subst v. cbn [or_ub mbind outcome_bind].
  case_match; [by apply error_answers|].
  match goal with |- context [?m ≫= _] => assert (∃ r d', m = Ret (r, d') ∧ device_ok d') as (r & d' & -> & Hd') end.
  { destruct t as [t|]; [destruct g as [g|]; [by apply block_write_region_ok|by apply block_write_target_ok]|by apply block_write_ok]. }
  cbn [mbind outcome_bind]. destruct (decide (r = WMT_SUCCESS)) as [->|]; [|failed]. succeeded.
  by apply (reply_answers seq (str "Ok")).
Qed.

(** ** The dispatch *)

Lemma dispatch_answers c seq x (h : handler) : device_ok (m_device h) → GetTarget c true = Ret x → block_memory c →
  ∃ n buf h', dispatch c seq h = Ret (n, buf, h') ∧ device_ok (m_device h') ∧
    match m_commandType c with
    | ShutdownCommand => n = code WMT_CLOSE_SOCKET
    | HelpCommand => framed [] n buf
    | RegisterMapCommand => n = code WMT_STRING_ERR ∨ framed seq n buf
    | _ => framed seq n buf
    end.
Proof.
  intros Hd Ht Hm. unfold dispatch. destruct (m_commandType c) eqn:Hc.
  - by apply HandleInfo_answers.
  - by apply HandleWrite_answers.
  - by apply HandleRead_answers.
  - by apply error_answers.
  - by do 3 eexists.
  - by apply HandleHelp_answers.
  - by apply HandleDetect_answers.
  - by apply HandleDevice_answers.
  - destruct (HandleRegisterMap_answers c seq h Hc Hd) as [(n & buf & h' & E & Hd' & Hf)|(buf & h' & E & Hd')];
      do 3 eexists; (split; [exact E|]); (split; [done|]); [by right|by left].
  - by apply HandleProtocolVersion_answers.
  - by eapply HandleBlockWrite_answers.
  - by eapply HandleBlockRead_answers.
Qed.

(** C33. Over any device that keeps its contract, every command that the parser and the
    target accept is answered.  The result is the length of the reply, which ends with a
    newline and starts with the sequence number of the command, but for the help text,
    which overwrites the number; or it is the code that closes the socket, for a shutdown;
    or, for an empty register map, the error that the server answers itself.  For a block
    read the memory for its bytes must be had, and [delete] must take back what [new[]]
    gave: the first is not tested by the code, the second is undefined in C++. *)
Theorem HandleCommandString_answers (command : list Z) (c : CCommand) (target : RESULT * option (list Z)) (h : handler) :
  device_ok (m_device h) → CCommand_of command = Ret c → GetTarget c true = Ret target → block_memory c →
  ∃ n buf h', HandleCommandString command h = Ret (n, buf, h') ∧ device_ok (m_device h') ∧
    (framed (m_sequenceNumberString c) n buf ∨
     match m_commandType c with
     | ShutdownCommand => n = code WMT_CLOSE_SOCKET
     | HelpCommand => framed [] n buf
     | RegisterMapCommand => n = code WMT_STRING_ERR
     | _ => False
     end).
Proof.
  intros Hd E Ht Hm. unfold HandleCommandString. rewrite E. cbn [mbind outcome_bind]. set (seq := m_sequenceNumberString c).
  assert (Hgo : ∀ h1 : handler, device_ok (m_device h1) → ∃ n buf h', dispatch c seq h1 = Ret (n, buf, h') ∧ device_ok (m_device h') ∧
    (framed seq n buf ∨ match m_commandType c with ShutdownCommand => n = code WMT_CLOSE_SOCKET | HelpCommand => framed [] n buf
                        | RegisterMapCommand => n = code WMT_STRING_ERR | _ => False end)).
  { intros h1 Hd1. destruct (dispatch_answers c seq target h1 Hd1 Ht Hm) as (n & buf & h' & E' & Hd' & Hk). do 3 eexists.
    split; [exact E'|]. split; [done|]. destruct (m_commandType c); tauto. }
  destruct (m_hasDeviceID c); [|by apply Hgo]. unfold device_name. destruct (name_ok (m_device h) Hd) as [name ->].
  cbn [or_ub mbind outcome_bind]. destruct (bool_decide (m_deviceIDString c ≠ c_str name)); [|by apply Hgo].
  destruct (set_ok (m_deviceIDString c) (m_device h) Hd) as (r & d & -> & Hd'). cbn [mbind outcome_bind].
  destruct (bool_decide (r = WMT_NO_DEVICE)); [|by apply Hgo]. destruct (error_answers seq WMT_NO_DEVICE (with_device h d) Hd') as (n & buf & h' & E' & Hd2 & Hf).
  do 3 eexists. split; [exact E'|]. split; [done|]. by left.
Qed.
End Replies.

(** ** The text of a register map *)

(** A line of the map: the text of an address and the values from there on. *)
Definition map_line : Type := list Z * list (list Z).

Fixpoint joined (sep : list Z) (ls : list (list Z)) : list Z :=
  match ls with [] => [] | [l] => l | l :: ls' => l ++ sep ++ joined sep ls' end.
Definition line_text (l : map_line) : list Z := fst l ++ str ": " ++ joined [32] (snd l).
Definition lines_text (seq : list Z) (ls : list map_line) : list Z := joined (10 :: seq) (line_text <$> ls).

(** The registers a line stands for. *)
Definition expand (l : map_line) : list (Z * list Z) := imap (λ k v, (u64 (strtoul16 (fst l) + Z.of_nat k), v)) (snd l).
Definition register_of (p : CRegValuePair) : Z * list Z := (strtoul16 (c_str (reg p)), c_str (value p)).

(** No line could have gone on with the next one. *)
Definition next_apart (l1 l2 : map_line) : Prop :=
  u64 (strtoul16 (fst l1) + Z.of_nat (length (snd l1))) ≠ strtoul16 (fst l2).
Fixpoint apart (ls : list map_line) : Prop :=
  match ls with l1 :: (l2 :: _) as ls' => next_apart l1 l2 ∧ apart ls' | _ => True end.

Lemma hex_digits_nonneg acc s : 0 ≤ acc → 0 ≤ hex_digits acc s.
Proof.
  revert acc. induction s as [|c s IH]; intros acc Ha; cbn [hex_digits]; [done|].
  destruct (digit (upper c)) as [d|] eqn:Hd; [|done]. apply digit_range in Hd. apply IH. lia.
Qed.

Lemma strtoul16_range s : 0 ≤ strtoul16 s < 2 ^ 64.
Proof.
  unfold strtoul16. destruct (match skip_space s with [] => _ | _ => _ end) as [neg t].
  pose proof (hex_digits_nonneg 0 (skip_0x t) ltac:(lia)). unfold ULONG_MAX.
  destruct (Z.ltb_spec (2 ^ 64 - 1) (hex_digits 0 (skip_0x t))); [lia|]. destruct neg; [apply u64_range|lia].
Qed.

Lemma joined_snoc sep ls l : ls ≠ [] → joined sep (ls ++ [l]) = joined sep ls ++ sep ++ l.
Proof.
  intros Hn. induction ls as [|a ls IH]; [done|]. destruct ls as [|b ls]; [done|].
  change (joined sep ((a :: b :: ls) ++ [l])) with (a ++ sep ++ joined sep ((b :: ls) ++ [l])).
  rewrite IH by done. change (joined sep (a :: b :: ls)) with (a ++ sep ++ joined sep (b :: ls)). by rewrite <-!app_assoc.
Qed.

Lemma expand_snoc a vs v : expand (a, vs ++ [v]) = expand (a, vs) ++ [(u64 (strtoul16 a + Z.of_nat (length vs)), v)].
Proof. unfold expand. cbn [fst snd]. rewrite imap_app. cbn. by rewrite Nat.add_0_r. Qed.

Section Map.
Context {D : Type}.
Abbreviation handler := (CCommandHandler D).

Lemma register_lines_group seq regvals (h : handler) k : (length seq ≤ 32)%nat →
  Forall (λ p, length (reg p) = 9%nat ∧ length (value p) = 9%nat) regvals →
  ∀ a vs base, vs ≠ [] →
  ∃ ls l, register_lines regvals (Some (u64 (strtoul16 a + Z.of_nat (length vs - 1)))) seq (base ++ line_text (a, vs)) h k =
      k (base ++ lines_text seq (l :: ls)) ∧ fst l = a ∧
    concat (expand <$> l :: ls) = expand (a, vs) ++ (register_of <$> regvals) ∧ apart (l :: ls) ∧ Forall (λ l, snd l ≠ []) (l :: ls).
Proof.
  intros Hseq Hlen. induction Hlen as [|it regvals [Hr Hv] _ IH]; intros a vs base Hvs; cbn [register_lines].
  { exists [], (a, vs). split; [done|]. split; [done|]. cbn. rewrite !app_nil_r. by repeat constructor. }
  pose proof (length_c_str (reg it)). pose proof (length_c_str (value it)). rewrite printed_eq.
  set (x := strtoul16 a + Z.of_nat (length vs - 1)).
  assert (Ex : u64 (u64 x + 1) = u64 (strtoul16 a + Z.of_nat (length vs))).
  { unfold x, wrapu. rewrite Zplus_mod_idemp_l. f_equal. destruct vs; [done|]. cbn [length]. lia. }
  destruct (Z.eqb_spec (u64 (u64 x + 1)) (strtoul16 (c_str (reg it)))) as [E|E]; cbn [negb].
  - rewrite firstn_all2 by (rewrite length_app; cbn [length]; unfold PATH_MAX; lia).
    assert ((base ++ line_text (a, vs)) ++ [32] ++ c_str (value it) = base ++ line_text (a, vs ++ [c_str (value it)])) as ->.
    { unfold line_text. cbn [fst snd]. rewrite joined_snoc by done. by rewrite <-!app_assoc. }
    destruct (IH a (vs ++ [c_str (value it)]) base) as (ls & l & El & Hl & Hc & Ha & Hf); [by destruct vs|].
    exists ls, l. split; [|split; [done|split; [|done]]].
    + rewrite <-El. f_equal. f_equal. rewrite <-E, Ex. f_equal. rewrite length_app. cbn [length]. f_equal. lia.
    + rewrite Hc, expand_snoc, <-app_assoc. cbn. unfold register_of at 2. do 3 f_equal. by rewrite <-Ex.
  - rewrite firstn_all2 by (rewrite !length_app; cbn [length str]; unfold PATH_MAX; lia).
    destruct (IH (c_str (reg it)) [c_str (value it)] ((base ++ line_text (a, vs)) ++ 10 :: seq)) as (ls & l & El & Hl & Hc & Ha & Hf); [done|].
    exists (l :: ls), (a, vs). split; [|split; [done|split; [|split]]].
    + cbn [length Nat.sub] in El. change (Z.of_nat 0) with 0 in El. rewrite Z.add_0_r, wrapu_small in El by apply strtoul16_range.
      unfold line_text at 2 in El. cbn [fst snd joined] in El.
      assert ((base ++ line_text (a, vs)) ++ [10] ++ seq ++ c_str (reg it) ++ str ": " ++ c_str (value it) =
        ((base ++ line_text (a, vs)) ++ 10 :: seq) ++ c_str (reg it) ++ str ": " ++ c_str (value it)) as ->.
      { by rewrite <-!app_assoc. }
      rewrite El. unfold lines_text. cbn [fmap list_fmap joined]. by rewrite <-!app_assoc.
    + cbn [fmap list_fmap concat] in Hc |- *. rewrite Hc. f_equal. unfold expand, register_of. cbn.
      by rewrite Z.add_0_r, wrapu_small by apply strtoul16_range.
    + split; [|done]. unfold next_apart. rewrite Hl. cbn [fst snd]. by rewrite <-Ex.
    + by constructor.
Qed.

(** C34. The text of a register map stands for the registers the device gave: expanding each
    line to consecutive addresses restores them in order, with their values, a register
    is on the line of the one before exactly when its address follows, every line starts
    with the sequence number, and the end is marked unless the client never told its
    version. *)
Theorem HandleRegisterMap_text {device : Device D} (c : CCommand) (h : handler) (regvals : list CRegValuePair) (d : D) :
  m_commandType c = RegisterMapCommand → (length (m_sequenceNumberString c) ≤ 32)%nat →
  GetRegisterMap (m_device h) = Ret (WMT_SUCCESS, regvals, d) → regvals ≠ [] →
  Forall (λ p, length (reg p) = 9%nat ∧ length (value p) = 9%nat) regvals →
  let seqStr := m_sequenceNumberString c in
  ∃ ls buf, HandleRegisterMap c seqStr h = Ret (reply_length buf, buf, with_device h d) ∧
    buf = seqStr ++ lines_text seqStr ls ++ [10] ++ (if m_wisceVersion h =? DEFAULT_VERSION then [] else seqStr ++ line "END") ∧
    concat (expand <$> ls) = register_of <$> regvals ∧ apart ls ∧ Forall (λ l, snd l ≠ []) ls.
Proof.
  intros Hc Hseq Hm Hne Hlen seqStr. unfold HandleRegisterMap. fold seqStr. rewrite asserted_eq by done. rewrite Hm. cbn [mbind outcome_bind].
  rewrite bool_decide_eq_false_2 by (by intros []). destruct Hlen as [|it regvals [Hr Hv] Hlen]; [done|].
  change (length (it :: regvals) =? 0)%nat with false. cbv iota. cbn [register_lines]. rewrite printed_eq.
  pose proof (length_c_str (reg it)). pose proof (length_c_str (value it)).
  rewrite firstn_all2 by (rewrite !length_app; cbn [length str]; unfold PATH_MAX; lia).
  assert (strtoul16 (c_str (reg it)) = u64 (strtoul16 (c_str (reg it)) + Z.of_nat (length [c_str (value it)] - 1))) as ->.
  { cbn [length Nat.sub]. change (Z.of_nat 0) with 0. rewrite Z.add_0_r, wrapu_small; [done|]. apply strtoul16_range. }
  set (k := λ buffer : list Z, _).
  destruct (register_lines_group seqStr regvals (with_device h d) k Hseq Hlen (c_str (reg it)) [c_str (value it)] seqStr)
    as (ls & l & El & _ & He & Ha & Hf); [done|]. unfold line_text at 1 in El. cbn [fst snd joined] in El. rewrite El. unfold k, reply.
  exists (l :: ls). eexists. split; [done|]. split; [|split; [|done]].
  - change (m_wisceVersion (with_device h d)) with (m_wisceVersion h).
    destruct (m_wisceVersion h =? DEFAULT_VERSION); cbn [negb]; by rewrite <-!app_assoc.
  - rewrite He. unfold expand, register_of. cbn. by rewrite Z.add_0_r, wrapu_small by apply strtoul16_range.
Qed.
End Map.
