(* ===== verification/WbSession.v ===== *)
(** * A session of reads and writes

    A client of the bridge that numbers its commands and reads and writes registers sees
    a register file: the text of every reply is determined by what was written before. *)
From S2P Require Import Prelude DevStdlib DevArrays WbString WbResult WbCommand WbDevice WbHandler WbHandlerSpec.
From stdpp Require Import strings.
#[local] Open Scope Z_scope.

(** ** Commands with a sequence number *)

(** A word of a command. *)
Definition word (w : list Z) : Prop := w ≠ [] ∧ no_nul w ∧ Forall (.∉ separators) w.

(** The command in words, with its number, as the server hands it on. *)
Definition command_text (n : Z) (words : list (list Z)) : list Z := sequence_string n ++ joined [32] words ++ [10].

Lemma fields_joined words : Forall word words → words ≠ [] → fields separators [] (joined [32] words ++ [10]) = words.
Proof.
  induction 1 as [|w words (Hw & _ & Hs) Hf IH]; [done|]. intros _. destruct words as [|w' words].
  - cbn [joined]. rewrite fields_cons; [done|done|done|]. by apply (bool_decide_unpack _); vm_compute.
  - change (joined [32] (w :: w' :: words)) with (w ++ 32 :: joined [32] (w' :: words)). rewrite <-app_assoc. cbn [app].
    rewrite fields_cons; [|done|done|by apply (bool_decide_unpack _); vm_compute]. f_equal. by apply IH.
Qed.

Lemma no_nul_joined words : Forall word words → no_nul (joined [32] words).
Proof.
  induction 1 as [|w words (_ & Hw & _) Hf IH]; [apply not_elem_of_nil|]. destruct words as [|w' words]; [done|].
  change (joined [32] (w :: w' :: words)) with (w ++ [32] ++ joined [32] (w' :: words)).
  rewrite !no_nul_app. split_and!; [done| |done]. unfold no_nul. by apply (bool_decide_unpack _); vm_compute.
Qed.

Lemma CCommand_of_words n w words : 0 ≤ n < 2 ^ 32 → Forall word (w :: words) →
  ∃ text, CCommand_of (command_text n (w :: words)) =
    Ret (mkCommand (ParseCommandType w) n true (sequence_string n) false [] (w :: words) text).
Proof.
  intros Hn Hw. destruct (print_hex_value 8 n Hn ltac:(lia)) as [Hv Hne]. unfold command_text, sequence_string.
  set (body := joined [32] (w :: words) ++ [10]).
  replace ((LBRACKET :: print_hex 8 n ++ [RBRACKET; 32]) ++ body)
    with (LBRACKET :: print_hex 8 n ++ RBRACKET :: 32 :: body) by (cbn [app]; by rewrite <-app_assoc).
  rewrite (CCommand_of_numbered _ n Hv Hne Hn). unfold finish_command, SplitString. cbn [blanks app mbind outcome_bind].
  change [32; 9; 10] with separators.
  rewrite c_str_id by (unfold body; change (32 :: ?x) with ([32] ++ x); rewrite !no_nul_app; split_and!;
    [unfold no_nul; by apply (bool_decide_unpack _); vm_compute|by apply no_nul_joined|unfold no_nul; by apply (bool_decide_unpack _); vm_compute]).
  change (32 :: body) with ([32] ++ body). rewrite fields_delims by (by apply (bool_decide_unpack _); vm_compute).
  unfold body. rewrite fields_joined by done. cbn [mbind outcome_bind GetParameter negb COMMAND_PARAMETER lookup list_lookup].
  by eexists.
Qed.

(** A number in hexadecimal is a word, and the accessors read it back. *)
Lemma word_hex a : 0 ≤ a < 2 ^ 32 → word (print_hex 8 a).
Proof.
  intros Ha. destruct (print_hex_value 8 a Ha ltac:(lia)) as [Hv Hne]. split; [done|]. split.
  - by eapply digits_no_nul.
  - apply digits_separate. by eapply hex_value_digits.
Qed.

Lemma word_r : word (str "r").
Proof. split; [done|]. split; by apply (bool_decide_unpack _); vm_compute. Qed.
Lemma word_w : word (str "w").
Proof. split; [done|]. split; by apply (bool_decide_unpack _); vm_compute. Qed.

Lemma hex_word_read a : 0 ≤ a < 2 ^ 32 →
  CheckHexValueLength (c_str (print_hex 8 a)) MAX_REGISTER_LENGTH = true ∧ u32 (strtoul16 (c_str (print_hex 8 a))) = a.
Proof.
  intros Ha. destruct (print_hex_value 8 a Ha ltac:(lia)) as [Hv Hne].
  rewrite c_str_id by by eapply digits_no_nul. split.
  - pose proof (hex_length_check false (print_hex 8 a) (hex_value_digits _ _ _ Hv) Hne) as E. cbn [app] in E. rewrite E.
    apply Nat.leb_le, length_print_hex.
  - rewrite <-(app_nil_r (print_hex 8 a)), (strtoul16_digits _ a) by (done || (unfold ULONG_MAX; lia)). by apply wrapu_small.
Qed.

(** ** The register file *)

(** A device whose registers are a finite map: those that are not there are refused. *)
Class RegisterFile (D : Type) `{Device D} := {
  file : D → gmap Z Z;
  file_ok : D → Prop;
  file_bounded d a v : file_ok d → file d !! a = Some v → 0 ≤ v < 2 ^ 32;
  file_read d a : file_ok d → ∃ d', file_ok d' ∧ file d' = file d ∧
    ReadRegister a d = Ret (match file d !! a with Some v => (WMT_SUCCESS, Some v) | None => (WMT_REG_NOT_PRESENT, None) end, d');
  file_write d a v : file_ok d → is_Some (file d !! a) → 0 ≤ v < 2 ^ 32 →
    ∃ d', file_ok d' ∧ file d' = <[a := v]> (file d) ∧ WriteRegister a v d = Ret (WMT_SUCCESS, d');
}.

Inductive request := QRead (a : Z) | QWrite (a v : Z).

Definition request_words (q : request) : list (list Z) :=
  match q with
  | QRead a => [str "r"; print_hex 8 a]
  | QWrite a v => [str "w"; print_hex 8 a; print_hex 8 v]
  end.

(** What the register file answers, and what it is afterwards. *)
Definition answer (n : Z) (q : request) (m : gmap Z Z) : list Z * gmap Z Z :=
  match q with
  | QRead a => (sequence_string n ++ match m !! a with Some v => print_x v ++ [10] | None => line "Error 37" end, m)
  | QWrite a v => (sequence_string n ++ line "Ok", <[a := v]> m)
  end.
Fixpoint answers_of (qs : list (Z * request)) (m : gmap Z Z) : list (list Z) * gmap Z Z :=
  match qs with
  | [] => ([], m)
  | (n, q) :: qs' => let '(t, m) := answer n q m in let '(ts, m) := answers_of qs' m in (t :: ts, m)
  end.

(** A client that keeps to 32 bits and writes registers that are there. *)
Definition request_ok (m : gmap Z Z) (nq : Z * request) : Prop :=
  0 ≤ nq.1 < 2 ^ 32 ∧
  match nq.2 with
  | QRead a => 0 ≤ a < 2 ^ 32
  | QWrite a v => 0 ≤ a < 2 ^ 32 ∧ 0 ≤ v < 2 ^ 32 ∧ is_Some (m !! a)
  end.

Section Session.
Context {D : Type} {device : Device D} {regs : RegisterFile D} {heap : Heap}.
Abbreviation handler := (CCommandHandler D).

(** The commands handled one after the other, with the replies. *)
Fixpoint session (qs : list (Z * request)) (h : handler) : outcome (list (Z * list Z) * handler) :=
  match qs with
  | [] => Ret ([], h)
  | (n, q) :: qs' =>
      '(r, buf, h) ← HandleCommandString (command_text n (request_words q)) h;
      '(rs, h) ← session qs' h;
      Ret ((r, buf) :: rs, h)
  end.

Lemma GetAddress_words ty n sq hd dv w a rest text : ty = ReadCommand ∨ ty = WriteCommand → 0 ≤ a < 2 ^ 32 →
  GetAddress (mkCommand ty n sq hd false dv (w :: print_hex 8 a :: rest) text) true = Ret (WMT_SUCCESS, Some a).
Proof.
  intros Hty Ha. destruct (hex_word_read a Ha) as [Hl Ex]. unfold GetAddress, GetParameter.
  change (m_parameters _ !! FIRST_PARAMETER) with (Some (print_hex 8 a)). cbn [negb]. cbv beta iota zeta.
  cbn [m_commandType from_option id]. rewrite Hl, Ex. by destruct Hty as [-> | ->].
Qed.

Lemma GetValue_words n sq hd dv w p v rest text : 0 ≤ v < 2 ^ 32 →
  GetValue (mkCommand WriteCommand n sq hd false dv (w :: p :: print_hex 8 v :: rest) text) true = (WMT_SUCCESS, Some v).
Proof.
  intros Hv. destruct (hex_word_read v Hv) as [Hl Ex]. unfold GetValue, GetParameter.
  change (m_parameters _ !! SECOND_PARAMETER) with (Some (print_hex 8 v)). cbn [negb m_commandType]. cbv beta iota zeta.
  by rewrite Hl, Ex.
Qed.

Lemma length_print_x v : (length (print_x v ++ [10%Z]) < PATH_MAX - 1)%nat.
Proof. rewrite length_app. unfold print_x. pose proof (length_hex_lower 8 v). cbn [length]. unfold PATH_MAX. lia. Qed.

Lemma answer_request n q (h : handler) m : file_ok (m_device h) → request_ok (file (m_device h)) (n, q) →
  file (m_device h) = m →
  ∃ h', HandleCommandString (command_text n (request_words q)) h = Ret (reply_length (answer n q m).1, (answer n q m).1, h') ∧
    file_ok (m_device h') ∧ file (m_device h') = (answer n q m).2.
Proof.
  intros Hok [Hn Hq] <-. cbn [fst snd] in Hn, Hq. unfold HandleCommandString. destruct q as [a|a v]; cbn [request_words answer fst snd].
  - destruct (CCommand_of_words n (str "r") [print_hex 8 a] Hn) as [text ->].
    { repeat (constructor; [first [apply word_r|apply word_w|by apply word_hex]|]). constructor. }
    cbn [mbind outcome_bind m_sequenceNumberString m_hasDeviceID]. unfold dispatch. cbn [m_commandType].
    change (ParseCommandType (str "r")) with ReadCommand. cbv iota. unfold HandleRead. rewrite asserted_eq by done.
    rewrite GetAddress_words by tauto. cbn [mbind outcome_bind or_ub]. rewrite bool_decide_eq_false_2 by (by intros []).
    destruct (file_read (m_device h) a Hok) as (d' & Hok' & Ef & ->). cbn [mbind outcome_bind].
    destruct (file (m_device h) !! a) as [v|] eqn:Ev; cbn [mbind outcome_bind].
    + rewrite bool_decide_eq_false_2 by (by intros []). cbn [or_ub mbind outcome_bind]. rewrite printed_eq.
      pose proof (file_bounded _ a v Hok Ev) as Hb. assert (u32 v = v) as -> by (by apply wrapu_small).
      rewrite firstn_all2; [|apply Nat.lt_le_incl, length_print_x].
      eexists. split; [done|]. by split.
    + rewrite bool_decide_eq_true_2 by done. eexists. split; [done|]. by split.
  - destruct Hq as (Ha & Hv & Hp). destruct (CCommand_of_words n (str "w") [print_hex 8 a; print_hex 8 v] Hn) as [text ->].
    { repeat (constructor; [first [apply word_r|apply word_w|by apply word_hex]|]). constructor. }
    cbn [mbind outcome_bind m_sequenceNumberString m_hasDeviceID]. unfold dispatch. cbn [m_commandType].
    change (ParseCommandType (str "w")) with WriteCommand. cbv iota. unfold HandleWrite. rewrite asserted_eq by done.
    rewrite GetAddress_words, GetValue_words by tauto. cbn [mbind outcome_bind or_ub].
    rewrite !bool_decide_eq_false_2 by (by intros []).
    cbn [mbind outcome_bind or_ub]. destruct (file_write (m_device h) a v Hok Hp Hv) as (d' & Hok' & Ef & ->). cbn [mbind outcome_bind].
    rewrite bool_decide_eq_false_2 by (by intros []). eexists. split; [done|]. by split.
Qed.

(** Over a device whose registers are a map, a client that numbers its commands, reads
    registers and writes those that are there gets, to every command, the reply of the
    map: its own number, and the last value written, an error or an acknowledgement. *)
Theorem session_refines_file (qs : list (Z * request)) (h : handler) (m : gmap Z Z) :
  file_ok (m_device h) → file (m_device h) = m → Forall (request_ok m) qs →
  ∃ h', session qs h = Ret ((λ t, (reply_length t, t)) <$> (answers_of qs m).1, h') ∧
    file_ok (m_device h') ∧ file (m_device h') = (answers_of qs m).2.
Proof.
  intros Hok Hm Hqs. revert h m Hok Hm Hqs. induction qs as [|[n q] qs IH]; intros h m Hok Hm Hqs; cbn [session answers_of].
  { exists h. by split_and!. }
  apply Forall_cons_1 in Hqs as [Hq Hqs].
  destruct (answer_request n q h m Hok) as (h1 & -> & Hok1 & E1); [by rewrite Hm|done|]. cbn [mbind outcome_bind].
  destruct (IH h1 (answer n q m).2 Hok1 E1) as (h2 & -> & Hok2 & E2).
  { eapply Forall_impl; [exact Hqs|]. intros [n' q'] [Hn' Hq']. split; [done|]. destruct q' as [a'|a' v']; cbn in *; [done|].
    destruct Hq' as (? & ? & Hs). split; [done|]. split; [done|]. destruct q as [a|a v]; cbn; [done|].
    destruct (decide (a = a')) as [->|]; [by rewrite lookup_insert_eq; eexists|by rewrite lookup_insert_ne]. }
  cbn [mbind outcome_bind]. exists h2. destruct (answer n q m) as [t m1]. cbn [fst snd] in *.
  destruct (answers_of qs m1) as [ts m2]. by split_and!.
Qed.
End Session.

(** ** A device in memory *)

(** Registers that are a map, a list to show for them, and nothing else. *)
Record plain := mkPlain { plain_regs : gmap Z Z; plain_map : list CRegValuePair }.
Definition plain_ReadRegister (a : Z) (d : plain) : outcome (RESULT * option Z * plain) :=
  Ret (match plain_regs d !! a with Some v => (WMT_SUCCESS, Some v) | None => (WMT_REG_NOT_PRESENT, None) end, d).
Definition plain_WriteRegister (a v : Z) (d : plain) : outcome (RESULT * plain) :=
  Ret (match plain_regs d !! a with Some _ => (WMT_SUCCESS, mkPlain (<[a := v]> (plain_regs d)) (plain_map d)) | None => (WMT_REG_NOT_PRESENT, d) end).

(** Memory for up to a megabyte at a time, of [malloc]. *)
#[export] Instance plain_heap : Heap := { operator_new n := n <=? 0x100000; delete_takes_arrays := true }.

#[export] Instance plain_device : Device plain := {
  GetDeviceName d := Some (str "plain");
  SetDevice name d := Ret (if bool_decide (name = str "plain") then WMT_SUCCESS else WMT_NO_DEVICE, d);
  GetOSInfo n d := base_GetOSInfo (Some (str "Linux", str "4.14")) n;
  EnumerateDevices n d := Ret (WMT_SUCCESS, str "plain");
  ReadRegister := plain_ReadRegister;
  WriteRegister := plain_WriteRegister;
  GetRegisterMap d := Ret (WMT_SUCCESS, plain_map d, d);
  BlockRead a data d := base_BlockRead_target data d;
  BlockRead_target t a data d := base_BlockRead_target data d;
  BlockRead_region t g a data d := base_BlockRead_target data d;
  BlockWrite a data d := base_BlockWrite_target d;
  BlockWrite_target t a data d := base_BlockWrite_target d;
  BlockWrite_region t g a data d := base_BlockWrite_target d;
}.

#[export] Program Instance plain_file : RegisterFile plain := {
  file := plain_regs;
  file_ok d := map_Forall (λ _ v, 0 ≤ v < 2 ^ 32) (plain_regs d);
}.
Next Obligation. intros d a v Hok Ha. by apply (Hok a). Qed.
Next Obligation. intros d a Hok. exists d. by split_and!. Qed.
Next Obligation.
  intros d a v Hok [v0 Hv0] Hv. exists (mkPlain (<[a := v]> (plain_regs d)) (plain_map d)). split_and!; [|done|].
  - by apply map_Forall_insert_2.
  - cbn. unfold plain_WriteRegister. by rewrite Hv0.
Qed.

Lemma session_refines_file_witness : ∃ h',
  session [(1, QWrite 0x12 0xabc); (2, QRead 0x12); (0x1f, QRead 7)] (mkHandler (mkPlain {[0x12 := 0]} []) DEFAULT_VERSION) =
    Ret ([(7, str "[1] Ok" ++ [10]); (8, str "[2] abc" ++ [10]); (14, str "[1F] Error 37" ++ [10])], h') ∧
  plain_regs (m_device h') = {[0x12 := 0xabc]}.
Proof.
  destruct (session_refines_file [(1, QWrite 0x12 0xabc); (2, QRead 0x12); (0x1f, QRead 7)]
    (mkHandler (mkPlain {[0x12 := 0]} []) DEFAULT_VERSION) {[0x12 := 0]}) as (h' & E & _ & Ef).
  - cbn. apply map_Forall_singleton. lia.
  - done.
  - repeat constructor; cbn; lia || (by eexists) || done.
  - exists h'. rewrite E. split; [by vm_compute|]. etrans; [exact Ef|]. by vm_compute.
Defined.

#[export] Program Instance plain_laws : DeviceLaws plain := { device_ok _ := True }.
Next Obligation. by eexists. Qed.
Next Obligation. intros name d _. by do 2 eexists. Qed.
Next Obligation.
  intros n d Hn. by apply base_GetOSInfo_length.
Qed.
Next Obligation. intros n d _. by do 2 eexists. Qed.
Next Obligation.
  intros a d _. cbn. unfold plain_ReadRegister. destruct (plain_regs d !! a); do 3 eexists; (split; [done|]); split; done || by eexists.
Qed.
Next Obligation. intros a v d _. cbn. unfold plain_WriteRegister. destruct (plain_regs d !! a); by do 2 eexists. Qed.
Next Obligation. intros d _. by do 3 eexists. Qed.
Next Obligation. intros a data d _. by do 3 eexists. Qed.
Next Obligation. intros t a data d _. by do 3 eexists. Qed.
Next Obligation. intros t g a data d _. by do 3 eexists. Qed.
Next Obligation. intros a data d _. by do 2 eexists. Qed.
Next Obligation. intros t a data d _. by do 2 eexists. Qed.
Next Obligation. intros t g a data d _. by do 2 eexists. Qed.

Lemma HandleCommandString_answers_witness :
  ∃ h' : CCommandHandler plain,
    HandleCommandString (str "[1F] w 12 ab") (mkHandler (mkPlain {[0x12 := 0]} []) DEFAULT_VERSION) =
      Ret (8, str "[1F] Ok" ++ [10], h') ∧ framed (str "[1F] ") 8 (str "[1F] Ok" ++ [10]).
Proof.
  destruct (CCommand_of (str "[1F] w 12 ab")) as [c| | | |] eqn:Ec; [|by vm_compute in Ec..].
  destruct (HandleCommandString_answers (str "[1F] w 12 ab") c (WMT_INVALID_COMMAND, Some [])
    (mkHandler (mkPlain {[0x12 := 0]} []) DEFAULT_VERSION)) as (n & buf & h' & E & _ & Hf); [done|done| | |].
  - vm_compute in Ec. injection Ec as <-. by vm_compute.
  - vm_compute in Ec. by injection Ec as <-.
  - assert (HandleCommandString (str "[1F] w 12 ab") (mkHandler (mkPlain {[0x12 := 0]} []) DEFAULT_VERSION) =
      Ret (8, str "[1F] Ok" ++ [10], mkHandler (mkPlain {[0x12 := 0xab]} []) DEFAULT_VERSION)) as E' by by vm_compute.
    rewrite E' in E. injection E as <- <- <-. eexists. split; [exact E'|].
    destruct Hf as [Hf|Hf]; [|vm_compute in Ec; injection Ec as <-; done].
    vm_compute in Ec. by injection Ec as <-.
Defined.

(** The arrays of a pair. *)
Definition pair_of (r v : list Z) : CRegValuePair :=
  let fill s := s ++ replicate (9 - length s) 0 in mkPair (fill r) (fill v).

Definition map_command : CCommand :=
  mkCommand RegisterMapCommand 2 true (str "[2] ") false [] [str "getregmap"] (str " getregmap").
Definition three_registers : CCommandHandler plain :=
  mkHandler (mkPlain ∅ [pair_of (str "00") (str "abcd"); pair_of (str "01") (str "0001"); pair_of (str "05") (str "7")]) PROTOCOL_VERSION.
Definition three_lines : list Z := str "[2] 00: abcd 0001" ++ [10] ++ str "[2] 05: 7" ++ [10] ++ str "[2] END" ++ [10].

Lemma HandleRegisterMap_text_witness : ∃ ls,
  CCommand_of (str "[2] getregmap") = Ret map_command ∧
  HandleRegisterMap map_command (str "[2] ") three_registers = Ret (reply_length three_lines, three_lines, three_registers) ∧
  three_lines = str "[2] " ++ lines_text (str "[2] ") ls ++ [10] ++ str "[2] " ++ line "END" ∧
  concat (expand <$> ls) = [(0, str "abcd"); (1, str "0001"); (5, str "7")] ∧ apart ls.
Proof.
  destruct (HandleRegisterMap_text (device := plain_device) map_command three_registers (plain_map (m_device three_registers))
    (m_device three_registers)) as (ls & buf & E & Eb & Ex & Ha & _); [done|by apply Nat.leb_le; vm_compute|done|done|by repeat constructor|].
  exists ls. split; [by vm_compute|].
  assert (HandleRegisterMap map_command (str "[2] ") three_registers = Ret (reply_length three_lines, three_lines, three_registers)) as E' by by vm_compute.
  split; [exact E'|]. change (m_sequenceNumberString map_command) with (str "[2] ") in E, Eb. rewrite E' in E. injection E as _ <-.
  split; [exact Eb|]. split; [|done]. rewrite Ex. by vm_compute.
Defined.
