(* ===== verification/WbServer.v ===== *)
(** * The server of the WISCE bridge

    Model of [src/spkcal/cirrus/tools/wbridge/Server.cpp]: the bytes of a connection are
    cut into commands, the command handler answers them, the replies are sent.  The
    socket is a class; [script] is a socket that delivers given chunks of bytes. *)
From S2P Require Import Prelude DevStdlib DevArrays WbString WbResult WbCommand WbDevice WbHandler.
From stdpp Require Import strings.
#[local] Open Scope Z_scope.

(** @src src/spkcal/cirrus/tools/wbridge/Server.h:58-58 INITIAL_BUFFER_LENGTH *)
Definition INITIAL_BUFFER_LENGTH : nat := 1280.
Definition COMMAND_END_CHAR : Z := 10.
Definition GENERAL_FAILURE_MESSAGE : list Z := line "Error 63".
Definition STRYEAR : list Z := str "2018".

(** @src src/spkcal/cirrus/tools/wbridge/Server.h:67-75 CBufferedCommand
    The [length] bytes in front of the terminating zero. *)
Record CBufferedCommand := mkBuffered { text : list Z; complete : bool }.

(** A connected socket: [recv] for at most so many bytes and [send], with their status,
    and whether [errno] is [EINTR]. *)
Class Socket (W : Type) := {
  recv : Z → W → Z * list Z * W;
  send : list Z → W → Z * W;
  errno_EINTR : W → bool;
}.

(** ** Memory *)

(** A buffer whose bytes may not have been written; a string in it is searched from its
    start, so that bytes not written are read when no zero byte comes before. *)
Abbreviation memory := (list (option Z)).
Fixpoint search (c : Z) (s : memory) (i : nat) : outcome (option nat) :=
  match s with
  | [] => UB
  | None :: _ => UB
  | Some x :: s' => if x =? c then Ret (Some i) else if x =? 0 then Ret None else search c s' (S i)
  end.
(** [strchr(s + i, c)], as an index of [s]. *)
Definition strchr (s : memory) (i : nat) (c : Z) : outcome (option nat) := search c (drop i s) i.

(** [memcpy] out of and into a buffer. *)
Fixpoint load_bytes (s : memory) : outcome (list Z) :=
  match s with
  | [] => Ret []
  | b :: s' => b ← or_ub b; bs ← load_bytes s'; Ret (b :: bs)
  end.
Definition memcpy_from (s : memory) (i n : nat) : outcome (list Z) :=
  if (i + n <=? length s)%nat then load_bytes (take n (drop i s)) else UB.
Definition memcpy_to (s : memory) (i : nat) (bs : list Z) : outcome memory :=
  if (i + length bs <=? length s)%nat then Ret (splice s i (Some <$> bs)) else UB.

(** @src src/spkcal/cirrus/tools/wbridge/WISCEBridgeUtil.cpp:1625-1672 GrowBuffer
    Twice the size, the new bytes zero; [new] does not fail. *)
Definition GrowBuffer (buffer : option memory) (size : nat) : outcome (RESULT * option memory * nat) :=
  match buffer with
  | None => Ret (WMT_INVALID_PARAMETER, buffer, size)
  | Some old =>
      if (size =? 0)%nat then Ret (WMT_INVALID_PARAMETER, buffer, size)
      else if (size <=? length old)%nat
           then Ret (WMT_SUCCESS, Some (take size old ++ replicate size (Some 0)), (size * 2)%nat)
           else UB
  end.

Section Server.
Context {W : Type} {socket : Socket W}.

(** ** Receiving *)

(** The receive buffer, its size, the bytes received and the room that is left. *)
Record receiving := mkReceiving { buffer : memory; bufferLength : nat; receivedData : Z; bufferRemaining : Z }.

(** @src src/spkcal/cirrus/tools/wbridge/Server.cpp:559-597 ReceiveCommand (the loop over recv)
    At most [fuel] calls of [recv]; the status when the connection ends, or where the
    first newline is. *)
Fixpoint receive_loop (fuel : nat) (r : receiving) (w : W) : outcome ((Z + receiving * nat) * W) :=
  match fuel with
  | O => OutOfFuel
  | S fuel' =>
      let '(status, bs, w) := recv (bufferRemaining r) w in
      if (status =? code WMT_SOCKET_ERR) || (status =? code WMT_SOCKET_CLOSED) then
        if errno_EINTR w then receive_loop fuel' r w else Ret (inl status, w)
      else
        b ← memcpy_to (buffer r) (Z.to_nat (receivedData r)) bs;
        let r := mkReceiving b (bufferLength r) (receivedData r + status) (bufferRemaining r - status) in
        pEnd ← strchr (buffer r) 0 COMMAND_END_CHAR;
        match pEnd with
        | Some i => Ret (inr (r, i), w)
        | None =>
            if bufferRemaining r =? 0 then
              '(_, b, n) ← GrowBuffer (Some (buffer r)) (bufferLength r);
              b ← or_ub b;
              receive_loop fuel' (mkReceiving b n (receivedData r) (Z.of_nat n - receivedData r)) w
            else receive_loop fuel' r w
        end
  end.

(** A carriage return in front of the last byte is dropped; the last byte is then a newline. *)
Definition drop_return (t : list Z) : list Z :=
  let n := length t in
  if bool_decide (t !! (n - 2)%nat = Some 13) then take (n - 2) t ++ [10] else t.

(** @src src/spkcal/cirrus/tools/wbridge/Server.cpp:604-659 ReceiveCommand (the loop over commands)
    From index [pStr] of the buffer; one more byte is skipped behind every command. *)
Fixpoint cut_commands (fuel : nat) (r : receiving) (pStr : nat) (pEnd : option nat) : outcome (list CBufferedCommand) :=
  match fuel with
  | O => OutOfFuel
  | S fuel' =>
      let go (complete : bool) (length : nat) :=
        t ← memcpy_from (buffer r) pStr length;
        let command := mkBuffered (drop_return t) complete in
        let pStr := (pStr + length)%nat in
        if (INITIAL_BUFFER_LENGTH <=? pStr + 1)%nat then Ret [command]
        else
          pEnd ← strchr (buffer r) (pStr + 1) COMMAND_END_CHAR;
          rest ← cut_commands fuel' r (pStr + 1) pEnd;
          Ret (command :: rest) in
      match pEnd with
      | Some i => if (i - pStr <? 1)%nat then Abort else go true (i - pStr + 1)%nat
      | None =>
          let length := receivedData r - Z.of_nat pStr - 1 in
          if length <=? 0 then Ret [] else go false (Z.to_nat length + 1)%nat
      end
  end.

(** @src src/spkcal/cirrus/tools/wbridge/Server.cpp:526-667 ReceiveCommand
    The incomplete command that is left from before goes to the front of the buffer. *)
Definition ReceiveCommand (fuel : nat) (commands : list CBufferedCommand) (w : W) : outcome (Z * list CBufferedCommand * W) :=
  let b := replicate INITIAL_BUFFER_LENGTH (Some 0) ++ [None] in
  let n := INITIAL_BUFFER_LENGTH in
  r ← match commands with
      | [] => Ret (mkReceiving b n 0 (Z.of_nat n))
      | front :: commands' =>
          if complete front then Abort
          else
            b ← memcpy_to b 0 (text front);
            match commands' with
            | [] => let k := Z.of_nat (length (text front)) in Ret (mkReceiving b n k (Z.of_nat n - k))
            | _ => Abort
            end
      end;
  '(received, w) ← receive_loop fuel r w;
  match received with
  | inl status => Ret (status, [], w)
  | inr (r, pEnd) =>
      cs ← cut_commands (S INITIAL_BUFFER_LENGTH) r 0 (Some pEnd);
      Ret (s32 (receivedData r), cs, w)
  end.

(** ** Sending *)

(** @src src/spkcal/cirrus/tools/wbridge/Server.cpp:494-507 SendData (the loop)
    What is left of the message; the number of bytes sent. *)
Fixpoint send_loop (fuel : nat) (message : list Z) (sentData : Z) (w : W) : outcome (Z * W) :=
  match message with
  | [] => Ret (sentData, w)
  | _ =>
      match fuel with
      | O => OutOfFuel
      | S fuel' =>
          let '(status, w) := send message w in
          if (status =? code WMT_SOCKET_ERR) || (status =? code WMT_SOCKET_CLOSED) then Ret (sentData, w)
          else send_loop fuel' (drop (Z.to_nat status) message) (sentData + status) w
      end
  end.

(** @src src/spkcal/cirrus/tools/wbridge/Server.cpp:481-511 SendData
    Every call of [send] that does not fail sends a byte at least. *)
Definition SendData (message : list Z) (w : W) : outcome (Z * W) :=
  '(n, w) ← send_loop (length message) message 0 w; Ret (s32 n, w).

(** ** A connection *)

Context {D : Type} {device : Device D} {heap : Heap}.

(** @src src/spkcal/cirrus/tools/wbridge/Server.h:85-107 CServer
    The handler and the client's socket. *)
Record CServer := mkServer { m_commandHandler : CCommandHandler D; m_clientSocket : W }.

(** @src src/spkcal/cirrus/tools/wbridge/Server.cpp:682-721 SendWelcome *)
Definition SendWelcome (s : CServer) : outcome (Z * CServer) :=
  '(result, deviceBuffer, h) ← GetDeviceID [] (m_commandHandler s);
  if bool_decide (result = WMT_STRING_ERR) then Ret (code result, mkServer h (m_clientSocket s))
  else
    let '(result, buffer) := snprintf INITIAL_BUFFER_LENGTH
      (APPNAME ++ str " Version " ++ VERSION_STRA ++ [10] ++ str "Copyright (c) " ++ STRYEAR ++ str " Cirrus Logic" ++ [10] ++
       c_str deviceBuffer ++ [10]) in
    if result =? code WMT_STRING_ERR then Ret (result, mkServer h (m_clientSocket s))
    else
      '(sentData, w) ← SendData buffer (m_clientSocket s);
      Ret (sentData, mkServer h w).

(** @src src/spkcal/cirrus/tools/wbridge/Server.cpp:420-457 HandleConnection (the commands)
    The commands that stay in the list, or the result with which the connection ends. *)
Fixpoint handle_commands (cs : list CBufferedCommand) (s : CServer) : outcome ((Z + list CBufferedCommand) * CServer) :=
  match cs with
  | [] => Ret (inr [], s)
  | it :: cs' =>
      if negb (complete it) then
        '(r, s) ← handle_commands cs' s;
        Ret (match r with inl e => inl e | inr kept => inr (it :: kept) end, s)
      else
        let buffer := c_str (text it) in
        if negb (length buffer =? length (text it))%nat then Abort
        else
          '(commandLength, buffer, h) ← HandleCommandString buffer (m_commandHandler s);
          let s := mkServer h (m_clientSocket s) in
          if commandLength =? code WMT_CLOSE_SOCKET then Ret (inl (code WMT_CLOSE_SOCKET), s)
          else if commandLength =? code WMT_STRING_ERR then
            '(_, w) ← SendData GENERAL_FAILURE_MESSAGE (m_clientSocket s);
            handle_commands cs' (mkServer h w)
          else if 0 <? commandLength then
            '(result, w) ← SendData (take (Z.to_nat commandLength) buffer) (m_clientSocket s);
            let s := mkServer h w in
            if (result =? code WMT_SOCKET_ERR) || (result =? code WMT_SOCKET_CLOSED) then Ret (inl result, s)
            else handle_commands cs' s
          else handle_commands cs' s
  end.

(** @src src/spkcal/cirrus/tools/wbridge/Server.cpp:394-458 HandleConnection (the loop)
    At most [fuel] rounds with at most [fuel] calls of [recv] each. *)
Fixpoint connection_loop (fuel k : nat) (cs : list CBufferedCommand) (s : CServer) : outcome (Z * CServer) :=
  match k with
  | O => OutOfFuel
  | S k' =>
      '(status, cs, w) ← ReceiveCommand fuel cs (m_clientSocket s);
      let s := mkServer (m_commandHandler s) w in
      if status =? code WMT_SOCKET_ERR then Ret (code WMT_SOCKET_ERR, s)
      else if status =? code WMT_SOCKET_CLOSED then Ret (code WMT_SOCKET_CLOSED, s)
      else
        match cs with
        | [] => Abort
        | _ =>
            '(r, s) ← handle_commands cs s;
            match r with
            | inl result => Ret (result, s)
            | inr cs => connection_loop fuel k' cs s
            end
        end
  end.

(** @src src/spkcal/cirrus/tools/wbridge/Server.cpp:380-465 HandleConnection *)
Definition HandleConnection (fuel : nat) (s : CServer) : outcome (Z * CServer) :=
  '(result, s) ← SendWelcome s;
  if (result =? code WMT_SOCKET_ERR) || (result =? code WMT_SOCKET_CLOSED) then Ret (result, s)
  else connection_loop fuel fuel [] s.
End Server.
Arguments CServer : clear implicits.

(** ** A socket with a script *)

(** Chunks of bytes that arrive one after the other, before the peer closes the
    connection, and the bytes sent so far; everything can be sent at once. *)
Record script := mkScript { chunks : list (list Z); sent : list Z }.

Definition script_recv (n : Z) (w : script) : Z * list Z * script :=
  match chunks w with
  | [] => (0, [], w)
  | c :: cs =>
      let bs := take (Z.to_nat n) c in
      (Z.of_nat (length bs), bs,
       mkScript (match drop (Z.to_nat n) c with [] => cs | c' => c' :: cs end) (sent w))
  end.
Definition script_send (bs : list Z) (w : script) : Z * script :=
  (Z.of_nat (length bs), mkScript (chunks w) (sent w ++ bs)).

#[export] Instance script_socket : Socket script :=
  { recv := script_recv; send := script_send; errno_EINTR _ := false }.
