(* ===== verification/WbServerSpec.v ===== *)
(** * How the server cuts a connection into commands

    A client that waits for the reply before it sends the next command is understood,
    however its bytes are cut into chunks; of commands sent together every one but the
    first loses its first byte; long and empty lines bring the server down.  At the end,
    a whole connection: bytes in, bytes out. *)
From S2P Require Import Prelude DevStdlib DevArrays WbString WbResult WbCommand WbDevice WbHandler WbHandlerSpec WbSession WbServer.
From stdpp Require Import strings.
#[local] Open Scope Z_scope.

(** ** The receive buffer *)

(** The bytes received, zeros behind them, and the byte that is never written. *)
Definition holding (bs : list Z) : memory :=
  (Some <$> bs) ++ replicate (INITIAL_BUFFER_LENGTH - length bs) (Some 0) ++ [None].
Definition received (bs : list Z) : receiving :=
  mkReceiving (holding bs) INITIAL_BUFFER_LENGTH (Z.of_nat (length bs)) (Z.of_nat (INITIAL_BUFFER_LENGTH - length bs)).

(** Neither a zero byte nor a newline. *)
Definition plain_text (s : list Z) : Prop := Forall (λ c, c ≠ 0 ∧ c ≠ 10) s.

Lemma search_run s rest i : plain_text s → search 10 ((Some <$> s) ++ rest) i = search 10 rest (i + length s).
Proof.
  intros Hs. revert i. induction Hs as [|c s [H0 H10] _ IH]; intros i; [by rewrite Nat.add_0_r|].
  cbn [fmap list_fmap app search length]. destruct (Z.eqb_spec c 10), (Z.eqb_spec c 0); try done. rewrite IH. f_equal. lia.
Qed.

Lemma search_zeros k rest i : (0 < k)%nat → search 10 (replicate k (Some 0) ++ rest) i = Ret None.
Proof. by destruct k; [lia|]. Qed.

Lemma strchr_from pre s rest : strchr ((Some <$> pre) ++ s ++ rest) (length pre) 10 = search 10 (s ++ rest) (length pre).
Proof. unfold strchr. by rewrite drop_app_length' by by rewrite length_fmap. Qed.

(** The next newline behind some bytes. *)
Lemma strchr_line pre c tl : plain_text c →
  strchr (holding (pre ++ c ++ 10 :: tl)) (length pre) 10 = Ret (Some (length pre + length c)%nat).
Proof.
  intros Hc. unfold holding. rewrite fmap_app, <-app_assoc, fmap_app, <-app_assoc. rewrite strchr_from, search_run by done.
  done.
Qed.

(** There is none when the bytes have none, as long as a zero follows. *)
Lemma strchr_none pre c : plain_text c → (length (pre ++ c) < INITIAL_BUFFER_LENGTH)%nat →
  strchr (holding (pre ++ c)) (length pre) 10 = Ret None.
Proof.
  intros Hc Hl. unfold holding. rewrite fmap_app, <-app_assoc, strchr_from, search_run by done. apply search_zeros. lia.
Qed.

Lemma length_holding bs : (length bs ≤ INITIAL_BUFFER_LENGTH)%nat → length (holding bs) = S INITIAL_BUFFER_LENGTH.
Proof. intros Hl. unfold holding. rewrite !length_app, length_fmap, length_replicate. cbn [length]. lia. Qed.

Lemma memcpy_to_holding bs c : (length bs + length c ≤ INITIAL_BUFFER_LENGTH)%nat →
  memcpy_to (holding bs) (length bs) c = Ret (holding (bs ++ c)).
Proof.
  intros Hl. unfold memcpy_to. rewrite length_holding by lia. destruct (Nat.leb_spec (length bs + length c) (S INITIAL_BUFFER_LENGTH)); [|lia]. f_equal.
  unfold holding, splice. rewrite take_app_length' by by rewrite length_fmap.
  rewrite fmap_app, <-app_assoc. f_equal. f_equal. rewrite length_fmap.
  rewrite drop_app_ge by (rewrite length_fmap; lia). rewrite length_fmap.
  replace (length bs + length c - length bs)%nat with (length c) by lia.
  rewrite drop_app_le by (rewrite length_replicate; lia). rewrite drop_replicate, length_app. f_equal. f_equal. lia.
Qed.

Lemma load_bytes_some s rest : load_bytes (take (length s) ((Some <$> s) ++ rest)) = Ret s.
Proof. induction s as [|x s IH]; [done|]. cbn. by rewrite IH. Qed.

Lemma memcpy_from_holding pre c tl : (length (pre ++ c ++ tl) ≤ INITIAL_BUFFER_LENGTH)%nat →
  memcpy_from (holding (pre ++ c ++ tl)) (length pre) (length c) = Ret c.
Proof.
  intros Hl. unfold memcpy_from. rewrite length_holding by done. rewrite !length_app in Hl.
  destruct (Nat.leb_spec (length pre + length c) (S INITIAL_BUFFER_LENGTH)); [|lia].
  unfold holding. rewrite !fmap_app, <-!app_assoc. rewrite drop_app_length' by by rewrite length_fmap. apply load_bytes_some.
Qed.

(** ** One command at a time *)

Lemma script_recv_whole c cs got out : (length got + length c ≤ INITIAL_BUFFER_LENGTH)%nat →
  script_recv (bufferRemaining (received got)) (mkScript (c :: cs) out) = (Z.of_nat (length c), c, mkScript cs out).
Proof.
  intros Hl. unfold script_recv. cbn [chunks sent].
  change (bufferRemaining (received got)) with (Z.of_nat (INITIAL_BUFFER_LENGTH - length got)). rewrite Nat2Z.id.
  rewrite firstn_all2 by lia. by rewrite drop_ge by lia.
Qed.

(** One call of [recv] with a chunk that fits. *)
Lemma receive_step fuel got c cs out : c ≠ [] → (length got + length c < INITIAL_BUFFER_LENGTH)%nat →
  receive_loop (S fuel) (received got) (mkScript (c :: cs) out) =
    (pEnd ← strchr (holding (got ++ c)) 0 10;
     match pEnd with
     | Some i => Ret (inr (received (got ++ c), i), mkScript cs out)
     | None => receive_loop fuel (received (got ++ c)) (mkScript cs out)
     end).
Proof.
  intros Hc Hl. cbn [receive_loop]. change (recv ?n ?w) with (script_recv n w). rewrite script_recv_whole by lia.
  assert (Hpos : (0 < length c)%nat) by (destruct c; [done|cbn; lia]).
  destruct (Z.eqb_spec (Z.of_nat (length c)) (code WMT_SOCKET_ERR)) as [Ee|_]; [cbn in Ee; lia|].
  destruct (Z.eqb_spec (Z.of_nat (length c)) (code WMT_SOCKET_CLOSED)) as [Ee|_]; [cbn in Ee; lia|]. cbn [orb].
  change (buffer (received got)) with (holding got). change (receivedData (received got)) with (Z.of_nat (length got)).
  rewrite Nat2Z.id, memcpy_to_holding by lia. cbn [mbind outcome_bind].
  assert (mkReceiving (holding (got ++ c)) (bufferLength (received got)) (Z.of_nat (length got) + Z.of_nat (length c))
    (bufferRemaining (received got) - Z.of_nat (length c)) = received (got ++ c)) as ->.
  { unfold received. rewrite length_app. cbn [bufferLength bufferRemaining]. f_equal; lia. }
  change (buffer (received (got ++ c))) with (holding (got ++ c)). change COMMAND_END_CHAR with 10.
  destruct (strchr (holding (got ++ c)) 0 10) as [[i|]| | | |]; cbn [mbind outcome_bind]; try done.
  destruct (Z.eqb_spec (bufferRemaining (received (got ++ c))) 0) as [E|_]; [|done].
  unfold received in E. cbn [bufferRemaining] in E. rewrite length_app in E. lia.
Qed.

(** Chunks up to the first newline, after [got]: what is behind the newline was sent together with it. *)
Lemma receive_loop_lines (cmd tl : list Z) cs c got fuel more out : plain_text cmd → (length (cmd ++ 10%Z :: tl) < INITIAL_BUFFER_LENGTH)%nat →
  Forall (λ c, c ≠ []) cs → c ≠ [] → got ++ concat cs `prefix_of` cmd → got ++ concat cs ++ c = cmd ++ 10 :: tl → (length cs < fuel)%nat →
  receive_loop fuel (received got) (mkScript (cs ++ c :: more) out) = Ret (inr (received (cmd ++ 10 :: tl), length cmd), mkScript more out).
Proof.
  intros Hcmd Hlen Hcs Hc. revert got fuel. induction Hcs as [|c' cs Hc' Hcs IH]; intros got fuel Hp E Hf;
    (destruct fuel as [|fuel]; [cbn in Hf; lia|]); pose proof (f_equal length E) as Hl; cbn [concat app] in *;
    rewrite !length_app in Hl; rewrite length_app in Hlen; cbn [length] in Hl, Hlen; rewrite receive_step by (done || lia).
  - rewrite E. pose proof (strchr_line [] cmd tl Hcmd) as Es. cbn [app length Nat.add] in Es. by rewrite Es.
  - rewrite app_assoc in Hp. destruct Hp as [z Hz].
    assert (Hgc : plain_text (got ++ c')) by (rewrite Hz, <-app_assoc in Hcmd; by apply Forall_app in Hcmd as [? _]).
    pose proof (strchr_none [] (got ++ c') Hgc ltac:(cbn [app]; rewrite length_app; lia)) as Es. cbn [app length] in Es.
    rewrite Es. cbn [mbind outcome_bind]. apply IH; [by exists z|by rewrite <-E, <-!app_assoc|cbn [length] in Hf; lia].
Qed.

(** ** Cutting the buffer *)

(** The bytes of some lines. *)
Definition lines_bytes (ls : list (list Z)) : list Z := concat ((λ l, l ++ [10]) <$> ls).
Definition command_of (c : list Z) : CBufferedCommand := mkBuffered (drop_return (c ++ [10])) true.

Lemma lines_cons l ls : lines_bytes (l :: ls) = l ++ 10 :: lines_bytes ls.
Proof. unfold lines_bytes. cbn [fmap list_fmap concat]. by rewrite <-app_assoc. Qed.

Lemma cut_step fuel (pre c tl : list Z) : c ≠ [] → (length (pre ++ c ++ 10%Z :: tl) < INITIAL_BUFFER_LENGTH)%nat →
  let bs := pre ++ c ++ 10 :: tl in
  let pStr := (length pre + length c + 1 + 1)%nat in
  cut_commands (S fuel) (received bs) (length pre) (Some (length pre + length c)%nat) =
    if (INITIAL_BUFFER_LENGTH <=? pStr)%nat then Ret [command_of c]
    else
      pEnd ← strchr (holding bs) pStr 10;
      rest ← cut_commands fuel (received bs) pStr pEnd;
      Ret (command_of c :: rest).
Proof.
  intros Hc Hl bs pStr. cbn [cut_commands]. assert (Hpos : (0 < length c)%nat) by (destruct c; [done|cbn; lia]).
  destruct (Nat.ltb_spec (length pre + length c - length pre) 1); [lia|].
  replace (length pre + length c - length pre + 1)%nat with (length (c ++ [10%Z])) by (rewrite length_app; cbn [length]; lia).
  change (buffer (received bs)) with (holding bs). unfold bs. replace (c ++ 10 :: tl) with ((c ++ [10]) ++ tl) by by rewrite <-app_assoc.
  rewrite memcpy_from_holding by (rewrite <-app_assoc; cbn [app]; lia). cbn [mbind outcome_bind].
  replace (length pre + length (c ++ [10%Z]) + 1)%nat with pStr by (unfold pStr; rewrite length_app; cbn [length]; lia). done.
Qed.

(** Behind the last line there is nothing. *)
Lemma cut_last fuel (pre c : list Z) : c ≠ [] → (length (pre ++ c ++ [10%Z]) < INITIAL_BUFFER_LENGTH)%nat →
  cut_commands (S (S fuel)) (received (pre ++ c ++ [10])) (length pre) (Some (length pre + length c)%nat) = Ret [command_of c].
Proof.
  intros Hc Hl. rewrite cut_step by done. cbv zeta. pose proof Hl as Hl'. rewrite !length_app in Hl'. cbn [length] in Hl'.
  destruct (Nat.leb_spec INITIAL_BUFFER_LENGTH (length pre + length c + 1 + 1)) as [|Hs]; [done|].
  assert (strchr (holding (pre ++ c ++ [10])) (length pre + length c + 1 + 1) 10 = Ret None) as ->.
  { unfold strchr, holding. rewrite drop_app_ge by (rewrite length_fmap, !length_app; cbn [length]; lia).
    rewrite length_fmap, !length_app. cbn [length]. rewrite drop_app_le by (rewrite length_replicate; lia).
    rewrite drop_replicate. apply search_zeros. lia. }
  cbn [mbind outcome_bind cut_commands received receivedData]. rewrite !length_app. cbn [length].
  destruct (Z.leb_spec (Z.of_nat (length pre + (length c + 1)) - Z.of_nat (length pre + length c + 1 + 1) - 1) 0); [done|lia].
Qed.

(** Every line after the first is taken without its first byte. *)
Lemma cut_lines ls pre c fuel : c ≠ [] → Forall (λ l, plain_text l ∧ tail l ≠ []) ls → (length ls < fuel)%nat →
  (length (pre ++ lines_bytes (c :: ls)) < INITIAL_BUFFER_LENGTH)%nat →
  cut_commands (S fuel) (received (pre ++ lines_bytes (c :: ls))) (length pre) (Some (length pre + length c)%nat) =
    Ret (command_of <$> c :: (tail <$> ls)).
Proof.
  intros Hc Hls. revert pre c fuel Hc. induction Hls as [|l ls [Hl Htl] Hls IH]; intros pre c fuel Hc Hf Hlen.
  - destruct fuel as [|fuel]; [cbn in Hf; lia|]. unfold lines_bytes in *. cbn [fmap list_fmap concat] in *. rewrite app_nil_r in *.
    by apply cut_last.
  - destruct fuel as [|fuel]; [cbn in Hf; lia|]. destruct l as [|x l]; [done|]. cbn [tail] in Htl.
    assert (Eb : lines_bytes (c :: (x :: l) :: ls) = c ++ 10 :: x :: lines_bytes (l :: ls)).
    { by rewrite !lines_cons. }
    rewrite Eb in *. rewrite cut_step by done. cbv zeta.
    assert (Es : pre ++ c ++ 10 :: x :: lines_bytes (l :: ls) = (pre ++ c ++ [10; x]) ++ lines_bytes (l :: ls)) by by rewrite <-!app_assoc.
    rewrite Es in *. replace (length pre + length c + 1 + 1)%nat with (length (pre ++ c ++ [10%Z; x])) by (rewrite !length_app; cbn [length]; lia).
    pose proof Hlen as Hlen'. rewrite length_app in Hlen'.
    destruct (Nat.leb_spec INITIAL_BUFFER_LENGTH (length (pre ++ c ++ [10%Z; x]))); [lia|].
    apply Forall_cons_1 in Hl as [_ Hl]. pose proof (strchr_line (pre ++ c ++ [10; x]) l (lines_bytes ls) Hl) as El. rewrite <-lines_cons in El.
    rewrite El. cbn [mbind outcome_bind]. rewrite IH by (done || (cbn [length] in Hf; lia)). done.
Qed.

(** What [recv] delivers up to the chunk with the first newline becomes commands: the
    first line, however it was cut into chunks, is one of them, unchanged; of every line
    that was sent together with it the first byte is lost. *)
Theorem ReceiveCommand_lines (c : list Z) (ls cs : list (list Z)) (end_ : list Z) (fuel : nat) (more : list (list Z)) (out : list Z) :
  plain_text c → c ≠ [] → Forall (λ l, plain_text l ∧ tail l ≠ []) ls →
  (length (lines_bytes (c :: ls)) < INITIAL_BUFFER_LENGTH)%nat →
  Forall (λ b, b ≠ []) cs → end_ ≠ [] → concat cs `prefix_of` c → concat cs ++ end_ = lines_bytes (c :: ls) → (length cs < fuel)%nat →
  ReceiveCommand fuel [] (mkScript (cs ++ end_ :: more) out) =
    Ret (Z.of_nat (length (lines_bytes (c :: ls))), command_of <$> c :: (tail <$> ls), mkScript more out).
Proof.
  intros Hp Hc Hls Hlen Hcs He Hpre E Hf. unfold ReceiveCommand. change (mkReceiving _ _ _ _) with (received []). cbn [mbind outcome_bind].
  pose proof (lines_cons c ls) as Eb.
  rewrite Eb in *. rewrite (receive_loop_lines c (lines_bytes ls)) by done. cbn [mbind outcome_bind].
  pose proof (cut_lines ls [] c INITIAL_BUFFER_LENGTH Hc Hls) as Ec. rewrite Eb in Ec. cbn [app length Nat.add] in Ec.
  rewrite Ec; [|  |done].
  - cbn [mbind outcome_bind received receivedData]. f_equal. f_equal. f_equal. apply s32_small. unfold INITIAL_BUFFER_LENGTH, INT_MIN, INT_MAX in *. lia.
  - clear -Hlen. rewrite length_app in Hlen. cbn [length] in Hlen. assert (length ls ≤ length (lines_bytes ls))%nat; [|lia].
    clear. induction ls as [|l ls IH]; [done|]. rewrite lines_cons, length_app. cbn [length]. lia.
Qed.

(** ** A connection *)

Lemma send_script message w : message ≠ [] → Z.of_nat (length message) ≤ INT_MAX →
  SendData message w = Ret (Z.of_nat (length message), mkScript (chunks w) (sent w ++ message)).
Proof.
  intros Hm Hl. unfold SendData. destruct message as [|x s]; [done|]. set (message := x :: s) in *.
  assert (Hk : (0 < length message)%nat) by (cbn; lia). destruct (length message) as [|k] eqn:Ek; [lia|].
  assert (send_loop (S k) message 0 w = Ret (Z.of_nat (S k), mkScript (chunks w) (sent w ++ message))) as ->.
  { unfold message at 1. cbn [send_loop]. change (x :: s) with message. change (send ?b ?w) with (script_send b w). unfold script_send.
    rewrite Ek. destruct (Z.eqb_spec (Z.of_nat (S k)) (code WMT_SOCKET_ERR)) as [Ee|_]; [cbn in Ee; lia|].
    destruct (Z.eqb_spec (Z.of_nat (S k)) (code WMT_SOCKET_CLOSED)) as [Ee|_]; [cbn in Ee; lia|]. cbn [orb].
    rewrite drop_ge by lia. by destruct k. }
  cbn [mbind outcome_bind]. rewrite s32_small by (unfold INT_MIN, INT_MAX in *; lia). done.
Qed.

(** Printed characters: no control character among them. *)
Definition printed_text (s : list Z) : Prop := Forall (λ c, 32 ≤ c) s.

Lemma printed_plain s : printed_text s → plain_text s.
Proof. intros Hs. eapply Forall_impl; [exact Hs|]. cbn. lia. Qed.
Lemma printed_no_nul s : printed_text s → no_nul (s ++ [10]).
Proof.
  intros Hs. rewrite no_nul_app. split; [|unfold no_nul; by apply (bool_decide_unpack _); vm_compute].
  intros Hin. unfold printed_text in Hs. rewrite Forall_forall in Hs. specialize (Hs 0 Hin). lia.
Qed.
Lemma printed_drop_return s : printed_text s → drop_return (s ++ [10]) = s ++ [10].
Proof.
  intros Hs. unfold drop_return. rewrite bool_decide_eq_false_2; [done|]. intros E. apply list_elem_of_lookup_2 in E as Hin.
  apply elem_of_app in Hin as [Hin|Hin].
  - unfold printed_text in Hs. rewrite Forall_forall in Hs. specialize (Hs 13 Hin). lia.
  - by apply list_elem_of_singleton in Hin.
Qed.
Lemma hex_printed n : 0 ≤ n < 2 ^ 32 → printed_text (print_hex 8 n).
Proof.
  intros Hn. destruct (print_hex_value 8 n Hn ltac:(lia)) as [Hv _]. eapply Forall_impl; [by eapply hex_value_digits|].
  intros c Hc. cbn. destruct (Z.leb_spec 32 c) as [|Hs]; [done|]. exfalso. revert Hc. unfold IsHexDigit. lia.
Qed.

(** A request as bytes, without its newline. *)
Definition request_line (nq : Z * request) : list Z := sequence_string nq.1 ++ joined [32] (request_words nq.2).
Lemma request_line_text n q : command_text n (request_words q) = request_line (n, q) ++ [10].
Proof. unfold command_text, request_line. by rewrite app_assoc. Qed.

Lemma request_line_ok m nq : request_ok m nq → printed_text (request_line nq) ∧ (length (request_line nq) < 64)%nat.
Proof.
  destruct nq as [n q]. intros [Hn Hq]. cbn [fst snd] in Hn, Hq. unfold request_line, sequence_string, printed_text. cbn [fst snd].
  pose proof (length_print_hex 8 n). split.
  - assert (Forall (λ c, 32 ≤ c) (print_hex 8 n)) by by apply hex_printed.
    destruct q as [a|a v]; cbn [request_words joined];
      rewrite ?Forall_app, ?Forall_cons, ?Forall_app, ?Forall_cons, ?Forall_nil; unfold LBRACKET, RBRACKET;
      repeat match goal with |- _ ∧ _ => split | |- True => done end;
      first [lia|done|by apply hex_printed; tauto|by apply (bool_decide_unpack _); vm_compute|idtac].
  - assert (length (str "r") = 1%nat ∧ length (str "w") = 1%nat) as [Er Ew] by done.
    destruct q as [a|a v]; cbn [request_words joined]; rewrite ?length_app; cbn [length]; rewrite ?length_app, ?Er, ?Ew; cbn [length];
    pose proof (length_print_hex 8 a); try pose proof (length_print_hex 8 v); lia.
Qed.

(** Clients that wait: the chunks in which every request arrives end with its newline. *)
Definition arrives (nq : Z * request) (cs : list (list Z)) : Prop :=
  Forall (λ c, c ≠ []) cs ∧ concat cs = request_line nq ++ [10].

(** What has arrived of a line before its last chunk is a part of the line. *)
Lemma before_end cmd pre (c : list Z) cs : c ≠ [] → pre ++ concat (c :: cs) = cmd ++ [10] → ∃ tl, cmd = pre ++ tl.
Proof.
  intros Hc E. assert (∃ u y, concat (c :: cs) = u ++ [y]) as (u & y & Ey).
  { destruct (concat (c :: cs)) as [|z v] eqn:Ez using rev_ind; [by destruct c|by exists v, z]. }
  rewrite Ey, app_assoc in E. apply app_inj_tail in E as [E _]. by exists u.
Qed.

(** A line that arrives alone is one command. *)
Lemma receive_line cmd cs fuel more out : printed_text cmd → cmd ≠ [] → (length cmd + 2 < INITIAL_BUFFER_LENGTH)%nat →
  Forall (λ c, c ≠ []) cs → concat cs = cmd ++ [10] → (length cs ≤ fuel)%nat →
  ReceiveCommand fuel [] (mkScript (cs ++ more) out) =
    Ret (Z.of_nat (length cmd + 1), [mkBuffered (cmd ++ [10]) true], mkScript more out).
Proof.
  intros Hp Hc Hl Hcs E Hf. destruct cs as [|b cs _] using rev_ind; [by destruct cmd|].
  apply Forall_app in Hcs as [Hcs Hb]. apply Forall_cons_1 in Hb as [Hb _].
  rewrite concat_app in E. cbn [concat] in E. rewrite app_nil_r in E. rewrite length_app in Hf. cbn [length] in Hf.
  unfold ReceiveCommand. change (mkReceiving _ _ _ _) with (received []). cbn [mbind outcome_bind]. rewrite <-app_assoc. cbn [app].
  rewrite (receive_loop_lines cmd []); [|by apply printed_plain|rewrite length_app; cbn [length]; lia|done|done| |done|lia].
  - cbn [mbind outcome_bind]. pose proof (cut_last (INITIAL_BUFFER_LENGTH - 1) [] cmd Hc) as Ec. cbn [app length Nat.add] in Ec.
    rewrite length_app in Ec. cbn [length] in Ec.
    change (S (S (INITIAL_BUFFER_LENGTH - 1))) with (S INITIAL_BUFFER_LENGTH) in Ec. rewrite Ec by lia. cbn [mbind outcome_bind].
    unfold command_of. rewrite printed_drop_return by done. f_equal. f_equal. f_equal.
    change (receivedData _) with (Z.of_nat (length (cmd ++ [10%Z]))). rewrite length_app. cbn [length].
    apply s32_small. unfold INITIAL_BUFFER_LENGTH, INT_MIN, INT_MAX in *. lia.
  - cbn [app]. pose proof (before_end cmd (concat cs) b [] Hb) as Hpre. cbn [concat] in Hpre. rewrite app_nil_r in Hpre.
    destruct (Hpre E) as [tl ->]. by eexists.
Qed.

Section Connection.
Context {D : Type} {device : Device D} {regs : RegisterFile D} {heap : Heap}.

(** What a client sees first. *)
Definition greeting (id : list Z) : list Z :=
  take (INITIAL_BUFFER_LENGTH - 1)
    (APPNAME ++ str " Version " ++ VERSION_STRA ++ [10] ++ str "Copyright (c) " ++ STRYEAR ++ str " Cirrus Logic" ++ [10] ++ c_str id ++ [10]).

Lemma find_device_id_file ids r v d : file_ok d → r ≠ WMT_STRING_ERR →
  ∃ r' v' b d', find_device_id ids r v d = Ret (r', v', b, d') ∧ r' ≠ WMT_STRING_ERR ∧ file_ok d' ∧ file d' = file d.
Proof.
  revert r v d. induction ids as [|i ids IH]; intros r v d Hok Hr; cbn [find_device_id]; [by do 4 eexists|].
  destruct (file_read d i Hok) as (d1 & Hok1 & E1 & ->). cbn [mbind outcome_bind].
  destruct (file d !! i) as [x|]; cbn [mbind outcome_bind].
  - case_match; [by do 4 eexists|]. destruct (IH WMT_SUCCESS (default v (Some x)) d1) as (? & ? & ? & ? & ? & ? & ? & E2); [done..|].
    do 4 eexists. split_and!; [done|done|done|by rewrite E2].
  - destruct (IH WMT_REG_NOT_PRESENT (default v None) d1) as (? & ? & ? & ? & ? & ? & ? & E2); [done..|].
    do 4 eexists. split_and!; [done|done|done|by rewrite E2].
Qed.

Lemma GetDeviceID_file (h : CCommandHandler D) : file_ok (m_device h) →
  ∃ r id h', GetDeviceID [] h = Ret (r, id, h') ∧ r ≠ WMT_STRING_ERR ∧ file_ok (m_device h') ∧ file (m_device h') = file (m_device h).
Proof.
  intros Hok. unfold GetDeviceID.
  destruct (find_device_id_file [0x0; 0xF; 0x4000; 0xF000] WMT_SUCCESS 0 (m_device h) Hok) as (r & v & b & d & -> & Hr & Hd & Ed); [done|].
  cbn [mbind outcome_bind]. case_match; [|by do 3 eexists]. unfold snprintf.
  destruct (Z.eqb_spec (Z.of_nat (length (str "WM" ++ print_4X (u32 v)))) (code WMT_STRING_ERR)) as [E|_]; [cbn [code] in E; lia|].
  by do 3 eexists.
Qed.

Lemma SendWelcome_file (h : CCommandHandler D) w : file_ok (m_device h) →
  ∃ r id n h', GetDeviceID [] h = Ret (r, id, h') ∧ 0 < n ∧
    SendWelcome (mkServer h w) = Ret (n, mkServer h' (mkScript (chunks w) (sent w ++ greeting id))) ∧
    file_ok (m_device h') ∧ file (m_device h') = file (m_device h).
Proof.
  intros Hok. destruct (GetDeviceID_file h Hok) as (r & id & h' & E & Hr & Hok' & Ef).
  exists r, id, (Z.of_nat (length (greeting id))), h'. split; [done|].
  assert (Hne : greeting id ≠ []) by (unfold greeting; by cbn).
  split; [destruct (greeting id); [done|cbn [length]; lia]|]. split; [|done].
  unfold SendWelcome. cbn [m_commandHandler]. rewrite E. cbn [mbind outcome_bind]. rewrite bool_decide_eq_false_2 by done.
  unfold snprintf. match goal with |- context [Z.of_nat (length ?t) =? _] => destruct (Z.eqb_spec (Z.of_nat (length t)) (code WMT_STRING_ERR)) as [Ee|_] end;
    [cbn [code] in Ee; lia|].
  cbn [m_clientSocket]. fold (greeting id). rewrite send_script; [done|done|].
  unfold greeting. rewrite length_take. unfold INITIAL_BUFFER_LENGTH, INT_MAX. lia.
Qed.

(** The answers are short. *)
Lemma answer_length n q m : request_ok m (n, q) → map_Forall (λ _ v, 0 ≤ v < 2 ^ 32) m →
  (answer n q m).1 ≠ [] ∧ (length (answer n q m).1 < 64)%nat.
Proof.
  intros [Hn Hq] Hm. pose proof (length_print_hex 8 n). cbn [fst snd] in Hn, Hq.
  assert (∃ t, (answer n q m).1 = sequence_string n ++ t ∧ (length t < 32)%nat) as (t & -> & Ht).
  { destruct q as [a|a v]; cbn [answer fst]; [|exists (line "Ok"); split; [done|cbn; lia]].
    destruct (m !! a) as [v|]; eexists; (split; [done|]); [|cbn; lia].
    rewrite length_app. unfold print_x. pose proof (length_hex_lower 8 v). cbn [length]. lia. }
  unfold sequence_string. split; [done|]. rewrite length_app. cbn [length]. rewrite length_app. cbn [length]. lia.
Qed.

(** One round for one request. *)
Lemma connection_round fuel k nq cs more (h : CCommandHandler D) out m :
  file_ok (m_device h) → file (m_device h) = m → map_Forall (λ _ v, 0 ≤ v < 2 ^ 32) m → request_ok m nq → arrives nq cs → (length cs ≤ fuel)%nat →
  ∃ h', connection_loop fuel (S k) [] (mkServer h (mkScript (cs ++ more) out)) =
      connection_loop fuel k [] (mkServer h' (mkScript more (out ++ (answer nq.1 nq.2 m).1))) ∧
    file_ok (m_device h') ∧ file (m_device h') = (answer nq.1 nq.2 m).2.
Proof.
  intros Hok Hm Hb Hq [Hcs E] Hf. destruct nq as [n q]. destruct (request_line_ok m (n, q) Hq) as [Hp Hl].
  destruct (answer_request n q h m Hok) as (h' & Eh & Hok' & Ef); [by rewrite Hm|done|]. exists h'. split; [|done].
  cbn [connection_loop m_clientSocket m_commandHandler fst snd].
  rewrite (receive_line (request_line (n, q))); [|done|done|unfold INITIAL_BUFFER_LENGTH; lia|done|done|done]. cbn [mbind outcome_bind].
  destruct (Z.eqb_spec (Z.of_nat (length (request_line (n, q)) + 1)) (code WMT_SOCKET_ERR)) as [Ee|_]; [cbn [code] in Ee; lia|].
  destruct (Z.eqb_spec (Z.of_nat (length (request_line (n, q)) + 1)) (code WMT_SOCKET_CLOSED)) as [Ee|_]; [cbn [code] in Ee; lia|].
  cbn [handle_commands complete negb text]. rewrite c_str_id by by apply printed_no_nul. rewrite Nat.eqb_refl. cbn [negb m_commandHandler].
  rewrite <-request_line_text, Eh. cbn [mbind outcome_bind m_clientSocket].
  destruct (answer_length n q m Hq Hb) as [Hne Hlen]. set (t := (answer n q m).1) in *.
  assert (reply_length t = Z.of_nat (length t)) as -> by (apply s32_small; unfold INT_MIN, INT_MAX; lia).
  assert (Hpos : (0 < length t)%nat) by (destruct t; [done|cbn [length]; lia]).
  destruct (Z.eqb_spec (Z.of_nat (length t)) (code WMT_CLOSE_SOCKET)) as [Ee|_]; [cbn [code] in Ee; lia|].
  destruct (Z.eqb_spec (Z.of_nat (length t)) (code WMT_STRING_ERR)) as [Ee|Hne1]; [cbn [code] in Ee; lia|].
  destruct (Z.ltb_spec 0 (Z.of_nat (length t))); [|lia]. rewrite Nat2Z.id, firstn_all, send_script by (done || (unfold INT_MAX; lia)).
  cbn [mbind outcome_bind chunks sent].
  destruct (Z.eqb_spec (Z.of_nat (length t)) (code WMT_SOCKET_ERR)) as [Ee|_]; [cbn [code] in Ee; lia|].
  destruct (Z.eqb_spec (Z.of_nat (length t)) (code WMT_SOCKET_CLOSED)) as [Ee|_]; [cbn [code] in Ee; lia|]. done.
Qed.

(** The register file keeps to 32 bits, and to its registers. *)
Lemma answer_keeps m n q nq' : request_ok m (n, q) → map_Forall (λ _ v, 0 ≤ v < 2 ^ 32) m →
  map_Forall (λ _ v, 0 ≤ v < 2 ^ 32) (answer n q m).2 ∧ (request_ok m nq' → request_ok (answer n q m).2 nq').
Proof.
  intros [_ Hq] Hm. cbn [snd] in Hq. destruct q as [a|a v]; cbn [answer snd]; [done|].
  destruct Hq as (_ & Hv & _). split; [by apply map_Forall_insert_2|]. destruct nq' as [n' [a'|a' v']]; [done|].
  intros (? & ? & ? & Hs). repeat (split; [done|]). cbn [fst snd] in *. rewrite lookup_insert_is_Some'. by right.
Qed.

Lemma connection_requests fuel qs css k (h : CCommandHandler D) out m :
  file_ok (m_device h) → file (m_device h) = m → map_Forall (λ _ v, 0 ≤ v < 2 ^ 32) m → Forall (request_ok m) qs →
  Forall2 arrives qs css → Forall (λ cs, length cs ≤ fuel)%nat css → (0 < fuel)%nat → (length qs < k)%nat →
  ∃ h', connection_loop fuel k [] (mkServer h (mkScript (concat css) out)) =
      Ret (code WMT_SOCKET_CLOSED, mkServer h' (mkScript [] (out ++ concat (answers_of qs m).1))) ∧
    file (m_device h') = (answers_of qs m).2.
Proof.
  intros Hok Hm Hb Hqs Ha Hcs Hf. revert k h out m Hok Hm Hb Hqs Hcs. induction Ha as [|nq cs qs css Hnq Ha IH]; intros k h out m Hok Hm Hb Hqs Hcs Hk.
  - destruct k as [|k]; [cbn in Hk; lia|]. destruct fuel as [|fuel]; [lia|]. exists h. split; [|done].
    cbn [answers_of fst concat]. by rewrite app_nil_r.
  - destruct k as [|k]; [cbn in Hk; lia|]. cbn [concat length] in *. apply Forall_cons_1 in Hqs as [Hq Hqs]. apply Forall_cons_1 in Hcs as [Hc Hcs].
    destruct (connection_round fuel k nq cs (concat css) h out m Hok Hm Hb Hq Hnq Hc) as (h1 & -> & Hok1 & E1). destruct nq as [n q].
    cbn [fst snd answers_of] in *. destruct (answer_keeps m n q (0, q) Hq Hb) as [Hb1 _].
    destruct (IH k h1 (out ++ (answer n q m).1) (answer n q m).2 Hok1 E1 Hb1) as (h2 & -> & E2); [|done|lia|].
    { eapply Forall_impl; [exact Hqs|]. intros nq' Hq'. by apply (answer_keeps m n q nq' Hq Hb). }
    exists h2. destruct (answer n q m) as [t m1]. cbn [fst snd] in *. destruct (answers_of qs m1) as [ts m2]. cbn [fst snd concat] in *.
    split; [by rewrite <-app_assoc|done].
Qed.

(** A connection whose device is a register file. *)
Lemma connection_served (qs : list (Z * request)) (css : list (list (list Z))) (h : CCommandHandler D) (m : gmap Z Z) (fuel : nat) :
  file_ok (m_device h) → file (m_device h) = m → Forall (request_ok m) qs → Forall2 arrives qs css →
  (length (concat css) + length qs < fuel)%nat →
  ∃ r id h1 h2, GetDeviceID [] h = Ret (r, id, h1) ∧
    HandleConnection fuel (mkServer h (mkScript (concat css) [])) =
      Ret (code WMT_SOCKET_CLOSED, mkServer h2 (mkScript [] (greeting id ++ concat (answers_of qs m).1))) ∧
    file (m_device h2) = (answers_of qs m).2.
Proof.
  intros Hok Hm Hqs Ha Hf. destruct (SendWelcome_file h (mkScript (concat css) []) Hok) as (r & id & n & h1 & Ei & Hn & Ew & Hok1 & E1).
  destruct (connection_requests fuel qs css fuel h1 (greeting id) m) as (h2 & Ec & E2); [done|congruence| |done|done| |lia|lia|].
  - intros a v Ha'. eapply file_bounded; [exact Hok|]. by rewrite Hm.
  - clear -Hf. induction css as [|cs css IH]; constructor; cbn [concat] in Hf; rewrite length_app in Hf; [lia|]. apply IH. lia.
  - exists r, id, h1, h2. split; [done|]. split; [|done]. unfold HandleConnection. rewrite Ew. cbn [mbind outcome_bind].
    destruct (Z.eqb_spec n (code WMT_SOCKET_ERR)) as [Ee|_]; [cbn [code] in Ee; lia|].
    destruct (Z.eqb_spec n (code WMT_SOCKET_CLOSED)) as [Ee|_]; [cbn [code] in Ee; lia|]. exact Ec.
Qed.

(** A client that sends a numbered request, in any chunks, only after the reply to the
    one before, and then closes, is served to the end: it receives the greeting and, byte
    for byte, the answers of a register file that starts with the device's registers. *)
Theorem HandleConnection_serves (qs : list (Z * request)) (css : list (list (list Z))) (h : CCommandHandler D) (m : gmap Z Z) (fuel : nat) :
  file_ok (m_device h) → file (m_device h) = m → Forall (request_ok m) qs → Forall2 arrives qs css →
  (length (concat css) + length qs < fuel)%nat →
  ∃ r id h1 h2, GetDeviceID [] h = Ret (r, id, h1) ∧
    HandleConnection fuel (mkServer h (mkScript (concat css) [])) =
      Ret (code WMT_SOCKET_CLOSED, mkServer h2 (mkScript [] (greeting id ++ concat (answers_of qs m).1))) ∧
    file (m_device h2) = (answers_of qs m).2.
Proof. apply connection_served. Qed.
End Connection.

(** ** Witnesses *)

Definition two_requests : list (Z * request) := [(1, QWrite 0x12 0xabc); (2, QRead 0x12)].
Definition in_chunks : list (list (list Z)) := [[str "[1] w 1"; str "2 ABC" ++ [10]]; [str "[2] r 12" ++ [10]]].

Lemma HandleConnection_serves_witness : ∃ h2 : CCommandHandler plain,
  HandleConnection 8 (mkServer (mkHandler (mkPlain {[0x12 := 0]} []) DEFAULT_VERSION) (mkScript (concat in_chunks) [])) =
    Ret (0, mkServer h2 (mkScript [] (greeting (str "unknown") ++ str "[1] Ok" ++ [10] ++ str "[2] abc" ++ [10]))) ∧
  plain_regs (m_device h2) = {[0x12 := 0xabc]}.
Proof.
  destruct (HandleConnection_serves two_requests in_chunks (mkHandler (mkPlain {[0x12 := 0]} []) DEFAULT_VERSION) {[0x12 := 0]} 8)
    as (r & id & h1 & h2 & Ei & E & Ef).
  - cbn. apply map_Forall_singleton. lia.
  - done.
  - repeat constructor; cbn; lia || (by eexists) || done.
  - repeat constructor; done || by vm_compute.
  - by apply Nat.ltb_lt; vm_compute.
  - exists h2. assert (id = str "unknown") as ->.
    { vm_compute in Ei. by injection Ei as _ <- _. }
    split; [exact E|]. etrans; [exact Ef|]. by vm_compute.
Defined.

Definition together : list Z := lines_bytes [str "r 1"; str "r 2"; str "r 3"].

Lemma ReceiveCommand_lines_witness :
  ReceiveCommand 2 [] (mkScript [str "r "; drop 2 together] []) =
    Ret (12, [mkBuffered (line "r 1") true; mkBuffered (line " 2") true; mkBuffered (line " 3") true], mkScript [] []).
Proof.
  apply (ReceiveCommand_lines (str "r 1") [str "r 2"; str "r 3"] [str "r "] (drop 2 together) 2 [] []);
    by (apply (bool_decide_unpack _); vm_compute).
Defined.
