(* ===== verification/WbUtil.v ===== *)
(** * Register layouts, lines and paths of the WISCE bridge

    Model of [src/spkcal/cirrus/tools/wbridge/WISCEBridgeUtil.cpp]: the layout of a
    register file with its binary search, the parsers of register lines and of the paths of
    codecs.  A C string is the list of its bytes without the terminating zero; arguments
    that every caller takes the address of are values, and the checks that they are not
    null are left out, as are the log lines.  [sscanf] follows the C standard. *)
From S2P Require Import Prelude DevStdlib DevArrays WbString WbResult.
From stdpp Require Import strings.
#[local] Open Scope Z_scope.

(** ** Data *)

Definition MAX_REGISTER : Z := 0xFFFFFFFF.

(** @src src/spkcal/cirrus/tools/wbridge/WISCEBridgeUtil.h:135-141 RegisterLineInfo *)
Record RegisterLineInfo := mkLineInfo { registerAddress : Z; offset : Z; lineLength : Z; lineNumber : Z }.
Abbreviation RegisterLayout := (list RegisterLineInfo).

(** @src src/spkcal/cirrus/tools/wbridge/WISCEBridgeUtil.h:147-154 RegisterSection
    The integers are not initialised when a section is made. *)
Record RegisterSection := mkSection {
  layout : RegisterLayout;
  regPath : list Z;
  bytesPerRegister : option Z;
  addressIncrement : option Z;
  algorithmID : option Z;
}.
Abbreviation RegisterSections := (list RegisterSection).

(** @src src/spkcal/cirrus/tools/wbridge/WISCEBridgeUtil.h:98-105 CCodecPathPair *)
Record CCodecPathPair := mkCodecPath { name : list Z; path : list Z; registerBytes : Z; dspIndex : Z }.

(** ** [sscanf] *)

(** The hexadecimal digits at the front of a string, and what follows them. *)
Fixpoint hex_run (s : list Z) : list Z * list Z :=
  match s with
  | c :: s' => if IsHexDigit c then let '(h, r) := hex_run s' in (c :: h, r) else ([], s)
  | [] => ([], [])
  end.

(** [%x] into an unsigned int: white space, a sign, "0x", digits; [None] when it does not match. *)
Definition scan_x (s : list Z) : option (Z * list Z) :=
  let s := skip_space s in
  let '(neg, s) := match s with
                   | c :: s' => if c =? 45 then (true, s') else if c =? 43 then (false, s') else (false, s)
                   | [] => (false, [])
                   end in
  let s := match s with
           | z :: x :: s' => if (z =? 48) && ((x =? 120) || (x =? 88)) then s' else s
           | _ => s
           end in
  match hex_run s with
  | ([], _) => None
  | (h, r) => let v := Z.min (hex_digits 0 h) ULONG_MAX in Some (u32 (if neg : bool then - v else v), r)
  end.

Definition COLON_CHAR : Z := 58.
Definition DASH_CHAR : Z := 45.

(** [%x%1[:]]: the register, when both fields are read. *)
Definition scan_register (s : list Z) : option Z :=
  '(a, r) ← scan_x s;
  match r with c :: _ => if c =? COLON_CHAR then Some a else None | [] => None end.

(** [%x: %x] and [%x-%x]: both numbers. *)
Definition scan_pair (sep : Z) (s : list Z) : option (Z * Z) :=
  '(a, r) ← scan_x s;
  match r with
  | c :: r => if c =? sep then '(b, _) ← scan_x r; Some (a, b) else None
  | [] => None
  end.

(** The part of a string from the first [c] on. *)
Fixpoint strchr_from (c : Z) (s : list Z) : option (list Z) :=
  match s with
  | x :: s' => if x =? c then Some s else strchr_from c s'
  | [] => None
  end.

(** [strstr]: the part from the first occurrence on. *)
Fixpoint strstr (s p : list Z) : option (list Z) :=
  if starts_with p s then Some s else match s with [] => None | _ :: s' => strstr s' p end.

Definition tolower (c : Z) : Z := if (65 <=? c) && (c <=? 90) then c + 32 else c.
Definition strcasecmp_eq (a b : list Z) : bool := bool_decide (tolower <$> a = tolower <$> b).

(** ** Register lines *)

(** @src src/spkcal/cirrus/tools/wbridge/WISCEBridgeUtil.cpp:895-964 ParseReadValue
    The line for the log must be terminated or have a newline within [PATH_MAX] bytes. *)
Definition ParseReadValue (registerLine : list Z) : outcome (RESULT * option Z) :=
  let pChar := match strchr_from 35 registerLine with Some s => drop 1 s | None => registerLine end in
  match scan_pair COLON_CHAR pChar with
  | None =>
      if (length pChar <? PATH_MAX)%nat || bool_decide (10%Z ∈ take PATH_MAX pChar)
      then Ret (WMT_READ_FAILED, None) else UB
  | Some (_, localValue) => Ret (WMT_SUCCESS, Some localValue)
  end.

Fixpoint skip_blanks (s : list Z) : list Z :=
  match s with c :: s' => if (c =? 32) || (c =? 9) then skip_blanks s' else s | [] => [] end.

(** The number of digits, [X] among them. *)
Fixpoint count_digits (s : list Z) : Z :=
  match s with
  | c :: s' => if IsHexDigit c || (c =? 88) || (c =? 120) then 1 + count_digits s' else 0
  | [] => 0
  end.

(** @src src/spkcal/cirrus/tools/wbridge/WISCEBridgeUtil.cpp:1131-1218 GetBytesPerRegister
    [None] when nothing is stored. *)
Definition GetBytesPerRegister (registerLine : list Z) : RESULT * option Z :=
  match scan_register registerLine with
  | None => (WMT_REG_NOT_PRESENT, None)
  | Some _ =>
      let cPtr := skip_blanks (match strchr_from COLON_CHAR registerLine with Some s => drop 1 s | None => [] end) in
      let bytesPerRegister := u32 ((count_digits cPtr + 1) / 2) in
      if 8 <? bytesPerRegister then (WMT_OUT_OF_RANGE, Some 8)
      else if (bytesPerRegister <? 8) && (4 <? bytesPerRegister) then (WMT_SUCCESS, Some 8)
      else if bytesPerRegister =? 3 then (WMT_SUCCESS, Some 4)
      else (WMT_SUCCESS, Some bytesPerRegister)
  end.

(** ** The layout *)

(** @src src/spkcal/cirrus/tools/wbridge/WISCEBridgeUtil.cpp:1370-1397 FindInLayout (the loop)
    The index as an int, -1 when the register is not found. *)
Fixpoint search_layout (fuel : nat) (l : RegisterLayout) (regAddr minIndex maxIndex : Z) : outcome Z :=
  match fuel with
  | O => OutOfFuel
  | S fuel' =>
      if maxIndex <? minIndex then Ret (-1)
      else
        let midIndex := minIndex + (maxIndex - minIndex) / 2 in
        info ← arr_get l midIndex;
        if registerAddress info <? regAddr then search_layout fuel' l regAddr (midIndex + 1) maxIndex
        else if regAddr <? registerAddress info then
          if midIndex =? 0 then Ret (-1) else search_layout fuel' l regAddr minIndex (midIndex - 1)
        else Ret (s32 midIndex)
  end.

(** @src src/spkcal/cirrus/tools/wbridge/WISCEBridgeUtil.cpp:1344-1405 FindInLayout *)
Definition FindInLayout (l : RegisterLayout) (regAddr : Z) : outcome (option RegisterLineInfo) :=
  match l with
  | [] => Ret None
  | first :: _ =>
      let maxIndex := Z.of_nat (length l) - 1 in
      if registerAddress first =? regAddr then Ret (Some first)
      else
        last ← arr_get l maxIndex;
        if registerAddress last <? regAddr then Ret None
        else
          layoutIndex ← search_layout (S (length l)) l regAddr 0 maxIndex;
          if 0 <=? layoutIndex then info ← arr_get l layoutIndex; Ret (Some info) else Ret None
  end.

(** @src src/spkcal/cirrus/tools/wbridge/WISCEBridgeUtil.cpp:1055-1109 AddRegisterToLayout (by address)
    The line numbers of a layout are kept with 32 bits. *)
Definition AddRegister (l : RegisterLayout) (regAddr totalOffset lineLength lineNumber maxRegisterIndex : Z)
    : outcome (RESULT * RegisterLayout) :=
  if negb (maxRegisterIndex =? MAX_REGISTER) && (maxRegisterIndex <? regAddr) then Ret (WMT_OUT_OF_RANGE, l)
  else
    pLineInfo ← FindInLayout l regAddr;
    Ret (match pLineInfo with
         | None => (WMT_SUCCESS, l ++ [mkLineInfo regAddr (u32 totalOffset) (u32 lineLength) (u32 lineNumber)])
         | Some _ => (WMT_DUPLICATED, l)
         end).

(** @src src/spkcal/cirrus/tools/wbridge/WISCEBridgeUtil.cpp:989-1031 AddRegisterToLayout (by line) *)
Definition AddRegisterToLayout (l : RegisterLayout) (registerLine : list Z) (totalOffset lineLength lineNumber maxRegisterIndex : Z)
    : outcome (RESULT * RegisterLayout) :=
  match scan_register registerLine with
  | Some regAddr => AddRegister l regAddr totalOffset lineLength lineNumber maxRegisterIndex
  | None => Ret (WMT_REG_NOT_PRESENT, l)
  end.

(** ** Sections *)

(** @src src/spkcal/cirrus/tools/wbridge/WISCEBridgeUtil.cpp:1419-1440 FindInSections *)
Fixpoint FindInSections (sections : RegisterSections) (regAddr : Z) : outcome (option RegisterLineInfo) :=
  match sections with
  | [] => Ret None
  | s :: sections' =>
      pLineInfo ← FindInLayout (layout s) regAddr;
      match pLineInfo with Some _ => Ret pLineInfo | None => FindInSections sections' regAddr end
  end.

(** @src src/spkcal/cirrus/tools/wbridge/WISCEBridgeUtil.cpp:1455-1486 FindSection
    The section with the line that was found. *)
Fixpoint FindSection (sections : RegisterSections) (regAddr : Z) : outcome (option (RegisterSection * RegisterLineInfo)) :=
  match sections with
  | [] => Ret None
  | s :: sections' =>
      pLineInfo ← FindInLayout (layout s) regAddr;
      match pLineInfo with Some info => Ret (Some (s, info)) | None => FindSection sections' regAddr end
  end.

(** The value of the last section that starts at or below the register, up to the first
    one that starts above it. *)
Fixpoint of_section {A} (f : RegisterSection → A) (sections : RegisterSections) (regAddr : Z) (v : A) : A :=
  match sections with
  | [] => v
  | s :: sections' =>
      match layout s with
      | [] => of_section f sections' regAddr v
      | first :: _ => if registerAddress first <=? regAddr then of_section f sections' regAddr (f s) else v
      end
  end.

(** @src src/spkcal/cirrus/tools/wbridge/WISCEBridgeUtil.cpp:1500-1527 GetRegisterBytes *)
Definition GetRegisterBytes (sections : RegisterSections) (regAddr : Z) : outcome Z :=
  bytes ← or_ub (of_section bytesPerRegister sections regAddr (Some 0)); Ret (u32 bytes).

(** @src src/spkcal/cirrus/tools/wbridge/WISCEBridgeUtil.cpp:1541-1568 GetAddressIncrement *)
Definition GetAddressIncrement (sections : RegisterSections) (regAddr : Z) : outcome Z :=
  increment ← or_ub (of_section addressIncrement sections regAddr (Some 0)); Ret (u32 increment).

(** @src src/spkcal/cirrus/tools/wbridge/WISCEBridgeUtil.cpp:1582-1609 GetCodecPath *)
Definition GetCodecPath (sections : RegisterSections) (regAddr : Z) : option (list Z) :=
  of_section (λ s, Some (regPath s)) sections regAddr None.
