(* ===== verification/WbPaths.v ===== *)
(** * The paths and names of codecs

    Model of the functions of [src/spkcal/cirrus/tools/wbridge/WISCEBridgeUtil.cpp] that take
    the name, the width and the index of a codec from the path of its register file, and
    of the list of codecs they fill. *)
From S2P Require Import Prelude DevStdlib DevArrays WbString WbResult WbUtil.
From stdpp Require Import strings.
#[local] Open Scope Z_scope.

Definition QDSP_NAME : list Z := str "WMB001".
Definition QDSP_DRIVER_FILE : list Z := str "/dev/CIRRUS_SPEAKER_PROTECTION".
Definition DSP_SUFFIX : list Z := str "-dsp".
Definition MAX_BITWIDTH_LENGTH : nat := 4.
Definition MAX_DSP_INDEX_LENGTH : nat := 2.

Definition strstr_in (s p : list Z) : bool := match strstr s p with Some _ => true | None => false end.

(** ** Searching without regard to case *)

(** @src src/spkcal/cirrus/tools/wbridge/WISCEBridgeUtil.cpp:1696-1734 stristr (the loop)
    [haystack] is what is left from index [i] on, [p2] what is left of the needle. *)
Fixpoint stristr_loop (haystack needle p2 : list Z) (i : nat) (retval : option nat) : option nat :=
  match haystack, p2 with
  | c :: haystack', d :: p2' =>
      if tolower c =? tolower d
      then stristr_loop haystack' needle p2' (S i) (Some (default i retval))
      else
        match needle with
        | e :: needle' =>
            if tolower c =? tolower e
            then stristr_loop haystack' needle needle' (S i) (Some i)
            else stristr_loop haystack' needle needle (S i) None
        | [] => None
        end
  | _, [] => retval
  | [], _ => None
  end.

(** @src src/spkcal/cirrus/tools/wbridge/WISCEBridgeUtil.cpp:1686-1743 stristr
    Where the match starts. *)
Definition stristr (haystack needle : list Z) : option nat :=
  stristr_loop haystack needle needle 0 (match needle with [] => Some 0%nat | _ => None end).

(** @src src/spkcal/cirrus/tools/wbridge/WISCEBridgeUtil.cpp:1775-1779 ByteSwap32bit *)
Definition ByteSwap32bit (val : Z) : Z :=
  let val := Z.lor (Z.land (u32 (Z.shiftl val 8)) 0xFF00FF00) (Z.land (Z.shiftr val 8) 0xFF00FF) in
  Z.lor (u32 (Z.shiftl val 16)) (Z.land (Z.shiftr val 16) 0xFFFF).

(** ** Names and numbers in a path *)

(** From the first "wm" on, in either case. *)
Fixpoint find_WM (cPtr : list Z) : option (list Z) :=
  match cPtr with
  | c :: cPtr' =>
      if ((c =? 119) || (c =? 87)) && match cPtr' with d :: _ => (d =? 109) || (d =? 77) | [] => false end
      then Some cPtr else find_WM cPtr'
  | [] => None
  end.

Fixpoint alphanumeric_run (s : list Z) : list Z :=
  match s with c :: s' => if IsAlphanumeric c then c :: alphanumeric_run s' else [] | [] => [] end.

(** @src src/spkcal/cirrus/tools/wbridge/WISCEBridgeUtil.cpp:573-629 ParseWMCodec
    On an empty path the byte behind its end is read; a buffer without room is written before. *)
Definition ParseWMCodec (path : list Z) (bufferSize : nat) : outcome (RESULT * option (list Z)) :=
  match path with
  | [] => UB
  | _ =>
      match find_WM path with
      | None => Ret (WMT_NO_DEVICE, None)
      | Some cPtr =>
          let run := alphanumeric_run cPtr in
          if (bufferSize =? 0)%nat then UB
          else if (bufferSize <=? length run)%nat then Ret (WMT_TRUNCATED, Some (take (bufferSize - 1) run))
          else Ret (WMT_SUCCESS, Some run)
      end
  end.

(** The text behind the last slash but one, and behind the last. *)
Fixpoint last_folders (s : list Z) (first last : option (list Z)) : option (list Z) * option (list Z) :=
  match s with
  | c :: s' => if c =? 47 then last_folders s' last (Some s') else last_folders s' first last
  | [] => (first, last)
  end.

(** The text before the first occurrence of [p]. *)
Definition before (s p : list Z) : list Z :=
  match strstr s p with Some rest => take (length s - length rest) s | None => s end.

(** @src src/spkcal/cirrus/tools/wbridge/WISCEBridgeUtil.cpp:803-876 GetPathIdentifier
    [None] when the buffer is not written; it ends with a zero byte otherwise. *)
Definition GetPathIdentifier (path : list Z) (bufferLength : nat) : RESULT * option (list Z) :=
  if (bufferLength =? 0)%nat then (WMT_INVALID_PARAMETER, None)
  else
    match last_folders path None None with
    | (Some first, Some last) =>
        let first := take (length first - length last - 1) first in
        let first := before (before first (str "_")) DSP_SUFFIX in
        (if (bufferLength <=? length first)%nat then WMT_TRUNCATED else WMT_SUCCESS, Some (take (bufferLength - 1) first))
    | _ => (WMT_INVALID_PARAMETER, None)
    end.

(** At most [n] digits at the front. *)
Fixpoint digit_run (n : nat) (s : list Z) : list Z :=
  match n, s with
  | S n', c :: s' => if IsDigit c then c :: digit_run n' s' else []
  | _, _ => []
  end.
Definition atoi (s : list Z) : Z := fold_left (λ v c, 10 * v + (c - 48)) s 0.

(** @src src/spkcal/cirrus/tools/wbridge/WISCEBridgeUtil.cpp:1232-1273 GetRegisterPathBytes
    Behind every underscore with a later "bit": the digits in front of the "bit". *)
Fixpoint GetRegisterPathBytes (path : list Z) : Z :=
  match path with
  | [] => -1
  | c :: startPointer =>
      if c =? 95 then
        match strstr startPointer (str "bit") with
        | Some endPointer =>
            if (length endPointer <? length startPointer)%nat then
              let subString := digit_run MAX_BITWIDTH_LENGTH (take (length startPointer - length endPointer) startPointer) in
              if (length subString =? 0)%nat || (length subString =? MAX_BITWIDTH_LENGTH)%nat then -1
              else (atoi subString + 7) / 8
            else GetRegisterPathBytes startPointer
        | None => GetRegisterPathBytes startPointer
        end
      else GetRegisterPathBytes startPointer
  end.

(** @src src/spkcal/cirrus/tools/wbridge/WISCEBridgeUtil.cpp:1287-1330 GetDSPIndexFromPath
    Behind every "-dsp" with a slash behind: the digit in front of it. *)
Fixpoint GetDSPIndexFromPath (path : list Z) : Z :=
  match path with
  | [] => -1
  | c :: path' =>
      if starts_with DSP_SUFFIX path then
        let startPointer := drop (length DSP_SUFFIX) path in
        match strstr path (str "/") with
        | Some endPointer =>
            if (length endPointer <? length startPointer)%nat then
              let subString := digit_run MAX_DSP_INDEX_LENGTH (take (length startPointer - length endPointer) startPointer) in
              if (length subString =? 0)%nat || (length subString =? MAX_DSP_INDEX_LENGTH)%nat then -1
              else atoi subString
            else GetDSPIndexFromPath path'
        | None => GetDSPIndexFromPath path'
        end
      else GetDSPIndexFromPath path'
  end.

(** ** The list of codecs *)

(** The text up to the first [c]. *)
Definition cut_at (c : Z) (s : list Z) : list Z :=
  match strchr_from c s with Some rest => take (length s - length rest) s | None => s end.

(** Does one of the specifiers occur in the name? *)
Definition matches (codec : list Z) (specifiers : list (list Z)) : bool :=
  existsb (λ s, match stristr codec s with Some _ => true | None => false end) specifiers.

(** @src src/spkcal/cirrus/tools/wbridge/WISCEBridgeUtil.cpp:652-786 StoreCodec
    A list that is empty or not given does not restrict. *)
Definition StoreCodec (codecPaths : list CCodecPathPair) (codec path : list Z)
    (excludeDevices includeDevices : option (list (list Z))) : outcome (RESULT * list CCodecPathPair) :=
  let codec := cut_at 13 (cut_at 10 codec) in
  if matches codec (default [] excludeDevices) then Ret (WMT_EXCLUDED, codecPaths)
  else if (match default [] includeDevices with [] => false | inc => negb (matches codec inc) end) then Ret (WMT_EXCLUDED, codecPaths)
  else
    let width := GetRegisterPathBytes path in
    let dspIndex_ := GetDSPIndexFromPath path in
    nameWithIdentifier ←
      (if negb (strstr_in path (str "asoc")) && negb (strstr_in path QDSP_DRIVER_FILE)
       then identifier ← or_ub (snd (GetPathIdentifier path PATH_MAX)); Ret (codec ++ str "_" ++ identifier)
       else Ret codec);
    if existsb (λ p, bool_decide (name p = nameWithIdentifier) && (width =? registerBytes p) && (dspIndex_ =? dspIndex p)) codecPaths
    then Ret (WMT_DUPLICATED, codecPaths)
    else Ret (WMT_SUCCESS, codecPaths ++ [mkCodecPath (take 255 nameWithIdentifier) (take (PATH_MAX - 1) path) width dspIndex_]).
