(* ===== verification/WbUtilSpec.v ===== *)
(** * Layouts, searches and lines of the WISCE bridge

    The binary search of a layout against a linear one, the order of a layout and what
    keeps it, the lines a codec file is made of, and the searches in names. *)
From S2P Require Import Prelude DevStdlib DevArrays WbString WbResult WbCommand WbUtil WbPaths.
From stdpp Require Import sorting.
From stdpp Require Import strings.
#[local] Open Scope Z_scope.

(** ** The order of a layout *)

Definition below (x y : RegisterLineInfo) : Prop := registerAddress x < registerAddress y.

(** Registers in ascending order, and no more of them than an int can count. *)
Definition layout_ok (l : RegisterLayout) : Prop := StronglySorted below l ∧ Z.of_nat (length l) ≤ INT_MAX.

(** The linear search. *)
Fixpoint line_of (l : RegisterLayout) (regAddr : Z) : option RegisterLineInfo :=
  match l with
  | [] => None
  | x :: l' => if registerAddress x =? regAddr then Some x else line_of l' regAddr
  end.

Lemma line_of_None l a : line_of l a = None ↔ ∀ x, x ∈ l → registerAddress x ≠ a.
Proof.
  induction l as [|x l IH]; cbn [line_of]; [split; [intros _ y Hy; by apply not_elem_of_nil in Hy|done]|].
  destruct (Z.eqb_spec (registerAddress x) a) as [E|E].
  - split; [done|]. intros H. exfalso. by apply (H x); [apply list_elem_of_here|].
  - rewrite IH. split; [intros H y [->|Hy]%elem_of_cons|intros H y Hy]; [done|by apply H|apply H; by apply elem_of_cons; right].
Qed.

Lemma line_of_Some l a x : line_of l a = Some x → x ∈ l ∧ registerAddress x = a.
Proof.
  induction l as [|y l IH]; cbn [line_of]; [done|]. destruct (Z.eqb_spec (registerAddress y) a) as [E|E].
  - intros [= <-]. split; [apply list_elem_of_here|done].
  - intros H. destruct (IH H). split; [by apply elem_of_cons; right|done].
Qed.

Lemma below_index l (i j : nat) x y : StronglySorted below l → l !! i = Some x → l !! j = Some y →
  registerAddress x < registerAddress y → (i < j)%nat.
Proof.
  intros Hs Hi Hj Hlt. destruct (decide (i < j)%nat) as [|Hge]; [done|]. exfalso.
  destruct (decide (i = j)) as [->|Hne]; [rewrite Hi in Hj; simplify_eq; lia|].
  assert (below y x); [eapply (StronglySorted_index below l j i); [done..|lia]|unfold below in *; lia].
Qed.

Lemma line_of_unique l i x : StronglySorted below l → l !! i = Some x → line_of l (registerAddress x) = Some x.
Proof.
  intros Hs Hi. destruct (line_of l (registerAddress x)) as [y|] eqn:E.
  - apply line_of_Some in E as [Hy Ey]. apply list_elem_of_lookup in Hy as [j Hj].
    destruct (decide (i = j)) as [->|Hne]; [by rewrite Hi in Hj|].
    destruct (decide (i < j)%nat).
    + assert (below x y) by (by eapply (StronglySorted_index below l i j)). unfold below in *. lia.
    + assert (below y x) by (eapply (StronglySorted_index below l j i); [done..|lia]). unfold below in *. lia.
  - exfalso. rewrite line_of_None in E. by apply (E x); [eapply list_elem_of_lookup_2|].
Qed.

(** ** The binary search *)

(** On any layout the search ends within it and finds nothing but the register; on an
    ordered one it misses no register of the range. *)
Lemma search_layout_spec l a fuel minI maxI : Z.of_nat (length l) ≤ INT_MAX →
  0 ≤ minI → maxI < Z.of_nat (length l) → Z.max 0 (maxI - minI + 1) < Z.of_nat fuel →
  ∃ r, search_layout fuel l a minI maxI = Ret r ∧
    ((0 ≤ r ∧ ∃ x, l !! Z.to_nat r = Some x ∧ registerAddress x = a) ∨
     (r = -1 ∧ (StronglySorted below l → ∀ (i : nat) x, minI ≤ Z.of_nat i ≤ maxI → l !! i = Some x → registerAddress x ≠ a))).
Proof.
  intros Hlen. revert minI maxI. induction fuel as [|fuel IH]; intros minI maxI Hmin Hmax Hf; [lia|]. cbn [search_layout].
  destruct (Z.ltb_spec maxI minI) as [Hlt|Hle]; [exists (-1); split; [done|]; right; split; [done|lia]|].
  set (mid := minI + (maxI - minI) / 2). assert (Hm : minI ≤ mid ≤ maxI).
  { assert (0 ≤ (maxI - minI) / 2 ≤ maxI - minI); [|unfold mid; lia].
    split; [apply Z.div_pos; lia|apply Z.div_le_upper_bound; lia]. }
  destruct (arr_get_inside l mid) as (x & -> & Hx); [lia|]. cbn [mbind outcome_bind].
  destruct (Z.ltb_spec (registerAddress x) a) as [Hxa|Hxa]; [|destruct (Z.ltb_spec a (registerAddress x)) as [Hax|Hax]].
  - destruct (IH (mid + 1) maxI) as (r & -> & Hr); [lia..|]. exists r. split; [done|]. destruct Hr as [Hr|[-> Hr]]; [by left|right].
    split; [done|]. intros Hs i y Hi Hy Ey. destruct (decide (mid + 1 ≤ Z.of_nat i)); [by eapply (Hr Hs i y); [lia|..]|].
    assert (Z.to_nat mid < i)%nat by (eapply (below_index l); [done..|lia]). lia.
  - assert (Hleft : StronglySorted below l → ∀ i y, minI ≤ Z.of_nat i ≤ maxI → l !! i = Some y → registerAddress y = a → Z.of_nat i < mid).
    { intros Hs i y Hi Hy Ey. assert (i < Z.to_nat mid)%nat by (eapply (below_index l); [done..|lia]). lia. }
    destruct (Z.eqb_spec mid 0) as [E0|E0].
    { exists (-1). split; [done|]. right. split; [done|]. intros Hs i y Hi Hy Ey. pose proof (Hleft Hs i y Hi Hy Ey). lia. }
    destruct (IH minI (mid - 1)) as (r & -> & Hr); [lia..|]. exists r. split; [done|]. destruct Hr as [Hr|[-> Hr]]; [by left|right].
    split; [done|]. intros Hs i y Hi Hy Ey. pose proof (Hleft Hs i y Hi Hy Ey). by eapply (Hr Hs i y); [lia|..].
  - exists (s32 mid). rewrite s32_small by (unfold INT_MIN, INT_MAX in *; lia). split; [done|]. left. split; [lia|].
    exists x. split; [done|lia].
Qed.

(** The search on any layout: it ends, within the layout. *)
Lemma FindInLayout_total l a : Z.of_nat (length l) ≤ INT_MAX →
  ∃ o, FindInLayout l a = Ret o ∧ (∀ x, o = Some x → x ∈ l ∧ registerAddress x = a).
Proof.
  intros Hlen. destruct l as [|first l']; [by exists None|]. set (l := first :: l') in *. unfold FindInLayout. fold l.
  unfold l at 1. cbv beta iota. fold l. destruct (Z.eqb_spec (registerAddress first) a) as [E|E].
  { exists (Some first). split; [done|]. intros x [= <-]. split; [apply list_elem_of_here|done]. }
  assert (Hpos : 1 ≤ Z.of_nat (length l)) by (unfold l; cbn [length]; lia).
  destruct (arr_get_inside l (Z.of_nat (length l) - 1)) as (last & -> & Hlast); [lia|]. cbn [mbind outcome_bind].
  destruct (Z.ltb_spec (registerAddress last) a); [by exists None|].
  destruct (search_layout_spec l a (S (length l)) 0 (Z.of_nat (length l) - 1)) as (r & -> & Hr); [lia..|]. cbn [mbind outcome_bind].
  destruct Hr as [(Hr & x & Hx & Ex)|[-> _]]; [|by exists None]. destruct (Z.leb_spec 0 r); [|lia].
  rewrite (arr_get_Some _ _ x) by done. exists (Some x). split; [done|]. intros y [= <-]. split; [by eapply list_elem_of_lookup_2|done].
Qed.

(** On an ordered layout the binary search is the linear search. *)
Lemma FindInLayout_linear l a : layout_ok l → FindInLayout l a = Ret (line_of l a).
Proof.
  intros [Hs Hlen]. destruct (FindInLayout_total l a Hlen) as (o & E & Ho). rewrite E. f_equal.
  destruct o as [x|]; [destruct (Ho x eq_refl) as [Hx <-]; apply list_elem_of_lookup in Hx as [i Hi]; symmetry; by eapply line_of_unique|].
  symmetry. apply line_of_None. intros x Hx Ex. apply list_elem_of_lookup in Hx as [i Hi]. pose proof (lookup_lt_Some _ _ _ Hi) as Hil.
  destruct l as [|first l']; [done|]. set (l := first :: l') in *. revert E. unfold FindInLayout. unfold l at 1. cbv beta iota. fold l.
  destruct (Z.eqb_spec (registerAddress first) a); [done|].
  destruct (arr_get_inside l (Z.of_nat (length l) - 1)) as (last & -> & Hlast); [lia|]. cbn [mbind outcome_bind].
  destruct (Z.ltb_spec (registerAddress last) a) as [Hla|_].
  { assert (Z.to_nat (Z.of_nat (length l) - 1) < i)%nat by (eapply (below_index l); [done..|lia]). lia. }
  destruct (search_layout_spec l a (S (length l)) 0 (Z.of_nat (length l) - 1)) as (r & -> & Hr); [lia..|]. cbn [mbind outcome_bind].
  destruct Hr as [(Hr & y & Hy & Ey)|[-> Hr]].
  - destruct (Z.leb_spec 0 r); [|lia]. by rewrite (arr_get_Some _ _ y) by done.
  - intros _. by apply (Hr Hs i x); [lia|..].
Qed.

(** ** Adding registers *)

Lemma layout_ok_snoc l x : layout_ok l → Z.of_nat (length l) < INT_MAX → (∀ y, y ∈ l → below y x) → layout_ok (l ++ [x]).
Proof.
  intros [Hs Hl] Hlen Hx. split; [|rewrite length_app; cbn [length]; lia].
  induction Hs as [|y l Hs IH Hy]; cbn [app]; [by repeat constructor|]. constructor.
  - apply IH; [cbn [length] in *; lia..|]. intros z Hz. apply Hx. by apply elem_of_cons; right.
  - rewrite Forall_app. split; [done|]. constructor; [apply Hx, list_elem_of_here|done].
Qed.

Lemma line_of_app l k a : line_of (l ++ k) a = match line_of l a with Some x => Some x | None => line_of k a end.
Proof. induction l as [|x l IH]; [done|]. cbn [app line_of]. by destruct (registerAddress x =? a). Qed.

(** A register above those of the layout is appended. *)
Lemma AddRegister_above l a off len num maxReg : layout_ok l → (∀ x, x ∈ l → registerAddress x < a) →
  maxReg = MAX_REGISTER ∨ a ≤ maxReg →
  AddRegister l a off len num maxReg = Ret (WMT_SUCCESS, l ++ [mkLineInfo a (u32 off) (u32 len) (u32 num)]).
Proof.
  intros Hl Ha Hmax. unfold AddRegister. assert (negb (maxReg =? MAX_REGISTER) && (maxReg <? a) = false) as ->.
  { destruct (Z.eqb_spec maxReg MAX_REGISTER), (Z.ltb_spec maxReg a); [done..|lia|done]. }
  rewrite FindInLayout_linear by done. cbn [mbind outcome_bind].
  assert (line_of l a = None) as ->; [|done]. apply line_of_None. intros x Hx. specialize (Ha x Hx). lia.
Qed.

(** C38. Adding a register keeps a layout ordered when it is above all others or there
    already, and then the binary search finds what was added and what was there before. *)
Theorem AddRegister_layout (l : RegisterLayout) (a off len num maxReg : Z) :
  layout_ok l → Z.of_nat (length l) < INT_MAX → (∀ x, x ∈ l → registerAddress x < a) ∨ is_Some (line_of l a) →
  ∃ r l', AddRegister l a off len num maxReg = Ret (r, l') ∧ layout_ok l' ∧
    ∀ b, FindInLayout l' b =
      Ret (if bool_decide (r = WMT_SUCCESS) && (b =? a) then Some (mkLineInfo a (u32 off) (u32 len) (u32 num)) else line_of l b).
Proof.
  intros Hl Hlen Ha. destruct (negb (maxReg =? MAX_REGISTER) && (maxReg <? a)) eqn:Emax.
  { exists WMT_OUT_OF_RANGE, l. unfold AddRegister. rewrite Emax. split_and!; [done..|]. intros b. by rewrite FindInLayout_linear. }
  destruct Ha as [Ha|[x Ex]].
  - do 2 eexists. split; [apply AddRegister_above; [done..|]|].
    { destruct (Z.eqb_spec maxReg MAX_REGISTER), (Z.ltb_spec maxReg a); [by left..|done|by right]. }
    split; [apply layout_ok_snoc; [done..|]; intros y Hy; by apply Ha|]. intros b.
    rewrite FindInLayout_linear by (apply layout_ok_snoc; [done..|]; intros y Hy; by apply Ha).
    rewrite bool_decide_eq_true_2 by done. rewrite line_of_app. cbn [line_of registerAddress andb]. f_equal.
    destruct (line_of l b) as [y|] eqn:Ey.
    + apply line_of_Some in Ey as [Hy Ey]. specialize (Ha y Hy). by destruct (Z.eqb_spec b a); [lia|].
    + rewrite (Z.eqb_sym b a). done.
  - exists WMT_DUPLICATED, l. unfold AddRegister. rewrite Emax, FindInLayout_linear by done. cbn [mbind outcome_bind]. rewrite Ex.
    split_and!; [done..|]. intros b. by rewrite FindInLayout_linear.
Qed.

Lemma AddRegister_layout_witness : ∃ l',
  AddRegister [mkLineInfo 2 0 11 0; mkLineInfo 5 11 11 1] 9 22 11 2 MAX_REGISTER = Ret (WMT_SUCCESS, l') ∧ layout_ok l' ∧
  FindInLayout l' 9 = Ret (Some (mkLineInfo 9 22 11 2)) ∧ FindInLayout l' 3 = Ret None.
Proof.
  destruct (AddRegister_layout [mkLineInfo 2 0 11 0; mkLineInfo 5 11 11 1] 9 22 11 2 MAX_REGISTER) as (r & l' & E & Hl & Hf).
  - split; [repeat constructor; unfold below; cbn; lia|unfold INT_MAX; cbn; lia].
  - unfold INT_MAX; cbn; lia.
  - left. intros x Hx. set_unfold in Hx. destruct Hx as [-> | [-> | []]]; cbn; lia.
  - exists l'. pose proof (Hf 9) as H9. pose proof (Hf 3) as H3. vm_compute in E. injection E as <- <-.
    split; [by vm_compute|]. split; [done|]. split; [rewrite H9|rewrite H3]; done.
Defined.

(** A register below the last one breaks the order: it is not found afterwards. *)
Lemma AddRegister_below_last : ∃ l',
  AddRegister [mkLineInfo 2 0 11 0; mkLineInfo 5 11 11 1] 3 22 11 2 MAX_REGISTER = Ret (WMT_SUCCESS, l') ∧
  FindInLayout l' 3 = Ret None ∧ FindInLayout l' 5 = Ret None ∧ line_of l' 3 = Some (mkLineInfo 3 22 11 2).
Proof. exists [mkLineInfo 2 0 11 0; mkLineInfo 5 11 11 1; mkLineInfo 3 22 11 2]. split_and!; by vm_compute. Qed.

(** ** Bytes and names *)

(** All numbers below a literal. *)
Ltac each_below k tac := destruct k as [|k]; [tac|first [exfalso; lia|each_below k tac]].

(** Bit by bit, the bytes in the other order. *)
Lemma ByteSwap32bit_bits v n : 0 ≤ v < 2 ^ 32 → 0 ≤ n < 32 → Z.testbit (ByteSwap32bit v) n = Z.testbit v (Z.lxor n 24).
Proof.
  intros Hv Hn. unfold ByteSwap32bit, wrapu.
  assert (∃ k, n = Z.of_nat k ∧ (k < 32)%nat) as (k & -> & Hk) by (exists (Z.to_nat n); lia).
  each_below k ltac:(
    do 3 (repeat first [rewrite Z.lor_spec|rewrite Z.land_spec|rewrite Z.mod_pow2_bits_low by lia|rewrite Z.shiftl_spec by lia|rewrite Z.shiftr_spec by lia];
      cbn; rewrite ?andb_true_r, ?andb_false_r, ?orb_false_r, ?orb_false_l); done).
Qed.

Lemma ByteSwap32bit_high v n : 32 ≤ n → Z.testbit (ByteSwap32bit v) n = false.
Proof.
  intros Hn. unfold ByteSwap32bit, wrapu. rewrite Z.lor_spec, Z.mod_pow2_bits_high by lia.
  rewrite Z.land_spec, (Z.bits_above_log2 0xFFFF n), andb_false_r; [done|lia|cbn; lia].
Qed.

Lemma bits_range v : 0 ≤ v → (∀ n, 32 ≤ n → Z.testbit v n = false) → v < 2 ^ 32.
Proof.
  intros Hv Hb. assert (v = v mod 2 ^ 32) as ->; [|by apply Z.mod_pos_bound].
  apply Z.bits_inj'. intros n Hn. destruct (decide (n < 32)); [by rewrite Z.mod_pow2_bits_low|].
  rewrite Z.mod_pow2_bits_high, Hb by lia. done.
Qed.

Lemma ByteSwap32bit_range v : 0 ≤ v < 2 ^ 32 → 0 ≤ ByteSwap32bit v < 2 ^ 32.
Proof.
  intros Hv. assert (H0 : 0 ≤ ByteSwap32bit v).
  { unfold ByteSwap32bit. apply Z.lor_nonneg. split; [by apply wrapu_range|]. apply Z.land_nonneg. by right. }
  split; [done|]. apply bits_range; [done|]. apply ByteSwap32bit_high.
Qed.

Lemma ByteSwap32bit_involutive v : 0 ≤ v < 2 ^ 32 → ByteSwap32bit (ByteSwap32bit v) = v.
Proof.
  intros Hv. pose proof (ByteSwap32bit_range v Hv) as Hr. apply Z.bits_inj'. intros n Hn. destruct (decide (n < 32)) as [Hl|Hl].
  - assert (0 ≤ Z.lxor n 24 < 32).
    { assert (∃ k, n = Z.of_nat k ∧ (k < 32)%nat) as (k & -> & Hk) by (exists (Z.to_nat n); lia). each_below k ltac:(by split; vm_compute). }
    rewrite !ByteSwap32bit_bits by done. f_equal. by rewrite Z.lxor_assoc, Z.lxor_nilpotent, Z.lxor_0_r.
  - rewrite ByteSwap32bit_high by lia. symmetry. apply Z.bits_above_log2; [lia|].
    destruct (decide (v = 0)) as [->|]; [cbn; lia|]. apply Z.log2_lt_pow2; [lia|]. eapply Z.lt_le_trans; [apply Hv|].
    apply Z.pow_le_mono_r; lia.
Qed.

(** What [stristr] finds is the needle, in either case; [j] of its bytes have been matched. *)
Lemma stristr_loop_sound needle k : needle ≠ [] → ∀ rest pre j retval,
  (j ≤ length needle)%nat → (j ≤ length pre)%nat → tolower <$> drop (length pre - j) pre = tolower <$> take j needle →
  retval = (if (j =? 0)%nat then None else Some (length pre - j)%nat) →
  stristr_loop rest needle (drop j needle) (length pre) retval = Some k →
  tolower <$> take (length needle) (drop k (pre ++ rest)) = tolower <$> needle.
Proof.
  intros Hne. induction rest as [|c rest IH]; intros pre j retval Hj Hp Hm Hr E; destruct (drop j needle) as [|d p2] eqn:Ed; cbn [stristr_loop] in E; [|done| |].
  1,2: assert (j = length needle) as -> by (apply (f_equal length) in Ed; rewrite length_drop in Ed; cbn in Ed; lia);
    rewrite Hr in E; (destruct (Nat.eqb_spec (length needle) 0) as [E0|_]; [by destruct needle|]); injection E as <-;
    rewrite drop_app_le by lia; rewrite take_app_le by (rewrite length_drop; lia);
    rewrite firstn_all2 by (rewrite length_drop; lia); by rewrite Hm, firstn_all.
  assert (Hjl : (j < length needle)%nat) by (apply (f_equal length) in Ed; rewrite length_drop in Ed; cbn in Ed; lia).
  assert (Hd : needle !! j = Some d) by by rewrite <-(Nat.add_0_r j), <-lookup_drop, Ed.
  assert (Hp2 : p2 = drop (S j) needle) by (by rewrite <-Nat.add_1_r, <-drop_drop, Ed).
  assert (Hlen : length (pre ++ [c]) = S (length pre)) by (rewrite length_app; cbn; lia).
  replace (pre ++ c :: rest) with ((pre ++ [c]) ++ rest) by by rewrite <-app_assoc.
  destruct (Z.eqb_spec (tolower c) (tolower d)) as [Ecd|_].
  - eapply (IH (pre ++ [c]) (S j)); [lia|lia| |reflexivity|].
    + rewrite Hlen, drop_app_le by lia. rewrite fmap_app. replace (S (length pre) - S j)%nat with (length pre - j)%nat by lia.
      rewrite Hm, (take_S_r _ _ d) by done. rewrite fmap_app. cbn. by rewrite Ecd.
    + rewrite Hlen, <-Hp2. cbn [Nat.eqb]. rewrite <-E. f_equal. f_equal. rewrite Hr.
      destruct (Nat.eqb_spec j 0) as [->|]; cbn [default from_option id]; lia.
  - destruct needle as [|e needle']; [done|]. destruct (Z.eqb_spec (tolower c) (tolower e)) as [Ece|_].
    + eapply (IH (pre ++ [c]) 1%nat); [cbn; lia|lia| |reflexivity|].
      * rewrite Hlen. replace (S (length pre) - 1)%nat with (length pre) by lia. rewrite drop_app_length. cbn. by rewrite Ece.
      * rewrite Hlen. cbn [Nat.eqb drop]. rewrite <-E. f_equal. f_equal. lia.
    + eapply (IH (pre ++ [c]) 0%nat); [lia|lia| |reflexivity|by rewrite Hlen].
      rewrite Nat.sub_0_r, drop_all. done.
Qed.

Lemma stristr_sound hay needle k : stristr hay needle = Some k →
  tolower <$> take (length needle) (drop k hay) = tolower <$> needle.
Proof.
  intros E. destruct needle as [|e needle'] eqn:En; [done|]. rewrite <-En in *.
  apply (stristr_loop_sound needle k) with (rest := hay) (pre := []) (j := 0%nat) (retval := None); [by rewrite En|lia|cbn; lia|done|done|].
  rewrite <-E. unfold stristr. by rewrite En.
Qed.

(** Not every occurrence is found: the search does not look at a byte twice. *)
Lemma stristr_misses : stristr (str "aaab") (str "aab") = None ∧ strstr (str "aaab") (str "aab") = Some (str "aab").
Proof. by split; vm_compute. Qed.
