(* ===== verification/WbLayout.v ===== *)
(** * Building the layout of a register file

    Model of the functions of [src/spkcal/cirrus/tools/wbridge/LinuxDriverCommunication.cpp]
    that take in one line of a codec's register file or of its range file.  Arguments that
    every caller takes the address of are values, returned as they are afterwards. *)
From S2P Require Import Prelude DevStdlib DevArrays WbString WbResult WbDevice WbUtil.
From stdpp Require Import strings.
#[local] Open Scope Z_scope.

(** What is found out about a register file from its first lines: the length of a line,
    the bytes of a register, the distance of two addresses (0 as long as they are not
    known), and the addresses seen. *)
Record line_facts := mkFacts {
  f_lineLength : Z;
  f_bytesPerRegister : Z;
  f_addressIncrement : Z;
  f_readAddresses : list Z;
}.

Definition with_bytes (s : RegisterSection) (b : Z) : RegisterSection :=
  mkSection (layout s) (regPath s) (Some (s32 b)) (addressIncrement s) (algorithmID s).
Definition with_increment (s : RegisterSection) (i : Z) : RegisterSection :=
  mkSection (layout s) (regPath s) (bytesPerRegister s) (Some (s32 i)) (algorithmID s).
Definition with_layout (s : RegisterSection) (l : RegisterLayout) : RegisterSection :=
  mkSection l (regPath s) (bytesPerRegister s) (addressIncrement s) (algorithmID s).

(** [GetBytesPerRegister] with registers of eight bytes taken for four; 0 stays when
    nothing is stored. *)
Definition detect_bytes (pLine : list Z) : Z :=
  let b := default 0 (snd (GetBytesPerRegister pLine)) in if b =? 8 then 4 else b.

(** The text behind the last slash, with what is before it. *)
Fixpoint split_folder (s : list Z) : option (list Z * list Z) :=
  match s with
  | c :: s' =>
      match split_folder s' with
      | Some (d, f) => Some (c :: d, f)
      | None => if c =? 47 then Some ([c], s') else None
      end
  | [] => None
  end.

(** @src src/spkcal/cirrus/tools/wbridge/LinuxDriverCommunication.cpp:958-1007 GetRangeFilePath *)
Definition GetRangeFilePath (s : RegisterSection) (bufferLength : nat) : RESULT * list Z :=
  let rangeFile := take (bufferLength - 1) (regPath s) in
  match split_folder rangeFile with
  | None => (WMT_NO_DATA, rangeFile)
  | Some (folder, p) =>
      if strcasecmp_eq p (str "registers") then (WMT_SUCCESS, folder ++ str "range") else (WMT_NO_DATA, rangeFile)
  end.

(** @src src/spkcal/cirrus/tools/wbridge/LinuxDriverCommunication.cpp:1049-1127 HandleRegisterLineForRanges *)
Definition HandleRegisterLineForRanges (pLine : list Z) (lineLength : Z) (s : RegisterSection) (f : line_facts)
    : RESULT * RegisterSection * line_facts :=
  if lineLength =? 0 then (WMT_INVALID_PARAMETER, s, f)
  else
    match scan_register pLine with
    | None => (WMT_REG_NOT_PRESENT, s, f)
    | Some regAddr =>
        let '(s, f) :=
          if f_lineLength f =? 0 then
            if f_bytesPerRegister f =? 0 then
              let b := detect_bytes pLine in
              (with_bytes s b, mkFacts (u64 (lineLength + 1)) b (f_addressIncrement f) (f_readAddresses f))
            else (s, mkFacts (u64 (lineLength + 1)) (f_bytesPerRegister f) (f_addressIncrement f) (f_readAddresses f))
          else (s, f) in
        let consecutive := match last (f_readAddresses f) with Some b => u32 (b + 1) =? regAddr | None => false end in
        let addresses := f_readAddresses f ++ [regAddr] in
        if consecutive
        then (WMT_SUCCESS, with_increment s 1, mkFacts (f_lineLength f) (f_bytesPerRegister f) 1 addresses)
        else (WMT_NO_DATA, s, mkFacts (f_lineLength f) (f_bytesPerRegister f) (f_addressIncrement f) addresses)
    end.

(** @src src/spkcal/cirrus/tools/wbridge/LinuxDriverCommunication.cpp:1199-1242 HandleRangeFileLine (the increment)
    From the first address seen in the range and the one seen next; [None] when there are
    not two. *)
Fixpoint detect_increment (readAddresses : list Z) (startAddr endAddr : Z) (firstAddr : Z) : option Z :=
  match readAddresses with
  | [] => None
  | address :: readAddresses' =>
      if negb (firstAddr =? MAX_REGISTER) then
        Some (if (firstAddr <? address) && (address <=? endAddr) then u32 (address - firstAddr) else 1)
      else detect_increment readAddresses' startAddr endAddr (if startAddr <=? address then address else firstAddr)
  end.

(** @src src/spkcal/cirrus/tools/wbridge/LinuxDriverCommunication.cpp:1251-1271 HandleRangeFileLine (the loop)
    [fuel] registers at most; the result is [WMT_OUT_OF_RANGE] at the highest register to be used. *)
Fixpoint add_range (fuel : nat) (regAddr endAddr increment lineLength maxRegisterIndex : Z) (l : RegisterLayout)
    (totalOffset lineNumber : Z) : outcome (RESULT * RegisterLayout * Z * Z) :=
  match fuel with
  | O => OutOfFuel
  | S fuel' =>
      if regAddr <=? endAddr then
        '(localResult, l) ← AddRegister l regAddr totalOffset lineLength lineNumber maxRegisterIndex;
        if bool_decide (localResult = WMT_OUT_OF_RANGE) then Ret (WMT_OUT_OF_RANGE, l, totalOffset, lineNumber)
        else add_range fuel' (u32 (regAddr + increment)) endAddr increment lineLength maxRegisterIndex l
               (u64 (totalOffset + lineLength)) (u64 (lineNumber + 1))
      else Ret (WMT_SUCCESS, l, totalOffset, lineNumber)
  end.

(** What a line of the range file changes. *)
Record range_state := mkRange {
  r_section : RegisterSection;
  r_totalOffset : Z;
  r_lineNumber : Z;
  r_addressIncrement : Z;
  r_maxLineNumber : Z;
}.

(** @src src/spkcal/cirrus/tools/wbridge/LinuxDriverCommunication.cpp:1156-1277 HandleRangeFileLine
    Past the highest register the line number is stored for [GetRegisterMap]. *)
Definition HandleRangeFileLine (pLine : list Z) (lineLength maxRegisterIndex : Z) (readAddresses : list Z) (r : range_state)
    : outcome (RESULT * range_state) :=
  if lineLength =? 0 then Ret (WMT_INVALID_PARAMETER, r)
  else
    match scan_pair DASH_CHAR pLine with
    | None => Ret (WMT_READ_FAILED, r)
    | Some (startAddr, endAddr) =>
        let '(s, incr) :=
          if (r_addressIncrement r =? 0) && (startAddr <? endAddr) then
            match detect_increment readAddresses startAddr endAddr MAX_REGISTER with
            | Some i => (with_increment (r_section r) i, i)
            | None => (r_section r, 0)
            end
          else (r_section r, r_addressIncrement r) in
        let increment := if incr =? 0 then 1 else u32 incr in
        '(result, l, totalOffset, lineNumber) ←
          add_range (S (S (Z.to_nat ((endAddr - startAddr) / increment)))) startAddr endAddr increment lineLength
            maxRegisterIndex (layout s) (r_totalOffset r) (r_lineNumber r);
        let maxLine := if bool_decide (result = WMT_OUT_OF_RANGE) then u32 lineNumber else r_maxLineNumber r in
        Ret (result, mkRange (with_layout s l) totalOffset lineNumber incr maxLine)
    end.

(** @src src/spkcal/cirrus/tools/wbridge/LinuxDriverCommunication.cpp:1293-1331 EnsureAddressIncrementSet *)
Definition EnsureAddressIncrementSet (s : RegisterSection) (incr : Z) : RegisterSection :=
  if incr =? 0 then with_increment s 1 else s.

(** What a line of the register file changes. *)
Record file_state := mkFile {
  l_section : RegisterSection;
  l_totalOffset : Z;
  l_lineNumber : Z;
  l_bytesPerRegister : Z;
  l_maxLineNumber : Z;
}.

(** @src src/spkcal/cirrus/tools/wbridge/LinuxDriverCommunication.cpp:1355-1412 HandleRegisterFileLine *)
Definition HandleRegisterFileLine (pLine : list Z) (lineLength maxRegisterIndex : Z) (f : file_state)
    : outcome (RESULT * file_state) :=
  if lineLength =? 0 then Ret (WMT_INVALID_PARAMETER, f)
  else
    '(localResult, l) ← AddRegisterToLayout (layout (l_section f)) pLine (l_totalOffset f) lineLength (l_lineNumber f) maxRegisterIndex;
    let s := with_layout (l_section f) l in
    if bool_decide (localResult = WMT_OUT_OF_RANGE) then
      Ret (WMT_OUT_OF_RANGE, mkFile s (l_totalOffset f) (l_lineNumber f) (l_bytesPerRegister f) (u32 (l_lineNumber f)))
    else
      let '(s, b) :=
        if (l_bytesPerRegister f =? 0) && bool_decide (localResult = WMT_SUCCESS)
        then let b := detect_bytes pLine in (with_bytes s b, b)
        else (s, l_bytesPerRegister f) in
      Ret (WMT_SUCCESS, mkFile s (u64 (l_totalOffset f + lineLength)) (u64 (l_lineNumber f + 1)) b (l_maxLineNumber f)).

(** The text in front of the first [stop]. *)
Fixpoint cut_before (stop : Z) (s : list Z) : list Z :=
  match s with c :: s' => if c =? stop then [] else c :: cut_before stop s' | [] => [] end.

(** [memccpy] into an array of nine zeros, and the stop byte cleared: without a stop byte,
    or the end of the text, among the nine the search for it leaves the array.  The bytes
    copied from behind the end of the text are not looked at, and are zeros here. *)
Definition field_array (s : list Z) (stop : Z) : outcome (list Z) :=
  let text := cut_before stop s in
  if (length text <? 9)%nat then Ret (text ++ replicate (9 - length text) 0) else UB.

(** @src src/spkcal/cirrus/tools/wbridge/LinuxDriverCommunication.cpp:1722-1788 HandleGetRegisterMapLine *)
Definition HandleGetRegisterMapLine (pLine : list Z) (lineNumber maxLineNumber : Z) (regvals : list CRegValuePair)
    : outcome (RESULT * Z * list CRegValuePair) :=
  if negb (maxLineNumber =? MAX_REGISTER) && (maxLineNumber <=? lineNumber) then Ret (WMT_OUT_OF_RANGE, lineNumber, regvals)
  else
    match strchr_from COLON_CHAR pLine with
    | None => Ret (WMT_NO_DATA, u64 (lineNumber + 1), regvals)
    | Some rest =>
        reg ← field_array pLine COLON_CHAR;
        value ← field_array (skip_blanks (drop 1 rest)) 10;
        Ret (WMT_SUCCESS, u64 (lineNumber + 1), regvals ++ [mkPair reg value])
    end.
