(* ===== verification/WbCodec.v ===== *)
(** * Reading and writing the register files of a codec

    Model of the codec part of [src/spkcal/cirrus/tools/wbridge/DeviceCommunication.cpp]:
    the kernel shows the registers of a codec as text files, which the bridge reads and
    writes with plain system calls.  The calls are the class [Files].  The functions get
    what they need of the object: whether a device is selected ([ready]), its sections,
    the highest register and line to be used. *)
From S2P Require Import Prelude DevStdlib DevArrays WbString WbResult WbDevice WbUtil WbLayout.
From stdpp Require Import strings.
#[local] Open Scope Z_scope.

(** [open], [lseek], [read] (with the bytes it delivers), [write], [close], whether
    [errno] is [EINTR]; and the bytes that a stream opened with [fopen] delivers. *)
Class Files (W : Type) := {
  f_open : list Z → W → Z * W;
  f_lseek : Z → Z → W → Z * W;
  f_read : Z → Z → W → Z * list Z * W;
  f_write : Z → list Z → W → Z * W;
  f_close : Z → W → W;
  f_EINTR : W → bool;
  f_stream : list Z → W → option (list Z) * W;
}.

(** ** Memory and lines *)

(** A buffer; a byte that was not written is [None]. *)
Abbreviation mem := (list (option Z)).

(** The string at the start of a buffer. *)
Fixpoint mem_str (m : mem) : outcome (list Z) :=
  match m with
  | Some c :: m' => if c =? 0 then Ret [] else s ← mem_str m'; Ret (c :: s)
  | _ => UB
  end.

(** The line at the start of a buffer, and what is behind its newline. *)
Fixpoint mem_line (m : mem) : outcome (list Z * option mem) :=
  match m with
  | Some c :: m' =>
      if c =? 0 then Ret ([], None)
      else if c =? 10 then Ret ([], Some m')
      else '(l, r) ← mem_line m'; Ret (c :: l, r)
  | _ => UB
  end.

(** The lines that [fgets] delivers with a buffer of [S n] bytes; [cur] is the line so far. *)
Fixpoint fgets_all (n : nat) (cur s : list Z) : list (list Z) :=
  match s with
  | [] => match cur with [] => [] | _ => [cur] end
  | c :: s' =>
      let cur := cur ++ [c] in
      if (c =? 10) || (length cur =? n)%nat then cur :: fgets_all n [] s' else fgets_all n cur s'
  end.

Section Codec.
Context {W : Type} {files : Files W}.

(** @src src/spkcal/cirrus/tools/wbridge/DeviceCommunication.cpp:1765-1791 OpenCodecFile
    [open] of a null path fails. *)
Definition OpenCodecFile (ready : bool) (path : option (list Z)) (w : W) : RESULT * Z * W :=
  if negb ready then (WMT_NO_DEVICE, -1, w)
  else
    match path with
    | None => (WMT_NO_DEVICE, -1, w)
    | Some path => let '(file, w) := f_open path w in ((if file <? 0 then WMT_NO_DEVICE else WMT_SUCCESS), file, w)
    end.

(** @src src/spkcal/cirrus/tools/wbridge/DeviceCommunication.cpp:1952-1970 ReadFromOffset (the loop)
    At most [fuel] calls of [read]; the bytes read so far are [parsed]. *)
Fixpoint read_loop (fuel : nat) (file bytesRemaining : Z) (parsed : list Z) (w : W) : outcome (option (list Z) * W) :=
  match fuel with
  | O => OutOfFuel
  | S fuel' =>
      let '(bytesRead, bs, w) := f_read file bytesRemaining w in
      if bytesRead =? 0 then Ret (Some parsed, w)
      else if bytesRead <? 0 then
        if f_EINTR w then read_loop fuel' file bytesRemaining parsed w else Ret (None, w)
      else
        let bytesRemaining := bytesRemaining - bytesRead in
        if 0 <? bytesRemaining then read_loop fuel' file bytesRemaining (parsed ++ bs) w
        else Ret (Some (parsed ++ bs), w)
  end.

(** The buffer after some bytes were read into it: a zero behind them if there is room. *)
Definition filled (bufferSize : nat) (bs : list Z) : mem :=
  take bufferSize ((Some <$> bs) ++ [Some 0] ++ replicate (bufferSize - length bs) None).

(** @src src/spkcal/cirrus/tools/wbridge/DeviceCommunication.cpp:1895-1984 ReadFromOffset (from a file)
    Every call of [read] that delivers something delivers a byte. *)
Definition ReadFromFile (codecFile offset byteCount : Z) (bufferSize : nat) (w : W) : outcome (RESULT * mem * W) :=
  let untouched := replicate bufferSize None in
  if codecFile <? 0 then Ret (WMT_NO_DEVICE, untouched, w)
  else
    let '(offsetLocation, w) := f_lseek codecFile offset w in
    if offsetLocation =? -1 then Ret (WMT_COMMS_ERR, untouched, w)
    else
      let bytesRemaining := u64 (byteCount + 2) in
      let '(result, bytesRemaining) :=
        if Z.of_nat bufferSize <? bytesRemaining then (WMT_TRUNCATED, Z.of_nat bufferSize - 1) else (WMT_SUCCESS, bytesRemaining) in
      '(parsed, w) ← read_loop (S (Z.to_nat bytesRemaining)) codecFile bytesRemaining [] w;
      match parsed with
      | None => Ret (WMT_COMMS_ERR, untouched, w)
      | Some parsed => Ret (result, filled bufferSize parsed, w)
      end.

(** @src src/spkcal/cirrus/tools/wbridge/DeviceCommunication.cpp:1825-1861 ReadFromOffset (from a path) *)
Definition ReadFromOffset (ready : bool) (path : option (list Z)) (offset byteCount : Z) (bufferSize : nat) (w : W)
    : outcome (RESULT * mem * W) :=
  if negb ready then Ret (WMT_NO_DEVICE, replicate bufferSize None, w)
  else
    let '(result, file, w) := OpenCodecFile ready path w in
    if bool_decide (result ≠ WMT_SUCCESS) then Ret (result, replicate bufferSize None, w)
    else
      '(result, m, w) ← ReadFromFile file offset byteCount bufferSize w;
      Ret (result, m, f_close file w).

(** @src src/spkcal/cirrus/tools/wbridge/DeviceCommunication.cpp:2004-2044 WriteToCodecFile *)
Definition WriteToCodecFile (codecFile regAddr value : Z) (w : W) : RESULT * W :=
  if codecFile <? 0 then (WMT_NO_DEVICE, w)
  else
    let request := take 63 (print_x regAddr ++ [32] ++ print_x value ++ [10]) in
    let '(status, w) := f_write codecFile request w in
    (if negb (status =? Z.of_nat (length request)) then WMT_COMMS_ERR else WMT_SUCCESS, w).

(** ** Single registers *)

Context (ready : bool) (sections : RegisterSections).

(** The text from "<addr>:" on is searched for the value. *)
Definition find_value (readBuffer : list Z) (regAddr : Z) : outcome (RESULT * option Z) :=
  match strstr readBuffer (take 31 (print_x regAddr ++ [COLON_CHAR])) with
  | None => Ret (WMT_REG_NOT_PRESENT, None)
  | Some valuePos => ParseReadValue valuePos
  end.

(** @src src/spkcal/cirrus/tools/wbridge/DeviceCommunication.cpp:190-250 ReadCodecRegister *)
Definition ReadCodecRegister (regAddr : Z) (w : W) : outcome (RESULT * option Z * W) :=
  if negb ready then Ret (WMT_NO_DEVICE, None, w)
  else
    pLineInfo ← FindInSections sections regAddr;
    match pLineInfo with
    | None => Ret (WMT_REG_NOT_PRESENT, None, w)
    | Some info =>
        '(result, readBuffer, w) ← ReadFromOffset ready (GetCodecPath sections regAddr) (offset info) (lineLength info) PATH_MAX w;
        if bool_decide (result ≠ WMT_SUCCESS) then Ret (result, None, w)
        else
          s ← mem_str readBuffer;
          '(result, value) ← find_value s regAddr;
          Ret (result, value, w)
    end.

(** @src src/spkcal/cirrus/tools/wbridge/DeviceCommunication.cpp:462-494 WriteCodecRegister *)
Definition WriteCodecRegister (regAddr value : Z) (w : W) : outcome (RESULT * W) :=
  if negb ready then Ret (WMT_NO_DEVICE, w)
  else
    let '(result, file, w) := OpenCodecFile ready (GetCodecPath sections regAddr) w in
    if bool_decide (result ≠ WMT_SUCCESS) then Ret (result, w)
    else
      let '(result, w) := WriteToCodecFile file regAddr value w in
      Ret (result, f_close file w).

(** ** Blocks *)

(** The addresses of a block: from [addr] in steps, as many as fit below the end, which is
    computed with 32 bits. *)
Definition block_addresses (addr length bytesPerRegister increment : Z) : list Z :=
  let end_ := u32 (addr + u32 (length / bytesPerRegister * increment)) in
  (λ k, addr + k * increment) <$> seqZ 0 ((end_ - addr + increment - 1) / increment).

(** @src src/spkcal/cirrus/tools/wbridge/DeviceCommunication.cpp:317-339 BlockReadCodec (the lines)
    The number of bytes to read, and where the first register of the block starts. *)
Fixpoint block_extent (addresses : list Z) (bytesToRead startOffset : Z) : outcome (Z * Z) :=
  match addresses with
  | [] => Ret (bytesToRead, startOffset)
  | regAddr :: addresses' =>
      pLineInfo ← FindInSections sections regAddr;
      match pLineInfo with
      | None => block_extent addresses' bytesToRead startOffset
      | Some info =>
          block_extent addresses' (u32 (bytesToRead + lineLength info))
            (if startOffset =? MAX_REGISTER then offset info else startOffset)
      end
  end.

(** The bytes of a register, the highest first; none when there are eight of them. *)
Definition value_bytes (bytesPerRegister regval : Z) : list Z :=
  let b k := Z.land (Z.shiftr regval (8 * k)) 0xFF in
  if bytesPerRegister =? 4 then [b 3; b 2; b 1; b 0]
  else if bytesPerRegister =? 2 then [b 1; b 0]
  else if bytesPerRegister =? 1 then [b 0]
  else [].

Fixpoint store_bytes (data : list (option Z)) (dataIndex : Z) (bs : list Z) : outcome (list (option Z)) :=
  match bs with
  | [] => Ret data
  | b :: bs' => data ← arr_set data dataIndex (Some b); store_bytes data (dataIndex + 1) bs'
  end.

(** @src src/spkcal/cirrus/tools/wbridge/DeviceCommunication.cpp:376-433 BlockReadCodec (the values)
    [readBuffer] is [None] when nothing was read; a register that is missing or cannot be
    read counts as zero. *)
Fixpoint block_values (addresses : list Z) (bytesPerRegister : Z) (readBuffer : option mem) (data : list (option Z)) (dataIndex : Z)
    : outcome (RESULT * list (option Z)) :=
  match addresses with
  | [] => Ret (WMT_SUCCESS, data)
  | regAddr :: addresses' =>
      pLineInfo ← FindInSections sections regAddr;
      '(result, value) ←
        (match pLineInfo, readBuffer with
         | Some _, Some m => s ← mem_str m; find_value s regAddr
         | _, _ => Ret (WMT_REG_NOT_PRESENT, None)
         end);
      if bool_decide (result = WMT_REG_NOT_PRESENT) || bool_decide (result = WMT_READ_FAILED) || bool_decide (result = WMT_SUCCESS) then
        let bs := value_bytes bytesPerRegister (default 0 value) in
        data ← store_bytes data dataIndex bs;
        block_values addresses' bytesPerRegister readBuffer data (dataIndex + Z.of_nat (length bs))
      else Ret (result, data)
  end.

(** @src src/spkcal/cirrus/tools/wbridge/DeviceCommunication.cpp:268-445 BlockReadCodec
    The buffer has two bytes more than the lines; [malloc] does not fail. *)
Definition BlockReadCodec (addr : Z) (data : list (option Z)) (w : W) : outcome (RESULT * list (option Z) * W) :=
  if negb ready then Ret (WMT_NO_DEVICE, data, w)
  else
    bytes ← GetRegisterBytes sections addr;
    increment ← GetAddressIncrement sections addr;
    match GetCodecPath sections addr with
    | None => Ret (WMT_NO_DEVICE, data, w)
    | Some path =>
        if (bytes =? 0) || (increment =? 0) then Ret (WMT_NO_DEVICE, data, w)
        else
          let addresses := block_addresses addr (Z.of_nat (length data)) bytes increment in
          '(bytesToRead, startOffset) ← block_extent addresses 0 MAX_REGISTER;
          '(result, readBuffer, w) ←
            (if negb (bytesToRead =? 0) && negb (startOffset =? MAX_REGISTER) then
               '(result, m, w) ← ReadFromOffset ready (Some path) startOffset bytesToRead (Z.to_nat (u32 (bytesToRead + 2))) w;
               Ret (result, Some m, w)
             else Ret (WMT_SUCCESS, None, w));
          if bool_decide (result ≠ WMT_SUCCESS) then Ret (result, data, w)
          else
            '(result, data) ← block_values addresses bytes readBuffer data 0;
            Ret (result, data, w)
    end.

(** The value of a register from its bytes; a negative int that the shift of
    the highest byte yields wraps around. *)
Definition bytes_value (bytesPerRegister : Z) (data : list Z) (dataIndex : Z) : outcome (Z * Z) :=
  let get k := arr_get data (dataIndex + k) in
  if bytesPerRegister =? 4 then
    b3 ← get 0; b2 ← get 1; b1 ← get 2; b0 ← get 3;
    Ret (u32 (Z.shiftl b3 24 + Z.shiftl b2 16 + Z.shiftl b1 8 + b0), dataIndex + 4)
  else if bytesPerRegister =? 2 then b1 ← get 0; b0 ← get 1; Ret (Z.shiftl b1 8 + b0, dataIndex + 2)
  else if bytesPerRegister =? 1 then b0 ← get 0; Ret (b0, dataIndex + 1)
  else Ret (0, dataIndex).

(** @src src/spkcal/cirrus/tools/wbridge/DeviceCommunication.cpp:558-593 BlockWriteCodec (the loop) *)
Fixpoint write_values (addresses : list Z) (bytesPerRegister file : Z) (data : list Z) (dataIndex : Z) (w : W) : outcome (RESULT * W) :=
  match addresses with
  | [] => Ret (WMT_SUCCESS, w)
  | regAddr :: addresses' =>
      '(regval, dataIndex) ← bytes_value bytesPerRegister data dataIndex;
      let '(result, w) := WriteToCodecFile file regAddr regval w in
      if bool_decide (result = WMT_REG_NOT_PRESENT) || bool_decide (result = WMT_SUCCESS)
      then write_values addresses' bytesPerRegister file data dataIndex w
      else Ret (result, w)
  end.

(** @src src/spkcal/cirrus/tools/wbridge/DeviceCommunication.cpp:511-600 BlockWriteCodec *)
Definition BlockWriteCodec (addr : Z) (data : list Z) (w : W) : outcome (RESULT * W) :=
  if negb ready then Ret (WMT_NO_DEVICE, w)
  else
    bytes ← GetRegisterBytes sections addr;
    increment ← GetAddressIncrement sections addr;
    match GetCodecPath sections addr with
    | None => Ret (WMT_NO_DEVICE, w)
    | Some path =>
        if (bytes =? 0) || (increment =? 0) then Ret (WMT_NO_DEVICE, w)
        else
          let '(result, file, w) := OpenCodecFile ready (Some path) w in
          if bool_decide (result ≠ WMT_SUCCESS) then Ret (result, w)
          else
            '(result, w) ← write_values (block_addresses addr (Z.of_nat (length data)) bytes increment) bytes file data 0 w;
            Ret (result, f_close file w)
    end.
End Codec.
