(* ===== verification/WbCodecLayout.v ===== *)
(** * The layout of a codec's register files

    Model of the functions of [src/spkcal/cirrus/tools/wbridge/DeviceCommunication.cpp] that
    go through the lines of a range file or of a register file. *)
From S2P Require Import Prelude DevStdlib DevArrays WbString WbResult WbDevice WbUtil WbLayout WbCodec.
From stdpp Require Import strings.
#[local] Open Scope Z_scope.

Section CodecLayout.
Context {W : Type} {files : Files W} (ready : bool) (maxRegisterIndex : Z).

(** @src src/spkcal/cirrus/tools/wbridge/DeviceCommunication.cpp:1341-1366 InitialiseLayoutWithRanges (the first lines)
    Up to the line that settles the increment; the line length leaves out the newline. *)
Fixpoint first_lines (fuel : nat) (pLine : mem) (s : RegisterSection) (f : line_facts) : outcome (RegisterSection * line_facts) :=
  match fuel with
  | O => OutOfFuel
  | S fuel' =>
      '(line, pNextLine) ← mem_line pLine;
      let '(result, s, f) := HandleRegisterLineForRanges line (Z.of_nat (length line)) s f in
      if bool_decide (result = WMT_SUCCESS) then Ret (s, f)
      else match pNextLine with Some m => first_lines fuel' m s f | None => Ret (s, f) end
  end.

(** @src src/spkcal/cirrus/tools/wbridge/DeviceCommunication.cpp:1373-1394 InitialiseLayoutWithRanges (the range file) *)
Fixpoint range_lines (lines : list (list Z)) (f : line_facts) (r : range_state) : outcome (RESULT * range_state) :=
  match lines with
  | [] => Ret (WMT_SUCCESS, r)
  | line :: lines' =>
      '(result, r) ← HandleRangeFileLine (c_str line) (f_lineLength f) maxRegisterIndex (f_readAddresses f) r;
      if bool_decide (result = WMT_OUT_OF_RANGE) then Ret (WMT_SUCCESS, r)
      else if bool_decide (result ≠ WMT_SUCCESS) then Ret (result, r)
      else range_lines lines' f r
  end.

(** @src src/spkcal/cirrus/tools/wbridge/DeviceCommunication.cpp:1268-1406 InitialiseLayoutWithRanges
    With the section and the highest line, which change also when it fails. *)
Definition InitialiseLayoutWithRanges (s : RegisterSection) (maxLineNumber : Z) (w : W)
    : outcome (RESULT * RegisterSection * Z * W) :=
  if negb ready then Ret (WMT_NO_DEVICE, s, maxLineNumber, w)
  else
    let '(result, rangeFile) := GetRangeFilePath s PATH_MAX in
    if bool_decide (result ≠ WMT_SUCCESS) then Ret (result, s, maxLineNumber, w)
    else
      let '(pFile, w) := f_stream rangeFile w in
      match pFile with
      | None => Ret (WMT_NO_DATA, s, maxLineNumber, w)
      | Some stream =>
          '(result, lineBuffer, w) ← ReadFromOffset ready (Some (regPath s)) 0 (Z.of_nat PATH_MAX - 2) PATH_MAX w;
          if bool_decide (result ≠ WMT_SUCCESS) && bool_decide (result ≠ WMT_TRUNCATED) then Ret (result, s, maxLineNumber, w)
          else
            '(s, f) ← first_lines (S (length lineBuffer)) lineBuffer s (mkFacts 0 0 0 []);
            '(result, r) ← range_lines (fgets_all (PATH_MAX - 1) [] stream) f (mkRange s 0 0 (f_addressIncrement f) maxLineNumber);
            if bool_decide (result ≠ WMT_SUCCESS) then Ret (result, r_section r, r_maxLineNumber r, w)
            else Ret (WMT_SUCCESS, EnsureAddressIncrementSet (r_section r) (r_addressIncrement r), r_maxLineNumber r, w)
      end.

(** @src src/spkcal/cirrus/tools/wbridge/DeviceCommunication.cpp:1456-1470 InitialiseLayoutFromRegisters (the loop) *)
Fixpoint register_lines_of (lines : list (list Z)) (f : file_state) : outcome file_state :=
  match lines with
  | [] => Ret f
  | line :: lines' =>
      let line := c_str line in
      '(localResult, f) ← HandleRegisterFileLine line (Z.of_nat (length line)) maxRegisterIndex f;
      if bool_decide (localResult = WMT_OUT_OF_RANGE) then Ret f else register_lines_of lines' f
  end.

(** @src src/spkcal/cirrus/tools/wbridge/DeviceCommunication.cpp:1421-1478 InitialiseLayoutFromRegisters *)
Definition InitialiseLayoutFromRegisters (s : RegisterSection) (maxLineNumber : Z) (w : W)
    : outcome (RESULT * RegisterSection * Z * W) :=
  if negb ready then Ret (WMT_NO_DEVICE, s, maxLineNumber, w)
  else
    let '(pFile, w) := f_stream (regPath s) w in
    match pFile with
    | None => Ret (WMT_READ_FAILED, s, maxLineNumber, w)
    | Some stream =>
        f ← register_lines_of (fgets_all (PATH_MAX - 1) [] stream) (mkFile s 0 0 0 maxLineNumber);
        Ret (WMT_SUCCESS, l_section f, l_maxLineNumber f, w)
    end.

(** @src src/spkcal/cirrus/tools/wbridge/LinuxDriverCommunication.cpp:475-502 InitialiseRegisterLayout (a section)
    From the range file, or else from the register file with an increment of one. *)
Definition InitialiseSection (s : RegisterSection) (maxLineNumber : Z) (w : W) : outcome (RESULT * RegisterSection * Z * W) :=
  '(result, s, maxLineNumber, w) ← InitialiseLayoutWithRanges s maxLineNumber w;
  if bool_decide (result = WMT_SUCCESS) then Ret (WMT_SUCCESS, s, maxLineNumber, w)
  else InitialiseLayoutFromRegisters (with_increment s 1) maxLineNumber w.

(** @src src/spkcal/cirrus/tools/wbridge/DeviceCommunication.cpp:1526-1530 GetRegisterMap (the loop) *)
Fixpoint map_lines (lines : list (list Z)) (lineNumber maxLineNumber : Z) (regvals : list CRegValuePair) : outcome (list CRegValuePair) :=
  match lines with
  | [] => Ret regvals
  | line :: lines' =>
      '(result, lineNumber, regvals) ← HandleGetRegisterMapLine (c_str line) lineNumber maxLineNumber regvals;
      if bool_decide (result = WMT_OUT_OF_RANGE) then Ret regvals else map_lines lines' lineNumber maxLineNumber regvals
  end.

(** @src src/spkcal/cirrus/tools/wbridge/DeviceCommunication.cpp:1492-1544 GetRegisterMap
    [fopen] of a null path and [back] of an empty vector are undefined behaviour. *)
Definition GetRegisterMapOf (sections : RegisterSections) (maxLineNumber : Z) (w : W) : outcome (RESULT * list CRegValuePair * W) :=
  if negb ready then Ret (WMT_NO_DEVICE, [], w)
  else
    path ← or_ub (GetCodecPath sections 0);
    let '(pFile, w) := f_stream path w in
    match pFile with
    | None => Ret (WMT_NO_DEVICE, [], w)
    | Some stream =>
        regvals ← map_lines (fgets_all (PATH_MAX - 1) [] stream) 0 maxLineNumber [];
        _ ← or_ub (last regvals);
        Ret (WMT_SUCCESS, regvals, w)
    end.
End CodecLayout.
