(* ===== verification/WbCodecText.v ===== *)
(** * The text of a register file

    What the kernel shows for the registers of a codec, a line of fixed length for each, and
    how the parsers of the bridge read it. *)
From S2P Require Import Prelude DevStdlib DevArrays WbString WbResult WbCommand WbDevice WbUtil WbPaths WbUtilSpec WbLayout WbCodec WbCodecLayout.
From stdpp Require Import sorting strings.
#[local] Open Scope Z_scope.

(** ** Numbers *)

Lemma digit_hex_lower v : 0 ≤ v < 16 → digit (upper (hex_digit_lower v)) = Some v.
Proof.
  intros Hv. assert (∃ k, v = Z.of_nat k ∧ (k < 16)%nat) as (k & -> & Hk) by (exists (Z.to_nat v); lia).
  by do 16 (destruct k as [|k]; [done|]); lia.
Qed.

Lemma hex_lower_value fuel n : 0 ≤ n < 16 ^ Z.of_nat fuel → (0 < fuel)%nat →
  hex_value 0 (hex_lower fuel n) = Some n ∧ hex_lower fuel n ≠ [].
Proof.
  revert n. induction fuel as [|fuel IH]; intros n Hn Hf; [lia|]. cbn [hex_lower].
  destruct (Z.ltb_spec n 16) as [Hs|Hs].
  - split; [|done]. cbn [hex_value]. rewrite digit_hex_lower by lia. cbn [hex_value]. by rewrite Z.mul_0_r.
  - rewrite Nat2Z.inj_succ, Z.pow_succ_r in Hn by lia. destruct fuel as [|fuel]; [simpl in Hn; lia|].
    destruct (IH (n / 16)) as [IHv _]; [|lia|].
    { split; [apply Z.div_pos; lia|apply Z.div_lt_upper_bound; lia]. }
    split; [|by destruct (hex_lower (S fuel) (n / 16))].
    rewrite (hex_value_app _ _ _ (n / 16)) by done. cbn [hex_value].
    rewrite (digit_hex_lower (n mod 16) (Z.mod_pos_bound n 16 ltac:(lia))). cbn [hex_value]. f_equal.
    pose proof (Z.div_mod n 16). lia.
Qed.

Lemma hex_lower_short fuel n w : 0 ≤ n < 16 ^ Z.of_nat w → (0 < w)%nat → (length (hex_lower fuel n) ≤ w)%nat.
Proof.
  revert n w. induction fuel as [|fuel IH]; intros n w Hn Hw; cbn [hex_lower length]; [lia|].
  destruct (Z.ltb_spec n 16); [cbn [length]; lia|]. rewrite length_app. cbn [length].
  destruct w as [|[|w]]; [lia|simpl in Hn; lia|]. assert (length (hex_lower fuel (n / 16)) ≤ S w)%nat; [|lia].
  apply IH; [|lia]. rewrite Nat2Z.inj_succ, Z.pow_succ_r in Hn by lia.
  split; [apply Z.div_pos; lia|apply Z.div_lt_upper_bound; lia].
Qed.

(** A number in so many digits. *)
Definition padded (w : nat) (v : Z) : list Z := replicate (w - length (print_x v)) 48 ++ print_x v.

Lemma hex_value_zeros k s : hex_value 0 (replicate k 48 ++ s) = hex_value 0 s.
Proof. induction k as [|k IH]; [done|]. cbn [replicate app hex_value]. exact IH. Qed.

Section Padded.
Context (w : nat) (v : Z) (Hw : (0 < w ≤ 8)%nat) (Hv : 0 ≤ v < 16 ^ Z.of_nat w).

Lemma print_x_digits : hex_value 0 (print_x v) = Some v ∧ print_x v ≠ [] ∧ (length (print_x v) ≤ w)%nat.
Proof.
  assert (0 ≤ v < 16 ^ Z.of_nat 8).
  { split; [lia|]. eapply Z.lt_le_trans; [apply Hv|]. apply Z.pow_le_mono_r; lia. }
  destruct (hex_lower_value 8 v) as [E Hne]; [done|lia|]. split_and!; [done..|]. apply hex_lower_short; [done|lia].
Qed.

Lemma padded_value : hex_value 0 (padded w v) = Some v.
Proof. unfold padded. rewrite hex_value_zeros. apply print_x_digits. Qed.
Lemma padded_ne : padded w v ≠ [].
Proof. unfold padded. intros [_ E]%app_eq_nil. by apply print_x_digits. Qed.
Lemma length_padded : length (padded w v) = w.
Proof. unfold padded. rewrite length_app, length_replicate. destruct print_x_digits as (_ & _ & H). lia. Qed.
Lemma padded_digits : Forall (λ c, IsHexDigit c = true) (padded w v).
Proof. eapply hex_value_digits, padded_value. Qed.
End Padded.

(** ** [sscanf] on digits *)

Lemma hex_run_digits h rest : Forall (λ c, IsHexDigit c = true) h → number_ends rest → hex_run (h ++ rest) = (h, rest).
Proof.
  induction 1 as [|c h Hc _ IH]; intros Hr; cbn [app hex_run].
  - destruct rest as [|c rest]; [done|]. cbn. by rewrite (proj1 Hr).
  - by rewrite Hc, (IH Hr).
Qed.

Lemma scan_x_digits h v rest : h ≠ [] → hex_value 0 h = Some v → v < 2 ^ 32 → number_ends rest → scan_x (h ++ rest) = Some (v, rest).
Proof.
  intros Hn Hv Hmax Hr. pose proof (hex_value_digits _ _ _ Hv) as Hd. pose proof (hex_value_bound 0 h v ltac:(lia) Hv) as Hb.
  unfold scan_x. pose proof (hex_run_digits h rest Hd Hr) as Erun.
  destruct h as [|c h]; [done|]. apply Forall_cons_1 in Hd as [Hc Hd].
  cbn [app]. rewrite skip_space_digit by done. destruct (IsHexDigit_plain c Hc) as (_ & H1 & H2 & _).
  destruct (Z.eqb_spec c 45); [done|]. destruct (Z.eqb_spec c 43); [done|].
  assert (match h ++ rest with x :: s' => if (c =? 48) && ((x =? 120) || (x =? 88)) then s' else c :: h ++ rest | [] => c :: h ++ rest end
    = c :: h ++ rest) as ->.
  { destruct Hd as [|x h Hx Hd]; cbn [app].
    - destruct rest as [|x rest]; [done|]. destruct Hr as (_ & Hx1 & Hx2).
      destruct (Z.eqb_spec x 120), (Z.eqb_spec x 88); try done. by rewrite andb_false_r.
    - destruct (IsHexDigit_plain x Hx) as (_ & _ & _ & Hx1 & Hx2 & _).
      destruct (Z.eqb_spec x 120), (Z.eqb_spec x 88); try done. by rewrite andb_false_r. }
  change (c :: h ++ rest) with ((c :: h) ++ rest). rewrite Erun. rewrite <-(app_nil_r (c :: h)) at 1.
  rewrite (hex_digits_spec 0 (c :: h) v []) by done. f_equal. f_equal.
  rewrite Z.min_l by (unfold ULONG_MAX; lia). apply wrapu_small. lia.
Qed.

(** ** Register files *)

(** The digits of an address and of a value, and the registers with their values. *)
Record regfile := mkRegfile { rf_aw : nat; rf_vw : nat; rf_regs : list (Z * Z) }.

Definition line_size (f : regfile) : nat := rf_aw f + rf_vw f + 3.
Definition reg_body (f : regfile) (av : Z * Z) : list Z := padded (rf_aw f) av.1 ++ [58; 32] ++ padded (rf_vw f) av.2.
Definition reg_line (f : regfile) (av : Z * Z) : list Z := reg_body f av ++ [10].
Definition file_text (f : regfile) : list Z := concat (reg_line f <$> rf_regs f).

Definition reg_ok (f : regfile) (av : Z * Z) : Prop := 0 ≤ av.1 < 16 ^ Z.of_nat (rf_aw f) ∧ 0 ≤ av.2 < 16 ^ Z.of_nat (rf_vw f).

(** Addresses in ascending order and values of one, two or four bytes, as the kernel shows
    them; offsets fit in an int. *)
Definition regfile_ok (f : regfile) : Prop :=
  (0 < rf_aw f ≤ 8)%nat ∧ (rf_vw f = 2 ∨ rf_vw f = 4 ∨ rf_vw f = 8)%nat ∧
  StronglySorted (λ x y, x.1 < y.1) (rf_regs f) ∧ Forall (reg_ok f) (rf_regs f) ∧
  Z.of_nat (line_size f * length (rf_regs f)) ≤ INT_MAX.

Section RegFile.
Context (f : regfile) (Hf : regfile_ok f).

Lemma rf_widths : (0 < rf_aw f ≤ 8)%nat ∧ (0 < rf_vw f ≤ 8)%nat.
Proof. destruct Hf as (? & ? & _). lia. Qed.
Lemma addr_small a : 0 ≤ a < 16 ^ Z.of_nat (rf_aw f) → 0 ≤ a < 2 ^ 32.
Proof.
  intros [Ha Hb]. split; [done|]. eapply Z.lt_le_trans; [exact Hb|]. change (2 ^ 32) with (16 ^ 8). pose proof rf_widths. apply Z.pow_le_mono_r; lia.
Qed.
Lemma value_small a : 0 ≤ a < 16 ^ Z.of_nat (rf_vw f) → 0 ≤ a < 2 ^ 32.
Proof.
  intros [Ha Hb]. split; [done|]. eapply Z.lt_le_trans; [exact Hb|]. change (2 ^ 32) with (16 ^ 8). pose proof rf_widths. apply Z.pow_le_mono_r; lia.
Qed.

Context (av : Z * Z) (Hav : reg_ok f av).

Lemma length_reg_body : S (length (reg_body f av)) = line_size f.
Proof.
  destruct Hav, rf_widths. unfold reg_body, line_size. rewrite !length_app. cbn [length]. rewrite !length_padded by done. lia.
Qed.
Lemma length_reg_line : length (reg_line f av) = line_size f.
Proof. rewrite <-length_reg_body. unfold reg_line. rewrite length_app. cbn [length]. lia. Qed.

(** Neither zeros nor newlines in a line but the one at its end. *)
Lemma reg_body_plain : Forall (λ c, c ≠ 0 ∧ c ≠ 10 ∧ c ≠ 35) (reg_body f av).
Proof.
  assert (Hd : ∀ c, IsHexDigit c = true → c ≠ 0 ∧ c ≠ 10 ∧ c ≠ 35).
  { intros c Hc. destruct (IsHexDigit_plain c Hc) as (Hs & _ & _ & _ & _ & H0). split_and!; [done| |]; intros ->; done. }
  destruct Hav, rf_widths. unfold reg_body. rewrite !Forall_app. split_and!; [|by repeat constructor|];
    (eapply Forall_impl; [by apply padded_digits|exact Hd]).
Qed.

Lemma scan_register_body t : scan_register (reg_body f av ++ t) = Some av.1.
Proof.
  destruct Hav as [Ha _]. destruct rf_widths as [Hw _]. unfold scan_register, reg_body. rewrite <-!app_assoc.
  rewrite (scan_x_digits (padded (rf_aw f) av.1) av.1); [done|by apply padded_ne|by apply padded_value|by apply addr_small|done].
Qed.
End RegFile.

Lemma text_cons {A} (g : A → list Z) x l : concat (g <$> x :: l) = g x ++ concat (g <$> l).
Proof. done. Qed.

Section Lines.
Context (f : regfile) (Hf : regfile_ok f).

Lemma length_file_text regs : Forall (reg_ok f) regs → length (concat (reg_line f <$> regs)) = (line_size f * length regs)%nat.
Proof.
  induction 1 as [|av regs Hav _ IH]; [cbn; lia|]. rewrite text_cons, length_app, IH, (length_reg_line f Hf av Hav). cbn [length]. lia.
Qed.

(** [fgets] delivers the text line by line. *)
Lemma fgets_run n cur s rest : Forall (λ c, c ≠ 10) s → (length cur + length s + 1 ≤ n)%nat →
  fgets_all n cur (s ++ 10 :: rest) = (cur ++ s ++ [10]) :: fgets_all n [] rest.
Proof.
  intros Hs. revert cur. induction Hs as [|c s Hc _ IH]; intros cur Hn; cbn [app fgets_all length] in *; [done|].
  destruct (Z.eqb_spec c 10); [done|]. rewrite length_app. cbn [length orb].
  destruct (Nat.eqb_spec (length cur + 1) n); [lia|]. rewrite IH by (rewrite length_app; cbn [length]; lia). by rewrite <-app_assoc.
Qed.

Lemma fgets_lines n regs : Forall (reg_ok f) regs → (line_size f ≤ n)%nat →
  fgets_all n [] (concat (reg_line f <$> regs)) = reg_line f <$> regs.
Proof.
  intros Hr Hn. induction Hr as [|av regs Hav Hr IH]; [done|]. rewrite text_cons, fmap_cons.
  unfold reg_line at 1. rewrite <-app_assoc. cbn [app].
  pose proof (length_reg_body f Hf av Hav). rewrite fgets_run; [f_equal; exact IH| |cbn [length]; lia].
  eapply Forall_impl; [by apply reg_body_plain|]. by intros c (_ & ? & _).
Qed.

Lemma c_str_line av : reg_ok f av → c_str (reg_line f av) = reg_line f av.
Proof.
  intros Hav. apply c_str_id. unfold reg_line. rewrite no_nul_app. split.
  - intros Hin. pose proof (reg_body_plain f Hf av Hav) as Hs. rewrite Forall_forall in Hs. by destruct (Hs 0 Hin).
  - unfold no_nul. by apply (bool_decide_unpack _); vm_compute.
Qed.

Lemma line_size_small : (line_size f < PATH_MAX - 2)%nat.
Proof. pose proof (rf_widths f Hf). unfold line_size, PATH_MAX. lia. Qed.
End Lines.
