(* ===== verification/WbCodecFiles.v ===== *)
(** * The files of a codec

    What the bridge relies on of the kernel: a register file can be opened, read from the
    start of any line, streamed, and written with a line "<addr> <value>", which changes that
    register and nothing else.  A read delivers whole lines, at least one of them if there
    is one and the read has room for two bytes more.  [disk] keeps the contract. *)
From S2P Require Import Prelude DevStdlib DevArrays WbString WbResult WbCommand WbDevice WbUtil WbPaths WbUtilSpec WbLayout WbCodec WbCodecLayout WbCodecText.
From stdpp Require Import strings.
#[local] Open Scope Z_scope.

(** A file is a register file or plain text. *)
Inductive codec_file := RegFile (f : regfile) | TextFile (text : list Z).
Definition text_of (c : codec_file) : list Z := match c with RegFile f => file_text f | TextFile t => t end.

(** The registers after a write. *)
Definition set_reg (f : regfile) (a v : Z) : regfile :=
  mkRegfile (rf_aw f) (rf_vw f) ((λ av, if av.1 =? a then (a, v) else av) <$> rf_regs f).

(** What is written to a register. *)
Definition write_text (a v : Z) : list Z := print_x a ++ [32] ++ print_x v ++ [10].

(** Some lines, and where a line starts. *)
Definition lines_text (f : regfile) (k j : nat) : list Z := concat (reg_line f <$> take j (drop k (rf_regs f))).
Definition line_pos (f : regfile) (k : nat) : Z := Z.of_nat (line_size f) * Z.of_nat k.

Lemma length_lines_text f k j : regfile_ok f → (k + j ≤ length (rf_regs f))%nat → Z.of_nat (length (lines_text f k j)) = line_pos f j.
Proof.
  intros Hf Hk. unfold lines_text, line_pos. pose proof Hf as (_ & _ & _ & Hr & _).
  rewrite (length_file_text f Hf) by by apply Forall_take, Forall_drop. rewrite length_take, length_drop, Nat.min_l, Nat2Z.inj_mul by lia. done.
Qed.

Lemma lines_text_app f k j m : lines_text f k j ++ lines_text f (k + j) m = lines_text f k (j + m).
Proof. unfold lines_text. rewrite <-concat_app, <-fmap_app, <-drop_drop, take_take_drop. done. Qed.

Class CodecFiles (W : Type) `{Files W} := {
  file_at : W → list Z → option codec_file;
  fd_at : W → Z → option (list Z * Z);
  open_law p w : is_Some (file_at w p) → ∃ fd w', f_open p w = (fd, w') ∧ 0 ≤ fd ∧ fd_at w' fd = Some (p, 0) ∧ file_at w' = file_at w;
  lseek_law fd p pos off w : fd_at w fd = Some (p, pos) → 0 ≤ off →
    ∃ w', f_lseek fd off w = (off, w') ∧ fd_at w' fd = Some (p, off) ∧ file_at w' = file_at w;
  read_law fd p k n f w : fd_at w fd = Some (p, line_pos f k) → file_at w p = Some (RegFile f) → regfile_ok f → (k ≤ length (rf_regs f))%nat → 0 < n →
    ∃ j w', f_read fd n w = (Z.of_nat (length (lines_text f k j)), lines_text f k j, w') ∧ (k + j ≤ length (rf_regs f))%nat ∧ line_pos f j ≤ n ∧
      (j = 0%nat → n < line_pos f 1 + 2 ∨ k = length (rf_regs f)) ∧ fd_at w' fd = Some (p, line_pos f (k + j)) ∧ file_at w' = file_at w;
  write_law fd p pos f a v w : fd_at w fd = Some (p, pos) → file_at w p = Some (RegFile f) → regfile_ok f →
    a ∈ (rf_regs f).*1 → 0 ≤ v < 16 ^ Z.of_nat (rf_vw f) →
    ∃ w', f_write fd (write_text a v) w = (Z.of_nat (length (write_text a v)), w') ∧
      (∃ pos', fd_at w' fd = Some (p, pos')) ∧
      ∀ q, file_at w' q = if bool_decide (q = p) then Some (RegFile (set_reg f a v)) else file_at w q;
  close_law fd w : file_at (f_close fd w) = file_at w;
  stream_law p w : ∃ w', f_stream p w = (text_of <$> file_at w p, w') ∧ file_at w' = file_at w;
}.

(** ** Reading *)

Section Reading.
Context {W : Type} {files : Files W} {codec : CodecFiles W}.

(** The loop reads as many lines as fit, but for two bytes, or all of them. *)
Lemma read_loop_spec fd p f : regfile_ok f → ∀ n fuel rem k parsed w, fd_at w fd = Some (p, line_pos f k) → file_at w p = Some (RegFile f) →
  (k ≤ length (rf_regs f))%nat → 0 < rem → (Z.to_nat rem ≤ n)%nat → (n < fuel)%nat →
  ∃ m w', read_loop fuel fd rem parsed w = Ret (Some (parsed ++ lines_text f k m), w') ∧ (k + m ≤ length (rf_regs f))%nat ∧
    line_pos f m ≤ rem ∧ (rem < line_pos f (S m) + 2 ∨ (k + m)%nat = length (rf_regs f)) ∧ file_at w' = file_at w.
Proof.
  intros Hok. assert (HL : 0 < Z.of_nat (line_size f)) by (unfold line_size; lia).
  induction n as [|n IH]; intros fuel rem k parsed w Hfd Hf Hk Hr Hn Hfuel; [lia|]. destruct fuel as [|fuel]; [lia|]. cbn [read_loop].
  destruct (read_law fd p k rem f w Hfd Hf Hok Hk Hr) as (j & w1 & -> & Hj & Hle & Hend & Hfd1 & F1).
  pose proof (length_lines_text f k j Hok Hj) as El. unfold line_pos in *. destruct (Z.eqb_spec (Z.of_nat (length (lines_text f k j))) 0) as [E0|E0].
  - assert (j = 0%nat) as -> by nia. exists 0%nat, w1. unfold lines_text at 1. rewrite take_0, app_nil_r.
    split_and!; [done|lia|lia| |done]. destruct (Hend eq_refl); [left; lia|right; lia].
  - destruct (Z.ltb_spec (Z.of_nat (length (lines_text f k j))) 0); [lia|]. rewrite El. assert (1 ≤ j)%nat by nia.
    destruct (Z.ltb_spec 0 (rem - Z.of_nat (line_size f) * Z.of_nat j)) as [Hmore|Hdone].
    + destruct (IH fuel (rem - Z.of_nat (line_size f) * Z.of_nat j) (k + j)%nat (parsed ++ lines_text f k j) w1)
        as (m & w2 & -> & Hm & Hle2 & Hend2 & F2); [done|by rewrite F1|lia|lia|nia|lia|].
      exists (j + m)%nat, w2. rewrite <-app_assoc, lines_text_app. split_and!; [done|lia|lia| |by rewrite F2]. destruct Hend2; [left|right]; lia.
    + exists j, w1. split_and!; [done|lia|lia|left; lia|done].
Qed.

(** A read that fits into its buffer, from the start of a line on. *)
Lemma ReadFromOffset_spec p f k count size w : regfile_ok f → file_at w p = Some (RegFile f) → (k ≤ length (rf_regs f))%nat → 0 ≤ count →
  count + 2 ≤ Z.of_nat size → Z.of_nat size < 2 ^ 64 →
  ∃ m w', ReadFromOffset true (Some p) (line_pos f k) count size w = Ret (WMT_SUCCESS, filled size (lines_text f k m), w') ∧
    (k + m ≤ length (rf_regs f))%nat ∧ line_pos f m ≤ count + 2 ∧ (count < line_pos f (S m) ∨ (k + m)%nat = length (rf_regs f)) ∧ file_at w' = file_at w.
Proof.
  intros Hok Hf Hk Hn Hs Hs2. assert (Ho : 0 ≤ line_pos f k) by (unfold line_pos; lia). unfold ReadFromOffset, OpenCodecFile. cbn [negb].
  destruct (open_law p w) as (fd & w1 & -> & Hfd & Hat & F1); [by eexists|]. destruct (Z.ltb_spec fd 0); [lia|].
  rewrite bool_decide_eq_false_2 by congruence. unfold ReadFromFile. destruct (Z.ltb_spec fd 0); [lia|].
  destruct (lseek_law fd p 0 (line_pos f k) w1 Hat Ho) as (w2 & -> & Hat2 & F2). destruct (Z.eqb_spec (line_pos f k) (-1)); [lia|].
  rewrite u64_small by lia. destruct (Z.ltb_spec (Z.of_nat size) (count + 2)); [lia|].
  destruct (read_loop_spec fd p f Hok (Z.to_nat (count + 2)) (S (Z.to_nat (count + 2))) (count + 2) k [] w2) as (m & w3 & -> & Hm & Hle & Hend & F3);
    [done|by rewrite F2, F1|done|lia..|]. cbn [mbind outcome_bind app]. exists m. eexists. split_and!; [done|done|lia| |].
  - destruct Hend; [left; lia|by right].
  - by rewrite close_law, F3, F2, F1.
Qed.
End Reading.

(** ** A disk that keeps the contract *)

(** The files, the open descriptors with their positions, and the next descriptor.  A read
    delivers at most three lines. *)
Record disk := mkDisk { d_files : gmap (list Z) codec_file; d_fds : gmap Z (list Z * Z); d_next : Z }.

Definition disk_read (c : option codec_file) (pos n : Z) : list Z :=
  match c with
  | Some (RegFile f) =>
      let k := Z.to_nat (pos / Z.of_nat (line_size f)) in
      lines_text f k (Z.to_nat (Z.min (Z.min 3 (Z.of_nat (length (rf_regs f)) - Z.of_nat k)) (n / Z.of_nat (line_size f))))
  | Some (TextFile t) => take (Z.to_nat n) (drop (Z.to_nat pos) t)
  | None => []
  end.

Definition disk_write (fd : Z) (text : list Z) (d : disk) : Z * disk :=
  match d_fds d !! fd with
  | Some (p, _) =>
      match d_files d !! p, scan_pair 32 text with
      | Some (RegFile f), Some (a, v) => (Z.of_nat (length text), mkDisk (<[p := RegFile (set_reg f a v)]> (d_files d)) (d_fds d) (d_next d))
      | _, _ => (-1, d)
      end
  | None => (-1, d)
  end.

#[export] Instance disk_files : Files disk := {
  f_open p d := match d_files d !! p with
                | Some _ => (Z.max 0 (d_next d), mkDisk (d_files d) (<[Z.max 0 (d_next d) := (p, 0)]> (d_fds d)) (Z.max 0 (d_next d) + 1))
                | None => (-1, d)
                end;
  f_lseek fd off d := match d_fds d !! fd with
                      | Some (p, _) => (off, mkDisk (d_files d) (<[fd := (p, off)]> (d_fds d)) (d_next d))
                      | None => (-1, d)
                      end;
  f_read fd n d := match d_fds d !! fd with
                   | Some (p, pos) =>
                       let bs := disk_read (d_files d !! p) pos n in
                       (Z.of_nat (length bs), bs, mkDisk (d_files d) (<[fd := (p, pos + Z.of_nat (length bs))]> (d_fds d)) (d_next d))
                   | None => (-1, [], d)
                   end;
  f_write := disk_write;
  f_close fd d := mkDisk (d_files d) (delete fd (d_fds d)) (d_next d);
  f_EINTR d := false;
  f_stream p d := (text_of <$> d_files d !! p, d);
}.

Lemma scan_write_text f a v : regfile_ok f → a ∈ (rf_regs f).*1 → 0 ≤ v < 16 ^ Z.of_nat (rf_vw f) → scan_pair 32 (write_text a v) = Some (a, v).
Proof.
  intros Hf Ha Hv. apply list_elem_of_fmap in Ha as ([b u] & -> & Hin). pose proof Hf as (_ & _ & _ & Hr & _). rewrite Forall_forall in Hr.
  destruct (Hr _ Hin) as [Hb _]. destruct (rf_widths f Hf) as [Hwa Hwv]. cbn [fst] in *.
  destruct (print_x_digits _ _ Hwa Hb) as (Ea & Na & _). destruct (print_x_digits _ _ Hwv Hv) as (Ev & Nv & _).
  unfold scan_pair, write_text. rewrite (scan_x_digits _ b); [|done|done|by apply (addr_small f)|done]. cbn [mbind option_bind app].
  change (32 =? 32) with true. cbv iota. rewrite (scan_x_digits _ v); [done|done|done|by apply (value_small f)|done].
Qed.

#[export] Program Instance disk_codec : CodecFiles disk := { file_at d p := d_files d !! p; fd_at d fd := d_fds d !! fd }.
Next Obligation. intros p d [c Hc]. cbn. rewrite Hc. do 2 eexists. split; [done|]. split; [lia|]. cbn. by rewrite lookup_insert_eq. Qed.
Next Obligation. intros fd p pos off d Hfd Ho. cbn. rewrite Hfd. eexists. split; [done|]. cbn. by rewrite lookup_insert_eq. Qed.
Next Obligation.
  intros fd p k n f d Hfd Hf Hok Hk Hn. cbn [f_read disk_files]. rewrite Hfd, Hf. unfold disk_read.
  assert (HL : 0 < Z.of_nat (line_size f)) by (unfold line_size; lia).
  assert (line_pos f k / Z.of_nat (line_size f) = Z.of_nat k) as -> by (unfold line_pos; rewrite Z.mul_comm; apply Z.div_mul; lia). rewrite Nat2Z.id.
  assert (0 ≤ n / Z.of_nat (line_size f)) by (apply Z.div_pos; lia). pose proof (Z.mul_div_le n _ HL).
  set (j := Z.to_nat (Z.min _ _)). assert (Hj : (k + j ≤ length (rf_regs f))%nat) by lia. assert (Hdiv : Z.of_nat j ≤ n / Z.of_nat (line_size f)) by lia.
  exists j. eexists. split; [done|]. split_and!; [done| | | |done].
  - unfold line_pos. nia.
  - intros Ej. destruct (decide (k = length (rf_regs f))); [by right|left]. assert (n / Z.of_nat (line_size f) = 0) as E by lia.
    apply Z.div_small_iff in E; [|lia]. unfold line_pos. lia.
  - cbn. rewrite lookup_insert_eq, length_lines_text by done. unfold line_pos. do 2 f_equal. lia.
Qed.
Next Obligation.
  intros fd p pos f a v d Hfd Hc Hf Ha Hv. cbn [f_write disk_files]. unfold disk_write. rewrite Hfd, Hc, (scan_write_text f) by done.
  eexists. split_and!; [done|by eexists|]. intros q. cbn. destruct (decide (q = p)) as [->|Hne].
  - by rewrite bool_decide_eq_true_2, lookup_insert_eq.
  - by rewrite bool_decide_eq_false_2, lookup_insert_ne.
Qed.
Next Obligation. done. Qed.
Next Obligation. intros p d. by eexists. Qed.
