(* ===== verification/WbCodecSpec.v ===== *)
(** * The layout describes the register file

    Both ways of building a layout, from the register file and from its range file, lead to
    the positions of the lines; reads through the layout return the values in the file. *)
From S2P Require Import Prelude DevStdlib DevArrays WbString WbResult WbCommand WbDevice WbUtil WbPaths WbUtilSpec WbLayout WbCodec WbCodecLayout WbCodecText WbCodecFiles.
From stdpp Require Import sorting strings.
#[local] Open Scope Z_scope.

(** ** The layout of a register file *)

Section Layout.
Context (f : regfile) (Hf : regfile_ok f).
Abbreviation L := (Z.of_nat (line_size f)).

(** The lines of registers, the first of them being line [k]. *)
Definition line_info (k : nat) (av : Z * Z) : RegisterLineInfo :=
  mkLineInfo av.1 (L * Z.of_nat k) L (Z.of_nat k).
Fixpoint lines_from (k : nat) (regs : list (Z * Z)) : RegisterLayout :=
  match regs with [] => [] | av :: regs' => line_info k av :: lines_from (S k) regs' end.
Definition layout_of : RegisterLayout := lines_from 0 (rf_regs f).

Lemma lines_from_app k a b : lines_from k (a ++ b) = lines_from k a ++ lines_from (k + length a) b.
Proof.
  revert k. induction a as [|x a IH]; intros k; cbn [app lines_from length]; [by rewrite Nat.add_0_r|]. rewrite IH. do 2 f_equal.
  by rewrite Nat.add_succ_r.
Qed.

Lemma length_lines k regs : length (lines_from k regs) = length regs.
Proof. revert k. induction regs as [|x regs IH]; intros k; [done|]. cbn. by rewrite IH. Qed.

Lemma lines_elem k regs x : x ∈ lines_from k regs → ∃ av, av ∈ regs ∧ registerAddress x = av.1.
Proof.
  revert k. induction regs as [|av regs IH]; intros k Hx; cbn [lines_from] in Hx; [by apply not_elem_of_nil in Hx|].
  apply elem_of_cons in Hx as [->|Hx]; [exists av; split; [apply list_elem_of_here|done]|].
  destruct (IH _ Hx) as (av' & ? & ?). exists av'. split; [by apply elem_of_cons; right|done].
Qed.

Lemma lines_lookup k regs i av : regs !! i = Some av → lines_from k regs !! i = Some (line_info (k + i) av).
Proof.
  revert k i. induction regs as [|x regs IH]; intros k [|i] Hi; cbn in *; [done..|injection Hi as ->|].
  - by rewrite Nat.add_0_r.
  - rewrite (IH (S k)) by done. do 2 f_equal. lia.
Qed.

Lemma lines_sorted k regs : StronglySorted (λ x y, x.1 < y.1) regs → StronglySorted below (lines_from k regs).
Proof.
  intros Hs. revert k. induction Hs as [|x regs Hs IH Hx]; intros k; cbn [lines_from]; constructor; [apply IH|].
  apply Forall_forall. intros y Hy. destruct (lines_elem _ _ _ Hy) as (av & Hav & E). unfold below. rewrite E. cbn.
  rewrite Forall_forall in Hx. by apply Hx.
Qed.

Lemma layout_of_ok : layout_ok layout_of.
Proof.
  destruct Hf as (_ & _ & Hs & _ & Hl). split; [by apply lines_sorted|]. unfold layout_of. rewrite length_lines.
  assert (0 < line_size f)%nat by (unfold line_size; lia). nia.
Qed.

Lemma offset_small k : (k < length (rf_regs f))%nat → 0 ≤ L * Z.of_nat k ∧ L * Z.of_nat (S k) ≤ INT_MAX.
Proof.
  intros Hk. destruct Hf as (_ & _ & _ & _ & Hl). split; [lia|]. etrans; [|exact Hl]. rewrite Nat2Z.inj_mul. nia.
Qed.

Lemma reg_ok_at pre av rest : rf_regs f = pre ++ av :: rest → reg_ok f av.
Proof. intros E. destruct Hf as (_ & _ & _ & Hr & _). rewrite E in Hr. by apply Forall_app in Hr as [_ [? _]%Forall_cons_1]. Qed.

(** The prefix of the registers below some register. *)
Lemma prefix_below pre av rest : rf_regs f = pre ++ av :: rest → layout_ok (lines_from 0 pre) ∧ ∀ x, x ∈ lines_from 0 pre → registerAddress x < av.1.
Proof.
  intros E. pose proof layout_of_ok as [Hs Hl]. unfold layout_of in Hs, Hl. rewrite E, lines_from_app in Hs, Hl.
  rewrite length_app in Hl. split; [split|].
  - by apply StronglySorted_app_1_l in Hs.
  - lia.
  - intros x Hx. refine (StronglySorted_app_1_elem_of below _ _ x (line_info (0 + length pre) av) Hs Hx _). apply list_elem_of_here.
Qed.

(** ** From the register file *)

Definition bytes_of : Z := Z.of_nat (rf_vw f / 2).

Lemma strchr_from_run c run rest : c ∉ run → strchr_from c (run ++ c :: rest) = Some (c :: rest).
Proof.
  induction run as [|x run IH]; intros Hn; cbn [app strchr_from]; [by rewrite Z.eqb_refl|].
  apply not_elem_of_cons in Hn as [Hx Hn]. destruct (Z.eqb_spec x c); [by subst|by apply IH].
Qed.

Lemma count_digits_run h t : Forall (λ c, IsHexDigit c = true) h → t = [] ∨ t = [10] →
  count_digits (h ++ t) = Z.of_nat (length h).
Proof. intros Hh [-> | ->]; induction Hh as [|c h Hc _ IH]; try done; cbn [app count_digits length]; rewrite Hc, IH; cbn [orb]; lia. Qed.

Lemma no_colon h : Forall (λ c, IsHexDigit c = true) h → COLON_CHAR ∉ h.
Proof. intros Hh Hin. rewrite Forall_forall in Hh. by specialize (Hh _ Hin). Qed.

(** With or without the newline at the end. *)
Lemma detect_bytes_body av t : reg_ok f av → t = [] ∨ t = [10] → detect_bytes (reg_body f av ++ t) = bytes_of.
Proof.
  intros Hav Ht. unfold detect_bytes, GetBytesPerRegister. rewrite (scan_register_body f Hf av Hav). destruct Hav as [Ha Hv].
  destruct (rf_widths f Hf) as [Hwa Hwv]. pose proof (padded_digits _ _ Hwa Ha) as Hda. pose proof (padded_digits _ _ Hwv Hv) as Hdv.
  unfold reg_body. rewrite <-!app_assoc. cbn [app]. change 58 with COLON_CHAR. rewrite strchr_from_run by by apply no_colon. cbn [drop].
  assert (skip_blanks (32 :: padded (rf_vw f) av.2 ++ t) = padded (rf_vw f) av.2 ++ t) as ->.
  { cbn [skip_blanks]. change ((32 =? 32) || (32 =? 9)) with true. cbv iota.
    pose proof (padded_ne _ _ Hwv Hv). destruct Hdv as [|c h Hc _]; [done|]. cbn [app skip_blanks].
    destruct (IsHexDigit_plain c Hc) as (Hsp & _). unfold isspace in Hsp. destruct (Z.eqb_spec c 32), (Z.eqb_spec c 9); by subst. }
  rewrite count_digits_run by done. rewrite length_padded by done. unfold bytes_of.
  destruct Hf as (_ & [-> | [-> | ->]] & _); done.
Qed.

(** The state after some lines. *)
Definition state_after (s0 : RegisterSection) (ml : Z) (pre : list (Z * Z)) : file_state :=
  mkFile (mkSection (lines_from 0 pre) (regPath s0) (match pre with [] => bytesPerRegister s0 | _ => Some bytes_of end)
            (addressIncrement s0) (algorithmID s0))
    (L * Z.of_nat (length pre)) (Z.of_nat (length pre)) (match pre with [] => 0 | _ => bytes_of end) ml.

Lemma bytes_of_bound : 1 ≤ bytes_of ≤ 4.
Proof. unfold bytes_of. destruct Hf as (_ & [-> | [-> | ->]] & _); cbn; lia. Qed.

Lemma file_line_step s0 ml pre av rest : rf_regs f = pre ++ av :: rest →
  HandleRegisterFileLine (reg_line f av) L MAX_REGISTER (state_after s0 ml pre) = Ret (WMT_SUCCESS, state_after s0 ml (pre ++ [av])).
Proof.
  intros E. pose proof (reg_ok_at pre av rest E) as Hav.
  assert (Hk : (length pre < length (rf_regs f))%nat) by (rewrite E, length_app; cbn; lia).
  destruct (prefix_below pre av rest E) as [Hok Hb]. destruct (offset_small (length pre) Hk) as [Ho1 Ho2]. unfold INT_MAX in Ho2.
  assert (HL : 0 < L) by (unfold line_size; lia). assert (HLk : L ≤ L * Z.of_nat (S (length pre))) by nia.
  unfold HandleRegisterFileLine. destruct (Z.eqb_spec L 0); [lia|]. unfold AddRegisterToLayout. rewrite (scan_register_body f Hf av Hav [10] : scan_register (reg_line f av) = _).
  cbn [l_section l_totalOffset l_lineNumber l_bytesPerRegister state_after layout].
  rewrite AddRegister_above by (done || by left). cbn [mbind outcome_bind].
  rewrite (bool_decide_eq_false_2 (WMT_SUCCESS = WMT_OUT_OF_RANGE)) by done. rewrite !(bool_decide_eq_true_2 (WMT_SUCCESS = WMT_SUCCESS)) by done. rewrite andb_true_r.
  unfold reg_line. rewrite detect_bytes_body by (done || by right). pose proof bytes_of_bound as Hbb.
  assert (lines_from 0 (pre ++ [av]) = lines_from 0 pre ++ [mkLineInfo av.1 (u32 (L * Z.of_nat (length pre))) (u32 L) (u32 (Z.of_nat (length pre)))]) as El.
  { rewrite lines_from_app. cbn [lines_from]. do 2 f_equal. unfold line_info. cbn [Nat.add]. f_equal; symmetry; apply wrapu_small; nia. }
  assert (u64 (L * Z.of_nat (length pre) + L) = L * Z.of_nat (length (pre ++ [av]))) as ->.
  { rewrite u64_small; rewrite ?length_app; cbn [length]; nia. }
  assert (u64 (Z.of_nat (length pre) + 1) = Z.of_nat (length (pre ++ [av]))) as ->.
  { rewrite u64_small; rewrite ?length_app; cbn [length]; nia. }
  unfold state_after. rewrite El. destruct pre as [|p pre']; cbn [app].
  - change (0 =? 0) with true. cbv iota. unfold with_bytes, with_layout. cbn. rewrite s32_small by (unfold INT_MIN, INT_MAX; lia). done.
  - destruct (Z.eqb_spec bytes_of 0); [lia|]. done.
Qed.

Lemma file_lines s0 ml pre rest : rf_regs f = pre ++ rest →
  register_lines_of MAX_REGISTER (reg_line f <$> rest) (state_after s0 ml pre) = Ret (state_after s0 ml (rf_regs f)).
Proof.
  revert pre. induction rest as [|av rest IH]; intros pre E; [rewrite E, app_nil_r; done|].
  pose proof (reg_ok_at pre av rest E) as Hav.
  rewrite fmap_cons. cbn [register_lines_of]. rewrite (c_str_line f Hf av Hav), (length_reg_line f Hf av Hav).
  rewrite (file_line_step s0 ml pre av rest E). cbn [mbind outcome_bind]. rewrite bool_decide_eq_false_2 by done.
  apply IH. by rewrite E, <-app_assoc.
Qed.
End Layout.

(** ** Registers read through the layout *)

(** The registers of a file as a map. *)
Definition regs_of (f : regfile) : gmap Z Z := list_to_map (rf_regs f).

Section Read.
Context (f : regfile) (Hf : regfile_ok f).

Lemma regs_nodup : NoDup (rf_regs f).*1.
Proof.
  destruct Hf as (_ & _ & Hs & _). induction Hs as [|x l Hs IH Hx]; [constructor|]. cbn [fmap list_fmap]. constructor; [|done].
  intros Hin. apply list_elem_of_fmap in Hin as (y & E & Hy). rewrite Forall_forall in Hx. specialize (Hx y Hy). lia.
Qed.

Lemma regs_of_Some a v : regs_of f !! a = Some v ↔ ∃ i, rf_regs f !! i = Some (a, v).
Proof.
  unfold regs_of. rewrite <-elem_of_list_to_map by apply regs_nodup. by rewrite list_elem_of_lookup.
Qed.

Lemma regs_of_None a : regs_of f !! a = None → line_of (layout_of f) a = None.
Proof.
  intros Hn. apply line_of_None. intros x Hx E. destruct (lines_elem f _ _ _ Hx) as ([a' v] & Hav & E'). cbn in E'.
  apply list_elem_of_lookup in Hav as [i Hi]. assert (regs_of f !! a' = Some v) by (apply regs_of_Some; by exists i). congruence.
Qed.

Lemma line_of_index i a v : rf_regs f !! i = Some (a, v) → line_of (layout_of f) a = Some (line_info f i (a, v)).
Proof.
  intros Hi. destruct (layout_of_ok f Hf) as [Hs _]. pose proof (lines_lookup f 0 _ _ _ Hi) as Hl. cbn [Nat.add] in Hl.
  pose proof (line_of_unique _ _ _ Hs Hl) as E. exact E.
Qed.

Lemma reg_ok_index i av : rf_regs f !! i = Some av → reg_ok f av.
Proof. intros Hi. destruct Hf as (_ & _ & _ & Hr & _). rewrite Forall_lookup in Hr. by apply (Hr i). Qed.

(** The text of a line. *)
Lemma lines_text_one i av : rf_regs f !! i = Some av → lines_text f i 1 = reg_line f av.
Proof. intros Hi. unfold lines_text. rewrite (drop_S _ _ _ Hi). cbn. apply app_nil_r. Qed.

Lemma text_plain regs : Forall (reg_ok f) regs → Forall (λ c, c ≠ 0 ∧ c ≠ 35) (concat (reg_line f <$> regs)).
Proof.
  induction 1 as [|av regs Hav _ IH]; [constructor|]. rewrite text_cons, Forall_app. split; [|exact IH].
  unfold reg_line. rewrite Forall_app. split; [|by repeat constructor].
  eapply Forall_impl; [by apply reg_body_plain|]. by intros c (? & _ & ?).
Qed.

Lemma text_plain_one av : reg_ok f av → Forall (λ c, c ≠ 0 ∧ c ≠ 35) (reg_line f av).
Proof. intros Hav. pose proof (text_plain [av] ltac:(by constructor)) as Hp. cbn in Hp. by rewrite app_nil_r in Hp. Qed.

Lemma mem_str_filled size bs : Forall (λ c, c ≠ 0 ∧ c ≠ 35) bs → (length bs < size)%nat → mem_str (filled size bs) = Ret bs.
Proof.
  intros Hb Hl. unfold filled. replace size with (length (Some <$> bs) + S (size - length bs - 1))%nat at 1 by (rewrite length_fmap; lia).
  rewrite take_app_add. cbn [app firstn]. generalize (take (size - length bs - 1) (replicate (size - length bs) (@None Z))). intros m. clear Hl.
  induction Hb as [|c bs [Hc _] _ IH]; [done|]. rewrite fmap_cons. cbn [app mem_str]. destruct (Z.eqb_spec c 0); [done|]. by rewrite IH.
Qed.

(** ** The number of a line in a text *)

Lemma starts_with_digits h g c r : Forall (λ x, IsHexDigit x = true) h → Forall (λ x, IsHexDigit x = true) g → IsHexDigit c = false →
  starts_with (h ++ [COLON_CHAR]) (g ++ c :: r) = true → h = g ∧ c = COLON_CHAR.
Proof.
  intros Hh. revert g. induction Hh as [|x h Hx _ IH]; intros g Hg Hc; destruct Hg as [|y g Hy Hg]; cbn [app starts_with].
  - intros [E _]%andb_prop. apply Z.eqb_eq in E. done.
  - intros [E _]%andb_prop. apply Z.eqb_eq in E. by subst.
  - intros [E _]%andb_prop. apply Z.eqb_eq in E. subst. congruence.
  - intros [E Hs]%andb_prop. apply Z.eqb_eq in E. destruct (IH g Hg Hc Hs). by subst.
Qed.

(** Digits that do not end with the number, or are not in front of a colon, are skipped. *)
Lemma strstr_digits h g c r : Forall (λ x, IsHexDigit x = true) h → h ≠ [] → Forall (λ x, IsHexDigit x = true) g → IsHexDigit c = false →
  (c = COLON_CHAR → ∀ q, g ≠ q ++ h) → strstr (g ++ c :: r) (h ++ [COLON_CHAR]) = strstr r (h ++ [COLON_CHAR]).
Proof.
  intros Hh Hne Hg Hc. induction Hg as [|x g Hx Hg IH]; intros Hno; cbn [app strstr].
  - destruct (starts_with _ _) eqn:E; [|done]. exfalso. by destruct (starts_with_digits h [] c r Hh ltac:(constructor) Hc E).
  - destruct (starts_with _ _) eqn:E; [|apply IH; intros Ec q ->; by apply (Hno Ec (x :: q))].
    exfalso. destruct (starts_with_digits h (x :: g) c r Hh ltac:(by constructor) Hc E) as [-> Ec]. by apply (Hno Ec []).
Qed.

Lemma hex_value_le s : ∀ a b u v, 0 ≤ a ≤ b → hex_value a s = Some u → hex_value b s = Some v → u ≤ v.
Proof.
  induction s as [|c s IH]; intros a b u v Hab; cbn [hex_value]; [intros [= <-] [= <-]; lia|].
  destruct (digit (upper c)) as [d|] eqn:Ed; [|done]. apply IH.
  apply digit_range in Ed. lia.
Qed.

(** A smaller number does not end with the digits of a number. *)
Lemma padded_suffix w a b q : (0 < w ≤ 8)%nat → 0 ≤ b < a → a < 16 ^ Z.of_nat w → padded w b ≠ q ++ print_x a.
Proof.
  intros Hw Hba Ha E. destruct (print_x_digits w a Hw ltac:(lia)) as (Ea & _). pose proof (padded_value w b Hw ltac:(lia)) as Eb. rewrite E in Eb.
  assert (is_Some (hex_value 0 q)) as [u Eu].
  { clear - Eb. revert Eb. generalize 0. induction q as [|c q IH]; intros x Eb; [by eexists|]. cbn [app hex_value] in *.
    destruct (digit (upper c)); [by eapply IH|done]. }
  rewrite (hex_value_app _ _ _ u Eu) in Eb. pose proof (hex_value_bound 0 q u ltac:(lia) Eu).
  pose proof (hex_value_le _ 0 u a b ltac:(lia) Ea Eb). lia.
Qed.

(** The lines of smaller registers are skipped. *)
Lemma strstr_line av a r : reg_ok f av → av.1 < a < 16 ^ Z.of_nat (rf_aw f) →
  strstr (reg_line f av ++ r) (print_x a ++ [COLON_CHAR]) = strstr r (print_x a ++ [COLON_CHAR]).
Proof.
  intros [Ha Hv] Hlt. destruct (rf_widths f Hf) as [Hwa Hwv]. destruct (print_x_digits _ a Hwa ltac:(lia)) as (Hx & Hne & _).
  pose proof (hex_value_digits _ _ _ Hx) as Hd. unfold reg_line, reg_body. rewrite <-!app_assoc. cbn [app].
  rewrite strstr_digits; [|done|done|by apply padded_digits|done|intros _ q; apply padded_suffix; (done || lia)].
  change (32 :: padded (rf_vw f) av.2 ++ 10 :: r) with ([] ++ 32 :: padded (rf_vw f) av.2 ++ 10 :: r).
  rewrite strstr_digits; [|done|done|constructor|done|done]. rewrite strstr_digits; [done|done|done|by apply padded_digits|done|done].
Qed.

Lemma strstr_number q p rest : COLON_CHAR ∉ q → COLON_CHAR ∉ p →
  strstr (q ++ p ++ COLON_CHAR :: rest) (p ++ [COLON_CHAR]) = Some (p ++ COLON_CHAR :: rest).
Proof.
  intros Hq Hp. assert (Hhere : starts_with (p ++ [COLON_CHAR]) (p ++ COLON_CHAR :: rest) = true).
  { clear. induction p as [|x p IH]; [by cbn|]. cbn [app starts_with]. by rewrite Z.eqb_refl, IH. }
  induction q as [|x q IH].
  - cbn [app]. destruct (p ++ COLON_CHAR :: rest) eqn:E; cbn [strstr]; by rewrite Hhere.
  - apply not_elem_of_cons in Hq as [Hx Hq]. cbn [app strstr].
    assert (starts_with (p ++ [COLON_CHAR]) ((x :: q) ++ p ++ COLON_CHAR :: rest) = false) as Hno; [|cbn [app] in Hno; rewrite Hno; by apply IH].
    apply not_true_is_false. intros Hs.
    assert (Hpre : ∀ a b, starts_with a b = true → ∀ i c, a !! i = Some c → b !! i = Some c).
    { clear. induction a as [|y a IHa]; intros b Hb [|i] c Hi; try done; destruct b as [|z b]; try done; cbn in *;
        apply andb_prop in Hb as [Hyz Hb]; apply Z.eqb_eq in Hyz; subst; [done|by eapply IHa]. }
    specialize (Hpre _ _ Hs (length p) COLON_CHAR). rewrite lookup_app_r, Nat.sub_diag in Hpre by lia. specialize (Hpre eq_refl).
    rewrite (app_assoc (x :: q) p) in Hpre.
    rewrite lookup_app_l in Hpre by (rewrite length_app; cbn; lia). apply list_elem_of_lookup_2 in Hpre.
    apply elem_of_app in Hpre as [Hpre|Hpre]; [apply elem_of_cons in Hpre as [Hpre|Hpre]|]; congruence || done.
Qed.

Lemma strchr_from_none c s : Forall (λ x, x ≠ c) s → strchr_from c s = None.
Proof. induction 1 as [|x s Hx _ IH]; [done|]. cbn. by destruct (Z.eqb_spec x c). Qed.

(** The value behind the address in a text of lines. *)
Lemma find_value_line pre av rest : Forall (λ bu, reg_ok f bu ∧ bu.1 < av.1) pre → reg_ok f av → Forall (λ c, c ≠ 0 ∧ c ≠ 35) rest →
  find_value (concat (reg_line f <$> pre) ++ reg_line f av ++ rest) av.1 = Ret (WMT_SUCCESS, Some av.2).
Proof.
  intros Hpre Hav Hr. unfold find_value. rewrite (firstn_all2 (print_x av.1 ++ _)).
  2: { rewrite length_app. pose proof (length_hex_lower 8 av.1). unfold print_x. cbn [length]. lia. }
  assert (strstr (concat (reg_line f <$> pre) ++ reg_line f av ++ rest) (print_x av.1 ++ [COLON_CHAR]) =
          strstr (reg_line f av ++ rest) (print_x av.1 ++ [COLON_CHAR])) as ->.
  { induction Hpre as [|bu pre [Hbu Hlt] _ IH]; [done|]. rewrite text_cons, <-app_assoc, strstr_line; [done|done|]. destruct Hav. lia. }
  destruct Hav as [Ha Hv]. destruct (rf_widths f Hf) as [Hwa Hwv].
  destruct (print_x_digits _ _ Hwa Ha) as (Hx & Hxne & Hxl). pose proof (hex_value_digits _ _ _ Hx) as Hxd.
  assert (reg_line f av ++ rest = replicate (rf_aw f - length (print_x av.1)) 48 ++ print_x av.1 ++
    COLON_CHAR :: 32 :: padded (rf_vw f) av.2 ++ 10 :: rest) as ->.
  { unfold reg_line, reg_body, padded at 1. by rewrite <-!app_assoc. }
  rewrite strstr_number; [| |by apply no_colon].
  2: { intros Hin. apply elem_of_replicate in Hin as [Hin _]. done. }
  unfold ParseReadValue. rewrite strchr_from_none.
  2: { rewrite Forall_app. split; [eapply Forall_impl; [exact Hxd|]; intros c Hc ->; done|]. repeat (constructor; [done|]).
       rewrite Forall_app. split; [eapply Forall_impl; [by apply padded_digits|]; intros c Hc ->; done|].
       constructor; [done|]. eapply Forall_impl; [exact Hr|]. by intros c [_ ?]. }
  unfold scan_pair. rewrite (scan_x_digits (print_x av.1) av.1); [|done|done|by apply (addr_small f)|done]. cbn [mbind option_bind].
  change (COLON_CHAR =? COLON_CHAR) with true. cbv iota.
  change (scan_x (32 :: padded (rf_vw f) av.2 ++ 10 :: rest)) with (scan_x (padded (rf_vw f) av.2 ++ 10 :: rest)).
  rewrite (scan_x_digits (padded (rf_vw f) av.2) av.2); [done|by apply padded_ne|by apply padded_value|by apply (value_small f)|done].
Qed.
End Read.
