(* ===== verification/WbCodecRead.v ===== *)
(** * Layouts from files, and registers through layouts

    Both ways of building a layout, from the register file and from its range file, lead to
    the positions of the lines; reads and writes through the layout are lookups and updates
    of a map. *)
From S2P Require Import Prelude DevStdlib DevArrays WbString WbResult WbCommand WbDevice WbUtil WbPaths WbUtilSpec WbLayout WbCodec WbCodecLayout WbCodecText WbCodecFiles WbCodecSpec.
From stdpp Require Import sorting strings.
#[local] Open Scope Z_scope.

(** The lines of a range file. *)
Definition range_line (se : Z * Z) : list Z := print_x se.1 ++ [DASH_CHAR] ++ print_x se.2 ++ [10].
Definition range_text (ranges : list (Z * Z)) : list Z := concat (range_line <$> ranges).

(** The registers of some ranges. *)
Definition expand (ranges : list (Z * Z)) : list Z := concat ((λ se, seqZ se.1 (se.2 - se.1 + 1)) <$> ranges).

Section Building.
Context {W : Type} {files : Files W} {codec : CodecFiles W}.
Context (f : regfile) (Hf : regfile_ok f) (Hne : rf_regs f ≠ []).
Abbreviation L := (Z.of_nat (line_size f)).

Definition section_of (s0 : RegisterSection) (increment : option Z) : RegisterSection :=
  mkSection (layout_of f) (regPath s0) (Some (bytes_of f)) increment (algorithmID s0).

(** ** From the register file *)

Lemma from_registers s0 ml w : layout s0 = [] → file_at w (regPath s0) = Some (RegFile f) →
  ∃ w', InitialiseLayoutFromRegisters true MAX_REGISTER s0 ml w = Ret (WMT_SUCCESS, section_of s0 (addressIncrement s0), ml, w') ∧
    file_at w' = file_at w.
Proof.
  intros Hs Hfile. unfold InitialiseLayoutFromRegisters. cbn [negb].
  destruct (stream_law (regPath s0) w) as (w' & -> & F). rewrite Hfile. cbn [fmap option_fmap option_map text_of]. unfold file_text.
  pose proof (line_size_small f Hf). destruct Hf as (_ & _ & _ & Hr & _). rewrite (fgets_lines f Hf) by (done || lia).
  assert (mkFile s0 0 0 0 ml = state_after f s0 ml []) as ->.
  { unfold state_after. cbn [lines_from length]. rewrite Z.mul_0_r. destruct s0; cbn in *; by subst. }
  rewrite (file_lines f Hf s0 ml []) by done. cbn [mbind outcome_bind]. exists w'. split; [|done]. do 2 f_equal.
  unfold state_after, section_of, layout_of. by destruct (rf_regs f).
Qed.

(** ** The first lines *)

Lemma mem_line_run s m : Forall (λ c, c ≠ 0 ∧ c ≠ 10 ∧ c ≠ 35) s → mem_line ((Some <$> s ++ [10]) ++ m) = Ret (s, Some m).
Proof.
  induction 1 as [|c s (H0 & H10 & _) _ IH]; [done|]. cbn [app]. rewrite fmap_cons. cbn [app mem_line].
  destruct (Z.eqb_spec c 0); [done|]. destruct (Z.eqb_spec c 10); [done|]. by rewrite IH.
Qed.

(** What a line that continues the last address, or does not, adds to what is known. *)
Definition known (addresses : list Z) (i : Z) : line_facts := mkFacts L (bytes_of f) i addresses.

Lemma later_line s av addresses a0 : reg_ok f av → last addresses = Some a0 →
  HandleRegisterLineForRanges (reg_body f av) (Z.of_nat (length (reg_body f av))) s (known addresses 0) =
    if u32 (a0 + 1) =? av.1 then (WMT_SUCCESS, with_increment s 1, known (addresses ++ [av.1]) 1)
    else (WMT_NO_DATA, s, known (addresses ++ [av.1]) 0).
Proof.
  intros Hav Hlast. pose proof (length_reg_body f Hf av Hav) as Hl. assert (4 ≤ line_size f)%nat by (pose proof (rf_widths f Hf); unfold line_size; lia).
  unfold HandleRegisterLineForRanges. destruct (Z.eqb_spec (Z.of_nat (length (reg_body f av))) 0); [lia|].
  rewrite <-(app_nil_r (reg_body f av)) at 1. rewrite (scan_register_body f Hf av Hav). unfold known. cbn [f_lineLength f_readAddresses].
  destruct (Z.eqb_spec L 0); [lia|]. cbn [f_readAddresses f_lineLength f_bytesPerRegister f_addressIncrement]. by rewrite Hlast.
Qed.

Lemma first_line s av : reg_ok f av →
  HandleRegisterLineForRanges (reg_body f av) (Z.of_nat (length (reg_body f av))) s (mkFacts 0 0 0 []) =
    (WMT_NO_DATA, with_bytes s (bytes_of f), known [av.1] 0).
Proof.
  intros Hav. pose proof (length_reg_body f Hf av Hav) as Hl. assert (4 ≤ line_size f ≤ 19)%nat by (pose proof (rf_widths f Hf); unfold line_size; lia).
  unfold HandleRegisterLineForRanges. destruct (Z.eqb_spec (Z.of_nat (length (reg_body f av))) 0); [lia|].
  rewrite <-(app_nil_r (reg_body f av)) at 1. rewrite (scan_register_body f Hf av Hav). cbn [f_lineLength f_bytesPerRegister].
  change (0 =? 0) with true. cbv iota. rewrite <-(app_nil_r (reg_body f av)). rewrite (detect_bytes_body f Hf) by (done || by left).
  rewrite app_nil_r. cbn [f_readAddresses last app f_lineLength f_bytesPerRegister f_addressIncrement]. unfold known.
  rewrite u64_small by lia. do 2 f_equal. lia.
Qed.
(** One more line in the buffer. *)
Lemma first_lines_step fuel av m s facts : reg_ok f av →
  first_lines (S fuel) ((Some <$> reg_line f av) ++ m) s facts =
    let '(result, s, facts) := HandleRegisterLineForRanges (reg_body f av) (Z.of_nat (length (reg_body f av))) s facts in
    if bool_decide (result = WMT_SUCCESS) then Ret (s, facts) else first_lines fuel m s facts.
Proof. intros Hav. cbn [first_lines]. unfold reg_line. rewrite mem_line_run by by apply reg_body_plain. done. Qed.

(** Two neighbours at [i]. *)
Definition neighbours (l : list Z) (i : nat) : Prop := ∃ a, l !! i = Some a ∧ l !! S i = Some (a + 1).

Lemma later_lines regs : ∀ fuel m s addresses a0 i, Forall (reg_ok f) regs → last addresses = Some a0 → 0 ≤ a0 →
  neighbours (a0 :: regs.*1) i → (i < length regs)%nat → (S i < fuel)%nat →
  ∃ addresses', first_lines fuel ((Some <$> concat (reg_line f <$> take (S i) regs)) ++ m) s (known addresses 0) =
    Ret (with_increment s 1, known addresses' 1).
Proof.
  induction regs as [|av regs IH]; intros fuel m s addresses a0 i Hr Hlast Ha0 Hi Hl Hfuel; cbn [length] in Hl; [lia|].
  apply Forall_cons_1 in Hr as [Hav Hr]. destruct fuel as [|fuel]; [lia|]. change (take (S i) (av :: regs)) with (av :: take i regs).
  rewrite text_cons, fmap_app, <-app_assoc, first_lines_step, (later_line s av addresses a0) by done.
  destruct (Z.eqb_spec (u32 (a0 + 1)) av.1) as [E|E].
  - rewrite bool_decide_eq_true_2 by done. by eexists.
  - rewrite bool_decide_eq_false_2 by done. destruct i as [|i].
    + exfalso. destruct Hi as (a & Ea & Eb). cbn in Ea, Eb. simplify_eq. destruct Hav as [Hav _].
      pose proof (addr_small f Hf av.1 Hav). rewrite wrapu_small in E by lia; lia.
    + destruct (IH fuel m s (addresses ++ [av.1]) av.1 i) as (addresses' & ->); [done|by rewrite last_snoc|apply Hav|exact Hi|lia|lia|].
      by eexists.
Qed.

Lemma first_lines_spec fuel m s i : neighbours (rf_regs f).*1 i → (S (S i) < fuel)%nat →
  ∃ addresses, first_lines fuel ((Some <$> concat (reg_line f <$> take (S (S i)) (rf_regs f))) ++ m) s (mkFacts 0 0 0 []) =
    Ret (with_increment (with_bytes s (bytes_of f)) 1, known addresses 1).
Proof.
  intros Hi Hfuel. destruct Hf as (_ & _ & _ & Hr & _). destruct (rf_regs f) as [|av regs]; [done|]. destruct fuel as [|fuel]; [lia|].
  apply Forall_cons_1 in Hr as [Hav Hr]. change (take (S (S i)) (av :: regs)) with (av :: take (S i) regs).
  rewrite text_cons, fmap_app, <-app_assoc, first_lines_step, first_line by done. rewrite bool_decide_eq_false_2 by done.
  apply (later_lines regs fuel m _ [av.1] av.1 i); [done|done|apply Hav|exact Hi| |lia].
  destruct Hi as (a & _ & Hi). apply lookup_lt_Some in Hi. rewrite length_fmap in Hi. cbn [length] in Hi. lia.
Qed.

(** ** The range file *)

Lemma add_range_spec pre mid rest fuel s : rf_regs f = pre ++ mid ++ rest → mid.*1 = seqZ s (Z.of_nat (length mid)) →
  s + Z.of_nat (length mid) - 1 < MAX_REGISTER → (length mid < fuel)%nat →
  add_range fuel s (s + Z.of_nat (length mid) - 1) 1 L MAX_REGISTER (lines_from f 0 pre) (L * Z.of_nat (length pre)) (Z.of_nat (length pre)) =
    Ret (WMT_SUCCESS, lines_from f 0 (pre ++ mid), L * Z.of_nat (length (pre ++ mid)), Z.of_nat (length (pre ++ mid))).
Proof.
  revert pre fuel s. induction mid as [|av mid IH]; intros pre fuel s E Hmid Hend Hfuel; (destruct fuel as [|fuel]; [cbn [length] in *; lia|]); cbn [add_range].
  - cbn [length]. destruct (Z.leb_spec s (s + Z.of_nat 0 - 1)); [lia|]. by rewrite app_nil_r.
  - rewrite fmap_cons in Hmid. cbn [length] in *. rewrite Nat2Z.inj_succ in *. rewrite seqZ_cons in Hmid by lia. injection Hmid as Es Hmid.
    rewrite Z.pred_succ in Hmid. destruct (Z.leb_spec s (s + Z.succ (Z.of_nat (length mid)) - 1)); [|lia].
    destruct (prefix_below f Hf pre av (mid ++ rest) E) as [Hok Hb]. rewrite <-Es at 1.
    assert (Hk : (length pre < length (rf_regs f))%nat) by (rewrite E, length_app; cbn [app length]; lia).
    destruct (offset_small f Hf (length pre) Hk) as [Ho1 Ho2]. unfold INT_MAX in Ho2. assert (HL : 0 < L) by (unfold line_size; lia).
    rewrite AddRegister_above by (done || by left). cbn [mbind outcome_bind]. rewrite bool_decide_eq_false_2 by done.
    assert (lines_from f 0 pre ++ [mkLineInfo av.1 (u32 (L * Z.of_nat (length pre))) (u32 L) (u32 (Z.of_nat (length pre)))] = lines_from f 0 (pre ++ [av])) as ->.
    { rewrite lines_from_app. cbn [lines_from Nat.add]. do 2 f_equal. unfold line_info. f_equal; apply wrapu_small; nia. }
    assert (Hs : 0 ≤ s) by (destruct (reg_ok_at f Hf pre av (mid ++ rest) E); lia).
    unfold MAX_REGISTER in *. rewrite (wrapu_small 32 (s + 1)) by lia. rewrite !u64_small by nia.
    replace (L * Z.of_nat (length pre) + L) with (L * Z.of_nat (length (pre ++ [av]))) by (rewrite length_app; cbn [length]; lia).
    replace (Z.of_nat (length pre) + 1) with (Z.of_nat (length (pre ++ [av]))) by (rewrite length_app; cbn [length]; lia).
    replace (s + Z.succ (Z.of_nat (length mid)) - 1) with (s + 1 + Z.of_nat (length mid) - 1) by lia.
    rewrite IH; [by rewrite <-app_assoc|by rewrite E, <-app_assoc|by rewrite Hmid; f_equal; lia|lia|lia].
Qed.
(** A range of addresses. *)
Definition range_ok (se : Z * Z) : Prop := 0 ≤ se.1 ≤ se.2 ∧ se.2 < MAX_REGISTER.

Lemma range_digits v : 0 ≤ v < MAX_REGISTER → hex_value 0 (print_x v) = Some v ∧ print_x v ≠ [] ∧ (length (print_x v) ≤ 8)%nat.
Proof. intros Hv. apply print_x_digits; [lia|]. unfold MAX_REGISTER in Hv. change (16 ^ Z.of_nat 8) with (2 ^ 32). lia. Qed.

Lemma scan_range_line se : range_ok se → scan_pair DASH_CHAR (range_line se) = Some se.
Proof.
  intros [Hs He]. unfold MAX_REGISTER in He. destruct (range_digits se.1) as (Es & Nes & _); [unfold MAX_REGISTER; lia|].
  destruct (range_digits se.2) as (Ee & Nee & _); [unfold MAX_REGISTER; lia|]. unfold scan_pair, range_line.
  rewrite (scan_x_digits _ se.1) by (done || lia). cbn [mbind option_bind app]. change (DASH_CHAR =? DASH_CHAR) with true. cbv iota.
  rewrite (scan_x_digits _ se.2) by (done || lia). cbn. by destruct se.
Qed.

Lemma range_line_plain se : range_ok se →
  ∃ s, range_line se = s ++ [10] ∧ Forall (λ c, c ≠ 0 ∧ c ≠ 10) s ∧ (length s < PATH_MAX - 1)%nat.
Proof.
  intros [Hs He]. destruct (range_digits se.1) as (Es & _ & Ls); [lia|]. destruct (range_digits se.2) as (Ee & _ & Le); [lia|].
  assert (Hd : ∀ c, IsHexDigit c = true → c ≠ 0 ∧ c ≠ 10).
  { intros c Hc. destruct (IsHexDigit_plain c Hc) as (Hsp & _ & _ & _ & _ & H0). split; [done|]. by intros ->. }
  exists (print_x se.1 ++ [DASH_CHAR] ++ print_x se.2). split; [unfold range_line; by rewrite <-!app_assoc|]. split.
  - rewrite !Forall_app. split_and!; [|by repeat constructor|]; (eapply Forall_impl; [by eapply hex_value_digits|exact Hd]).
  - rewrite !length_app. cbn [length]. unfold PATH_MAX. lia.
Qed.

Lemma fgets_ranges ranges : Forall range_ok ranges → fgets_all (PATH_MAX - 1) [] (range_text ranges) = range_line <$> ranges.
Proof.
  induction 1 as [|se ranges Hse _ IH]; [done|]. unfold range_text. rewrite text_cons, fmap_cons.
  destruct (range_line_plain se Hse) as (s & -> & Hs & Hl). rewrite <-app_assoc. cbn [app].
  rewrite fgets_run; [f_equal; exact IH| |cbn [length]; lia]. eapply Forall_impl; [exact Hs|]. by intros c [_ ?].
Qed.

Lemma c_str_range se : range_ok se → c_str (range_line se) = range_line se.
Proof.
  intros Hse. apply c_str_id. destruct (range_line_plain se Hse) as (s & -> & Hs & _). rewrite no_nul_app. split.
  - intros Hin. rewrite Forall_forall in Hs. by destruct (Hs 0 Hin).
  - unfold no_nul. by apply (bool_decide_unpack _); vm_compute.
Qed.

(** What is known while the ranges are taken in. *)
Definition range_at (s : RegisterSection) (ml : Z) (pre : list (Z * Z)) : range_state :=
  mkRange (with_layout s (lines_from f 0 pre)) (L * Z.of_nat (length pre)) (Z.of_nat (length pre)) 1 ml.

Lemma range_lines_spec s ml addresses ranges : ∀ pre rest, rf_regs f = pre ++ rest → rest.*1 = expand ranges → Forall range_ok ranges →
  range_lines MAX_REGISTER (range_line <$> ranges) (known addresses 1) (range_at s ml pre) = Ret (WMT_SUCCESS, range_at s ml (rf_regs f)).
Proof.
  induction ranges as [|se ranges IH]; intros pre rest E Hrest Hr.
  - destruct rest; [|done]. rewrite app_nil_r in E. by subst.
  - apply Forall_cons_1 in Hr as [Hse Hr]. pose proof Hse as [Hs He]. rewrite fmap_cons. cbn [range_lines]. rewrite c_str_range by done.
    set (n := Z.to_nat (se.2 - se.1 + 1)). rewrite <-(take_drop n rest) in Hrest. unfold expand in Hrest. rewrite text_cons, fmap_app in Hrest.
    assert (Hn : length (seqZ se.1 (se.2 - se.1 + 1)) = n) by apply length_seqZ.
    assert (Hlen : (n ≤ length rest)%nat).
    { apply (f_equal length) in Hrest. rewrite !length_app, !length_fmap, length_drop, length_take, Hn in Hrest. lia. }
    apply app_inj_1 in Hrest as [Hmid Hrest]; [|rewrite length_fmap, length_take, Hn; lia].
    assert (Hm : length (take n rest) = n) by (rewrite length_take; lia).
    unfold HandleRangeFileLine. cbn [f_lineLength f_readAddresses known range_at r_addressIncrement r_section r_totalOffset r_lineNumber r_maxLineNumber].
    assert (L ≠ 0) by (unfold line_size; lia). destruct (Z.eqb_spec L 0); [done|]. rewrite scan_range_line by done.
    destruct se as [a b]. cbn [fst snd] in *. change (1 =? 0) with false. cbn [andb]. cbv iota. rewrite (wrapu_small 32 1) by done. rewrite Z.div_1_r.
    replace b with (a + Z.of_nat (length (take n rest)) - 1) at 2 by lia. cbn [with_layout layout].
    rewrite (add_range_spec pre (take n rest) (drop n rest)); [|by rewrite take_drop|rewrite Hmid; f_equal; lia|lia|lia].
    cbn [mbind outcome_bind]. rewrite !bool_decide_eq_false_2 by congruence.
    apply (IH (pre ++ take n rest) (drop n rest)); [by rewrite <-app_assoc, take_drop|exact Hrest|done].
Qed.
(** ** The whole of it *)

Lemma split_folder_last dir file : 47 ∉ file → split_folder (dir ++ 47 :: file) = Some (dir ++ [47], file).
Proof.
  intros Hf'. assert (split_folder file = None) as E.
  { induction file as [|c file IH]; [done|]. apply not_elem_of_cons in Hf' as [Hc Hf']. cbn. rewrite IH by done. destruct (Z.eqb_spec c 47); [by subst|done]. }
  induction dir as [|c dir IH]; cbn [app split_folder]; [by rewrite E|]. by rewrite IH.
Qed.

Lemma range_path s0 dir : regPath s0 = dir ++ str "/registers" → (length (regPath s0) < PATH_MAX)%nat →
  GetRangeFilePath s0 PATH_MAX = (WMT_SUCCESS, dir ++ str "/range").
Proof.
  intros Hpath Hlen. unfold GetRangeFilePath. rewrite firstn_all2 by lia. rewrite Hpath. change (str "/registers") with (47 :: str "registers").
  rewrite split_folder_last by by (apply (bool_decide_unpack _); vm_compute). unfold strcasecmp_eq. rewrite bool_decide_eq_true_2 by done. by rewrite <-app_assoc.
Qed.

Lemma filled_prefix size x y : (length x ≤ size)%nat → ∃ m, filled size (x ++ y) = (Some <$> x) ++ m.
Proof.
  intros Hl. unfold filled. rewrite fmap_app, <-app_assoc, take_app_ge by (rewrite length_fmap; lia). by eexists.
Qed.

(** The first lines of the file show the neighbours, if they are among them. *)
Lemma first_buffer s i m : neighbours (rf_regs f).*1 i → (S (S i) ≤ m)%nat → (m ≤ length (rf_regs f))%nat → line_pos f m ≤ Z.of_nat PATH_MAX →
  let buffer := filled PATH_MAX (lines_text f 0 m) in
  ∃ addresses, first_lines (S (length buffer)) buffer s (mkFacts 0 0 0 []) =
    Ret (with_increment (with_bytes s (bytes_of f)) 1, known addresses 1).
Proof.
  intros Hi Him Hm Hsize buffer. rewrite <-(length_lines_text f 0 m) in Hsize by (done || lia).
  pose proof (lines_text_app f 0 (S (S i)) (m - S (S i))) as E. replace (S (S i) + (m - S (S i)))%nat with m in E by lia.
  rewrite <-E, length_app in Hsize. unfold buffer. rewrite <-E. destruct (filled_prefix PATH_MAX (lines_text f 0 (S (S i))) (lines_text f (0 + S (S i)) (m - S (S i)))) as (t & ->); [lia|].
  apply first_lines_spec; [done|]. rewrite length_app, length_fmap. pose proof (length_lines_text f 0 (S (S i)) Hf ltac:(lia)) as El.
  unfold line_pos in El. assert (4 ≤ line_size f)%nat by (pose proof (rf_widths f Hf); unfold line_size; lia). nia.
Qed.

(** The range file next to a register file. *)
Definition has_ranges (w : W) (dir : list Z) : Prop :=
  ∃ ranges i, file_at w (dir ++ str "/range") = Some (TextFile (range_text ranges)) ∧ Forall range_ok ranges ∧
    (rf_regs f).*1 = expand ranges ∧ neighbours (rf_regs f).*1 i ∧ line_pos f (S (S i)) ≤ Z.of_nat PATH_MAX - 2.

Lemma from_ranges s0 ml dir w : layout s0 = [] → regPath s0 = dir ++ str "/registers" → (length (regPath s0) < PATH_MAX)%nat →
  file_at w (regPath s0) = Some (RegFile f) → has_ranges w dir →
  ∃ w', InitialiseLayoutWithRanges true MAX_REGISTER s0 ml w = Ret (WMT_SUCCESS, section_of s0 (Some 1), ml, w') ∧ file_at w' = file_at w.
Proof.
  intros Hs Hpath Hlen Hfile (ranges & i & Hrange & Hr & Hexp & Hi & Hsize). unfold InitialiseLayoutWithRanges. cbn [negb].
  rewrite (range_path s0 dir) by done.
  cbv beta iota. rewrite bool_decide_eq_false_2 by congruence.
  destruct (stream_law (dir ++ str "/range") w) as (w1 & -> & F1). rewrite Hrange. cbn [fmap option_fmap option_map text_of].
  destruct (ReadFromOffset_spec (regPath s0) f 0 (Z.of_nat PATH_MAX - 2) PATH_MAX w1) as (m & w2 & E & Hm & Hle & Hend & F2);
    [done|by rewrite F1|lia|unfold PATH_MAX; lia..|]. unfold line_pos at 1 in E. rewrite Z.mul_0_r in E. rewrite E. clear E.
  cbn [mbind outcome_bind]. rewrite bool_decide_eq_false_2 by congruence. cbn [andb].
  assert (S (S i) ≤ m)%nat.
  { unfold line_pos in *. destruct Hend as [Hend|Hend]; [nia|]. destruct Hi as (a & _ & Hi). apply lookup_lt_Some in Hi. rewrite length_fmap in Hi. lia. }
  destruct (first_buffer s0 i m Hi) as (addresses & ->); [done|lia|lia|].
  cbn [mbind outcome_bind f_addressIncrement known]. rewrite fgets_ranges by done. fold (known addresses 1).
  assert (mkRange (with_increment (with_bytes s0 (bytes_of f)) 1) 0 0 1 ml = range_at (with_increment (with_bytes s0 (bytes_of f)) 1) ml []) as ->.
  { unfold range_at. cbn [lines_from length]. rewrite Z.mul_0_r. destruct s0; cbn in *; by subst. }
  rewrite (range_lines_spec _ _ _ ranges [] (rf_regs f)) by done. cbn [mbind outcome_bind]. rewrite bool_decide_eq_false_2 by congruence.
  exists w2. split; [|by rewrite F2, F1]. do 2 f_equal. unfold section_of, range_at, layout_of, EnsureAddressIncrementSet.
  cbn [r_addressIncrement r_section r_maxLineNumber]. change (1 =? 0) with false. unfold with_layout, with_increment, with_bytes. cbn [layout regPath bytesPerRegister addressIncrement algorithmID].
  pose proof (bytes_of_bound f Hf). rewrite !s32_small by (unfold INT_MIN, INT_MAX; lia). done.
Qed.
End Building.

(** ** Registers *)

Section Access.
Context {W : Type} {files : Files W} {codec : CodecFiles W}.

Section One.
Context (f : regfile) (Hf : regfile_ok f) (sections : RegisterSections) (s0 : RegisterSection) (incr : option Z).
Context (Hsec : sections = [section_of f s0 incr]).
Abbreviation L := (Z.of_nat (line_size f)).

Lemma FindInSections_one a : FindInSections sections a = Ret (line_of (layout_of f) a).
Proof.
  rewrite Hsec. cbn [FindInSections section_of layout]. rewrite FindInLayout_linear by by apply layout_of_ok. cbn [mbind outcome_bind]. by case_match.
Qed.

(** The path of a register that is not below the first. *)
Lemma GetCodecPath_one a i v : rf_regs f !! i = Some (a, v) → GetCodecPath sections a = Some (regPath s0).
Proof.
  intros Hi. rewrite Hsec. unfold GetCodecPath, section_of, layout_of. cbn [of_section layout].
  destruct Hf as (_ & _ & Hs & _). destruct (rf_regs f) as [|[a0 v0] regs]; [done|]. cbn [lines_from line_info registerAddress fst].
  destruct (Z.leb_spec a0 a); [done|]. apply StronglySorted_inv in Hs as [_ Hs]. destruct i as [|i]; cbn in Hi; [simplify_eq; lia|].
  rewrite Forall_lookup in Hs. specialize (Hs i _ Hi). cbn in Hs. lia.
Qed.

Lemma read_one w a : file_at w (regPath s0) = Some (RegFile f) →
  ∃ w', ReadCodecRegister true sections a w =
      Ret (match regs_of f !! a with Some v => (WMT_SUCCESS, Some v, w') | None => (WMT_REG_NOT_PRESENT, None, w') end) ∧
    file_at w' = file_at w.
Proof.
  intros Hfile. unfold ReadCodecRegister. cbn [negb]. rewrite FindInSections_one. cbn [mbind outcome_bind].
  destruct (regs_of f !! a) as [v|] eqn:Ha; [|exists w; by rewrite (regs_of_None f Hf a Ha)].
  apply (regs_of_Some f Hf) in Ha as [i Hi]. rewrite (line_of_index f Hf i a v Hi), (GetCodecPath_one a i v Hi).
  pose proof (offset_small f Hf i (lookup_lt_Some _ _ _ Hi)) as [Ho _]. pose proof (line_size_small f Hf) as Hl.
  pose proof (lookup_lt_Some _ _ _ Hi) as Hlt. pose proof (rf_widths f Hf). pose proof (reg_ok_index f Hf i _ Hi) as Hav.
  cbn [line_info offset lineLength]. destruct (ReadFromOffset_spec (regPath s0) f i L PATH_MAX w) as (m & w' & E & Hm & Hle & Hend & F);
    [done|done|lia|lia|lia|unfold PATH_MAX; lia|]. unfold line_pos at 1 in E. rewrite E. clear E. cbn [mbind outcome_bind].
  rewrite bool_decide_eq_false_2 by congruence. assert (m = 1%nat) as ->.
  { unfold line_pos in *. assert (4 ≤ L) by (unfold line_size; lia). destruct Hend; nia. }
  rewrite (lines_text_one f i _ Hi). exists w'. split; [|done].
  rewrite mem_str_filled; [|by apply text_plain_one|rewrite (length_reg_line f Hf _ Hav); lia]. cbn [mbind outcome_bind].
  pose proof (find_value_line f Hf [] (a, v) []) as Hfind. cbn [fmap list_fmap concat app fst snd] in Hfind. rewrite app_nil_r in Hfind.
  by rewrite Hfind by (done || constructor).
Qed.

Lemma write_request a v : take 63 (print_x a ++ [32] ++ print_x v ++ [10]) = write_text a v.
Proof.
  unfold write_text. rewrite firstn_all2; [done|]. rewrite !length_app. pose proof (length_hex_lower 8 a). pose proof (length_hex_lower 8 v). unfold print_x. cbn [length]. lia.
Qed.

Lemma write_one w a i v0 v : file_at w (regPath s0) = Some (RegFile f) → rf_regs f !! i = Some (a, v0) → 0 ≤ v < 16 ^ Z.of_nat (rf_vw f) →
  ∃ w', WriteCodecRegister true sections a v w = Ret (WMT_SUCCESS, w') ∧
    ∀ q, file_at w' q = if bool_decide (q = regPath s0) then Some (RegFile (set_reg f a v)) else file_at w q.
Proof.
  intros Hfile Hi Hv. unfold WriteCodecRegister. cbn [negb]. rewrite (GetCodecPath_one a i v0 Hi). unfold OpenCodecFile. cbn [negb].
  destruct (open_law (regPath s0) w) as (fd & w1 & -> & Hfd & Hat & F1); [by eexists|]. destruct (Z.ltb_spec fd 0); [lia|].
  rewrite bool_decide_eq_false_2 by congruence. unfold WriteToCodecFile. destruct (Z.ltb_spec fd 0); [lia|]. rewrite write_request.
  destruct (write_law fd (regPath s0) 0 f a v w1) as (w2 & -> & _ & F2); [done|by rewrite F1|done| |done|].
  { apply list_elem_of_fmap. exists (a, v0). split; [done|]. by eapply list_elem_of_lookup_2. }
  rewrite Z.eqb_refl. cbn [negb]. eexists. split; [done|]. intros q. rewrite close_law, F2. by rewrite F1.
Qed.
End One.

(** ** A file after a write *)

Lemma set_reg_length f a v : length (rf_regs (set_reg f a v)) = length (rf_regs f).
Proof. apply length_fmap. Qed.

Lemma set_reg_ok f a v : regfile_ok f → 0 ≤ v < 16 ^ Z.of_nat (rf_vw f) → regfile_ok (set_reg f a v).
Proof.
  intros (Ha & Hw & Hs & Hr & Hl) Hv. split_and!; [apply Ha|apply Ha|exact Hw| | |by rewrite set_reg_length].
  - cbn [set_reg rf_regs]. induction Hs as [|x l Hs IH Hx]; [constructor|]. apply Forall_cons_1 in Hr as [_ Hr]. rewrite fmap_cons. constructor.
    + apply IH; [done|]. cbn [length] in Hl. unfold INT_MAX in *. lia.
    + rewrite Forall_fmap. eapply Forall_impl; [exact Hx|]. intros y Hy. cbn in Hy |- *. destruct (Z.eqb_spec x.1 a), (Z.eqb_spec y.1 a); cbn; lia.
  - cbn [set_reg rf_regs]. rewrite Forall_fmap. eapply Forall_impl; [exact Hr|]. intros [b u] [Hb Hu]. cbn.
    destruct (Z.eqb_spec b a) as [->|]; done.
Qed.

Lemma set_reg_layout f a v : layout_of (set_reg f a v) = layout_of f.
Proof.
  unfold layout_of. cbn [set_reg rf_regs]. generalize 0%nat. induction (rf_regs f) as [|[b u] l IH]; intros k; [done|].
  rewrite fmap_cons. cbn [lines_from]. rewrite IH. f_equal. unfold line_info, line_size. cbn. by destruct (Z.eqb_spec b a); subst.
Qed.

Lemma set_reg_in f a v b : b ∈ (rf_regs f).*1 → b ∈ (rf_regs (set_reg f a v)).*1.
Proof.
  intros Hb. apply list_elem_of_fmap in Hb as (x & -> & Hx). cbn [set_reg rf_regs]. rewrite <-list_fmap_compose. apply list_elem_of_fmap.
  exists x. split; [|done]. cbn. by destruct (Z.eqb_spec x.1 a).
Qed.

Lemma set_reg_map f a i v0 v : regfile_ok f → rf_regs f !! i = Some (a, v0) → 0 ≤ v < 16 ^ Z.of_nat (rf_vw f) →
  regs_of (set_reg f a v) = <[a := v]> (regs_of f).
Proof.
  intros Hf Hi Hv. pose proof (set_reg_ok f a v Hf Hv) as Hf'. apply map_eq. intros b. apply option_eq. intros u.
  rewrite (regs_of_Some _ Hf'). cbn [set_reg rf_regs]. setoid_rewrite list_lookup_fmap. destruct (decide (b = a)) as [->|Hne].
  - rewrite lookup_insert_eq. split.
    + intros [j Hj]. apply fmap_Some in Hj as ([c x] & _ & E). cbn in E. destruct (Z.eqb_spec c a); congruence.
    + intros [= <-]. exists i. rewrite Hi. cbn. by rewrite Z.eqb_refl.
  - rewrite lookup_insert_ne, (regs_of_Some _ Hf) by done. split; intros [j Hj]; exists j.
    + apply fmap_Some in Hj as ([c x] & E & E'). cbn in E'. destruct (Z.eqb_spec c a); congruence.
    + rewrite Hj. cbn. by destruct (Z.eqb_spec b a).
Qed.

(** ** A codec is a map *)

Inductive codec_op := OpRead (a : Z) | OpWrite (a v : Z).

Fixpoint codec_run (sections : RegisterSections) (ops : list codec_op) (w : W) : outcome (list (RESULT * option Z) * W) :=
  match ops with
  | [] => Ret ([], w)
  | OpRead a :: ops' =>
      '(r, v, w) ← ReadCodecRegister true sections a w; '(rs, w) ← codec_run sections ops' w; Ret ((r, v) :: rs, w)
  | OpWrite a v :: ops' =>
      '(r, w) ← WriteCodecRegister true sections a v w; '(rs, w) ← codec_run sections ops' w; Ret ((r, None) :: rs, w)
  end.

(** The same on a map. *)
Fixpoint map_run (m : gmap Z Z) (ops : list codec_op) : list (RESULT * option Z) * gmap Z Z :=
  match ops with
  | [] => ([], m)
  | OpRead a :: ops' =>
      let '(rs, m') := map_run m ops' in
      (match m !! a with Some v => (WMT_SUCCESS, Some v) | None => (WMT_REG_NOT_PRESENT, None) end :: rs, m')
  | OpWrite a v :: ops' => let '(rs, m') := map_run (<[a := v]> m) ops' in ((WMT_SUCCESS, None) :: rs, m')
  end.

(** Writes are to registers of the codec, of values that they can hold. *)
Definition op_ok (f : regfile) (op : codec_op) : Prop :=
  match op with OpRead _ => True | OpWrite a v => a ∈ (rf_regs f).*1 ∧ 0 ≤ v < 16 ^ Z.of_nat (rf_vw f) end.

Lemma op_ok_set f a v op : op_ok f op → op_ok (set_reg f a v) op.
Proof. destruct op as [b|b u]; [done|]. intros [Hb Hu]. split; [by apply set_reg_in|done]. Qed.

Lemma run_ops f s0 incr ops : ∀ w, regfile_ok f → file_at w (regPath s0) = Some (RegFile f) → Forall (op_ok f) ops →
  ∃ w', codec_run [section_of f s0 incr] ops w = Ret ((map_run (regs_of f) ops).1, w') ∧
    ∃ f', file_at w' (regPath s0) = Some (RegFile f') ∧ regs_of f' = (map_run (regs_of f) ops).2.
Proof.
  revert f. induction ops as [|op ops IH]; intros f w Hf Hfile Hops.
  - exists w. split; [done|]. by exists f.
  - apply Forall_cons_1 in Hops as [Hop Hops]. destruct op as [a|a v]; cbn [codec_run map_run].
    + destruct (read_one f Hf _ s0 incr eq_refl w a Hfile) as (w1 & -> & F1). destruct (IH f w1) as (w2 & E2 & f' & F2); [done|by rewrite F1|done|].
      destruct (regs_of f !! a); cbn [mbind outcome_bind]; rewrite E2; cbn [mbind outcome_bind]; destruct (map_run (regs_of f) ops); by eauto.
    + destruct Hop as [Ha Hv]. apply list_elem_of_fmap in Ha as ([b v0] & -> & Hin). apply list_elem_of_lookup in Hin as [i Hi]. cbn [fst].
      destruct (write_one f Hf _ s0 incr eq_refl w b i v0 v Hfile Hi Hv) as (w1 & -> & F1). cbn [mbind outcome_bind].
      destruct (IH (set_reg f b v) w1) as (w2 & E2 & f' & F2).
      * by apply set_reg_ok.
      * rewrite F1. by rewrite bool_decide_eq_true_2.
      * eapply Forall_impl; [exact Hops|]. intros op. apply op_ok_set.
      * unfold section_of in *. rewrite set_reg_layout in E2. unfold bytes_of in *. cbn [rf_vw set_reg] in E2. rewrite E2. cbn [mbind outcome_bind].
        rewrite (set_reg_map f b i v0 v Hf Hi Hv) in *. destruct (map_run (<[b:=v]> (regs_of f)) ops). by eauto.
Qed.

(** A codec: its register file, with a range file next to it or without, and its section
    before it is set up. *)
Definition codec_at (f : regfile) (s0 : RegisterSection) (dir : list Z) (w : W) : Prop :=
  regfile_ok f ∧ rf_regs f ≠ [] ∧ layout s0 = [] ∧ regPath s0 = dir ++ str "/registers" ∧ (length (regPath s0) < PATH_MAX)%nat ∧
  file_at w (regPath s0) = Some (RegFile f) ∧ (has_ranges f w dir ∨ file_at w (dir ++ str "/range") = None).

(** A section is set up from its range file, or without one from the registers. *)
Lemma section_initialised f s0 ml dir w : codec_at f s0 dir w →
  ∃ w', InitialiseSection true MAX_REGISTER s0 ml w = Ret (WMT_SUCCESS, section_of f s0 (Some 1), ml, w') ∧ file_at w' = file_at w.
Proof.
  intros (Hf & Hne & Hs & Hpath & Hlen & Hfile & [Hr|Hr]); unfold InitialiseSection.
  - destruct (from_ranges f Hf Hne s0 ml dir w) as (w' & -> & F); [done..|]. cbn [mbind outcome_bind]. rewrite bool_decide_eq_true_2 by done. by eexists.
  - assert (∃ w1, InitialiseLayoutWithRanges true MAX_REGISTER s0 ml w = Ret (WMT_NO_DATA, s0, ml, w1) ∧ file_at w1 = file_at w) as (w1 & -> & F1).
    { unfold InitialiseLayoutWithRanges. cbn [negb]. rewrite (range_path s0 dir) by done. cbv beta iota. rewrite bool_decide_eq_false_2 by congruence.
      destruct (stream_law (dir ++ str "/range") w) as (w1 & -> & F1). rewrite Hr. by eexists. }
    cbn [mbind outcome_bind]. rewrite bool_decide_eq_false_2 by congruence.
    destruct (from_registers f Hf Hne (with_increment s0 1) ml w1) as (w2 & -> & F2); [done|by rewrite F1|].
    exists w2. split; [|by rewrite F2, F1]. done.
Qed.

(** A range file leads to the same layout, widths and increment as reading the whole
    register file line by line, and in that layout the search finds, for every register
    of the file, the line that it is on, and nothing else. *)
Theorem ranges_equal_registers f s0 ml dir w : codec_at f s0 dir w → has_ranges f w dir →
  ∃ s w1 w2, InitialiseLayoutWithRanges true MAX_REGISTER s0 ml w = Ret (WMT_SUCCESS, s, ml, w1) ∧
    InitialiseLayoutFromRegisters true MAX_REGISTER (with_increment s0 1) ml w = Ret (WMT_SUCCESS, s, ml, w2) ∧
    (∀ i a v, rf_regs f !! i = Some (a, v) →
      FindInLayout (layout s) a = Ret (Some (mkLineInfo a (line_pos f i) (Z.of_nat (line_size f)) (Z.of_nat i)))) ∧
    (∀ a, a ∉ (rf_regs f).*1 → FindInLayout (layout s) a = Ret None).
Proof.
  intros (Hf & Hne & Hs & Hpath & Hlen & Hfile & _) Hr. destruct (from_ranges f Hf Hne s0 ml dir w) as (w1 & E1 & _); [done..|].
  destruct (from_registers f Hf Hne (with_increment s0 1) ml w) as (w2 & E2 & _); [done|done|].
  exists (section_of f s0 (Some 1)), w1, w2. split_and!; [exact E1|exact E2|intros i a v Hi|intros a Ha];
    cbn [section_of layout]; rewrite FindInLayout_linear by by apply layout_of_ok.
  - by rewrite (line_of_index f Hf i a v Hi).
  - rewrite (regs_of_None f Hf a); [done|]. destruct (regs_of f !! a) as [v|] eqn:E; [|done]. exfalso. apply (regs_of_Some f Hf) in E as [i Hi].
    apply Ha, list_elem_of_fmap. exists (a, v). split; [done|]. by eapply list_elem_of_lookup_2.
Qed.

(** C35. Once its layout is set up, from the range file or from the register file, a codec
    is a map from registers to values: any reads of single registers, and writes to registers
    that exist of values that fit them, return what lookups and updates of the map return
    ([WMT_REG_NOT_PRESENT] for a read of a register that is not there), and the file holds
    the updated map.  (A write to a register that is not there is not refused but sent to
    the kernel.) *)
Theorem codec_refines_map f s0 ml dir w ops : codec_at f s0 dir w → Forall (op_ok f) ops →
  ∃ s w1 w2, InitialiseSection true MAX_REGISTER s0 ml w = Ret (WMT_SUCCESS, s, ml, w1) ∧
    codec_run [s] ops w1 = Ret ((map_run (regs_of f) ops).1, w2) ∧
    ∃ f', file_at w2 (regPath s0) = Some (RegFile f') ∧ regs_of f' = (map_run (regs_of f) ops).2.
Proof.
  intros Hc Hops. destruct (section_initialised f s0 ml dir w Hc) as (w1 & E1 & F1). destruct Hc as (Hf & _ & _ & _ & _ & Hfile & _).
  destruct (run_ops f s0 (Some 1) ops w1) as (w2 & E2 & F2); [done|by rewrite F1|done|]. by exists (section_of f s0 (Some 1)), w1, w2.
Qed.
End Access.

(** ** A concrete codec *)

Definition demo_file : regfile := mkRegfile 2 4 [(0, 0x1234); (1, 0xABCD); (2, 7); (4, 9)].
Definition demo_disk : disk :=
  mkDisk (list_to_map [(str "/d/registers", RegFile demo_file); (str "/d/range", TextFile (range_text [(0, 2); (4, 4)]))]) ∅ 3.
Definition demo_section : RegisterSection := mkSection [] (str "/d/registers") None None (Some 0).

Lemma demo_ok : regfile_ok demo_file.
Proof.
  split_and!; [cbn; lia|cbn; lia|by right; left| | |by vm_compute].
  - repeat (constructor || (cbn; lia)).
  - repeat constructor; by vm_compute.
Qed.

Lemma demo_ranges : has_ranges demo_file demo_disk (str "/d").
Proof.
  exists [(0, 2); (4, 4)], 0%nat. split_and!; [by vm_compute|repeat constructor; by vm_compute|by vm_compute| |by vm_compute].
  by exists 0.
Qed.

Lemma demo_codec : codec_at demo_file demo_section (str "/d") demo_disk.
Proof. split_and!; [apply demo_ok|done|done|by vm_compute|by vm_compute; lia|by vm_compute|left; apply demo_ranges]. Qed.

Lemma ranges_equal_registers_witness : has_ranges demo_file demo_disk (str "/d") ∧
  ∃ s w1 w2, InitialiseLayoutWithRanges true MAX_REGISTER demo_section 7 demo_disk = Ret (WMT_SUCCESS, s, 7, w1) ∧
    InitialiseLayoutFromRegisters true MAX_REGISTER (with_increment demo_section 1) 7 demo_disk = Ret (WMT_SUCCESS, s, 7, w2) ∧
    (∀ i a v, rf_regs demo_file !! i = Some (a, v) →
      FindInLayout (layout s) a = Ret (Some (mkLineInfo a (line_pos demo_file i) (Z.of_nat (line_size demo_file)) (Z.of_nat i)))) ∧
    (∀ a, a ∉ (rf_regs demo_file).*1 → FindInLayout (layout s) a = Ret None).
Proof.
  split; [exact demo_ranges|]. apply (ranges_equal_registers demo_file demo_section 7 (str "/d") demo_disk); [exact demo_codec|exact demo_ranges].
Defined.

Definition demo_ops : list codec_op := [OpRead 1; OpWrite 1 0x55; OpRead 1; OpRead 3; OpWrite 4 0xFFFF; OpRead 4].

Lemma codec_refines_map_witness : Forall (op_ok demo_file) demo_ops ∧
  ∃ s w1 w2, InitialiseSection true MAX_REGISTER demo_section 7 demo_disk = Ret (WMT_SUCCESS, s, 7, w1) ∧
    codec_run [s] demo_ops w1 = Ret ([(WMT_SUCCESS, Some 0xABCD); (WMT_SUCCESS, None); (WMT_SUCCESS, Some 0x55);
      (WMT_REG_NOT_PRESENT, None); (WMT_SUCCESS, None); (WMT_SUCCESS, Some 0xFFFF)], w2) ∧
    ∃ f', file_at w2 (str "/d/registers") = Some (RegFile f') ∧ regs_of f' = (map_run (regs_of demo_file) demo_ops).2.
Proof.
  assert (H : Forall (op_ok demo_file) demo_ops).
  { repeat constructor; try (by apply (bool_decide_unpack _); vm_compute); by vm_compute. }
  split; [exact H|]. exact (codec_refines_map demo_file demo_section 7 (str "/d") demo_disk demo_ops demo_codec H).
Defined.
