(* ===== verification/WbCodecBlock.v ===== *)
(** * Blocks of registers

    A block read returns the bytes of its registers, those that the codec does not have
    being zero; a block that was written is read back. *)
From S2P Require Import Prelude DevStdlib DevArrays WbString WbResult WbCommand WbDevice WbUtil WbPaths WbUtilSpec WbLayout WbCodec WbCodecLayout WbCodecText WbCodecFiles WbCodecSpec WbCodecRead.
From stdpp Require Import sorting strings.
#[local] Open Scope Z_scope.

(** ** Bytes of a value *)

Lemma length_value_bytes f v : regfile_ok f → length (value_bytes (bytes_of f) v) = (rf_vw f / 2)%nat.
Proof. intros (_ & Hw & _). unfold bytes_of. by destruct Hw as [-> | [-> | ->]]. Qed.

(** The bytes from an index on are replaced. *)
Lemma store_bytes_spec bs : ∀ (data : list (option Z)) (i : nat), (i + length bs ≤ length data)%nat →
  store_bytes data (Z.of_nat i) bs = Ret (take i data ++ (Some <$> bs) ++ drop (i + length bs) data).
Proof.
  induction bs as [|b bs IH]; intros data i Hi; cbn [store_bytes length] in *.
  - cbn. by rewrite Nat.add_0_r, take_drop.
  - rewrite arr_set_inside by lia. cbn [mbind outcome_bind]. rewrite Nat2Z.id. replace (Z.of_nat i + 1) with (Z.of_nat (S i)) by lia.
    rewrite IH by (rewrite length_insert; lia). f_equal. rewrite fmap_cons. rewrite drop_insert_lt by lia.
    rewrite (take_S_r _ _ (Some b)) by (apply list_lookup_insert_eq; lia). rewrite take_insert_ge by lia. rewrite <-app_assoc. cbn [app].
    do 3 f_equal. f_equal. lia.
Qed.

(** Two pieces stored one after the other. *)
Lemma splice {A} (d x y : list A) i : (i + length x ≤ length d)%nat →
  take (i + length x) (take i d ++ x ++ drop (i + length x) d) ++ y ++ drop (i + length x + length y) (take i d ++ x ++ drop (i + length x) d) =
    take i d ++ (x ++ y) ++ drop (i + (length x + length y)) d.
Proof.
  intros Hi. rewrite (app_assoc (take i d) x). assert (length (take i d ++ x) = (i + length x)%nat) as El by (rewrite length_app, length_take; lia).
  rewrite take_app_length' by done. rewrite drop_app_ge by lia. rewrite El. replace (i + length x + length y - (i + length x))%nat with (length y) by lia.
  rewrite drop_drop, <-!app_assoc. do 4 f_equal. lia.
Qed.

Section Block.
Context {W : Type} {files : Files W} {codec : CodecFiles W}.
Context (f : regfile) (Hf : regfile_ok f) (s0 : RegisterSection).
Abbreviation L := (Z.of_nat (line_size f)).
Abbreviation sections := [section_of f s0 (Some 1)].

Lemma block_addresses_one a n : 0 ≤ a → 0 ≤ n → a + n < 2 ^ 32 → block_addresses a (n * bytes_of f) (bytes_of f) 1 = seqZ a n.
Proof.
  intros Ha Hn Hend. pose proof (bytes_of_bound f Hf). unfold block_addresses. rewrite Z.div_mul, Z.mul_1_r by lia.
  rewrite (wrapu_small 32 n), (wrapu_small 32 (a + n)) by lia. rewrite Z.div_1_r. replace (a + n - a + 1 - 1) with n by lia.
  pose proof (fmap_add_seqZ a 0 n) as E. rewrite Z.add_0_r in E. rewrite <-E. apply list_fmap_ext. intros i k _. lia.
Qed.

(** The registers below an address, and the others. *)
Lemma sorted_split (l : list (Z * Z)) c : StronglySorted (λ x y, x.1 < y.1) l →
  ∃ l1 l2, l = l1 ++ l2 ∧ Forall (λ x, x.1 < c) l1 ∧ Forall (λ x, c ≤ x.1) l2.
Proof.
  induction 1 as [|x l Hs (l1 & l2 & -> & H1 & H2) Hx]; [by exists [], []|]. destruct (decide (x.1 < c)).
  - exists (x :: l1), l2. split_and!; [done|by constructor|done].
  - exists [], (x :: l1 ++ l2). split_and!; [done|constructor|]. constructor; [lia|]. eapply Forall_impl; [exact Hx|]. cbn. lia.
Qed.

(** The registers below a block, in it and behind it. *)
Definition block_split (a n : Z) (pre mid post : list (Z * Z)) : Prop :=
  rf_regs f = pre ++ mid ++ post ∧ Forall (λ x, x.1 < a) pre ∧ Forall (λ x, a ≤ x.1 < a + n) mid ∧ Forall (λ x, a + n ≤ x.1) post.

Lemma block_split_exists a n : 0 ≤ n → ∃ pre mid post, block_split a n pre mid post.
Proof.
  intros Hn. pose proof Hf as (_ & _ & Hs & _). destruct (sorted_split (rf_regs f) a Hs) as (pre & l2 & E & H1 & H2).
  rewrite E in Hs. apply StronglySorted_app_1_r in Hs. destruct (sorted_split l2 (a + n) Hs) as (mid & post & E2 & H3 & H4).
  exists pre, mid, post. split_and!; [by rewrite E, E2|done| |done]. rewrite E2, Forall_app in H2. destruct H2 as [H2 _].
  apply Forall_and. by split.
Qed.

Lemma mid_sorted pre mid post : rf_regs f = pre ++ mid ++ post → StronglySorted (λ x y, x.1 < y.1) mid.
Proof.
  intros E. pose proof Hf as (_ & _ & Hs & _). rewrite E in Hs. by apply StronglySorted_app_1_r, StronglySorted_app_1_l in Hs.
Qed.

(** A block of registers either starts with its first address or lies above it. *)
Lemma mid_cases a n (mid : list (Z * Z)) : Forall (λ x, a ≤ x.1 < a + Z.succ n) mid → StronglySorted (λ x y, x.1 < y.1) mid →
  (∃ v mid', mid = (a, v) :: mid' ∧ Forall (λ x, a < x.1 < a + Z.succ n) mid') ∨ Forall (λ x, a < x.1 < a + Z.succ n) mid.
Proof.
  intros Hm Hs. destruct Hm as [|[b v] mid Hb Hm]; [by right|]. apply StronglySorted_inv in Hs as [_ Hs]. cbn [fst] in *.
  assert (Hmid : Forall (λ x, a < x.1 < a + Z.succ n) mid).
  { eapply Forall_impl; [apply Forall_and; split; [exact Hm|exact Hs]|]. cbn. lia. }
  destruct (decide (b = a)) as [->|]; [left; eauto|right]. constructor; [cbn; lia|done].
Qed.

Lemma lookup_at pre av rest : rf_regs f = pre ++ av :: rest → rf_regs f !! length pre = Some av.
Proof. intros ->. by rewrite lookup_app_r, Nat.sub_diag by lia. Qed.

(** An address that none of the registers has. *)
Lemma absent a : Forall (λ x, x.1 ≠ a) (rf_regs f) → regs_of f !! a = None.
Proof.
  intros Hn. destruct (regs_of f !! a) as [v|] eqn:E; [|done]. exfalso. apply (regs_of_Some f Hf) in E as [i Hi].
  rewrite Forall_lookup in Hn. by apply (Hn i _ Hi).
Qed.

(** ** The extent of a block *)

Lemma block_extent_spec (n : nat) : ∀ a pre mid post B S, block_split a (Z.of_nat n) pre mid post → 0 ≤ B → B + L * Z.of_nat (length mid) < 2 ^ 32 →
  block_extent sections (seqZ a (Z.of_nat n)) B S =
    Ret (B + L * Z.of_nat (length mid), if S =? MAX_REGISTER then match mid with [] => MAX_REGISTER | _ => line_pos f (length pre) end else S).
Proof.
  induction n as [|n IH]; intros a pre mid post B S (E & Hpre & Hmid & Hpost) HB Hsum.
  - assert (mid = []) as -> by (destruct mid as [|x mid]; [done|]; apply Forall_cons_1 in Hmid as [Hmid _]; lia).
    cbn [length]. rewrite Z.mul_0_r, Z.add_0_r. destruct (Z.eqb_spec S MAX_REGISTER) as [->|]; done.
  - rewrite Nat2Z.inj_succ in *. rewrite seqZ_cons, Z.pred_succ by lia. cbn [block_extent].
    rewrite (FindInSections_one f Hf _ s0 (Some 1) eq_refl). cbn [mbind outcome_bind]. destruct (mid_cases a _ mid Hmid ltac:(by eapply mid_sorted)) as [(v & mid' & -> & Hmid')|Hmid'].
    + cbn [length app] in *. rewrite (line_of_index f Hf (length pre) a v) by by eapply lookup_at. cbn [line_info lineLength offset].
      rewrite (wrapu_small 32 (B + L)) by (unfold line_size in *; nia).
      rewrite (IH (Z.succ a) (pre ++ [(a, v)]) mid' post); [| |lia|lia].
      * f_equal. f_equal; [lia|]. destruct (Z.eqb_spec S MAX_REGISTER) as [->|HS]; [|by destruct (Z.eqb_spec S MAX_REGISTER)].
        assert (Hlt : (length pre < length (rf_regs f))%nat) by (rewrite E, length_app; cbn [length]; lia).
        destruct (offset_small f Hf (length pre) Hlt) as [? Ho]. unfold INT_MAX in Ho. unfold line_pos.
        destruct (Z.eqb_spec (L * Z.of_nat (length pre)) MAX_REGISTER); [unfold MAX_REGISTER in *; lia|done].
      * split_and!; [by rewrite E, <-app_assoc| | |eapply Forall_impl; [exact Hpost|]; cbn; lia].
        { apply Forall_app. split; [eapply Forall_impl; [exact Hpre|]; cbn; lia|]. constructor; [cbn; lia|constructor]. }
        eapply Forall_impl; [exact Hmid'|]. cbn. lia.
    + rewrite regs_of_None; [|done|].
      * apply (IH (Z.succ a) pre mid post); [|done|done]. split_and!; [done| | |]; (eapply Forall_impl; [done|]; cbn; lia).
      * apply absent. rewrite E, !Forall_app. split_and!; (eapply Forall_impl; [done|]; cbn; lia).
Qed.

(** ** The values of a block *)

Context (Hne : rf_regs f ≠ []).

(** The bytes of the registers from an address on, zero for a register that is missing. *)
Definition block_bytes (m : gmap Z Z) (a n : Z) : list Z :=
  concat ((λ x, value_bytes (bytes_of f) (default 0 (m !! x))) <$> seqZ a n).

Lemma length_block_bytes m a n : 0 ≤ n → Z.of_nat (length (block_bytes m a n)) = n * bytes_of f.
Proof.
  intros Hn. unfold block_bytes. rewrite <-(Z2Nat.id n) by lia. generalize (Z.to_nat n). clear Hn n. intros n. revert a.
  induction n as [|n IH]; intros a; [done|]. rewrite Nat2Z.inj_succ, seqZ_cons, Z.pred_succ by lia.
  rewrite text_cons, length_app, Nat2Z.inj_add, IH, (length_value_bytes f) by done. unfold bytes_of. lia.
Qed.

Section Values.
Context (a n : Z) (pre mid post : list (Z * Z)) (Hsplit : block_split a n pre mid post).
Context (buffer : option mem) (Hbuffer : mid ≠ [] → ∃ m, buffer = Some m ∧ mem_str m = Ret (concat (reg_line f <$> mid))).

(** What is found for an address of the block. *)
Lemma value_step x : a ≤ x < a + n →
  ∃ r v, (pLineInfo ← FindInSections sections x;
          match pLineInfo, buffer with
          | Some _, Some m => s ← mem_str m; find_value s x
          | _, _ => Ret (WMT_REG_NOT_PRESENT, None)
          end) = Ret (r, v) ∧ (r = WMT_SUCCESS ∨ r = WMT_REG_NOT_PRESENT) ∧ default 0 v = default 0 (regs_of f !! x).
Proof.
  intros Hx. destruct Hsplit as (E & Hpre & Hmid & Hpost). rewrite (FindInSections_one f Hf _ s0 (Some 1) eq_refl). cbn [mbind outcome_bind].
  destruct (regs_of f !! x) as [v|] eqn:Ex; [|rewrite (regs_of_None f Hf x Ex); exists WMT_REG_NOT_PRESENT, None; split_and!; [by destruct buffer|by right|done]].
  apply (regs_of_Some f Hf) in Ex as [i Hi]. rewrite (line_of_index f Hf i x v Hi). exists WMT_SUCCESS, (Some v).
  assert (Hin : (x, v) ∈ mid).
  { apply list_elem_of_lookup_2 in Hi. rewrite E, !elem_of_app in Hi. rewrite Forall_forall in Hpre, Hpost.
    destruct Hi as [Hi|[Hi|Hi]]; [specialize (Hpre _ Hi); cbn in Hpre; lia|done|specialize (Hpost _ Hi); cbn in Hpost; lia]. }
  destruct Hbuffer as (m & -> & Hm); [by intros ->; apply not_elem_of_nil in Hin|]. rewrite Hm. cbn [mbind outcome_bind].
  apply list_elem_of_split in Hin as (m1 & m2 & Em). pose proof (mid_sorted _ _ _ E) as Hs. pose proof Hf as (_ & _ & _ & Hr & _).
  rewrite E, !Forall_app, Em, !Forall_app, Forall_cons in Hr. destruct Hr as (_ & (Hr1 & Hr & Hr2) & _).
  rewrite Em, fmap_app, concat_app, text_cons. rewrite (find_value_line f Hf m1 (x, v)); [by split_and!; [|left|]| |done|by apply (text_plain f Hf)].
  rewrite Em in Hs. apply Forall_forall. intros bu Hbu. split; [by rewrite Forall_forall in Hr1; apply Hr1|].
  refine (StronglySorted_app_1_elem_of _ m1 _ bu (x, v) Hs Hbu _). apply list_elem_of_here.
Qed.

Lemma block_values_spec (k : nat) : ∀ x (data : list (option Z)) (i : nat), a ≤ x → x + Z.of_nat k ≤ a + n →
  Z.of_nat i + Z.of_nat k * bytes_of f ≤ Z.of_nat (length data) →
  block_values sections (seqZ x (Z.of_nat k)) (bytes_of f) buffer data (Z.of_nat i) =
    Ret (WMT_SUCCESS, take i data ++ (Some <$> block_bytes (regs_of f) x (Z.of_nat k)) ++ drop (i + length (block_bytes (regs_of f) x (Z.of_nat k))) data).
Proof.
  induction k as [|k IH]; intros x data i Hx Hk Hlen.
  - change (block_bytes (regs_of f) x (Z.of_nat 0)) with (@nil Z). change (seqZ x (Z.of_nat 0)) with (@nil Z).
    cbn [fmap list_fmap length app block_values]. by rewrite Nat.add_0_r, take_drop.
  - pose proof (bytes_of_bound f Hf). unfold block_bytes. rewrite Nat2Z.inj_succ in *. rewrite seqZ_cons, Z.pred_succ by lia. cbn [block_values].
    rewrite text_cons. fold (block_bytes (regs_of f) (Z.succ x) (Z.of_nat k)). destruct (value_step x) as (r & v & Ev & Hr & Hv); [lia|].
    rewrite <-Hv. set (bs := value_bytes (bytes_of f) (default 0 v)).
    assert (Hbs : Z.of_nat (length bs) = bytes_of f) by (unfold bs; rewrite (length_value_bytes f) by done; done).
    pose proof (store_bytes_spec bs data i ltac:(lia)) as Es.
    destruct (FindInSections sections x) as [info| | | |]; try done. cbn [mbind outcome_bind] in *. rewrite Ev. cbn [mbind outcome_bind].
    assert (bool_decide (r = WMT_REG_NOT_PRESENT) || bool_decide (r = WMT_READ_FAILED) || bool_decide (r = WMT_SUCCESS) = true) as -> by by destruct Hr; subst.
    fold bs. rewrite Es. cbn [mbind outcome_bind]. replace (Z.of_nat i + Z.of_nat (length bs)) with (Z.of_nat (i + length bs)) by lia.
    rewrite IH; [|lia|lia|rewrite !length_app, length_fmap, length_take, length_drop; lia]. f_equal. f_equal.
    rewrite fmap_app, length_app, <-(length_fmap Some bs), <-(length_fmap Some (block_bytes _ _ _)).
    apply splice. rewrite length_fmap. lia.
Qed.
End Values.

(** ** Reading a block *)

(** The lines of a block are read. *)
Lemma block_buffer w pre mid post : rf_regs f = pre ++ mid ++ post → mid ≠ [] → file_at w (regPath s0) = Some (RegFile f) →
  ∃ w', (∃ m, ReadFromOffset true (Some (regPath s0)) (line_pos f (length pre)) (L * Z.of_nat (length mid)) (Z.to_nat (u32 (L * Z.of_nat (length mid) + 2))) w =
    Ret (WMT_SUCCESS, m, w') ∧ mem_str m = Ret (concat (reg_line f <$> mid))) ∧ file_at w' = file_at w.
Proof.
  intros E Hmid Hfile. pose proof Hf as (Haw & _ & _ & Hr & Hmax). unfold INT_MAX in Hmax.
  assert (Hl : (length pre + length mid ≤ length (rf_regs f))%nat) by (rewrite E, !length_app; lia). assert (HL : 4 ≤ L) by (unfold line_size; lia).
  rewrite (wrapu_small 32) by nia. destruct (ReadFromOffset_spec (regPath s0) f (length pre) (L * Z.of_nat (length mid))
    (Z.to_nat (L * Z.of_nat (length mid) + 2)) w) as (m & w' & Er & Hm & Hle & Hend & F); [done|done|lia|lia|lia|nia|].
  assert (m = length mid) as ->. { unfold line_pos in *. destruct Hend as [Hend|Hend]; [nia|]. assert (m ≤ length mid)%nat by nia. lia. }
  assert (lines_text f (length pre) (length mid) = concat (reg_line f <$> mid)) as El.
  { unfold lines_text. by rewrite E, drop_app_length, take_app_length. }
  rewrite El in Er. exists w'. split; [|done]. eexists. split; [exact Er|]. rewrite E, !Forall_app in Hr. destruct Hr as (_ & Hr & _).
  apply mem_str_filled; [by apply (text_plain f Hf)|]. rewrite (length_file_text f Hf) by done. lia.
Qed.

(** The section serves the addresses from its first register on. *)
Lemma of_section_one {A} (g : RegisterSection → A) a v : (∃ av regs, rf_regs f = av :: regs ∧ av.1 ≤ a) →
  of_section g sections a v = g (section_of f s0 (Some 1)).
Proof.
  intros (av & regs & E & Ha). unfold section_of, layout_of. rewrite E. cbn [of_section lines_from layout line_info registerAddress].
  by destruct (Z.leb_spec av.1 a); [|lia].
Qed.

Lemma block_read_one w a n data : file_at w (regPath s0) = Some (RegFile f) → (∃ av regs, rf_regs f = av :: regs ∧ av.1 ≤ a) →
  0 ≤ n → a + n < 2 ^ 32 → Z.of_nat (length data) = n * bytes_of f →
  ∃ w', BlockReadCodec true sections a data w = Ret (WMT_SUCCESS, Some <$> block_bytes (regs_of f) a n, w') ∧ file_at w' = file_at w.
Proof.
  intros Hfile Hfirst Hn Hend Hlen. pose proof (bytes_of_bound f Hf).
  assert (Ha : 0 ≤ a). { destruct Hfirst as (av & regs & E & Ha). destruct (reg_ok_at f Hf [] av regs E). lia. }
  unfold BlockReadCodec, GetRegisterBytes, GetAddressIncrement, GetCodecPath. cbn [negb]. rewrite !of_section_one by done.
  cbn [section_of bytesPerRegister addressIncrement regPath or_ub mbind outcome_bind]. rewrite (wrapu_small 32 1), (wrapu_small 32 (bytes_of f)) by lia.
  destruct (Z.eqb_spec (bytes_of f) 0); [lia|]. change (1 =? 0) with false. cbn [orb]. rewrite Hlen, block_addresses_one by done.
  destruct (block_split_exists a n Hn) as (pre & mid & post & Hs). pose proof Hs as (E & _). pose proof Hf as (Haw & _ & _ & _ & Hmax).
  assert (Hl : (length pre + length mid ≤ length (rf_regs f))%nat) by (rewrite E, !length_app; lia).
  assert (HL : 4 ≤ L) by (unfold line_size; lia). rewrite <-(Z2Nat.id n) in Hs by lia. rewrite <-(Z2Nat.id n) by lia. unfold INT_MAX in Hmax.
  rewrite (block_extent_spec (Z.to_nat n) a pre mid post 0 MAX_REGISTER Hs) by nia. cbn [mbind outcome_bind]. rewrite Z.add_0_l, Z.eqb_refl.
  assert (Hvalues : ∀ buffer, (mid ≠ [] → ∃ m, buffer = Some m ∧ mem_str m = Ret (concat (reg_line f <$> mid))) →
    block_values sections (seqZ a (Z.of_nat (Z.to_nat n))) (bytes_of f) buffer data 0 = Ret (WMT_SUCCESS, Some <$> block_bytes (regs_of f) a n)).
  { intros buffer Hb. pose proof (block_values_spec a _ pre mid post Hs buffer Hb (Z.to_nat n) a data 0) as Ev.
    change (Z.of_nat 0) with 0 in Ev. rewrite Ev by lia. rewrite Z2Nat.id by lia.
    rewrite take_0, drop_ge, app_nil_r; [done|]. pose proof (length_block_bytes (regs_of f) a n Hn). lia. }
  destruct (decide (mid = [])) as [->|Hmid].
  - cbn [length]. rewrite Z.mul_0_r. change (0 =? 0) with true. cbn [negb andb mbind outcome_bind]. rewrite bool_decide_eq_false_2 by congruence.
    rewrite Hvalues, Z2Nat.id by (lia || intros Hx; by destruct Hx). by eexists.
  - destruct (block_buffer w pre mid post E Hmid Hfile) as (w' & Er & F).
    assert (L * Z.of_nat (length mid) ≠ 0) by (destruct mid; [done|cbn [length]; lia]). destruct (Z.eqb_spec (L * Z.of_nat (length mid)) 0); [done|].
    destruct mid as [|x mid']; [done|]. set (mid := x :: mid') in *. destruct (Z.eqb_spec (line_pos f (length pre)) MAX_REGISTER) as [E0|_].
    { exfalso. unfold line_pos, MAX_REGISTER in E0. nia. }
    cbn [negb andb]. destruct Er as (m & -> & Hm). cbn [mbind outcome_bind]. rewrite bool_decide_eq_false_2 by congruence.
    rewrite Hvalues, Z2Nat.id by (lia || intros _; by eexists). by eexists.
Qed.
End Block.

(** ** Writing a block *)

Lemma low_byte v k : 0 ≤ k → Z.land (Z.shiftr v (8 * k)) 0xFF = v / 2 ^ (8 * k) mod 256.
Proof. intros Hk. rewrite Z.shiftr_div_pow2 by lia. change 0xFF with (Z.ones 8). by rewrite Z.land_ones. Qed.

(** The bytes of a value are taken for the value. *)
Lemma bytes_value_spec w bs : (w = 1 ∨ w = 2 ∨ w = 4) → Z.of_nat (length bs) = w → Forall is_byte bs →
  ∃ v, 0 ≤ v < 256 ^ w ∧ value_bytes w v = bs ∧ ∀ pre rest, bytes_value w (pre ++ bs ++ rest) (Z.of_nat (length pre)) = Ret (v, Z.of_nat (length pre) + w).
Proof.
  intros Hw Hl Hb. assert (Hget : ∀ pre rest k b, 0 ≤ k → bs !! Z.to_nat k = Some b → arr_get (pre ++ bs ++ rest) (Z.of_nat (length pre) + k) = Ret b).
  { intros pre rest k b Hk0 Hk. apply arr_get_Some; [lia|]. rewrite lookup_app_r by lia. replace (Z.to_nat _ - length pre)%nat with (Z.to_nat k) by lia.
    by rewrite lookup_app_l by by eapply lookup_lt_Some. }
  destruct Hw as [-> | [-> | ->]].
  - destruct bs as [|b0 [|]]; try (cbn in Hl; lia). apply Forall_cons_1 in Hb as [H0 _]. unfold is_byte in *. exists b0. split; [lia|]. split.
    + unfold value_bytes. cbv zeta. cbn [Z.eqb]. rewrite !low_byte by lia. change (2 ^ (8 * 0)) with 1. repeat f_equal. Z.div_mod_to_equations. lia.
    + intros pre rest. unfold bytes_value. cbn [Z.eqb Pos.eqb]. by rewrite (Hget pre rest 0 b0).
  - destruct bs as [|b1 [|b0 [|]]]; try (cbn in Hl; lia). rewrite !Forall_cons in Hb. destruct Hb as (H1 & H0 & _). unfold is_byte in *.
    exists (b1 * 256 + b0). split; [change (256 ^ 2) with 65536; lia|]. split.
    + unfold value_bytes. cbv zeta. cbn [Z.eqb Pos.eqb]. rewrite !low_byte by lia. change (2 ^ (8 * 0)) with 1. change (2 ^ (8 * 1)) with 256.
      repeat f_equal; Z.div_mod_to_equations; lia.
    + intros pre rest. unfold bytes_value. cbn [Z.eqb Pos.eqb].
      rewrite (Hget pre rest 0 b1), (Hget pre rest 1 b0) by done. cbn [mbind outcome_bind]. by rewrite Z.shiftl_mul_pow2 by lia.
  - destruct bs as [|b3 [|b2 [|b1 [|b0 [|]]]]]; try (cbn in Hl; lia). rewrite !Forall_cons in Hb. destruct Hb as (H3 & H2 & H1 & H0 & _). unfold is_byte in *.
    exists (((b3 * 256 + b2) * 256 + b1) * 256 + b0). split; [change (256 ^ 4) with 4294967296; lia|]. split.
    + unfold value_bytes. cbv zeta. cbn [Z.eqb Pos.eqb]. rewrite !low_byte by lia. change (2 ^ (8 * 0)) with 1. change (2 ^ (8 * 1)) with 256.
      change (2 ^ (8 * 2)) with 65536. change (2 ^ (8 * 3)) with 16777216. repeat f_equal; Z.div_mod_to_equations; lia.
    + intros pre rest. unfold bytes_value. cbn [Z.eqb Pos.eqb].
      rewrite (Hget pre rest 0 b3), (Hget pre rest 1 b2), (Hget pre rest 2 b1), (Hget pre rest 3 b0) by done. cbn [mbind outcome_bind].
      rewrite !Z.shiftl_mul_pow2 by lia. rewrite wrapu_small by lia. do 2 f_equal. lia.
Qed.

Section Writing.
Context {W : Type} {files : Files W} {codec : CodecFiles W}.

(** The registers of a block, written one after the other. *)
Lemma write_values_spec f fd p (n : nat) : ∀ g a data pre pos w, regfile_ok g → rf_vw g = rf_vw f →
  fd_at w fd = Some (p, pos) → file_at w p = Some (RegFile g) → 0 ≤ fd →
  (∀ x, a ≤ x < a + Z.of_nat n → x ∈ (rf_regs g).*1) → Forall is_byte data → Z.of_nat (length data) = Z.of_nat n * bytes_of f →
  ∃ g' w', write_values (seqZ a (Z.of_nat n)) (bytes_of f) fd (pre ++ data) (Z.of_nat (length pre)) w = Ret (WMT_SUCCESS, w') ∧
    file_at w' p = Some (RegFile g') ∧ regfile_ok g' ∧ layout_of g' = layout_of g ∧ rf_vw g' = rf_vw g ∧ rf_aw g' = rf_aw g ∧
    block_bytes f (regs_of g') a (Z.of_nat n) = data ∧ ∀ x, ¬ (a ≤ x < a + Z.of_nat n) → regs_of g' !! x = regs_of g !! x.
Proof.
  induction n as [|n IH]; intros g a data pre pos w Hg Hvw Hfd Hfile Hpos Hin Hb Hlen.
  - destruct data; [|cbn [length] in Hlen; lia]. exists g, w. by split_and!.
  - assert (Hw : bytes_of f = 1 ∨ bytes_of f = 2 ∨ bytes_of f = 4).
    { destruct Hg as (_ & Hw & _). rewrite Hvw in Hw. unfold bytes_of. destruct Hw as [-> | [-> | ->]]; cbn; lia. }
    rewrite <-(take_drop (Z.to_nat (bytes_of f)) data) in Hb, Hlen |- *. set (bs := take (Z.to_nat (bytes_of f)) data) in *. set (rest := drop (Z.to_nat (bytes_of f)) data) in *.
    apply Forall_app in Hb as [Hbs Hrest]. rewrite length_app in Hlen. assert (Hl : Z.of_nat (length bs) = bytes_of f).
    { unfold bs, rest in *. rewrite length_take, length_drop in *. nia. }
    destruct (bytes_value_spec (bytes_of f) bs Hw Hl Hbs) as (v & Hv & Ev & Eget). assert (Hv' : 0 ≤ v < 16 ^ Z.of_nat (rf_vw g)).
    { rewrite Hvw. destruct Hg as (_ & Hw' & _). rewrite Hvw in Hw'. revert Hv. unfold bytes_of. by destruct Hw' as [-> | [-> | ->]]. }
    rewrite Nat2Z.inj_succ in *. rewrite seqZ_cons, Z.pred_succ by lia. cbn [write_values]. rewrite Eget. cbn [mbind outcome_bind].
    unfold WriteToCodecFile. destruct (Z.ltb_spec fd 0); [lia|]. rewrite write_request. assert (Ha : a ∈ (rf_regs g).*1) by (apply Hin; lia).
    destruct (write_law fd p pos g a v w Hfd Hfile Hg Ha Hv') as (w1 & -> & [pos1 Hfd1] & F1). rewrite Z.eqb_refl. cbn [negb].
    rewrite (bool_decide_eq_true_2 (WMT_SUCCESS = WMT_SUCCESS)), orb_true_r by done.
    apply list_elem_of_fmap in Ha as ([a' v0] & Ea & Hin0). cbn in Ea. subst a'. apply list_elem_of_lookup in Hin0 as [i Hi].
    pose proof (set_reg_map g a i v0 v Hg Hi Hv') as Em.
    destruct (IH (set_reg g a v) (Z.succ a) rest (pre ++ bs) pos1 w1) as (g' & w' & Ew & F' & Hg' & El & Evw & Eaw & Eb & Eo);
      [by apply set_reg_ok|done|done|by rewrite F1, bool_decide_eq_true_2|done| |done|lia|].
    { intros x Hx. apply set_reg_in, Hin. lia. }
    exists g', w'. rewrite <-app_assoc, length_app, Nat2Z.inj_add, Hl in Ew. split_and!; [done|done|done|by rewrite El, set_reg_layout|done|done| |].
    + unfold block_bytes. rewrite seqZ_cons, Z.pred_succ, text_cons by lia. fold (block_bytes f (regs_of g') (Z.succ a) (Z.of_nat n)). rewrite Eb.
      rewrite (Eo a), Em, lookup_insert_eq by lia. cbn [default from_option id]. by rewrite Ev.
    + intros x Hx. rewrite (Eo x), Em, lookup_insert_ne by lia. done.
Qed.

Lemma layout_addresses f : registerAddress <$> layout_of f = (rf_regs f).*1.
Proof. unfold layout_of. generalize 0%nat. induction (rf_regs f) as [|av l IH]; intros k; [done|]. cbn [lines_from]. rewrite !fmap_cons. by rewrite IH. Qed.

(** A register of the file is not below its first. *)
Lemma first_below f a : regfile_ok f → a ∈ (rf_regs f).*1 → ∃ av regs, rf_regs f = av :: regs ∧ av.1 ≤ a.
Proof.
  intros (_ & _ & Hs & _) Hin. apply list_elem_of_fmap in Hin as (x & -> & Hx). destruct (rf_regs f) as [|av regs]; [by apply not_elem_of_nil in Hx|].
  exists av, regs. split; [done|]. apply elem_of_cons in Hx as [->|Hx]; [done|]. apply StronglySorted_inv in Hs as [_ Hs].
  rewrite Forall_forall in Hs. specialize (Hs x Hx). lia.
Qed.

Lemma block_write_one f (Hf : regfile_ok f) s0 w a n data : file_at w (regPath s0) = Some (RegFile f) → 0 < n → a + n < 2 ^ 32 →
  (∀ x, a ≤ x < a + n → x ∈ (rf_regs f).*1) → Forall is_byte data → Z.of_nat (length data) = n * bytes_of f →
  ∃ g w', BlockWriteCodec true [section_of f s0 (Some 1)] a data w = Ret (WMT_SUCCESS, w') ∧ file_at w' (regPath s0) = Some (RegFile g) ∧
    regfile_ok g ∧ layout_of g = layout_of f ∧ rf_vw g = rf_vw f ∧ rf_aw g = rf_aw f ∧
    block_bytes f (regs_of g) a n = data ∧ ∀ x, ¬ (a ≤ x < a + n) → regs_of g !! x = regs_of f !! x.
Proof.
  intros Hfile Hn Hend Hin Hb Hlen. pose proof (bytes_of_bound f Hf). assert (Ha : a ∈ (rf_regs f).*1) by (apply Hin; lia).
  pose proof (first_below f a Hf Ha) as Hfirst. assert (0 ≤ a).
  { destruct Hfirst as (av & regs & E & ?). destruct (reg_ok_at f Hf [] av regs E). lia. }
  unfold BlockWriteCodec, GetRegisterBytes, GetAddressIncrement, GetCodecPath. cbn [negb]. rewrite !(of_section_one f s0) by done.
  cbn [section_of bytesPerRegister addressIncrement regPath or_ub mbind outcome_bind]. rewrite (wrapu_small 32 1), (wrapu_small 32 (bytes_of f)) by lia.
  destruct (Z.eqb_spec (bytes_of f) 0); [lia|]. change (1 =? 0) with false. cbn [orb]. unfold OpenCodecFile. cbn [negb].
  destruct (open_law (regPath s0) w) as (fd & w1 & -> & Hfd & Hat & F1); [by eexists|]. destruct (Z.ltb_spec fd 0); [lia|].
  rewrite bool_decide_eq_false_2 by congruence. rewrite Hlen, (block_addresses_one f Hf) by lia. rewrite <-(Z2Nat.id n) in Hin, Hlen |- * by lia.
  destruct (write_values_spec f fd (regPath s0) (Z.to_nat n) f a data [] 0 w1) as (g & w2 & E & F2 & Hg); [done|done|done|by rewrite F1|done..|].
  cbn [app length] in E. change (Z.of_nat 0) with 0 in E. rewrite E. cbn [mbind outcome_bind]. exists g. eexists. split; [done|]. by rewrite close_law.
Qed.

(** C36. A block read of a codec, of a length that is a whole number of registers, that starts
    at or above its first register and ends below 2^32, returns the bytes of its registers,
    the highest byte first, and zeros for the addresses that are no registers. *)
Theorem BlockReadCodec_spec f s0 ml dir w a n data : codec_at f s0 dir w → (∃ av regs, rf_regs f = av :: regs ∧ av.1 ≤ a) →
  0 ≤ n → a + n < 2 ^ 32 → Z.of_nat (length data) = n * bytes_of f →
  ∃ s w1 w2, InitialiseSection true MAX_REGISTER s0 ml w = Ret (WMT_SUCCESS, s, ml, w1) ∧
    BlockReadCodec true [s] a data w1 = Ret (WMT_SUCCESS, Some <$> block_bytes f (regs_of f) a n, w2).
Proof.
  intros Hc Hfirst Hn Hend Hlen. destruct (section_initialised f s0 ml dir w Hc) as (w1 & E1 & F1). destruct Hc as (Hf & _ & _ & _ & _ & Hfile & _).
  destruct (block_read_one f Hf s0 w1 a n data) as (w2 & E2 & _); [by rewrite F1|done..|]. by exists (section_of f s0 (Some 1)), w1, w2.
Qed.

(** C37. A block of bytes, as long as a whole number of registers that all exist and end below
    2^32, written to a codec is what a block read of the same registers returns, and the
    other registers keep their values. *)
Theorem BlockWriteCodec_roundtrip f s0 ml dir w a n data : codec_at f s0 dir w → 0 < n → a + n < 2 ^ 32 →
  (∀ x, a ≤ x < a + n → x ∈ (rf_regs f).*1) → Forall is_byte data → Z.of_nat (length data) = n * bytes_of f →
  ∃ s w1 w2, InitialiseSection true MAX_REGISTER s0 ml w = Ret (WMT_SUCCESS, s, ml, w1) ∧
    BlockWriteCodec true [s] a data w1 = Ret (WMT_SUCCESS, w2) ∧
    (∀ buffer, length buffer = length data → ∃ w3, BlockReadCodec true [s] a buffer w2 = Ret (WMT_SUCCESS, Some <$> data, w3)) ∧
    ∃ g, file_at w2 (regPath s0) = Some (RegFile g) ∧ ∀ x, ¬ (a ≤ x < a + n) → regs_of g !! x = regs_of f !! x.
Proof.
  intros Hc Hn Hend Hin Hb Hlen. destruct (section_initialised f s0 ml dir w Hc) as (w1 & E1 & F1). destruct Hc as (Hf & Hne & _ & _ & _ & Hfile & _).
  destruct (block_write_one f Hf s0 w1 a n data) as (g & w2 & E2 & Fg & Hg & El & Ew & Eaw & Eb & Eo); [by rewrite F1|done..|].
  exists (section_of f s0 (Some 1)), w1, w2. split_and!; [done|done| |by eauto]. intros buffer Hbuf.
  assert (section_of f s0 (Some 1) = section_of g s0 (Some 1)) as -> by (unfold section_of, bytes_of; by rewrite El, Ew).
  assert (bytes_of g = bytes_of f) as Ebytes by (unfold bytes_of; by rewrite Ew).
  destruct (block_read_one g Hg s0 w2 a n buffer) as (w3 & E3 & _); [done| |lia|done|by rewrite Hbuf, Ebytes|].
  - apply (first_below g a Hg). rewrite <-(layout_addresses g), El, layout_addresses. apply Hin. lia.
  - exists w3. rewrite E3. unfold block_bytes in *. rewrite Ebytes. by rewrite Eb.
Qed.
End Writing.

Lemma BlockReadCodec_spec_witness :
  ∃ s w1 w2, InitialiseSection true MAX_REGISTER demo_section 7 demo_disk = Ret (WMT_SUCCESS, s, 7, w1) ∧
    BlockReadCodec true [s] 1 (replicate 8 None) w1 = Ret (WMT_SUCCESS, Some <$> [0xAB; 0xCD; 0; 7; 0; 0; 0; 9], w2).
Proof.
  apply (BlockReadCodec_spec demo_file demo_section 7 (str "/d") demo_disk 1 4 (replicate 8 None)); [exact demo_codec|..].
  - exists (0, 0x1234), [(1, 0xABCD); (2, 7); (4, 9)]. by vm_compute.
  - lia.
  - lia.
  - by vm_compute.
Defined.

Lemma BlockWriteCodec_roundtrip_witness :
  ∃ s w1 w2, InitialiseSection true MAX_REGISTER demo_section 7 demo_disk = Ret (WMT_SUCCESS, s, 7, w1) ∧
    BlockWriteCodec true [s] 0 [1; 2; 3; 4; 255; 0] w1 = Ret (WMT_SUCCESS, w2) ∧
    (∀ buffer, length buffer = 6%nat → ∃ w3, BlockReadCodec true [s] 0 buffer w2 = Ret (WMT_SUCCESS, Some <$> [1; 2; 3; 4; 255; 0], w3)) ∧
    ∃ g, file_at w2 (str "/d/registers") = Some (RegFile g) ∧ ∀ x, ¬ (0 ≤ x < 0 + 3) → regs_of g !! x = regs_of demo_file !! x.
Proof.
  apply (BlockWriteCodec_roundtrip demo_file demo_section 7 (str "/d") demo_disk 0 3 [1; 2; 3; 4; 255; 0]); [exact demo_codec|lia|lia| | |by vm_compute].
  - intros x Hx. assert (x = 0 ∨ x = 1 ∨ x = 2) as [-> | [-> | ->]] by lia; by apply (bool_decide_unpack _); vm_compute.
  - repeat constructor; by vm_compute.
Defined.
