(* ===== verification/WbQdsp.v ===== *)
(** * The signal processor behind the WISCE bridge

    Model of [src/spkcal/cirrus/tools/wbridge/QDSPInfo.h], [QDSPInfo.cpp], [QDSPIoctl.cpp] and of the
    parts of [LinuxDriverCommunication.cpp] and [DeviceCommunication.cpp] that present the
    algorithms of the speaker-protection driver as registers: a spoofed header, and a
    section for each algorithm, read and written with [ioctl], the class [Ioctl]. *)
From S2P Require Import Prelude DevStdlib DevArrays WbString WbResult WbDevice WbUtil WbPaths WbLayout WbCodec.
From stdpp Require Import strings.
#[local] Open Scope Z_scope.

Definition QDSP_DATA_SIZE_BITS : Z := 32.
Definition XM_START_REGISTER : Z := 0x190000.
Definition XM_LAST_REGISTER : Z := 0x197FFF.
Definition XM_FIRMWARE_OFFSET : Z := 0x100.
Definition XM_INITIAL_ALGO_OFFSET : Z := XM_FIRMWARE_OFFSET + 0x100.
Definition DSP_HEADER_ALGORITHM_COUNT_IDX : Z := 7.
Definition DSP_FIRST_ALGO_ID_IDX : Z := 8.
Definition DSP_FIRST_ALGO_XM_BASE_IDX : Z := 11.
Definition DSP_ALGO_HEADER_NUM_ELEMENTS : Z := 5.
Definition DSP_ALGORITHM_LIST_TERMINATOR : Z := 0xBEDEAD.
Definition MAX_REG_PER_OPERATION : Z := 12.
Definition COMP : Z := 1.
Definition QDSP_SPEAKER_PROTECTION : Z := 2.
Definition AUTO_DETECT : Z := 3.

(** @src src/spkcal/cirrus/tools/wbridge/QDSPInfo.cpp:52-62 IsQDSPDevice
    [strcasecmp] of a null pointer is undefined behaviour. *)
Definition IsQDSPDevice (deviceName : option (list Z)) : outcome bool :=
  name ← or_ub deviceName; Ret (strcasecmp_eq name QDSP_NAME).

(** ** The calls of the driver *)

Inductive request := CRUS_GB_IOCTL_GET | CRUS_GB_IOCTL_SET.
Definition CRUS_MODULE_ID_RX : Z := 1.
Definition CRUS_MODULE_ID_TX : Z := 2.
Definition CRUS_PARAM_REGISTER_DATA : Z := 0xA1AF80.
Definition CRUS_PARAM_REGISTER_SELECT : Z := 0xA1AF81.
Definition CRUS_PARAM_ALGORITHM_COUNT : Z := 0xA1AF82.
Definition CRUS_PARAM_ALGORITHM_INFO : Z := 0xA1AF83.

(** A buffer of 32-bit words; a word that was not written is [None]. *)
Abbreviation words := (list (option Z)).

(** The driver's [ioctl] with the header of a request: module, parameter, length and data. *)
Class Ioctl (W : Type) := { f_ioctl : Z → request → Z → Z → Z → words → W → Z * words * W }.

(** The fields of a message and its [data], which starts behind them. *)
Definition message_words : Z := 5.
Definition DATA_INDEX : Z := 4.

Section Calls.
Context {W : Type} {files : Files W} {ioctl : Ioctl W}.

(** @src src/spkcal/cirrus/tools/wbridge/QDSPIoctl.cpp:76-96 fw_ioctl *)
Definition fw_ioctl (fd : Z) (ioctl_t : request) (module param datal : Z) (data : words) (w : W) : Z * words * W :=
  f_ioctl fd ioctl_t module param datal data w.

(** @src src/spkcal/cirrus/tools/wbridge/QDSPIoctl.cpp:113-116 get *)
Definition get (fd module param datal : Z) (data : words) (w : W) : Z * words * W := fw_ioctl fd CRUS_GB_IOCTL_GET module param datal data w.

(** @src src/spkcal/cirrus/tools/wbridge/QDSPIoctl.cpp:133-136 set *)
Definition set (fd module param datal : Z) (data : words) (w : W) : Z * words * W := fw_ioctl fd CRUS_GB_IOCTL_SET module param datal data w.

(** @src src/spkcal/cirrus/tools/wbridge/QDSPIoctl.cpp:152-155 get_tx_alg_count *)
Definition get_tx_alg_count (fd datal : Z) (data : words) (w : W) := get fd CRUS_MODULE_ID_TX CRUS_PARAM_ALGORITHM_COUNT datal data w.
(** @src src/spkcal/cirrus/tools/wbridge/QDSPIoctl.cpp:172-175 get_tx_alg_info *)
Definition get_tx_alg_info (fd datal : Z) (data : words) (w : W) := get fd CRUS_MODULE_ID_TX CRUS_PARAM_ALGORITHM_INFO datal data w.
(** @src src/spkcal/cirrus/tools/wbridge/QDSPIoctl.cpp:191-194 get_tx_register_data *)
Definition get_tx_register_data (fd datal : Z) (data : words) (w : W) := get fd CRUS_MODULE_ID_TX CRUS_PARAM_REGISTER_DATA datal data w.
(** @src src/spkcal/cirrus/tools/wbridge/QDSPIoctl.cpp:210-213 get_rx_alg_count *)
Definition get_rx_alg_count (fd datal : Z) (data : words) (w : W) := get fd CRUS_MODULE_ID_RX CRUS_PARAM_ALGORITHM_COUNT datal data w.
(** @src src/spkcal/cirrus/tools/wbridge/QDSPIoctl.cpp:230-233 get_rx_alg_info *)
Definition get_rx_alg_info (fd datal : Z) (data : words) (w : W) := get fd CRUS_MODULE_ID_RX CRUS_PARAM_ALGORITHM_INFO datal data w.
(** @src src/spkcal/cirrus/tools/wbridge/QDSPIoctl.cpp:249-252 get_rx_register_data *)
Definition get_rx_register_data (fd datal : Z) (data : words) (w : W) := get fd CRUS_MODULE_ID_RX CRUS_PARAM_REGISTER_DATA datal data w.
(** @src src/spkcal/cirrus/tools/wbridge/QDSPIoctl.cpp:268-271 set_rx_register_data *)
Definition set_rx_register_data (fd datal : Z) (data : words) (w : W) := set fd CRUS_MODULE_ID_RX CRUS_PARAM_REGISTER_DATA datal data w.
(** @src src/spkcal/cirrus/tools/wbridge/QDSPIoctl.cpp:289-292 set_rx_register_select *)
Definition set_rx_register_select (fd datal : Z) (data : words) (w : W) := set fd CRUS_MODULE_ID_RX CRUS_PARAM_REGISTER_SELECT datal data w.

Context (ready : bool).

(** @src src/spkcal/cirrus/tools/wbridge/DeviceCommunication.cpp:611-637 ReadQDSPAlgoCount
    A failure of the call is not looked at: the count is then what it left in the word. *)
Definition ReadQDSPAlgoCount (w : W) : outcome (Z * W) :=
  let '(result, file, w) := OpenCodecFile ready (Some QDSP_DRIVER_FILE) w in
  if bool_decide (result ≠ WMT_SUCCESS) then Ret (0, w)
  else
    let '(_, count, w) := get_rx_alg_count file 4 [Some 0] w in
    c ← arr_get count 0; c ← or_ub c;
    Ret (c, f_close file w).

(** @src src/spkcal/cirrus/tools/wbridge/DeviceCommunication.cpp:653-690 ReadQDSPAlgoInfo *)
Definition ReadQDSPAlgoInfo (algoInfoSize : Z) (algoInfo : words) (w : W) : RESULT * words * W :=
  let '(result, file, w) := OpenCodecFile ready (Some QDSP_DRIVER_FILE) w in
  if bool_decide (result ≠ WMT_SUCCESS) then (result, algoInfo, w)
  else
    let '(ec, algoInfo, w) := get_rx_alg_info file algoInfoSize algoInfo w in
    (if ec <? 0 then WMT_COMMS_ERR else WMT_SUCCESS, algoInfo, f_close file w).

(** A message just allocated, with the fields that select registers filled in. *)
Definition select_message (message_size algoID offset data_length : Z) : words :=
  [Some 1; Some algoID; Some offset; Some data_length] ++ replicate (Z.to_nat (message_size / 4) - 4) None.

(** Select, then read: the message afterwards when both calls succeed. *)
Definition select_and_read (file message_size : Z) (message : words) (w : W) : option words * W :=
  let '(ec, message, w) := set_rx_register_select file message_size message w in
  if ec <? 0 then (None, w)
  else
    let '(ec, message, w) := get_rx_register_data file message_size message w in
    if ec <? 0 then (None, w) else (Some message, w).

(** @src src/spkcal/cirrus/tools/wbridge/DeviceCommunication.cpp:712-790 ReadFromQDSPAlgorithm *)
Definition ReadFromQDSPAlgorithm (algoID offset : Z) (w : W) : outcome (RESULT * option Z * W) :=
  let '(result, file, w) := OpenCodecFile ready (Some QDSP_DRIVER_FILE) w in
  if bool_decide (result ≠ WMT_SUCCESS) then Ret (result, None, w)
  else
    let message_size := 4 * message_words in
    let '(message, w) := select_and_read file message_size (select_message message_size algoID offset 1) w in
    match message with
    | None => Ret (WMT_COMMS_ERR, None, f_close file w)
    | Some message => v ← arr_get message DATA_INDEX; v ← or_ub v; Ret (WMT_SUCCESS, Some v, f_close file w)
    end.

(** The words of a message from [data[i]] on, in the byte order of the host. *)
Fixpoint swapped_data (n : nat) (i : Z) (message : words) : outcome (list Z) :=
  match n with
  | O => Ret []
  | S n' => v ← arr_get message (DATA_INDEX + i); v ← or_ub v; vs ← swapped_data n' (i + 1) message; Ret (ByteSwap32bit v :: vs)
  end.

(** @src src/spkcal/cirrus/tools/wbridge/DeviceCommunication.cpp:813-896 BlockReadFromQDSPAlgorithm
    The words that are stored; none when a call fails. *)
Definition BlockReadFromQDSPAlgorithm (algoID offset numRegsToRead : Z) (w : W) : outcome (RESULT * list Z * W) :=
  let '(result, file, w) := OpenCodecFile ready (Some QDSP_DRIVER_FILE) w in
  if bool_decide (result ≠ WMT_SUCCESS) then Ret (result, [], w)
  else
    let message_size := s32 (4 * message_words + u32 (numRegsToRead - 1) * 4) in
    let '(message, w) := select_and_read file message_size (select_message message_size algoID offset numRegsToRead) w in
    match message with
    | None => Ret (WMT_COMMS_ERR, [], f_close file w)
    | Some message => vs ← swapped_data (Z.to_nat numRegsToRead) 0 message; Ret (WMT_SUCCESS, vs, f_close file w)
    end.

(** @src src/spkcal/cirrus/tools/wbridge/DeviceCommunication.cpp:918-980 WriteToQDSPAlgorithm *)
Definition WriteToQDSPAlgorithm (algoID offset value : Z) (w : W) : outcome (RESULT * W) :=
  let '(result, file, w) := OpenCodecFile ready (Some QDSP_DRIVER_FILE) w in
  if bool_decide (result ≠ WMT_SUCCESS) then Ret (result, w)
  else
    let message_size := 4 * message_words in
    message ← arr_set (select_message message_size algoID offset 1) DATA_INDEX (Some value);
    let '(ec, _, w) := set_rx_register_data file message_size message w in
    Ret (if ec <? 0 then WMT_COMMS_ERR else WMT_SUCCESS, f_close file w).

Fixpoint fill_data (values : list Z) (i : Z) (message : words) : outcome words :=
  match values with
  | [] => Ret message
  | v :: values' => message ← arr_set message (DATA_INDEX + i) (Some (ByteSwap32bit v)); fill_data values' (i + 1) message
  end.

(** @src src/spkcal/cirrus/tools/wbridge/DeviceCommunication.cpp:1003-1072 BlockWriteToQDSPAlgorithm
    The message has one word more than the values. *)
Definition BlockWriteToQDSPAlgorithm (algoID offset : Z) (values : list Z) (w : W) : outcome (RESULT * W) :=
  let '(result, file, w) := OpenCodecFile ready (Some QDSP_DRIVER_FILE) w in
  if bool_decide (result ≠ WMT_SUCCESS) then Ret (result, w)
  else
    let numRegsToWrite := Z.of_nat (length values) in
    let message_size := s32 (4 * message_words + 4 * numRegsToWrite) in
    message ← fill_data values 0 (select_message message_size algoID offset numRegsToWrite);
    let '(ec, _, w) := set_rx_register_data file message_size message w in
    Ret (if ec <? 0 then WMT_COMMS_ERR else WMT_SUCCESS, f_close file w).

(** ** Registers *)

Context (sections : RegisterSections) (QDSPXMHeader : list Z).

(** @src src/spkcal/cirrus/tools/wbridge/LinuxDriverCommunication.cpp:1927-1969 ReadQDSPRegister *)
Definition ReadQDSPRegister (regAddr : Z) (w : W) : outcome (RESULT * option Z * W) :=
  pSection ← FindSection sections regAddr;
  match pSection with
  | None => Ret (WMT_SUCCESS, Some 0, w)
  | Some (s, lineInfo) =>
      algoID ← or_ub (algorithmID s);
      if algoID =? 0 then v ← arr_get QDSPXMHeader (lineNumber lineInfo); Ret (WMT_SUCCESS, Some v, w)
      else ReadFromQDSPAlgorithm algoID (lineNumber lineInfo) w
  end.

(** @src src/spkcal/cirrus/tools/wbridge/LinuxDriverCommunication.cpp:2035-2100 BlockReadQDSP
    The words that are stored. *)
Definition BlockReadQDSP (regAddr numRegsToRead : Z) (w : W) : outcome (RESULT * list Z * W) :=
  pSection ← FindSection sections regAddr;
  match pSection with
  | None => Ret (WMT_SUCCESS, replicate (Z.to_nat numRegsToRead) 0, w)
  | Some (s, lineInfo) =>
      algoID ← or_ub (algorithmID s);
      if algoID =? 0 then
        let value i := match QDSPXMHeader !! Z.to_nat (lineNumber lineInfo + i) with Some v => ByteSwap32bit v | None => 0 end in
        Ret (WMT_SUCCESS, value <$> seqZ 0 numRegsToRead, w)
      else BlockReadFromQDSPAlgorithm algoID (lineNumber lineInfo) numRegsToRead w
  end.

(** @src src/spkcal/cirrus/tools/wbridge/LinuxDriverCommunication.cpp:2118-2156 WriteQDSPRegister *)
Definition WriteQDSPRegister (regAddr value : Z) (w : W) : outcome (RESULT * W) :=
  pSection ← FindSection sections regAddr;
  match pSection with
  | None => Ret (WMT_SUCCESS, w)
  | Some (s, lineInfo) =>
      algoID ← or_ub (algorithmID s);
      if algoID =? 0 then Ret (WMT_SUCCESS, w) else WriteToQDSPAlgorithm algoID (lineNumber lineInfo) value w
  end.

(** @src src/spkcal/cirrus/tools/wbridge/LinuxDriverCommunication.cpp:2219-2258 BlockWriteQDSP *)
Definition BlockWriteQDSP (regAddr : Z) (values : list Z) (w : W) : outcome (RESULT * W) :=
  pSection ← FindSection sections regAddr;
  match pSection with
  | None => Ret (WMT_SUCCESS, w)
  | Some (s, lineInfo) =>
      algoID ← or_ub (algorithmID s);
      if algoID =? 0 then Ret (WMT_SUCCESS, w) else BlockWriteToQDSPAlgorithm algoID (lineNumber lineInfo) values w
  end.

(** The bytes of an unsigned int in the memory of the phone, a little-endian machine. *)
Definition word_bytes (v : Z) : list Z := (λ k, Z.land (Z.shiftr v (8 * k)) 0xFF) <$> [0; 1; 2; 3].
Definition bytes_word (b : list Z) : Z := foldr (λ x v, x + 256 * v) 0 b.

(** Words stored one behind the other. *)
Definition store_words (data : list (option Z)) (dataIndex : Z) (vs : list Z) : outcome (list (option Z)) :=
  store_bytes data dataIndex (concat (word_bytes <$> vs)).

(** @src src/spkcal/cirrus/tools/wbridge/LinuxDriverCommunication.cpp:1986-2013 BlockReadQDSPInChunks (the loop)
    [fuel] chunks at most; the result is that of the last chunk. *)
Fixpoint read_chunks (fuel : nat) (addr remaining_len : Z) (data : list (option Z)) (dataIndex : Z) (result : RESULT) (w : W)
    : outcome (RESULT * list (option Z) * W) :=
  if remaining_len <=? 0 then Ret (result, data, w)
  else
    match fuel with
    | O => OutOfFuel
    | S fuel' =>
        let n := Z.min remaining_len MAX_REG_PER_OPERATION in
        '(result, vs, w) ← BlockReadQDSP addr n w;
        data ← store_words data dataIndex vs;
        read_chunks fuel' (u32 (addr + MAX_REG_PER_OPERATION)) (remaining_len - n) data (dataIndex + 4 * n) result w
    end.

(** @src src/spkcal/cirrus/tools/wbridge/LinuxDriverCommunication.cpp:1986-2013 BlockReadQDSPInChunks *)
Definition BlockReadQDSPInChunks (addr : Z) (data : list (option Z)) (w : W) : outcome (RESULT * list (option Z) * W) :=
  let remaining_len := Z.of_nat (length data) / 4 in
  read_chunks (S (Z.to_nat remaining_len)) addr remaining_len data 0 WMT_SUCCESS w.

(** The words in a buffer from an index on. *)
Fixpoint load_words (n : nat) (data : list Z) (dataIndex : Z) : outcome (list Z) :=
  match n with
  | O => Ret []
  | S n' =>
      b0 ← arr_get data dataIndex; b1 ← arr_get data (dataIndex + 1); b2 ← arr_get data (dataIndex + 2); b3 ← arr_get data (dataIndex + 3);
      vs ← load_words n' data (dataIndex + 4);
      Ret (bytes_word [b0; b1; b2; b3] :: vs)
  end.

(** @src src/spkcal/cirrus/tools/wbridge/LinuxDriverCommunication.cpp:2173-2200 BlockWriteQDSPInChunks (the loop)
    [fuel] chunks at most; the result is that of the last chunk. *)
Fixpoint write_chunks (fuel : nat) (addr remaining_len : Z) (data : list Z) (dataIndex : Z) (result : RESULT) (w : W) : outcome (RESULT * W) :=
  if remaining_len <=? 0 then Ret (result, w)
  else
    match fuel with
    | O => OutOfFuel
    | S fuel' =>
        let n := Z.min remaining_len MAX_REG_PER_OPERATION in
        vs ← load_words (Z.to_nat n) data dataIndex;
        '(result, w) ← BlockWriteQDSP addr vs w;
        write_chunks fuel' (u32 (addr + MAX_REG_PER_OPERATION)) (remaining_len - n) data (dataIndex + 4 * n) result w
    end.

(** @src src/spkcal/cirrus/tools/wbridge/LinuxDriverCommunication.cpp:2173-2200 BlockWriteQDSPInChunks *)
Definition BlockWriteQDSPInChunks (addr : Z) (data : list Z) (w : W) : outcome (RESULT * W) :=
  let remaining_len := Z.of_nat (length data) / 4 in
  write_chunks (S (Z.to_nat remaining_len)) addr remaining_len data 0 WMT_SUCCESS w.
End Calls.
