(* ===== verification/WbQdspLayout.v ===== *)
(** * The register sections of the signal processor

    Model of [InitialiseQDSP] and of what it calls in
    [src/spkcal/cirrus/tools/wbridge/LinuxDriverCommunication.cpp]: the words of the spoofed
    header, its section, and a section for every algorithm.  The header's section is
    reached through a pointer into the vector of sections, which a [push_back] beyond the
    capacity of the vector invalidates. *)
From S2P Require Import Prelude DevStdlib DevArrays WbString WbResult WbDevice WbUtil WbPaths WbLayout WbCodec WbQdsp.
From stdpp Require Import strings.
#[local] Open Scope Z_scope.

(** The text of a mocked line of a range file. *)
Definition mock_range (startAddr endAddr : Z) : list Z := print_x startAddr ++ [DASH_CHAR] ++ print_x endAddr.

(** The words in front of the algorithms' count. *)
Definition static_header : list Z := [0x20000; 0x501; 0xA40066; 1; XM_FIRMWARE_OFFSET; XM_FIRMWARE_OFFSET; XM_FIRMWARE_OFFSET].

(** The words of an algorithm: its number, its revision and its offset, three times. *)
Definition algorithm_words (ID revision offset : Z) : list Z := [ID; revision; offset; offset; offset].

(** The words behind the static part for the lists of algorithms that are not detected. *)
Definition fixed_algorithms (algos : Z) : list Z :=
  if algos =? COMP then [1] ++ algorithm_words 0x2009 0x10100 0x200
  else if algos =? QDSP_SPEAKER_PROTECTION then
    [4] ++ algorithm_words 0x2010 0x410000 0x200 ++ algorithm_words 0x2011 0x420100 0x500 ++
      algorithm_words 0x2012 0x410202 0x800 ++ algorithm_words 0x2013 2 0xF00
  else [0].

(** @src src/spkcal/cirrus/tools/wbridge/LinuxDriverCommunication.cpp:687-717 InitialiseQDSPXMHeader (the infos)
    The words of the header for [n] algorithms, and how many registers they have. *)
Fixpoint info_words (n : nat) (info : words) (index offset : Z) : outcome (list Z * list Z) :=
  match n with
  | O => Ret ([], [])
  | S n' =>
      ID ← arr_get info index; ID ← or_ub ID;
      revision ← arr_get info (index + 1); revision ← or_ub revision;
      registerCount ← arr_get info (index + 2); registerCount ← or_ub registerCount;
      '(ws, counts) ← info_words n' info (index + 3) (s32 (offset + u32 (u32 (registerCount / 0x100 + 1) * 0x100)));
      Ret (algorithm_words ID revision (u32 offset) ++ ws, registerCount :: counts)
  end.

Section Layout.
Context {W : Type} {files : Files W} {ioctl : Ioctl W} (ready : bool) (deviceName : option (list Z)) (maxRegisterIndex : Z).

(** @src src/spkcal/cirrus/tools/wbridge/LinuxDriverCommunication.cpp:666-721 InitialiseQDSPXMHeader (auto-detection)
    [malloc] does not fail. *)
Definition detect_algorithms (w : W) : outcome (list Z * list Z * W) :=
  '(algoCount, w) ← ReadQDSPAlgoCount ready w;
  let messageSize := s32 (12 * algoCount) in
  let '(result, info, w) := ReadQDSPAlgoInfo ready messageSize (replicate (Z.to_nat (messageSize / 4)) None) w in
  if bool_decide (result = WMT_SUCCESS) then
    '(ws, counts) ← info_words (Z.to_nat algoCount) info 0 XM_INITIAL_ALGO_OFFSET;
    Ret (algoCount :: ws, counts, w)
  else Ret ([algoCount], [], w).

(** @src src/spkcal/cirrus/tools/wbridge/LinuxDriverCommunication.cpp:869-939 InitialiseQDSPAlgorithmSection
    The section, when one is added; [pXMHeaderSection] is [None] when the pointer to it is
    no longer valid. *)
Definition InitialiseQDSPAlgorithmSection (QDSPXMHeader : list Z) (pXMHeaderSection : option RegisterSection)
    (algorithmID_ xmOffset xmCount maxLineNumber : Z) : outcome (RESULT * option RegisterSection * Z) :=
  let xmStartAddress := u32 (XM_START_REGISTER + xmOffset) in
  let xmEndAddress := u32 (xmStartAddress + xmCount - 1) in
  if negb ready then Ret (WMT_NO_DEVICE, None, maxLineNumber)
  else
    isQDSP ← IsQDSPDevice deviceName;
    if negb isQDSP || (algorithmID_ =? 0) || (xmOffset <? Z.of_nat (length QDSPXMHeader)) || (xmCount =? 0)
    then Ret (WMT_INVALID_PARAMETER, None, maxLineNumber)
    else
      xm ← or_ub pXMHeaderSection;
      let algorithmSection := mkSection [] (regPath xm) (bytesPerRegister xm) (addressIncrement xm) (Some algorithmID_) in
      '(result, r) ← HandleRangeFileLine (mock_range xmStartAddress xmEndAddress) QDSP_DATA_SIZE_BITS maxRegisterIndex []
                       (mkRange algorithmSection 0 0 1 maxLineNumber);
      Ret (result, Some (r_section r), r_maxLineNumber r).

(** @src src/spkcal/cirrus/tools/wbridge/LinuxDriverCommunication.cpp:812-844 InitialiseQDSPXMHeader (the loop)
    Algorithms [i] to [numAlgos - 1]; the vector of sections has room for [capacity]. *)
Fixpoint algorithm_sections (n : nat) (i numAlgos : Z) (QDSPXMHeader xmCounts : list Z) (algoIDIndex algoXMOffsetIndex : Z) (capacity : nat)
    (sections : RegisterSections) (maxLineNumber : Z) (result : RESULT) : outcome (RESULT * RegisterSections * Z) :=
  match n with
  | O => Ret (result, sections, maxLineNumber)
  | S n' =>
      algoID ← arr_get QDSPXMHeader algoIDIndex;
      xmOffset ← arr_get QDSPXMHeader algoXMOffsetIndex;
      xmCount ← (match xmCounts !! Z.to_nat i with
                 | Some c => Ret c
                 | None =>
                     if i + 1 <? numAlgos then
                       next ← arr_get QDSPXMHeader (algoXMOffsetIndex + DSP_ALGO_HEADER_NUM_ELEMENTS); Ret (u32 (next - xmOffset))
                     else Ret (u32 (XM_LAST_REGISTER - u32 (XM_START_REGISTER + xmOffset)))
                 end);
      let pXMHeaderSection := if (length sections <=? capacity)%nat then head sections else None in
      '(result, s, maxLineNumber) ← InitialiseQDSPAlgorithmSection QDSPXMHeader pXMHeaderSection algoID xmOffset xmCount maxLineNumber;
      let sections := match s with Some s => sections ++ [s] | None => sections end in
      if bool_decide (result ≠ WMT_SUCCESS) then Ret (result, sections, maxLineNumber)
      else algorithm_sections n' (i + 1) numAlgos QDSPXMHeader xmCounts (algoIDIndex + DSP_ALGO_HEADER_NUM_ELEMENTS)
             (algoXMOffsetIndex + DSP_ALGO_HEADER_NUM_ELEMENTS) capacity sections maxLineNumber result
  end.

(** @src src/spkcal/cirrus/tools/wbridge/LinuxDriverCommunication.cpp:612-850 InitialiseQDSPXMHeader
    The first of the sections is the header's. *)
Definition InitialiseQDSPXMHeader (sections : RegisterSections) (capacity : nat) (algos : Z) (QDSPXMHeader : list Z) (maxLineNumber : Z) (w : W)
    : outcome (RESULT * RegisterSections * list Z * Z * W) :=
  if negb ready then Ret (WMT_NO_DEVICE, sections, QDSPXMHeader, maxLineNumber, w)
  else
    isQDSP ← IsQDSPDevice deviceName;
    if negb isQDSP then Ret (WMT_INVALID_PARAMETER, sections, QDSPXMHeader, maxLineNumber, w)
    else
      xm ← or_ub (head sections);
      let xm := mkSection (layout xm) (regPath xm) (Some ((QDSP_DATA_SIZE_BITS + 7) / 8)) (Some 1) (Some 0) in
      '(ws, xmCounts, w) ←
        (if algos =? AUTO_DETECT then detect_algorithms w else Ret (fixed_algorithms algos, [], w));
      let QDSPXMHeader := QDSPXMHeader ++ static_header ++ ws ++ [DSP_ALGORITHM_LIST_TERMINATOR] in
      '(result, r) ← HandleRangeFileLine (mock_range XM_START_REGISTER (u32 (XM_START_REGISTER + u32 (Z.of_nat (length QDSPXMHeader)))))
                       QDSP_DATA_SIZE_BITS maxRegisterIndex [] (mkRange xm 0 0 1 maxLineNumber);
      let sections := r_section r :: drop 1 sections in
      numAlgos ← arr_get QDSPXMHeader DSP_HEADER_ALGORITHM_COUNT_IDX;
      '(result, sections, maxLineNumber) ←
        algorithm_sections (Z.to_nat numAlgos) 0 numAlgos QDSPXMHeader xmCounts DSP_FIRST_ALGO_ID_IDX DSP_FIRST_ALGO_XM_BASE_IDX capacity
          sections (r_maxLineNumber r) result;
      Ret (result, sections, QDSPXMHeader, maxLineNumber, w).

(** @src src/spkcal/cirrus/tools/wbridge/LinuxDriverCommunication.cpp:554-595 InitialiseQDSP
    The first section is looked at before the number of sections. *)
Definition InitialiseQDSP (sections : RegisterSections) (capacity : nat) (QDSPXMHeader : list Z) (maxLineNumber : Z) (w : W)
    : outcome (RESULT * RegisterSections * list Z * Z * W) :=
  if negb ready then Ret (WMT_NO_DEVICE, sections, QDSPXMHeader, maxLineNumber, w)
  else
    isQDSP ← IsQDSPDevice deviceName;
    if negb isQDSP then Ret (WMT_INVALID_PARAMETER, sections, QDSPXMHeader, maxLineNumber, w)
    else
      match sections with
      | [s] =>
          if strcasecmp_eq (regPath s) QDSP_DRIVER_FILE
          then InitialiseQDSPXMHeader sections capacity AUTO_DETECT QDSPXMHeader maxLineNumber w
          else Ret (WMT_INVALID_PARAMETER, sections, QDSPXMHeader, maxLineNumber, w)
      | _ => Ret (WMT_INVALID_PARAMETER, sections, QDSPXMHeader, maxLineNumber, w)
      end.
End Layout.
