(* ===== verification/WbDriver.v ===== *)
(** * The devices of the WISCE bridge

    Model of [src/spkcal/cirrus/tools/wbridge/LinuxDriverCommunication.cpp] and [DeviceCommunication.cpp]
    around the accesses to registers: the search for codecs, the cache of their layouts, the
    choice of a device, and the object as a [Device].  The kernel is the classes [Files],
    [Ioctl] and [Host]. *)
From S2P Require Import Prelude DevStdlib DevArrays WbString WbResult WbDevice WbUtil WbPaths WbLayout WbCodec WbCodecLayout WbQdsp WbQdspLayout.
From stdpp Require Import sorting strings.
#[local] Open Scope Z_scope.

(** The mount points in a file (name and directory of each), [mount] with whether it failed
    because there is a mount already, [ftw] with the paths it visits and whether they are
    files, and [uname]. *)
Class Host (W : Type) := {
  h_entries : list Z → W → option (list (list Z * list Z)) * W;
  h_mount : list Z → list Z → W → Z * bool * W;
  h_ftw : list Z → W → Z * list (list Z * bool) * W;
  h_uname : W → option (list Z * list Z);
}.

(** @src src/spkcal/cirrus/tools/wbridge/WISCEBridgeUtil.h:175-180 CodecRegisters *)
Record CodecRegisters := mkRegisters { cr_name : list Z; registerSections : RegisterSections; initialised : bool }.

(** @src src/spkcal/cirrus/tools/wbridge/LinuxDriverCommunication.h:194-261 CLinuxDriverCommunication
    [m_pRegisterSections] points into an entry of [m_codecRegisters]: the index of the entry.
    Not initialised members are [None]. *)
Record driver (W : Type) := mkDriver {
  m_debugfsMountPoint : list Z;
  m_codecPaths : list CCodecPathPair;
  m_excludeDevices : list (list Z);
  m_includeDevices : list (list Z);
  m_deviceReady : bool;
  m_pRegisterSections : option nat;
  m_isRegistersFile : bool;
  m_defaultCodec : list Z;
  m_codecRegisters : list CodecRegisters;
  m_maxRegisterIndex : Z;
  m_maxLineNumber : Z;
  m_deviceName : option (list Z);
  m_QDSPXMHeader : list Z;
  m_world : W;
}.
Arguments mkDriver {_} _ _ _ _ _ _ _ _ _ _ _ _ _ _.
Arguments m_debugfsMountPoint {_} _. Arguments m_codecPaths {_} _. Arguments m_excludeDevices {_} _. Arguments m_includeDevices {_} _.
Arguments m_deviceReady {_} _. Arguments m_pRegisterSections {_} _. Arguments m_isRegistersFile {_} _. Arguments m_defaultCodec {_} _.
Arguments m_codecRegisters {_} _. Arguments m_maxRegisterIndex {_} _. Arguments m_maxLineNumber {_} _. Arguments m_deviceName {_} _.
Arguments m_QDSPXMHeader {_} _. Arguments m_world {_} _.

Section Updates.
Context {W : Type} (d : driver W).
Definition with_world (w : W) : driver W :=
  mkDriver (m_debugfsMountPoint d) (m_codecPaths d) (m_excludeDevices d) (m_includeDevices d) (m_deviceReady d) (m_pRegisterSections d)
    (m_isRegistersFile d) (m_defaultCodec d) (m_codecRegisters d) (m_maxRegisterIndex d) (m_maxLineNumber d) (m_deviceName d) (m_QDSPXMHeader d) w.
Definition with_codecs (paths : list CCodecPathPair) (registers : list CodecRegisters) : driver W :=
  mkDriver (m_debugfsMountPoint d) paths (m_excludeDevices d) (m_includeDevices d) (m_deviceReady d) (m_pRegisterSections d)
    (m_isRegistersFile d) (m_defaultCodec d) registers (m_maxRegisterIndex d) (m_maxLineNumber d) (m_deviceName d) (m_QDSPXMHeader d) (m_world d).
Definition with_ready (ready : bool) : driver W :=
  mkDriver (m_debugfsMountPoint d) (m_codecPaths d) (m_excludeDevices d) (m_includeDevices d) ready (m_pRegisterSections d)
    (m_isRegistersFile d) (m_defaultCodec d) (m_codecRegisters d) (m_maxRegisterIndex d) (m_maxLineNumber d) (m_deviceName d) (m_QDSPXMHeader d) (m_world d).
Definition with_name (name : option (list Z)) (isRegistersFile : bool) : driver W :=
  mkDriver (m_debugfsMountPoint d) (m_codecPaths d) (m_excludeDevices d) (m_includeDevices d) (m_deviceReady d) (m_pRegisterSections d)
    isRegistersFile (m_defaultCodec d) (m_codecRegisters d) (m_maxRegisterIndex d) (m_maxLineNumber d) name (m_QDSPXMHeader d) (m_world d).
Definition with_current (i : option nat) : driver W :=
  mkDriver (m_debugfsMountPoint d) (m_codecPaths d) (m_excludeDevices d) (m_includeDevices d) (m_deviceReady d) i
    (m_isRegistersFile d) (m_defaultCodec d) (m_codecRegisters d) (m_maxRegisterIndex d) (m_maxLineNumber d) (m_deviceName d) (m_QDSPXMHeader d) (m_world d).
Definition with_layouts (registers : list CodecRegisters) (header : list Z) (maxLineNumber : Z) (w : W) : driver W :=
  mkDriver (m_debugfsMountPoint d) (m_codecPaths d) (m_excludeDevices d) (m_includeDevices d) (m_deviceReady d) (m_pRegisterSections d)
    (m_isRegistersFile d) (m_defaultCodec d) registers (m_maxRegisterIndex d) maxLineNumber (m_deviceName d) header w.
Definition with_arguments (defaultCodec : list Z) (exclude include : list (list Z)) (maxRegisterIndex : Z) : driver W :=
  mkDriver (m_debugfsMountPoint d) (m_codecPaths d) exclude include (m_deviceReady d) (m_pRegisterSections d)
    (m_isRegistersFile d) defaultCodec (m_codecRegisters d) maxRegisterIndex (m_maxLineNumber d) (m_deviceName d) (m_QDSPXMHeader d) (m_world d).
Definition with_mount_point (dir : list Z) (w : W) : driver W :=
  mkDriver dir (m_codecPaths d) (m_excludeDevices d) (m_includeDevices d) (m_deviceReady d) (m_pRegisterSections d)
    (m_isRegistersFile d) (m_defaultCodec d) (m_codecRegisters d) (m_maxRegisterIndex d) (m_maxLineNumber d) (m_deviceName d) (m_QDSPXMHeader d) w.
End Updates.

Section Driver.
Context {W : Type} {files : Files W} {ioctl : Ioctl W} {host : Host W}.
(** How many elements a vector has room for that was given one: one, in the libraries of Android. *)
Context (vector_capacity : nat).
Abbreviation D := (driver W).

(** ** The cache of layouts *)

Fixpoint find_registers (deviceName : list Z) (i : nat) (l : list CodecRegisters) : option nat :=
  match l with
  | [] => None
  | r :: l' => if strcasecmp_eq deviceName (cr_name r) then Some i else find_registers deviceName (S i) l'
  end.

(** @src src/spkcal/cirrus/tools/wbridge/LinuxDriverCommunication.cpp:363-377 GetCodecRegisters
    The index of the entry. *)
Definition GetCodecRegisters (l : list CodecRegisters) (deviceName : list Z) : option nat := find_registers deviceName 0 l.

(** @src src/spkcal/cirrus/tools/wbridge/LinuxDriverCommunication.cpp:320-350 CreateRegisterCaches
    The integers of a new section are not initialised. *)
Fixpoint CreateRegisterCaches (codecPaths : list CCodecPathPair) (l : list CodecRegisters) : list CodecRegisters :=
  match codecPaths with
  | [] => l
  | c :: codecPaths' =>
      let section := mkSection [] (take (PATH_MAX - 1) (path c)) None None None in
      let l :=
        match GetCodecRegisters l (name c) with
        | Some i => alter (λ r, mkRegisters (cr_name r) (registerSections r ++ [section]) (initialised r)) i l
        | None => l ++ [mkRegisters (take 255 (name c)) [section] false]
        end in
      CreateRegisterCaches codecPaths' l
  end.

(** The sections in the order of their first registers; comparing reads the first line of a
    layout.  Sections that start with the same register stay in their order. *)
Definition first_register (s : RegisterSection) : Z := match layout s with x :: _ => registerAddress x | [] => 0 end.
Definition section_le (a b : RegisterSection) : Prop := first_register a ≤ first_register b.
#[export] Instance section_le_dec : RelDecision section_le.
Proof. intros a b. unfold section_le. apply _. Defined.

Definition sort_sections (sections : RegisterSections) : outcome RegisterSections :=
  if (length sections <? 2)%nat then Ret sections
  else if forallb (λ s, match layout s with [] => false | _ => true end) sections
  then Ret (merge_sort section_le sections)
  else UB.

(** @src src/spkcal/cirrus/tools/wbridge/LinuxDriverCommunication.cpp:470-503 InitialiseRegisterLayout (the loop) *)
Fixpoint InitialiseSections (ready : bool) (maxRegisterIndex : Z) (sections : RegisterSections) (maxLineNumber : Z) (w : W)
    : outcome (RESULT * RegisterSections * Z * W) :=
  match sections with
  | [] => Ret (WMT_SUCCESS, [], maxLineNumber, w)
  | s :: sections' =>
      '(result, s, maxLineNumber, w) ← InitialiseSection ready maxRegisterIndex s maxLineNumber w;
      if bool_decide (result ≠ WMT_SUCCESS) then Ret (result, s :: sections', maxLineNumber, w)
      else
        '(result, sections', maxLineNumber, w) ← InitialiseSections ready maxRegisterIndex sections' maxLineNumber w;
        Ret (result, s :: sections', maxLineNumber, w)
  end.

(** @src src/spkcal/cirrus/tools/wbridge/LinuxDriverCommunication.cpp:415-539 InitialiseRegisterLayout
    The entry counts as initialised afterwards, also when that failed. *)
Definition InitialiseRegisterLayout (d : D) : outcome (RESULT * D) :=
  if negb (m_deviceReady d) then Ret (WMT_NO_DEVICE, d)
  else
    let d := with_current d None in
    name ← or_ub (m_deviceName d);
    match GetCodecRegisters (m_codecRegisters d) name with
    | None => Ret (WMT_NO_DEVICE, d)
    | Some i =>
        let d := with_current d (Some i) in
        pRegisters ← or_ub (m_codecRegisters d !! i);
        if initialised pRegisters then Ret (WMT_SUCCESS, d)
        else
          isQDSP ← IsQDSPDevice (m_deviceName d);
          '(result, sections, header, maxLineNumber, w) ←
            (if isQDSP : bool then
               InitialiseQDSP (m_deviceReady d) (m_deviceName d) (m_maxRegisterIndex d) (registerSections pRegisters) vector_capacity
                 (m_QDSPXMHeader d) (m_maxLineNumber d) (m_world d)
             else
               '(result, sections, maxLineNumber, w) ←
                 InitialiseSections (m_deviceReady d) (m_maxRegisterIndex d) (registerSections pRegisters) (m_maxLineNumber d) (m_world d);
               Ret (result, sections, m_QDSPXMHeader d, maxLineNumber, w));
          sections ← (if bool_decide (result = WMT_SUCCESS) then sort_sections sections else Ret sections);
          Ret (result, with_layouts d (<[i := mkRegisters (cr_name pRegisters) sections true]> (m_codecRegisters d)) header maxLineNumber w)
    end.

(** ** The choice of a device *)

Fixpoint find_path (deviceName : list Z) (l : list CCodecPathPair) : option CCodecPathPair :=
  match l with
  | [] => None
  | c :: l' => if strcasecmp_eq deviceName (name c) then Some c else find_path deviceName l'
  end.

(** @src src/spkcal/cirrus/tools/wbridge/LinuxDriverCommunication.cpp:1657-1698 SetDevice
    The result does not tell whether the layout could be initialised. *)
Definition SetDevice (deviceName : list Z) (d : D) : outcome (RESULT * D) :=
  match find_path deviceName (m_codecPaths d) with
  | None => Ret (WMT_NO_DEVICE, d)
  | Some c =>
      let d := with_ready (with_name d (Some (name c)) (strstr_in (path c) (str "registers"))) true in
      '(result, d) ← InitialiseRegisterLayout d;
      Ret (WMT_SUCCESS, with_ready d (bool_decide (result = WMT_SUCCESS)))
  end.

(** @src src/spkcal/cirrus/tools/wbridge/LinuxDriverCommunication.cpp:390-400 InitialiseRegisterLayouts *)
Fixpoint InitialiseRegisterLayouts (codecPaths : list CCodecPathPair) (d : D) : outcome D :=
  match codecPaths with
  | [] => Ret d
  | c :: codecPaths' => '(_, d) ← SetDevice (name c) d; InitialiseRegisterLayouts codecPaths' d
  end.

(** @src src/spkcal/cirrus/tools/wbridge/LinuxDriverCommunication.cpp:1602-1633 EnumerateDevices (the loop) *)
Fixpoint enumerate_names (bufferLength : nat) (l : list CodecRegisters) (first : bool) (buffer : list Z) : RESULT * list Z :=
  match l with
  | [] => (WMT_SUCCESS, buffer)
  | r :: l' =>
      if (bufferLength <? length buffer + length (cr_name r) + 2)%nat then (WMT_TRUNCATED, buffer)
      else enumerate_names bufferLength l' false (buffer ++ (if first then [] else [32]) ++ cr_name r)
  end.

(** @src src/spkcal/cirrus/tools/wbridge/LinuxDriverCommunication.cpp:1593-1643 EnumerateDevices
    A buffer without room for the terminating zero is written behind its end. *)
Definition EnumerateDevices (bufferLength : nat) (d : D) : outcome (RESULT * list Z) :=
  let '(result, buffer) :=
    match m_codecPaths d with
    | [] => (WMT_SUCCESS, [])
    | _ => if m_deviceReady d then enumerate_names bufferLength (m_codecRegisters d) true [] else (WMT_SUCCESS, [])
    end in
  if (bufferLength =? 0)%nat then UB else Ret (if (length buffer =? 0)%nat then WMT_NO_DEVICE else result, buffer).

(** ** Registers *)

(** The sections behind [m_pRegisterSections]; a null pointer must not be followed. *)
Definition current_sections (d : D) : outcome RegisterSections :=
  i ← or_ub (m_pRegisterSections d); r ← or_ub (m_codecRegisters d !! i); Ret (registerSections r).

(** The codec functions look at the sections only when a device is ready. *)
Definition codec_sections (d : D) : outcome RegisterSections := if m_deviceReady d then current_sections d else Ret [].

(** @src src/spkcal/cirrus/tools/wbridge/LinuxDriverCommunication.cpp:1808-1818 ReadRegister *)
Definition ReadRegister (regAddr : Z) (d : D) : outcome (RESULT * option Z * D) :=
  isQDSP ← IsQDSPDevice (m_deviceName d);
  '(result, value, w) ←
    (if isQDSP : bool then
       sections ← current_sections d; ReadQDSPRegister (m_deviceReady d) sections (m_QDSPXMHeader d) regAddr (m_world d)
     else sections ← codec_sections d; ReadCodecRegister (m_deviceReady d) sections regAddr (m_world d));
  Ret (result, value, with_world d w).

(** @src src/spkcal/cirrus/tools/wbridge/LinuxDriverCommunication.cpp:1836-1849 BlockRead *)
Definition BlockRead (addr : Z) (data : list (option Z)) (d : D) : outcome (RESULT * list (option Z) * D) :=
  isQDSP ← IsQDSPDevice (m_deviceName d);
  '(result, data, w) ←
    (if isQDSP : bool then
       sections ← current_sections d; BlockReadQDSPInChunks (m_deviceReady d) sections (m_QDSPXMHeader d) addr data (m_world d)
     else sections ← codec_sections d; BlockReadCodec (m_deviceReady d) sections addr data (m_world d));
  Ret (result, data, with_world d w).

(** @src src/spkcal/cirrus/tools/wbridge/LinuxDriverCommunication.cpp:1866-1876 WriteRegister *)
Definition WriteRegister (regAddr value : Z) (d : D) : outcome (RESULT * D) :=
  isQDSP ← IsQDSPDevice (m_deviceName d);
  '(result, w) ←
    (if isQDSP : bool then sections ← current_sections d; WriteQDSPRegister (m_deviceReady d) sections regAddr value (m_world d)
     else sections ← codec_sections d; WriteCodecRegister (m_deviceReady d) sections regAddr value (m_world d));
  Ret (result, with_world d w).

(** @src src/spkcal/cirrus/tools/wbridge/LinuxDriverCommunication.cpp:1893-1906 BlockWrite *)
Definition BlockWrite (addr : Z) (data : list Z) (d : D) : outcome (RESULT * D) :=
  isQDSP ← IsQDSPDevice (m_deviceName d);
  '(result, w) ←
    (if isQDSP : bool then sections ← current_sections d; BlockWriteQDSPInChunks (m_deviceReady d) sections addr data (m_world d)
     else sections ← codec_sections d; BlockWriteCodec (m_deviceReady d) sections addr data (m_world d));
  Ret (result, with_world d w).

(** @src src/spkcal/cirrus/tools/wbridge/DeviceCommunication.cpp:1492-1544 GetRegisterMap (of the object) *)
Definition GetRegisterMap (d : D) : outcome (RESULT * list CRegValuePair * D) :=
  sections ← codec_sections d;
  '(result, regvals, w) ← GetRegisterMapOf (m_deviceReady d) sections (m_maxLineNumber d) (m_world d);
  Ret (result, regvals, with_world d w).

End Driver.

(** The object as a device, with the capacity that the libraries of Android give. *)
#[export] Instance driver_device {W} {files : Files W} {ioctl : Ioctl W} {host : Host W} : Device (driver W) := {
  GetDeviceName := m_deviceName;
  WbDevice.SetDevice := SetDevice 1;
  GetOSInfo n d := base_GetOSInfo (h_uname (m_world d)) n;
  WbDevice.EnumerateDevices := EnumerateDevices;
  WbDevice.ReadRegister := ReadRegister;
  WbDevice.WriteRegister := WriteRegister;
  WbDevice.GetRegisterMap := GetRegisterMap;
  WbDevice.BlockRead := BlockRead;
  BlockRead_target t a data d := base_BlockRead_target data d;
  BlockRead_region t g a data d := base_BlockRead_target data d;
  WbDevice.BlockWrite := BlockWrite;
  BlockWrite_target t a data d := base_BlockWrite_target d;
  BlockWrite_region t g a data d := base_BlockWrite_target d;
}.
