(* ===== verification/WbStartup.v ===== *)
(** * Finding the devices of the WISCE bridge

    Model of the start-up of [src/spkcal/cirrus/tools/wbridge/LinuxDriverCommunication.cpp] and
    [DeviceCommunication.cpp]: the command line, the mount point of debugfs, the walk that
    finds register files, and the question which codec to use. *)
From S2P Require Import Prelude DevStdlib DevArrays WbString WbResult WbDevice WbUtil WbPaths WbLayout WbCodec WbCodecLayout WbQdsp WbQdspLayout WbDriver.
From stdpp Require Import strings.
#[local] Open Scope Z_scope.

Section Startup.
Context {W : Type} {files : Files W} {ioctl : Ioctl W} {host : Host W} (vector_capacity : nat).
Abbreviation D := (driver W).

(** ** The command line *)

(** @src src/spkcal/cirrus/tools/wbridge/LinuxDriverCommunication.cpp:87-100 PreArgsInit *)
Definition PreArgsInit (d : D) : D :=
  mkDriver (m_debugfsMountPoint d) (m_codecPaths d) [] [] (m_deviceReady d) (m_pRegisterSections d) false []
    (m_codecRegisters d) MAX_REGISTER MAX_REGISTER None (m_QDSPXMHeader d) (m_world d).

(** @src src/spkcal/cirrus/tools/wbridge/LinuxDriverCommunication.cpp:115-118 HandleDefaultCodecArg *)
Definition HandleDefaultCodecArg (arg : list Z) (d : D) : D :=
  with_arguments d (take (PATH_MAX - 1) arg) (m_excludeDevices d) (m_includeDevices d) (m_maxRegisterIndex d).

(** @src src/spkcal/cirrus/tools/wbridge/LinuxDriverCommunication.cpp:131-135 HandleMaxRegAddressArgValue *)
Definition HandleMaxRegAddressArgValue (arg : list Z) (d : D) : D :=
  with_arguments d (m_defaultCodec d) (m_excludeDevices d) (m_includeDevices d) (u32 (strtoul16 arg)).

(** @src src/spkcal/cirrus/tools/wbridge/LinuxDriverCommunication.cpp:148-152 HandleDeviceInclude *)
Definition HandleDeviceInclude (arg : list Z) (d : D) : D :=
  with_arguments d (m_defaultCodec d) (m_excludeDevices d) (m_includeDevices d ++ [arg]) (m_maxRegisterIndex d).

(** @src src/spkcal/cirrus/tools/wbridge/LinuxDriverCommunication.cpp:165-169 HandleDeviceExclude *)
Definition HandleDeviceExclude (arg : list Z) (d : D) : D :=
  with_arguments d (m_defaultCodec d) (m_excludeDevices d ++ [arg]) (m_includeDevices d) (m_maxRegisterIndex d).

(** The string starts with "WM", in either case. *)
Definition is_WM (s : list Z) : bool := strcasecmp_eq (take 2 s) (str "WM").

(** @src src/spkcal/cirrus/tools/wbridge/DeviceCommunication.cpp:105-153 CDeviceCommunication (the arguments) *)
Fixpoint handle_args (args : list (list Z)) (d : D) : D :=
  match args with
  | [] => d
  | arg :: args' =>
      if is_WM arg then handle_args args' (HandleDefaultCodecArg arg d)
      else
        let option_with handle := match args' with value :: args'' => handle_args args'' (handle value d) | [] => d end in
        if strcasecmp_eq arg (str "--default") then option_with HandleDefaultCodecArg
        else if strcasecmp_eq arg (str "--max") then option_with HandleMaxRegAddressArgValue
        else if strcasecmp_eq arg (str "-d") then option_with HandleDeviceInclude
        else if strcasecmp_eq arg (str "-x") then option_with HandleDeviceExclude
        else handle_args args' d
  end.

(** ** The mount point *)

(** @src src/spkcal/cirrus/tools/wbridge/DeviceCommunication.cpp:1119-1144 GetDebugFsMountPoint (the entries) *)
Fixpoint debugfs_entry (entries : list (list Z * list Z)) : RESULT * list Z :=
  match entries with
  | [] => (WMT_NO_DEVICE, [])
  | (fsname, dir) :: entries' =>
      if strstr_in fsname (str "debug") then
        if (PATH_MAX <=? length dir)%nat then (WMT_TRUNCATED, []) else (WMT_SUCCESS, dir)
      else debugfs_entry entries'
  end.

(** @src src/spkcal/cirrus/tools/wbridge/DeviceCommunication.cpp:1087-1156 GetDebugFsMountPoint
    Every failure leaves the mount point empty. *)
Definition GetDebugFsMountPoint (d : D) : RESULT * D :=
  let search entries w :=
    let '(result, dir) := debugfs_entry entries in (result, with_mount_point d dir w) in
  match h_entries (str "/etc/mtab") (m_world d) with
  | (Some entries, w) => search entries w
  | (None, w) =>
      match h_entries (str "/proc/mounts") w with
      | (Some entries, w) => search entries w
      | (None, w) =>
          let '(status, _, w) := h_mount (str "procfs") (str "/proc") w in
          if status <? 0 then (WMT_NO_DEVICE, with_mount_point d [] w)
          else
            match h_entries (str "/proc/mounts") w with
            | (Some entries, w) => search entries w
            | (None, w) => (WMT_NO_DEVICE, with_mount_point d [] w)
            end
      end
  end.

(** @src src/spkcal/cirrus/tools/wbridge/DeviceCommunication.cpp:1170-1194 MountDebugFs *)
Definition MountDebugFs (d : D) : RESULT * D :=
  let '(retval, already, w) := h_mount (str "debugfs") (str "/sys/kernel/debug") (m_world d) in
  if (retval <? 0) && negb already then (WMT_NO_DEVICE, with_world d w)
  else (WMT_SUCCESS, with_mount_point d (str "/sys/kernel/debug") w).

(** ** The register files *)

(** @src src/spkcal/cirrus/tools/wbridge/DeviceCommunication.cpp:1691-1709 ftw_callback (the name file)
    The bytes read, [None] after an error; an interrupted read counts as one. *)
Fixpoint read_name (fuel : nat) (fd bytes_left : Z) (bytes : list Z) (w : W) : outcome (option (list Z) * W) :=
  match fuel with
  | O => OutOfFuel
  | S fuel' =>
      let '(ret, bs, w) := f_read fd bytes_left w in
      if ret <? 0 then Ret (None, w)
      else if ret =? 0 then Ret (Some bytes, w)
      else if 0 <? bytes_left - ret then read_name fuel' fd (bytes_left - ret) (bytes ++ bs) w
      else Ret (Some (bytes ++ bs), w)
  end.

(** @src src/spkcal/cirrus/tools/wbridge/DeviceCommunication.cpp:1666-1726 ftw_callback (the name of a registers file)
    [None] when the file is ignored. *)
Definition registers_name (fpath : list Z) (w : W) : outcome (option (list Z) * W) :=
  let tmpbuf := take (PATH_MAX - 1) fpath in
  if negb (strstr_in tmpbuf (str "regmap")) then Ret (None, w)
  else
    match split_folder tmpbuf with
    | None | Some (_, []) => Ret (None, w)
    | Some (folder, _) =>
        let '(fd, w) := f_open (folder ++ str "name") w in
        if fd <? 0 then Ret (None, w)
        else
          '(bytes, w) ← read_name (S PATH_MAX) fd (Z.of_nat PATH_MAX) [] w;
          let w := f_close fd w in
          match bytes with
          | None | Some [] => Ret (None, w)
          | Some bytes =>
              let codec := c_str (take (PATH_MAX - 1) bytes) in
              Ret (if starts_with (str "cs35l41") codec then Some codec else None, w)
          end
    end.

(** @src src/spkcal/cirrus/tools/wbridge/DeviceCommunication.cpp:1564-1749 ftw_callback *)
Definition ftw_callback (fpath : list Z) (is_file : bool) (d : D) : outcome D :=
  let tmpbuf := take (PATH_MAX - 1) fpath in
  let qdsp_file_p := strstr_in fpath QDSP_DRIVER_FILE in
  let codec_reg_p := strstr_in fpath (str "codec_reg") in
  let registers_p := strstr_in fpath (str "registers") in
  if negb is_file || negb (qdsp_file_p || codec_reg_p || registers_p) then Ret d
  else if existsb (strstr_in tmpbuf) (m_excludeDevices d) then Ret d
  else
    let matchedInclude := existsb (strstr_in tmpbuf) (m_includeDevices d) in
    if match m_includeDevices d with [] => false | _ => negb matchedInclude end then Ret d
    else
      '(codec, w) ←
        (if qdsp_file_p then Ret (Some QDSP_NAME, m_world d)
         else if registers_p then registers_name fpath (m_world d)
         else
           '(result, codec) ← ParseWMCodec fpath PATH_MAX;
           Ret (if bool_decide (result = WMT_SUCCESS) then codec else None, m_world d));
      let d := with_world d w in
      match codec with
      | None => Ret d
      | Some codec =>
          '(_, paths) ← StoreCodec (m_codecPaths d) codec fpath (Some (m_excludeDevices d))
                          (if matchedInclude then None else Some (m_includeDevices d));
          Ret (with_codecs d paths (m_codecRegisters d))
      end.

(** The callback for every path of a walk. *)
Fixpoint walk (paths : list (list Z * bool)) (d : D) : outcome D :=
  match paths with
  | [] => Ret d
  | (fpath, is_file) :: paths' => d ← ftw_callback fpath is_file d; walk paths' d
  end.
Definition ftw (dir : list Z) (d : D) : outcome (Z * D) :=
  let '(status, paths, w) := h_ftw dir (m_world d) in d ← walk paths (with_world d w); Ret (status, d).

(** @src src/spkcal/cirrus/tools/wbridge/DeviceCommunication.cpp:1207-1252 SearchForCodecs *)
Definition SearchForCodecs (d : D) : outcome D :=
  '(_, d) ← ftw QDSP_DRIVER_FILE d;
  '(status, d) ← ftw (take (PATH_MAX - 1) (m_debugfsMountPoint d ++ str "/regmap")) d;
  if status <? 0 then Ret d
  else
    match m_codecPaths d with
    | [] => '(_, d) ← ftw (take (PATH_MAX - 1) (m_debugfsMountPoint d ++ str "/asoc")) d; Ret d
    | _ => Ret d
    end.

(** @src src/spkcal/cirrus/tools/wbridge/LinuxDriverCommunication.cpp:261-307 InitialiseCodecPaths
    [PrepareComms] is not overridden. *)
Definition InitialiseCodecPaths (d : D) : outcome D :=
  let d := with_codecs d [] [] in
  let '(result, d) := GetDebugFsMountPoint d in
  let '(result, d) := if bool_decide (result = WMT_SUCCESS) then (result, d) else MountDebugFs d in
  d ← (if bool_decide (result = WMT_SUCCESS) then SearchForCodecs d else Ret d);
  match m_codecPaths d with
  | [] => Ret d
  | _ =>
      let d := with_codecs d (m_codecPaths d) (CreateRegisterCaches (m_codecPaths d) (m_codecRegisters d)) in
      d ← InitialiseRegisterLayouts vector_capacity (m_codecPaths d) d;
      Ret (if (1 <? length (m_codecRegisters d))%nat then with_name d None (m_isRegistersFile d) else d)
  end.

(** ** The question which codec to use *)

Fixpoint index_of_name (codecName : list Z) (i : nat) (l : list CodecRegisters) : option nat :=
  match l with
  | [] => None
  | r :: l' => if bool_decide (cr_name r = codecName) then Some i else index_of_name codecName (S i) l'
  end.

(** @src src/spkcal/cirrus/tools/wbridge/LinuxDriverCommunication.cpp:1563-1577 FindCodecIndex
    Other than everywhere else the names are compared with their case. *)
Definition FindCodecIndex (codecName : list Z) (d : D) : option nat := index_of_name codecName 0 (m_codecRegisters d).

(** White space at both ends, of a line that is not empty. *)
Definition trimmed (input : list Z) : list Z :=
  let s := skip_space input in reverse (skip_space (reverse s)).

(** [strtoul] with base ten, and whether there was a number. *)
Definition strtoul10 (s : list Z) : option Z :=
  let '(neg, s) := match s with
                   | c :: s' => if c =? 45 then (true, s') else if c =? 43 then (false, s') else (false, s)
                   | [] => (false, [])
                   end in
  match digit_run (length s) s with
  | [] => None
  | digits => let v := atoi digits in Some (if ULONG_MAX <? v then ULONG_MAX else if neg : bool then u64 (- v) else v)
  end.

(** @src src/spkcal/cirrus/tools/wbridge/LinuxDriverCommunication.cpp:1454-1540 QueryForCodec (a line)
    [None]: cancelled; [Some None]: not understood. *)
Definition query_line (pInput : list Z) (d : D) : option (option nat) :=
  let named codecString := match FindCodecIndex codecString d with Some i => Some (Some i) | None => Some None end in
  if strcasecmp_eq pInput (str "QUIT") then None
  else if is_WM pInput then named (take 255 pInput)
  else
    match strtoul10 pInput with
    | None => Some None
    | Some inputValue =>
        if Z.of_nat (length (m_codecRegisters d)) <=? inputValue then named (take 255 (str "WM" ++ pInput))
        else Some (Some (Z.to_nat inputValue))
    end.

(** @src src/spkcal/cirrus/tools/wbridge/LinuxDriverCommunication.cpp:1426-1549 QueryForCodec
    The lines the user enters, each with its newline; [None] when the selection is cancelled.
    When there are no more lines the last one is looked at again and again, and without any
    the uninitialised buffer is. *)
Fixpoint QueryForCodec (lines : list (list Z)) (d : D) : outcome (option nat) :=
  match lines with
  | [] => UB
  | input :: lines' =>
      match query_line (trimmed input) d with
      | None => Ret None
      | Some (Some i) => Ret (Some i)
      | Some None => match lines' with [] => Blocked | _ => QueryForCodec lines' d end
      end
  end.

(** @src src/spkcal/cirrus/tools/wbridge/LinuxDriverCommunication.cpp:204-248 FindCodecs *)
Definition FindCodecs (lines : list (list Z)) (d : D) : outcome (RESULT * D) :=
  d ← InitialiseCodecPaths d;
  match m_codecPaths d with
  | [] => Ret (WMT_NO_DEVICE, d)
  | _ =>
      '(result, d) ← (if (length (m_defaultCodec d) =? 0)%nat then Ret (WMT_NO_DEVICE, d) else SetDevice vector_capacity (m_defaultCodec d) d);
      match m_deviceName d with
      | Some _ => Ret (result, d)
      | None =>
          deviceIndex ← (if (1 <? length (m_codecRegisters d))%nat then QueryForCodec lines d else Ret (Some 0%nat));
          match deviceIndex with
          | None => Ret (result, d)
          | Some i => r ← or_ub (m_codecRegisters d !! i); SetDevice vector_capacity (cr_name r) d
          end
      end
  end.

(** @src src/spkcal/cirrus/tools/wbridge/LinuxDriverCommunication.cpp:185-190 Initialise *)
Definition Initialise (lines : list (list Z)) (d : D) : outcome D :=
  '(_, d) ← FindCodecs lines (with_ready d false); Ret d.

(** @src src/spkcal/cirrus/tools/wbridge/DeviceCommunication.cpp:92-158 CDeviceCommunication
    The arguments behind the name of the program. *)
Definition CDeviceCommunication_of (args lines : list (list Z)) (d : D) : outcome D :=
  Initialise lines (handle_args args (PreArgsInit d)).
End Startup.

(** The fuel for the name of a codec is enough. *)
Lemma read_name_enough {W} {files : Files W} fuel : ∀ fd bytes_left bytes (w : W), (Z.to_nat bytes_left < fuel)%nat →
  read_name fuel fd bytes_left bytes w ≠ OutOfFuel.
Proof.
  induction fuel as [|fuel IH]; intros fd left bytes w Hf; [lia|]. cbn [read_name]. destruct (f_read fd left w) as [[ret bs] w'].
  destruct (Z.ltb_spec ret 0); [done|]. destruct (Z.eqb_spec ret 0); [done|]. destruct (Z.ltb_spec 0 (left - ret)); [|done]. apply IH. lia.
Qed.
