(* ===== verification/WbDriverSpec.v ===== *)
(** * The device behind the WISCE bridge

    A codec that was chosen is the register file that the command handler and the server
    rely on; a choice that fails is not remembered. *)
From S2P Require Import Prelude DevStdlib DevArrays WbString WbResult WbCommand WbDevice WbHandler WbHandlerSpec WbSession WbServer WbServerSpec WbUtil WbPaths WbUtilSpec WbLayout WbCodec WbCodecLayout WbCodecText WbCodecFiles WbCodecSpec WbCodecRead WbQdsp WbQdspLayout WbDriver.
From stdpp Require Import sorting strings.
#[local] Open Scope Z_scope.

(** ** A codec as a register file *)

Section Codec.
Context {W : Type} {files : Files W} {codec : CodecFiles W} {ioctl : Ioctl W} {host : Host W}.
Abbreviation D := (driver W).

Definition not_QDSP (name : option (list Z)) : Prop := IsQDSPDevice name = Ret false.

(** The codec [f] is chosen: its section is set up, and its file is there. *)
Definition serves (d : D) (f : regfile) : Prop :=
  m_deviceReady d = true ∧ not_QDSP (m_deviceName d) ∧
  ∃ i r s0, m_pRegisterSections d = Some i ∧ m_codecRegisters d !! i = Some r ∧ registerSections r = [section_of f s0 (Some 1)] ∧
    file_at (m_world d) (regPath s0) = Some (RegFile f) ∧ regfile_ok f.

(** The register file behind the current section. *)
Definition current_file (d : D) : option regfile :=
  i ← m_pRegisterSections d; r ← m_codecRegisters d !! i; s ← head (registerSections r);
  c ← file_at (m_world d) (regPath s); match c with RegFile f => Some f | TextFile _ => None end.
Definition current_regs (d : D) : gmap Z Z := match current_file d with Some f => regs_of f | None => ∅ end.

Lemma serves_current d f : serves d f → current_regs d = regs_of f.
Proof.
  intros (_ & _ & i & r & s0 & Hi & Hr & Hs & Hfile & _). unfold current_regs, current_file. rewrite Hi. cbn [mbind option_bind]. rewrite Hr. cbn [mbind option_bind].
  rewrite Hs. cbn [head mbind option_bind section_of regPath]. rewrite Hfile. done.
Qed.

Lemma serves_sections d f : serves d f → ∃ s0, codec_sections d = Ret [section_of f s0 (Some 1)] ∧ file_at (m_world d) (regPath s0) = Some (RegFile f).
Proof.
  intros (Hr & _ & i & r & s0 & Hi & Hc & Hs & Hfile & _). exists s0. split; [|done]. unfold codec_sections, current_sections. rewrite Hr, Hi.
  cbn [or_ub mbind outcome_bind]. rewrite Hc. cbn [or_ub mbind outcome_bind]. by rewrite Hs.
Qed.

Lemma read_serves d f a : serves d f → ∃ d', serves d' f ∧
  ReadRegister a d = Ret (match regs_of f !! a with Some v => (WMT_SUCCESS, Some v) | None => (WMT_REG_NOT_PRESENT, None) end, d').
Proof.
  intros (Hr & Hq & i & r & s0 & Hi & Hc & Hs & Hfile & Hf). unfold ReadRegister. rewrite Hq. cbn [mbind outcome_bind].
  unfold codec_sections, current_sections. rewrite Hr, Hi. cbn [or_ub mbind outcome_bind]. rewrite Hc. cbn [or_ub mbind outcome_bind]. rewrite Hs.
  destruct (read_one f Hf _ s0 (Some 1) eq_refl (m_world d) a Hfile) as (w' & -> & F). exists (with_world d w'). split.
  - split; [done|]. split; [done|]. exists i, r, s0. cbn [with_world m_world m_pRegisterSections m_codecRegisters]. rewrite F. by split_and!.
  - by destruct (regs_of f !! a).
Qed.

Lemma write_serves d f a v : serves d f → is_Some (regs_of f !! a) → 0 ≤ v < 16 ^ Z.of_nat (rf_vw f) → ∃ d', serves d' (set_reg f a v) ∧
  regs_of (set_reg f a v) = <[a := v]> (regs_of f) ∧ WriteRegister a v d = Ret (WMT_SUCCESS, d').
Proof.
  intros (Hr & Hq & i & r & s0 & Hi & Hc & Hs & Hfile & Hf) [v0 Hv0] Hv. apply (regs_of_Some f Hf) in Hv0 as [k Hk].
  unfold WriteRegister. rewrite Hq. cbn [mbind outcome_bind]. unfold codec_sections, current_sections. rewrite Hr, Hi. cbn [or_ub mbind outcome_bind].
  rewrite Hc. cbn [or_ub mbind outcome_bind]. rewrite Hs.
  destruct (write_one f Hf _ s0 (Some 1) eq_refl (m_world d) a k v0 v Hfile Hk Hv) as (w' & -> & F). exists (with_world d w'). split; [|split].
  - split; [done|]. split; [done|]. exists i, r, s0. cbn [with_world m_world m_pRegisterSections m_codecRegisters]. rewrite F, bool_decide_eq_true_2 by done. split_and!; [done|done| |done|by apply set_reg_ok].
    rewrite Hs. unfold section_of, bytes_of. by rewrite set_reg_layout.
  - by apply (set_reg_map f a k v0).
  - done.
Qed.
End Codec.

#[export] Program Instance driver_file {W} {files : Files W} {codec : CodecFiles W} {ioctl : Ioctl W} {host : Host W} : RegisterFile (driver W) := {
  WbSession.file := current_regs;
  file_ok d := ∃ f, serves d f ∧ rf_vw f = 8%nat;
}.
Next Obligation.
  intros W files codec ioctl host d a v (f & Hs & Hw) Ha. rewrite (serves_current d f Hs) in Ha.
  destruct Hs as (_ & _ & i & r & s0 & _ & _ & _ & _ & Hf). apply (regs_of_Some f Hf) in Ha as [k Hk].
  destruct (reg_ok_index f Hf k _ Hk) as [_ Hv]. rewrite Hw in Hv. exact Hv.
Qed.
Next Obligation.
  intros W files codec ioctl host d a (f & Hs & Hw). destruct (read_serves d f a Hs) as (d' & Hs' & E). exists d'. split; [by exists f|].
  rewrite (serves_current d' f Hs'), (serves_current d f Hs). by split.
Qed.
Next Obligation.
  intros W files codec ioctl host d a v (f & Hs & Hw) Ha Hv. rewrite (serves_current d f Hs) in Ha.
  destruct (write_serves d f a v Hs Ha) as (d' & Hs' & Em & E); [by rewrite Hw|]. exists d'. split; [by exists (set_reg f a v)|].
  by rewrite (serves_current d' _ Hs'), (serves_current d f Hs).
Qed.

(** ** The choice of a codec *)

Lemma strcasecmp_refl s : strcasecmp_eq s s = true.
Proof. unfold strcasecmp_eq. by rewrite bool_decide_eq_true_2. Qed.

(** The fields of an object that was updated. *)
Ltac driver_fields :=
  cbn [with_ready with_name with_current with_layouts m_codecPaths m_deviceReady m_pRegisterSections m_codecRegisters m_maxRegisterIndex
       m_maxLineNumber m_deviceName m_QDSPXMHeader m_world negb].

Section Choice.
Context {W : Type} {files : Files W} {codec : CodecFiles W} {ioctl : Ioctl W} {host : Host W} {heap : Heap}.
Abbreviation D := (driver W).

(** One codec was found, and nothing is known of its registers yet. *)
Definition found (d : D) (c : CCodecPathPair) (dir : list Z) (f : regfile) : Prop :=
  m_codecPaths d = [c] ∧ m_codecRegisters d = CreateRegisterCaches [c] [] ∧ m_maxRegisterIndex d = MAX_REGISTER ∧
  not_QDSP (Some (name c)) ∧ (length (name c) ≤ 255)%nat ∧ path c = dir ++ str "/registers" ∧
  codec_at f (mkSection [] (path c) None None None) dir (m_world d).

Lemma SetDevice_found capacity d c dir f n : found d c dir f → strcasecmp_eq n (name c) = true →
  ∃ d', SetDevice capacity n d = Ret (WMT_SUCCESS, d') ∧ serves d' f ∧
    m_codecPaths d' = [c] ∧ m_defaultCodec d' = m_defaultCodec d ∧ m_deviceName d' = Some (name c) ∧ length (m_codecRegisters d') = 1%nat.
Proof.
  intros (Hp & Hr & Hmax & Hq & Hname & Hpath & Hc) Hn. pose proof Hc as (Hf & _ & _ & _ & Hlen & _). cbn [regPath] in Hlen.
  cbn [CreateRegisterCaches GetCodecRegisters find_registers app] in Hr. rewrite !firstn_all2 in Hr by (unfold PATH_MAX in *; lia).
  unfold SetDevice. rewrite Hp. cbn [find_path]. rewrite Hn. unfold InitialiseRegisterLayout. driver_fields.
  cbn [or_ub mbind outcome_bind]. rewrite Hr. unfold GetCodecRegisters. cbn [find_registers cr_name]. rewrite strcasecmp_refl.
  cbn [lookup list_lookup or_ub mbind outcome_bind initialised]. rewrite Hq. cbn [mbind outcome_bind registerSections InitialiseSections]. rewrite Hmax.
  destruct (section_initialised f (mkSection [] (path c) None None None) (m_maxLineNumber d) dir (m_world d) Hc) as (w' & -> & F).
  cbn [mbind outcome_bind]. rewrite (bool_decide_eq_false_2 (WMT_SUCCESS ≠ WMT_SUCCESS)) by congruence. cbn [mbind outcome_bind].
  rewrite !(bool_decide_eq_true_2 (WMT_SUCCESS = WMT_SUCCESS)) by done. cbn [sort_sections length Nat.ltb Nat.leb mbind outcome_bind].
  eexists. split; [done|]. split; [|done]. split; [done|]. split; [done|]. do 3 eexists. split; [done|]. split; [done|]. split; [done|].
  split; [|done]. cbn [m_world with_ready with_layouts regPath]. rewrite F. by destruct Hc as (_ & _ & _ & _ & _ & ? & _).
Qed.

(** The whole stack: the codec that was found is chosen by its name, in any case of the
    letters, and a client that connects and sends numbered requests, in any chunks, each after
    the reply to the one before, receives the greeting and, byte for byte, the answers of
    the register file that the kernel shows, which holds the values written afterwards. *)
Theorem bridge_serves_codec (d : D) c dir f n version (qs : list (Z * WbSession.request)) css fuel :
  found d c dir f → strcasecmp_eq n (name c) = true → rf_vw f = 8%nat → Forall (request_ok (regs_of f)) qs → Forall2 arrives qs css →
  (length (concat css) + length qs < fuel)%nat →
  ∃ d1 r id h1 h2, SetDevice 1 n d = Ret (WMT_SUCCESS, d1) ∧ GetDeviceID [] (mkHandler d1 version) = Ret (r, id, h1) ∧
    HandleConnection fuel (mkServer (mkHandler d1 version) (mkScript (concat css) [])) =
      Ret (code WMT_SOCKET_CLOSED, mkServer h2 (mkScript [] (greeting id ++ concat (answers_of qs (regs_of f)).1))) ∧
    current_regs (m_device h2) = (answers_of qs (regs_of f)).2.
Proof.
  intros Hd Hn Hw Hqs Hcss Hfuel. destruct (SetDevice_found 1 d c dir f n Hd Hn) as (d1 & E1 & Hs & _).
  destruct (connection_served qs css (mkHandler d1 version) (regs_of f) fuel) as (r & id & h1 & h2 & E2 & E3 & E4);
    [by exists f|by apply serves_current|done..|]. exists d1, r, id, h1, h2. by split_and!.
Qed.

(** ** A failure that is forgotten *)

Lemma find_registers_insert n i j l r r' : l !! j = Some r → cr_name r' = cr_name r →
  find_registers n i (<[j := r']> l) = find_registers n i l.
Proof.
  intros Hj Hn. revert i j Hj. induction l as [|x l IH]; intros i [|j] Hj; [done..| |]; cbn in *.
  - simplify_eq. by rewrite Hn.
  - destruct (strcasecmp_eq n (cr_name x)); [done|]. by apply IH.
Qed.

Lemma layout_fails capacity (d d' : D) n i result : InitialiseRegisterLayout capacity d = Ret (result, d') → result ≠ WMT_SUCCESS →
  m_deviceReady d = true → m_deviceName d = Some n → GetCodecRegisters (m_codecRegisters d) n = Some i →
  m_codecPaths d' = m_codecPaths d ∧ GetCodecRegisters (m_codecRegisters d') n = Some i ∧
  ∃ r, m_codecRegisters d' !! i = Some r ∧ initialised r = true.
Proof.
  intros E Hres Hr Hn Hi. unfold InitialiseRegisterLayout in E. rewrite Hr in E. cbn [negb m_deviceName with_current] in E. rewrite Hn in E.
  cbn [or_ub mbind outcome_bind m_codecRegisters with_current] in E. rewrite Hi in E. cbn [m_codecRegisters with_current] in E.
  destruct (m_codecRegisters d !! i) as [r|] eqn:Er; [|done]. cbn [or_ub mbind outcome_bind] in E.
  destruct (initialised r); [by injection E as <-|].
  apply outcome_bind_Ret_inv in E as (isQ & _ & E). apply outcome_bind_Ret_inv in E as ([[[[res sections] header] ml] w] & _ & E).
  apply outcome_bind_Ret_inv in E as (sections' & _ & E). injection E as -> <-. cbn [m_codecPaths m_codecRegisters with_layouts with_current].
  split; [done|]. split; [unfold GetCodecRegisters; by rewrite (find_registers_insert n 0 i _ r)|].
  eexists. split; [apply list_lookup_insert_eq; by eapply lookup_lt_Some|done].
Qed.

(** [SetDevice] succeeds although the layout could not be set up, the device being not
    ready; when it is called once more the layout counts as set up, and the device is
    ready, with what there is of a layout. *)
Theorem SetDevice_forgets_failure capacity (d d1 : D) c n i : find_path n (m_codecPaths d) = Some c →
  GetCodecRegisters (m_codecRegisters d) (name c) = Some i → SetDevice capacity n d = Ret (WMT_SUCCESS, d1) → m_deviceReady d1 = false →
  ∃ d2, SetDevice capacity n d1 = Ret (WMT_SUCCESS, d2) ∧ m_deviceReady d2 = true ∧ m_codecRegisters d2 = m_codecRegisters d1.
Proof.
  intros Hc Hi E Hr. unfold SetDevice in E. rewrite Hc in E. apply outcome_bind_Ret_inv in E as ([result d'] & E & E1). injection E1 as <-.
  cbn [m_deviceReady with_ready] in Hr. apply bool_decide_eq_false_1 in Hr.
  destruct (layout_fails _ _ _ (name c) i _ E Hr) as (Hp & Hi' & r & Er & Hinit); [done..|].
  unfold SetDevice. cbn [m_codecPaths with_ready]. rewrite Hp. cbn [m_codecPaths with_ready with_name]. rewrite Hc.
  unfold InitialiseRegisterLayout. cbn [m_deviceReady with_ready with_name with_current negb m_deviceName or_ub mbind outcome_bind m_codecRegisters].
  rewrite Hi'. cbn [m_codecRegisters with_current with_ready with_name]. rewrite Er. cbn [or_ub mbind outcome_bind]. rewrite Hinit. cbn [mbind outcome_bind].
  eexists. split; [done|]. by split.
Qed.
End Choice.

(** ** A concrete device *)

#[export] Instance disk_ioctl : Ioctl disk := { f_ioctl fd r module param datal data d := (-1, data, d) }.
#[export] Instance disk_host : Host disk := {
  h_entries f d := (None, d);
  h_mount fs dir d := (-1, false, d);
  h_ftw dir d := (-1, [], d);
  h_uname d := None;
}.

Definition wide_file : regfile := mkRegfile 2 8 [(0, 0x3541); (1, 0xABCD); (4, 9)].
Definition wide_disk : disk :=
  mkDisk (list_to_map [(str "/d/regmap/registers", RegFile wide_file); (str "/d/regmap/range", TextFile (range_text [(0, 1); (4, 4)]))]) ∅ 3.
Definition wide_codec : CCodecPathPair := mkCodecPath (str "cs35l41_0-0040") (str "/d/regmap/registers") (-1) (-1).
Definition fresh_driver (c : CCodecPathPair) (w : disk) : driver disk :=
  mkDriver [] [c] [] [] false None false [] (CreateRegisterCaches [c] []) MAX_REGISTER MAX_REGISTER None [] w.

Lemma wide_ok : regfile_ok wide_file.
Proof.
  split_and!; [cbn; lia|cbn; lia|by right; right|repeat (constructor || (cbn; lia))|repeat constructor; by vm_compute|by vm_compute].
Qed.

Lemma wide_found : found (fresh_driver wide_codec wide_disk) wide_codec (str "/d/regmap") wide_file.
Proof.
  split; [done|]. split; [done|]. split; [done|]. split; [by vm_compute|]. split; [by apply Nat.leb_le; vm_compute|]. split; [by vm_compute|].
  split_and!; [exact wide_ok|done|done|by vm_compute|
    by apply Nat.ltb_lt; vm_compute|by vm_compute|left].
  exists [(0, 1); (4, 4)], 0%nat. split_and!; [by vm_compute|repeat constructor; by vm_compute|by vm_compute| |by vm_compute]. by exists 0.
Qed.

Definition wide_requests : list (Z * WbSession.request) := [(1, QWrite 1 0xabc); (2, QRead 1); (3, QRead 7)].
Definition wide_chunks : list (list (list Z)) := [[str "[1] w"; str " 1 ABC" ++ [10]]; [str "[2] r 1" ++ [10]]; [str "[3] r 7" ++ [10]]].

Lemma bridge_serves_codec_witness :
  ∃ d1 r id h1 h2, SetDevice 1 (str "CS35L41_0-0040") (fresh_driver wide_codec wide_disk) = Ret (WMT_SUCCESS, d1) ∧
    GetDeviceID [] (mkHandler d1 DEFAULT_VERSION) = Ret (r, id, h1) ∧
    HandleConnection 12 (mkServer (mkHandler d1 DEFAULT_VERSION) (mkScript (concat wide_chunks) [])) =
      Ret (code WMT_SOCKET_CLOSED, mkServer h2 (mkScript [] (greeting id ++ str "[1] Ok" ++ [10] ++ str "[2] abc" ++ [10] ++ str "[3] Error 37" ++ [10]))) ∧
    current_regs (m_device h2) = <[1 := 0xabc]> (regs_of wide_file).
Proof.
  apply (bridge_serves_codec (fresh_driver wide_codec wide_disk) wide_codec (str "/d/regmap") wide_file (str "CS35L41_0-0040") DEFAULT_VERSION
    wide_requests wide_chunks 12); [exact wide_found|by vm_compute|done| | |by apply Nat.ltb_lt; vm_compute].
  - repeat constructor; cbn; lia || (by eexists) || done.
  - repeat constructor; done || by vm_compute.
Defined.

(** A codec whose register file is not there. *)
Definition gone_driver : driver disk := fresh_driver wide_codec (mkDisk ∅ ∅ 3).

Definition gone_after : driver disk :=
  match SetDevice 1 (str "cs35l41_0-0040") gone_driver with Ret (_, d1) => d1 | _ => gone_driver end.

Lemma SetDevice_forgets_failure_witness : SetDevice 1 (str "cs35l41_0-0040") gone_driver = Ret (WMT_SUCCESS, gone_after) ∧
  m_deviceReady gone_after = false ∧ ∃ d2, SetDevice 1 (str "cs35l41_0-0040") gone_after = Ret (WMT_SUCCESS, d2) ∧
    m_deviceReady d2 = true ∧ m_codecRegisters d2 = m_codecRegisters gone_after.
Proof.
  assert (E : SetDevice 1 (str "cs35l41_0-0040") gone_driver = Ret (WMT_SUCCESS, gone_after)) by by vm_compute.
  split; [exact E|]. split; [by vm_compute|].
  apply (SetDevice_forgets_failure 1 gone_driver gone_after wide_codec (str "cs35l41_0-0040") 0); [by vm_compute..|exact E|by vm_compute].
Defined.
