(* ===== verification/WbQdspSections.v ===== *)
(** * The registers and sections of the signal processor

    What the bridge relies on of the driver ([QdspDriver]), and what it makes of it: the
    registers of the algorithms are the words of the driver's memory, singly and in
    blocks, whose bytes have the highest first.

    The header and the algorithms lie one behind the other in the address space; setting
    them up succeeds exactly as long as the vector of sections need not grow twice. *)
From S2P Require Import Prelude DevStdlib DevArrays WbString WbResult WbCommand WbDevice WbUtil WbPaths WbUtilSpec WbLayout WbCodec WbCodecLayout WbCodecText WbCodecFiles WbCodecSpec WbCodecRead WbCodecBlock WbQdsp WbQdspLayout.
From stdpp Require Import sorting strings.
#[local] Open Scope Z_scope.

(** ** The driver *)

(** The algorithms (number, revision, count of registers), the words of their registers,
    and the registers selected through a descriptor, if it is open. *)
Class QdspDriver (W : Type) {files : Files W} {ioctl : Ioctl W} := {
  q_algos : W → list (Z * Z * Z);
  q_mem : W → Z → Z → Z;
  q_sel : W → Z → option (option (Z * Z * Z));
}.

Section Same.
Context {W : Type} {files : Files W} {ioctl : Ioctl W} {qdsp : QdspDriver W}.
(** Nothing but the descriptors differs. *)
Definition same (w w' : W) : Prop := q_algos w' = q_algos w ∧ ∀ a x, q_mem w' a x = q_mem w a x.
#[export] Instance same_preorder : PreOrder same.
Proof. split; [by split|]. intros x y z [E1 H1] [E2 H2]. split; [congruence|]. intros a o. by rewrite H2. Qed.
End Same.

(** The words of a message. *)
Definition fields_of (algoID offset n : Z) : words := [Some 1; Some algoID; Some offset; Some n].
Definition info_of (algos : list (Z * Z * Z)) : list Z := concat ((λ '(ID, rev, count), [ID; rev; count]) <$> algos).
Definition word32 (v : Z) : Prop := 0 ≤ v < 2 ^ 32.

Class QdspLaws (W : Type) {files : Files W} {ioctl : Ioctl W} {qdsp : QdspDriver W} := {
  q_word w a x : word32 (q_mem w a x);
  q_open w : ∃ fd w', f_open QDSP_DRIVER_FILE w = (fd, w') ∧ 0 ≤ fd ∧ is_Some (q_sel w' fd) ∧ same w w';
  q_close fd w : same w (f_close fd w);
  q_count fd w : is_Some (q_sel w fd) → ∃ w', f_ioctl fd CRUS_GB_IOCTL_GET CRUS_MODULE_ID_RX CRUS_PARAM_ALGORITHM_COUNT 4 [Some 0] w =
    (0, [Some (Z.of_nat (length (q_algos w)))], w') ∧ same w w';
  q_info fd w n : is_Some (q_sel w fd) → n = length (q_algos w) →
    ∃ w', f_ioctl fd CRUS_GB_IOCTL_GET CRUS_MODULE_ID_RX CRUS_PARAM_ALGORITHM_INFO (12 * Z.of_nat n) (replicate (3 * n) None) w =
      (0, Some <$> info_of (q_algos w), w') ∧ same w w';
  q_select fd w len a o n rest : is_Some (q_sel w fd) →
    ∃ w', f_ioctl fd CRUS_GB_IOCTL_SET CRUS_MODULE_ID_RX CRUS_PARAM_REGISTER_SELECT len (fields_of a o n ++ rest) w = (0, fields_of a o n ++ rest, w') ∧
      same w w' ∧ q_sel w' fd = Some (Some (a, o, n));
  q_get fd w a o n : q_sel w fd = Some (Some (a, o, Z.of_nat n)) →
    ∃ w', f_ioctl fd CRUS_GB_IOCTL_GET CRUS_MODULE_ID_RX CRUS_PARAM_REGISTER_DATA (4 * (4 + Z.of_nat n)) (fields_of a o (Z.of_nat n) ++ replicate n None) w =
      (0, fields_of a o (Z.of_nat n) ++ (Some <$> (q_mem w a <$> seqZ o (Z.of_nat n))), w') ∧ same w w';
  q_set fd w len a o vs rest : is_Some (q_sel w fd) → Forall word32 vs →
    ∃ w' data, f_ioctl fd CRUS_GB_IOCTL_SET CRUS_MODULE_ID_RX CRUS_PARAM_REGISTER_DATA len (fields_of a o (Z.of_nat (length vs)) ++ (Some <$> vs) ++ rest) w =
      (0, data, w') ∧ q_algos w' = q_algos w ∧
      ∀ b x, q_mem w' b x = if bool_decide (b = a ∧ o ≤ x < o + Z.of_nat (length vs)) then vs !!! Z.to_nat (x - o) else q_mem w b x;
}.

(** ** Words and bytes *)

Lemma swapped_byte v k j : 0 ≤ v < 2 ^ 32 → 0 ≤ k → 0 ≤ j → k + j = 3 →
  Z.land (Z.shiftr (ByteSwap32bit v) (8 * k)) 0xFF = Z.land (Z.shiftr v (8 * j)) 0xFF.
Proof.
  intros Hv Hk Hj Hkj. change 0xFF with (Z.ones 8). apply Z.bits_inj'. intros n Hn. rewrite !Z.land_spec, !Z.shiftr_spec by lia.
  destruct (decide (n < 8)) as [Hl|Hl]; [|by rewrite Z.ones_spec_high, !andb_false_r by lia]. f_equal.
  rewrite ByteSwap32bit_bits by lia. f_equal. replace j with (3 - k) by lia.
  assert (∃ i, n = Z.of_nat i ∧ (i < 8)%nat) as (i & -> & Hi) by (exists (Z.to_nat n); lia).
  assert (∃ c, k = Z.of_nat c ∧ (c < 4)%nat) as (c & -> & Hc) by (exists (Z.to_nat k); lia).
  clear - Hi Hc. each_below c ltac:(each_below i ltac:(by vm_compute)).
Qed.

(** The bytes of a swapped word are those of the value, the highest first. *)
Lemma word_bytes_swapped v : 0 ≤ v < 2 ^ 32 → word_bytes (ByteSwap32bit v) = value_bytes 4 v.
Proof.
  intros Hv. unfold word_bytes, value_bytes. cbn [fmap list_fmap Z.eqb Pos.eqb].
  by rewrite (swapped_byte v 0 3), (swapped_byte v 1 2), (swapped_byte v 2 1), (swapped_byte v 3 0) by (done || lia).
Qed.

(** A word from four bytes, the lowest first. *)
Lemma bytes_word_range b0 b1 b2 b3 : Forall is_byte [b0; b1; b2; b3] → word32 (bytes_word [b0; b1; b2; b3]).
Proof. rewrite !Forall_cons. intros (H0 & H1 & H2 & H3 & _). unfold is_byte, word32, bytes_word in *. cbn [foldr]. lia. Qed.

Lemma word_bytes_word b0 b1 b2 b3 : Forall is_byte [b0; b1; b2; b3] → word_bytes (bytes_word [b0; b1; b2; b3]) = [b0; b1; b2; b3].
Proof.
  rewrite !Forall_cons. intros (H0 & H1 & H2 & H3 & _). unfold is_byte, word_bytes, bytes_word in *. cbn [fmap list_fmap foldr].
  change (Z.land (?x ≫ (8 * 0)) 255) with (Z.land (Z.shiftr x (8 * 0)) 0xFF). rewrite !low_byte by lia.
  change (2 ^ (8 * 0)) with 1. change (2 ^ (8 * 1)) with 256. change (2 ^ (8 * 2)) with 65536. change (2 ^ (8 * 3)) with 16777216.
  repeat f_equal; Z.div_mod_to_equations; lia.
Qed.

(** ** A range of registers *)

Definition range_info (s : Z) (k : nat) : RegisterLineInfo := mkLineInfo (s + Z.of_nat k) (32 * Z.of_nat k) 32 (Z.of_nat k).
Definition range_layout (s : Z) (n : nat) : RegisterLayout := range_info s <$> seq 0 n.

Lemma range_layout_S s n : range_layout s (S n) = range_layout s n ++ [range_info s n].
Proof. unfold range_layout. by rewrite seq_S, fmap_app. Qed.
Lemma length_range s n : length (range_layout s n) = n.
Proof. unfold range_layout. by rewrite length_fmap, length_seq. Qed.
Lemma range_elem s n x : x ∈ range_layout s n → s ≤ registerAddress x < s + Z.of_nat n.
Proof.
  intros Hx. apply list_elem_of_fmap in Hx as (k & -> & Hk). apply elem_of_seq in Hk. cbn. lia.
Qed.

Lemma range_layout_ok s n : Z.of_nat n ≤ INT_MAX → layout_ok (range_layout s n).
Proof.
  induction n as [|n IH]; intros Hn; [by split; [constructor|cbn]|]. rewrite range_layout_S. apply layout_ok_snoc.
  - apply IH. lia.
  - rewrite length_range. lia.
  - intros y Hy. apply range_elem in Hy. unfold below. cbn. lia.
Qed.

Lemma line_of_range s n a : line_of (range_layout s n) a =
  if bool_decide (s ≤ a < s + Z.of_nat n) then Some (range_info s (Z.to_nat (a - s))) else None.
Proof.
  induction n as [|n IH]; [by rewrite bool_decide_eq_false_2 by lia|]. rewrite range_layout_S, line_of_app, IH.
  case_bool_decide as H1; [by rewrite bool_decide_eq_true_2 by lia|]. cbn [line_of range_info registerAddress].
  destruct (Z.eqb_spec (s + Z.of_nat n) a) as [E|E].
  - rewrite bool_decide_eq_true_2 by lia. f_equal. f_equal. lia.
  - rewrite bool_decide_eq_false_2 by lia. done.
Qed.

(** The registers of a range are added one by one. *)
Lemma add_range_more s n : ∀ j fuel, 0 ≤ s → s + Z.of_nat (j + n) - 1 < MAX_REGISTER → 32 * Z.of_nat (j + n) ≤ INT_MAX → (n < fuel)%nat →
  add_range fuel (s + Z.of_nat j) (s + Z.of_nat (j + n) - 1) 1 32 MAX_REGISTER (range_layout s j) (32 * Z.of_nat j) (Z.of_nat j) =
    Ret (WMT_SUCCESS, range_layout s (j + n), 32 * Z.of_nat (j + n), Z.of_nat (j + n)).
Proof.
  induction n as [|n IH]; intros j fuel Hs Hend Hmax Hf; (destruct fuel as [|fuel]; [lia|]); cbn [add_range].
  - rewrite Nat.add_0_r in *. destruct (Z.leb_spec (s + Z.of_nat j) (s + Z.of_nat j - 1)); [lia|done].
  - destruct (Z.leb_spec (s + Z.of_nat j) (s + Z.of_nat (j + S n) - 1)); [|lia]. unfold MAX_REGISTER, INT_MAX in *.
    rewrite AddRegister_above; [|apply range_layout_ok; unfold INT_MAX; lia|intros x Hx; apply range_elem in Hx; lia|by left].
    cbn [mbind outcome_bind]. rewrite bool_decide_eq_false_2 by congruence.
    rewrite (wrapu_small 32 (s + Z.of_nat j + 1)), !u64_small by lia. rewrite !(wrapu_small 32) by lia.
    change (mkLineInfo (s + Z.of_nat j) (32 * Z.of_nat j) 32 (Z.of_nat j)) with (range_info s j). rewrite <-range_layout_S.
    replace (s + Z.of_nat j + 1) with (s + Z.of_nat (S j)) by lia. replace (32 * Z.of_nat j + 32) with (32 * Z.of_nat (S j)) by lia.
    replace (Z.of_nat j + 1) with (Z.of_nat (S j)) by lia. replace (j + S n)%nat with (S j + n)%nat in * by lia. apply IH; unfold MAX_REGISTER, INT_MAX; lia.
Qed.

Lemma scan_mock_range s e : 0 ≤ s < MAX_REGISTER → 0 ≤ e < MAX_REGISTER → scan_pair DASH_CHAR (mock_range s e) = Some (s, e).
Proof.
  intros Hs He. destruct (range_digits s Hs) as (Es & Nes & _). destruct (range_digits e He) as (Ee & Nee & _). unfold MAX_REGISTER in *.
  unfold scan_pair, mock_range. rewrite (scan_x_digits _ s) by (done || lia). cbn [mbind option_bind app]. change (DASH_CHAR =? DASH_CHAR) with true. cbv iota.
  rewrite <-(app_nil_r (print_x e)). rewrite (scan_x_digits _ e) by (done || lia). done.
Qed.

Lemma mock_range_added s n sec ml : 0 ≤ s → (0 < n)%nat → s + Z.of_nat n - 1 < MAX_REGISTER → 32 * Z.of_nat n ≤ INT_MAX → layout sec = [] →
  HandleRangeFileLine (mock_range s (s + Z.of_nat n - 1)) QDSP_DATA_SIZE_BITS MAX_REGISTER [] (mkRange sec 0 0 1 ml) =
    Ret (WMT_SUCCESS, mkRange (with_layout sec (range_layout s n)) (32 * Z.of_nat n) (Z.of_nat n) 1 ml).
Proof.
  intros Hs Hn Hend Hmax Hl. unfold HandleRangeFileLine. change (QDSP_DATA_SIZE_BITS =? 0) with false. cbv iota. rewrite scan_mock_range by lia.
  cbn [r_addressIncrement r_section r_totalOffset r_lineNumber r_maxLineNumber]. change (1 =? 0) with false. cbn [andb]. cbv iota.
  rewrite (wrapu_small 32 1), Z.div_1_r, Hl by lia. change (1 =? 0) with false. cbv iota. pose proof (add_range_more s n 0 (S (S (Z.to_nat (s + Z.of_nat n - 1 - s))))) as E.
  rewrite Nat.add_0_l, Z.add_0_r in E. change (range_layout s 0) with (@nil RegisterLineInfo) in E. change QDSP_DATA_SIZE_BITS with 32.
  change (32 * Z.of_nat 0) with 0 in E. change (Z.of_nat 0) with 0 in E. rewrite E by lia. cbn [mbind outcome_bind].
  by rewrite bool_decide_eq_false_2 by congruence.
Qed.

(** ** Where the algorithms lie *)

(** How far an algorithm reaches: its registers, rounded up with some room. *)
Definition room (count : Z) : Z := (count / 0x100 + 1) * 0x100.

(** Number, offset and count of every algorithm. *)
Fixpoint place (offset : Z) (algos : list (Z * Z * Z)) : list (Z * Z * Z) :=
  match algos with
  | [] => []
  | (ID, _, count) :: algos' => (ID, offset, count) :: place (offset + room count) algos'
  end.
Definition end_of (offset : Z) (algos : list (Z * Z * Z)) : Z := fold_left (λ o a, o + room a.2) algos offset.

Definition header_words (offset : Z) (algos : list (Z * Z * Z)) : list Z :=
  concat ((λ p, algorithm_words p.1.1.1 p.1.1.2 p.2.1.2) <$> zip algos (place offset algos)).
Definition qdsp_header (algos : list (Z * Z * Z)) : list Z :=
  static_header ++ (Z.of_nat (length algos) :: header_words XM_INITIAL_ALGO_OFFSET algos) ++ [DSP_ALGORITHM_LIST_TERMINATOR].

(** The section of an algorithm, and all sections: the header has a register too many. *)
Definition algo_section (path : list Z) (p : Z * Z * Z) : RegisterSection :=
  mkSection (range_layout (XM_START_REGISTER + p.1.2) (Z.to_nat p.2)) path (Some 4) (Some 1) (Some p.1.1).
Definition header_section (path : list Z) (algos : list (Z * Z * Z)) : RegisterSection :=
  mkSection (range_layout XM_START_REGISTER (S (length (qdsp_header algos)))) path (Some 4) (Some 1) (Some 0).
Definition qdsp_sections (path : list Z) (algos : list (Z * Z * Z)) : RegisterSections :=
  header_section path algos :: (algo_section path <$> place XM_INITIAL_ALGO_OFFSET algos).

(** Algorithms with numbers and registers, that fit in the address space, the header
    in front of the first. *)
Definition algo_ok (a : Z * Z * Z) : Prop := 0 < a.1.1 < 2 ^ 32 ∧ word32 a.1.2 ∧ 0 < a.2.
Definition algos_ok (algos : list (Z * Z * Z)) : Prop :=
  Forall algo_ok algos ∧ end_of XM_INITIAL_ALGO_OFFSET algos ≤ XM_LAST_REGISTER - XM_START_REGISTER ∧ (length algos ≤ 100)%nat.

Lemma room_above count : 0 ≤ count → count < room count.
Proof. intros Hc. unfold room. pose proof (Z.div_mod count 0x100). pose proof (Z.mod_pos_bound count 0x100). lia. Qed.

Lemma end_of_above algos : ∀ offset, Forall algo_ok algos → offset ≤ end_of offset algos.
Proof.
  induction algos as [|a algos IH]; intros offset Ha; [done|]. apply Forall_cons_1 in Ha as [(_ & _ & Ha) Hs]. unfold end_of in *. cbn [fold_left].
  pose proof (room_above a.2 ltac:(lia)). specialize (IH (offset + room a.2) Hs). lia.
Qed.

Lemma length_place offset algos : length (place offset algos) = length algos.
Proof. revert offset. induction algos as [|[[ID rev] count] algos IH]; intros offset; [done|]. cbn. by rewrite IH. Qed.

Lemma length_header algos : length (qdsp_header algos) = (9 + 5 * length algos)%nat.
Proof.
  unfold qdsp_header, header_words. rewrite !length_app. cbn [length static_header].
  assert (∀ offset, length (concat ((λ p, algorithm_words p.1.1.1 p.1.1.2 p.2.1.2) <$> zip algos (place offset algos))) = (5 * length algos)%nat) as ->; [|lia].
  induction algos as [|[[ID rev] count] algos IH]; intros offset; [done|]. cbn [place zip_with]. rewrite text_cons, length_app, IH. cbn [algorithm_words length]. lia.
Qed.

Lemma header_words_cons offset ID rev count algos :
  header_words offset ((ID, rev, count) :: algos) = algorithm_words ID rev offset ++ header_words (offset + room count) algos.
Proof. done. Qed.

(** The words of an algorithm in the header. *)
Lemma header_lookup algos : ∀ offset pre post k p, place offset algos !! k = Some p →
  (pre ++ header_words offset algos ++ post) !! (length pre + 5 * k)%nat = Some p.1.1 ∧
  (pre ++ header_words offset algos ++ post) !! (length pre + 5 * k + 3)%nat = Some p.1.2.
Proof.
  induction algos as [|[[ID rev] count] algos IH]; intros offset pre post k p Hk; [done|]. destruct k as [|k].
  - injection Hk as <-. rewrite header_words_cons. rewrite Nat.mul_0_r, Nat.add_0_r. split.
    + by rewrite lookup_app_r, Nat.sub_diag by lia.
    + rewrite lookup_app_r by lia. replace (length pre + 3 - length pre)%nat with 3%nat by lia. done.
  - rewrite header_words_cons, <-app_assoc, app_assoc. specialize (IH (offset + room count) (pre ++ algorithm_words ID rev offset) post k p Hk).
    rewrite length_app in IH. cbn [algorithm_words length] in IH. replace (length pre + 5 + 5 * k)%nat with (length pre + 5 * S k)%nat in IH by lia. exact IH.
Qed.

(** An algorithm lies between the start and the end. *)
Lemma place_bounds algos : ∀ offset p, Forall algo_ok algos → p ∈ place offset algos →
  0 < p.1.1 < 2 ^ 32 ∧ 0 < p.2 ∧ offset ≤ p.1.2 ∧ p.1.2 + p.2 ≤ end_of offset algos.
Proof.
  induction algos as [|[[ID rev] count] algos IH]; intros offset p Ha Hp; cbn [place] in Hp; [by apply not_elem_of_nil in Hp|].
  apply Forall_cons_1 in Ha as [(Hid & _ & Hc) Ha]. cbn [fst snd] in *. pose proof (room_above count ltac:(lia)) as Hroom.
  pose proof (end_of_above algos (offset + room count) Ha) as Hend. change (end_of offset ((ID, rev, count) :: algos)) with (end_of (offset + room count) algos).
  apply elem_of_cons in Hp as [->|Hp]; [cbn; lia|]. destruct (IH (offset + room count) p Ha Hp) as (? & ? & ? & ?). lia.
Qed.

(** ** Detection *)

Lemma info_words_spec algos : ∀ pre offset, Forall algo_ok algos → 0 ≤ offset → end_of offset algos ≤ XM_LAST_REGISTER →
  info_words (length algos) (pre ++ (Some <$> info_of algos)) (Z.of_nat (length pre)) offset = Ret (header_words offset algos, (λ a, a.2) <$> algos).
Proof.
  induction algos as [|[[ID rev] count] algos IH]; intros pre offset Ha Ho Hend; [done|]. apply Forall_cons_1 in Ha as [(Hid & Hrev & Hc) Ha]. cbn [fst snd] in *.
  change (end_of offset ((ID, rev, count) :: algos)) with (end_of (offset + room count) algos) in Hend. pose proof (end_of_above algos (offset + room count) Ha) as Hle.
  pose proof (room_above count ltac:(lia)) as Hroom. unfold room in *. unfold XM_LAST_REGISTER in *. cbn [length info_words].
  change (info_of ((ID, rev, count) :: algos)) with ([ID; rev; count] ++ info_of algos). rewrite fmap_app, app_assoc.
  assert (Hget : ∀ k v, 0 ≤ k → (Some <$> [ID; rev; count]) !! Z.to_nat k = Some v →
    arr_get ((pre ++ (Some <$> [ID; rev; count])) ++ (Some <$> info_of algos)) (Z.of_nat (length pre) + k) = Ret v).
  { intros k v H0 Hk. apply arr_get_Some; [lia|]. pose proof (lookup_lt_Some _ _ _ Hk). rewrite <-app_assoc, lookup_app_r by lia.
    replace (Z.to_nat (Z.of_nat (length pre) + k) - length pre)%nat with (Z.to_nat k) by lia. by rewrite lookup_app_l. }
  pose proof (Hget 0 (Some ID) ltac:(lia) eq_refl) as G0. rewrite Z.add_0_r in G0. rewrite G0. cbn [or_ub mbind outcome_bind].
  rewrite (Hget 1 (Some rev) ltac:(lia) eq_refl). cbn [or_ub mbind outcome_bind].
  rewrite (Hget 2 (Some count) ltac:(lia) eq_refl). cbn [or_ub mbind outcome_bind].
  assert (0 ≤ count / 0x100) by (apply Z.div_pos; lia). rewrite (wrapu_small 32 (count / 256 + 1)), (wrapu_small 32 ((count / 256 + 1) * 256)) by lia.
  rewrite s32_small by (unfold INT_MIN, INT_MAX; lia). pose proof (IH (pre ++ (Some <$> [ID; rev; count])) (offset + (count / 256 + 1) * 256) Ha) as E.
  rewrite length_app, length_fmap in E. cbn [length] in E. replace (Z.of_nat (length pre + 3)) with (Z.of_nat (length pre) + 3) in E by lia.
  rewrite E by lia. cbn [mbind outcome_bind]. rewrite wrapu_small by lia. by rewrite header_words_cons.
Qed.

(** ** Sections *)

Lemma header_count algos : qdsp_header algos !! 7%nat = Some (Z.of_nat (length algos)).
Proof. done. Qed.

Lemma header_algo algos k p : place XM_INITIAL_ALGO_OFFSET algos !! k = Some p →
  arr_get (qdsp_header algos) (DSP_FIRST_ALGO_ID_IDX + DSP_ALGO_HEADER_NUM_ELEMENTS * Z.of_nat k) = Ret p.1.1 ∧
  arr_get (qdsp_header algos) (DSP_FIRST_ALGO_XM_BASE_IDX + DSP_ALGO_HEADER_NUM_ELEMENTS * Z.of_nat k) = Ret p.1.2.
Proof.
  intros Hk. destruct (header_lookup algos _ (static_header ++ [Z.of_nat (length algos)]) [DSP_ALGORITHM_LIST_TERMINATOR] k p Hk) as [H1 H2].
  unfold DSP_FIRST_ALGO_ID_IDX, DSP_FIRST_ALGO_XM_BASE_IDX, DSP_ALGO_HEADER_NUM_ELEMENTS.
  rewrite <-app_assoc in H1, H2. cbn [length static_header app] in H1, H2. unfold qdsp_header. cbn [static_header app].
  split; (apply arr_get_Some; [lia|]).
  - replace (Z.to_nat (8 + 5 * Z.of_nat k)) with (8 + 5 * k)%nat by lia. exact H1.
  - replace (Z.to_nat (11 + 5 * Z.of_nat k)) with (8 + 5 * k + 3)%nat by lia. exact H2.
Qed.

Lemma place_lookup algos : ∀ offset k p, place offset algos !! k = Some p → ((λ a, a.2) <$> algos) !! k = Some p.2.
Proof.
  induction algos as [|[[ID rev] count] algos IH]; intros offset [|k] p Hk; [done..| |]; cbn [place lookup list_lookup fmap list_fmap] in *.
  - by injection Hk as <-.
  - by apply (IH (offset + room count) k p).
Qed.

(** An algorithm passes the guards; what remains needs the header's section. *)
Lemma algorithm_section_eq name algos path x p ml : strcasecmp_eq name QDSP_NAME = true → algos_ok algos → p ∈ place XM_INITIAL_ALGO_OFFSET algos →
  x = Some (header_section path algos) ∨ x = None →
  InitialiseQDSPAlgorithmSection true (Some name) MAX_REGISTER (qdsp_header algos) x p.1.1 p.1.2 p.2 ml =
    match x with Some _ => Ret (WMT_SUCCESS, Some (algo_section path p), ml) | None => UB end.
Proof.
  intros Hname (Ha & Hend & Hlen) Hp Hx. destruct (place_bounds _ _ _ Ha Hp) as (Hid & Hc & Ho & He).
  unfold InitialiseQDSPAlgorithmSection, IsQDSPDevice. cbn [negb or_ub mbind outcome_bind]. rewrite Hname.
  rewrite length_header. unfold XM_INITIAL_ALGO_OFFSET, XM_FIRMWARE_OFFSET, XM_LAST_REGISTER, XM_START_REGISTER in *. cbn [negb orb].
  destruct (Z.eqb_spec p.1.1 0); [lia|]. destruct (Z.ltb_spec p.1.2 (Z.of_nat (9 + 5 * length algos))); [lia|]. destruct (Z.eqb_spec p.2 0); [lia|]. cbn [orb].
  destruct Hx as [-> | ->]; [|done]. cbn [or_ub mbind outcome_bind]. rewrite !(wrapu_small 32) by (rewrite ?wrapu_small; lia).
  replace (1638400 + p.1.2 + p.2 - 1) with (1638400 + p.1.2 + Z.of_nat (Z.to_nat p.2) - 1) by lia.
  rewrite mock_range_added; [|unfold MAX_REGISTER, INT_MAX; lia..|done]. done.
Qed.

(** The algorithms from [i] on get their sections as long as the pointer to the header's
    section is valid: at all only when the vector has room for a section in front of each. *)
Lemma algorithm_sections_spec name algos path capacity ml n : strcasecmp_eq name QDSP_NAME = true → algos_ok algos →
  ∀ i, (i + n)%nat = length algos → (i ≤ capacity)%nat →
  algorithm_sections true (Some name) MAX_REGISTER n (Z.of_nat i) (Z.of_nat (length algos)) (qdsp_header algos) ((λ a, a.2) <$> algos)
    (DSP_FIRST_ALGO_ID_IDX + DSP_ALGO_HEADER_NUM_ELEMENTS * Z.of_nat i) (DSP_FIRST_ALGO_XM_BASE_IDX + DSP_ALGO_HEADER_NUM_ELEMENTS * Z.of_nat i)
    capacity (header_section path algos :: (algo_section path <$> take i (place XM_INITIAL_ALGO_OFFSET algos))) ml WMT_SUCCESS =
  if bool_decide (n = 0%nat ∨ length algos ≤ capacity)%nat then Ret (WMT_SUCCESS, qdsp_sections path algos, ml) else UB.
Proof.
  intros Hname Hok. pose proof (length_place XM_INITIAL_ALGO_OFFSET algos) as Hpl. induction n as [|n IH]; intros i Hi Hcap; cbn [algorithm_sections].
  { rewrite bool_decide_eq_true_2 by (by left). rewrite take_ge by lia. done. }
  destruct (lookup_lt_is_Some_2 (place XM_INITIAL_ALGO_OFFSET algos) i) as [p Hp]; [lia|]. destruct (header_algo _ _ _ Hp) as [-> ->]. cbn [mbind outcome_bind].
  rewrite Nat2Z.id, (place_lookup _ _ _ _ Hp). cbn [mbind outcome_bind length]. rewrite length_fmap, length_take_le by lia.
  destruct (Nat.leb_spec (S i) capacity) as [Hc|Hc].
  - cbn [head].
 rewrite (algorithm_section_eq name algos path) by (by eauto using list_elem_of_lookup_2). cbn [mbind outcome_bind].
    rewrite bool_decide_eq_false_2 by congruence. rewrite <-app_comm_cons, <-fmap_snoc, <-take_S_r by done.
    replace (Z.of_nat i + 1) with (Z.of_nat (S i)) by lia.
    replace (DSP_FIRST_ALGO_ID_IDX + DSP_ALGO_HEADER_NUM_ELEMENTS * Z.of_nat i + DSP_ALGO_HEADER_NUM_ELEMENTS) with
      (DSP_FIRST_ALGO_ID_IDX + DSP_ALGO_HEADER_NUM_ELEMENTS * Z.of_nat (S i)) by lia.
    replace (DSP_FIRST_ALGO_XM_BASE_IDX + DSP_ALGO_HEADER_NUM_ELEMENTS * Z.of_nat i + DSP_ALGO_HEADER_NUM_ELEMENTS) with
      (DSP_FIRST_ALGO_XM_BASE_IDX + DSP_ALGO_HEADER_NUM_ELEMENTS * Z.of_nat (S i)) by lia.
    rewrite IH by lia. by rewrite (bool_decide_ext (n = 0 ∨ length algos ≤ capacity)%nat (S n = 0 ∨ length algos ≤ capacity)%nat) by lia.
  - rewrite (algorithm_section_eq name algos path) by (by eauto using list_elem_of_lookup_2). cbn [mbind outcome_bind].
    by rewrite bool_decide_eq_false_2 by lia.
Qed.

Section Init.
Context {W : Type} {files : Files W} {ioctl : Ioctl W} {qdsp : QdspDriver W} {laws : QdspLaws W}.

Lemma open_driver w : ∃ fd w', OpenCodecFile true (Some QDSP_DRIVER_FILE) w = (WMT_SUCCESS, fd, w') ∧ is_Some (q_sel w' fd) ∧ same w w'.
Proof.
  unfold OpenCodecFile. cbn [negb]. destruct (q_open w) as (fd & w' & -> & Hfd & Hs & H). destruct (Z.ltb_spec fd 0); [lia|]. by eauto.
Qed.

Lemma detect_algorithms_spec w : algos_ok (q_algos w) →
  ∃ w', detect_algorithms true w = Ret (Z.of_nat (length (q_algos w)) :: header_words XM_INITIAL_ALGO_OFFSET (q_algos w), (λ a, a.2) <$> q_algos w, w') ∧ same w w'.
Proof.
  intros (Ha & Hend & Hlen). unfold detect_algorithms, ReadQDSPAlgoCount. destruct (open_driver w) as (fd & w1 & -> & Hs1 & H1).
  rewrite bool_decide_eq_false_2 by congruence. unfold get_rx_alg_count, get, fw_ioctl. destruct (q_count fd w1 Hs1) as (w2 & -> & H2).
  rewrite (proj1 H1). cbn [mbind outcome_bind]. change (arr_get [Some (Z.of_nat (length (q_algos w)))] 0) with (Ret (A := option Z) (Some (Z.of_nat (length (q_algos w))))).
  cbn [or_ub mbind outcome_bind]. rewrite s32_small by (unfold INT_MIN, INT_MAX; lia).
  replace (Z.to_nat (12 * Z.of_nat (length (q_algos w)) / 4)) with (3 * length (q_algos w))%nat.
  2: { replace (12 * Z.of_nat (length (q_algos w))) with (Z.of_nat (3 * length (q_algos w)) * 4) by lia. by rewrite Z.div_mul, Nat2Z.id by lia. }
  unfold ReadQDSPAlgoInfo. destruct (open_driver (f_close fd w2)) as (fd3 & w3 & -> & Hs3 & H3). rewrite bool_decide_eq_false_2 by congruence.
  assert (Hw3 : same w w3) by (etrans; [exact H1|]; etrans; [exact H2|]; etrans; [apply q_close|exact H3]).
  unfold get_rx_alg_info, get, fw_ioctl. destruct (q_info fd3 w3 (length (q_algos w)) Hs3) as (w4 & -> & H4); [by rewrite (proj1 Hw3)|].
  change (0 <? 0) with false. cbv iota. rewrite bool_decide_eq_true_2 by done. rewrite Nat2Z.id, (proj1 Hw3).
  pose proof (info_words_spec (q_algos w) [] XM_INITIAL_ALGO_OFFSET Ha) as E. cbn [app length] in E. change (Z.of_nat 0) with 0 in E.
  rewrite E; [|done|unfold XM_START_REGISTER in Hend; lia]. cbn [mbind outcome_bind]. eexists. split; [done|].
  etrans; [exact Hw3|]. etrans; [exact H4|apply q_close].
Qed.
End Init.

Section Sections.
Context {W : Type} {files : Files W} {ioctl : Ioctl W} {qdsp : QdspDriver W} {laws : QdspLaws W}.

Lemma header_initialised algos path ml sec : (length algos ≤ 100)%nat → regPath sec = path → layout sec = [] →
  HandleRangeFileLine (mock_range XM_START_REGISTER (u32 (XM_START_REGISTER + u32 (Z.of_nat (length (qdsp_header algos)))))) QDSP_DATA_SIZE_BITS MAX_REGISTER []
    (mkRange (mkSection (layout sec) (regPath sec) (Some ((QDSP_DATA_SIZE_BITS + 7) / 8)) (Some 1) (Some 0)) 0 0 1 ml) =
  Ret (WMT_SUCCESS, mkRange (header_section path algos) (32 * Z.of_nat (S (length (qdsp_header algos)))) (Z.of_nat (S (length (qdsp_header algos)))) 1 ml).
Proof.
  intros Hlen <- Hl. rewrite Hl. pose proof (length_header algos) as Hh. rewrite (wrapu_small 32 (Z.of_nat _)) by lia.
  rewrite (wrapu_small 32) by (unfold XM_START_REGISTER; lia).
  replace (XM_START_REGISTER + Z.of_nat (length (qdsp_header algos))) with (XM_START_REGISTER + Z.of_nat (S (length (qdsp_header algos))) - 1) by lia.
  rewrite mock_range_added; [done|unfold XM_START_REGISTER, MAX_REGISTER, INT_MAX; lia..|done].
Qed.

Lemma sections_set_up w name sec ml capacity : strcasecmp_eq name QDSP_NAME = true → strcasecmp_eq (regPath sec) QDSP_DRIVER_FILE = true →
  layout sec = [] → algos_ok (q_algos w) →
  ∃ w', same w w' ∧ InitialiseQDSP true (Some name) MAX_REGISTER [sec] capacity [] ml w =
    if bool_decide (length (q_algos w) ≤ capacity)%nat
    then Ret (WMT_SUCCESS, qdsp_sections (regPath sec) (q_algos w), qdsp_header (q_algos w), ml, w') else UB.
Proof.
  intros Hname Hpath Hl Hok. pose proof Hok as (_ & _ & Hlen). unfold InitialiseQDSP, IsQDSPDevice. cbn [negb or_ub mbind outcome_bind]. rewrite Hname, Hpath.
  unfold InitialiseQDSPXMHeader, IsQDSPDevice. cbn [negb or_ub mbind outcome_bind head]. rewrite Hname. cbn [negb].
  destruct (detect_algorithms_spec w Hok) as (w' & Ed & Hs). exists w'. split; [exact Hs|]. change (AUTO_DETECT =? AUTO_DETECT) with true. cbv iota.
  rewrite Ed. cbn [mbind outcome_bind]. cbv zeta.
  change ([] ++ static_header ++ (Z.of_nat (length (q_algos w)) :: header_words XM_INITIAL_ALGO_OFFSET (q_algos w)) ++ [DSP_ALGORITHM_LIST_TERMINATOR])
    with (qdsp_header (q_algos w)).
  rewrite (header_initialised _ (regPath sec)) by done. cbn [mbind outcome_bind r_section r_maxLineNumber drop].
  rewrite (arr_get_Some _ DSP_HEADER_ALGORITHM_COUNT_IDX (Z.of_nat (length (q_algos w)))) by done. cbn [mbind outcome_bind].
  pose proof (algorithm_sections_spec name (q_algos w) (regPath sec) capacity ml (length (q_algos w)) Hname Hok 0 eq_refl ltac:(lia)) as E.
  rewrite take_0 in E. cbn [fmap list_fmap] in E. change (Z.of_nat 0) with 0 in E. rewrite Z.mul_0_r, !Z.add_0_r in E. rewrite Nat2Z.id, E.
  destruct (decide (length (q_algos w) ≤ capacity)%nat).
  - by rewrite !bool_decide_eq_true_2 by lia.
  - by rewrite !bool_decide_eq_false_2 by lia.
Qed.
End Sections.
