(* ===== verification/WbQdspRegs.v ===== *)
(** * Registers and blocks of the signal processor

    Once the sections are set up, the registers of the algorithms are the words of the
    driver's memory: what is read, what a write changes, and that a block written in chunks
    is the block read in chunks. *)
From S2P Require Import Prelude DevStdlib DevArrays WbString WbResult WbCommand WbDevice WbUtil WbPaths WbUtilSpec WbLayout WbCodec WbCodecLayout WbCodecText WbCodecFiles WbCodecSpec WbCodecRead WbCodecBlock WbQdsp WbQdspLayout WbQdspSections.
From stdpp Require Import sorting strings.
#[local] Open Scope Z_scope.

(** ** Which algorithm a register belongs to *)

Fixpoint find_algo (ps : list (Z * Z * Z)) (x : Z) : option (Z * Z * Z) :=
  match ps with
  | [] => None
  | p :: ps' => if bool_decide (p.1.2 ≤ x < p.1.2 + p.2) then Some p else find_algo ps' x
  end.

Lemma find_algo_Some ps x p : find_algo ps x = Some p → p ∈ ps ∧ p.1.2 ≤ x < p.1.2 + p.2.
Proof.
  induction ps as [|q ps IH]; intros E; [done|]. cbn [find_algo] in E. case_bool_decide as Hq.
  - injection E as <-. split; [by left|done].
  - destruct (IH E). split; [by right|done].
Qed.

(** The algorithms are disjoint. *)
Lemma find_algo_place algos : ∀ offset p x, Forall algo_ok algos → p ∈ place offset algos → p.1.2 ≤ x < p.1.2 + p.2 →
  find_algo (place offset algos) x = Some p.
Proof.
  induction algos as [|[[ID rev] count] algos IH]; intros offset p x Ha Hp Hx; cbn [place find_algo] in *; [by apply not_elem_of_nil in Hp|].
  apply Forall_cons_1 in Ha as [(Hid & _ & Hc) Ha]. cbn [fst snd] in *. apply elem_of_cons in Hp as [->|Hp]; [by rewrite bool_decide_eq_true_2|].
  pose proof (room_above count ltac:(lia)). destruct (place_bounds algos (offset + room count) p Ha Hp) as (_ & _ & Ho & _).
  rewrite bool_decide_eq_false_2 by lia. by apply IH.
Qed.

Lemma FindSection_algos path algos x ps : Forall (λ p, 0 < p.2 ∧ 0 ≤ p.1.2 ∧ p.2 ≤ INT_MAX) ps → ps ⊆ place XM_INITIAL_ALGO_OFFSET algos →
  FindSection (algo_section path <$> ps) (XM_START_REGISTER + x) =
    Ret ((λ p, (algo_section path p, range_info (XM_START_REGISTER + p.1.2) (Z.to_nat (x - p.1.2)))) <$> find_algo ps x).
Proof.
  induction 1 as [|p ps (Hc & Ho & Hmax) Hps IH]; intros Hsub; [done|]. rewrite fmap_cons. cbn [FindSection find_algo].
  cbn [algo_section layout]. rewrite FindInLayout_linear by (apply range_layout_ok; lia). cbn [mbind outcome_bind]. rewrite line_of_range.
  rewrite (bool_decide_ext (XM_START_REGISTER + p.1.2 ≤ XM_START_REGISTER + x < XM_START_REGISTER + p.1.2 + Z.of_nat (Z.to_nat p.2)) (p.1.2 ≤ x < p.1.2 + p.2)) by lia.
  case_bool_decide as Hp.
  - cbn [fmap option_fmap]. by replace (XM_START_REGISTER + x - (XM_START_REGISTER + p.1.2)) with (x - p.1.2) by lia.
  - apply IH. set_solver.
Qed.

(** The section of a register: the header's, one register longer than the header, or an
    algorithm's. *)
Lemma FindSection_qdsp path algos x : algos_ok algos → 0 ≤ x →
  FindSection (qdsp_sections path algos) (XM_START_REGISTER + x) =
    Ret (if bool_decide (x ≤ Z.of_nat (length (qdsp_header algos))) then Some (header_section path algos, range_info XM_START_REGISTER (Z.to_nat x))
         else (λ p, (algo_section path p, range_info (XM_START_REGISTER + p.1.2) (Z.to_nat (x - p.1.2)))) <$> find_algo (place XM_INITIAL_ALGO_OFFSET algos) x).
Proof.
  intros (Ha & Hend & Hlen) Hx. unfold qdsp_sections. cbn [FindSection]. cbn [header_section layout]. pose proof (length_header algos).
  rewrite FindInLayout_linear by (apply range_layout_ok; unfold INT_MAX; lia). cbn [mbind outcome_bind]. rewrite line_of_range.
  rewrite (bool_decide_ext (XM_START_REGISTER ≤ XM_START_REGISTER + x < XM_START_REGISTER + Z.of_nat (S (length (qdsp_header algos)))) (x ≤ Z.of_nat (length (qdsp_header algos)))) by lia.
  case_bool_decide as Hh.
  - by replace (XM_START_REGISTER + x - XM_START_REGISTER) with x by lia.
  - apply (FindSection_algos path algos); [|done]. apply Forall_forall. intros p Hp. destruct (place_bounds _ _ _ Ha Hp) as (_ & ? & Ho & He).
    unfold XM_INITIAL_ALGO_OFFSET, XM_FIRMWARE_OFFSET, XM_LAST_REGISTER, XM_START_REGISTER, INT_MAX in *. lia.
Qed.

(** ** The calls *)

Section Calls.
Context {W : Type} {files : Files W} {ioctl : Ioctl W} {qdsp : QdspDriver W} {laws : QdspLaws W}.

Lemma select_message_words n a o : select_message (4 * (4 + Z.of_nat n)) a o (Z.of_nat n) = fields_of a o (Z.of_nat n) ++ replicate n None.
Proof.
  unfold select_message, fields_of. rewrite Z.mul_comm, Z.div_mul by lia. by replace (Z.to_nat (4 + Z.of_nat n) - 4)%nat with n by lia.
Qed.

Lemma select_and_read_spec w fd a o n : is_Some (q_sel w fd) →
  ∃ w', select_and_read fd (4 * (4 + Z.of_nat n)) (select_message (4 * (4 + Z.of_nat n)) a o (Z.of_nat n)) w =
    (Some (fields_of a o (Z.of_nat n) ++ (Some <$> (q_mem w a <$> seqZ o (Z.of_nat n)))), w') ∧ same w w'.
Proof.
  intros Hs. rewrite select_message_words. unfold select_and_read, set_rx_register_select, get_rx_register_data, set, get, fw_ioctl.
  destruct (q_select fd w (4 * (4 + Z.of_nat n)) a o (Z.of_nat n) (replicate n None) Hs) as (w1 & -> & H1 & Hs1). change (0 <? 0) with false. cbv iota.
  destruct (q_get fd w1 a o n Hs1) as (w2 & -> & H2). change (0 <? 0) with false. cbv iota. exists w2. split; [|by etrans].
  do 3 f_equal. f_equal. apply list_fmap_ext. intros i x _. apply H1.
Qed.

Lemma algorithm_read w a o : ∃ w', ReadFromQDSPAlgorithm true a o w = Ret (WMT_SUCCESS, Some (q_mem w a o), w') ∧ same w w'.
Proof.
  unfold ReadFromQDSPAlgorithm. destruct (open_driver w) as (fd & w1 & -> & Hs & H1). rewrite bool_decide_eq_false_2 by congruence.
  change (4 * message_words) with (4 * (4 + Z.of_nat 1)). change (select_message ?m a o 1) with (select_message m a o (Z.of_nat 1)).
  destruct (select_and_read_spec w1 fd a o 1 Hs) as (w2 & -> & H2). rewrite (arr_get_Some _ DATA_INDEX (Some (q_mem w1 a o))) by (done || cbn; by rewrite Z.add_0_l).
  cbn [or_ub mbind outcome_bind]. eexists. split; [by rewrite (proj2 H1)|]. etrans; [exact H1|]. etrans; [exact H2|apply q_close].
Qed.

Lemma arr_get_data a o n (vs : list Z) i v : vs !! Z.to_nat i = Some v → 0 ≤ i →
  arr_get (fields_of a o n ++ (Some <$> vs)) (DATA_INDEX + i) = Ret (Some v).
Proof.
  intros Hv Hi. unfold DATA_INDEX. apply arr_get_Some; [lia|]. rewrite lookup_app_r by (cbn; lia). cbn [length fields_of].
  replace (Z.to_nat (4 + i) - 4)%nat with (Z.to_nat i) by lia. by rewrite list_lookup_fmap, Hv.
Qed.

Lemma swapped_data_spec a o n vs : ∀ post pre, vs = pre ++ post →
  swapped_data (length post) (Z.of_nat (length pre)) (fields_of a o n ++ (Some <$> vs)) = Ret (ByteSwap32bit <$> post).
Proof.
  induction post as [|v post IH]; intros pre E; [done|]. cbn [length swapped_data].
  rewrite (arr_get_data a o n vs _ v) by (lia || by rewrite E, Nat2Z.id, lookup_app_r, Nat.sub_diag by lia). cbn [or_ub mbind outcome_bind].
  pose proof (IH (pre ++ [v])) as E'. rewrite length_app in E'. cbn [length] in E'. replace (Z.of_nat (length pre + 1)) with (Z.of_nat (length pre) + 1) in E' by lia.
  rewrite E' by (rewrite E; by rewrite <-app_assoc). cbn [mbind outcome_bind]. by rewrite fmap_cons.
Qed.

Lemma algorithm_block_read w a o n : 0 < n ≤ 12 →
  ∃ w', BlockReadFromQDSPAlgorithm true a o n w = Ret (WMT_SUCCESS, ByteSwap32bit <$> (q_mem w a <$> seqZ o n), w') ∧ same w w'.
Proof.
  intros Hn. unfold BlockReadFromQDSPAlgorithm. destruct (open_driver w) as (fd & w1 & -> & Hs & H1). rewrite bool_decide_eq_false_2 by congruence.
  rewrite (wrapu_small 32 (n - 1)), s32_small by (unfold INT_MIN, INT_MAX; unfold message_words; lia).
  replace (4 * message_words + (n - 1) * 4) with (4 * (4 + Z.of_nat (Z.to_nat n))) by (unfold message_words; lia).
  replace (select_message (4 * (4 + Z.of_nat (Z.to_nat n))) a o n) with (select_message (4 * (4 + Z.of_nat (Z.to_nat n))) a o (Z.of_nat (Z.to_nat n))) by (f_equal; lia).
  destruct (select_and_read_spec w1 fd a o (Z.to_nat n) Hs) as (w2 & -> & H2). rewrite Z2Nat.id by lia.
  pose proof (swapped_data_spec a o n (q_mem w1 a <$> seqZ o n) _ [] eq_refl) as E. rewrite length_fmap, length_seqZ in E. change (Z.of_nat (length [])) with 0 in E.
  rewrite E. cbn [mbind outcome_bind]. eexists. split; [|etrans; [exact H1|]; etrans; [exact H2|apply q_close]].
  do 3 f_equal. f_equal. apply list_fmap_ext. intros i x _. apply H1.
Qed.
End Calls.

Section Writes.
Context {W : Type} {files : Files W} {ioctl : Ioctl W} {qdsp : QdspDriver W} {laws : QdspLaws W}.

(** The words [vs] were stored from register [o] of algorithm [a] on. *)
Definition stored (a o : Z) (vs : list Z) (w w' : W) : Prop :=
  q_algos w' = q_algos w ∧
  ∀ b x, q_mem w' b x = if bool_decide (b = a ∧ o ≤ x < o + Z.of_nat (length vs)) then vs !!! Z.to_nat (x - o) else q_mem w b x.

Lemma stored_same a o vs w0 w w' w1 : same w0 w → stored a o vs w w' → same w' w1 → stored a o vs w0 w1.
Proof.
  intros [E0 H0] [E H] [E1 H1]. split; [congruence|]. intros b x. rewrite H1, H. by case_bool_decide.
Qed.

Lemma stored_in a o vs w w' i : stored a o vs w w' → 0 ≤ i < Z.of_nat (length vs) → q_mem w' a (o + i) = vs !!! Z.to_nat i.
Proof. intros [_ H] Hi. rewrite H, bool_decide_eq_true_2 by lia. by replace (o + i - o) with i by lia. Qed.
Lemma stored_out a o vs w w' b x : stored a o vs w w' → b ≠ a ∨ ¬ (o ≤ x < o + Z.of_nat (length vs)) → q_mem w' b x = q_mem w b x.
Proof. intros [_ H] Hx. rewrite H, bool_decide_eq_false_2; [done|]. intros [Hb Hi]. by destruct Hx as [Hx|Hx]; apply Hx. Qed.

Lemma algorithm_write w a o v : word32 v → ∃ w', WriteToQDSPAlgorithm true a o v w = Ret (WMT_SUCCESS, w') ∧ stored a o [v] w w'.
Proof.
  intros Hv. unfold WriteToQDSPAlgorithm. destruct (open_driver w) as (fd & w1 & -> & Hs & H1). rewrite bool_decide_eq_false_2 by congruence.
  change (select_message (4 * message_words) a o 1) with (fields_of a o 1 ++ [None]). rewrite arr_set_inside by (unfold DATA_INDEX; cbn; lia). cbn [mbind outcome_bind].
  unfold set_rx_register_data, set, fw_ioctl. change (<[Z.to_nat DATA_INDEX := Some v]> (fields_of a o 1 ++ [None])) with (fields_of a o (Z.of_nat (length [v])) ++ (Some <$> [v]) ++ []).
  destruct (q_set fd w1 (4 * message_words) a o [v] [] Hs) as (w2 & data & -> & H2); [by apply Forall_singleton|]. change (0 <? 0) with false. cbv iota.
  eexists. split; [done|]. apply (stored_same a o [v] w w1 w2); [done|done|apply q_close].
Qed.

Lemma fill_data_spec a o n rest vs : ∀ post pre junk, length junk = length post → vs = pre ++ post →
  fill_data post (Z.of_nat (length pre)) (fields_of a o n ++ (Some <$> (ByteSwap32bit <$> pre)) ++ junk ++ rest) =
    Ret (fields_of a o n ++ (Some <$> (ByteSwap32bit <$> vs)) ++ rest).
Proof.
  induction post as [|v post IH]; intros pre [|j junk] Hj E; [|done..|].
  - rewrite app_nil_r in E. by rewrite E.
  - cbn [fill_data]. rewrite arr_set_inside; [|rewrite !length_app, !length_fmap; unfold DATA_INDEX; cbn; lia]. cbn [mbind outcome_bind].
    unfold DATA_INDEX. pose proof (IH (pre ++ [v]) junk) as E'. rewrite length_app, !fmap_app in E'. cbn [length] in E'.
    replace (Z.of_nat (length pre + 1)) with (Z.of_nat (length pre) + 1) in E' by lia. rewrite <-E'; [|by injection Hj|by rewrite <-app_assoc].
    f_equal. rewrite insert_app_r_alt by (cbn; lia). f_equal. cbn [length fields_of].
    rewrite insert_app_r_alt by (rewrite !length_fmap; lia). rewrite !length_fmap. replace (Z.to_nat (4 + Z.of_nat (length pre)) - 4 - length pre)%nat with 0%nat by lia.
    by rewrite <-!app_assoc.
Qed.

Lemma algorithm_block_write w a o vs : Forall word32 vs → (length vs ≤ 12)%nat →
  ∃ w', BlockWriteToQDSPAlgorithm true a o vs w = Ret (WMT_SUCCESS, w') ∧ stored a o (ByteSwap32bit <$> vs) w w'.
Proof.
  intros Hv Hn. unfold BlockWriteToQDSPAlgorithm. destruct (open_driver w) as (fd & w1 & -> & Hs & H1). rewrite bool_decide_eq_false_2 by congruence.
  rewrite s32_small by (unfold INT_MIN, INT_MAX, message_words; lia).
  replace (4 * message_words + 4 * Z.of_nat (length vs)) with (4 * (4 + Z.of_nat (S (length vs)))) by (unfold message_words; lia).
  assert (select_message (4 * (4 + Z.of_nat (S (length vs)))) a o (Z.of_nat (length vs)) =
    fields_of a o (Z.of_nat (length vs)) ++ (Some <$> (ByteSwap32bit <$> [])) ++ replicate (length vs) None ++ [None]) as ->.
  { unfold select_message, fields_of. rewrite Z.mul_comm, Z.div_mul by lia. replace (Z.to_nat (4 + Z.of_nat (S (length vs))) - 4)%nat with (S (length vs)) by lia.
    rewrite replicate_S_end. done. }
  pose proof (fill_data_spec a o (Z.of_nat (length vs)) [None] vs vs [] (replicate (length vs) None)) as E. change (Z.of_nat (length [])) with 0 in E.
  rewrite E by (by rewrite ?length_replicate). cbn [mbind outcome_bind].
  unfold set_rx_register_data, set, fw_ioctl. destruct (q_set fd w1 (4 * (4 + Z.of_nat (S (length vs)))) a o (ByteSwap32bit <$> vs) [None] Hs) as (w2 & data & E2 & H2).
  { apply Forall_fmap. eapply Forall_impl; [exact Hv|]. intros v Hv'. by apply ByteSwap32bit_range. }
  rewrite length_fmap in E2. rewrite E2. change (0 <? 0) with false. cbv iota. eexists. split; [done|].
  apply (stored_same a o _ w w1 w2); [done|exact H2|apply q_close].
Qed.
End Writes.

(** ** Single registers *)

(** What the register at [XM_START_REGISTER + x] is. *)
Inductive qdsp_register := HeaderWord (v : Z) | BehindHeader | AlgorithmWord (a o : Z) | NoRegister.
Definition register_at (algos : list (Z * Z * Z)) (x : Z) : qdsp_register :=
  if x =? Z.of_nat (length (qdsp_header algos)) then BehindHeader
  else match qdsp_header algos !! Z.to_nat x with
       | Some v => HeaderWord v
       | None => match find_algo (place XM_INITIAL_ALGO_OFFSET algos) x with
                 | Some p => AlgorithmWord p.1.1 (x - p.1.2)
                 | None => NoRegister
                 end
       end.

Section Registers.
Context {W : Type} {files : Files W} {ioctl : Ioctl W} {qdsp : QdspDriver W} {laws : QdspLaws W}.
Context (path : list Z) (algos : list (Z * Z * Z)) (Hok : algos_ok algos).
Abbreviation sections := (qdsp_sections path algos).
Abbreviation header := (qdsp_header algos).

Lemma algorithm_found x p : find_algo (place XM_INITIAL_ALGO_OFFSET algos) x = Some p →
  (p.1.1 =? 0) = false ∧ 0 ≤ x - p.1.2 ∧ Z.of_nat (length header) < x.
Proof.
  intros Hp. apply find_algo_Some in Hp as [Hp Hx]. destruct Hok as (Ha & _ & Hlen). destruct (place_bounds _ _ _ Ha Hp) as (Hid & _ & Ho & _).
  rewrite length_header. unfold XM_INITIAL_ALGO_OFFSET, XM_FIRMWARE_OFFSET in *. split; [apply Z.eqb_neq|]; lia.
Qed.

Lemma registers_read x w : 0 ≤ x →
  match register_at algos x with
  | HeaderWord v => ReadQDSPRegister true sections header (XM_START_REGISTER + x) w = Ret (WMT_SUCCESS, Some v, w)
  | BehindHeader => ReadQDSPRegister true sections header (XM_START_REGISTER + x) w = UB
  | AlgorithmWord a o =>
      ∃ w', ReadQDSPRegister true sections header (XM_START_REGISTER + x) w = Ret (WMT_SUCCESS, Some (q_mem w a o), w') ∧ same w w'
  | NoRegister => ReadQDSPRegister true sections header (XM_START_REGISTER + x) w = Ret (WMT_SUCCESS, Some 0, w)
  end.
Proof.
  intros Hx. unfold register_at, ReadQDSPRegister. rewrite FindSection_qdsp by done. cbn [mbind outcome_bind].
  destruct (Z.eqb_spec x (Z.of_nat (length header))) as [E|E].
  - rewrite bool_decide_eq_true_2 by lia. cbn [header_section algorithmID or_ub mbind outcome_bind range_info lineNumber]. change (0 =? 0) with true. cbv iota.
    unfold arr_get. rewrite Z2Nat.id by lia. destruct (Z.ltb_spec x 0); [lia|]. by rewrite lookup_ge_None_2 by lia.
  - destruct (header !! Z.to_nat x) as [v|] eqn:Hv.
    + pose proof (lookup_lt_Some _ _ _ Hv). rewrite bool_decide_eq_true_2 by lia. cbn [header_section algorithmID or_ub mbind outcome_bind range_info lineNumber].
      change (0 =? 0) with true. cbv iota. rewrite Z2Nat.id by lia. by rewrite (arr_get_Some _ x v) by done.
    + apply lookup_ge_None_1 in Hv. rewrite bool_decide_eq_false_2 by lia.
      destruct (find_algo (place XM_INITIAL_ALGO_OFFSET algos) x) as [p|] eqn:Hp; [|done]. destruct (algorithm_found x p Hp) as (Hid & Ho & _).
      cbn [fmap option_fmap option_map algo_section algorithmID or_ub mbind outcome_bind range_info lineNumber]. rewrite Hid, Z2Nat.id by done. apply algorithm_read.
Qed.

Lemma registers_written x v w : 0 ≤ x → word32 v →
  match register_at algos x with
  | AlgorithmWord a o => ∃ w', WriteQDSPRegister true sections (XM_START_REGISTER + x) v w = Ret (WMT_SUCCESS, w') ∧ stored a o [v] w w'
  | _ => WriteQDSPRegister true sections (XM_START_REGISTER + x) v w = Ret (WMT_SUCCESS, w)
  end.
Proof.
  intros Hx Hv. unfold register_at, WriteQDSPRegister. rewrite FindSection_qdsp by done. cbn [mbind outcome_bind].
  destruct (Z.eqb_spec x (Z.of_nat (length header))) as [E|E]; [by rewrite bool_decide_eq_true_2 by lia|].
  destruct (header !! Z.to_nat x) as [u|] eqn:Hu; [pose proof (lookup_lt_Some _ _ _ Hu); by rewrite bool_decide_eq_true_2 by lia|].
  apply lookup_ge_None_1 in Hu. rewrite bool_decide_eq_false_2 by lia.
  destruct (find_algo (place XM_INITIAL_ALGO_OFFSET algos) x) as [p|] eqn:Hp; [|done]. destruct (algorithm_found x p Hp) as (Hid & Ho & _).
  cbn [fmap option_fmap option_map algo_section algorithmID or_ub mbind outcome_bind range_info lineNumber]. rewrite Hid, Z2Nat.id by done. by apply algorithm_write.
Qed.
End Registers.
