(* ===== verification/WbQdspBlock.v ===== *)
(** * Blocks of the signal processor

    Blocks go through the driver in chunks of at most twelve registers; a block that was
    written is the block that is read, for an interface of the driver that an instance
    shows can be had. *)
From S2P Require Import Prelude DevStdlib DevArrays WbString WbResult WbCommand WbDevice WbUtil WbPaths WbUtilSpec WbLayout WbCodec WbCodecLayout WbCodecText WbCodecFiles WbCodecSpec WbCodecRead WbCodecBlock WbQdsp WbQdspLayout WbQdspSections WbQdspRegs.
From stdpp Require Import sorting strings.
#[local] Open Scope Z_scope.

(** ** Words and bytes *)

Lemma word_bytes_shape v : ∃ b0 b1 b2 b3, word_bytes v = [b0; b1; b2; b3] ∧ Forall is_byte [b0; b1; b2; b3].
Proof.
  unfold word_bytes. cbn [fmap list_fmap]. do 4 eexists. split; [done|]. change 255 with (Z.ones 8).
  repeat constructor; rewrite Z.land_ones by lia; apply Z.mod_pos_bound; lia.
Qed.

Lemma length_word_bytes v : length (word_bytes v) = 4%nat.
Proof. done. Qed.

Lemma bytes_word_bytes v : word32 v → bytes_word (word_bytes v) = v.
Proof.
  intros Hv. unfold word32, bytes_word, word_bytes in *. cbn [fmap list_fmap foldr]. rewrite !low_byte by lia.
  change (2 ^ (8 * 0)) with 1. change (2 ^ (8 * 1)) with 256. change (2 ^ (8 * 2)) with 65536. change (2 ^ (8 * 3)) with 16777216.
  Z.div_mod_to_equations; lia.
Qed.

(** Bytes in fours are words. *)
Lemma bytes_are_words m : ∀ data, length data = (4 * m)%nat → Forall is_byte data →
  ∃ lw, data = concat (word_bytes <$> lw) ∧ length lw = m ∧ Forall word32 lw.
Proof.
  induction m as [|m IH]; intros data Hl Hd; [destruct data; [|done]; by exists []|].
  destruct data as [|b0 [|b1 [|b2 [|b3 data]]]]; [cbn in Hl; lia..|].
  change (b0 :: b1 :: b2 :: b3 :: data) with ([b0; b1; b2; b3] ++ data) in *. apply Forall_app in Hd as [Hb Hd].
  destruct (IH data) as (lw & -> & Hlen & Hw); [cbn in Hl; lia|done|]. exists (bytes_word [b0; b1; b2; b3] :: lw).
  rewrite text_cons, word_bytes_word by done. split; [done|]. split; [cbn; lia|]. constructor; [by apply bytes_word_range|done].
Qed.

Lemma length_words_bytes lw : length (concat (word_bytes <$> lw)) = (4 * length lw)%nat.
Proof. induction lw as [|v lw IH]; [done|]. rewrite text_cons, length_app, IH, length_word_bytes. cbn [length]. lia. Qed.

Lemma load_words_spec post lw : ∀ pre, Forall word32 lw →
  load_words (length lw) (pre ++ concat (word_bytes <$> lw) ++ post) (Z.of_nat (length pre)) = Ret lw.
Proof.
  induction lw as [|v lw IH]; intros pre Hw; [done|]. apply Forall_cons_1 in Hw as [Hv Hw]. cbn [length load_words].
  rewrite text_cons, <-app_assoc. pose proof (IH (pre ++ word_bytes v) Hw) as E. rewrite length_app, length_word_bytes, <-app_assoc in E.
  replace (Z.of_nat (length pre + 4)) with (Z.of_nat (length pre) + 4) in E by lia.
  assert (Hget : ∀ k b, 0 ≤ k → word_bytes v !! Z.to_nat k = Some b →
    arr_get (pre ++ word_bytes v ++ concat (word_bytes <$> lw) ++ post) (Z.of_nat (length pre) + k) = Ret b).
  { intros k b Hk Hb. apply arr_get_Some; [lia|]. rewrite lookup_app_r by lia.
    replace (Z.to_nat (Z.of_nat (length pre) + k) - length pre)%nat with (Z.to_nat k) by lia. by apply lookup_app_l_Some. }
  pose proof (Hget 0 _ ltac:(lia) eq_refl) as G0. rewrite Z.add_0_r in G0. rewrite G0, (Hget 1 _ ltac:(lia) eq_refl), (Hget 2 _ ltac:(lia) eq_refl), (Hget 3 _ ltac:(lia) eq_refl), E.
  cbn [mbind outcome_bind]. by rewrite <-(bytes_word_bytes v Hv) at 5.
Qed.

(** ** Chunks *)

Section Chunks.
Context {W : Type} {files : Files W} {ioctl : Ioctl W} {qdsp : QdspDriver W} {laws : QdspLaws W}.
Context (path : list Z) (algos : list (Z * Z * Z)) (Hok : algos_ok algos).
Abbreviation sections := (qdsp_sections path algos).
Abbreviation header := (qdsp_header algos).

Lemma stored_app a o vs1 vs2 w w1 w2 : stored a o vs1 w w1 → stored a (o + Z.of_nat (length vs1)) vs2 w1 w2 → stored a o (vs1 ++ vs2) w w2.
Proof.
  intros [E1 H1] [E2 H2]. split; [congruence|]. intros b x. rewrite H2, H1, length_app.
  destruct (decide (b = a)) as [->|Hb]; [|by rewrite !bool_decide_eq_false_2 by (intros []; done)].
  destruct (decide (o ≤ x < o + Z.of_nat (length vs1))) as [Hx|Hx].
  - rewrite bool_decide_eq_false_2 by lia. rewrite !bool_decide_eq_true_2 by lia. rewrite lookup_total_app_l by lia. done.
  - destruct (decide (o + Z.of_nat (length vs1) ≤ x < o + Z.of_nat (length vs1) + Z.of_nat (length vs2))) as [Hy|Hy].
    + rewrite !bool_decide_eq_true_2 by lia. rewrite lookup_total_app_r by lia. f_equal. lia.
    + by rewrite !bool_decide_eq_false_2 by lia.
Qed.

(** The section of a register of an algorithm. *)
Lemma in_algorithm p x : p ∈ place XM_INITIAL_ALGO_OFFSET algos → p.1.2 ≤ x < p.1.2 + p.2 →
  FindSection sections (XM_START_REGISTER + x) = Ret (Some (algo_section path p, range_info (XM_START_REGISTER + p.1.2) (Z.to_nat (x - p.1.2)))) ∧
  (p.1.1 =? 0) = false ∧ 0 ≤ x - p.1.2 ∧ XM_START_REGISTER + x < 2 ^ 31.
Proof.
  intros Hp Hx. pose proof Hok as (Ha & Hend & _). destruct (place_bounds _ _ _ Ha Hp) as (_ & _ & Ho & He).
  pose proof (find_algo_place _ _ _ x Ha Hp Hx) as Hf. destruct (algorithm_found algos Hok x p Hf) as (Hid & Hox & Hh).
  rewrite FindSection_qdsp by (done || unfold XM_INITIAL_ALGO_OFFSET, XM_FIRMWARE_OFFSET in *; lia).
  rewrite bool_decide_eq_false_2 by lia. rewrite Hf. split; [done|]. split; [done|]. split; [done|].
  unfold XM_LAST_REGISTER, XM_START_REGISTER in *. lia.
Qed.

Lemma block_read p x n w : p ∈ place XM_INITIAL_ALGO_OFFSET algos → p.1.2 ≤ x < p.1.2 + p.2 → 0 < n ≤ 12 →
  ∃ w', BlockReadQDSP true sections header (XM_START_REGISTER + x) n w =
    Ret (WMT_SUCCESS, ByteSwap32bit <$> (q_mem w p.1.1 <$> seqZ (x - p.1.2) n), w') ∧ same w w'.
Proof.
  intros Hp Hx Hn. destruct (in_algorithm p x Hp Hx) as (E & Hid & Ho & _). unfold BlockReadQDSP. rewrite E.
  cbn [mbind outcome_bind algo_section algorithmID or_ub range_info lineNumber]. rewrite Hid, Z2Nat.id by done. by apply algorithm_block_read.
Qed.

Lemma block_write p x vs w : p ∈ place XM_INITIAL_ALGO_OFFSET algos → p.1.2 ≤ x < p.1.2 + p.2 → Forall word32 vs → (length vs ≤ 12)%nat →
  ∃ w', BlockWriteQDSP true sections (XM_START_REGISTER + x) vs w = Ret (WMT_SUCCESS, w') ∧
    stored p.1.1 (x - p.1.2) (ByteSwap32bit <$> vs) w w'.
Proof.
  intros Hp Hx Hv Hn. destruct (in_algorithm p x Hp Hx) as (E & Hid & Ho & _). unfold BlockWriteQDSP. rewrite E.
  cbn [mbind outcome_bind algo_section algorithmID or_ub range_info lineNumber]. rewrite Hid, Z2Nat.id by done. by apply algorithm_block_write.
Qed.

Lemma swapped_bytes vs : Forall word32 vs → concat (word_bytes <$> (ByteSwap32bit <$> vs)) = concat (value_bytes 4 <$> vs).
Proof.
  induction 1 as [|v vs Hv Hvs IH]; [done|]. rewrite fmap_cons, !text_cons, IH. by rewrite word_bytes_swapped.
Qed.

Lemma swapped_twice vs : Forall word32 vs → ByteSwap32bit <$> (ByteSwap32bit <$> vs) = vs.
Proof. induction 1 as [|v vs Hv Hvs IH]; [done|]. rewrite !fmap_cons, IH. by rewrite ByteSwap32bit_involutive. Qed.

Lemma mem_words w a l : Forall word32 (q_mem w a <$> l).
Proof. apply Forall_fmap, Forall_true. intros x. apply q_word. Qed.

Lemma read_chunks_spec p : p ∈ place XM_INITIAL_ALGO_OFFSET algos → ∀ fuel m x pre junk w,
  0 ≤ m → p.1.2 ≤ x → x + m ≤ p.1.2 + p.2 → (Z.to_nat m < fuel)%nat → length junk = (4 * Z.to_nat m)%nat →
  ∃ w', read_chunks true sections header fuel (XM_START_REGISTER + x) m (pre ++ junk) (Z.of_nat (length pre)) WMT_SUCCESS w =
    Ret (WMT_SUCCESS, pre ++ (Some <$> concat (value_bytes 4 <$> (q_mem w p.1.1 <$> seqZ (x - p.1.2) m))), w') ∧ same w w'.
Proof.
  intros Hp fuel. induction fuel as [|fuel IH]; intros m x pre junk w Hm Hx Hend Hf Hj; [lia|]. cbn [read_chunks]. destruct (Z.leb_spec m 0) as [H0|H0].
  { replace m with 0 in * by lia. destruct junk; [|done]. exists w. by rewrite seqZ_nil. }
  unfold MAX_REG_PER_OPERATION. remember (Z.min m 12) as n eqn:En.
  assert (Hn : (m ≤ 12 ∧ n = m) ∨ (12 < m ∧ n = 12)) by lia. clear En.
  destruct (block_read p x n w Hp ltac:(lia) ltac:(lia)) as (w1 & -> & H1). destruct (in_algorithm p x Hp ltac:(lia)) as (_ & _ & _ & Hhigh).
  cbn [mbind outcome_bind]. unfold store_words. set (vs := q_mem w p.1.1 <$> seqZ (x - p.1.2) n).
  assert (Hlv : length vs = Z.to_nat n) by (unfold vs; by rewrite length_fmap, length_seqZ).
  assert (Hlb : length (concat (word_bytes <$> (ByteSwap32bit <$> vs))) = (4 * Z.to_nat n)%nat) by by rewrite length_words_bytes, length_fmap, Hlv.
  rewrite store_bytes_spec by (rewrite length_app; lia). cbn [mbind outcome_bind]. rewrite take_app_length, Hlb.
  rewrite drop_app_ge by lia. replace (length pre + 4 * Z.to_nat n - length pre)%nat with (4 * Z.to_nat n)%nat by lia.
  rewrite swapped_bytes in * by apply mem_words. set (bs := concat (value_bytes 4 <$> vs)) in *.
  destruct Hn as [[Hl ->] | [Hl ->]].
  - rewrite Z.sub_diag. exists w1. rewrite drop_ge by lia. rewrite app_nil_r. destruct fuel; cbn [read_chunks]; done.
  - rewrite (wrapu_small 32) by (unfold XM_START_REGISTER, XM_INITIAL_ALGO_OFFSET, XM_FIRMWARE_OFFSET in *;
      pose proof (proj1 Hok) as Ha; destruct (place_bounds _ _ _ Ha Hp) as (_ & _ & ? & _); unfold XM_INITIAL_ALGO_OFFSET, XM_FIRMWARE_OFFSET in *; lia).
    destruct (IH (m - 12) (x + 12) (pre ++ (Some <$> bs)) (drop (4 * Z.to_nat 12) junk) w1) as (w2 & E & H2); [lia..|rewrite length_drop; lia|].
    rewrite length_app, length_fmap, Hlb, <-app_assoc in E. rewrite Z.add_assoc in E.
    replace (Z.of_nat (length pre + 4 * Z.to_nat 12)) with (Z.of_nat (length pre) + 4 * 12) in E by lia. rewrite E. exists w2. split; [|by etrans].
    do 3 f_equal. rewrite <-app_assoc. f_equal. rewrite <-fmap_app. f_equal. unfold bs, vs. replace m with (12 + (m - 12)) at 2 by lia.
    rewrite seqZ_app by lia. rewrite !fmap_app, concat_app. f_equal. replace (x + 12 - p.1.2) with (x - p.1.2 + 12) by lia. do 2 f_equal.
    apply list_fmap_ext. intros i y _. apply H1.
Qed.
Lemma algorithm_above p : p ∈ place XM_INITIAL_ALGO_OFFSET algos → 0 ≤ p.1.2.
Proof.
  intros Hp. destruct (place_bounds _ _ _ (proj1 Hok) Hp) as (_ & _ & Ho & _). unfold XM_INITIAL_ALGO_OFFSET, XM_FIRMWARE_OFFSET in Ho. lia.
Qed.

Lemma write_chunks_spec p : p ∈ place XM_INITIAL_ALGO_OFFSET algos → ∀ fuel lw x pre w,
  p.1.2 ≤ x → x + Z.of_nat (length lw) ≤ p.1.2 + p.2 → (length lw < fuel)%nat → Forall word32 lw →
  ∃ w', write_chunks true sections fuel (XM_START_REGISTER + x) (Z.of_nat (length lw)) (pre ++ concat (word_bytes <$> lw)) (Z.of_nat (length pre)) WMT_SUCCESS w =
    Ret (WMT_SUCCESS, w') ∧ stored p.1.1 (x - p.1.2) (ByteSwap32bit <$> lw) w w'.
Proof.
  intros Hp fuel. induction fuel as [|fuel IH]; intros lw x pre w Hx Hend Hf Hw; [lia|]. cbn [write_chunks]. destruct (Z.leb_spec (Z.of_nat (length lw)) 0) as [H0|H0].
  { destruct lw; [|cbn in H0; lia]. exists w. split; [done|]. split; [done|]. intros b y. rewrite bool_decide_eq_false_2 by (cbn; lia). done. }
  unfold MAX_REG_PER_OPERATION. assert (Hcut : ∃ l1 l2, lw = l1 ++ l2 ∧ Z.min (Z.of_nat (length lw)) 12 = Z.of_nat (length l1) ∧
    (l2 = [] ∨ length l1 = 12%nat) ∧ (0 < length l1 ≤ 12)%nat).
  { exists (take 12 lw), (drop 12 lw). rewrite take_drop, length_take. split_and!; [done|lia| |lia|lia].
    destruct (decide (length lw ≤ 12)%nat); [left; by apply drop_ge|right; lia]. }
  destruct Hcut as (l1 & l2 & -> & -> & Hl2 & Hl1). rewrite Nat2Z.id, fmap_app, concat_app. apply Forall_app in Hw as [Hw1 Hw2].
  rewrite load_words_spec by done. cbn [mbind outcome_bind]. rewrite length_app in *.
  destruct (block_write p x l1 w Hp ltac:(lia) Hw1 ltac:(lia)) as (w1 & -> & H1). cbn [mbind outcome_bind].
  replace (Z.of_nat (length l1 + length l2) - Z.of_nat (length l1)) with (Z.of_nat (length l2)) by lia.
  destruct (in_algorithm p x Hp ltac:(lia)) as (_ & _ & _ & Hhigh). pose proof (algorithm_above p Hp). destruct Hl2 as [-> |Hl2].
  - rewrite !app_nil_r. exists w1. by destruct fuel.
  - rewrite (wrapu_small 32) by (unfold XM_START_REGISTER in *; lia).
    destruct (IH l2 (x + 12) (pre ++ concat (word_bytes <$> l1)) w1) as (w2 & E & H2); [lia..|done|].
    rewrite length_app, length_words_bytes, Hl2, <-app_assoc, Z.add_assoc in E.
    replace (Z.of_nat (length pre + 4 * 12)) with (Z.of_nat (length pre) + 4 * 12) in E by lia. rewrite Hl2. change (Z.of_nat 12) with 12. rewrite E.
    exists w2. split; [done|]. rewrite fmap_app. eapply stored_app; [exact H1|]. rewrite length_fmap, Hl2.
    change (Z.of_nat 12) with 12. by replace (x - p.1.2 + 12) with (x + 12 - p.1.2) by lia.
Qed.

(** A block is the bytes of its registers, the highest first. *)
Lemma blocks_read p x buf m w : p ∈ place XM_INITIAL_ALGO_OFFSET algos → p.1.2 ≤ x → x + Z.of_nat m ≤ p.1.2 + p.2 → length buf = (4 * m)%nat →
  ∃ w', BlockReadQDSPInChunks true sections header (XM_START_REGISTER + x) buf w =
    Ret (WMT_SUCCESS, Some <$> concat (value_bytes 4 <$> (q_mem w p.1.1 <$> seqZ (x - p.1.2) (Z.of_nat m))), w') ∧ same w w'.
Proof.
  intros Hp Hx Hend Hb. unfold BlockReadQDSPInChunks. replace (Z.of_nat (length buf) / 4) with (Z.of_nat m).
  2: { rewrite Hb. replace (Z.of_nat (4 * m)) with (Z.of_nat m * 4) by lia. by rewrite Z.div_mul. }
  apply (read_chunks_spec p Hp _ (Z.of_nat m) x [] buf w); lia.
Qed.

Lemma blocks_written p x data m w : p ∈ place XM_INITIAL_ALGO_OFFSET algos → p.1.2 ≤ x → x + Z.of_nat m ≤ p.1.2 + p.2 →
  length data = (4 * m)%nat → Forall is_byte data →
  ∃ w' vs, BlockWriteQDSPInChunks true sections (XM_START_REGISTER + x) data w = Ret (WMT_SUCCESS, w') ∧ stored p.1.1 (x - p.1.2) vs w w' ∧
    length vs = m ∧ concat (value_bytes 4 <$> vs) = data.
Proof.
  intros Hp Hx Hend Hl Hd. destruct (bytes_are_words m data Hl Hd) as (lw & -> & Hlen & Hw). unfold BlockWriteQDSPInChunks.
  rewrite Hl. replace (Z.of_nat (4 * m) / 4) with (Z.of_nat m) by (replace (Z.of_nat (4 * m)) with (Z.of_nat m * 4) by lia; by rewrite Z.div_mul).
  subst m. destruct (write_chunks_spec p Hp (S (Z.to_nat (Z.of_nat (length lw)))) lw x [] w) as (w' & E & H); [lia..|done|].
  exists w', (ByteSwap32bit <$> lw). split; [exact E|]. split; [exact H|]. split; [by rewrite length_fmap|].
  rewrite <-swapped_bytes; [|apply Forall_fmap; eapply Forall_impl; [exact Hw|]; intros v Hv; by apply ByteSwap32bit_range].
  by rewrite swapped_twice.
Qed.
End Chunks.
