(* ===== verification/WbQdspDevice.v ===== *)
(** * The signal processor as a device

    The theorems about the registers of the signal processor, from the set-up of its
    sections on, and a concrete driver. *)
From S2P Require Import Prelude DevStdlib DevArrays WbString WbResult WbCommand WbDevice WbUtil WbPaths WbUtilSpec WbLayout WbCodec WbCodecLayout WbCodecText WbCodecFiles WbCodecSpec WbCodecRead WbCodecBlock WbQdsp WbQdspLayout WbQdspSections WbQdspRegs WbQdspBlock.
From stdpp Require Import sorting strings.
#[local] Open Scope Z_scope.

(** ** A driver *)

Record processor := mkProcessor { p_algos : list (Z * Z * Z); p_mem : Z → Z → Z; p_sel : option (Z * Z * Z) }.
Definition DRIVER_FD : Z := 3.

#[export] Instance processor_files : Files processor := {
  f_open path w := (if bool_decide (path = QDSP_DRIVER_FILE) then DRIVER_FD else -1, w);
  f_lseek _ _ w := (-1, w);
  f_read _ _ w := (-1, [], w);
  f_write _ _ w := (-1, w);
  f_close _ w := w;
  f_EINTR _ := false;
  f_stream _ w := (None, w);
}.

(** The driver selects registers, and reads or writes those that are selected. *)
Definition processor_get (param : Z) (data : words) (w : processor) : Z * words * processor :=
  if param =? CRUS_PARAM_ALGORITHM_COUNT then (0, [Some (Z.of_nat (length (p_algos w)))], w)
  else if param =? CRUS_PARAM_ALGORITHM_INFO then (0, Some <$> info_of (p_algos w), w)
  else if param =? CRUS_PARAM_REGISTER_DATA then
    match p_sel w with
    | Some (a, o, n) => (0, fields_of a o n ++ (Some <$> ((λ x, wrapu 32 (p_mem w a x)) <$> seqZ o n)), w)
    | None => (-1, data, w)
    end
  else (-1, data, w).

Definition processor_set (param : Z) (data : words) (w : processor) : Z * words * processor :=
  match data with
  | _ :: Some a :: Some o :: Some n :: rest =>
      if param =? CRUS_PARAM_REGISTER_SELECT then (0, data, mkProcessor (p_algos w) (p_mem w) (Some (a, o, n)))
      else if param =? CRUS_PARAM_REGISTER_DATA then
        (0, data, mkProcessor (p_algos w)
           (λ b x, if bool_decide (b = a ∧ o ≤ x < o + n) then default 0 (mjoin (rest !! Z.to_nat (x - o))) else p_mem w b x) (p_sel w))
      else (-1, data, w)
  | _ => (-1, data, w)
  end.

#[export] Instance processor_ioctl : Ioctl processor := {
  f_ioctl fd r module param datal data w :=
    if bool_decide (fd = DRIVER_FD ∧ module = CRUS_MODULE_ID_RX) then
      match r with CRUS_GB_IOCTL_GET => processor_get param data w | CRUS_GB_IOCTL_SET => processor_set param data w end
    else (-1, data, w);
}.

#[export] Instance processor_driver : QdspDriver processor := {
  q_algos := p_algos;
  q_mem w a x := wrapu 32 (p_mem w a x);
  q_sel w fd := if bool_decide (fd = DRIVER_FD) then Some (p_sel w) else None;
}.

Lemma processor_open (w : processor) fd s : q_sel w fd = Some s → fd = DRIVER_FD ∧ s = p_sel w.
Proof. cbn. case_bool_decide; intros [= <-]; done. Qed.

#[export] Program Instance processor_laws : QdspLaws processor.
Next Obligation. intros w a x. by apply wrapu_range. Qed.
Next Obligation. intros w. exists DRIVER_FD, w. by split_and!; [..|split]. Qed.
Next Obligation. done. Qed.
Next Obligation. intros fd w [s Hs]. apply processor_open in Hs as [-> _]. by exists w. Qed.
Next Obligation. intros fd w n [s Hs] ->. apply processor_open in Hs as [-> _]. by exists w. Qed.
Next Obligation. intros fd w len a o n rest [s Hs]. apply processor_open in Hs as [-> _]. eexists. by split_and!. Qed.
Next Obligation. intros fd w a o n Hs. apply processor_open in Hs as [-> Hs]. exists w. cbn. by rewrite <-Hs. Qed.
Next Obligation.
  intros fd w len a o vs rest [s Hs] Hv. apply processor_open in Hs as [-> _]. do 2 eexists. split; [done|]. split; [done|].
  intros b x. cbn. case_bool_decide as Hx; [|done]. destruct (lookup_lt_is_Some_2 vs (Z.to_nat (x - o))) as [v E]; [lia|].
  rewrite lookup_app_l by (rewrite length_fmap; lia). rewrite list_lookup_fmap, E. cbn. rewrite (list_lookup_total_correct _ _ _ E).
  apply wrapu_small. by apply (Forall_lookup_1 _ _ _ _ Hv E).
Qed.

(** ** The registers *)

Section Properties.
Context {W : Type} {files : Files W} {ioctl : Ioctl W} {qdsp : QdspDriver W} {laws : QdspLaws W}.

(** C40. For algorithms, at most 100, whose ids and counts of words are not zero and that fit the
    memory of the signal processor ([algos_ok]), and as long as the vector of sections need
    not grow before the last of them, the set-up succeeds.  Its registers are then the words of the
    header, which list the algorithms and cannot be written, and the words of the
    algorithms in the driver's memory, of which a write changes the one it names; a
    register of neither reads as zero.  The register behind the header is looked up in the
    header all the same: reading it is undefined behaviour. *)
Theorem QDSP_registers w name sec ml capacity : strcasecmp_eq name QDSP_NAME = true → strcasecmp_eq (regPath sec) QDSP_DRIVER_FILE = true →
  layout sec = [] → algos_ok (q_algos w) → (length (q_algos w) ≤ capacity)%nat →
  ∃ w1 sections header, InitialiseQDSP true (Some name) MAX_REGISTER [sec] capacity [] ml w = Ret (WMT_SUCCESS, sections, header, ml, w1) ∧ same w w1 ∧
    ∀ x w2, 0 ≤ x → same w w2 →
      match register_at (q_algos w) x with
      | HeaderWord v => ReadQDSPRegister true sections header (XM_START_REGISTER + x) w2 = Ret (WMT_SUCCESS, Some v, w2)
      | BehindHeader => ReadQDSPRegister true sections header (XM_START_REGISTER + x) w2 = UB
      | AlgorithmWord a o =>
          ∃ w3, ReadQDSPRegister true sections header (XM_START_REGISTER + x) w2 = Ret (WMT_SUCCESS, Some (q_mem w a o), w3) ∧ same w w3
      | NoRegister => ReadQDSPRegister true sections header (XM_START_REGISTER + x) w2 = Ret (WMT_SUCCESS, Some 0, w2)
      end ∧
      ∀ v, word32 v →
        match register_at (q_algos w) x with
        | AlgorithmWord a o => ∃ w3, WriteQDSPRegister true sections (XM_START_REGISTER + x) v w2 = Ret (WMT_SUCCESS, w3) ∧ stored a o [v] w w3
        | _ => WriteQDSPRegister true sections (XM_START_REGISTER + x) v w2 = Ret (WMT_SUCCESS, w2)
        end.
Proof.
  intros Hname Hpath Hl Hok Hcap. destruct (sections_set_up w name sec ml capacity Hname Hpath Hl Hok) as (w1 & H1 & E).
  rewrite bool_decide_eq_true_2 in E by done. exists w1. do 2 eexists. split; [exact E|]. split; [exact H1|]. intros x w2 Hx H2.
  pose proof (registers_read (regPath sec) _ Hok x w2 Hx) as Hread. pose proof (λ v, registers_written (regPath sec) _ Hok x v w2 Hx) as Hwrite.
  destruct (register_at (q_algos w) x) as [v| |a o|]; [by split|by split| |by split]. split.
  - destruct Hread as (w3 & Er & H3). exists w3. rewrite Er, (proj2 H2). split; [done|by etrans].
  - intros v Hv. destruct (Hwrite v Hv) as (w3 & Ew & H3). exists w3. split; [done|]. by apply (stored_same a o [v] w w2 w3).
Qed.

(** When there are more algorithms than the vector of sections has room for, the set-up
    goes on to use the header's section after the vector has moved it, which is undefined
    behaviour: a vector that was given its one section has room for one algorithm only. *)
Theorem QDSP_sections_dangle w name sec ml capacity : strcasecmp_eq name QDSP_NAME = true → strcasecmp_eq (regPath sec) QDSP_DRIVER_FILE = true →
  layout sec = [] → algos_ok (q_algos w) → (capacity < length (q_algos w))%nat →
  InitialiseQDSP true (Some name) MAX_REGISTER [sec] capacity [] ml w = UB.
Proof.
  intros Hname Hpath Hl Hok Hcap. destruct (sections_set_up w name sec ml capacity Hname Hpath Hl Hok) as (w1 & _ & E).
  by rewrite bool_decide_eq_false_2 in E by lia.
Qed.

(** A block that lies in the registers of one algorithm is written in chunks so that
    the bytes of the registers, the highest first, are the bytes of the block; the other
    registers keep their values; and reading the block in chunks returns those bytes. *)
Theorem QDSP_block_roundtrip w path algos p x m data buf : algos_ok algos → p ∈ place XM_INITIAL_ALGO_OFFSET algos →
  p.1.2 ≤ x → x + Z.of_nat m ≤ p.1.2 + p.2 → length data = (4 * m)%nat → Forall is_byte data → length buf = (4 * m)%nat →
  ∃ w1 vs, BlockWriteQDSPInChunks true (qdsp_sections path algos) (XM_START_REGISTER + x) data w = Ret (WMT_SUCCESS, w1) ∧
    concat (value_bytes 4 <$> vs) = data ∧ stored p.1.1 (x - p.1.2) vs w w1 ∧
    ∃ w2, BlockReadQDSPInChunks true (qdsp_sections path algos) (qdsp_header algos) (XM_START_REGISTER + x) buf w1 =
      Ret (WMT_SUCCESS, Some <$> data, w2) ∧ same w1 w2.
Proof.
  intros Hok Hp Hx Hend Hl Hd Hb. destruct (blocks_written path algos Hok p x data m w Hp Hx Hend Hl Hd) as (w1 & vs & E1 & H1 & Hlen & Hvs).
  destruct (blocks_read path algos Hok p x buf m w1 Hp Hx Hend Hb) as (w2 & E2 & H2). exists w1, vs. split_and!; [done..|]. exists w2. split; [|done].
  rewrite E2. do 4 f_equal. rewrite <-Hvs. do 2 f_equal. apply list_eq. intros i. rewrite list_lookup_fmap.
  destruct (decide (i < m)%nat) as [Hi|Hi].
  - rewrite lookup_seqZ_lt by lia. cbn [fmap option_fmap option_map]. rewrite (stored_in _ _ vs w w1) by (done || lia).
    rewrite Nat2Z.id. destruct (lookup_lt_is_Some_2 vs i) as [v Ev]; [lia|]. by rewrite (list_lookup_total_correct _ _ _ Ev), Ev.
  - rewrite lookup_seqZ_ge by lia. by rewrite lookup_ge_None_2 by lia.
Qed.
End Properties.

(** ** Concretely *)

Definition two_algos : list (Z * Z * Z) := [(0x2010, 0x410000, 40); (0x2011, 0x420100, 0x110)].
Definition some_processor : processor := mkProcessor two_algos (λ a x, 100 * a + x) None.
Definition driver_section : RegisterSection := mkSection [] QDSP_DRIVER_FILE None None None.

Lemma two_algos_ok : algos_ok two_algos.
Proof. apply (bool_decide_unpack _). by vm_compute. Qed.

(** Register 5 of the first algorithm, its number in the header, and what lies behind. *)
Lemma QDSP_registers_witness :
  ∃ w1 sections header, InitialiseQDSP true (Some QDSP_NAME) MAX_REGISTER [driver_section] 2 [] 0 some_processor = Ret (WMT_SUCCESS, sections, header, 0, w1) ∧
    (∃ w3, ReadQDSPRegister true sections header (XM_START_REGISTER + 0x205) some_processor = Ret (WMT_SUCCESS, Some 820805, w3)) ∧
    ReadQDSPRegister true sections header (XM_START_REGISTER + 8) some_processor = Ret (WMT_SUCCESS, Some 0x2010, some_processor) ∧
    ReadQDSPRegister true sections header (XM_START_REGISTER + 19) some_processor = UB ∧
    ∃ w3, WriteQDSPRegister true sections (XM_START_REGISTER + 0x205) 7 some_processor = Ret (WMT_SUCCESS, w3) ∧ stored 0x2010 5 [7] some_processor w3.
Proof.
  destruct (QDSP_registers some_processor QDSP_NAME driver_section 0 2) as (w1 & sections & header & E & _ & H);
    [done|done|done|exact two_algos_ok|by apply Nat.leb_le; vm_compute|].
  exists w1, sections, header. split; [exact E|].
  destruct (H 0x205 some_processor ltac:(lia) ltac:(done)) as [(w3 & R & _) Hw]. destruct (H 8 some_processor ltac:(lia) ltac:(done)) as [R8 _].
  destruct (H 19 some_processor ltac:(lia) ltac:(done)) as [R19 _]. split; [by exists w3|]. split; [exact R8|]. split; [exact R19|].
  apply (Hw 7). by split.
Defined.

Lemma QDSP_sections_dangle_witness :
  InitialiseQDSP true (Some QDSP_NAME) MAX_REGISTER [driver_section] 1 [] 0 some_processor = UB.
Proof.
  apply QDSP_sections_dangle; [done|done|done|exact two_algos_ok|by apply Nat.ltb_lt; vm_compute].
Defined.

(** Thirteen registers, in two chunks. *)
Lemma QDSP_block_roundtrip_witness :
  ∃ w1 vs, BlockWriteQDSPInChunks true (qdsp_sections QDSP_DRIVER_FILE two_algos) (XM_START_REGISTER + 0x205) (seqZ 0 52) some_processor = Ret (WMT_SUCCESS, w1) ∧
    concat (value_bytes 4 <$> vs) = seqZ 0 52 ∧ stored 0x2010 5 vs some_processor w1 ∧
    ∃ w2, BlockReadQDSPInChunks true (qdsp_sections QDSP_DRIVER_FILE two_algos) (qdsp_header two_algos) (XM_START_REGISTER + 0x205) (replicate 52 None) w1 =
      Ret (WMT_SUCCESS, Some <$> seqZ 0 52, w2) ∧ same w1 w2.
Proof.
  apply (QDSP_block_roundtrip some_processor QDSP_DRIVER_FILE two_algos (0x2010, 0x200, 40) 0x205 13 (seqZ 0 52) (replicate 52 None));
    [exact two_algos_ok|by left|by vm_compute|by vm_compute|done| |done].
  apply (bool_decide_unpack _). by vm_compute.
Defined.
