(* ===== verification/WbStartupSpec.v ===== *)
(** * From start-up to the replies

    On a phone whose kernel shows one codec, start-up finds it under debugfs, and a client is
    served its registers. *)
From S2P Require Import Prelude DevStdlib DevArrays WbString WbResult WbCommand WbDevice WbHandler WbHandlerSpec WbSession WbServer WbServerSpec WbUtil WbPaths WbUtilSpec WbLayout WbCodec WbCodecLayout WbCodecText WbCodecFiles WbCodecSpec WbCodecRead WbQdsp WbQdspLayout WbDriver WbStartup WbDriverSpec.
From stdpp Require Import sorting strings.
#[local] Open Scope Z_scope.

(** A path of the walk that the search has no interest in. *)
Definition ignored (q : list Z * bool) : Prop :=
  q.2 = false ∨ strstr_in q.1 QDSP_DRIVER_FILE = false ∧ strstr_in q.1 (str "codec_reg") = false ∧ strstr_in q.1 (str "registers") = false.

(** A path of registers under regmap, with the directory of the device in it. *)
Definition register_path (p dir ident : list Z) : Prop :=
  p = dir ++ str "/registers" ∧ (length p < PATH_MAX)%nat ∧ strstr_in p (str "registers") = true ∧ strstr_in p (str "regmap") = true ∧
  strstr_in p QDSP_DRIVER_FILE = false ∧ strstr_in p (str "asoc") = false ∧ snd (GetPathIdentifier p PATH_MAX) = Some ident.

(** The content of a name file: the name of a chip of the family, and a newline. *)
Definition chip_name (nm : list Z) : Prop :=
  starts_with (str "cs35l41") nm = true ∧ Forall (λ c, c ≠ 0 ∧ c ≠ 10 ∧ c ≠ 13) nm ∧ (length nm < 200)%nat.

Lemma starts_with_app p s t : starts_with p s = true → starts_with p (s ++ t) = true.
Proof.
  revert s. induction p as [|a p IH]; intros [|b s]; cbn [starts_with app]; [done..|]. rewrite !andb_true_iff. intros [-> Hs]. split; [done|by apply IH].
Qed.

Section Phone.
Context {W : Type} {files : Files W} {codec : CodecFiles W} {ioctl : Ioctl W} {host : Host W} {heap : Heap}.
Abbreviation D := (driver W).

(** debugfs is mounted, the driver of the signal processor is not there, and among what is
    under regmap there is one file of registers, with a name next to it. *)
Definition phone (w : W) (mnt dir ident nm : list Z) (f : regfile) : Prop :=
  ∃ entries w1 st1 w2 st2 pre post w3 fd w4 w5 w6,
    h_entries (str "/etc/mtab") w = (Some entries, w1) ∧ debugfs_entry entries = (WMT_SUCCESS, mnt) ∧ (length mnt < PATH_MAX - 8)%nat ∧
    h_ftw QDSP_DRIVER_FILE w1 = (st1, [], w2) ∧
    h_ftw (mnt ++ str "/regmap") w2 = (st2, pre ++ (dir ++ str "/registers", true) :: post, w3) ∧ Forall ignored pre ∧ Forall ignored post ∧
    f_open (dir ++ str "/name") w3 = (fd, w4) ∧ 0 ≤ fd ∧
    f_read fd (Z.of_nat PATH_MAX) w4 = (Z.of_nat (length nm) + 1, nm ++ [10], w5) ∧
    f_read fd (Z.of_nat PATH_MAX - (Z.of_nat (length nm) + 1)) w5 = (0, [], w6) ∧
    codec_at f (mkSection [] (dir ++ str "/registers") None None None) dir (f_close fd w6).

Lemma walk_ignored l (d : D) : Forall ignored l → walk l d = Ret d.
Proof.
  induction 1 as [|[q b] l Hq Hl IH]; [done|]. cbn [walk]. assert (ftw_callback q b d = Ret d) as ->; [|exact IH].
  unfold ftw_callback. destruct Hq as [Hb|(H1 & H2 & H3)]; cbn in *; [by rewrite Hb|]. rewrite H1, H2, H3. by destruct b.
Qed.

Lemma walk_app l l' (d : D) : walk (l ++ l') d = (d' ← walk l d; walk l' d').
Proof.
  revert d. induction l as [|[q b] l IH]; intros d; [done|]. cbn [app walk]. rewrite outcome_bind_assoc.
  destruct (ftw_callback q b d); try done. apply IH.
Qed.

Lemma fuel_for_two : ∃ k, S PATH_MAX = S (S k).
Proof. exists (pred PATH_MAX). unfold PATH_MAX. lia. Qed.

(** The name of the chip. *)
Lemma registers_name_read dir ident nm fd w3 w4 w5 w6 : register_path (dir ++ str "/registers") dir ident → chip_name nm →
  f_open (dir ++ str "/name") w3 = (fd, w4) → 0 ≤ fd →
  f_read fd (Z.of_nat PATH_MAX) w4 = (Z.of_nat (length nm) + 1, nm ++ [10], w5) →
  f_read fd (Z.of_nat PATH_MAX - (Z.of_nat (length nm) + 1)) w5 = (0, [], w6) →
  registers_name (dir ++ str "/registers") w3 = Ret (Some (nm ++ [10]), f_close fd w6).
Proof.
  intros (_ & Hlen & _ & Hmap & _) (Hstart & Hnm & Hln) Hopen Hfd Hr1 Hr2. unfold registers_name. rewrite firstn_all2 by lia. rewrite Hmap. cbn [negb].
  change (dir ++ str "/registers") with (dir ++ 47 :: str "registers"). rewrite split_folder_last by by (apply (bool_decide_unpack _); vm_compute).
  change (str "registers") with (114 :: str "egisters"). cbv iota. rewrite <-app_assoc. change ([47] ++ str "name") with (str "/name"). rewrite Hopen.
  destruct (Z.ltb_spec fd 0); [lia|]. destruct fuel_for_two as [k ->]. cbn [read_name]. rewrite Hr1.
  destruct (Z.ltb_spec (Z.of_nat (length nm) + 1) 0); [lia|]. destruct (Z.eqb_spec (Z.of_nat (length nm) + 1) 0); [lia|].
  destruct (Z.ltb_spec 0 (Z.of_nat PATH_MAX - (Z.of_nat (length nm) + 1))); [|unfold PATH_MAX in *; lia]. rewrite Hr2.
  change (0 <? 0) with false. change (0 =? 0) with true. cbv iota. cbn [mbind outcome_bind app].
  destruct (nm ++ [10]) as [|c t] eqn:E; [by destruct nm|]. rewrite <-E. rewrite firstn_all2 by (rewrite length_app; cbn; unfold PATH_MAX; lia).
  rewrite c_str_id by (rewrite Forall_forall in Hnm; intros [Hin|Hin]%elem_of_app; [by destruct (Hnm 0 Hin)|by apply list_elem_of_singleton in Hin]).
  by rewrite (starts_with_app _ nm [10]).
Qed.

(** The codec that is found. *)
Definition codec_found (p nm ident : list Z) : CCodecPathPair :=
  mkCodecPath (nm ++ str "_" ++ ident) p (GetRegisterPathBytes p) (GetDSPIndexFromPath p).

Lemma codec_stored p dir nm ident : register_path p dir ident → chip_name nm → (length (nm ++ str "_" ++ ident) ≤ 255)%nat →
  StoreCodec [] (nm ++ [10]) p (Some []) (Some []) = Ret (WMT_SUCCESS, [codec_found p nm ident]).
Proof.
  intros (_ & Hlen & _ & _ & Hq & Ha & Hid) (_ & Hnm & _) Hn. unfold StoreCodec. rewrite Ha, Hq, Hid.
  assert (cut_at 10 (nm ++ [10]) = nm) as ->.
  { unfold cut_at. rewrite strchr_from_run by (intros Hin; rewrite Forall_forall in Hnm; by destruct (Hnm 10 Hin) as (_ & ? & _)). rewrite length_app. cbn [length].
    by rewrite Nat.add_sub, take_app_length. }
  assert (cut_at 13 nm = nm) as ->.
  { unfold cut_at. rewrite strchr_from_none; [done|]. eapply Forall_impl; [exact Hnm|]. by intros c (_ & _ & ?). }
  cbn [default from_option id matches existsb negb andb or_ub mbind outcome_bind app]. rewrite !firstn_all2 by (unfold PATH_MAX in *; lia). done.
Qed.
(** The search visits the one file, whatever else there is. *)
Lemma codec_searched (d : D) mnt dir ident nm w1 st1 w2 st2 pre post w3 fd w4 w5 w6 :
  m_world d = w1 → m_debugfsMountPoint d = mnt → m_codecPaths d = [] → m_excludeDevices d = [] → m_includeDevices d = [] →
  (length mnt < PATH_MAX - 8)%nat → register_path (dir ++ str "/registers") dir ident → chip_name nm → (length (nm ++ str "_" ++ ident) ≤ 255)%nat →
  h_ftw QDSP_DRIVER_FILE w1 = (st1, [], w2) →
  h_ftw (mnt ++ str "/regmap") w2 = (st2, pre ++ (dir ++ str "/registers", true) :: post, w3) → Forall ignored pre → Forall ignored post →
  f_open (dir ++ str "/name") w3 = (fd, w4) → 0 ≤ fd →
  f_read fd (Z.of_nat PATH_MAX) w4 = (Z.of_nat (length nm) + 1, nm ++ [10], w5) →
  f_read fd (Z.of_nat PATH_MAX - (Z.of_nat (length nm) + 1)) w5 = (0, [], w6) →
  SearchForCodecs d = Ret (with_codecs (with_world d (f_close fd w6)) [codec_found (dir ++ str "/registers") nm ident] (m_codecRegisters d)).
Proof.
  intros <- <- Hc Hx Hi Hmnt Hp Hnm Hn Hf1 Hf2 Hpre Hpost Hopen Hfd Hr1 Hr2. unfold SearchForCodecs, ftw. rewrite Hf1. cbn [walk mbind outcome_bind].
  cbn [with_world m_debugfsMountPoint m_world].
  rewrite (firstn_all2 (m_debugfsMountPoint _ ++ _)) by (rewrite length_app; change (length (str "/regmap")) with 7%nat; unfold PATH_MAX in *; lia).
  rewrite Hf2. rewrite walk_app, walk_ignored by done. cbn [mbind outcome_bind walk].
  unfold ftw_callback. pose proof Hp as (_ & Hlen & Hreg & Hmap & Hq & _). rewrite Hreg, Hq. cbn [negb orb]. rewrite orb_true_r. cbn [negb orb].
  cbn [with_world m_excludeDevices m_includeDevices m_world m_codecPaths]. rewrite Hx, Hi. cbn [existsb].
  rewrite (registers_name_read dir ident nm fd w3 w4 w5 w6) by done. cbn [mbind outcome_bind]. rewrite Hc.
  cbn [with_world m_excludeDevices m_includeDevices m_world m_codecPaths m_codecRegisters].
  rewrite (codec_stored _ dir nm ident) by done. cbn [mbind outcome_bind].
  rewrite walk_ignored by done. cbn [mbind outcome_bind]. destruct (st2 <? 0); done.
Qed.
Lemma started (d0 : D) mnt dir ident nm f lines : phone (m_world d0) mnt dir ident nm f → register_path (dir ++ str "/registers") dir ident → chip_name nm →
  (length (nm ++ str "_" ++ ident) ≤ 255)%nat → not_QDSP (Some (nm ++ str "_" ++ ident)) →
  ∃ d1, CDeviceCommunication_of 1 [] lines d0 = Ret d1 ∧ serves d1 f ∧ m_deviceName d1 = Some (nm ++ str "_" ++ ident).
Proof.
  intros (entries & w1 & st1 & w2 & st2 & pre & post & w3 & fd & w4 & w5 & w6 & Hent & Hdeb & Hmnt & Hf1 & Hf2 & Hpre & Hpost & Hopen & Hfd & Hr1 & Hr2 & Hc)
    Hp Hnm Hn Hq. unfold CDeviceCommunication_of, Initialise, FindCodecs. cbn [handle_args].
  unfold InitialiseCodecPaths, GetDebugFsMountPoint. cbn [with_ready with_codecs PreArgsInit m_world]. rewrite Hent, Hdeb.
  rewrite !(bool_decide_eq_true_2 (WMT_SUCCESS = WMT_SUCCESS)) by done. cbv beta iota zeta.
  rewrite (codec_searched _ mnt dir ident nm w1 st1 w2 st2 pre post w3 fd w4 w5 w6) by done.
  cbn [mbind outcome_bind with_codecs m_codecPaths InitialiseRegisterLayouts].
  set (d := with_codecs _ [codec_found _ nm ident] _). set (c := codec_found (dir ++ str "/registers") nm ident) in *.
  destruct (SetDevice_found 1 d c dir f (name c)) as (d1 & E & Hs & Hpaths & Hdef & Hname & Hl); [by split_and!|apply strcasecmp_refl|].
  rewrite E. cbn [mbind outcome_bind]. rewrite Hl. change (1 <? 1)%nat with false. cbv iota. cbn [mbind outcome_bind].
  rewrite Hpaths, Hdef. cbn [d with_codecs with_world with_mount_point with_ready PreArgsInit m_defaultCodec length Nat.eqb mbind outcome_bind].
  rewrite Hname. cbn [mbind outcome_bind]. exists d1. by split_and!.
Qed.

(** C39. From start-up to the replies: on a phone that has debugfs mounted, and under regmap,
    among anything else, one file of 32-bit registers with the name of a chip of the family
    next to it (which is not that of a signal processor, and whose name with its directory
    is at most 255 characters long), start-up finds the codec, names it after the chip and
    its directory and makes it ready without a question.  A client then connects and sends
    requests with 32-bit numbers, in any chunks, each after the reply to the one before:
    reads of any 32-bit address and writes of 32-bit values to registers that exist.  It
    receives the greeting and, byte for byte, the answers of the register file that the
    kernel shows, which holds the values written afterwards. *)
Theorem phone_is_served (d0 : D) mnt dir ident nm f lines version (qs : list (Z * WbSession.request)) css fuel :
  phone (m_world d0) mnt dir ident nm f → register_path (dir ++ str "/registers") dir ident → chip_name nm →
  (length (nm ++ str "_" ++ ident) ≤ 255)%nat → not_QDSP (Some (nm ++ str "_" ++ ident)) →
  rf_vw f = 8%nat → Forall (request_ok (regs_of f)) qs → Forall2 arrives qs css → (length (concat css) + length qs < fuel)%nat →
  ∃ d1 r id h1 h2, CDeviceCommunication_of 1 [] lines d0 = Ret d1 ∧ m_deviceName d1 = Some (nm ++ str "_" ++ ident) ∧
    GetDeviceID [] (mkHandler d1 version) = Ret (r, id, h1) ∧
    HandleConnection fuel (mkServer (mkHandler d1 version) (mkScript (concat css) [])) =
      Ret (code WMT_SOCKET_CLOSED, mkServer h2 (mkScript [] (greeting id ++ concat (answers_of qs (regs_of f)).1))) ∧
    current_regs (m_device h2) = (answers_of qs (regs_of f)).2.
Proof.
  intros Hph Hp Hnm Hn Hq Hw Hqs Hcss Hfuel. destruct (started d0 mnt dir ident nm f lines) as (d1 & E1 & Hs & Hname); [done..|].
  destruct (connection_served qs css (mkHandler d1 version) (regs_of f) fuel) as (r & id & h1 & h2 & E2 & E3 & E4);
    [by exists f|by apply serves_current|done..|]. exists d1, r, id, h1, h2. by split_and!.
Qed.
End Phone.

(** ** A concrete phone *)

#[export] Instance phone_host : Host disk := {
  h_entries f d := (if bool_decide (f = str "/etc/mtab") then Some [(str "proc", str "/proc"); (str "debugfs", str "/d")] else None, d);
  h_mount fs dir d := (-1, false, d);
  h_ftw dir d :=
    if bool_decide (dir = str "/d/regmap") then
      (0, [(str "/d/regmap", false); (str "/d/regmap/0-0040", false); (str "/d/regmap/0-0040/range", true); (str "/d/regmap/0-0040/registers", true);
           (str "/d/regmap/0-0040/name", true)], d)
    else (-1, [], d);
  h_uname d := None;
}.

Definition phone_dir : list Z := str "/d/regmap/0-0040".
Definition phone_disk : disk :=
  mkDisk (list_to_map [(phone_dir ++ str "/registers", RegFile wide_file); (phone_dir ++ str "/range", TextFile (range_text [(0, 1); (4, 4)]));
                       (phone_dir ++ str "/name", TextFile (str "cs35l41" ++ [10]))]) ∅ 3.
Definition phone_driver : driver disk :=
  mkDriver [] [] [] [] true None false [] [] 0 0 None [] phone_disk.

Lemma phone_path : register_path (phone_dir ++ str "/registers") phone_dir (str "0-0040").
Proof. split_and!; [done|by apply Nat.ltb_lt; vm_compute|by vm_compute..]. Qed.

Lemma phone_codec d : d_files d = d_files phone_disk → codec_at wide_file (mkSection [] (phone_dir ++ str "/registers") None None None) phone_dir d.
Proof.
  intros E. split_and!; [exact wide_ok|done|done|done|by apply Nat.ltb_lt; vm_compute|cbn; rewrite E; by vm_compute|left].
  exists [(0, 1); (4, 4)], 0%nat. split_and!; [cbn; rewrite E; by vm_compute|repeat constructor; by vm_compute|by vm_compute| |by vm_compute]. by exists 0.
Qed.

Definition opened (d : disk) (p : list Z) (pos : Z) : disk := mkDisk (d_files d) (<[3 := (p, pos)]> (d_fds d)) 4.
Definition phone_name : list Z := phone_dir ++ str "/name".

Lemma opened_read d p pos n : f_read 3 n (opened d p pos) =
  (Z.of_nat (length (disk_read (d_files d !! p) pos n)), disk_read (d_files d !! p) pos n,
   opened (opened d p pos) p (pos + Z.of_nat (length (disk_read (d_files d !! p) pos n)))).
Proof. cbn [f_read disk_files d_fds opened]. by rewrite lookup_insert_eq. Qed.

Lemma phone_there : phone phone_disk (str "/d") phone_dir (str "0-0040") (str "cs35l41") wide_file.
Proof.
  eexists _, phone_disk, (-1), phone_disk, 0, [(str "/d/regmap", false); (phone_dir, false); (phone_dir ++ str "/range", true)],
    [(phone_name, true)], phone_disk, 3, (opened phone_disk phone_name 0), (opened (opened phone_disk phone_name 0) phone_name 8),
    (opened (opened (opened phone_disk phone_name 0) phone_name 8) phone_name 8).
  split_and!; [done|done|by apply Nat.ltb_lt; vm_compute|done|done| |..|by apply phone_codec].
  - repeat constructor; try done; right; by vm_compute.
  - repeat constructor; right; by vm_compute.
  - done.
  - done.
  - rewrite opened_read. assert (disk_read (d_files phone_disk !! phone_name) 0 (Z.of_nat PATH_MAX) = str "cs35l41" ++ [10]) as -> by by vm_compute. done.
  - rewrite opened_read. assert (∀ n, disk_read (d_files phone_disk !! phone_name) 8 n = []) as E; [|cbn [d_files opened]; by rewrite E].
    intros n. assert (d_files phone_disk !! phone_name = Some (TextFile (str "cs35l41" ++ [10]))) as -> by by vm_compute. unfold disk_read.
    by rewrite drop_ge, take_nil by (apply Nat.leb_le; by vm_compute).
Qed.

Lemma phone_is_served_witness :
  ∃ d1 r id h1 h2, CDeviceCommunication_of 1 [] [] phone_driver = Ret d1 ∧ m_deviceName d1 = Some (str "cs35l41_0-0040") ∧
    GetDeviceID [] (mkHandler d1 DEFAULT_VERSION) = Ret (r, id, h1) ∧
    HandleConnection 12 (mkServer (mkHandler d1 DEFAULT_VERSION) (mkScript (concat wide_chunks) [])) =
      Ret (code WMT_SOCKET_CLOSED, mkServer h2 (mkScript [] (greeting id ++ str "[1] Ok" ++ [10] ++ str "[2] abc" ++ [10] ++ str "[3] Error 37" ++ [10]))) ∧
    current_regs (m_device h2) = <[1 := 0xabc]> (regs_of wide_file).
Proof.
  apply (phone_is_served phone_driver (str "/d") phone_dir (str "0-0040") (str "cs35l41") wide_file [] DEFAULT_VERSION wide_requests wide_chunks 12);
    [exact phone_there|exact phone_path| |by apply Nat.leb_le; vm_compute|by vm_compute|done| | |by apply Nat.ltb_lt; vm_compute].
  - split_and!; [done| |by apply Nat.ltb_lt; vm_compute]. repeat constructor; done.
  - repeat constructor; cbn; lia || (by eexists) || done.
  - repeat constructor; done || by vm_compute.
Defined.
