(* ===== verification/DevSettings.v ===== *)
(** * Settings of the device SDK

    Model of [src/mivifwk/odm/plugins/qcom/ldc/device/dev_settings.cpp], [dev_settings.h] and
    [settings.h], with the two functions of [dev_file.cpp] it reads the file with: a table of
    typed settings with defaults, overridden by the lines of a text file.  The file system
    and the conversion of a decimal to a double are parameters. *)
From S2P Require Import Prelude DevTypes DevStdlib WbString WbUtil.
From stdpp Require Import strings.
#[local] Open Scope Z_scope.

Definition DEV_SETTING_CHAR_BUF_MAX : nat := 256.
Definition DEV_SETTING_NAEM_MAX : nat := 64.

(** @src src/mivifwk/odm/plugins/qcom/ldc/device/dev_settings.h:20-26 DEV_SETTING_TYPE *)
Inductive DEV_SETTING_TYPE := DEV_SETTING_TYPE_BOOL | DEV_SETTING_TYPE_INT | DEV_SETTING_TYPE_FLOAT | DEV_SETTING_TYPE_CHAR.
Definition SETTINGS_FILE_SIZE_MAX : Z := 1024 * 1024 * 8.

(** [%lf]: the double at the front of a string, after white space. *)
Class Doubles (F : Type) := { scan_lf : list Z → option F }.

(** The member of the union that was written last. *)
Inductive setting_value (F : Type) := float_value (v : F) | char_value (s : list Z) | int_value (v : Z) | bool_value (v : Z).
Arguments float_value {_} _. Arguments char_value {_} _. Arguments int_value {_} _. Arguments bool_value {_} _.

(** @src src/mivifwk/odm/plugins/qcom/ldc/device/dev_settings.cpp:20-31 Dev_settingNode *)
Record Dev_settingNode (F : Type) := mkSetting { s_name : list Z; s_type : DEV_SETTING_TYPE; s_defaultFlag : Z; s_value : setting_value F }.
Arguments mkSetting {_} _ _ _ _. Arguments s_name {_} _. Arguments s_type {_} _. Arguments s_defaultFlag {_} _. Arguments s_value {_} _.

(** @src src/mivifwk/odm/plugins/qcom/ldc/device/dev_settings.cpp:35-39 m_settingsTable, m_settings_buf, init_f
    The buffer up to the last byte that was read into it; zeros follow. *)
Record settings (F : Type) := mkSettings { m_settingsTable : list (Dev_settingNode F); m_settings_buf : list Z; init_f : bool }.
Arguments mkSettings {_} _ _ _. Arguments m_settingsTable {_} _. Arguments m_settings_buf {_} _. Arguments init_f {_} _.

Section Settings.
Context {F : Type} {doubles : Doubles F} (contents : list Z → option (list Z)).

Definition SETTINGS_FILE_C1 : list Z := str "/odm/etc/camera/camxoverridesettings.txt".

(** The table, and the one default that is a double. *)
Definition setting name type value : Dev_settingNode F := mkSetting (str name) type 1 value.

(** @src src/mivifwk/odm/plugins/qcom/ldc/device/settings.h:26-38 SettingsTable *)
Definition default_table (luxIndex : F) : list (Dev_settingNode F) :=
  [setting "SDK_PROJECT_NAME" DEV_SETTING_TYPE_CHAR (char_value (str "LDC-PLUGIN"));
   setting "SDK_PROJECT_VERSION" DEV_SETTING_TYPE_CHAR (char_value (str "0.1"));
   setting "SDK_PROJECT_RELEASE" DEV_SETTING_TYPE_BOOL (bool_value 0);
   setting "SDK_PROJECT_TEST" DEV_SETTING_TYPE_INT (int_value 0x8992);
   setting "SDK_PTHREAD_SUPPORT" DEV_SETTING_TYPE_BOOL (bool_value 1);
   setting "SDK_LOG_MASK" DEV_SETTING_TYPE_INT (int_value 0xFF);
   setting "isFakeSatSupported" DEV_SETTING_TYPE_INT (int_value 0);
   setting "luxIndexThreashouldForFlicker" DEV_SETTING_TYPE_FLOAT (float_value luxIndex);
   setting "multiCameraLogicalXMLFile" DEV_SETTING_TYPE_CHAR (char_value (str "test.xml"));
   setting "HDRSupportedFlashHdr" DEV_SETTING_TYPE_BOOL (bool_value 0)].

(** ** The file *)

(** @src src/mivifwk/odm/plugins/qcom/ldc/device/dev_file.cpp:85-95 DevFile_GetSize
    Seeking in a file that was opened does not fail. *)
Definition DevFile_GetSize (name : list Z) : Z := match contents name with Some t => Z.of_nat (length t) | None => 0 end.

(** @src src/mivifwk/odm/plugins/qcom/ldc/device/dev_file.cpp:67-77 DevFile_ReadOnce
    The bytes that are read; the result is their number. *)
Definition DevFile_ReadOnce (name : list Z) (size offset : Z) : list Z :=
  match contents name with Some t => take (Z.to_nat size) (drop (Z.to_nat offset) t) | None => [] end.

(** ** Searching and scanning *)

(** The buffer as a string: it must end before the end of the array. *)
Definition settings_text (buf : list Z) : outcome (list Z) :=
  if (Z.of_nat (length buf) <? SETTINGS_FILE_SIZE_MAX) || bool_decide (0 ∈ buf) then Ret (c_str buf) else UB.

(** @src src/mivifwk/odm/plugins/qcom/ldc/device/dev_settings.cpp:65-70 DevSettings_Match (the last occurrence)
    [fuel] occurrences at most. *)
Fixpoint find_last (fuel : nat) (haveFoundTemp : option (list Z)) (tempName : list Z) (haveFound : option (list Z)) : outcome (option (list Z)) :=
  match haveFoundTemp with
  | None => Ret haveFound
  | Some s =>
      match fuel with
      | O => OutOfFuel
      | S fuel' => find_last fuel' (strstr (drop 1 s) tempName) tempName (Some s)
      end
  end.

(** @src src/mivifwk/odm/plugins/qcom/ldc/device/dev_settings.cpp:64-80 DevSettings_Match (the search) *)
Definition search_setting (text name : list Z) : outcome (option (list Z)) :=
  haveFound ← (let tempName := [10] ++ name ++ str "=" in find_last (S (length text)) (strstr text tempName) tempName None);
  match haveFound with
  | Some _ => Ret haveFound
  | None => let tempName := [10] ++ name ++ str " =" in find_last (S (length text)) (strstr text tempName) tempName None
  end.

(** The characters in front of the first that satisfies [stop], and the rest. *)
Fixpoint run_until (stop : Z → bool) (s : list Z) : list Z * list Z :=
  match s with
  | c :: s' => if stop c then ([], s) else let '(r, t) := run_until stop s' in (c :: r, t)
  | [] => ([], [])
  end.

(** [%[^=]=] into [tempName]: what follows, when it matches. *)
Definition scan_key (s : list Z) : outcome (option (list Z)) :=
  let '(key, rest) := run_until (λ c, c =? 61) s in
  if (length key =? 0)%nat then Ret None
  else if (DEV_SETTING_NAEM_MAX + 5 <=? length key)%nat then UB
  else match rest with _ :: r => Ret (Some r) | [] => Ret None end.

(** [%[^=]=%s] into [tempName] and a buffer of [DEV_SETTING_CHAR_BUF_MAX] bytes. *)
Definition scan_string (s : list Z) : outcome (option (list Z)) :=
  key ← scan_key s;
  match key with
  | None => Ret None
  | Some r =>
      match (run_until isspace (skip_space r)).1 with
      | [] => Ret None
      | value => if (DEV_SETTING_CHAR_BUF_MAX <=? length value)%nat then UB else Ret (Some value)
      end
  end.

(** [strtol] with base 16. *)
Definition LONG_MAX : Z := 2 ^ 63 - 1.
Definition strtol16 (s : list Z) : Z :=
  let s := skip_space s in
  let '(neg, s) := match s with
                   | c :: s' => if c =? 45 then (true, s') else if c =? 43 then (false, s') else (false, s)
                   | [] => (false, [])
                   end in
  let s := match s with
           | z :: x :: s' => if (z =? 48) && ((x =? 120) || (x =? 88)) then s' else s
           | _ => s
           end in
  let v := hex_digits 0 (hex_run s).1 in
  if neg : bool then Z.max (- LONG_MAX - 1) (- v) else Z.min LONG_MAX v.

Definition contains (s p : list Z) : bool := match strstr s p with Some _ => true | None => false end.

(** @src src/mivifwk/odm/plugins/qcom/ldc/device/dev_settings.cpp:86-94 DevSettings_Match (a truth value) *)
Definition truth_of (tempValueBool : list Z) : Z :=
  let tempValue := if contains tempValueBool (str "TRUE") || contains tempValueBool (str "true") || contains tempValueBool (str "1") then 1 else 0 in
  if contains tempValueBool (str "FALSE") || contains tempValueBool (str "false") || contains tempValueBool (str "0") then 0 else tempValue.

(** @src src/mivifwk/odm/plugins/qcom/ldc/device/dev_settings.cpp:62-126 DevSettings_Match (a setting) *)
Definition match_setting (text : list Z) (node : Dev_settingNode F) : outcome (Dev_settingNode F) :=
  haveFound ← search_setting text (s_name node);
  match haveFound with
  | None => Ret node
  | Some s =>
      let set v := mkSetting (s_name node) (s_type node) 0 v in
      match s_type node with
      | DEV_SETTING_TYPE_BOOL => v ← scan_string s; Ret (match v with Some v => set (bool_value (truth_of v)) | None => node end)
      | DEV_SETTING_TYPE_INT => v ← scan_string s; Ret (match v with Some v => set (int_value (s32 (strtol16 v))) | None => node end)
      | DEV_SETTING_TYPE_FLOAT =>
          key ← scan_key s; Ret (match (r ← key; scan_lf r) with Some v => set (float_value v) | None => node end)
      | DEV_SETTING_TYPE_CHAR => v ← scan_string s; Ret (match v with Some v => set (char_value v) | None => node end)
      end
  end.

Fixpoint match_settings (text : list Z) (table : list (Dev_settingNode F)) : outcome (list (Dev_settingNode F)) :=
  match table with
  | [] => Ret []
  | node :: table' => node ← match_setting text node; table' ← match_settings text table'; Ret (node :: table')
  end.

(** @src src/mivifwk/odm/plugins/qcom/ldc/device/dev_settings.cpp:57-130 DevSettings_Match *)
Definition DevSettings_Match (st : settings F) : outcome (Z * settings F) :=
  match m_settingsTable st with
  | [] => Ret (RET_ERR, st)
  | table =>
      text ← settings_text (m_settings_buf st);
      table ← match_settings text table;
      Ret (RET_OK, mkSettings table (m_settings_buf st) (init_f st))
  end.

(** ** The operations *)

(** @src src/mivifwk/odm/plugins/qcom/ldc/device/dev_settings.cpp:41-43 DevSettings_getter *)
Definition DevSettings_getter (st : settings F) : list (Dev_settingNode F) := m_settingsTable st.

(** @src src/mivifwk/odm/plugins/qcom/ldc/device/dev_settings.cpp:45-49 DevSettings_Save *)
Definition DevSettings_Save (st : settings F) : Z * settings F := (if init_f st then RET_OK else RET_ERR, st).

(** @src src/mivifwk/odm/plugins/qcom/ldc/device/dev_settings.cpp:51-55 DevSettings_Def
    Nothing is reset. *)
Definition DevSettings_Def (st : settings F) : Z * settings F := (if init_f st then RET_OK else RET_ERR, st).

(** @src src/mivifwk/odm/plugins/qcom/ldc/device/dev_settings.cpp:132-156 DevSettings_Report *)
Definition DevSettings_Report (st : settings F) : Z :=
  if negb (init_f st) then RET_ERR else match m_settingsTable st with [] => RET_ERR | _ => RET_OK end.

(** @src src/mivifwk/odm/plugins/qcom/ldc/device/dev_settings.cpp:158-167 DevSettings_Init
    A failure leaves the module initialised. *)
Definition DevSettings_Init (st : settings F) : outcome (Z * settings F) :=
  let st := mkSettings (m_settingsTable st) (m_settings_buf st) true in
  let size := DevFile_GetSize SETTINGS_FILE_C1 in
  if size <=? 0 then Ret (RET_ERR, st)
  else if SETTINGS_FILE_SIZE_MAX <? size then Ret (RET_ERR, st)
  else
    let bytes := DevFile_ReadOnce SETTINGS_FILE_C1 size 0 in
    let st := mkSettings (m_settingsTable st) (bytes ++ drop (length bytes) (m_settings_buf st)) true in
    if Z.of_nat (length bytes) <=? 0 then Ret (RET_ERR, st)
    else
      '(ret, st) ← DevSettings_Match st;
      Ret (if ret =? RET_OK then RET_OK else RET_ERR, st).

(** @src src/mivifwk/odm/plugins/qcom/ldc/device/dev_settings.cpp:169-175 DevSettings_Deinit *)
Definition DevSettings_Deinit (st : settings F) : Z * settings F := (RET_OK, mkSettings (m_settingsTable st) (m_settings_buf st) false).
End Settings.
