(* ===== verification/DevSettingsSpec.v ===== *)
(** * What the settings file sets

    The search of the settings for the text of a line is a lookup of the last line with the
    name, but for the first line, which is never seen.  The lines are those of the buffer,
    where a file is followed by what an earlier, longer file has left. *)
From S2P Require Import Prelude DevTypes DevStdlib WbString WbUtil DevSettings.
From stdpp Require Import strings.
#[local] Open Scope Z_scope.

(** ** The last occurrence of a text *)

Fixpoint last_suffix (t s : list Z) : option (list Z) :=
  match s with
  | [] => None
  | _ :: s' => match last_suffix t s' with Some x => Some x | None => if starts_with t s then Some s else None end
  end.

Lemma strstr_last t s : t ≠ [] →
  match strstr s t with
  | None => last_suffix t s = None
  | Some x => x ≠ [] ∧ (length x ≤ length s)%nat ∧
      last_suffix t s = match last_suffix t (drop 1 x) with Some y => Some y | None => Some x end
  end.
Proof.
  intros Ht. induction s as [|c s IH]; cbn [strstr]; [by destruct t|]. destruct (starts_with t (c :: s)) eqn:E.
  - split; [done|]. split; [lia|]. cbn [last_suffix drop]. by rewrite E.
  - cbn [last_suffix]. rewrite E. destruct (strstr s t) as [x|].
    + destruct IH as (Hx & Hl & ->). split; [done|]. split; [cbn; lia|]. by destruct (last_suffix t (drop 1 x)).
    + by rewrite IH.
Qed.

Lemma find_last_spec t fuel : t ≠ [] → ∀ s found, (length s < fuel)%nat →
  find_last fuel (strstr s t) t found = Ret (match last_suffix t s with Some x => Some x | None => found end).
Proof.
  intros Ht. induction fuel as [|fuel IH]; intros s found Hf; [lia|]. pose proof (strstr_last t s Ht) as H. cbn [find_last].
  destruct (strstr s t) as [x|]; [|by rewrite H]. destruct H as (Hx & Hl & ->). rewrite IH by (rewrite length_drop; destruct x; [done|]; cbn in *; lia).
  by destruct (last_suffix t (drop 1 x)).
Qed.

(** ** Lines *)

(** What follows the first line: lines with a name and a value. *)
Fixpoint lines_from (kvs : list (list Z * list Z)) : list Z :=
  10 :: match kvs with [] => [] | (k, v) :: kvs' => k ++ str "=" ++ v ++ lines_from kvs' end.

(** The value on the last line with the name, and the lines behind. *)
Fixpoint last_line (name : list Z) (kvs : list (list Z * list Z)) : option (list Z * list (list Z * list Z)) :=
  match kvs with
  | [] => None
  | (k, v) :: kvs' =>
      match last_line name kvs' with Some x => Some x | None => if bool_decide (k = name) then Some (v, kvs') else None end
  end.

Definition plain_name (k : list Z) : Prop := Forall (λ c, c ≠ 0 ∧ c ≠ 10 ∧ c ≠ 61) k.
Definition plain_value (v : list Z) : Prop := Forall (λ c, c ≠ 0 ∧ c ≠ 10) v.

Lemma last_suffix_run t c run s : Forall (λ x, x ≠ c) run → last_suffix (c :: t) (run ++ s) = last_suffix (c :: t) s.
Proof.
  induction 1 as [|x run Hx Hrun IH]; [done|]. cbn [app last_suffix]. rewrite IH. destruct (last_suffix (c :: t) s); [done|].
  cbn [starts_with]. by rewrite (proj2 (Z.eqb_neq c x)) by congruence.
Qed.

(** A line starts with a name and an equals sign when its name is that. *)
Lemma starts_with_name name k rest : plain_name name → plain_name k →
  starts_with (name ++ str "=") (k ++ str "=" ++ rest) = bool_decide (k = name).
Proof.
  intros Hn. change (str "=") with [61]. revert k. induction Hn as [|c name (_ & _ & Hc) Hn IH]; intros [|d k] Hk.
  - by rewrite bool_decide_eq_true_2.
  - apply Forall_cons_1 in Hk as [(_ & _ & Hd) _]. rewrite bool_decide_eq_false_2 by done. cbn [app starts_with]. by rewrite (proj2 (Z.eqb_neq 61 d)) by congruence.
  - rewrite bool_decide_eq_false_2 by done. cbn [app starts_with]. by rewrite (proj2 (Z.eqb_neq c 61)).
  - apply Forall_cons_1 in Hk as [_ Hk]. cbn [app starts_with]. rewrite IH by done. destruct (Z.eqb_spec c d) as [->|E].
    + cbn [andb]. apply bool_decide_ext. split; [congruence|by intros [= ->]].
    + by rewrite (bool_decide_eq_false_2 (d :: k = c :: name)) by congruence.
Qed.

Lemma last_suffix_lines name kvs : plain_name name → Forall (λ kv, plain_name kv.1 ∧ plain_value kv.2) kvs →
  last_suffix (10 :: name ++ str "=") (lines_from kvs) = (λ x, 10 :: name ++ str "=" ++ x.1 ++ lines_from x.2) <$> last_line name kvs.
Proof.
  intros Hn. induction 1 as [|[k v] kvs [Hk Hv] Hkvs IH]; cbn [lines_from].
  - cbn [last_suffix starts_with]. destruct name; done.
  - cbn [last_suffix last_line]. rewrite (app_assoc k), (app_assoc (k ++ _)), last_suffix_run, IH.
    + destruct (last_line name kvs) as [[v' kvs']|]; [done|]. cbn [fmap option_fmap option_map starts_with]. rewrite Z.eqb_refl, <-!app_assoc. cbn [andb].
      rewrite starts_with_name by done. case_bool_decide as E; [by rewrite E|done].
    + rewrite !Forall_app. split_and!; [|by repeat constructor|]; (eapply Forall_impl; [eassumption|]); cbn; tauto.
Qed.

(** ** Values *)

(** The first word of a value. *)
Definition word_of (v : list Z) : list Z := (run_until isspace (skip_space v)).1.
Definition filled (v : list Z) : Prop := skip_space v ≠ [].

Lemma skip_space_app v r : filled v → skip_space (v ++ r) = skip_space v ++ r.
Proof. unfold filled. induction v as [|c v IH]; intros Hv; [done|]. cbn [app skip_space] in *. destruct (isspace c); [by apply IH|done]. Qed.

Lemma skip_space_head v c s : skip_space v = c :: s → isspace c = false.
Proof. induction v as [|d v IH]; cbn [skip_space]; [done|]. destruct (isspace d) eqn:E; [done|]. by intros [= <- _]. Qed.

Lemma run_until_app stop w c r : stop c = true → (run_until stop (w ++ c :: r)).1 = (run_until stop w).1.
Proof.
  intros Hc. induction w as [|d w IH]; cbn [app run_until]; [by rewrite Hc|]. destruct (stop d); [done|].
  destruct (run_until stop (w ++ c :: r)) as [a b], (run_until stop w) as [a' b']. cbn in *. by rewrite IH.
Qed.

Lemma word_of_line v r : filled v → (run_until isspace (skip_space (v ++ 10 :: r))).1 = word_of v ∧ word_of v ≠ [].
Proof.
  intros Hv. rewrite skip_space_app, run_until_app by done. split; [done|]. unfold word_of, filled in *.
  destruct (skip_space v) as [|c s] eqn:E; [done|]. apply skip_space_head in E. cbn [run_until]. rewrite E. by destruct (run_until isspace s).
Qed.

Lemma run_until_stop stop w c r : Forall (λ x, stop x = false) w → stop c = true → run_until stop (w ++ c :: r) = (w, c :: r).
Proof. intros Hw Hc. induction Hw as [|x w Hx Hw IH]; cbn [app run_until]; [by rewrite Hc|]. by rewrite Hx, IH. Qed.

Lemma scan_key_line k r : plain_name k → (length k ≤ 64)%nat → scan_key (10 :: k ++ str "=" ++ r) = Ret (Some r).
Proof.
  intros Hk Hl. unfold scan_key. change (10 :: k ++ str "=" ++ r) with ((10 :: k) ++ 61 :: r).
  rewrite run_until_stop; [|constructor; [done|]; eapply Forall_impl; [exact Hk|]; intros c (_ & _ & ?); by apply Z.eqb_neq|done].
  cbn [length Nat.eqb]. unfold DEV_SETTING_NAEM_MAX. destruct (Nat.leb_spec (64 + 5) (S (length k))); [lia|done].
Qed.

Lemma lines_from_cons kvs : ∃ r, lines_from kvs = 10 :: r.
Proof. destruct kvs as [|[k v] kvs]; by eexists. Qed.

Lemma scan_string_line k v kvs : plain_name k → (length k ≤ 64)%nat → filled v →
  scan_string (10 :: k ++ str "=" ++ v ++ lines_from kvs) =
    if (DEV_SETTING_CHAR_BUF_MAX <=? length (word_of v))%nat then UB else Ret (Some (word_of v)).
Proof.
  intros Hk Hl Hv. unfold scan_string. rewrite scan_key_line by done. cbn [mbind outcome_bind]. destruct (lines_from_cons kvs) as [r ->].
  destruct (word_of_line v r Hv) as [-> Hne]. by destruct (word_of v).
Qed.

(** ** The reference *)

Class DoublesLaws (F : Type) {doubles : Doubles F} := { scan_lf_line v r : filled v → scan_lf (v ++ 10 :: r) = scan_lf v }.

Section Reference.
Context {F : Type} {doubles : Doubles F} {laws : DoublesLaws F} (contents : list Z → option (list Z)).

(** The value for a name: that of the last line with the name, else with the name and a blank. *)
Definition wanted (name : list Z) (kvs : list (list Z * list Z)) : option (list Z) :=
  match last_line name kvs with
  | Some x => Some x.1
  | None => fst <$> last_line (name ++ [32]) kvs
  end.

(** What a value makes of a setting: its first word, which must be shorter than the buffer. *)
Definition set_setting (v : list Z) (node : Dev_settingNode F) : outcome (Dev_settingNode F) :=
  let set x := mkSetting (s_name node) (s_type node) 0 x in
  let fits x := if (DEV_SETTING_CHAR_BUF_MAX <=? length (word_of v))%nat then UB else Ret (set x) in
  match s_type node with
  | DEV_SETTING_TYPE_BOOL => fits (bool_value (truth_of (word_of v)))
  | DEV_SETTING_TYPE_INT => fits (int_value (s32 (strtol16 (word_of v))))
  | DEV_SETTING_TYPE_CHAR => fits (char_value (word_of v))
  | DEV_SETTING_TYPE_FLOAT => Ret (match scan_lf v with Some x => set (float_value x) | None => node end)
  end.

Definition override (kvs : list (list Z * list Z)) (node : Dev_settingNode F) : outcome (Dev_settingNode F) :=
  match wanted (s_name node) kvs with None => Ret node | Some v => set_setting v node end.

Fixpoint overrides (kvs : list (list Z * list Z)) (table : list (Dev_settingNode F)) : outcome (list (Dev_settingNode F)) :=
  match table with
  | [] => Ret []
  | node :: table' => node ← override kvs node; table' ← overrides kvs table'; Ret (node :: table')
  end.

Definition line_ok (kv : list Z * list Z) : Prop := plain_name kv.1 ∧ plain_value kv.2 ∧ filled kv.2.
Definition name_ok (name : list Z) : Prop := plain_name name ∧ (length name < DEV_SETTING_NAEM_MAX)%nat.

Lemma last_line_elem name kvs x : last_line name kvs = Some x → (name, x.1) ∈ kvs.
Proof.
  induction kvs as [|[k v] kvs IH]; [done|]. cbn [last_line]. destruct (last_line name kvs) as [y|].
  - intros [= ->]. right. by apply IH.
  - case_bool_decide as E; [|done]. intros [= <-]. rewrite E. by left.
Qed.

Lemma search_lines first name kvs : plain_value first → name_ok name → Forall line_ok kvs →
  search_setting (first ++ lines_from kvs) name =
    Ret (match last_line name kvs with
         | Some x => Some (10 :: name ++ str "=" ++ x.1 ++ lines_from x.2)
         | None => (λ x, 10 :: (name ++ [32]) ++ str "=" ++ x.1 ++ lines_from x.2) <$> last_line (name ++ [32]) kvs
         end).
Proof.
  intros Hfirst [Hn _] Hkvs. unfold search_setting. assert (Hl : Forall (λ kv, plain_name kv.1 ∧ plain_value kv.2) kvs).
  { eapply Forall_impl; [exact Hkvs|]. unfold line_ok. tauto. }
  assert (Hfind : ∀ k, plain_name k → let t := 10 :: k ++ str "=" in
    find_last (S (length (first ++ lines_from kvs))) (strstr (first ++ lines_from kvs) t) t None =
      Ret ((λ x, 10 :: k ++ str "=" ++ x.1 ++ lines_from x.2) <$> last_line k kvs)).
  { intros k Hk t. rewrite find_last_spec by (done || lia). unfold t. rewrite last_suffix_run, last_suffix_lines by (done || (eapply Forall_impl; [exact Hfirst|]; cbn; tauto)).
    by destruct (last_line k kvs). }
  cbv zeta. change ([10] ++ name ++ str "=") with (10 :: name ++ str "="). rewrite (Hfind name Hn). cbn [mbind outcome_bind].
  destruct (last_line name kvs) as [x|]; [done|]. cbn [fmap option_fmap option_map].
  replace ([10] ++ name ++ str " =") with (10 :: (name ++ [32]) ++ str "=") by (by rewrite <-app_assoc).
  apply (Hfind (name ++ [32])). apply Forall_app. split; [done|by repeat constructor].
Qed.

Lemma match_setting_lines first node kvs : plain_value first → name_ok (s_name node) → Forall line_ok kvs →
  match_setting (first ++ lines_from kvs) node = override kvs node.
Proof.
  intros Hfirst Hn Hkvs. unfold match_setting, override, wanted. rewrite search_lines by done. cbn [mbind outcome_bind].
  assert (Hset : ∀ k v kvs', plain_name k → (length k ≤ 64)%nat → filled v →
    (let s := 10 :: k ++ str "=" ++ v ++ lines_from kvs' in
     let set x := mkSetting (s_name node) (s_type node) 0 x in
     match s_type node with
     | DEV_SETTING_TYPE_BOOL => v ← scan_string s; Ret (match v with Some v => set (bool_value (truth_of v)) | None => node end)
     | DEV_SETTING_TYPE_INT => v ← scan_string s; Ret (match v with Some v => set (int_value (s32 (strtol16 v))) | None => node end)
     | DEV_SETTING_TYPE_FLOAT => key ← scan_key s; Ret (match (r ← key; scan_lf r) with Some v => set (float_value v) | None => node end)
     | DEV_SETTING_TYPE_CHAR => v ← scan_string s; Ret (match v with Some v => set (char_value v) | None => node end)
     end) = set_setting v node).
  { intros k v kvs' Hk Hl Hv. unfold set_setting. cbv zeta. rewrite scan_string_line, scan_key_line by done. cbn [mbind outcome_bind option_bind].
    destruct (lines_from_cons kvs') as [r ->]. rewrite scan_lf_line by done. by destruct (s_type node), (DEV_SETTING_CHAR_BUF_MAX <=? length (word_of v))%nat. }
  destruct Hn as [Hn Hlen]. unfold DEV_SETTING_NAEM_MAX in Hlen. rewrite Forall_forall in Hkvs.
  destruct (last_line (s_name node) kvs) as [x|] eqn:E.
  - apply last_line_elem, Hkvs in E as (_ & _ & Hv). apply Hset; [done|lia|done].
  - destruct (last_line (s_name node ++ [32]) kvs) as [x|] eqn:E2; [|done]. apply last_line_elem, Hkvs in E2 as (Hk & _ & Hv).
    cbn [fmap option_fmap option_map]. apply Hset; [done|rewrite length_app; cbn; lia|done].
Qed.
Lemma match_settings_lines first kvs table : plain_value first → Forall (λ node, name_ok (s_name node)) table → Forall line_ok kvs →
  match_settings (first ++ lines_from kvs) table = overrides kvs table.
Proof.
  intros Hfirst Hn Hkvs. induction Hn as [|node table Hnode Hn IH]; [done|]. cbn [match_settings overrides]. by rewrite match_setting_lines, IH by done.
Qed.

(** The buffer when a file has been read: it is never cleared. *)
Definition buffer_after (bytes buf : list Z) : list Z := bytes ++ drop (length bytes) buf.

(** C32. [Init], whatever the state of the module, for a file that is not empty and fits the
    buffer.  The text that is searched is the buffer up to its first zero byte: the file,
    and behind it what earlier files have left there.  When this text consists of lines
    with a name, an equals sign and a value that is not blank, behind a first line of any
    characters, then every setting takes the first word of the value on the last line with
    its name, or else on the last line with its name and a blank, read by the type of the
    setting, and stays as it is when there is neither; the first line is never looked at.
    A word of 256 or more characters is written past the end of its buffer, but for a
    setting that is a double, which needs none. *)
Theorem DevSettings_Init_lines (st : settings F) bytes first kvs : contents SETTINGS_FILE_C1 = Some bytes →
  0 < Z.of_nat (length bytes) ≤ SETTINGS_FILE_SIZE_MAX →
  settings_text (buffer_after bytes (m_settings_buf st)) = Ret (first ++ lines_from kvs) →
  plain_value first → Forall line_ok kvs →
  m_settingsTable st ≠ [] → Forall (λ node, name_ok (s_name node)) (m_settingsTable st) →
  DevSettings_Init contents st =
    (table ← overrides kvs (m_settingsTable st); Ret (RET_OK, mkSettings table (buffer_after bytes (m_settings_buf st)) true)).
Proof.
  intros Hc Hsize Htext Hfirst Hkvs Hne Hn. unfold DevSettings_Init, DevFile_GetSize, DevFile_ReadOnce. rewrite Hc. cbn [m_settingsTable m_settings_buf].
  destruct (Z.leb_spec (Z.of_nat (length bytes)) 0); [lia|].
  destruct (Z.ltb_spec SETTINGS_FILE_SIZE_MAX (Z.of_nat (length bytes))); [lia|]. rewrite Nat2Z.id, drop_0, firstn_all.
  destruct (Z.leb_spec (Z.of_nat (length bytes)) 0); [lia|]. unfold DevSettings_Match. cbn [m_settingsTable m_settings_buf init_f].
  fold (buffer_after bytes (m_settings_buf st)). rewrite Htext.
  destruct (m_settingsTable st) as [|node table]; [done|]. cbn [mbind outcome_bind].
  rewrite match_settings_lines by done. destruct (overrides kvs (node :: table)); done.
Qed.
End Reference.

(** ** Concretely *)

(** A double as its text. *)
Definition is_decimal (c : Z) : bool := IsDigit c || (c =? 46).
#[export] Instance text_doubles : Doubles (list Z) := {
  scan_lf s := match (run_until (λ c, negb (is_decimal c)) (skip_space s)).1 with [] => None | d => Some d end;
}.
#[export] Instance text_doubles_laws : DoublesLaws (list Z).
Proof. split. intros v r Hv. unfold scan_lf, text_doubles. by rewrite skip_space_app, run_until_app by done. Qed.

Definition fresh_settings : settings (list Z) := mkSettings (default_table (str "93.2")) [] false.

Definition some_lines : list (list Z * list Z) :=
  [(str "SDK_LOG_MASK", str "1"); (str "SDK_LOG_MASK", str "0x1F"); (str "isFakeSatSupported ", str " 2"); (str "SDK_PROJECT_RELEASE", str "TRUE yes");
   (str "luxIndexThreashouldForFlicker", str "12.5"); (str "SDK_PROJECT_VERSION", str "2 or 3"); (str "unknown", str "5")].

Definition after_lines : list (Dev_settingNode (list Z)) :=
  let set name type v := mkSetting (str name) type 0 v in
  [setting "SDK_PROJECT_NAME" DEV_SETTING_TYPE_CHAR (char_value (str "LDC-PLUGIN")); set "SDK_PROJECT_VERSION"%string DEV_SETTING_TYPE_CHAR (char_value (str "2"));
   set "SDK_PROJECT_RELEASE"%string DEV_SETTING_TYPE_BOOL (bool_value 1); setting "SDK_PROJECT_TEST" DEV_SETTING_TYPE_INT (int_value 0x8992);
   setting "SDK_PTHREAD_SUPPORT" DEV_SETTING_TYPE_BOOL (bool_value 1); set "SDK_LOG_MASK"%string DEV_SETTING_TYPE_INT (int_value 31);
   set "isFakeSatSupported"%string DEV_SETTING_TYPE_INT (int_value 2); set "luxIndexThreashouldForFlicker"%string DEV_SETTING_TYPE_FLOAT (float_value (str "12.5"));
   setting "multiCameraLogicalXMLFile" DEV_SETTING_TYPE_CHAR (char_value (str "test.xml")); setting "HDRSupportedFlashHdr" DEV_SETTING_TYPE_BOOL (bool_value 0)].

(** The name on the first line is not seen, nor are more words than one. *)
Example Init_fresh :
  DevSettings_Init (λ _, Some (str "SDK_PROJECT_NAME=X" ++ lines_from some_lines)) fresh_settings =
    Ret (RET_OK, mkSettings after_lines (str "SDK_PROJECT_NAME=X" ++ lines_from some_lines) true).
Proof. by vm_compute. Qed.

(** A second file, shorter than the first one: it sets the mask to 2, and the line of the
    first file that is left behind it in the buffer sets it to 1F again. *)
Definition old_lines : list (list Z * list Z) := [(str "SDK_LOG_MASK", str "1"); (str "SDK_LOG_MASK", str "1F")].
Definition new_lines : list (list Z * list Z) := [(str "SDK_LOG_MASK", str "2")].
Definition old_settings : settings (list Z) := mkSettings (default_table (str "93.2")) (str "x" ++ lines_from old_lines) false.

Lemma DevSettings_Init_lines_witness : ∃ st,
  DevSettings_Init (λ _, Some (str "x" ++ lines_from new_lines)) old_settings = Ret (RET_OK, st) ∧
  s_value <$> m_settingsTable st !! 5%nat = Some (int_value 31).
Proof.
  eexists. split.
  - etrans; [apply (DevSettings_Init_lines (λ _, Some (str "x" ++ lines_from new_lines)) old_settings
      (str "x" ++ lines_from new_lines) (str "x") (new_lines ++ drop 1 old_lines))|by vm_compute].
    + done.
    + by vm_compute.
    + by vm_compute.
    + apply (bool_decide_unpack _). by vm_compute.
    + repeat (apply Forall_cons; split; [split_and!; [apply (bool_decide_unpack _); by vm_compute..|by vm_compute]|]). constructor.
    + done.
    + repeat (apply Forall_cons; split; [split; [apply (bool_decide_unpack _); by vm_compute|by apply Nat.ltb_lt; vm_compute]|]). constructor.
  - by vm_compute.
Defined.

(** A blank value: the first word of the next line is taken. *)
Lemma blank_takes_next_line :
  match_setting (str "x" ++ [10] ++ str "SDK_PROJECT_NAME=" ++ [10] ++ str "SDK_LOG_MASK=10") (setting (F := list Z) "SDK_PROJECT_NAME" DEV_SETTING_TYPE_CHAR (char_value [])) =
    Ret (mkSetting (str "SDK_PROJECT_NAME") DEV_SETTING_TYPE_CHAR 0 (char_value (str "SDK_LOG_MASK=10"))).
Proof. by vm_compute. Qed.

(** Integers are hexadecimal with or without a prefix, and a zero anywhere means false. *)
Lemma numbers_as_read : strtol16 (str "16") = 22 ∧ truth_of (str "10") = 0 ∧ truth_of (str "21") = 1.
Proof. by vm_compute. Qed.
