(* ===== verification/CamLinks.v ===== *)
(** * Camera pipelines: links, nodes and the maps they are kept in

    The data of [src/mivifwk/mialgoengine/MiaJsonUtils.h] and
    [MiaPipelinePruner.h]: the nodes and links of a post-processing pipeline, the
    ports to disable and the paths through a bypassed node; the ordered maps of the
    C++ library they are kept in; and the reading of camera metadata
    ([src/mivifwk/common/metautils/VendorMetadataParser.cpp]). *)
From Stdlib Require Import ZArith Lia String Ascii OrderedTypeEx.
From stdpp Require Import base list strings pretty sorting.
From S2P Require Import Prelude.

(** ** Ordered maps

    A [std::map] that the code iterates over is the list of its entries in
    ascending order of the keys; [std::string] compares by unsigned characters. *)
Class KeyOrder (K : Type) := key_compare : K → K → comparison.
Class KeyOrderEq (K : Type) `{KeyOrder K} :=
  key_compare_eq : ∀ a b : K, key_compare a b = Eq ↔ a = b.

Class KeyOrderLaws (K : Type) `{KeyOrder K} := {
  key_compare_opp : ∀ a b : K, key_compare a b = CompOpp (key_compare b a);
  key_compare_trans : ∀ a b c : K, key_compare a b = Lt → key_compare b c = Lt → key_compare a c = Lt;
}.

#[export] Instance string_key : KeyOrder string := String.compare.
#[export] Instance Z_key : KeyOrder Z := Z.compare.

#[export] Instance string_key_eq : KeyOrderEq string.
Proof.
  intros a b. split; [apply String.compare_eq_iff|].
  intros ->. unfold key_compare, string_key. induction b as [|c b IH]; [done|].
  simpl. unfold Ascii.compare. by rewrite N.compare_refl.
Qed.
#[export] Instance string_key_laws : KeyOrderLaws string.
Proof.
  split; [apply String_as_OT.cmp_antisym|]. intros a b c Hab Hbc.
  apply String_as_OT.cmp_lt in Hab, Hbc. apply String_as_OT.cmp_lt. by eapply String_as_OT.lt_trans.
Qed.
#[export] Instance Z_key_eq : KeyOrderEq Z.
Proof. intros a b. apply Z.compare_eq_iff. Qed.

Section ordered_map.
Context {K V : Type} `{KeyOrder K}.
Implicit Types m : list (K * V).

(** [find]: the value of a key. *)
Fixpoint om_find (m : list (K * V)) (k : K) : option V :=
  match m with
  | [] => None
  | (k', v) :: m => if key_compare k' k is Eq then Some v else om_find m k
  end.

(** [m[k] = v]: replaces the value of the key, or adds the key in its place. *)
Fixpoint om_set (m : list (K * V)) (k : K) (v : V) : list (K * V) :=
  match m with
  | [] => [(k, v)]
  | (k', v') :: m' =>
      match key_compare k k' with
      | Eq => (k, v) :: m'
      | Lt => (k, v) :: m
      | Gt => (k', v') :: om_set m' k v
      end
  end.

(** [m.insert({k, v})]: an existing value stays. *)
Definition om_insert m (k : K) (v : V) : list (K * V) :=
  match om_find m k with Some _ => m | None => om_set m k v end.

(** [f(m[k])]: operator [[]] adds a missing key with the value [d]. *)
Definition om_update (d : V) (f : V → V) m (k : K) : list (K * V) :=
  om_set m k (f (default d (om_find m k))).

Context `{!KeyOrderEq K}.

Lemma om_find_cons k' v m k :
  om_find ((k', v) :: m) k = if key_compare k' k is Eq then Some v else om_find m k.
Proof. done. Qed.

Lemma om_find_set_eq m k v : om_find (om_set m k v) k = Some v.
Proof.
  assert (E : key_compare k k = Eq) by by apply key_compare_eq.
  induction m as [|[k' v'] m IH]; simpl; [by rewrite E|].
  destruct (key_compare k k') eqn:Ek; simpl; rewrite ?E; [done..|].
  destruct (key_compare k' k) eqn:Ek'; [|done..].
  apply key_compare_eq in Ek' as ->. congruence.
Qed.

Lemma om_find_set_ne m k k' v : k ≠ k' → om_find (om_set m k v) k' = om_find m k'.
Proof.
  intros Hk. assert (E : key_compare k k' ≠ Eq) by by rewrite key_compare_eq.
  induction m as [|[j w] m IH]; simpl; [by destruct (key_compare k k')|].
  destruct (key_compare k j) eqn:Ej; simpl.
  - apply key_compare_eq in Ej as <-. by destruct (key_compare k k').
  - by destruct (key_compare k k').
  - by rewrite IH.
Qed.

Lemma om_find_elem m k v : om_find m k = Some v → (k, v) ∈ m.
Proof.
  induction m as [|[k' v'] m IH]; simpl; [done|].
  destruct (key_compare k' k) eqn:E; [|set_solver..].
  apply key_compare_eq in E as ->. intros [= ->]. by left.
Qed.

Lemma om_set_elem m k v x : x ∈ om_set m k v → x = (k, v) ∨ x ∈ m.
Proof.
  induction m as [|[j w] m IH]; simpl; [by intros ->%list_elem_of_singleton; left|].
  destruct (key_compare k j); rewrite !elem_of_cons; tauto.
Qed.

(** The entries are in ascending order. *)
Definition om_sorted m : Prop := StronglySorted (λ a b, key_compare a.1 b.1 = Lt) m.

Lemma om_set_sorted_keys `{!KeyOrderLaws K} m k v : om_sorted m → om_sorted (om_set m k v).
Proof.
  induction 1 as [|[j w] m Hm IH Hj]; simpl; [repeat constructor|].
  destruct (key_compare k j) eqn:E.
  - apply key_compare_eq in E as ->. by constructor.
  - constructor; [by constructor|]. constructor; [done|].
    eapply Forall_impl; [exact Hj|]. intros x Hx. by eapply key_compare_trans.
  - constructor; [done|]. apply Forall_forall. intros x [->|Hx]%om_set_elem.
    + simpl. by rewrite key_compare_opp, E.
    + rewrite Forall_forall in Hj. by apply Hj.
Qed.

Lemma om_sorted_NoDup m : om_sorted m → NoDup (fst <$> m).
Proof.
  induction 1 as [|[j w] m Hm IH Hj]; simpl; constructor; [|done].
  intros ([j' w'] & -> & Hin)%list_elem_of_fmap. rewrite Forall_forall in Hj.
  specialize (Hj _ Hin). simpl in Hj. assert (key_compare j' j' = Eq) by by apply key_compare_eq.
  congruence.
Qed.
End ordered_map.

(** ** Pipelines *)

(** @src src/mivifwk/mialgoengine/MiaJsonUtils.h:8-8 LinkType *)
Inductive LinkType := SourceLink | InternalLink | SinkLink.
#[export] Instance LinkType_eq_dec : EqDecision LinkType.
Proof. solve_decision. Defined.

(** @src src/mivifwk/mialgoengine/MiaJsonUtils.h:10-10 OutputType *)
Inductive OutputType := OneBuffer | FollowInput | Custom.

(** @src src/mivifwk/mialgoengine/MiaJsonUtils.h:12-27 NodeItem *)
Record NodeItem := {
  nodeName : string;
  nodeInstance : string;
  nodeMask : Z;
  outputBufferNeedCheck : bool;
  isEnable : bool;
  outputType : OutputType;
}.

(** @src src/mivifwk/mialgoengine/MiaJsonUtils.h:29-38 LinkItem *)
Record LinkItem := {
  srcNodePortId : Z;
  srcNodeInstance : string;
  srcPortFormat : Z;
  dstNodePortId : Z;
  dstNodeInstance : string;
  dstPortFormat : list Z;
  type : LinkType;
}.

(** @src src/mivifwk/mialgoengine/MiaJsonUtils.h:40-45 PipelineInfo *)
Record PipelineInfo := {
  pipelineName : string;
  nodes : list (string * NodeItem);
  links : list LinkItem;
}.

(** @src src/mivifwk/common/pluginutils/include/MiaPluginUtils.h:60-60 CAM_FORMAT_UNDEFINED *)
Definition CAM_FORMAT_UNDEFINED : Z := 0.

(** Assignments to single members. *)
Definition with_links (p : PipelineInfo) (l : list LinkItem) : PipelineInfo :=
  {| pipelineName := pipelineName p; nodes := nodes p; links := l |}.
Definition with_nodes (p : PipelineInfo) (n : list (string * NodeItem)) : PipelineInfo :=
  {| pipelineName := pipelineName p; nodes := n; links := links p |}.
Definition with_enable (n : NodeItem) (b : bool) : NodeItem :=
  {| nodeName := nodeName n; nodeInstance := nodeInstance n; nodeMask := nodeMask n;
     outputBufferNeedCheck := outputBufferNeedCheck n; isEnable := b;
     outputType := outputType n |}.
Definition with_mask (n : NodeItem) (m : Z) : NodeItem :=
  {| nodeName := nodeName n; nodeInstance := nodeInstance n; nodeMask := m;
     outputBufferNeedCheck := outputBufferNeedCheck n; isEnable := isEnable n;
     outputType := outputType n |}.
Definition with_type (l : LinkItem) (t : LinkType) : LinkItem :=
  {| srcNodePortId := srcNodePortId l; srcNodeInstance := srcNodeInstance l;
     srcPortFormat := srcPortFormat l; dstNodePortId := dstNodePortId l;
     dstNodeInstance := dstNodeInstance l; dstPortFormat := dstPortFormat l; type := t |}.
Definition with_dst (l : LinkItem) (port : Z) (instance : string) : LinkItem :=
  {| srcNodePortId := srcNodePortId l; srcNodeInstance := srcNodeInstance l;
     srcPortFormat := srcPortFormat l; dstNodePortId := port;
     dstNodeInstance := instance; dstPortFormat := dstPortFormat l; type := type l |}.
Definition with_dstFormat (l : LinkItem) (f : list Z) : LinkItem :=
  {| srcNodePortId := srcNodePortId l; srcNodeInstance := srcNodeInstance l;
     srcPortFormat := srcPortFormat l; dstNodePortId := dstNodePortId l;
     dstNodeInstance := dstNodeInstance l; dstPortFormat := f; type := type l |}.

(** ** Ports and paths *)

(** @src src/mivifwk/mialgoengine/MiaPipelinePruner.h:43-43 portType *)
Inductive portType := INPUT | OUTPUT.
#[export] Instance portType_eq_dec : EqDecision portType.
Proof. solve_decision. Defined.

(** @src src/mivifwk/mialgoengine/MiaPipelinePruner.h:44-47 disablePort *)
Record disablePort := { portId : Z; ptype : portType }.

(** @src src/mivifwk/mialgoengine/MiaPipelinePruner.h:48-53 disablePort::operator<

    The weight that orders the ports of a set: two ports of the same weight are
    the same element. *)
Definition port_weight (p : disablePort) : Z :=
  (match ptype p with INPUT => 0 | OUTPUT => 1 end) * 100 + portId p.

(** [std::set<disablePort>::insert]. *)
Fixpoint port_insert (p : disablePort) (s : list disablePort) : list disablePort :=
  match s with
  | [] => [p]
  | q :: s' =>
      match port_weight p ?= port_weight q with
      | Lt => p :: s
      | Eq => s
      | Gt => q :: port_insert p s'
      end
  end.

(** [std::to_string] of an [int]. *)
Definition to_string (z : Z) : string := pretty z.

(** @src src/mivifwk/mialgoengine/MiaPipelinePruner.h:54-54 disablePort::toString *)
Definition port_toString (p : disablePort) : string :=
  String.append (to_string (portId p)) (to_string (match ptype p with INPUT => 0 | OUTPUT => 1 end)).

(** @src src/mivifwk/mialgoengine/MiaPipelinePruner.h:57-65 throughPath *)
Record throughPath := { inputPortId : Z; outputPortId : Z }.

(** @src src/mivifwk/mialgoengine/MiaPipelinePruner.h:61-64 throughPath::toString *)
Definition path_toString (p : throughPath) : string :=
  String.append (to_string (inputPortId p)) (to_string (outputPortId p)).

(** ** Names *)

(** [s.find(sub) != npos], and [strstr(s, sub)] for strings without NUL. *)
Definition contains (sub s : string) : bool :=
  match String.index 0 sub s with Some _ => true | None => false end.

Definition is_source (instance : string) : bool := contains "SourceBuffer" instance.
Definition is_sink (instance : string) : bool := contains "SinkBuffer" instance.

(** ** Metadata

    The metadata of a request, from libcamera_metadata: for each tag the bytes behind
    the address the library returns, if it has an entry. *)
Record Meta := {
  vtag : string → option (list Z);
  tag : Z → option (list Z);
}.

(** @src src/mivifwk/common/metautils/VendorMetadataParser.cpp:43-67 getTagValue

    [data] is left as it was when there is no metadata or no entry. *)
Definition getTagValue (mdata : option Meta) (tagId : Z) (data : option (list Z)) : option (list Z) :=
  match mdata with
  | None => data
  | Some m => match tag m tagId with None => data | Some d => Some d end
  end.

(** @src src/mivifwk/common/metautils/VendorMetadataParser.cpp:96-113 getVTagValue *)
Definition getVTagValue (mdata : option Meta) (tagName : string) (data : option (list Z)) :
    option (list Z) :=
  match mdata with
  | None => data
  | Some m => match vtag m tagName with None => data | Some d => Some d end
  end.

(** [*static_cast<uint8_t *>(data)] and [*static_cast<int32_t *>(data)]. *)
Definition read_u8 (data : list Z) : outcome Z := or_ub (data !! 0%nat).
Definition read_i32 (data : list Z) : outcome Z :=
  match data with
  | a :: b :: c :: d :: _ => Ret (s32 (a + 256 * b + 65536 * c + 16777216 * d))
  | _ => UB
  end.

(** The value of a tag, [0] when it has no entry. *)
Definition u8_or_0 (data : option (list Z)) : outcome Z :=
  match data with None => Ret 0 | Some d => read_u8 d end.
Definition i32_or_0 (data : option (list Z)) : outcome Z :=
  match data with None => Ret 0 | Some d => read_i32 d end.

(** A branch on an integer. *)
Definition truthy (z : Z) : bool := negb (z =? 0).
