(* ===== verification/CamPortPrune.v ===== *)
(** * Camera pipelines: disabling ports

    [PipelinePruner::pipelinePortPrune] of
    [src/mivifwk/mialgoengine/MiaPipelinePruner.cpp] deletes the links of disabled
    ports, and with the last output link of a node the links that feed it (with the
    last input link, for a disabled output port, the links it feeds).  The links are
    addressed by their index; a queue holds the links still to delete. *)
From Stdlib Require Import ZArith Lia String.
From stdpp Require Import base list strings gmap sorting.
From S2P Require Import Prelude CamLinks.

(** Instances and the indices of their links. *)
Abbreviation LinkMap := (gmap string (list nat)).

Definition at_node (m : LinkMap) (n : string) : list nat := default [] (m !! n).

(** ** The code *)

(** [m[instance].push_back(index)] *)
Definition push_index (m : LinkMap) (instance : string) (index : nat) : LinkMap :=
  <[instance := at_node m instance ++ [index]]> m.

(** @src src/mivifwk/mialgoengine/MiaPipelinePruner.cpp:410-420 pipelinePortPrune: inputLinkMap, outputLinkMap *)
Fixpoint index_links (index : nat) (links : list LinkItem) (inputLinkMap outputLinkMap : LinkMap) :
    LinkMap * LinkMap :=
  match links with
  | [] => (inputLinkMap, outputLinkMap)
  | link :: links =>
      index_links (S index) links
        (push_index inputLinkMap (dstNodeInstance link) index)
        (push_index outputLinkMap (srcNodeInstance link) index)
  end.

(** @src src/mivifwk/mialgoengine/MiaPipelinePruner.cpp:434-441 pipelinePortPrune: linkIndex *)
Fixpoint find_port (port : LinkItem → Z) (links : list LinkItem) (portId : Z) (indices : list nat) :
    outcome (option nat) :=
  match indices with
  | [] => Ret None
  | index :: indices =>
      link ← or_ub (links !! index);
      if port link =? portId then Ret (Some index) else find_port port links portId indices
  end.

(** [v.erase(std::find(v.begin(), v.end(), index))]: erasing [end()] is undefined. *)
Fixpoint erase_index (index : nat) (v : list nat) : outcome (list nat) :=
  match v with
  | [] => UB
  | i :: v => if decide (i = index) then Ret v else v' ← erase_index index v; Ret (i :: v')
  end.

(** @src src/mivifwk/mialgoengine/MiaPipelinePruner.cpp:447-465 pipelinePortPrune: runQueue

    [parent link] is the node that loses [link] in [erased]; when it was the last one
    there, the links of the node in [pushed] are deleted too. *)
Fixpoint run_queue (fuel : nat) (parent : LinkItem → string) (links : list LinkItem)
    (runQueue : list nat) (linkFlag : list bool) (erased pushed : LinkMap) :
    outcome (list bool * LinkMap * LinkMap) :=
  match runQueue with
  | [] => Ret (linkFlag, erased, pushed)
  | linkIndex :: runQueue =>
      match fuel with
      | O => OutOfFuel
      | S fuel =>
          link ← or_ub (links !! linkIndex);
          let linkFlag := <[linkIndex := false]> linkFlag in
          let parentNode := parent link in
          remaining ← erase_index linkIndex (at_node erased parentNode);
          let erased := <[parentNode := remaining]> erased in
          match remaining with
          | [] =>
              let others := at_node pushed parentNode in
              run_queue fuel parent links (runQueue ++ others) linkFlag erased
                (<[parentNode := others]> pushed)
          | _ => run_queue fuel parent links runQueue linkFlag erased pushed
          end
      end
  end.

(** The flags of the links, [inputLinkMap] and [outputLinkMap]. *)
Definition PortState : Type := list bool * LinkMap * LinkMap.

(** @src src/mivifwk/mialgoengine/MiaPipelinePruner.cpp:427-465 pipelinePortPrune: INPUT *)
Definition disable_input (links : list LinkItem) (nodeInstance : string) (portId : Z)
    (st : PortState) : outcome PortState :=
  let '(linkFlag, inputLinkMap, outputLinkMap) := st in
  match inputLinkMap !! nodeInstance with
  | None => Ret st
  | Some inputLinks =>
      linkIndex ← find_port dstNodePortId links portId inputLinks;
      match linkIndex with
      | None => Ret st
      | Some linkIndex =>
          r ← run_queue (S (length links)) srcNodeInstance links [linkIndex]
                linkFlag outputLinkMap inputLinkMap;
          let '(linkFlag, outputLinkMap, inputLinkMap) := r in
          Ret (linkFlag, inputLinkMap, outputLinkMap)
      end
  end.

(** @src src/mivifwk/mialgoengine/MiaPipelinePruner.cpp:466-505 pipelinePortPrune: OUTPUT *)
Definition disable_output (links : list LinkItem) (nodeInstance : string) (portId : Z)
    (st : PortState) : outcome PortState :=
  let '(linkFlag, inputLinkMap, outputLinkMap) := st in
  match outputLinkMap !! nodeInstance with
  | None => Ret st
  | Some outputLinks =>
      linkIndex ← find_port srcNodePortId links portId outputLinks;
      match linkIndex with
      | None => Ret st
      | Some linkIndex =>
          run_queue (S (length links)) dstNodeInstance links [linkIndex]
            linkFlag inputLinkMap outputLinkMap
      end
  end.

(** One port of one node. *)
Definition disable_port (links : list LinkItem) (st : PortState) (port : string * disablePort) :
    outcome PortState :=
  match ptype port.2 with
  | INPUT => disable_input links port.1 (portId port.2) st
  | OUTPUT => disable_output links port.1 (portId port.2) st
  end.

(** The ports in the order of the loops: by node, then by weight. *)
Definition all_ports (disablePorts : list (string * list disablePort)) : list (string * disablePort) :=
  disablePorts ≫= (λ '(n, ports), pair n <$> ports).

Fixpoint disable_all (links : list LinkItem) (ports : list (string * disablePort)) (st : PortState) :
    outcome PortState :=
  match ports with
  | [] => Ret st
  | port :: ports => st ← disable_port links st port; disable_all links ports st
  end.

(** @src src/mivifwk/mialgoengine/MiaPipelinePruner.cpp:509-514 pipelinePortPrune: result *)
Fixpoint kept_links (linkFlag : list bool) (links : list LinkItem) : list LinkItem :=
  match linkFlag, links with
  | flag :: linkFlag, link :: links =>
      if flag then link :: kept_links linkFlag links else kept_links linkFlag links
  | _, _ => []
  end.

(** @src src/mivifwk/mialgoengine/MiaPipelinePruner.cpp:401-516 PipelinePruner::pipelinePortPrune *)
Definition pipelinePortPrune (disablePorts : list (string * list disablePort))
    (pipeline : PipelineInfo) : outcome PipelineInfo :=
  match disablePorts with
  | [] => Ret pipeline
  | _ =>
      let links := links pipeline in
      let '(inputLinkMap, outputLinkMap) := index_links 0 links ∅ ∅ in
      st ← disable_all links (all_ports disablePorts)
             (replicate (length links) true, inputLinkMap, outputLinkMap);
      let '(linkFlag, _, _) := st in
      Ret (with_links pipeline (kept_links linkFlag links))
  end.

(** ** What it computes

    [parent t] is the node that loses a link when ports of type [t] are disabled,
    [side t] the node whose port it is at, [port t] the port there. *)
Definition parent (t : portType) : LinkItem → string :=
  match t with INPUT => srcNodeInstance | OUTPUT => dstNodeInstance end.
Definition side (t : portType) : LinkItem → string :=
  match t with INPUT => dstNodeInstance | OUTPUT => srcNodeInstance end.
Definition port (t : portType) : LinkItem → Z :=
  match t with INPUT => dstNodePortId | OUTPUT => srcNodePortId end.

(** The indices of the links with [f link = n]. *)
Definition links_at (f : LinkItem → string) (links : list LinkItem) (n : string) : list nat :=
  filter (λ i, f <$> links !! i = Some n) (seq 0 (length links)).

(** The link a port stands for: the first one at the port. *)
Definition port_link (t : portType) (links : list LinkItem) (n : string) (p : Z) (i : nat) : Prop :=
  ∃ link, links !! i = Some link ∧ side t link = n ∧ port t link = p ∧
    ∀ j link', (j < i)%nat → links !! j = Some link' → side t link' = n → port t link' ≠ p.

Definition starts (t : portType) (links : list LinkItem) (ports : list (string * disablePort))
    (i : nat) : Prop :=
  ∃ n p, (n, p) ∈ ports ∧ port_link t links n (portId p) i.

(** The links that go: those of the disabled ports, and those of a node all of whose
    links on the other side go. *)
Inductive removed (t : portType) (links : list LinkItem) (ports : list (string * disablePort)) :
    nat → Prop :=
  | removed_start i : starts t links ports i → removed t links ports i
  | removed_dry i link :
      links !! i = Some link →
      links_at (parent t) links (side t link) ≠ [] →
      (∀ j, j ∈ links_at (parent t) links (side t link) → removed t links ports j) →
      removed t links ports i.

(** All links of [n] on the other side go. *)
Definition dry (t : portType) (links : list LinkItem) (ports : list (string * disablePort))
    (n : string) : Prop :=
  links_at (parent t) links n ≠ [] ∧
  ∀ j, j ∈ links_at (parent t) links n → removed t links ports j.

(** No node with a disabled port loses all its links on the other side. *)
Definition ports_safe (t : portType) (links : list LinkItem) (ports : list (string * disablePort)) :
    Prop :=
  ∀ i link, starts t links ports i → links !! i = Some link → ¬ dry t links ports (side t link).

(** ** Indices *)

Lemma filter_ext_elem {A} (P Q : A → Prop) `{!∀ x, Decision (P x), !∀ x, Decision (Q x)} (l : list A) :
  (∀ x, x ∈ l → P x ↔ Q x) → filter P l = filter Q l.
Proof.
  induction l as [|x l IH]; intros HPQ; [done|].
  rewrite !filter_cons, IH by (intros y Hy; apply HPQ; by right).
  destruct (HPQ x) as [H1 H2]; [by left|].
  destruct (decide (P x)) as [?|?], (decide (Q x)) as [?|?]; (done || tauto).
Qed.

Section links_at.
Context (f : LinkItem → string).

Lemma elem_of_links_at links n i :
  i ∈ links_at f links n ↔ ∃ link, links !! i = Some link ∧ f link = n.
Proof.
  unfold links_at. rewrite list_elem_of_filter, elem_of_seq. split.
  - intros [Hf _]. destruct (links !! i) as [link|]; [|done]. naive_solver.
  - intros (link & Hl & <-). rewrite Hl. apply lookup_lt_Some in Hl. split; [done|lia].
Qed.

Lemma NoDup_links_at links n : NoDup (links_at f links n).
Proof. apply NoDup_filter, NoDup_seq. Qed.

Lemma links_at_disjoint links n n' i :
  i ∈ links_at f links n → i ∈ links_at f links n' → n = n'.
Proof. rewrite !elem_of_links_at. intros (?&?&?) (?&?&?). congruence. Qed.

Lemma links_at_snoc links link n :
  links_at f (links ++ [link]) n =
  links_at f links n ++ (if decide (f link = n) then [length links] else []).
Proof.
  unfold links_at. rewrite length_app. simpl. rewrite seq_app, filter_app. f_equal.
  - apply filter_ext_elem. intros i [_ Hi]%elem_of_seq. by rewrite lookup_app_l by lia.
  - simpl. rewrite filter_cons, filter_nil, lookup_app_r, Nat.sub_diag by lia. simpl.
    repeat case_decide; congruence.
Qed.
End links_at.

Lemma at_node_insert (m : LinkMap) a v n :
  at_node (<[a := v]> m) n = if decide (a = n) then v else at_node m n.
Proof.
  unfold at_node. case_decide as E; [subst; by rewrite lookup_insert_eq|].
  by rewrite lookup_insert_ne.
Qed.

Lemma at_node_push m a n i :
  at_node (push_index m a i) n = at_node m n ++ (if decide (a = n) then [i] else []).
Proof.
  unfold push_index. rewrite at_node_insert.
  case_decide; [by subst|by rewrite app_nil_r].
Qed.

Lemma index_links_snoc k links link im om :
  index_links k (links ++ [link]) im om =
  let '(im, om) := index_links k links im om in
  (push_index im (dstNodeInstance link) (k + length links),
   push_index om (srcNodeInstance link) (k + length links)).
Proof.
  revert k im om. induction links as [|l links IH]; intros k im om; simpl.
  - by rewrite Nat.add_0_r.
  - rewrite IH. destruct (index_links _ _ _ _). by rewrite Nat.add_succ_r.
Qed.

Lemma index_links_spec links im om :
  index_links 0 links ∅ ∅ = (im, om) →
  (∀ n, at_node im n = links_at dstNodeInstance links n) ∧
  (∀ n, at_node om n = links_at srcNodeInstance links n).
Proof.
  revert im om. induction links as [|link links IH] using rev_ind; intros im om.
  - intros [= <- <-]. split; intros n; unfold at_node; by rewrite lookup_empty.
  - rewrite index_links_snoc. destruct (index_links 0 links ∅ ∅) as [im' om'].
    destruct (IH _ _ eq_refl) as [Hi Ho]. intros [= <- <-].
    split; intros n; by rewrite at_node_push, links_at_snoc, ?Hi, ?Ho.
Qed.

Lemma erase_index_absent i v : i ∉ v → erase_index i v = UB.
Proof.
  induction v as [|j v IH]; [done|]. intros [Hj Hv]%not_elem_of_cons.
  simpl. rewrite decide_False by done. by rewrite IH.
Qed.

Lemma erase_index_filter i R v :
  NoDup v → i ∈ v → i ∉ R →
  erase_index i (filter (.∉ R) v) = Ret (filter (.∉ R ++ [i]) v).
Proof.
  intros Hnd. induction Hnd as [|j v Hj Hnd IH]; [by intros []%elem_of_nil|].
  intros Hi HR. rewrite !filter_cons.
  destruct (decide (i = j)) as [->|Hne].
  - rewrite decide_True by done. rewrite (decide_False (P := j ∉ R ++ [j])) by set_solver.
    simpl. rewrite decide_True by done. f_equal.
    apply filter_ext_elem. intros x Hx. set_solver.
  - assert (i ∈ v) as Hv by set_solver.
    destruct (decide (j ∈ R)) as [HjR|HjR].
    + rewrite !decide_False by set_solver. by apply IH.
    + rewrite !decide_True by set_solver. simpl. rewrite decide_False by done.
      by rewrite IH.
Qed.

(** The first index at a port. *)
Lemma find_port_spec t links n p l :
  (∀ i, i ∈ l → ∃ link, links !! i = Some link ∧ side t link = n) →
  StronglySorted lt l →
  ∃ r, find_port (port t) links p l = Ret r ∧
  match r with
  | None => ∀ i link, i ∈ l → links !! i = Some link → port t link ≠ p
  | Some i => i ∈ l ∧ (∃ link, links !! i = Some link ∧ port t link = p) ∧
      ∀ j link, (j < i)%nat → j ∈ l → links !! j = Some link → port t link ≠ p
  end.
Proof.
  intros Hl Hs. induction Hs as [|i l Hs IH Hi]; [by eexists; split; [done|set_solver]|].
  destruct (Hl i) as (link & Elink & Eside); [by left|].
  cbn [find_port]. rewrite Elink. cbn. destruct (port t link =? p) eqn:E; to_prop.
  - eexists; split; [done|]. split_and!; [by left|eauto|].
    intros j link' Hj [->|Hjl]%elem_of_cons _; [lia|].
    rewrite Forall_forall in Hi. specialize (Hi j Hjl). lia.
  - destruct IH as (r & -> & Hr); [intros j Hj; apply Hl; by right|].
    exists r. split; [done|]. destruct r as [i'|].
    + destruct Hr as (Hin & Hp & Hleast). split_and!; [by right|done|].
      intros j link' Hj [->|Hjl]%elem_of_cons Ej; [congruence|eauto].
    + intros j link' [->|Hjl]%elem_of_cons Ej; [congruence|eauto].
Qed.

Lemma filter_seq_sorted (P : nat → Prop) `{!∀ x, Decision (P x)} m k :
  StronglySorted lt (filter P (seq m k)).
Proof.
  revert m. induction k as [|k IH]; intros m; [constructor|].
  cbn [seq]. rewrite filter_cons. case_decide; [|done].
  constructor; [done|]. apply Forall_forall.
  intros x [_ Hx]%list_elem_of_filter. apply elem_of_seq in Hx. lia.
Qed.

Lemma links_at_sorted f links n : StronglySorted lt (links_at f links n).
Proof. apply filter_seq_sorted. Qed.

Lemma find_port_links_at t links n p :
  ∃ r, find_port (port t) links p (links_at (side t) links n) = Ret r ∧
  match r with
  | None => ∀ i, ¬ port_link t links n p i
  | Some i => port_link t links n p i
  end.
Proof.
  destruct (find_port_spec t links n p (links_at (side t) links n)) as (r & -> & Hr).
  { intros i Hi. by apply elem_of_links_at. }
  { apply links_at_sorted. }
  exists r. split; [done|]. destruct r as [i|].
  - destruct Hr as (Hi & (link & Elink & Ep) & Hleast).
    apply elem_of_links_at in Hi as (link' & ? & Es). simplify_eq.
    exists link'. split_and!; [done..|]. intros j link Hj Ej Es.
    eapply Hleast; [done| |done]. apply elem_of_links_at. eauto.
  - intros i (link & Elink & Es & Ep & _). eapply Hr; [|done|done].
    apply elem_of_links_at. eauto.
Qed.

(** A port with a link has a first one. *)
Lemma port_link_exists t links j link :
  links !! j = Some link → ∃ i, port_link t links (side t link) (port t link) i.
Proof.
  intros Hl. set (n := side t link).
  destruct (find_port_spec t links n (port t link) (links_at (side t) links n)) as (r & Hr & Hspec).
  { intros i Hi. by apply elem_of_links_at. }
  { apply links_at_sorted. }
  destruct (find_port_links_at t links n (port t link)) as (r' & Hr' & Hspec').
  rewrite Hr in Hr'. injection Hr' as <-. destruct r as [i|]; [eauto|].
  destruct (Hspec j link); [|done..]. apply elem_of_links_at. eauto.
Qed.

(** ** The queue

    [R] are the links deleted so far, in order, and [Q] those in the queue; [S] are the
    links of the ports, and [D] the nodes that have lost all their links on the other
    side.  Every node in [D] has had its links queued once. *)
Section queue.
Context (t : portType) (links : list LinkItem) (ports : list (string * disablePort)).
Local Abbreviation outs := (links_at (parent t) links).
Local Abbreviation ins := (links_at (side t) links).

Record port_inv (S R Q : list nat) (D : list string) (linkFlag : list bool)
    (erased pushed : LinkMap) : Prop := {
  pi_perm : R ++ Q ≡ₚ S ++ (D ≫= ins);
  pi_nodup : NoDup R;
  pi_closed : ∀ i, i ∈ R ++ Q → removed t links ports i ∧ (i < length links)%nat;
  pi_nodes : NoDup D;
  pi_dry : ∀ n, n ∈ D ↔ outs n ≠ [] ∧ ∀ i, i ∈ outs n → i ∈ R;
  pi_erased : ∀ n, at_node erased n = filter (.∉ R) (outs n);
  pi_pushed : ∀ n, at_node pushed n = ins n;
  pi_length : length linkFlag = length links;
  pi_flag : ∀ i b, linkFlag !! i = Some b → b = bool_decide (i ∉ R);
}.

Lemma port_inv_size S R Q D fl er pu : port_inv S R Q D fl er pu → (length R ≤ length links)%nat.
Proof.
  intros I. rewrite <-(length_seq (length links) 0).
  apply submseteq_length, NoDup_submseteq; [apply (pi_nodup _ _ _ _ _ _ _ I)|].
  intros i Hi. apply elem_of_seq. split; [lia|].
  apply (pi_closed _ _ _ _ _ _ _ I). set_solver.
Qed.

(** Links of distinct nodes are distinct. *)
Lemma NoDup_bind_ins D : NoDup D → NoDup (D ≫= ins).
Proof.
  induction 1 as [|n D Hn HD IH]; [constructor|]. cbn. apply NoDup_app. split_and!.
  - apply NoDup_links_at.
  - intros i Hi (n' & Hi' & Hn')%list_elem_of_bind.
    by rewrite (links_at_disjoint _ _ _ _ _ Hi Hi') in Hn.
  - done.
Qed.

(** A link that comes twice is the link of a port of a node in [D]. *)
Lemma port_inv_twice S R Q D fl er pu :
  NoDup S → port_inv S R Q D fl er pu → ¬ NoDup (R ++ Q) →
  ∃ i link, i ∈ S ∧ links !! i = Some link ∧ side t link ∈ D.
Proof.
  intros HS I Htwice. destruct (decide (Exists (λ i, i ∈ D ≫= ins) S)) as [He|He].
  - apply Exists_exists in He as (i & Hi & (n & Hin & Hn)%list_elem_of_bind).
    apply elem_of_links_at in Hin as (link & Hl & <-). eauto.
  - destruct Htwice. rewrite (pi_perm _ _ _ _ _ _ _ I). apply NoDup_app. split_and!.
    + done.
    + intros i Hi Hin. apply He, Exists_exists. eauto.
    + apply NoDup_bind_ins, (pi_nodes _ _ _ _ _ _ _ I).
Qed.

Lemma port_inv_node_dry S R Q D fl er pu n :
  port_inv S R Q D fl er pu → n ∈ D → dry t links ports n.
Proof.
  intros I [Hne Hall]%(pi_dry _ _ _ _ _ _ _ I). split; [done|].
  intros j Hj. apply (pi_closed _ _ _ _ _ _ _ I). apply elem_of_app. left. by apply Hall.
Qed.

(** The parts of the invariant that follow a deletion whatever is queued next. *)
Lemma port_inv_erase S R l Q D fl er pu link :
  port_inv S R (l :: Q) D fl er pu → links !! l = Some link → l ∉ R →
  let n := parent t link in
  let remaining := filter (.∉ R ++ [l]) (outs n) in
  erase_index l (at_node er n) = Ret remaining ∧
  NoDup (R ++ [l]) ∧
  (∀ n', at_node (<[n := remaining]> er) n' = filter (.∉ R ++ [l]) (outs n')) ∧
  length (<[l := false]> fl) = length links ∧
  (∀ i b, <[l := false]> fl !! i = Some b → b = bool_decide (i ∉ R ++ [l])) ∧
  (∀ n', n' ≠ n → (∀ i, i ∈ outs n' → i ∈ R ++ [l]) ↔ (∀ i, i ∈ outs n' → i ∈ R)).
Proof.
  intros I Hl HlR n remaining.
  assert (l ∈ outs n) as Hout by (apply elem_of_links_at; eauto).
  assert (∀ n' i, n' ≠ n → i ∈ outs n' → i ≠ l) as Hother.
  { intros n' i Hne Hi ->. apply Hne, (links_at_disjoint _ _ _ _ _ Hi Hout). }
  split_and!.
  - rewrite (pi_erased _ _ _ _ _ _ _ I). apply erase_index_filter; [apply NoDup_links_at|done..].
  - apply NoDup_app. split_and!; [apply (pi_nodup _ _ _ _ _ _ _ I)|set_solver|apply NoDup_singleton].
  - intros n'. rewrite at_node_insert. case_decide as E; [by subst|].
    rewrite (pi_erased _ _ _ _ _ _ _ I). apply filter_ext_elem.
    intros i Hi. specialize (Hother n' i ltac:(done) Hi). set_solver.
  - rewrite length_insert. apply (pi_length _ _ _ _ _ _ _ I).
  - intros i b. destruct (decide (i = l)) as [->|Hne].
    + rewrite list_lookup_insert_Some. intros [(_ & <- & _)|[? _]]; [|done].
      symmetry. apply bool_decide_eq_false. set_solver.
    + rewrite list_lookup_insert_ne by done. intros Hb.
      rewrite (pi_flag _ _ _ _ _ _ _ I i b Hb). apply bool_decide_ext. set_solver.
  - intros n' Hne. split; intros Hall i Hi; specialize (Hall i Hi); [|set_solver].
    specialize (Hother n' i Hne Hi). set_solver.
Qed.

(** One round of the loop, for a link that was not deleted before: another link of its
    parent remains, or the parent is new in [D]. *)
Lemma port_inv_stay S R l Q D fl er pu link :
  port_inv S R (l :: Q) D fl er pu → links !! l = Some link → l ∉ R →
  let n := parent t link in
  let remaining := filter (.∉ R ++ [l]) (outs n) in
  remaining ≠ [] →
  port_inv S (R ++ [l]) Q D (<[l := false]> fl) (<[n := remaining]> er) pu.
Proof.
  intros I Hl HlR n remaining Hne.
  destruct (port_inv_erase S R l Q D fl er pu link I Hl HlR) as (_ & HRl & Her & Hlen & Hfl & Hoth).
  split; [| |intros i Hi; apply (pi_closed _ _ _ _ _ _ _ I); set_solver|
          apply (pi_nodes _ _ _ _ _ _ _ I)| |done|apply (pi_pushed _ _ _ _ _ _ _ I)|done..].
  - rewrite <-(pi_perm _ _ _ _ _ _ _ I). by rewrite <-app_assoc.
  - done.
  - intros n'. rewrite (pi_dry _ _ _ _ _ _ _ I). destruct (decide (n' = n)) as [->|Hn]; [|by rewrite Hoth].
    split; intros [Ho Hall]; exfalso.
    + apply HlR, Hall, elem_of_links_at. eauto.
    + apply Hne, elem_of_nil_inv. intros i [? Hi]%list_elem_of_filter. by apply Hall in Hi.
Qed.

Lemma port_inv_last S R l Q D fl er pu link :
  port_inv S R (l :: Q) D fl er pu → links !! l = Some link → l ∉ R →
  let n := parent t link in
  filter (.∉ R ++ [l]) (outs n) = [] →
  port_inv S (R ++ [l]) (Q ++ at_node pu n) (n :: D) (<[l := false]> fl)
    (<[n := []]> er) (<[n := at_node pu n]> pu).
Proof.
  intros I Hl HlR n Hnil.
  destruct (port_inv_erase S R l Q D fl er pu link I Hl HlR) as (_ & HRl & Her & Hlen & Hfl & Hoth).
  fold n in Her, Hoth. rewrite Hnil in Her.
  assert (l ∈ outs n) as Hout by (apply elem_of_links_at; eauto).
  assert (∀ i, i ∈ outs n → i ∈ R ++ [l]) as Hall.
  { intros i Hi. destruct (decide (i ∈ R ++ [l])) as [|Hni]; [done|].
    assert (i ∈ filter (.∉ R ++ [l]) (outs n)) as Hf by (by apply list_elem_of_filter).
    rewrite Hnil in Hf. by apply elem_of_nil in Hf. }
  assert (∀ i, i ∈ R ++ [l] → removed t links ports i) as Hrem.
  { intros i Hi. apply (pi_closed _ _ _ _ _ _ _ I). set_solver. }
  split; [|done| | | |done| |done..].
  - rewrite (pi_pushed _ _ _ _ _ _ _ I). cbn [mbind list_bind].
    transitivity ((R ++ l :: Q) ++ ins n); [by rewrite <-!app_assoc|].
    rewrite (pi_perm _ _ _ _ _ _ _ I). rewrite <-app_assoc. f_equiv. apply Permutation_app_comm.
  - intros i. rewrite (pi_pushed _ _ _ _ _ _ _ I).
    intros [Hi|[Hi|Hi]%elem_of_app]%elem_of_app;
      [apply (pi_closed _ _ _ _ _ _ _ I); set_solver..|].
    apply elem_of_links_at in Hi as (link' & Hl' & Hside).
    split; [|by eapply lookup_lt_Some]. eapply removed_dry; [done|rewrite Hside..].
    + intros E. rewrite E in Hout. by apply elem_of_nil in Hout.
    + intros j Hj. by apply Hrem, Hall.
  - constructor; [|apply (pi_nodes _ _ _ _ _ _ _ I)].
    intros [_ Hin]%(pi_dry _ _ _ _ _ _ _ I). by apply HlR, Hin.
  - intros n'. rewrite elem_of_cons, (pi_dry _ _ _ _ _ _ _ I).
    destruct (decide (n' = n)) as [->|Hn]; [|rewrite Hoth by done; tauto].
    split; [|by left]. intros _. split; [|done]. intros E. rewrite E in Hout. by apply elem_of_nil in Hout.
  - intros n'. rewrite at_node_insert. case_decide; subst; apply (pi_pushed _ _ _ _ _ _ _ I).
Qed.

(** The loop empties the queue, or comes to a link it has deleted before. *)
Lemma run_queue_spec fuel S R Q D fl er pu :
  port_inv S R Q D fl er pu → (length links < fuel + length R)%nat →
  (∃ fl' er' pu' R' D', run_queue fuel (parent t) links Q fl er pu = Ret (fl', er', pu') ∧
     port_inv S R' [] D' fl' er' pu') ∨
  (run_queue fuel (parent t) links Q fl er pu = UB ∧
   ∃ fl' er' pu' R' Q' D', port_inv S R' Q' D' fl' er' pu' ∧ ¬ NoDup (R' ++ Q')).
Proof.
  revert R Q D fl er pu. induction fuel as [|fuel IH]; intros R Q D fl er pu I Hfuel.
  { apply port_inv_size in I. lia. }
  destruct Q as [|l Q]; [left; naive_solver|]. cbn [run_queue].
  destruct (pi_closed _ _ _ _ _ _ _ I l) as [_ Hlt]; [set_solver|].
  destruct (lookup_lt_is_Some_2 links l Hlt) as [link Hl]. rewrite Hl.
  change (or_ub (Some link)) with (Ret link). rewrite outcome_bind_ret_l.
  destruct (decide (l ∈ R)) as [HlR|HlR].
  { right. rewrite (pi_erased _ _ _ _ _ _ _ I), erase_index_absent by (intros [? _]%list_elem_of_filter; done).
    split; [done|]. exists fl, er, pu, R, (l :: Q), D. split; [done|].
    intros [_ [Hd _]]%NoDup_app. apply (Hd l HlR). by left. }
  destruct (port_inv_erase S R l Q D fl er pu link I Hl HlR) as (-> & _).
  rewrite outcome_bind_ret_l.
  assert (length links < fuel + length (R ++ [l]))%nat as Hfuel'
    by (rewrite length_app; simpl; lia).
  destruct (filter (.∉ R ++ [l]) (outs (parent t link))) as [|x xs] eqn:Hf.
  - apply (IH (R ++ [l]) _ (parent t link :: D)); [|done]. by apply port_inv_last.
  - apply (IH (R ++ [l]) _ D); [|done]. rewrite <-Hf. apply port_inv_stay; [done..|by rewrite Hf].
Qed.

(** ** The ports *)

(** [inputLinkMap] and [outputLinkMap] in the roles they have for ports of type [t]. *)
Definition port_state (fl : list bool) (er pu : LinkMap) : PortState :=
  match t with INPUT => (fl, pu, er) | OUTPUT => (fl, er, pu) end.

Lemma disable_port_run fl er pu n p :
  ptype p = t → (∀ n, at_node pu n = ins n) →
  ∃ r, find_port (port t) links (portId p) (ins n) = Ret r ∧
  disable_port links (port_state fl er pu) (n, p) =
  match r with
  | None => Ret (port_state fl er pu)
  | Some i =>
      '(fl, er, pu) ← run_queue (S (length links)) (parent t) links [i] fl er pu;
      Ret (port_state fl er pu)
  end.
Proof.
  intros Hp Hpu. destruct (find_port_links_at t links n (portId p)) as (r & Hr & _).
  exists r. split; [done|]. rewrite <-(Hpu n) in Hr. unfold at_node in Hr.
  unfold disable_port, port_state. cbn [fst snd]. rewrite Hp.
  destruct t; cbn [port side parent] in *.
  - unfold disable_input. destruct (pu !! n) as [l|]; cbn in Hr; unfold id in Hr.
    + rewrite Hr, outcome_bind_ret_l. destruct r; [|done].
      by destruct (run_queue _ _ _ _ _ _ _) as [[[??]?]| | | |].
    + by injection Hr as <-.
  - unfold disable_output. destruct (pu !! n) as [l|]; cbn in Hr; unfold id in Hr.
    + rewrite Hr, outcome_bind_ret_l. destruct r; [|done].
      by destruct (run_queue _ _ _ _ _ _ _) as [[[??]?]| | | |].
    + by injection Hr as <-.
Qed.

(** The invariant between two ports, after the ports [done] whose links are [S]. *)
Definition ports_inv (done : list (string * disablePort)) (S R : list nat) (st : PortState) : Prop :=
  NoDup S ∧ (∀ i, i ∈ S ↔ starts t links done i) ∧
  ∃ D fl er pu, st = port_state fl er pu ∧ port_inv S R [] D fl er pu.

(** A link was queued twice. *)
Definition queued_twice : Prop :=
  ∃ S R Q D fl er pu, NoDup S ∧ (∀ i, i ∈ S → starts t links ports i) ∧
    port_inv S R Q D fl er pu ∧ ¬ NoDup (R ++ Q).

Lemma starts_snoc done n p i :
  starts t links (done ++ [(n, p)]) i ↔ starts t links done i ∨ port_link t links n (portId p) i.
Proof.
  unfold starts. split.
  - intros (n' & p' & [Hd| [= -> ->]%list_elem_of_singleton]%elem_of_app & Hi); eauto 6.
  - intros [(n' & p' & Hd & Hi)|Hi]; [exists n', p'|exists n, p]; (split; [|done]);
      apply elem_of_app; [by left|right; by apply list_elem_of_singleton].
Qed.

Lemma port_link_unique n n' p p' i :
  port_link t links n p i → port_link t links n' p' i → n = n' ∧ p = p'.
Proof. intros (l & ? & ? & ? & _) (l' & ? & ? & ? & _). naive_solver congruence. Qed.

(** The links of different ports are different. *)
Lemma starts_new done n p i :
  NoDup ((λ q : string * disablePort, (q.1, portId q.2)) <$> done ++ [(n, p)]) →
  port_link t links n (portId p) i → ¬ starts t links done i.
Proof.
  rewrite fmap_app, NoDup_app. intros (_ & Hd & _) Hi (n' & p' & Hin & Hi').
  destruct (port_link_unique _ _ _ _ _ Hi Hi') as [-> Hpp].
  apply (Hd (n', portId p')); [|rewrite <-Hpp; by left].
  apply list_elem_of_fmap. by exists (n', p').
Qed.

Lemma port_inv_start S R D fl er pu i :
  port_inv S R [] D fl er pu → removed t links ports i → (i < length links)%nat →
  port_inv (S ++ [i]) R [i] D fl er pu.
Proof.
  intros I Hi Hlt. destruct I as [Ip ? Ic ? ? ? ? ? ?]. split; try done.
  - rewrite app_nil_r in Ip. rewrite Ip, <-!app_assoc. f_equiv. apply Permutation_app_comm.
  - intros j [Hj|Hj%list_elem_of_singleton]%elem_of_app; [apply Ic; set_solver|by subst].
Qed.

Lemma disable_port_spec done n p S R st :
  NoDup ((λ q : string * disablePort, (q.1, portId q.2)) <$> done ++ [(n, p)]) →
  (∀ q, q ∈ done ++ [(n, p)] → q ∈ ports) → ptype p = t → ports_inv done S R st →
  (∃ st' S' R', disable_port links st (n, p) = Ret st' ∧ ports_inv (done ++ [(n, p)]) S' R' st') ∨
  (disable_port links st (n, p) = UB ∧ queued_twice).
Proof.
  intros Hnd Hsub Hp (HS & Hst & D & fl & er & pu & -> & I).
  destruct (disable_port_run fl er pu n p Hp (pi_pushed _ _ _ _ _ _ _ I)) as (r & Hr & ->).
  destruct (find_port_links_at t links n (portId p)) as (r' & Hr' & Hspec).
  rewrite Hr in Hr'. injection Hr' as <-. destruct r as [i|]; last first.
  { left. exists (port_state fl er pu), S, R. split; [done|]. split_and!; [done| |eauto 8].
    intros j. rewrite starts_snoc, Hst. specialize (Hspec j). tauto. }
  pose proof (starts_new _ _ _ _ Hnd Hspec) as Hnew.
  assert (NoDup (S ++ [i])) as HS'.
  { apply NoDup_app. split_and!; [done| |apply NoDup_singleton].
    intros j Hj ->%list_elem_of_singleton. by apply Hnew, Hst. }
  assert (∀ j, j ∈ S ++ [i] ↔ starts t links (done ++ [(n, p)]) j) as Hst'.
  { intros j. rewrite starts_snoc, elem_of_app, list_elem_of_singleton, Hst.
    split; (intros [?|Hj]; [by left|right]); [by subst|].
    destruct (lt_eq_lt_dec i j) as [[H|]|H]; [exfalso|done|exfalso];
      destruct Hspec as (l1 & E1 & Es1 & Ep1 & F1), Hj as (l2 & E2 & Es2 & Ep2 & F2);
      [by apply (F2 i l1)|by apply (F1 j l2)]. }
  assert (starts t links ports i) as Histart by (exists n, p; split; [apply Hsub; set_solver|done]).
  destruct (run_queue_spec (Datatypes.S (length links)) (S ++ [i]) R [i] D fl er pu)
    as [(fl' & er' & pu' & R' & D' & -> & I')|(-> & fl' & er' & pu' & R' & Q' & D' & I' & Htw)].
  - apply port_inv_start; [done|by apply removed_start|].
    destruct Hspec as (l & E & _). by eapply lookup_lt_Some.
  - lia.
  - left. exists (port_state fl' er' pu'), (S ++ [i]), R'. split; [done|]. split_and!; [done..|eauto 8].
  - right. split; [done|]. exists (S ++ [i]), R', Q', D', fl', er', pu'. split_and!; [done| |done..].
    intros j (n' & p' & Hin & Hj)%Hst'. exists n', p'. split; [by apply Hsub|done].
Qed.

Lemma disable_all_spec rest : ∀ done S R st,
  NoDup ((λ q : string * disablePort, (q.1, portId q.2)) <$> ports) →
  (∀ q, q ∈ ports → ptype q.2 = t) → done ++ rest = ports → ports_inv done S R st →
  (∃ st' S' R', disable_all links rest st = Ret st' ∧ ports_inv ports S' R' st') ∨
  (disable_all links rest st = UB ∧ queued_twice).
Proof.
  induction rest as [|[n p] rest IH]; intros done S R st Hnd Ht E I.
  { left. rewrite app_nil_r in E. subst done. eauto 6. }
  assert ((done ++ [(n, p)]) ++ rest = ports) as E' by by rewrite <-app_assoc.
  destruct (disable_port_spec done n p S R st) as [(st' & S' & R' & Hst & I')|[Hub Htw]].
  - rewrite <-E', fmap_app in Hnd. by apply NoDup_app in Hnd as [? _].
  - intros q Hq. rewrite <-E'. by apply elem_of_app; left.
  - apply (Ht (n, p)). rewrite <-E. apply elem_of_app. right. by left.
  - done.
  - cbn [disable_all]. rewrite Hst, outcome_bind_ret_l. by eapply IH.
  - right. cbn [disable_all]. by rewrite Hub.
Qed.

(** When a link is queued twice, a node with a disabled port is dry. *)
Lemma queued_twice_unsafe : queued_twice → ¬ ports_safe t links ports.
Proof.
  intros (S & R & Q & D & fl & er & pu & HS & Hst & I & Htw) Hsafe.
  destruct (port_inv_twice _ _ _ _ _ _ _ HS I Htw) as (i & link & Hi & Hl & Hside).
  eapply Hsafe; [by apply Hst|done|]. by eapply port_inv_node_dry.
Qed.

(** At the end the deleted links are those of the specification. *)
Lemma ports_inv_removed S R st i :
  ports_inv ports S R st → removed t links ports i ↔ i ∈ R.
Proof.
  intros (HS & Hst & D & fl & er & pu & _ & I).
  assert (R ≡ₚ S ++ (D ≫= ins)) as HR by (rewrite <-(pi_perm _ _ _ _ _ _ _ I); by rewrite app_nil_r).
  split; [|intros Hi; apply (pi_closed _ _ _ _ _ _ _ I); by rewrite app_nil_r].
  induction 1 as [i Hi|i link Hl Hne _ IH]; rewrite HR; apply elem_of_app.
  - left. by apply Hst.
  - right. apply list_elem_of_bind. exists (side t link).
    split; [apply elem_of_links_at; eauto|]. by apply (pi_dry _ _ _ _ _ _ _ I).
Qed.

Lemma ports_inv_safe S R st : ports_inv ports S R st → ports_safe t links ports.
Proof.
  intros HI i link Hi Hl [Hne Hall]. pose proof HI as (HS & Hst & D & fl & er & pu & _ & I).
  assert (NoDup (S ++ (D ≫= ins))) as Hnd.
  { rewrite <-(pi_perm _ _ _ _ _ _ _ I), app_nil_r. apply (pi_nodup _ _ _ _ _ _ _ I). }
  apply NoDup_app in Hnd as (_ & Hd & _). apply (Hd i); [by apply Hst|].
  apply list_elem_of_bind. exists (side t link).
  split; [apply elem_of_links_at; eauto|]. apply (pi_dry _ _ _ _ _ _ _ I).
  split; [done|]. intros j Hj. by apply (ports_inv_removed _ _ _ _ HI), Hall.
Qed.
End queue.

(** ** The links that remain *)

Lemma kept_links_spec (R : list nat) : ∀ links fl k,
  length fl = length links → (∀ i b, fl !! i = Some b → b = bool_decide (k + i ∉ R)%nat) →
  kept_links fl links =
  omap (λ i, links !! (i - k)%nat) (filter (.∉ R) (seq k (length links))).
Proof.
  induction links as [|link links IH]; intros [|b fl] k Hlen Hfl; [done..|].
  cbn [kept_links length seq]. rewrite filter_cons.
  assert (omap (λ i, (link :: links) !! (i - k)%nat) (filter (.∉ R) (seq (S k) (length links))) =
          kept_links fl links) as Hrest.
  { rewrite (IH fl (S k)); [|by injection Hlen|].
    - apply list_omap_ext, Forall_Forall2_diag, Forall_forall.
      intros i [_ Hi]%list_elem_of_filter. apply elem_of_seq in Hi.
      replace (i - k)%nat with (S (i - S k)) by lia. done.
    - intros i b' Hb. rewrite (Hfl (S i) b' Hb). by rewrite Nat.add_succ_r. }
  rewrite (Hfl 0%nat b eq_refl), Nat.add_0_r.
  destruct (decide (k ∉ R)) as [Hk|Hk].
  - rewrite bool_decide_eq_true_2 by done. cbn [omap list_omap]. by rewrite Nat.sub_diag, Hrest.
  - rewrite bool_decide_eq_false_2 by done. by rewrite Hrest.
Qed.

(** The indices in [keep], in ascending order, are those the specification keeps. *)
Definition keeps (t : portType) (links : list LinkItem) (ports : list (string * disablePort))
    (keep : list nat) : Prop :=
  StronglySorted lt keep ∧
  ∀ i, (i ∈ keep ↔ (i < length links)%nat ∧ ¬ removed t links ports i) ∧
       ((i < length links)%nat → i ∉ keep → removed t links ports i).

Lemma kept_links_all l : kept_links (replicate (length l) true) l = l.
Proof. induction l as [|x l IH]; [done|]. cbn [length replicate kept_links]. by rewrite IH. Qed.

(** The general path also describes the early return. *)
Lemma pipelinePortPrune_unfold disablePorts p im om :
  index_links 0 (links p) ∅ ∅ = (im, om) →
  pipelinePortPrune disablePorts p =
  ('(linkFlag, _, _) ← disable_all (links p) (all_ports disablePorts)
                         (replicate (length (links p)) true, im, om);
   Ret (with_links p (kept_links linkFlag (links p)))).
Proof.
  intros E. unfold pipelinePortPrune. destruct disablePorts; [|by rewrite E].
  cbn. rewrite kept_links_all. by destruct p.
Qed.

Lemma filter_not_nil (v : list nat) : filter (.∉ []) v = v.
Proof.
  induction v as [|i v IH]; [done|].
  rewrite filter_cons, decide_True by apply not_elem_of_nil. by rewrite IH.
Qed.

(** Before the first port. *)
Lemma ports_inv_init t l ports im om :
  index_links 0 l ∅ ∅ = (im, om) →
  ports_inv t l ports [] [] [] (replicate (length l) true, im, om).
Proof.
  intros [Hi Ho]%index_links_spec. split_and!; [constructor| |].
  { intros i. split; [by intros ?%elem_of_nil|]. by intros (? & ? & ?%elem_of_nil & _). }
  exists [], (replicate (length l) true), (match t with INPUT => om | OUTPUT => im end),
    (match t with INPUT => im | OUTPUT => om end).
  split; [by destruct t|].
  split; [done|constructor|by intros ? ?%elem_of_nil|constructor| | | |apply length_replicate|].
  - intros n. split; [by intros ?%elem_of_nil|]. intros [Hne Hall].
    destruct (links_at (parent t) l n) as [|i ?] eqn:E; [done|].
    destruct (not_elem_of_nil i). apply Hall. by left.
  - intros n. transitivity (links_at (parent t) l n); [by destruct t|].
    by rewrite filter_not_nil.
  - intros n. by destruct t.
  - intros i b [-> _]%lookup_replicate. symmetry. apply bool_decide_eq_true. apply not_elem_of_nil.
Qed.

(** The theorem below, for the callers. *)
Lemma pipelinePortPrune_run t disablePorts p :
  NoDup ((λ q : string * disablePort, (q.1, portId q.2)) <$> all_ports disablePorts) →
  (∀ q, q ∈ all_ports disablePorts → ptype q.2 = t) →
  let ports := all_ports disablePorts in
  (ports_safe t (links p) ports →
     ∃ keep, pipelinePortPrune disablePorts p = Ret (with_links p (omap (links p !!.) keep)) ∧
       keeps t (links p) ports keep) ∧
  (¬ ports_safe t (links p) ports → pipelinePortPrune disablePorts p = UB).
Proof.
  intros Hnd Ht ports. destruct (index_links 0 (links p) ∅ ∅) as [im om] eqn:E.
  rewrite (pipelinePortPrune_unfold _ _ _ _ E). fold ports.
  destruct (disable_all_spec t (links p) ports ports [] [] [] _ Hnd Ht eq_refl
              (ports_inv_init t _ ports _ _ E)) as [(st & S & R & -> & I)|[-> Htw]].
  - split; [intros _|intros Hun; destruct Hun; by eapply ports_inv_safe].
    exists (filter (.∉ R) (seq 0 (length (links p)))). rewrite outcome_bind_ret_l.
    split; [|split; [apply filter_seq_sorted|]].
    + destruct I as (_ & _ & D & fl & er & pu & -> & I).
      transitivity (Ret (A := PipelineInfo) (with_links p (kept_links fl (links p)))); [by destruct t|].
      do 2 f_equal. rewrite (kept_links_spec R _ _ 0).
      * apply list_omap_ext, Forall_Forall2_diag, Forall_true. intros i. by rewrite Nat.sub_0_r.
      * apply (pi_length _ _ _ _ _ _ _ _ _ _ I).
      * apply (pi_flag _ _ _ _ _ _ _ _ _ _ I).
    + intros i. rewrite list_elem_of_filter, elem_of_seq, (ports_inv_removed _ _ _ _ _ _ i I).
      split; [intuition lia|]. intros Hi Hk. destruct (decide (i ∈ R)); [done|].
      destruct Hk. split; [done|lia].
  - split; [intros Hs; by destruct (queued_twice_unsafe _ _ _ Htw)|done].
Qed.

(** C21. Disabling ports of one type deletes exactly the links of the ports and, round by
    round, the links of the nodes that have lost all their links on the other side; the
    others stay in their order.  The code is defined exactly when no node with a disabled
    port loses all its links on the other side: otherwise a link comes twice, and the code
    erases [end()]. *)
Theorem pipelinePortPrune_spec t disablePorts p :
  NoDup ((λ q : string * disablePort, (q.1, portId q.2)) <$> all_ports disablePorts) →
  (∀ q, q ∈ all_ports disablePorts → ptype q.2 = t) →
  let ports := all_ports disablePorts in
  (ports_safe t (links p) ports →
     ∃ keep, pipelinePortPrune disablePorts p = Ret (with_links p (omap (links p !!.) keep)) ∧
       keeps t (links p) ports keep) ∧
  (¬ ports_safe t (links p) ports → pipelinePortPrune disablePorts p = UB).
Proof. apply pipelinePortPrune_run. Qed.

(** ** A pipeline

    Two sources feed the nodes A and B; A also feeds the second port of B, and B feeds the
    sink.  Disabling that port deletes the link from A and the link that feeds A. *)
Definition demo_link (src : string) (sp : Z) (dst : string) (dp : Z) : LinkItem :=
  {| srcNodePortId := sp; srcNodeInstance := src; srcPortFormat := 0;
     dstNodePortId := dp; dstNodeInstance := dst; dstPortFormat := [0]; type := SourceLink |}.

Definition demo_pipeline : PipelineInfo :=
  {| pipelineName := "Demo"; nodes := [];
     links := [demo_link "SourceBuffer0" 0 "B" 0; demo_link "SourceBuffer1" 1 "A" 0;
               demo_link "A" 0 "B" 1; demo_link "B" 0 "SinkBuffer0" 0] |}.

Definition demo_ports : list (string * list disablePort) :=
  [("B"%string, [{| portId := 1; ptype := INPUT |}])].

Lemma pipelinePortPrune_witness :
  (∃ keep, pipelinePortPrune demo_ports demo_pipeline =
             Ret (with_links demo_pipeline (omap (links demo_pipeline !!.) keep)) ∧
     keeps INPUT (links demo_pipeline) (all_ports demo_ports) keep) ∧
  pipelinePortPrune demo_ports demo_pipeline =
    Ret (with_links demo_pipeline
           [demo_link "SourceBuffer0" 0 "B" 0; demo_link "B" 0 "SinkBuffer0" 0]).
Proof.
  assert (pipelinePortPrune demo_ports demo_pipeline =
    Ret (with_links demo_pipeline
           [demo_link "SourceBuffer0" 0 "B" 0; demo_link "B" 0 "SinkBuffer0" 0])) as E
    by (vm_compute; reflexivity).
  destruct (pipelinePortPrune_spec INPUT demo_ports demo_pipeline) as [Hsafe Hunsafe].
  - apply (bool_decide_unpack _). by vm_compute.
  - by intros q [-> |[]%elem_of_nil]%elem_of_cons.
  - split; [|exact E]. apply Hsafe. intros i link Hi Hl Hdry.
    rewrite Hunsafe in E; [done|]. intros Hs. by apply (Hs i link Hi Hl).
Defined.

(** Of two disabled ports, one upstream of the other: the second deletes the link of the
    first again. *)
Example pipelinePortPrune_upstream :
  pipelinePortPrune
    [("A"%string, [{| portId := 0; ptype := INPUT |}]); ("B"%string, [{| portId := 0; ptype := INPUT |}])]
    {| pipelineName := "Chain"; nodes := [];
       links := [demo_link "SourceBuffer0" 0 "A" 0; demo_link "A" 0 "B" 0;
                 demo_link "B" 0 "SinkBuffer0" 0] |} = UB.
Proof. by vm_compute. Qed.

(** Ports of both types: the output pass does not know what the input pass deleted, so C
    keeps its output though all its inputs are gone. *)
Example pipelinePortPrune_mixed :
  pipelinePortPrune
    [("B"%string, [{| portId := 0; ptype := INPUT |}]); ("C"%string, [{| portId := 0; ptype := INPUT |}]);
     ("S"%string, [{| portId := 0; ptype := OUTPUT |}])]
    {| pipelineName := "Mixed"; nodes := [];
       links := [demo_link "S" 0 "C" 1; demo_link "T" 0 "C" 0; demo_link "C" 0 "SinkBuffer0" 0] |} =
  Ret {| pipelineName := "Mixed"; nodes := [];
         links := [demo_link "C" 0 "SinkBuffer0" 0] |}.
Proof. by vm_compute. Qed.
