(* ===== verification/CamNodePrune.v ===== *)
(** * Camera pipelines: bypassing nodes

    [PipelinePruner::pipelineNodePrune] of
    [src/mivifwk/mialgoengine/MiaPipelinePruner.cpp] takes the disabled nodes out of a
    pipeline: a link into the node and a link out of it are fused into a new link, and
    both are redirected to it in a table of link indices, which is followed like the
    parents of a union-find structure. *)
From Stdlib Require Import ZArith Lia String.
From stdpp Require Import base list strings gmap sorting.
From S2P Require Import Prelude CamLinks CamPortPrune.

(** ** The code *)

(** An instance and its ports, each with the index of a link. *)
Abbreviation PortMap := (gmap string (list (Z * nat))).

(** @src src/mivifwk/mialgoengine/MiaPipelinePruner.cpp:538-549 pipelineNodePrune: inputPortAndLink, outputPortAndLink *)
Fixpoint index_ports (linkIndex : nat) (links : list LinkItem)
    (inputPortAndLink outputPortAndLink : PortMap) : PortMap * PortMap :=
  match links with
  | [] => (inputPortAndLink, outputPortAndLink)
  | link :: links =>
      let inputs := default [] (inputPortAndLink !! dstNodeInstance link) in
      let outputs := default [] (outputPortAndLink !! srcNodeInstance link) in
      index_ports (S linkIndex) links
        (<[dstNodeInstance link := om_insert inputs (dstNodePortId link) linkIndex]> inputPortAndLink)
        (<[srcNodeInstance link := om_insert outputs (srcNodePortId link) linkIndex]> outputPortAndLink)
  end.

(** @src src/mivifwk/mialgoengine/MiaPipelinePruner.cpp:529-536 pipelineNodePrune: getRealLinkIndex *)
Fixpoint getRealLinkIndex (fuel : nat) (linkIndexTable : list nat) (index : nat) : outcome nat :=
  realLinkIndex ← or_ub (linkIndexTable !! index);
  if decide (realLinkIndex = index) then Ret realLinkIndex
  else match fuel with
       | O => OutOfFuel
       | S fuel => getRealLinkIndex fuel linkIndexTable realLinkIndex
       end.

(** The links, with those fused so far at the end, and the table of their indices. *)
Definition LinkTable : Type := list LinkItem * list nat.

(** The source of one link and the destination of another; the type of the new link is
    value-initialised. *)
Definition fused_link (inputLink outputLink : LinkItem) : LinkItem :=
  {| srcNodePortId := srcNodePortId inputLink; srcNodeInstance := srcNodeInstance inputLink;
     srcPortFormat := srcPortFormat inputLink; dstNodePortId := dstNodePortId outputLink;
     dstNodeInstance := dstNodeInstance outputLink; dstPortFormat := dstPortFormat outputLink;
     type := SourceLink |}.

(** @src src/mivifwk/mialgoengine/MiaPipelinePruner.cpp:568-581 pipelineNodePrune: the fused link *)
Definition fuse (st : LinkTable) (inputLinkIndex outputLinkIndex : nat) : outcome LinkTable :=
  let '(links, linkIndexTable) := st in
  inputLinkIndex ← getRealLinkIndex (length linkIndexTable) linkIndexTable inputLinkIndex;
  outputLinkIndex ← getRealLinkIndex (length linkIndexTable) linkIndexTable outputLinkIndex;
  inputLink ← or_ub (links !! inputLinkIndex);
  outputLink ← or_ub (links !! outputLinkIndex);
  let links := links ++ [fused_link inputLink outputLink] in
  let newIndex := (length links - 1)%nat in
  let linkIndexTable := linkIndexTable ++ [newIndex] in
  Ret (links, <[inputLinkIndex := newIndex]> (<[outputLinkIndex := newIndex]> linkIndexTable)).

(** @src src/mivifwk/mialgoengine/MiaPipelinePruner.cpp:551-582 pipelineNodePrune: normalDisableNodes *)
Fixpoint prune_normal (inputPortAndLink outputPortAndLink : PortMap)
    (normalDisableNodes : list string) (st : LinkTable) : outcome LinkTable :=
  match normalDisableNodes with
  | [] => Ret st
  | instance :: rest =>
      match inputPortAndLink !! instance, outputPortAndLink !! instance with
      | Some ((_, inputLinkIndex) :: _), Some ((_, outputLinkIndex) :: _) =>
          st ← fuse st inputLinkIndex outputLinkIndex;
          prune_normal inputPortAndLink outputPortAndLink rest st
      | _, _ => prune_normal inputPortAndLink outputPortAndLink rest st
      end
  end.

(** @src src/mivifwk/mialgoengine/MiaPipelinePruner.cpp:593-630 pipelineNodePrune: itMap.second *)
Fixpoint prune_paths (inputs outputs : list (Z * nat)) (paths : list throughPath) (st : LinkTable) :
    outcome LinkTable :=
  match paths with
  | [] => Ret st
  | path :: paths =>
      match om_find inputs (inputPortId path), om_find outputs (outputPortId path) with
      | Some inputLinkIndex, Some outputLinkIndex =>
          st ← fuse st inputLinkIndex outputLinkIndex;
          prune_paths inputs outputs paths st
      | _, _ => prune_paths inputs outputs paths st
      end
  end.

(** @src src/mivifwk/mialgoengine/MiaPipelinePruner.cpp:584-631 pipelineNodePrune: nodesBypassRule *)
Fixpoint prune_rules (inputPortAndLink outputPortAndLink : PortMap)
    (nodesBypassRule : list (string * list throughPath)) (st : LinkTable) : outcome LinkTable :=
  match nodesBypassRule with
  | [] => Ret st
  | (instance, paths) :: rest =>
      match inputPortAndLink !! instance, outputPortAndLink !! instance with
      | Some inputs, Some outputs =>
          st ← prune_paths inputs outputs paths st;
          prune_rules inputPortAndLink outputPortAndLink rest st
      | _, _ => prune_rules inputPortAndLink outputPortAndLink rest st
      end
  end.

(** @src src/mivifwk/mialgoengine/MiaPipelinePruner.cpp:633-641 pipelineNodePrune: activeLinks *)
Fixpoint active_links (linkIndexTable : list nat) (indices : list nat) (linkTable : list bool) :
    outcome (list nat) :=
  match indices with
  | [] => Ret []
  | index :: indices =>
      value ← getRealLinkIndex (length linkIndexTable) linkIndexTable index;
      seen ← or_ub (linkTable !! value);
      if (seen : bool) then active_links linkIndexTable indices linkTable
      else
        rest ← active_links linkIndexTable indices (<[value := true]> linkTable);
        Ret (value :: rest)
  end.

(** @src src/mivifwk/mialgoengine/MiaPipelinePruner.cpp:518-648 PipelinePruner::pipelineNodePrune *)
Definition pipelineNodePrune (nodesBypassRule : list (string * list throughPath))
    (normalDisableNodes : list string) (pipeline : PipelineInfo) : outcome PipelineInfo :=
  let rawSize := length (links pipeline) in
  let '(inputPortAndLink, outputPortAndLink) := index_ports 0 (links pipeline) ∅ ∅ in
  st ← prune_normal inputPortAndLink outputPortAndLink normalDisableNodes
         (links pipeline, seq 0 rawSize);
  st ← prune_rules inputPortAndLink outputPortAndLink nodesBypassRule st;
  let '(links, linkIndexTable) := st in
  activeLinks ← active_links linkIndexTable (seq 0 rawSize)
                  (replicate (length linkIndexTable) false);
  Ret (with_links pipeline (omap (links !!.) activeLinks)).

(** ** What it computes *)

(** The first link of [n]: at its lowest port, and the first there. *)
Definition first_link (t : portType) (links : list LinkItem) (n : string) (i : nat) : Prop :=
  ∃ p, port_link t links n p i ∧
    ∀ j link, links !! j = Some link → side t link = n → p ≤ port t link.

(** Link [a] goes into a bypassed node and is continued by link [b] out of it. *)
Definition fused (links : list LinkItem) (rules : list (string * list throughPath))
    (normal : list string) (a b : nat) : Prop :=
  (∃ n, n ∈ normal ∧ first_link INPUT links n a ∧ first_link OUTPUT links n b) ∨
  (∃ n paths path, (n, paths) ∈ rules ∧ path ∈ paths ∧
     port_link INPUT links n (inputPortId path) a ∧ port_link OUTPUT links n (outputPortId path) b).

(** No link is continued by two, or continues two. *)
Definition one_to_one (R : nat → nat → Prop) : Prop :=
  (∀ a b b', R a b → R a b' → b = b') ∧ (∀ a a' b, R a b → R a' b → a = a').

(** The nodes can be ranked such that every link goes up. *)
Definition acyclic (links : list LinkItem) : Prop :=
  ∃ rank : string → nat, ∀ i link, links !! i = Some link →
    (rank (srcNodeInstance link) < rank (dstNodeInstance link))%nat.

(** [a] and [b] are neighbours in [l]. *)
Definition adjacent (l : list nat) (a b : nat) : Prop := ∃ l1 l2, l = l1 ++ a :: b :: l2.

(** What a path of links is replaced by: a single link is kept, several become one. *)
Definition path_link (links : list LinkItem) (path : list nat) : option LinkItem :=
  match path with
  | [] => None
  | [i] => links !! i
  | i :: _ :: _ =>
      first ← links !! i; final ← last path ≫= (links !!.); Some (fused_link first final)
  end.

(** [paths] cuts all links into paths along [R], in the order of their first links. *)
Definition paths_of (R : nat → nat → Prop) (n : nat) (paths : list (list nat)) : Prop :=
  mjoin paths ≡ₚ seq 0 n ∧
  (∀ a b, R a b ↔ ∃ path, path ∈ paths ∧ adjacent path a b) ∧
  Forall (λ path, path ≠ []) paths ∧
  StronglySorted (λ p q, ∃ i, i ∈ p ∧ ∀ j, j ∈ q → (i < j)%nat) paths.

(** ** The maps of ports *)

(** The entries of a map in ascending order of the keys. *)
Definition keys_sorted (m : list (Z * nat)) : Prop := StronglySorted (λ a b, a.1 < b.1) m.

Lemma om_set_elem_new (m : list (Z * nat)) k v x :
  om_find m k = None → x ∈ om_set m k v ↔ x = (k, v) ∨ x ∈ m.
Proof.
  induction m as [|[j w] m IH]; simpl; [set_solver|].
  unfold key_compare, Z_key. destruct (Z.compare_spec j k) as [->|Hj|Hj]; [done| |]; intros Hf.
  - rewrite (proj2 (Z.compare_gt_iff k j)) by lia. rewrite !elem_of_cons, IH by done. tauto.
  - rewrite (proj2 (Z.compare_lt_iff k j)) by lia. by rewrite elem_of_cons.
Qed.

Lemma om_set_sorted (m : list (Z * nat)) k v :
  keys_sorted m → om_find m k = None → keys_sorted (om_set m k v).
Proof.
  unfold keys_sorted. induction 1 as [|[j w] m Hs IH Hj]; simpl; [by repeat constructor|].
  unfold key_compare, Z_key. destruct (Z.compare_spec j k) as [->|Hjk|Hjk]; [done| |]; intros Hf.
  - rewrite (proj2 (Z.compare_gt_iff k j)) by lia. constructor; [by apply IH|].
    apply Forall_forall. intros x. rewrite om_set_elem_new by done.
    rewrite Forall_forall in Hj. intros [->|Hx]; [done|by apply Hj].
  - rewrite (proj2 (Z.compare_lt_iff k j)) by lia. constructor; [by constructor|].
    constructor; [done|]. eapply Forall_impl; [exact Hj|]. intros x Hx. simpl in *. lia.
Qed.

Lemma om_find_sorted (m : list (Z * nat)) k v :
  keys_sorted m → om_find m k = Some v ↔ (k, v) ∈ m.
Proof.
  intros Hs. split; [apply om_find_elem|].
  induction Hs as [|[j w] m Hs IH Hj]; [by intros ?%elem_of_nil|].
  rewrite elem_of_cons. simpl. unfold key_compare, Z_key.
  destruct (Z.compare_spec j k) as [->|Hjk|Hjk].
  - intros [[= ->]|Hin]; [done|]. rewrite Forall_forall in Hj. apply Hj in Hin. simpl in Hin. lia.
  - intros [[= -> ->]|Hin]; [lia|by apply IH].
  - intros [[= -> ->]|Hin]; [lia|by apply IH].
Qed.

(** [m] holds the first link of every port of [n]. *)
Definition port_map (t : portType) (links : list LinkItem) (n : string) (m : list (Z * nat)) : Prop :=
  keys_sorted m ∧ ∀ p i, (p, i) ∈ m ↔ port_link t links n p i.

Lemma port_link_snoc t links link n p i :
  port_link t (links ++ [link]) n p i ↔
  port_link t links n p i ∨
  (i = length links ∧ side t link = n ∧ port t link = p ∧ ∀ j, ¬ port_link t links n p j).
Proof.
  split.
  - intros (l & Hl & Hs & Hp & Hleast). apply lookup_snoc_Some in Hl as [[Hi Hl]|[-> <-]].
    + left. exists l. split_and!; [done..|]. intros j l' Hj Hl'. apply (Hleast j l'); [done|].
      by rewrite lookup_app_l by lia.
    + right. split_and!; [done..|]. intros j (l' & Hl' & Hs' & Hp' & _).
      pose proof (lookup_lt_Some _ _ _ Hl'). eapply (Hleast j l'); [done| |done|done].
      by rewrite lookup_app_l by lia.
  - intros [(l & Hl & Hs & Hp & Hleast)|(-> & Hs & Hp & Hnone)].
    + pose proof (lookup_lt_Some _ _ _ Hl). exists l. split_and!; [|done..|].
      * by rewrite lookup_app_l by lia.
      * intros j l' Hj Hl'. apply (Hleast j l'); [done|]. by rewrite lookup_app_l in Hl' by lia.
    + exists link. split_and!; [by apply list_lookup_middle|done..|].
      intros j l' Hj Hl' Hs' Hp'. rewrite lookup_app_l in Hl' by lia.
      destruct (port_link_exists t links j l' Hl') as [i Hi].
      rewrite Hs', Hp' in Hi. by apply (Hnone i).
Qed.

Lemma port_map_none t links n m p :
  port_map t links n m → om_find m p = None ↔ ∀ i, ¬ port_link t links n p i.
Proof.
  intros [Hs Hm]. destruct (om_find m p) as [v|] eqn:E.
  - split; [done|]. intros Hn. by apply om_find_elem, Hm, Hn in E.
  - split; [|done]. intros _ i Hi. apply Hm, (om_find_sorted m p i Hs) in Hi. congruence.
Qed.

(** Another link, at a port of this node or of another one. *)
Lemma port_map_snoc t links link n m :
  port_map t links n m → side t link = n →
  port_map t (links ++ [link]) n (om_insert m (port t link) (length links)).
Proof.
  intros Hm Hside. pose proof (port_map_none _ _ _ _ (port t link) Hm) as Hnone.
  destruct Hm as [Hs Hm]. unfold om_insert.
  destruct (om_find m (port t link)) as [v|] eqn:E; split.
  - done.
  - intros p i. rewrite Hm, port_link_snoc. split; [by left|].
    intros [?|(_ & _ & <- & Hno)]; [done|]. by apply om_find_elem, Hm, Hno in E.
  - by apply om_set_sorted.
  - intros p i. rewrite om_set_elem_new, Hm, port_link_snoc by done. split.
    + intros [[= -> ->]|?]; [right|by left]. split_and!; [done..|]. by apply Hnone.
    + intros [?|(-> & _ & <- & _)]; [by right|by left].
Qed.

Lemma port_map_other t links link n m :
  port_map t links n m → side t link ≠ n → port_map t (links ++ [link]) n m.
Proof.
  intros [Hs Hm] Hne. split; [done|]. intros p i. rewrite Hm, port_link_snoc. naive_solver.
Qed.

Lemma index_ports_snoc k links link im om :
  index_ports k (links ++ [link]) im om =
  let '(im, om) := index_ports k links im om in
  (<[dstNodeInstance link :=
       om_insert (default [] (im !! dstNodeInstance link)) (dstNodePortId link) (k + length links)%nat]> im,
   <[srcNodeInstance link :=
       om_insert (default [] (om !! srcNodeInstance link)) (srcNodePortId link) (k + length links)%nat]> om).
Proof.
  revert k im om. induction links as [|l links IH]; intros k im om; simpl.
  - by rewrite Nat.add_0_r.
  - rewrite IH. destruct (index_ports _ _ _ _). by rewrite Nat.add_succ_r.
Qed.

Definition ports_indexed (t : portType) (links : list LinkItem) (m : PortMap) : Prop :=
  ∀ n, port_map t links n (default [] (m !! n)).

Lemma ports_indexed_snoc t links link (m : PortMap) :
  ports_indexed t links m →
  ports_indexed t (links ++ [link])
    (<[side t link := om_insert (default [] (m !! side t link)) (port t link) (length links)]> m).
Proof.
  intros Hm n. destruct (decide (side t link = n)) as [<-|Hne].
  - rewrite lookup_insert_eq. apply (port_map_snoc _ _ _ _ _ (Hm _) eq_refl).
  - rewrite lookup_insert_ne by done. by apply port_map_other.
Qed.

Lemma index_ports_spec links im om :
  index_ports 0 links ∅ ∅ = (im, om) → ports_indexed INPUT links im ∧ ports_indexed OUTPUT links om.
Proof.
  revert im om. induction links as [|link links IH] using rev_ind; intros im om.
  - intros [= <- <-]. split; intros n; rewrite lookup_empty; (split; [constructor|]);
      intros p i; (split; [by intros ?%elem_of_nil|by intros (? & ? & _)]).
  - rewrite index_ports_snoc. destruct (index_ports 0 links ∅ ∅) as [im' om'].
    destruct (IH _ _ eq_refl) as [Hi Ho]. intros [= <- <-].
    split; [by apply (ports_indexed_snoc INPUT)|by apply (ports_indexed_snoc OUTPUT)].
Qed.

(** The first entry is the first link of the node. *)
Lemma port_map_first t links n p i m :
  port_map t links n ((p, i) :: m) → ∀ j, first_link t links n j ↔ j = i.
Proof.
  intros [Hs Hm]. inversion Hs as [|? ? _ Hhd]; subst.
  assert (∀ j link, links !! j = Some link → side t link = n → p ≤ port t link) as Hlow.
  { intros j link Hl Hside. destruct (port_link_exists t links j link Hl) as [k Hk].
    rewrite Hside in Hk. apply Hm, elem_of_cons in Hk as [[= -> _]|Hk]; [done|].
    rewrite Forall_forall in Hhd. apply Hhd in Hk. simpl in Hk. lia. }
  assert (port_link t links n p i) as Hpi by (apply Hm; by left).
  intros j. split; [|intros ->; by exists p].
  intros (q & Hq & Hqlow). pose proof Hpi as (l & Hl & Hs' & Hp & Hlt).
  pose proof Hq as (l' & Hl' & Hs'' & Hp' & Hlt').
  assert (p = q) as <-.
  { specialize (Hlow j l' Hl' Hs''). specialize (Hqlow i l Hl Hs'). lia. }
  destruct (lt_eq_lt_dec i j) as [[H|]|H]; [|done|]; exfalso.
  - by apply (Hlt' i l).
  - by apply (Hlt j l').
Qed.

(** ** Paths *)

Lemma adjacent_elem l a b : adjacent l a b → a ∈ l ∧ b ∈ l.
Proof. intros (l1 & l2 & ->). split; set_solver. Qed.

Lemma adjacent_nil a b : ¬ adjacent [] a b.
Proof. by intros ([] & ? & [=]). Qed.

Lemma adjacent_cons x l a b :
  adjacent (x :: l) a b ↔ (a = x ∧ head l = Some b) ∨ adjacent l a b.
Proof.
  split.
  - intros ([|y l1] & l2 & [= -> ->]); [by left|]. right. by exists l1, l2.
  - intros [[-> Hh]|(l1 & l2 & ->)]; [|by exists (x :: l1), l2].
    destruct l as [|y l]; [done|]. injection Hh as ->. by exists [], l.
Qed.

Lemma head_app_cons (p q : list nat) : head (p ++ q) = match head p with Some x => Some x | None => head q end.
Proof. by destruct p. Qed.

Lemma adjacent_app p q a b :
  adjacent (p ++ q) a b ↔ adjacent p a b ∨ adjacent q a b ∨ (last p = Some a ∧ head q = Some b).
Proof.
  induction p as [|x p IH]; cbn [app].
  - split; [by auto|]. intros [?%adjacent_nil|[?|[? _]]]; done.
  - rewrite !adjacent_cons, IH, head_app_cons. destruct p as [|y p]; cbn [head].
    + rewrite last_singleton. split.
      * intros [[-> ?]|[?%adjacent_nil|[?|[? _]]]]; (done || tauto).
      * intros [[[_ ?]|?%adjacent_nil]|[?|[[= ->] ?]]]; (done || tauto).
    + rewrite last_cons_cons. tauto.
Qed.

Lemma adjacent_not_last l a : NoDup l → a ∈ l → last l ≠ Some a → ∃ b, adjacent l a b.
Proof.
  induction l as [|x l IH]; [by intros _ ?%elem_of_nil|].
  intros [Hx Hnd]%NoDup_cons Ha Hlast. destruct l as [|y l].
  - apply list_elem_of_singleton in Ha as ->. by rewrite last_singleton in Hlast.
  - rewrite last_cons_cons in Hlast. apply elem_of_cons in Ha as [->|Ha].
    + exists y. apply adjacent_cons. by left.
    + destruct (IH Hnd Ha Hlast) as [b Hb]. exists b. apply adjacent_cons. by right.
Qed.

Lemma adjacent_not_head l b : b ∈ l → head l ≠ Some b → ∃ a, adjacent l a b.
Proof.
  induction l as [|x l IH]; [by intros ?%elem_of_nil|].
  intros [->|Hb]%elem_of_cons Hhead; [done|].
  destruct (decide (head l = Some b)) as [Hh|Hh].
  - exists x. apply adjacent_cons. by left.
  - destruct (IH Hb Hh) as [a Ha]. exists a. apply adjacent_cons. by right.
Qed.

(** A measure that grows along a path grows from its head to its last link. *)
Lemma adjacent_grows (f : nat → nat) l x y :
  (∀ a b, adjacent l a b → (f a < f b)%nat) → head l = Some x → last l = Some y → (f x ≤ f y)%nat.
Proof.
  revert x. induction l as [|z l IH]; intros x Hf Hx Hy; [done|]. injection Hx as <-.
  destruct l as [|w l]; [rewrite last_singleton in Hy; by injection Hy as <-|].
  rewrite last_cons_cons in Hy.
  assert (f z < f w)%nat by (apply Hf, adjacent_cons; by left).
  assert (f w ≤ f y)%nat; [|lia]. apply IH; [|done..].
  intros a b Hab. apply Hf, adjacent_cons. by right.
Qed.

(** The ends of a path are those of its link. *)
Lemma path_link_ends links p l :
  path_link links p = Some l →
  ∃ i j li lj, head p = Some i ∧ last p = Some j ∧ links !! i = Some li ∧ links !! j = Some lj ∧
    (∀ l', fused_link l l' = fused_link li l') ∧ (∀ l', fused_link l' l = fused_link l' lj) ∧
    (li = l ∧ lj = l ∨ l = fused_link li lj).
Proof.
  destruct p as [|i [|k p]]; [done| |]; cbn [path_link head]; intros E.
  - exists i, i, l, l. rewrite last_singleton. split_and!; auto.
  - destruct (links !! i) as [li|] eqn:Ei; [|done].
    rewrite last_cons_cons in *. destruct (last (k :: p)) as [j|] eqn:Ej; [|done].
    cbn in E. destruct (links !! j) as [lj|] eqn:Elj; [|done]. injection E as <-.
    exists i, j, li, lj. split_and!; auto.
Qed.

Lemma path_link_app links p q l l' :
  path_link links p = Some l → path_link links q = Some l' →
  path_link links (p ++ q) = Some (fused_link l l').
Proof.
  intros (i & j & li & lj & Hi & Hj & Eli & Elj & Hf & _)%path_link_ends.
  intros (i' & j' & li' & lj' & Hi' & Hj' & Eli' & Elj' & _ & Hf' & _)%path_link_ends.
  destruct p as [|x p]; [done|]. injection Hi as ->. destruct q as [|y q]; [done|].
  assert (last (p ++ y :: q) = Some j') as Hlast by (by rewrite last_app_cons).
  rewrite Hf, Hf'. cbn [app].
  destruct (p ++ y :: q) as [|z r] eqn:E; [by destruct p|].
  cbn [path_link]. rewrite Eli, last_cons_cons, Hlast. cbn. by rewrite Elj'.
Qed.

(** The link of several links is its own copy. *)
Lemma path_link_copy links p l a b :
  path_link links p = Some l → adjacent p a b → fused_link l l = l.
Proof.
  destruct p as [|i [|k p]]; [done| |]; cbn [path_link]; intros E.
  - intros [[_ H]|H]%adjacent_cons; [done|by apply adjacent_nil in H].
  - intros _. by apply bind_Some in E as (? & _ & (? & _ & [= <-])%bind_Some).
Qed.

Lemma path_link_Some links p :
  p ≠ [] → (∀ i, i ∈ p → (i < length links)%nat) → ∃ l, path_link links p = Some l.
Proof.
  intros Hne Hp. destruct p as [|i [|k p]]; [done| |]; cbn [path_link].
  - apply lookup_lt_is_Some_2, Hp. by left.
  - destruct (lookup_lt_is_Some_2 links i) as [li ->]; [apply Hp; by left|].
    rewrite last_cons_cons. destruct (last (k :: p)) as [j|] eqn:Ej.
    + destruct (lookup_lt_is_Some_2 links j) as [lj Elj].
      { apply Hp. right. by apply last_Some_elem_of. }
      cbn. rewrite Elj. cbn. eauto.
    + by apply last_None in Ej.
Qed.

(** ** The table of indices

    [rep i] is the index that [i] is redirected to in the end: the table only points
    upwards, and [rep] is constant along it. *)
Record rep_ok (table : list nat) (rep : nat → nat) : Prop := {
  ro_step : ∀ i j, table !! i = Some j → (i ≤ j < length table)%nat ∧ rep j = rep i;
  ro_rep : ∀ i, (i < length table)%nat → table !! rep i = Some (rep i);
  ro_idem : ∀ r, table !! r = Some r → rep r = r;
}.

Lemma getRealLinkIndex_rep table rep fuel i :
  rep_ok table rep → (i < length table)%nat → (length table ≤ fuel + i)%nat →
  getRealLinkIndex fuel table i = Ret (rep i).
Proof.
  intros I. revert i. induction fuel as [|fuel IH]; intros i Hi Hfuel; [lia|]. cbn [getRealLinkIndex].
  destruct (lookup_lt_is_Some_2 table i Hi) as [j Hj]. rewrite Hj. cbn.
  destruct (ro_step _ _ I i j Hj) as [Hij Hrep].
  case_decide as E; [subst j; by rewrite (ro_idem _ _ I i Hj)|].
  rewrite IH by lia. by rewrite Hrep.
Qed.

(** Two representatives redirected to a new entry. *)
Definition redirect (table : list nat) (x y : nat) : list nat :=
  let new := length table in <[x := new]> (<[y := new]> (table ++ [new])).
Definition redirect_rep (table : list nat) (x y : nat) (rep : nat → nat) (i : nat) : nat :=
  let new := length table in if decide (i = new ∨ rep i = x ∨ rep i = y) then new else rep i.

Lemma length_redirect table x y : length (redirect table x y) = S (length table).
Proof. unfold redirect. rewrite !length_insert, length_app. simpl. lia. Qed.

Lemma lookup_redirect table x y i j :
  (x < length table)%nat → (y < length table)%nat →
  let new := length table in
  redirect table x y !! i = Some j ↔
  (i = new ∨ i = x ∨ i = y) ∧ j = new ∨ (i < new)%nat ∧ i ≠ x ∧ i ≠ y ∧ table !! i = Some j.
Proof.
  intros Hx Hy new. unfold redirect.
  destruct (decide (i = x)) as [->|Hix].
  { rewrite list_lookup_insert_eq by (rewrite length_insert, length_app; simpl; lia). naive_solver. }
  rewrite list_lookup_insert_ne by done.
  destruct (decide (i = y)) as [->|Hiy].
  { rewrite list_lookup_insert_eq by (rewrite length_app; simpl; lia). naive_solver. }
  rewrite list_lookup_insert_ne by done. rewrite lookup_snoc_Some. fold new. naive_solver lia.
Qed.

(** The representatives afterwards. *)
Lemma lookup_redirect_self table x y r :
  (x < length table)%nat → (y < length table)%nat →
  redirect table x y !! r = Some r ↔
  r = length table ∨ r ≠ length table ∧ r ≠ x ∧ r ≠ y ∧ table !! r = Some r.
Proof.
  intros Hx Hy. rewrite (lookup_redirect table x y r r Hx Hy). split.
  - intros [[_ ->]|(? & ? & ? & ?)]; [by left|right]. split_and!; [lia|done..].
  - intros [->|(? & ? & ? & Hr)]; [left; auto|right].
    pose proof (lookup_lt_Some _ _ _ Hr). split_and!; [lia|done..].
Qed.

Lemma rep_ok_redirect table rep x y :
  rep_ok table rep → table !! x = Some x → table !! y = Some y →
  rep_ok (redirect table x y) (redirect_rep table x y rep).
Proof.
  intros [It Ir Ii] Hx Hy.
  pose proof (lookup_lt_Some _ _ _ Hx) as Hxl. pose proof (lookup_lt_Some _ _ _ Hy) as Hyl.
  unfold redirect_rep. split; [intros i j|intros i|intros r]; rewrite ?length_redirect.
  - rewrite lookup_redirect by done. intros [[Hi ->]|(Hi & Hix & Hiy & Hij)].
    + split; [destruct Hi as [->|[->| ->]]; lia|]. rewrite decide_True by by left.
      rewrite decide_True; [done|]. destruct Hi as [->|[->| ->]]; [by left|right; left|right; right]; auto.
    + destruct (It i j Hij) as [? Hrep]. split; [lia|]. rewrite Hrep.
      destruct (decide (rep i = x ∨ rep i = y)); [by rewrite !decide_True by auto|].
      rewrite !decide_False by (intuition lia). done.
  - intros Hi. rewrite lookup_redirect_self by done. case_decide as Hc; [by left|right].
    assert (table !! rep i = Some (rep i)) as Hri by (apply Ir; assert (i ≠ length table) by tauto; lia).
    pose proof (lookup_lt_Some _ _ _ Hri). split_and!; [lia|tauto..|done].
  - rewrite lookup_redirect_self by done. intros [->|(? & ? & ? & Hr)]; [by rewrite decide_True by auto|].
    rewrite (Ii r Hr). by rewrite decide_False by tauto.
Qed.

(** [P r] is the path of raw links that the link at [r] stands for, [F] the pairs fused
    so far. *)
Section table.
Context (raw : list LinkItem) (G : nat → nat → Prop) (HG : one_to_one G).
Context (rank : string → nat) (Hrank : ∀ i link, raw !! i = Some link →
  (rank (srcNodeInstance link) < rank (dstNodeInstance link))%nat).
Context (Hends : ∀ a b, G a b → ∃ la lb, raw !! a = Some la ∧ raw !! b = Some lb ∧
  dstNodeInstance la = srcNodeInstance lb).

Record table_inv (F : list (nat * nat)) (st : LinkTable) (rep : nat → nat) (P : nat → list nat) :
    Prop := {
  ti_length : length st.1 = length st.2;
  ti_size : (length raw ≤ length st.2)%nat;
  ti_sub : ∀ a b, (a, b) ∈ F → G a b;
  ti_rep : rep_ok st.2 rep;
  ti_in : ∀ i, (i < length raw)%nat → i ∈ P (rep i);
  ti_path : ∀ r, st.2 !! r = Some r → st.1 !! r = path_link raw (P r) ∧ P r ≠ [];
  ti_elem : ∀ r i, st.2 !! r = Some r → i ∈ P r → (i < length raw)%nat ∧ rep i = r;
  ti_nodup : ∀ r, st.2 !! r = Some r → NoDup (P r);
  ti_fused : ∀ a b, (a, b) ∈ F ↔ ∃ r, st.2 !! r = Some r ∧ adjacent (P r) a b;
}.

Definition src_rank (i : nat) : nat :=
  match raw !! i with Some link => rank (srcNodeInstance link) | None => 0 end.

Lemma src_rank_grows a b : G a b → (src_rank a < src_rank b)%nat.
Proof.
  intros Hab. destruct (Hends a b Hab) as (la & lb & Ea & Eb & E).
  unfold src_rank. rewrite Ea, Eb, <-E. by eapply Hrank.
Qed.

(** The paths of a pair still to fuse end and begin with its links, and differ. *)
Lemma table_inv_ends F st rep P a b :
  table_inv F st rep P → G a b → (a, b) ∉ F →
  last (P (rep a)) = Some a ∧ head (P (rep b)) = Some b ∧ rep a ≠ rep b.
Proof.
  intros I Hab Hnew. destruct HG as [Hfun Hinj].
  destruct (Hends a b Hab) as (la & lb & Ea & Eb & _).
  apply lookup_lt_Some in Ea, Eb. pose proof (ti_size _ _ _ _ I) as Hsize.
  assert (st.2 !! rep a = Some (rep a)) as Hra by (apply (ro_rep _ _ (ti_rep _ _ _ _ I)); lia).
  assert (st.2 !! rep b = Some (rep b)) as Hrb by (apply (ro_rep _ _ (ti_rep _ _ _ _ I)); lia).
  assert (last (P (rep a)) = Some a) as Hl.
  { destruct (decide (last (P (rep a)) = Some a)) as [|Hl]; [done|exfalso].
    destruct (adjacent_not_last (P (rep a)) a) as [c Hc];
      [by apply (ti_nodup _ _ _ _ I)|by apply (ti_in _ _ _ _ I)|done|].
    assert ((a, c) ∈ F) as HF by (apply (ti_fused _ _ _ _ I); eauto).
    apply Hnew. by rewrite (Hfun a b c Hab (ti_sub _ _ _ _ I _ _ HF)). }
  assert (head (P (rep b)) = Some b) as Hh.
  { destruct (decide (head (P (rep b)) = Some b)) as [|Hh]; [done|exfalso].
    destruct (adjacent_not_head (P (rep b)) b) as [c Hc]; [by apply (ti_in _ _ _ _ I)|done|].
    assert ((c, b) ∈ F) as HF by (apply (ti_fused _ _ _ _ I); eauto).
    apply Hnew. by rewrite (Hinj a c b Hab (ti_sub _ _ _ _ I _ _ HF)). }
  split_and!; [done..|]. intros E. rewrite <-E in Hh.
  enough (src_rank b ≤ src_rank a)%nat by (pose proof (src_rank_grows a b Hab); lia).
  apply (adjacent_grows src_rank (P (rep a))); [|done..].
  intros x y Hxy. apply src_rank_grows, (ti_sub _ _ _ _ I), (ti_fused _ _ _ _ I). eauto.
Qed.

(** Redirecting two representatives to a new link that stands for the path [q]. *)
Lemma table_inv_redirect F ls table rep P a b x y link q :
  table_inv F (ls, table) rep P → G a b → table !! x = Some x → table !! y = Some y →
  path_link raw q = Some link → NoDup q →
  (∀ i, i ∈ q ↔ i ∈ P x ∨ i ∈ P y) →
  (∀ c d, adjacent q c d ↔ adjacent (P x) c d ∨ adjacent (P y) c d ∨ (c = a ∧ d = b)) →
  table_inv ((a, b) :: F) (ls ++ [link], redirect table x y) (redirect_rep table x y rep)
    (λ r, if decide (r = length table) then q else P r).
Proof.
  intros I Hab Hx Hy Hlink Hq Helem Hadj.
  pose proof (rep_ok_redirect _ _ _ _ (ti_rep _ _ _ _ I) Hx Hy) as Hok.
  pose proof (λ r, lookup_redirect_self table x y r (lookup_lt_Some _ _ _ Hx) (lookup_lt_Some _ _ _ Hy))
    as Hself.
  assert (∀ i, table !! i = Some i → (i < length table)%nat) as Hlt by (intros i Hi; by eapply lookup_lt_Some).
  destruct I as [Il Iz Is [It Ir Ii] In Ip Ie Id If]; cbn [fst snd] in *. unfold redirect_rep in *.
  split; cbn [fst snd]; rewrite ?length_redirect; [| | |done|..].
  - rewrite length_app, Il. simpl. lia.
  - lia.
  - intros c d [[= -> ->]|HF]%elem_of_cons; auto.
  - intros i Hi. specialize (In i Hi). assert (i ≠ length table) by lia.
    destruct (decide (i = length table ∨ rep i = x ∨ rep i = y)) as [Hc|Hc].
    + rewrite decide_True by done. apply Helem. destruct Hc as [?|[<-|<-]]; auto || done.
    + rewrite decide_False; [done|]. assert (table !! rep i = Some (rep i)) as Hri by (apply Ir; lia).
      specialize (Hlt _ Hri). lia.
  - intros r [->|(Hn & _ & _ & Hr)]%Hself.
    + rewrite decide_True by done. split; [|by intros ->]. rewrite Hlink, <-Il. by apply list_lookup_middle.
    + rewrite decide_False by done. specialize (Hlt r Hr). rewrite lookup_app_l by lia. by apply Ip.
  - intros r i [->|(Hn & Hrx & Hry & Hr)]%Hself.
    + rewrite decide_True by done. intros [Hi|Hi]%Helem;
        [destruct (Ie x i Hx Hi) as [? Hrep]|destruct (Ie y i Hy Hi) as [? Hrep]];
        (split; [done|]); rewrite decide_True; auto.
    + rewrite decide_False by done. intros Hi. destruct (Ie r i Hr Hi) as [? Hrep]. split; [done|].
      rewrite decide_False; [done|]. rewrite Hrep. intuition lia.
  - intros r [->|(Hn & _ & _ & Hr)]%Hself; [by rewrite decide_True|]. rewrite decide_False by done. auto.
  - intros c d. rewrite elem_of_cons, If. split.
    + intros [[= -> ->]|(r & Hr & Had)].
      { exists (length table). rewrite decide_True by done. split; [by apply Hself; left|]. apply Hadj. auto. }
      destruct (decide (r = x ∨ r = y)) as [Hxy|Hxy].
      * exists (length table). rewrite decide_True by done. split; [by apply Hself; left|]. apply Hadj.
        destruct Hxy as [->| ->]; auto.
      * exists r. specialize (Hlt r Hr). rewrite decide_False by lia. split; [|done].
        apply Hself. right. split_and!; [lia|tauto..|done].
    + intros (r & [->|(Hn & _ & _ & Hr)]%Hself & Had).
      * rewrite decide_True in Had by done. apply Hadj in Had as [Had|[Had|[-> ->]]]; [right; eauto..|by left].
      * rewrite decide_False in Had by done. right. eauto.
Qed.

(** One fused pair: a new one joins two paths, an old one copies its link. *)
Lemma fuse_spec F st rep P a b :
  table_inv F st rep P → G a b →
  ∃ st' rep' P', fuse st a b = Ret st' ∧ table_inv ((a, b) :: F) st' rep' P'.
Proof.
  intros I Hab. destruct (Hends a b Hab) as (la & lb & Ea & Eb & _).
  apply lookup_lt_Some in Ea, Eb. pose proof (ti_size _ _ _ _ I) as Hsize.
  pose proof (ti_rep _ _ _ _ I) as Hok. pose proof (ti_length _ _ _ _ I) as Hlen.
  assert (st.2 !! rep a = Some (rep a)) as Hra by (apply (ro_rep _ _ Hok); lia).
  assert (st.2 !! rep b = Some (rep b)) as Hrb by (apply (ro_rep _ _ Hok); lia).
  destruct (ti_path _ _ _ _ I _ Hra) as [Hla Hnea], (ti_path _ _ _ _ I _ Hrb) as [Hlb Hneb].
  destruct (path_link_Some raw (P (rep a)) Hnea) as [l El].
  { intros i Hi. by apply (ti_elem _ _ _ _ I (rep a)). }
  destruct (path_link_Some raw (P (rep b)) Hneb) as [l' El'].
  { intros i Hi. by apply (ti_elem _ _ _ _ I (rep b)). }
  assert (fuse st a b = Ret (st.1 ++ [fused_link l l'], redirect st.2 (rep a) (rep b))) as ->.
  { destruct st as [ls table]; cbn [fst snd] in *. unfold fuse.
    rewrite !(getRealLinkIndex_rep _ _ _ _ Hok) by lia. cbn.
    rewrite Hla, El. cbn. rewrite Hlb, El'. cbn. unfold redirect.
    by replace (length (ls ++ [fused_link l l']) - 1)%nat with (length table)
      by (rewrite length_app; simpl; lia). }
  destruct st as [ls table]; cbn [fst snd] in *.
  destruct (decide ((a, b) ∈ F)) as [HF|HF].
  - assert (rep a = rep b) as Eab.
    { apply (ti_fused _ _ _ _ I) in HF as (r & Hr & [Ha Hb]%adjacent_elem).
      destruct (ti_elem _ _ _ _ I r a Hr Ha), (ti_elem _ _ _ _ I r b Hr Hb). congruence. }
    rewrite <-Eab in *. assert (l' = l) as -> by congruence.
    assert (adjacent (P (rep a)) a b) as Had.
    { apply (ti_fused _ _ _ _ I) in HF as (r & Hr & Had). pose proof (adjacent_elem _ _ _ Had) as [Ha _].
      destruct (ti_elem _ _ _ _ I r a Hr Ha). congruence. }
    eexists _, _, _. split; [done|]. apply (table_inv_redirect _ _ _ _ _ _ _ _ _ _ (P (rep a)) I); [done..| | | |].
    + by rewrite (path_link_copy _ _ _ _ _ El Had).
    + by apply (ti_nodup _ _ _ _ I).
    + tauto.
    + intros c d. split; [tauto|]. by intros [?|[?|[-> ->]]].
  - destruct (table_inv_ends F _ rep P a b I Hab HF) as (Hlast & Hhead & Hne).
    eexists _, _, _. split; [done|].
    apply (table_inv_redirect _ _ _ _ _ _ _ _ _ _ (P (rep a) ++ P (rep b)) I); [done..| | | |].
    + by apply path_link_app.
    + apply NoDup_app. split_and!; [by apply (ti_nodup _ _ _ _ I)| |by apply (ti_nodup _ _ _ _ I)].
      intros i Hi Hi'. destruct (ti_elem _ _ _ _ I _ i Hra Hi), (ti_elem _ _ _ _ I _ i Hrb Hi'). congruence.
    + intros i. by rewrite elem_of_app.
    + intros c d. rewrite adjacent_app. rewrite Hlast, Hhead. naive_solver.
Qed.

(** ** The loops *)

Lemma port_map_nil t n : port_map t raw n [] → ∀ p j, ¬ port_link t raw n p j.
Proof. intros [_ Hm] p j Hj. by apply Hm, elem_of_nil in Hj. Qed.

Section maps.
Context (im om : PortMap).
Context (Him : ports_indexed INPUT raw im) (Hom : ports_indexed OUTPUT raw om).

Lemma map_none t (m : PortMap) n p j :
  ports_indexed t raw m → m !! n = None → ¬ port_link t raw n p j.
Proof. intros Hm E. specialize (Hm n). rewrite E in Hm. by apply port_map_nil. Qed.

Lemma map_first t (m : PortMap) n :
  ports_indexed t raw m →
  match m !! n with
  | Some ((_, i) :: _) => ∀ j, first_link t raw n j ↔ j = i
  | _ => ∀ j, ¬ first_link t raw n j
  end.
Proof.
  intros Hm. specialize (Hm n). destruct (m !! n) as [[|[p i] l]|]; cbn in Hm.
  - intros j (p & Hp & _). by eapply port_map_nil.
  - by eapply port_map_first.
  - intros j (p & Hp & _). by eapply port_map_nil.
Qed.

Definition first_pair (n : string) (a b : nat) : Prop :=
  first_link INPUT raw n a ∧ first_link OUTPUT raw n b.
Definition path_pair (n : string) (path : throughPath) (a b : nat) : Prop :=
  port_link INPUT raw n (inputPortId path) a ∧ port_link OUTPUT raw n (outputPortId path) b.

(** A loop went on from [F] to pairs that satisfy [Q] as well. *)
Definition extends (F : list (nat * nat)) (Q : nat → nat → Prop) (r : outcome LinkTable) : Prop :=
  ∃ st rep P F', r = Ret st ∧ table_inv F' st rep P ∧ ∀ a b, (a, b) ∈ F' ↔ (a, b) ∈ F ∨ Q a b.

Lemma extends_none F st rep P Q :
  table_inv F st rep P → (∀ a b, ¬ Q a b) → extends F Q (Ret st).
Proof. intros I HQ. exists st, rep, P, F. split_and!; [done..|]. naive_solver. Qed.

Lemma extends_fuse F st rep P a b (Q : nat → nat → Prop) k :
  table_inv F st rep P → G a b →
  (∀ st rep P, table_inv ((a, b) :: F) st rep P → extends ((a, b) :: F) Q (k st)) →
  extends F (λ c d, (c = a ∧ d = b) ∨ Q c d) (fuse st a b ≫= k).
Proof.
  intros I Hab Hk. destruct (fuse_spec F st rep P a b I Hab) as (st' & rep' & P' & -> & I').
  rewrite outcome_bind_ret_l.
  destruct (Hk _ _ _ I') as (st'' & rep'' & P'' & F' & -> & I'' & HF).
  exists st'', rep'', P'', F'. split_and!; [done..|]. intros c d. rewrite HF, elem_of_cons. naive_solver.
Qed.

Lemma extends_ext F (Q Q' : nat → nat → Prop) r :
  (∀ a b, Q a b ↔ Q' a b) → extends F Q r → extends F Q' r.
Proof.
  intros HQ (st & rep & P & F' & -> & I & HF). exists st, rep, P, F'.
  split_and!; [done..|]. intros a b. by rewrite HF, HQ.
Qed.

Lemma prune_normal_spec ns : ∀ F st rep P,
  table_inv F st rep P → (∀ n a b, n ∈ ns → first_pair n a b → G a b) →
  extends F (λ a b, ∃ n, n ∈ ns ∧ first_pair n a b) (prune_normal im om ns st).
Proof.
  induction ns as [|n ns IH]; intros F st rep P I HG'; cbn [prune_normal].
  { eapply extends_none; [done|]. by intros a b (? & ?%elem_of_nil & _). }
  pose proof (map_first INPUT im n Him) as Hi. pose proof (map_first OUTPUT om n Hom) as Ho.
  assert (∀ m a b, m ∈ ns → first_pair m a b → G a b) as HG''.
  { intros m a b Hm. apply HG'. by right. }
  destruct (im !! n) as [[|[p i] l]|]; try
    (eapply extends_ext; [|by eapply IH]; intros a b; setoid_rewrite elem_of_cons;
     split; [naive_solver|]; intros (m & [->|Hm] & Hp); [by destruct (Hi a), Hp|eauto]).
  destruct (om !! n) as [[|[q o] l']|]; try
    (eapply extends_ext; [|by eapply IH]; intros a b; setoid_rewrite elem_of_cons;
     split; [naive_solver|]; intros (m & [->|Hm] & Hp); [by destruct (Ho b), Hp|eauto]).
  assert (∀ a b, first_pair n a b ↔ a = i ∧ b = o) as Hpair.
  { intros a b. unfold first_pair. by rewrite Hi, Ho. }
  eapply extends_ext; [|eapply (extends_fuse F st rep P i o (λ a b, ∃ m, m ∈ ns ∧ first_pair m a b)); [done|apply (HG' n); [by left|by apply Hpair]|]].
  2: { intros. by eapply IH. }
  intros a b. cbv beta. rewrite <-Hpair. setoid_rewrite elem_of_cons. naive_solver.
Qed.

(** The entry of a port. *)
Lemma map_port t (m : PortMap) n l p :
  ports_indexed t raw m → m !! n = Some l →
  match om_find l p with
  | Some i => ∀ j, port_link t raw n p j ↔ j = i
  | None => ∀ j, ¬ port_link t raw n p j
  end.
Proof.
  intros Hm E. specialize (Hm n). rewrite E in Hm. cbn in Hm. unfold id in Hm.
  destruct (om_find l p) as [i|] eqn:Ei; [|by apply (port_map_none _ _ _ _ _ Hm)].
  destruct Hm as [Hs Hm]. intros j. rewrite <-Hm, <-om_find_sorted by done.
  rewrite Ei. naive_solver.
Qed.

Lemma prune_paths_spec n inputs outputs paths : ∀ F st rep P,
  im !! n = Some inputs → om !! n = Some outputs →
  table_inv F st rep P → (∀ path a b, path ∈ paths → path_pair n path a b → G a b) →
  extends F (λ a b, ∃ path, path ∈ paths ∧ path_pair n path a b) (prune_paths inputs outputs paths st).
Proof.
  intros F st rep P Ei Eo. revert F st rep P.
  induction paths as [|path paths IH]; intros F st rep P I HG'; cbn [prune_paths].
  { eapply extends_none; [done|]. by intros a b (? & ?%elem_of_nil & _). }
  pose proof (map_port INPUT im n inputs (inputPortId path) Him Ei) as Hi.
  pose proof (map_port OUTPUT om n outputs (outputPortId path) Hom Eo) as Ho.
  assert (∀ p a b, p ∈ paths → path_pair n p a b → G a b) as HG''.
  { intros p a b Hp. apply HG'. by right. }
  destruct (om_find inputs _) as [i|]; try
    (eapply extends_ext; [|by eapply IH]; intros a b; setoid_rewrite elem_of_cons;
     split; [naive_solver|]; intros (m & [->|Hm] & Hp); [by destruct (Hi a), Hp|eauto]).
  destruct (om_find outputs _) as [o|]; try
    (eapply extends_ext; [|by eapply IH]; intros a b; setoid_rewrite elem_of_cons;
     split; [naive_solver|]; intros (m & [->|Hm] & Hp); [by destruct (Ho b), Hp|eauto]).
  assert (∀ a b, path_pair n path a b ↔ a = i ∧ b = o) as Hpair.
  { intros a b. unfold path_pair. by rewrite Hi, Ho. }
  eapply extends_ext; [|eapply (extends_fuse F st rep P i o (λ a b, ∃ p, p ∈ paths ∧ path_pair n p a b));
    [done|apply (HG' path); [by left|by apply Hpair]|]].
  2: { intros. by eapply IH. }
  intros a b. cbv beta. rewrite <-Hpair. setoid_rewrite elem_of_cons. naive_solver.
Qed.

Lemma extends_bind F Q Q' r k :
  extends F Q r →
  (∀ F' st rep P, table_inv F' st rep P → extends F' Q' (k st)) →
  extends F (λ a b, Q a b ∨ Q' a b) (r ≫= k).
Proof.
  intros (st & rep & P & F' & -> & I & HF) Hk. rewrite outcome_bind_ret_l.
  destruct (Hk F' st rep P I) as (st' & rep' & P' & F'' & -> & I' & HF').
  exists st', rep', P', F''. split_and!; [done..|]. intros a b. rewrite HF', HF. tauto.
Qed.

Definition rule_pair (rules : list (string * list throughPath)) (a b : nat) : Prop :=
  ∃ n paths path, (n, paths) ∈ rules ∧ path ∈ paths ∧ path_pair n path a b.

Lemma rule_pair_cons n paths rules a b :
  rule_pair ((n, paths) :: rules) a b ↔
  (∃ path, path ∈ paths ∧ path_pair n path a b) ∨ rule_pair rules a b.
Proof.
  unfold rule_pair. split.
  - intros (n' & ps & p & [[= -> ->]|Hin]%elem_of_cons & Hp & Hpair); [left|right]; eauto 6.
  - intros [(p & Hp & Hpair)|(n' & ps & p & Hin & Hp & Hpair)];
      [exists n, paths, p|exists n', ps, p]; (split; [|done]); [by left|by right].
Qed.

Lemma prune_rules_spec rules : ∀ F st rep P,
  table_inv F st rep P → (∀ a b, rule_pair rules a b → G a b) →
  extends F (rule_pair rules) (prune_rules im om rules st).
Proof.
  induction rules as [|[n paths] rules IH]; intros F st rep P I HG'; cbn [prune_rules].
  { eapply extends_none; [done|]. intros a b (? & ? & ? & Hin & _). by apply elem_of_nil in Hin. }
  assert (∀ a b, rule_pair rules a b → G a b) as HG''.
  { intros a b Hr. apply HG', rule_pair_cons. by right. }
  destruct (im !! n) as [inputs|] eqn:Ei; last first.
  { eapply extends_ext; [|by eapply IH]. intros a b. rewrite rule_pair_cons.
    split; [by right|]. intros [(p & _ & Hp & _)|?]; [by destruct (map_none INPUT im n _ _ Him Ei Hp)|done]. }
  destruct (om !! n) as [outputs|] eqn:Eo; last first.
  { eapply extends_ext; [|by eapply IH]. intros a b. rewrite rule_pair_cons.
    split; [by right|]. intros [(p & _ & _ & Hp)|?]; [by destruct (map_none OUTPUT om n _ _ Hom Eo Hp)|done]. }
  eapply extends_ext; [|eapply (extends_bind F _ (rule_pair rules));
    [apply (prune_paths_spec n inputs outputs paths F st rep P); [done..|]|]].
  - intros a b. cbv beta. by rewrite rule_pair_cons.
  - intros p a b Hp Hpair. apply HG', rule_pair_cons. left. eauto.
  - intros. by eapply IH.
Qed.
End maps.

(** ** The links that are left *)

(** The representatives of the raw links from [k] on, without those of earlier ones, in
    the order in which they first occur. *)
Definition actives (rep : nat → nat) (k m : nat) (act : list nat) : Prop :=
  (∀ v, v ∈ act ↔ (∃ i, (k ≤ i < k + m)%nat ∧ rep i = v) ∧ ∀ i, (i < k)%nat → rep i ≠ v) ∧
  NoDup act ∧
  StronglySorted (λ v w, ∃ i, (i < k + m)%nat ∧ rep i = v ∧
    ∀ j, (j < k + m)%nat → rep j = w → (i < j)%nat) act.

Lemma active_links_spec table rep m : ∀ k seen,
  rep_ok table rep → (k + m ≤ length table)%nat → length seen = length table →
  (∀ v b, seen !! v = Some b → b = true ↔ ∃ i, (i < k)%nat ∧ rep i = v) →
  ∃ act, active_links table (seq k m) seen = Ret act ∧ actives rep k m act.
Proof.
  induction m as [|m IH]; intros k seen Hok Hlen Hseen Hs; cbn [seq active_links].
  { exists []. split; [done|]. split_and!; [|constructor..].
    intros v. split; [by intros ?%elem_of_nil|]. intros [(i & ? & _) _]. lia. }
  unfold actives. replace (k + S m)%nat with (S k + m)%nat in * by lia.
  rewrite (getRealLinkIndex_rep _ _ _ _ Hok) by lia. rewrite outcome_bind_ret_l.
  assert (rep k < length table)%nat as Hv.
  { eapply lookup_lt_Some, (ro_rep _ _ Hok). lia. }
  destruct (lookup_lt_is_Some_2 seen (rep k)) as [b Hb]; [lia|]. rewrite Hb.
  change (or_ub (Some b)) with (Ret b). rewrite outcome_bind_ret_l.
  specialize (Hs (rep k) b Hb) as Hbk.
  destruct b.
  - destruct (proj1 Hbk eq_refl) as (i0 & Hi0 & Ei0).
    destruct (IH (S k) seen Hok Hlen Hseen) as (act & -> & Hact & Hnd & Hsort).
    { intros v b Hvb. rewrite (Hs v b Hvb). split; intros (i & Hi & E); [exists i; split; [lia|done]|].
      destruct (decide (i = k)) as [->|]; [exists i0; split; [done|congruence]|exists i; split; [lia|done]]. }
    exists act. split; [done|]. split_and!; [|done..].
    intros v. rewrite Hact. split.
    + intros [(i & Hi & E) Hno]. split; [exists i; split; [lia|done]|]. intros j Hj. apply Hno. lia.
    + intros [(i & Hi & E) Hno]. split.
      * exists i. split; [|done]. enough (i ≠ k) by lia. intros ->. apply (Hno i0); [lia|congruence].
      * intros j Hj E'. destruct (decide (j = k)) as [->|]; [apply (Hno i0); [lia|congruence]|apply (Hno j); [lia|done]].
  - assert (∀ i, (i < k)%nat → rep i ≠ rep k) as Hnew.
    { intros i Hi E. by enough (false = true) by done; apply Hbk; eauto. }
    destruct (IH (S k) (<[rep k := true]> seen) Hok Hlen) as (act & -> & Hact & Hnd & Hsort).
    { by rewrite length_insert. }
    { intros v b. destruct (decide (v = rep k)) as [->|Hne].
      - rewrite list_lookup_insert_eq by lia. intros [= <-]. split; [|done]. intros _. exists k. split; [lia|done].
      - rewrite list_lookup_insert_ne by done. intros Hvb. rewrite (Hs v b Hvb).
        split; intros (i & Hi & E); exists i; (split; [|done]); [lia|].
        enough (i ≠ k) by lia. intros ->. done. }
    exists (rep k :: act). split; [done|]. split_and!.
    + intros v. rewrite elem_of_cons, Hact. split.
      * intros [->|[(i & Hi & E) Hno]]; [split; [exists k; split; [lia|done]|done]|].
        split; [exists i; split; [lia|done]|]. intros j Hj. apply Hno. lia.
      * intros [(i & Hi & E) Hno]. destruct (decide (v = rep k)) as [->|Hne]; [by left|right].
        split; [exists i; split; [|done]; enough (i ≠ k) by lia; congruence|].
        intros j Hj. destruct (decide (j = k)) as [->|]; [congruence|apply Hno; lia].
    + constructor; [|done]. intros [_ Hno]%Hact. by apply (Hno k); [lia|].
    + constructor; [done|]. apply Forall_forall. intros w [_ Hno]%Hact.
      exists k. split_and!; [lia|done|]. intros j Hj E.
      destruct (decide (j < S k)%nat) as [Hjk|]; [by destruct (Hno j Hjk)|lia].
Qed.

(** At the end: one path for each representative; the paths are disjoint. *)
Lemma NoDup_paths F st rep P act :
  table_inv F st rep P → (∀ r, r ∈ act → st.2 !! r = Some r) → NoDup act →
  NoDup (mjoin (P <$> act)).
Proof.
  intros I Hself Hnd. induction Hnd as [|r act Hr Hnd IH]; cbn; [constructor|].
  apply NoDup_app. split_and!.
  - apply (ti_nodup _ _ _ _ I), Hself. by left.
  - intros i Hi (p & Hp & (r' & -> & Hr')%list_elem_of_fmap)%list_elem_of_join.
    destruct (ti_elem _ _ _ _ I r i) as [_ E1]; [apply Hself; by left|done|].
    destruct (ti_elem _ _ _ _ I r' i) as [_ E2]; [apply Hself; by right|done|]. congruence.
  - apply IH. intros r' Hr'. apply Hself. by right.
Qed.

Lemma table_inv_paths F st rep P act :
  table_inv F st rep P → actives rep 0 (length raw) act →
  paths_of (λ a b, (a, b) ∈ F) (length raw) (P <$> act) ∧
  omap (st.1 !!.) act = omap (path_link raw) (P <$> act).
Proof.
  intros I (Hact & Hnd & Hsort). pose proof (ti_size _ _ _ _ I) as Hsize.
  assert (∀ i, (i < length raw)%nat → rep i ∈ act) as Hall.
  { intros i Hi. apply Hact. split; [exists i; split; [lia|done]|lia]. }
  assert (∀ r, r ∈ act → st.2 !! r = Some r) as Hself.
  { intros r [(i & Hi & <-) _]%Hact. apply (ro_rep _ _ (ti_rep _ _ _ _ I)). lia. }
  split; [split_and!|].
  - apply NoDup_Permutation; [by eapply NoDup_paths|apply NoDup_seq|].
    intros i. rewrite list_elem_of_join, elem_of_seq. split.
    + intros (p & Hp & (r & -> & Hr)%list_elem_of_fmap).
      destruct (ti_elem _ _ _ _ I r i (Hself r Hr) Hp). lia.
    + intros [_ Hi]. exists (P (rep i)). split; [by apply (ti_in _ _ _ _ I)|].
      apply list_elem_of_fmap. exists (rep i). split; [done|by apply Hall].
  - intros a b. rewrite (ti_fused _ _ _ _ I). split.
    + intros (r & Hr & Had). exists (P r). split; [|done]. apply list_elem_of_fmap. exists r. split; [done|].
      destruct (adjacent_elem _ _ _ Had) as [Ha _]. destruct (ti_elem _ _ _ _ I r a Hr Ha) as [Hla <-].
      by apply Hall.
    + intros (p & (r & -> & Hr)%list_elem_of_fmap & Had). eauto.
  - apply Forall_fmap, Forall_forall. intros r Hr. cbn. by apply (ti_path _ _ _ _ I r (Hself r Hr)).
  - clear Hall Hact Hnd. induction Hsort as [|r act Hsort IH Hr]; cbn [fmap list_fmap]; [constructor|].
    constructor; [apply IH; intros r' Hr'; apply Hself; by right|].
    apply Forall_fmap. apply Forall_forall. intros w Hw. rewrite Forall_forall in Hr.
    destruct (Hr w Hw) as (i & Hi & <- & Hleast). exists i. split; [by apply (ti_in _ _ _ _ I)|].
    intros j Hj. destruct (ti_elem _ _ _ _ I w j) as [? E]; [apply Hself; by right|done|].
    apply Hleast; [lia|done].
  - clear Hall Hact Hnd Hsort. induction act as [|r act IH]; [done|]. cbn.
    destruct (ti_path _ _ _ _ I r) as [-> _]; [apply Hself; by left|].
    rewrite IH by (intros r' Hr'; apply Hself; by right). done.
Qed.

(** The table before the first pair. *)
Lemma table_inv_init :
  table_inv [] (raw, seq 0 (length raw)) id (λ i, [i]).
Proof.
  assert (∀ i j, seq 0 (length raw) !! i = Some j ↔ j = i ∧ (i < length raw)%nat) as Hseq.
  { intros i j. rewrite lookup_seq. intuition lia. }
  split; cbn [fst snd]; rewrite ?length_seq; [done|done|by intros ?? ?%elem_of_nil| | | | | |].
  - split; rewrite ?length_seq; unfold id.
    + by intros i j [-> ?]%Hseq.
    + intros i Hi. by apply Hseq.
    + done.
  - intros i _. by left.
  - intros r _. done.
  - intros r i [_ Hr]%Hseq ->%list_elem_of_singleton. done.
  - intros r _. apply NoDup_singleton.
  - intros a b. split; [by intros ?%elem_of_nil|].
    intros (r & _ & [[_ ?]|H]%adjacent_cons); [done|by apply adjacent_nil in H].
Qed.
End table.

(** The pairs of neighbouring links are joined by a node. *)
Lemma fused_ends links rules normal a b :
  fused links rules normal a b →
  ∃ la lb, links !! a = Some la ∧ links !! b = Some lb ∧ dstNodeInstance la = srcNodeInstance lb.
Proof.
  intros [(n & _ & (p & (la & Ea & Hna & _) & _) & (q & (lb & Eb & Hnb & _) & _))|
          (n & ps & path & _ & _ & (la & Ea & Hna & _) & (lb & Eb & Hnb & _))];
    exists la, lb; cbn in *; split_and!; congruence.
Qed.

(** ** Bypassed nodes

    All links into [n] are continued; all links out of it continue one. *)
Definition bypassed_in (R : nat → nat → Prop) (links : list LinkItem) (n : string) : Prop :=
  ∀ a link, links !! a = Some link → dstNodeInstance link = n → ∃ b, R a b.
Definition bypassed_out (R : nat → nat → Prop) (links : list LinkItem) (n : string) : Prop :=
  ∀ b link, links !! b = Some link → srcNodeInstance link = n → ∃ a, R a b.

Lemma adjacent_NoDup l a b : NoDup l → adjacent l a b → last l ≠ Some a ∧ head l ≠ Some b.
Proof.
  intros Hnd (l1 & l2 & ->). apply NoDup_app in Hnd as (Hnd1 & Hd & Hnd2).
  apply NoDup_cons in Hnd2 as [Ha Hnd2]. split.
  - rewrite last_app_cons, last_cons_cons. intros Hl. apply last_Some_elem_of in Hl. done.
  - destruct l1 as [|x l1]; cbn; intros [= ->]; [by apply Ha; left|].
    apply (Hd b); [by left|right; by left].
Qed.

Lemma join_disjoint (ls : list (list nat)) p q i :
  NoDup (mjoin ls) → p ∈ ls → q ∈ ls → i ∈ p → i ∈ q → p = q.
Proof.
  induction ls as [|l ls IH]; [by intros _ ?%elem_of_nil|].
  cbn. intros (_ & Hd & Hnd)%NoDup_app.
  intros [->|Hp]%elem_of_cons [->|Hq]%elem_of_cons Hi Hi'; [done| | |by apply IH].
  - destruct (Hd i Hi). apply list_elem_of_join. eauto.
  - destruct (Hd i Hi'). apply list_elem_of_join. eauto.
Qed.

(** The link of a path neither ends nor starts at a bypassed node. *)
Lemma paths_of_bypassed R links paths l :
  paths_of R (length links) paths → l ∈ omap (path_link links) paths →
  ¬ bypassed_in R links (dstNodeInstance l) ∧ ¬ bypassed_out R links (srcNodeInstance l).
Proof.
  intros (Hperm & HR & _ & _) (path & Hpath & Hl)%list_elem_of_omap.
  assert (NoDup (mjoin paths)) as Hnd by (rewrite Hperm; apply NoDup_seq).
  assert (NoDup path) as Hndp.
  { apply list_elem_of_split in Hpath as (l1 & l2 & ->).
    rewrite join_app in Hnd. by apply NoDup_app in Hnd as (_ & _ & [? _]%NoDup_app). }
  apply path_link_ends in Hl as (i & j & li & lj & Hi & Hj & Eli & Elj & _ & _ & Hends).
  assert (srcNodeInstance l = srcNodeInstance li ∧ dstNodeInstance l = dstNodeInstance lj) as [-> ->]
    by (destruct Hends as [[-> ->]| ->]; done).
  split; intros Hby.
  - destruct (Hby j lj Elj eq_refl) as [b (path' & Hpath' & Had)%HR].
    assert (path' = path) as ->.
    { apply (join_disjoint paths _ _ j); [done..|by apply adjacent_elem in Had as []|].
      by apply last_Some_elem_of. }
    by apply (adjacent_NoDup _ _ _ Hndp) in Had as [? _].
  - destruct (Hby i li Eli eq_refl) as [b (path' & Hpath' & Had)%HR].
    assert (path' = path) as ->.
    { apply (join_disjoint paths _ _ i); [done..|by apply adjacent_elem in Had as []|].
      destruct path; [done|]. injection Hi as ->. by left. }
    by apply (adjacent_NoDup _ _ _ Hndp) in Had as [_ ?].
Qed.

(** The theorem below, for the callers. *)
Lemma pipelineNodePrune_run rules normal p :
  acyclic (links p) → one_to_one (fused (links p) rules normal) →
  ∃ paths p', pipelineNodePrune rules normal p = Ret p' ∧
    p' = with_links p (omap (path_link (links p)) paths) ∧
    paths_of (fused (links p) rules normal) (length (links p)) paths ∧
    ∀ l, l ∈ links p' → ¬ bypassed_in (fused (links p) rules normal) (links p) (dstNodeInstance l) ∧
                        ¬ bypassed_out (fused (links p) rules normal) (links p) (srcNodeInstance l).
Proof.
  intros [rank Hrank] HG. set (G := fused (links p) rules normal) in *.
  pose proof (fused_ends (links p) rules normal) as Hends. fold G in Hends.
  unfold pipelineNodePrune. destruct (index_ports 0 (links p) ∅ ∅) as [im om] eqn:E.
  apply index_ports_spec in E as [Him Hom].
  destruct (prune_normal_spec (links p) G HG rank Hrank Hends im om Him Hom normal [] _ _ _
              (table_inv_init (links p) G)) as (st & rep & P & F & -> & I & HF).
  { intros n a b Hn [Ha Hb]. left. eauto. }
  rewrite outcome_bind_ret_l.
  destruct (prune_rules_spec (links p) G HG rank Hrank Hends im om Him Hom rules F st rep P I)
    as (st' & rep' & P' & F' & -> & I' & HF').
  { intros a b (n & ps & path & Hin & Hp & [Ha Hb]). right. eauto 8. }
  rewrite outcome_bind_ret_l. destruct st' as [ls table].
  pose proof (ti_size _ _ _ _ _ _ I') as Hsize. cbn [snd] in Hsize.
  destruct (active_links_spec table rep' (length (links p)) 0
              (replicate (length table) false)) as (act & -> & Hact).
  - apply (ti_rep _ _ _ _ _ _ I').
  - lia.
  - apply length_replicate.
  - intros v b [-> _]%lookup_replicate. split; [done|]. intros (i & ? & _). lia.
  - rewrite outcome_bind_ret_l.
    destruct (table_inv_paths _ _ _ _ _ _ _ I' Hact) as [(Hperm & Hadj & Hrest) Homap]. cbn [fst] in Homap.
    assert (paths_of G (length (links p)) (P' <$> act)) as Hpaths.
    { split; [done|]. split; [|done]. intros a b. rewrite <-Hadj, HF', HF. unfold G, fused. split.
      - intros [(n & Hn & Ha & Hb)|(n & ps & path & Hin & Hp & Ha & Hb)]; [left; right|right];
          [by exists n|by exists n, ps, path].
      - intros [[[]%elem_of_nil|(n & Hn & Ha & Hb)]|(n & ps & path & Hin & Hp & Ha & Hb)];
          [left; by exists n|right; by exists n, ps, path]. }
    rewrite Homap. eexists _, _. split; [done|]. split; [done|]. split; [done|].
    intros l. by apply paths_of_bypassed.
Qed.

(** C20. Bypassing nodes of a pipeline without cycles, when the rules and the order of the ports
    let every link be continued by at most one link and continue at most one ([one_to_one]:
    without rules it is so, [fused_normal_one_to_one]; otherwise a link can be lost, Example
    [pipelineNodePrune_two_rules]), cuts its links into paths: along a path
    each link goes into a bypassed node and is continued by the one link out of it that the
    rules, or the order of the ports, assign to it.  Every path of several links becomes one
    link from the source of the first to the destination of the last, other links are kept,
    and the results are ordered by the first link of their paths.  No link is left that ends
    at a node whose links in are all continued, or starts at one whose links out all continue
    another. *)
Theorem pipelineNodePrune_spec rules normal p :
  acyclic (links p) → one_to_one (fused (links p) rules normal) →
  ∃ paths p', pipelineNodePrune rules normal p = Ret p' ∧
    p' = with_links p (omap (path_link (links p)) paths) ∧
    paths_of (fused (links p) rules normal) (length (links p)) paths ∧
    ∀ l, l ∈ links p' → ¬ bypassed_in (fused (links p) rules normal) (links p) (dstNodeInstance l) ∧
                        ¬ bypassed_out (fused (links p) rules normal) (links p) (srcNodeInstance l).
Proof. apply pipelineNodePrune_run. Qed.

(** Without rules every link is continued by one, and continues one. *)
Lemma first_link_unique t links n i j : first_link t links n i → first_link t links n j → i = j.
Proof.
  intros (p & Hp & Hlow) (q & Hq & Hlow'). pose proof Hp as (l & El & Es & Ep & Hl).
  pose proof Hq as (l' & El' & Es' & Ep' & Hl').
  assert (p = q) as <-.
  { specialize (Hlow j l' El' Es'). specialize (Hlow' i l El Es). lia. }
  destruct (lt_eq_lt_dec i j) as [[H|]|H]; [exfalso|done|exfalso].
  - by apply (Hl' i l).
  - by apply (Hl j l').
Qed.

Lemma fused_normal_one_to_one links normal : one_to_one (fused links [] normal).
Proof.
  split.
  - intros a b b' [(n & _ & Ha & Hb)|(? & ? & ? & []%elem_of_nil & _)]
      [(n' & _ & Ha' & Hb')|(? & ? & ? & []%elem_of_nil & _)].
    assert (n = n') as <-.
    { destruct Ha as (? & (l & ? & ? & _) & _), Ha' as (? & (l' & ? & ? & _) & _). congruence. }
    by eapply first_link_unique.
  - intros a a' b [(n & _ & Ha & Hb)|(? & ? & ? & []%elem_of_nil & _)]
      [(n' & _ & Ha' & Hb')|(? & ? & ? & []%elem_of_nil & _)].
    assert (n = n') as <-.
    { destruct Hb as (? & (l & ? & ? & _) & _), Hb' as (? & (l' & ? & ? & _) & _). congruence. }
    by eapply first_link_unique.
Qed.

(** ** A pipeline

    A chain of two disabled nodes, and a node that stays. *)
Definition demo_chain : PipelineInfo :=
  {| pipelineName := "Chain"; nodes := [];
     links := [demo_link "SourceBuffer0" 0 "A" 0; demo_link "A" 0 "B" 0; demo_link "SourceBuffer1" 1 "C" 1;
               demo_link "B" 0 "C" 0; demo_link "C" 0 "SinkBuffer0" 0] |}.

Definition demo_rank (n : string) : nat :=
  if String.eqb n "A" then 1 else if String.eqb n "B" then 2 else
  if String.eqb n "C" then 3 else if String.eqb n "SinkBuffer0" then 4 else 0.

Lemma demo_chain_acyclic : acyclic (links demo_chain).
Proof.
  exists demo_rank. intros i link. do 5 (destruct i as [|i]; [intros [= <-]; vm_compute; lia|]). done.
Qed.

Lemma pipelineNodePrune_witness :
  (∃ paths p', pipelineNodePrune [] ["A"; "B"]%string demo_chain = Ret p' ∧
     p' = with_links demo_chain (omap (path_link (links demo_chain)) paths) ∧
     paths_of (fused (links demo_chain) [] ["A"; "B"]%string) 5 paths ∧
     ∀ l, l ∈ links p' →
       ¬ bypassed_in (fused (links demo_chain) [] ["A"; "B"]%string) (links demo_chain) (dstNodeInstance l) ∧
       ¬ bypassed_out (fused (links demo_chain) [] ["A"; "B"]%string) (links demo_chain) (srcNodeInstance l)) ∧
  pipelineNodePrune [] ["A"; "B"]%string demo_chain =
    Ret (with_links demo_chain
      [demo_link "SourceBuffer0" 0 "C" 0; demo_link "SourceBuffer1" 1 "C" 1; demo_link "C" 0 "SinkBuffer0" 0]).
Proof.
  split; [|by vm_compute].
  apply (pipelineNodePrune_spec [] ["A"; "B"]%string demo_chain demo_chain_acyclic).
  apply fused_normal_one_to_one.
Defined.

(** Only the first link of a port is fused: the second link out of a disabled node stays, with
    a source that is not run. *)
Example pipelineNodePrune_fan_out :
  pipelineNodePrune [] ["A"%string]
    {| pipelineName := "Fan"; nodes := [];
       links := [demo_link "SourceBuffer0" 0 "A" 0; demo_link "A" 0 "B" 0; demo_link "A" 0 "C" 0] |} =
  Ret {| pipelineName := "Fan"; nodes := [];
         links := [demo_link "SourceBuffer0" 0 "B" 0; demo_link "A" 0 "C" 0] |}.
Proof. by vm_compute. Qed.

(** Two rules for one output: the link into the second port is lost. *)
Example pipelineNodePrune_two_rules :
  pipelineNodePrune [("A"%string, [{| inputPortId := 0; outputPortId := 0 |};
                                   {| inputPortId := 1; outputPortId := 0 |}])] []
    {| pipelineName := "Rules"; nodes := [];
       links := [demo_link "SourceBuffer0" 0 "A" 0; demo_link "SourceBuffer1" 1 "A" 1;
                 demo_link "A" 0 "SinkBuffer0" 0] |} =
  Ret {| pipelineName := "Rules"; nodes := [];
         links := [demo_link "SourceBuffer1" 1 "SinkBuffer0" 0] |}.
Proof. by vm_compute. Qed.
