(* ===== verification/CamPruner.v ===== *)
(** * Camera pipelines: pruning for a request

    [PipelinePruner] of [src/mivifwk/mialgoengine/MiaPipelinePruner.cpp] adapts the links of
    a pipeline to a request: which nodes are disabled is asked of the plug-ins and read from
    the metadata; ports and nodes go ([CamPortPrune], [CamNodePrune]); links get their types,
    and copying nodes are put between ends that need one; the result is kept for requests
    with the same key.  [MiaCustomization] (here and in [MiaPipelinePrunerInfoMTK.cpp]) holds
    the rules of the pipelines. *)
From Stdlib Require Import ZArith Lia String.
From stdpp Require Import base list strings gmap.
From S2P Require Import Prelude CamLinks CamPortPrune CamNodePrune.

(** ** Constants *)

(** @src src/mivifwk/mialgoengine/MiaPipelinePruner.h:8-41 DisableNodeMask *)
Inductive DisableNodeMask :=
  | NoneMask | AllMask | HdrMask | DepurpleMask | BeautyMask | BodyslimMask | SuperNightMask
  | SuperMoonMask | MiAiieMask | GpuMask | DeblurMask | SrMask | CaptureFusionMask | LdcMask
  | DCMask | OfflineMask | MiFlawMask | MemcpyMask | AIPortraitDeblur | RearSuperNightMask
  | CupYuvMask | CupRawMask | BokehMask | ArcSoftsSLLMask | PureViewMask | XiaoMiFuisonMask
  | MiaiRawHDR | MiAlgoSNSCMask | AnchorMask | MtkHWProcMask | MtkHWJpegMask.

(** @src src/mivifwk/mialgoengine/MiaPipelinePruner.h:9-40 DisableNodeMask (values)

    As unsigned values: the mask they are compared with is a [uint32_t]. *)
Definition mask_value (mask : DisableNodeMask) : Z :=
  match mask with
  | NoneMask => 0
  | AllMask => 1
  | HdrMask => Z.shiftl 1 1
  | DepurpleMask => Z.shiftl 1 2
  | BeautyMask => Z.shiftl 1 3
  | BodyslimMask => Z.shiftl 1 4
  | SuperNightMask => Z.shiftl 1 5
  | SuperMoonMask => Z.shiftl 1 6
  | MiAiieMask => Z.shiftl 1 7
  | GpuMask => Z.shiftl 1 8
  | DeblurMask => Z.shiftl 1 9
  | SrMask => Z.shiftl 1 10
  | CaptureFusionMask => Z.shiftl 1 11
  | LdcMask => Z.shiftl 1 12
  | DCMask => Z.shiftl 1 13
  | OfflineMask => Z.shiftl 1 14
  | MiFlawMask => Z.shiftl 1 15
  | MemcpyMask => Z.shiftl 1 16
  | AIPortraitDeblur => Z.shiftl 1 17
  | RearSuperNightMask => Z.shiftl 1 18
  | CupYuvMask => Z.shiftl 1 19
  | CupRawMask => Z.shiftl 1 20
  | BokehMask => Z.shiftl 1 21
  | ArcSoftsSLLMask => Z.shiftl 1 22
  | PureViewMask => Z.shiftl 1 23
  | XiaoMiFuisonMask => Z.shiftl 1 24
  | MiaiRawHDR => Z.shiftl 1 25
  | MiAlgoSNSCMask => Z.shiftl 1 26
  | AnchorMask => Z.shiftl 1 27
  | MtkHWProcMask => Z.shiftl 1 30
  | MtkHWJpegMask => Z.shiftl 1 31
  end.

(** @src src/mivifwk/mialgoengine/MiaPipelinePruner.cpp:7-39 gPluginNameToNodeMask *)
Definition gPluginNameToNodeMask : list (string * DisableNodeMask) :=
  [("com.xiaomi.plugin.hdr", HdrMask);
   ("com.xiaomi.plugin.depurple", DepurpleMask);
   ("com.xiaomi.plugin.skinbeautifier", BeautyMask);
   ("com.xiaomi.plugin.bodyslim", BodyslimMask);
   ("com.xiaomi.plugin.sr", SrMask);
   ("com.xiaomi.plugin.miaiportraitsupernight", SuperNightMask);
   ("com.xiaomi.plugin.supermoon", SuperMoonMask);
   ("com.xiaomi.plugin.mialgoellc", SuperNightMask);
   ("com.xiaomi.plugin.miaiie", MiAiieMask);
   ("com.xiaomi.plugin.gpu", GpuMask);
   ("com.xiaomi.plugin.miaideblur", DeblurMask);
   ("com.xiaomi.plugin.miaiportraitdeblur", AIPortraitDeblur);
   ("com.xiaomi.plugin.mifragment", MiAiieMask);
   ("com.xiaomi.plugin.misegment", MiAiieMask);
   ("com.xiaomi.plugin.fusion", CaptureFusionMask);
   ("com.xiaomi.plugin.mifusion", XiaoMiFuisonMask);
   ("com.xiaomi.plugin.ldc", LdcMask);
   ("com.xiaomi.plugin.dc", DCMask);
   ("com.xiaomi.plugin.offlinepostproc", OfflineMask);
   ("com.xiaomi.plugin.miflaw", MiFlawMask);
   ("com.xiaomi.plugin.memcpy", MemcpyMask);
   ("com.xiaomi.plugin.rearsupernight", RearSuperNightMask);
   ("com.xiaomi.plugin.cupyuv", CupYuvMask);
   ("com.xiaomi.plugin.cupraw", CupRawMask);
   ("com.xiaomi.plugin.capbokeh", BokehMask);
   ("com.xiaomi.plugin.arcsoftsll", ArcSoftsSLLMask);
   ("com.xiaomi.plugin.miairawhdr", MiaiRawHDR);
   ("com.xiaomi.plugin.pureview", PureViewMask);
   ("com.xiaomi.plugin.mialgosnsc", MiAlgoSNSCMask);
   ("com.xiaomi.plugin.anchor", AnchorMask);
   ("com.xiaomi.plugin.hwproc", MtkHWProcMask);
   ("com.xiaomi.plugin.hwjpeg", MtkHWJpegMask)]%string.

(** @src src/mivifwk/mialgoengine/MiaNode.h:41-57 INPLACE_MODE .. VIRTUAL_SINKNODE *)
Definition mode_bit (n : Z) : Z := Z.shiftl 1 n.
Definition INPLACE_MODE : Z := mode_bit 0.
Definition SCALE_MODE : Z := mode_bit 2.
Definition SIGFRAME_MODE : Z := mode_bit 4.
Definition VIRTUAL_MODE : Z := mode_bit 9.
Definition VIRTUAL_SINKNODE : Z := mode_bit 10.

(** [mask & bit] as a condition. *)
Definition has_mode (mask bit : Z) : bool := truthy (Z.land mask bit).

(** ** The surroundings

    The phone: the chip, the property that turns the check of links on, and the nodes of the
    session, each a plug-in that says whether it is enabled for a request. *)
Record Env := {
  isQCOM : bool;
  OpenPrunerAbnormalDump : bool;
  mNodes : string → option (option Meta → bool);
}.

(** @src src/mivifwk/mialgoengine/MiaPipelinePruner.h:96-100 PipelinePruner (members) *)
Record PipelinePruner := {
  mRawPipeline : PipelineInfo;
  mDisableNodeMask : Z;
  mPrunedResult : list (string * PipelineInfo);
}.

(** @src src/mivifwk/mialgoengine/MiaPipelinePruner.cpp:41-47 PipelinePruner::PipelinePruner *)
Definition PipelinePruner_new (sDisableMask : Z) (rawPipeline : PipelineInfo) : PipelinePruner :=
  {| mRawPipeline := rawPipeline; mDisableNodeMask := u32 sDisableMask; mPrunedResult := [] |}.

(** ** Disabled nodes *)

(** @src src/mivifwk/mialgoengine/MiaPipelinePruner.cpp:51-71 PipelinePruner::needDisablePlugin *)
Definition needDisablePlugin (mDisableNodeMask : Z) (pluginName : string) : bool :=
  if mDisableNodeMask =? mask_value NoneMask then false
  else if mDisableNodeMask =? mask_value AllMask then true
  else match list_find (λ e, e.1 = pluginName) gPluginNameToNodeMask with
       | Some (_, (_, mask)) => truthy (Z.land (mask_value mask) mDisableNodeMask)
       | None => false
       end.

(** @src src/mivifwk/mialgoengine/MiaPipelinePruner.cpp:73-82 PipelinePruner::checkNodeEnable *)
Definition checkNodeEnable (env : Env) (nodeInstance : string) (metadata : option Meta) : bool :=
  match mNodes env nodeInstance with
  | Some enabled => enabled metadata
  | None => false
  end.

Definition offlinepostproc : string := "com.xiaomi.plugin.offlinepostproc".

(** @src src/mivifwk/mialgoengine/MiaPipelinePruner.cpp:178-200 lookForDisableNodesForRawMoveUp: isMiviFullSceneRawUp *)
Definition rawMoveUp_enable (isMiviRawZsl isMiviRawHdrSr : bool) (nodeItem : NodeItem) : bool :=
  let offline := String.eqb (nodeName nodeItem) offlinepostproc in
  let inst s := String.eqb (nodeInstance nodeItem) s in
  let isEnable := isEnable nodeItem in
  let isEnable :=
    if isMiviRawZsl && offline &&
       (negb (inst "BayerRaw2YuvInstance2"%string) && negb (inst "BayerRaw2YuvInstance1"%string) &&
        negb (inst "YuvReprocessInstance0"%string) && negb (inst "MfnrInstance0"%string) &&
        negb (inst "BurstJpegInstance0"%string)) then false else isEnable in
  let isEnable :=
    if negb isMiviRawHdrSr && offline && inst "BayerRaw2YuvInstance2"%string then false else isEnable in
  if negb isMiviRawZsl && offline && contains "BayerRaw2YuvInstance" (nodeInstance nodeItem) &&
     has_mode (nodeMask nodeItem) SIGFRAME_MODE then false else isEnable.

(** @src src/mivifwk/mialgoengine/MiaPipelinePruner.cpp:136-208 PipelinePruner::lookForDisableNodesForRawMoveUp *)
Definition lookForDisableNodesForRawMoveUp (pMeta : option Meta) (nodeItem : NodeItem) :
    outcome NodeItem :=
  isMiviRawZsl ← u8_or_0 (getVTagValue pMeta "com.xiaomi.mivi2.rawzsl.enable" None);
  isMiviRawNonZsl ← u8_or_0 (getVTagValue pMeta "com.xiaomi.mivi2.rawnonzsl.enable" None);
  if truthy isMiviRawZsl || truthy isMiviRawNonZsl then
    isSrEnable ← u8_or_0 (getVTagValue pMeta "xiaomi.superResolution.enabled" None);
    isHdrSrEnable ← u8_or_0 (getVTagValue pMeta "xiaomi.hdr.sr.enabled" None);
    _ ← u8_or_0 (getVTagValue pMeta "xiaomi.mivi.supernight.mode" None);
    let isMiviRawSr := truthy isSrEnable && truthy isMiviRawZsl in
    let isMiviRawHdrSr := isMiviRawSr && truthy isHdrSrEnable in
    Ret (with_enable nodeItem (rawMoveUp_enable (truthy isMiviRawZsl) isMiviRawHdrSr nodeItem))
  else if String.eqb (nodeName nodeItem) offlinepostproc && has_mode (nodeMask nodeItem) SIGFRAME_MODE
  then Ret (with_enable nodeItem false)
  else Ret nodeItem.

(** @src src/mivifwk/mialgoengine/MiaPipelinePruner.cpp:92-131 lookForDisableNodes: one node

    The node with its flag; it is disabled when the flag is cleared. *)
Definition check_node (env : Env) (mDisableNodeMask : Z) (metadata : option Meta) (node : NodeItem) :
    outcome NodeItem :=
  let node := with_enable node (checkNodeEnable env (nodeInstance node) metadata) in
  if negb (isEnable node) then Ret node else
  captureHint ← i32_or_0 (getVTagValue metadata "xiaomi.burst.captureHint" None);
  let node :=
    if truthy captureHint && negb (String.eqb (nodeName node) "com.xiaomi.plugin.ldc") &&
       negb (String.eqb (nodeName node) offlinepostproc) &&
       negb (String.eqb (nodeName node) "com.xiaomi.plugin.swjpegencode")
    then with_enable node false else node in
  node ← if isQCOM env then lookForDisableNodesForRawMoveUp metadata node else Ret node;
  if negb (isEnable node) then Ret node else
  Ret (if needDisablePlugin mDisableNodeMask (nodeName node) then with_enable node false else node).

(** @src src/mivifwk/mialgoengine/MiaPipelinePruner.cpp:84-133 PipelinePruner::lookForDisableNodes

    The nodes with their flags, and the disabled instances in the order of the map. *)
Fixpoint lookForDisableNodes_loop (env : Env) (mDisableNodeMask : Z) (metadata : option Meta)
    (nodes : list (string * NodeItem)) : outcome (list (string * NodeItem) * list string) :=
  match nodes with
  | [] => Ret ([], [])
  | (key, node) :: nodes =>
      node ← check_node env mDisableNodeMask metadata node;
      r ← lookForDisableNodes_loop env mDisableNodeMask metadata nodes;
      let '(nodes, disableNodes) := r in
      Ret ((key, node) :: nodes,
           if isEnable node then disableNodes else nodeInstance node :: disableNodes)
  end.

Definition lookForDisableNodes (env : Env) (mDisableNodeMask : Z) (metadata : option Meta)
    (nodes : list (string * NodeItem)) : outcome (list (string * NodeItem) * list string) :=
  match metadata with
  | None => Ret (nodes, [])
  | Some _ => lookForDisableNodes_loop env mDisableNodeMask metadata nodes
  end.

(** ** Rules of the pipelines *)

Definition DisablePorts : Type := list (string * list disablePort).
Definition ThroughPaths : Type := list (string * list throughPath).

(** [disablePorts[instance].insert({port, type})] and [paths[instance].push_back({in, out})]. *)
Definition disable (ports : DisablePorts) (instance : string) (port : Z) (type : portType) : DisablePorts :=
  om_update [] (port_insert {| portId := port; ptype := type |}) ports instance.
Definition through (paths : ThroughPaths) (instance : string) (input output : Z) : ThroughPaths :=
  om_update [] (λ l, l ++ [{| inputPortId := input; outputPortId := output |}]) paths instance.

(** @src src/mivifwk/mialgoengine/MiaPipelinePruner.cpp:843-845 disablePortSelect: the snapshot pipelines *)
Definition is_snapshot (pipelineName : string) : bool :=
  String.eqb pipelineName "SatSnapshot" || String.eqb pipelineName "SatSnapshotJpeg" ||
  String.eqb pipelineName "thirdpartyjpegsnapshot" || String.eqb pipelineName "thirdpartysnapshot".

(** @src src/mivifwk/mialgoengine/MiaPipelinePruner.cpp:839-855 MiaCustomization::disablePortSelect *)
Definition disablePortSelect (pipelineName : string) (metadata : option Meta)
    (disablePorts : DisablePorts) : outcome DisablePorts :=
  if is_snapshot pipelineName then
    match getVTagValue metadata "xiaomi.hdr.sr.enabled" None with
    | None => Ret (disable disablePorts "HDRInstance0" 1 INPUT)
    | Some data =>
        enabled ← read_u8 data;
        if enabled =? 0 then Ret (disable disablePorts "HDRInstance0" 1 INPUT)
        else _ ← read_i32 data; Ret disablePorts
    end
  else Ret disablePorts.

(** @src src/mivifwk/mialgoengine/MiaPipelinePruner.cpp:866-876 nodeBypassRuleSelect: HDRInstance0 *)
Definition bypass_hdr (metadata : option Meta) (nodesBypassRule : ThroughPaths) (disablePorts : DisablePorts) :
    outcome (bool * ThroughPaths * DisablePorts) :=
  let off := Ret (true, through nodesBypassRule "HDRInstance0" 0 0,
                  disable disablePorts "HDRInstance0" 1 INPUT) in
  match getVTagValue metadata "xiaomi.hdr.sr.enabled" None with
  | None => off
  | Some data =>
      enabled ← read_u8 data;
      if enabled =? 0 then off
      else _ ← read_i32 data; Ret (false, nodesBypassRule, disablePorts)
  end.

(** @src src/mivifwk/mialgoengine/MiaPipelinePruner.cpp:877-894 nodeBypassRuleSelect: CaptureFusionInstance0

    One variable [data] serves both tags: when the second has no entry it still holds the
    first. *)
Definition bypass_fusion (metadata : option Meta) (nodesBypassRule : ThroughPaths) (disablePorts : DisablePorts) :
    outcome (bool * ThroughPaths * DisablePorts) :=
  let off := Ret (true, through nodesBypassRule "CaptureFusionInstance0" 0 0,
                  disable disablePorts "CaptureFusionInstance0" 1 INPUT) in
  let data := getVTagValue metadata "xiaomi.burst.captureHint" None in
  captureHint ← i32_or_0 data;
  match getVTagValue metadata "xiaomi.capturefusion.isFusionOn" data with
  | None => off
  | Some data =>
      isFusionOn ← read_u8 data;
      if (isFusionOn =? 0) || (1 =? captureHint) then off
      else _ ← read_i32 data; Ret (false, nodesBypassRule, disablePorts)
  end.

(** @src src/mivifwk/mialgoengine/MiaPipelinePruner.cpp:857-898 MiaCustomization::nodeBypassRuleSelect *)
Definition nodeBypassRuleSelect (pipelineName : string) (metadata : option Meta) (nodeInstance : string)
    (nodesBypassRule : ThroughPaths) (disablePorts : DisablePorts) :
    outcome (bool * ThroughPaths * DisablePorts) :=
  if is_snapshot pipelineName then
    if String.eqb nodeInstance "HDRInstance0" then bypass_hdr metadata nodesBypassRule disablePorts
    else if String.eqb nodeInstance "CaptureFusionInstance0" then
      bypass_fusion metadata nodesBypassRule disablePorts
    else Ret (false, nodesBypassRule, disablePorts)
  else Ret (false, nodesBypassRule, disablePorts).

(** @src src/mivifwk/mialgoengine/MiaPipelinePruner.cpp:900-913 MiaCustomization::resetNodeMask *)
Definition resetNodeMask (metadata : option Meta) (instance : string) (nodes : list (string * NodeItem)) :
    outcome (list (string * NodeItem)) :=
  if contains "SrInstance1" instance then
    match getVTagValue metadata "xiaomi.capturefusion.isFusionOn" None with
    | None => Ret nodes
    | Some data =>
        isFusionOn ← read_u8 data;
        if 1 =? isFusionOn then
          match om_find nodes "SrInstance1"%string with
          | Some node =>
              Ret (om_set nodes "SrInstance1"%string
                     (with_mask node (Z.lxor (nodeMask node) (Z.shiftl 1 2))))
          | None => Ret nodes
          end
        else Ret nodes
    end
  else Ret nodes.

(** @src src/mivifwk/mialgoengine/MiaPipelinePrunerInfoMTK.cpp:5-73 MiaCustomizationMTK::disablePortSelect *)
Definition disablePortSelectMTK (pipelineName : string) (metadata : option Meta)
    (disablePorts : DisablePorts) : outcome DisablePorts :=
  feature ← i32_or_0 (getTagValue metadata 0x800B000E None);
  let ainrEnable := (feature =? 2) || (feature =? 5) || (feature =? 6) in
  hdr ← u8_or_0 (getVTagValue metadata "xiaomi.hdr.enabled" None);
  hdrSr ← u8_or_0 (getVTagValue metadata "xiaomi.hdr.sr.enabled" None);
  _ ← i32_or_0 (getVTagValue metadata "xiaomi.supernight.raw.enabled" None);
  if String.eqb pipelineName "DualBokehSnapshot" then
    if truthy hdr then Ret disablePorts
    else Ret (disable (disable disablePorts "CapbokehInstance" 2 INPUT) "CapbokehInstance" 3 INPUT)
  else if String.eqb pipelineName "FrontBokehSnapshot" ||
          (String.eqb pipelineName "ManualSnapshot" || String.eqb pipelineName "FrontSuperNightSnapshot" ||
           String.eqb pipelineName "SuperHdSnapshot") then
    if ainrEnable then Ret disablePorts else Ret (disable disablePorts "MfnrInstance" 1 INPUT)
  else if String.eqb pipelineName "SatSnapshot" || String.eqb pipelineName "FrontSingleSnapshot" then
    let disablePorts := if ainrEnable then disablePorts else disable disablePorts "MfnrInstance" 1 INPUT in
    Ret (if negb (truthy hdr) && negb (truthy hdrSr) then disable disablePorts "HdrInstance" 2 INPUT
         else disablePorts)
  else Ret disablePorts.

(** @src src/mivifwk/mialgoengine/MiaPipelinePruner.cpp:259-272 rebuildLinks: the rules of the disabled nodes *)
Fixpoint select_rules (isQCOM : bool) (pipelineName : string) (metadata : option Meta)
    (disableNodes : list string) (throughPaths : ThroughPaths) (disablePorts : DisablePorts) :
    outcome (ThroughPaths * DisablePorts * list string) :=
  match disableNodes with
  | [] => Ret (throughPaths, disablePorts, [])
  | nodeInstance :: disableNodes =>
      r ← (if isQCOM then nodeBypassRuleSelect pipelineName metadata nodeInstance throughPaths disablePorts
           else Ret (false, throughPaths, disablePorts));
      let '(haveMatch, throughPaths, disablePorts) := r in
      r ← select_rules isQCOM pipelineName metadata disableNodes throughPaths disablePorts;
      let '(throughPaths, disablePorts, normalDisableNodes) := r in
      Ret (throughPaths, disablePorts,
           if (haveMatch : bool) then normalDisableNodes else nodeInstance :: normalDisableNodes)
  end.

(** @src src/mivifwk/mialgoengine/MiaPipelinePruner.cpp:274-300 rebuildLinks: DualBokehSnapshot *)
Definition bokeh_rules (metadata : option Meta) (throughPaths : ThroughPaths) (disablePorts : DisablePorts) :
    outcome (ThroughPaths * DisablePorts) :=
  let data := getVTagValue metadata "xiaomi.bokeh.MDMode" None in
  mdmode ← i32_or_0 data;
  superNightEnabled ← u8_or_0 (getVTagValue metadata "xiaomi.bokeh.superNightEnabled" data);
  if truthy mdmode then
    let throughPaths := through throughPaths "virtualSinkbuffer2" 2 0 in
    let throughPaths :=
      if truthy superNightEnabled then through throughPaths "MemcpyInstance0" 0 0
      else through throughPaths "BayerRaw2YuvInstance1" 0 0 in
    Ret (throughPaths, disable disablePorts "CapbokehInstance0" 1 OUTPUT)
  else Ret (throughPaths, disable disablePorts "SourceBuffer2" 2 OUTPUT).

(** What a request asks for: paths, ports, and the other disabled nodes. *)
Record Selection := {
  sel_paths : ThroughPaths;
  sel_ports : DisablePorts;
  sel_nodes : list string;
}.

(** @src src/mivifwk/mialgoengine/MiaPipelinePruner.cpp:249-300 rebuildLinks: disablePorts, throughPaths, normalDisableNodes *)
Definition select (isQCOM : bool) (pipelineName : string) (metadata : option Meta)
    (disableNodes : list string) : outcome Selection :=
  disablePorts ← (if isQCOM then disablePortSelect pipelineName metadata []
                  else disablePortSelectMTK pipelineName metadata []);
  r ← select_rules isQCOM pipelineName metadata disableNodes [] disablePorts;
  let '(throughPaths, disablePorts, normalDisableNodes) := r in
  r ← (if isQCOM && String.eqb pipelineName "DualBokehSnapshot"
       then bokeh_rules metadata throughPaths disablePorts
       else Ret (throughPaths, disablePorts));
  let '(throughPaths, disablePorts) := r in
  Ret {| sel_paths := throughPaths; sel_ports := disablePorts; sel_nodes := normalDisableNodes |}.

(** @src src/mivifwk/mialgoengine/MiaPipelinePruner.cpp:302-318 rebuildLinks: pruneResultReuseKey *)
Definition pruneResultReuseKey (pipelineName : string) (sel : Selection) : string :=
  let entries {A} (show : A → string) (m : list (string * list A)) :=
    String.concat "" ((λ e, String.append e.1 (String.concat "" (show <$> e.2))) <$> m) in
  String.concat "" [pipelineName; entries port_toString (sel_ports sel);
                    entries path_toString (sel_paths sel); String.concat "" (sel_nodes sel)].

(** ** Types and bridges *)

(** @src src/mivifwk/mialgoengine/MiaPipelinePruner.cpp:331-338 rebuildLinks: the type of a link *)
Definition link_type (link : LinkItem) : LinkType :=
  if is_source (srcNodeInstance link) then SourceLink
  else if is_sink (dstNodeInstance link) then SinkLink
  else InternalLink.

(** @src src/mivifwk/mialgoengine/MiaPipelinePruner.cpp:329-341 rebuildLinks: set type of links *)
Fixpoint set_types (metadata : option Meta) (links : list LinkItem) (nodes : list (string * NodeItem)) :
    outcome (list LinkItem * list (string * NodeItem)) :=
  match links with
  | [] => Ret ([], nodes)
  | link :: links =>
      nodes ← resetNodeMask metadata (dstNodeInstance link) nodes;
      r ← set_types metadata links nodes;
      let '(links, nodes) := r in
      Ret (with_type link (link_type link) :: links, nodes)
  end.

Definition newMemcpyInstance : string := "newMemcpyInstance".

(** [pipeline.nodes.at(instance).nodeMask & VIRTUAL_MODE]: [at] throws on a missing key. *)
Definition is_virtual (nodes : list (string * NodeItem)) (instance : string) : outcome bool :=
  match om_find nodes instance with
  | Some node => Ret (has_mode (nodeMask node) VIRTUAL_MODE)
  | None => Abort
  end.

(** @src src/mivifwk/mialgoengine/MiaPipelinePruner.cpp:350-367 rebuildLinks: the links that need a bridge *)
Definition needs_bridge (nodes : list (string * NodeItem)) (link : LinkItem) : outcome bool :=
  if is_sink (dstNodeInstance link) then
    if is_source (srcNodeInstance link) then Ret true else is_virtual nodes (srcNodeInstance link)
  else
    dst ← is_virtual nodes (dstNodeInstance link);
    if (dst : bool) then
      if is_source (srcNodeInstance link) then Ret false else is_virtual nodes (srcNodeInstance link)
    else Ret false.

(** @src src/mivifwk/mialgoengine/MiaPipelinePruner.cpp:353-378 rebuildLinks: newlink

    The link out of the new node; the link into it keeps its type. *)
Definition bridge_out (link : LinkItem) : LinkItem :=
  {| srcNodePortId := 0; srcNodeInstance := newMemcpyInstance; srcPortFormat := CAM_FORMAT_UNDEFINED;
     dstNodePortId := dstNodePortId link; dstNodeInstance := dstNodeInstance link;
     dstPortFormat := [CAM_FORMAT_UNDEFINED];
     type := if is_sink (dstNodeInstance link) then SinkLink else type link |}.

(** @src src/mivifwk/mialgoengine/MiaPipelinePruner.cpp:346-380 rebuildLinks: neededBridgeLinks *)
Fixpoint bridge (nodes : list (string * NodeItem)) (links : list LinkItem) :
    outcome (list LinkItem * list LinkItem) :=
  match links with
  | [] => Ret ([], [])
  | link :: links =>
      needed ← needs_bridge nodes link;
      r ← bridge nodes links;
      let '(links, neededBridgeLinks) := r in
      if (needed : bool) then
        Ret (with_dst link 0 newMemcpyInstance :: links, bridge_out link :: neededBridgeLinks)
      else Ret (link :: links, neededBridgeLinks)
  end.

(** @src src/mivifwk/mialgoengine/MiaPipelinePruner.cpp:324-384 rebuildLinks: the pruned pipeline *)
Definition prune (metadata : option Meta) (raw : PipelineInfo) (sel : Selection) : outcome PipelineInfo :=
  pipeline ← pipelinePortPrune (sel_ports sel) raw;
  pipeline ← pipelineNodePrune (sel_paths sel) (sel_nodes sel) pipeline;
  r ← set_types metadata (links pipeline) (nodes pipeline);
  let '(typed, nodes) := r in
  r ← bridge nodes typed;
  let '(bridged, neededBridgeLinks) := r in
  Ret {| pipelineName := pipelineName pipeline; nodes := nodes; links := bridged ++ reverse neededBridgeLinks |}.

(** ** The check of the links *)

(** The links into each instance. *)
Definition allInputLinks (links : list LinkItem) : LinkMap := (index_links 0 links ∅ ∅).1.

(** @src src/mivifwk/mialgoengine/MiaPipelinePruner.cpp:749-766 checkLinkInformation: the formats of a link

    [dstPortFormat[0]] is read when the formats differ and the source has one. *)
Definition format_mismatch (link : LinkItem) : outcome bool :=
  if bool_decide (srcPortFormat link ∈ dstPortFormat link) then Ret false
  else if srcPortFormat link =? CAM_FORMAT_UNDEFINED then Ret false
  else f ← or_ub (dstPortFormat link !! 0%nat); Ret (negb (f =? CAM_FORMAT_UNDEFINED)).

(** @src src/mivifwk/mialgoengine/MiaPipelinePruner.cpp:742-743 checkLinkInformation: sourcePortKey *)
Definition sourcePortKey (link : LinkItem) : string :=
  String.append (srcNodeInstance link) (to_string (srcNodePortId link)).

(** [s.insert(key)] for a set of names. *)
Definition set_insert (key : string) (s : list string) : list string :=
  if bool_decide (key ∈ s) then s else key :: s.

(** @src src/mivifwk/mialgoengine/MiaPipelinePruner.cpp:723-773 PipelinePruner::checkLinkInformation

    The loop over the links into a node: [rec] is the recursive call on their sources. *)
Fixpoint check_inputs (rec : string → list string → outcome (bool * list string)) (links : list LinkItem)
    (processLinkVec : list nat) (findSourceLink : bool) (sourcePortVisited : list string) :
    outcome (bool * list string) :=
  match processLinkVec with
  | [] => Ret (findSourceLink, sourcePortVisited)
  | processLinkIndex :: rest =>
      processLink ← or_ub (links !! processLinkIndex);
      if decide (type processLink = SourceLink) then
        check_inputs rec links rest true (set_insert (sourcePortKey processLink) sourcePortVisited)
      else
        mismatch ← format_mismatch processLink;
        if (mismatch : bool) then Ret (false, sourcePortVisited)
        else
          r ← rec (srcNodeInstance processLink) sourcePortVisited;
          let '(findSourceLink, sourcePortVisited) := r in
          check_inputs rec links rest findSourceLink sourcePortVisited
  end.

(** @src src/mivifwk/mialgoengine/MiaPipelinePruner.cpp:728-730 checkLinkInformation: allInputLinkMap.at(dstInstance) *)
Fixpoint checkLinkInformation (fuel : nat) (allInputLinkMap : LinkMap) (links : list LinkItem)
    (dstInstance : string) (sourcePortVisited : list string) : outcome (bool * list string) :=
  match fuel with
  | O => OutOfFuel
  | S fuel =>
      match allInputLinkMap !! dstInstance with
      | None => Abort
      | Some processLinkVec =>
          check_inputs (checkLinkInformation fuel allInputLinkMap links) links processLinkVec false sourcePortVisited
      end
  end.

(** The formats of the sinks, and what the first pass of the check collects. *)
Record CheckState := {
  ck_links : list LinkItem;                (* with the formats of the sinks *)
  ck_sinks : list (string * nat);          (* sinkLinks *)
  ck_sinkPortNumber : nat;
  ck_sourcePortNumber : nat;
  ck_portConfigureFormat : bool;
}.

(** @src src/mivifwk/mialgoengine/MiaPipelinePruner.cpp:660-682 checkPipelineLink: the first pass *)
Fixpoint check_collect (sinkBufferFormat : list Z) (index : nat) (links : list LinkItem) (st : CheckState) :
    outcome CheckState :=
  match links with
  | [] => Ret st
  | link :: links =>
      portConfigureFormat ←
        (if ck_portConfigureFormat st then Ret true
         else f ← or_ub (dstPortFormat link !! 0%nat);
              Ret (negb (f =? CAM_FORMAT_UNDEFINED) || negb (srcPortFormat link =? CAM_FORMAT_UNDEFINED)));
      let sourcePortNumber :=
        if decide (type link = SourceLink) then S (ck_sourcePortNumber st) else ck_sourcePortNumber st in
      if decide (type link = SinkLink) then
        format ← or_ub (sinkBufferFormat !! ck_sinkPortNumber st);
        _ ← or_ub (dstPortFormat link !! 0%nat);
        check_collect sinkBufferFormat (S index) links
          {| ck_links := ck_links st ++ [with_dstFormat link (<[0%nat := format]> (dstPortFormat link))];
             ck_sinks := om_set (ck_sinks st) (dstNodeInstance link) index;
             ck_sinkPortNumber := S (ck_sinkPortNumber st);
             ck_sourcePortNumber := sourcePortNumber;
             ck_portConfigureFormat := portConfigureFormat |}
      else
        check_collect sinkBufferFormat (S index) links
          {| ck_links := ck_links st ++ [link]; ck_sinks := ck_sinks st;
             ck_sinkPortNumber := ck_sinkPortNumber st; ck_sourcePortNumber := sourcePortNumber;
             ck_portConfigureFormat := portConfigureFormat |}
  end.

(** @src src/mivifwk/mialgoengine/MiaPipelinePruner.cpp:684-718 checkPipelineLink: the sinks *)
Fixpoint check_sinks (firstFrameInputFormat : Z) (st : CheckState) (sinks : list (string * nat)) : outcome bool :=
  match sinks with
  | [] => Ret true
  | (instance, _) :: sinks =>
      let allInputLinkMap := allInputLinks (ck_links st) in
      processLinkIndex ← or_ub (at_node allInputLinkMap instance !! 0%nat);
      processLink ← or_ub (ck_links st !! processLinkIndex);
      r ← checkLinkInformation (S (length (ck_links st))) allInputLinkMap (ck_links st)
            (dstNodeInstance processLink) [];
      let '(found, sourceNodeVisitedSet) := r in
      if negb found then Ret false else
      format ← or_ub (dstPortFormat processLink !! 0%nat);
      if negb (ck_portConfigureFormat st) && negb (firstFrameInputFormat =? format) then Ret false
      else if negb (length sourceNodeVisitedSet =? ck_sourcePortNumber st)%nat then Ret false
      else check_sinks firstFrameInputFormat st sinks
  end.

(** @src src/mivifwk/mialgoengine/MiaPipelinePruner.cpp:650-721 PipelinePruner::checkPipelineLink *)
Definition checkPipelineLink (links : list LinkItem) (firstFrameInputFormat : Z)
    (sinkBufferFormat : list Z) : outcome bool :=
  st ← check_collect sinkBufferFormat 0 links
         {| ck_links := []; ck_sinks := []; ck_sinkPortNumber := 0; ck_sourcePortNumber := 0;
            ck_portConfigureFormat := false |};
  check_sinks firstFrameInputFormat st (ck_sinks st).

(** ** The whole request *)

(** @src src/mivifwk/mialgoengine/MiaPipelinePruner.cpp:210-221 PipelinePruner::pipelineReuse *)
Definition pipelineReuse (pruner : PipelinePruner) (reuseKey : string) : option PipelineInfo :=
  om_find (mPrunedResult pruner) reuseKey.

(** @src src/mivifwk/mialgoengine/MiaPipelinePruner.cpp:227-300 rebuildLinks: the request

    The raw pipeline, with the flags of its nodes, and what is asked for. *)
Definition requested (env : Env) (pruner : PipelinePruner) (metadata : option Meta) :
    outcome (PipelineInfo * Selection) :=
  r ← lookForDisableNodes env (mDisableNodeMask pruner) metadata (nodes (mRawPipeline pruner));
  let '(nodes, disableNodes) := r in
  let raw := with_nodes (mRawPipeline pruner) nodes in
  sel ← select (isQCOM env) (pipelineName raw) metadata disableNodes;
  Ret (raw, sel).

(** @src src/mivifwk/mialgoengine/MiaPipelinePruner.cpp:223-399 PipelinePruner::rebuildLinks *)
Definition rebuildLinks (env : Env) (pruner : PipelinePruner) (metadata : option Meta)
    (firstFrameInputFormat : Z) (sinkBufferFormat : list Z) :
    outcome (bool * PipelineInfo * PipelinePruner) :=
  r ← requested env pruner metadata;
  let '(raw, sel) := r in
  let key := pruneResultReuseKey (pipelineName raw) sel in
  let pruner := {| mRawPipeline := raw; mDisableNodeMask := mDisableNodeMask pruner;
                   mPrunedResult := mPrunedResult pruner |} in
  match pipelineReuse pruner key with
  | Some pipeline => Ret (true, pipeline, pruner)
  | None =>
      pipeline ← prune metadata raw sel;
      rebuildResult ←
        (if OpenPrunerAbnormalDump env
         then checkPipelineLink (links pipeline) firstFrameInputFormat sinkBufferFormat else Ret true);
      let mPrunedResult :=
        if (rebuildResult : bool) then om_set (mPrunedResult pruner) key pipeline else mPrunedResult pruner in
      Ret (rebuildResult, pipeline,
           {| mRawPipeline := raw; mDisableNodeMask := mDisableNodeMask pruner;
              mPrunedResult := mPrunedResult |})
  end.
