(* ===== verification/CamPrunerSpec.v ===== *)
(** * Camera pipelines: what pruning for a request gives

    The selections of [CamPruner] have ports of one type, so [CamPortPrune] and
    [CamNodePrune] apply to them; the links that result have types that fit their ends, and no
    link joins two ends between which an image would have to be copied.  At the end, what the
    check of the links finds. *)
From Stdlib Require Import ZArith Lia String.
From stdpp Require Import base list strings gmap sorting.
From S2P Require Import Prelude CamLinks CamPortPrune CamNodePrune CamPruner.

(** ** Selections *)

(** Every node once, in ascending order; its ports of type [t], each once. *)
Definition ports_ok (t : portType) (m : DisablePorts) : Prop :=
  om_sorted m ∧ ∀ n s, (n, s) ∈ m →
    StronglySorted (λ p q, port_weight p < port_weight q) s ∧ ∀ p, p ∈ s → ptype p = t.

Lemma port_insert_elem p s q : q ∈ port_insert p s → q = p ∨ q ∈ s.
Proof.
  induction s as [|r s IH]; simpl; [by intros ->%list_elem_of_singleton; left|].
  destruct (Z.compare _ _); rewrite !elem_of_cons; tauto.
Qed.

Lemma port_insert_sorted p s :
  StronglySorted (λ p q, port_weight p < port_weight q) s →
  StronglySorted (λ p q, port_weight p < port_weight q) (port_insert p s).
Proof.
  induction 1 as [|q s Hs IH Hq]; simpl; [repeat constructor|].
  destruct (Z.compare_spec (port_weight p) (port_weight q)) as [E|E|E].
  - by constructor.
  - constructor; [by constructor|]. constructor; [done|].
    eapply Forall_impl; [exact Hq|]. simpl. lia.
  - constructor; [done|]. apply Forall_forall. intros r [->|Hr]%port_insert_elem; [done|].
    rewrite Forall_forall in Hq. by apply Hq.
Qed.

Lemma disable_ok t m n p : ports_ok t m → ports_ok t (disable m n p t).
Proof.
  intros [Hs Hm]. split; [by apply om_set_sorted_keys|].
  intros n' s [[= -> ->]|Hin]%om_set_elem; [|by apply (Hm n' s)].
  assert (StronglySorted (λ p q, port_weight p < port_weight q) (default [] (om_find m n)) ∧
          ∀ q, q ∈ default [] (om_find m n) → ptype q = t) as [Hs' Ht].
  { destruct (om_find m n) as [s|] eqn:E; [by apply (Hm n s), om_find_elem|].
    split; [constructor|by intros q ?%elem_of_nil]. }
  split; [by apply port_insert_sorted|]. intros q [->|Hq]%port_insert_elem; [done|by apply Ht].
Qed.

Lemma ports_ok_nil t : ports_ok t [].
Proof. split; [constructor|by intros n s ?%elem_of_nil]. Qed.

(** The two hypotheses of [pipelinePortPrune_run]. *)
Lemma ports_ok_types t m q : ports_ok t m → q ∈ all_ports m → ptype q.2 = t.
Proof.
  intros [_ Hm] ([n s] & Hq & Hin)%list_elem_of_bind. apply list_elem_of_fmap in Hq as (p & -> & Hp).
  by apply (Hm n s Hin).
Qed.

Lemma ports_ok_NoDup t m :
  ports_ok t m → NoDup ((λ q : string * disablePort, (q.1, portId q.2)) <$> all_ports m).
Proof.
  intros [Hs%om_sorted_NoDup Hm]. induction m as [|[n s] m IH]; [constructor|].
  apply NoDup_cons in Hs as [Hn Hs]. unfold all_ports. cbn [mbind list_bind].
  rewrite fmap_app. apply NoDup_app. split_and!.
  - destruct (Hm n s) as [Hsort Ht]; [by left|]. clear -Hsort Ht.
    induction Hsort as [|p s Hsort IH Hp]; [constructor|]. cbn. constructor.
    + intros (q & [= Eq] & (p' & -> & Hp')%list_elem_of_fmap)%list_elem_of_fmap. cbn in Eq.
      rewrite Forall_forall in Hp. specialize (Hp _ Hp').
      assert (ptype p = t) by (apply Ht; by left). assert (ptype p' = t) by (apply Ht; by right).
      unfold port_weight in Hp. cbn [snd] in *. destruct (ptype p), (ptype p'), t; simplify_eq; lia.
    + apply IH. intros q Hq. apply Ht. by right.
  - intros [n' i] (q & [= -> ->] & (p & -> & Hp)%list_elem_of_fmap)%list_elem_of_fmap. cbn.
    intros (q' & [= E ?] & ([m' s'] & Hq' & Hin)%list_elem_of_bind)%list_elem_of_fmap.
    apply list_elem_of_fmap in Hq' as (p' & -> & _). cbn in E. subst m'.
    apply Hn, list_elem_of_fmap. by exists (n, s').
  - apply IH; [done|]. intros n' s' Hin. apply (Hm n' s'). by right.
Qed.

(** The type of all ports of a pipeline. *)
Definition selected_type (isQCOM : bool) (pipelineName : string) : portType :=
  if isQCOM && String.eqb pipelineName "DualBokehSnapshot" then OUTPUT else INPUT.

Lemma snapshot_not_bokeh name : is_snapshot name = true → String.eqb name "DualBokehSnapshot" = false.
Proof.
  unfold is_snapshot. rewrite !orb_true_iff, !String.eqb_eq. by intros [[[->| ->]| ->]| ->].
Qed.

(** Case analysis of a computation that returned. *)
Ltac ret_cases H :=
  repeat match type of H with
  | (?m ≫= _) = Ret _ => let x := fresh "x" in apply outcome_bind_Ret_inv in H as (x & ? & H)
  | (match ?d with _ => _ end) = Ret _ => destruct d eqn:?
  end; try discriminate H.

Lemma disablePortSelect_ok name md m m' :
  ports_ok (selected_type true name) m → disablePortSelect name md m = Ret m' →
  ports_ok (selected_type true name) m'.
Proof.
  intros Hm. unfold disablePortSelect. destruct (is_snapshot name) eqn:E; [|by intros [= <-]].
  pose proof (snapshot_not_bokeh name E) as Hb. intros H. revert Hm. unfold selected_type. rewrite Hb.
  intros Hm. ret_cases H; injection H as <-; try done; by apply disable_ok.
Qed.

Lemma nodeBypassRuleSelect_ok name md n paths m b paths' m' :
  ports_ok (selected_type true name) m → nodeBypassRuleSelect name md n paths m = Ret (b, paths', m') →
  ports_ok (selected_type true name) m'.
Proof.
  intros Hm. unfold nodeBypassRuleSelect, bypass_hdr, bypass_fusion.
  destruct (is_snapshot name) eqn:E; [|by intros [= <- <- <-]].
  pose proof (snapshot_not_bokeh name E) as Hb. intros H. revert Hm. unfold selected_type. rewrite Hb.
  intros Hm. ret_cases H; injection H as <- <- <-; try done; by apply disable_ok.
Qed.

Lemma disablePortSelectMTK_ok name md m m' :
  ports_ok INPUT m → disablePortSelectMTK name md m = Ret m' → ports_ok INPUT m'.
Proof.
  intros Hm H. unfold disablePortSelectMTK in H. ret_cases H; injection H as <-;
    repeat match goal with |- context [if ?b then _ else _] => destruct b end;
    auto using disable_ok.
Qed.

Lemma select_rules_ok q name md ns : ∀ paths m paths' m' normal,
  ports_ok (selected_type q name) m → select_rules q name md ns paths m = Ret (paths', m', normal) →
  ports_ok (selected_type q name) m'.
Proof.
  induction ns as [|n ns IH]; intros paths m paths' m' normal Hm; [by intros [= <- <- <-]|].
  cbn [select_rules]. intros H. ret_cases H. injection H as <- <- <-. eapply IH; [|done].
  destruct q; [by eapply nodeBypassRuleSelect_ok|]. simplify_eq. done.
Qed.

(** All ports of a request have one type, and each occurs once. *)
Lemma select_ok q name md ns sel :
  select q name md ns = Ret sel → ports_ok (selected_type q name) (sel_ports sel).
Proof.
  unfold select. intros H. apply outcome_bind_Ret_inv in H as (m & Hm & H).
  assert (ports_ok (selected_type q name) m) as Hok.
  { destruct q; [|by eapply disablePortSelectMTK_ok; [apply ports_ok_nil|]].
    eapply disablePortSelect_ok; [apply ports_ok_nil|done]. }
  apply outcome_bind_Ret_inv in H as ([[paths m'] normal] & Hr & H).
  eapply select_rules_ok in Hr; [|done].
  apply outcome_bind_Ret_inv in H as ([paths' m''] & Hb & [= <-]). cbn.
  revert Hr Hb. unfold selected_type, bokeh_rules.
  destruct (q && String.eqb name "DualBokehSnapshot"); [|by intros ? [= <- <-]].
  intros Hr Hb. ret_cases Hb; injection Hb as <- <-; by apply disable_ok.
Qed.

(** ** Nodes and links *)

(** Entries of at least four bytes: libcamera_metadata keeps shorter values in a field of four. *)
Definition meta_ok (md : option Meta) : Prop :=
  ∀ m, md = Some m → (∀ name d, vtag m name = Some d → (4 ≤ length d)%nat) ∧
                     (∀ id d, tag m id = Some d → (4 ≤ length d)%nat).

Definition known (nodes : list (string * NodeItem)) (n : string) : Prop := is_Some (om_find nodes n).

(** Whether a known node is virtual. *)
Definition virtual (nodes : list (string * NodeItem)) (n : string) : option bool :=
  (λ node, has_mode (nodeMask node) VIRTUAL_MODE) <$> om_find nodes n.

(** The ends of a link are nodes, except for source and sink buffers. *)
Definition link_known (nodes : list (string * NodeItem)) (l : LinkItem) : Prop :=
  (is_source (srcNodeInstance l) = true ∨ known nodes (srcNodeInstance l)) ∧
  (is_sink (dstNodeInstance l) = true ∨ known nodes (dstNodeInstance l)).

(** An image reaches a sink only from a node that makes one, and no virtual node passes its
    image on to another. *)
Definition link_direct (nodes : list (string * NodeItem)) (l : LinkItem) : Prop :=
  (is_sink (dstNodeInstance l) = true →
     is_source (srcNodeInstance l) = false ∧ virtual nodes (srcNodeInstance l) ≠ Some true) ∧
  (is_sink (dstNodeInstance l) = false → virtual nodes (dstNodeInstance l) = Some true →
     is_source (srcNodeInstance l) = true ∨ virtual nodes (srcNodeInstance l) ≠ Some true).

Lemma is_virtual_virtual nodes n :
  is_virtual nodes n = match virtual nodes n with Some b => Ret b | None => Abort end.
Proof. unfold is_virtual, virtual. by destruct (om_find nodes n). Qed.

Lemma known_virtual nodes n : known nodes n ↔ is_Some (virtual nodes n).
Proof. unfold known, virtual. by rewrite fmap_is_Some. Qed.

Lemma scale_keeps_virtual m : has_mode (Z.lxor m (Z.shiftl 1 2)) VIRTUAL_MODE = has_mode m VIRTUAL_MODE.
Proof.
  unfold has_mode. f_equal. apply Z.bits_inj'. intros k Hk. rewrite !Z.land_spec, Z.lxor_spec.
  change VIRTUAL_MODE with (2 ^ 9). change (Z.shiftl 1 2) with (2 ^ 2).
  rewrite !Z.pow2_bits_eqb by lia. destruct (Z.eqb_spec 9 k) as [<-|]; [|by rewrite !andb_false_r].
  by rewrite xorb_false_r.
Qed.

Lemma resetNodeMask_spec md n nodes :
  meta_ok md → ∃ nodes', resetNodeMask md n nodes = Ret nodes' ∧ ∀ k, virtual nodes' k = virtual nodes k.
Proof.
  intros Hmd. unfold resetNodeMask. destruct (contains _ _); [|by exists nodes].
  destruct (getVTagValue md _ None) as [d|] eqn:E; [|by exists nodes].
  assert (4 ≤ length d)%nat as Hd.
  { destruct md as [m|]; [|done]. cbn in E. destruct (vtag m _) as [d'|] eqn:E'; [|done].
    injection E as <-. by apply (Hmd m eq_refl) in E'. }
  destruct d as [|b d]; [cbn in Hd; lia|]. change (read_u8 (b :: d)) with (Ret b). rewrite outcome_bind_ret_l.
  destruct (1 =? b); [|by exists nodes].
  destruct (om_find nodes "SrInstance1") as [node|] eqn:En; [|by exists nodes].
  eexists. split; [done|]. intros k. unfold virtual.
  destruct (decide ("SrInstance1"%string = k)) as [<-|Hk].
  - rewrite om_find_set_eq, En. cbn. by rewrite scale_keeps_virtual.
  - by rewrite om_find_set_ne.
Qed.

Definition typed (l : LinkItem) : LinkItem := with_type l (link_type l).

Lemma set_types_spec md ls nodes :
  meta_ok md → ∃ nodes', set_types md ls nodes = Ret (typed <$> ls, nodes') ∧
    ∀ k, virtual nodes' k = virtual nodes k.
Proof.
  intros Hmd. revert nodes. induction ls as [|l ls IH]; intros nodes; [by exists nodes|].
  cbn [set_types]. destruct (resetNodeMask_spec md (dstNodeInstance l) nodes Hmd) as (nodes1 & -> & H1).
  rewrite outcome_bind_ret_l. destruct (IH nodes1) as (nodes2 & -> & H2).
  exists nodes2. split; [done|]. intros k. by rewrite H2, H1.
Qed.

(** ** Bridges *)

(** The links that need one, when their ends are known. *)
Definition bridged (nodes : list (string * NodeItem)) (l : LinkItem) : bool :=
  if is_sink (dstNodeInstance l) then
    is_source (srcNodeInstance l) || bool_decide (virtual nodes (srcNodeInstance l) = Some true)
  else
    bool_decide (virtual nodes (dstNodeInstance l) = Some true) && negb (is_source (srcNodeInstance l)) &&
    bool_decide (virtual nodes (srcNodeInstance l) = Some true).

Lemma needs_bridge_spec nodes l : link_known nodes l → needs_bridge nodes l = Ret (bridged nodes l).
Proof.
  intros [Hsrc Hdst]. rewrite !known_virtual in Hsrc, Hdst. unfold needs_bridge, bridged.
  rewrite !is_virtual_virtual. destruct (is_sink _).
  - destruct (is_source _); [done|]. destruct Hsrc as [?|[[] ->]]; done.
  - destruct Hdst as [?|[b ->]]; [done|]. rewrite outcome_bind_ret_l. destruct b; [|done].
    destruct (is_source _); [done|]. destruct Hsrc as [?|[[] ->]]; done.
Qed.

Lemma bridge_spec nodes ls :
  (∀ l, l ∈ ls → link_known nodes l) →
  bridge nodes ls =
  Ret ((λ l, if bridged nodes l then with_dst l 0 newMemcpyInstance else l) <$> ls,
       bridge_out <$> filter (λ l, bridged nodes l = true) ls).
Proof.
  induction ls as [|l ls IH]; intros Hls; [done|]. cbn [bridge].
  rewrite needs_bridge_spec by (apply Hls; by left). rewrite outcome_bind_ret_l.
  rewrite IH by (intros l' Hl'; apply Hls; by right). rewrite outcome_bind_ret_l.
  rewrite filter_cons. cbn [fmap list_fmap]. by destruct (bridged nodes l).
Qed.

Lemma bridged_known nodes l : link_known nodes l → known nodes newMemcpyInstance →
  link_known nodes (with_dst l 0 newMemcpyInstance) ∧ link_known nodes (bridge_out l).
Proof. intros [Hsrc Hdst] HM. split; split; cbn; auto. Qed.

Lemma memcpy_name : is_source newMemcpyInstance = false ∧ is_sink newMemcpyInstance = false.
Proof. by vm_compute. Qed.

Lemma bridged_direct nodes l :
  virtual nodes newMemcpyInstance = Some false →
  link_direct nodes (with_dst l 0 newMemcpyInstance) ∧ link_direct nodes (bridge_out l).
Proof.
  intros HM. destruct memcpy_name as [Hso Hsi]. split; split; cbn; rewrite ?Hso, ?Hsi, ?HM; try done.
  by right.
Qed.

Lemma not_bridged_direct nodes l : bridged nodes l = false → link_direct nodes l.
Proof.
  unfold bridged, link_direct. destruct (is_sink _).
  - rewrite orb_false_iff, bool_decide_eq_false. by intros [-> ?].
  - intros H. split; [done|]. intros _ Hdst. rewrite Hdst in H.
    rewrite bool_decide_eq_true_2 in H by done. destruct (is_source _); [by left|right].
    by apply bool_decide_eq_false in H.
Qed.

(** ** The pruned pipeline *)

(** The instances of the links of a pruned pipeline are those of the raw one. *)
Definition ends_in (nodes : list (string * NodeItem)) (ls : list LinkItem) : Prop :=
  ∀ l, l ∈ ls → link_known nodes l.

Lemma ends_in_keep nodes ls keep : ends_in nodes ls → ends_in nodes (omap (ls !!.) keep).
Proof.
  intros Hls l (i & _ & Hl)%list_elem_of_omap. apply Hls. by eapply list_elem_of_lookup_2.
Qed.

Lemma ends_in_paths nodes ls paths : ends_in nodes ls → ends_in nodes (omap (path_link ls) paths).
Proof.
  intros Hls l (p & _ & Hl)%list_elem_of_omap.
  apply path_link_ends in Hl as (i & j & li & lj & _ & _ & Hi & Hj & _ & _ & Hl).
  assert (link_known nodes li) as [Hsrc _] by (by apply Hls; eapply list_elem_of_lookup_2).
  assert (link_known nodes lj) as [_ Hdst] by (by apply Hls; eapply list_elem_of_lookup_2).
  destruct Hl as [[-> <-]| ->]; by split.
Qed.

Lemma acyclic_keep ls keep : acyclic ls → acyclic (omap (ls !!.) keep).
Proof.
  intros [rank Hrank]. exists rank. intros i l (k & _ & Hl)%list_elem_of_lookup_2%list_elem_of_omap.
  by eapply Hrank.
Qed.

(** A link of the pruned pipeline, [l], is in the result as it is, or in two halves. *)
Definition delivered (result : list LinkItem) (l : LinkItem) : Prop :=
  l ∈ result ∨ (with_dst l 0 newMemcpyInstance ∈ result ∧ bridge_out l ∈ result).

(** The nodes that port pruning asks about. *)
Definition request_ok (t : portType) (raw : PipelineInfo) (sel : Selection) : Prop :=
  ports_safe t (links raw) (all_ports (sel_ports sel)) ∧
  ∀ p1, pipelinePortPrune (sel_ports sel) raw = Ret p1 →
    one_to_one (fused (links p1) (sel_paths sel) (sel_nodes sel)).

Lemma prune_run t md raw sel :
  meta_ok md → ports_ok t (sel_ports sel) → request_ok t raw sel →
  acyclic (links raw) → ends_in (nodes raw) (links raw) →
  virtual (nodes raw) newMemcpyInstance = Some false →
  ∃ p1 p2 p, pipelinePortPrune (sel_ports sel) raw = Ret p1 ∧
    pipelineNodePrune (sel_paths sel) (sel_nodes sel) p1 = Ret p2 ∧
    prune md raw sel = Ret p ∧
    (∀ l, l ∈ links p → link_known (nodes p) l ∧ link_direct (nodes p) l) ∧
    (∀ l, l ∈ links p2 → delivered (links p) (typed l)).
Proof.
  intros Hmd Hports [Hsafe Hone] Hacyc Hends HM.
  destruct (pipelinePortPrune_run t (sel_ports sel) raw) as [Hp1 _].
  { by eapply ports_ok_NoDup. }
  { intros q. by apply ports_ok_types. }
  destruct (Hp1 Hsafe) as (keep & E1 & _). specialize (Hone _ E1).
  set (p1 := with_links raw _) in *.
  destruct (pipelineNodePrune_run (sel_paths sel) (sel_nodes sel) p1) as (paths & p2 & E2 & Ep2 & _ & _);
    [by apply acyclic_keep|done|].
  exists p1, p2. unfold prune. rewrite E1, outcome_bind_ret_l, E2, outcome_bind_ret_l.
  assert (ends_in (nodes raw) (links p2)) as Hends2.
  { rewrite Ep2. by apply ends_in_paths, ends_in_keep. }
  assert (nodes p2 = nodes raw) as -> by by rewrite Ep2.
  destruct (set_types_spec md (links p2) (nodes raw) Hmd) as (nodes' & -> & Hvirt).
  rewrite outcome_bind_ret_l.
  assert (∀ n, known nodes' n ↔ known (nodes raw) n) as Hknown.
  { intros n. by rewrite !known_virtual, Hvirt. }
  assert (∀ l, l ∈ typed <$> links p2 → link_known nodes' l) as Hlk.
  { intros l (l' & -> & [Hs Hd]%Hends2)%list_elem_of_fmap. split; cbn; by rewrite Hknown. }
  rewrite bridge_spec by done. rewrite outcome_bind_ret_l. eexists. split_and!; [done..| |]; cbn [links nodes].
  - intros l [(l' & -> & Hl')%list_elem_of_fmap|Hl]%elem_of_app.
    + pose proof (Hlk l' Hl') as Hk. destruct (bridged nodes' l') eqn:Eb.
      * split; [apply bridged_known; [done|apply Hknown, known_virtual; by rewrite HM]|].
        apply bridged_direct. by rewrite Hvirt.
      * split; [done|by apply not_bridged_direct].
    + apply elem_of_reverse, list_elem_of_fmap in Hl as (l' & -> & [_ Hl']%list_elem_of_filter).
      split; [apply bridged_known; [by apply Hlk|apply Hknown, known_virtual; by rewrite HM]|].
      apply bridged_direct. by rewrite Hvirt.
  - intros l Hl. assert (typed l ∈ typed <$> links p2) as Hin by (by apply list_elem_of_fmap_2).
    destruct (bridged nodes' (typed l)) eqn:Eb; [right|left].
    + split; apply elem_of_app; [left|right].
      * apply list_elem_of_fmap. exists (typed l). by rewrite Eb.
      * apply elem_of_reverse, list_elem_of_fmap. exists (typed l). split; [done|]. by apply list_elem_of_filter.
    + apply elem_of_app. left. apply list_elem_of_fmap. exists (typed l). by rewrite Eb.
Qed.

(** ** Reading the metadata never goes out of bounds *)

Definition data_ok (data : option (list Z)) : Prop := ∀ d, data = Some d → (4 ≤ length d)%nat.

Lemma getVTagValue_ok md name data : meta_ok md → data_ok data → data_ok (getVTagValue md name data).
Proof.
  intros Hmd Hd d. destruct md as [m|]; [|apply Hd]. cbn.
  destruct (vtag m name) as [d'|] eqn:E; [|apply Hd]. intros [= <-]. by apply (Hmd m eq_refl) in E.
Qed.

Lemma getTagValue_ok md id data : meta_ok md → data_ok data → data_ok (getTagValue md id data).
Proof.
  intros Hmd Hd d. destruct md as [m|]; [|apply Hd]. cbn.
  destruct (tag m id) as [d'|] eqn:E; [|apply Hd]. intros [= <-]. by apply (Hmd m eq_refl) in E.
Qed.

Lemma data_ok_None : data_ok None.
Proof. done. Qed.

Definition returns {A} (r : outcome A) : Prop := ∃ a, r = Ret a.

Lemma returns_Ret {A} (a : A) : returns (Ret a).
Proof. by exists a. Qed.

Lemma returns_bind {A B} (r : outcome A) (f : A → outcome B) :
  returns r → (∀ a, returns (f a)) → returns (r ≫= f).
Proof. intros [a ->] Hf. apply Hf. Qed.

Lemma read_u8_returns d : (4 ≤ length d)%nat → returns (read_u8 d).
Proof. destruct d; cbn; [lia|]. intros _. apply returns_Ret. Qed.

Lemma read_i32_returns d : (4 ≤ length d)%nat → returns (read_i32 d).
Proof. destruct d as [|? [|? [|? [|]]]]; cbn; try lia. intros _. apply returns_Ret. Qed.

Lemma u8_or_0_returns data : data_ok data → returns (u8_or_0 data).
Proof. intros Hd. destruct data as [d|]; [by apply read_u8_returns, Hd|apply returns_Ret]. Qed.

Lemma i32_or_0_returns data : data_ok data → returns (i32_or_0 data).
Proof. intros Hd. destruct data as [d|]; [by apply read_i32_returns, Hd|apply returns_Ret]. Qed.

Create HintDb returns.
#[local] Hint Resolve getVTagValue_ok getTagValue_ok data_ok_None returns_Ret
  u8_or_0_returns i32_or_0_returns read_u8_returns read_i32_returns : returns.

(** Follow a computation to its end. *)
Ltac return_step :=
  repeat match goal with
  | |- returns (_ ≫= _) => apply returns_bind; [|intros ?]
  | |- returns (if ?b then _ else _) => destruct b
  | |- returns (let '(_, _) := ?p in _) => destruct p
  | |- returns (match ?d with Some _ => _ | None => _ end) => destruct d eqn:?
  end; eauto with returns.

Lemma lookForDisableNodes_returns env mask md ns :
  meta_ok md → returns (lookForDisableNodes env mask md ns).
Proof.
  intros Hmd. unfold lookForDisableNodes. destruct md as [m|]; [|apply returns_Ret].
  induction ns as [|[k n] ns IH]; cbn [lookForDisableNodes_loop]; [apply returns_Ret|].
  apply returns_bind; [|intros n'; return_step].
  unfold check_node, lookForDisableNodesForRawMoveUp. return_step.
Qed.

Lemma selects_returns md name n paths m :
  meta_ok md → returns (disablePortSelect name md m) ∧ returns (disablePortSelectMTK name md m) ∧
    returns (nodeBypassRuleSelect name md n paths m) ∧ returns (bokeh_rules md paths m).
Proof.
  intros Hmd. assert (∀ t d, getVTagValue md t None = Some d → (4 ≤ length d)%nat) as Hd.
  { intros t d E. by eapply (getVTagValue_ok md t None). }
  split_and!.
  - unfold disablePortSelect. return_step.
  - unfold disablePortSelectMTK. return_step.
  - unfold nodeBypassRuleSelect, bypass_hdr, bypass_fusion. cbv zeta. return_step.
    all: match goal with E : getVTagValue _ _ _ = Some ?d |- _ =>
      pose proof (getVTagValue_ok md _ _ Hmd (getVTagValue_ok md _ _ Hmd data_ok_None) _ E) end;
      eauto with returns.
  - unfold bokeh_rules. return_step.
Qed.

Lemma select_returns q name md ns : meta_ok md → returns (select q name md ns).
Proof.
  intros Hmd. unfold select. apply returns_bind.
  { destruct q; by apply (selects_returns md name "" [] []). }
  intros m. apply returns_bind.
  { generalize (@nil (string * list throughPath)), m. induction ns as [|n ns IH]; intros paths m';
      cbn [select_rules]; [apply returns_Ret|].
    apply returns_bind; [destruct q; [by apply selects_returns|apply returns_Ret]|].
    intros [[b paths'] m'']. apply returns_bind; [apply IH|]. intros [[??]?]. apply returns_Ret. }
  intros [[paths m'] normal]. apply returns_bind; [|intros [??]; apply returns_Ret].
  destruct (_ && _); [by apply (selects_returns md name "" paths m')|apply returns_Ret].
Qed.

Lemma requested_returns env pruner md : meta_ok md → returns (requested env pruner md).
Proof.
  intros Hmd. apply returns_bind; [by apply lookForDisableNodes_returns|]. intros [ns disabled].
  apply returns_bind; [by apply select_returns|]. intros sel. apply returns_Ret.
Qed.

(** ** The request *)

(** Only the flags of the nodes change. *)
Lemma rawMoveUp_mask md n n' :
  lookForDisableNodesForRawMoveUp md n = Ret n' → nodeMask n' = nodeMask n.
Proof.
  unfold lookForDisableNodesForRawMoveUp. intros H. ret_cases H; by simplify_eq.
Qed.

Lemma check_node_mask env mask md n n' :
  check_node env mask md n = Ret n' → nodeMask n' = nodeMask n.
Proof.
  unfold check_node. cbv zeta. destruct (negb _); [by intros [= <-]|].
  intros (hint & _ & H)%outcome_bind_Ret_inv.
  apply outcome_bind_Ret_inv in H as (n1 & H1 & H).
  assert (nodeMask n1 = nodeMask n) as E.
  { destruct (isQCOM env); [apply rawMoveUp_mask in H1; rewrite H1|injection H1 as <-];
      by destruct (_ && _). }
  destruct (negb (isEnable n1)); simplify_eq; [done|]. by destruct (needDisablePlugin _ _).
Qed.

Lemma lookForDisableNodes_virtual env mask md ns ns' disabled :
  lookForDisableNodes env mask md ns = Ret (ns', disabled) → ∀ k, virtual ns' k = virtual ns k.
Proof.
  unfold lookForDisableNodes. destruct md as [m|]; [|by intros [= <- <-]].
  revert ns' disabled. induction ns as [|[key n] ns IH]; intros ns' disabled;
    cbn [lookForDisableNodes_loop]; [by intros [= <- <-]|].
  intros (n' & Hn%check_node_mask & H)%outcome_bind_Ret_inv.
  apply outcome_bind_Ret_inv in H as ([ns'' d] & Hr & [= <- <-]). intros k.
  specialize (IH _ _ Hr k). revert IH. unfold virtual. rewrite !om_find_cons.
  destruct (key_compare key k); [intros _; cbn; by rewrite Hn|done..].
Qed.

Lemma requested_raw env pruner md raw sel :
  requested env pruner md = Ret (raw, sel) →
  links raw = links (mRawPipeline pruner) ∧ pipelineName raw = pipelineName (mRawPipeline pruner) ∧
  (∀ k, virtual (nodes raw) k = virtual (nodes (mRawPipeline pruner)) k) ∧
  ports_ok (selected_type (isQCOM env) (pipelineName raw)) (sel_ports sel).
Proof.
  intros ([ns disabled] & Hns & H)%outcome_bind_Ret_inv.
  apply outcome_bind_Ret_inv in H as (sel' & Hsel & [= <- <-]). split_and!; [done..| |].
  - by eapply lookForDisableNodes_virtual.
  - by eapply select_ok.
Qed.

(** A pipeline that can be pruned: no cycles, all instances known, and a node for the bridges
    that makes images (which the session adds). *)
Definition pipeline_ok (p : PipelineInfo) : Prop :=
  acyclic (links p) ∧ ends_in (nodes p) (links p) ∧ virtual (nodes p) newMemcpyInstance = Some false.

(** A request of the same pruner. *)
Definition request_step (a b : PipelinePruner) : Prop :=
  ∃ env md format sinks r, rebuildLinks env a md format sinks = Ret (r, b).

(** What is kept stays, whatever is asked for afterwards. *)
Lemma kept_stays a b k p : rtc request_step a b → pipelineReuse a k = Some p → pipelineReuse b k = Some p.
Proof.
  intros Hr Ha. refine (rtc_invariant request_step (λ c, pipelineReuse c k = Some p) _ _ _ Hr Ha).
  clear. intros a b Ha (env & md & format & sinks & r & E). unfold rebuildLinks in E.
  apply outcome_bind_Ret_inv in E as ([raw sel] & Er & E). clear Er. unfold pipelineReuse in *. cbn [mPrunedResult] in E.
  destruct (om_find (mPrunedResult a) (pruneResultReuseKey (pipelineName raw) sel)) as [q|] eqn:Ek.
  { injection E as <- <-. done. }
  apply outcome_bind_Ret_inv in E as (q & _ & E). apply outcome_bind_Ret_inv in E as (res & _ & E).
  injection E as _ <-. cbn [mPrunedResult]. destruct res; [|done]. by rewrite om_find_set_ne by congruence.
Qed.

(** C22. A pipeline without cycles whose links join known ends and that has the copying node,
    and a request whose metadata are well formed, with the check of pruned pipelines
    ([OpenPrunerAbnormalDump]) turned off, in the cases in which the code is defined
    ([request_ok]: no node with a disabled port loses all its links on the other side, and
    bypassing the nodes continues no link twice).  If nothing is kept for it yet, it returns a
    pipeline in which every link joins known ends, no link goes from a source or a virtual
    node straight to a sink, and none from a virtual node to a virtual one; it has every
    link that pruning the ports and the nodes leaves, as it is or as two links through the
    copying node.  After any other requests, each request with the same key is given this
    pipeline. *)
Theorem rebuildLinks_direct env pruner md format sinks :
  meta_ok md → OpenPrunerAbnormalDump env = false → pipeline_ok (mRawPipeline pruner) →
  let key raw sel := pruneResultReuseKey (pipelineName raw) sel in
  (∀ raw sel, requested env pruner md = Ret (raw, sel) →
     request_ok (selected_type (isQCOM env) (pipelineName raw)) raw sel ∧
     pipelineReuse pruner (key raw sel) = None) →
  ∃ raw sel p1 p2 p pruner',
    requested env pruner md = Ret (raw, sel) ∧
    pipelinePortPrune (sel_ports sel) raw = Ret p1 ∧
    pipelineNodePrune (sel_paths sel) (sel_nodes sel) p1 = Ret p2 ∧
    rebuildLinks env pruner md format sinks = Ret (true, p, pruner') ∧
    (∀ l, l ∈ links p → link_known (nodes p) l ∧ link_direct (nodes p) l) ∧
    (∀ l, l ∈ links p2 → delivered (links p) (typed l)) ∧
    ∀ later env' md' format' sinks' raw' sel', rtc request_step pruner' later →
      requested env' later md' = Ret (raw', sel') → key raw' sel' = key raw sel →
      ∃ pruner'', rebuildLinks env' later md' format' sinks' = Ret (true, p, pruner'').
Proof.
  intros Hmd Hdump (Hacyc & Hends & HM) key Hreq.
  destruct (requested_returns env pruner md Hmd) as [[raw sel] Er].
  destruct (Hreq _ _ Er) as [Hok Hmiss].
  destruct (requested_raw _ _ _ _ _ Er) as (Elinks & Ename & Hvirt & Hports).
  destruct (prune_run _ md raw sel Hmd Hports Hok) as (p1 & p2 & p & E1 & E2 & Ep & Hlinks & Hdel).
  { by rewrite Elinks. }
  { intros l Hl. rewrite Elinks in Hl. destruct (Hends l Hl) as [Hs Hd]. rewrite !known_virtual in Hs, Hd.
    split; by rewrite known_virtual, Hvirt. }
  { by rewrite Hvirt. }
  exists raw, sel, p1, p2, p. eexists. split_and!; [done..| | | |]; [|done..|].
  - unfold rebuildLinks. rewrite Er, outcome_bind_ret_l.
    unfold pipelineReuse in *. cbn [mPrunedResult]. fold (key raw sel). rewrite Hmiss, Ep, outcome_bind_ret_l.
    rewrite Hdump. reflexivity.
  - cbn beta. intros later env' md' format' sinks' raw' sel' Hlater Er' Ekey.
    pose proof (kept_stays _ _ (key raw sel) p Hlater (om_find_set_eq _ _ _)) as Hkept.
    unfold rebuildLinks. rewrite Er', outcome_bind_ret_l. unfold pipelineReuse in *. cbn [mPrunedResult].
    fold (key raw' sel'). rewrite Ekey, Hkept. eauto.
Qed.

(** ** A request

    The only node of the pipeline is disabled: source and sink are joined by the copying node. *)
Definition demo_node (name instance : string) (mask : Z) : string * NodeItem :=
  (instance, {| nodeName := name; nodeInstance := instance; nodeMask := mask;
                outputBufferNeedCheck := true; isEnable := true; outputType := OneBuffer |}).

Definition demo_raw : PipelineInfo :=
  {| pipelineName := "Demo";
     nodes := [demo_node "com.xiaomi.plugin.hdr" "A" 0; demo_node "com.xiaomi.plugin.memcpy" newMemcpyInstance 0];
     links := [demo_link "SourceBuffer0" 0 "A" 0; demo_link "A" 0 "SinkBuffer0" 0] |}.

Definition demo_env : Env :=
  {| isQCOM := true; OpenPrunerAbnormalDump := false;
     mNodes := λ n, if String.eqb n "A" then Some (λ _, false) else Some (λ _, true) |}.

Definition demo_meta : option Meta := Some {| vtag := λ _, None; tag := λ _, None |}.
Definition demo_pruner : PipelinePruner := PipelinePruner_new 0 demo_raw.

Definition demo_request_raw : PipelineInfo :=
  with_nodes demo_raw
    [(λ '(k, n), (k, with_enable n false)) (demo_node "com.xiaomi.plugin.hdr" "A" 0);
     demo_node "com.xiaomi.plugin.memcpy" newMemcpyInstance 0].
Definition demo_sel : Selection := {| sel_paths := []; sel_ports := []; sel_nodes := ["A"%string] |}.

Lemma demo_requested : requested demo_env demo_pruner demo_meta = Ret (demo_request_raw, demo_sel).
Proof. by vm_compute. Qed.

Lemma demo_raw_ok : pipeline_ok demo_raw.
Proof.
  split_and!.
  - exists (λ n, if String.eqb n "A" then 1%nat else if String.eqb n "SinkBuffer0" then 2%nat else 0%nat).
    intros i link. do 2 (destruct i as [|i]; [intros [= <-]; vm_compute; lia|]). done.
  - intros l [->|[->|[]%elem_of_nil]%elem_of_cons]%elem_of_cons; (split; [|]); vm_compute;
      (by left) || (right; eexists; reflexivity).
  - by vm_compute.
Qed.

Lemma rebuildLinks_direct_witness :
  (∃ raw sel p1 p2 p pruner',
    requested demo_env demo_pruner demo_meta = Ret (raw, sel) ∧
    pipelinePortPrune (sel_ports sel) raw = Ret p1 ∧
    pipelineNodePrune (sel_paths sel) (sel_nodes sel) p1 = Ret p2 ∧
    rebuildLinks demo_env demo_pruner demo_meta 0 [] = Ret (true, p, pruner') ∧
    (∀ l, l ∈ links p → link_known (nodes p) l ∧ link_direct (nodes p) l) ∧
    (∀ l, l ∈ links p2 → delivered (links p) (typed l)) ∧
    ∀ later env' md' format' sinks' raw' sel', rtc request_step pruner' later →
      requested env' later md' = Ret (raw', sel') →
      pruneResultReuseKey (pipelineName raw') sel' = pruneResultReuseKey (pipelineName raw) sel →
      ∃ pruner'', rebuildLinks env' later md' format' sinks' = Ret (true, p, pruner'')) ∧
  (λ r : outcome (bool * PipelineInfo * PipelinePruner),
     match r with Ret (_, p, _) => Some (links p) | _ => None end)
    (rebuildLinks demo_env demo_pruner demo_meta 0 []) =
  Some [with_dst (demo_link "SourceBuffer0" 0 "SinkBuffer0" 0) 0 newMemcpyInstance;
        with_type (demo_link newMemcpyInstance 0 "SinkBuffer0" 0) SinkLink].
Proof.
  split; [|by vm_compute].
  apply (rebuildLinks_direct demo_env demo_pruner demo_meta 0 []).
  - intros m [= <-]. by split.
  - done.
  - exact demo_raw_ok.
  - intros raw sel. rewrite demo_requested. intros [= <- <-]. split; [|done]. split.
    + intros i link (? & ? & []%elem_of_nil & _).
    + intros p1 _. apply fused_normal_one_to_one.
Defined.

(** ** Cases

    A bridge behind a virtual node: the link into the copying node keeps the type [SinkLink]
    it had when it led to the sink. *)
Example bridge_virtual_sink :
  let nodes := [demo_node "virtual" "V" 512; demo_node "com.xiaomi.plugin.memcpy" newMemcpyInstance 0] in
  bridge nodes [typed (demo_link "V" 0 "SinkBuffer0" 0)] =
  Ret ([with_type (demo_link "V" 0 newMemcpyInstance 0) SinkLink],
       [with_type (demo_link newMemcpyInstance 0 "SinkBuffer0" 0) SinkLink]).
Proof. by vm_compute. Qed.

(** Metadata with the given tags. *)
Definition tags (l : list (string * list Z)) : option Meta :=
  Some {| vtag := om_find l; tag := λ _, None |}.

(** Without an entry that turns the fusion on, its node is bypassed; with a hint of 2 the
    hint is read in place of the entry, and it is not. *)
Example fusion_reads_hint :
  bypass_fusion (tags []) [] [] =
    Ret (true, [("CaptureFusionInstance0"%string, [{| inputPortId := 0; outputPortId := 0 |}])],
         [("CaptureFusionInstance0"%string, [{| portId := 1; ptype := INPUT |}])]) ∧
  bypass_fusion (tags [("xiaomi.burst.captureHint"%string, [2; 0; 0; 0])]) [] [] = Ret (false, [], []).
Proof. by split; vm_compute. Qed.

(** The same for the night mode of a bokeh request. *)
Example bokeh_reads_mode :
  (λ r : outcome (ThroughPaths * DisablePorts), match r with Ret (p, _) => fst <$> p | _ => [] end)
    (bokeh_rules (tags [("xiaomi.bokeh.MDMode"%string, [1; 0; 0; 0])]) [] []) =
  ["MemcpyInstance0"; "virtualSinkbuffer2"]%string.
Proof. by vm_compute. Qed.

(** Two links into the node toggle its scale mode twice. *)
Example scale_toggled_twice :
  let nodes := [demo_node "com.xiaomi.plugin.sr" "SrInstance1" 4] in
  let md := tags [("xiaomi.capturefusion.isFusionOn"%string, [1; 0; 0; 0])] in
  let masks r := match r with Ret (_, ns) => (λ e : string * NodeItem, nodeMask e.2) <$> ns | _ => [] end in
  masks (set_types md [demo_link "A" 0 "SrInstance1" 0] nodes) = [0] ∧
  masks (set_types md [demo_link "A" 0 "SrInstance1" 0; demo_link "B" 0 "SrInstance1" 1] nodes) = [4].
Proof. by split; vm_compute. Qed.

(** Different requests with one key. *)
Example reuse_key_collision :
  pruneResultReuseKey "P" {| sel_paths := []; sel_ports := []; sel_nodes := ["Node1"; "1Node"]%string |} =
  pruneResultReuseKey "P" {| sel_paths := []; sel_ports := []; sel_nodes := ["Node11"; "Node"]%string |}.
Proof. by vm_compute. Qed.

(** Two bridges share one copying node, and both leave it at port 0. *)
Example two_bridges :
  let nodes := [demo_node "com.xiaomi.plugin.memcpy" newMemcpyInstance 0] in
  bridge nodes (typed <$> [demo_link "SourceBuffer0" 0 "SinkBuffer0" 0; demo_link "SourceBuffer1" 1 "SinkBuffer1" 1]) =
  Ret ([demo_link "SourceBuffer0" 0 newMemcpyInstance 0; demo_link "SourceBuffer1" 1 newMemcpyInstance 0],
       [with_type (demo_link newMemcpyInstance 0 "SinkBuffer0" 0) SinkLink;
        with_type (demo_link newMemcpyInstance 0 "SinkBuffer1" 1) SinkLink]).
Proof. by vm_compute. Qed.

(** ** Camera pipelines: what the check of the links finds

    [checkLinkInformation] of [CamPruner] walks from a sink up to the sources.  The walk ends on
    every pipeline without cycles; its verdict is that of the last link into each node, so a
    mismatch of formats that lies behind another link is only noticed when the walk, which stops
    there, misses a source. *)

(** The links into a node, and the formats of a link. *)
Abbreviation inputs := (links_at dstNodeInstance).

Definition mismatch (link : LinkItem) : bool :=
  negb (bool_decide (srcPortFormat link ∈ dstPortFormat link)) &&
  negb (srcPortFormat link =? CAM_FORMAT_UNDEFINED) &&
  negb (default 0 (dstPortFormat link !! 0%nat) =? CAM_FORMAT_UNDEFINED).

(** A node is accepted when the formats of the links into it match and the last of them comes
    from a source or an accepted node. *)
Inductive accepted (links : list LinkItem) (n : string) : Prop :=
  | accepted_intro i link :
      (∀ j l, j ∈ inputs links n → links !! j = Some l → type l ≠ SourceLink → mismatch l = false) →
      last (inputs links n) = Some i → links !! i = Some link →
      (type link = SourceLink ∨ accepted links (srcNodeInstance link)) →
      accepted links n.

(** Every node that feeds another is fed itself, and every port names a format. *)
Definition complete (links : list LinkItem) : Prop :=
  ∀ i link, links !! i = Some link →
    dstPortFormat link ≠ [] ∧ (type link ≠ SourceLink → inputs links (srcNodeInstance link) ≠ []).

Lemma format_mismatch_spec link : dstPortFormat link ≠ [] → format_mismatch link = Ret (mismatch link).
Proof.
  intros Hne. unfold format_mismatch, mismatch. destruct (bool_decide _); [done|].
  destruct (srcPortFormat link =? _); [done|]. by destruct (dstPortFormat link).
Qed.

Lemma allInputLinks_spec links n :
  inputs links n ≠ [] → allInputLinks links !! n = Some (inputs links n).
Proof.
  intros Hne. unfold allInputLinks. destruct (index_links 0 links ∅ ∅) as [im om] eqn:E.
  apply index_links_spec in E as [Him _]. specialize (Him n). unfold at_node in Him. cbn [fst].
  destruct (im !! n); [by f_equal|]. by rewrite <-Him in Hne.
Qed.

Section check.
Context (links : list LinkItem) (rank : string → nat).
Context (Hrank : ∀ i link, links !! i = Some link →
  (rank (srcNodeInstance link) < rank (dstNodeInstance link))%nat).
Context (Hcomplete : complete links).

(** The links that end at or below the rank of [n]: fewer for every node above. *)
Definition depth (n : string) : nat :=
  length (filter (λ l, (rank (dstNodeInstance l) ≤ rank n)%nat) links).

Lemma depth_le n : (depth n ≤ length links)%nat.
Proof. apply length_filter. Qed.

Lemma filter_length_mono {A} (P Q : A → Prop) `{!∀ x, Decision (P x), !∀ x, Decision (Q x)} l :
  (∀ x, x ∈ l → P x → Q x) → (length (filter P l) ≤ length (filter Q l))%nat.
Proof.
  induction l as [|x l IH]; intros HPQ; [done|]. rewrite !filter_cons.
  assert (length (filter P l) ≤ length (filter Q l))%nat by (apply IH; intros y Hy; apply HPQ; by right).
  specialize (HPQ x (ltac:(by left))). repeat case_decide; simpl; tauto || lia.
Qed.

Lemma depth_source i link :
  links !! i = Some link → (depth (srcNodeInstance link) < depth (dstNodeInstance link))%nat.
Proof.
  intros Hl. pose proof (Hrank i link Hl) as Hr. unfold depth.
  apply list_elem_of_lookup_2, list_elem_of_split in Hl as (l1 & l2 & ->).
  rewrite !filter_app, !filter_cons, !length_app.
  rewrite decide_False by lia. rewrite decide_True by lia. simpl.
  pose proof (filter_length_mono (λ l, (rank (dstNodeInstance l) ≤ rank (srcNodeInstance link))%nat)
    (λ l, (rank (dstNodeInstance l) ≤ rank (dstNodeInstance link))%nat)) as Hm.
  pose proof (Hm l1 ltac:(simpl; lia)). pose proof (Hm l2 ltac:(simpl; lia)). lia.
Qed.

(** What the loop over the links of one node returns. *)
Definition verdict (found : bool) (idx : list nat) : Prop :=
  (∀ j l, j ∈ idx → links !! j = Some l → type l ≠ SourceLink → mismatch l = false) ∧
  match last idx with
  | None => found = true
  | Some i => ∃ l, links !! i = Some l ∧ (type l = SourceLink ∨ accepted links (srcNodeInstance l))
  end.

Lemma verdict_cons found found' i idx :
  match idx with [] => found' = true ↔ (∃ l, links !! i = Some l ∧
      (type l = SourceLink ∨ accepted links (srcNodeInstance l))) | _ => True end →
  (∀ l, links !! i = Some l → type l ≠ SourceLink → mismatch l = false) →
  verdict found' idx ↔ verdict found (i :: idx).
Proof.
  intros Hlast Hi. unfold verdict. destruct idx as [|j idx].
  - rewrite last_singleton. cbn [last]. rewrite Hlast. split; intros [_ H]; (split; [|done]); intros k l Hk.
    + apply list_elem_of_singleton in Hk as ->. apply Hi.
    + by apply elem_of_nil in Hk.
  - rewrite last_cons_cons. destruct (last (j :: idx)) eqn:E; [|by apply last_None in E].
    split; intros [Hno H]; (split; [|done]); intros k l Hk.
    + apply elem_of_cons in Hk as [->|Hk]; [apply Hi|by apply Hno].
    + apply Hno. by right.
Qed.

Lemma check_inputs_spec rec idx : ∀ found seen,
  (∀ i, i ∈ idx → ∃ l, links !! i = Some l ∧ dstPortFormat l ≠ [] ∧
     (type l ≠ SourceLink → ∀ seen, ∃ b seen', rec (srcNodeInstance l) seen = Ret (b, seen') ∧
        (b = true ↔ accepted links (srcNodeInstance l)))) →
  ∃ b seen', check_inputs rec links idx found seen = Ret (b, seen') ∧ (b = true ↔ verdict found idx).
Proof.
  induction idx as [|i idx IH]; intros found seen Hrec; cbn [check_inputs].
  { exists found, seen. split; [done|]. unfold verdict. cbn. split; [|tauto].
    intros ->. split; [|done]. by intros j l ?%elem_of_nil. }
  destruct (Hrec i) as (l & Hl & Hfmt & Hr); [by left|].
  assert (∀ j, j ∈ idx → ∃ l, links !! j = Some l ∧ dstPortFormat l ≠ [] ∧
     (type l ≠ SourceLink → ∀ seen, ∃ b seen', rec (srcNodeInstance l) seen = Ret (b, seen') ∧
        (b = true ↔ accepted links (srcNodeInstance l)))) as Hrec' by (intros j Hj; apply Hrec; by right).
  rewrite Hl. change (or_ub (Some l)) with (Ret l). rewrite outcome_bind_ret_l.
  destruct (decide (type l = SourceLink)) as [Ht|Ht].
  - destruct (IH true (set_insert (sourcePortKey l) seen) Hrec') as (b & seen' & -> & Hb).
    exists b, seen'. split; [done|]. rewrite Hb. apply verdict_cons.
    + destruct idx; [|done]. split; [eauto|done].
    + intros l' Hl'. congruence.
  - rewrite format_mismatch_spec by done. rewrite outcome_bind_ret_l.
    destruct (mismatch l) eqn:Em.
    + exists false, seen. split; [done|]. split; [done|].
      intros [Hno _]. rewrite (Hno i l) in Em; [done|by left|done..].
    + destruct (Hr Ht seen) as (b' & seen1 & -> & Hb'). rewrite outcome_bind_ret_l.
      destruct (IH b' seen1 Hrec') as (b & seen' & -> & Hb).
      exists b, seen'. split; [done|]. rewrite Hb. apply verdict_cons.
      * destruct idx; [|done]. rewrite Hb'. split; [eauto|]. intros (l' & Hl' & [?|?]); congruence.
      * intros l' Hl'. congruence.
Qed.

Lemma accepted_verdict n : inputs links n ≠ [] → accepted links n ↔ verdict false (inputs links n).
Proof.
  intros Hne. unfold verdict. destruct (last (inputs links n)) as [i|] eqn:E;
    [|by apply last_None in E]. split.
  - intros [j l Hno Hj Hl Hacc]. rewrite E in Hj. injection Hj as <-. eauto.
  - intros [Hno (l & Hl & Hacc)]. by eapply accepted_intro.
Qed.

Lemma checkLinkInformation_run fuel n seen :
  (depth n < fuel)%nat → inputs links n ≠ [] →
  ∃ b seen', checkLinkInformation fuel (allInputLinks links) links n seen = Ret (b, seen') ∧
    (b = true ↔ accepted links n).
Proof.
  revert n seen. induction fuel as [|fuel IH]; intros n seen Hd Hne; [lia|].
  cbn [checkLinkInformation]. rewrite allInputLinks_spec by done.
  destruct (check_inputs_spec (checkLinkInformation fuel (allInputLinks links) links) (inputs links n)
              false seen) as (b & seen' & -> & Hb).
  - intros i Hi. apply elem_of_links_at in Hi as (l & Hl & <-). exists l. split; [done|].
    destruct (Hcomplete i l Hl) as [Hf Hin]. split; [done|]. intros Ht seen1.
    apply IH; [|by apply Hin]. pose proof (depth_source i l Hl). lia.
  - exists b, seen'. split; [done|]. by rewrite Hb, accepted_verdict.
Qed.
End check.

(** C23. On a pipeline without cycles in which every node that feeds another is fed itself, the
    walk from a node that is fed ends, its calls nested at most one deeper than there are links
    (the number of calls can be exponential, as nothing is remembered of a node), and accepts
    the node exactly when the formats of the links into it match and the last of these links
    comes from a source or an accepted node: the verdicts on all other links into it are
    overwritten. *)
Theorem checkLinkInformation_verdict links n seen :
  acyclic links → complete links → inputs links n ≠ [] →
  ∃ b seen', checkLinkInformation (S (length links)) (allInputLinks links) links n seen = Ret (b, seen') ∧
    (b = true ↔ accepted links n).
Proof.
  intros [rank Hrank] Hc Hn. eapply checkLinkInformation_run; [done..| |done].
  pose proof (depth_le links rank n). lia.
Qed.

(** ** A mismatch that is not reported

    The link from A to B joins formats 17 and 35; B is the first input of C, and the virtual node
    V feeds both A and C. *)
Definition demo_format (src : string) (f : Z) (dst : string) (port g : Z) (t : LinkType) : LinkItem :=
  {| srcNodePortId := 0; srcNodeInstance := src; srcPortFormat := f;
     dstNodePortId := port; dstNodeInstance := dst; dstPortFormat := [g]; type := t |}.

Definition demo_formats : list LinkItem :=
  [demo_format "SourceBuffer0" 0 "V" 0 0 SourceLink; demo_format "V" 0 "A" 0 0 InternalLink;
   demo_format "A" 17 "B" 0 35 InternalLink; demo_format "B" 35 "C" 0 35 InternalLink;
   demo_format "V" 0 "C" 1 0 InternalLink; demo_format "C" 35 "SinkBuffer0" 0 35 SinkLink].

Lemma demo_formats_acyclic : acyclic demo_formats.
Proof.
  exists (λ n, if String.eqb n "V" then 1%nat else if String.eqb n "A" then 2%nat else
    if String.eqb n "B" then 3%nat else if String.eqb n "C" then 4%nat else
    if String.eqb n "SinkBuffer0" then 5%nat else 0%nat).
  intros i link. do 6 (destruct i as [|i]; [intros [= <-]; vm_compute; lia|]). done.
Qed.

Lemma demo_formats_complete : complete demo_formats.
Proof.
  intros i link. do 6 (destruct i as [|i]; [intros [= <-]; (split; [done|]); intros Ht;
    (by destruct Ht) || (vm_compute; discriminate)|]). done.
Qed.

Lemma checkLinkInformation_witness :
  (∃ b seen', checkLinkInformation 7 (allInputLinks demo_formats) demo_formats "SinkBuffer0" [] = Ret (b, seen') ∧
    (b = true ↔ accepted demo_formats "SinkBuffer0")) ∧
  checkPipelineLink demo_formats 35 [35] = Ret true.
Proof.
  split; [|by vm_compute].
  apply (checkLinkInformation_verdict demo_formats "SinkBuffer0" [] demo_formats_acyclic demo_formats_complete).
  vm_compute. discriminate.
Defined.

(** Links are counted where ports are meant: one source port that feeds two nodes is visited once
    and counted twice. *)
Example checkPipelineLink_shared_source :
  checkPipelineLink
    [demo_format "SourceBuffer0" 0 "A" 0 0 SourceLink; demo_format "SourceBuffer0" 0 "A" 1 0 SourceLink;
     demo_format "A" 0 "SinkBuffer0" 0 0 SinkLink] 35 [35] = Ret false.
Proof. by vm_compute. Qed.
