(* ===== verification/CamSchedule.v ===== *)
(** * Camera pipelines: running the nodes

    [Pipeline::postProcTask] of [src/mivifwk/mialgoengine/MiaPipeline.cpp] runs the nodes of a
    pruned pipeline.  It counts for every node the links from other nodes into it; a node whose
    count comes to zero goes to a queue; the thread of the pipeline starts the nodes of the
    queue, and each of them, in a thread of its own, counts down its successors when it ends
    ([notifyNextNode]).  The two kinds of threads share the queue, the counts and the number of
    running nodes under one lock; a step below is what a thread does while it holds it.

    The state is that of the engine: queue, counts, number of running nodes, condition and
    failure.  The images are not modelled: [mBuffers], what [getInputImage] and
    [releaseInputBuffers] move there, and what [releaseOutBuffers] takes out.  So a task that is
    [Running x] is somewhere in the code of the node [x] - in its plug-in, or waiting in
    [waitAndPop] for an image of another node or of a source (lines 303 and 680) - and nothing
    here says that it ever leaves that code; [EndOk] and [EndError] are the calls of
    [notifyNextNode] it makes when it does. *)
From Stdlib Require Import ZArith Lia String.
From stdpp Require Import base list strings gmap.
From S2P Require Import Prelude CamLinks CamPortPrune CamNodePrune CamPruner.

(** ** Before the loop *)

(** @src src/mivifwk/mialgoengine/MiaPipeline.h:140-148 mDependenceNum, mInputLinkMap, mOutputLinkMap *)
Record Maps := {
  mDependenceNum : list (string * Z);
  mInputLinkMap : list (string * list nat);
  mOutputLinkMap : LinkMap;
  sourceNodes : list string;
}.

(** @src src/mivifwk/mialgoengine/MiaPipeline.cpp:97-121 postProcTask: one link *)
Definition prepare_link (index : nat) (link : LinkItem) (m : Maps) : Maps :=
  let dst := dstNodeInstance link in
  let isSinkBuffer := is_sink dst in
  let dep :=
    if negb isSinkBuffer && bool_decide (om_find (mDependenceNum m) dst = None)
    then om_set (mDependenceNum m) dst 0 else mDependenceNum m in
  match type link with
  | SourceLink =>
      {| mDependenceNum := dep;
         mInputLinkMap := om_update [] (λ v, v ++ [index]) (mInputLinkMap m) dst;
         mOutputLinkMap := mOutputLinkMap m;
         sourceNodes := set_insert dst (sourceNodes m) |}
  | SinkLink =>
      {| mDependenceNum := dep; mInputLinkMap := mInputLinkMap m;
         mOutputLinkMap := push_index (mOutputLinkMap m) (srcNodeInstance link) index;
         sourceNodes := sourceNodes m |}
  | InternalLink =>
      {| mDependenceNum := if negb isSinkBuffer then om_update 0 (λ n, n + 1) dep dst else dep;
         mInputLinkMap := om_update [] (λ v, v ++ [index]) (mInputLinkMap m) dst;
         mOutputLinkMap := push_index (mOutputLinkMap m) (srcNodeInstance link) index;
         sourceNodes := sourceNodes m |}
  end.

(** @src src/mivifwk/mialgoengine/MiaPipeline.cpp:96-126 postProcTask: the links *)
Fixpoint prepare_links (index : nat) (links : list LinkItem) (m : Maps) : Maps :=
  match links with
  | [] => m
  | link :: links => prepare_links (S index) links (prepare_link index link m)
  end.

(** [mPipelineInfo.nodes.at(instance).nodeMask & bit]: [at] throws on a missing key. *)
Definition node_mode (nodes : list (string * NodeItem)) (bit : Z) (instance : string) : outcome bool :=
  match om_find nodes instance with
  | Some node => Ret (has_mode (nodeMask node) bit)
  | None => Abort
  end.

(** @src src/mivifwk/mialgoengine/MiaPipeline.cpp:128-138 postProcTask: topology error *)
Fixpoint topology_ok (nodes : list (string * NodeItem)) (inputs : list (string * list nat)) : outcome bool :=
  match inputs with
  | [] => Ret true
  | (instance, indices) :: inputs =>
      sigframe ← node_mode nodes SIGFRAME_MODE instance;
      if sigframe && (1 <? length indices)%nat then Ret false else topology_ok nodes inputs
  end.

(** ** The threads *)

(** A node that was started: in its own code (its plug-in, or waiting for images), handing a
    frame on to the successors behind the links in [rest], at the end of its work, or at the end
    of work that failed.  The last three are code of the pipeline, which never waits. *)
Inductive task :=
  | Running (x : string)
  | Releasing (x : string) (rest : list nat)
  | Notifying (x : string) (rest : list nat)
  | Failing (x : string) (rest : list nat).

Definition task_node (t : task) : string :=
  match t with Running x | Releasing x _ | Notifying x _ | Failing x _ => x end.

(** The thread of the pipeline: at the test of the loop, taking from the queue, starting a node,
    behind the call, waiting (and signalled or not), after the loop. *)
Inductive main_pc :=
  | Test | Take | Start (x : string) | Account (ok : bool) | Waiting (signalled : bool) | Done.

(** What has happened so far: a log for the statements, which the code does not keep. *)
Record History := {
  pushed : list string;      (* nodes put into the queue *)
  taken : list string;       (* nodes taken from it *)
  started : list string;     (* nodes given to a thread *)
  processed : list string;   (* nodes whose plug-in succeeded *)
  finished : list string;    (* nodes that ended *)
  notified : list nat;       (* links whose end was counted down *)
  released : list nat;       (* the calls of releaseOutBuffers(link, SinkLink), by link *)
}.

(** @src src/mivifwk/mialgoengine/MiaPipeline.h:139-159 mRunSequence, mDependenceNum, mRunningNodeNum, mHasProcessError, mCurrentProcessNodes *)
Record State := {
  mRunSequence : list string;
  depNum : list (string * Z);
  mRunningNodeNum : Z;
  mHasProcessError : bool;
  mCurrentProcessNodes : list string;
  tasks : list task;
  pc : main_pc;
  hist : History;
}.

(** @src src/mivifwk/mialgoengine/MiaPipeline.cpp:140-157 postProcTask: performNodes, mRunSequence

    Nodes without predecessors leave the counts; those a source feeds are put into the queue. *)
Definition first_nodes (m : Maps) : list string :=
  filter (.∈ sourceNodes m) (fst <$> filter (λ e, e.2 = 0) (mDependenceNum m)).

Definition init_state (m : Maps) : State :=
  {| mRunSequence := first_nodes m;
     depNum := filter (λ e, e.2 ≠ 0) (mDependenceNum m);
     mRunningNodeNum := 0; mHasProcessError := false; mCurrentProcessNodes := [];
     tasks := []; pc := Test;
     hist := {| pushed := first_nodes m; taken := []; started := []; processed := []; finished := [];
                notified := []; released := [] |} |}.

(** @src src/mivifwk/mialgoengine/MiaPipeline.cpp:92-161 postProcTask: the preparatory work

    [None]: the pipeline is given up before any node runs. *)
Definition prepare (p : PipelineInfo) : outcome (option (Maps * State)) :=
  let m := prepare_links 0 (links p)
             {| mDependenceNum := []; mInputLinkMap := []; mOutputLinkMap := ∅; sourceNodes := [] |} in
  ok ← topology_ok (nodes p) (mInputLinkMap m);
  Ret (if (ok : bool) then Some (m, init_state m) else None).

(** ** Successors *)

(** @src src/mivifwk/mialgoengine/MiaPipeline.cpp:896-919 Pipeline::isInplaceNode *)
Definition isInplaceNode (p : PipelineInfo) (m : Maps) (nodeInstance : string) (nodeMask : Z) : outcome bool :=
  match at_node (mOutputLinkMap m) nodeInstance with
  | [index] =>
      if has_mode nodeMask INPLACE_MODE then
        link ← or_ub (links p !! index);
        if decide (type link = SinkLink) then Ret false
        else
          virtualSink ← node_mode (nodes p) VIRTUAL_SINKNODE (dstNodeInstance link);
          Ret (negb virtualSink)
      else Ret false
  | _ => Ret false
  end.

(** Whether a node hands its input images on: [isInplaceNode(..) || (mask & VIRTUAL_MODE)]. *)
Definition hands_on (p : PipelineInfo) (m : Maps) (instance : string) : outcome bool :=
  match om_find (nodes p) instance with
  | None => Abort
  | Some node =>
      inplace ← isInplaceNode p m instance (nodeMask node);
      Ret (inplace || has_mode (nodeMask node) VIRTUAL_MODE)
  end.

(** @src src/mivifwk/mialgoengine/MiaPipeline.cpp:843-860 releaseInputAndTryNotifyNextNode: the children

    The links to frame-by-frame nodes. *)
Fixpoint sigframe_links (p : PipelineInfo) (indices : list nat) : outcome (list nat) :=
  match indices with
  | [] => Ret []
  | index :: indices =>
      link ← or_ub (links p !! index);
      sig ← (if decide (type link = SinkLink) then Ret false
             else node_mode (nodes p) SIGFRAME_MODE (dstNodeInstance link));
      rest ← sigframe_links p indices;
      Ret (if (sig : bool) then index :: rest else rest)
  end.

(** @src src/mivifwk/mialgoengine/MiaPipeline.cpp:834-862 Pipeline::releaseInputAndTryNotifyNextNode *)
Definition input_children (p : PipelineInfo) (m : Maps) (instance : string) : outcome (list nat) :=
  on ← hands_on p m instance;
  if (on : bool) then sigframe_links p (at_node (mOutputLinkMap m) instance) else Ret [].

(** @src src/mivifwk/mialgoengine/MiaPipeline.cpp:864-894 Pipeline::releaseOutputAndTryNotifyNextNode

    The first link out of the node: to a sink, for which [releaseOutBuffers] is called, or to a
    frame-by-frame node. *)
Definition output_children (p : PipelineInfo) (m : Maps) (instance : string) : outcome (list nat * list nat) :=
  on ← hands_on p m instance;
  if (on : bool) then Ret ([], [])
  else
    index ← or_ub (at_node (mOutputLinkMap m) instance !! 0%nat);
    link ← or_ub (links p !! index);
    if decide (type link = SinkLink) then Ret ([index], [])
    else
      sig ← node_mode (nodes p) SIGFRAME_MODE (dstNodeInstance link);
      Ret ([], if (sig : bool) then [index] else []).

(** ** Steps *)

Section steps.
Context (p : PipelineInfo) (m : Maps) (found : string → bool).

Definition with_pc (s : State) (c : main_pc) : State :=
  {| mRunSequence := mRunSequence s; depNum := depNum s; mRunningNodeNum := mRunningNodeNum s;
     mHasProcessError := mHasProcessError s; mCurrentProcessNodes := mCurrentProcessNodes s;
     tasks := tasks s; pc := c; hist := hist s |}.
Definition with_tasks (s : State) (ts : list task) : State :=
  {| mRunSequence := mRunSequence s; depNum := depNum s; mRunningNodeNum := mRunningNodeNum s;
     mHasProcessError := mHasProcessError s; mCurrentProcessNodes := mCurrentProcessNodes s;
     tasks := ts; pc := pc s; hist := hist s |}.
Definition with_hist (s : State) (h : History) : State :=
  {| mRunSequence := mRunSequence s; depNum := depNum s; mRunningNodeNum := mRunningNodeNum s;
     mHasProcessError := mHasProcessError s; mCurrentProcessNodes := mCurrentProcessNodes s;
     tasks := tasks s; pc := pc s; hist := h |}.

(** [mCond.notify_one()]: only the thread of the pipeline waits. *)
Definition signal (s : State) : State :=
  match pc s with Waiting _ => with_pc s (Waiting true) | _ => s end.

Definition log_released (s : State) (l : list nat) : State :=
  with_hist s {| pushed := pushed (hist s); taken := taken (hist s); started := started (hist s);
                 processed := processed (hist s); finished := finished (hist s);
                 notified := notified (hist s); released := released (hist s) ++ l |}.
Definition log_notified (s : State) (l : list nat) : State :=
  with_hist s {| pushed := pushed (hist s); taken := taken (hist s); started := started (hist s);
                 processed := processed (hist s); finished := finished (hist s);
                 notified := notified (hist s) ++ l; released := released (hist s) |}.
Definition log_processed (s : State) (x : string) : State :=
  with_hist s {| pushed := pushed (hist s); taken := taken (hist s); started := started (hist s);
                 processed := processed (hist s) ++ [x]; finished := finished (hist s);
                 notified := notified (hist s); released := released (hist s) |}.

(** @src src/mivifwk/mialgoengine/MiaPipeline.cpp:818-825 notifyNextNode: the count of the next node

    The count, and whether it came to zero. *)
Definition count_down (s : State) (nextNode : string) : outcome (State * bool) :=
  if mHasProcessError s then Ret (s, false)
  else
    match om_find (depNum s) nextNode with
    | None => Abort
    | Some n =>
        let zero := n - 1 =? 0 in
        Ret ({| mRunSequence := if zero then mRunSequence s ++ [nextNode] else mRunSequence s;
                depNum := om_set (depNum s) nextNode (n - 1);
                mRunningNodeNum := mRunningNodeNum s; mHasProcessError := mHasProcessError s;
                mCurrentProcessNodes := mCurrentProcessNodes s; tasks := tasks s; pc := pc s;
                hist := {| pushed := if zero then pushed (hist s) ++ [nextNode] else pushed (hist s);
                           taken := taken (hist s); started := started (hist s);
                           processed := processed (hist s); finished := finished (hist s);
                           notified := notified (hist s); released := released (hist s) |} |}, zero)
    end.

(** @src src/mivifwk/mialgoengine/MiaPipeline.cpp:829-831 notifyNextNode: the end

    [mRunningNodeNum -= 1; mCond.notify_one();], the last thing task [i] does. *)
Definition end_task (s : State) (i : nat) (x : string) (error : bool) : State :=
  signal {| mRunSequence := mRunSequence s; depNum := depNum s; mRunningNodeNum := mRunningNodeNum s - 1;
            mHasProcessError := mHasProcessError s || error;
            mCurrentProcessNodes := mCurrentProcessNodes s;
            tasks := delete i (tasks s); pc := pc s;
            hist := {| pushed := pushed (hist s); taken := taken (hist s); started := started (hist s);
                       processed := processed (hist s); finished := finished (hist s) ++ [x];
                       notified := notified (hist s); released := released (hist s) |} |}.

(** The links out of a node, in order. *)
Definition outputs (x : string) : list nat := at_node (mOutputLinkMap m) x.
Definition sink_outputs (x : string) : list nat :=
  filter (λ i, type <$> links p !! i = Some SinkLink) (outputs x).

(** @src src/mivifwk/mialgoengine/MiaPipeline.cpp:769-776 notifyNextNode: mCurrentProcessNodes *)
Definition erase_current (s : State) (x : string) : State :=
  {| mRunSequence := mRunSequence s; depNum := depNum s; mRunningNodeNum := mRunningNodeNum s;
     mHasProcessError := mHasProcessError s;
     mCurrentProcessNodes := filter (λ y, y ≠ x) (mCurrentProcessNodes s);
     tasks := tasks s; pc := pc s; hist := hist s |}.

(** What the thread of a node can do next. *)
Inductive action := EndOk | EndError | ReleaseInput | ReleaseOutput | Advance.

(** @src src/mivifwk/mialgoengine/MiaPipeline.cpp:766-832 Pipeline::notifyNextNode *)
Definition notify_step (s : State) (i : nat) (x : string) (rest : list nat) : outcome State :=
  match rest with
  | [] => Ret (end_task s i x false)
  | index :: rest =>
      let s := with_tasks s (<[i := Notifying x rest]> (tasks s)) in
      link ← or_ub (links p !! index);
      if decide (type link = SinkLink) then Ret (log_released s [index])
      else
        r ← count_down s (dstNodeInstance link);
        Ret (if mHasProcessError s then r.1 else log_notified r.1 [index])
  end.

(** @src src/mivifwk/mialgoengine/MiaPipeline.cpp:779-805 notifyNextNode: an error *)
Definition fail_step (s : State) (i : nat) (x : string) (rest : list nat) : State :=
  match rest with
  | [] => end_task s i x true
  | index :: rest => log_released (with_tasks s (<[i := Failing x rest]> (tasks s))) [index]
  end.

(** @src src/mivifwk/mialgoengine/MiaPipeline.cpp:847-859 releaseInputAndTryNotifyNextNode: the loop *)
Definition release_step (s : State) (i : nat) (x : string) (rest : list nat) : outcome State :=
  match rest with
  | [] => Ret (with_tasks s (<[i := Running x]> (tasks s)))
  | index :: rest =>
      let s := with_tasks s (<[i := Releasing x rest]> (tasks s)) in
      link ← or_ub (links p !! index);
      r ← count_down s (dstNodeInstance link);
      Ret (if (r.2 : bool) then signal r.1 else r.1)
  end.

(** A step of task [i]; [None] when the task cannot take it.

    A running task is in its own code until it makes one of the four calls of the pipeline.
    [EndOk] and both frame calls look the node up ([releaseInputBuffers] does it for [EndOk]). *)
Definition work (s : State) (i : nat) (a : action) : outcome (option State) :=
  match tasks s !! i, a with
  | Some (Running x), EndOk =>
      on ← hands_on p m x;
      Ret (Some (log_processed (erase_current (with_tasks s (<[i := Notifying x (outputs x)]> (tasks s))) x) x))
  | Some (Running x), EndError =>
      Ret (Some (erase_current (with_tasks s (<[i := Failing x (sink_outputs x)]> (tasks s))) x))
  | Some (Running x), ReleaseInput =>
      children ← input_children p m x;
      Ret (Some (with_tasks s (<[i := Releasing x children]> (tasks s))))
  | Some (Running x), ReleaseOutput =>
      r ← output_children p m x;
      Ret (Some (log_released (with_tasks s (<[i := Releasing x r.2]> (tasks s))) r.1))
  | Some (Releasing x rest), Advance => s ← release_step s i x rest; Ret (Some s)
  | Some (Notifying x rest), Advance => s ← notify_step s i x rest; Ret (Some s)
  | Some (Failing x rest), Advance => Ret (Some (fail_step s i x rest))
  | _, _ => Ret None
  end.

(** @src src/mivifwk/mialgoengine/MiaPipeline.cpp:166-172 postProcTask: processInstance *)
Definition take_step (s : State) : State :=
  match mRunSequence s with
  | [] => with_pc s (Start "")
  | x :: rest =>
      {| mRunSequence := rest; depNum := depNum s; mRunningNodeNum := mRunningNodeNum s;
         mHasProcessError := mHasProcessError s;
         mCurrentProcessNodes := set_insert x (mCurrentProcessNodes s);
         tasks := tasks s; pc := Start x;
         hist := {| pushed := pushed (hist s); taken := taken (hist s) ++ [x]; started := started (hist s);
                    processed := processed (hist s); finished := finished (hist s);
                    notified := notified (hist s); released := released (hist s) |} |}
  end.

(** @src src/mivifwk/mialgoengine/MiaPipeline.cpp:196-210 Pipeline::postProcess *)
Definition start_step (s : State) (x : string) : State :=
  if found x then
    {| mRunSequence := mRunSequence s; depNum := depNum s; mRunningNodeNum := mRunningNodeNum s;
       mHasProcessError := mHasProcessError s; mCurrentProcessNodes := mCurrentProcessNodes s;
       tasks := tasks s ++ [Running x]; pc := Account true;
       hist := {| pushed := pushed (hist s); taken := taken (hist s); started := started (hist s) ++ [x];
                  processed := processed (hist s); finished := finished (hist s);
                  notified := notified (hist s); released := released (hist s) |} |}
  else with_pc s (Account false).

(** @src src/mivifwk/mialgoengine/MiaPipeline.cpp:185-186 postProcTask: the predicate of the wait *)
Definition wait_over (s : State) : bool :=
  negb (bool_decide (mRunSequence s = [])) || (mRunningNodeNum s =? 0).

(** @src src/mivifwk/mialgoengine/MiaPipeline.cpp:176-187 postProcTask: behind the call *)
Definition account_step (s : State) (ok : bool) : State :=
  let s := {| mRunSequence := mRunSequence s; depNum := depNum s;
              mRunningNodeNum := if ok then mRunningNodeNum s + 1 else mRunningNodeNum s;
              mHasProcessError := mHasProcessError s; mCurrentProcessNodes := mCurrentProcessNodes s;
              tasks := tasks s; pc := pc s; hist := hist s |} in
  with_pc s (if bool_decide (mRunSequence s = []) then if wait_over s then Test else Waiting false else Test).

(** @src src/mivifwk/mialgoengine/MiaPipeline.cpp:163-188 postProcTask: the loop

    A step of the thread of the pipeline; [None] while it waits and after the loop. *)
Definition main (s : State) : option State :=
  match pc s with
  | Test => Some (with_pc s (if bool_decide (mRunSequence s = []) then Done else Take))
  | Take => Some (take_step s)
  | Start x => Some (start_step s x)
  | Account ok => Some (account_step s ok)
  | Waiting true => Some (with_pc s (if wait_over s then Test else Waiting false))
  | Waiting false | Done => None
  end.

(** Which thread moves; a wait may also end for no reason. *)
Inductive label := Main | Spurious | Work (i : nat) (a : action).

Definition exec (s : State) (l : label) : outcome (option State) :=
  match l with
  | Main => Ret (main s)
  | Spurious => Ret (match pc s with Waiting _ => Some (with_pc s (Waiting true)) | _ => None end)
  | Work i a => work s i a
  end.

(** A schedule, up to the first step that cannot be taken. *)
Fixpoint run (s : State) (ls : list label) : outcome (option State) :=
  match ls with
  | [] => Ret (Some s)
  | l :: ls => r ← exec s l; match r with Some s => run s ls | None => Ret None end
  end.

(** The states of all interleavings. *)
Inductive reachable (s0 : State) : State → Prop :=
  | reach_refl : reachable s0 s0
  | reach_step s l s' : reachable s0 s → exec s l = Ret (Some s') → reachable s0 s'.
End steps.
