(* ===== verification/CamScheduleInv.v ===== *)
(** * Camera pipelines: the invariant of the scheduler

    What the maps that [CamSchedule] builds before its loop hold, as lists of indices of
    links: the links out of a node, into it, and those among them from other nodes.  Then
    three groups of facts hold in every state that [CamSchedule] reaches: the counts and the
    links counted down ([counts_ok]), the queue and the threads ([threads_ok]), and what each
    thread of a node has left to do ([tasks_ok]). *)
From Stdlib Require Import ZArith Lia String.
From stdpp Require Import base list strings gmap sorting.
From S2P Require Import Prelude CamLinks CamPortPrune CamNodePrune CamPruner CamSchedule.

(** ** Indices of links *)

Definition indices (P : LinkItem → bool) (links : list LinkItem) : list nat :=
  filter (λ i, P <$> links !! i = Some true) (seq 0 (length links)).

Lemma elem_of_indices P links i :
  i ∈ indices P links ↔ ∃ l, links !! i = Some l ∧ P l = true.
Proof.
  unfold indices. rewrite list_elem_of_filter, elem_of_seq. split.
  - intros [H _]. apply fmap_Some in H as (l & Hl & ->). eauto.
  - intros (l & Hl & HP). rewrite Hl. cbn. rewrite HP. apply lookup_lt_Some in Hl. split; [done|lia].
Qed.

Lemma NoDup_indices P links : NoDup (indices P links).
Proof. apply NoDup_filter, NoDup_seq. Qed.

Lemma indices_snoc P links l :
  indices P (links ++ [l]) = indices P links ++ (if P l then [length links] else []).
Proof.
  unfold indices. rewrite length_app. simpl. rewrite seq_app, filter_app. f_equal.
  - apply filter_ext_elem. intros i [_ Hi]%elem_of_seq. by rewrite lookup_app_l by lia.
  - simpl. rewrite filter_cons, filter_nil, lookup_app_r, Nat.sub_diag by lia. simpl.
    destruct (P l); [by rewrite decide_True|by rewrite decide_False].
Qed.

(** ** Links of a node *)

Definition out_of (n : string) (l : LinkItem) : bool :=
  bool_decide (srcNodeInstance l = n) && negb (bool_decide (type l = SourceLink)).
Definition into (n : string) (l : LinkItem) : bool :=
  bool_decide (dstNodeInstance l = n) && negb (bool_decide (type l = SinkLink)).
Definition internal (n : string) (l : LinkItem) : bool :=
  bool_decide (dstNodeInstance l = n) && bool_decide (type l = InternalLink).

(** Links to sink buffers have the type of such links. *)
Definition sinks_typed (links : list LinkItem) : Prop :=
  ∀ i l, links !! i = Some l → is_sink (dstNodeInstance l) = true → type l = SinkLink.

(** ** The maps *)

Record maps_ok (links : list LinkItem) (m : Maps) : Prop := {
  mo_out : ∀ n, at_node (mOutputLinkMap m) n = indices (out_of n) links;
  mo_in : ∀ n, om_find (mInputLinkMap m) n =
    match indices (into n) links with [] => None | v => Some v end;
  mo_dep : ∀ n, om_find (mDependenceNum m) n =
    if existsb (λ l, bool_decide (dstNodeInstance l = n)) links && negb (is_sink n)
    then Some (Z.of_nat (length (indices (internal n) links))) else None;
  mo_sorted : om_sorted (mDependenceNum m);
  mo_sources : ∀ n, n ∈ sourceNodes m ↔ ∃ i l, links !! i = Some l ∧ type l = SourceLink ∧ dstNodeInstance l = n;
}.

Lemma prepare_links_snoc k links l m :
  prepare_links k (links ++ [l]) m = prepare_link (k + length links) l (prepare_links k links m).
Proof.
  revert k m. induction links as [|l' links IH]; intros k m; simpl.
  - by rewrite Nat.add_0_r.
  - rewrite IH. by rewrite Nat.add_succ_r.
Qed.

Lemma om_find_update (f : list nat → list nat) (m : list (string * list nat)) k n :
  om_find (om_update [] f m k) n = if decide (k = n) then Some (f (default [] (om_find m k))) else om_find m n.
Proof. unfold om_update. case_decide; [subst; apply om_find_set_eq|by apply om_find_set_ne]. Qed.

Lemma set_insert_elem k s n : n ∈ set_insert k s ↔ n = k ∨ n ∈ s.
Proof.
  unfold set_insert. case_bool_decide; [|by rewrite elem_of_cons]. split; [by right|].
  by intros [->|?].
Qed.

(** Exactly the entry of the destination changes, by one for a link from a node. *)
Definition counted (l : LinkItem) : bool := bool_decide (type l = InternalLink).

Definition dep_link (l : LinkItem) (dep : list (string * Z)) : list (string * Z) :=
  let dep' :=
    if negb (is_sink (dstNodeInstance l)) && bool_decide (om_find dep (dstNodeInstance l) = None)
    then om_set dep (dstNodeInstance l) 0 else dep in
  if counted l && negb (is_sink (dstNodeInstance l)) then om_update 0 (λ n, n + 1) dep' (dstNodeInstance l) else dep'.

Lemma prepare_link_dep i l m : mDependenceNum (prepare_link i l m) = dep_link l (mDependenceNum m).
Proof. unfold prepare_link, dep_link, counted. by destruct (type l). Qed.

Lemma dep_link_find l dep n :
  om_find (dep_link l dep) n =
  if bool_decide (dstNodeInstance l = n) && negb (is_sink n)
  then Some (default 0 (om_find dep n) + (if counted l then 1 else 0)) else om_find dep n.
Proof.
  unfold dep_link, om_update. set (d := dstNodeInstance l).
  destruct (decide (d = n)) as [E|E]; [rewrite (bool_decide_eq_true_2 (d = n)) by done|rewrite (bool_decide_eq_false_2 (d = n)) by done].
  - rewrite <-E. destruct (is_sink d); simpl; [by rewrite andb_false_r|]. rewrite andb_true_r.
    destruct (om_find dep d) as [v|] eqn:Ed; simpl.
      destruct (counted l); [by rewrite om_find_set_eq, Ed|]. rewrite Ed. f_equal. simpl. lia.
    + destruct (counted l); [by rewrite om_find_set_eq, om_find_set_eq|by rewrite om_find_set_eq].
  - simpl. destruct (negb (is_sink d) && _), (counted l && negb (is_sink d)); rewrite ?om_find_set_ne by done; done.
Qed.

Lemma dep_link_sorted l dep : om_sorted dep → om_sorted (dep_link l dep).
Proof.
  intros Hs. unfold dep_link, om_update. destruct (_ && bool_decide _), (counted l && _);
    repeat apply om_set_sorted_keys; done.
Qed.

Lemma prepare_link_ok links l m :
  maps_ok links m → maps_ok (links ++ [l]) (prepare_link (length links) l m).
Proof.
  intros [Ho Hi Hd Hs Hsrc]. split.
  - intros n. rewrite indices_snoc. unfold out_of at 2, prepare_link.
    destruct (type l); simpl; rewrite ?at_node_push, ?Ho, ?andb_false_r, ?andb_true_r, ?app_nil_r; try done;
      by repeat case_decide; repeat case_bool_decide.
  - intros n. rewrite indices_snoc. unfold into at 2, prepare_link.
    destruct (type l) eqn:Et; simpl; rewrite ?om_find_update, ?Hi, ?andb_false_r, ?andb_true_r, ?app_nil_r; try done;
      (destruct (decide (dstNodeInstance l = n)) as [->|E];
       [rewrite bool_decide_eq_true_2 by done; by destruct (indices (into n) links)|
        rewrite bool_decide_eq_false_2 by done; by rewrite app_nil_r]).
  - intros n. rewrite prepare_link_dep, dep_link_find, Hd, existsb_app, indices_snoc, length_app. simpl.
    rewrite orb_false_r. change (internal n l) with (bool_decide (dstNodeInstance l = n) && counted l).
    destruct (bool_decide (dstNodeInstance l = n)) eqn:En; simpl; [|by rewrite orb_false_r, Nat.add_0_r].
    rewrite orb_true_r. simpl. destruct (is_sink n); simpl; [by rewrite andb_false_r|]. rewrite andb_true_r. f_equal.
    destruct (existsb _ links) eqn:Eex; simpl; [destruct (counted l); simpl; lia|].
    assert (indices (internal n) links = []) as ->.
    { apply elem_of_nil_inv. intros i (l' & Hl' & Hin)%elem_of_indices.
      unfold internal in Hin. apply andb_prop in Hin as [Hin _].
      enough (existsb (λ l, bool_decide (dstNodeInstance l = n)) links = true) by congruence.
      apply existsb_exists. exists l'. split; [|done]. apply list_elem_of_In. by eapply list_elem_of_lookup_2. }
    destruct (counted l); simpl; lia.
  - rewrite prepare_link_dep. by apply dep_link_sorted.
  - intros n. transitivity (n ∈ sourceNodes m ∨ (type l = SourceLink ∧ dstNodeInstance l = n)).
    + unfold prepare_link. destruct (type l); simpl; rewrite ?set_insert_elem; naive_solver.
    + rewrite Hsrc. split.
      * intros [(i & l' & Hl & H)|[Ht Hn]].
        -- exists i, l'. split; [by apply lookup_app_l_Some|done].
        -- exists (length links), l. split; [by apply list_lookup_middle|done].
      * intros (i & l' & [[_ Hl]|[-> <-]]%lookup_snoc_Some & H); [left; eauto|by right].
Qed.

Definition maps_of (links : list LinkItem) : Maps :=
  prepare_links 0 links {| mDependenceNum := []; mInputLinkMap := []; mOutputLinkMap := ∅; sourceNodes := [] |}.

Lemma maps_of_ok links : maps_ok links (maps_of links).
Proof.
  unfold maps_of. induction links as [|l links IH] using rev_ind.
  - split; simpl; [by intros n; unfold at_node; rewrite lookup_empty|done..|constructor|].
    intros n. split; [by intros ?%elem_of_nil|by intros (? & ? & ? & _)].
  - rewrite prepare_links_snoc. by apply prepare_link_ok.
Qed.

(** ** The topology *)

Lemma topology_ok_spec nodes inputs :
  topology_ok nodes inputs = Ret true →
  ∀ n v, (n, v) ∈ inputs → ∃ b, node_mode nodes SIGFRAME_MODE n = Ret b ∧ (b = true → (length v ≤ 1)%nat).
Proof.
  induction inputs as [|[k w] inputs IH]; [by intros _ n v ?%elem_of_nil|].
  cbn [topology_ok]. intros (b & Hb & H)%outcome_bind_Ret_inv n v.
  destruct (b && (1 <? length w)%nat) eqn:E; [done|].
  intros [[= -> ->]|Hin]%elem_of_cons; [|by apply IH].
  exists b. split; [done|]. intros ->. rewrite andb_true_l in E. by apply Nat.ltb_ge in E.
Qed.

(** The nodes that the sources feed: some link leads into them, and all links from other nodes
    come from nodes that are fed. *)
Inductive fed (links : list LinkItem) (n : string) : Prop :=
  | fed_intro i link :
      links !! i = Some link → into n link = true →
      (∀ j l, links !! j = Some l → internal n l = true → fed links (srcNodeInstance l)) →
      fed links n.

Section invariant.
Context (p : PipelineInfo) (found : string → bool).
Local Abbreviation L := (links p).
Local Abbreviation m := (maps_of L).
Context (Htyped : sinks_typed L) (Htop : topology_ok (nodes p) (mInputLinkMap m) = Ret true).

Definition cnt (n : string) : nat := length (indices (internal n) L).
Definition sigframe (n : string) : Prop := node_mode (nodes p) SIGFRAME_MODE n = Ret true.

Lemma internal_spec n l : internal n l = true ↔ dstNodeInstance l = n ∧ type l = InternalLink.
Proof. unfold internal. by rewrite andb_true_iff, !bool_decide_eq_true. Qed.
Lemma into_spec n l : into n l = true ↔ dstNodeInstance l = n ∧ type l ≠ SinkLink.
Proof. unfold into. by rewrite andb_true_iff, negb_true_iff, bool_decide_eq_true, bool_decide_eq_false. Qed.
Lemma out_of_spec n l : out_of n l = true ↔ srcNodeInstance l = n ∧ type l ≠ SourceLink.
Proof. unfold out_of. by rewrite andb_true_iff, negb_true_iff, bool_decide_eq_true, bool_decide_eq_false. Qed.

Lemma internal_into n l : internal n l = true → into n l = true.
Proof. rewrite internal_spec, into_spec. intros [-> ->]. done. Qed.

Lemma internal_not_sink i l : L !! i = Some l → type l = InternalLink → is_sink (dstNodeInstance l) = false.
Proof.
  intros Hl Ht. destruct (is_sink _) eqn:E; [|done]. apply (Htyped i l Hl) in E. congruence.
Qed.

Lemma cnt_pos n i l : L !! i = Some l → internal n l = true → (0 < cnt n)%nat.
Proof.
  intros Hl Hi. assert (i ∈ indices (internal n) L) as Hin by (apply elem_of_indices; eauto).
  unfold cnt. destruct (indices _ _); [by apply elem_of_nil in Hin|]. simpl. lia.
Qed.

(** The nodes that links lead into are known, and frame-by-frame nodes have one link. *)
Lemma node_known n i l :
  L !! i = Some l → into n l = true →
  ∃ b, node_mode (nodes p) SIGFRAME_MODE n = Ret b ∧ (b = true → (length (indices (into n) L) ≤ 1)%nat).
Proof.
  intros Hl Hi. apply (topology_ok_spec _ _ Htop n (indices (into n) L)).
  apply om_find_elem. rewrite (mo_in _ _ (maps_of_ok L)).
  assert (i ∈ indices (into n) L) as Hin by (apply elem_of_indices; eauto).
  destruct (indices (into n) L); [by apply elem_of_nil in Hin|done].
Qed.

Lemma sigframe_one n i j l l' :
  sigframe n → L !! i = Some l → into n l = true → L !! j = Some l' → into n l' = true → i = j.
Proof.
  intros Hs Hi Hn Hj Hn'. destruct (node_known n i l Hi Hn) as (b & Hb & Hlen).
  rewrite Hs in Hb. injection Hb as <-. specialize (Hlen eq_refl).
  assert (i ∈ indices (into n) L) as H1 by (apply elem_of_indices; eauto).
  assert (j ∈ indices (into n) L) as H2 by (apply elem_of_indices; eauto).
  destruct (indices (into n) L) as [|x [|y v]]; [by apply elem_of_nil in H1| |simpl in Hlen; lia].
  apply list_elem_of_singleton in H1, H2. congruence.
Qed.

(** The links into [n] among those counted down. *)
Definition done_links (n : string) (notified : list nat) : list nat :=
  filter (.∈ indices (internal n) L) notified.

Lemma done_links_le n notified : NoDup notified → (length (done_links n notified) ≤ cnt n)%nat.
Proof.
  intros Hnd. apply submseteq_length, NoDup_submseteq; [by apply NoDup_filter|].
  by intros i [Hi _]%list_elem_of_filter.
Qed.

(** All of them, when there are as many. *)
Lemma done_links_all n notified i :
  NoDup notified → (cnt n ≤ length (done_links n notified))%nat → i ∈ indices (internal n) L → i ∈ notified.
Proof.
  intros Hnd Hlen Hi. assert (done_links n notified ≡ₚ indices (internal n) L) as Hp.
  { apply submseteq_length_Permutation; [|done]. apply NoDup_submseteq; [by apply NoDup_filter|].
    by intros j [Hj _]%list_elem_of_filter. }
  rewrite <-Hp in Hi. by apply list_elem_of_filter in Hi as [_ ?].
Qed.

Lemma done_links_snoc n notified j :
  length (done_links n (notified ++ [j])) =
  (length (done_links n notified) + (if decide (j ∈ indices (internal n) L) then 1 else 0))%nat.
Proof.
  unfold done_links. rewrite filter_app, length_app. f_equal. rewrite filter_cons, filter_nil. by case_decide.
Qed.

(** ** Counts *)

Record counts_ok (dep : list (string * Z)) (pushed started : list string) (notified : list nat) : Prop := {
  co_dep : ∀ n, (0 < cnt n)%nat → ∃ d, om_find dep n = Some d ∧ (d ≤ 0 ↔ n ∈ pushed) ∧
    d ≤ Z.of_nat (cnt n) - Z.of_nat (length (done_links n notified)) ∧
    (¬ sigframe n → d = Z.of_nat (cnt n) - Z.of_nat (length (done_links n notified)));
  co_first : ∀ i l, L !! i = Some l → type l = SourceLink → cnt (dstNodeInstance l) = 0%nat →
    dstNodeInstance l ∈ pushed;
  co_nodup : NoDup pushed;
  co_fed : ∀ n, n ∈ pushed → fed L n;
  co_sig : ∀ n i l, n ∈ pushed → sigframe n → L !! i = Some l → internal n l = true →
    srcNodeInstance l ∈ started;
}.

(** What [count_down] does to the state. *)
Definition with_push (s : State) (dep : list (string * Z)) (new : list string) : State :=
  {| mRunSequence := mRunSequence s ++ new; depNum := dep;
     mRunningNodeNum := mRunningNodeNum s; mHasProcessError := mHasProcessError s;
     mCurrentProcessNodes := mCurrentProcessNodes s; tasks := tasks s; pc := pc s;
     hist := {| pushed := pushed (hist s) ++ new; taken := taken (hist s); started := started (hist s);
                processed := processed (hist s); finished := finished (hist s);
                notified := notified (hist s); released := released (hist s) |} |}.

Lemma counts_ok_started dep pushed started started' notified :
  counts_ok dep pushed started notified → (∀ x, x ∈ started → x ∈ started') →
  counts_ok dep pushed started' notified.
Proof. intros [? ? ? ? Hsig] Hsub. split; eauto. Qed.

(** A node whose last link was counted down is fed. *)
Lemma fed_all n i l : L !! i = Some l → internal n l = true →
  (∀ j l', L !! j = Some l' → internal n l' = true → fed L (srcNodeInstance l')) → fed L n.
Proof. intros Hl Hi Hall. eapply fed_intro; [done|by apply internal_into|done]. Qed.

Lemma count_down_ok s j l notified' :
  counts_ok (depNum s) (pushed (hist s)) (started (hist s)) (notified (hist s)) →
  mHasProcessError s = false → L !! j = Some l → type l = InternalLink →
  srcNodeInstance l ∈ started (hist s) →
  (∀ x, x ∈ started (hist s) → x ∈ pushed (hist s)) →
  NoDup notified' →
  (∀ i, i ∈ notified' → ∃ l', L !! i = Some l' ∧ srcNodeInstance l' ∈ started (hist s)) →
  (notified' = notified (hist s) ∧ sigframe (dstNodeInstance l)) ∨ notified' = notified (hist s) ++ [j] →
  ∃ dep' new b, count_down s (dstNodeInstance l) = Ret (with_push s dep' new, b) ∧
    counts_ok dep' (pushed (hist s) ++ new) (started (hist s)) notified'.
Proof.
  intros C Herr Hl Ht Hsrc Hstart Hnd Hnot Hcase. set (n := dstNodeInstance l) in *.
  assert (internal n l = true) as Hint by by apply internal_spec.
  destruct (co_dep _ _ _ _ C n (cnt_pos n j l Hl Hint)) as (d & Hd & Hpush & Hle & Heq).
  assert (∀ k, k ≠ n → length (done_links k notified') = length (done_links k (notified (hist s)))) as Hother.
  { intros k Hk. destruct Hcase as [[-> _]| ->]; [done|]. rewrite done_links_snoc, decide_False; [lia|].
    intros (l' & Hl' & [E _]%internal_spec)%elem_of_indices. apply Hk. unfold n. congruence. }
  assert (length (done_links n notified') ≤ S (length (done_links n (notified (hist s)))))%nat as Hstep.
  { destruct Hcase as [[-> _]| ->]; [lia|]. rewrite done_links_snoc. case_decide; lia. }
  assert (¬ sigframe n → length (done_links n notified') = S (length (done_links n (notified (hist s))))) as Hexact.
  { intros Hns. destruct Hcase as [[_ ?]| ->]; [done|]. rewrite done_links_snoc, decide_True; [lia|].
    apply elem_of_indices. eauto. }
  set (zero := d - 1 =? 0). exists (om_set (depNum s) n (d - 1)), (if zero then [n] else []), zero.
  split.
  { unfold count_down, with_push. rewrite Herr, Hd. fold zero. by destruct zero; rewrite ?app_nil_r. }
  assert (∀ k, k ∈ pushed (hist s) ++ (if zero then [n] else []) ↔ k ∈ pushed (hist s) ∨ (zero = true ∧ k = n)) as Hel.
  { intros k. rewrite elem_of_app. destruct zero; rewrite ?list_elem_of_singleton, ?elem_of_nil; naive_solver. }
  assert (zero = true ↔ d = 1) as Hzero by (unfold zero; rewrite Z.eqb_eq; lia).
  assert (zero = true → fed L n) as Hfed.
  { intros Hz. apply (fed_all n j l Hl Hint). intros i l' Hl' Hi.
    apply (co_fed _ _ _ _ C), Hstart. destruct (decide (sigframe n)) as [Hs|Hs].
    - replace i with j in Hl' by (by eapply sigframe_one; eauto using internal_into). congruence.
    - destruct (Hnot i) as (l'' & Hl'' & ?); [|congruence].
      apply (done_links_all n); [done|rewrite Hexact by done; specialize (Heq Hs); apply Hzero in Hz; lia|].
      apply elem_of_indices. eauto. }
  split.
  - intros k Hk. destruct (decide (k = n)) as [->|Hkn].
    + exists (d - 1). rewrite om_find_set_eq, Hel, <-Hpush, Hzero. split_and!; [done| |lia|].
      * split; [|lia]. intros. destruct (decide (d = 1)); [by right|left; lia].
      * intros Hs. rewrite Hexact by done. specialize (Heq Hs). lia.
    + rewrite om_find_set_ne by done. destruct (co_dep _ _ _ _ C k Hk) as (e & He & Hpe & Hle' & Heq').
      exists e. rewrite Hel, Hother by done. split_and!; [done| |done..]. rewrite Hpe. naive_solver.
  - intros i l' Hl' Ht' Hc. apply Hel. left. by eapply (co_first _ _ _ _ C).
  - destruct zero eqn:Ez; [|rewrite app_nil_r; apply (co_nodup _ _ _ _ C)].
    apply NoDup_app. split_and!; [apply (co_nodup _ _ _ _ C)| |apply NoDup_singleton].
    intros k Hk ->%list_elem_of_singleton. apply Hpush in Hk. apply proj1 in Hzero. specialize (Hzero eq_refl). lia.
  - intros k [Hk|[Hz ->]]%Hel; [by apply (co_fed _ _ _ _ C)|by apply Hfed].
  - intros k i l' [Hk|[Hz ->]]%Hel Hs Hl' Hi; [by eapply (co_sig _ _ _ _ C)|].
    replace i with j in Hl' by (by eapply sigframe_one; eauto using internal_into). congruence.
Qed.

(** ** The queue and the threads *)

Definition pc_ok (pc : main_pc) (queue : list string) (ts : list task) : Prop :=
  match pc with
  | Test => queue = [] → ts = []
  | Take => queue ≠ []
  | Done => queue = [] ∧ ts = []
  | Waiting false => ts ≠ []
  | _ => True
  end.

(** The node between the queue and its thread. *)
Definition pending (pc : main_pc) : list string :=
  match pc with Start x => if found x then [x] else [] | _ => [] end.
Definition uncounted (pc : main_pc) : Z :=
  match pc with Account true => 1 | _ => 0 end.

Record threads_ok (queue pushed taken started finished : list string) (ts : list task) (running : Z)
    (pc : main_pc) : Prop := {
  th_queue : pushed = taken ++ queue;
  th_taken : filter (λ x, found x = true) taken = started ++ pending pc;
  th_started : started ≡ₚ (task_node <$> ts) ++ finished;
  th_running : running = Z.of_nat (length ts) - uncounted pc;
  th_pc : pc_ok pc queue ts;
}.

Lemma started_pushed queue pu tk st fi ts ru c x :
  threads_ok queue pu tk st fi ts ru c → x ∈ st → x ∈ pu.
Proof.
  intros T Hx. rewrite (th_queue _ _ _ _ _ _ _ _ T). apply elem_of_app. left.
  assert (x ∈ filter (λ x, found x = true) tk) as Hf.
  { rewrite (th_taken _ _ _ _ _ _ _ _ T). apply elem_of_app. by left. }
  by apply list_elem_of_filter in Hf as [_ ?].
Qed.

Lemma started_NoDup queue pu tk st fi ts ru c :
  threads_ok queue pu tk st fi ts ru c → NoDup pu → NoDup (st ++ pending c).
Proof.
  intros T Hnd. rewrite <-(th_taken _ _ _ _ _ _ _ _ T). apply NoDup_filter.
  rewrite (th_queue _ _ _ _ _ _ _ _ T) in Hnd. by apply NoDup_app in Hnd as [? _].
Qed.

Lemma task_started queue pu tk st fi ts ru c t :
  threads_ok queue pu tk st fi ts ru c → t ∈ ts → task_node t ∈ st.
Proof.
  intros T Ht. rewrite (th_started _ _ _ _ _ _ _ _ T). apply elem_of_app. left.
  by apply list_elem_of_fmap_2.
Qed.

Lemma tasks_NoDup queue pu tk st fi ts ru c :
  threads_ok queue pu tk st fi ts ru c → NoDup pu → NoDup (task_node <$> ts).
Proof.
  intros T Hnd. pose proof (started_NoDup _ _ _ _ _ _ _ _ T Hnd) as Hs.
  apply NoDup_app in Hs as [Hs _]. rewrite (th_started _ _ _ _ _ _ _ _ T) in Hs.
  by apply NoDup_app in Hs as [? _].
Qed.

(** A thread of a node that goes on, possibly filling the queue, and the thread of the
    pipeline being signalled. *)
Definition signal_pc (b : bool) (c : main_pc) : main_pc :=
  match c with Waiting _ => if b then Waiting true else c | _ => c end.

Lemma pc_ok_nonempty c q ts b : pc_ok c q ts → ts ≠ [] →
  ∀ new ts', ts' ≠ [] → pc_ok (signal_pc b c) (q ++ new) ts'.
Proof.
  intros Hpc Hne new ts' Hne'. destruct c as [| | | |[]|], b; simpl in *; try done;
    try (intros [? _]%app_nil; by destruct Hne, Hpc); try (by intros [? _]%app_nil); by destruct Hpc.
Qed.

Lemma threads_ok_go queue pu tk st fi ts ru c i t t' new b :
  threads_ok queue pu tk st fi ts ru c → ts !! i = Some t → task_node t' = task_node t →
  threads_ok (queue ++ new) (pu ++ new) tk st fi (<[i := t']> ts) ru (signal_pc b c).
Proof.
  intros [Hq Ht Hs Hr Hpc] Hi Hn.
  assert (ts ≠ []) as Hne by by intros ->.
  assert (task_node <$> <[i := t']> ts = task_node <$> ts) as Hmap.
  { rewrite list_fmap_insert, Hn. apply list_insert_id. by rewrite list_lookup_fmap, Hi. }
  split.
  - by rewrite Hq, app_assoc.
  - by rewrite Ht; destruct c as [| | | |[]|], b.
  - by rewrite Hmap.
  - rewrite length_insert, Hr. by destruct c as [| | | |[]|], b.
  - apply (pc_ok_nonempty _ _ ts); [done..|]. intros E. apply (f_equal length) in E.
    rewrite length_insert in E. by destruct ts.
Qed.

(** A thread of a node that ends. *)
Lemma threads_ok_end queue pu tk st fi ts ru c i t :
  threads_ok queue pu tk st fi ts ru c → ts !! i = Some t →
  threads_ok queue pu tk st (fi ++ [task_node t]) (delete i ts) (ru - 1) (signal_pc true c).
Proof.
  intros [Hq Ht Hs Hr Hpc] Hi. split.
  - done.
  - rewrite Ht. by destruct c.
  - rewrite Hs. rewrite (delete_Permutation ts i t Hi) at 1. cbn. rewrite app_assoc.
    rewrite (Permutation_app_comm (_ ++ fi)). done.
  - rewrite length_delete by eauto. apply lookup_lt_Some in Hi. rewrite Hr. destruct c as [| | |[]| |]; simpl; lia.
  - destruct c as [| | | |[]|]; simpl in *; try done.
    + intros E. rewrite (Hpc E) in Hi. done.
    + destruct Hpc as [_ ->]. done.
Qed.

(** The steps of the thread of the pipeline. *)
Lemma threads_ok_pc queue pu tk st fi ts ru c c' :
  threads_ok queue pu tk st fi ts ru c → pending c' = pending c → uncounted c' = uncounted c →
  pc_ok c' queue ts → threads_ok queue pu tk st fi ts ru c'.
Proof. intros [Hq Ht Hs Hr Hpc] Hp Hu Hc. by split; rewrite ?Hp, ?Hu. Qed.

Lemma threads_ok_take x queue pu tk st fi ts ru :
  threads_ok (x :: queue) pu tk st fi ts ru Take → threads_ok queue pu (tk ++ [x]) st fi ts ru (Start x).
Proof.
  intros [Hq Ht Hs Hr Hpc]. split; [by rewrite <-app_assoc| |done..].
  rewrite filter_app, Ht. simpl. rewrite app_nil_r, filter_cons, filter_nil. f_equal.
  destruct (found x); [by rewrite decide_True|by rewrite decide_False].
Qed.

Lemma threads_ok_start x queue pu tk st fi ts ru :
  threads_ok queue pu tk st fi ts ru (Start x) → found x = true →
  threads_ok queue pu tk (st ++ [x]) fi (ts ++ [Running x]) ru (Account true).
Proof.
  intros [Hq Ht Hs Hr Hpc] Hf. split; [done| | | |done].
  - rewrite Ht. simpl. by rewrite Hf, app_nil_r.
  - rewrite Hs, fmap_app. cbn. rewrite <-!app_assoc. f_equiv. apply Permutation_app_comm.
  - rewrite Hr, length_app. simpl. lia.
Qed.

(** ** The threads of the nodes *)

Definition task_ok (processed : list string) (t : task) : Prop :=
  match t with
  | Running x | Failing x _ => x ∉ processed
  | Releasing x rest => x ∉ processed ∧ ∀ i, i ∈ rest →
      ∃ l, L !! i = Some l ∧ type l = InternalLink ∧ srcNodeInstance l = x ∧ sigframe (dstNodeInstance l)
  | Notifying x rest => x ∈ processed ∧ NoDup rest ∧ ∀ i, i ∈ rest → i ∈ indices (out_of x) L
  end.

(** The links of [x] that are still to be handled. *)
Definition left_to_do (ts : list task) (x : string) (i : nat) : Prop :=
  ∃ rest, Notifying x rest ∈ ts ∧ i ∈ rest.

Definition handled (notified released : list nat) (l : LinkItem) (i : nat) : Prop :=
  if decide (type l = SinkLink) then i ∈ released else i ∈ notified.

Record tasks_ok (ts : list task) (started processed finished : list string) (notified released : list nat)
    (error : bool) : Prop := {
  to_started : ∀ x, x ∈ processed → x ∈ started;
  to_task : ∀ t, t ∈ ts → task_ok processed t;
  to_notified : ∀ i, i ∈ notified → ∃ l, L !! i = Some l ∧ type l = InternalLink ∧
    srcNodeInstance l ∈ processed ∧
    ∀ t, t ∈ ts → task_node t = srcNodeInstance l → ∃ rest, t = Notifying (srcNodeInstance l) rest ∧ i ∉ rest;
  to_nodup : NoDup notified;
  to_done : error = false → ∀ x i l, x ∈ processed → L !! i = Some l → out_of x l = true →
    handled notified released l i ∨ left_to_do ts x i;
  to_finished : error = false → ∀ x, x ∈ finished → x ∈ processed;
}.

Lemma elem_of_insert_inv (ts : list task) i t t0 t' :
  ts !! i = Some t0 → t ∈ <[i := t']> ts → NoDup (task_node <$> ts) →
  t = t' ∨ (t ∈ ts ∧ task_node t ≠ task_node t0).
Proof.
  intros Hi (j & Hj)%list_elem_of_lookup_1 Hnd. destruct (decide (i = j)) as [->|Hne].
  - rewrite list_lookup_insert_eq in Hj by (by eapply lookup_lt_Some). injection Hj as <-. by left.
  - rewrite list_lookup_insert_ne in Hj by done. right. split; [by eapply list_elem_of_lookup_2|].
    intros E. apply Hne. eapply NoDup_lookup; [done|..]; rewrite list_lookup_fmap; [by rewrite Hi|by rewrite Hj, <-E].
Qed.

Lemma elem_of_insert_other (ts : list task) i t t0 t' :
  ts !! i = Some t0 → t ∈ ts → t = t0 ∨ t ∈ <[i := t']> ts.
Proof.
  intros Hi (j & Hj)%list_elem_of_lookup_1. destruct (decide (i = j)) as [->|Hne]; [left; congruence|right].
  apply list_elem_of_lookup_2 with j. by rewrite list_lookup_insert_ne.
Qed.

Lemma elem_of_insert_new (ts : list task) i t0 t' : ts !! i = Some t0 → t' ∈ <[i := t']> ts.
Proof.
  intros Hi. apply list_elem_of_lookup_2 with i. apply list_lookup_insert_eq. by eapply lookup_lt_Some.
Qed.

(** A thread that is neither before nor behind its notifications. *)
Lemma tasks_ok_busy ts st pr fi no re err i t t' :
  tasks_ok ts st pr fi no re err → NoDup (task_node <$> ts) → ts !! i = Some t →
  task_node t' = task_node t → task_node t ∉ pr → task_ok pr t' →
  tasks_ok (<[i := t']> ts) st pr fi no re err.
Proof.
  intros [Hs Ht Hn Hnd Hd Hf] Hnodup Hi Hnode Hnp Hok. split; [done| | |done| |done].
  - intros u [->|[Hu _]]%(elem_of_insert_inv _ _ _ _ _ Hi); [done|by apply Ht|done].
  - intros j Hj. destruct (Hn j Hj) as (l & Hl & Hty & Hp & Hall). exists l. split_and!; [done..|].
    intros u [->|[Hu _]]%(elem_of_insert_inv _ _ _ _ _ Hi); [|by apply Hall|done].
    rewrite Hnode. intros E. congruence.
  - intros He x j l Hx Hl Ho. destruct (Hd He x j l Hx Hl Ho) as [?|(rest & Hr & Hj)]; [by left|right].
    exists rest. split; [|done]. destruct (elem_of_insert_other _ _ _ _ t' Hi Hr) as [<-|?]; [|done].
    done.
Qed.
End invariant.
