(* ===== verification/CamScheduleSteps.v ===== *)
(** * Camera pipelines: the steps of the scheduler keep its invariant

    What the steps of [CamSchedule] do to the facts of [CamScheduleInv]: the notifications of
    a node, its end and its start; then the invariant [Inv] of the whole state, that the
    initial state has it, and that no step leaves it, throws or is undefined. *)
From Stdlib Require Import ZArith Lia String.
From stdpp Require Import base list strings gmap sorting.
From S2P Require Import Prelude CamLinks CamPortPrune CamNodePrune CamPruner CamSchedule CamScheduleInv.

Section tasks.
Context (p : PipelineInfo).
Local Abbreviation L := (links p).
Implicit Types (ts : list task) (st pr fi : list string) (no re : list nat) (err : bool).

Lemma outputs_indices x : outputs (maps_of L) x = indices (out_of x) L.
Proof. apply (mo_out _ _ (maps_of_ok L)). Qed.

Lemma tasks_ok_released ts st pr fi no re err ks :
  tasks_ok p ts st pr fi no re err → tasks_ok p ts st pr fi no (re ++ ks) err.
Proof.
  intros [Hs Ht Hn Hnd Hd Hf]. split; [done..| |done]. intros He x i l Hx Hl Ho.
  destruct (Hd He x i l Hx Hl Ho) as [H|?]; [left|by right].
  unfold handled in *. case_decide; [apply elem_of_app; by left|done].
Qed.

(** The plug-in of a node succeeded. *)
Lemma tasks_ok_success ts st pr fi no re err i x :
  tasks_ok p ts st pr fi no re err → NoDup (task_node <$> ts) → ts !! i = Some (Running x) → x ∈ st →
  tasks_ok p (<[i := Notifying x (outputs (maps_of L) x)]> ts) st (pr ++ [x]) fi no re err.
Proof.
  intros [Hs Ht Hn Hnd Hd Hf] Hnodup Hi Hst. rewrite outputs_indices.
  assert (x ∉ pr) as Hx by (apply (Ht (Running x)); by eapply list_elem_of_lookup_2).
  split; [| | |done| |].
  - intros y [?| ->%list_elem_of_singleton]%elem_of_app; auto.
  - intros t [->|[Hu Hne]]%(elem_of_insert_inv _ _ _ _ _ Hi); [| |done].
    + simpl. split_and!; [set_solver|apply NoDup_indices|done].
    + specialize (Ht t Hu). destruct t; simpl in *; set_solver.
  - intros j Hj. destruct (Hn j Hj) as (l & Hl & Hty & Hp & Hall). exists l. split_and!; [done..|set_solver|].
    intros u [->|[Hu _]]%(elem_of_insert_inv _ _ _ _ _ Hi); [|by apply Hall|done].
    simpl. intros ->. done.
  - intros He y j l [Hy| ->%list_elem_of_singleton]%elem_of_app Hl Ho.
    + destruct (Hd He y j l Hy Hl Ho) as [?|(rest & Hr & Hj)]; [by left|right].
      exists rest. split; [|done].
      destruct (elem_of_insert_other _ _ _ _ (Notifying x (indices (out_of x) L)) Hi Hr) as [?|?]; done.
    + right. exists (indices (out_of x) L). split; [by eapply elem_of_insert_new|].
      apply elem_of_indices. eauto.
  - intros He y Hy. apply elem_of_app. left. by apply Hf.
Qed.

(** The link at the head of the list is handled. *)
Lemma tasks_ok_notify ts st pr fi no re err i x j rest l no' re' :
  tasks_ok p ts st pr fi no re err → NoDup (task_node <$> ts) → ts !! i = Some (Notifying x (j :: rest)) →
  L !! j = Some l →
  (no' = no ∧ (∀ k, k ∈ re → k ∈ re') ∧ (err = false → type l = SinkLink ∧ j ∈ re')) ∨
    (type l = InternalLink ∧ no' = no ++ [j] ∧ re' = re) →
  tasks_ok p (<[i := Notifying x rest]> ts) st pr fi no' re' err.
Proof.
  intros [Hs Ht Hn Hnd Hd Hf] Hnodup Hi Hl Hcase.
  assert (Notifying x (j :: rest) ∈ ts) as Hin by (by eapply list_elem_of_lookup_2).
  destruct (Ht _ Hin) as (Hx & [Hjr Hrest]%NoDup_cons & Hout).
  destruct (proj1 (elem_of_indices _ _ _) (Hout j ltac:(left))) as (l' & Hl' & [Hsrc Hns]%out_of_spec).
  rewrite Hl in Hl'. injection Hl' as <-.
  assert (j ∉ no) as Hjn.
  { intros (l0 & Hl0 & _ & _ & Hall)%Hn. rewrite Hl in Hl0. injection Hl0 as <-.
    destruct (Hall _ Hin (eq_sym Hsrc)) as (r & [= _ <-] & Hnj). apply Hnj. left. }
  split; [done| | | | |done].
  - intros t [->|[Hu _]]%(elem_of_insert_inv _ _ _ _ _ Hi); [|by apply Ht|done].
    simpl. split_and!; [done..|]. intros k Hk. apply Hout. by right.
  - assert (∀ k, k ∈ no' → k ∈ no ∨ (k = j ∧ type l = InternalLink)) as Hno'.
    { destruct Hcase as [(-> & _)|(Hty & -> & _)]; set_solver. }
    intros k [Hk|[-> Hty]]%Hno'.
    + destruct (Hn k Hk) as (lk & Hlk & Htk & Hpk & Hall). exists lk. split_and!; [done..|].
      intros u [->|[Hu _]]%(elem_of_insert_inv _ _ _ _ _ Hi); [|by apply Hall|done].
      intros E. cbn in E. destruct (Hall _ Hin E) as (r & [= _ <-] & Hkr).
      exists rest. split; [congruence|set_solver].
    + exists l. rewrite Hsrc. split_and!; [done..|].
      intros u [->|[Hu Hne]]%(elem_of_insert_inv _ _ _ _ _ Hi); [eauto|by intros ?|done].
  - destruct Hcase as [(-> & _)|(_ & -> & _)]; [done|]. apply NoDup_app. split_and!; [done| |apply NoDup_singleton].
    by intros k Hk ->%list_elem_of_singleton.
  - intros He y k lk Hy Hlk Ho.
    assert (handled no' re' lk k ∨ handled no re lk k ∨ left_to_do ts y k ∧ k ≠ j) as [?|[H|[H Hkj]]].
    { destruct (decide (k = j)) as [->|Hkj]; [|destruct (Hd He y k lk Hy Hlk Ho); auto].
      rewrite Hl in Hlk. injection Hlk as <-. left. unfold handled. destruct Hcase as [(-> & _ & H)|(-> & -> & ->)]; [|simpl; set_solver].
      destruct (H He) as [-> ?]. done. }
    + by left.
    + left. unfold handled in *. case_decide; destruct Hcase as [(-> & Hre & _)|(_ & -> & ->)]; set_solver.
    + right. destruct H as (r & Hr & Hk).
      destruct (elem_of_insert_other _ _ _ _ (Notifying x rest) Hi Hr) as [[= -> ->]|Hr'].
      * exists rest. split; [by eapply elem_of_insert_new|]. set_solver.
      * by exists r.
Qed.

Lemma tasks_ok_end ts st pr fi no re err i t err' :
  tasks_ok p ts st pr fi no re err → NoDup (task_node <$> ts) → ts !! i = Some t →
  (∃ x, t = Notifying x [] ∧ err' = false) ∨ (∃ x, t = Failing x [] ∧ err' = true) →
  tasks_ok p (delete i ts) st pr (fi ++ [task_node t]) no re (err || err').
Proof.
  intros [Hs Ht Hn Hnd Hd Hf] Hnodup Hi Hcase.
  assert (∀ u, u ∈ delete i ts → u ∈ ts) as Hsub.
  { intros u Hu. rewrite (delete_Permutation ts i t Hi). by right. }
  split; [done| | |done| |].
  - intros u Hu. by apply Ht, Hsub.
  - intros j Hj. destruct (Hn j Hj) as (l & Hl & Hty & Hp & Hall). exists l. split_and!; [done..|].
    intros u Hu. by apply Hall, Hsub.
  - intros [-> ->]%orb_false_iff y j l Hy Hl Ho.
    destruct (Hd eq_refl y j l Hy Hl Ho) as [?|(r & Hr & Hj)]; [by left|right]. exists r. split; [|done].
    rewrite (delete_Permutation ts i t Hi) in Hr. apply elem_of_cons in Hr as [<-|?]; [|done].
    destruct Hcase as [(x & [= -> ->] & _)|(x & [=] & _)]. by apply elem_of_nil in Hj.
  - intros [-> ->]%orb_false_iff y [Hy| ->%list_elem_of_singleton]%elem_of_app; [by apply Hf|].
    destruct Hcase as [(x & -> & _)|(x & _ & [=])].
    by destruct (Ht (Notifying x []) (list_elem_of_lookup_2 _ _ _ Hi)).
Qed.

Lemma tasks_ok_start ts st pr fi no re err x :
  tasks_ok p ts st pr fi no re err → x ∉ st →
  tasks_ok p (ts ++ [Running x]) (st ++ [x]) pr fi no re err.
Proof.
  intros [Hs Ht Hn Hnd Hd Hf] Hx. split; [| | |done| |done].
  - intros y Hy. apply elem_of_app. left. by apply Hs.
  - intros t [?| ->%list_elem_of_singleton]%elem_of_app; [by apply Ht|]. simpl. by intros ?%Hs.
  - intros j Hj. destruct (Hn j Hj) as (l & Hl & Hty & Hp & Hall). exists l. split_and!; [done..|].
    intros u [?| ->%list_elem_of_singleton]%elem_of_app; [by apply Hall|].
    simpl. intros ->. by apply Hs in Hp.
  - intros He y j l Hy Hl Ho. destruct (Hd He y j l Hy Hl Ho) as [?|(r & Hr & Hj)]; [by left|right].
    exists r. split; [|done]. apply elem_of_app. by left.
Qed.
End tasks.

(** ** The invariant *)

Section step.
Context (p : PipelineInfo) (found : string → bool).
Local Abbreviation L := (links p).
Local Abbreviation m := (maps_of L).
Context (Htyped : sinks_typed L) (Htop : topology_ok (nodes p) (mInputLinkMap m) = Ret true).

Record Inv (s : State) : Prop := {
  inv_counts : counts_ok p (depNum s) (pushed (hist s)) (started (hist s)) (notified (hist s));
  inv_threads : threads_ok found (mRunSequence s) (pushed (hist s)) (taken (hist s)) (started (hist s))
    (finished (hist s)) (tasks s) (mRunningNodeNum s) (pc s);
  inv_tasks : tasks_ok p (tasks s) (started (hist s)) (processed (hist s)) (finished (hist s))
    (notified (hist s)) (released (hist s)) (mHasProcessError s);
}.

(** *** The initial state *)

Lemma om_find_filter (P : string * Z → Prop) `{!∀ x, Decision (P x)} (mm : list (string * Z)) k :
  NoDup (fst <$> mm) →
  om_find (filter P mm) k = match om_find mm k with
                            | Some v => if decide (P (k, v)) then Some v else None | None => None end.
Proof.
  induction mm as [|[k' v] mm IH]; [done|]. rewrite fmap_cons, NoDup_cons. intros [Hk' Hnd]. cbn [om_find].
  destruct (key_compare k' k) eqn:E.
  - apply key_compare_eq in E as ->. rewrite filter_cons. case_decide; simpl.
    + by rewrite (proj2 (key_compare_eq k k) eq_refl).
    + rewrite IH by done. destruct (om_find mm k) eqn:Ef; [|done].
      destruct Hk'. apply om_find_elem in Ef. apply (list_elem_of_fmap_2 fst) in Ef. done.
  - rewrite filter_cons. case_decide; simpl; [rewrite E|]; by apply IH.
  - rewrite filter_cons. case_decide; simpl; [rewrite E|]; by apply IH.
Qed.

Lemma om_find_NoDup (mm : list (string * Z)) k v :
  NoDup (fst <$> mm) → (k, v) ∈ mm → om_find mm k = Some v.
Proof.
  induction mm as [|[k' v'] mm IH]; [by intros _ ?%elem_of_nil|].
  rewrite fmap_cons, NoDup_cons. intros [Hk' Hnd] [[= -> ->]|Hin]%elem_of_cons; cbn [om_find].
  - by rewrite (proj2 (key_compare_eq k' k') eq_refl).
  - destruct (key_compare k' k) eqn:E; [|by apply IH..]. apply key_compare_eq in E as ->.
    destruct Hk'. by apply (list_elem_of_fmap_2 fst) in Hin.
Qed.

Lemma dep_NoDup : NoDup (fst <$> mDependenceNum m).
Proof. apply om_sorted_NoDup, (mo_sorted _ _ (maps_of_ok L)). Qed.

(** The count of a node that is not a sink. *)
Lemma dep_find i l n : L !! i = Some l → into n l = true →
  om_find (mDependenceNum m) n = Some (Z.of_nat (cnt p n)).
Proof.
  intros Hl [Hd Ht]%into_spec. rewrite (mo_dep _ _ (maps_of_ok L)).
  assert (existsb (λ l, bool_decide (dstNodeInstance l = n)) L = true) as ->.
  { apply existsb_exists. exists l. rewrite bool_decide_eq_true. split; [|done].
    apply list_elem_of_In. by eapply list_elem_of_lookup_2. }
  destruct (is_sink n) eqn:E; [|done]. subst n. by apply (Htyped i l Hl) in E.
Qed.

Lemma first_nodes_spec n :
  n ∈ first_nodes m ↔ ∃ i l, L !! i = Some l ∧ type l = SourceLink ∧ dstNodeInstance l = n ∧ cnt p n = 0%nat.
Proof.
  unfold first_nodes. rewrite list_elem_of_filter, (mo_sources _ _ (maps_of_ok L)), list_elem_of_fmap. split.
  - intros [(i & l & Hl & Ht & Hd) ([n' v] & -> & [Hv Hin]%list_elem_of_filter)]. simpl in *.
    exists i, l. split_and!; [done..|]. apply (om_find_NoDup _ _ _ dep_NoDup) in Hin.
    rewrite (dep_find i l) in Hin; [injection Hin; lia|done|]. apply into_spec. split; [done|congruence].
  - intros (i & l & Hl & Ht & Hd & Hc). split; [eauto|]. exists (n, 0). split; [done|].
    apply list_elem_of_filter. split; [done|]. apply om_find_elem. rewrite (dep_find i l), Hc; [done..|].
    apply into_spec. split; [done|congruence].
Qed.

Lemma Inv_init : Inv (init_state m).
Proof.
  assert (∀ n j l, n ∈ first_nodes m → L !! j = Some l → internal n l = true → False) as Hnone.
  { intros n j l (_ & _ & _ & _ & _ & Hc)%first_nodes_spec Hl Hi. pose proof (cnt_pos p n j l Hl Hi). lia. }
  split; simpl.
  - split; simpl.
    + intros n Hc. exists (Z.of_nat (cnt p n)).
      assert (∃ j l, L !! j = Some l ∧ internal n l = true) as (j & l & Hl & Hi).
      { unfold cnt in Hc. destruct (indices (internal n) L) as [|j v] eqn:E; [simpl in Hc; lia|].
        exists j. apply elem_of_indices. rewrite E. left. }
      rewrite (om_find_filter _ _ _ dep_NoDup), (dep_find j l) by eauto using internal_into.
      rewrite decide_True by (simpl; lia). split_and!; [done| |simpl; lia..].
      split; [lia|]. by intros ?%(Hnone _ j l).
    + intros i l Hl Ht Hc. apply first_nodes_spec. by exists i, l.
    + apply NoDup_filter. eapply sublist_NoDup; [apply dep_NoDup|].
      apply fmap_sublist, sublist_filter.
    + intros n Hn. pose proof Hn as (i & l & Hl & Ht & Hd & Hc)%first_nodes_spec.
      apply (fed_intro _ _ i l); [done|apply into_spec; split; [done|congruence]|].
      intros j l' Hl' Hi. by destruct (Hnone n j l').
    + intros n j l Hn _ Hl Hi. by destruct (Hnone n j l).
  - by split.
  - split; simpl; try done; try (by intros ? ?%elem_of_nil); [apply NoDup_nil_2|].
    by intros _ x i l ?%elem_of_nil.
Qed.

(** *** Steps of the thread of the pipeline *)

Lemma Inv_pc s c : Inv s → pending found c = pending found (pc s) → uncounted c = uncounted (pc s) →
  pc_ok c (mRunSequence s) (tasks s) → Inv (with_pc s c).
Proof. intros [Hc Ht Hk] Hp Hu Hpc. split; [done| |done]. by eapply threads_ok_pc. Qed.

Lemma Inv_take s : Inv s → pc s = Take → Inv (take_step s).
Proof.
  intros [Hc Ht Hk] Hpc. unfold take_step. rewrite Hpc in Ht.
  destruct (mRunSequence s) as [|x rest]; [by destruct (th_pc _ _ _ _ _ _ _ _ _ Ht)|].
  split; simpl; [done| |done]. by apply threads_ok_take.
Qed.

Lemma Inv_start s x : Inv s → pc s = Start x → Inv (start_step found s x).
Proof.
  intros I Hpc. unfold start_step. destruct (found x) eqn:Ef; [|by apply Inv_pc; rewrite ?Hpc; simpl; rewrite ?Ef].
  destruct I as [Hc Ht Hk]. rewrite Hpc in Ht. split; simpl.
  - eapply counts_ok_started; [done|]. intros y Hy. apply elem_of_app. by left.
  - by apply threads_ok_start.
  - apply tasks_ok_start; [done|]. intros Hx.
    pose proof (started_NoDup _ _ _ _ _ _ _ _ _ Ht (co_nodup _ _ _ _ _ Hc)) as Hnd. simpl in Hnd. rewrite Ef in Hnd.
    apply NoDup_app in Hnd as (_ & Hnd & _). apply (Hnd x Hx). left.
Qed.

(** The predicate of the wait decides whether a node still runs. *)
Lemma wait_over_spec s : mRunningNodeNum s = Z.of_nat (length (tasks s)) →
  wait_over s = negb (bool_decide (mRunSequence s = []) && bool_decide (tasks s ≠ [])).
Proof.
  intros Hr. unfold wait_over. rewrite Hr. case_bool_decide; [|done]. simpl.
  destruct (tasks s); [done|]. by rewrite bool_decide_eq_true_2.
Qed.

Lemma Inv_account s ok : Inv s → pc s = Account ok → Inv (account_step s ok).
Proof.
  intros [Hc [Hq Htk Hs Hr Hpc'] Hk] Hpc. unfold account_step. rewrite Hpc in *. cbn [mRunSequence].
  assert ((if ok then mRunningNodeNum s + 1 else mRunningNodeNum s) = Z.of_nat (length (tasks s))) as Hr'.
  { rewrite Hr. destruct ok; simpl; lia. }
  rewrite wait_over_spec by done. cbn [mRunSequence tasks]. split; simpl; [done| |done].
  split; rewrite ?Hr'; try done; repeat case_bool_decide; simpl in *; try done; simpl; try lia.
Qed.

Lemma Inv_wake s : Inv s → pc s = Waiting true → Inv (with_pc s (if wait_over s then Test else Waiting false)).
Proof.
  intros I Hpc. pose proof (th_running _ _ _ _ _ _ _ _ _ (inv_threads _ I)) as Hr.
  rewrite Hpc in Hr. simpl in Hr. rewrite Z.sub_0_r in Hr. rewrite wait_over_spec by done.
  apply Inv_pc; [done| | |]; rewrite ?Hpc; repeat case_bool_decide; simpl; try done.
Qed.

Lemma Inv_main s s' : Inv s → main found s = Some s' → Inv s'.
Proof.
  intros I. unfold main. destruct (pc s) as [| |x|ok|[]|] eqn:Hpc; intros [= <-].
  - apply Inv_pc; rewrite ?Hpc; try case_bool_decide; simpl; try done.
    split; [done|]. pose proof (th_pc _ _ _ _ _ _ _ _ _ (inv_threads _ I)) as H'. rewrite Hpc in H'. by apply H'.
  - by apply Inv_take.
  - by apply Inv_start.
  - by apply Inv_account.
  - by apply Inv_wake.
Qed.

(** *** Steps of the threads of the nodes *)

Lemma signal_with_pc s : signal s = with_pc s (signal_pc true (pc s)).
Proof. unfold signal, with_pc, signal_pc. destruct s as [? ? ? ? ? ? c ?]. by destruct c as [| | | |[]|]. Qed.

Lemma Inv_node s i t : Inv s → tasks s !! i = Some t →
  task_node t ∈ started (hist s) ∧ fed L (task_node t) ∧ NoDup (task_node <$> tasks s) ∧
  task_ok p (processed (hist s)) t.
Proof.
  intros [Hc Ht Hk] Hi. assert (t ∈ tasks s) as Hin by (by eapply list_elem_of_lookup_2).
  pose proof (task_started _ _ _ _ _ _ _ _ _ _ Ht Hin) as Hst.
  split_and!; [done| | |by apply (to_task _ _ _ _ _ _ _ _ Hk)].
  - by eapply (co_fed _ _ _ _ _ Hc), started_pushed.
  - eapply tasks_NoDup; [done|]. apply (co_nodup _ _ _ _ _ Hc).
Qed.

(** A step that replaces the task [i], fills the queue by [new] and may signal. *)
Lemma Inv_go s s' i t t' new b :
  Inv s → tasks s !! i = Some t → tasks s' = <[i := t']> (tasks s) →
  task_node t' = task_node t →
  mRunSequence s' = mRunSequence s ++ new → pushed (hist s') = pushed (hist s) ++ new →
  pc s' = signal_pc b (pc s) → mRunningNodeNum s' = mRunningNodeNum s →
  taken (hist s') = taken (hist s) → started (hist s') = started (hist s) →
  finished (hist s') = finished (hist s) →
  counts_ok p (depNum s') (pushed (hist s')) (started (hist s)) (notified (hist s')) →
  tasks_ok p (<[i := t']> (tasks s)) (started (hist s)) (processed (hist s')) (finished (hist s))
    (notified (hist s')) (released (hist s')) (mHasProcessError s') →
  Inv s'.
Proof.
  intros [Hc Ht Hk] Hi Ets Hn Eq Ep Epc Er Eta Est Ef Hc' Hk'.
  split; rewrite ?Ets, ?Eq, ?Epc, ?Er, ?Eta, ?Est, ?Ef; [done| |done]. rewrite Ep. by eapply threads_ok_go.
Qed.

Lemma Inv_end s i t err' :
  Inv s → tasks s !! i = Some t →
  (∃ x, t = Notifying x [] ∧ err' = false) ∨ (∃ x, t = Failing x [] ∧ err' = true) →
  Inv (end_task s i (task_node t) err').
Proof.
  intros I Hi Hcase. destruct (Inv_node s i t I Hi) as (_ & _ & Hnd & _). destruct I as [Hc Ht Hk].
  unfold end_task. rewrite signal_with_pc. split; simpl; [done|by apply threads_ok_end|].
  by apply tasks_ok_end.
Qed.

(** A count that a running node counts down. *)
Lemma Inv_count_down s t j l notified' :
  Inv s → t ∈ tasks s → mHasProcessError s = false → L !! j = Some l → type l = InternalLink →
  srcNodeInstance l = task_node t → NoDup notified' →
  (notified' = notified (hist s) ∧ sigframe p (dstNodeInstance l)) ∨ notified' = notified (hist s) ++ [j] →
  ∃ dep' new b, count_down s (dstNodeInstance l) = Ret (with_push s dep' new, b) ∧
    counts_ok p dep' (pushed (hist s) ++ new) (started (hist s)) notified'.
Proof.
  intros [Hc Ht Hk] Hin He Hl Hty Hsrc Hnd Hcase.
  pose proof (task_started _ _ _ _ _ _ _ _ _ _ Ht Hin) as Hst.
  apply count_down_ok with (j := j); try done.
  - by rewrite Hsrc.
  - intros x. eapply started_pushed; done.
  - intros i Hi. assert (i ∈ notified (hist s) ∨ i = j) as [H| ->].
    { destruct Hcase as [[-> _]| ->]; [by left|]. apply elem_of_app in Hi as [?|?%list_elem_of_singleton]; auto. }
    + destruct (to_notified _ _ _ _ _ _ _ _ Hk i H) as (l' & Hl' & _ & Hp & _). exists l'. split; [done|].
      by apply (to_started _ _ _ _ _ _ _ _ Hk).
    + exists l. by rewrite Hsrc.
Qed.

Lemma count_down_tasks s ts n :
  count_down (with_tasks s ts) n = r ← count_down s n; Ret (with_tasks r.1 ts, r.2).
Proof.
  unfold count_down. simpl. destruct (mHasProcessError s); [done|]. by destruct (om_find (depNum s) n).
Qed.

Lemma signal_pc_false c : signal_pc false c = c.
Proof. by destruct c as [| | | |[]|]. Qed.

(** [Inv_go] with the equations between the states evaluated. *)
Ltac go nw sg := eapply (Inv_go _ _ _ _ _ nw sg); [eassumption|eassumption|reflexivity|..];
  simpl; rewrite ?app_nil_r, ?signal_pc_false; try done.

Lemma Inv_release s i x rest : Inv s → tasks s !! i = Some (Releasing x rest) →
  ∃ s', release_step p s i x rest = Ret s' ∧ Inv s'.
Proof.
  intros I Hi. destruct (Inv_node s i _ I Hi) as (Hst & _ & Hnd & Hx & Hok). cbn in Hst.
  pose proof (inv_counts _ I) as Hc. pose proof (inv_tasks _ I) as Hk.
  assert (∀ t', task_node t' = x → task_ok p (processed (hist s)) t' →
    tasks_ok p (<[i := t']> (tasks s)) (started (hist s)) (processed (hist s)) (finished (hist s))
      (notified (hist s)) (released (hist s)) (mHasProcessError s)) as Hk'.
  { intros t' Hn Ht'. eapply tasks_ok_busy; done. }
  destruct rest as [|j rest]; cbn [release_step].
  { eexists. split; [done|]. go (@nil string) false. by apply Hk'. }
  destruct (Hok j ltac:(left)) as (l & Hl & Hty & Hsrc & Hsig). rewrite Hl. cbn [or_ub].
  rewrite outcome_bind_ret_l, count_down_tasks.
  assert (task_ok p (processed (hist s)) (Releasing x rest)) as Ht'.
  { split; [done|]. intros k Hk0. apply Hok. by right. }
  destruct (mHasProcessError s) eqn:He.
  { unfold count_down. rewrite He. rewrite !outcome_bind_ret_l. cbn.
    eexists. split; [done|]. go (@nil string) false. rewrite He. by apply Hk'. }
  destruct (Inv_count_down s (Releasing x (j :: rest)) j l (notified (hist s))) as (dep & new & b & E & Hc');
    [done|by eapply list_elem_of_lookup_2|done..|by apply (to_nodup _ _ _ _ _ _ _ _ Hk)|by left|].
  rewrite E, !outcome_bind_ret_l. cbn [fst snd]. eexists. split; [done|].
  destruct b; [rewrite signal_with_pc; go new true|go new false]; rewrite He; by apply Hk'.
Qed.

Lemma Inv_notify s i x rest : Inv s → tasks s !! i = Some (Notifying x rest) →
  ∃ s', notify_step p s i x rest = Ret s' ∧ Inv s'.
Proof.
  intros I Hi. destruct (Inv_node s i _ I Hi) as (Hst & _ & Hnd & Hx & Hndr & Hout). cbn in Hst.
  pose proof (inv_counts _ I) as Hc. pose proof (inv_tasks _ I) as Hk.
  destruct rest as [|j rest]; cbn [notify_step].
  { eexists. split; [done|]. apply (Inv_end _ _ (Notifying x [])); eauto. }
  destruct (proj1 (elem_of_indices _ _ _) (Hout j ltac:(left))) as (l & Hl & [Hsrc Hns]%out_of_spec).
  rewrite Hl. cbn [or_ub]. rewrite outcome_bind_ret_l. case_decide as Hty.
  { eexists. split; [done|]. go (@nil string) false. eapply tasks_ok_notify; try done. left.
    split_and!; [done|set_solver|]. intros _. split; [done|set_solver]. }
  rewrite count_down_tasks. destruct (mHasProcessError s) eqn:He.
  { unfold count_down. rewrite He, !outcome_bind_ret_l. cbn. eexists. split; [by rewrite He|].
    go (@nil string) false. rewrite He. eapply tasks_ok_notify; try done. left. done. }
  assert (type l = InternalLink) as Hint by by destruct (type l).
  assert (tasks_ok p (<[i := Notifying x rest]> (tasks s)) (started (hist s)) (processed (hist s))
    (finished (hist s)) (notified (hist s) ++ [j]) (released (hist s)) false) as Hk'.
  { eapply tasks_ok_notify; try done. right. done. }
  destruct (Inv_count_down s (Notifying x (j :: rest)) j l (notified (hist s) ++ [j]))
    as (dep & new & b & E & Hc'); [done|by eapply list_elem_of_lookup_2|done..| |by right|].
  { apply (to_nodup _ _ _ _ _ _ _ _ Hk'). }
  rewrite E, !outcome_bind_ret_l. cbn [fst snd]. eexists. split; [by cbn; rewrite He|].
  go new false. by rewrite He.
Qed.

Lemma Inv_fail s i x rest : Inv s → tasks s !! i = Some (Failing x rest) → Inv (fail_step s i x rest).
Proof.
  intros I Hi. destruct (Inv_node s i _ I Hi) as (_ & _ & Hnd & Hx).
  destruct rest as [|j rest]; cbn [fail_step].
  { apply (Inv_end _ _ (Failing x [])); eauto. }
  go (@nil string) false; [apply (inv_counts _ I)|]. apply tasks_ok_released.
  eapply tasks_ok_busy; try done. apply (inv_tasks _ I).
Qed.

(** *** Handing frames on *)

(** The nodes that links lead into are known. *)
Lemma node_found i l bit : L !! i = Some l → type l ≠ SinkLink →
  ∃ node, om_find (nodes p) (dstNodeInstance l) = Some node ∧
    node_mode (nodes p) bit (dstNodeInstance l) = Ret (has_mode (nodeMask node) bit).
Proof.
  intros Hl Ht. destruct (node_known p Htop (dstNodeInstance l) i l Hl) as (b & Hb & _); [by apply into_spec|].
  unfold node_mode in *. destruct (om_find _ _) as [node|]; [|done]. by exists node.
Qed.

Lemma out_link x i : i ∈ outputs m x → ∃ l, L !! i = Some l ∧ srcNodeInstance l = x ∧ type l ≠ SourceLink.
Proof. rewrite outputs_indices. intros (l & Hl & [Hs Ht]%out_of_spec)%elem_of_indices. eauto. Qed.

Lemma hands_on_total x : fed L x → ∃ b, hands_on p m x = Ret b.
Proof.
  intros [i l Hl [Hd Ht]%into_spec _]. unfold hands_on.
  destruct (node_found i l VIRTUAL_MODE Hl Ht) as (node & Hn & _). rewrite Hd in Hn. rewrite Hn.
  assert (∃ b, isInplaceNode p m x (nodeMask node) = Ret b) as (b & ->); [|eexists; done].
  unfold isInplaceNode. destruct (at_node (mOutputLinkMap m) x) as [|j [|? ?]] eqn:E; [by eexists| |by eexists].
  destruct (has_mode _ _); [|by eexists]. destruct (out_link x j) as (l' & Hl' & _ & _).
  { unfold outputs. rewrite E. left. }
  rewrite Hl'. cbn [or_ub]. rewrite outcome_bind_ret_l. case_decide as Ht'; [by eexists|].
  destruct (node_found j l' VIRTUAL_SINKNODE Hl' Ht') as (? & _ & ->). rewrite outcome_bind_ret_l. by eexists.
Qed.

(** The links handed to [release_step] lead to frame-by-frame nodes. *)
Definition to_sigframe (x : string) (rest : list nat) : Prop :=
  ∀ i, i ∈ rest → ∃ l, L !! i = Some l ∧ type l = InternalLink ∧ srcNodeInstance l = x ∧
    sigframe p (dstNodeInstance l).

Lemma sigframe_links_total x v : (∀ i, i ∈ v → i ∈ outputs m x) →
  ∃ rest, sigframe_links p v = Ret rest ∧ to_sigframe x rest.
Proof.
  induction v as [|j v IH]; intros Hv; cbn [sigframe_links]; [by exists []; split; [|intros ? ?%elem_of_nil]|].
  destruct (out_link x j) as (l & Hl & Hs & Ht); [apply Hv; left|].
  destruct IH as (rest & -> & Hrest); [intros i Hi; apply Hv; by right|].
  rewrite Hl. cbn [or_ub]. rewrite outcome_bind_ret_l. case_decide as Hty; rewrite ?outcome_bind_ret_l.
  { exists rest. done. }
  destruct (node_found j l SIGFRAME_MODE Hl Hty) as (node & _ & E). rewrite E, !outcome_bind_ret_l.
  destruct (has_mode _ _); [|by exists rest]. exists (j :: rest). split; [done|].
  intros i [->|Hi]%elem_of_cons; [|by apply Hrest]. exists l. split_and!; [done|by destruct (type l)|done..].
Qed.

Lemma input_children_total x : fed L x → ∃ rest, input_children p m x = Ret rest ∧ to_sigframe x rest.
Proof.
  intros Hx. unfold input_children. destruct (hands_on_total x Hx) as ([|] & ->); rewrite outcome_bind_ret_l.
  - by apply sigframe_links_total.
  - exists []. by split; [|intros ? ?%elem_of_nil].
Qed.

Lemma output_children_total x : fed L x → outputs m x ≠ [] →
  ∃ sinks rest, output_children p m x = Ret (sinks, rest) ∧ to_sigframe x rest.
Proof.
  intros Hx Hne. unfold output_children.
  assert (to_sigframe x []) as Hnil by by intros ? ?%elem_of_nil.
  destruct (hands_on_total x Hx) as ([|] & ->); rewrite outcome_bind_ret_l; [by exists [], []|].
  destruct (at_node (mOutputLinkMap m) x) as [|j v] eqn:E; [by destruct Hne|].
  destruct (out_link x j) as (l & Hl & Hs & Ht); [unfold outputs; rewrite E; left|].
  cbn [or_ub lookup list_lookup]. rewrite outcome_bind_ret_l, Hl. cbn [or_ub]. rewrite outcome_bind_ret_l.
  case_decide as Hty; [by eexists _, []|].
  destruct (node_found j l SIGFRAME_MODE Hl Hty) as (node & _ & Em). rewrite Em, outcome_bind_ret_l.
  destruct (has_mode _ _); [|by exists [], []]. exists [], [j]. split; [done|].
  intros i ->%list_elem_of_singleton. exists l. split_and!; [done|by destruct (type l)|done..].
Qed.

(** *** All steps *)

Context (Hout : ∀ x, fed L x → outputs m x ≠ []).

Definition safe (o : outcome (option State)) : Prop := ∃ r, o = Ret r ∧ ∀ s', r = Some s' → Inv s'.

Lemma safe_some s' : Inv s' → safe (Ret (Some s')).
Proof. intros I. eexists. split; [done|]. by intros ? [= <-]. Qed.
Lemma safe_none : safe (Ret None).
Proof. by eexists. Qed.

Lemma Inv_running s i x a : Inv s → tasks s !! i = Some (Running x) → safe (work p m s i a).
Proof.
  intros I Hi. destruct (Inv_node s i _ I Hi) as (Hst & Hfed & Hnd & Hx). cbn in Hst, Hfed.
  pose proof (inv_counts _ I) as Hc. pose proof (inv_tasks _ I) as Hk. unfold work. rewrite Hi.
  destruct a; [| | | |apply safe_none].
  - destruct (hands_on_total x Hfed) as (on & ->). rewrite outcome_bind_ret_l.
    apply safe_some. go (@nil string) false. by apply tasks_ok_success.
  - apply safe_some. go (@nil string) false. eapply tasks_ok_busy; done.
  - destruct (input_children_total x Hfed) as (rest & -> & Hrest). rewrite outcome_bind_ret_l.
    apply safe_some. go (@nil string) false. eapply tasks_ok_busy; done.
  - destruct (output_children_total x Hfed (Hout x Hfed)) as (sinks & rest & -> & Hrest). rewrite outcome_bind_ret_l.
    apply safe_some. go (@nil string) false. apply tasks_ok_released. eapply tasks_ok_busy; done.
Qed.

Lemma Inv_work s i a : Inv s → safe (work p m s i a).
Proof.
  intros I. destruct (tasks s !! i) as [[x|x rest|x rest|x rest]|] eqn:Hi; [by eapply Inv_running|..];
    unfold work; rewrite Hi; destruct a; try apply safe_none.
  - destruct (Inv_release s i x rest I Hi) as (s' & -> & I'). rewrite outcome_bind_ret_l. by apply safe_some.
  - destruct (Inv_notify s i x rest I Hi) as (s' & -> & I'). rewrite outcome_bind_ret_l. by apply safe_some.
  - by apply safe_some, Inv_fail.
Qed.

Lemma Inv_exec s l : Inv s → safe (exec p m found s l).
Proof.
  intros I. destruct l as [| |i a]; [| |by apply Inv_work].
  - exists (main found s). split; [done|]. intros s' H. by eapply Inv_main.
  - cbn. destruct (pc s) eqn:E; try apply safe_none. apply safe_some, Inv_pc; rewrite ?E; done.
Qed.

Lemma Inv_reachable s : reachable p m found (init_state m) s → Inv s.
Proof.
  induction 1 as [|s l s' Hr IH Hs]; [apply Inv_init|].
  destruct (Inv_exec s l IH) as (r & Hr' & H). rewrite Hs in Hr'. injection Hr' as <-. by apply H.
Qed.
End step.
