(* ===== verification/CamScheduleSpec.v ===== *)
(** * Camera pipelines: what the scheduler promises

    Over all interleavings of the thread of the pipeline and the threads of the nodes: no
    modelled step throws or is undefined and a node starts behind its predecessors
    ([schedule_safe]); a pipeline that ends has run exactly the nodes its sources feed and has
    called [releaseOutBuffers] for each of its sinks ([schedule_complete]); and the engine never
    stands still while no node is in its own code ([schedule_ends]).  Nodes may stay there: the
    images they wait for are not modelled. *)
From Stdlib Require Import ZArith Lia String.
From stdpp Require Import base list strings gmap sorting.
From S2P Require Import Prelude CamLinks CamPortPrune CamNodePrune CamPruner CamSchedule CamScheduleInv CamScheduleSteps.

(** The steps of the engine: the thread of the pipeline, and the code of the pipeline that the
    thread of a node runs. *)
Definition engine (l : label) : Prop :=
  match l with Main | Work _ Advance => True | _ => False end.

(** The task is in the code of its node, which may wait for images. *)
Definition own_code (s : State) (i : nat) : Prop := ∃ x, tasks s !! i = Some (Running x).

(** The steps of the engine, and those with which a node ends; the other ones are calls a
    plug-in may make to hand frames on, and wake-ups without a signal. *)
Definition progress (l : label) : Prop :=
  match l with
  | Main | Work _ EndOk | Work _ EndError | Work _ Advance => True
  | Spurious | Work _ ReleaseInput | Work _ ReleaseOutput => False
  end.

(** Every node that the sources feed has a link out of it. *)
Definition fed_has_output (p : PipelineInfo) : Prop :=
  ∀ x, fed (links p) x → ∃ i l, links p !! i = Some l ∧ srcNodeInstance l = x ∧ type l ≠ SourceLink.

Lemma prepare_inv p mm s0 : prepare p = Ret (Some (mm, s0)) →
  mm = maps_of (links p) ∧ s0 = init_state mm ∧ topology_ok (nodes p) (mInputLinkMap (maps_of (links p))) = Ret true.
Proof.
  unfold prepare. intros (b & Hb & H)%outcome_bind_Ret_inv. destruct b; [|done]. injection H as <- <-. done.
Qed.

Lemma filter_all {A} (P : A → Prop) `{!∀ x, Decision (P x)} (v : list A) :
  (∀ x, x ∈ v → P x) → v = filter P v.
Proof.
  induction v as [|y v IH]; intros Hall; [done|]. rewrite filter_cons, decide_True by (apply Hall; left).
  f_equal. apply IH. intros x Hx. apply Hall. by right.
Qed.

Section spec.
Context (p : PipelineInfo) (found : string → bool).
Local Abbreviation L := (links p).
Local Abbreviation m := (maps_of L).
Local Abbreviation M := (length L).
Context (Htyped : sinks_typed L) (Htop : topology_ok (nodes p) (mInputLinkMap m) = Ret true).
Context (Hout : fed_has_output p).

Lemma fed_outputs x : fed L x → outputs m x ≠ [].
Proof.
  intros (i & l & Hl & Hs & Ht)%Hout. rewrite outputs_indices.
  assert (i ∈ indices (out_of x) L) as Hi by (apply elem_of_indices; exists l; by rewrite out_of_spec).
  intros E. rewrite E in Hi. by apply elem_of_nil in Hi.
Qed.

(** *** A node in the queue *)

Lemma pushed_processed s x i l : Inv p found s → x ∈ pushed (hist s) → ¬ sigframe p x →
  L !! i = Some l → internal x l = true → srcNodeInstance l ∈ processed (hist s).
Proof.
  intros [Hc Ht Hk] Hx Hs Hl Hi.
  destruct (co_dep _ _ _ _ _ Hc x (cnt_pos p x i l Hl Hi)) as (d & Hd & Hp & Hle & Heq).
  assert (i ∈ notified (hist s)) as Hn.
  { apply (done_links_all p x); [apply (to_nodup _ _ _ _ _ _ _ _ Hk)| |apply elem_of_indices; eauto].
    specialize (Heq Hs). apply Hp in Hx. lia. }
  destruct (to_notified _ _ _ _ _ _ _ _ Hk i Hn) as (l' & Hl' & _ & Hpr & _). congruence.
Qed.

Lemma started_found s x : Inv p found s → x ∈ started (hist s) → found x = true.
Proof.
  intros [Hc Ht Hk] Hx. assert (x ∈ filter (λ x, found x = true) (taken (hist s))) as Hf.
  { rewrite (th_taken _ _ _ _ _ _ _ _ _ Ht). apply elem_of_app. by left. }
  by apply list_elem_of_filter in Hf as [? _].
Qed.

(** *** The end *)

Lemma done_idle s : Inv p found s → pc s = Done → mRunSequence s = [] ∧ tasks s = [].
Proof.
  intros I E. pose proof (th_pc _ _ _ _ _ _ _ _ _ (inv_threads _ _ _ I)) as H. by rewrite E in H.
Qed.

Lemma done_started s : Inv p found s → pc s = Done → (∀ x, fed L x → found x = true) →
  started (hist s) = pushed (hist s) ∧ started (hist s) ≡ₚ finished (hist s).
Proof.
  intros I E Hall. destruct (done_idle s I E) as [Eq Et]. destruct I as [Hc Ht Hk].
  pose proof (th_taken _ _ _ _ _ _ _ _ _ Ht) as Htk. pose proof (th_started _ _ _ _ _ _ _ _ _ Ht) as Hs.
  pose proof (th_queue _ _ _ _ _ _ _ _ _ Ht) as Hq. rewrite Eq, app_nil_r in Hq. rewrite E in Htk. rewrite Et in Hs.
  cbn [pending fmap list_fmap] in *. rewrite app_nil_r in Htk. split; [|done]. rewrite <-Htk, Hq.
  symmetry. apply filter_all. rewrite <-Hq. intros x Hx. apply Hall. by apply (co_fed _ _ _ _ _ Hc).
Qed.

Lemma done_processed s : Inv p found s → pc s = Done → mHasProcessError s = false →
  (∀ x, fed L x → found x = true) → ∀ x, x ∈ pushed (hist s) → x ∈ processed (hist s).
Proof.
  intros I E He Hall x Hx. destruct (done_started s I E Hall) as [Est Ef].
  apply (to_finished _ _ _ _ _ _ _ _ (inv_tasks _ _ _ I) He). by rewrite <-Ef, Est.
Qed.

Lemma done_handled s i l : Inv p found s → pc s = Done → mHasProcessError s = false →
  srcNodeInstance l ∈ processed (hist s) → L !! i = Some l → type l ≠ SourceLink →
  handled (notified (hist s)) (released (hist s)) l i.
Proof.
  intros I E He Hx Hl Ht. destruct (done_idle s I E) as [_ Et].
  destruct (to_done _ _ _ _ _ _ _ _ (inv_tasks _ _ _ I) He (srcNodeInstance l) i l) as [?|(r & Hr & _)]; try done.
  - by apply out_of_spec.
  - rewrite Et in Hr. by apply elem_of_nil in Hr.
Qed.

Lemma done_fed s x : Inv p found s → pc s = Done → mHasProcessError s = false →
  (∀ x, fed L x → found x = true) → fed L x → x ∈ pushed (hist s).
Proof.
  intros I E He Hall. induction 1 as [x i l Hl Hi _ IH].
  destruct (decide (cnt p x = 0%nat)) as [Hc|Hc].
  { apply into_spec in Hi as [Hd Ht]. assert (type l = SourceLink) as Hty.
    { destruct (type l) eqn:Ety; [done| |done]. enough (0 < cnt p x)%nat by lia.
      apply (cnt_pos p x i l Hl). by apply internal_spec. }
    subst x. by apply (co_first _ _ _ _ _ (inv_counts _ _ _ I) i l). }
  destruct (co_dep _ _ _ _ _ (inv_counts _ _ _ I) x) as (d & Hd & <- & Hle & _); [lia|].
  enough (cnt p x ≤ length (done_links p x (notified (hist s))))%nat by lia.
  apply submseteq_length, NoDup_submseteq; [apply NoDup_indices|]. intros j Hj.
  pose proof Hj as (l' & Hl' & Hi')%elem_of_indices. apply list_elem_of_filter. split; [done|].
  pose proof (IH j l' Hl' Hi') as Hsrc. apply internal_spec in Hi' as [_ Ht'].
  pose proof (done_handled s j l' I E He) as H. unfold handled in H. rewrite decide_False in H by congruence.
  apply H; [by apply done_processed|done|congruence].
Qed.

(** The counts of the nodes that were put into the queue. *)
Lemma done_count s : Inv p found s → ∀ x i l, x ∈ pushed (hist s) → L !! i = Some l → internal x l = true →
  ∃ d, om_find (depNum s) x = Some d ∧ d ≤ 0 ∧ (¬ sigframe p x → d = 0).
Proof.
  intros [Hc Ht Hk] x i l Hx Hl Hi.
  destruct (co_dep _ _ _ _ _ Hc x (cnt_pos p x i l Hl Hi)) as (d & Hd & Hp & _ & Heq).
  apply Hp in Hx. exists d. split_and!; [done..|]. intros Hs. specialize (Heq Hs).
  pose proof (done_links_le p x (notified (hist s)) (to_nodup _ _ _ _ _ _ _ _ Hk)). lia.
Qed.

(** *** A measure *)

Definition task_cost (t : task) : nat :=
  match t with
  | Running _ => M + 4
  | Releasing _ rest => M + 5 + length rest
  | Notifying _ rest | Failing _ rest => 3 + length rest
  end.
Definition pc_cost (c : main_pc) : nat :=
  match c with
  | Test => 1 | Take | Waiting false | Done => 0 | Start _ => M + 7 | Account _ | Waiting true => 2
  end.
Definition cost (s : State) : nat :=
  (M - length (pushed (hist s))) * (M + 10) + length (mRunSequence s) * (M + 8) +
  sum_list_with task_cost (tasks s) + pc_cost (pc s).

Lemma sum_insert (ts : list task) i t t' : ts !! i = Some t →
  (sum_list_with task_cost (<[i := t']> ts) + task_cost t = sum_list_with task_cost ts + task_cost t')%nat.
Proof.
  revert i. induction ts as [|u ts IH]; intros [|i]; simpl; [done..|intros [= ->]; lia|].
  intros H. specialize (IH _ H). lia.
Qed.

Lemma sum_delete (ts : list task) i t : ts !! i = Some t →
  (sum_list_with task_cost (delete i ts) + task_cost t = sum_list_with task_cost ts)%nat.
Proof.
  revert i. induction ts as [|u ts IH]; intros [|i]; simpl; [done..|intros [= ->]; lia|].
  intros H. specialize (IH _ H). lia.
Qed.

Lemma pushed_le s : Inv p found s → (length (pushed (hist s)) ≤ M)%nat.
Proof.
  intros [Hc _ _]. rewrite <-(length_fmap dstNodeInstance). apply submseteq_length, NoDup_submseteq.
  - apply (co_nodup _ _ _ _ _ Hc).
  - intros x Hx. apply (co_fed _ _ _ _ _ Hc) in Hx as [i l Hl [<- _]%into_spec _].
    apply list_elem_of_fmap_2. by eapply list_elem_of_lookup_2.
Qed.

(** A step of a thread that pushes [n] nodes. *)
Lemma cost_go s s' i t t' n : Inv p found s' → tasks s !! i = Some t → tasks s' = <[i := t']> (tasks s) →
  length (mRunSequence s') = (length (mRunSequence s) + n)%nat →
  length (pushed (hist s')) = (length (pushed (hist s)) + n)%nat →
  (pc_cost (pc s') ≤ pc_cost (pc s) + 2 * n)%nat → (task_cost t' < task_cost t)%nat →
  (cost s' < cost s)%nat.
Proof.
  intros I Hi Et Eq Ep Epc Hlt. pose proof (pushed_le s' I) as Hle. pose proof (sum_insert (tasks s) i t t' Hi) as Hs.
  unfold cost. rewrite Et, Eq, Ep in *.
  replace (M - length (pushed (hist s)))%nat with (M - (length (pushed (hist s)) + n) + n)%nat by lia.
  rewrite !Nat.mul_add_distr_r, !Nat.mul_add_distr_l. lia.
Qed.

Lemma signal_cost s : (pc_cost (pc (signal s)) ≤ pc_cost (pc s) + 2)%nat.
Proof. unfold signal. destruct (pc s) as [| | | |[]|] eqn:E; simpl; rewrite ?E; simpl; lia. Qed.

Lemma cost_end s i x t e : tasks s !! i = Some t → (3 ≤ task_cost t)%nat →
  (cost (end_task s i x e) < cost s)%nat.
Proof.
  intros Hi H3. pose proof (sum_delete (tasks s) i t Hi) as Hs. unfold end_task.
  match goal with |- context [signal ?u] => pose proof (signal_cost u) as Hc; rewrite signal_with_pc in *; cbn in Hc end.
  unfold cost. cbn. lia.
Qed.

Lemma count_down_shape s n s' b : count_down s n = Ret (s', b) →
  ∃ dep, s' = with_push s dep (if b then [n] else []).
Proof.
  unfold count_down. destruct (mHasProcessError s) eqn:He.
  - intros [= <- <-]. exists (depNum s). unfold with_push. rewrite !app_nil_r. by destruct s as [? ? ? ? ? ? ? []].
  - destruct (om_find _ _) as [d|]; [|done]. intros [= <- <-]. exists (om_set (depNum s) n (d - 1)). unfold with_push. rewrite He.
    by destruct (d - 1 =? 0); rewrite ?app_nil_r.
Qed.

Lemma cost_notify s i x rest s' : Inv p found s' → tasks s !! i = Some (Notifying x rest) →
  notify_step p s i x rest = Ret s' → (cost s' < cost s)%nat.
Proof.
  intros I Hi. destruct rest as [|j rest]; cbn [notify_step].
  { intros [= <-]. eapply cost_end; [done|]. simpl. lia. }
  intros (l & _ & H)%outcome_bind_Ret_inv. case_decide.
  { injection H as <-. eapply (cost_go _ _ _ _ _ 0%nat); try done; simpl; lia. }
  apply outcome_bind_Ret_inv in H as ([s1 b] & Hd & H). apply count_down_shape in Hd as (dep & ->).
  injection H as <-. eapply (cost_go _ _ _ _ _ (if b then 1 else 0)%nat); try done;
    destruct (mHasProcessError s), b; cbn -[Nat.mul]; rewrite ?length_app; try done; simpl; lia.
Qed.

Lemma cost_release s i x rest s' : Inv p found s' → tasks s !! i = Some (Releasing x rest) →
  release_step p s i x rest = Ret s' → (cost s' < cost s)%nat.
Proof.
  intros I Hi. destruct rest as [|j rest]; cbn [release_step].
  { intros [= <-]. eapply (cost_go _ _ _ _ _ 0%nat); try done; simpl; lia. }
  intros (l & _ & ([s1 b] & Hd & H)%outcome_bind_Ret_inv)%outcome_bind_Ret_inv.
  apply count_down_shape in Hd as (dep & ->). cbn [fst snd] in H. destruct b.
  - rewrite signal_with_pc in H. injection H as <-.
    eapply (cost_go _ _ _ _ _ 1%nat); try done; cbn; rewrite ?length_app; simpl; try lia.
    destruct (pc s) as [| | | |[]|]; simpl; lia.
  - injection H as <-. eapply (cost_go _ _ _ _ _ 0%nat); try done; cbn; rewrite ?length_app; simpl; lia.
Qed.

Lemma outputs_le x : (length (outputs m x) ≤ M)%nat.
Proof.
  rewrite outputs_indices. unfold indices. etrans; [apply length_filter|]. by rewrite length_seq.
Qed.

Lemma cost_work s i a s' : Inv p found s' → progress (Work i a) →
  work p m s i a = Ret (Some s') → (cost s' < cost s)%nat.
Proof.
  intros I Hp. unfold work. destruct (tasks s !! i) as [[x|x rest|x rest|x rest]|] eqn:Hi; [| | | |done];
    destruct a; try done; try (by destruct Hp).
  - intros (on & _ & [= <-])%outcome_bind_Ret_inv.
    eapply (cost_go _ _ _ _ _ 0%nat); try done; simpl; try lia. pose proof (outputs_le x). lia.
  - intros [= <-]. eapply (cost_go _ _ _ _ _ 0%nat); try done; simpl; try lia. pose proof (outputs_le x) as Ho.
    unfold sink_outputs. pose proof (length_filter (λ i, type <$> L !! i = Some SinkLink) (outputs m x)). lia.
  - intros (s1 & H & [= ->])%outcome_bind_Ret_inv. by eapply cost_release.
  - intros (s1 & H & [= ->])%outcome_bind_Ret_inv. by eapply cost_notify.
  - intros [= <-]. destruct rest as [|j rest]; cbn [fail_step] in *.
    + eapply cost_end; [done|]. simpl. lia.
    + eapply (cost_go _ _ _ _ _ 0%nat); try done; simpl; lia.
Qed.

Lemma cost_main s s' : Inv p found s → main found s = Some s' → (cost s' < cost s)%nat.
Proof.
  intros I. pose proof (th_pc _ _ _ _ _ _ _ _ _ (inv_threads _ _ _ I)) as Hpc. unfold main.
  destruct (pc s) as [| |x|ok|[]|] eqn:E; intros [= <-].
  - unfold cost. simpl. rewrite E. case_bool_decide; simpl; lia.
  - unfold take_step. destruct (mRunSequence s) as [|x rest] eqn:Eq; [done|].
    unfold cost. simpl. rewrite E, Eq. simpl. lia.
  - unfold start_step, cost. destruct (found x); simpl; rewrite E; simpl; [|lia].
    rewrite sum_list_with_app. simpl. lia.
  - unfold account_step, cost. cbn. rewrite E. repeat case_match; simpl; lia.
  - unfold cost. simpl. rewrite E. case_match; simpl; lia.
Qed.

Lemma cost_exec s l s' : Inv p found s → Inv p found s' → progress l → exec p m found s l = Ret (Some s') →
  (cost s' < cost s)%nat.
Proof.
  intros I I' Hp. destruct l as [| |i a]; cbn [exec]; [|done|by apply cost_work].
  intros [= H]. by eapply cost_main.
Qed.

(** What a task can do, it does without a failure. *)
Lemma task_moves s i a t : Inv p found s → tasks s !! i = Some t →
  match t with Running _ => a ≠ Advance | _ => a = Advance end →
  ∃ s', exec p m found s (Work i a) = Ret (Some s').
Proof.
  intros I Hi Ha. destruct (Inv_exec p found Htyped Htop fed_outputs s (Work i a) I) as ([s'|] & Hr & _); [by exists s'|].
  exfalso. revert Hr. cbn. unfold work. rewrite Hi. destruct t; [destruct a|subst a..]; try done;
    by intros (s1 & _ & [=])%outcome_bind_Ret_inv.
Qed.

Lemma moves s : Inv p found s →
  pc s = Done ∨ (∃ l s', engine l ∧ exec p m found s l = Ret (Some s')) ∨ ∃ i, own_code s i.
Proof.
  intros I. pose proof (th_pc _ _ _ _ _ _ _ _ _ (inv_threads _ _ _ I)) as Hpc.
  assert (∀ s', main found s = Some s' → ∃ l s', engine l ∧ exec p m found s l = Ret (Some s')) as Hmain.
  { intros s' H. exists Main, s'. cbn. by rewrite H. }
  destruct (pc s) as [| |x|ok|[]|] eqn:E; [right..|by left]; try (left; eapply Hmain; unfold main; by rewrite E).
  simpl in Hpc. destruct (tasks s) as [|t ts] eqn:Et; [done|].
  assert (tasks s !! 0%nat = Some t) as Hi by by rewrite Et.
  destruct t as [x|x rest|x rest|x rest]; [right; by exists 0%nat, x|left..];
    (destruct (task_moves s 0 Advance _ I Hi) as (s' & ?); [done|by exists (Work 0 Advance), s']).
Qed.
End spec.

(** ** The promises *)

Lemma reachable_Inv p found mm s0 s :
  prepare p = Ret (Some (mm, s0)) → sinks_typed (links p) → fed_has_output p →
  reachable p mm found s0 s → Inv p found s.
Proof.
  intros (-> & -> & Htop)%prepare_inv Ht Ho. apply Inv_reachable; [done..|]. intros x. by apply fed_outputs.
Qed.

(** C17. In a pipeline that passes the test of its topology, whose links into sink buffers have
    the type of such links, and in which every node the sources feed has a link out of it (line
    874 reads out of range without one): whatever the threads do and in whatever order they
    take the lock, no modelled step of the engine throws or is undefined; each node is put into
    the queue and started at most once, only if the sources feed it; and a node in the queue is
    behind its predecessors: all of them have succeeded, or, before a frame-by-frame node, have
    at least been started.  The test of the queue at line 163, which the code makes without the
    lock, is one step here. *)
Theorem schedule_safe p found mm s0 s :
  prepare p = Ret (Some (mm, s0)) → sinks_typed (links p) → fed_has_output p →
  reachable p mm found s0 s →
  (∀ l, ∃ r, exec p mm found s l = Ret r) ∧
  NoDup (pushed (hist s)) ∧ NoDup (started (hist s)) ∧
  (∀ x, x ∈ started (hist s) → x ∈ pushed (hist s) ∧ found x = true) ∧
  (∀ x, x ∈ pushed (hist s) → fed (links p) x) ∧
  (∀ x i l, x ∈ pushed (hist s) → links p !! i = Some l → dstNodeInstance l = x → type l = InternalLink →
     if decide (node_mode (nodes p) SIGFRAME_MODE x = Ret true)
     then srcNodeInstance l ∈ started (hist s) else srcNodeInstance l ∈ processed (hist s)).
Proof.
  intros Hp Ht Ho Hr. pose proof (reachable_Inv p found mm s0 s Hp Ht Ho Hr) as I.
  apply prepare_inv in Hp as (-> & _ & Htop). pose proof I as [Hc Hth Hk]. split_and!.
  - intros l. destruct (Inv_exec p found Ht Htop (fed_outputs p Ho) s l I) as (r & Hr' & _). by exists r.
  - apply (co_nodup _ _ _ _ _ Hc).
  - pose proof (started_NoDup _ _ _ _ _ _ _ _ _ Hth (co_nodup _ _ _ _ _ Hc)) as Hnd. by apply NoDup_app in Hnd as [? _].
  - intros x Hx. split; [by eapply started_pushed|by eapply started_found].
  - apply (co_fed _ _ _ _ _ Hc).
  - intros x i l Hx Hl Hd Hty. assert (internal x l = true) as Hi by by apply internal_spec.
    case_decide; [by eapply (co_sig _ _ _ _ _ Hc)|by eapply pushed_processed].
Qed.

(** C18. In a pipeline that passes the test of its topology, whose links into sink buffers have
    the type of such links, and in which every fed node has a link out of it: when its thread has left the loop, the queue is empty, no node
    runs, and every node started has ended.  If no plug-in failed and every node is found, the
    nodes that ran are exactly those the sources feed, each of them once; each has called
    [releaseOutBuffers] for its links into sinks, and [notifyNextNode] has counted down each of
    its links to other nodes, once; the count of a node has come to exactly 0 - to 0 or below
    for a frame-by-frame node, whose link is counted down for frames handed on as well. *)
Theorem schedule_complete p found mm s0 s :
  prepare p = Ret (Some (mm, s0)) → sinks_typed (links p) → fed_has_output p →
  reachable p mm found s0 s → pc s = Done →
  mRunSequence s = [] ∧ tasks s = [] ∧ mRunningNodeNum s = 0 ∧ started (hist s) ≡ₚ finished (hist s) ∧
  (mHasProcessError s = false → (∀ x, fed (links p) x → found x = true) →
   NoDup (started (hist s)) ∧
   (∀ x, fed (links p) x ↔ x ∈ started (hist s)) ∧
   (∀ x, fed (links p) x → x ∈ processed (hist s)) ∧
   NoDup (notified (hist s)) ∧
   (∀ i l, links p !! i = Some l → fed (links p) (srcNodeInstance l) →
      (type l = SinkLink → i ∈ released (hist s)) ∧ (type l = InternalLink → i ∈ notified (hist s))) ∧
   (∀ i l, links p !! i = Some l → type l = InternalLink → fed (links p) (dstNodeInstance l) →
      ∃ d, om_find (depNum s) (dstNodeInstance l) = Some d ∧ d ≤ 0 ∧
        (node_mode (nodes p) SIGFRAME_MODE (dstNodeInstance l) ≠ Ret true → d = 0))).
Proof.
  intros Hp Ht Ho Hr E. pose proof (reachable_Inv p found mm s0 s Hp Ht Ho Hr) as I.
  destruct (done_idle p found s I E) as [Eq Et]. pose proof I as [Hc Hth Hk].
  split_and!; [done..| | |].
  - rewrite (th_running _ _ _ _ _ _ _ _ _ Hth), Et, E. done.
  - pose proof (th_started _ _ _ _ _ _ _ _ _ Hth) as Hs. by rewrite Et in Hs.
  - intros He Hall. destruct (done_started p found s I E Hall) as [Est _].
    assert (∀ x, fed (links p) x → x ∈ processed (hist s)) as Hpr.
    { intros x Hx. apply (done_processed p found s); [done..|]. by apply (done_fed p found). }
    split_and!; [by rewrite Est; apply (co_nodup _ _ _ _ _ Hc)| |done|apply (to_nodup _ _ _ _ _ _ _ _ Hk)| |].
    + intros x. rewrite Est. split; [by apply (done_fed p found)|apply (co_fed _ _ _ _ _ Hc)].
    + intros i l Hl Hf. pose proof (done_handled p found s i l I E He (Hpr _ Hf) Hl) as H. unfold handled in H.
      split; intros Hty; rewrite Hty in H; by apply H.
    + intros i l Hl Hty Hf. apply (done_count p found s I (dstNodeInstance l) i l); [|done|by apply internal_spec].
      by apply (done_fed p found).
Qed.

(** C19. In a pipeline that passes the test of its topology, whose links into sink buffers have
    the type of such links, and in which every fed node has a link out of it, the engine never
    stands still on its own account: in every
    state the thread of the pipeline has left the loop, or the engine has a step to take, or
    some node is in its own code (where it may wait for images, and nothing is claimed); and
    when that node returns, with or without an error, the engine takes its end.  Every step of
    the engine and every end of a node brings the end of the pipeline nearer; only the calls
    that hand single frames on, and wake-ups for no reason, do not.  So a pipeline ends if its
    nodes return and hand on finitely many frames, and no wake-up of its thread is lost. *)
Theorem schedule_ends p found mm s0 :
  prepare p = Ret (Some (mm, s0)) → sinks_typed (links p) → fed_has_output p →
  ∃ cost : State → nat, ∀ s, reachable p mm found s0 s →
    (pc s = Done ∨ (∃ l s', engine l ∧ exec p mm found s l = Ret (Some s')) ∨ ∃ i, own_code s i) ∧
    (∀ i a, own_code s i → a ≠ Advance → ∃ s', exec p mm found s (Work i a) = Ret (Some s')) ∧
    (∀ l s', progress l → exec p mm found s l = Ret (Some s') → (cost s' < cost s)%nat).
Proof.
  intros Hp Ht Ho. exists (cost p). intros s Hr. pose proof (reachable_Inv p found mm s0 s Hp Ht Ho Hr) as I.
  assert (∀ l s', exec p mm found s l = Ret (Some s') → Inv p found s') as Hnext.
  { intros l s' H. eapply reachable_Inv; [done..|]. by eapply reach_step. }
  pose proof Hp as (-> & _ & Htop)%prepare_inv. split_and!.
  - by apply moves.
  - intros i a [x Hi] Ha. by eapply task_moves.
  - intros l s' Hl H. eapply cost_exec; [done..|by eapply Hnext|done|done].
Qed.

(** ** Pipelines from the pruner

    The scheduler is given what [CamPruner.prune] returns; its links to sinks have the type of
    such links. *)
Lemma set_types_typed md ls : ∀ nodes ls' nodes',
  set_types md ls nodes = Ret (ls', nodes') → ∀ l, l ∈ ls' → type l = link_type l.
Proof.
  induction ls as [|l0 ls IH]; intros nodes ls' nodes'; cbn [set_types].
  { intros [= <- <-] l ?%elem_of_nil. done. }
  intros (n1 & _ & ([ls1 n2] & H & [= <- <-])%outcome_bind_Ret_inv)%outcome_bind_Ret_inv l.
  intros [->|Hl]%elem_of_cons; [done|]. by eapply IH.
Qed.

Lemma bridge_typed nodes ls : ∀ ls' new,
  bridge nodes ls = Ret (ls', new) → (∀ l, l ∈ ls → type l = link_type l) →
  ∀ l, l ∈ ls' ∨ l ∈ new → is_sink (dstNodeInstance l) = true → type l = SinkLink.
Proof.
  induction ls as [|l0 ls IH]; intros ls' new; cbn [bridge].
  { intros [= <- <-] _ l [?%elem_of_nil|?%elem_of_nil]; done. }
  intros (b & Hb & ([ls1 new1] & H & Heq)%outcome_bind_Ret_inv)%outcome_bind_Ret_inv Hls l Hl Hs.
  assert (l ∈ ls1 ∨ l ∈ new1 → type l = SinkLink) as Hrest.
  { intros H1. eapply IH; [done| |done|done]. intros k Hk. apply Hls. by right. }
  destruct b; injection Heq as <- <-; rewrite !elem_of_cons in Hl.
  - destruct Hl as [[->|?]|[->|?]]; auto; [done|]. cbn in *. by rewrite Hs.
  - destruct Hl as [[->|?]|?]; auto. rewrite (Hls l0) by left. unfold needs_bridge in Hb. rewrite Hs in Hb.
    unfold link_type. rewrite Hs. by destruct (is_source _).
Qed.

Lemma prune_sinks_typed md raw sel p : prune md raw sel = Ret p → sinks_typed (links p).
Proof.
  intros (p1 & _ & (p2 & _ & ([ls nodes] & Ht & ([ls' new] & Hb & [= <-])%outcome_bind_Ret_inv)%outcome_bind_Ret_inv)
    %outcome_bind_Ret_inv)%outcome_bind_Ret_inv i l Hl Hs. cbn in Hl.
  eapply bridge_typed; [done|by eapply set_types_typed| |done].
  apply list_elem_of_lookup_2 in Hl. by rewrite elem_of_app, elem_of_reverse in Hl.
Qed.

(** ** A pipeline that runs *)

Lemma run_reachable p mm found s0 ls s : run p mm found s0 ls = Ret (Some s) → reachable p mm found s0 s.
Proof.
  enough (∀ s1, reachable p mm found s0 s1 → run p mm found s1 ls = Ret (Some s) → reachable p mm found s0 s) as H.
  { apply H. apply reach_refl. }
  induction ls as [|l ls IH]; intros s1 Hr; cbn [run]; [by intros [= <-]|].
  intros ([s2|] & Hs & Hrun)%outcome_bind_Ret_inv; [|done]. by eapply IH, Hrun; eapply reach_step.
Qed.

Lemma sinks_typed_check links :
  forallb (λ l, negb (is_sink (dstNodeInstance l)) || bool_decide (type l = SinkLink)) links = true → sinks_typed links.
Proof.
  rewrite forallb_forall. intros H i l Hl Hs. apply list_elem_of_lookup_2, list_elem_of_In, H in Hl.
  rewrite Hs in Hl. by apply bool_decide_eq_true in Hl.
Qed.

Lemma fed_has_output_check p :
  forallb (λ l, bool_decide (type l = SinkLink) ||
    existsb (λ l', bool_decide (srcNodeInstance l' = dstNodeInstance l) && negb (bool_decide (type l' = SourceLink)))
      (links p)) (links p) = true → fed_has_output p.
Proof.
  rewrite forallb_forall. intros H x [i l Hl [<- Ht]%into_spec _].
  apply list_elem_of_lookup_2, list_elem_of_In, H in Hl. rewrite bool_decide_eq_false_2 in Hl by done.
  apply existsb_exists in Hl as (l' & (j & Hj)%list_elem_of_In%list_elem_of_lookup_1 & Hb).
  apply andb_prop in Hb as [Hs%bool_decide_eq_true Hn%negb_true_iff%bool_decide_eq_false]. by exists j, l'.
Qed.

Definition split_node (instance : string) (mask : Z) : string * NodeItem :=
  (instance, {| nodeName := instance; CamLinks.nodeInstance := instance; nodeMask := mask;
                outputBufferNeedCheck := true; isEnable := true; outputType := OneBuffer |}).

(** A splits into B, a frame-by-frame node, and C, which D joins. *)
Definition demo_split : PipelineInfo :=
  {| pipelineName := "Split";
     nodes := [split_node "A" 0; split_node "B" SIGFRAME_MODE; split_node "C" 0; split_node "D" 0];
     links := [demo_link "SourceBuffer0" 0 "A" 0; with_type (demo_link "A" 0 "B" 0) InternalLink;
               with_type (demo_link "A" 1 "C" 0) InternalLink; with_type (demo_link "B" 0 "D" 0) InternalLink;
               with_type (demo_link "C" 0 "D" 1) InternalLink;
               with_type (demo_link "D" 0 "SinkBuffer0" 0) SinkLink] |}.

Definition start_node : list label := [Main; Main; Main; Main].
(** A hands a frame on, so B starts beside it. *)
Definition demo_schedule : list label :=
  start_node ++ [Work 0 ReleaseOutput; Work 0 Advance; Work 0 Advance; Main] ++ start_node ++
  [Work 0 EndOk; Work 0 Advance; Work 0 Advance; Work 0 Advance; Main] ++ start_node ++
  [Work 1 EndOk; Work 0 EndOk; Work 1 Advance; Work 1 Advance; Main; Work 0 Advance; Work 0 Advance; Main] ++ start_node ++
  [Spurious; Main; Work 0 ReleaseOutput; Work 0 Advance; Work 0 EndOk; Work 0 Advance; Work 0 Advance; Main; Main].

Lemma demo_split_typed : sinks_typed (links demo_split).
Proof. by apply sinks_typed_check; vm_compute. Qed.
Lemma demo_split_outputs : fed_has_output demo_split.
Proof. by apply fed_has_output_check; vm_compute. Qed.

(** The states behind the first [n] steps of the schedule. *)
Definition demo_after (n : nat) : outcome (option State) :=
  match prepare demo_split with
  | Ret (Some (mm, s0)) => run demo_split mm (λ _, true) s0 (take n demo_schedule)
  | _ => UB
  end.

(** Behind 12 steps B runs and A does: B is a frame-by-frame node. *)
Lemma schedule_safe_witness :
  ∃ mm s0 s, prepare demo_split = Ret (Some (mm, s0)) ∧ demo_after 12 = Ret (Some s) ∧
    started (hist s) = ["A"; "B"]%string ∧ processed (hist s) = [] ∧
    (∀ l, ∃ r, exec demo_split mm (λ _, true) s l = Ret r).
Proof.
  eexists _, _, _. split; [by vm_compute|]. split; [by vm_compute|]. split; [by vm_compute|]. split; [by vm_compute|].
  apply (schedule_safe demo_split (λ _, true) _ _ _ eq_refl demo_split_typed demo_split_outputs).
  apply (run_reachable _ _ _ _ (take 12 demo_schedule)). by vm_compute.
Defined.

Lemma schedule_complete_witness :
  ∃ s, demo_after (length demo_schedule) = Ret (Some s) ∧ pc s = Done ∧ mHasProcessError s = false ∧
    started (hist s) = ["A"; "B"; "C"; "D"]%string ∧ released (hist s) = [5; 5]%nat ∧
    depNum s = [("B", -1); ("C", 0); ("D", 0)]%string ∧
    ∀ x, fed (links demo_split) x → x ∈ processed (hist s).
Proof.
  eexists. split; [by vm_compute|]. split; [by vm_compute|]. split; [by vm_compute|]. split; [by vm_compute|].
  split; [by vm_compute|]. split; [by vm_compute|].
  pose proof (schedule_complete demo_split (λ _, true) _ _
    ltac:(match eval vm_compute in (demo_after (length demo_schedule)) with Ret (Some ?s) => exact s end)
    eq_refl demo_split_typed demo_split_outputs) as H.
  apply H; [|by vm_compute..]. apply (run_reachable _ _ _ _ demo_schedule). by vm_compute.
Defined.

Lemma schedule_ends_witness :
  ∃ mm s0, prepare demo_split = Ret (Some (mm, s0)) ∧
  ∃ cost : State → nat, ∀ s, reachable demo_split mm (λ _, true) s0 s →
    (pc s = Done ∨ (∃ l s', engine l ∧ exec demo_split mm (λ _, true) s l = Ret (Some s')) ∨ ∃ i, own_code s i) ∧
    (∀ i a, own_code s i → a ≠ Advance → ∃ s', exec demo_split mm (λ _, true) s (Work i a) = Ret (Some s')) ∧
    (∀ l s', progress l → exec demo_split mm (λ _, true) s l = Ret (Some s') → (cost s' < cost s)%nat).
Proof.
  eexists _, _. split; [by vm_compute|].
  apply (schedule_ends demo_split (λ _, true) _ _ eq_refl demo_split_typed demo_split_outputs).
Defined.

(** ** Pipelines that end early *)

(** What ran, and the links into sinks for which [releaseOutBuffers] was called. *)
Definition ran (p : PipelineInfo) (ls : list label) : option (main_pc * list string * list nat) :=
  match prepare p with
  | Ret (Some (mm, s0)) =>
      match run p mm (λ _, true) s0 ls with
      | Ret (Some s) => Some (pc s, started (hist s), released (hist s)) | _ => None end
  | _ => None
  end.

(** A copying node behind a virtual node, as [CamPruner.bridge] leaves it
    ([CamPrunerSpec.bridge_virtual_sink]): the link into it has the type [SinkLink], so it never
    runs.  [releaseOutBuffers] is called for that link, and not for the link into the sink. *)
Example bridge_never_runs :
  ran {| pipelineName := "Bridge";
         nodes := [split_node "V" VIRTUAL_MODE; split_node newMemcpyInstance 0];
         links := [demo_link "SourceBuffer0" 0 "V" 0;
                   with_type (demo_link "V" 0 newMemcpyInstance 0) SinkLink;
                   with_type (demo_link newMemcpyInstance 0 "SinkBuffer0" 0) SinkLink] |}
    (start_node ++ [Work 0 EndOk; Work 0 Advance; Work 0 Advance; Main; Main]) =
  Some (Done, ["V"%string], [1%nat]).
Proof. by vm_compute. Qed.

(** Virtual nodes in a row: both bridges use the one copying node, which then waits for a
    successor of its own, and the pipeline ends without a call for the sink. *)
Example bridges_wait_for_each_other :
  ran {| pipelineName := "Row";
         nodes := [split_node "U" VIRTUAL_MODE; split_node "V" VIRTUAL_MODE; split_node "W" VIRTUAL_MODE;
                   split_node newMemcpyInstance 0];
         links := [demo_link "SourceBuffer0" 0 "U" 0;
                   with_type (demo_link "U" 0 newMemcpyInstance 0) InternalLink;
                   with_type (demo_link "V" 0 newMemcpyInstance 0) InternalLink;
                   with_type (demo_link newMemcpyInstance 0 "V" 0) InternalLink;
                   with_type (demo_link newMemcpyInstance 0 "W" 0) InternalLink;
                   with_type (demo_link "W" 0 "SinkBuffer0" 0) SinkLink] |}
    (start_node ++ [Work 0 EndOk; Work 0 Advance; Work 0 Advance; Main; Main]) =
  Some (Done, ["U"%string], []).
Proof. by vm_compute. Qed.
