(* ===== verification/CamPool.v ===== *)
(** * Camera pipelines: the thread pool

    Model of [src/mivifwk/mialgoengine/ThreadPool.cpp], which runs the nodes of the pipelines:
    up to 32 threads take tasks from a queue; threads are added when tasks wait and leave when
    too many are idle.  A step below is what a thread does while it holds the lock, or one call
    outside of it; [enqueue] keeps the lock while it joins the threads that have left. *)
From Stdlib Require Import ZArith Lia.
From stdpp Require Import base list.
From S2P Require Import Prelude.
#[local] Open Scope Z_scope.

(** A thread of the pool: before the lock of its loop, in the wait, in a task, behind the loop,
    and gone. *)
Inductive thread := Awake | Blocked | Busy (task : nat) | Leaving | Ended.
#[export] Instance thread_eq_dec : EqDecision thread.
Proof. solve_decision. Defined.

(** The destructor: not called, before [notify_all], joining, returned. *)
Inductive destruction := Alive | Stopping | Joining | Destroyed.
#[export] Instance destruction_eq_dec : EqDecision destruction.
Proof. solve_decision. Defined.

(** @src src/mivifwk/mialgoengine/ThreadPool.h:28-54 ThreadPool

    The threads are numbered from 0 on, so [threads] is indexed by their ids, and the next id
    is their number.  [enqueuing] is the call of [enqueue] that holds the lock, [notifying] the
    number of calls behind it; the last three lists are history: tasks accepted, begun and
    ended. *)
Record Pool := {
  threads : list thread;
  mWorkers : list nat;
  mPendingRemoveThreadIds : list nat;
  mTaskQueue : list nat;
  mStop : bool;
  mInitThreadNum : Z;
  mIdleThreads : Z;
  mActiveThreadNum : Z;
  enqueuing : option nat;
  notifying : nat;
  destructor : destruction;
  accepted : list nat;
  begun : list nat;
  finished : list nat;
}.

(** @src src/mivifwk/mialgoengine/ThreadPool.cpp:26-26 mMaxThreadNum *)
Definition mMaxThreadNum : Z := 32.

(** A pool in which thread [i] goes on to [t]. *)
Definition set_thread (s : Pool) (i : nat) (t : thread) : Pool :=
  {| threads := <[i := t]> (threads s); mWorkers := mWorkers s;
     mPendingRemoveThreadIds := mPendingRemoveThreadIds s; mTaskQueue := mTaskQueue s; mStop := mStop s;
     mInitThreadNum := mInitThreadNum s; mIdleThreads := mIdleThreads s; mActiveThreadNum := mActiveThreadNum s;
     enqueuing := enqueuing s; notifying := notifying s; destructor := destructor s;
     accepted := accepted s; begun := begun s; finished := finished s |}.

(** @src src/mivifwk/mialgoengine/ThreadPool.cpp:38-45 ThreadPool::addThread *)
Definition addThread (s : Pool) : Pool :=
  {| threads := threads s ++ [Awake]; mWorkers := mWorkers s ++ [length (threads s)];
     mPendingRemoveThreadIds := mPendingRemoveThreadIds s; mTaskQueue := mTaskQueue s; mStop := mStop s;
     mInitThreadNum := mInitThreadNum s; mIdleThreads := u32 (mIdleThreads s + 1);
     mActiveThreadNum := u32 (mActiveThreadNum s + 1);
     enqueuing := enqueuing s; notifying := notifying s; destructor := destructor s;
     accepted := accepted s; begun := begun s; finished := finished s |}.

(** @src src/mivifwk/mialgoengine/ThreadPool.cpp:26-36 ThreadPool::ThreadPool *)
Definition ThreadPool (threads : Z) : Pool :=
  let threads := if mMaxThreadNum <? threads then mMaxThreadNum else threads in
  Nat.iter (Z.to_nat threads) addThread
    {| threads := []; mWorkers := []; mPendingRemoveThreadIds := []; mTaskQueue := []; mStop := false;
       mInitThreadNum := threads; mIdleThreads := 0; mActiveThreadNum := 0;
       enqueuing := None; notifying := 0; destructor := Alive; accepted := []; begun := []; finished := [] |}.

(** @src src/mivifwk/mialgoengine/ThreadPool.cpp:54-66 loop: the wait and the queue

    Thread [i] has the lock: it takes a task, returns, or waits. *)
Definition take_task (s : Pool) (i : nat) : Pool :=
  match mTaskQueue s with
  | task :: rest =>
      {| threads := <[i := Busy task]> (threads s); mWorkers := mWorkers s;
         mPendingRemoveThreadIds := mPendingRemoveThreadIds s; mTaskQueue := rest; mStop := mStop s;
         mInitThreadNum := mInitThreadNum s; mIdleThreads := u32 (mIdleThreads s - 1);
         mActiveThreadNum := mActiveThreadNum s;
         enqueuing := enqueuing s; notifying := notifying s; destructor := destructor s;
         accepted := accepted s; begun := begun s ++ [task]; finished := finished s |}
  | [] => set_thread s i (if mStop s then Leaving else Blocked)
  end.

(** @src src/mivifwk/mialgoengine/ThreadPool.cpp:70-88 loop: behind the task *)
Definition end_task (s : Pool) (i : nat) (task : nat) : Pool :=
  let mIdle := u32 (mIdleThreads s + 1) in
  let beNeededThreadNum := u32 (Z.of_nat (length (mTaskQueue s)) * 2) in
  let leaves := (mInitThreadNum s <? mIdle) && (beNeededThreadNum <? mIdle) in
  {| threads := <[i := if leaves then Leaving else Awake]> (threads s); mWorkers := mWorkers s;
     mPendingRemoveThreadIds :=
       if leaves then mPendingRemoveThreadIds s ++ [i] else mPendingRemoveThreadIds s;
     mTaskQueue := mTaskQueue s; mStop := mStop s; mInitThreadNum := mInitThreadNum s;
     mIdleThreads := if leaves then u32 (mIdle - 1) else mIdle;
     mActiveThreadNum := if leaves then u32 (mActiveThreadNum s - 1) else mActiveThreadNum s;
     enqueuing := enqueuing s; notifying := notifying s; destructor := destructor s;
     accepted := accepted s; begun := begun s; finished := finished s ++ [task] |}.

(** @src src/mivifwk/mialgoengine/ThreadPool.cpp:95-99 enqueue: the lock

    A call while the pool is being destroyed returns [-1] and changes nothing. *)
Definition enqueue_lock (s : Pool) (task : nat) : Pool :=
  if mStop s then s
  else
    {| threads := threads s; mWorkers := mWorkers s; mPendingRemoveThreadIds := mPendingRemoveThreadIds s;
       mTaskQueue := mTaskQueue s; mStop := mStop s; mInitThreadNum := mInitThreadNum s;
       mIdleThreads := mIdleThreads s; mActiveThreadNum := mActiveThreadNum s;
       enqueuing := Some task; notifying := notifying s; destructor := destructor s;
       accepted := accepted s; begun := begun s; finished := finished s |}.

(** @src src/mivifwk/mialgoengine/ThreadPool.cpp:101-112 enqueue: a thread that has left

    [None] while the thread has not ended. *)
Definition enqueue_join (s : Pool) : option Pool :=
  match last (mPendingRemoveThreadIds s) with
  | None => None
  | Some threadId =>
      if bool_decide (threadId ∈ mWorkers s) && negb (bool_decide (threads s !! threadId = Some Ended)) then None
      else
        Some {| threads := threads s; mWorkers := filter (λ i, i ≠ threadId) (mWorkers s);
                mPendingRemoveThreadIds := removelast (mPendingRemoveThreadIds s);
                mTaskQueue := mTaskQueue s; mStop := mStop s; mInitThreadNum := mInitThreadNum s;
                mIdleThreads := mIdleThreads s; mActiveThreadNum := mActiveThreadNum s;
                enqueuing := enqueuing s; notifying := notifying s; destructor := destructor s;
                accepted := accepted s; begun := begun s; finished := finished s |}
  end.

(** @src src/mivifwk/mialgoengine/ThreadPool.cpp:114-122 enqueue: the task *)
Definition enqueue_task (s : Pool) (task : nat) : Pool :=
  let s := {| threads := threads s; mWorkers := mWorkers s; mPendingRemoveThreadIds := mPendingRemoveThreadIds s;
              mTaskQueue := mTaskQueue s ++ [task]; mStop := mStop s; mInitThreadNum := mInitThreadNum s;
              mIdleThreads := mIdleThreads s; mActiveThreadNum := mActiveThreadNum s;
              enqueuing := None; notifying := S (notifying s); destructor := destructor s;
              accepted := accepted s ++ [task]; begun := begun s; finished := finished s |} in
  let taskNums := u32 (Z.of_nat (length (mTaskQueue s))) in
  if (mActiveThreadNum s <? mMaxThreadNum) && (mIdleThreads s <? taskNums) then addThread s else s.

(** @src src/mivifwk/mialgoengine/ThreadPool.cpp:126-127 enqueue: notify_one

    [Some i]: thread [i] is woken; [None]: no thread waits. *)
Definition enqueue_notify (s : Pool) (i : option nat) : option Pool :=
  match notifying s with
  | O => None
  | S n =>
      let s' := {| threads := threads s; mWorkers := mWorkers s; mPendingRemoveThreadIds := mPendingRemoveThreadIds s;
                   mTaskQueue := mTaskQueue s; mStop := mStop s; mInitThreadNum := mInitThreadNum s;
                   mIdleThreads := mIdleThreads s; mActiveThreadNum := mActiveThreadNum s;
                   enqueuing := enqueuing s; notifying := n; destructor := destructor s;
                   accepted := accepted s; begun := begun s; finished := finished s |} in
      match i with
      | Some i => if bool_decide (threads s !! i = Some Blocked) then Some (set_thread s' i Awake) else None
      | None => if bool_decide (Blocked ∈ threads s) then None else Some s'
      end
  end.

Definition with_destructor (s : Pool) (ts : list thread) (stop : bool) (d : destruction) : Pool :=
  {| threads := ts; mWorkers := mWorkers s; mPendingRemoveThreadIds := mPendingRemoveThreadIds s;
     mTaskQueue := mTaskQueue s; mStop := stop; mInitThreadNum := mInitThreadNum s;
     mIdleThreads := mIdleThreads s; mActiveThreadNum := mActiveThreadNum s;
     enqueuing := enqueuing s; notifying := notifying s; destructor := d;
     accepted := accepted s; begun := begun s; finished := finished s |}.

(** @src src/mivifwk/mialgoengine/ThreadPool.cpp:131-141 ThreadPool::~ThreadPool

    Its next step: [mStop] is set under the lock, all waiting threads are woken, and it returns
    when all threads of [mWorkers] have ended. *)
Definition destroy (s : Pool) : option Pool :=
  match destructor s with
  | Alive => Some (with_destructor s (threads s) true Stopping)
  | Stopping =>
      Some (with_destructor s ((λ t, if decide (t = Blocked) then Awake else t) <$> threads s) (mStop s) Joining)
  | Joining =>
      if forallb (λ i, bool_decide (threads s !! i = Some Ended)) (mWorkers s)
      then Some (with_destructor s (threads s) (mStop s) Destroyed) else None
  | Destroyed => None
  end.

(** What can happen next: a call of [enqueue] with a task, its steps, a step of a thread or a
    wake-up for no reason, the destructor. *)
Inductive label :=
  | Enqueue (task : nat) | Join | Push | Notify (i : option nat) | Step (i : nat) | Spurious (i : nat) | Destroy.

#[export] Instance label_eq_dec : EqDecision label.
Proof. solve_decision. Defined.

(** The lock is held across steps by a call of [enqueue] alone. *)
Definition free (s : Pool) : bool := bool_decide (enqueuing s = None).

Definition exec (s : Pool) (l : label) : option Pool :=
  match l with
  | Enqueue task => if free s && negb (bool_decide (destructor s = Destroyed)) then Some (enqueue_lock s task) else None
  | Join => match enqueuing s with Some _ => enqueue_join s | None => None end
  | Push => match enqueuing s, mPendingRemoveThreadIds s with
            | Some task, [] => Some (enqueue_task s task) | _, _ => None end
  | Notify i => enqueue_notify s i
  | Step i =>
      match threads s !! i with
      | Some Awake => if free s then Some (take_task s i) else None
      | Some (Busy task) => if free s then Some (end_task s i task) else None
      | Some Leaving => Some (set_thread s i Ended)
      | _ => None
      end
  | Spurious i => if bool_decide (threads s !! i = Some Blocked) then Some (set_thread s i Awake) else None
  | Destroy => if free s || negb (bool_decide (destructor s = Alive)) then destroy s else None
  end.

Fixpoint run (s : Pool) (ls : list label) : option Pool :=
  match ls with
  | [] => Some s
  | l :: ls => match exec s l with Some s => run s ls | None => None end
  end.

Inductive reachable (s0 : Pool) : Pool → Prop :=
  | reach_refl : reachable s0 s0
  | reach_step s l s' : reachable s0 s → exec s l = Some s' → reachable s0 s'.

(** ** Counting threads *)

Definition is_idle (t : thread) : bool := match t with Awake | Blocked => true | _ => false end.
Definition is_alive (t : thread) : bool := match t with Awake | Blocked | Busy _ => true | _ => false end.
Definition is_awake (t : thread) : bool := bool_decide (t = Awake).
Definition is_blocked (t : thread) : bool := bool_decide (t = Blocked).

Definition num (P : thread → bool) (ts : list thread) : Z := foldr (λ t n, Z.b2z (P t) + n) 0 ts.

Lemma num_nonneg P ts : 0 ≤ num P ts.
Proof. induction ts as [|t ts IH]; simpl; [lia|]. destruct (P t); simpl; lia. Qed.

Lemma num_insert P ts i t t' : ts !! i = Some t →
  num P (<[i := t']> ts) = num P ts - Z.b2z (P t) + Z.b2z (P t').
Proof.
  revert i. induction ts as [|u ts IH]; intros [|i]; simpl; [done..|intros [= ->]; lia|].
  intros H. rewrite (IH _ H). lia.
Qed.

Lemma num_snoc P ts t : num P (ts ++ [t]) = num P ts + Z.b2z (P t).
Proof. induction ts as [|u ts IH]; simpl; [lia|]. rewrite IH. lia. Qed.

Lemma num_le (P Q : thread → bool) ts : (∀ t, P t = true → Q t = true) → num P ts ≤ num Q ts.
Proof.
  intros H. induction ts as [|t ts IH]; simpl; [lia|]. specialize (H t).
  destruct (P t), (Q t); simpl; try lia.
Qed.

Lemma num_pos P ts : 0 < num P ts ↔ ∃ t, t ∈ ts ∧ P t = true.
Proof.
  split.
  - induction ts as [|t ts IH]; simpl; [lia|]. destruct (P t) eqn:E; simpl; [intros _; exists t; split; [left|done]|].
    intros (u & ? & ?)%IH. exists u. split; [by right|done].
  - intros (t & (i & Hi)%list_elem_of_lookup & HP). induction ts as [|u ts IH] in i, Hi |- *; [done|].
    destruct i as [|i]; simpl in *; [injection Hi as ->; rewrite HP; pose proof (num_nonneg P ts); simpl; lia|].
    specialize (IH _ Hi). destruct (P u); simpl; lia.
Qed.

Lemma num_ge P ts i t : ts !! i = Some t → Z.b2z (P t) ≤ num P ts.
Proof.
  intros Hi. pose proof (num_nonneg P ts). destruct (P t) eqn:E; simpl; [|lia].
  enough (0 < num P ts) by lia. apply num_pos. exists t. split; [by eapply list_elem_of_lookup_2|done].
Qed.

(** The tasks that run. *)
Definition task_of (t : thread) : list nat := match t with Busy x => [x] | _ => [] end.
Definition running (ts : list thread) : list nat := ts ≫= task_of.

Lemma running_insert ts i t t' : ts !! i = Some t →
  task_of t ++ running (<[i := t']> ts) ≡ₚ task_of t' ++ running ts.
Proof.
  unfold running. revert i. induction ts as [|u ts IH]; intros [|i]; simpl; [done..|intros [= ->]|].
  - rewrite !app_assoc. f_equiv. apply Permutation_app_comm.
  - intros H. rewrite !(Permutation_app_swap_app _ (task_of u)). f_equiv. by apply IH.
Qed.

Lemma running_snoc ts : running (ts ++ [Awake]) = running ts.
Proof. unfold running. by rewrite bind_app, app_nil_r. Qed.

(** ** The invariant

    [left] threads have returned because the pool is being destroyed; they stay in the
    counters. *)
Record Inv (s : Pool) (left : Z) : Prop := {
  i_active : mActiveThreadNum s = num is_alive (threads s) + left;
  i_max : mActiveThreadNum s ≤ mMaxThreadNum;
  i_idle : mIdleThreads s = num is_idle (threads s) + left;
  i_left : 0 ≤ left ∧ (left = 0 ∨ mStop s = true ∧ mTaskQueue s = []);
  i_init : 0 ≤ mInitThreadNum s;
  i_stop : mStop s = true ↔ destructor s ≠ Alive;
  i_enq : enqueuing s ≠ None → mStop s = false;
  i_pending : ∀ i, i ∈ mPendingRemoveThreadIds s → threads s !! i = Some Leaving ∨ threads s !! i = Some Ended;
  i_workers : ∀ i t, threads s !! i = Some t → t ≠ Ended → i ∈ mWorkers s;
  i_known : ∀ i, i ∈ mWorkers s → (i < length (threads s))%nat;
  i_fifo : accepted s = begun s ++ mTaskQueue s;
  i_begun : begun s ≡ₚ finished s ++ running (threads s);
  i_wake : 0 < num is_blocked (threads s) →
    Z.of_nat (length (mTaskQueue s)) ≤ num is_awake (threads s) + Z.of_nat (notifying s);
  i_alive : mTaskQueue s ≠ [] → 0 < num is_alive (threads s);
  i_woken : destructor s = Joining ∨ destructor s = Destroyed → num is_blocked (threads s) = 0;
  i_ended : destructor s = Destroyed → ∀ i t, threads s !! i = Some t → t = Ended;
}.

Lemma idle_alive ts : num is_idle ts ≤ num is_alive ts.
Proof. apply num_le. by intros []. Qed.

Lemma insert_lookup_cases (ts : list thread) i j t t' t0 : ts !! i = Some t0 → <[i := t']> ts !! j = Some t →
  (j = i ∧ t = t') ∨ (j ≠ i ∧ ts !! j = Some t).
Proof.
  intros Hi. destruct (decide (i = j)) as [<-|Hne].
  - rewrite list_lookup_insert_eq by (by eapply lookup_lt_Some). intros [= <-]. by left.
  - rewrite list_lookup_insert_ne by done. by right.
Qed.

Lemma pending_insert (ts : list thread) (i : nat) t t' (pend : list nat) : ts !! i = Some t →
  (t = Leaving ∨ t = Ended → t' = Leaving ∨ t' = Ended) →
  (∀ j, j ∈ pend → ts !! j = Some Leaving ∨ ts !! j = Some Ended) →
  ∀ j, j ∈ pend → <[i := t']> ts !! j = Some Leaving ∨ <[i := t']> ts !! j = Some Ended.
Proof.
  intros Hi Ht Hp j Hj. specialize (Hp j Hj). destruct (decide (i = j)) as [<-|Hne].
  - rewrite list_lookup_insert_eq by (by eapply lookup_lt_Some). rewrite Hi in Hp. naive_solver.
  - by rewrite list_lookup_insert_ne.
Qed.

Lemma workers_insert (ts : list thread) (i : nat) t t' (ws : list nat) : ts !! i = Some t → t ≠ Ended →
  (∀ j u, ts !! j = Some u → u ≠ Ended → j ∈ ws) → ∀ j u, <[i := t']> ts !! j = Some u → u ≠ Ended → j ∈ ws.
Proof.
  intros Hi Ht Hw j u Hj Hu. destruct (insert_lookup_cases ts i j u t' t Hi Hj) as [[-> _]|[_ ?]]; eauto.
Qed.

(** The goals about threads that the change of one thread leaves. *)
Ltac thread_goals Hi :=
  rewrite ?(num_insert _ _ _ _ _ Hi), ?length_insert; simpl; try done;
  try (by eapply pending_insert; [exact Hi|naive_solver|done]);
  try (by eapply workers_insert; [exact Hi| |done]);
  try lia.

(** A thread that runs is not ended. *)
Lemma not_destroyed s left i t : Inv s left → threads s !! i = Some t → t ≠ Ended → destructor s ≠ Destroyed.
Proof. intros I Hi Ht E. apply Ht. by eapply (i_ended _ _ I). Qed.

Lemma Inv_set s left i t t' : Inv s left → threads s !! i = Some t →
  (t = Blocked ∧ t' = Awake) ∨ (t = Leaving ∧ t' = Ended) ∨ (t = Awake ∧ t' = Blocked ∧ mTaskQueue s = [] ∧ mStop s = false) →
  Inv (set_thread s i t') left.
Proof.
  intros I Hi Hcase. assert (t ≠ Ended) as Hne by naive_solver.
  pose proof (not_destroyed s left i t I Hi Hne) as Hd.
  assert (task_of t = [] ∧ task_of t' = []) as [Et Et'] by naive_solver.
  assert (running (<[i := t']> (threads s)) ≡ₚ running (threads s)) as Hrun.
  { pose proof (running_insert (threads s) i t t' Hi) as H. by rewrite Et, Et' in H. }
  destruct I as [Ha Hm Hid Hl Hin Hst He Hp Hw Hk Hf Hb Hwk Hal Hwo Hend].
  split; simpl; thread_goals Hi.
  - destruct Hcase as [[-> ->]|[[-> ->]|(-> & -> & _)]]; simpl; lia.
  - destruct Hcase as [[-> ->]|[[-> ->]|(-> & -> & _)]]; simpl; lia.
  - by rewrite Hrun.
  - pose proof (num_ge is_awake _ _ _ Hi). destruct Hcase as [[-> ->]|[[-> ->]|(-> & -> & E & _)]]; rewrite ?E; simpl in *; lia.
  - destruct Hcase as [[-> ->]|[[-> ->]|(-> & -> & E & _)]]; simpl; [intros Hq; specialize (Hal Hq); lia..|by rewrite E].
  - intros [Hj|?]; [|done]. destruct Hcase as [[-> ->]|[[-> ->]|(-> & -> & _ & Hs)]]; simpl.
    + specialize (Hwo (or_introl Hj)). pose proof (num_ge is_blocked _ _ _ Hi) as H. simpl in H. lia.
    + specialize (Hwo (or_introl Hj)). lia.
    + destruct Hst as [_ Hst]. rewrite Hst in Hs; [done|congruence].
Qed.

(** A thread of a pool that is being destroyed returns. *)
Lemma Inv_return s left i : Inv s left → threads s !! i = Some Awake → mTaskQueue s = [] → mStop s = true →
  Inv (set_thread s i Leaving) (left + 1).
Proof.
  intros I Hi Hq Hstop. pose proof (not_destroyed s left i Awake I Hi ltac:(done)) as Hd.
  pose proof (running_insert (threads s) i Awake Leaving Hi) as Hrun. simpl in Hrun.
  destruct I as [Ha Hm Hid Hl Hin Hst He Hp Hw Hk Hf Hb Hwk Hal Hwo Hend].
  split; simpl; thread_goals Hi.
  - split; [lia|by right].
  - by rewrite Hrun.
  - rewrite Hq. pose proof (num_ge is_awake _ _ _ Hi) as H. simpl in *. lia.
  - intros [Hj|?]; [|done]. rewrite (Hwo (or_introl Hj)). done.
Qed.

Lemma idle_range s left : Inv s left → 0 ≤ num is_idle (threads s) ∧ 0 ≤ left ∧
  num is_idle (threads s) + left ≤ mActiveThreadNum s ≤ mMaxThreadNum.
Proof.
  intros I. pose proof (num_nonneg is_idle (threads s)). pose proof (idle_alive (threads s)).
  destruct (i_left _ _ I) as [? _]. pose proof (i_active _ _ I). pose proof (i_max _ _ I). lia.
Qed.

Lemma pool_Inv_take s left i : Inv s left → threads s !! i = Some Awake → ∃ left', Inv (take_task s i) left'.
Proof.
  intros I Hi. unfold take_task. destruct (mTaskQueue s) as [|task rest] eqn:Hq.
  { destruct (mStop s) eqn:Hs; [exists (left + 1); by apply Inv_return|exists left; eapply Inv_set; naive_solver]. }
  exists left. pose proof (not_destroyed s left i Awake I Hi ltac:(done)) as Hd.
  pose proof (idle_range s left I) as Hr. pose proof (num_ge is_idle _ _ _ Hi) as Hge. simpl in Hge.
  pose proof (running_insert (threads s) i Awake (Busy task) Hi) as Hrun. simpl in Hrun.
  destruct I as [Ha Hm Hid Hl Hin Hst He Hp Hw Hk Hf Hb Hwk Hal Hwo Hend]. unfold mMaxThreadNum in *.
  split; simpl; rewrite ?(wrapu_small 32 (mIdleThreads s - 1)) by lia; thread_goals Hi.
  - split; [lia|]. left. destruct Hl as [_ [?|[_ Hn]]]; [done|by rewrite Hq in Hn].
  - by rewrite Hf, Hq, <-app_assoc.
  - rewrite Hrun, Hb. rewrite <-!app_assoc. f_equiv. apply Permutation_app_comm.
  - intros Hbl. rewrite Hq in Hwk. simpl in *. lia.
  - intros Hj. pose proof (Hwo Hj). lia.
Qed.

Lemma pool_Inv_end s left i task : Inv s left → threads s !! i = Some (Busy task) →
  Z.of_nat (length (accepted s)) < 2 ^ 31 → Inv (end_task s i task) left.
Proof.
  intros I Hi Hbound. pose proof (not_destroyed s left i _ I Hi ltac:(done)) as Hd.
  pose proof (idle_range s left I) as Hr. pose proof (num_ge is_alive _ _ _ Hi) as Hge. simpl in Hge.
  assert (Z.of_nat (length (mTaskQueue s)) < 2 ^ 31) as Hq.
  { rewrite (i_fifo _ _ I), length_app in Hbound. lia. }
  destruct I as [Ha Hm Hid Hl Hin Hst He Hp Hw Hk Hf Hb Hwk Hal Hwo Hend]. unfold mMaxThreadNum in *.
  unfold end_task. rewrite (wrapu_small 32 (mIdleThreads s + 1)), (wrapu_small 32 (_ * 2)) by lia. cbv zeta.
  rewrite (wrapu_small 32 (mIdleThreads s + 1 - 1)), (wrapu_small 32 (mActiveThreadNum s - 1)) by lia.
  set (leaves := _ && _). set (t' := if leaves then Leaving else Awake).
  pose proof (running_insert (threads s) i (Busy task) t' Hi) as Hrun.
  assert (task_of t' = []) as Et by (subst t'; by destruct leaves). rewrite Et in Hrun. simpl in Hrun.
  assert (leaves = true → Z.of_nat (length (mTaskQueue s)) * 2 < mIdleThreads s + 1) as Hlv.
  { unfold leaves. intros [_ ?%Z.ltb_lt]%andb_prop. done. }
  split; simpl; thread_goals Hi.
  - subst t'. destruct leaves; simpl; lia.
  - unfold mMaxThreadNum. destruct leaves; lia.
  - subst t'. destruct leaves; simpl; lia.
  - intros j Hj. destruct (decide (j = i)) as [->|Hne].
    + rewrite list_lookup_insert_eq by (by eapply lookup_lt_Some). subst t'. destruct leaves; [by left|].
      destruct (Hp i Hj); congruence.
    + rewrite list_lookup_insert_ne by done. apply Hp. destruct leaves; [|done].
      apply elem_of_app in Hj as [?|?%list_elem_of_singleton]; done.
  - rewrite Hb, <-Hrun. rewrite <-!app_assoc. done.
  - intros Hbl. subst t'. destruct leaves; simpl in *; lia.
  - intros Hne. specialize (Hal Hne). subst t'. destruct leaves; simpl; [|lia].
    specialize (Hlv eq_refl). destruct Hl as [_ [Hl|[_ Hl]]]; [|done].
    pose proof (idle_alive (threads s)). destruct (mTaskQueue s); [done|]. simpl in Hlv. lia.
  - intros Hj. pose proof (Hwo Hj). subst t'. destruct leaves; simpl; lia.
Qed.

Lemma Inv_enqueue s left task : Inv s left → enqueuing s = None → Inv (enqueue_lock s task) left.
Proof. intros [] He. unfold enqueue_lock. destruct (mStop s) eqn:E; split; simpl; rewrite ?E; done. Qed.

Lemma Inv_join s left s' : Inv s left → enqueue_join s = Some s' → Inv s' left.
Proof.
  intros [Ha Hm Hid Hl Hin Hst He Hp Hw Hk Hf Hb Hwk Hal Hwo Hend]. unfold enqueue_join.
  destruct (last (mPendingRemoveThreadIds s)) as [k|] eqn:E; [|done].
  assert (∃ pend, mPendingRemoveThreadIds s = pend ++ [k]) as (pend & Ep).
  { apply last_Some in E as (pend & E). by exists pend. }
  destruct (bool_decide (k ∈ mWorkers s) && _) eqn:Eb; [done|]. intros [= <-].
  split; simpl; try done.
  - intros i Hi. apply Hp. rewrite Ep, removelast_last in Hi. rewrite Ep. apply elem_of_app. by left.
  - intros i t Hi Ht. apply list_elem_of_filter. split; [|by eapply Hw].
    intros ->. specialize (Hw _ _ Hi Ht). rewrite bool_decide_eq_true_2 in Eb by done. simpl in Eb.
    apply negb_false_iff, bool_decide_eq_true in Eb. congruence.
  - intros i [_ Hi]%list_elem_of_filter. by apply Hk.
Qed.

Lemma Inv_add s left : Inv s left → left = 0 → mStop s = false → mActiveThreadNum s < mMaxThreadNum → Inv (addThread s) left.
Proof.
  intros I El Hs Hlt. pose proof (idle_range s left I) as Hr.
  destruct I as [Ha Hm Hid Hl Hin Hst He Hp Hw Hk Hf Hb Hwk Hal Hwo Hend]. unfold mMaxThreadNum in *.
  assert (destructor s = Alive) as Hd.
  { destruct (destructor s) eqn:E; [done|..]; destruct Hst as [_ Hst]; rewrite Hst in Hs; done. }
  split; simpl; rewrite ?(wrapu_small 32 (mActiveThreadNum s + 1)), ?(wrapu_small 32 (mIdleThreads s + 1)) by lia;
    rewrite ?num_snoc, ?running_snoc, ?length_app; simpl; try done; try lia.
  - unfold mMaxThreadNum. lia.
  - intros i Hi. destruct (Hp i Hi) as [H|H]; [left|right]; by apply lookup_app_l_Some.
  - intros i t [[_ Hi]|[-> _]]%lookup_snoc_Some Ht; apply elem_of_app; [left; by eapply Hw|right; left].
  - intros i [Hi|Hi%list_elem_of_singleton]%elem_of_app; [specialize (Hk i Hi); lia|lia].
  - rewrite Hd. by intros [?|?].
  - by rewrite Hd.
Qed.

(** The task alone. *)
Definition push_task (s : Pool) (task : nat) : Pool :=
  {| threads := threads s; mWorkers := mWorkers s; mPendingRemoveThreadIds := mPendingRemoveThreadIds s;
     mTaskQueue := mTaskQueue s ++ [task]; mStop := mStop s; mInitThreadNum := mInitThreadNum s;
     mIdleThreads := mIdleThreads s; mActiveThreadNum := mActiveThreadNum s;
     enqueuing := None; notifying := S (notifying s); destructor := destructor s;
     accepted := accepted s ++ [task]; begun := begun s; finished := finished s |}.

Lemma Inv_push_task s left task : Inv s left → left = 0 → 0 < num is_alive (threads s) → Inv (push_task s task) left.
Proof.
  intros [Ha Hm Hid Hl Hin Hst He Hp Hw Hk Hf Hb Hwk Hal Hwo Hend] El Hpos.
  split; simpl; rewrite ?length_app; try done; try lia; [by rewrite Hf, app_assoc|].
  intros H. specialize (Hwk H). simpl. lia.
Qed.

Lemma Inv_push s left task : Inv s left → enqueuing s = Some task →
  Z.of_nat (length (accepted s)) + 1 < 2 ^ 31 → Inv (enqueue_task s task) left.
Proof.
  intros I Hen Hbound. assert (Z.of_nat (length (mTaskQueue s)) + 1 < 2 ^ 31) as Hq.
  { rewrite (i_fifo _ _ I), length_app in Hbound. lia. }
  assert (mStop s = false) as Hs by (apply (i_enq _ _ I); by rewrite Hen).
  assert (left = 0) as Hl0 by (destruct (i_left _ _ I) as [_ [?|[? _]]]; [done|congruence]).
  pose proof (i_active _ _ I) as Ha. pose proof (i_idle _ _ I) as Hi. pose proof (idle_alive (threads s)) as Hia.
  pose proof (i_max _ _ I) as Hmax.
  unfold enqueue_task. fold (push_task s task). cbv zeta.
  replace (u32 (Z.of_nat (length (mTaskQueue (push_task s task))))) with (Z.of_nat (length (mTaskQueue s)) + 1).
  2: { simpl. rewrite length_app, wrapu_small; simpl; lia. }
  change (mActiveThreadNum (push_task s task)) with (mActiveThreadNum s).
  change (mIdleThreads (push_task s task)) with (mIdleThreads s).
  destruct (Z.ltb_spec (mActiveThreadNum s) mMaxThreadNum) as [Hlt|Hge];
    [destruct (Z.ltb_spec (mIdleThreads s) (Z.of_nat (length (mTaskQueue s)) + 1)) as [|Hid]|]; cbn [andb].
  - change (addThread (push_task s task)) with (push_task (addThread s) task).
    apply Inv_push_task; [by apply Inv_add|done|]. simpl. rewrite num_snoc. simpl.
    pose proof (num_nonneg is_alive (threads s)). lia.
  - apply Inv_push_task; [done..|]. lia.
  - apply Inv_push_task; [done..|]. unfold mMaxThreadNum in *. lia.
Qed.

Lemma blocked_none ts : Blocked ∉ ts → num is_blocked ts = 0.
Proof.
  intros Hn. pose proof (num_nonneg is_blocked ts). enough (¬ 0 < num is_blocked ts) by lia.
  intros (t & Ht & E)%num_pos. apply bool_decide_eq_true in E. congruence.
Qed.

Lemma pool_Inv_notify s left i s' : Inv s left → enqueue_notify s i = Some s' → Inv s' left.
Proof.
  intros I. unfold enqueue_notify. destruct (notifying s) as [|n] eqn:En; [done|].
  set (s1 := Build_Pool _ _ _ _ _ _ _ _ _ _ _ _ _ _). destruct i as [i|].
  - case_bool_decide as Hi; [|done]. intros [= <-].
    pose proof (Inv_set s left i Blocked Awake I Hi ltac:(by left)) as I'.
    destruct I' as [Ha Hm Hid Hl Hin Hst He Hp Hw Hk Hf Hb Hwk Hal Hwo Hend].
    split; try done. simpl in *. intros H.
    rewrite !(num_insert _ _ _ _ _ Hi) in *. simpl in *. pose proof (i_wake _ _ I). rewrite En in *. lia.
  - case_bool_decide as Hn; [done|]. intros [= <-].
    destruct I as [Ha Hm Hid Hl Hin Hst He Hp Hw Hk Hf Hb Hwk Hal Hwo Hend].
    split; try done. simpl. rewrite blocked_none; [lia|done].
Qed.

(** All waiting threads woken. *)
Definition wake (t : thread) : thread := if decide (t = Blocked) then Awake else t.

Lemma num_wake P ts : (∀ t, P (wake t) = P t) → num P (wake <$> ts) = num P ts.
Proof. intros H. induction ts as [|t ts IH]; [done|]. simpl. rewrite H. by f_equal. Qed.

Lemma wake_no_blocked ts : num is_blocked (wake <$> ts) = 0.
Proof. apply blocked_none. intros (t & E & _)%list_elem_of_fmap. unfold wake in E. by case_decide. Qed.

Lemma wake_lookup (ts : list thread) (i : nat) t : (wake <$> ts) !! i = Some t → ∃ u, ts !! i = Some u ∧ t = wake u.
Proof. intros (u & -> & H)%list_lookup_fmap_Some. by exists u. Qed.

Lemma running_wake ts : running (wake <$> ts) = running ts.
Proof. unfold running. induction ts as [|t ts IH]; [done|]. cbn. rewrite IH. by destruct t. Qed.

Lemma Inv_destroy s left s' : Inv s left → enqueuing s = None ∨ destructor s ≠ Alive → destroy s = Some s' → Inv s' left.
Proof.
  intros I Hfree. destruct I as [Ha Hm Hid Hl Hin Hst He Hp Hw Hk Hf Hb Hwk Hal Hwo Hend]. unfold destroy.
  destruct (destructor s) eqn:Ed; [| | |done].
  - intros [= <-]. destruct Hfree as [Hn|?]; [|done].
    split; simpl; rewrite ?Hn; try done; [destruct Hl as [? [?|[? _]]]; [split; [done|by left]|]|by intros [?|?]].
    destruct Hst as [Hst _]. by destruct Hst.
  - intros [= <-]. fold (wake <$> threads s).
    change ((λ t, if decide (t = Blocked) then Awake else t) <$> threads s) with (wake <$> threads s).
    pose proof (num_wake is_alive (threads s) ltac:(by intros [])) as E1.
    pose proof (num_wake is_idle (threads s) ltac:(by intros [])) as E2.
    split; simpl; rewrite ?E1, ?E2, ?wake_no_blocked, ?running_wake, ?length_fmap; try done; try lia.
    + split; [done|]. intros _. by apply Hst.
    + intros i Hi. rewrite !list_lookup_fmap. destruct (Hp i Hi) as [->| ->]; [by left|by right].
    + intros i t (u & Hu & ->)%wake_lookup Hne. eapply Hw; [done|]. by intros ->.
  - destruct (forallb _ _) eqn:Ef; [|done]. intros [= <-]. rewrite forallb_forall in Ef.
    split; simpl; try done.
    + split; [done|]. intros _. by apply Hst.
    + intros _. by apply Hwo; left.
    + intros _ i t Hi. destruct (decide (t = Ended)) as [|Hne]; [done|].
      specialize (Ef i ltac:(by apply list_elem_of_In; eapply Hw)). apply bool_decide_eq_true in Ef. congruence.
Qed.

(** The number of tasks accepted does not fall. *)
Lemma accepted_exec s l s' : exec s l = Some s' →
  (length (accepted s) + (if decide (l = Push) then 1 else 0) ≤ length (accepted s'))%nat.
Proof.
  destruct l as [task| | |i|i|i|]; cbn [exec].
  - destruct (_ && _); [|done]. intros [= <-]. unfold enqueue_lock. destruct (mStop s); simpl; lia.
  - destruct (enqueuing s); [|done]. unfold enqueue_join. destruct (last _); [|done].
    destruct (_ && _); [done|]. intros [= <-]. simpl. lia.
  - destruct (enqueuing s), (mPendingRemoveThreadIds s); try done. intros [= <-].
    unfold enqueue_task. cbv zeta. destruct (_ && _); simpl; rewrite length_app; simpl; lia.
  - unfold enqueue_notify. destruct (notifying s); [done|]. destruct i; case_bool_decide; try done; intros [= <-]; simpl; lia.
  - destruct (threads s !! i) as [[| |task| |]|]; try done; [destruct (free s); [|done]..|]; intros [= <-]; simpl;
      [unfold take_task; destruct (mTaskQueue s)|unfold end_task|]; simpl; lia.
  - case_bool_decide; [|done]. intros [= <-]. simpl. lia.
  - destruct (_ || _); [|done]. unfold destroy. destruct (destructor s); [..|done]; [| |destruct (forallb _ _); [|done]];
      intros [= <-]; simpl; lia.
Qed.

Lemma pool_Inv_exec s left l s' : Inv s left → Z.of_nat (length (accepted s')) < 2 ^ 31 → exec s l = Some s' →
  ∃ left', Inv s' left'.
Proof.
  intros I Hb He. pose proof (accepted_exec _ _ _ He) as Hacc. revert He. destruct l as [task| | |i|i|i|]; cbn [exec].
  - destruct (free s) eqn:Ef; [|done]. destruct (negb _); [|done]. intros [= <-]. exists left.
    apply Inv_enqueue; [done|]. by apply bool_decide_eq_true in Ef.
  - destruct (enqueuing s); [|done]. intros H. exists left. by eapply Inv_join.
  - destruct (enqueuing s) eqn:E, (mPendingRemoveThreadIds s); try done. intros [= <-]. exists left.
    apply Inv_push; [done..|]. rewrite decide_True in Hacc by done. lia.
  - intros H. exists left. by eapply pool_Inv_notify.
  - destruct (threads s !! i) as [[| |task| |]|] eqn:Hi; try done.
    + destruct (free s); [|done]. intros [= <-]. by eapply pool_Inv_take.
    + destruct (free s); [|done]. intros [= <-]. exists left. apply pool_Inv_end; [done..|lia].
    + intros [= <-]. exists left. eapply Inv_set; [done..|]. naive_solver.
  - case_bool_decide as Hi; [|done]. intros [= <-]. exists left. eapply Inv_set; [done..|]. naive_solver.
  - destruct (_ || _) eqn:Ef; [|done]. intros H. exists left. eapply Inv_destroy; [done| |done].
    apply orb_prop in Ef as [E%bool_decide_eq_true|E%negb_true_iff%bool_decide_eq_false]; [by left|by right].
Qed.

(** *** The initial state *)

Lemma ThreadPool_new n : 0 ≤ n → ∃ k : nat, Z.of_nat k ≤ mMaxThreadNum ∧
  ThreadPool n = {| threads := replicate k Awake; mWorkers := seq 0 k; mPendingRemoveThreadIds := []; mTaskQueue := [];
    mStop := false; mInitThreadNum := Z.of_nat k; mIdleThreads := Z.of_nat k; mActiveThreadNum := Z.of_nat k;
    enqueuing := None; notifying := 0; destructor := Alive; accepted := []; begun := []; finished := [] |}.
Proof.
  intros Hn. unfold ThreadPool. cbv zeta. set (n' := if _ <? _ then _ else _).
  assert (0 ≤ n' ≤ mMaxThreadNum) as Hn'.
  { subst n'. unfold mMaxThreadNum. destruct (Z.ltb_spec 32 n); lia. }
  exists (Z.to_nat n'). split; [lia|]. clearbody n'. rewrite Z2Nat.id by lia.
  assert (∀ k : nat, Z.of_nat k ≤ mMaxThreadNum → Nat.iter k addThread
    {| threads := []; mWorkers := []; mPendingRemoveThreadIds := []; mTaskQueue := []; mStop := false;
       mInitThreadNum := n'; mIdleThreads := 0; mActiveThreadNum := 0;
       enqueuing := None; notifying := 0; destructor := Alive; accepted := []; begun := []; finished := [] |} =
    {| threads := replicate k Awake; mWorkers := seq 0 k; mPendingRemoveThreadIds := []; mTaskQueue := [];
       mStop := false; mInitThreadNum := n'; mIdleThreads := Z.of_nat k; mActiveThreadNum := Z.of_nat k;
       enqueuing := None; notifying := 0; destructor := Alive; accepted := []; begun := []; finished := [] |}) as H.
  { induction k as [|k IH]; intros Hk; [done|]. change (Nat.iter (S k) addThread ?x) with (addThread (Nat.iter k addThread x)). rewrite IH by lia.
    unfold addThread. cbn [threads mWorkers mPendingRemoveThreadIds mTaskQueue mStop mInitThreadNum mIdleThreads
      mActiveThreadNum enqueuing notifying destructor accepted begun finished].
    unfold mMaxThreadNum in Hk. rewrite !wrapu_small, length_replicate, <-replicate_cons_app, (seq_S k 0) by lia.
    f_equal; lia. }
  rewrite H by lia. by rewrite Z2Nat.id by lia.
Qed.

Lemma num_replicate P k t : num P (replicate k t) = Z.b2z (P t) * Z.of_nat k.
Proof. induction k as [|k IH]; [simpl; lia|]. cbn [replicate num foldr]. fold (num P (replicate k t)). rewrite IH. lia. Qed.

Lemma pool_Inv_init n : 0 ≤ n → Inv (ThreadPool n) 0.
Proof.
  intros Hn. destruct (ThreadPool_new n Hn) as (k & Hk & ->).
  split; simpl; rewrite ?num_replicate; simpl; try done; try lia.
  - by intros i ?%elem_of_nil.
  - intros i t Hi _. apply elem_of_seq. apply lookup_lt_Some in Hi. rewrite length_replicate in Hi. lia.
  - intros i Hi%elem_of_seq. rewrite length_replicate. lia.
  - clear. induction k as [|k IH]; [done|]. done.
Qed.

(** ** A measure *)

(** The steps that are owed: those of the threads and of calls that were begun. *)
Definition owed (s : Pool) (l : label) : Prop :=
  match l with
  | Join | Push | Notify _ | Step _ => True
  | Destroy => destructor s ≠ Alive
  | Enqueue _ | Spurious _ => False
  end.

Definition thread_cost (t : thread) : Z :=
  match t with Busy _ => 3 | Awake => 2 | Leaving => 1 | Blocked | Ended => 0 end.
Definition threads_cost (ts : list thread) : Z := foldr (λ t n, thread_cost t + n) 0 ts.

Definition cost (s : Pool) : Z :=
  threads_cost (threads s) + 2 * Z.of_nat (length (mTaskQueue s)) +
  Z.of_nat (length (mPendingRemoveThreadIds s)) + (if enqueuing s then 8 else 0) + 3 * Z.of_nat (notifying s) +
  match destructor s with
  | Alive | Destroyed => 0 | Stopping => 2 * num is_blocked (threads s) + 2 | Joining => 1 end.

Lemma threads_cost_insert ts i t t' : ts !! i = Some t →
  threads_cost (<[i := t']> ts) = threads_cost ts - thread_cost t + thread_cost t'.
Proof.
  revert i. induction ts as [|u ts IH]; intros [|i]; simpl; [done..|intros [= ->]; lia|].
  intros H. rewrite (IH _ H). lia.
Qed.

Lemma threads_cost_snoc ts t : threads_cost (ts ++ [t]) = threads_cost ts + thread_cost t.
Proof. induction ts as [|u ts IH]; simpl; [lia|]. rewrite IH. lia. Qed.

Lemma threads_cost_wake ts : threads_cost (wake <$> ts) = threads_cost ts + 2 * num is_blocked ts.
Proof.
  induction ts as [|t ts IH]; [done|].
  change (threads_cost (wake <$> t :: ts)) with (thread_cost (wake t) + threads_cost (wake <$> ts)).
  rewrite IH. destruct t; simpl; lia.
Qed.

Lemma threads_cost_nonneg ts : 0 ≤ threads_cost ts.
Proof. induction ts as [|t ts IH]; simpl; [lia|]. destruct t; simpl; lia. Qed.

Lemma cost_nonneg s : 0 ≤ cost s.
Proof.
  unfold cost. pose proof (threads_cost_nonneg (threads s)). pose proof (num_nonneg is_blocked (threads s)).
  destruct (enqueuing s), (destructor s); lia.
Qed.

(** A thread that changes, and does not come to wait. *)
Lemma pool_cost_step s left i s' : Inv s left → exec s (Step i) = Some s' → cost s' < cost s.
Proof.
  intros I. cbn [exec]. destruct (threads s !! i) as [[| |task| |]|] eqn:Hi; try done.
  - destruct (free s); [|done]. intros [= <-]. unfold take_task. destruct (mTaskQueue s) as [|x q] eqn:Eq.
    + destruct (i_stop _ _ I) as [_ Hst]. unfold cost. simpl. rewrite (threads_cost_insert _ _ _ _ Hi).
      rewrite (num_insert _ _ _ _ _ Hi). destruct (mStop s), (destructor s); simpl; try lia; by discriminate Hst.
    + unfold cost. simpl. rewrite (threads_cost_insert _ _ _ _ Hi), (num_insert _ _ _ _ _ Hi), Eq.
      destruct (destructor s); simpl; lia.
  - destruct (free s); [|done]. intros [= <-]. unfold end_task, cost. cbv zeta. simpl.
    rewrite (threads_cost_insert _ _ _ _ Hi), (num_insert _ _ _ _ _ Hi).
    destruct (_ && _), (destructor s); rewrite ?length_app; simpl; lia.
  - intros [= <-]. unfold cost. simpl. rewrite (threads_cost_insert _ _ _ _ Hi), (num_insert _ _ _ _ _ Hi).
    destruct (destructor s); simpl; lia.
Qed.

Lemma pool_cost_exec s left l s' : Inv s left → owed s l → exec s l = Some s' → cost s' < cost s.
Proof.
  intros I Ho. destruct l as [task| | |i|i|i|]; [done| | | |by eapply pool_cost_step|done|]; cbn [exec].
  - destruct (enqueuing s) eqn:Ee; [|done]. unfold enqueue_join.
    destruct (last (mPendingRemoveThreadIds s)) as [k|] eqn:E; [|done]. apply last_Some in E as (pend & E).
    destruct (_ && _); [done|]. intros [= <-]. unfold cost. simpl. rewrite E, removelast_last, length_app. simpl. lia.
  - destruct (enqueuing s) as [task|] eqn:Ee, (mPendingRemoveThreadIds s) eqn:Ep; try done. intros [= <-].
    unfold enqueue_task. cbv zeta. destruct (_ && _); unfold cost, addThread; simpl; rewrite Ee, ?Ep, length_app;
      rewrite ?threads_cost_snoc, ?num_snoc; destruct (destructor s); simpl; lia.
  - unfold enqueue_notify. destruct (notifying s) as [|n] eqn:En; [done|]. destruct i as [i|].
    + case_bool_decide as Hi; [|done]. intros [= <-]. unfold cost. simpl.
      rewrite (threads_cost_insert _ _ _ _ Hi), (num_insert _ _ _ _ _ Hi), En. destruct (destructor s); simpl; lia.
    + case_bool_decide; [done|]. intros [= <-]. unfold cost. simpl. rewrite En. lia.
  - destruct (_ || _); [|done]. unfold destroy. destruct (destructor s) eqn:Ed; [by destruct Ho|..]; [| |done].
    + intros [= <-]. unfold cost, with_destructor. rewrite Ed. cbn [threads mTaskQueue mPendingRemoveThreadIds enqueuing notifying destructor].
      change ((λ t, if decide (t = Blocked) then Awake else t) <$> threads s) with (wake <$> threads s).
      rewrite threads_cost_wake. lia.
    + destruct (forallb _ _); [|done]. intros [= <-]. unfold cost. simpl. rewrite Ed. lia.
Qed.

Lemma pool_Inv_reachable n s : 0 ≤ n → reachable (ThreadPool n) s → Z.of_nat (length (accepted s)) < 2 ^ 31 →
  ∃ left, Inv s left.
Proof.
  intros Hn. induction 1 as [|s l s' _ IH He]; intros Hb; [exists 0; by apply pool_Inv_init|].
  pose proof (accepted_exec _ _ _ He). destruct IH as (left & I); [lia|]. by eapply pool_Inv_exec.
Qed.

(** ** Something can go on *)

(** Nothing is left to be done, except that the pool may be destroyed. *)
Definition quiet (s : Pool) : Prop :=
  enqueuing s = None ∧ notifying s = O ∧ mTaskQueue s = [] ∧ running (threads s) = [] ∧
  (destructor s = Alive ∨ destructor s = Destroyed).

Definition enabled (s : Pool) : Prop := ∃ l s', owed s l ∧ exec s l = Some s'.

Lemma enabled_step s i t : threads s !! i = Some t → t = Leaving ∨ enqueuing s = None ∧ (t = Awake ∨ ∃ x, t = Busy x) →
  enabled s.
Proof.
  intros Hi Ht. exists (Step i). cbn [exec owed]. rewrite Hi. unfold free.
  destruct Ht as [->|[-> [->|[x ->]]]]; eauto.
Qed.

Lemma enabled_enqueue s left task : Inv s left → enqueuing s = Some task → enabled s.
Proof.
  intros I He. destruct (mPendingRemoveThreadIds s) as [|k ks] eqn:Ep using rev_ind.
  { exists Push. cbn [exec owed]. rewrite He, Ep. eauto. }
  clear IHks. destruct (i_pending _ _ I k) as [Hk|Hk]; [rewrite Ep; apply elem_of_app; right; left| |].
  - eapply enabled_step; eauto.
  - exists Join. cbn [exec owed]. rewrite He. unfold enqueue_join. rewrite Ep, last_snoc, Hk.
    rewrite (bool_decide_eq_true_2 (Some Ended = Some Ended)) by done. rewrite andb_false_r. eauto.
Qed.

Lemma enabled_notify s : notifying s ≠ O → enabled s.
Proof.
  intros Hn. destruct (notifying s) as [|n] eqn:En; [done|]. destruct (decide (Blocked ∈ threads s)) as [Hb|Hb].
  - pose proof Hb as (i & Hi)%list_elem_of_lookup. exists (Notify (Some i)). cbn [exec owed]. unfold enqueue_notify.
    rewrite En, bool_decide_eq_true_2 by done. eauto.
  - exists (Notify None). cbn [exec owed]. unfold enqueue_notify. rewrite En, bool_decide_eq_false_2 by done. eauto.
Qed.

(** Without threads that go on, all wait or have ended, and no task is left. *)
Lemma stuck_threads s left : Inv s left → enqueuing s = None → notifying s = O →
  enabled s ∨ (∀ i t, threads s !! i = Some t → t = Blocked ∨ t = Ended) ∧ mTaskQueue s = [] ∧ running (threads s) = [].
Proof.
  intros I He Hn. destruct (decide (Exists (λ t, t ≠ Blocked ∧ t ≠ Ended) (threads s))) as [H|H].
  { apply Exists_exists in H as (t & (i & Hi)%list_elem_of_lookup & ?). left. eapply enabled_step; [done|].
    destruct t; naive_solver. }
  apply not_Exists_Forall in H; [|apply _]. right.
  assert (∀ t, t ∈ threads s → t = Blocked ∨ t = Ended) as Ht.
  { intros t Hin. rewrite Forall_forall in H. specialize (H t Hin). destruct t; naive_solver. }
  split; [intros i t Hi; apply Ht; by eapply list_elem_of_lookup_2|]. split.
  - destruct (mTaskQueue s) as [|x q] eqn:Eq; [done|]. exfalso.
    assert (0 < num is_alive (threads s)) as (t & Hin & Ea)%num_pos by (apply (i_alive _ _ I); by rewrite Eq).
    destruct (Ht t Hin) as [->| ->]; [|done].
    pose proof (i_wake _ _ I) as Hw. rewrite Eq, Hn in Hw.
    assert (0 < num is_blocked (threads s)) as Hb by (apply num_pos; by exists Blocked).
    specialize (Hw Hb). simpl in Hw. assert (0 < num is_awake (threads s)) as (u & Hu & Eu)%num_pos by lia.
    apply bool_decide_eq_true in Eu as ->. by destruct (Ht _ Hu).
  - clear -Ht. induction (threads s) as [|t ts IH]; [done|]. change (task_of t ++ running ts = []). rewrite IH.
    + by destruct (Ht t (list_elem_of_here _ _)) as [->| ->].
    + intros u Hu. apply Ht. by right.
Qed.

Lemma quiet_or_enabled s left : Inv s left → quiet s ∨ enabled s.
Proof.
  intros I. destruct (enqueuing s) as [task|] eqn:He; [right; by eapply enabled_enqueue|].
  destruct (decide (notifying s = O)) as [Hn|Hn]; [|right; by apply enabled_notify].
  destruct (stuck_threads s left I He Hn) as [?|(Ht & Hq & Hr)]; [by right|].
  destruct (destructor s) eqn:Ed; [left; by repeat split; [..|left]| | |left; by repeat split; [..|right]]; right; exists Destroy.
  - cbn [exec owed]. unfold destroy, free. rewrite Ed, He. eauto.
  - cbn [exec owed]. unfold destroy, free. rewrite Ed, He. cbn. replace (forallb _ _) with true; [eauto|].
    symmetry. apply forallb_forall. intros i Hi%list_elem_of_In. pose proof (i_known _ _ I i Hi) as Hlt.
    apply lookup_lt_is_Some in Hlt as (t & Et). rewrite Et. apply bool_decide_eq_true. destruct (Ht i t Et) as [->| ->]; [|done].
    pose proof (i_woken _ _ I (or_introl Ed)). pose proof (num_ge is_blocked _ _ _ Et) as H'. simpl in H'. lia.
Qed.

Lemma ended_counts ts : (∀ i t, ts !! i = Some t → t = Ended) → num is_alive ts = 0 ∧ running ts = [].
Proof.
  intros H. assert (ts = replicate (length ts) Ended) as ->.
  { apply list_eq_same_length with (n := length ts); [by rewrite length_replicate|done|].
    intros i x y Hi Hx Hy. rewrite (H _ _ Hx). apply lookup_replicate in Hy as [-> _]. done. }
  generalize (length ts). intros k. rewrite num_replicate. split; [simpl; lia|]. clear. by induction k.
Qed.

(** ** Theorems *)

(** C24. Whatever the pool's threads, callers of [enqueue], wake-ups and its destructor do, in any
    order: at most 32 threads are alive; the tasks are begun in the order in which they were
    accepted, and each that was begun runs in one thread or has ended; the counters are exact
    until the pool is destroyed; when the destructor has returned, all threads have ended and
    exactly the accepted tasks were executed. *)
Theorem pool_tasks n s : 0 ≤ n → reachable (ThreadPool n) s → Z.of_nat (length (accepted s)) < 2 ^ 31 →
  num is_alive (threads s) ≤ mMaxThreadNum ∧
  accepted s = begun s ++ mTaskQueue s ∧ begun s ≡ₚ finished s ++ running (threads s) ∧
  (mStop s = false →
     mActiveThreadNum s = num is_alive (threads s) ∧ mIdleThreads s = num is_idle (threads s)) ∧
  (∀ i, i ∈ mPendingRemoveThreadIds s → threads s !! i = Some Leaving ∨ threads s !! i = Some Ended) ∧
  (∀ i t, threads s !! i = Some t → t ≠ Ended → i ∈ mWorkers s) ∧
  (destructor s = Destroyed →
     (∀ i t, threads s !! i = Some t → t = Ended) ∧ mTaskQueue s = [] ∧ accepted s ≡ₚ finished s).
Proof.
  intros Hn Hr Hb. destruct (pool_Inv_reachable n s Hn Hr Hb) as (left & I).
  pose proof (i_active _ _ I). pose proof (i_max _ _ I). destruct (i_left _ _ I) as [Hl Hl'].
  repeat split; [lia|apply I..| | |apply I|apply I|by apply I| |].
  - destruct Hl' as [->|[? _]]; [lia|congruence].
  - pose proof (i_idle _ _ I). destruct Hl' as [->|[? _]]; [lia|congruence].
  - destruct (ended_counts (threads s) (i_ended _ _ I ltac:(done))) as [Ha _]. pose proof (i_alive _ _ I).
    destruct (mTaskQueue s); [done|]. rewrite Ha in *. specialize (H2 ltac:(done)). lia.
  - destruct (ended_counts (threads s) (i_ended _ _ I ltac:(done))) as [Ha Hrun]. pose proof (i_alive _ _ I) as Hal.
    rewrite (i_fifo _ _ I). assert (mTaskQueue s = []) as ->.
    { destruct (mTaskQueue s); [done|]. rewrite Ha in Hal. specialize (Hal ltac:(done)). lia. }
    rewrite app_nil_r, (i_begun _ _ I), Hrun. by rewrite app_nil_r.
Qed.

(** C25. No wake-up is lost and nothing deadlocks: in every state that can be reached, either no
    task is left or runs, no call is pending and the destructor was not called or has returned, or
    a step of a thread or of a pending call is possible; and each such step lowers a cost, so that
    without further calls all accepted tasks end after finitely many steps, and the destructor
    returns. *)
Theorem pool_serves n : 0 ≤ n → ∃ cost : Pool → Z, ∀ s,
  reachable (ThreadPool n) s → Z.of_nat (length (accepted s)) < 2 ^ 31 →
  0 ≤ cost s ∧ (quiet s ∨ ∃ l s', owed s l ∧ exec s l = Some s') ∧
  ∀ l s', owed s l → exec s l = Some s' → cost s' < cost s.
Proof.
  intros Hn. exists cost. intros s Hr Hb. destruct (pool_Inv_reachable n s Hn Hr Hb) as (left & I).
  repeat split; [apply cost_nonneg|by eapply quiet_or_enabled|]. intros l s' Ho He. by eapply pool_cost_exec.
Qed.

(** ** Examples *)

Lemma run_reach n ls s : run (ThreadPool n) ls = Some s → reachable (ThreadPool n) s.
Proof.
  enough (∀ s1, reachable (ThreadPool n) s1 → run s1 ls = Some s → reachable (ThreadPool n) s) as H.
  { apply H. apply reach_refl. }
  induction ls as [|l ls IH]; intros s1 Hr; simpl; [by intros [= <-]|].
  destruct (exec s1 l) as [s2|] eqn:E; [|done]. apply IH. by eapply reach_step.
Qed.

(** Two tasks for one thread: a second thread is added, runs the second task and leaves; a third
    task makes its caller join it; then the pool is destroyed. *)
Definition pool_demo : list label :=
  [Step 0; Enqueue 7; Push; Notify (Some 0%nat); Step 0; Enqueue 8; Push; Notify None; Step 1; Step 0; Step 1;
   Enqueue 9; Step 1; Join; Push; Notify None; Destroy; Step 0; Step 0; Destroy; Step 0; Step 0; Destroy].

(** Halfway, with the second thread joined. *)
Example pool_demo_half : (λ s, (threads s, mWorkers s, mTaskQueue s, mIdleThreads s, mActiveThreadNum s)) <$>
  run (ThreadPool 1) (take 15 pool_demo) = Some ([Awake; Ended], [0%nat], [9%nat], 1, 1).
Proof. by vm_compute. Qed.

Lemma pool_tasks_witness : ∃ s, run (ThreadPool 1) pool_demo = Some s ∧ destructor s = Destroyed ∧
  accepted s = [7; 8; 9]%nat ∧ accepted s ≡ₚ finished s.
Proof.
  eexists. split; [by vm_compute|]. split; [done|]. split; [done|].
  eapply (pool_tasks 1); [lia| |by vm_compute|done]. apply (run_reach _ pool_demo). by vm_compute.
Defined.

Lemma pool_serves_witness : ∃ cost : Pool → Z, ∀ s,
  reachable (ThreadPool 4) s → Z.of_nat (length (accepted s)) < 2 ^ 31 →
  0 ≤ cost s ∧ (quiet s ∨ ∃ l s', owed s l ∧ exec s l = Some s') ∧
  ∀ l s', owed s l → exec s l = Some s' → cost s' < cost s.
Proof. apply (pool_serves 4). lia. Defined.

(** With [2 ^ 31] waiting tasks, twice their number is 0, and a thread that is idle leaves although they wait. *)
Example beNeededThreadNum_wraps : u32 (2 ^ 31 * 2) = 0.
Proof. by vm_compute. Qed.
