(* ===== verification/CamImage.v ===== *)
(** * Camera pipelines: images

    Model of the parts of [src/mivifwk/mialgoengine/] that lay an image out in memory:
    [MiaUtil::calcOffset] and [MiaUtil::copyFrame], the size [MiaBufferManager] allocates for an
    image of a pipeline, and the planes that [MiaImage] makes of it; and [MiaUtil::floatToHalf].
    A mapped buffer is a list of bytes; an address in it is an offset. *)
From Stdlib Require Import ZArith Lia Zbitwise.
From stdpp Require Import base list.
From S2P Require Import Prelude.
#[local] Open Scope Z_scope.

(** @src src/mivifwk/common/pluginutils/include/MiaPluginUtils.h:61-72 CAM_FORMAT_* *)
Definition CAM_FORMAT_YUV_420_NV21 : Z := 17.
Definition CAM_FORMAT_RAW16 : Z := 32.
Definition CAM_FORMAT_BLOB : Z := 33.
Definition CAM_FORMAT_IMPLEMENTATION_DEFINED : Z := 34.
Definition CAM_FORMAT_YUV_420_NV12 : Z := 35.
Definition CAM_FORMAT_RAW_OPAQUE : Z := 36.
Definition CAM_FORMAT_RAW10 : Z := 37.
Definition CAM_FORMAT_Y16 : Z := 540422489.
Definition CAM_FORMAT_P010 : Z := 54.

(** @src src/mivifwk/mialgoengine/MiaPostProcType.h:206-209 MIAS_OK, MIAS_INVALID_PARAM *)
Definition MIAS_OK : Z := 0.
Definition MIAS_INVALID_PARAM : Z := - 2147483647.

(** @src src/mivifwk/mialgoengine/MiaPostProcType.h:81-89 MiaImageFormat *)
Record MiaImageFormat := {
  format : Z; width : Z; height : Z; planeStride : Z; sliceheight : Z; cameraId : Z;
}.

(** @src src/mivifwk/mialgoengine/MiaFmt.h:14-25 LenOffset *)
Record LenOffset := {
  len : Z; offset : Z; offset_x : Z; offset_y : Z; stride : Z; stride_in_bytes : Z; scanline : Z;
  mp_width : Z; mp_height : Z;
}.

(** @src src/mivifwk/mialgoengine/MiaFmt.h:44-51 PaddingInfo *)
Record PaddingInfo := {
  width_padding : Z; height_padding : Z; plane_padding : Z; min_stride : Z; min_scanline : Z;
}.

(** @src src/mivifwk/mialgoengine/MiaFmt.h:53-58 LenOffsetInfo *)
Record LenOffsetInfo := { num_planes : Z; mp : list LenOffset; frame_len : Z }.

(** @src src/mivifwk/mialgoengine/MiaUtil.h:40-40 PAD_TO_SIZE

    In 32-bit unsigned arithmetic, to which all its uses promote. *)
Definition PAD_TO_SIZE (size padding : Z) : outcome Z :=
  if padding =? 0 then UB else Ret (u32 (u32 (u32 (size + padding) - 1) / padding * padding)).

(** The product of two [int32_t], as [uint32_t]. *)
Definition mul_s32 (a b : Z) : outcome Z := if decide (is_s32 (a * b)) then Ret (u32 (a * b)) else UB.

Definition plane (length stride scanline width height : Z) : LenOffset :=
  {| len := length; offset := 0; offset_x := 0; offset_y := 0; stride := stride; stride_in_bytes := stride;
     scanline := scanline; mp_width := s32 width; mp_height := s32 height |}.

Definition with_planes (b : LenOffsetInfo) (planes : list LenOffset) (frame : Z) : LenOffsetInfo :=
  {| num_planes := Z.of_nat (length planes);
     mp := planes ++ drop (length planes) (mp b); frame_len := frame |}.

(** @src src/mivifwk/mialgoengine/MiaUtil.cpp:31-57 MiaUtil::calcOffset: two planes of 8 bits *)
Definition calcOffset_YUV (f : MiaImageFormat) (p : PaddingInfo) (stride scanline : Z) (b : LenOffsetInfo)
    : outcome LenOffsetInfo :=
  n0 ← mul_s32 stride scanline;
  len0 ← PAD_TO_SIZE n0 (plane_padding p);
  scanline1 ← PAD_TO_SIZE (u32 (Z.quot scanline 2)) (plane_padding p);
  let scanline1 := s32 scanline1 in
  n1 ← mul_s32 stride scanline1;
  len1 ← PAD_TO_SIZE n1 (plane_padding p);
  frame ← PAD_TO_SIZE (u32 (len0 + len1)) 4096;
  Ret (with_planes b [plane len0 stride scanline (width f) (height f);
                      plane len1 stride scanline1 (width f) (height f / 2)] frame).

(** @src src/mivifwk/mialgoengine/MiaUtil.cpp:59-92 MiaUtil::calcOffset: RAW10, RAW16 *)
Definition calcOffset_RAW (f : MiaImageFormat) (stride : Z) (b : LenOffsetInfo) : outcome LenOffsetInfo :=
  let scanline := s32 (height f) in
  n ← mul_s32 stride scanline;
  frame ← PAD_TO_SIZE n 4096;
  Ret (with_planes b [plane frame stride scanline (width f) (height f)] frame).

(** @src src/mivifwk/mialgoengine/MiaUtil.cpp:121-158 MiaUtil::calcOffset: P010 *)
Definition calcOffset_P010 (f : MiaImageFormat) (p : PaddingInfo) (b : LenOffsetInfo) : outcome LenOffsetInfo :=
  stride ← PAD_TO_SIZE (u32 (width f * 2)) 256;
  scanline ← PAD_TO_SIZE (height f) 32;
  let stride := s32 stride in
  let scanline := s32 scanline in
  n0 ← mul_s32 stride scanline;
  len0 ← PAD_TO_SIZE n0 (plane_padding p);
  scanline1 ← PAD_TO_SIZE (height f / 2) 16;
  let scanline1 := s32 scanline1 in
  n1 ← mul_s32 stride scanline1;
  len1 ← PAD_TO_SIZE n1 (plane_padding p);
  frame ← PAD_TO_SIZE (u32 (len0 + len1)) 4096;
  Ret (with_planes b [plane len0 stride scanline (width f) (height f);
                      plane len1 stride scanline1 (width f) (height f / 2)] frame).

(** @src src/mivifwk/mialgoengine/MiaUtil.cpp:13-165 MiaUtil::calcOffset

    [bufPlanes] keeps what a format does not set. *)
Definition calcOffset (f : MiaImageFormat) (padding : option PaddingInfo) (bufPlanes : option LenOffsetInfo)
    : outcome (Z * option LenOffsetInfo) :=
  match padding, bufPlanes with
  | Some p, Some b =>
      stride ← PAD_TO_SIZE (width f) (width_padding p);
      scanline ← PAD_TO_SIZE (height f) (height_padding p);
      let stride := s32 stride in
      let scanline := s32 scanline in
      let fmt := format f in
      if bool_decide (fmt ∈ [CAM_FORMAT_YUV_420_NV21; CAM_FORMAT_YUV_420_NV12;
                             CAM_FORMAT_IMPLEMENTATION_DEFINED; CAM_FORMAT_BLOB]) then
        b ← calcOffset_YUV f p stride scanline b; Ret (MIAS_OK, Some b)
      else if fmt =? CAM_FORMAT_RAW10 then
        stride ← PAD_TO_SIZE (u32 (width f * 10) / 8) 80;
        b ← calcOffset_RAW f (s32 stride) b; Ret (MIAS_OK, Some b)
      else if fmt =? CAM_FORMAT_RAW16 then
        stride ← PAD_TO_SIZE (u32 (width f * 2)) 32;
        b ← calcOffset_RAW f (s32 stride) b; Ret (MIAS_OK, Some b)
      else if fmt =? CAM_FORMAT_RAW_OPAQUE then
        let n := u32 (width f * height f) in
        Ret (MIAS_OK, Some (with_planes b [plane n stride scanline (width f) (height f)] n))
      else if fmt =? CAM_FORMAT_Y16 then
        n ← mul_s32 stride scanline;
        len0 ← PAD_TO_SIZE n (plane_padding p);
        Ret (MIAS_OK, Some (with_planes b [plane len0 stride scanline (width f) (height f)] (frame_len b)))
      else if fmt =? CAM_FORMAT_P010 then
        b ← calcOffset_P010 f p b; Ret (MIAS_OK, Some b)
      else Ret (MIAS_INVALID_PARAM, Some b)
  | _, _ => Ret (MIAS_INVALID_PARAM, bufPlanes)
  end.

(** @src src/mivifwk/mialgoengine/MiaBufferManager.cpp:220-242 MiaBufferManager::allocateIonBuffer: the length

    [mOffsetInfo] is a local variable without an initial value. *)
Definition allocateIonBuffer (mOffsetInfo : LenOffsetInfo) (width height format : Z) : outcome (Z + Z) :=
  '(rc, b) ← calcOffset {| format := format; width := width; height := height; planeStride := 0; sliceheight := 0;
                           cameraId := 0 |}
    (Some {| width_padding := 64; height_padding := 64; plane_padding := 64; min_stride := 0; min_scanline := 0 |})
    (Some mOffsetInfo);
  match b with
  | Some b => Ret (if rc =? MIAS_OK then inr (frame_len b) else inl rc)
  | None => Ret (inl rc)
  end.

(** @src src/mivifwk/mialgoengine/MiaBufferManager.cpp:23-23 ionMemAlloc: the bytes mapped *)
Definition ion_mapped (size : Z) : Z := Z.land (u32 (size + 4095)) (u32 (Z.lnot 4095)).

(** @src src/mivifwk/mialgoengine/MiaPostProcType.h:117-147 MiaImageBuffer, MiaFrame

    Of the buffer: its mapped bytes and the offsets of [pAddr[0]] and [pAddr[1]], [None] for
    [NULL].  [MiaImage] holds the same as [mFormat] and [mBuffer]. *)
Record MiaFrame := {
  frame_format : MiaImageFormat; planes : Z; pAddr0 : option Z; pAddr1 : option Z; buffer : list Z;
}.

(** @src src/mivifwk/mialgoengine/MiaImage.cpp:279-299 MiaImage::MiaImage: padInfo *)
Definition image_padding (mtk : bool) (fmt : Z) : PaddingInfo :=
  let pad w h p := {| width_padding := w; height_padding := h; plane_padding := p; min_stride := 0; min_scanline := 0 |} in
  if fmt =? CAM_FORMAT_IMPLEMENTATION_DEFINED then pad 512 512 512
  else if fmt =? CAM_FORMAT_P010 then pad 256 32 1024
  else if mtk then pad 64 1 1 else pad 64 64 64.

(** @src src/mivifwk/mialgoengine/MiaImage.cpp:336-366 MiaImage::MiaImage: the planes of an internal image

    [memory] are the mapped bytes of its buffer. *)
Definition MiaImage (mtk : bool) (f : MiaImageFormat) (memory : list Z) : outcome MiaFrame :=
  let padInfo := image_padding mtk (format f) in
  let with_format stride slice :=
    {| format := format f; width := width f; height := height f; planeStride := stride; sliceheight := slice;
       cameraId := cameraId f |} in
  let none := {| len := 0; offset := 0; offset_x := 0; offset_y := 0; stride := 0; stride_in_bytes := 0;
                 scanline := 0; mp_width := 0; mp_height := 0 |} in
  '(rc, b) ← calcOffset f (Some padInfo) (Some {| num_planes := 0; mp := [none; none; none]; frame_len := 0 |});
  match b with
  | Some b =>
      if negb (rc =? MIAS_OK) then
        Ret {| frame_format := f; planes := 0; pAddr0 := None; pAddr1 := None; buffer := memory |}
      else
        let mp0 := default none (mp b !! 0%nat) in
        let two := num_planes b =? 2 in
        let one := num_planes b =? 1 in
        let image f' := {| frame_format := f'; planes := num_planes b;
                           pAddr0 := if two || one then Some 0 else None;
                           pAddr1 := if two then Some (len mp0) else None; buffer := memory |} in
        if (format f =? CAM_FORMAT_RAW10) || (format f =? CAM_FORMAT_RAW16) then
          Ret (image (with_format (u32 (stride mp0)) (u32 (scanline mp0))))
        else
          w ← PAD_TO_SIZE (if format f =? CAM_FORMAT_P010 then u32 (width f * 2) else width f) (width_padding padInfo);
          h ← PAD_TO_SIZE (height f) (height_padding padInfo);
          Ret (image (with_format w h))
  | None => UB
  end.

(** [memcpy]: undefined outside of the buffers. *)
Definition memcpy (dst : list Z) (d : Z) (src : list Z) (s n : Z) : outcome (list Z) :=
  if (0 <=? d) && (d + n <=? Z.of_nat (length dst)) && (0 <=? s) && (s + n <=? Z.of_nat (length src))
  then Ret (splice dst (Z.to_nat d) (slice s n src)) else UB.

(** @src src/mivifwk/mialgoengine/MiaUtil.cpp:189-192 MiaUtil::copyFrame: the rows of a plane

    [rows] rows from row [m] on. *)
Fixpoint copy_rows (rows : nat) (m : Z) (out : list Z) (o : option Z) (outPlaneStride : Z)
    (inp : list Z) (i : option Z) (inPlaneStride copyPlaneStride : Z) : outcome (list Z) :=
  match rows with
  | O => Ret out
  | S rows =>
      match o, i with
      | Some o', Some i' =>
          out ← memcpy out (o' + u32 (outPlaneStride * m)) inp (i' + u32 (inPlaneStride * m)) copyPlaneStride;
          copy_rows rows (m + 1) out o outPlaneStride inp i inPlaneStride copyPlaneStride
      | _, _ => UB
      end
  end.

(** @src src/mivifwk/mialgoengine/MiaUtil.cpp:167-203 MiaUtil::copyFrame

    For two buffers; [None] is a null frame. *)
Definition copyFrame (input output : option MiaFrame) : outcome (bool * option MiaFrame) :=
  match input, output with
  | Some inp, Some out =>
      let outPlaneStride := planeStride (frame_format out) in
      let outHeight := height (frame_format out) in
      let inPlaneStride := planeStride (frame_format inp) in
      let inHeight := height (frame_format inp) in
      let copyPlaneStride := if inPlaneStride <? outPlaneStride then inPlaneStride else outPlaneStride in
      let copyHeight := if inHeight <? outHeight then inHeight else outHeight in
      let fmt := format (frame_format out) in
      if bool_decide (fmt ∈ [CAM_FORMAT_YUV_420_NV21; CAM_FORMAT_YUV_420_NV12; CAM_FORMAT_IMPLEMENTATION_DEFINED]) then
        b ← copy_rows (Z.to_nat copyHeight) 0 (buffer out) (pAddr0 out) outPlaneStride
              (buffer inp) (pAddr0 inp) inPlaneStride copyPlaneStride;
        b ← copy_rows (Z.to_nat (Z.shiftr copyHeight 1)) 0 b (pAddr1 out) outPlaneStride
              (buffer inp) (pAddr1 inp) inPlaneStride copyPlaneStride;
        Ret (true, Some {| frame_format := frame_format out; planes := planes out; pAddr0 := pAddr0 out;
                           pAddr1 := pAddr1 out; buffer := b |})
      else Ret (false, output)
  | _, _ => Ret (false, output)
  end.

(** @src src/mivifwk/mialgoengine/MiaUtil.cpp:283-317 MiaUtil::floatToHalf

    Of the bits of the float; a negative number may not be shifted to the left. *)
Definition floatToHalf (hex32 : Z) : outcome Z :=
  let sign32 := Z.land hex32 0x80000000 in
  let biasedExponent32 := Z.land hex32 0x7F800000 in
  let mantissa32 := Z.land hex32 0x007FFFFF in
  if biasedExponent32 =? 0 then Ret 0
  else
    let exponent32 := s32 (Z.shiftr hex32 23) - 127 in
    let mantissa32 := Z.shiftr (u32 (Z.shiftr mantissa32 (23 - 10 - 1) + 1)) 1 in
    let overflow := negb (Z.land mantissa32 0x00000400 =? 0) in
    let mantissa32 := if overflow then Z.shiftr mantissa32 1 else mantissa32 in
    let exponent32 := if overflow then exponent32 + 1 else exponent32 in
    let sign16 := u16 (Z.shiftr sign32 16) in
    let mantissa16 := u16 mantissa32 in
    if exponent32 + 15 <? 0 then UB
    else
      let biasedExponent16 := u16 (Z.shiftl (exponent32 + 15) 10) in
      Ret (u16 (Z.lor (Z.lor sign16 biasedExponent16) mantissa16)).

(** 1.0 and -1.0; the largest float below 2, which becomes 3; a number too large, which becomes
    negative zero. *)
Example floatToHalf_values :
  (floatToHalf <$> [0x3F800000; 0xBF800000; 0x3FFFFFFF; 0x48000000]) = [Ret 0x3C00; Ret 0xBC00; Ret 0x4200; Ret 0x8000].
Proof. by vm_compute. Qed.

(** ** Arithmetic *)

(** The least multiple of [p] not below [n]. *)
Definition pad (n p : Z) : Z := (n + p - 1) / p * p.

Lemma PAD_TO_SIZE_pad n p : 0 ≤ n → 0 < p → n + p ≤ 2 ^ 32 → PAD_TO_SIZE n p = Ret (pad n p).
Proof.
  intros Hn Hp Hb. unfold PAD_TO_SIZE. destruct (Z.eqb_spec p 0) as [|_]; [lia|]. f_equal.
  assert (u32 (u32 (n + p) - 1) = n + p - 1) as ->.
  { destruct (decide (n + p < 2 ^ 32)) as [H|H].
    - rewrite (wrapu_small 32 (n + p)) by lia. apply wrapu_small. lia.
    - assert (n + p = 2 ^ 32) as -> by lia. by vm_compute. }
  apply wrapu_small. pose proof (Z.div_mod (n + p - 1) p). pose proof (Z.mod_pos_bound (n + p - 1) p).
  split; [apply Z.mul_nonneg_nonneg; [apply Z.div_pos|]; lia|]. unfold pad. nia.
Qed.

Lemma pad_bounds n p : 0 < p → n ≤ pad n p < n + p.
Proof.
  intros Hp. unfold pad. pose proof (Z.div_mod (n + p - 1) p). pose proof (Z.mod_pos_bound (n + p - 1) p). nia.
Qed.

Lemma pad_mono n m p : 0 < p → n ≤ m → pad n p ≤ pad m p.
Proof. intros Hp H. unfold pad. apply Z.mul_le_mono_nonneg_r; [lia|]. apply Z.div_le_mono; lia. Qed.

Lemma pad_multiple k p : 0 < p → pad (k * p) p = k * p.
Proof.
  intros Hp. unfold pad. replace (k * p + p - 1) with ((p - 1) + k * p) by lia.
  rewrite Z.div_add, Z.div_small by lia. lia.
Qed.

Lemma pad_divides n p : ∃ k, pad n p = k * p.
Proof. by exists ((n + p - 1) / p). Qed.

(** Sides of at most 16384 overflow nothing. *)
Definition side (n : Z) : Prop := 1 ≤ n ≤ 16384.

Lemma mul_s32_small a b : 0 ≤ a → 0 ≤ b → a * b < 2 ^ 31 → mul_s32 a b = Ret (a * b).
Proof.
  intros Ha Hb H. unfold mul_s32. rewrite decide_True by (unfold is_s32, INT_MIN, INT_MAX; nia).
  by rewrite wrapu_small by nia.
Qed.

Lemma ion_mapped_ge n : 0 ≤ n → n + 4095 < 2 ^ 32 → n ≤ ion_mapped n < n + 4096.
Proof.
  intros Hn Hb. unfold ion_mapped. rewrite (wrapu_small 32 (n + 4095)) by lia.
  replace (Z.land (n + 4095) (u32 (Z.lnot 4095))) with (Z.ldiff (n + 4095) (Z.ones 12)).
  - rewrite Z.ldiff_ones_r, Z.shiftr_div_pow2, Z.shiftl_mul_pow2 by lia.
    pose proof (Z.div_mod (n + 4095) (2 ^ 12)). pose proof (Z.mod_pos_bound (n + 4095) (2 ^ 12)). lia.
  - change (u32 (Z.lnot 4095)) with (Z.ldiff (Z.ones 32) (Z.ones 12)). apply Z.bits_inj'. intros i Hi.
    rewrite Z.ldiff_spec, Z.land_spec, Z.ldiff_spec, !Z.testbit_ones_nonneg by lia.
    destruct (Z.ltb_spec i 32) as [?|Hhi]; [done|].
    rewrite <-(Z.mod_small (n + 4095) (2 ^ 32)), Z.mod_pow2_bits_high by lia. done.
Qed.

(** ** The layout of each format *)

Ltac bind_ret := rewrite outcome_bind_ret_l.

Lemma calcOffset_YUV_ok f p S H b : 0 ≤ S ≤ 17000 → 0 ≤ H ≤ 17000 → 0 < plane_padding p ≤ 1024 →
  let pp := plane_padding p in
  calcOffset_YUV f p S H b = Ret (with_planes b
    [plane (pad (S * H) pp) S H (width f) (height f);
     plane (pad (S * pad (H / 2) pp) pp) S (pad (H / 2) pp) (width f) (height f / 2)]
    (pad (pad (S * H) pp + pad (S * pad (H / 2) pp) pp) 4096)).
Proof.
  intros HS HH Hp pp. unfold calcOffset_YUV. fold pp. fold pp in Hp.
  assert (0 ≤ H / 2 ≤ 8500) as Hh by (split; [apply Z.div_pos; lia|apply Z.div_le_upper_bound; lia]).
  pose proof (pad_bounds (H / 2) pp ltac:(lia)) as H1.
  pose proof (pad_bounds (S * H) pp ltac:(lia)) as H2.
  pose proof (pad_bounds (S * pad (H / 2) pp) pp ltac:(lia)) as H3.
  assert (0 ≤ S * H ≤ 289000000) by nia. assert (0 ≤ S * pad (H / 2) pp ≤ 163000000) by nia.
  rewrite (mul_s32_small S H) by lia. bind_ret. rewrite (PAD_TO_SIZE_pad (S * H)) by lia. bind_ret.
  rewrite Z.quot_div_nonneg, (wrapu_small 32 (H / 2)), (PAD_TO_SIZE_pad (H / 2)) by lia. bind_ret.
  cbv zeta. rewrite s32_small by (unfold INT_MIN, INT_MAX; lia). rewrite (mul_s32_small S) by lia. bind_ret.
  rewrite (PAD_TO_SIZE_pad (S * _)) by lia. bind_ret. by rewrite (wrapu_small 32 (_ + _)), PAD_TO_SIZE_pad by lia.
Qed.

Lemma calcOffset_RAW_ok f S b : 0 ≤ S ≤ 33000 → side (height f) →
  calcOffset_RAW f S b = Ret (with_planes b
    [plane (pad (S * height f) 4096) S (height f) (width f) (height f)] (pad (S * height f) 4096)).
Proof.
  intros HS HH. unfold side in HH. unfold calcOffset_RAW. cbv zeta. rewrite s32_small by (unfold INT_MIN, INT_MAX; lia).
  assert (0 ≤ S * height f ≤ 540672000) by nia.
  rewrite mul_s32_small by lia. bind_ret. by rewrite PAD_TO_SIZE_pad by lia.
Qed.

Lemma calcOffset_P010_ok f p b : side (width f) → side (height f) → 0 < plane_padding p ≤ 1024 →
  let S := pad (width f * 2) 256 in let H := pad (height f) 32 in let pp := plane_padding p in
  let H1 := pad (height f / 2) 16 in
  calcOffset_P010 f p b = Ret (with_planes b
    [plane (pad (S * H) pp) S H (width f) (height f); plane (pad (S * H1) pp) S H1 (width f) (height f / 2)]
    (pad (pad (S * H) pp + pad (S * H1) pp) 4096)).
Proof.
  intros Hw Hh Hp S H pp H1. unfold side in *. unfold calcOffset_P010. fold pp. fold pp in Hp.
  assert (0 ≤ height f / 2 ≤ 8192) as Hd by (split; [apply Z.div_pos; lia|apply Z.div_le_upper_bound; lia]).
  pose proof (pad_bounds (width f * 2) 256 ltac:(lia)) as B1. fold S in B1.
  pose proof (pad_bounds (height f) 32 ltac:(lia)) as B2. fold H in B2.
  pose proof (pad_bounds (height f / 2) 16 ltac:(lia)) as B3. fold H1 in B3.
  assert (0 ≤ S * H ≤ 550000000) by nia. assert (0 ≤ S * H1 ≤ 275000000) by nia.
  pose proof (pad_bounds (S * H) pp ltac:(lia)). pose proof (pad_bounds (S * H1) pp ltac:(lia)).
  rewrite (wrapu_small 32 (width f * 2)), (PAD_TO_SIZE_pad (width f * 2)) by lia. bind_ret. fold S.
  rewrite (PAD_TO_SIZE_pad (height f)) by lia. bind_ret. fold H. cbv zeta.
  rewrite !(s32_small S), !(s32_small H) by (unfold INT_MIN, INT_MAX; lia).
  rewrite (mul_s32_small S H) by lia. bind_ret. rewrite (PAD_TO_SIZE_pad (S * H)) by lia. bind_ret.
  rewrite (PAD_TO_SIZE_pad (height f / 2)) by lia. bind_ret. fold H1. rewrite !(s32_small H1) by (unfold INT_MIN, INT_MAX; lia).
  rewrite (mul_s32_small S H1) by lia. bind_ret. rewrite (PAD_TO_SIZE_pad (S * H1)) by lia. bind_ret.
  by rewrite (wrapu_small 32 (_ + _)), PAD_TO_SIZE_pad by lia.
Qed.

(** ** An internal image in its buffer *)

(** The bytes of a row. *)
Definition row_bytes (f : MiaImageFormat) : Z :=
  if bool_decide (format f ∈ [CAM_FORMAT_P010; CAM_FORMAT_RAW16]) then width f * 2
  else if format f =? CAM_FORMAT_RAW10 then width f * 10 / 8 else width f.

(** The rows of the planes lie in the buffer, the second plane behind the first. *)
Definition planes_in_buffer (i : MiaFrame) : Prop :=
  let f := frame_format i in
  let size := Z.of_nat (length (buffer i)) in
  match planes i, pAddr0 i, pAddr1 i with
  | 1, Some a0, None => 0 ≤ a0 ∧ a0 + planeStride f * height f ≤ size
  | 2, Some a0, Some a1 =>
      0 ≤ a0 ∧ a0 + planeStride f * height f ≤ a1 ∧ a1 + planeStride f * (height f / 2) ≤ size
  | _, _, _ => False
  end.

(** What an internal image of format [f] has to be, in [n] bytes. *)
Definition laid_out (mtk : bool) (f : MiaImageFormat) (n : Z) : Prop :=
  0 ≤ n < 2 ^ 31 ∧ ∀ memory, n ≤ Z.of_nat (length memory) →
  ∃ i, MiaImage mtk f memory = Ret i ∧ buffer i = memory ∧
    format (frame_format i) = format f ∧ width (frame_format i) = width f ∧ height (frame_format i) = height f ∧
    row_bytes f ≤ planeStride (frame_format i) ∧ planes_in_buffer i.

Lemma side_pads f : side (width f) → side (height f) →
  PAD_TO_SIZE (width f) 64 = Ret (pad (width f) 64) ∧ PAD_TO_SIZE (height f) 64 = Ret (pad (height f) 64) ∧
  PAD_TO_SIZE (height f) 1 = Ret (pad (height f) 1) ∧
  s32 (pad (width f) 64) = pad (width f) 64 ∧ s32 (pad (height f) 64) = pad (height f) 64 ∧
  s32 (pad (height f) 1) = pad (height f) 1 ∧
  width f ≤ pad (width f) 64 ≤ 16500 ∧ height f ≤ pad (height f) 64 ≤ 16500 ∧ pad (height f) 1 = height f.
Proof.
  unfold side. intros Hw Hh. pose proof (pad_bounds (width f) 64 ltac:(lia)).
  pose proof (pad_bounds (height f) 64 ltac:(lia)). pose proof (pad_bounds (height f) 1 ltac:(lia)).
  rewrite !PAD_TO_SIZE_pad by lia. repeat split; try lia; apply s32_small; unfold INT_MIN, INT_MAX; lia.
Qed.

(** The object that [MiaImage] starts from, and its two outcomes for a format that it knows. *)
Definition no_planes : LenOffsetInfo :=
  let none := {| len := 0; offset := 0; offset_x := 0; offset_y := 0; stride := 0; stride_in_bytes := 0;
                 scanline := 0; mp_width := 0; mp_height := 0 |} in
  {| num_planes := 0; mp := [none; none; none]; frame_len := 0 |}.

Lemma MiaImage_two mtk f memory p0 p1 n W H : 
  calcOffset f (Some (image_padding mtk (format f))) (Some no_planes) =
    Ret (MIAS_OK, Some (with_planes no_planes [p0; p1] n)) →
  (format f =? CAM_FORMAT_RAW10) || (format f =? CAM_FORMAT_RAW16) = false →
  PAD_TO_SIZE (if format f =? CAM_FORMAT_P010 then u32 (width f * 2) else width f)
    (width_padding (image_padding mtk (format f))) = Ret W →
  PAD_TO_SIZE (height f) (height_padding (image_padding mtk (format f))) = Ret H →
  MiaImage mtk f memory = Ret {| frame_format := {| format := format f; width := width f; height := height f;
      planeStride := W; sliceheight := H; cameraId := cameraId f |};
    planes := 2; pAddr0 := Some 0; pAddr1 := Some (len p0); buffer := memory |}.
Proof.
  intros E Ef EW EH. unfold MiaImage. fold no_planes. rewrite E, outcome_bind_ret_l. cbv beta iota zeta.
  rewrite Ef, EW, outcome_bind_ret_l, EH, outcome_bind_ret_l. done.
Qed.

Lemma MiaImage_one mtk f memory S H n :
  calcOffset f (Some (image_padding mtk (format f))) (Some no_planes) =
    Ret (MIAS_OK, Some (with_planes no_planes [plane n S H (width f) (height f)] n)) →
  (format f =? CAM_FORMAT_RAW10) || (format f =? CAM_FORMAT_RAW16) = true →
  MiaImage mtk f memory = Ret {| frame_format := {| format := format f; width := width f; height := height f;
      planeStride := u32 S; sliceheight := u32 H; cameraId := cameraId f |};
    planes := 1; pAddr0 := Some 0; pAddr1 := None; buffer := memory |}.
Proof.
  intros E Ef. unfold MiaImage. fold no_planes. rewrite E, outcome_bind_ret_l. cbv beta iota zeta. by rewrite Ef.
Qed.

Lemma layout_YUV mtk f garbage : side (width f) → side (height f) →
  format f ∈ [CAM_FORMAT_YUV_420_NV21; CAM_FORMAT_YUV_420_NV12; CAM_FORMAT_BLOB] →
  ∃ n, allocateIonBuffer garbage (width f) (height f) (format f) = Ret (inr n) ∧ laid_out mtk f n.
Proof.
  intros Hw Hh Hf. destruct (side_pads f Hw Hh) as (P1 & P2 & P3 & S1 & S2 & S3 & B1 & B2 & B3). unfold side in *.
  set (S := pad (width f) 64) in *. set (H := pad (height f) 64) in *.
  assert (bool_decide (format f ∈ [CAM_FORMAT_YUV_420_NV21; CAM_FORMAT_YUV_420_NV12;
    CAM_FORMAT_IMPLEMENTATION_DEFINED; CAM_FORMAT_BLOB]) = true) as Eb by (apply bool_decide_eq_true; set_solver).
  pose proof (pad_bounds (S * H) 64 ltac:(lia)). pose proof (pad_bounds (H / 2) 64 ltac:(lia)).
  assert (0 ≤ H / 2 ≤ 8250) by (split; [apply Z.div_pos; lia|apply Z.div_le_upper_bound; lia]).
  assert (height f / 2 ≤ H / 2) by (apply Z.div_le_mono; lia).
  pose proof (pad_bounds (S * pad (H / 2) 64) 64 ltac:(lia)).
  set (n := pad (pad (S * H) 64 + pad (S * pad (H / 2) 64) 64) 4096).
  pose proof (pad_bounds (pad (S * H) 64 + pad (S * pad (H / 2) 64) 64) 4096 ltac:(lia)) as Bn. fold n in Bn.
  exists n. split.
  { unfold allocateIonBuffer, calcOffset. cbn [width height format width_padding height_padding plane_padding].
    rewrite P1, P2, !outcome_bind_ret_l. cbv zeta. rewrite Eb, S1, S2.
    rewrite calcOffset_YUV_ok by (simpl; lia). by rewrite !outcome_bind_ret_l. }
  split; [split; nia|]. intros memory Hm.
  assert ((format f =? CAM_FORMAT_RAW10) || (format f =? CAM_FORMAT_RAW16) = false ∧
    (format f =? CAM_FORMAT_P010) = false ∧ (format f =? CAM_FORMAT_IMPLEMENTATION_DEFINED) = false ∧
    row_bytes f = width f) as (E1 & E2 & E3 & Er).
  { unfold row_bytes. set_unfold in Hf. by destruct Hf as [->|[->|[->|[]]]]. }
  set (H' := if mtk then height f else H). set (pp := if mtk then 1 else 64).
  assert (calcOffset f (Some (image_padding mtk (format f))) (Some no_planes) = Ret (MIAS_OK, Some (with_planes no_planes
    [plane (pad (S * H') pp) S H' (width f) (height f);
     plane (pad (S * pad (H' / 2) pp) pp) S (pad (H' / 2) pp) (width f) (height f / 2)]
    (pad (pad (S * H') pp + pad (S * pad (H' / 2) pp) pp) 4096))) ∧
    PAD_TO_SIZE (width f) (width_padding (image_padding mtk (format f))) = Ret S ∧
    PAD_TO_SIZE (height f) (height_padding (image_padding mtk (format f))) = Ret H') as (E & EW & EH).
  { unfold image_padding, calcOffset. rewrite E2, E3, Eb. subst H' pp.
    destruct mtk; cbn [width_padding height_padding plane_padding]; rewrite P1, ?P2, ?P3, !outcome_bind_ret_l; cbv zeta;
      rewrite S1, ?S2, ?S3, ?B3, calcOffset_YUV_ok by (simpl; lia); by rewrite ?outcome_bind_ret_l. }
  eexists. split; [eapply MiaImage_two; [exact E|exact E1|by rewrite E2|exact EH]|]. repeat split; simpl; [lia..| |].
  - pose proof (pad_bounds (S * H') pp ltac:(subst pp; by destruct mtk)).
    assert (S * height f ≤ S * H') by (apply Z.mul_le_mono_nonneg_l; subst H'; destruct mtk; lia). lia.
  - assert (pad (S * H') pp ≤ pad (S * H) 64).
    { subst H' pp. destruct mtk; [|lia]. pose proof (pad_bounds (S * height f) 1 ltac:(lia)). nia. }
    assert (S * (height f / 2) ≤ S * pad (H / 2) 64) by (apply Z.mul_le_mono_nonneg_l; lia). lia.
Qed.

Lemma layout_P010 mtk f garbage : side (width f) → side (height f) → format f = CAM_FORMAT_P010 →
  ∃ n, allocateIonBuffer garbage (width f) (height f) (format f) = Ret (inr n) ∧ laid_out mtk f n.
Proof.
  intros Hw Hh Hf. destruct (side_pads f Hw Hh) as (P1 & P2 & _). unfold side in *. rewrite Hf.
  set (S := pad (width f * 2) 256). set (H := pad (height f) 32). set (H1 := pad (height f / 2) 16).
  pose proof (pad_bounds (width f * 2) 256 ltac:(lia)) as BS. fold S in BS.
  pose proof (pad_bounds (height f) 32 ltac:(lia)) as BH. fold H in BH.
  pose proof (pad_bounds (height f / 2) 16 ltac:(lia)) as BH1. fold H1 in BH1.
  assert (0 ≤ height f / 2 ≤ 8192) by (split; [apply Z.div_pos; lia|apply Z.div_le_upper_bound; lia]).
  pose proof (pad_bounds (S * H) 64 ltac:(lia)). pose proof (pad_bounds (S * H1) 64 ltac:(lia)).
  set (n := pad (pad (S * H) 64 + pad (S * H1) 64) 4096).
  pose proof (pad_bounds (pad (S * H) 64 + pad (S * H1) 64) 4096 ltac:(lia)) as Bn. fold n in Bn.
  assert (pad (S * H) 1024 = S * H) as E0.
  { destruct (pad_divides (width f * 2) 256) as [a Ea], (pad_divides (height f) 32) as [b Eb]. fold S in Ea. fold H in Eb.
    replace (S * H) with (8 * a * b * 1024) by (rewrite Ea, Eb; lia). by apply pad_multiple. }
  exists n. split.
  { unfold allocateIonBuffer, calcOffset. cbn [width height format width_padding height_padding plane_padding].
    rewrite P1, P2, !outcome_bind_ret_l. cbv zeta. change (bool_decide _) with false.
    change (CAM_FORMAT_P010 =? _) with false at 1 2 3 4. change (CAM_FORMAT_P010 =? CAM_FORMAT_P010) with true.
    cbv iota. rewrite calcOffset_P010_ok by (unfold side; simpl; lia). by rewrite !outcome_bind_ret_l. }
  split; [split; nia|]. intros memory Hm.
  assert (calcOffset f (Some (image_padding mtk (format f))) (Some no_planes) = Ret (MIAS_OK, Some (with_planes no_planes
    [plane (pad (S * H) 1024) S H (width f) (height f); plane (pad (S * H1) 1024) S H1 (width f) (height f / 2)]
    (pad (pad (S * H) 1024 + pad (S * H1) 1024) 4096)))) as E.
  { unfold calcOffset. rewrite Hf. cbn [width_padding height_padding plane_padding image_padding].
    change (image_padding mtk CAM_FORMAT_P010) with {| width_padding := 256; height_padding := 32; plane_padding := 1024;
      min_stride := 0; min_scanline := 0 |}. cbn [width_padding height_padding plane_padding].
    rewrite (PAD_TO_SIZE_pad (width f)), (PAD_TO_SIZE_pad (height f)), !outcome_bind_ret_l by lia. cbv zeta. change (bool_decide _) with false.
    change (CAM_FORMAT_P010 =? _) with false at 1 2 3 4. change (CAM_FORMAT_P010 =? CAM_FORMAT_P010) with true.
    cbv iota. rewrite calcOffset_P010_ok by (unfold side; simpl; lia). by rewrite !outcome_bind_ret_l. }
  eexists. split; [eapply MiaImage_two; [exact E|by rewrite Hf|rewrite Hf|rewrite Hf]|].
  { change (width_padding _) with 256. rewrite Z.eqb_refl, (wrapu_small 32) by lia. apply PAD_TO_SIZE_pad; lia. }
  { change (height_padding _) with 32. apply PAD_TO_SIZE_pad; lia. }
  rewrite E0. fold S. assert (S * height f ≤ S * H) by nia. assert (S * (height f / 2) ≤ S * H1) by nia.
  repeat split; simpl; [|lia..].
  unfold row_bytes. rewrite Hf. change (bool_decide _) with true. cbv iota. lia.
Qed.

(** The stride of a raw format, whatever the paddings are. *)
Definition raw_stride (f : MiaImageFormat) : Z :=
  if format f =? CAM_FORMAT_RAW10 then pad (width f * 10 / 8) 80 else pad (width f * 2) 32.

Lemma calcOffset_raw f p b W H : side (width f) → side (height f) →
  format f ∈ [CAM_FORMAT_RAW16; CAM_FORMAT_RAW10] →
  PAD_TO_SIZE (width f) (width_padding p) = Ret W → PAD_TO_SIZE (height f) (height_padding p) = Ret H →
  let S := raw_stride f in
  row_bytes f ≤ S ≤ 33000 ∧ 0 ≤ S ∧
  calcOffset f (Some p) (Some b) = Ret (MIAS_OK, Some (with_planes b
    [plane (pad (S * height f) 4096) S (height f) (width f) (height f)] (pad (S * height f) 4096))).
Proof.
  intros Hw Hh Hf EW EH. unfold side in *.
  pose proof (pad_bounds (width f * 2) 32 ltac:(lia)).
  assert (0 ≤ width f * 10 / 8 ≤ 20480) by (split; [apply Z.div_pos; lia|apply Z.div_le_upper_bound; lia]).
  pose proof (pad_bounds (width f * 10 / 8) 80 ltac:(lia)).
  unfold calcOffset. rewrite EW, EH, !outcome_bind_ret_l. cbv zeta. unfold row_bytes, raw_stride.
  set_unfold in Hf. destruct Hf as [->|[->|[]]].
  - change (bool_decide (CAM_FORMAT_RAW16 ∈ [CAM_FORMAT_P010; _])) with true. change (bool_decide _) with false.
    change (CAM_FORMAT_RAW16 =? CAM_FORMAT_RAW10) with false. rewrite Z.eqb_refl. cbv iota.
    split; [lia|]. split; [lia|]. rewrite (wrapu_small 32), PAD_TO_SIZE_pad, outcome_bind_ret_l by lia.
    rewrite s32_small by (unfold INT_MIN, INT_MAX; lia).
    rewrite calcOffset_RAW_ok by (unfold side; lia). by rewrite outcome_bind_ret_l.
  - change (bool_decide _) with false. change (bool_decide _) with false. rewrite Z.eqb_refl. cbv iota.
    split; [lia|]. split; [lia|]. rewrite (wrapu_small 32), PAD_TO_SIZE_pad, outcome_bind_ret_l by lia.
    rewrite s32_small by (unfold INT_MIN, INT_MAX; lia).
    rewrite calcOffset_RAW_ok by (unfold side; lia). by rewrite outcome_bind_ret_l.
Qed.

Lemma layout_RAW mtk f garbage : side (width f) → side (height f) →
  format f ∈ [CAM_FORMAT_RAW16; CAM_FORMAT_RAW10] →
  ∃ n, allocateIonBuffer garbage (width f) (height f) (format f) = Ret (inr n) ∧ laid_out mtk f n.
Proof.
  intros Hw Hh Hf. destruct (side_pads f Hw Hh) as (P1 & P2 & P3 & _).
  destruct (calcOffset_raw f (image_padding mtk (format f)) no_planes (pad (width f) 64) (pad (height f) (if mtk then 1 else 64)))
    as (HS & HS0 & E); [done..| | |].
  1, 2: set_unfold in Hf; destruct Hf as [->|[->|[]]], mtk; done.
  set (f' := {| format := format f; width := width f; height := height f; planeStride := 0; sliceheight := 0; cameraId := 0 |}).
  set (p := {| width_padding := 64; height_padding := 64; plane_padding := 64; min_stride := 0; min_scanline := 0 |}).
  destruct (calcOffset_raw f' p garbage _ _ Hw Hh Hf P1 P2) as (_ & _ & E').
  change (raw_stride f') with (raw_stride f) in E'. set (S := raw_stride f) in *. unfold side in *.
  pose proof (pad_bounds (S * height f) 4096 ltac:(lia)). assert (0 ≤ S * height f ≤ 540672000) by nia.
  exists (pad (S * height f) 4096). split.
  { unfold allocateIonBuffer. fold f' p. rewrite E'. by rewrite outcome_bind_ret_l. }
  split; [lia|]. intros memory Hm. eexists. split; [eapply MiaImage_one; [exact E|]|].
  { set_unfold in Hf. by destruct Hf as [->|[->|[]]]. }
  repeat split; simpl; rewrite ?wrapu_small by lia; lia.
Qed.

(** ** Copies *)

Lemma memcpy_ok dst d src s n : 0 ≤ d → d + n ≤ Z.of_nat (length dst) → 0 ≤ s → s + n ≤ Z.of_nat (length src) →
  memcpy dst d src s n = Ret (splice dst (Z.to_nat d) (slice s n src)).
Proof.
  intros H1 H2 H3 H4. unfold memcpy. apply Z.leb_le in H1, H2, H3, H4. by rewrite H1, H2, H3, H4.
Qed.

(** Byte [x] of row [r] of a plane. *)
Definition pixel (b : list Z) (a stride r x : Z) : option Z := b !! Z.to_nat (a + stride * r + x).

(** Address [j] lies in the first [w] bytes of one of the rows [m] to [n - 1] of a plane. *)
Definition in_rows (a stride w m n j : Z) : Prop := ∃ r x, m ≤ r < n ∧ 0 ≤ x < w ∧ j = a + stride * r + x.

Lemma copy_rows_spec rows : ∀ m out o outS inp i inS w,
  let n := m + Z.of_nat rows in
  0 ≤ m → 0 ≤ o → 0 ≤ i → 0 ≤ w → w ≤ outS → w ≤ inS →
  o + outS * n ≤ Z.of_nat (length out) → i + inS * n ≤ Z.of_nat (length inp) →
  Z.of_nat (length out) < 2 ^ 32 → Z.of_nat (length inp) < 2 ^ 32 →
  ∃ out', copy_rows rows m out (Some o) outS inp (Some i) inS w = Ret out' ∧ length out' = length out ∧
    (∀ r x, m ≤ r < n → 0 ≤ x < w → pixel out' o outS r x = pixel inp i inS r x) ∧
    (∀ j, 0 ≤ j → ¬ in_rows o outS w m n j → out' !! Z.to_nat j = out !! Z.to_nat j).
Proof.
  induction rows as [|rows IH]; intros m out o outS inp i inS w n Hm Ho Hi Hw Hwo Hwi Bo Bi Lo Li.
  { exists out. split; [done|]. split; [done|]. split; [intros; lia|done]. }
  assert (outS * (m + 1) ≤ outS * n ∧ inS * (m + 1) ≤ inS * n) as [Mo Mi] by (split; apply Z.mul_le_mono_nonneg_l; lia).
  assert (0 ≤ outS * m ∧ 0 ≤ inS * m) as [Po Pi] by (split; apply Z.mul_nonneg_nonneg; lia).
  cbn [copy_rows]. rewrite !wrapu_small by lia. rewrite memcpy_ok, outcome_bind_ret_l by lia.
  pose proof (length_slice (i + inS * m) w inp ltac:(lia) Hw ltac:(lia)) as Ls.
  assert (length (splice out (Z.to_nat (o + outS * m)) (slice (i + inS * m) w inp)) = length out) as Lsp
    by (apply length_splice; lia).
  set (out1 := splice _ _ _) in *.
  destruct (IH (m + 1) out1 o outS inp i inS w) as (out' & E & L & Hin & Hout); rewrite ?Lsp; try lia.
  replace (m + 1 + Z.of_nat rows) with n in * by lia.
  exists out'. split; [done|]. split; [congruence|]. split.
  - intros r x Hr Hx. destruct (decide (r = m)) as [->|Hne]; [|apply Hin; lia].
    unfold pixel. rewrite Hout; [|lia|].
    + unfold out1. rewrite lookup_splice_in by lia. rewrite lookup_slice by lia. f_equal. lia.
    + intros (r & y & Hr' & Hy & Ey). assert (outS * (m + 1) ≤ outS * r) by (apply Z.mul_le_mono_nonneg_l; lia). lia.
  - intros j Hj Hn. rewrite Hout; [|done|].
    + unfold out1. destruct (decide (j < o + outS * m)); [by rewrite lookup_splice_lt by lia|].
      rewrite lookup_splice_ge; [done|lia|]. destruct (decide (o + outS * m + w ≤ j)); [lia|]. exfalso. apply Hn.
      exists m, (j - (o + outS * m)). lia.
    + intros (r & x & Hr & Hx & Ex). apply Hn. exists r, x. lia.
Qed.

(** ** Theorems *)

(** C26. For every image of up to 16384 by 16384 pixels in one of the formats NV12, NV21, BLOB,
    P010, RAW16 and RAW10, on both kinds of chips: the length that is allocated is computed
    without overflow, and the planes that [MiaImage] makes lie in the bytes mapped for it, the
    second behind the rows of the first, with rows that are long enough; although the two
    computations use different paddings. *)
Theorem internal_image_fits mtk f garbage : side (width f) → side (height f) →
  format f ∈ [CAM_FORMAT_YUV_420_NV21; CAM_FORMAT_YUV_420_NV12; CAM_FORMAT_BLOB; CAM_FORMAT_P010;
              CAM_FORMAT_RAW16; CAM_FORMAT_RAW10] →
  ∃ n, allocateIonBuffer garbage (width f) (height f) (format f) = Ret (inr n) ∧ n < 2 ^ 31 ∧
  ∀ memory, Z.of_nat (length memory) = ion_mapped n →
  ∃ i, MiaImage mtk f memory = Ret i ∧ buffer i = memory ∧
    format (frame_format i) = format f ∧ width (frame_format i) = width f ∧ height (frame_format i) = height f ∧
    row_bytes f ≤ planeStride (frame_format i) ∧ planes_in_buffer i.
Proof.
  intros Hw Hh Hf. assert (∃ n, allocateIonBuffer garbage (width f) (height f) (format f) = Ret (inr n) ∧ laid_out mtk f n)
    as (n & En & Hn & Hl).
  { destruct (decide (format f = CAM_FORMAT_P010)); [by apply layout_P010|].
    destruct (decide (format f ∈ [CAM_FORMAT_RAW16; CAM_FORMAT_RAW10])); [by apply layout_RAW|].
    apply layout_YUV; [done..|]. set_solver. }
  exists n. split; [done|]. split; [lia|]. intros memory Hm. apply Hl. rewrite Hm. apply ion_mapped_ge; lia.
Qed.

(** C27. Copying between two frames of two planes each, laid out in buffers of less than 4 GB, stays
    in the buffers, and copies the common part of the rows of both planes; all other bytes of the
    output keep their values. *)
Theorem copyFrame_copies inp out a0 a1 b0 b1 :
  pAddr0 inp = Some a0 → pAddr1 inp = Some a1 → planes inp = 2 → planes_in_buffer inp →
  pAddr0 out = Some b0 → pAddr1 out = Some b1 → planes out = 2 → planes_in_buffer out →
  Z.of_nat (length (buffer inp)) < 2 ^ 32 → Z.of_nat (length (buffer out)) < 2 ^ 32 →
  0 ≤ planeStride (frame_format inp) → 0 ≤ planeStride (frame_format out) →
  0 ≤ height (frame_format inp) → 0 ≤ height (frame_format out) →
  format (frame_format out) ∈ [CAM_FORMAT_YUV_420_NV21; CAM_FORMAT_YUV_420_NV12; CAM_FORMAT_IMPLEMENTATION_DEFINED] →
  let sI := planeStride (frame_format inp) in
  let sO := planeStride (frame_format out) in
  let w := Z.min sI sO in
  let h := Z.min (height (frame_format inp)) (height (frame_format out)) in
  ∃ out', copyFrame (Some inp) (Some out) = Ret (true, Some out') ∧
    frame_format out' = frame_format out ∧ length (buffer out') = length (buffer out) ∧
    (∀ r x, 0 ≤ r < h → 0 ≤ x < w → pixel (buffer out') b0 sO r x = pixel (buffer inp) a0 sI r x) ∧
    (∀ r x, 0 ≤ r < h / 2 → 0 ≤ x < w → pixel (buffer out') b1 sO r x = pixel (buffer inp) a1 sI r x) ∧
    ∀ j, 0 ≤ j → ¬ in_rows b0 sO w 0 h j → ¬ in_rows b1 sO w 0 (h / 2) j →
      buffer out' !! Z.to_nat j = buffer out !! Z.to_nat j.
Proof.
  intros Ha0 Ha1 Hpi HI Hb0 Hb1 Hpo HO LI LO SI SO hI hO Hf sI sO w h.
  unfold planes_in_buffer in HI, HO. rewrite Hpi, Ha0, Ha1 in HI. rewrite Hpo, Hb0, Hb1 in HO.
  destruct HI as (I0 & I1 & I2), HO as (O0 & O1 & O2). fold sI in I1, I2, SI. fold sO in O1, O2, SO.
  assert (0 ≤ h ∧ h ≤ height (frame_format inp) ∧ h ≤ height (frame_format out)) as (Hh & HhI & HhO) by lia.
  assert (0 ≤ h / 2 ∧ h / 2 ≤ height (frame_format inp) / 2 ∧ h / 2 ≤ height (frame_format out) / 2) as (Dh & DI & DO).
  { split; [apply Z.div_pos; lia|]. split; apply Z.div_le_mono; lia. }
  assert (sI * h ≤ sI * height (frame_format inp) ∧ sO * h ≤ sO * height (frame_format out)) as [M1 M2]
    by (split; by apply Z.mul_le_mono_nonneg_l).
  assert (sI * (h / 2) ≤ sI * (height (frame_format inp) / 2) ∧ sO * (h / 2) ≤ sO * (height (frame_format out) / 2)) as [M3 M4]
    by (split; by apply Z.mul_le_mono_nonneg_l).
  assert (0 ≤ sI * h ∧ 0 ≤ sO * h ∧ 0 ≤ sI * (h / 2) ∧ 0 ≤ sO * (h / 2)) as (N1 & N2 & N3 & N4)
    by (repeat split; by apply Z.mul_nonneg_nonneg).
  assert (0 ≤ sI * (height (frame_format inp) / 2) ∧ 0 ≤ sO * (height (frame_format out) / 2)) as [N5 N6] by lia.
  destruct (copy_rows_spec (Z.to_nat h) 0 (buffer out) b0 sO (buffer inp) a0 sI w)
    as (o1 & E1 & L1 & P1 & U1); rewrite ?Z2Nat.id by lia; rewrite ?Z.add_0_l; try lia.
  destruct (copy_rows_spec (Z.to_nat (h / 2)) 0 o1 b1 sO (buffer inp) a1 sI w)
    as (o2 & E2 & L2 & P2 & U2); rewrite ?L1, ?Z2Nat.id by lia; rewrite ?Z.add_0_l; try lia.
  rewrite Z2Nat.id, Z.add_0_l in P1, U1, P2, U2 by lia.
  eexists. split.
  - unfold copyFrame. cbv zeta. fold sI sO. rewrite (bool_decide_eq_true_2 _ Hf), Ha0, Ha1, Hb0, Hb1.
    replace (if sI <? sO then sI else sO) with w by (subst w; destruct (Z.ltb_spec sI sO); lia).
    match goal with |- context [if ?a <? ?b then ?a else ?b] =>
      replace (if a <? b then a else b) with h by (subst h; destruct (Z.ltb_spec a b); lia) end.
    rewrite E1, outcome_bind_ret_l. rewrite Z.shiftr_div_pow2 by lia. change (2 ^ 1) with 2.
    rewrite E2, outcome_bind_ret_l. reflexivity.
  - simpl. split; [done|]. split; [congruence|]. split; [|split; [done|]].
    + intros r x Hr Hx. rewrite <-P1 by done. unfold pixel. apply U2; [nia|].
      intros (r' & x' & Hr' & Hx' & E). assert (sO * (r + 1) ≤ sO * h) by (apply Z.mul_le_mono_nonneg_l; lia). nia.
    + intros j Hj H1 H2. rewrite U2 by done. by apply U1.
Qed.

(** ** Half floats *)

(** The fields of a float with sign [s], exponent [e] and mantissa [m]. *)
Lemma float_fields s e m : 0 ≤ s ≤ 1 → 0 ≤ e < 256 → 0 ≤ m < 2 ^ 23 →
  let hex32 := s * 2 ^ 31 + e * 2 ^ 23 + m in
  Z.land hex32 0x80000000 = s * 2 ^ 31 ∧ Z.land hex32 0x7F800000 = e * 2 ^ 23 ∧
  Z.land hex32 0x007FFFFF = m ∧ Z.shiftr hex32 23 = s * 256 + e.
Proof.
  intros Hs He Hm hex32.
  assert (Z.shiftr hex32 23 = s * 256 + e) as Hsh.
  { rewrite Z.shiftr_div_pow2 by lia. symmetry. apply (Z.div_unique_pos _ _ _ m); subst hex32; lia. }
  assert (∀ a, Z.land hex32 (Z.shiftl a 23) = Z.land (s * 256 + e) a * 2 ^ 23) as Hl.
  { intros a. rewrite <-Hsh, <-Z.shiftl_mul_pow2 by lia. apply Z.bits_inj'. intros i Hi.
    rewrite Z.land_spec, !Z.shiftl_spec by lia. destruct (decide (i < 23)).
    - by rewrite !(Z.testbit_neg_r _ (i - 23)), andb_false_r by lia.
    - rewrite Z.land_spec, Z.shiftr_spec by lia. by replace (i - 23 + 23) with i by lia. }
  split; [|split; [|split; [|done]]].
  - change 0x80000000 with (Z.shiftl 256 23). rewrite Hl. change 256 with (Z.shiftl 1 8) at 2.
    assert (s = 0 ∨ s = 1) as [->| ->] by lia.
    + replace (Z.land (0 * 256 + e) (Z.shiftl 1 8)) with 0; [lia|]. symmetry.
      rewrite <-(Z.mod_small (0 * 256 + e) (2 ^ 8)), <-Z.land_ones, <-Z.land_assoc by lia. apply Z.land_0_r.
    + replace (Z.land (1 * 256 + e) (Z.shiftl 1 8)) with 256; [lia|]. symmetry.
      assert (Z.land e 256 = 0) as E0.
      { rewrite <-(Z.mod_small e (2 ^ 8)), <-Z.land_ones, <-Z.land_assoc by lia. apply Z.land_0_r. }
      pose proof (Z.add_lor_land e 256) as E1. rewrite E0 in E1. rewrite <-Z.add_comm in E1.
      replace (1 * 256 + e) with (Z.lor e 256) by lia. rewrite Z.land_lor_distr_l. change (Z.shiftl 1 8) with 256.
      by rewrite E0.
  - change 0x7F800000 with (Z.shiftl (Z.ones 8) 23). rewrite Hl, Z.land_ones by lia. f_equal.
    symmetry. apply (Z.mod_unique_pos _ _ s); lia.
  - change 0x007FFFFF with (Z.ones 23). rewrite Z.land_ones by lia. symmetry.
    apply (Z.mod_unique_pos _ _ (s * 256 + e)); subst hex32; lia.
Qed.

(** Numbers without a common bit. *)
Lemma lor_disjoint a k b : 0 ≤ k → 0 ≤ b < 2 ^ k → Z.lor (a * 2 ^ k) b = a * 2 ^ k + b.
Proof.
  intros Hk Hb. pose proof (Z.add_lor_land (a * 2 ^ k) b) as H. enough (Z.land (a * 2 ^ k) b = 0) by lia.
  rewrite <-(Z.mod_small b (2 ^ k)), <-Z.land_ones, <-Z.shiftl_mul_pow2 by lia. apply Z.bits_inj'. intros i Hi.
  rewrite !Z.land_spec, Z.shiftl_spec, Z.testbit_ones_nonneg, Z.bits_0 by lia. destruct (Z.ltb_spec i k) as [?|?].
  - by rewrite Z.testbit_neg_r by lia.
  - by rewrite !andb_false_r.
Qed.

(** The mantissa, rounded to ten bits. *)
Lemma half_mantissa m : 0 ≤ m < 2 ^ 23 → let r := Z.shiftr (u32 (Z.shiftr m (23 - 10 - 1) + 1)) 1 in
  0 ≤ r ≤ 1024 ∧ - 2 ^ 12 ≤ r * 2 ^ 13 - m ≤ 2 ^ 12 ∧ (r = 1024 ↔ 2 ^ 23 - 2 ^ 12 ≤ m).
Proof.
  intros Hm. cbv zeta. change (23 - 10 - 1) with 12. rewrite !Z.shiftr_div_pow2 by lia.
  pose proof (Z.div_mod m (2 ^ 12)). pose proof (Z.mod_pos_bound m (2 ^ 12)).
  assert (0 ≤ m / 2 ^ 12 < 2 ^ 11) by (split; [apply Z.div_pos; lia|apply Z.div_lt_upper_bound; lia]).
  rewrite wrapu_small by lia.
  pose proof (Z.div_mod (m / 2 ^ 12 + 1) (2 ^ 1)). pose proof (Z.mod_pos_bound (m / 2 ^ 12 + 1) (2 ^ 1)). lia.
Qed.

(** C28. A float whose exponent a half float has is converted with its sign, and rounded to the
    nearest; but when the rounding carries out of the mantissa, the result is half as large again
    as the number it should be: the carry is taken for a bit of the mantissa. *)
Theorem floatToHalf_rounds s e m : 0 ≤ s ≤ 1 → 113 ≤ e ≤ 142 → 0 ≤ m < 2 ^ 23 →
  ∃ h, floatToHalf (s * 2 ^ 31 + e * 2 ^ 23 + m) = Ret (s * 2 ^ 15 + h) ∧ 0 ≤ h < 2 ^ 15 ∧
  let value := (2 ^ 10 + h mod 2 ^ 10) * 2 ^ (h / 2 ^ 10) in
  if m <? 2 ^ 23 - 2 ^ 12 then
    h / 2 ^ 10 = e - 112 ∧ Z.abs (value * 2 ^ 13 - (2 ^ 23 + m) * 2 ^ (e - 112)) ≤ 2 ^ 12 * 2 ^ (e - 112)
  else value * 2 ^ 13 = 3 * 2 ^ 23 * 2 ^ (e - 112).
Proof.
  intros Hs He Hm. destruct (float_fields s e m Hs ltac:(lia) Hm) as (F1 & F2 & F3 & F4).
  unfold floatToHalf. rewrite F1, F2, F3, F4. destruct (Z.eqb_spec (e * 2 ^ 23) 0) as [|_]; [lia|]. cbv zeta.
  pose proof (half_mantissa m Hm) as Hr. cbv zeta in Hr. set (r := Z.shiftr (u32 _) 1) in *. destruct Hr as (R1 & R2 & R3).
  rewrite s32_small by (unfold INT_MIN, INT_MAX; lia).
  assert (negb (Z.land r 0x400 =? 0) = negb (m <? 2 ^ 23 - 2 ^ 12)) as ->.
  { f_equal. destruct (Z.ltb_spec m (2 ^ 23 - 2 ^ 12)).
    - apply Z.eqb_eq. change 0x400 with (Z.shiftl 1 10).
      rewrite <-(Z.mod_small r (2 ^ 10)), <-Z.land_ones, <-Z.land_assoc by lia. apply Z.land_0_r.
    - assert (r = 1024) as -> by lia. done. }
  set (E := e - 112 + if m <? 2 ^ 23 - 2 ^ 12 then 0 else 1). set (M := if m <? 2 ^ 23 - 2 ^ 12 then r else 512).
  exists (E * 2 ^ 10 + M).
  assert (0 ≤ M < 2 ^ 10 ∧ 1 ≤ E ≤ 31) as [HM HE] by (subst M E; destruct (Z.ltb_spec m (2 ^ 23 - 2 ^ 12)); lia).
  replace (if negb _ then Z.shiftr r 1 else r) with M.
  2: { subst M. destruct (Z.ltb_spec m (2 ^ 23 - 2 ^ 12)); simpl; [done|]. by assert (r = 1024) as -> by lia. }
  replace (if negb _ then s * 256 + e - 127 + 1 else s * 256 + e - 127) with (s * 256 + E - 15).
  2: { subst E. destruct (Z.ltb_spec m (2 ^ 23 - 2 ^ 12)); simpl; lia. }
  replace (s * 256 + E - 15 + 15) with (s * 256 + E) by lia.
  destruct (Z.ltb_spec (s * 256 + E) 0) as [|_]; [lia|].
  replace (u16 (Z.shiftr (s * 2 ^ 31) 16)) with (s * 2 ^ 15) by (assert (s = 0 ∨ s = 1) as [->| ->] by lia; done).
  replace (u16 (Z.shiftl (s * 256 + E) 10)) with (E * 2 ^ 10).
  2: { rewrite Z.shiftl_mul_pow2 by lia. apply (Z.mod_unique_pos _ _ (4 * s)); lia. }
  rewrite !(wrapu_small 16 M) by lia. split; [f_equal|split; [lia|]].
  { rewrite (lor_disjoint s 15) by lia. replace (s * 2 ^ 15 + E * 2 ^ 10) with ((s * 32 + E) * 2 ^ 10) by lia.
    rewrite lor_disjoint by lia. rewrite wrapu_small by lia. lia. }
  assert ((E * 2 ^ 10 + M) / 2 ^ 10 = E) as -> by (symmetry; apply (Z.div_unique_pos _ _ _ M); lia).
  assert ((E * 2 ^ 10 + M) mod 2 ^ 10 = M) as -> by (symmetry; apply (Z.mod_unique_pos _ _ E); lia).
  assert (0 < 2 ^ (e - 112)) by (apply Z.pow_pos_nonneg; lia).
  subst E M. destruct (Z.ltb_spec m (2 ^ 23 - 2 ^ 12)).
  - rewrite Z.add_0_r. split; [done|]. nia.
  - rewrite Z.pow_add_r by lia. change (2 ^ 1) with 2. lia.
Qed.

(** ** Examples *)

Lemma internal_image_fits_witness : ∃ n,
  allocateIonBuffer no_planes 4000 3000 CAM_FORMAT_YUV_420_NV12 = Ret (inr n) ∧ n < 2 ^ 31 ∧
  ∀ memory, Z.of_nat (length memory) = ion_mapped n → ∃ i,
    MiaImage true {| format := CAM_FORMAT_YUV_420_NV12; width := 4000; height := 3000; planeStride := 0;
                     sliceheight := 0; cameraId := 0 |} memory = Ret i ∧ planes_in_buffer i.
Proof.
  set (f := {| format := CAM_FORMAT_YUV_420_NV12; width := 4000; height := 3000; planeStride := 0;
               sliceheight := 0; cameraId := 0 |}).
  destruct (internal_image_fits true f no_planes) as (n & En & Hn & H); [unfold side; simpl; lia..| |].
  { apply list_elem_of_In. vm_compute. tauto. }
  exists n. split; [exact En|]. split; [exact Hn|]. intros memory Hm.
  destruct (H memory Hm) as (i & Ei & _ & _ & _ & _ & _ & Hi). by exists i.
Defined.

(** The format that a device chooses is laid out with other paddings than it is allocated with:
    the second plane ends outside of the buffer. *)
Example implementation_defined_outside :
  let f := {| format := CAM_FORMAT_IMPLEMENTATION_DEFINED; width := 4000; height := 3000; planeStride := 0;
              sliceheight := 0; cameraId := 0 |} in
  allocateIonBuffer no_planes 4000 3000 CAM_FORMAT_IMPLEMENTATION_DEFINED = Ret (inr 18321408) ∧
  (i ← MiaImage false f []; Ret (pAddr1 i, planeStride (frame_format i))) = Ret (Some 12582912, 4096) ∧
  18321408 < 12582912 + 4096 * (3000 / 2).
Proof. by vm_compute. Qed.

(** The length of a buffer for the depth format is what the stack held. *)
Example Y16_length_unset n :
  allocateIonBuffer {| num_planes := 0; mp := []; frame_len := n |} 640 480 CAM_FORMAT_Y16 = Ret (inr n).
Proof. by vm_compute. Qed.

(** Frames of 2 by 2 pixels, with rows of 3 and of 4 bytes. *)
Definition small_frame (stride : Z) (b : list Z) : MiaFrame :=
  {| frame_format := {| format := CAM_FORMAT_YUV_420_NV12; width := 2; height := 2; planeStride := stride;
                        sliceheight := 2; cameraId := 0 |};
     planes := 2; pAddr0 := Some 0; pAddr1 := Some (2 * stride); buffer := b |}.

Lemma copyFrame_copies_witness :
  copyFrame (Some (small_frame 3 [1; 2; 3; 4; 5; 6; 7; 8; 9])) (Some (small_frame 4 (replicate 12 0))) =
    Ret (true, Some (small_frame 4 [1; 2; 3; 0; 4; 5; 6; 0; 7; 8; 9; 0])) ∧
  ∃ out', copyFrame (Some (small_frame 3 [1; 2; 3; 4; 5; 6; 7; 8; 9])) (Some (small_frame 4 (replicate 12 0))) =
    Ret (true, Some out') ∧ length (buffer out') = 12%nat.
Proof.
  split; [by vm_compute|].
  destruct (copyFrame_copies (small_frame 3 [1; 2; 3; 4; 5; 6; 7; 8; 9]) (small_frame 4 (replicate 12 0)) 0 6 0 8)
    as (out' & E & _ & L & _); try (by vm_compute).
  { apply list_elem_of_In. vm_compute. tauto. }
  exists out'. split; [exact E|exact L].
Defined.

(** 1.9999999 becomes 3.0. *)
Lemma floatToHalf_rounds_witness : ∃ h, floatToHalf 0x3FFFFFFF = Ret h ∧
  (2 ^ 10 + h mod 2 ^ 10) * 2 ^ (h / 2 ^ 10) * 2 ^ 13 = 3 * 2 ^ 23 * 2 ^ (127 - 112).
Proof.
  destruct (floatToHalf_rounds 0 127 (2 ^ 23 - 1)) as (h & E & _ & V); [lia..|].
  exists h. split; [exact E|exact V].
Defined.
